(* ===== verification/_CoqProject ===== *)
-Q . S2P
Prelude.v
Snowflake.v
PyStr.v
Redis.v
RateLimit.v
Permission.v
Token.v
Sessions.v
Pairing.v
Accounts.v
Planner.v
Scheduler.v
Guards.v
Cameras.v
Tickets.v
Live.v
Storage.v
Sweep.v
EventPipeline.v
Indexer.v
Archive.v
Recordings.v
Policies.v
Recorder.v
Json.v
Normalizer.v
Subscriptions.v
Flow.v
Cron.v
Launcher.v
Updater.v
Migrations.v
AccessControl.v
Vision.v
Tracker.v
NodeAgents.v
Counting.v
Detections.v
Faces.v
Playback.v
Media.v
Sharing.v
Review.v
Schedules.v
Dashboards.v
ApiAccess.v
Export.v
Jobs.v
Edge.v
Plates.v
