(* ===== verification/Prelude.v ===== *)
(** * AeroX Protect: a verification development

    AeroX Protect is a video management system: cameras are recorded to disk by ffmpeg
    children, the recordings are indexed in MariaDB and kept or deleted by policy,
    inference and encoder nodes are given cameras and report detections, vendor and
    object events run through policies into recordings and notifications, and users,
    wall monitors and share links look at the result.  The server is Python (Flask,
    SQLAlchemy, Redis, Celery); on Windows a launcher keeps its processes alive and
    updates them.

    The development is a shallow embedding: a table is a list of records in primary-key
    order (or a [gmap] where the code only looks rows up), Redis is a map with expiry on
    the shared clock, a service call is a function from the world to a result and a
    new world, an exception is a value, ORDER BY and [sorted] are the same stable
    sort.  Instants are microseconds in [Z]; columns of fixed width say so.

    ** Files, parts of the program, and what is shown

    - Prelude: Python's truthiness and [or], [max(key=)], stable sorting, list, option
      and integer lemmas, the error-state monad [M] with the rules for what a program
      keeps ([keeps_bind] and the like), hint databases.
    - PyStr: [strip], [int], [isdigit], [split], [startswith], decimal printing on ASCII.
    - Redis: the commands the services use (util of server/__init__.py's client), each of
      which can fail; expiry.
    - Json: decoded JSON with Python's [==], truthiness, [in], [str], [json.dumps].
    - Snowflake: server/util/snowflake.py.  Ids of one generator increase strictly under
      any clock; two instances never collide; the wait for the next millisecond
      ends when the clock moves.
    - Permission, Token, Sessions, Accounts: service/permission.py, service/token.py,
      controller/auth.py, user.py, role.py, model/user.py, refresh_token.py, role.py,
      audit_log.py.  Token defines tokens and revocation against the interface [JwtLib]
      of a JWT library; Sessions proves end to end what the token service promises
      (one usable refresh token per family, a replay burns the family, kinds of token
      never pass for one another, revocation reaches every session); Accounts proves
      lock-out, that an administrator remains (but for one falsy flag), that nobody
      grants what they do not hold, and that refused requests change nothing.
    - Planner, Scheduler: service/ai_scheduler.py, encode_scheduler.py, the node
      registries and supervision tasks.  Planner is the pure placement with its
      specification; Scheduler instantiates it for both registries: capacity is never
      exceeded, placement is work-conserving, a lost node holds no camera.
    - Storage, Sweep, Indexer, Archive: service/storage_manager.py, retention_engine.py,
      cache_buffer.py, segment_indexer.py, task/list/segment_sweep.py, model/segment.py,
      recording.py, storage_policy.py, disk.py.  Retention: protected footage survives,
      caps (5000 segments a run) and ages are enforced.  Sweep: an evacuation ends and moves what can be
      moved.  Archive is the abstract specification (which footage can be played) and the
      refinement theorem that every storage operation is a step of it.
    - EventPipeline, Recordings, Recorder: service/event_pipeline.py,
      event_policy_resolver.py, event_clip.py, schedule_resolver.py, model/event.py,
      event_outbox.py, controller/recording.py, worker/recorder/supervisor.py.  One active
      event per key, recorded clips are kept by retention (composing with Storage), the
      most specific policy wins; one running manual recording per camera; a recorder
      tick converges to the desired set, never leaves a stray child, indexes the last
      segment before it forgets a recorder (composing with Indexer).
    - Flow, Cron: service/flow_engine.py, clause.py, trigger_router.py, model/flow.py,
      flow_run.py, task/list/outbox_consumer.py, util/cron.py.  A validated graph runs
      each reached node once and ends; cron matching means what the expression says.
    - AccessControl: service/access_control.py, controller/access.py, driver/door.py and
      the door, credential and access-event models: a swipe is granted exactly when
      entitled; an open door has a logged grant.
    - Vision, Counting, Detections: service/detection_ingest.py, object_trigger_engine.py,
      smoke_alert.py, counting.py, geometry.py, label_map.py and their models.  Vision holds
      the shared rows and the world (event world + inference registry); stored
      detections are well formed, a lost node stores nothing (composing with
      Scheduler), a trigger promotes once per cooldown, a line counts every track on
      its own.
    - Playback, Sharing: service/playback_planner.py, service/share_link.py and
      controller/share_link.py: the timeline partitions its window; a share token serves
      only footage its creator could see.
    - Launcher, Updater: windows/launcher/axp_launcher/supervisor.py and update.py: a
      wanted service that is down, its handle cleared, is spawned again; a failed update is undone and
      never costs the previous version.
    - Pairing: service/pairing_code.py, model/pairing_code.py, controller/monitor.py: a
      code lets one claim through whatever runs in between its steps, and a fresh code
      pairs its monitor (with the tokens of Sessions).
    - Tracker: worker/detector/tracker.py, sampler.py, zones.py: greedy matching, one
      announcement and one loss per track, the report rate, agreement of the node's
      geometry with the server's (Vision).
    - NodeAgents: worker/encoder/node_agent.py and worker/detector/node_agent.py: one proof
      that sessions follow the work orders, against an interface both agents implement;
      ffmpeg children accounted for; with Scheduler, viewers are switched only to
      sessions that run; with Detections, batches are read whole.
    - Guards: server/decorator.py and the request hook of server/__init__.py: a handler runs
      only with a live token and the permission of its route (on Sessions and Permission);
      a node has one token (on Scheduler).
    - RateLimit, ApiAccess: service/api_token.py, controller/api_token.py, external.py,
      driver/webhook.py and their models: an API token sees its cameras only, delegates no
      more than its creator holds, is dead once revoked and is held to its rate; events
      leave only to subscribers that may have them, at addresses that were checked.
    - Export: controller/export.py, task/list/transcode.py, the export builders of
      service/ffmpeg.py: the cut holds exactly the recorded instants of the window; a
      clip reaches its requester only, with the watermark and password asked for.
    - Cameras: controller/camera.py, service/go2rtc_sync.py, task/list/camera_health.py,
      model/camera.py, model/stream.py, driver/go2rtc.py (on Scheduler): nothing a user
      enters becomes a directive of go2rtc; one health pass restores a restarted go2rtc
      and reports each camera's change once; the tables stay well formed.
    - Edge: service/edge_recording.py, its job model, controller and task, driver/edge.py (on
      Storage and Playback): gaps are the missing footage, an import closes them.
    - Plates: service/lpr_ingest.py, plate_normalize.py, controller/lpr.py and their models (on
      Detections): reads, watchlist and alerts of a batch.
    - Tickets: service/live_ticket.py, update_ticket.py and the launcher's control.py (windows):
      a ticket is good for its stream and time; launcher and server agree on tickets.
    - Live: view/api/live.py with the proxies in front of it (frontend/nginx.conf, the
      Caddyfile) (on Cameras, Sessions, Tickets): live media and WebSockets reach entitled
      users only, behind nginx as long as a request carries no X-Live-Src header.
    - Media: view/api/playback.py, the playlist of playback_planner.py, encode_offload.py
      (on Live, Storage, Scheduler): recorded media reaches entitled users only, a playlist
      plays its window, offloading a rendition leaves the nodes' gauges balanced.
    - Faces: service/face_ingest.py, face_match.py, audio_ingest.py, controller/face.py and
      their models (on Detections and Vision's raised events): faces are matched against
      consenting identities only, and an erased one stays erased.
    - Normalizer, Subscriptions: service/event_normalizer.py, task/list/event_subscription.py,
      driver/isapi_event.py, onvif_event.py, sunapi_event.py, event_base.py (on
      EventPipeline): an alarm has one event from on to off; an alert stream may be cut
      anywhere; one worker per camera while its lease is kept and nobody asks for another
      beside it, and a broken subscription is taken up again.
    - Review: controller/event.py, controller/bookmark.py (on EventPipeline, Storage, Sharing's
      callers): what is saved or locked survives retention, and requests stay in scope.
    - Policies: controller/storage.py, service/disk_scanner.py (on Storage, Sweep, Recordings): a
      change of policy reaches its own row and the next retention run; disks register once.
    - Migrations: service/db_migrate.py (on PyStr): a recorded migration never runs again, and a
      failed upgrade resumes where it failed.
    - Jobs: controller and task of timelapses, controller/archive.py, service/archiver.py (on
      Export): a deferred timelapse runs, a done archive lists what it holds.
    - Schedules: controller/schedule.py, controller/event_policy.py (on EventPipeline, Sharing):
      a schedule means its windows, a preview says what an event gets.
    - Dashboards: controller/dashboard.py (on Json, Sharing): stored layouts are well formed,
      access to a dashboard was granted by somebody who could.
    State and operations keep the source's names; where two files of the source use one
    name the Rocq name carries a suffix or the file's stem tells them apart.  Each file's
    own header lists what it leaves out.

    ** Bounds and fuel

    Batch limits are the source's (retention 2000 and 5000 rows, promotion 500, pruning
    2000, evacuation 200, [MAX_STEPS] 100 for a flow, 2000 detections a report).
    Recursion that the source writes as [while] carries fuel: the Snowflake wait (with
    lemmas that more fuel changes nothing and that enough fuel returns), the
    evacuation loop (fuel = rows + 1; [evacuation_completes] shows it is enough), the flow queue
    ([MAX_STEPS]; each step takes one off).  Everything else is structural.

    ** Parameters

    Code outside the repository is an argument: PyJWT and uuid, argon2, sha256 and
    md5, tzdata's offset and [datetime.timestamp], [float()] and [repr] of floats,
    the operating system (listdir, stat, unlink, move, makedirs, spawn, disk usage),
    ffprobe, sha256 and the random digits of pairing codes, go2rtc's consumer counts, the order in which Python iterates a set, the
    drivers behind an automation action, GitHub and the disk under the updater, what
    a service's start meets under the launcher, the answers of subscribers and of the
    resolver, Fernet, the runs of ffmpeg for exports and renditions, HMAC, the XML parser, go2rtc's answers and frames, the
    answers of a camera to a probe, the clips a camera holds.  Where a theorem relies on documented behaviour
    of one of them, that is a class or a named hypothesis, and its witness
    instantiates it.  The clock and Redis slice of the [Store] world and of the
    scheduler's [Sched] world are separate: the two services never touch each other's
    keys.

    Floating-point numbers are exact rationals (with texts for nan and infinities where
    detections are read), [int()] reads digits of any number where Python stops at 4300,
    and the database refuses no row for the width of a column unless a file says so.

    ** What modelling showed

    Behaviours that contradict a comment or their evident purpose are stated as lemmas
    of their own, next to the code they are about: [per_camera_pin_is_shared] and
    [protected_deleted_last] (Storage), [promotion_starves] (Sweep),
    [end_in_cooldown_leaves_clip] (EventPipeline), [set_mode_drops_inherited_limits]
    (Recordings), [over_capacity_does_not_stop], [recording_mode_is_ignored] and
    [makedirs_fault_starves_others] (Recorder), [malformed_source_fails_every_event]
    (Flow), [scope_guard_skips_empty_entry] and [falsy_is_active_passes_last_admin_guard]
    (Accounts), [last_view_blocks_media] (Sharing),
    [token_escapes_camera_scope] and [malformed_subscription_stops_fan_out] (ApiAccess),
    [cancelled_export_still_finishes], [failed_archive_leaves_the_clip] and
    [protected_export_named_as_video] (Export), [long_loitering_never_reported]
    (Counting), [revoked_monitor_pairs_again] and
    [equal_codes_pair_the_newer_monitor] (Pairing),
    [edit_syncs_the_old_streams], [reprobe_finds_streams_unknown],
    [refused_edit_removes_streams], [refused_camera_is_registered],
    [host_keeps_line_break], [edit_makes_a_duplicate], [malformed_item_ends_the_batch]
    and [role_reaches_the_source] (Cameras), [imported_clip_plays_twice],
    [failed_makedirs_ends_auto_import] and [broker_fault_ends_the_scan] (Edge),
    [removed_plate_cannot_return], [entry_of_any_kind], [one_row_aborts_the_batch] and
    [other_scripts_collide] (Plates), [launcher_ignores_the_jwt_secret] and
    [foreign_tag_raises] (Tickets), [live_header_opens_any_stream] (Live),
    [thumb_cache_never_hits] and [frame_of_a_corrupt_segment] (Media), [erased_face_remains_in_observations],
    [a_long_reference_matches_everyone] and [bad_score_ends_the_batch] (Faces),
    [closed_stream_is_polled_forever], [resubscribe_runs_two_workers],
    [deleted_camera_keeps_reporting], [late_worker_is_joined] and
    [vanished_key_never_ends] (Subscriptions), [bookmark_locks_any_recording],
    [saving_may_release], [excluded_camera_is_listed] and
    [edited_bookmark_runs_backwards] (Review), [one_crash_counts_twice] and [crashloop_with_child_is_stuck] (Launcher),
    [failed_check_restarts_everything], [stale_target_asks_for_recovery] and
    [rollback_fault_leaves_all_down] (Updater).

    ** Not modelled, and why

    The web frontend and the view layer (request parsing and JSON rendering around the
    controllers); drivers for cameras, mail, SMS, push, speakers and federation (pure I/O
    to third-party protocols); the seeds, the Celery glue and the Windows installer.  Frame
    capture, inference and the embeddings of semantic search are numerical code on images.
    Site maps are rows without rules; federation, discovery and PTZ are mostly
    calls to other servers and devices. *)

From stdpp Require Export base gmap strings list sorting.
From Stdlib Require Export ZArith Lia Bool.

(** Integers of the source are unbounded Python ints; a few columns are
    machine-width and say so where they are used. *)
Global Open Scope Z_scope.

(** ** Python truthiness and the [x or d] idiom *)

Definition truthy_Z (o : option Z) : bool :=
  match o with Some n => negb (n =? 0) | None => false end.

Definition truthy_str (o : option string) : bool :=
  match o with Some s => negb (bool_decide (s = EmptyString)) | None => false end.

(** [o or d] on an optional int. *)
Definition or_Z (o : option Z) (d : Z) : Z :=
  if truthy_Z o then default d o else d.

(** [o or d] on an optional string. *)
Definition or_str (o : option string) (d : string) : string :=
  if truthy_str o then default d o else d.

Lemma or_Z_zero (o : option Z) : or_Z o 0 = default 0 o.
Proof. destruct o as [n|]; [|done]. unfold or_Z; simpl. destruct (Z.eqb_spec n 0); by subst. Qed.

(** ** [max(xs, key=f)]: the first element with the greatest key *)

Definition pick_max {A} (key : A -> Z) (best x : A) : A :=
  if key best <? key x then x else best.

Definition max_on {A} (key : A -> Z) (l : list A) : option A :=
  match l with
  | [] => None
  | x :: r => Some (foldl (pick_max key) x r)
  end.

(** ** Stable ascending sort, as [sorted(xs, key=f)] and [ORDER BY f ASC] *)

Fixpoint insert_on {A} (key : A -> Z) (x : A) (l : list A) : list A :=
  match l with
  | [] => [x]
  | y :: r => if key x <=? key y then x :: y :: r else y :: insert_on key x r
  end.

Definition sort_on {A} (key : A -> Z) (l : list A) : list A :=
  foldr (insert_on key) [] l.

(** [q.limit(n)] *)
Definition limit {A} (n : nat) (l : list A) : list A := take n l.

(** Sum of integers over a list. *)
Definition sum_on {A} (f : A -> Z) (l : list A) : Z := foldr (fun x s => f x + s) 0 l.

(** Number of elements satisfying a boolean test. *)
Definition count_on {A} (f : A -> bool) (l : list A) : Z :=
  sum_on (fun x => if f x then 1 else 0) l.

(** ** Effects: state passing with exceptions

    A handler of the source reads and writes a world [W] (the database, Redis,
    the clock) and either returns or raises [E].  A raise keeps the writes made
    before it: rows already committed stay committed. *)

Definition M (W E A : Type) : Type := W -> (E + A) * W.

Definition ret {W E A} (a : A) : M W E A := fun w => (inr a, w).
Definition raise {W E A} (e : E) : M W E A := fun w => (inl e, w).
Definition bind {W E A B} (m : M W E A) (k : A -> M W E B) : M W E B :=
  fun w => match m w with
           | (inr a, w1) => k a w1
           | (inl e, w1) => (inl e, w1)
           end.
Definition gets {W E A} (f : W -> A) : M W E A := fun w => (inr (f w), w).
Definition modify {W E} (f : W -> W) : M W E unit := fun w => (inr tt, f w).
(** [try: m except e: h e] *)
Definition try_with {W E A} (m : M W E A) (h : E -> M W E A) : M W E A :=
  fun w => match m w with
           | (inr a, w1) => (inr a, w1)
           | (inl e, w1) => h e w1
           end.
Definition when {W E} (b : bool) (m : M W E unit) : M W E unit :=
  if b then m else ret tt.

(** Run [f] on each element in order. *)
Fixpoint for_each {W E A} (l : list A) (f : A -> M W E unit) : M W E unit :=
  match l with
  | [] => ret tt
  | x :: r => bind (f x) (fun _ => for_each r f)
  end.

Notation "'let!' x := c 'in' k" := (bind c (fun x => k))
  (at level 10, x name, c at level 100, k at level 200).
Notation "c ;;; k" := (bind c (fun _ => k)) (at level 199, right associativity).

(** ** Python dictionaries: keys in the order of their first insertion *)

Definition dict (A : Type) : Type := list (Z * A).

Fixpoint dict_get {A} (k : Z) (d : dict A) : option A :=
  match d with [] => None | (k', a) :: r => if k' =? k then Some a else dict_get k r end.
Fixpoint dict_set {A} (k : Z) (a : A) (d : dict A) : dict A :=
  match d with [] => [(k, a)] | (k', b) :: r => if k' =? k then (k', a) :: r else (k', b) :: dict_set k a r end.
(** [d.pop(k, None)] *)
Definition dict_pop {A} (k : Z) (d : dict A) : dict A := List.filter (fun e => negb (fst e =? k)) d.
Definition dict_keys {A} (d : dict A) : list Z := fst <$> d.

(** ** Tactics *)

Create HintDb axp.

(** Split every boolean comparison on [Z] found in the goal or hypotheses. *)
Ltac zcase :=
  match goal with
  | |- context [Z.ltb ?a ?b] => destruct (Z.ltb_spec a b)
  | |- context [Z.leb ?a ?b] => destruct (Z.leb_spec a b)
  | |- context [Z.eqb ?a ?b] => destruct (Z.eqb_spec a b)
  | H : context [Z.ltb ?a ?b] |- _ => destruct (Z.ltb_spec a b)
  | H : context [Z.leb ?a ?b] |- _ => destruct (Z.leb_spec a b)
  | H : context [Z.eqb ?a ?b] |- _ => destruct (Z.eqb_spec a b)
  end.

Ltac zcases := repeat (zcase; simpl in *).

(** Decide a closed proposition by evaluation. *)
Ltac decide_it := apply (bool_decide_unpack _); by vm_compute.

(** Destruct the scrutinee of a [match] or [if] in the goal, keeping the equation. *)
Ltac dmatch :=
  match goal with
  | |- context [match ?x with _ => _ end] => let E := fresh "E" in destruct x eqn:E
  end.

Ltac dmatch_in H :=
  match type of H with
  | context [match ?x with _ => _ end] => let E := fresh "E" in destruct x eqn:E
  end.

(** ** Inversion of successful effectful runs *)

Section MonadInversion.
Context {W E : Type}.

Lemma bind_inr {A B} (m : M W E A) (k : A -> M W E B) w b w' :
  bind m k w = (inr b, w') -> exists a w1, m w = (inr a, w1) /\ k a w1 = (inr b, w').
Proof. unfold bind. destruct (m w) as [[e|a] w1]; [done|]. eauto. Qed.

Lemma ret_inr {A} (a b : A) (w w' : W) : ret (E:=E) a w = (inr b, w') -> b = a /\ w' = w.
Proof. unfold ret. naive_solver. Qed.

Lemma gets_inr {A} (f : W -> A) b (w w' : W) : gets (E:=E) f w = (inr b, w') -> b = f w /\ w' = w.
Proof. unfold gets. naive_solver. Qed.

Lemma modify_inr (f : W -> W) (u : unit) (w w' : W) : modify (E:=E) f w = (inr u, w') -> w' = f w.
Proof. unfold modify. naive_solver. Qed.

Lemma raise_inr {A} (e : E) (a : A) (w w' : W) : raise e w <> (inr a, w').
Proof. done. Qed.

Lemma bind_run {A B} (m : M W E A) (k : A -> M W E B) w a w1 :
  m w = (inr a, w1) -> bind m k w = k a w1.
Proof. unfold bind. by intros ->. Qed.
End MonadInversion.

(** ** Reading, never failing, all-or-nothing

    [readonly m]: [m] leaves the world as it is.  [nofail m]: [m] never raises.
    [atomic m]: when [m] raises, it has changed nothing. *)

Section Atomicity.
Context {W E : Type}.

Definition readonly {A} (m : M W E A) : Prop := forall w, snd (m w) = w.
Definition nofail {A} (m : M W E A) : Prop := forall w e w', m w <> (inl e, w').
Definition atomic {A} (m : M W E A) : Prop := forall w e w', m w = (inl e, w') -> w' = w.

Lemma readonly_ret {A} (a : A) : readonly (ret a). Proof. done. Qed.
Lemma readonly_raise {A} (e : E) : readonly (A:=A) (raise e). Proof. done. Qed.
Lemma readonly_gets {A} (f : W -> A) : readonly (gets f). Proof. done. Qed.
Lemma readonly_bind {A B} (m : M W E A) (k : A -> M W E B) :
  readonly m -> (forall a, readonly (k a)) -> readonly (bind m k).
Proof.
  intros Hm Hk w. unfold bind. specialize (Hm w). destruct (m w) as [[e|a] w1]; simpl in *; subst; [done|apply Hk].
Qed.
Lemma readonly_when b (m : M W E unit) : readonly m -> readonly (when b m).
Proof. by destruct b. Qed.

Lemma nofail_ret {A} (a : A) : nofail (ret a). Proof. done. Qed.
Lemma nofail_gets {A} (f : W -> A) : nofail (gets f). Proof. done. Qed.
Lemma nofail_modify (f : W -> W) : nofail (modify f). Proof. done. Qed.
Lemma nofail_bind {A B} (m : M W E A) (k : A -> M W E B) :
  nofail m -> (forall a, nofail (k a)) -> nofail (bind m k).
Proof.
  intros Hm Hk w e w'. unfold bind. specialize (Hm w). destruct (m w) as [[e'|a] w1].
  - by destruct (Hm e' w1).
  - apply Hk.
Qed.

Lemma atomic_readonly {A} (m : M W E A) : readonly m -> atomic m.
Proof. intros Hm w e w' H. specialize (Hm w). by rewrite H in Hm. Qed.
Lemma atomic_nofail {A} (m : M W E A) : nofail m -> atomic m.
Proof. intros Hm w e w' H. by destruct (Hm w e w'). Qed.
Lemma atomic_check {A B} (m : M W E A) (k : A -> M W E B) :
  readonly m -> (forall a, atomic (k a)) -> atomic (bind m k).
Proof.
  intros Hm Hk w e w'. unfold bind. specialize (Hm w). destruct (m w) as [[e'|a] w1]; simpl in *; subst.
  - by intros [= <- <-].
  - apply Hk.
Qed.
Lemma atomic_commit {A B} (m : M W E A) (k : A -> M W E B) :
  atomic m -> (forall a, nofail (k a)) -> atomic (bind m k).
Proof.
  intros Hm Hk w e w'. unfold bind. specialize (Hm w). destruct (m w) as [[e'|a] w1].
  - intros [= -> <-]. by apply (Hm e).
  - intros H. by destruct (Hk a w1 e w').
Qed.
End Atomicity.

#[export] Hint Resolve readonly_ret readonly_raise readonly_gets readonly_bind readonly_when
  nofail_ret nofail_gets nofail_modify nofail_bind : axp.

(** [keeps I m]: the invariant [I] holds after [m] too, whether it returns or raises. *)

Section Keeps.
Context {W E : Type} (I : W -> Prop).

Definition keeps {A} (m : M W E A) : Prop := forall w, I w -> I (snd (m w)).

Lemma keeps_ret {A} (a : A) : keeps (ret a). Proof. by intros w. Qed.
Lemma keeps_raise {A} (e : E) : keeps (A:=A) (raise e). Proof. by intros w. Qed.
Lemma keeps_gets {A} (f : W -> A) : keeps (gets f). Proof. by intros w. Qed.
Lemma keeps_modify (f : W -> W) : (forall w, I w -> I (f w)) -> keeps (modify f). Proof. by intros H w ?; apply H. Qed.
Lemma keeps_bind {A B} (m : M W E A) (k : A -> M W E B) : keeps m -> (forall a, keeps (k a)) -> keeps (bind m k).
Proof. intros Hm Hk w Hw. unfold bind. specialize (Hm w Hw). destruct (m w) as [[e|a] w1]; [done|by apply Hk]. Qed.
Lemma keeps_for_each {A} (l : list A) (f : A -> M W E unit) : (forall x, x ∈ l -> keeps (f x)) -> keeps (for_each l f).
Proof.
  induction l as [|x l IH]; intros H; [apply keeps_ret|]. apply keeps_bind; [apply H; set_solver|].
  intros _. apply IH. intros y Hy. apply H. set_solver.
Qed.
Lemma keeps_if {A} (b : bool) (m1 m2 : M W E A) : keeps m1 -> keeps m2 -> keeps (if b then m1 else m2).
Proof. by destruct b. Qed.
Lemma keeps_try {A} (m : M W E A) (h : E -> M W E A) : keeps m -> (forall e, keeps (h e)) -> keeps (try_with m h).
Proof. intros Hm Hh w Hw. unfold try_with. specialize (Hm w Hw). destruct (m w) as [[e|a] w1]; [by apply Hh|done]. Qed.
End Keeps.

#[export] Hint Resolve keeps_ret keeps_raise keeps_gets keeps_bind keeps_if keeps_try : axp.

(** Take apart one layer of [H : prog w = (inr x, w')]. *)
Ltac minv1 H :=
  match type of H with
  | bind _ _ _ = (inr _, _) =>
      let a := fresh "a" in let w1 := fresh "w1" in let H1 := fresh "Hm" in
      apply bind_inr in H as (a & w1 & H1 & H); minv1 H1
  | ret _ _ = (inr _, _) => apply ret_inr in H as [? ?]; simplify_eq
  | gets _ _ = (inr _, _) => apply gets_inr in H as [? ?]; simplify_eq
  | modify _ _ = (inr _, _) => apply modify_inr in H; simplify_eq
  | raise _ _ = (inr _, _) => by apply raise_inr in H
  | _ => idtac
  end.

(** ** Lemmas on the helpers *)

Section MaxOn.
Context {A : Type} (key : A -> Z).

Lemma foldl_pick_max_ge (l : list A) (x : A) :
  key x <= key (foldl (pick_max key) x l) /\
  (forall y, y ∈ l -> key y <= key (foldl (pick_max key) x l)).
Proof.
  revert x. induction l as [|z l IH]; intros x; simpl.
  - split; [lia|]. intros y Hy. by apply elem_of_nil in Hy.
  - destruct (IH (pick_max key x z)) as [H1 H2].
    assert (key x <= key (pick_max key x z) /\ key z <= key (pick_max key x z)) as [Hx Hz]
      by (unfold pick_max; zcases; lia).
    split; [lia|]. intros y [->|Hy]%elem_of_cons; [lia|by apply H2].
Qed.

Lemma foldl_pick_max_elem (l : list A) (x : A) :
  foldl (pick_max key) x l ∈ x :: l.
Proof.
  revert x. induction l as [|z l IH]; intros x; simpl; [set_solver|].
  specialize (IH (pick_max key x z)). unfold pick_max in *.
  zcases; set_solver.
Qed.

Lemma max_on_Some (l : list A) (m : A) :
  max_on key l = Some m -> m ∈ l /\ forall y, y ∈ l -> key y <= key m.
Proof.
  destruct l as [|x l]; simpl; intros; simplify_eq.
  split; [apply foldl_pick_max_elem|].
  destruct (foldl_pick_max_ge l x) as [H1 H2].
  intros y [->|Hy]%elem_of_cons; [exact H1|by apply H2].
Qed.

Lemma max_on_None (l : list A) : max_on key l = None <-> l = [].
Proof. destruct l; simpl; naive_solver. Qed.
End MaxOn.

Section SortOn.
Context {A : Type} (key : A -> Z).

Definition sorted_on (l : list A) : Prop := StronglySorted (fun x y => key x <= key y) l.

Lemma insert_on_perm (x : A) (l : list A) : insert_on key x l ≡ₚ x :: l.
Proof.
  induction l as [|y l IH]; simpl; [done|]. zcases; [done|].
  rewrite IH. constructor.
Qed.

Lemma sort_on_perm (l : list A) : sort_on key l ≡ₚ l.
Proof. induction l as [|x l IH]; simpl; [done|]. by rewrite insert_on_perm, IH. Qed.

Lemma insert_on_sorted (x : A) (l : list A) :
  sorted_on l -> sorted_on (insert_on key x l).
Proof.
  unfold sorted_on. induction 1 as [|y l Hs IH Hall]; simpl; [repeat constructor|].
  zcases.
  - constructor; [by constructor|]. constructor; [lia|].
    eapply Forall_impl; [exact Hall|]. simpl; intros; lia.
  - constructor; [done|]. rewrite Forall_forall in Hall |- *.
    intros z Hz. rewrite insert_on_perm in Hz.
    apply elem_of_cons in Hz as [->|Hz]; [lia|by apply Hall].
Qed.

Lemma sort_on_sorted (l : list A) : sorted_on (sort_on key l).
Proof. induction l; simpl; [constructor|]. by apply insert_on_sorted. Qed.

Lemma elem_of_sort_on (x : A) (l : list A) : x ∈ sort_on key l <-> x ∈ l.
Proof. by rewrite sort_on_perm. Qed.

Lemma sorted_on_filter (P : A -> Prop) `{!forall x, Decision (P x)} (l : list A) :
  sorted_on l -> sorted_on (filter P l).
Proof.
  unfold sorted_on. induction 1 as [|y l Hs IH Hall]; [constructor|].
  rewrite filter_cons. case_decide; [|done]. constructor; [done|].
  rewrite Forall_forall in Hall |- *. intros z [_ Hz]%list_elem_of_filter. by apply Hall.
Qed.

(** Sorting a sorted list changes nothing (stability at the trivial case). *)
Lemma sort_on_id (l : list A) : sorted_on l -> sort_on key l = l.
Proof.
  unfold sorted_on. induction 1 as [|y l Hs IH Hall]; simpl; [done|]. rewrite IH.
  destruct l as [|z l]; simpl; [done|].
  apply Forall_cons in Hall as [Hz _]. by zcases; [|lia].
Qed.
End SortOn.

Lemma elem_of_limit {A} (n : nat) (l : list A) x : x ∈ limit n l -> x ∈ l.
Proof. unfold limit. intros (i & Hi & _)%elem_of_take. by eapply list_elem_of_lookup_2. Qed.

(** Keys without duplicates single out their element. *)
Lemma nodup_key_inj {A K} (key : A -> K) (l : list A) x y :
  NoDup (key <$> l) -> x ∈ l -> y ∈ l -> key x = key y -> x = y.
Proof.
  intros Hn [i Hi]%list_elem_of_lookup [j Hj]%list_elem_of_lookup E.
  assert (i = j) as ->; [|congruence].
  eapply NoDup_lookup; [exact Hn|by rewrite list_lookup_fmap, Hi|rewrite list_lookup_fmap, Hj; cbn; congruence].
Qed.

(** [List.filter], the boolean filter the models use for WHERE clauses. *)
Lemma elem_of_filter_In {A} (f : A -> bool) (l : list A) x : x ∈ List.filter f l <-> x ∈ l /\ f x = true.
Proof. by rewrite !list_elem_of_In, filter_In. Qed.

Lemma filter_true_id {A} (f : A -> bool) (l : list A) : (forall x, x ∈ l -> f x = true) -> List.filter f l = l.
Proof.
  induction l as [|x l IH]; intros H; [done|]. cbn. rewrite (H x) by set_solver. f_equal. apply IH. set_solver.
Qed.

Lemma filter_nodup {A K} (key : A -> K) (f : A -> bool) (l : list A) :
  NoDup (key <$> l) -> NoDup (key <$> List.filter f l).
Proof.
  induction l as [|x l IH]; [done|]. cbn. intros [Hx Hn]%NoDup_cons. destruct (f x); [|by apply IH].
  cbn. apply NoDup_cons. split; [|by apply IH]. intros (y & E & Hy)%list_elem_of_fmap. apply Hx. rewrite E.
  apply list_elem_of_fmap_2. by apply elem_of_filter_In in Hy as [].
Qed.

Section Dict.
Context {A : Type}.

Lemma dict_get_set (k k' : Z) (a : A) (d : dict A) :
  dict_get k' (dict_set k a d) = if decide (k' = k) then Some a else dict_get k' d.
Proof.
  induction d as [|[j b] d IH]; cbn.
  - destruct (Z.eqb_spec k k'); destruct (decide (k' = k)); congruence.
  - destruct (Z.eqb_spec j k) as [->|Hj]; cbn.
    + destruct (Z.eqb_spec k k'); destruct (decide (k' = k)); congruence.
    + rewrite IH. destruct (Z.eqb_spec j k'); [|done]. subst. by rewrite decide_False.
Qed.

Lemma dict_get_pop (k k' : Z) (d : dict A) :
  dict_get k' (dict_pop k d) = if decide (k' = k) then None else dict_get k' d.
Proof.
  unfold dict_pop. induction d as [|[j b] d IH]; cbn; [by destruct (decide _)|].
  destruct (Z.eqb_spec j k) as [->|Hj]; cbn; rewrite IH.
  - destruct (decide (k' = k)); [done|]. by destruct (Z.eqb_spec k k').
  - destruct (Z.eqb_spec j k') as [->|]; [|done]. by rewrite decide_False.
Qed.

Lemma dict_get_keys (k : Z) (a : A) (d : dict A) : dict_get k d = Some a -> k ∈ dict_keys d.
Proof.
  induction d as [|[j b] d IH]; cbn; [done|]. destruct (Z.eqb_spec j k) as [->|]; [set_solver|]. intros H. set_solver.
Qed.

Lemma dict_get_elem (k : Z) (a : A) (d : dict A) : dict_get k d = Some a -> (k, a) ∈ d.
Proof.
  induction d as [|[j b] d IH]; cbn; [done|]. destruct (Z.eqb_spec j k) as [->|]; [intros [= ->]; by left|]. intros H. right. by apply IH.
Qed.

Lemma elem_dict_get (k : Z) (a : A) (d : dict A) : NoDup (dict_keys d) -> (k, a) ∈ d -> dict_get k d = Some a.
Proof.
  unfold dict_keys. induction d as [|[j b] d IH]; intros Hn H; [by apply elem_of_nil in H|]. rewrite fmap_cons in Hn. apply NoDup_cons in Hn as [Hj Hn].
  cbn. apply elem_of_cons in H as [H|H]; [simplify_eq; by rewrite Z.eqb_refl|]. destruct (Z.eqb_spec j k) as [->|]; [|by apply IH].
  destruct Hj. by apply (list_elem_of_fmap_2 fst _ _ H).
Qed.

Lemma dict_get_none (k : Z) (d : dict A) : dict_get k d = None <-> k ∉ dict_keys d.
Proof.
  unfold dict_keys. induction d as [|[j b] d IH]; cbn; [split; [intros _; apply not_elem_of_nil|done]|].
  rewrite not_elem_of_cons. destruct (Z.eqb_spec j k) as [->|Hj]; [naive_solver|]. rewrite IH. naive_solver.
Qed.

Lemma dict_keys_set (k : Z) (a : A) (d : dict A) : dict_keys (dict_set k a d) = if bool_decide (k ∈ dict_keys d) then dict_keys d else dict_keys d ++ [k].
Proof.
  unfold dict_keys. induction d as [|[j b] d IH]; cbn; [done|]. destruct (Z.eqb_spec j k) as [->|Hj]; cbn.
  - by rewrite bool_decide_eq_true_2 by (by left).
  - rewrite IH. repeat case_bool_decide; try done; exfalso; set_solver.
Qed.

Lemma dict_set_nodup (k : Z) (a : A) (d : dict A) : NoDup (dict_keys d) -> NoDup (dict_keys (dict_set k a d)).
Proof.
  intros H. rewrite dict_keys_set. case_bool_decide as Hk; [done|]. apply NoDup_app. split; [done|]. split; [|repeat constructor; set_solver].
  intros x Hx Hy. apply list_elem_of_singleton in Hy as ->. done.
Qed.

Lemma dict_pop_nodup (k : Z) (d : dict A) : NoDup (dict_keys d) -> NoDup (dict_keys (dict_pop k d)).
Proof. apply filter_nodup. Qed.
End Dict.

Section SumOn.
Context {A : Type}.

Lemma sum_on_app (f : A -> Z) (l1 l2 : list A) :
  sum_on f (l1 ++ l2) = sum_on f l1 + sum_on f l2.
Proof. induction l1; simpl; [lia|]. unfold sum_on in *. simpl. lia. Qed.

Lemma sum_on_cons (f : A -> Z) (x : A) (l : list A) : sum_on f (x :: l) = f x + sum_on f l.
Proof. done. Qed.

Lemma count_on_cons (f : A -> bool) (x : A) (l : list A) :
  count_on f (x :: l) = (if f x then 1 else 0) + count_on f l.
Proof. done. Qed.

Lemma sum_on_perm (f : A -> Z) (l1 l2 : list A) : l1 ≡ₚ l2 -> sum_on f l1 = sum_on f l2.
Proof. induction 1; unfold sum_on in *; simpl in *; lia. Qed.

Lemma sum_on_nonneg (f : A -> Z) (l : list A) :
  (forall x, x ∈ l -> 0 <= f x) -> 0 <= sum_on f l.
Proof.
  induction l as [|x l IH]; intros H; [done|]. rewrite sum_on_cons.
  pose proof (H x ltac:(set_solver)). assert (0 <= sum_on f l) by (apply IH; set_solver). lia.
Qed.

Lemma count_on_nonneg (f : A -> bool) (l : list A) : 0 <= count_on f l.
Proof. unfold count_on. apply sum_on_nonneg. intros x _. destruct (f x); lia. Qed.

Lemma sum_on_ext (f g : A -> Z) (l : list A) :
  (forall x, x ∈ l -> f x = g x) -> sum_on f l = sum_on g l.
Proof.
  induction l as [|x l IH]; intros H; [done|]. rewrite !sum_on_cons.
  rewrite (H x) by set_solver. rewrite IH; [done|]. set_solver.
Qed.

(** two summands that differ at one place *)
Lemma sum_on_point (f g : A -> Z) (l : list A) (a : A) :
  NoDup l -> a ∈ l -> (forall x, x <> a -> f x = g x) -> sum_on f l = sum_on g l + (f a - g a).
Proof.
  intros Hn Ha H. induction Hn as [|x l Hx Hn IH]; [by apply elem_of_nil in Ha|]. rewrite !sum_on_cons.
  apply elem_of_cons in Ha as [<-|Ha].
  - rewrite (sum_on_ext f g l); [lia|]. intros y Hy. apply H. by intros ->.
  - rewrite IH by done. rewrite (H x); [lia|]. by intros ->.
Qed.
End SumOn.

#[export] Hint Resolve sort_on_sorted sort_on_perm : axp.
