(* ===== verification/Snowflake.v ===== *)
(** * Snowflake ids (src/server/util/snowflake.py)

    The generator of every primary key: 41 bits of milliseconds since
    [AXP_EPOCH], 10 bits of instance, 12 bits of sequence.  The wall clock is a
    parameter, a function giving the n-th reading of [time.time() * 1000]; it
    may stand still and may go backwards. *)

From S2P Require Import Prelude.

Definition AXP_EPOCH : Z := 1704067200000.
Definition INSTANCE_BITS : Z := 10.
Definition SEQUENCE_BITS : Z := 12.
Definition MAX_INSTANCE : Z := Z.shiftl 1 INSTANCE_BITS - 1.
Definition MAX_SEQUENCE : Z := Z.shiftl 1 SEQUENCE_BITS - 1.
Definition INSTANCE_SHIFT : Z := SEQUENCE_BITS.
Definition TIMESTAMP_SHIFT : Z := SEQUENCE_BITS + INSTANCE_BITS.
Definition SEED_ID_MAX : Z := 999.

(** Fields of a [SnowflakeGenerator]; [reads] counts the clock readings taken
    so far, so that the k-th call of [_now_ms] gets the k-th reading. *)
Record SnowflakeGenerator := {
  g_instance : Z;
  g_last_ts : Z;
  g_sequence : Z;
  g_reads : nat
}.

(** [__init__]: [None] is the [ValueError] on an instance out of range. *)
Definition new_generator (instance : Z) : option SnowflakeGenerator :=
  if (instance <? 0) || (MAX_INSTANCE <? instance) then None
  else Some {| g_instance := instance; g_last_ts := -1; g_sequence := 0; g_reads := 0 |}.

Section Generator.
(** The n-th reading of [int(time.time() * 1000)]. *)
Context (now_ms : nat -> Z).

(** [_wait_next_ms]: poll until a reading is later than [last_ts]; [None]
    only when [fuel] polls were not enough. Returns the reading and the
    number of readings taken. *)
Fixpoint wait_next_ms (fuel : nat) (reads : nat) (last_ts : Z) : option (Z * nat) :=
  match fuel with
  | O => None
  | S f =>
      let ts := now_ms reads in
      if ts <=? last_ts then wait_next_ms f (S reads) last_ts
      else Some (ts, S reads)
  end.

Definition pack (ts instance sequence : Z) : Z :=
  Z.lor (Z.lor (Z.shiftl (ts - AXP_EPOCH) TIMESTAMP_SHIFT)
               (Z.shiftl instance INSTANCE_SHIFT))
        sequence.

(** [next_id], the body under the lock. *)
Definition next_id (fuel : nat) (g : SnowflakeGenerator) : option (Z * SnowflakeGenerator) :=
  let ts0 := now_ms (g_reads g) in
  let r0 := S (g_reads g) in
  (* clock moved backwards: wait it out *)
  match (if ts0 <? g_last_ts g then wait_next_ms fuel r0 (g_last_ts g) else Some (ts0, r0)) with
  | None => None
  | Some (ts1, r1) =>
      match (if ts1 =? g_last_ts g then
               let sq := Z.land (g_sequence g + 1) MAX_SEQUENCE in
               if sq =? 0 then
                 match wait_next_ms fuel r1 (g_last_ts g) with
                 | Some (ts2, r2) => Some (ts2, sq, r2)
                 | None => None
                 end
               else Some (ts1, sq, r1)
             else Some (ts1, 0, r1)) with
      | None => None
      | Some (ts, sq, r) =>
          Some (pack ts (g_instance g) sq,
                {| g_instance := g_instance g; g_last_ts := ts; g_sequence := sq; g_reads := r |})
      end
  end.

(** [n] successive calls. *)
Fixpoint next_ids (fuel n : nat) (g : SnowflakeGenerator) : option (list Z * SnowflakeGenerator) :=
  match n with
  | O => Some ([], g)
  | S k =>
      match next_id fuel g with
      | None => None
      | Some (i, g1) =>
          match next_ids fuel k g1 with
          | None => None
          | Some (ids, g2) => Some (i :: ids, g2)
          end
      end
  end.
End Generator.

(** The fields of an id, as a consumer reads them back. *)
Definition id_timestamp (i : Z) : Z := Z.shiftr i TIMESTAMP_SHIFT + AXP_EPOCH.
Definition id_instance (i : Z) : Z := Z.land (Z.shiftr i INSTANCE_SHIFT) MAX_INSTANCE.
Definition id_sequence (i : Z) : Z := Z.land i MAX_SEQUENCE.

(** Representation invariant of a generator. *)
Definition gen_ok (g : SnowflakeGenerator) : Prop :=
  0 <= g_instance g <= MAX_INSTANCE /\ 0 <= g_sequence g <= MAX_SEQUENCE.

(** ** Bit-field arithmetic *)

Lemma lor_disjoint_add (a b n : Z) :
  0 <= n -> 0 <= b < 2 ^ n -> Z.lor (Z.shiftl a n) b = a * 2 ^ n + b.
Proof.
  intros Hn Hb.
  assert (Hland : Z.land (Z.shiftl a n) b = 0).
  { rewrite <- (Z.mod_small b (2 ^ n)) by done.
    apply Z.bits_inj'. intros k Hk. rewrite Z.land_spec, Z.bits_0.
    destruct (Z.lt_ge_cases k n).
    - by rewrite Z.shiftl_spec_low.
    - rewrite Z.mod_pow2_bits_high by lia. apply andb_false_r. }
  pose proof (Z.add_lor_land (Z.shiftl a n) b). rewrite Z.shiftl_mul_pow2 in * by done. lia.
Qed.

(** The packed id is the mixed-radix number of its three fields. *)
Lemma pack_value (ts i s : Z) :
  0 <= i <= MAX_INSTANCE -> 0 <= s <= MAX_SEQUENCE ->
  pack ts i s = (ts - AXP_EPOCH) * 2 ^ 22 + i * 2 ^ 12 + s.
Proof.
  intros Hi Hs. unfold pack, TIMESTAMP_SHIFT, INSTANCE_SHIFT, INSTANCE_BITS, SEQUENCE_BITS.
  replace (12 + 10) with (10 + 12) by lia.
  rewrite <- Z.shiftl_shiftl, <- Z.shiftl_lor by lia.
  change MAX_INSTANCE with 1023 in Hi. change MAX_SEQUENCE with 4095 in Hs.
  rewrite lor_disjoint_add, lor_disjoint_add by lia. lia.
Qed.

Lemma land_ones_mod (a n : Z) : 0 <= n -> Z.land a (Z.shiftl 1 n - 1) = a mod 2 ^ n.
Proof.
  intros Hn. rewrite Z.shiftl_1_l. replace (2 ^ n - 1) with (Z.ones n).
  - by apply Z.land_ones.
  - rewrite Z.ones_equiv. lia.
Qed.

Lemma sequence_range (g : SnowflakeGenerator) :
  0 <= Z.land (g_sequence g + 1) MAX_SEQUENCE <= MAX_SEQUENCE.
Proof.
  unfold MAX_SEQUENCE, SEQUENCE_BITS. rewrite land_ones_mod by lia.
  pose proof (Z.mod_pos_bound (g_sequence g + 1) (2 ^ 12) ltac:(lia)).
  change (Z.shiftl 1 12 - 1) with (2 ^ 12 - 1). lia.
Qed.

(** Unless it wraps to zero, the masked increment is the increment. *)
Lemma sequence_step (g : SnowflakeGenerator) :
  gen_ok g -> Z.land (g_sequence g + 1) MAX_SEQUENCE <> 0 ->
  Z.land (g_sequence g + 1) MAX_SEQUENCE = g_sequence g + 1.
Proof.
  intros [_ Hs]. unfold MAX_SEQUENCE in Hs |- *. unfold SEQUENCE_BITS in *.
  rewrite land_ones_mod by lia. change (Z.shiftl 1 12 - 1) with 4095 in Hs.
  change (2 ^ 12) with 4096.
  destruct (Z.eq_dec (g_sequence g) 4095) as [->|]; [done|].
  intros _. apply Z.mod_small. lia.
Qed.

(** ** The wait loop *)

Lemma wait_next_ms_gt (clk : nat -> Z) fuel r last ts r' :
  wait_next_ms clk fuel r last = Some (ts, r') -> last < ts.
Proof.
  revert r. induction fuel as [|f IH]; intros r; simpl; [done|].
  zcase; [apply IH|]. intros [= <- <-]. lia.
Qed.

Lemma wait_next_ms_fuel_mono (clk : nat -> Z) f f' r last x :
  (f <= f')%nat -> wait_next_ms clk f r last = Some x -> wait_next_ms clk f' r last = Some x.
Proof.
  revert f' r. induction f as [|f IH]; intros f' r Hle; simpl; [done|].
  destruct f' as [|f']; [lia|]. simpl. zcase; [apply IH; lia|done].
Qed.

Lemma next_id_fuel_mono (clk : nat -> Z) f f' g x :
  (f <= f')%nat -> next_id clk f g = Some x -> next_id clk f' g = Some x.
Proof.
  intros Hle. unfold next_id.
  destruct (if _ <? _ then _ else _) as [[ts1 r1]|] eqn:E0; [|done].
  assert ((if clk (g_reads g) <? g_last_ts g then wait_next_ms clk f' (S (g_reads g)) (g_last_ts g)
           else Some (clk (g_reads g), S (g_reads g))) = Some (ts1, r1)) as ->.
  { revert E0. zcase; [by apply wait_next_ms_fuel_mono|done]. }
  clear E0. zcase; [|done]. zcase; [|done].
  destruct (wait_next_ms clk f r1 _) as [[ts2 r2]|] eqn:E2; [|done].
  by rewrite (wait_next_ms_fuel_mono _ _ f' _ _ _ Hle E2).
Qed.

(** Enough polls find a later reading as soon as the clock has one. *)
Lemma wait_next_ms_total (clk : nat -> Z) (r k : nat) last :
  (r <= k)%nat -> last < clk k ->
  exists fuel0, forall fuel, (fuel0 <= fuel)%nat -> is_Some (wait_next_ms clk fuel r last).
Proof.
  intros Hk Hlt. exists (S (k - r)). remember (k - r)%nat as d eqn:Hd.
  revert r Hk Hd. induction d as [|d IH]; intros r Hk Hd fuel Hf;
    destruct fuel as [|f]; try lia; simpl; zcase; try eauto.
  - replace r with k in * by lia. lia.
  - apply IH; lia.
Qed.

(** ** One step of the generator *)

Lemma next_id_step (clk : nat -> Z) fuel g i g' :
  gen_ok g -> next_id clk fuel g = Some (i, g') ->
  gen_ok g' /\ g_instance g' = g_instance g /\
  i = pack (g_last_ts g') (g_instance g') (g_sequence g') /\
  (g_last_ts g < g_last_ts g' \/
   g_last_ts g = g_last_ts g' /\ g_sequence g < g_sequence g').
Proof.
  intros Hok. unfold next_id.
  destruct (if _ <? _ then _ else _) as [[ts1 r1]|] eqn:E0; [|done].
  assert (Hts1 : g_last_ts g <= ts1).
  { revert E0. zcase; intros E0; [apply wait_next_ms_gt in E0; lia|]. by simplify_eq. }
  clear E0. pose proof (sequence_range g) as Hsq. pose proof (sequence_step g Hok) as Hst.
  destruct Hok as [Hi _]. zcase.
  - zcase.
    + destruct (wait_next_ms _ _ _ _) as [[ts2 r2]|] eqn:E2; [|done].
      apply wait_next_ms_gt in E2. intros; simplify_eq; simpl. unfold gen_ok; simpl.
      repeat split; try lia.
    + specialize (Hst ltac:(done)). intros; simplify_eq; simpl. unfold gen_ok; simpl.
      repeat split; try lia.
  - intros; simplify_eq; simpl. unfold gen_ok; simpl. change MAX_SEQUENCE with 4095.
    repeat split; try lia.
Qed.

Definition gen_pos (g : SnowflakeGenerator) : Z := pack (g_last_ts g) (g_instance g) (g_sequence g).

Lemma next_id_increases (clk : nat -> Z) fuel g i g' :
  gen_ok g -> next_id clk fuel g = Some (i, g') -> gen_pos g < i /\ i = gen_pos g'.
Proof.
  intros Hok Hn. destruct (next_id_step _ _ _ _ _ Hok Hn) as (Hok' & Hinst & -> & Hlt).
  split; [|done]. destruct Hok as [Hi Hs], Hok' as [Hi' Hs']. unfold gen_pos.
  rewrite !pack_value by done. rewrite Hinst.
  change MAX_SEQUENCE with 4095 in *. change MAX_INSTANCE with 1023 in *. lia.
Qed.

(** Reading a packed id back. *)
Lemma pack_fields (ts i s : Z) :
  0 <= i <= MAX_INSTANCE -> 0 <= s <= MAX_SEQUENCE ->
  id_timestamp (pack ts i s) = ts /\ id_instance (pack ts i s) = i /\ id_sequence (pack ts i s) = s.
Proof.
  intros Hi Hs. unfold id_timestamp, id_instance, id_sequence. rewrite pack_value by done.
  unfold MAX_INSTANCE, MAX_SEQUENCE, INSTANCE_BITS, SEQUENCE_BITS, TIMESTAMP_SHIFT,
    INSTANCE_SHIFT, SEQUENCE_BITS, INSTANCE_BITS in *.
  rewrite !land_ones_mod, !Z.shiftr_div_pow2 by lia.
  change (Z.shiftl 1 10 - 1) with 1023 in *. change (Z.shiftl 1 12 - 1) with 4095 in *.
  change (2 ^ (12 + 10)) with 4194304. change (2 ^ 22) with 4194304.
  change (2 ^ 12) with 4096. change (2 ^ 10) with 1024.
  Z.div_mod_to_equations. lia.
Qed.

Lemma next_ids_above (clk : nat -> Z) fuel n g ids g' :
  gen_ok g -> next_ids clk fuel n g = Some (ids, g') ->
  StronglySorted Z.lt ids /\
  Forall (fun i => gen_pos g < i /\ id_instance i = g_instance g) ids.
Proof.
  revert g ids. induction n as [|n IH]; intros g ids Hok; simpl.
  - intros [= <- <-]. repeat constructor.
  - destruct (next_id clk fuel g) as [[i g1]|] eqn:E1; [|done].
    destruct (next_ids clk fuel n g1) as [[is2 g2]|] eqn:E2; [|done]. intros; simplify_eq.
    destruct (next_id_increases _ _ _ _ _ Hok E1) as [Hlt Hi].
    destruct (next_id_step _ _ _ _ _ Hok E1) as (Hok1 & Hinst & -> & _).
    destruct (IH _ _ Hok1 E2) as [Hs Hall]. unfold gen_pos in Hall.
    split; [constructor; [done|]; eapply Forall_impl; [exact Hall|]; simpl; tauto|].
    constructor.
    + split; [done|]. rewrite <- Hinst. destruct Hok1 as [Hi1 Hs1].
      by destruct (pack_fields (g_last_ts g1) _ _ Hi1 Hs1) as (_ & -> & _).
    + eapply Forall_impl; [exact Hall|]. simpl. intros j [? ->]. split; [lia|done].
Qed.

Lemma next_id_total (clk : nat -> Z) (g : SnowflakeGenerator) :
  (forall (n : nat) (b : Z), exists k, (n <= k)%nat /\ b < clk k) ->
  exists fuel0, forall fuel, (fuel0 <= fuel)%nat -> is_Some (next_id clk fuel g).
Proof.
  intros Hclk. set (r0 := S (g_reads g)).
  assert (Hw : forall r, exists f0, forall fuel, (f0 <= fuel)%nat ->
    is_Some (wait_next_ms clk fuel r (g_last_ts g))).
  { intros r. destruct (Hclk r (g_last_ts g)) as (k & Hk & Hlt). by eapply wait_next_ms_total. }
  unfold next_id. fold r0. zcase.
  - destruct (Hw r0) as [f0 Hf0]. exists f0. intros fuel Hf.
    destruct (Hf0 fuel Hf) as [[ts r] E]. rewrite E. apply wait_next_ms_gt in E.
    zcase; [lia|eauto].
  - destruct (Hw r0) as [f0 Hf0]. exists f0. intros fuel Hf. zcase; [|eauto].
    zcase; [|eauto]. destruct (Hf0 fuel Hf) as [[ts r] E]. rewrite E. eauto.
Qed.

(** ** Properties *)

(** Whatever the clock does (it may stall or jump back), the ids one
    generator returns are strictly increasing, hence never repeated, and all
    carry the generator's instance number. *)
Theorem next_ids_strictly_increasing (clk : nat -> Z) (fuel n : nat) (g g' : SnowflakeGenerator)
    (ids : list Z) :
  gen_ok g -> next_ids clk fuel n g = Some (ids, g') ->
  StronglySorted Z.lt ids /\ NoDup ids /\ Forall (fun i => id_instance i = g_instance g) ids.
Proof.
  intros Hok Hn. destruct (next_ids_above _ _ _ _ _ _ Hok Hn) as [Hs Hall].
  split_and!; [done| |eapply Forall_impl; [exact Hall|]; simpl; tauto].
  clear Hn Hall. induction Hs as [|x l Hs IH Hx]; constructor; [|done].
  intros Hin. rewrite Forall_forall in Hx. specialize (Hx x Hin). lia.
Qed.

(** A clock that reads 5, jumps back to 3, stands at 5 and moves on: the three
    ids still increase. *)
Definition jumpy_clock (n : nat) : Z :=
  AXP_EPOCH + nth n [5; 3; 4; 5; 6; 6; 7] 8.

Lemma next_ids_strictly_increasing_witness :
  exists ids g', next_ids jumpy_clock 10 3 {| g_instance := 2; g_last_ts := -1; g_sequence := 0; g_reads := 0 |}
                 = Some (ids, g') /\ StronglySorted Z.lt ids /\ NoDup ids /\
                 Forall (fun i => id_instance i = 2) ids.
Proof.
  eexists _, _. split; [vm_compute; reflexivity|].
  eapply (next_ids_strictly_increasing jumpy_clock 10 3
    {| g_instance := 2; g_last_ts := -1; g_sequence := 0; g_reads := 0 |});
    [split; vm_compute; split; discriminate|vm_compute; reflexivity].
Defined.

(** Two processes with different [SNOWFLAKE_INSTANCE] numbers never hand
    out the same id, whatever their clocks do. *)
Theorem instances_never_collide (clk1 clk2 : nat -> Z) (fuel1 fuel2 n1 n2 : nat)
    (g1 g2 g1' g2' : SnowflakeGenerator) (ids1 ids2 : list Z) (i : Z) :
  gen_ok g1 -> gen_ok g2 -> g_instance g1 <> g_instance g2 ->
  next_ids clk1 fuel1 n1 g1 = Some (ids1, g1') -> next_ids clk2 fuel2 n2 g2 = Some (ids2, g2') ->
  i ∈ ids1 -> i ∉ ids2.
Proof.
  intros Hok1 Hok2 Hne H1 H2 Hin1 Hin2.
  apply next_ids_above in H1 as [_ H1], H2 as [_ H2]; [|done..].
  rewrite Forall_forall in H1, H2.
  destruct (H1 _ Hin1), (H2 _ Hin2). congruence.
Qed.

Lemma instances_never_collide_witness :
  exists ids1 ids2 g1' g2',
    next_ids jumpy_clock 10 2 {| g_instance := 1; g_last_ts := -1; g_sequence := 0; g_reads := 0 |} = Some (ids1, g1') /\
    next_ids jumpy_clock 10 2 {| g_instance := 2; g_last_ts := -1; g_sequence := 0; g_reads := 0 |} = Some (ids2, g2') /\
    20975616 ∈ ids1 /\ 20975616 ∉ ids2.
Proof.
  do 4 eexists. split; [vm_compute; reflexivity|]. split; [vm_compute; reflexivity|].
  split; [set_solver|].
  eapply (instances_never_collide jumpy_clock jumpy_clock 10 10 2 2
    {| g_instance := 1; g_last_ts := -1; g_sequence := 0; g_reads := 0 |}
    {| g_instance := 2; g_last_ts := -1; g_sequence := 0; g_reads := 0 |});
    [split; vm_compute; split; discriminate|split; vm_compute; split; discriminate
    |vm_compute; discriminate|vm_compute; reflexivity|vm_compute; reflexivity|set_solver].
Defined.

(** Between [AXP_EPOCH] and 2^41 ms after it, an id is a positive signed
    64-bit integer that decodes to its three fields and lies above the seed
    rows' reserved range. *)
Theorem next_id_layout (clk : nat -> Z) (fuel : nat) (g g' : SnowflakeGenerator) (i : Z) :
  gen_ok g -> next_id clk fuel g = Some (i, g') ->
  AXP_EPOCH < g_last_ts g' < AXP_EPOCH + 2 ^ 41 ->
  SEED_ID_MAX < i < 2 ^ 63 /\ id_timestamp i = g_last_ts g' /\
  id_instance i = g_instance g /\ id_sequence i = g_sequence g'.
Proof.
  intros Hok Hn Hts. destruct (next_id_step _ _ _ _ _ Hok Hn) as ([Hi Hs] & Hinst & -> & _).
  destruct (pack_fields (g_last_ts g') _ _ Hi Hs) as (-> & -> & ->). rewrite Hinst in *.
  split; [|done]. rewrite pack_value by done.
  change MAX_SEQUENCE with 4095 in *. change MAX_INSTANCE with 1023 in *.
  change SEED_ID_MAX with 999. lia.
Qed.

Lemma next_id_layout_witness :
  exists i g', next_id jumpy_clock 10 {| g_instance := 2; g_last_ts := -1; g_sequence := 0; g_reads := 0 |} = Some (i, g')
    /\ SEED_ID_MAX < i < 2 ^ 63 /\ id_timestamp i = AXP_EPOCH + 5.
Proof.
  do 2 eexists. split; [vm_compute; reflexivity|].
  edestruct (next_id_layout jumpy_clock 10 {| g_instance := 2; g_last_ts := -1; g_sequence := 0; g_reads := 0 |})
    as (H1 & H2 & _);
    [split; vm_compute; split; discriminate|vm_compute; reflexivity|vm_compute; done|].
  split; [exact H1|]. exact H2.
Defined.

(** A clock that eventually passes every bound lets the generator return
    any number of ids: neither wait loop spins for ever. *)
Theorem next_ids_total (clk : nat -> Z) (n : nat) (g : SnowflakeGenerator) :
  (forall (m : nat) (b : Z), exists k, (m <= k)%nat /\ b < clk k) ->
  exists fuel0, forall fuel, (fuel0 <= fuel)%nat -> is_Some (next_ids clk fuel n g).
Proof.
  intros Hclk. revert g. induction n as [|n IH]; intros g; simpl; [exists 0%nat; eauto|].
  destruct (next_id_total clk g Hclk) as [f0 Hf0].
  destruct (Hf0 f0 ltac:(lia)) as [[i g1] E1]. destruct (IH g1) as [f1 Hf1].
  exists (f0 + f1)%nat. intros fuel Hfuel.
  rewrite (next_id_fuel_mono clk f0 fuel g _ ltac:(lia) E1).
  destruct (Hf1 fuel ltac:(lia)) as [[ids g2] ->]. eauto.
Qed.

Lemma next_ids_total_witness :
  (forall (m : nat) (b : Z), exists k, (m <= k)%nat /\ b < Z.of_nat k) /\
  exists fuel0, forall fuel, (fuel0 <= fuel)%nat ->
    is_Some (next_ids Z.of_nat fuel 5000 {| g_instance := 2; g_last_ts := -1; g_sequence := 0; g_reads := 0 |}).
Proof.
  assert (H : forall (m : nat) (b : Z), exists k, (m <= k)%nat /\ b < Z.of_nat k).
  { intros m b. exists (m + S (Z.to_nat b))%nat. split; lia. }
  split; [exact H|]. apply (next_ids_total Z.of_nat 5000). exact H.
Defined.
