(* ===== verification/PyStr.v ===== *)
(** * Python string operations used by the services

    Strings are ASCII.  [strip], [int(s)], [str.isdigit], [str.split] and
    [startswith] as CPython defines them on ASCII text. *)

From S2P Require Import Prelude.
From stdpp Require Import pretty.
From Stdlib Require Import Ascii.
Local Open Scope Z_scope.

Local Abbreviation code := Ascii.nat_of_ascii.

(** ASCII characters [str.strip()] removes. *)
Definition is_space (c : Ascii.ascii) : bool :=
  let n := code c in
  ((9 <=? n) && (n <=? 13) || (28 <=? n) && (n <=? 32))%nat.

Definition is_digit (c : Ascii.ascii) : bool :=
  let n := code c in ((48 <=? n) && (n <=? 57))%nat.

Definition digit_val (c : Ascii.ascii) : Z := Z.of_nat (code c) - 48.

Fixpoint lstrip (s : string) : string :=
  match s with
  | String c r => if is_space c then lstrip r else s
  | EmptyString => s
  end.

(** [rstrip]: drop the maximal blank suffix. *)
Fixpoint rstrip (s : string) : string :=
  match s with
  | EmptyString => EmptyString
  | String c r =>
      match rstrip r with
      | EmptyString => if is_space c then EmptyString else String c EmptyString
      | r' => String c r'
      end
  end.

Definition strip (s : string) : string := rstrip (lstrip s).

(** Decimal digits with single underscores between them, as [int(s)] reads
    them; [seen] says whether the previous character was a digit. *)
Fixpoint digits (acc : Z) (seen : bool) (s : string) : option Z :=
  match s with
  | EmptyString => if seen then Some acc else None
  | String c r =>
      if is_digit c then digits (acc * 10 + digit_val c) true r
      else if (code c =? 95)%nat && seen then digits acc false r
      else None
  end.

(** [int(s)]; [None] is [ValueError]. *)
Definition py_int (s : string) : option Z :=
  match strip s with
  | String c r =>
      if (code c =? 45)%nat then Z.opp <$> digits 0 false r
      else if (code c =? 43)%nat then digits 0 false r
      else digits 0 false (String c r)
  | EmptyString => None
  end.

(** [s.isdigit()] *)
Fixpoint all_digits (s : string) : bool :=
  match s with EmptyString => true | String c r => is_digit c && all_digits r end.
Definition isdigit (s : string) : bool :=
  negb (bool_decide (s = EmptyString)) && all_digits s.

(** [s.startswith(p)] *)
Fixpoint startswith (p s : string) : bool :=
  match p, s with
  | EmptyString, _ => true
  | String a p', String b s' => bool_decide (a = b) && startswith p' s'
  | _, EmptyString => false
  end.

(** [s[n:]] for [n >= 0] *)
Fixpoint sdrop (n : nat) (s : string) : string :=
  match n, s with
  | O, _ => s
  | S k, String _ r => sdrop k r
  | S _, EmptyString => EmptyString
  end.

(** [s[:n]] for [n >= 0] *)
Fixpoint stake (n : nat) (s : string) : string :=
  match n, s with
  | S k, String c r => String c (stake k r)
  | _, _ => EmptyString
  end.

(** [s.split(sep)] on a one-character separator: never empty. *)
Fixpoint split_on (sep : Ascii.ascii) (s : string) : list string :=
  match s with
  | EmptyString => [EmptyString]
  | String c r =>
      if bool_decide (c = sep) then EmptyString :: split_on sep r
      else match split_on sep r with
           | w :: ws => String c w :: ws
           | [] => [String c EmptyString]
           end
  end.

(** [s.split(sep, 1)]: the text before the first separator and the rest. *)
Fixpoint split_once (sep : Ascii.ascii) (s : string) : option (string * string) :=
  match s with
  | EmptyString => None
  | String c r =>
      if bool_decide (c = sep) then Some (EmptyString, r)
      else match split_once sep r with
           | Some (a, b) => Some (String c a, b)
           | None => None
           end
  end.

(** [s.split()]: maximal runs of non-blank characters. *)
Fixpoint words_go (cur : string) (s : string) : list string :=
  match s with
  | EmptyString => if bool_decide (cur = EmptyString) then [] else [cur]
  | String c r =>
      if is_space c then
        (if bool_decide (cur = EmptyString) then [] else [cur]) ++ words_go EmptyString r
      else words_go (cur +:+ String c EmptyString) r
  end.
Definition words (s : string) : list string := words_go EmptyString s.

(** ** [int(str(n)) = n] *)

Fixpoint no_space (s : string) : bool :=
  match s with EmptyString => true | String c r => negb (is_space c) && no_space r end.

Lemma no_space_lstrip s : no_space s = true -> lstrip s = s.
Proof. destruct s as [|c r]; simpl; [done|]. by destruct (is_space c). Qed.

Lemma no_space_rstrip s : no_space s = true -> rstrip s = s.
Proof.
  induction s as [|c r IH]; simpl; [done|]. destruct (is_space c) eqn:E; simpl; [done|].
  intros H. rewrite (IH H). by destruct r.
Qed.

Lemma no_space_strip s : no_space s = true -> strip s = s.
Proof. intros H. unfold strip. rewrite no_space_lstrip by done. by apply no_space_rstrip. Qed.

Lemma pretty_N_char_digit x :
  (x < 10)%N -> is_digit (pretty_N_char x) = true /\ digit_val (pretty_N_char x) = Z.of_N x /\
  is_space (pretty_N_char x) = false.
Proof.
  intros Hx.
  assert (x = 0 \/ x = 1 \/ x = 2 \/ x = 3 \/ x = 4 \/ x = 5 \/ x = 6 \/ x = 7 \/ x = 8 \/ x = 9)%N
    as Hc by lia.
  repeat (destruct Hc as [->|Hc]; [done|]). by subst.
Qed.

Lemma digits_pretty_go x seen s :
  (0 < x)%N -> digits 0 seen (pretty_N_go x s) = digits (Z.of_N x) true s.
Proof.
  revert s. induction (N.lt_wf_0 x) as [x _ IH]; intros s Hx.
  rewrite pretty_N_go_step by done.
  destruct (pretty_N_char_digit (x `mod` 10)) as (Hd & Hv & _); [by apply N.mod_lt|].
  destruct (decide (x < 10)%N) as [Hlt|Hge].
  - rewrite N.div_small by done. rewrite pretty_N_go_0. cbn [digits]. rewrite Hd, Hv.
    rewrite N.mod_small by done. done.
  - rewrite IH; [|by apply N.div_lt|by apply N.div_str_pos; lia].
    cbn [digits]. rewrite Hd, Hv. f_equal.
    pose proof (N.div_mod x 10 ltac:(done)). lia.
Qed.

Lemma no_space_pretty_go x s : no_space s = true -> no_space (pretty_N_go x s) = true.
Proof.
  revert s. induction (N.lt_wf_0 x) as [x _ IH]; intros s Hs.
  destruct (decide (0 < x)%N) as [Hx|Hx].
  - rewrite pretty_N_go_step by done. apply IH; [by apply N.div_lt|]. cbn [no_space].
    destruct (pretty_N_char_digit (x `mod` 10)) as (_ & _ & ->); [by apply N.mod_lt|]. done.
  - replace x with 0%N by lia. done.
Qed.

(** The first character of a positive decimal is a digit. *)
Lemma pretty_go_head x s :
  (0 < x)%N -> exists c r, pretty_N_go x s = String c r /\ is_digit c = true.
Proof.
  revert s. induction (N.lt_wf_0 x) as [x _ IH]; intros s Hx.
  rewrite pretty_N_go_step by done. destruct (decide (x < 10)%N) as [Hlt|Hge].
  - rewrite N.div_small by done. rewrite pretty_N_go_0. do 2 eexists. split; [done|].
    apply pretty_N_char_digit. by apply N.mod_lt.
  - apply IH; [by apply N.div_lt|by apply N.div_str_pos; lia].
Qed.

Lemma is_digit_not_sign c : is_digit c = true -> (code c =? 45)%nat = false /\ (code c =? 43)%nat = false.
Proof.
  unfold is_digit. intros [H1%Nat.leb_le H2%Nat.leb_le]%andb_true_iff.
  split; apply Nat.eqb_neq; lia.
Qed.

(** [int(str(z)) == z] *)
Lemma py_int_pretty (z : Z) : py_int (pretty z) = Some z.
Proof.
  destruct z as [|p|p]; [done| |].
  - change (pretty (Z.pos p)) with (pretty_N_go (N.pos p) ""). unfold py_int.
    rewrite no_space_strip by by apply no_space_pretty_go.
    destruct (pretty_go_head (N.pos p) "" ltac:(lia)) as (c & r & E & Hc).
    pose proof (digits_pretty_go (N.pos p) false "" ltac:(lia)) as Hd. rewrite E in Hd |- *.
    destruct (is_digit_not_sign c Hc) as [-> ->]. by rewrite Hd.
  - change (pretty (Z.neg p)) with (String "-"%char (pretty_N_go (N.pos p) "")). unfold py_int.
    rewrite no_space_strip by (cbn [no_space]; by apply no_space_pretty_go).
    cbn -[pretty_N_go]. by rewrite (digits_pretty_go (N.pos p) false "" ltac:(lia)).
Qed.

Lemma pretty_Z_not_empty (z : Z) : pretty z <> EmptyString.
Proof. intros H. pose proof (py_int_pretty z) as E. by rewrite H in E. Qed.

(** ** Concatenation *)

Lemma string_app_empty_r s : s +:+ "" = s.
Proof. induction s as [|c s IH]; [done|]. change (String c s +:+ "") with (String c (s +:+ "")). by rewrite IH. Qed.
Lemma string_app_assoc a b c : a +:+ (b +:+ c) = (a +:+ b) +:+ c.
Proof. induction a as [|x a IH]; [done|]. change (String x (a +:+ (b +:+ c)) = String x ((a +:+ b) +:+ c)). by rewrite IH. Qed.

(** ** Instants *)

Definition MS_MIN : Z := -62135596800000.   (* year 1 *)
Definition MS_MAX : Z := 253402300800000.   (* year 10000 *)

(** [datetime.fromtimestamp(ms / 1000, UTC)] *)
Definition from_ms (ms : Z) : option Z := if (MS_MIN <=? ms) && (ms <? MS_MAX) then Some (ms * 1000) else None.

(** ** Decimal texts between separators *)

(** [str.lower()] on ASCII *)
Definition lower_char (c : Ascii.ascii) : Ascii.ascii :=
  let n := nat_of_ascii c in if (Nat.leb 65 n && Nat.leb n 90)%nat then ascii_of_nat (n + 32) else c.
Fixpoint lower (s : string) : string :=
  match s with EmptyString => EmptyString | String c r => String (lower_char c) (lower r) end.

Fixpoint all_chars (P : Ascii.ascii -> bool) (s : string) : bool :=
  match s with EmptyString => true | String c r => P c && all_chars P r end.

(** the characters of a decimal *)
Definition num_char (c : Ascii.ascii) : bool := is_digit c || bool_decide (c = "-"%char).

Lemma all_chars_app P a b : all_chars P (a +:+ b) = all_chars P a && all_chars P b.
Proof.
  induction a as [|c a IH]; [done|]. change (String c a +:+ b) with (String c (a +:+ b)). cbn [all_chars].
  by rewrite IH, andb_assoc.
Qed.

(** what [strip] drops is blank *)
Lemma all_chars_lstrip P s : (forall c, is_space c = true -> P c = true) -> all_chars P (lstrip s) = true -> all_chars P s = true.
Proof. intros H. induction s as [|c s IH]; [done|]. cbn. destruct (is_space c) eqn:E; [|done]. intros Hs. by rewrite (H c E), IH. Qed.

Lemma all_chars_rstrip P s : (forall c, is_space c = true -> P c = true) -> all_chars P (rstrip s) = true -> all_chars P s = true.
Proof.
  intros H. induction s as [|c s IH]; [done|]. cbn. destruct (rstrip s) as [|c' r] eqn:E.
  - destruct (is_space c) eqn:Es; intros Hs; rewrite IH by done; [by rewrite (H c Es)|]. cbn in Hs. by rewrite andb_true_r in Hs |- *.
  - cbn [all_chars]. intros [-> Hs]%andb_prop. by rewrite IH.
Qed.

Lemma all_chars_strip P s : (forall c, is_space c = true -> P c = true) -> all_chars P (strip s) = true -> all_chars P s = true.
Proof. intros H Hs. by apply all_chars_lstrip, all_chars_rstrip. Qed.

Lemma all_chars_impl (P P' : Ascii.ascii -> bool) s :
  (forall c, P c = true -> P' c = true) -> all_chars P s = true -> all_chars P' s = true.
Proof. intros H. induction s as [|c s IH]; [done|]. cbn. intros [Hc Hs]%andb_prop. by rewrite (H c Hc), IH. Qed.

Lemma pretty_go_digits x s : all_chars is_digit s = true -> all_chars is_digit (pretty_N_go x s) = true.
Proof.
  revert s. induction (N.lt_wf_0 x) as [x _ IH]; intros s Hs. destruct (decide (0 < x)%N) as [Hx|Hx].
  - rewrite pretty_N_go_step by done. apply IH; [by apply N.div_lt|]. cbn [all_chars].
    destruct (pretty_N_char_digit (x `mod` 10)) as (-> & _ & _); [by apply N.mod_lt|]. done.
  - replace x with 0%N by lia. done.
Qed.

Lemma pretty_N_digits (n : N) : all_chars is_digit (pretty (Z.of_N n)) = true.
Proof.
  destruct n as [|p]; [done|]. change (pretty (Z.of_N (N.pos p))) with (pretty_N_go (N.pos p) ""). by apply pretty_go_digits.
Qed.

Lemma pretty_Z_chars (z : Z) : all_chars num_char (pretty z) = true.
Proof.
  assert (H : forall n, all_chars num_char (pretty (Z.of_N n)) = true)
    by (intros n; eapply all_chars_impl; [|apply pretty_N_digits]; intros c Hc; unfold num_char; by rewrite Hc).
  destruct z as [|p|p]; [done|apply (H (N.pos p))|].
  change (pretty (Z.neg p)) with (String "-"%char (pretty (Z.of_N (N.pos p)))). cbn [all_chars]. by rewrite H.
Qed.

Lemma split_once_at sep (a x : string) :
  all_chars (fun c => negb (bool_decide (c = sep))) a = true -> split_once sep (a +:+ String sep x) = Some (a, x).
Proof.
  induction a as [|c a IH]; [intros _; change (EmptyString +:+ String sep x) with (String sep x); cbn [split_once]; by case_bool_decide|]. cbn [all_chars].
  intros [Hc Ha]%andb_prop. change (String c a +:+ String sep x) with (String c (a +:+ String sep x)). cbn [split_once]. destruct (bool_decide (c = sep)); [done|]. by rewrite IH.
Qed.

Lemma pretty_sep_inj (a b : Z) (x y : string) :
  pretty a +:+ String ":" x = pretty b +:+ String ":" y -> a = b /\ x = y.
Proof.
  intros E. assert (H : forall z : Z, all_chars (fun c => negb (bool_decide (c = ":"%char))) (pretty z) = true).
  { intros z. eapply all_chars_impl; [|apply pretty_Z_chars]. intros c Hc.
    case_bool_decide; [subst; by vm_compute in Hc|done]. }
  pose proof (split_once_at ":" (pretty a) x (H a)) as Ha. rewrite E, (split_once_at ":" (pretty b) y (H b)) in Ha.
  injection Ha as Hp ->. split; [|done]. by apply (inj pretty).
Qed.

(** a decimal starts with none of the letters a key continues with *)
Lemma pretty_head (z : Z) : exists c r, pretty z = String c r /\ num_char c = true.
Proof.
  pose proof (pretty_Z_chars z) as H. pose proof (pretty_Z_not_empty z). destruct (pretty z) as [|c r]; [done|].
  cbn in H. apply andb_prop in H as [H _]. eauto.
Qed.
