(* ===== verification/Redis.v ===== *)
(** * The Redis operations the services use

    A key-value store with expiry on the shared clock (microseconds, as
    [utcnow()]).  Every call can fail when the server is unreachable: [None] is
    the exception, and the store is then unchanged.  A value is either text or
    an integer counter (stored as decimal text by Redis). *)

From S2P Require Import Prelude.

Inductive rval := RText (s : string) | RNum (n : Z).

#[export] Instance rval_eq_dec : EqDecision rval.
Proof. solve_decision. Defined.

Record redis := {
  r_up : bool;
  r_store : gmap string (rval * option Z)  (* value, expiry instant *)
}.

Definition SEC : Z := 1000000.

(** A key is visible until its expiry instant. *)
Definition live (now : Z) (e : rval * option Z) : bool :=
  match snd e with None => true | Some t => now <? t end.

Definition r_lookup (now : Z) (k : string) (r : redis) : option (rval * option Z) :=
  match r_store r !! k with
  | Some e => if live now e then Some e else None
  | None => None
  end.

Definition r_get (now : Z) (k : string) (r : redis) : option (option rval) :=
  if r_up r then Some (fst <$> r_lookup now k r) else None.

(** [EXISTS key == 1] *)
Definition r_exists (now : Z) (k : string) (r : redis) : option bool :=
  if r_up r then Some (bool_decide (is_Some (r_lookup now k r))) else None.

Definition r_put (k : string) (e : rval * option Z) (r : redis) : redis :=
  {| r_up := r_up r; r_store := <[k := e]> (r_store r) |}.

(** [SETEX key ttl value]: a non-positive ttl is an error reply. *)
Definition r_setex (now : Z) (k : string) (ttl : Z) (v : rval) (r : redis) : option redis :=
  if r_up r && (0 <? ttl) then Some (r_put k (v, Some (now + ttl * SEC)) r) else None.

(** [SET key value NX EX ttl]: [true] iff the key was absent. *)
Definition r_set_nx_ex (now : Z) (k : string) (v : rval) (ttl : Z) (r : redis) : option (bool * redis) :=
  if r_up r && (0 <? ttl) then
    match r_lookup now k r with
    | Some _ => Some (false, r)
    | None => Some (true, r_put k (v, Some (now + ttl * SEC)) r)
    end
  else None.

(** [INCR key]: a missing key counts from 0; the expiry is kept; text is an
    error reply. *)
Definition r_incr (now : Z) (k : string) (r : redis) : option (Z * redis) :=
  if r_up r then
    match r_lookup now k r with
    | None => Some (1, r_put k (RNum 1, None) r)
    | Some (RNum n, t) => Some (n + 1, r_put k (RNum (n + 1), t) r)
    | Some (RText _, _) => None
    end
  else None.

(** [EXPIRE key ttl] on an existing key sets its expiry. *)
Definition r_expire (now : Z) (k : string) (ttl : Z) (r : redis) : option redis :=
  if r_up r then
    match r_lookup now k r with
    | None => Some r
    | Some (v, _) => Some (r_put k (v, Some (now + ttl * SEC)) r)
    end
  else None.

Definition r_delete (k : string) (r : redis) : option redis :=
  if r_up r then Some {| r_up := true; r_store := delete k (r_store r) |} else None.

(** ** Lemmas *)

Lemma r_lookup_put_eq now k e r :
  live now e = true -> r_lookup now k (r_put k e r) = Some e.
Proof. intros H. unfold r_lookup, r_put; simpl. rewrite lookup_insert_eq. by rewrite H. Qed.

Lemma r_lookup_put_ne now k k' e r :
  k <> k' -> r_lookup now k' (r_put k e r) = r_lookup now k' r.
Proof. intros H. unfold r_lookup, r_put; simpl. by rewrite lookup_insert_ne. Qed.

Lemma r_setex_exists now t k ttl v r r' :
  r_setex now k ttl v r = Some r' -> t < now + ttl * SEC -> r_exists t k r' = Some true.
Proof.
  unfold r_setex, r_exists. destruct (r_up r) eqn:Eup; simpl; [|done]. zcase; [|done].
  intros [= <-] Ht. simpl. rewrite Eup. rewrite r_lookup_put_eq by (unfold live; simpl; zcase; [done|lia]).
  by rewrite bool_decide_eq_true_2.
Qed.

Lemma r_setex_exists_ne now t k k' ttl v r r' :
  r_setex now k ttl v r = Some r' -> k <> k' -> r_exists t k' r' = r_exists t k' r.
Proof.
  unfold r_setex, r_exists. destruct (r_up r) eqn:Eup; simpl; [|done]. zcase; [|done].
  intros [= <-] Hne. simpl. rewrite Eup. by rewrite r_lookup_put_ne.
Qed.

Lemma r_setex_up now k ttl v r r' : r_setex now k ttl v r = Some r' -> r_up r = true /\ r_up r' = true.
Proof. unfold r_setex. destruct (r_up r) eqn:E; simpl; [|done]. zcase; naive_solver. Qed.

Lemma r_setex_Some now k ttl v r :
  r_up r = true -> 0 < ttl -> exists r', r_setex now k ttl v r = Some r' /\ r_up r' = true.
Proof. intros Hu Ht. unfold r_setex. rewrite Hu. simpl. zcase; [|lia]. eexists. split; [done|]. done. Qed.

#[export] Hint Resolve r_setex_exists r_setex_up : axp.
