(* ===== verification/RateLimit.v ===== *)
(** * Fixed-window rate limits

    The limiter that service/api_token.py, service/pairing_code.py and
    service/share_link.py each write out: INCR a key, EXPIRE it on the first count, and
    compare with a limit; any Redis error admits the call.  What it promises is proved
    once for every sequence of calls, with other commands on other keys in between. *)

From S2P Require Import Prelude Redis.
Local Open Scope Z_scope.
Local Open Scope list_scope.

(** the call's answer and the store *)
Definition fixed_window (now : Z) (key : string) (ttl limit : Z) (r : redis) : bool * redis :=
  match r_incr now key r with
  | None => (true, r)
  | Some (n, r1) =>
      if n =? 1 then
        match r_expire now key ttl r1 with
        | None => (true, r1)
        | Some r2 => (n <=? limit, r2)
        end
      else (n <=? limit, r1)
  end.

Section Window.
Context (key : string) (ttl limit : Z).
Hypothesis limit_nonneg : 0 <= limit.

(** Calls at non-decreasing instants with their answers; the store may change between
    two calls in any way that keeps this key. *)
Inductive calls : redis -> Z -> list (Z * bool) -> Prop :=
| calls_end r t : calls r t []
| calls_more r t r0 now b r1 l :
    r_up r0 = true -> r_store r0 !! key = r_store r !! key -> t <= now ->
    fixed_window now key ttl limit r0 = (b, r1) -> calls r1 now l -> calls r t ((now, b) :: l).

(** calls admitted in [a, b) *)
Definition admitted (a b : Z) (l : list (Z * bool)) : Z := count_on (fun e => snd e && (a <=? fst e) && (fst e <? b)) l.

(** the counter and the end of its window *)
Inductive counter : redis -> Prop :=
| counter_none r : r_store r !! key = None -> counter r
| counter_some r n exp : r_store r !! key = Some (RNum n, Some exp) -> 1 <= n -> counter r.

Lemma window_live now r n exp : r_up r = true -> r_store r !! key = Some (RNum n, Some exp) -> 1 <= n -> now < exp ->
  exists r', fixed_window now key ttl limit r = (n + 1 <=? limit, r') /\ r_store r' !! key = Some (RNum (n + 1), Some exp).
Proof.
  intros Hu Hk Hn He. unfold fixed_window, r_incr, r_lookup. rewrite Hu, Hk. unfold live; cbn [snd]. rewrite (proj2 (Z.ltb_lt _ _) He).
  destruct (Z.eqb_spec (n + 1) 1); [lia|]. eexists. split; [done|]. cbn. by rewrite lookup_insert_eq.
Qed.

Lemma window_fresh now r : r_up r = true -> (forall e, r_store r !! key = Some e -> live now e = false) ->
  exists r', fixed_window now key ttl limit r = (1 <=? limit, r') /\ r_store r' !! key = Some (RNum 1, Some (now + ttl * SEC)).
Proof.
  intros Hu Hk. unfold fixed_window, r_incr. assert (Hl : r_lookup now key r = None).
  { unfold r_lookup. destruct (r_store r !! key) as [e|] eqn:E; [|done]. by rewrite (Hk e eq_refl). }
  rewrite Hu, Hl. cbn [Z.eqb]. unfold r_expire. cbn [r_up r_put]. rewrite Hu, r_lookup_put_eq by done.
  eexists. split; [done|]. cbn. by rewrite lookup_insert_eq.
Qed.

(** one call from a counter *)
Lemma window_call now r0 b r1 : r_up r0 = true -> counter r0 -> fixed_window now key ttl limit r0 = (b, r1) ->
  (exists n exp, r_store r0 !! key = Some (RNum n, Some exp) /\ 1 <= n /\ now < exp /\ b = (n + 1 <=? limit) /\ r_store r1 !! key = Some (RNum (n + 1), Some exp)) \/
  ((forall n exp, r_store r0 !! key = Some (RNum n, Some exp) -> exp <= now) /\ b = (1 <=? limit) /\ r_store r1 !! key = Some (RNum 1, Some (now + ttl * SEC))).
Proof.
  intros Hu Hc Hw. destruct Hc as [r0 Hk|r0 n exp Hk Hn].
  - right. destruct (window_fresh now r0 Hu) as (r' & Hr & Hs); [by rewrite Hk|]. rewrite Hr in Hw. injection Hw as <- <-.
    split; [by rewrite Hk|done].
  - destruct (Z.lt_ge_cases now exp) as [He|He].
    + left. destruct (window_live now r0 n exp Hu Hk Hn He) as (r' & Hr & Hs). rewrite Hr in Hw. injection Hw as <- <-. eauto 8.
    + right. destruct (window_fresh now r0 Hu) as (r' & Hr & Hs).
      { intros e E. rewrite Hk in E. injection E as <-. unfold live. cbn. by apply Z.ltb_ge. }
      rewrite Hr in Hw. injection Hw as <- <-. split; [|done]. intros m exp' E. rewrite Hk in E. by injection E as <- <-.
Qed.

Lemma admitted_cons a b t ok l : admitted a b ((t, ok) :: l) = (if ok && (a <=? t) && (t <? b) then 1 else 0) + admitted a b l.
Proof. done. Qed.

Lemma admitted_late a b r t l : calls r t l -> b <= t -> admitted a b l = 0.
Proof.
  induction 1 as [|r t r0 now ok r1 l _ _ Hle _ _ IH]; intros Hb; [done|]. rewrite admitted_cons, IH by lia.
  destruct (Z.ltb_spec now b); [lia|]. by rewrite andb_false_r.
Qed.

(** Counting from a window that is open until [exp]. *)
Lemma window_rest r t l n exp b a : calls r t l -> r_store r !! key = Some (RNum n, Some exp) -> 1 <= n -> b <= exp + ttl * SEC ->
  admitted a b l <= Z.max 0 (limit - n) + (if b <=? exp then 0 else limit).
Proof.
  intros Hc. revert n exp. induction Hc as [r t|r t r0 now ok r1 l Hu Hs Hle Hw Hc IH]; intros n exp Hk Hn Hb; [cbn; case_match; lia|].
  rewrite admitted_cons. rewrite <- Hs in Hk.
  destruct (window_call now r0 ok r1 Hu (counter_some _ _ _ Hk Hn) Hw) as [(n' & exp' & Hk' & _ & Hlt & -> & Hs1)|(Hexp & -> & Hs1)].
  - rewrite Hk in Hk'. injection Hk' as <- <-. specialize (IH (n + 1) exp Hs1 ltac:(lia) Hb).
    destruct (Z.leb_spec (n + 1) limit); cbn [andb]; repeat case_match; lia.
  - specialize (Hexp _ _ Hk). destruct (Z.le_gt_cases b now) as [Hbn|Hbn].
    + rewrite (admitted_late a b r1 now l Hc Hbn). destruct (Z.ltb_spec now b); [lia|]. rewrite andb_false_r. case_match; lia.
    + specialize (IH 1 _ Hs1 ltac:(lia)). destruct (Z.leb_spec b (now + ttl * SEC)); [|lia].
      specialize (IH ltac:(lia)). destruct (Z.leb_spec b exp); [lia|]. destruct (Z.leb_spec 1 limit); cbn [andb]; repeat case_match; lia.
Qed.

(** Any window of [ttl] seconds admits at most twice the limit. *)
Lemma window_bound r t l a : calls r t l -> counter r -> 0 <= ttl -> admitted a (a + ttl * SEC) l <= 2 * limit.
Proof.
  intros Hc Hk Ht. assert (Hpos : 0 <= ttl * SEC) by (unfold SEC; lia). revert Hk.
  induction Hc as [r t|r t r0 now ok r1 l Hu Hs Hle Hw Hc IH]; intros Hk; [cbn; lia|].
  assert (Hk0 : counter r0) by (destruct Hk as [r Hk|r n exp Hk Hn]; [apply counter_none|eapply counter_some; [|done]]; by rewrite Hs).
  assert (Hk1 : counter r1).
  { destruct (window_call now r0 ok r1 Hu Hk0 Hw) as [(n & exp & _ & Hn & _ & _ & Hs1)|(_ & _ & Hs1)]; (eapply counter_some; [exact Hs1|lia]). }
  rewrite admitted_cons. destruct (Z.leb_spec a now) as [Ha|Ha]; [|rewrite andb_false_r; cbn [andb]; by apply IH].
  destruct (window_call now r0 ok r1 Hu Hk0 Hw) as [(n & exp & _ & Hn & Hlt & -> & Hs1)|(_ & -> & Hs1)].
  - pose proof (window_rest r1 now l (n + 1) exp (a + ttl * SEC) a Hc Hs1 ltac:(lia) ltac:(lia)) as H.
    destruct (Z.leb_spec (n + 1) limit); cbn [andb]; repeat case_match; lia.
  - pose proof (window_rest r1 now l 1 (now + ttl * SEC) (a + ttl * SEC) a Hc Hs1 ltac:(lia) ltac:(lia)) as H.
    destruct (Z.leb_spec (a + ttl * SEC) (now + ttl * SEC)); [|lia]. destruct (Z.leb_spec 1 limit); cbn [andb]; repeat case_match; lia.
Qed.
End Window.
