(* ===== verification/Permission.v ===== *)
(** * Role-based access control (src/server/service/permission.py)

    Permission maps as the JSON columns of roles and users hold them, their
    merge, the [resource:action] test, the per-camera scope, and the escalation
    guard of src/server/controller/user.py. *)

From S2P Require Import Prelude.
Local Open Scope string_scope.

(** A value of a permission map: an action list, a scope map (target to action
    list, [None] for a JSON null), or anything else. *)
Inductive perm_val :=
| PActions (actions : list string)
| PScope (scope : gmap string (option (list string)))
| PJunk.

Notation perms := (gmap string perm_val).

Definition to_actions (v : perm_val) : option (gset string) :=
  match v with PActions l => Some (list_to_set l) | _ => None end.

(** Who is asking: [user.role.permissions] (when there is a role row) and
    [user.permissions]. *)
Record subject := { s_role : option perms; s_user : perms }.

Definition sources (s : subject) : list perms :=
  match s_role s with Some p => [p; s_user s] | None => [s_user s] end.

(** [merged.setdefault(resource, set()).update(actions)] over one map *)
Definition merge_source (merged : gmap string (gset string)) (source : perms)
    : gmap string (gset string) :=
  union_with (fun a b => Some (a ∪ b)) merged (omap to_actions source).

Definition merged_actions (s : subject) : gmap string (gset string) :=
  foldl merge_source ∅ (sources s).

Definition effective_permissions (s : subject) : gmap string (list string) :=
  (fun actions => merge_sort String.le (elements actions)) <$> merged_actions s.

(** ['*' in actions or action in actions] *)
Definition allows (actions : list string) (action : string) : bool :=
  bool_decide ("*" ∈ actions) || bool_decide (action ∈ actions).

Definition has (u : option subject) (resource action : string) : bool :=
  match u with
  | None => false
  | Some s =>
      let perms := effective_permissions s in
      match perms !! "*" with
      | Some star => if allows star action then true else
          match perms !! resource with Some l => allows l action | None => false end
      | None => match perms !! resource with Some l => allows l action | None => false end
      end
  end.

Definition is_superuser (u : option subject) : bool :=
  match u with
  | None => false
  | Some s => match effective_permissions s !! "*" with
              | Some star => bool_decide ("*" ∈ star)
              | None => false
              end
  end.

(** [_merged_scope(user, key)]: the user's entries override the role's. *)
Definition scope_of (key : string) (source : perms) : gmap string (option (list string)) :=
  match source !! key with Some (PScope m) => m | _ => ∅ end.

Definition merged_scope (s : subject) (key : string) : gmap string (option (list string)) :=
  foldl (fun merged source => scope_of key source ∪ merged) ∅ (sources s).

(** [scope.get(target)] with a JSON null read as absent *)
Definition scope_get (scope : gmap string (option (list string))) (target : string) : option (list string) :=
  match scope !! target with Some o => o | None => None end.

Definition has_camera_scope (u : option subject) (camera_uuid action : string) : bool :=
  match u with
  | None => false
  | Some s =>
      if is_superuser u then true else
      let scope := merged_scope s "camera_scope" in
      let allowed := match scope_get scope camera_uuid with
                     | Some l => Some l
                     | None => scope_get scope "*"
                     end in
      match allowed with
      | None | Some [] => false
      | Some l => bool_decide (action ∈ l) || bool_decide ("*" ∈ l)
      end
  end.

Definition can_ptz (u : option subject) (camera_uuid : string) : bool :=
  if is_superuser u then true
  else has u "ptz" "control" && has_camera_scope u camera_uuid "ptz".

(** ** The escalation guard, [UserController._guard_grant] *)

(** [x or y] on lists that may be absent *)
Definition or_list (o : option (list string)) (d : list string) : list string :=
  match o with Some (x :: r) => x :: r | _ => d end.

Definition grant_scope_ok (actor : subject) (resource : string)
    (actions : gmap string (option (list string))) : bool :=
  let own := merged_scope actor resource in
  forallb (fun '(target, granted) =>
      let allowed := or_list (scope_get own target) (or_list (scope_get own "*") []) in
      bool_decide ("*" ∈ allowed) ||
      forallb (fun a => bool_decide (a ∈ allowed)) (or_list granted ["*"]))
    (map_to_list actions).

Definition grant_source_ok (actor : subject) (source : perms) : bool :=
  forallb (fun '(resource, v) =>
      match v with
      | PScope m => grant_scope_ok actor resource m
      | PActions l => forallb (has (Some actor) resource) l
      | PJunk => true
      end)
    (map_to_list source).

(** [true] when the guard returns, [false] when it raises NoPermissionException. *)
Definition guard_grant (actor : subject) (role permissions : option perms) : bool :=
  if is_superuser (Some actor) then true
  else forallb (grant_source_ok actor)
         (match role with Some p => [p] | None => [] end ++
          match permissions with Some p => [p] | None => [] end).

(** ** Lemmas *)

(** A source grants [resource:action] by an explicit list under one of the two keys. *)
Definition grants (source : perms) (resource action : string) : Prop :=
  exists key l, (key = "*" \/ key = resource) /\ source !! key = Some (PActions l) /\
    ("*" ∈ l \/ action ∈ l).

Lemma merge_source_elem merged source key a :
  (exists t, merge_source merged source !! key = Some t /\ a ∈ t) <->
  (exists t, merged !! key = Some t /\ a ∈ t) \/
  (exists l, source !! key = Some (PActions l) /\ a ∈ l).
Proof.
  unfold merge_source. setoid_rewrite lookup_union_with. setoid_rewrite lookup_omap.
  destruct (merged !! key) as [m|], (source !! key) as [[l|sc|]|]; cbn; split.
  all: first [intros (t & Ht & Ha) | intros [(t & Ht & Ha)|(t & Ht & Ha)]]; simplify_eq.
  all: repeat match goal with H : _ ∈ _ ∪ _ |- _ => apply elem_of_union in H as [?|?] end.
  all: rewrite ?elem_of_list_to_set in *; eauto 6.
  all: eexists; (split; [reflexivity|]); rewrite ?elem_of_union, ?elem_of_list_to_set; auto.
Qed.

Lemma merged_actions_elem s key a :
  (exists t, merged_actions s !! key = Some t /\ a ∈ t) <->
  exists source l, source ∈ sources s /\ source !! key = Some (PActions l) /\ a ∈ l.
Proof.
  unfold merged_actions.
  assert (Hgen : forall acc srcs,
    (exists t, foldl merge_source acc srcs !! key = Some t /\ a ∈ t) <->
    (exists t, acc !! key = Some t /\ a ∈ t) \/
    exists source l, source ∈ srcs /\ source !! key = Some (PActions l) /\ a ∈ l).
  { intros acc srcs. revert acc. induction srcs as [|src srcs IH]; intros acc; simpl; [set_solver|].
    rewrite IH, merge_source_elem. set_solver. }
  rewrite Hgen. setoid_rewrite lookup_empty. naive_solver.
Qed.

Lemma effective_elem s key a :
  (exists l, effective_permissions s !! key = Some l /\ a ∈ l) <->
  exists source l, source ∈ sources s /\ source !! key = Some (PActions l) /\ a ∈ l.
Proof.
  rewrite <- merged_actions_elem. unfold effective_permissions. setoid_rewrite lookup_fmap.
  split.
  - intros (l & Hl & Ha). apply fmap_Some in Hl as (t & Ht & ->). exists t. split; [done|].
    by rewrite merge_sort_Permutation, elem_of_elements in Ha.
  - intros (t & -> & Ha). eexists. split; [done|]. by rewrite merge_sort_Permutation, elem_of_elements.
Qed.

Lemma allows_true l a : allows l a = true <-> "*" ∈ l \/ a ∈ l.
Proof. unfold allows. by rewrite orb_true_iff, !bool_decide_eq_true. Qed.

Lemma key_allows s key action :
  match effective_permissions s !! key with Some l => allows l action | None => false end = true <->
  exists source l, source ∈ sources s /\ source !! key = Some (PActions l) /\ ("*" ∈ l \/ action ∈ l).
Proof.
  assert (H : match effective_permissions s !! key with Some l => allows l action | None => false end = true <->
    (exists l, effective_permissions s !! key = Some l /\ "*" ∈ l) \/
    (exists l, effective_permissions s !! key = Some l /\ action ∈ l)).
  { destruct (effective_permissions s !! key) as [l|]; [rewrite allows_true|]; naive_solver. }
  rewrite H, !effective_elem. naive_solver.
Qed.

Lemma has_sources s resource action :
  has (Some s) resource action = true <-> exists source, source ∈ sources s /\ grants source resource action.
Proof.
  assert (H : has (Some s) resource action =
    match effective_permissions s !! "*" with Some l => allows l action | None => false end ||
    match effective_permissions s !! resource with Some l => allows l action | None => false end).
  { unfold has. destruct (effective_permissions s !! "*"); [|done]. by destruct (allows l action). }
  rewrite H, orb_true_iff, !key_allows. unfold grants. split.
  - intros [(src & l & ? & ? & ?)|(src & l & ? & ? & ?)]; exists src; eauto 8.
  - intros (src & ? & key & l & [->| ->] & ? & ?); eauto 8.
Qed.

Lemma superuser_sources s :
  is_superuser (Some s) = true <->
  exists source l, source ∈ sources s /\ source !! "*" = Some (PActions l) /\ "*" ∈ l.
Proof.
  rewrite <- effective_elem. simpl. destruct (effective_permissions s !! "*") as [l|].
  - rewrite bool_decide_eq_true. split; [eauto|]. by intros (l' & [= <-] & ?).
  - split; [done|]. by intros (l' & ? & _).
Qed.

Lemma superuser_has_all s resource action :
  is_superuser (Some s) = true -> has (Some s) resource action = true.
Proof.
  intros (src & l & Hin & Hl & Hs)%superuser_sources. apply has_sources.
  exists src. split; [done|]. exists "*", l. auto.
Qed.

(** A passed guard covers every listed action. *)
Lemma guard_grant_source actor role permissions source :
  guard_grant actor role permissions = true -> is_superuser (Some actor) = false ->
  role = Some source \/ permissions = Some source -> grant_source_ok actor source = true.
Proof.
  unfold guard_grant. intros H Hns Hs. rewrite Hns, forallb_forall in H. apply H.
  rewrite <- list_elem_of_In. destruct Hs as [->| ->]; set_solver.
Qed.

Lemma grant_source_actions actor source resource l a :
  grant_source_ok actor source = true -> source !! resource = Some (PActions l) -> a ∈ l ->
  has (Some actor) resource a = true.
Proof.
  unfold grant_source_ok. intros H Hl Ha. rewrite forallb_forall in H.
  specialize (H (resource, PActions l)). simpl in H.
  rewrite <- list_elem_of_In, elem_of_map_to_list in H. specialize (H Hl).
  rewrite forallb_forall in H. apply H. by apply list_elem_of_In.
Qed.

Lemma grants_star_or s resource a :
  is_superuser (Some s) = false -> has (Some s) resource "*" = true -> resource <> "*" ->
  has (Some s) resource a = true.
Proof.
  intros Hns (src & Hin & key & l & Hk & Hl & Hor)%has_sources Hne. apply has_sources.
  exists src. split; [done|]. assert (Hs : "*" ∈ l) by naive_solver.
  destruct Hk as [->| ->].
  - exfalso. rewrite (proj2 (superuser_sources s)) in Hns; naive_solver.
  - exists resource, l. auto.
Qed.

(** A granted source gives nothing the actor does not have. *)
Lemma grant_source_sound actor source resource action :
  is_superuser (Some actor) = false -> grant_source_ok actor source = true ->
  grants source resource action -> has (Some actor) resource action = true.
Proof.
  intros Hns Hok (key & l & Hk & Hl & Hor).
  assert (Hhas : forall a, a ∈ l -> has (Some actor) key a = true) by (intros; by eapply grant_source_actions).
  assert (Hstar : forall a, has (Some actor) "*" a = true -> a <> "*" -> has (Some actor) resource a = true).
  { intros a (src & Hin & k & l' & Hk' & Hl' & Hor')%has_sources _. apply has_sources.
    exists src. split; [done|]. exists "*", l'. assert (k = "*") as -> by naive_solver. auto. }
  assert (Hnost : has (Some actor) "*" "*" = true -> False).
  { intros (src & Hin & k & l' & Hk' & Hl' & Hor')%has_sources. assert (k = "*") as -> by naive_solver.
    rewrite (proj2 (superuser_sources actor)) in Hns; [done|]. naive_solver. }
  destruct Hor as [Hs|Ha].
  - destruct (decide (key = "*")) as [->|Hne]; [by destruct Hnost; auto|].
    destruct Hk as [->| ->]; [done|]. apply grants_star_or; auto.
  - destruct (decide (key = "*")) as [->|Hne]; [|destruct Hk as [->| ->]; [done|auto]].
    destruct (decide (action = "*")) as [->|]; [by destruct Hnost; auto|auto].
Qed.
