(* ===== verification/Token.v ===== *)
(** * JWT sessions (src/server/service/token.py, model/refresh_token.py, model/user.py, model/monitor.py)

    Access/refresh pairs, refresh rotation with reuse detection, revocation by
    Redis denylist and by [token_version], node and monitor tokens.

    PyJWT ([jwt.encode]/[jwt.decode] with the configured secret, algorithm and
    issuer) and [uuid.uuid4().hex] are parameters; see the class [JwtLib] for the
    documented behaviour the theorems use. *)

From S2P Require Import Prelude PyStr Redis Permission.
From stdpp Require Import pretty countable.
From Stdlib Require Import Ascii.
Local Open Scope Z_scope.

Definition JWT_ISSUER : string := "axp".
Definition JWT_ACCESS_TTL : Z := 900.
Definition JWT_REFRESH_TTL : Z := 1209600.
Definition NODE_TOKEN_TTL_DAYS : Z := 30.
Definition NODE_JOIN_TTL_MINUTES : Z := 30.
Definition MONITOR_REFRESH_TTL_S : Z := 30 * 24 * 3600.
Definition DENYLIST_PREFIX : string := "axp:denylist:".
Definition LOGIN_MAX_FAILED : Z := 5.
Definition LOGIN_LOCK_MINUTES : Z := 30.

(** The claim set of every kind of token: an absent claim is [None]. *)
Record Claims := {
  c_sub : string;
  c_aud : option string;
  c_typ : option string;
  c_iss : string;
  c_iat : Z;
  c_exp : Z;
  c_jti : string;
  c_uuid : option string;
  c_role : option string;
  c_tv : option Z;
  c_fid : option string;
  c_mv : option Z;
  c_scope : option (string * list string)  (* monitor uuid, dashboards; actions = ['read'] *)
}.

Inductive jwt_result :=
| JwtOk (c : Claims)
| JwtExpired     (* jwt.ExpiredSignatureError *)
| JwtInvalid.    (* any other jwt.InvalidTokenError *)

(** Domain exceptions reaching a caller (src/server/exception.py), plus the
    library errors the services let through. *)
Inductive exn :=
| AuthenticationException (msg : string)
| TokenReuseException (msg : string)
| AccountLockedException (msg : string)
| InvalidParameterException (msg : string)
| RowNotFoundException
| ConflictException (msg : string)
| NoPermissionException
| IntegrityError     (* a unique constraint of the database *)
| RedisError
| ValueError (msg : string).

(** PyJWT, with the secret, algorithm, issuer and required claims of the
    source's calls; [uuid_hex n] is the n-th [uuid.uuid4().hex] drawn. The laws
    are PyJWT's documented behaviour and the uniqueness of uuid4. *)
Class JwtLib := {
  jwt_encode : Claims -> string;
  (** [jwt.decode(token, secret, issuer=..., require exp/iat/jti/sub)] at epoch second [now] *)
  jwt_decode : Z -> string -> jwt_result;
  (** the same without [verify_exp] (logout) *)
  jwt_decode_noexp : string -> option Claims;
  uuid_hex : nat -> string;
  jwt_round_trip : forall now c,
    c_iss c = JWT_ISSUER -> c_iat c <= now < c_exp c -> jwt_decode now (jwt_encode c) = JwtOk c;
  jwt_expired : forall now c,
    c_iss c = JWT_ISSUER -> c_iat c <= now -> c_exp c <= now -> jwt_decode now (jwt_encode c) = JwtExpired;
  jwt_faithful : forall now c c', jwt_decode now (jwt_encode c) = JwtOk c' -> c' = c;
  uuid_inj : forall i j, uuid_hex i = uuid_hex j -> i = j;
  uuid_nonempty : forall i, uuid_hex i <> EmptyString
}.

(** [users] rows, the columns the session logic reads and writes. *)
Record User := {
  u_id : Z;
  u_uuid : string;
  u_login_id : string;
  u_password : string;           (* Argon2id hash *)
  u_role_id : Z;
  u_permissions : perms;
  u_is_active : bool;
  u_failed_login_count : option Z;
  u_locked_until : option Z;
  u_last_login_at : option Z;
  u_token_version : option Z;
  u_deleted_at : option Z
}.

Record Role := {
  ro_id : Z;
  ro_name : string;
  ro_permissions : perms;
  ro_is_system : bool;
  ro_deleted_at : option Z
}.

(** [audit_logs] rows; [detail] is a flat text map. *)
Record AuditLog := {
  al_action : string;
  al_target : option string;
  al_user_id : option Z;
  al_ip : option string;
  al_user_agent : option string;
  al_detail : list (string * string);
  al_created_at : Z
}.

Record RefreshToken := {
  rt_user_id : Z;
  rt_jti : string;
  rt_family_id : string;
  rt_issued_at : Z;
  rt_expires_at : Z;
  rt_rotated_to_jti : option string;
  rt_revoked_at : option Z;
  rt_user_agent : option string;
  rt_ip : option string
}.

Record Monitor := {
  mo_id : Z;
  mo_uuid : string;
  mo_dashboard_uuid : option string;   (* Dashboard.get_by_id(dashboard_id).uuid *)
  mo_status : string;
  mo_token_version : option Z;
  mo_paired_at : option Z;
  mo_last_ip : option string;
  mo_user_agent : option string;
  mo_enabled : bool;
  mo_deleted_at : option Z
}.

(** The database tables, Redis and the clock as one world.  [refresh_tokens]
    is keyed by its unique [jti], [users] and [monitors] by id; [w_uuids]
    counts the uuids drawn. The clock does not advance within one call. *)
Record World := {
  w_now : Z;
  w_uuids : nat;
  w_redis : redis;
  w_users : gmap Z User;
  w_refresh : gmap string RefreshToken;
  w_monitors : gmap Z Monitor;
  w_roles : gmap Z Role;
  w_audit : list AuditLog
}.

Definition T (A : Type) : Type := M World exn A.

(** ** Row updates *)

Definition set_redis (r : redis) (w : World) : World :=
  {| w_now := w_now w; w_uuids := w_uuids w; w_redis := r; w_users := w_users w;
     w_refresh := w_refresh w; w_monitors := w_monitors w;
     w_roles := w_roles w; w_audit := w_audit w |}.
Definition set_users (us : gmap Z User) (w : World) : World :=
  {| w_now := w_now w; w_uuids := w_uuids w; w_redis := w_redis w; w_users := us;
     w_refresh := w_refresh w; w_monitors := w_monitors w;
     w_roles := w_roles w; w_audit := w_audit w |}.
Definition set_refresh (rs : gmap string RefreshToken) (w : World) : World :=
  {| w_now := w_now w; w_uuids := w_uuids w; w_redis := w_redis w; w_users := w_users w;
     w_refresh := rs; w_monitors := w_monitors w;
     w_roles := w_roles w; w_audit := w_audit w |}.
Definition set_monitors (ms : gmap Z Monitor) (w : World) : World :=
  {| w_now := w_now w; w_uuids := w_uuids w; w_redis := w_redis w; w_users := w_users w;
     w_refresh := w_refresh w; w_monitors := ms;
     w_roles := w_roles w; w_audit := w_audit w |}.
Definition set_roles (rs : gmap Z Role) (w : World) : World :=
  {| w_now := w_now w; w_uuids := w_uuids w; w_redis := w_redis w; w_users := w_users w;
     w_refresh := w_refresh w; w_monitors := w_monitors w; w_roles := rs; w_audit := w_audit w |}.
Definition set_audit (l : list AuditLog) (w : World) : World :=
  {| w_now := w_now w; w_uuids := w_uuids w; w_redis := w_redis w; w_users := w_users w;
     w_refresh := w_refresh w; w_monitors := w_monitors w; w_roles := w_roles w; w_audit := l |}.
(** Time passes between calls. *)
Definition advance (t : Z) (w : World) : World :=
  {| w_now := t; w_uuids := w_uuids w; w_redis := w_redis w; w_users := w_users w;
     w_refresh := w_refresh w; w_monitors := w_monitors w;
     w_roles := w_roles w; w_audit := w_audit w |}.

(** [_epoch(dt)]: whole seconds of an instant after 1970. *)
Definition epoch (t : Z) : Z := t / SEC.

Definition rt_revoke (now : Z) (row : RefreshToken) : RefreshToken :=
  {| rt_user_id := rt_user_id row; rt_jti := rt_jti row; rt_family_id := rt_family_id row;
     rt_issued_at := rt_issued_at row; rt_expires_at := rt_expires_at row;
     rt_rotated_to_jti := rt_rotated_to_jti row; rt_revoked_at := Some now;
     rt_user_agent := rt_user_agent row; rt_ip := rt_ip row |}.

(** [RefreshToken.mark_rotated] *)
Definition rt_mark_rotated (now : Z) (next_jti : string) (row : RefreshToken) : RefreshToken :=
  {| rt_user_id := rt_user_id row; rt_jti := rt_jti row; rt_family_id := rt_family_id row;
     rt_issued_at := rt_issued_at row; rt_expires_at := rt_expires_at row;
     rt_rotated_to_jti := Some next_jti; rt_revoked_at := Some now;
     rt_user_agent := rt_user_agent row; rt_ip := rt_ip row |}.

(** [RefreshToken.is_active] *)
Definition rt_is_active (now : Z) (row : RefreshToken) : bool :=
  bool_decide (rt_revoked_at row = None) && bool_decide (rt_rotated_to_jti row = None)
  && (now <? rt_expires_at row).

(** [UPDATE ... SET revoked_at = now WHERE test AND revoked_at IS NULL] *)
Definition revoke_where (now : Z) (test : RefreshToken -> bool) (rs : gmap string RefreshToken)
    : gmap string RefreshToken :=
  (fun row => if test row && bool_decide (rt_revoked_at row = None) then rt_revoke now row else row)
    <$> rs.

Section TokenService.
Context {J : JwtLib}.

(** *** Library calls lifted into the world *)

Definition fresh_hex : T string :=
  fun w => (inr (uuid_hex (w_uuids w)),
            {| w_now := w_now w; w_uuids := S (w_uuids w); w_redis := w_redis w;
               w_users := w_users w; w_refresh := w_refresh w; w_monitors := w_monitors w;
   w_roles := w_roles w; w_audit := w_audit w |}).

Definition redis_setex (k : string) (ttl : Z) (v : rval) : T unit :=
  fun w => match r_setex (w_now w) k ttl v (w_redis w) with
           | Some r => (inr tt, set_redis r w)
           | None => (inl RedisError, w)
           end.
Definition redis_exists (k : string) : T bool :=
  fun w => match r_exists (w_now w) k (w_redis w) with
           | Some b => (inr b, w)
           | None => (inl RedisError, w)
           end.
Definition redis_get (k : string) : T (option rval) :=
  fun w => match r_get (w_now w) k (w_redis w) with
           | Some v => (inr v, w)
           | None => (inl RedisError, w)
           end.
Definition redis_delete (k : string) : T unit :=
  fun w => match r_delete k (w_redis w) with
           | Some r => (inr tt, set_redis r w)
           | None => (inl RedisError, w)
           end.

(** *** Revocation *)

Definition revoke (jti : string) (ttl_seconds : Z) : T unit :=
  redis_setex (DENYLIST_PREFIX +:+ jti) (if ttl_seconds <=? 0 then 1 else ttl_seconds) (RText "1").

Definition is_denylisted (jti : string) : T bool := redis_exists (DENYLIST_PREFIX +:+ jti).

Definition remaining_ttl (c : Claims) : T Z :=
  gets (fun w => Z.max 1 (c_exp c - epoch (w_now w))).

Definition revoke_family (family_id : string) : T unit :=
  modify (fun w => set_refresh
    (revoke_where (w_now w) (fun row => bool_decide (rt_family_id row = family_id)) (w_refresh w)) w).

Definition revoke_all_for_user (user_id : Z) : T unit :=
  modify (fun w => set_refresh
    (revoke_where (w_now w) (fun row => rt_user_id row =? user_id) (w_refresh w)) w).

(** *** Issue *)

Record Pair := {
  p_access_token : string; p_refresh_token : string;
  p_access_jti : string; p_refresh_jti : string; p_family_id : string;
  p_expires_in : Z; p_refresh_expires_at : Z
}.

(** [user.role]: the joined row, soft-deleted or not *)
Definition role_of (u : User) (w : World) : option Role := w_roles w !! u_role_id u.

Definition access_claims (u : User) (role_name : option string) (aud : string) (now : Z) (jti : string) : Claims :=
  {| c_sub := pretty (u_id u); c_aud := Some aud; c_typ := Some "access"; c_iss := JWT_ISSUER;
     c_iat := epoch now; c_exp := epoch (now + JWT_ACCESS_TTL * SEC); c_jti := jti;
     c_uuid := Some (u_uuid u); c_role := role_name; c_tv := Some (or_Z (u_token_version u) 0);
     c_fid := None; c_mv := None; c_scope := None |}.

Definition refresh_claims (u : User) (aud : string) (now : Z) (jti fid : string) : Claims :=
  {| c_sub := pretty (u_id u); c_aud := Some aud; c_typ := Some "refresh"; c_iss := JWT_ISSUER;
     c_iat := epoch now; c_exp := epoch (now + JWT_REFRESH_TTL * SEC); c_jti := jti;
     c_uuid := None; c_role := None; c_tv := None; c_fid := Some fid; c_mv := None; c_scope := None |}.

Definition issue_pair (u : User) (aud : string) (user_agent ip family_id : option string) : T Pair :=
  let! now := gets w_now in
  let! access_jti := fresh_hex in
  let! refresh_jti := fresh_hex in
  let! fid := (if truthy_str family_id then ret (default "" family_id) else fresh_hex) in
  let refresh_exp := now + JWT_REFRESH_TTL * SEC in
  let! role_name := gets (fun w => ro_name <$> role_of u w) in
  modify (fun w => set_refresh
    (<[refresh_jti := {| rt_user_id := u_id u; rt_jti := refresh_jti; rt_family_id := fid;
         rt_issued_at := now; rt_expires_at := refresh_exp; rt_rotated_to_jti := None;
         rt_revoked_at := None; rt_user_agent := user_agent; rt_ip := ip |}]> (w_refresh w)) w) ;;;
  ret {| p_access_token := jwt_encode (access_claims u role_name aud now access_jti);
          p_refresh_token := jwt_encode (refresh_claims u aud now refresh_jti fid);
          p_access_jti := access_jti; p_refresh_jti := refresh_jti; p_family_id := fid;
          p_expires_in := JWT_ACCESS_TTL; p_refresh_expires_at := refresh_exp |}.

(** *** Decode and verify *)

(** [_decode]: signature, issuer and expiry by the library, then the type. *)
Definition decode (token expected_typ : string) : T Claims :=
  let! now := gets w_now in
  match jwt_decode (epoch now) token with
  | JwtExpired => raise (AuthenticationException "token_expired")
  | JwtInvalid => raise (AuthenticationException "invalid_token")
  | JwtOk c =>
      if bool_decide (c_typ c = Some expected_typ) then ret c
      else raise (AuthenticationException "wrong_token_type")
  end.

(** [User.get_by_id]: rows not soft-deleted. *)
Definition user_get_by_id (id : Z) : T User :=
  fun w => match w_users w !! id with
           | Some u => if bool_decide (u_deleted_at u = None) then (inr u, w)
                       else (inl RowNotFoundException, w)
           | None => (inl RowNotFoundException, w)
           end.

(** [try: User.get_by_id(int(sub)) except Exception: raise unknown_user] *)
Definition user_of_sub (sub : string) : T User :=
  try_with
    (match py_int sub with
     | Some id => user_get_by_id id
     | None => raise (ValueError "int")
     end)
    (fun _ => raise (AuthenticationException "unknown_user")).

Definition check_active (u : User) : T unit :=
  if negb (u_is_active u) || bool_decide (is_Some (u_deleted_at u))
  then raise (AuthenticationException "inactive_user") else ret tt.

Definition verify_access (token : string) : T (User * Claims) :=
  let! claims := decode token "access" in
  let! denied := is_denylisted (c_jti claims) in
  if denied then raise (AuthenticationException "revoked") else
  let! user := user_of_sub (c_sub claims) in
  check_active user ;;;
  if bool_decide (Some (or_Z (u_token_version user) 0) = c_tv claims) then ret (user, claims)
  else raise (AuthenticationException "stale_token").

(** [resolve_access_token]: [None] on any failure. *)
Definition resolve_access_token (token : string) : T (option (User * Claims)) :=
  try_with (let! r := verify_access token in ret (Some r)) (fun _ => ret None).

(** *** Refresh rotation and reuse detection *)

Definition put_refresh_row (row : RefreshToken) : T unit :=
  modify (fun w => set_refresh (<[rt_jti row := row]> (w_refresh w)) w).

Definition rotate_refresh (token : string) (user_agent ip : option string) : T (Pair * User) :=
  let! claims := decode token "refresh" in
  let jti := c_jti claims in
  let fid := c_fid claims in
  let! row := gets (fun w => w_refresh w !! jti) in
  match row with
  | None => raise (AuthenticationException "unknown_refresh")
  | Some row =>
      if bool_decide (is_Some (rt_rotated_to_jti row)) || bool_decide (is_Some (rt_revoked_at row)) then
        (* replay of a rotated or revoked refresh: burn the family *)
        revoke_family (rt_family_id row) ;;;
        let! ttl := remaining_ttl claims in
        revoke jti ttl ;;;
        raise (TokenReuseException "refresh_reuse_detected")
      else
      let! now := gets w_now in
      if rt_expires_at row <=? now then raise (AuthenticationException "refresh_expired") else
      let! user := user_of_sub (c_sub claims) in
      check_active user ;;;
      let! pair := issue_pair user (default "web" (c_aud claims)) user_agent ip fid in
      let! now2 := gets w_now in
      put_refresh_row (rt_mark_rotated now2 (p_refresh_jti pair) row) ;;;
      let! ttl := remaining_ttl claims in
      revoke jti ttl ;;;
      ret (pair, user)
  end.

(** [RefreshToken.delete_expired], the periodic clean-up *)
Definition delete_expired (before : Z) : T unit :=
  modify (fun w => set_refresh
    (filter (fun kv => negb (rt_expires_at (snd kv) <? before)) (w_refresh w)) w).

(** *** Logout and global invalidation *)

Definition revoke_pair (access : option Claims) (refresh_jti : option string) : T unit :=
  match access with
  | Some c => if bool_decide (c_jti c = EmptyString) then ret tt
              else let! ttl := remaining_ttl c in revoke (c_jti c) ttl
  | None => ret tt
  end ;;;
  if truthy_str refresh_jti then
    let! row := gets (fun w => w_refresh w !! default "" refresh_jti) in
    match row with
    | Some row => revoke_family (rt_family_id row)
    | None => ret tt
    end
  else ret tt.

Definition set_token_version (u : User) (v : Z) : User :=
  {| u_id := u_id u; u_uuid := u_uuid u; u_login_id := u_login_id u; u_password := u_password u;
     u_role_id := u_role_id u; u_permissions := u_permissions u; u_is_active := u_is_active u;
     u_failed_login_count := u_failed_login_count u; u_locked_until := u_locked_until u;
     u_last_login_at := u_last_login_at u; u_token_version := Some v;
     u_deleted_at := u_deleted_at u |}.

Definition put_user (u : User) : T unit :=
  modify (fun w => set_users (<[u_id u := u]> (w_users w)) w).

Definition bump_token_version (u : User) : T unit :=
  put_user (set_token_version u (or_Z (u_token_version u) 0 + 1)).

Definition revoke_all (u : User) : T unit :=
  bump_token_version u ;;;
  revoke_all_for_user (u_id u).

(** *** Node tokens *)

Definition node_claims (sub aud typ jti : string) (now exp : Z) : Claims :=
  {| c_sub := sub; c_aud := Some aud; c_typ := Some typ; c_iss := JWT_ISSUER; c_iat := epoch now;
     c_exp := epoch exp; c_jti := jti; c_uuid := None; c_role := None; c_tv := None; c_fid := None;
     c_mv := None; c_scope := None |}.

Definition issue_node_token (node_uuid : string) (ttl_days : option Z) : T (string * string * Z) :=
  let! now := gets w_now in
  let exp := now + default NODE_TOKEN_TTL_DAYS ttl_days * 86400 * SEC in
  let! jti := fresh_hex in
  ret (jwt_encode (node_claims node_uuid "node" "node" jti now exp), jti, exp).

Definition nodejoin_key (jti : string) : string := "axp:nodejoin:" +:+ jti.

Definition issue_join_token (node_id : Z) (ttl_minutes : option Z) : T string :=
  let! now := gets w_now in
  let minutes := default NODE_JOIN_TTL_MINUTES ttl_minutes in
  let exp := now + minutes * 60 * SEC in
  let! jti := fresh_hex in
  redis_setex (nodejoin_key jti) (Z.max 1 (minutes * 60)) (RNum node_id) ;;;
  ret (jwt_encode (node_claims (pretty node_id) "node-join" "node_join" jti now exp)).

Definition check_aud (c : Claims) (aud : string) : T unit :=
  if bool_decide (c_aud c = Some aud) then ret tt else raise (AuthenticationException "wrong_audience").

Definition verify_node_token (token : string) : T Claims :=
  let! claims := decode token "node" in
  check_aud claims "node" ;;;
  let! denied := is_denylisted (c_jti claims) in
  if denied then raise (AuthenticationException "revoked") else ret claims.

Definition consume_join_token (token : string) : T Z :=
  let! claims := decode token "node_join" in
  check_aud claims "node-join" ;;;
  let! v := redis_get (nodejoin_key (c_jti claims)) in
  match v with
  | None => raise (AuthenticationException "join_token_used_or_expired")
  | Some _ =>
      redis_delete (nodejoin_key (c_jti claims)) ;;;
      match py_int (c_sub claims) with
      | Some n => ret n
      | None => raise (ValueError "int")
      end
  end.

(** *** Monitor (kiosk) tokens *)

(** First row satisfying a test, in primary-key order. *)
Definition find_row {A} (test : A -> bool) (rows : gmap Z A) : option A :=
  List.find test (snd <$> map_to_list rows).

Definition monitor_get_by_uuid (uuid : string) : T (option Monitor) :=
  gets (fun w => find_row
    (fun m => bool_decide (mo_uuid m = uuid) && bool_decide (mo_deleted_at m = None)) (w_monitors w)).

Definition live_monitor (c : Claims) : T Monitor :=
  let! mon := monitor_get_by_uuid (c_sub c) in
  match mon with
  | None => raise (AuthenticationException "monitor_invalid")
  | Some m =>
      if negb (mo_enabled m) || bool_decide (is_Some (mo_deleted_at m))
      then raise (AuthenticationException "monitor_invalid")
      else if bool_decide (Some (or_Z (mo_token_version m) 0) = c_mv c) then ret m
      else raise (AuthenticationException "stale_monitor_token")
  end.

Definition monitor_claims (m : Monitor) (typ jti : string) (now ttl : Z)
    (fid : option string) (scope : option (string * list string)) : Claims :=
  {| c_sub := mo_uuid m; c_aud := Some "monitor"; c_typ := Some typ; c_iss := JWT_ISSUER;
     c_iat := epoch now; c_exp := epoch (now + ttl * SEC); c_jti := jti; c_uuid := None;
     c_role := None; c_tv := None; c_fid := fid; c_mv := Some (or_Z (mo_token_version m) 0);
     c_scope := scope |}.

Record MonitorPair := {
  mp_access_token : string; mp_refresh_token : string; mp_expires_in : Z;
  mp_family_id : string; mp_scope : string * list string
}.

Definition issue_monitor_pair (m : Monitor) (dashboard_uuid : string) (family_id : option string)
    : T MonitorPair :=
  let! now := gets w_now in
  let! access_jti := fresh_hex in
  let! refresh_jti := fresh_hex in
  let! fid := (if truthy_str family_id then ret (default "" family_id) else fresh_hex) in
  let scope := (mo_uuid m, [dashboard_uuid]) in
  ret {| mp_access_token :=
           jwt_encode (monitor_claims m "access" access_jti now JWT_ACCESS_TTL None (Some scope));
         mp_refresh_token :=
           jwt_encode (monitor_claims m "refresh" refresh_jti now MONITOR_REFRESH_TTL_S (Some fid) None);
         mp_expires_in := JWT_ACCESS_TTL; mp_family_id := fid; mp_scope := scope |}.

Definition verify_monitor_access (token : string) : T (Monitor * Claims) :=
  let! claims := decode token "access" in
  check_aud claims "monitor" ;;;
  let! denied := is_denylisted (c_jti claims) in
  if denied then raise (AuthenticationException "revoked") else
  let! mon := live_monitor claims in
  ret (mon, claims).

Definition rotate_monitor_refresh (token : string) : T (MonitorPair * Monitor) :=
  let! claims := decode token "refresh" in
  check_aud claims "monitor" ;;;
  let! denied := is_denylisted (c_jti claims) in
  if denied then raise (AuthenticationException "revoked") else
  let! mon := live_monitor claims in
  let! ttl := remaining_ttl claims in
  revoke (c_jti claims) ttl ;;;
  let! pair := issue_monitor_pair mon (default "" (mo_dashboard_uuid mon)) (c_fid claims) in
  ret (pair, mon).

(** [Monitor.bump_token_version] *)
Definition monitor_bump (m : Monitor) : T unit :=
  modify (fun w => set_monitors (<[mo_id m := {| mo_id := mo_id m; mo_uuid := mo_uuid m;
    mo_dashboard_uuid := mo_dashboard_uuid m; mo_status := mo_status m;
    mo_token_version := Some (or_Z (mo_token_version m) 0 + 1); mo_paired_at := mo_paired_at m;
    mo_last_ip := mo_last_ip m; mo_user_agent := mo_user_agent m; mo_enabled := mo_enabled m;
    mo_deleted_at := mo_deleted_at m |}]> (w_monitors w)) w).
End TokenService.

(** ** Generic facts *)

Lemma lookup_revoke_where now test rs jti :
  revoke_where now test rs !! jti =
  (fun row => if test row && bool_decide (rt_revoked_at row = None) then rt_revoke now row else row)
    <$> rs !! jti.
Proof. unfold revoke_where. apply lookup_fmap. Qed.

Lemma find_row_Some {R} (test : R -> bool) (rows : gmap Z R) r :
  find_row test rows = Some r -> test r = true /\ exists k, rows !! k = Some r.
Proof.
  unfold find_row. intros H. apply List.find_some in H as [Hin Ht]. split; [done|].
  apply list_elem_of_In, list_elem_of_fmap in Hin as ([k x] & -> & Hk).
  exists k. by apply elem_of_map_to_list in Hk.
Qed.

Lemma find_row_None {R} (test : R -> bool) (rows : gmap Z R) k r :
  find_row test rows = None -> rows !! k = Some r -> test r = false.
Proof.
  unfold find_row. intros H Hk. apply (List.find_none _ _ H). apply list_elem_of_In, list_elem_of_fmap.
  exists (k, r). split; [done|]. by apply elem_of_map_to_list.
Qed.

(** A unique match is the one found. *)
Lemma find_row_unique {R} (test : R -> bool) (rows : gmap Z R) k r :
  rows !! k = Some r -> test r = true ->
  (forall k' r', rows !! k' = Some r' -> test r' = true -> r' = r) -> find_row test rows = Some r.
Proof.
  intros Hk Ht Hu. destruct (find_row test rows) as [r'|] eqn:E.
  - apply find_row_Some in E as (Ht' & k' & Hk'). by rewrite (Hu _ _ Hk' Ht').
  - rewrite (find_row_None _ _ _ _ E Hk) in Ht. done.
Qed.

(** After a conditional revocation no row passing the test is unrevoked. *)
Lemma revoke_where_revoked now test rs jti row :
  (forall r t, test (rt_revoke t r) = test r) ->
  revoke_where now test rs !! jti = Some row -> test row = true -> is_Some (rt_revoked_at row).
Proof.
  intros Hstab. rewrite lookup_revoke_where. destruct (rs !! jti) as [r|]; simpl; [|done].
  intros [= <-] Ht. destruct (test r) eqn:E; simpl in *; [|congruence].
  case_bool_decide as Hn; simpl; [eauto|]. destruct (rt_revoked_at r); [eauto|done].
Qed.

Section TokenLemmas.
Context {J : JwtLib}.

Lemma decode_inr tok typ w c w' :
  decode tok typ w = (inr c, w') ->
  w' = w /\ jwt_decode (epoch (w_now w)) tok = JwtOk c /\ c_typ c = Some typ.
Proof.
  unfold decode. intros H. minv1 H. dmatch_in H; [|done|done].
  case_bool_decide; [|done]. minv1 H. done.
Qed.

Lemma decode_ok tok typ w c :
  jwt_decode (epoch (w_now w)) tok = JwtOk c -> c_typ c = Some typ ->
  decode tok typ w = (inr c, w).
Proof. intros Hd Ht. unfold decode, bind, gets. rewrite Hd. by rewrite bool_decide_eq_true_2. Qed.

Lemma redis_exists_inr k w b w' :
  redis_exists k w = (inr b, w') -> w' = w /\ r_exists (w_now w) k (w_redis w) = Some b.
Proof. unfold redis_exists. destruct (r_exists _ _ _) eqn:E; naive_solver. Qed.

Lemma revoke_inr jti ttl w u w' :
  revoke jti ttl w = (inr u, w') ->
  exists r, r_setex (w_now w) (DENYLIST_PREFIX +:+ jti) (if ttl <=? 0 then 1 else ttl) (RText "1") (w_redis w)
            = Some r /\ w' = set_redis r w.
Proof.
  unfold revoke, redis_setex. destruct (r_setex _ _ _ _ _) as [r|] eqn:E; [|done].
  intros [= <- <-]. eauto.
Qed.

Lemma revoke_ok jti ttl w :
  r_up (w_redis w) = true ->
  exists r, revoke jti ttl w = (inr tt, set_redis r w) /\ r_up r = true.
Proof.
  intros Hup. unfold revoke, redis_setex.
  destruct (r_setex_Some (w_now w) (DENYLIST_PREFIX +:+ jti) (if ttl <=? 0 then 1 else ttl)
    (RText "1") (w_redis w) Hup) as (r & -> & Hr); [by zcase; lia|]. eauto.
Qed.

Lemma user_of_sub_inr sub w u w' :
  user_of_sub sub w = (inr u, w') ->
  w' = w /\ exists id, py_int sub = Some id /\ w_users w !! id = Some u /\ u_deleted_at u = None.
Proof.
  unfold user_of_sub, try_with. destruct (py_int sub) as [id|]; [|done].
  unfold user_get_by_id. destruct (w_users w !! id) as [u'|] eqn:E; [|done].
  case_bool_decide; [|done]. intros; simplify_eq. eauto.
Qed.

Lemma user_of_sub_world sub w r w' : user_of_sub sub w = (r, w') -> w' = w.
Proof.
  unfold user_of_sub, try_with, user_get_by_id, raise. destruct (py_int sub); [|naive_solver].
  destruct (w_users w !! _); [|naive_solver]. case_bool_decide; naive_solver.
Qed.

Lemma check_active_inr u w x w' :
  check_active u w = (inr x, w') -> w' = w /\ u_is_active u = true /\ u_deleted_at u = None.
Proof.
  unfold check_active. destruct (u_is_active u); simpl; [|done].
  case_bool_decide as Hd; [done|]. intros [= <- <-]. repeat split; try done.
  destruct (u_deleted_at u); [destruct Hd; eauto|done].
Qed.

(** The closed form of [issue_pair]. *)
Definition issued_fid (fam : option string) (w : World) : string :=
  if truthy_str fam then default "" fam else uuid_hex (S (S (w_uuids w))).
Definition issued_jti (w : World) : string := uuid_hex (S (w_uuids w)).
Definition issued_row (u : User) (ua ip fam : option string) (w : World) : RefreshToken :=
  {| rt_user_id := u_id u; rt_jti := issued_jti w; rt_family_id := issued_fid fam w;
     rt_issued_at := w_now w; rt_expires_at := w_now w + JWT_REFRESH_TTL * SEC;
     rt_rotated_to_jti := None; rt_revoked_at := None; rt_user_agent := ua; rt_ip := ip |}.
Definition issued_pair (u : User) (aud : string) (fam : option string) (w : World) : Pair :=
  {| p_access_token := jwt_encode (access_claims u (ro_name <$> role_of u w) aud (w_now w) (uuid_hex (w_uuids w)));
     p_refresh_token := jwt_encode (refresh_claims u aud (w_now w) (issued_jti w) (issued_fid fam w));
     p_access_jti := uuid_hex (w_uuids w); p_refresh_jti := issued_jti w;
     p_family_id := issued_fid fam w; p_expires_in := JWT_ACCESS_TTL;
     p_refresh_expires_at := w_now w + JWT_REFRESH_TTL * SEC |}.
Definition issued_world (u : User) (ua ip fam : option string) (w : World) : World :=
  {| w_now := w_now w;
     w_uuids := (if truthy_str fam then S (S (w_uuids w)) else S (S (S (w_uuids w))));
     w_redis := w_redis w; w_users := w_users w;
     w_refresh := <[issued_jti w := issued_row u ua ip fam w]> (w_refresh w);
     w_monitors := w_monitors w;
   w_roles := w_roles w; w_audit := w_audit w |}.

Lemma issue_pair_run u aud ua ip fam w :
  issue_pair u aud ua ip fam w = (inr (issued_pair u aud fam w), issued_world u ua ip fam w).
Proof.
  unfold issue_pair, issued_pair, issued_world, issued_row, issued_fid, bind, gets, fresh_hex,
    modify, ret, set_refresh; simpl.
  by destruct (truthy_str fam).
Qed.

(** What a successful rotation has checked and done. *)
Record rotated (tok : string) (ua ip : option string) (w : World) (u : User) (w' : World)
    (c : Claims) (row : RefreshToken) : Prop := {
  rot_decode : jwt_decode (epoch (w_now w)) tok = JwtOk c;
  rot_typ : c_typ c = Some "refresh";
  rot_row : w_refresh w !! c_jti c = Some row;
  rot_fresh : rt_rotated_to_jti row = None /\ rt_revoked_at row = None;
  rot_unexpired : w_now w < rt_expires_at row;
  rot_user : exists id, py_int (c_sub c) = Some id /\ w_users w !! id = Some u;
  rot_active : u_is_active u = true /\ u_deleted_at u = None;
  rot_world : exists r, w' = set_redis r (set_refresh
    (<[rt_jti row := rt_mark_rotated (w_now w) (issued_jti w) row]>
      (<[issued_jti w := issued_row u ua ip (c_fid c) w]> (w_refresh w)))
    (issued_world u ua ip (c_fid c) w)) /\ r_up r = true
}.

Lemma rotate_refresh_inr tok ua ip w pair u w' :
  rotate_refresh tok ua ip w = (inr (pair, u), w') ->
  exists c row, rotated tok ua ip w u w' c row /\
    pair = issued_pair u (default "web" (c_aud c)) (c_fid c) w.
Proof.
  unfold rotate_refresh, put_refresh_row, remaining_ttl, revoke_family. intros H. minv1 H.
  apply decode_inr in Hm as (-> & Hdec & Htyp). minv1 H.
  destruct (w_refresh w !! c_jti a) as [row|] eqn:Erow; [|done].
  destruct (bool_decide (is_Some (rt_rotated_to_jti row))) eqn:E1; simpl in H.
  { minv1 H. minv1 H. minv1 H. done. }
  destruct (bool_decide (is_Some (rt_revoked_at row))) eqn:E2; simpl in H.
  { minv1 H. minv1 H. minv1 H. done. }
  minv1 H. zcase; [done|]. minv1 H. apply user_of_sub_inr in Hm as (-> & id & Hid & Hu & Hdel).
  minv1 H. apply check_active_inr in Hm as (-> & Hact & _).
  minv1 H. rewrite issue_pair_run in Hm. simplify_eq.
  minv1 H. minv1 H. minv1 H. minv1 H. apply revoke_inr in Hm as (r & Hr & ->). minv1 H.
  exists a, row. split; [|done]. apply bool_decide_eq_false in E1, E2.
  split; try done; eauto.
  - split; [by destruct (rt_rotated_to_jti row); [destruct E1; eauto|]
           |by destruct (rt_revoked_at row); [destruct E2; eauto|]].
  - exists r. split; [done|]. by apply r_setex_up in Hr as [_ ?].
Qed.
End TokenLemmas.

(** ** Session histories *)

Section Sessions.
Context {J : JwtLib}.

(** A step of the server, with the claims of the refresh tokens handed out so far: a login, a
    rotation (successful or not), a logout, a global revocation, the hourly clean-up, or anything
    that leaves the refresh table alone (time passing, Redis going down or losing keys, users
    edited). *)
Inductive session_step : list Claims * World -> list Claims * World -> Prop :=
| sess_other cs w w' : w_refresh w' = w_refresh w -> w_now w <= w_now w' -> (w_uuids w <= w_uuids w')%nat -> session_step (cs, w) (cs, w')
| sess_login cs w u aud ua ip pair w' :
    issue_pair u aud ua ip None w = (inr pair, w') ->
    session_step (cs, w) (refresh_claims u aud (w_now w) (p_refresh_jti pair) (p_family_id pair) :: cs, w')
| sess_rotate cs w c ua ip pair u w' :
    c ∈ cs -> rotate_refresh (jwt_encode c) ua ip w = (inr (pair, u), w') ->
    session_step (cs, w) (refresh_claims u (default "web" (c_aud c)) (w_now w) (p_refresh_jti pair) (p_family_id pair) :: cs, w')
| sess_rotate_fail cs w c ua ip e w' :
    c ∈ cs -> rotate_refresh (jwt_encode c) ua ip w = (inl e, w') -> session_step (cs, w) (cs, w')
| sess_logout cs w ac rj r w' : revoke_pair ac rj w = (r, w') -> session_step (cs, w) (cs, w')
| sess_revoke_all cs w u r w' : revoke_all u w = (r, w') -> session_step (cs, w) (cs, w')
| sess_cleanup cs w r w' : delete_expired (w_now w) w = (r, w') -> session_step (cs, w) (cs, w').

(** The worlds reached from an empty refresh table. *)
Definition sessions (cs : list Claims) (w : World) : Prop :=
  exists w0, w_refresh w0 = ∅ /\ rtc session_step ([], w0) (cs, w).

Lemma sessions_init w : w_refresh w = ∅ -> sessions [] w.
Proof. intros H. exists w. split; [done|apply rtc_refl]. Qed.
Lemma sessions_later cs w cs' w' : sessions cs w -> rtc session_step (cs, w) (cs', w') -> sessions cs' w'.
Proof. intros (w0 & H0 & Hs) H. exists w0. split; [done|by etrans]. Qed.
Lemma sessions_step cs w cs' w' : sessions cs w -> session_step (cs, w) (cs', w') -> sessions cs' w'.
Proof. intros Hs H. eapply sessions_later; [exact Hs|by apply rtc_once]. Qed.

Definition drawn (w : World) (s : string) : Prop := exists k, (k < w_uuids w)%nat /\ s = uuid_hex k.

Definition family_single (rs : gmap string RefreshToken) : Prop :=
  forall j1 j2 r1 r2, rs !! j1 = Some r1 -> rs !! j2 = Some r2 ->
    rt_family_id r1 = rt_family_id r2 -> rt_revoked_at r1 = None -> rt_revoked_at r2 = None -> j1 = j2.

(** The invariant of the refresh table with respect to the tokens handed out. *)
Record sess_inv (cs : list Claims) (w : World) : Prop := {
  si_key : forall j r, w_refresh w !! j = Some r -> rt_jti r = j;
  si_drawn : forall j r, w_refresh w !! j = Some r -> drawn w j /\ drawn w (rt_family_id r);
  si_claims : forall c, c ∈ cs -> c_typ c = Some "refresh" /\ c_iss c = JWT_ISSUER /\ drawn w (c_jti c) /\
    exists fid, c_fid c = Some fid /\ drawn w fid /\
      forall r, w_refresh w !! c_jti c = Some r -> rt_family_id r = fid;
  si_single : family_single (w_refresh w)
}.

Lemma drawn_mono w w' s : (w_uuids w <= w_uuids w')%nat -> drawn w s -> drawn w' s.
Proof. intros Hle (k & Hk & ->). exists k. split; [lia|done]. Qed.

Lemma drawn_truthy w s : drawn w s -> truthy_str (Some s) = true.
Proof.
  intros (k & _ & ->). unfold truthy_str. rewrite bool_decide_eq_false_2; [done|].
  apply uuid_nonempty.
Qed.

Lemma not_drawn_fresh w k : (w_uuids w <= k)%nat -> ~ drawn w (uuid_hex k).
Proof. intros Hle (j & Hj & He%uuid_inj). lia. Qed.

(** Operations that only revoke rows, or drop expired ones, keep the invariant. *)
Definition shrinks (now : Z) (rs rs' : gmap string RefreshToken) : Prop :=
  (forall j r', rs' !! j = Some r' -> exists r, rs !! j = Some r /\ rt_jti r' = rt_jti r /\
    rt_family_id r' = rt_family_id r /\ rt_expires_at r' = rt_expires_at r /\ (rt_revoked_at r' = None -> rt_revoked_at r = None)) /\
  (forall j r, rs !! j = Some r -> is_Some (rs' !! j) \/ rt_expires_at r < now).

Lemma sess_inv_shrinks cs w w' :
  sess_inv cs w -> w_uuids w' = w_uuids w -> shrinks (w_now w) (w_refresh w) (w_refresh w') -> sess_inv cs w'.
Proof.
  intros [Hk Hd Hc Hs] Hu [Hsh _]. assert (Hdr : forall s, drawn w s -> drawn w' s).
  { intros s. apply drawn_mono. lia. }
  split.
  - intros j r' Hr'. destruct (Hsh _ _ Hr') as (r & Hr & -> & _). eauto.
  - intros j r' Hr'. destruct (Hsh _ _ Hr') as (r & Hr & _ & -> & _). destruct (Hd _ _ Hr). eauto.
  - intros c Hin. destruct (Hc c Hin) as (? & ? & ? & fid & Hf & ? & Hr). repeat split; eauto.
    exists fid. repeat split; eauto. intros r' Hr'. destruct (Hsh _ _ Hr') as (r & Hr0 & _ & -> & _). eauto.
  - intros j1 j2 r1 r2 H1 H2 Hf Hn1 Hn2.
    destruct (Hsh _ _ H1) as (r1' & H1' & _ & Hf1 & _ & Hr1), (Hsh _ _ H2) as (r2' & H2' & _ & Hf2 & _ & Hr2).
    eapply Hs; eauto. congruence.
Qed.

Lemma revoke_where_shrinks t now test rs : shrinks t rs (revoke_where now test rs).
Proof.
  split; intros j r'; rewrite lookup_revoke_where.
  - destruct (rs !! j) as [r|] eqn:E; simpl; [|done]. intros [= <-]. exists r. split; [done|]. by destruct (test r && _).
  - intros ->. left. eauto.
Qed.

Lemma shrinks_refl t rs : shrinks t rs rs.
Proof. split; intros j r H; [by exists r|left; eauto]. Qed.

Lemma delete_expired_shrinks t rs : shrinks t rs (filter (fun kv => negb (rt_expires_at (snd kv) <? t)) rs).
Proof.
  split; intros j r.
  - intros [H _]%map_lookup_filter_Some. by exists r.
  - intros H. destruct (Z.ltb_spec (rt_expires_at r) t) as [Hl|Hl]; [by right|left]. exists r. apply map_lookup_filter_Some. split; [done|]. cbn. by apply Is_true_true, negb_true_iff, Z.ltb_ge.
Qed.

Lemma sess_inv_same cs w w' : sess_inv cs w -> w_refresh w' = w_refresh w -> (w_uuids w <= w_uuids w')%nat -> sess_inv cs w'.
Proof.
  intros [Hk Hd Hc Hs] Hr Hu. assert (Hdr : forall s, drawn w s -> drawn w' s) by (intros s; by apply drawn_mono).
  split; rewrite ?Hr; try done.
  - intros j r Hj. destruct (Hd j r Hj). auto.
  - intros c Hin. destruct (Hc c Hin) as (? & ? & ? & fid & ? & ? & ?). split_and!; auto. exists fid. auto.
Qed.

(** The refresh table after a successful (or late-failing) rotation. *)
Definition rotated_table (row : RefreshToken) (u : User) (ua ip fam : option string) (w : World) :
    gmap string RefreshToken :=
  <[rt_jti row := rt_mark_rotated (w_now w) (issued_jti w) row]>
    (<[issued_jti w := issued_row u ua ip fam w]> (w_refresh w)).

(** Whatever the outcome, a rotation leaves the table alone, burns the
    family, or rotates a live row. *)
Lemma rotate_refresh_effect tok ua ip w res w' :
  rotate_refresh tok ua ip w = (res, w') ->
  (w_uuids w' = w_uuids w /\ shrinks (w_now w) (w_refresh w) (w_refresh w')) \/
  (exists c row u, jwt_decode (epoch (w_now w)) tok = JwtOk c /\
    w_refresh w !! c_jti c = Some row /\ rt_revoked_at row = None /\
    w_uuids w' = w_uuids (issued_world u ua ip (c_fid c) w) /\
    w_refresh w' = rotated_table row u ua ip (c_fid c) w).
Proof.
  assert (Hsame : forall w1, w1 = w -> (w_uuids w1 = w_uuids w /\ shrinks (w_now w) (w_refresh w) (w_refresh w1)))
    by (intros w1 ->; split; [done|apply shrinks_refl]).
  unfold rotate_refresh, decode, put_refresh_row, remaining_ttl, revoke_family, bind, gets, raise, ret, modify.
  destruct (jwt_decode _ tok) as [c| |] eqn:Ed; [|intros [= <- <-]; auto..].
  case_bool_decide; [|intros [= <- <-]; auto].
  destruct (w_refresh w !! c_jti c) as [row|] eqn:Er; [|intros [= <- <-]; auto].
  destruct (bool_decide (is_Some (rt_rotated_to_jti row)) || bool_decide (is_Some (rt_revoked_at row))) eqn:Eb.
  { unfold revoke, redis_setex. destruct (r_setex _ _ _ _ _); intros [= <- <-]; left; simpl;
      (split; [done|]); apply revoke_where_shrinks. }
  apply orb_false_iff in Eb as [_ Eb%bool_decide_eq_false].
  zcase; [intros [= <- <-]; auto|].
  destruct (user_of_sub (c_sub c) w) as [[e|u] w1] eqn:Eu.
  { intros [= <- <-]. left. apply Hsame. by apply user_of_sub_world in Eu. }
  apply user_of_sub_inr in Eu as (-> & _).
  unfold check_active. destruct (_ || _); [intros [= <- <-]; auto|]. simpl.
  rewrite issue_pair_run. intros Hrun. right. exists c, row, u.
  assert (Hn : rt_revoked_at row = None) by (destruct (rt_revoked_at row); [destruct Eb; eauto|done]).
  unfold revoke, redis_setex in Hrun. destruct (r_setex _ _ _ _ _) in Hrun; by simplify_eq.
Qed.

Lemma rotated_single rs j row r1 (now : Z) n :
  family_single rs -> rs !! j = Some row -> rt_revoked_at row = None -> rs !! n = None ->
  rt_family_id r1 = rt_family_id row ->
  family_single (<[j := rt_mark_rotated now n row]> (<[n := r1]> rs)).
Proof.
  intros Hs Hj Hlive Hn Hfam. assert (Hne : n <> j) by congruence.
  assert (Hcase : forall k r, <[j := rt_mark_rotated now n row]> (<[n := r1]> rs) !! k = Some r ->
    rt_revoked_at r = None -> k = n /\ r = r1 \/ k <> j /\ k <> n /\ rs !! k = Some r).
  { intros k r. destruct (decide (k = j)) as [->|].
    - rewrite lookup_insert_eq. by intros [= <-].
    - rewrite lookup_insert_ne by done. destruct (decide (k = n)) as [->|].
      + rewrite lookup_insert_eq. intros [= <-]. auto.
      + rewrite lookup_insert_ne by done. auto. }
  intros j1 j2 ra rb Ha Hb Hf Hna Hnb.
  destruct (Hcase _ _ Ha Hna) as [[-> ->]|(? & ? & Ha')], (Hcase _ _ Hb Hnb) as [[-> ->]|(? & ? & Hb')].
  - done.
  - exfalso. assert (j2 = j) by (eapply Hs; eauto; congruence). done.
  - exfalso. assert (j1 = j) by (eapply Hs; eauto; congruence). done.
  - eapply Hs; eauto.
Qed.

Lemma fresh_row_absent cs w k : sess_inv cs w -> (w_uuids w <= k)%nat -> w_refresh w !! uuid_hex k = None.
Proof.
  intros HI Hk. destruct (w_refresh w !! uuid_hex k) as [r|] eqn:E; [|done].
  destruct (si_drawn _ _ HI _ _ E) as [Hd _]. by apply not_drawn_fresh in Hd.
Qed.

(** Claims already handed out keep their promise when a fresh row is added and
    other rows only change their revocation. *)
Lemma claims_kept cs w w' :
  sess_inv cs w -> (w_uuids w <= w_uuids w')%nat ->
  (forall j r', drawn w j -> w_refresh w' !! j = Some r' ->
     exists r, w_refresh w !! j = Some r /\ rt_family_id r' = rt_family_id r) ->
  forall c, c ∈ cs -> c_typ c = Some "refresh" /\ c_iss c = JWT_ISSUER /\ drawn w' (c_jti c) /\
    exists fid, c_fid c = Some fid /\ drawn w' fid /\
      forall r, w_refresh w' !! c_jti c = Some r -> rt_family_id r = fid.
Proof.
  intros HI Hle Hrows c Hin. destruct (si_claims _ _ HI c Hin) as (? & ? & Hj & fid & Hf & Hfd & Hr).
  repeat split; eauto using drawn_mono. exists fid. repeat split; eauto using drawn_mono.
  intros r' Hr'. destruct (Hrows _ _ Hj Hr') as (r & Hr0 & ->). eauto.
Qed.

Lemma sess_inv_login cs w u aud ua ip :
  sess_inv cs w ->
  sess_inv (refresh_claims u aud (w_now w) (issued_jti w) (issued_fid None w) :: cs)
    (issued_world u ua ip None w).
Proof.
  intros HI. assert (Habs := fresh_row_absent _ _ (S (w_uuids w)) HI ltac:(lia)).
  fold (issued_jti w) in Habs.
  assert (Hj : drawn (issued_world u ua ip None w) (issued_jti w)) by (exists (S (w_uuids w)); unfold issued_world; simpl; split; [lia|done]).
  assert (Hf : drawn (issued_world u ua ip None w) (issued_fid None w))
    by (exists (S (S (w_uuids w))); unfold issued_world; simpl; split; [lia|done]).
  split; simpl.
  - intros j r. rewrite lookup_insert. case_decide as Hd; [by intros [= <-]|apply (si_key _ _ HI)].
  - intros j r. rewrite lookup_insert. case_decide as Hd; [intros [= <-]; by subst|].
    intros Hr. destruct (si_drawn _ _ HI _ _ Hr). split; (apply (drawn_mono w); [simpl; lia|done]).
  - intros c [->|Hin]%elem_of_cons; simpl.
    + repeat split; try done. exists (issued_fid None w). repeat split; try done.
      intros r. rewrite lookup_insert_eq. by intros [= <-].
    + apply (claims_kept cs w (issued_world u ua ip None w)); try done; simpl; [lia|].
      intros j r' Hd. rewrite lookup_insert. case_decide as He; [|eauto].
      exfalso. subst j. unfold issued_jti in Hd. by apply not_drawn_fresh in Hd; [|lia].
  - intros j1 j2 r1 r2. rewrite !lookup_insert.
    assert (Hnew : forall j r, w_refresh w !! j = Some r -> rt_family_id r <> issued_fid None w).
    { intros j r Hr Heq. destruct (si_drawn _ _ HI _ _ Hr) as [_ Hd]. rewrite Heq in Hd.
      unfold issued_fid in Hd; simpl in Hd. by apply not_drawn_fresh in Hd; [|lia]. }
    repeat case_decide; intros H1 H2 Hfam Hn1 Hn2; simplify_eq; try done.
    + exfalso. by eapply Hnew.
    + exfalso. by eapply Hnew.
    + eapply (si_single _ _ HI); eauto.
Qed.

Lemma sess_inv_rotate cs w c row u ua ip w' :
  sess_inv cs w -> c ∈ cs -> w_refresh w !! c_jti c = Some row -> rt_revoked_at row = None ->
  w_uuids w' = w_uuids (issued_world u ua ip (c_fid c) w) ->
  w_refresh w' = rotated_table row u ua ip (c_fid c) w ->
  sess_inv cs w' /\
  sess_inv (refresh_claims u (default "web" (c_aud c)) (w_now w) (issued_jti w) (issued_fid (c_fid c) w) :: cs) w'.
Proof.
  intros HI Hin Hrow Hlive Hu Ht.
  destruct (si_claims _ _ HI c Hin) as (_ & _ & _ & fid & Hfid & Hfd & Hrf).
  specialize (Hrf _ Hrow). rewrite Hfid in *.
  assert (Efid : issued_fid (Some fid) w = fid) by (unfold issued_fid; by rewrite (drawn_truthy w fid)).
  assert (Hle : (S (S (w_uuids w)) <= w_uuids w')%nat) by (rewrite Hu; unfold issued_world; simpl; case_match; lia).
  assert (Hkey := si_key _ _ HI _ _ Hrow).
  assert (Habs := fresh_row_absent _ _ (S (w_uuids w)) HI ltac:(lia)). fold (issued_jti w) in Habs.
  assert (Hj : drawn w' (issued_jti w)) by (exists (S (w_uuids w)); split; [lia|done]).
  assert (Hmono : forall s, drawn w s -> drawn w' s) by (intros s; apply drawn_mono; lia).
  assert (Hlook : forall j r, w_refresh w' !! j = Some r ->
    (j = c_jti c /\ r = rt_mark_rotated (w_now w) (issued_jti w) row) \/
    (j = issued_jti w /\ r = issued_row u ua ip (Some fid) w) \/ w_refresh w !! j = Some r).
  { intros j r. rewrite Ht. unfold rotated_table. rewrite Hkey, !lookup_insert.
    repeat case_decide; naive_solver. }
  assert (Hcs : sess_inv cs w').
  { split.
    - intros j r [[-> ->]|[[-> ->]|Hr]]%Hlook; [done|done|by apply (si_key _ _ HI)].
    - intros j r [[-> ->]|[[-> ->]|Hr]]%Hlook; simpl.
      + destruct (si_drawn _ _ HI _ _ Hrow). auto.
      + rewrite Efid. auto.
      + destruct (si_drawn _ _ HI _ _ Hr). auto.
    - apply claims_kept with (w := w); [done|lia|].
      intros j r' Hd [[-> ->]|[[-> ->]|Hr]]%Hlook; [eauto| |eauto].
      unfold issued_jti in Hd. by apply not_drawn_fresh in Hd; [|lia].
    - rewrite Ht. unfold rotated_table. rewrite Hkey. apply rotated_single; try done.
      + apply (si_single _ _ HI).
      + simpl. by rewrite Efid. }
  split; [done|]. destruct Hcs as [Hk Hd Hc Hs]. split; try done.
  intros c' [->|Hin']%elem_of_cons; [|by apply Hc]. simpl. repeat split; try done.
  exists fid. rewrite Efid. repeat split; eauto.
  intros r [[Hj1 ->]|[[_ ->]|Hr]]%Hlook; [| |congruence]; [done|simpl; by rewrite Efid].
Qed.

Lemma revoke_family_shrinks fam w r w' :
  revoke_family fam w = (r, w') -> w_uuids w' = w_uuids w /\ shrinks (w_now w) (w_refresh w) (w_refresh w').
Proof. unfold revoke_family, modify. intros [= <- <-]. split; [done|apply revoke_where_shrinks]. Qed.

Lemma revoke_pair_shrinks ac rj w r w' :
  revoke_pair ac rj w = (r, w') -> w_uuids w' = w_uuids w /\ shrinks (w_now w) (w_refresh w) (w_refresh w').
Proof.
  unfold revoke_pair. intros H.
  assert (Hsecond : forall w1 r1 w2,
    (if truthy_str rj then
      let! row := gets (fun w => w_refresh w !! default "" rj) in
      match row with Some row => revoke_family (rt_family_id row) | None => ret tt end
     else ret tt) w1 = (r1, w2) ->
    w_uuids w2 = w_uuids w1 /\ shrinks (w_now w1) (w_refresh w1) (w_refresh w2)).
  { intros w1 r1 w2. destruct (truthy_str rj); [|intros [= <- <-]; split; [done|apply shrinks_refl]].
    unfold bind, gets. destruct (_ !! _); [apply revoke_family_shrinks|].
    intros [= <- <-]; split; [done|apply shrinks_refl]. }
  destruct ac as [c|]; [|by apply Hsecond in H].
  case_bool_decide; [by apply Hsecond in H|]. revert H.
  unfold bind at 1, bind at 1, remaining_ttl, gets at 1, revoke, redis_setex.
  destruct (r_setex _ _ _ _ _) as [rd|]; [|intros [= <- <-]; split; [done|apply shrinks_refl]].
  intros H. by apply Hsecond in H.
Qed.

Lemma session_step_inv p p' : session_step p p' -> sess_inv (fst p) (snd p) -> sess_inv (fst p') (snd p').
Proof.
  destruct 1 as [cs w w' Hr Ht Hu|cs w u aud ua ip pair w' Hp|cs w c ua ip pair u w' Hin Hr|cs w c ua ip e w' Hin Hr
    |cs w ac rj r w' Hr|cs w u r w' Hr|cs w r w' Hr]; cbn [fst snd]; intros IH.
  - by eapply sess_inv_same.
  - rewrite issue_pair_run in Hp. simplify_eq. by apply sess_inv_login.
  - apply rotate_refresh_inr in Hr as (c' & row & Hrot & ->).
    destruct Hrot as [Hd _ Hrow [_ Hlive] _ _ _ (r & -> & _)].
    apply jwt_faithful in Hd as ->.
    by eapply (sess_inv_rotate cs w c row u ua ip).
  - apply rotate_refresh_effect in Hr as [[Hu Hs]|(c' & row & u & Hd & Hrow & Hlive & Hu & Ht)].
    + by eapply sess_inv_shrinks.
    + apply jwt_faithful in Hd as ->. by eapply (sess_inv_rotate cs w c row u ua ip).
  - apply revoke_pair_shrinks in Hr as [Hu Hs]. by eapply sess_inv_shrinks.
  - unfold revoke_all, bump_token_version, put_user, revoke_all_for_user, bind, modify in Hr. simplify_eq.
    eapply sess_inv_shrinks; [done|done|]. apply revoke_where_shrinks.
  - unfold delete_expired, modify in Hr. simplify_eq. eapply sess_inv_shrinks; [done|done|]. apply delete_expired_shrinks.
Qed.

Lemma session_steps_inv p p' : rtc session_step p p' -> sess_inv (fst p) (snd p) -> sess_inv (fst p') (snd p').
Proof. induction 1; [done|]. intros H'. by eauto using session_step_inv. Qed.
Lemma sessions_inv cs w : sessions cs w -> sess_inv cs w.
Proof.
  intros (w0 & Hemp & Hs). apply session_steps_inv in Hs; [done|]. split; cbn [fst snd].
  - intros j r. by rewrite Hemp, lookup_empty.
  - intros j r. by rewrite Hemp, lookup_empty.
  - by intros c Hin%elem_of_nil.
  - intros j1 j2 r1 r2. by rewrite Hemp, lookup_empty.
Qed.

(** ** What one step does to a family *)

(** None of the operations moves the clock. *)
Lemma rotate_refresh_now tok ua ip w r w' : rotate_refresh tok ua ip w = (r, w') -> w_now w' = w_now w.
Proof.
  unfold rotate_refresh, decode, put_refresh_row, remaining_ttl, revoke_family, bind, gets, raise, ret, modify.
  destruct (jwt_decode _ tok) as [c| |]; [|by intros [= _ <-]..]. case_bool_decide; [|by intros [= _ <-]].
  destruct (w_refresh w !! c_jti c) as [row|]; [|by intros [= _ <-]]. destruct (_ || _).
  { unfold revoke, redis_setex. destruct (r_setex _ _ _ _ _); by intros [= _ <-]. }
  zcase; [by intros [= _ <-]|]. destruct (user_of_sub (c_sub c) w) as [[e|u] w1] eqn:Eu; apply user_of_sub_world in Eu as ->; [by intros [= _ <-]|].
  unfold check_active. destruct (_ || _); [by intros [= _ <-]|]. simpl. rewrite issue_pair_run.
  unfold revoke, redis_setex. destruct (r_setex _ _ _ _ _); by intros [= _ <-].
Qed.
Lemma revoke_pair_now ac rj w r w' : revoke_pair ac rj w = (r, w') -> w_now w' = w_now w.
Proof.
  unfold revoke_pair, bind, remaining_ttl, gets, revoke, redis_setex, revoke_family, ret, modify. intros H.
  destruct ac as [c|]; [case_bool_decide; [|destruct (r_setex _ _ _ _ _); [|by injection H as _ <-]]|];
    cbn in H; (destruct (truthy_str rj); [destruct (_ !! _)|]); by injection H as _ <-.
Qed.

(** What a step leaves of the rows there were, and where the new ones come from. *)
Record evolved (cs : list Claims) (w : World) (cs' : list Claims) (w' : World) : Prop := {
  ev_time : w_now w <= w_now w';
  ev_uuids : (w_uuids w <= w_uuids w')%nat;
  ev_old : forall j r', drawn w j -> w_refresh w' !! j = Some r' -> exists r, w_refresh w !! j = Some r /\
    rt_expires_at r' = rt_expires_at r /\ (is_Some (rt_revoked_at r) -> is_Some (rt_revoked_at r'));
  ev_kept : forall j r, w_refresh w !! j = Some r -> is_Some (w_refresh w' !! j) \/ rt_expires_at r < w_now w;
  ev_family : forall fid, drawn w fid -> (forall j r, w_refresh w !! j = Some r -> rt_family_id r = fid -> is_Some (rt_revoked_at r)) ->
    forall j r', w_refresh w' !! j = Some r' -> rt_family_id r' = fid -> is_Some (rt_revoked_at r');
  ev_claims : forall c, c ∈ cs -> c ∈ cs';
  ev_issued : forall c, c ∈ cs' -> c ∈ cs \/ ~ drawn w (c_jti c) /\ c_iat c <= epoch (w_now w') /\
    forall r, w_refresh w' !! c_jti c = Some r -> c_exp c * SEC <= rt_expires_at r
}.

Lemma shrinks_evolved cs w w' :
  w_now w <= w_now w' -> (w_uuids w <= w_uuids w')%nat -> shrinks (w_now w) (w_refresh w) (w_refresh w') -> evolved cs w cs w'.
Proof.
  intros Ht Hu [H1 H2]. split; [done|done| |done| |done|auto].
  - intros j r' _ Hr'. destruct (H1 j r' Hr') as (r & Hr & _ & _ & He & Hv). exists r. split_and!; [done..|].
    intros [x Hx]. destruct (rt_revoked_at r') eqn:E; [eauto|]. rewrite (Hv eq_refl) in Hx. done.
  - intros fid _ Hb j r' Hr' Hf. destruct (H1 j r' Hr') as (r & Hr & _ & Hfam & _ & Hv).
    destruct (Hb j r Hr ltac:(congruence)) as [x Hx]. destruct (rt_revoked_at r') eqn:E; [eauto|]. rewrite (Hv eq_refl) in Hx. done.
Qed.

Lemma exp_before_row t : epoch (t + JWT_REFRESH_TTL * SEC) * SEC <= t + JWT_REFRESH_TTL * SEC.
Proof. unfold epoch. pose proof (Z.mul_div_le (t + JWT_REFRESH_TTL * SEC) SEC ltac:(done)). lia. Qed.

Lemma login_evolved cs w u aud ua ip :
  sess_inv cs w -> evolved cs w (refresh_claims u aud (w_now w) (issued_jti w) (issued_fid None w) :: cs) (issued_world u ua ip None w).
Proof.
  intros HI. assert (Hnd : ~ drawn w (issued_jti w)) by (apply not_drawn_fresh; lia).
  assert (Hnf : ~ drawn w (issued_fid None w)) by (apply not_drawn_fresh; lia).
  split; [cbn; lia|cbn; lia|..].
  - intros j r' Hj. cbn. rewrite lookup_insert_ne by (intros <-; done). eauto.
  - intros j r Hr. left. cbn. rewrite lookup_insert. case_decide; eauto.
  - intros fid Hfd Hb j r'. cbn. rewrite lookup_insert. case_decide; [|apply Hb]. intros [= <-]. cbn. intros <-. done.
  - intros c Hc. apply elem_of_cons. by right.
  - intros c [->|Hc]%elem_of_cons; [right|by left]. cbn. split_and!; [done|done|]. rewrite lookup_insert_eq. intros r [= <-]. apply exp_before_row.
Qed.

Lemma rotate_evolved cs cs' w c row u ua ip w' :
  sess_inv cs w -> c ∈ cs -> w_refresh w !! c_jti c = Some row -> rt_revoked_at row = None -> w_now w' = w_now w ->
  w_uuids w' = w_uuids (issued_world u ua ip (c_fid c) w) -> w_refresh w' = rotated_table row u ua ip (c_fid c) w ->
  cs' = cs \/ cs' = refresh_claims u (default "web" (c_aud c)) (w_now w) (issued_jti w) (issued_fid (c_fid c) w) :: cs -> evolved cs w cs' w'.
Proof.
  intros HI Hin Hrow Hlive Hnow Hu Ht Hcs. destruct (si_claims _ _ HI c Hin) as (_ & _ & Hcd & fid & Hfid & Hfd & Hrf). specialize (Hrf _ Hrow).
  rewrite Hfid in *. assert (Efid : issued_fid (Some fid) w = fid) by (unfold issued_fid; by rewrite (drawn_truthy w fid)).
  assert (Hnd : ~ drawn w (issued_jti w)) by (apply not_drawn_fresh; lia). assert (Hne : issued_jti w <> c_jti c) by congruence.
  unfold rotated_table in Ht. rewrite (si_key _ _ HI _ _ Hrow) in Ht.
  split; [lia|rewrite Hu; unfold issued_world; cbn; case_match; lia|..].
  - intros j r' Hj. rewrite Ht, lookup_insert. case_decide as E; [intros [= <-]; subst j; exists row; eauto|].
    rewrite lookup_insert_ne by congruence. eauto.
  - intros j r Hr. left. rewrite Ht, !lookup_insert. repeat case_decide; eauto.
  - intros f Hf Hb j r'. rewrite Ht, !lookup_insert. assert (f <> fid) by (intros ->; destruct (Hb _ _ Hrow Hrf) as [? ?]; congruence).
    repeat case_decide; [intros [= <-]; cbn; congruence|intros [= <-]; cbn; congruence|apply Hb].
  - intros c' Hc'. destruct Hcs as [->| ->]; [done|]. apply elem_of_cons. by right.
  - intros c' Hc'. destruct Hcs as [->| ->]; [by left|]. apply elem_of_cons in Hc' as [->|Hc']; [right|by left].
    cbn. split_and!; [done|rewrite Hnow; done|]. intros r. rewrite Ht, lookup_insert_ne, lookup_insert_eq by done. intros [= <-]. apply exp_before_row.
Qed.

Lemma session_step_evolved cs w cs' w' : session_step (cs, w) (cs', w') -> sess_inv cs w -> evolved cs w cs' w'.
Proof.
  intros Hstep. inversion Hstep as [? ? ? Hr Ht Hu|? ? ? ? ? ? ? ? Hp|? ? c ua ip pair u ? Hin Hr|? ? c ua ip ? ? Hin Hr|? ? ? ? ? ? Hr|? ? ? ? ? Hr|? ? ? ? Hr]; subst; intros HI.
  - apply shrinks_evolved; [done|done|]. rewrite Hr. apply shrinks_refl.
  - rewrite issue_pair_run in Hp. simplify_eq. by apply login_evolved.
  - pose proof (rotate_refresh_now _ _ _ _ _ _ Hr) as Hnow. apply rotate_refresh_inr in Hr as (c' & row & Hrot & ->).
    destruct Hrot as [Hd _ Hrow [_ Hlive] _ _ _ (r & -> & _)]. apply jwt_faithful in Hd as ->. eapply rotate_evolved; eauto.
  - pose proof (rotate_refresh_now _ _ _ _ _ _ Hr) as Hnow. apply rotate_refresh_effect in Hr as [[Hu Hs]|(c' & row & u & Hd & Hrow & Hlive & Hu & Ht)].
    + apply shrinks_evolved; [lia|lia|done].
    + apply jwt_faithful in Hd as ->. eapply rotate_evolved; eauto.
  - pose proof (revoke_pair_now _ _ _ _ _ Hr). apply revoke_pair_shrinks in Hr as [Hu Hs]. apply shrinks_evolved; [lia|lia|done].
  - unfold revoke_all, bump_token_version, put_user, revoke_all_for_user, bind, modify in Hr. simplify_eq. apply shrinks_evolved; [done|done|]. apply revoke_where_shrinks.
  - unfold delete_expired, modify in Hr. simplify_eq. apply shrinks_evolved; [done|done|]. apply delete_expired_shrinks.
Qed.

(** A family all of whose rows are revoked never gets a live one again. *)
Definition burned (fid : string) (w : World) : Prop :=
  drawn w fid /\ forall j r, w_refresh w !! j = Some r -> rt_family_id r = fid -> is_Some (rt_revoked_at r).
Lemma burned_later fid p p' : rtc session_step p p' -> sess_inv (fst p) (snd p) -> burned fid (snd p) -> burned fid (snd p').
Proof.
  induction 1 as [|[cs w] [cs1 w1] p' H _ IH]; [done|]. intros HI [Hd Hb]. apply IH; [by eapply (session_step_inv _ _ H)|].
  apply session_step_evolved in H as [_ Hu _ _ Hf _ _]; [|done]. split; [by eapply drawn_mono|]. by apply Hf.
Qed.

(** The row of a token outlives it, and once revoked stays so. *)
Definition revoked_until_exp (c : Claims) (w : World) : Prop :=
  drawn w (c_jti c) /\ c_iat c <= epoch (w_now w) /\
  (epoch (w_now w) < c_exp c -> exists r, w_refresh w !! c_jti c = Some r /\ is_Some (rt_revoked_at r) /\ c_exp c * SEC <= rt_expires_at r).
Lemma epoch_mono a b : a <= b -> epoch a <= epoch b.
Proof. intros H. apply Z.div_le_mono; [done|lia]. Qed.
Lemma revoked_until_exp_later c p p' : rtc session_step p p' -> sess_inv (fst p) (snd p) -> revoked_until_exp c (snd p) -> revoked_until_exp c (snd p').
Proof.
  induction 1 as [|[cs w] [cs1 w1] p' H _ IH]; [done|]. intros HI (Hd & Hi & Hr). apply IH; [by eapply (session_step_inv _ _ H)|].
  apply session_step_evolved in H as [Ht Hu Ho Hk _ _ _]; [|done]. cbn [snd fst] in *. pose proof (epoch_mono _ _ Ht). split_and!; [by eapply drawn_mono|lia|].
  intros Hexp. destruct Hr as (r & Hr & Hv & He); [lia|].
  assert (Hnow : w_now w < c_exp c * SEC).
  { unfold epoch in *. pose proof (Z.mod_pos_bound (w_now w) SEC ltac:(done)). pose proof (Z.div_mod (w_now w) SEC ltac:(done)). nia. }
  destruct (Hk _ _ Hr) as [[r' Hr']|?]; [|lia]. destruct (Ho _ _ Hd Hr') as (r0 & Hr0 & He' & Hv'). assert (r0 = r) as -> by congruence.
  exists r'. split_and!; [done|by apply Hv'|lia].
Qed.

Lemma claims_grow c p p' : rtc session_step p p' -> sess_inv (fst p) (snd p) -> c ∈ fst p -> c ∈ fst p'.
Proof.
  induction 1 as [|[cs w] [cs1 w1] p' H _ IH]; [done|]. intros HI Hc. apply IH; [by eapply (session_step_inv _ _ H)|].
  by apply session_step_evolved in H as [_ _ _ _ _ Hg _]; [apply Hg|].
Qed.

(** Every token handed out was issued in the past and expires before its row. *)
Lemma sessions_times cs w : sessions cs w -> forall c, c ∈ cs -> c_iat c <= epoch (w_now w) /\ forall r, w_refresh w !! c_jti c = Some r -> c_exp c * SEC <= rt_expires_at r.
Proof.
  intros (w0 & H0 & Hs).
  enough (forall p p', rtc session_step p p' -> sess_inv (fst p) (snd p) ->
    (forall c, c ∈ fst p -> c_iat c <= epoch (w_now (snd p)) /\ forall r, w_refresh (snd p) !! c_jti c = Some r -> c_exp c * SEC <= rt_expires_at r) ->
    forall c, c ∈ fst p' -> c_iat c <= epoch (w_now (snd p')) /\ forall r, w_refresh (snd p') !! c_jti c = Some r -> c_exp c * SEC <= rt_expires_at r) as Hgen.
  { apply (Hgen _ _ Hs); [apply sessions_inv, sessions_init, H0|]. by intros c ?%elem_of_nil. }
  clear. induction 1 as [|[cs w] [cs1 w1] p' H _ IH]; [done|]. intros HI Hp. apply IH; [by eapply (session_step_inv _ _ H)|].
  apply session_step_evolved in H as [Ht Hu Ho _ _ _ Hc]; [|done]. cbn [fst snd] in *. pose proof (epoch_mono _ _ Ht).
  intros c [Hin|(_ & ? & ?)]%Hc; [|done]. destruct (Hp c Hin) as [? Hr]. split; [lia|]. intros r' Hr'.
  destruct (si_claims _ _ HI c Hin) as (_ & _ & Hd & _). destruct (Ho _ _ Hd Hr') as (r & Hr0 & -> & _). by apply Hr.
Qed.

(** A refresh token whose row is revoked (or gone) never rotates. *)
Lemma revoked_never_rotates c ua ip w x w' :
  (forall row, w_refresh w !! c_jti c = Some row -> is_Some (rt_revoked_at row)) ->
  rotate_refresh (jwt_encode c) ua ip w <> (inr x, w').
Proof.
  intros Hrev H. destruct x as [pair u]. apply rotate_refresh_inr in H as (c' & row & Hrot & _).
  destruct Hrot as [Hd _ Hrow [_ Hlive] _ _ _ _]. apply jwt_faithful in Hd as ->.
  apply Hrev in Hrow as [? ?]. congruence.
Qed.

(** Replaying a rotated token burns its family. *)
Lemma replay_outcome c ua ip w row :
  jwt_decode (epoch (w_now w)) (jwt_encode c) = JwtOk c -> c_typ c = Some "refresh" ->
  w_refresh w !! c_jti c = Some row -> is_Some (rt_revoked_at row) -> r_up (w_redis w) = true ->
  exists r, rotate_refresh (jwt_encode c) ua ip w =
    (inl (TokenReuseException "refresh_reuse_detected"),
     set_redis r (set_refresh (revoke_where (w_now w)
       (fun x => bool_decide (rt_family_id x = rt_family_id row)) (w_refresh w)) w)).
Proof.
  intros Hd Ht Hrow Hrev Hup. unfold rotate_refresh.
  rewrite (bind_run _ _ _ _ _ (decode_ok _ _ _ _ Hd Ht)). unfold bind at 1, gets at 1. rewrite Hrow.
  rewrite (bool_decide_eq_true_2 _ Hrev), orb_true_r.
  unfold bind, revoke_family, modify, remaining_ttl, gets.
  edestruct (revoke_ok (c_jti c) (Z.max 1 (c_exp c - epoch (w_now w)))) as (r & Hr & _);
    [|eexists; rewrite Hr; reflexivity]. done.
Qed.
End Sessions.

(** ** A concrete library, for the witnesses

    Claims written in binary; it satisfies every law of [JwtLib]. *)

Section ToyJwt.
(** Every claim as a list of texts; an absent claim is the empty list. *)
Definition of_opt (o : option string) : list string := match o with Some s => [s] | None => [] end.
Definition of_optZ (o : option Z) : list string := match o with Some z => [pretty z] | None => [] end.
Definition to_Z (s : string) : Z := default 0 (py_int s).

Definition claims_fields (c : Claims) : list (list string) :=
  [[c_sub c]; of_opt (c_aud c); of_opt (c_typ c); [c_iss c]; [pretty (c_iat c)]; [pretty (c_exp c)];
   [c_jti c]; of_opt (c_uuid c); of_opt (c_role c); of_optZ (c_tv c); of_opt (c_fid c);
   of_optZ (c_mv c); match c_scope c with Some (u, ds) => u :: ds | None => [] end].

Definition fields_claims (l : list (list string)) : option Claims :=
  match l with
  | [[sub]; aud; typ; [iss]; [iat]; [exp]; [jti]; uuid; role; tv; fid; mv; scope] =>
      Some {| c_sub := sub; c_aud := head aud; c_typ := head typ; c_iss := iss;
              c_iat := to_Z iat; c_exp := to_Z exp; c_jti := jti; c_uuid := head uuid;
              c_role := head role; c_tv := to_Z <$> head tv; c_fid := head fid;
              c_mv := to_Z <$> head mv;
              c_scope := match scope with [] => None | u :: ds => Some (u, ds) end |}
  | _ => None
  end.

Lemma fields_claims_fields c : fields_claims (claims_fields c) = Some c.
Proof.
  assert (Hz : forall z, to_Z (pretty z) = z) by (intros; unfold to_Z; by rewrite py_int_pretty).
  destruct c as [? aud typ ? ? ? ? uuid role tv fid mv scope]. simpl. rewrite !Hz.
  destruct aud, typ, uuid, role, tv, fid, mv, scope as [[??]|]; simpl; rewrite ?Hz; done.
Qed.

Fixpoint bits (p : positive) : string :=
  match p with
  | xH => EmptyString
  | xO q => String "0" (bits q)
  | xI q => String "1" (bits q)
  end.

Fixpoint unbits (s : string) : positive :=
  match s with
  | EmptyString => xH
  | String c r => if bool_decide (c = "0"%char) then xO (unbits r) else xI (unbits r)
  end.

Lemma unbits_bits p : unbits (bits p) = p.
Proof. induction p; simpl; [by rewrite IHp|by rewrite IHp|done]. Qed.

Definition toy_encode (c : Claims) : string := bits (countable.encode (claims_fields c)).
Definition toy_claims (s : string) : option Claims := countable.decode (unbits s) ≫= fields_claims.
Definition toy_decode (now : Z) (s : string) : jwt_result :=
  match toy_claims s with
  | None => JwtInvalid
  | Some c => if bool_decide (c_iss c <> JWT_ISSUER) then JwtInvalid
              else if now <? c_iat c then JwtInvalid
              else if c_exp c <=? now then JwtExpired else JwtOk c
  end.

Lemma toy_claims_encode c : toy_claims (toy_encode c) = Some c.
Proof.
  unfold toy_claims, toy_encode. rewrite unbits_bits, decode_encode. apply fields_claims_fields.
Qed.

#[refine] Definition toy_jwt : JwtLib := {|
  jwt_encode := toy_encode;
  jwt_decode := toy_decode;
  jwt_decode_noexp := toy_claims;
  uuid_hex := fun n => pretty (Z.of_nat n)
|}.
Proof.
  - intros now c Hi Ht. unfold toy_decode. rewrite toy_claims_encode.
    rewrite bool_decide_eq_false_2 by auto. zcase; [lia|]. zcase; [lia|done].
  - intros now c Hi Ht He. unfold toy_decode. rewrite toy_claims_encode.
    rewrite bool_decide_eq_false_2 by auto. zcase; [lia|]. zcase; [done|lia].
  - intros now c c'. unfold toy_decode. rewrite toy_claims_encode.
    case_bool_decide; [done|]. zcase; [done|]. zcase; [done|]. by intros [= ->].
  - intros i j H. apply (f_equal py_int) in H. rewrite !py_int_pretty in H. naive_solver lia.
  - intros i. apply pretty_Z_not_empty.
Defined.
End ToyJwt.
