(* ===== verification/Sessions.v ===== *)
(** * What the token service guarantees

    End-to-end properties of src/server/service/token.py over the model of
    Token.v: families, replay, logout, global revocation, separation of the
    token kinds, one-time join tokens. *)

From S2P Require Import Prelude PyStr Redis Permission Token.
From stdpp Require Import pretty.
Local Open Scope Z_scope.

(** A concrete world for the witnesses. *)
Definition demo_role : Role :=
  {| ro_id := 1; ro_name := "admin"; ro_permissions := {[ "*" := PActions ["*"] ]};
     ro_is_system := true; ro_deleted_at := None |}.
Definition demo_user : User :=
  {| u_id := 7; u_uuid := "u7"; u_login_id := "ann"; u_password := "$argon2id$"; u_role_id := 1; u_permissions := ∅;
     u_is_active := true; u_failed_login_count := Some 0; u_locked_until := None;
     u_last_login_at := None; u_token_version := Some 3; u_deleted_at := None |}.
Definition demo_world : World :=
  {| w_now := 1000 * SEC; w_uuids := 0; w_redis := {| r_up := true; r_store := ∅ |};
     w_users := {[ 7 := demo_user ]}; w_refresh := ∅; w_monitors := ∅;
     w_roles := {[ 1 := demo_role ]}; w_audit := [] |}.

(** ** Shared lemmas *)

Section SessionLemmas.
Context {J : JwtLib}.

Lemma verify_access_inr tok w u c w' :
  verify_access tok w = (inr (u, c), w') ->
  w' = w /\ jwt_decode (epoch (w_now w)) tok = JwtOk c /\ c_typ c = Some "access" /\
  r_exists (w_now w) (DENYLIST_PREFIX +:+ c_jti c) (w_redis w) = Some false /\
  (exists id, py_int (c_sub c) = Some id /\ w_users w !! id = Some u) /\
  c_tv c = Some (or_Z (u_token_version u) 0).
Proof.
  unfold verify_access, is_denylisted. intros H. minv1 H.
  apply decode_inr in Hm as (-> & Hd & Ht). minv1 H. apply redis_exists_inr in Hm as (-> & He).
  destruct a0; [done|]. minv1 H. apply user_of_sub_inr in Hm as (-> & id & ? & ? & _).
  minv1 H. apply check_active_inr in Hm as (-> & _).
  case_bool_decide; [|done]. minv1 H. naive_solver.
Qed.

Lemma epoch_add_sec t s : epoch (t + s * SEC) = epoch t + s.
Proof. unfold epoch. by rewrite Z.div_add. Qed.

(** A denylist entry written with the token's remaining lifetime is still there
    at every instant the token has not expired. *)
Lemma denylist_covers_lifetime t now exp :
  epoch t < exp -> t < now + Z.max 1 (exp - epoch now) * SEC.
Proof.
  unfold epoch, SEC. intros Hlt. Z.to_euclidean_division_equations. lia.
Qed.

Lemma revoke_pair_denylists c rj w w' :
  c_jti c <> EmptyString -> revoke_pair (Some c) rj w = (inr tt, w') ->
  forall t, epoch t < c_exp c ->
    r_exists t (DENYLIST_PREFIX +:+ c_jti c) (w_redis w') = Some true.
Proof.
  intros Hj H t Ht. unfold revoke_pair, remaining_ttl in H. rewrite bool_decide_eq_false_2 in H by done.
  minv1 H.
  apply revoke_inr in Hm as (r & Hr & ->). destruct (Z.leb_spec (Z.max 1 (c_exp c - epoch (w_now w))) 0); [lia|].
  assert (Hw : w_redis w' = r).
  { destruct (truthy_str rj); [|by minv1 H]. minv1 H. destruct (_ !! _); [|by minv1 H].
    unfold revoke_family in H. by minv1 H. }
  rewrite Hw. eapply r_setex_exists; [exact Hr|]. by apply denylist_covers_lifetime.
Qed.
End SessionLemmas.

(** ** Properties *)

Section SessionProperties.
Context {J : JwtLib}.

(** In every history of logins, rotations, logouts, revocations and
    clean-ups, at most one refresh token of a family is usable: if two tokens
    handed out for the same family would both rotate, they are the same token. *)
Theorem one_usable_refresh_per_family cs w c1 c2 ua1 ip1 ua2 ip2 x1 x2 w1 w2 :
  sessions cs w -> c1 ∈ cs -> c2 ∈ cs -> c_fid c1 = c_fid c2 ->
  rotate_refresh (jwt_encode c1) ua1 ip1 w = (inr x1, w1) ->
  rotate_refresh (jwt_encode c2) ua2 ip2 w = (inr x2, w2) ->
  c_jti c1 = c_jti c2.
Proof.
  intros HI%sessions_inv Hin1 Hin2 Hf H1 H2. destruct x1, x2.
  apply rotate_refresh_inr in H1 as (c1' & r1 & [Hd1 _ Hr1 [_ Hl1] _ _ _ _] & _).
  apply rotate_refresh_inr in H2 as (c2' & r2 & [Hd2 _ Hr2 [_ Hl2] _ _ _ _] & _).
  apply jwt_faithful in Hd1 as ->, Hd2 as ->.
  destruct (si_claims _ _ HI _ Hin1) as (_ & _ & _ & f1 & Hf1 & _ & Hfam1).
  destruct (si_claims _ _ HI _ Hin2) as (_ & _ & _ & f2 & Hf2 & _ & Hfam2).
  eapply (si_single _ _ HI); eauto.
  rewrite (Hfam1 _ Hr1), (Hfam2 _ Hr2). congruence.
Qed.

(** C2: A refresh token that was rotated and is presented again before it expires, however long
    after and whatever happened in between (its successor rotated on and on included), is detected:
    the call raises TokenReuseException, and no token of that family, handed out before or later,
    ever rotates again. *)
Theorem replay_burns_family cs w c ua ip pair u w1 cs2 w2 ua' ip' :
  sessions cs w -> c ∈ cs -> rotate_refresh (jwt_encode c) ua ip w = (inr (pair, u), w1) ->
  rtc session_step (refresh_claims u (default "web" (c_aud c)) (w_now w) (p_refresh_jti pair) (p_family_id pair) :: cs, w1) (cs2, w2) ->
  epoch (w_now w2) < c_exp c -> r_up (w_redis w2) = true ->
  exists w3, rotate_refresh (jwt_encode c) ua' ip' w2 = (inl (TokenReuseException "refresh_reuse_detected"), w3) /\
    forall cs4 w4 c' ua'' ip'' x w5, rtc session_step (cs2, w3) (cs4, w4) -> c' ∈ cs4 -> c_fid c' = c_fid c ->
      rotate_refresh (jwt_encode c') ua'' ip'' w4 <> (inr x, w5).
Proof.
  intros Hs Hin Hrot Hsteps Ht Hup. assert (Hstep := sess_rotate _ _ _ _ _ _ _ _ Hin Hrot).
  assert (HI := sessions_inv _ _ Hs). assert (HI1 := session_step_inv _ _ Hstep HI). cbn [fst snd] in HI1.
  destruct (si_claims _ _ HI c Hin) as (Htyp & Hiss & Hjd & fid & Hfid & Hdr & _).
  assert (Hr1 : revoked_until_exp c w1).
  { destruct (sessions_times _ _ Hs c Hin) as [Hiat Hlast]. pose proof (session_step_evolved _ _ _ _ Hstep HI) as [Htime Hu _ _ _ _ _].
    split_and!; [by eapply drawn_mono|pose proof (epoch_mono _ _ Htime); lia|]. intros _.
    apply rotate_refresh_inr in Hrot as (c0 & row & [Hd _ Hrow _ _ _ _ (r & -> & _)] & _). apply jwt_faithful in Hd as ->.
    exists (rt_mark_rotated (w_now w) (issued_jti w) row). split_and!; [|cbn; eauto|exact (Hlast row Hrow)]. cbn.
    rewrite (si_key _ _ HI _ _ Hrow). by rewrite lookup_insert_eq. }
  pose proof (session_steps_inv _ _ Hsteps HI1) as HI2. pose proof (claims_grow c _ _ Hsteps HI1 ltac:(set_solver)) as Hc2.
  apply (revoked_until_exp_later c _ _ Hsteps HI1) in Hr1 as (Hjd2 & Hiat2 & Hr2). destruct (Hr2 Ht) as (row & Hrow & Hrev & _).
  destruct (replay_outcome c ua' ip' w2 row) as [r Hrun]; [by apply jwt_round_trip|done..|]. eexists. split; [exact Hrun|].
  assert (Hb : burned fid (set_redis r (set_refresh (revoke_where (w_now w2) (fun x => bool_decide (rt_family_id x = rt_family_id row)) (w_refresh w2)) w2))).
  { destruct (si_claims _ _ HI2 c Hc2) as (_ & _ & _ & f & Hf & Hfd & Hfam). assert (f = fid) as -> by congruence. split; [exact Hfd|].
    intros j r' Hr' Hf'. eapply revoke_where_revoked; [|exact Hr'|]; [done|]. apply bool_decide_eq_true. by rewrite (Hfam _ Hrow). }
  pose proof (session_step_inv _ _ (sess_rotate_fail _ _ _ _ _ _ _ Hc2 Hrun) HI2) as HI3.
  intros cs4 w4 c' ua'' ip'' x w5 Hlater Hc' Hf'. pose proof (session_steps_inv _ _ Hlater HI3) as HI4.
  apply (burned_later fid _ _ Hlater HI3) in Hb as [_ Hb]. apply revoked_never_rotates. intros r' Hr'. apply (Hb _ _ Hr').
  destruct (si_claims _ _ HI4 c' Hc') as (_ & _ & _ & f & Hf & _ & Hfam). rewrite (Hfam _ Hr'). congruence.
Qed.

(** Logout is immediate and permanent: once [revoke_pair] has run on an
    access token's claims, that token never verifies again at any later instant;
    the denylist entry outlives the token. *)
Theorem logged_out_access_never_verifies c rj w w' t x w'' :
  c_jti c <> EmptyString -> c_iss c = JWT_ISSUER -> c_iat c <= epoch (w_now w) ->
  revoke_pair (Some c) rj w = (inr tt, w') -> w_now w <= t ->
  verify_access (jwt_encode c) (advance t w') <> (inr x, w'').
Proof.
  intros Hj Hiss Hiat Hrev Ht H. destruct x as [u c'].
  apply verify_access_inr in H as (_ & Hd & _ & He & _). simpl in *.
  destruct (Z.lt_ge_cases (epoch t) (c_exp c)) as [Hlt|Hge].
  - assert (c' = c) as -> by (by eapply jwt_faithful). simpl in He.
    rewrite (revoke_pair_denylists c rj w w') in He; done.
  - rewrite jwt_expired in Hd; [done|done| |lia]. pose proof (epoch_mono _ _ Ht). lia.
Qed.

(** [revoke_all] (password change, admin action) ends every session of the
    user: no access token issued up to then verifies, and no refresh token whose
    row belongs to the user rotates, at any later time. *)
Theorem revoke_all_ends_sessions u w w' :
  revoke_all u w = (inr tt, w') ->
  (forall u0 role aud t0 jti t x w'', u_id u0 = u_id u ->
     or_Z (u_token_version u0) 0 <= or_Z (u_token_version u) 0 ->
     verify_access (jwt_encode (access_claims u0 role aud t0 jti)) (advance t w') <> (inr x, w'')) /\
  (forall c row t ua ip x w'', w_refresh w !! c_jti c = Some row -> rt_user_id row = u_id u ->
     rotate_refresh (jwt_encode c) ua ip (advance t w') <> (inr x, w'')).
Proof.
  unfold revoke_all, bump_token_version, put_user, revoke_all_for_user. intros H.
  minv1 H. minv1 H. split.
  - intros u0 role aud t0 jti t x w'' Hid Hle Hv. destruct x as [u1 c'].
    apply verify_access_inr in Hv as (_ & Hd & _ & _ & (id & Hpy & Hlook) & Htv).
    apply jwt_faithful in Hd as ->. simpl in *. rewrite py_int_pretty in Hpy. simplify_eq.
    rewrite Hid, lookup_insert_eq in Hlook. injection Hlook as <-. simpl in Htv.
    rewrite (or_Z_zero (Some _)) in Htv. simpl in Htv. simplify_eq; lia.
  - intros c row t ua ip x w'' Hrow Hu. apply revoked_never_rotates. intros row' Hrow'.
    cbn [advance set_users set_refresh w_refresh] in Hrow'.
    eapply revoke_where_revoked; [|exact Hrow'|]; [done|].
    rewrite lookup_revoke_where, Hrow in Hrow'. simpl in Hrow'. injection Hrow' as <-.
    apply Z.eqb_eq. by case_match.
Qed.

(** The token kinds never stand in for one another: monitor, node, join and
    refresh tokens do not pass user verification, and a user's access token
    passes neither the node nor the monitor check. *)
Theorem token_kinds_separate w :
  (forall m typ jti now ttl fid scope x w',
     verify_access (jwt_encode (monitor_claims m typ jti now ttl fid scope)) w <> (inr x, w')) /\
  (forall sub aud typ jti now exp x w', typ <> "access" ->
     verify_access (jwt_encode (node_claims sub aud typ jti now exp)) w <> (inr x, w')) /\
  (forall u aud now jti fid x w',
     verify_access (jwt_encode (refresh_claims u aud now jti fid)) w <> (inr x, w')) /\
  (forall u role aud now jti x w',
     verify_node_token (jwt_encode (access_claims u role aud now jti)) w <> (inr x, w') /\
     (forall y, verify_monitor_access (jwt_encode (access_claims u role aud now jti)) w <> (inr y, w'))).
Proof.
  repeat split.
  - intros m typ jti now ttl fid scope [u c] w' H.
    apply verify_access_inr in H as (_ & Hd & _ & _ & _ & Htv). apply jwt_faithful in Hd as ->. done.
  - intros sub aud typ jti now exp [u c] w' Hne H.
    apply verify_access_inr in H as (_ & Hd & Ht & _). apply jwt_faithful in Hd as ->. simpl in Ht. congruence.
  - intros u aud now jti fid [u' c] w' H.
    apply verify_access_inr in H as (_ & Hd & Ht & _). apply jwt_faithful in Hd as ->. done.
  - intros H. unfold verify_node_token in H. minv1 H.
    apply decode_inr in Hm as (-> & Hd & Ht). apply jwt_faithful in Hd as ->. done.
  - intros y H. unfold verify_monitor_access, check_aud, is_denylisted, live_monitor, monitor_get_by_uuid in H.
    minv1 H. apply decode_inr in Hm as (-> & Hd & Ht). apply jwt_faithful in Hd as ->.
    minv1 H. case_bool_decide; [|done]. minv1 Hm. minv1 H.
    apply redis_exists_inr in Hm as (-> & _). case_match; [done|]. minv1 H.
    minv1 Hm. minv1 Hm. case_match; [|done]. case_match; [done|]. case_bool_decide; done.
Qed.

(** A join token admits its node exactly once: it is accepted while it is
    unexpired, it returns the pre-registered node id, and a second presentation
    is refused at any time. *)
Theorem join_token_one_time node_id minutes w tok w1 t :
  0 < minutes -> w_now w <= t -> epoch t < epoch (w_now w) + minutes * 60 ->
  issue_join_token node_id (Some minutes) w = (inr tok, w1) ->
  exists w2, consume_join_token tok (advance t w1) = (inr node_id, w2) /\
    forall t2 x w3, consume_join_token tok (advance t2 w2) <> (inr x, w3).
Proof.
  intros Hm Hle Hlt H. unfold issue_join_token in H. minv1 H. minv1 H.
  unfold fresh_hex in Hm0. simplify_eq. minv1 H. minv1 H. simpl in *.
  unfold redis_setex in Hm0. destruct (r_setex _ _ _ _ _) as [r|] eqn:Er; [|done]. simplify_eq. simpl in *.
  set (c := node_claims _ _ _ _ _ _).
  assert (Hc : c_exp c = epoch (w_now w) + minutes * 60) by (unfold c; simpl; apply epoch_add_sec).
  assert (Hd : jwt_decode (epoch t) (jwt_encode c) = JwtOk c).
  { apply jwt_round_trip; [done|]. rewrite Hc. simpl. split; [by apply epoch_mono|done]. }
  set (w1 := advance _ _).
  assert (Hup : r_up r = true) by (by apply r_setex_up in Er as [_ ?]).
  assert (Hget : r_get t (nodejoin_key (uuid_hex (w_uuids w))) r = Some (Some (RNum node_id))).
  { unfold r_get. rewrite Hup. unfold r_setex in Er. destruct (_ && _); [|done]. injection Er as <-.
    rewrite r_lookup_put_eq; [done|]. unfold live; simpl. apply Z.ltb_lt.
    pose proof (denylist_covers_lifetime t (w_now w) (epoch (w_now w) + minutes * 60) ltac:(lia)) as Hcov.
    by replace (epoch (w_now w) + minutes * 60 - epoch (w_now w)) with (minutes * 60) in Hcov by lia. }
  exists (set_redis {| r_up := true; r_store := delete (nodejoin_key (c_jti c)) (r_store r) |} w1). split.
  - unfold consume_join_token. rewrite (bind_run _ _ _ _ _ (decode_ok _ "node_join" w1 c Hd eq_refl)).
    unfold check_aud. simpl. unfold bind, ret, redis_get, redis_delete, r_delete. simpl.
    rewrite Hget. simpl. rewrite Hup. by rewrite py_int_pretty.
  - intros t2 x w3 H2. unfold consume_join_token in H2. minv1 H2.
    apply decode_inr in Hm0 as (-> & Hd2 & _). apply jwt_faithful in Hd2 as ->.
    unfold check_aud in H2. simpl in H2. minv1 H2. minv1 H2.
    unfold redis_get, r_get, r_lookup in Hm0. simpl in Hm0. rewrite lookup_delete_eq in Hm0. simpl in Hm0.
    simplify_eq.
Qed.

(** A freshly issued access token verifies for its owner until its 900 s
    are over and is reported expired from then on, whatever else happens to the
    refresh table. *)
Theorem issued_access_verifies u aud ua ip fam w pair w1 t :
  issue_pair u aud ua ip fam w = (inr pair, w1) -> w_now w <= t ->
  w_users w !! u_id u = Some u -> u_is_active u = true -> u_deleted_at u = None ->
  r_up (w_redis w) = true -> r_lookup t (DENYLIST_PREFIX +:+ p_access_jti pair) (w_redis w) = None ->
  if epoch t <? epoch (w_now w) + JWT_ACCESS_TTL
  then exists c, verify_access (p_access_token pair) (advance t w1) = (inr (u, c), advance t w1)
                 /\ c_jti c = p_access_jti pair
  else verify_access (p_access_token pair) (advance t w1) =
       (inl (AuthenticationException "token_expired"), advance t w1).
Proof.
  rewrite issue_pair_run. intros [= <- <-] Ht Hu Hact Hdel Hup Hden. simpl in *.
  set (c := access_claims u (ro_name <$> role_of u w) aud (w_now w) (uuid_hex (w_uuids w))).
  set (w1 := advance t (issued_world u ua ip fam w)).
  assert (Hexp : c_exp c = epoch (w_now w) + JWT_ACCESS_TTL) by apply epoch_add_sec.
  assert (Hiat : c_iat c <= epoch t) by (by apply epoch_mono).
  zcase.
  - assert (Hd : jwt_decode (epoch (w_now w1)) (jwt_encode c) = JwtOk c)
      by (apply jwt_round_trip; [done|]; change (w_now w1) with t; lia).
    exists c. split; [|done]. unfold verify_access.
    rewrite (bind_run _ _ _ _ _ (decode_ok _ "access" _ _ Hd eq_refl)).
    unfold is_denylisted, redis_exists, r_exists, bind, user_of_sub, try_with, user_get_by_id, check_active; simpl.
    rewrite Hup, Hden. simpl. rewrite py_int_pretty. change (w_users w1) with (w_users w). rewrite Hu, Hdel. simpl.
    rewrite Hact, Hdel. simpl. by rewrite bool_decide_eq_true_2.
  - unfold verify_access, decode, bind, gets. rewrite (jwt_expired (epoch (w_now w1)) c); [done|done|done|]. change (w_now w1) with t. lia.
Qed.
End SessionProperties.

(** ** Witnesses, on the concrete token library *)

#[local] Existing Instance toy_jwt.

(** One login, one rotation. *)
Definition demo_c0 : Claims := refresh_claims demo_user "web" (1000 * SEC) "1" "2".
Definition demo_w1 : World := issued_world demo_user None None None demo_world.
Definition demo_w2 : World := snd (rotate_refresh (jwt_encode demo_c0) None None demo_w1).
Definition demo_access : Claims := access_claims demo_user (Some "admin") "web" (1000 * SEC) "0".

Lemma demo_sessions : sessions [demo_c0] demo_w1.
Proof.
  replace demo_c0 with (refresh_claims demo_user "web" (w_now demo_world)
    (p_refresh_jti (issued_pair demo_user "web" None demo_world))
    (p_family_id (issued_pair demo_user "web" None demo_world))) by (vm_compute; reflexivity).
  apply (sessions_step [] demo_world); [by apply sessions_init|].
  apply (sess_login [] demo_world demo_user "web" None None (issued_pair demo_user "web" None demo_world)), issue_pair_run.
Qed.

Lemma one_usable_refresh_per_family_witness :
  exists x w', rotate_refresh (jwt_encode demo_c0) None None demo_w1 = (inr x, w') /\
    c_jti demo_c0 = c_jti demo_c0.
Proof.
  eexists _, _. split; [vm_compute; reflexivity|].
  eapply (one_usable_refresh_per_family [demo_c0] demo_w1 demo_c0 demo_c0 None None None None);
    [apply demo_sessions|set_solver|set_solver|done|vm_compute; reflexivity|vm_compute; reflexivity].
Defined.

(** The successor is rotated too before the stolen token is replayed; the last of the family does
    not rotate any more. *)
Definition successor (c : Claims) (w : World) : Claims :=
  refresh_claims demo_user (default "web" (c_aud c)) (w_now w) (p_refresh_jti (issued_pair demo_user "web" (c_fid c) w)) (p_family_id (issued_pair demo_user "web" (c_fid c) w)).
Definition demo_c1 : Claims := successor demo_c0 demo_w1.
Definition demo_w3 : World := snd (rotate_refresh (jwt_encode demo_c1) None None demo_w2).
Definition demo_c2 : Claims := successor demo_c1 demo_w2.
Lemma demo_second_rotation : rtc session_step ([demo_c1; demo_c0], demo_w2) ([demo_c2; demo_c1; demo_c0], demo_w3).
Proof.
  apply rtc_once. unfold demo_c2, successor.
  apply (sess_rotate [demo_c1; demo_c0] demo_w2 demo_c1 None None (issued_pair demo_user "web" (c_fid demo_c1) demo_w2) demo_user demo_w3);
    [apply elem_of_cons; by left|vm_compute; reflexivity].
Qed.

Lemma replay_burns_family_witness :
  exists w4, rotate_refresh (jwt_encode demo_c0) None None demo_w3 = (inl (TokenReuseException "refresh_reuse_detected"), w4) /\
    forall x w5, rotate_refresh (jwt_encode demo_c2) None None w4 <> (inr x, w5).
Proof.
  destruct (replay_burns_family [demo_c0] demo_w1 demo_c0 None None
    (issued_pair demo_user "web" (c_fid demo_c0) demo_w1) demo_user demo_w2 [demo_c2; demo_c1; demo_c0] demo_w3 None None)
    as (w4 & H & Hlater); [apply demo_sessions|set_solver|vm_compute; reflexivity| |vm_compute; reflexivity|vm_compute; reflexivity|].
  - exact demo_second_rotation.
  - exists w4. split; [exact H|]. intros x w5. refine (Hlater [demo_c2; demo_c1; demo_c0] w4 demo_c2 None None x w5 _ _ _); [apply rtc_refl|apply elem_of_cons; by left|vm_compute; reflexivity].
Defined.

Lemma logged_out_access_never_verifies_witness :
  exists w', revoke_pair (Some demo_access) (Some "1") demo_w1 = (inr tt, w') /\
    forall x w'', verify_access (jwt_encode demo_access) (advance (1500 * SEC) w') <> (inr x, w'').
Proof.
  eexists. split; [vm_compute; reflexivity|]. intros x w''.
  eapply (logged_out_access_never_verifies demo_access (Some "1") demo_w1); 
    [done|done|vm_compute; congruence|vm_compute; reflexivity|vm_compute; congruence].
Defined.

Lemma revoke_all_ends_sessions_witness :
  exists w', revoke_all demo_user demo_w1 = (inr tt, w') /\
    forall x w'', verify_access (jwt_encode demo_access) (advance (1500 * SEC) w') <> (inr x, w'').
Proof.
  eexists. split; [reflexivity|]. intros x w''.
  by apply (revoke_all_ends_sessions demo_user demo_w1 _ eq_refl).
Defined.

Lemma token_kinds_separate_witness :
  verify_node_token (jwt_encode demo_access) demo_w1 <> (inr demo_access, demo_w1).
Proof. apply (token_kinds_separate demo_w1). Defined.

Lemma join_token_one_time_witness :
  exists tok w1 w2, issue_join_token 9 (Some 30) demo_world = (inr tok, w1) /\
    consume_join_token tok (advance (1100 * SEC) w1) = (inr 9, w2).
Proof.
  destruct (issue_join_token 9 (Some 30) demo_world) as [[e|tok] w1] eqn:E;
    [vm_compute in E; discriminate|].
  edestruct (join_token_one_time 9 30 demo_world tok w1 (1100 * SEC)) as (w2 & H & _);
    [done|vm_compute; congruence|done|exact E|].
  exists tok, w1, w2. split; [reflexivity|exact H].
Defined.

Lemma issued_access_verifies_witness :
  let pair := issued_pair demo_user "web" None demo_world in
  exists c, verify_access (p_access_token pair) (advance (1100 * SEC) demo_w1) =
    (inr (demo_user, c), advance (1100 * SEC) demo_w1) /\ c_jti c = p_access_jti pair.
Proof.
  intros pair.
  assert (E : (epoch (1100 * SEC) <? epoch (w_now demo_world) + JWT_ACCESS_TTL) = true) by reflexivity.
  assert (H := issued_access_verifies demo_user "web" None None None demo_world pair demo_w1 (1100 * SEC)
    (issue_pair_run _ _ _ _ _ _)). rewrite E in H.
  apply H; [vm_compute; congruence|reflexivity..|vm_compute; reflexivity].
Defined.
