(* ===== verification/Pairing.v ===== *)
(** * Wall monitors and their pairing codes

    src/server/service/pairing_code.py, model/pairing_code.py, model/monitor.py,
    controller/monitor.py, task/list/pairing_code_cleanup.py.

    The world is the token service's with the table of codes.  sha256 of a code with
    the pepper ([hash_code]) and the n-th [secrets.randbelow(1_000_000)] are
    parameters.  A claim is three steps, because other requests run in between: find
    the code, consume it (one conditional UPDATE), pair the monitor.  A monitor's name,
    label, settings and rotation are not kept. *)

From stdpp Require Import pretty.
From Stdlib Require Import Ascii.
From S2P Require Import Prelude PyStr Redis Permission Token Sessions.
Local Open Scope Z_scope.
Local Open Scope list_scope.

Definition CLAIM_RATE_PER_MIN : Z := 10.
Definition PAIRING_CODE_TTL_S : Z := 60.
Definition STATUS_UNPAIRED : string := "unpaired".
Definition STATUS_PENDING : string := "pending".
Definition STATUS_PAIRED : string := "paired".
Definition STATUS_REVOKED : string := "revoked".

Record PairingCode := {
  pc_id : Z;
  pc_monitor_id : Z;
  pc_code_hash : string;
  pc_expires_at : Z;
  pc_attempts : Z;
  pc_max_attempts : Z;
  pc_consumed_at : option Z;
  pc_created_at : Z
}.

Record PairWorld := {
  pw_token : World;
  pw_codes : list PairingCode;   (* in primary-key order *)
  pw_next : Z;                   (* the next primary key *)
  pw_draws : nat                 (* codes drawn so far *)
}.

Definition P (A : Type) : Type := M PairWorld exn A.

Definition set_token (t : World) (w : PairWorld) : PairWorld :=
  {| pw_token := t; pw_codes := pw_codes w; pw_next := pw_next w; pw_draws := pw_draws w |}.
Definition set_codes (l : list PairingCode) (w : PairWorld) : PairWorld :=
  {| pw_token := pw_token w; pw_codes := l; pw_next := pw_next w; pw_draws := pw_draws w |}.
Definition pw_now (w : PairWorld) : Z := w_now (pw_token w).

(** a call of the token service *)
Definition with_token {A} (m : T A) : P A :=
  fun w => let '(r, t) := m (pw_token w) in (r, set_token t w).

Definition pc_expire (t : Z) (c : PairingCode) : PairingCode :=
  {| pc_id := pc_id c; pc_monitor_id := pc_monitor_id c; pc_code_hash := pc_code_hash c; pc_expires_at := t;
     pc_attempts := pc_attempts c; pc_max_attempts := pc_max_attempts c; pc_consumed_at := pc_consumed_at c;
     pc_created_at := pc_created_at c |}.
Definition pc_consume (t : Z) (c : PairingCode) : PairingCode :=
  {| pc_id := pc_id c; pc_monitor_id := pc_monitor_id c; pc_code_hash := pc_code_hash c; pc_expires_at := pc_expires_at c;
     pc_attempts := pc_attempts c; pc_max_attempts := pc_max_attempts c; pc_consumed_at := Some t;
     pc_created_at := pc_created_at c |}.

(** [PairingCode.find_active]'s WHERE without the hash *)
Definition code_active (now : Z) (c : PairingCode) : bool :=
  bool_decide (pc_consumed_at c = None) && (now <? pc_expires_at c).

Section Pairing.
Context {J : JwtLib} (hash_code : string -> string) (draw : nat -> Z) (dashboard_exists : string -> bool).

(** ** Codes *)

Definition find_active (code_hash : string) (w : PairWorld) : option PairingCode :=
  head (sort_on (fun c => - pc_created_at c)
    (List.filter (fun c => bool_decide (pc_code_hash c = code_hash) && code_active (pw_now w) c) (pw_codes w))).

Definition expire_active_for_monitor (monitor_id : Z) : P unit :=
  modify (fun w => set_codes
    ((fun c => if (pc_monitor_id c =? monitor_id) && code_active (pw_now w) c then pc_expire (pw_now w) c else c) <$> pw_codes w) w).

Definition create_code (monitor_id : Z) (code_hash : string) (expires_at : Z) : P unit :=
  modify (fun w =>
    {| pw_token := pw_token w;
       pw_codes := pw_codes w ++ [{| pc_id := pw_next w; pc_monitor_id := monitor_id; pc_code_hash := code_hash;
         pc_expires_at := expires_at; pc_attempts := 0; pc_max_attempts := 5; pc_consumed_at := None; pc_created_at := pw_now w |}];
       pw_next := pw_next w + 1; pw_draws := pw_draws w |}).

(** [PairingCode.consume]: the UPDATE's row count *)
Definition consume (id : Z) : P bool :=
  fun w =>
    let hit c := (pc_id c =? id) && bool_decide (pc_consumed_at c = None) in
    (inr (count_on hit (pw_codes w) =? 1),
     set_codes ((fun c => if hit c then pc_consume (pw_now w) c else c) <$> pw_codes w) w).

Definition cleanup (w : PairWorld) : Z * PairWorld :=
  let gone c := (pc_expires_at c <? pw_now w) || bool_decide (is_Some (pc_consumed_at c)) in
  (count_on gone (pw_codes w), set_codes (List.filter (fun c => negb (gone c)) (pw_codes w)) w).

(** ['%06d' % n] for [0 <= n < 1000000] *)
Definition digit_char (d : Z) : ascii := ascii_of_nat (48 + Z.to_nat d).
Definition six_digits (n : Z) : string :=
  foldr (fun p r => String (digit_char (n / p mod 10)) r) EmptyString [100000; 10000; 1000; 100; 10; 1].

(** ** Monitors *)

Definition monitor_get_by_id (id : Z) (w : World) : option Monitor :=
  match w_monitors w !! id with
  | Some m => if bool_decide (mo_deleted_at m = None) then Some m else None
  | None => None
  end.

Definition monitor_save (m : Monitor) : P unit :=
  modify (fun w => set_token (set_monitors (<[mo_id m := m]> (w_monitors (pw_token w))) (pw_token w)) w).

Definition mo_with_status (s : string) (m : Monitor) : Monitor :=
  {| mo_id := mo_id m; mo_uuid := mo_uuid m; mo_dashboard_uuid := mo_dashboard_uuid m; mo_status := s;
     mo_token_version := mo_token_version m; mo_paired_at := mo_paired_at m; mo_last_ip := mo_last_ip m;
     mo_user_agent := mo_user_agent m; mo_enabled := mo_enabled m; mo_deleted_at := mo_deleted_at m |}.
Definition mo_with_dashboard (d : string) (m : Monitor) : Monitor :=
  {| mo_id := mo_id m; mo_uuid := mo_uuid m; mo_dashboard_uuid := Some d; mo_status := mo_status m;
     mo_token_version := mo_token_version m; mo_paired_at := mo_paired_at m; mo_last_ip := mo_last_ip m;
     mo_user_agent := mo_user_agent m; mo_enabled := mo_enabled m; mo_deleted_at := mo_deleted_at m |}.
Definition mo_bumped (m : Monitor) : Monitor :=
  {| mo_id := mo_id m; mo_uuid := mo_uuid m; mo_dashboard_uuid := mo_dashboard_uuid m; mo_status := mo_status m;
     mo_token_version := Some (or_Z (mo_token_version m) 0 + 1); mo_paired_at := mo_paired_at m; mo_last_ip := mo_last_ip m;
     mo_user_agent := mo_user_agent m; mo_enabled := mo_enabled m; mo_deleted_at := mo_deleted_at m |}.
(** [mark_paired] *)
Definition mo_paired (now : Z) (ip ua : option string) (m : Monitor) : Monitor :=
  {| mo_id := mo_id m; mo_uuid := mo_uuid m; mo_dashboard_uuid := mo_dashboard_uuid m; mo_status := STATUS_PAIRED;
     mo_token_version := mo_token_version m; mo_paired_at := Some now; mo_last_ip := ip;
     mo_user_agent := ua; mo_enabled := mo_enabled m; mo_deleted_at := mo_deleted_at m |}.
(** [soft_delete] *)
Definition mo_deleted (now : Z) (m : Monitor) : Monitor :=
  {| mo_id := mo_id m; mo_uuid := mo_uuid m; mo_dashboard_uuid := mo_dashboard_uuid m; mo_status := STATUS_REVOKED;
     mo_token_version := Some (or_Z (mo_token_version m) 0 + 1); mo_paired_at := mo_paired_at m; mo_last_ip := mo_last_ip m;
     mo_user_agent := mo_user_agent m; mo_enabled := mo_enabled m; mo_deleted_at := Some now |}.

(** ** Issue and claim *)

Definition draw_code : P string :=
  fun w => (inr (six_digits (draw (pw_draws w))),
            {| pw_token := pw_token w; pw_codes := pw_codes w; pw_next := pw_next w; pw_draws := S (pw_draws w) |}).

(** the second half of [issue], after the older codes of the monitor expired *)
Definition issue_new (m : Monitor) : P (string * Z) :=
  let! code := draw_code in
  let! now := gets pw_now in
  create_code (mo_id m) (hash_code code) (now + PAIRING_CODE_TTL_S * SEC) ;;;
  monitor_save (mo_with_status STATUS_PENDING m) ;;;
  ret (code, now + PAIRING_CODE_TTL_S * SEC).

Definition issue (m : Monitor) : P (string * Z) := expire_active_for_monitor (mo_id m) ;;; issue_new m.

Definition invalid_or_expired : exn := ValueError "invalid_or_expired".

Definition claim_find (code : string) : P PairingCode :=
  if negb (isdigit code && (String.length code =? 6)%nat) then raise invalid_or_expired else
  let! row := gets (find_active (hash_code code)) in
  match row with
  | None => raise invalid_or_expired
  | Some c => if pc_max_attempts c <=? pc_attempts c then raise invalid_or_expired else ret c
  end.

Definition claim_consume (c : PairingCode) : P unit :=
  let! won := consume (pc_id c) in if won : bool then ret tt else raise invalid_or_expired.

Definition claim_pair (c : PairingCode) (ip ua : option string) : P (Monitor * MonitorPair) :=
  let! mon := gets (fun w => monitor_get_by_id (pc_monitor_id c) (pw_token w)) in
  match mon with
  | None => raise invalid_or_expired
  | Some m =>
      if negb (mo_enabled m) then raise invalid_or_expired else
      let! now := gets pw_now in
      let m1 := mo_paired now ip ua m in
      monitor_save m1 ;;;
      let! pair := with_token (issue_monitor_pair m1 (default "" (mo_dashboard_uuid m1)) None) in
      ret (m1, pair)
  end.

Definition claim (code : string) (ip ua : option string) : P (Monitor * MonitorPair) :=
  let! c := claim_find code in
  claim_consume c ;;;
  claim_pair c ip ua.

(** [rate_limit_ok]: an unreachable Redis admits the claim *)
Definition rate_limit_ok (ip : option string) (w : PairWorld) : bool * PairWorld :=
  let t := pw_token w in
  let key := ("axp:pairclaim:" +:+ or_str ip "unknown")%string in
  match r_incr (w_now t) key (w_redis t) with
  | None => (true, w)
  | Some (n, r) =>
      if n =? 1 then
        match r_expire (w_now t) key 60 r with
        | None => (true, set_token (set_redis r t) w)
        | Some r' => (n <=? CLAIM_RATE_PER_MIN, set_token (set_redis r' t) w)
        end
      else (n <=? CLAIM_RATE_PER_MIN, set_token (set_redis r t) w)
  end.

(** ** [MonitorController] *)

Definition require (uuid : string) : P Monitor :=
  let! m := with_token (monitor_get_by_uuid uuid) in
  match m with Some m => ret m | None => raise RowNotFoundException end.

Definition monitor_create (name dashboard_uuid : option string) (w : PairWorld) : (exn + Monitor) * PairWorld :=
  if negb (truthy_str name) || negb (truthy_str dashboard_uuid) then (inl (InvalidParameterException "name and dashboard_uuid required"), w)
  else if negb (dashboard_exists (default "" dashboard_uuid)) then (inl RowNotFoundException, w)
  else
    (let! hex := with_token fresh_hex in
     let! id := gets pw_next in
     let m := {| mo_id := id; mo_uuid := hex; mo_dashboard_uuid := dashboard_uuid; mo_status := STATUS_UNPAIRED;
                 mo_token_version := Some 0; mo_paired_at := None; mo_last_ip := None; mo_user_agent := None;
                 mo_enabled := true; mo_deleted_at := None |} in
     modify (fun w => {| pw_token := pw_token w; pw_codes := pw_codes w; pw_next := pw_next w + 1; pw_draws := pw_draws w |}) ;;;
     monitor_save m ;;;
     ret m) w.

Definition monitor_update (uuid : string) (dashboard_uuid : option string) : P Monitor :=
  let! m := require uuid in
  if negb (truthy_str dashboard_uuid) then ret m else
  let d := default "" dashboard_uuid in
  if negb (dashboard_exists d) then raise RowNotFoundException else
  if bool_decide (mo_dashboard_uuid m = Some d) then ret m else
  monitor_save (mo_bumped (mo_with_dashboard d m)) ;;;
  ret (mo_bumped (mo_with_dashboard d m)).

Definition monitor_delete (uuid : string) : P unit :=
  let! m := require uuid in
  let! now := gets pw_now in
  monitor_save (mo_deleted now m).

Definition pair_code (uuid : string) : P (string * Z) :=
  let! m := require uuid in issue m.

Definition monitor_revoke (uuid : string) : P Monitor :=
  let! m := require uuid in
  let m1 := mo_bumped (mo_with_status STATUS_REVOKED m) in
  monitor_save m1 ;;;
  ret m1.
End Pairing.

(** ** The table of codes *)

Section PairingFacts.
Context {J : JwtLib} (hash_code : string -> string) (draw : nat -> Z) (dashboard_exists : string -> bool).

(** ids are unique and below the next one *)
Definition codes_ok (w : PairWorld) : Prop :=
  NoDup (pc_id <$> pw_codes w) /\ Forall (fun c => pc_id c < pw_next w) (pw_codes w).

Lemma find_active_spec h w c : find_active h w = Some c ->
  c ∈ pw_codes w /\ pc_code_hash c = h /\ pc_consumed_at c = None /\ pw_now w < pc_expires_at c.
Proof.
  unfold find_active. intros H. apply head_Some_elem_of, elem_of_sort_on, elem_of_filter_In in H as [Hin H].
  apply andb_prop in H as [Hh Ha]. apply andb_prop in Ha as [Hc He].
  split_and!; [done|by apply bool_decide_eq_true_1 in Hh|by apply bool_decide_eq_true_1 in Hc|lia].
Qed.

Lemma find_active_some h w c : c ∈ pw_codes w -> pc_code_hash c = h -> code_active (pw_now w) c = true ->
  is_Some (find_active h w).
Proof.
  intros Hin Hh Ha. unfold find_active. destruct (sort_on _ _) as [|x l] eqn:E; [|by eexists].
  assert (Hx : c ∈ ([] : list PairingCode)); [|by apply elem_of_nil in Hx].
  rewrite <- E. apply elem_of_sort_on, elem_of_filter_In. by rewrite Ha, bool_decide_eq_true_2.
Qed.

Lemma find_active_none h w : (forall c, c ∈ pw_codes w -> pc_code_hash c = h -> code_active (pw_now w) c = false) ->
  find_active h w = None.
Proof.
  intros H. destruct (find_active h w) as [c|] eqn:E; [|done].
  apply find_active_spec in E as (Hin & Hh & Hc & He). specialize (H c Hin Hh). unfold code_active in H.
  rewrite bool_decide_eq_true_2 in H by done. cbn in H. lia.
Qed.

Lemma codes_fmap_ok (f : PairingCode -> PairingCode) w : (forall c, pc_id (f c) = pc_id c) ->
  codes_ok w -> codes_ok (set_codes (f <$> pw_codes w) w).
Proof.
  intros Hf [H1 H2]. unfold codes_ok, set_codes. cbn. split.
  - rewrite <- list_fmap_compose. erewrite list_fmap_ext; [exact H1|]. intros i c _. apply Hf.
  - apply Forall_fmap. eapply Forall_impl; [exact H2|]. intros c Hc. cbn. by rewrite Hf.
Qed.

(** a unique id is hit once at most *)
Lemma count_on_zero {A} (f : A -> bool) (l : list A) : (forall x, x ∈ l -> f x = false) -> count_on f l = 0.
Proof.
  induction l as [|a l IH]; intros H; [done|]. rewrite count_on_cons, (H a) by set_solver. rewrite IH; [done|]. intros. apply H. set_solver.
Qed.

Lemma count_on_one {A K} (key : A -> K) (f : A -> bool) (l : list A) x :
  NoDup (key <$> l) -> x ∈ l -> f x = true -> (forall y, y ∈ l -> f y = true -> key y = key x) -> count_on f l = 1.
Proof.
  induction l as [|a l IH]; intros Hn Hin Hx Hf; [by apply elem_of_nil in Hin|].
  rewrite fmap_cons in Hn. apply NoDup_cons in Hn as [Ha Hn]. rewrite count_on_cons. apply elem_of_cons in Hin as [->|Hin].
  - rewrite Hx, count_on_zero; [done|]. intros y Hy. destruct (f y) eqn:E; [|done]. destruct Ha.
    rewrite <- (Hf y) by set_solver. by apply list_elem_of_fmap_2.
  - rewrite IH; [|done|done|done|intros; apply Hf; set_solver]. destruct (f a) eqn:E; [|done]. destruct Ha.
    rewrite (Hf a) by set_solver. by apply list_elem_of_fmap_2.
Qed.

Lemma count_on_hit {A} (f : A -> bool) (l : list A) : count_on f l = 1 -> exists x, x ∈ l /\ f x = true.
Proof.
  intros H. destruct (existsb f l) eqn:E.
  - apply existsb_exists in E as (x & Hx & E). exists x. by rewrite list_elem_of_In.
  - rewrite count_on_zero in H; [done|]. intros x Hx. destruct (f x) eqn:Ex; [|done].
    rewrite <- E. symmetry. apply existsb_exists. exists x. by rewrite <- list_elem_of_In.
Qed.

(** ** Requests in any order

    [issues] and [wins] record which code was handed out for whom and which claim
    consumed it; [clients] are the claims under way. *)

Inductive phase := Found (code : string) (c : PairingCode) (at_ : Z) | Won (c : PairingCode).
Record Issue := { is_row : Z; is_monitor : Z; is_code : string; is_at : Z }.
Record Win := { wn_row : Z; wn_monitor : Z; wn_code : string; wn_found : Z }.
Record Hist := { hi_world : PairWorld; hi_clients : gmap nat phase; hi_issues : list Issue; hi_wins : list Win }.

(** a step keeps the codes and does not turn back the clock: the token service, the
    monitors' administration, a claim's last part *)
Definition elsewhere (w w' : PairWorld) : Prop :=
  pw_codes w' = pw_codes w /\ pw_next w <= pw_next w' /\ pw_now w <= pw_now w'.

Inductive step : Hist -> Hist -> Prop :=
| st_expire h id :
    step h {| hi_world := snd (expire_active_for_monitor id (hi_world h)); hi_clients := hi_clients h; hi_issues := hi_issues h; hi_wins := hi_wins h |}
| st_issue h m code at_ w' : issue_new hash_code draw m (hi_world h) = (inr (code, at_), w') ->
    step h {| hi_world := w'; hi_clients := hi_clients h;
              hi_issues := {| is_row := pw_next (hi_world h); is_monitor := mo_id m; is_code := code; is_at := pw_now (hi_world h) |} :: hi_issues h;
              hi_wins := hi_wins h |}
| st_find h k code c w' : claim_find hash_code code (hi_world h) = (inr c, w') ->
    step h {| hi_world := w'; hi_clients := <[k := Found code c (pw_now (hi_world h))]> (hi_clients h); hi_issues := hi_issues h; hi_wins := hi_wins h |}
| st_consume h k code c at_ w' : hi_clients h !! k = Some (Found code c at_) -> claim_consume c (hi_world h) = (inr tt, w') ->
    step h {| hi_world := w'; hi_clients := <[k := Won c]> (hi_clients h); hi_issues := hi_issues h;
              hi_wins := {| wn_row := pc_id c; wn_monitor := pc_monitor_id c; wn_code := code; wn_found := at_ |} :: hi_wins h |}
| st_lose h k code c at_ e w' : hi_clients h !! k = Some (Found code c at_) -> claim_consume c (hi_world h) = (inl e, w') ->
    step h {| hi_world := w'; hi_clients := delete k (hi_clients h); hi_issues := hi_issues h; hi_wins := hi_wins h |}
| st_pair h k c ip ua r w' : hi_clients h !! k = Some (Won c) -> claim_pair c ip ua (hi_world h) = (r, w') ->
    step h {| hi_world := w'; hi_clients := delete k (hi_clients h); hi_issues := hi_issues h; hi_wins := hi_wins h |}
| st_cleanup h :
    step h {| hi_world := snd (cleanup (hi_world h)); hi_clients := hi_clients h; hi_issues := hi_issues h; hi_wins := hi_wins h |}
| st_elsewhere h w' : elsewhere (hi_world h) w' ->
    step h {| hi_world := w'; hi_clients := hi_clients h; hi_issues := hi_issues h; hi_wins := hi_wins h |}.

Inductive reaches : Hist -> Prop :=
| re_start w : pw_codes w = [] -> reaches {| hi_world := w; hi_clients := ∅; hi_issues := []; hi_wins := [] |}
| re_step h h' : reaches h -> step h h' -> reaches h'.

(** what a code row says about its issue *)
Definition issued (iss : list Issue) (c : PairingCode) : Prop :=
  exists i, i ∈ iss /\ is_row i = pc_id c /\ is_monitor i = pc_monitor_id c /\ hash_code (is_code i) = pc_code_hash c /\
    is_at i <= pc_created_at c /\ pc_expires_at c <= is_at i + PAIRING_CODE_TTL_S * SEC.

Record good (h : Hist) : Prop := {
  gd_codes : codes_ok (hi_world h);
  gd_past : Forall (fun c => pc_created_at c <= pw_now (hi_world h)) (pw_codes (hi_world h));
  gd_issued : Forall (issued (hi_issues h)) (pw_codes (hi_world h));
  gd_wins : NoDup (wn_row <$> hi_wins h);
  gd_old : Forall (fun x => wn_row x < pw_next (hi_world h)) (hi_wins h);
  gd_spent : forall c x, c ∈ pw_codes (hi_world h) -> x ∈ hi_wins h -> pc_id c = wn_row x -> is_Some (pc_consumed_at c);
  gd_found : forall k code c at_, hi_clients h !! k = Some (Found code c at_) ->
    hash_code code = pc_code_hash c /\ issued (hi_issues h) c /\ pc_created_at c <= at_ < pc_expires_at c /\ pc_id c < pw_next (hi_world h);
  gd_won : Forall (fun x => exists i, i ∈ hi_issues h /\ is_row i = wn_row x /\ is_monitor i = wn_monitor x /\
    hash_code (is_code i) = hash_code (wn_code x) /\ is_at i <= wn_found x < is_at i + PAIRING_CODE_TTL_S * SEC) (hi_wins h)
}.

Lemma issued_more i iss c : issued iss c -> issued (i :: iss) c.
Proof. intros (j & Hj & H). exists j. split; [by right|done]. Qed.

Lemma wins_more i iss l : Forall (fun x => exists i, i ∈ iss /\ is_row i = wn_row x /\ is_monitor i = wn_monitor x /\
    hash_code (is_code i) = hash_code (wn_code x) /\ is_at i <= wn_found x < is_at i + PAIRING_CODE_TTL_S * SEC) l ->
  Forall (fun x => exists j, j ∈ i :: iss /\ is_row j = wn_row x /\ is_monitor j = wn_monitor x /\
    hash_code (is_code j) = hash_code (wn_code x) /\ is_at j <= wn_found x < is_at j + PAIRING_CODE_TTL_S * SEC) l.
Proof. intros H. eapply Forall_impl; [exact H|]. intros x (j & Hj & Hr). exists j. split; [by right|done]. Qed.

(** A change of the table row by row that leaves ids, hashes and monitors, only
    shortens lives and only consumes. *)
Definition narrows (f : PairingCode -> PairingCode) : Prop := forall c,
  pc_id (f c) = pc_id c /\ pc_monitor_id (f c) = pc_monitor_id c /\ pc_code_hash (f c) = pc_code_hash c /\
  pc_created_at (f c) = pc_created_at c /\ (is_Some (pc_consumed_at c) -> is_Some (pc_consumed_at (f c))).

Lemma narrowed f h :
  narrows f -> (forall c, c ∈ pw_codes (hi_world h) -> pc_expires_at (f c) <= pc_expires_at c) -> good h ->
  good {| hi_world := set_codes (f <$> pw_codes (hi_world h)) (hi_world h); hi_clients := hi_clients h; hi_issues := hi_issues h; hi_wins := hi_wins h |}.
Proof.
  intros Hf He [H1 H2 H3 H4 H5 H6 H7 H8]. constructor; cbn; try done.
  - apply codes_fmap_ok; [|done]. intros c. apply Hf.
  - apply Forall_fmap. eapply Forall_impl; [exact H2|]. intros c Hc. cbn. destruct (Hf c) as (_ & _ & _ & -> & _). done.
  - apply Forall_fmap, Forall_forall. intros c Hc. rewrite Forall_forall in H3. destruct (H3 c Hc) as (i & Hi & E1 & E2 & E3 & E4 & E5).
    specialize (He c Hc). destruct (Hf c) as (F1 & F2 & F3 & F4 & _). exists i. cbn. rewrite F1, F2, F3, F4. split_and!; try done. lia.
  - intros c x Hc Hx Hid. apply list_elem_of_fmap_1 in Hc as (c0 & -> & Hc). destruct (Hf c0) as (F1 & _ & _ & _ & F5).
    rewrite F1 in Hid. eauto.
Qed.

Lemma moved h w' : good h -> elsewhere (hi_world h) w' ->
  good {| hi_world := w'; hi_clients := hi_clients h; hi_issues := hi_issues h; hi_wins := hi_wins h |}.
Proof.
  intros [H1 H2 H3 H4 H5 H6 H7 H8] (E1 & E2 & E3). constructor; cbn; rewrite ?E1; try done.
  - destruct H1 as [A B]. split; rewrite E1; [done|]. eapply Forall_impl; [exact B|]. cbn. lia.
  - eapply Forall_impl; [exact H2|]. cbn. lia.
  - eapply Forall_impl; [exact H5|]. cbn. lia.
  - intros k code c at_ Hk. destruct (H7 k code c at_ Hk) as (A & B & C & D). split_and!; try done; lia.
Qed.

Lemma good_clients h cl : good h ->
  (forall k code c at_, cl !! k = Some (Found code c at_) -> exists k', hi_clients h !! k' = Some (Found code c at_)) ->
  good {| hi_world := hi_world h; hi_clients := cl; hi_issues := hi_issues h; hi_wins := hi_wins h |}.
Proof. intros [H1 H2 H3 H4 H5 H6 H7 H8] Hc. constructor; cbn; try done. intros k code c at_ Hk. apply Hc in Hk as [k' Hk]. eauto. Qed.

Lemma consume_run c w : exists b, consume (pc_id c) w = (inr b,
  set_codes ((fun y => if (pc_id y =? pc_id c) && bool_decide (pc_consumed_at y = None) then pc_consume (pw_now w) y else y) <$> pw_codes w) w) /\
  (b = true <-> count_on (fun y => (pc_id y =? pc_id c) && bool_decide (pc_consumed_at y = None)) (pw_codes w) = 1).
Proof. eexists. split; [done|]. cbn. apply Z.eqb_eq. Qed.

Lemma consume_narrows id t : narrows (fun y => if (pc_id y =? id) && bool_decide (pc_consumed_at y = None) then pc_consume t y else y).
Proof. intros c. destruct (_ && _); cbn; split_and!; eauto. Qed.

Lemma claim_pair_elsewhere c ip ua w : elsewhere w (snd (claim_pair c ip ua w)).
Proof.
  unfold claim_pair, bind, gets. destruct (monitor_get_by_id _ _) as [m|]; [|done]. destruct (negb _); [done|].
  unfold monitor_save, modify, with_token. destruct (issue_monitor_pair _ _ _ _) as [[e|p] t] eqn:E; cbn.
  all: unfold issue_monitor_pair, fresh_hex, bind, gets, ret in E; cbn in E; simplify_eq.
  split_and!; cbn; [done|lia|unfold pw_now; cbn; lia].
Qed.

Lemma issue_new_good h m code at_ w' : good h -> issue_new hash_code draw m (hi_world h) = (inr (code, at_), w') ->
  good {| hi_world := w'; hi_clients := hi_clients h;
          hi_issues := {| is_row := pw_next (hi_world h); is_monitor := mo_id m; is_code := code; is_at := pw_now (hi_world h) |} :: hi_issues h;
          hi_wins := hi_wins h |}.
Proof.
  intros [[H1 H1'] H2 H3 H4 H5 H6 H7 H8] E. unfold issue_new, draw_code, create_code, monitor_save, bind, gets, modify, ret in E. cbn in E. simplify_eq.
  unfold pw_now in *. cbn in *. constructor; unfold pw_now; cbn.
  - split; cbn.
    + rewrite fmap_app. cbn. apply NoDup_app. split; [done|]. split; [|repeat constructor; set_solver].
      intros x Hx Hx'. apply list_elem_of_singleton in Hx' as ->. apply list_elem_of_fmap_1 in Hx as (c & Hc & Hin).
      rewrite Forall_forall in H1'. specialize (H1' c Hin). lia.
    + apply Forall_app. split; [|repeat constructor; cbn; lia]. eapply Forall_impl; [exact H1'|]. cbn. lia.
  - apply Forall_app. split; [done|]. repeat constructor. cbn. lia.
  - apply Forall_app. split; [eapply Forall_impl; [exact H3|]; intros c; apply issued_more|].
    constructor; [|constructor]. eexists. split; [by left|]. cbn. unfold pw_now. cbn. split_and!; try done; lia.
  - done.
  - eapply Forall_impl; [exact H5|]. cbn. lia.
  - intros c x Hc Hx Hid. apply elem_of_app in Hc as [Hc|Hc]; [by eapply H6|]. apply list_elem_of_singleton in Hc as ->. cbn in Hid.
    rewrite Forall_forall in H5. specialize (H5 x Hx). cbn in H5. lia.
  - intros k code c at_ Hk. destruct (H7 k code c at_ Hk) as (A & B & C & D). split_and!; [done|by apply issued_more|lia|lia|lia].
  - by apply wins_more.
Qed.

Lemma find_good h k code c w' : good h -> claim_find hash_code code (hi_world h) = (inr c, w') ->
  good {| hi_world := w'; hi_clients := <[k := Found code c (pw_now (hi_world h))]> (hi_clients h); hi_issues := hi_issues h; hi_wins := hi_wins h |}.
Proof.
  intros [H1 H2 H3 H4 H5 H6 H7 H8] E. unfold claim_find in E. destruct (negb _); [done|]. unfold bind, gets in E.
  destruct (find_active _ _) as [c0|] eqn:Ef; [|done]. destruct (_ <=? _); [done|]. unfold ret in E. simplify_eq.
  apply find_active_spec in Ef as (Hin & Hh & _ & He). constructor; cbn; try done.
  intros k' code' c' at_ Hk. destruct (decide (k' = k)) as [->|Hne].
  - rewrite lookup_insert_eq in Hk. simplify_eq. rewrite Forall_forall in H2, H3. specialize (H2 c' Hin). specialize (H3 c' Hin).
    destruct H1 as [_ H1]. rewrite Forall_forall in H1. specialize (H1 c' Hin). cbn in *. split_and!; try done.
  - rewrite lookup_insert_ne in Hk by done. by apply (H7 k').
Qed.

Lemma consume_narrowed h c : good h ->
  good {| hi_world := snd (consume (pc_id c) (hi_world h)); hi_clients := hi_clients h; hi_issues := hi_issues h; hi_wins := hi_wins h |}.
Proof. intros Hg. apply narrowed; [apply consume_narrows| |done]. intros y _. by destruct (_ && _). Qed.

Lemma consume_good h k code c at_ w' : good h -> hi_clients h !! k = Some (Found code c at_) ->
  claim_consume c (hi_world h) = (inr tt, w') ->
  good {| hi_world := w'; hi_clients := <[k := Won c]> (hi_clients h); hi_issues := hi_issues h;
          hi_wins := {| wn_row := pc_id c; wn_monitor := pc_monitor_id c; wn_code := code; wn_found := at_ |} :: hi_wins h |}.
Proof.
  intros Hg Hk E. destruct (gd_found _ Hg k code c at_ Hk) as (Hh & (i & Hi & E1 & E2 & E3 & E4 & E5) & Hat & Hid).
  unfold claim_consume, bind in E. destruct (consume_run c (hi_world h)) as (b & Eb & Hb). rewrite Eb in E. destruct b; [|done].
  unfold ret in E. injection E as <-. specialize (proj1 Hb eq_refl). clear Hb. intros Hc. apply count_on_hit in Hc as (y & Hy & Hp).
  apply andb_prop in Hp as [Hp1 Hp2]. apply bool_decide_eq_true_1 in Hp2. apply Z.eqb_eq in Hp1.
  pose proof (consume_narrowed h c Hg) as Hn. rewrite Eb in Hn. cbn in Hn. destruct Hn as [A1 A2 A3 A4 A5 A6 A7 A8].
  cbn in *. constructor; cbn; try done.
  - constructor; [|done]. intros Hx. apply list_elem_of_fmap_1 in Hx as (x & Hx & Hin).
    destruct (gd_spent _ Hg y x Hy Hin ltac:(congruence)) as [t Ht]. congruence.
  - by constructor.
  - intros z x Hz Hx Hzx. apply elem_of_cons in Hx as [->|Hx]; [|by eapply A6]. cbn in Hzx.
    apply list_elem_of_fmap_1 in Hz as (z0 & -> & Hz). destruct (Z.eqb_spec (pc_id z0) (pc_id c)) as [Ez|Ez]; cbn in *.
    + case_bool_decide as Ec; cbn; [by eexists|]. by apply not_eq_None_Some.
    + done.
  - intros k' code' c' at' Hk'. destruct (decide (k' = k)) as [->|]; [by rewrite lookup_insert_eq in Hk'|].
    rewrite lookup_insert_ne in Hk' by done. by eapply A7.
  - constructor; [|done]. exists i. cbn. rewrite Hh. split_and!; try done; lia.
Qed.

Lemma cleanup_good h : good h ->
  good {| hi_world := snd (cleanup (hi_world h)); hi_clients := hi_clients h; hi_issues := hi_issues h; hi_wins := hi_wins h |}.
Proof.
  intros [[H1 H1'] H2 H3 H4 H5 H6 H7 H8]. unfold cleanup. cbn.
  set (f := fun c => negb _). assert (Hs : forall c, c ∈ List.filter f (pw_codes (hi_world h)) -> c ∈ pw_codes (hi_world h)) by (intros c Hc; by apply elem_of_filter_In in Hc as [? _]).
  assert (HF : forall Q, Forall Q (pw_codes (hi_world h)) -> Forall Q (List.filter f (pw_codes (hi_world h)))).
  { intros Q HQ. rewrite Forall_forall in HQ |- *. eauto. }
  constructor; cbn; eauto. split; cbn; [by apply filter_nodup|by apply HF].
Qed.

Lemma step_good h h' : step h h' -> good h -> good h'.
Proof.
  intros Hs Hg. destruct Hs as [h id|h m code at_ w' E|h k code c w' E|h k code c at_ w' Hk E|h k code c at_ e w' Hk E|h k c ip ua r w' Hk E|h|h w' E].
  - apply narrowed; [|intros c _; destruct (_ && _) eqn:Ec; [|done]|done].
    + intros c. destruct (_ && _); cbn; split_and!; eauto.
    + apply andb_prop in Ec as [_ Ec]. apply andb_prop in Ec as [_ Ec]. cbn. lia.
  - by eapply issue_new_good.
  - by eapply find_good.
  - by eapply consume_good.
  - apply (good_clients {| hi_world := w'; hi_clients := hi_clients h; hi_issues := hi_issues h; hi_wins := hi_wins h |}).
    + unfold claim_consume, bind in E. pose proof (consume_narrowed h c Hg) as Hn.
      destruct (consume_run c (hi_world h)) as (b & Eb & _). rewrite Eb in E, Hn. destruct b; [done|]. unfold raise in E. by simplify_eq.
    + intros k' code' c' at' Hk'. apply lookup_delete_Some in Hk' as [_ Hk']. eauto.
  - apply (good_clients {| hi_world := w'; hi_clients := hi_clients h; hi_issues := hi_issues h; hi_wins := hi_wins h |}).
    + apply moved; [done|]. pose proof (claim_pair_elsewhere c ip ua (hi_world h)) as H. by rewrite E in H.
    + intros k' code' c' at' Hk'. apply lookup_delete_Some in Hk' as [_ Hk']. eauto.
  - by apply cleanup_good.
  - by apply moved.
Qed.

Lemma reaches_good h : reaches h -> good h.
Proof.
  induction 1 as [w Hw|h h' _ IH Hs]; [|by eapply step_good].
  constructor; cbn; rewrite ?Hw; try done; try (by constructor).
  - split; rewrite Hw; constructor.
  - intros c x Hc. by apply elem_of_nil in Hc.
Qed.

(** C35: whatever requests run in between, a pairing code lets one claim through.  The
    claim that consumed it presented a code that hashes to the one handed out for that
    monitor, less than 60 seconds before the claim looked it up. *)
Theorem pairing_code_one_time h : reaches h ->
  NoDup (wn_row <$> hi_wins h) /\
  (forall x, x ∈ hi_wins h -> exists i, i ∈ hi_issues h /\ is_row i = wn_row x /\ is_monitor i = wn_monitor x /\
     hash_code (is_code i) = hash_code (wn_code x) /\ is_at i <= wn_found x < is_at i + PAIRING_CODE_TTL_S * SEC).
Proof.
  intros H. apply reaches_good in H as Hg. split; [apply (gd_wins _ Hg)|].
  intros x Hx. pose proof (gd_won _ Hg) as Hw. rewrite Forall_forall in Hw. by apply Hw.
Qed.

(** ** One pairing, start to end *)

(** primary keys are the map's keys, uuids are unique *)
Definition monitors_ok (w : World) : Prop :=
  (forall id m, w_monitors w !! id = Some m -> mo_id m = id) /\
  (forall id id' m m', w_monitors w !! id = Some m -> w_monitors w !! id' = Some m' -> mo_uuid m = mo_uuid m' -> id = id').

Lemma require_inr uuid w m w' : require uuid w = (inr m, w') ->
  w' = w /\ mo_uuid m = uuid /\ mo_deleted_at m = None /\ exists k, w_monitors (pw_token w) !! k = Some m.
Proof.
  unfold require, with_token, monitor_get_by_uuid, gets, bind, ret, raise. cbn. destruct (find_row _ _) as [m0|] eqn:E; [|done]. intros H. simplify_eq.
  apply find_row_Some in E as [Ht [k Hk]]. apply andb_prop in Ht as [H1 H2]. apply bool_decide_eq_true_1 in H1, H2.
  split_and!; [by destruct w|done|done|eauto].
Qed.

Lemma six_digits_code n : isdigit (six_digits n) && (String.length (six_digits n) =? 6)%nat = true.
Proof.
  assert (Hd : forall x, is_digit (digit_char (x mod 10)) = true).
  { intros x. assert (Hx : 0 <= x mod 10 < 10) by (apply Z.mod_pos_bound; lia). unfold digit_char.
    remember (Z.to_nat (x mod 10)) as k. assert (Hk : (k < 10)%nat) by lia. do 10 (destruct k; [reflexivity|]). lia. }
  unfold six_digits, isdigit. cbn [foldr all_digits]. rewrite !Hd. cbn. reflexivity.
Qed.

Lemma filter_none {A} (f : A -> bool) (l : list A) : (forall x, x ∈ l -> f x = false) -> List.filter f l = [].
Proof.
  induction l as [|a l IH]; intros H; [done|]. cbn. rewrite (H a) by (by left). apply IH. intros x Hx. apply H. by right.
Qed.

Definition at_time (t : Z) (w : PairWorld) : PairWorld := set_token (advance t (pw_token w)) w.

Definition new_code (m : Monitor) (code : string) (w : PairWorld) : PairingCode :=
  {| pc_id := pw_next w; pc_monitor_id := mo_id m; pc_code_hash := hash_code code;
     pc_expires_at := pw_now w + PAIRING_CODE_TTL_S * SEC; pc_attempts := 0; pc_max_attempts := 5; pc_consumed_at := None;
     pc_created_at := pw_now w |}.

(** the older codes after an issue for [m] *)
Definition older_codes (m : Monitor) (w : PairWorld) : list PairingCode :=
  (fun c => if (pc_monitor_id c =? mo_id m) && code_active (pw_now w) c then pc_expire (pw_now w) c else c) <$> pw_codes w.

Lemma pair_code_inr uuid w code exp w1 : pair_code hash_code draw uuid w = (inr (code, exp), w1) ->
  exists m, find_row (fun m => bool_decide (mo_uuid m = uuid) && bool_decide (mo_deleted_at m = None)) (w_monitors (pw_token w)) = Some m /\
    code = six_digits (draw (pw_draws w)) /\ exp = pw_now w + PAIRING_CODE_TTL_S * SEC /\
    w1 = {| pw_token := set_monitors (<[mo_id m := mo_with_status STATUS_PENDING m]> (w_monitors (pw_token w))) (pw_token w);
            pw_codes := older_codes m w ++ [new_code m code w]; pw_next := pw_next w + 1; pw_draws := S (pw_draws w) |}.
Proof.
  unfold pair_code, require, with_token, monitor_get_by_uuid, gets, bind. cbn. destruct (find_row _ _) as [m|] eqn:E; [|done].
  cbn. intros H. injection H as <- <- <-. exists m. split_and!; reflexivity.
Qed.

Lemma older_dead m w c t : c ∈ older_codes m w -> pw_now w <= t ->
  pc_consumed_at c = None -> t < pc_expires_at c -> pc_monitor_id c <> mo_id m /\ c ∈ pw_codes w /\ code_active (pw_now w) c = true.
Proof.
  intros Hc Ht H1 H2. apply list_elem_of_fmap_1 in Hc as (c0 & -> & Hc). destruct (Z.eqb_spec (pc_monitor_id c0) (mo_id m)) as [E|E]; cbn in *.
  - destruct (code_active (pw_now w) c0) eqn:Ea; cbn in *; [lia|]. unfold code_active in Ea. rewrite bool_decide_eq_true_2 in Ea by done. cbn in Ea. lia.
  - split_and!; [done|done|]. unfold code_active. rewrite bool_decide_eq_true_2 by done. cbn. lia.
Qed.

Lemma older_ids m w code : codes_ok w -> NoDup (pc_id <$> older_codes m w ++ [new_code m code w]).
Proof.
  intros [Hn Hlt]. rewrite fmap_app. apply NoDup_app. split.
  - unfold older_codes. rewrite <- list_fmap_compose. erewrite list_fmap_ext; [exact Hn|]. intros i c _. cbn. by destruct (_ && _).
  - split; [|repeat constructor; set_solver]. intros x Hx Hx'. apply list_elem_of_singleton in Hx' as ->.
    apply list_elem_of_fmap_1 in Hx as (c & Hc & Hin). apply list_elem_of_fmap_1 in Hin as (c0 & -> & Hin).
    rewrite Forall_forall in Hlt. specialize (Hlt c0 Hin). destruct (_ && _); cbn in Hc; lia.
Qed.

(** a code alone among the live ones with its hash is found *)
Lemma claim_find_new code w l c : isdigit code && (String.length code =? 6)%nat = true ->
  pw_codes w = l ++ [c] -> pc_code_hash c = hash_code code -> code_active (pw_now w) c = true -> pc_attempts c < pc_max_attempts c ->
  (forall x, x ∈ l -> pc_code_hash x = hash_code code -> code_active (pw_now w) x = false) ->
  claim_find hash_code code w = (inr c, w).
Proof.
  intros Hd Hl Hh Ha Hm Hx. unfold claim_find. rewrite Hd. cbn [negb]. unfold bind, gets, find_active. rewrite Hl, List.filter_app.
  rewrite filter_none by (intros x Hin; case_bool_decide; [by apply Hx|done]).
  cbn [List.filter app]. rewrite Ha, bool_decide_eq_true_2 by done. cbn.
  destruct (Z.leb_spec (pc_max_attempts c) (pc_attempts c)); [lia|done].
Qed.

Lemma claim_find_dead code w : (forall x, x ∈ pw_codes w -> pc_code_hash x = hash_code code -> code_active (pw_now w) x = false) ->
  claim_find hash_code code w = (inl invalid_or_expired, w).
Proof. intros H. unfold claim_find. destruct (negb _); [done|]. unfold bind, gets. by rewrite find_active_none. Qed.

Lemma consume_fresh c w : NoDup (pc_id <$> pw_codes w) -> c ∈ pw_codes w -> pc_consumed_at c = None ->
  claim_consume c w = (inr tt, set_codes
    ((fun y => if (pc_id y =? pc_id c) && bool_decide (pc_consumed_at y = None) then pc_consume (pw_now w) y else y) <$> pw_codes w) w).
Proof.
  intros Hn Hin Hc. destruct (consume_run c w) as (b & E & Hb). unfold claim_consume, bind. rewrite E.
  rewrite (proj2 Hb); [done|]. eapply (count_on_one pc_id); [done|exact Hin|by rewrite Z.eqb_refl, bool_decide_eq_true_2|].
  intros y _ Hy. apply andb_prop in Hy as [Hy _]. by apply Z.eqb_eq.
Qed.

(** what [issue_monitor_pair] gives to a monitor *)
Definition monitor_pair (m : Monitor) (w : World) : MonitorPair :=
  let scope := (mo_uuid m, [default "" (mo_dashboard_uuid m)])%string in
  {| mp_access_token := jwt_encode (monitor_claims m "access" (uuid_hex (w_uuids w)) (w_now w) JWT_ACCESS_TTL None (Some scope));
     mp_refresh_token := jwt_encode (monitor_claims m "refresh" (uuid_hex (S (w_uuids w))) (w_now w) MONITOR_REFRESH_TTL_S
                           (Some (uuid_hex (S (S (w_uuids w))))) None);
     mp_expires_in := JWT_ACCESS_TTL; mp_family_id := uuid_hex (S (S (w_uuids w))); mp_scope := scope |}.

Lemma claim_pair_run c ip ua w m : monitor_get_by_id (pc_monitor_id c) (pw_token w) = Some m -> mo_enabled m = true ->
  let m1 := mo_paired (pw_now w) ip ua m in
  exists t', claim_pair c ip ua w = (inr (m1, monitor_pair m1 (pw_token w)), set_token t' w) /\
    w_monitors t' = <[mo_id m := m1]> (w_monitors (pw_token w)) /\ w_redis t' = w_redis (pw_token w) /\ w_now t' = pw_now w.
Proof. intros Hm He. unfold claim_pair, bind, gets. rewrite Hm, He. eexists. split_and!; reflexivity. Qed.

Lemma monitor_token_verifies m jti now scope w k :
  w_monitors w !! k = Some m -> (forall k' m', w_monitors w !! k' = Some m' -> mo_uuid m' = mo_uuid m -> k' = k) ->
  mo_deleted_at m = None -> mo_enabled m = true -> now <= w_now w -> epoch (w_now w) < epoch now + JWT_ACCESS_TTL ->
  r_up (w_redis w) = true -> r_lookup (w_now w) (DENYLIST_PREFIX +:+ jti) (w_redis w) = None ->
  let c := monitor_claims m "access" jti now JWT_ACCESS_TTL None scope in
  verify_monitor_access (jwt_encode c) w = (inr (m, c), w).
Proof.
  intros Hk Hu Hd He Hn Hx Hr Hden c. unfold verify_monitor_access.
  assert (Hdec : jwt_decode (epoch (w_now w)) (jwt_encode c) = JwtOk c).
  { apply jwt_round_trip; [done|]. split; [by apply epoch_mono|]. unfold c, monitor_claims. cbn [c_exp]. by rewrite epoch_add_sec. }
  rewrite (bind_run _ _ _ _ _ (decode_ok _ "access" _ _ Hdec eq_refl)).
  unfold check_aud, is_denylisted, redis_exists, r_exists, live_monitor, monitor_get_by_uuid, bind, gets. cbn [c_aud c_jti c_sub c c_mv monitor_claims].
  rewrite (bool_decide_eq_true_2 (Some "monitor"%string = _)) by done. cbn.
  rewrite Hr, Hden. cbn. rewrite (find_row_unique _ _ k m Hk).
  - rewrite He, Hd. cbn. by rewrite bool_decide_eq_true_2.
  - by rewrite Hd, !bool_decide_eq_true_2.
  - intros k' m' Hk' Ht. apply andb_prop in Ht as [Ht _]. apply bool_decide_eq_true_1 in Ht. pose proof (Hu k' m' Hk' Ht). congruence.
Qed.

(** the same monitor with another status and login data keeps uuids apart *)
Lemma monitors_ok_update m m' w : monitors_ok w -> w_monitors w !! mo_id m = Some m -> mo_uuid m' = mo_uuid m ->
  forall k x, <[mo_id m := m']> (w_monitors w) !! k = Some x -> mo_uuid x = mo_uuid m' -> k = mo_id m.
Proof.
  intros [_ Hu] Hm E k x Hk Hx. destruct (decide (k = mo_id m)) as [|Hne]; [done|].
  rewrite lookup_insert_ne in Hk by done. apply (Hu k (mo_id m) x m); congruence.
Qed.

(** A code that is handed out pairs its monitor.  It is the only live code of that
    monitor; presented within 60 seconds it is accepted, the monitor is paired, its
    access token is good for the monitor until it expires, and the same code is
    refused from then on. *)
Theorem pairing_code_lets_in uuid w code exp w1 t ip ua :
  codes_ok w -> monitors_ok (pw_token w) ->
  (forall m, m ∈ (snd <$> map_to_list (w_monitors (pw_token w))) -> mo_uuid m = uuid -> mo_enabled m = true) ->
  pair_code hash_code draw uuid w = (inr (code, exp), w1) ->
  (forall c, c ∈ pw_codes w -> code_active (pw_now w) c = true -> pc_code_hash c <> hash_code code) ->
  pw_now w <= t < exp ->
  exists m pair w2,
    claim hash_code code ip ua (at_time t w1) = (inr (m, pair), w2) /\ mo_uuid m = uuid /\ mo_status m = STATUS_PAIRED /\
    (forall c, c ∈ pw_codes w1 -> pc_monitor_id c = mo_id m -> code_active (pw_now w1) c = true -> pc_id c = pw_next w) /\
    (forall ip' ua', claim hash_code code ip' ua' w2 = (inl invalid_or_expired, w2)) /\
    (forall t', t <= t' -> epoch t' < epoch t + JWT_ACCESS_TTL -> r_up (w_redis (pw_token w)) = true ->
       r_lookup t' (DENYLIST_PREFIX +:+ uuid_hex (w_uuids (pw_token w))) (w_redis (pw_token w)) = None ->
       exists c, verify_monitor_access (mp_access_token pair) (advance t' (pw_token w2)) = (inr (m, c), advance t' (pw_token w2))).
Proof.
  intros Hok Hmon Hen Hp Hfresh Ht. apply pair_code_inr in Hp as (m & Hm & -> & -> & ->).
  apply find_row_Some in Hm as [Ht0 [k Hk]]. apply andb_prop in Ht0 as [Hu Hdel]. apply bool_decide_eq_true_1 in Hu, Hdel.
  assert (Hmid := proj1 Hmon k m Hk). subst k.
  assert (He : mo_enabled m = true) by (apply Hen; [apply list_elem_of_fmap; exists (mo_id m, m); split; [done|by apply elem_of_map_to_list]|done]).
  set (code := six_digits _) in *. set (nc := new_code m code w). set (mp := mo_with_status STATUS_PENDING m). set (w1 := at_time t _).
  assert (Hdead : forall c, c ∈ older_codes m w -> pc_code_hash c = hash_code code -> code_active t c = false).
  { intros c Hc Hh. destruct (code_active t c) eqn:Ea; [|done]. apply andb_prop in Ea as [E1 E2]. apply bool_decide_eq_true_1 in E1.
    destruct (older_dead m w c t Hc ltac:(lia) E1 ltac:(lia)) as (_ & Hin & Hact). by apply list_elem_of_fmap_1 in Hc as _; destruct (Hfresh c Hin Hact). }
  assert (Hfind : claim_find hash_code code w1 = (inr nc, w1)).
  { eapply (claim_find_new code w1 (older_codes m w)); try done; [apply six_digits_code|]. change (pw_now w1) with t. unfold code_active. rewrite bool_decide_eq_true_2 by done. apply Z.ltb_lt. cbn. lia. }
  assert (Hin : nc ∈ pw_codes w1) by (apply elem_of_app; right; by left).
  pose proof (consume_fresh nc w1 (older_ids m w code Hok) Hin eq_refl) as Hcons. set (w2 := set_codes _ w1) in Hcons.
  destruct (claim_pair_run nc ip ua w2 mp) as (t' & Hpair & Et1 & Et2 & Et3).
  { unfold monitor_get_by_id. cbn. rewrite lookup_insert_eq. by rewrite bool_decide_eq_true_2. }
  { done. }
  eexists _, _, _. split; [unfold claim, bind; rewrite Hfind, Hcons; exact Hpair|].
  split; [exact Hu|]. split; [done|]. split_and!.
  - intros c Hc Hcm Ha. cbn in Hc. apply elem_of_app in Hc as [Hc|Hc]; [|by apply list_elem_of_singleton in Hc as ->].
    apply andb_prop in Ha as [E1 E2]. apply bool_decide_eq_true_1 in E1.
    destruct (older_dead m w c (pw_now w) Hc ltac:(lia) E1) as (Hx & _); [unfold pw_now in *; cbn in E2; lia|done].
  - intros ip' ua'. unfold claim, bind. rewrite claim_find_dead; [done|]. intros x Hx Hh. cbn in Hx.
    apply list_elem_of_fmap_1 in Hx as (y & -> & Hy). destruct (Z.eqb_spec (pc_id y) (pw_next w)) as [Ey|Ey]; cbn in *.
    + unfold code_active. case_bool_decide as Hc; [done|]. by rewrite bool_decide_eq_false_2.
    + apply elem_of_app in Hy as [Hy|Hy]; [|apply list_elem_of_singleton in Hy as ->; done].
      rewrite <- Et3 in Hdead. by apply Hdead.
  - intros t'' Ht'' Hexp Hr Hden. eexists. apply (monitor_token_verifies _ _ _ _ _ (mo_id m)); cbn; try done.
    + rewrite Et1. apply lookup_insert_eq.
    + intros k' x Hk' Hx. rewrite Et1 in Hk'. cbn in Hk'. rewrite insert_insert_eq in Hk'. exact (monitors_ok_update m (mo_paired t ip ua mp) (pw_token w) Hmon Hk eq_refl k' x Hk' Hx).
    + by rewrite Et2.
    + by rewrite Et2.
Qed.
End PairingFacts.

(** ** Concrete runs *)

#[local] Existing Instance toy_jwt.

Definition demo_monitor (id : Z) (uuid : string) : Monitor :=
  {| mo_id := id; mo_uuid := uuid; mo_dashboard_uuid := Some "d1"; mo_status := STATUS_UNPAIRED; mo_token_version := Some 0;
     mo_paired_at := None; mo_last_ip := None; mo_user_agent := None; mo_enabled := true; mo_deleted_at := None |}.
Definition demo_pw : PairWorld :=
  {| pw_token := set_monitors {[ 5 := demo_monitor 5 "lobby"; 6 := demo_monitor 6 "gate" ]} demo_world;
     pw_codes := []; pw_next := 100; pw_draws := 0 |}.
Definition demo_hash (s : string) : string := String "#"%char s.
Definition demo_draw (n : nat) : Z := 4711.
Definition demo_coded : PairWorld := snd (pair_code demo_hash demo_draw "lobby" demo_pw).

Lemma demo_monitors_ok : monitors_ok (pw_token demo_pw).
Proof.
  assert (H : forall k m, w_monitors (pw_token demo_pw) !! k = Some m -> k = 5 /\ m = demo_monitor 5 "lobby" \/ k = 6 /\ m = demo_monitor 6 "gate").
  { intros k m Hm. cbn in Hm. rewrite lookup_insert_Some, lookup_singleton_Some in Hm. naive_solver. }
  split.
  - intros k m Hm. destruct (H k m Hm) as [[-> ->]|[-> ->]]; done.
  - intros k k' m m' Hm Hm' E. destruct (H k m Hm) as [[-> ->]|[-> ->]], (H k' m' Hm') as [[-> ->]|[-> ->]]; done.
Qed.

Lemma pairing_code_lets_in_witness :
  exists m pair w2, claim demo_hash "004711" None None (at_time (1059 * SEC) demo_coded) = (inr (m, pair), w2) /\ mo_uuid m = "lobby"%string.
Proof.
  destruct (pairing_code_lets_in demo_hash demo_draw "lobby" demo_pw "004711" (1060 * SEC) demo_coded (1059 * SEC) None None)
    as (m & pair & w2 & H1 & H2 & _).
  - split; constructor.
  - apply demo_monitors_ok.
  - intros m Hm _. vm_compute in Hm. apply elem_of_cons in Hm as [->|Hm]; [reflexivity|].
    apply elem_of_cons in Hm as [->|Hm]; [reflexivity|by apply elem_of_nil in Hm].
  - vm_compute. reflexivity.
  - intros c Hc. by apply elem_of_nil in Hc.
  - vm_compute. split; [discriminate|reflexivity].
  - by exists m, pair, w2.
Defined.

(** two clients look the same code up; the first to consume it wins *)
Definition demo_issued : PairWorld := snd (issue_new demo_hash demo_draw (demo_monitor 5 "lobby") demo_pw).
Definition demo_row : PairingCode := new_code demo_hash (demo_monitor 5 "lobby") "004711" demo_pw.
Definition demo_h1 : Hist :=
  {| hi_world := demo_issued; hi_clients := ∅; hi_issues := [{| is_row := 100; is_monitor := 5; is_code := "004711"; is_at := 1000 * SEC |}]; hi_wins := [] |}.
Definition demo_looked (k : nat) (h : Hist) : Hist :=
  {| hi_world := hi_world h; hi_clients := <[k := Found "004711" demo_row (pw_now (hi_world h))]> (hi_clients h); hi_issues := hi_issues h; hi_wins := hi_wins h |}.
Definition demo_race : Hist :=
  {| hi_world := snd (claim_consume demo_row demo_issued);
     hi_clients := <[1%nat := Won demo_row]> (hi_clients (demo_looked 2 (demo_looked 1 demo_h1)));
     hi_issues := hi_issues demo_h1;
     hi_wins := [{| wn_row := 100; wn_monitor := 5; wn_code := "004711"; wn_found := pw_now demo_issued |}] |}.

Lemma pairing_code_one_time_witness :
  NoDup (wn_row <$> hi_wins demo_race) /\ exists e w', claim_consume demo_row (hi_world demo_race) = (inl e, w').
Proof.
  split; [|eexists _, _; vm_compute; reflexivity].
  apply (pairing_code_one_time demo_hash demo_draw).
  refine (re_step _ _ (demo_looked 2 (demo_looked 1 demo_h1)) demo_race (re_step _ _ (demo_looked 1 demo_h1) _ (re_step _ _ demo_h1 _ (re_step _ _
    {| hi_world := demo_pw; hi_clients := ∅; hi_issues := []; hi_wins := [] |} demo_h1 (re_start _ _ demo_pw eq_refl) _) _) _) _).
  - exact (st_issue demo_hash demo_draw {| hi_world := demo_pw; hi_clients := ∅; hi_issues := []; hi_wins := [] |} (demo_monitor 5 "lobby")
             "004711" (1060 * SEC) demo_issued ltac:(vm_compute; reflexivity)).
  - exact (st_find demo_hash demo_draw demo_h1 1 "004711" demo_row demo_issued ltac:(vm_compute; reflexivity)).
  - exact (st_find demo_hash demo_draw (demo_looked 1 demo_h1) 2 "004711" demo_row demo_issued ltac:(vm_compute; reflexivity)).
  - exact (st_consume demo_hash demo_draw (demo_looked 2 (demo_looked 1 demo_h1)) 1 "004711" demo_row (pw_now demo_issued)
             (snd (claim_consume demo_row demo_issued)) ltac:(vm_compute; reflexivity) ltac:(vm_compute; reflexivity)).
Defined.

(** Revoking a monitor ends its tokens but not a code handed out before: the code
    pairs the revoked monitor again. *)
Example revoked_monitor_pairs_again :
  let w := snd (monitor_revoke "lobby" demo_coded) in
  match claim demo_hash "004711" None None w with
  | (inr (m, _), _) => mo_uuid m = "lobby"%string /\ mo_status m = STATUS_PAIRED
  | (inl _, _) => False
  end.
Proof. vm_compute. split; reflexivity. Qed.

(** The code alone selects the row: while two monitors hold the same six digits, the
    one asked first is handed the other's session. *)
Example equal_codes_pair_the_newer_monitor :
  let w := snd (pair_code demo_hash demo_draw "gate" (at_time (1010 * SEC) demo_coded)) in
  match claim demo_hash "004711" None None w with
  | (inr (m, _), _) => mo_uuid m = "gate"%string
  | (inl _, _) => False
  end.
Proof. vm_compute. reflexivity. Qed.
