(* ===== verification/Accounts.v ===== *)
(** * Accounts (src/server/controller/auth.py, user.py, role.py, model/user.py, model/audit_log.py)

    Login with brute-force lock-out, refresh, logout, password change, and the
    administration of users and roles with its escalation and last-admin guards.
    Argon2 is a parameter.  Presentation columns (name, email, phone, language,
    display_name, description) are not kept. *)

From S2P Require Import Prelude PyStr Redis Permission Token Sessions.
From stdpp Require Import pretty.
Local Open Scope Z_scope.

(** [PasswordHasher]: [ph_hash n] hashes with the n-th salt. *)
Class Argon2 := {
  ph_hash : nat -> string -> string;
  ph_verify : string -> string -> bool;
  ph_verify_hash : forall n raw, ph_verify (ph_hash n raw) raw = true
}.

(** ** Row operations (model/user.py, model/role.py, model/audit_log.py) *)

(** [AuditLog.record] *)
Definition audit_record (action : string) (target : option string) (user_id : option Z)
    (ip user_agent : option string) (detail : list (string * string)) : T unit :=
  modify (fun w => set_audit (w_audit w ++ [{|
    al_action := action; al_target := target; al_user_id := user_id; al_ip := ip;
    al_user_agent := (let s := stake 255 (or_str user_agent "") in
                      if bool_decide (s = EmptyString) then None else Some s);
    al_detail := detail; al_created_at := w_now w |}]) w).

Definition set_login (failed : Z) (locked_until last_login : option Z) (u : User) : User :=
  {| u_id := u_id u; u_uuid := u_uuid u; u_login_id := u_login_id u; u_password := u_password u;
     u_role_id := u_role_id u; u_permissions := u_permissions u; u_is_active := u_is_active u;
     u_failed_login_count := Some failed; u_locked_until := locked_until; u_last_login_at := last_login;
     u_token_version := u_token_version u; u_deleted_at := u_deleted_at u |}.

Definition with_password (hash : string) (u : User) : User :=
  {| u_id := u_id u; u_uuid := u_uuid u; u_login_id := u_login_id u; u_password := hash;
     u_role_id := u_role_id u; u_permissions := u_permissions u; u_is_active := u_is_active u;
     u_failed_login_count := u_failed_login_count u; u_locked_until := u_locked_until u;
     u_last_login_at := u_last_login_at u; u_token_version := u_token_version u;
     u_deleted_at := u_deleted_at u |}.

Definition with_access (role_id : Z) (permissions : perms) (is_active : bool) (deleted_at : option Z)
    (u : User) : User :=
  {| u_id := u_id u; u_uuid := u_uuid u; u_login_id := u_login_id u; u_password := u_password u;
     u_role_id := role_id; u_permissions := permissions; u_is_active := is_active;
     u_failed_login_count := u_failed_login_count u; u_locked_until := u_locked_until u;
     u_last_login_at := u_last_login_at u; u_token_version := u_token_version u;
     u_deleted_at := deleted_at |}.

Definition is_locked (now : Z) (u : User) : bool :=
  match u_locked_until u with Some t => now <? t | None => false end.

(** The new row and whether it is now locked. *)
Definition register_failed_login (now max_failed lock_minutes : Z) (u : User) : User * bool :=
  let count := or_Z (u_failed_login_count u) 0 + 1 in
  if max_failed <=? count
  then (set_login 0 (Some (now + lock_minutes * 60 * SEC)) (u_last_login_at u) u, true)
  else (set_login count (u_locked_until u) (u_last_login_at u) u, false).

Definition register_successful_login (now : Z) (u : User) : User := set_login 0 None (Some now) u.

Definition unlock_row (u : User) : User := set_login 0 None (u_last_login_at u) u.

Definition is_live (u : User) : bool := bool_decide (u_deleted_at u = None).

Definition find_user (test : User -> bool) (w : World) : option User :=
  find_row (fun u => test u && is_live u) (w_users w).

Definition get_by_login_id (login_id : string) (w : World) : option User :=
  find_user (fun u => bool_decide (u_login_id u = login_id)) w.

Definition user_get_by_uuid (uuid : string) : T User :=
  let! u := gets (find_user (fun u => bool_decide (u_uuid u = uuid))) in
  match u with Some u => ret u | None => raise RowNotFoundException end.

Definition role_get_by_name (name : string) (w : World) : option Role :=
  find_row (fun r => bool_decide (ro_name r = name) && bool_decide (ro_deleted_at r = None)) (w_roles w).

Definition role_get_by_id (id : Z) : T Role :=
  let! r := gets (fun w => w_roles w !! id) in
  match r with
  | Some r => if bool_decide (ro_deleted_at r = None) then ret r else raise RowNotFoundException
  | None => raise RowNotFoundException
  end.

Definition put_role (r : Role) : T unit :=
  modify (fun w => set_roles (<[ro_id r := r]> (w_roles w)) w).

(** ** Authentication (controller/auth.py) *)

Section AuthController.
Context {J : JwtLib} {A : Argon2}.

(** [not s or not s.strip()] *)
Definition blank (s : option string) : bool :=
  match s with Some t => bool_decide (strip t = EmptyString) | None => true end.

Definition login (login_id password : option string) (ip user_agent : option string) : T (Pair * User) :=
  if blank login_id || blank password then raise (AuthenticationException "invalid_credentials") else
  let login := strip (default "" login_id) in
  let! user := gets (get_by_login_id login) in
  match user with
  | None =>
      audit_record "login_failed" (Some login) None ip user_agent [("reason", "unknown_login_id")] ;;;
      raise (AuthenticationException "invalid_credentials")
  | Some user =>
      let! now := gets w_now in
      if is_locked now user then
        audit_record "login_failed" (Some login) (Some (u_id user)) ip user_agent [("reason", "locked")] ;;;
        raise (AccountLockedException "account_locked")
      else if negb (ph_verify (u_password user) (default "" password)) then
        let (row, locked) := register_failed_login now LOGIN_MAX_FAILED LOGIN_LOCK_MINUTES user in
        put_user row ;;;
        audit_record "login_failed" (Some login) (Some (u_id user)) ip user_agent [("reason", "bad_password")] ;;;
        if locked then
          audit_record "account_locked" (Some login) (Some (u_id user)) ip user_agent [] ;;;
          raise (AccountLockedException "account_locked")
        else raise (AuthenticationException "invalid_credentials")
      else if negb (u_is_active user) then raise (AuthenticationException "inactive_user")
      else
        let row := register_successful_login now user in
        put_user row ;;;
        let! bundle := issue_pair row "web" user_agent ip None in
        audit_record "login_success" (Some login) (Some (u_id user)) ip user_agent [] ;;;
        ret (bundle, row)
  end.

Definition refresh (refresh_token : option string) (ip user_agent : option string) : T (Pair * User) :=
  if negb (truthy_str refresh_token) then raise (AuthenticationException "invalid_refresh") else
  let! r := rotate_refresh (default "" refresh_token) user_agent ip in
  audit_record "token_refresh" (Some (u_login_id (snd r))) (Some (u_id (snd r))) ip user_agent [] ;;;
  ret r.

Definition logout (access_claims : option Claims) (refresh_jti : option string) (user : option User)
    (ip user_agent : option string) : T unit :=
  revoke_pair access_claims refresh_jti ;;;
  match user with
  | Some u => audit_record "logout" (Some (u_login_id u)) (Some (u_id u)) ip user_agent []
  | None => ret tt
  end.

(** A fresh salt: the hasher draws from the same source of randomness. *)
Definition fresh_salt : T nat :=
  fun w => (inr (w_uuids w), snd (fresh_hex w)).

(** [user.set_password(raw)] and the commit that follows it *)
Definition save_password (user : User) (raw : string) : T User :=
  let! salt := fresh_salt in
  let row := with_password (ph_hash salt raw) user in
  put_user row ;;;
  ret row.

Definition change_password (user : User) (previous_password new_password : option string) : T unit :=
  if negb (truthy_str previous_password) || negb (truthy_str new_password)
  then raise (InvalidParameterException "password_required") else
  if negb (ph_verify (u_password user) (default "" previous_password))
  then raise (InvalidParameterException "previous_password_wrong") else
  if (String.length (default "" new_password) <? 8)%nat
  then raise (InvalidParameterException "password_too_short") else
  let! row := save_password user (default "" new_password) in
  revoke_all row ;;;
  audit_record "password_changed" (Some (u_login_id user)) (Some (u_id user)) None None [].
End AuthController.

(** ** User administration (controller/user.py) *)

(** A JSON boolean field of a request body: absent or null, a boolean, or any
    other value with its truthiness. *)
Inductive json_flag := FAbsent | FBool (b : bool) | FOther (truthy : bool).

(** [data.get(k) is False] *)
Definition is_False (f : json_flag) : bool := match f with FBool false => true | _ => false end.

(** [if v is not None: self.is_active = bool(v)] *)
Definition apply_flag (f : json_flag) (old : bool) : bool :=
  match f with FAbsent => old | FBool b => b | FOther t => t end.

(** The request body, the fields the access logic reads. *)
Record UserData := {
  d_login_id : option string; d_password : option string; d_name : option string;
  d_role : option string; d_permissions : option perms; d_is_active : json_flag
}.

Definition subject_of (u : User) (w : World) : subject :=
  {| s_role := ro_permissions <$> role_of u w; s_user := u_permissions u |}.

Section UserController.
Context {J : JwtLib} {A : Argon2}.

Definition resolve_role (role_name : option string) : T Role :=
  let! r := gets (role_get_by_name (strip (or_str role_name "user"))) in
  match r with Some r => ret r | None => raise (InvalidParameterException "unknown_role") end.

(** [_guard_target]: a non-superuser must not manage a superuser. *)
Definition guard_target (actor target : User) : T unit :=
  let! sa := gets (subject_of actor) in
  let! st := gets (subject_of target) in
  if u_id actor =? u_id target then ret tt
  else if negb (is_superuser (Some sa)) && is_superuser (Some st) then raise NoPermissionException
  else ret tt.

(** [_guard_grant] *)
Definition check_grant (actor : User) (role : option Role) (permissions : option perms) : T unit :=
  let! sa := gets (subject_of actor) in
  if guard_grant sa (ro_permissions <$> role) permissions then ret tt else raise NoPermissionException.

Definition counts_as_admin (admin_id : Z) (u : User) : bool :=
  (u_role_id u =? admin_id) && u_is_active u && is_live u.

Definition active_admin_count (w : World) : Z :=
  match role_get_by_name "admin" w with
  | None => 0
  | Some admin => Z.of_nat (size (filter (fun kv => counts_as_admin (ro_id admin) (snd kv) = true) (w_users w)))
  end.

Definition is_admin_row (u : User) (w : World) : bool :=
  match role_of u w with Some r => bool_decide (ro_name r = "admin") | None => false end.

(** [User.create] under a new Snowflake id; the unique index on [login_id]
    also sees soft-deleted rows. *)
Definition user_create (new_id : Z) (login_id password : string) (role_id : Z) (permissions : perms) : T User :=
  let! clash := gets (fun w => find_row (fun u => bool_decide (u_login_id u = login_id)) (w_users w)) in
  match clash with
  | Some _ => raise IntegrityError
  | None =>
      let! uuid := fresh_hex in
      let! salt := fresh_salt in
      let row := {| u_id := new_id; u_uuid := uuid; u_login_id := login_id; u_password := ph_hash salt password;
                    u_role_id := role_id; u_permissions := permissions; u_is_active := true;
                    u_failed_login_count := Some 0; u_locked_until := None; u_last_login_at := None;
                    u_token_version := Some 0; u_deleted_at := None |} in
      put_user row ;;;
      ret row
  end.

Definition create_user (new_id : Z) (data : UserData) (actor : User) : T User :=
  let login_id := strip (or_str (d_login_id data) "") in
  let password := or_str (d_password data) "" in
  let name := strip (or_str (d_name data) "") in
  if bool_decide (login_id = EmptyString) || bool_decide (password = EmptyString)
     || bool_decide (name = EmptyString)
  then raise (InvalidParameterException "login_id, password, name required") else
  if (String.length password <? 8)%nat then raise (InvalidParameterException "password_too_short") else
  let! taken := gets (get_by_login_id login_id) in
  match taken with
  | Some _ => raise (ConflictException "login_id_exists")
  | None =>
      let! role := resolve_role (d_role data) in
      check_grant actor (Some role) (d_permissions data) ;;;
      let! user := user_create new_id login_id password (ro_id role) (default ∅ (d_permissions data)) in
      audit_record "user_created" (Some (u_uuid user)) (Some (u_id actor)) None None
        [("login_id", login_id); ("role", ro_name role)] ;;;
      ret user
  end.

Definition update_user (user_uuid : string) (data : UserData) (actor : User) : T User :=
  let! user := user_get_by_uuid user_uuid in
  guard_target actor user ;;;
  let! role := (if truthy_str (d_role data) then let! r := resolve_role (d_role data) in ret (Some r)
                else ret None) in
  let role_id := ro_id <$> role in
  when (bool_decide (is_Some role) || bool_decide (is_Some (d_permissions data)))
    (check_grant actor role (d_permissions data)) ;;;
  let! admin_row := gets (is_admin_row user) in
  let! admins := gets active_admin_count in
  let losing_admin := match role_id with Some id => negb (id =? u_role_id user) | None => false end
                      || is_False (d_is_active data) in
  if admin_row && losing_admin && (admins <=? 1)
  then raise (InvalidParameterException "last_admin") else
  let row := with_access (default (u_role_id user) role_id)
               (default (u_permissions user) (d_permissions data))
               (apply_flag (d_is_active data) (u_is_active user)) (u_deleted_at user) user in
  put_user row ;;;
  audit_record "user_updated" (Some (u_uuid user)) (Some (u_id actor)) None None [] ;;;
  ret row.

Definition delete_user (user_uuid : string) (actor : User) : T unit :=
  let! user := user_get_by_uuid user_uuid in
  guard_target actor user ;;;
  if u_id user =? u_id actor then raise (InvalidParameterException "own_account") else
  let! admin_row := gets (is_admin_row user) in
  let! admins := gets active_admin_count in
  if admin_row && (admins <=? 1) then raise (InvalidParameterException "last_admin") else
  let! now := gets w_now in
  let row := with_access (u_role_id user) (u_permissions user) (u_is_active user) (Some now) user in
  put_user row ;;;
  revoke_all row ;;;
  audit_record "user_deleted" (Some (u_uuid user)) (Some (u_id actor)) None None [].

Definition reset_password (user_uuid : string) (new_password : option string) (actor : User) : T unit :=
  if negb (truthy_str new_password) || (String.length (default "" new_password) <? 8)%nat
  then raise (InvalidParameterException "password_too_short") else
  let! user := user_get_by_uuid user_uuid in
  guard_target actor user ;;;
  let! row := save_password user (default "" new_password) in
  revoke_all row ;;;
  audit_record "user_updated" (Some (u_uuid user)) (Some (u_id actor)) None None [("action", "reset_password")].

Definition unlock_user (user_uuid : string) (actor : User) : T unit :=
  let! user := user_get_by_uuid user_uuid in
  put_user (unlock_row user) ;;;
  audit_record "user_updated" (Some (u_uuid user)) (Some (u_id actor)) None None [("action", "unlock")].
End UserController.

(** ** Role administration (controller/role.py) *)

Record RoleData := {
  rd_name : option string; rd_display_name : option string;
  rd_permissions : option (option perms)   (* None: key absent; Some None: null *)
}.

(** [_validate_permissions] against the catalogue rows [(resource, action)]. *)
Definition validate_permissions (catalog : list (string * string)) (permissions : perms) : bool :=
  forallb (fun '(resource, v) =>
      bool_decide (resource = "*") ||
      match v with
      | PActions actions =>
          bool_decide (resource ∈ map fst catalog) &&
          forallb (fun a => bool_decide (a = "*") || bool_decide ((resource, a) ∈ catalog)) actions
      | _ => false
      end)
    (map_to_list permissions).

Section RoleController.
Context (catalog : list (string * string)).

Definition checked_permissions (permissions : perms) : T perms :=
  if validate_permissions catalog permissions then ret permissions
  else raise (InvalidParameterException "unknown_permission").

(** The unique index on [roles.name] also sees soft-deleted rows. *)
Definition save_role (r : Role) : T unit :=
  let! clash := gets (fun w => find_row
    (fun x => bool_decide (ro_name x = ro_name r) && negb (ro_id x =? ro_id r)) (w_roles w)) in
  match clash with Some _ => raise IntegrityError | None => put_role r end.

Definition role_create (new_id : Z) (data : RoleData) (actor : User) : T Role :=
  let name := strip (or_str (rd_name data) "") in
  let display := strip (or_str (rd_display_name data) "") in
  if bool_decide (name = EmptyString) || bool_decide (display = EmptyString)
  then raise (InvalidParameterException "name, display_name required") else
  let! taken := gets (role_get_by_name name) in
  match taken with
  | Some _ => raise (ConflictException "role_exists")
  | None =>
      let! permissions := checked_permissions (default ∅ (default None (rd_permissions data))) in
      let role := {| ro_id := new_id; ro_name := name; ro_permissions := permissions;
                     ro_is_system := false; ro_deleted_at := None |} in
      save_role role ;;;
      audit_record "role_updated" (Some name) (Some (u_id actor)) None None [("action", "create")] ;;;
      ret role
  end.

Definition role_update (role_id : Z) (data : RoleData) (actor : User) : T Role :=
  let! role := role_get_by_id role_id in
  let! name :=
    (if negb (ro_is_system role) && truthy_str (rd_name data) then
       let new_name := strip (default "" (rd_name data)) in
       let! taken := gets (role_get_by_name new_name) in
       if negb (bool_decide (new_name = ro_name role)) && bool_decide (is_Some taken)
       then raise (ConflictException "role_exists") else ret new_name
     else ret (ro_name role)) in
  let! permissions :=
    match rd_permissions data with
    | Some p => checked_permissions (default ∅ p)
    | None => ret (ro_permissions role)
    end in
  let row := {| ro_id := ro_id role; ro_name := name; ro_permissions := permissions;
                ro_is_system := ro_is_system role; ro_deleted_at := ro_deleted_at role |} in
  save_role row ;;;
  audit_record "role_updated" (Some name) (Some (u_id actor)) None None [] ;;;
  ret row.

Definition role_delete (role_id : Z) (actor : User) : T unit :=
  let! role := role_get_by_id role_id in
  if ro_is_system role then raise (InvalidParameterException "system_role") else
  let! in_use := gets (fun w => size (filter (fun kv =>
    ((u_role_id (snd kv) =? ro_id role) && is_live (snd kv)) = true) (w_users w))) in
  if (0 <? in_use)%nat then raise (ConflictException "role_in_use") else
  let! now := gets w_now in
  put_role {| ro_id := ro_id role; ro_name := ro_name role; ro_permissions := ro_permissions role;
              ro_is_system := ro_is_system role; ro_deleted_at := Some now |} ;;;
  audit_record "role_updated" (Some (ro_name role)) (Some (u_id actor)) None None [("action", "delete")].
End RoleController.

(** ** Refused requests change nothing *)

Section AtomicOps.
Context {J : JwtLib} {A : Argon2}.

Lemma user_get_by_uuid_readonly uuid : readonly (user_get_by_uuid uuid).
Proof. apply readonly_bind; [auto with axp|]. by intros [u|]. Qed.
Lemma role_get_by_id_readonly id : readonly (role_get_by_id id).
Proof. apply readonly_bind; [auto with axp|]. intros [r|]; [by case_bool_decide|done]. Qed.
Lemma resolve_role_readonly n : readonly (resolve_role n).
Proof. apply readonly_bind; [auto with axp|]. by intros [r|]. Qed.
Lemma guard_target_readonly a t : readonly (guard_target a t).
Proof. do 2 (apply readonly_bind; [auto with axp|intros ?]). repeat case_match; auto with axp. Qed.
Lemma check_grant_readonly a r p : readonly (check_grant a r p).
Proof. apply readonly_bind; [auto with axp|intros ?]. case_match; auto with axp. Qed.
Lemma checked_permissions_readonly c p : readonly (checked_permissions c p).
Proof. unfold checked_permissions. case_match; auto with axp. Qed.
Lemma audit_record_nofail a t u i g d : nofail (audit_record a t u i g d).
Proof. done. Qed.
Lemma revoke_all_nofail u : nofail (revoke_all u).
Proof. done. Qed.
Lemma put_user_nofail u : nofail (put_user u).
Proof. done. Qed.
Lemma save_password_nofail u r : nofail (save_password u r).
Proof. done. Qed.
Lemma user_create_atomic i l p r ps : atomic (user_create i l p r ps).
Proof.
  apply atomic_check; [auto with axp|]. intros [?|]; [by apply atomic_readonly|]. by apply atomic_nofail.
Qed.
Lemma save_role_atomic r : atomic (save_role r).
Proof. apply atomic_check; [auto with axp|]. intros [?|]; [by apply atomic_readonly|by apply atomic_nofail]. Qed.
End AtomicOps.

#[export] Hint Resolve user_get_by_uuid_readonly role_get_by_id_readonly resolve_role_readonly
  guard_target_readonly check_grant_readonly checked_permissions_readonly audit_record_nofail
  revoke_all_nofail put_user_nofail save_password_nofail user_create_atomic save_role_atomic : axp.

(** Walk down a handler: checks first, then the commit. *)
Ltac solve_atomic :=
  repeat first
    [ by eauto with axp
    | apply atomic_readonly; by auto with axp
    | apply atomic_nofail; by eauto with axp
    | apply atomic_check; [by eauto with axp|intros ?]
    | apply atomic_commit; [by eauto with axp|intros ?; by eauto with axp]
    | case_match ].

Section AccountAtomicity.
Context {J : JwtLib} {A : Argon2} (catalog : list (string * string)).

Lemma create_user_atomic id d actor : atomic (create_user id d actor).
Proof. unfold create_user. solve_atomic. Qed.
Lemma update_user_atomic uuid d actor : atomic (update_user uuid d actor).
Proof.
  unfold update_user.
  assert (forall o, readonly (if truthy_str o then let! r := resolve_role o in ret (Some r) else ret None))
    by (intros; case_match; eauto with axp).
  solve_atomic.
Qed.
Lemma delete_user_atomic uuid actor : atomic (delete_user uuid actor).
Proof. unfold delete_user. solve_atomic. Qed.
Lemma reset_password_atomic uuid p actor : atomic (reset_password uuid p actor).
Proof. unfold reset_password. solve_atomic. Qed.
Lemma unlock_user_atomic uuid actor : atomic (unlock_user uuid actor).
Proof. unfold unlock_user. solve_atomic. Qed.
Lemma role_create_atomic id d actor : atomic (role_create catalog id d actor).
Proof. unfold role_create. solve_atomic. Qed.
Lemma role_update_atomic id d actor : atomic (role_update catalog id d actor).
Proof.
  unfold role_update. apply atomic_check; [auto with axp|intros role]. apply atomic_check.
  { case_match; [|auto with axp]. apply readonly_bind; [auto with axp|intros ?]. case_match; auto with axp. }
  intros name. apply atomic_check; [case_match; auto with axp|intros ps]. solve_atomic.
Qed.
Lemma role_delete_atomic id actor : atomic (role_delete id actor).
Proof. unfold role_delete. solve_atomic. Qed.
End AccountAtomicity.

(** ** The administrator invariant *)

(** Tables are keyed by id, role names are unique, the seeded [admin] role is a
    live system role and somebody active holds it. *)
Record accounts_ok (w : World) : Prop := {
  ao_users : forall k u, w_users w !! k = Some u -> u_id u = k;
  ao_roles : forall k r, w_roles w !! k = Some r -> ro_id r = k;
  ao_names : forall k1 k2 r1 r2, w_roles w !! k1 = Some r1 -> w_roles w !! k2 = Some r2 ->
    ro_name r1 = ro_name r2 -> k1 = k2;
  ao_admin : exists a, w_roles w !! ro_id a = Some a /\ ro_name a = "admin" /\ ro_is_system a = true /\
    ro_deleted_at a = None;
  ao_count : 1 <= active_admin_count w
}.

Definition admins (a : Z) (users : gmap Z User) : gmap Z User :=
  filter (fun kv => counts_as_admin a (snd kv) = true) users.

Lemma ok_admin_found w a :
  accounts_ok w -> w_roles w !! ro_id a = Some a -> ro_name a = "admin" -> ro_deleted_at a = None ->
  role_get_by_name "admin" w = Some a.
Proof.
  intros HI Ha Hn Hd. eapply find_row_unique; [exact Ha|by rewrite Hn, Hd|].
  intros k' r' Hk' [Hn' _]%andb_prop. apply bool_decide_eq_true in Hn'.
  assert (k' = ro_id a) as -> by (eapply (ao_names _ HI); eauto; congruence). congruence.
Qed.

Lemma active_admin_count_admins w a :
  role_get_by_name "admin" w = Some a ->
  active_admin_count w = Z.of_nat (size (admins (ro_id a) (w_users w))).
Proof. unfold active_admin_count. by intros ->. Qed.

(** Writing one user row. *)
Lemma admins_insert a users id row :
  (counts_as_admin a row = true \/ (forall u, users !! id = Some u -> counts_as_admin a u = false) \/
   (2 <= size (admins a users))%nat) ->
  (1 <= size (admins a users))%nat -> (1 <= size (admins a (<[id := row]> users)))%nat.
Proof.
  intros Hor H1. unfold admins. destruct (counts_as_admin a row) eqn:Erow.
  - rewrite map_filter_insert_True by done. rewrite map_size_insert. case_match; [|lia].
    exact H1.
  - rewrite map_filter_insert_False by (simpl; congruence).
    rewrite map_filter_delete, map_size_delete. unfold admins in *.
    destruct (filter _ users !! id) as [u|] eqn:E; [|exact H1].
    destruct Hor as [?|[Hold|?]]; [done| |lia].
    apply map_lookup_filter_Some in E as [Hu Hc]. simpl in Hc.
    rewrite (Hold _ Hu) in Hc. done.
Qed.

(** Handlers that rewrite one user row [old] into [row] (roles untouched). *)
Lemma accounts_ok_put w w' old id row :
  accounts_ok w -> w_roles w' = w_roles w -> w_users w' = <[id := row]> (w_users w) -> u_id row = id ->
  w_users w !! id = old ->
  (forall a, w_roles w !! ro_id a = Some a -> ro_name a = "admin" -> ro_deleted_at a = None ->
     counts_as_admin (ro_id a) row = true \/ (forall u, old = Some u -> counts_as_admin (ro_id a) u = false) \/
     2 <= active_admin_count w) ->
  accounts_ok w'.
Proof.
  intros HI Hr Hu Hid Hold Hside. destruct (ao_admin _ HI) as (a & Ha & Hn & Hs & Hd).
  assert (Hfind := ok_admin_found _ _ HI Ha Hn Hd).
  assert (Hfind' : role_get_by_name "admin" w' = Some a) by (unfold role_get_by_name in *; by rewrite Hr).
  assert (Hc := ao_count _ HI). specialize (Hside a Ha Hn Hd).
  rewrite (active_admin_count_admins _ _ Hfind) in Hc, Hside.
  split; rewrite ?Hr; try apply HI.
  - intros k u. rewrite Hu, lookup_insert. case_decide; [intros [= <-]; congruence|apply (ao_users _ HI)].
  - rewrite (active_admin_count_admins _ _ Hfind'), Hu.
    assert (1 <= size (admins (ro_id a) (<[id:=row]> (w_users w))))%nat; [|lia].
    apply admins_insert; [|lia]. subst old. naive_solver lia.
Qed.

(** Rows that keep role, activity and life keep their standing. *)
Lemma accounts_ok_same w w' u id row :
  accounts_ok w -> w_roles w' = w_roles w -> w_users w' = <[id := row]> (w_users w) -> u_id row = id ->
  w_users w !! id = Some u ->
  u_role_id row = u_role_id u -> u_is_active row = u_is_active u -> u_deleted_at row = u_deleted_at u ->
  accounts_ok w'.
Proof.
  intros HI Hr Hu Hid Hold H1 H2 H3. eapply accounts_ok_put; eauto. intros a _ _ _.
  destruct (counts_as_admin (ro_id a) row) eqn:E; [auto|right; left].
  intros u' [= ->]. unfold counts_as_admin, is_live in *. by rewrite <- H1, <- H2, <- H3.
Qed.

Lemma user_get_by_uuid_inr uuid w u w' :
  user_get_by_uuid uuid w = (inr u, w') ->
  w' = w /\ u_deleted_at u = None /\ exists k, w_users w !! k = Some u.
Proof.
  unfold user_get_by_uuid. intros H. minv1 H. destruct (find_user _ w) as [x|] eqn:E; [|done]. minv1 H.
  apply find_row_Some in E as ([_ Hl]%andb_prop & k & Hk). apply bool_decide_eq_true in Hl. eauto.
Qed.

Lemma readonly_inr {W E X} (m : M W E X) w x w' : readonly m -> m w = (inr x, w') -> w' = w.
Proof. intros Hm H. specialize (Hm w). by rewrite H in Hm. Qed.

Lemma resolve_role_inr n w r w' :
  resolve_role n w = (inr r, w') -> w' = w /\ exists k, w_roles w !! k = Some r.
Proof.
  unfold resolve_role. intros H. minv1 H. destruct (role_get_by_name _ w) as [x|] eqn:E; [|done]. minv1 H.
  apply find_row_Some in E as (_ & k & Hk). eauto.
Qed.

Section AdminInvariant.
Context {J : JwtLib} {A : Argon2} (catalog : list (string * string)).

(** The administrative requests, whatever their bodies; the id of a new row comes with the request. *)
Inductive AdminRequest :=
| ReqCreate (id : Z) (d : UserData) (actor : User)
| ReqUpdate (uuid : string) (d : UserData) (actor : User)
| ReqDelete (uuid : string) (actor : User)
| ReqReset (uuid : string) (password : option string) (actor : User)
| ReqUnlock (uuid : string) (actor : User)
| ReqRoleCreate (id : Z) (d : RoleData) (actor : User)
| ReqRoleUpdate (id : Z) (d : RoleData) (actor : User)
| ReqRoleDelete (id : Z) (actor : User).
(** a request, accepted or refused *)
Definition serve_admin (q : AdminRequest) (w : World) : World :=
  match q with
  | ReqCreate id d actor => snd (create_user id d actor w)
  | ReqUpdate uuid d actor => snd (update_user uuid d actor w)
  | ReqDelete uuid actor => snd (delete_user uuid actor w)
  | ReqReset uuid p actor => snd (reset_password uuid p actor w)
  | ReqUnlock uuid actor => snd (unlock_user uuid actor w)
  | ReqRoleCreate id d actor => snd (role_create catalog id d actor w)
  | ReqRoleUpdate id d actor => snd (role_update catalog id d actor w)
  | ReqRoleDelete id actor => snd (role_delete id actor w)
  end.
(** new ids are fresh (Snowflake) *)
Definition fresh_for (q : AdminRequest) (w : World) : Prop :=
  match q with
  | ReqCreate id _ _ => w_users w !! id = None
  | ReqRoleCreate id _ _ => w_roles w !! id = None
  | _ => True
  end.
Inductive administered : list AdminRequest -> World -> World -> Prop :=
| administered_nil w : administered [] w w
| administered_cons q qs w w' : fresh_for q w -> administered qs (serve_admin q w) w' -> administered (q :: qs) w w'.
(** an update whose [is_active] is falsy without being [false]: 0, an empty text, list or object *)
Definition falsy_flag (q : AdminRequest) : Prop :=
  match q with ReqUpdate _ d _ => d_is_active d = FOther false | _ => False end.

Lemma is_admin_row_id w a u :
  accounts_ok w -> w_roles w !! ro_id a = Some a -> ro_name a = "admin" ->
  u_role_id u = ro_id a -> is_admin_row u w = true.
Proof.
  intros HI Ha Hn Hid. unfold is_admin_row, role_of. rewrite Hid, Ha. by apply bool_decide_eq_true.
Qed.

Lemma not_admin_row w a u :
  accounts_ok w -> w_roles w !! ro_id a = Some a -> ro_name a = "admin" ->
  is_admin_row u w = false -> counts_as_admin (ro_id a) u = false.
Proof.
  intros HI Ha Hn Hrow. unfold counts_as_admin. zcase; [|done].
  erewrite is_admin_row_id in Hrow; eauto. done.
Qed.

Lemma user_create_inr id login password role_id ps w row w' :
  user_create id login password role_id ps w = (inr row, w') ->
  u_id row = id /\ w_roles w' = w_roles w /\ w_users w' = <[id := row]> (w_users w) /\
  u_role_id row = role_id /\ u_permissions row = ps.
Proof.
  unfold user_create, bind, gets. destruct (find_row _ _); [done|].
  unfold fresh_salt, fresh_hex, put_user, modify, ret. simpl. by intros [= <- <-].
Qed.

Lemma create_user_ok id d actor w u w' :
  accounts_ok w -> w_users w !! id = None -> create_user id d actor w = (inr u, w') -> accounts_ok w'.
Proof.
  intros HI Hfresh H. unfold create_user, audit_record in H. repeat (case_match; [done|]). minv1 H.
  case_match; [done|]. minv1 H. apply resolve_role_inr in Hm as (-> & _). minv1 H.
  apply readonly_inr in Hm as ->; [|auto with axp]. minv1 H.
  apply user_create_inr in Hm as (<- & Hr & Hu & _). minv1 H. minv1 H.
  eapply (accounts_ok_put w _ None); [done|done|exact Hu|done|done|]. intros ? _ _ _. right; left. done.
Qed.

Lemma update_user_ok uuid d actor w u w' :
  accounts_ok w -> d_is_active d <> FOther false ->
  update_user uuid d actor w = (inr u, w') -> accounts_ok w'.
Proof.
  intros HI Hflag H. unfold update_user in H. minv1 H.
  apply user_get_by_uuid_inr in Hm as (-> & Hlive & k & Hk). minv1 H.
  apply readonly_inr in Hm as ->; [|auto with axp]. minv1 H.
  apply readonly_inr in Hm as ->; [|destruct (truthy_str _); eauto with axp]. minv1 H.
  apply readonly_inr in Hm as ->; [|eauto with axp]. minv1 H. minv1 H.
  destruct (_ && _ && _) eqn:Eguard in H; [done|]. unfold put_user, audit_record in H. minv1 H. minv1 H. minv1 H.
  assert (Hkey := ao_users _ HI _ _ Hk). rewrite <- Hkey in Hk.
  eapply (accounts_ok_put w _ (Some a)); [done|done|reflexivity|done|done|]. intros ad Ha Hn Hd.
  destruct (is_admin_row a w) eqn:Erow.
  2: { right; left. intros u' [= <-]. by eapply not_admin_row. }
  destruct (active_admin_count w <=? 1) eqn:Ec; [|right; right; lia].
  rewrite andb_true_r in Eguard. simpl in Eguard. apply orb_false_iff in Eguard as [Er Ef].
  assert (Eid : default (u_role_id a) (ro_id <$> a1) = u_role_id a).
  { destruct a1 as [r|]; simpl in *; [|done]. by apply negb_false_iff, Z.eqb_eq in Er. }
  destruct (counts_as_admin (ro_id ad) a) eqn:Eold; [left|right; left; by intros u' [= <-]].
  unfold counts_as_admin, is_live in *. simpl. rewrite Eid.
  apply andb_prop in Eold as [[Hid Hact]%andb_prop Hl]. rewrite Hid, Hl. simpl.
  by destruct (d_is_active d) as [|[]|[]] eqn:Ed; simpl in *; rewrite ?Hact.
Qed.

Lemma delete_user_ok uuid actor w u w' :
  accounts_ok w -> delete_user uuid actor w = (inr u, w') -> accounts_ok w'.
Proof.
  intros HI H. unfold delete_user in H. minv1 H.
  apply user_get_by_uuid_inr in Hm as (-> & Hlive & k & Hk). minv1 H.
  apply readonly_inr in Hm as ->; [|auto with axp]. case_match; [done|]. minv1 H. minv1 H.
  destruct (_ && _) eqn:Eguard in H; [done|].
  unfold bind, gets, put_user, revoke_all, bump_token_version, put_user, revoke_all_for_user, audit_record,
    bind, modify in H. injection H as <- <-. assert (Hkey := ao_users _ HI _ _ Hk). rewrite <- Hkey in Hk.
  eapply (accounts_ok_put w _ (Some a)); [done|done|simpl; by rewrite insert_insert_eq|done|done|].
  intros ad Ha Hn Hd. destruct (is_admin_row a w) eqn:Erow.
  - right; right. simpl in Eguard. lia.
  - right; left. intros u' [= <-]. by eapply not_admin_row.
Qed.

Lemma reset_password_ok uuid p actor w u w' :
  accounts_ok w -> reset_password uuid p actor w = (inr u, w') -> accounts_ok w'.
Proof.
  intros HI H. unfold reset_password in H. case_match; [done|]. minv1 H.
  apply user_get_by_uuid_inr in Hm as (-> & Hlive & k & Hk). minv1 H.
  apply readonly_inr in Hm as ->; [|auto with axp].
  unfold bind, save_password, put_user, revoke_all, bump_token_version, put_user, revoke_all_for_user,
    audit_record, bind, fresh_salt, fresh_hex, modify, ret in H. injection H as <- <-.
  assert (Hkey := ao_users _ HI _ _ Hk). rewrite <- Hkey in Hk.
  eapply (accounts_ok_same w _ a); [done|done|simpl; by rewrite insert_insert_eq|done..].
Qed.

Lemma unlock_user_ok uuid actor w u w' :
  accounts_ok w -> unlock_user uuid actor w = (inr u, w') -> accounts_ok w'.
Proof.
  intros HI H. unfold unlock_user, put_user, audit_record in H. minv1 H.
  apply user_get_by_uuid_inr in Hm as (-> & Hlive & k & Hk). minv1 H. minv1 H.
  assert (Hkey := ao_users _ HI _ _ Hk). rewrite <- Hkey in Hk.
  by eapply (accounts_ok_same w _ a).
Qed.

(** Writing one role row. *)
Lemma accounts_ok_role w w' row :
  accounts_ok w -> w_users w' = w_users w -> w_roles w' = <[ro_id row := row]> (w_roles w) ->
  (forall k r, w_roles w !! k = Some r -> k <> ro_id row -> ro_name r <> ro_name row) ->
  (forall a, w_roles w !! ro_id row = Some a -> ro_name a = "admin" -> ro_is_system a = true ->
     ro_name row = "admin" /\ ro_is_system row = true /\ ro_deleted_at row = None) ->
  accounts_ok w'.
Proof.
  intros HI Hu Hr Huniq Hadm. destruct (ao_admin _ HI) as (a & Ha & Hn & Hs & Hd).
  assert (Hc := ao_count _ HI). rewrite (active_admin_count_admins _ _ (ok_admin_found _ _ HI Ha Hn Hd)) in Hc.
  assert (Hnames : forall k1 k2 r1 r2, w_roles w' !! k1 = Some r1 -> w_roles w' !! k2 = Some r2 ->
    ro_name r1 = ro_name r2 -> k1 = k2).
  { intros k1 k2 r1 r2. rewrite Hr, !lookup_insert. repeat case_decide; subst; intros H1 H2 He; simplify_eq.
    - done.
    - by destruct (Huniq _ _ H2 ltac:(done)).
    - by destruct (Huniq _ _ H1 ltac:(done)).
    - by eapply (ao_names _ HI). }
  assert (Hex : exists a', w_roles w' !! ro_id a' = Some a' /\ ro_name a' = "admin" /\ ro_is_system a' = true /\
    ro_deleted_at a' = None /\ ro_id a' = ro_id a).
  { destruct (decide (ro_id row = ro_id a)) as [He|Hne].
    - exists row. rewrite Hr, lookup_insert_eq. rewrite He in Hadm. naive_solver.
    - exists a. rewrite Hr, lookup_insert_ne by done. naive_solver. }
  destruct Hex as (a' & Ha' & Hn' & Hs' & Hd' & Hid).
  assert (Hfind : role_get_by_name "admin" w' = Some a').
  { eapply find_row_unique; [exact Ha'|by rewrite Hn', Hd'|].
    intros k r Hk [Hkn%bool_decide_eq_true _]%andb_prop.
    assert (k = ro_id a') as -> by (eapply Hnames; eauto; congruence). congruence. }
  split; try done.
  - rewrite Hu. apply (ao_users _ HI).
  - intros k r. rewrite Hr, lookup_insert. case_decide; [intros [= <-]; done|apply (ao_roles _ HI)].
  - exists a'. auto.
  - rewrite (active_admin_count_admins _ _ Hfind), Hu, Hid. done.
Qed.

Lemma save_role_inr row w x w' :
  accounts_ok w -> save_role row w = (inr x, w') ->
  w_users w' = w_users w /\ w_roles w' = <[ro_id row := row]> (w_roles w) /\
  (forall k r, w_roles w !! k = Some r -> k <> ro_id row -> ro_name r <> ro_name row).
Proof.
  intros HI H. unfold save_role, put_role in H. minv1 H. destruct (find_row _ _) eqn:E in H; [done|]. minv1 H.
  repeat split; try done. intros k r Hk Hne Hn. apply (find_row_None _ _ _ _ E) in Hk as Hf.
  rewrite Hn, bool_decide_eq_true_2 in Hf by done. simpl in Hf. apply negb_false_iff, Z.eqb_eq in Hf.
  apply Hne. rewrite <- Hf. symmetry. by apply (ao_roles _ HI).
Qed.

Lemma role_get_by_id_inr id w r w' :
  role_get_by_id id w = (inr r, w') -> w' = w /\ w_roles w !! id = Some r /\ ro_deleted_at r = None.
Proof.
  unfold role_get_by_id. intros H. minv1 H. case_match; [|done]. case_bool_decide; [|done]. minv1 H. done.
Qed.

Lemma role_create_ok id d actor w r w' :
  accounts_ok w -> w_roles w !! id = None -> role_create catalog id d actor w = (inr r, w') -> accounts_ok w'.
Proof.
  intros HI Hfresh H. unfold role_create, audit_record in H. case_match; [done|]. minv1 H.
  case_match; [done|]. minv1 H. apply readonly_inr in Hm as ->; [|auto with axp]. minv1 H.
  apply save_role_inr in Hm as (Hu & Hr & Hn); [|done]. minv1 H. minv1 H.
  eapply accounts_ok_role; [exact HI|exact Hu|exact Hr|exact Hn|]. simpl. intros x Hx. congruence.
Qed.

Lemma role_update_ok id d actor w r w' :
  accounts_ok w -> role_update catalog id d actor w = (inr r, w') -> accounts_ok w'.
Proof.
  intros HI H. unfold role_update, audit_record in H. minv1 H.
  apply role_get_by_id_inr in Hm as (-> & Hrow & Hd). assert (Hkey := ao_roles _ HI _ _ Hrow).
  minv1 H. assert (Hname : w1 = w /\ (ro_is_system a = true -> a0 = ro_name a)).
  { destruct (ro_is_system a); simpl in Hm; [by minv1 Hm|].
    destruct (truthy_str (rd_name d)); [|by minv1 Hm].
    minv1 Hm. destruct (_ && _) in Hm; [done|]. by minv1 Hm. }
  clear Hm. destruct Hname as [-> Hname]. minv1 H.
  apply readonly_inr in Hm as ->; [|destruct (rd_permissions d); auto with axp]. minv1 H.
  apply save_role_inr in Hm as (Hu & Hr & Hn); [|done]. minv1 H. minv1 H.
  eapply accounts_ok_role; [exact HI|exact Hu|exact Hr|exact Hn|]. simpl.
  intros x Hx Hxn Hxs. rewrite Hrow in Hx. simplify_eq. rewrite Hname by done. auto.
Qed.

Lemma role_delete_ok id actor w r w' :
  accounts_ok w -> role_delete id actor w = (inr r, w') -> accounts_ok w'.
Proof.
  intros HI H. unfold role_delete, audit_record, put_role in H. minv1 H.
  apply role_get_by_id_inr in Hm as (-> & Hrow & Hd). assert (Hkey := ao_roles _ HI _ _ Hrow).
  destruct (ro_is_system a) eqn:Esys; [done|]. minv1 H. case_match; [done|]. minv1 H. minv1 H. minv1 H.
  eapply (accounts_ok_role w); [exact HI|done|reflexivity|..]; simpl.
  - intros k x Hk Hne Hn. apply Hne. by eapply (ao_names _ HI).
  - intros x Hx Hxn Hxs. rewrite Hrow in Hx. congruence.
Qed.

Lemma serve_admin_ok q w : accounts_ok w -> fresh_for q w -> ~ falsy_flag q -> accounts_ok (serve_admin q w).
Proof.
  intros HI Hf Hq. destruct q as [id d actor|uuid d actor|uuid actor|uuid p actor|uuid actor|id d actor|id d actor|id actor]; cbn in Hf, Hq |- *.
  - destruct (create_user id d actor w) as [[e|x] w'] eqn:H; [by apply create_user_atomic in H as ->|by eapply create_user_ok].
  - destruct (update_user uuid d actor w) as [[e|x] w'] eqn:H; [by apply update_user_atomic in H as ->|by eapply update_user_ok].
  - destruct (delete_user uuid actor w) as [[e|x] w'] eqn:H; [by apply delete_user_atomic in H as ->|by eapply delete_user_ok].
  - destruct (reset_password uuid p actor w) as [[e|x] w'] eqn:H; [by apply reset_password_atomic in H as ->|by eapply reset_password_ok].
  - destruct (unlock_user uuid actor w) as [[e|x] w'] eqn:H; [by apply unlock_user_atomic in H as ->|by eapply unlock_user_ok].
  - destruct (role_create catalog id d actor w) as [[e|x] w'] eqn:H; [by apply role_create_atomic in H as ->|by eapply role_create_ok].
  - destruct (role_update catalog id d actor w) as [[e|x] w'] eqn:H; [by apply role_update_atomic in H as ->|by eapply role_update_ok].
  - destruct (role_delete id actor w) as [[e|x] w'] eqn:H; [by apply role_delete_atomic in H as ->|by eapply role_delete_ok].
Qed.
End AdminInvariant.

(** ** Brute-force lock-out *)

Section Lockout.
Context {J : JwtLib} {A : Argon2}.

(** Login attempts at given instants. *)
Fixpoint attempts (login_id : string) (tries : list (Z * string)) (w : World) : World :=
  match tries with
  | [] => w
  | (t, p) :: r =>
      attempts login_id r (snd (login (Some login_id) (Some p) None None (advance t w)))
  end.

(** [u] is the row the unique index on [login_id] leads to. *)
Definition login_owner (login_id : string) (u : User) (w : World) : Prop :=
  w_users w !! u_id u = Some u /\ u_login_id u = login_id /\ is_live u = true /\
  forall k u', w_users w !! k = Some u' -> u_login_id u' = login_id -> k = u_id u.

Lemma owner_found login_id u w : login_owner login_id u w -> get_by_login_id login_id w = Some u.
Proof.
  intros (Hk & Hl & Hlive & Hu). eapply find_row_unique; [exact Hk|by rewrite bool_decide_eq_true_2|].
  intros k' u' Hk' [Hl'%bool_decide_eq_true _]%andb_prop. assert (k' = u_id u) as -> by eauto. congruence.
Qed.

Lemma owner_put login_id u row w w' :
  login_owner login_id u w -> w_users w' = <[u_id u := row]> (w_users w) -> u_id row = u_id u ->
  u_login_id row = login_id -> is_live row = true -> login_owner login_id row w'.
Proof.
  intros (Hk & Hl & Hlive & Hu) Hw Hid Hl' Hlive'. repeat split; try done.
  - by rewrite Hw, Hid, lookup_insert_eq.
  - intros k u'. rewrite Hw, Hid, lookup_insert. case_decide; [done|]. eauto.
Qed.

(** A bad password on an unlocked account. *)
Lemma login_bad login_id p u w :
  strip login_id = login_id -> blank (Some login_id) = false -> blank (Some p) = false ->
  login_owner login_id u w -> is_locked (w_now w) u = false -> ph_verify (u_password u) p = false ->
  login_owner login_id (fst (register_failed_login (w_now w) LOGIN_MAX_FAILED LOGIN_LOCK_MINUTES u))
    (snd (login (Some login_id) (Some p) None None w)).
Proof.
  intros Hs Hb1 Hb2 Ho Hlock Hv. unfold login. rewrite Hb1, Hb2. simpl. rewrite Hs.
  unfold bind at 1, gets at 1. rewrite (owner_found _ _ _ Ho). unfold bind at 1, gets at 1.
  rewrite Hlock, Hv. simpl. destruct Ho as (Hk & Hl & Hlive & Hu).
  destruct (register_failed_login _ _ _ u) as [row locked] eqn:E.
  assert (Hrow : u_id row = u_id u /\ u_login_id row = u_login_id u /\ u_deleted_at row = u_deleted_at u).
  { unfold register_failed_login in E. case_match; by simplify_eq. }
  destruct Hrow as (Hi & Hl' & Hd). apply (owner_put login_id u row w); [done| |done|congruence|].
  - unfold bind, put_user, audit_record, modify, raise. rewrite <- Hi. by destruct locked.
  - simpl. unfold is_live in *. by rewrite Hd.
Qed.

Lemma failed_below login_id u w n tries :
  strip login_id = login_id -> blank (Some login_id) = false -> login_owner login_id u w ->
  u_locked_until u = None -> u_failed_login_count u = Some n -> 0 <= n ->
  Forall (fun tp => blank (Some (snd tp)) = false /\ ph_verify (u_password u) (snd tp) = false) tries ->
  n + Z.of_nat (length tries) < LOGIN_MAX_FAILED ->
  exists u', login_owner login_id u' (attempts login_id tries w) /\ u_locked_until u' = None /\
    u_failed_login_count u' = Some (n + Z.of_nat (length tries)) /\ u_password u' = u_password u.
Proof.
  intros Hs Hb. revert u w n. induction tries as [|[t p] tries IH]; intros u w n Ho Hlk Hc Hn Hall Hlt.
  { exists u. simpl. rewrite Z.add_0_r. auto. }
  apply Forall_cons in Hall as [[Hbp Hv] Hall]. simpl in Hbp, Hv, Hlt.
  pose proof (login_bad login_id p u (advance t w) Hs Hb Hbp ltac:(done)
    ltac:(unfold is_locked; by rewrite Hlk) Hv) as Ho'.
  unfold register_failed_login in Ho'. rewrite Hc, or_Z_zero in Ho'. simpl in Ho'.
  destruct (LOGIN_MAX_FAILED <=? n + 1) eqn:E; [lia|]. simpl in Ho'.
  destruct (IH _ _ (n + 1) Ho') as (u' & Ho1 & Hl1 & Hc1 & Hp1); simpl; try done; [lia|lia|].
  exists u'. repeat split; try done; try apply Ho1. rewrite Hc1. f_equal. lia.
Qed.
End Lockout.

(** ** Properties *)

Section AccountProperties.
Context {J : JwtLib} {A : Argon2} (catalog : list (string * string)).

(** Brute force locks the account: after LOGIN_MAX_FAILED wrong passwords
    (whenever they come) every login within the lock window is refused with
    AccountLockedException, the right password included, and it leaves the
    user table as it is. *)
Theorem brute_force_locks login_id u w tries tlast plast t p ip ua :
  strip login_id = login_id -> blank (Some login_id) = false -> login_owner login_id u w ->
  u_locked_until u = None -> u_failed_login_count u = Some 0 ->
  Forall (fun tp => blank (Some (snd tp)) = false /\ ph_verify (u_password u) (snd tp) = false)
    (tries ++ [(tlast, plast)]) ->
  Z.of_nat (length (tries ++ [(tlast, plast)])) = LOGIN_MAX_FAILED ->
  t < tlast + LOGIN_LOCK_MINUTES * 60 * SEC -> blank (Some p) = false ->
  let w1 := attempts login_id (tries ++ [(tlast, plast)]) w in
  exists w2, login (Some login_id) (Some p) ip ua (advance t w1) =
    (inl (AccountLockedException "account_locked"), w2) /\ w_users w2 = w_users w1.
Proof.
  intros Hs Hb Ho Hlk Hc Hall Hlen Ht Hp w1. apply Forall_app in Hall as [Hall [[Hbl Hvl] _]%Forall_cons].
  rewrite length_app in Hlen. simpl in Hlen, Hbl, Hvl.
  destruct (failed_below login_id u w 0 tries) as (u' & Ho' & Hlk' & Hc' & Hpw); try done; [lia|].
  pose proof (login_bad login_id plast u' (advance tlast (attempts login_id tries w)) Hs Hb Hbl Ho'
    ltac:(unfold is_locked; by rewrite Hlk') ltac:(congruence)) as Hfin.
  unfold register_failed_login in Hfin. rewrite Hc', or_Z_zero in Hfin.
  destruct (LOGIN_MAX_FAILED <=? _) eqn:E in Hfin; [|simpl in E; lia]. simpl in Hfin.
  assert (Hw1 : w1 = snd (login (Some login_id) (Some plast) None None (advance tlast (attempts login_id tries w)))).
  { unfold w1. clear. revert w. induction tries as [|[t p] l IH]; intros w; simpl; [done|apply IH]. }
  rewrite <- Hw1 in Hfin. unfold login. rewrite Hb, Hp. simpl. rewrite Hs.
  unfold bind at 1, gets at 1.
  rewrite (owner_found login_id _ (advance t w1) Hfin). unfold bind at 1, gets at 1, is_locked. simpl.
  zcase; [|lia]. unfold bind, audit_record, modify, raise. eexists. split; [reflexivity|done].
Qed.

(** C5: However users and roles are administered (requests accepted or refused, in any order), at
    least one active, undeleted administrator remains, unless an update gives is_active as a falsy
    value other than false; [falsy_is_active_passes_last_admin_guard] shows that the exception is
    real. *)
Theorem last_admin_survives qs w w' :
  accounts_ok w -> administered catalog qs w w' -> (forall q, q ∈ qs -> ~ falsy_flag q) -> 1 <= active_admin_count w'.
Proof.
  intros HI Hs Hq. apply ao_count. induction Hs as [|q qs w w' Hf _ IH]; [done|].
  apply IH; [apply serve_admin_ok; [done|done|apply Hq; by left]|]. intros q' Hq'. apply Hq. by right.
Qed.

(** Nobody grants what they do not have: every [resource:action] a newly
    created user holds, through role or per-user map, the creating actor holds. *)
Theorem no_privilege_escalation id d actor w u w' resource action :
  accounts_ok w -> create_user id d actor w = (inr u, w') ->
  has (Some (subject_of u w')) resource action = true ->
  has (Some (subject_of actor w)) resource action = true.
Proof.
  intros HI H Hhas. unfold create_user, audit_record in H. repeat (case_match; [done|]). minv1 H.
  case_match; [done|]. minv1 H. apply resolve_role_inr in Hm as (-> & k & Hk). minv1 H.
  unfold check_grant in Hm. minv1 Hm. destruct (guard_grant _ _ _) eqn:Eg in Hm; [|done]. minv1 Hm. minv1 H.
  apply user_create_inr in Hm as (_ & Hr & _ & Hid & Hps). minv1 H. minv1 H.
  destruct (is_superuser (Some (subject_of actor w))) eqn:Esup; [by apply superuser_has_all|].
  apply has_sources in Hhas as (src & Hin & Hg). unfold subject_of, role_of, sources in Hin. simpl in Hin.
  rewrite Hid, Hps, Hr in Hin. rewrite (ao_roles _ HI _ _ Hk), Hk in Hin. simpl in Hin.
  apply (grant_source_sound _ src); [done| |done].
  apply elem_of_cons in Hin as [->|Hin%list_elem_of_singleton].
  - eapply guard_grant_source; [done|done|by left].
  - destruct (d_permissions d) as [ps|] eqn:Ed; simpl in Hin; subst src.
    + eapply guard_grant_source; [done|done|by right].
    + done.
Qed.

(** C40: Requests are all-or-nothing: when user or role administration refuses a
    request, no table, no token and no log entry has changed. *)
Theorem refused_requests_change_nothing id uuid password actor (d : UserData) (rd : RoleData) :
  atomic (create_user id d actor) /\ atomic (update_user uuid d actor) /\
  atomic (delete_user uuid actor) /\ atomic (reset_password uuid password actor) /\
  atomic (role_create catalog id rd actor) /\ atomic (role_update catalog id rd actor) /\
  atomic (role_delete id actor).
Proof.
  repeat split; auto using create_user_atomic, update_user_atomic, delete_user_atomic,
    reset_password_atomic, role_create_atomic, role_update_atomic, role_delete_atomic.
Qed.
End AccountProperties.

(** The per-camera grant guard reads an explicit empty entry as absent: an
    actor whose scope denies camera [c] (entry [[]], wildcard [view]) passes the
    guard when granting [view] on [c]. *)
Theorem scope_guard_skips_empty_entry :
  exists (actor : subject) (granted : perms),
    has_camera_scope (Some actor) "c" "view" = false /\
    guard_grant actor None (Some granted) = true /\
    has_camera_scope (Some {| s_role := None; s_user := granted |}) "c" "view" = true.
Proof.
  exists {| s_role := None; s_user := {[ "camera_scope" := PScope {[ "c" := Some []; "*" := Some ["view"] ]} ]} |},
    {[ "camera_scope" := PScope {[ "c" := Some ["view"] ]} ]}.
  by vm_compute.
Qed.

(** ** Witnesses *)

#[local] Existing Instance toy_jwt.
(** A hasher that marks and keeps the text. *)
#[refine] Definition toy_argon2 : Argon2 := {|
  ph_hash := fun _ raw => "$" +:+ raw;
  ph_verify := fun h raw => bool_decide (h = "$" +:+ raw)
|}.
Proof. intros _ raw. by apply bool_decide_eq_true. Defined.
#[local] Existing Instance toy_argon2.

Lemma demo_accounts_ok : accounts_ok demo_world.
Proof.
  split.
  - intros k u H. cbn [demo_world w_users w_roles] in H. apply lookup_singleton_Some in H as [<- <-]. done.
  - intros k r H. cbn [demo_world w_users w_roles] in H. apply lookup_singleton_Some in H as [<- <-]. done.
  - intros k1 k2 r1 r2 H1 H2 _. cbn [demo_world w_roles] in H1, H2. apply lookup_singleton_Some in H1 as [<- _], H2 as [<- _]. done.
  - exists demo_role. done.
  - done.
Qed.

Lemma demo_owner : login_owner "ann" demo_user demo_world.
Proof.
  repeat split; try done. intros k u' H _. cbn [demo_world w_users w_roles] in H. apply lookup_singleton_Some in H as [<- _]. done.
Qed.

Lemma brute_force_locks_witness :
  exists w2, login (Some "ann") (Some "right") None None (advance (2000 * SEC)
      (attempts "ann" [(1010 * SEC, "a"); (1020 * SEC, "b"); (1030 * SEC, "c"); (1040 * SEC, "d");
                       (1050 * SEC, "e")] demo_world)) =
    (inl (AccountLockedException "account_locked"), w2).
Proof.
  destruct (brute_force_locks "ann" demo_user demo_world
    [(1010 * SEC, "a"); (1020 * SEC, "b"); (1030 * SEC, "c"); (1040 * SEC, "d")] (1050 * SEC) "e"
    (2000 * SEC) "right" None None) as (w2 & H & _);
    [done|done|apply demo_owner|done|done|repeat constructor|done|done|done|].
  exists w2. exact H.
Defined.

(** The last administrator is deactivated (refused), then deletes himself (refused). *)
Lemma last_admin_survives_witness :
  let off := {| d_login_id := None; d_password := None; d_name := None; d_role := None; d_permissions := None; d_is_active := FBool false |} in
  1 <= active_admin_count (serve_admin [] (ReqDelete "u7" demo_user) (serve_admin [] (ReqUpdate "u7" off demo_user) demo_world)).
Proof.
  cbv zeta. set (off := Build_UserData _ _ _ _ _ _).
  apply (last_admin_survives [] [ReqUpdate "u7" off demo_user; ReqDelete "u7" demo_user]%list demo_world); [apply demo_accounts_ok| |].
  - apply administered_cons; [exact I|]. apply administered_cons; [exact I|apply administered_nil].
  - intros q Hq. apply elem_of_cons in Hq as [->|Hq]; [discriminate|]. apply list_elem_of_singleton in Hq as ->. exact id.
Defined.

Definition demo_data : UserData :=
  {| d_login_id := Some "bob"; d_password := Some "password1"; d_name := Some "Bob"; d_role := Some "admin";
     d_permissions := None; d_is_active := FAbsent |}.

Lemma no_privilege_escalation_witness :
  exists u w', create_user 8 demo_data demo_user demo_world = (inr u, w') /\
    has (Some (subject_of demo_user demo_world)) "cameras" "read" = true.
Proof.
  eexists _, _. split; [vm_compute; reflexivity|].
  eapply (no_privilege_escalation 8 demo_data demo_user demo_world);
    [apply demo_accounts_ok|vm_compute; reflexivity|vm_compute; reflexivity].
Defined.

(** The last-admin guard compares [is_active] with the literal [False], the
    update applies [bool(...)]: a body with [is_active: 0] deactivates the last
    administrator. *)
Theorem falsy_is_active_passes_last_admin_guard :
  exists w u w', accounts_ok w /\ active_admin_count w = 1 /\
    update_user "u7" {| d_login_id := None; d_password := None; d_name := None; d_role := None;
                        d_permissions := None; d_is_active := FOther false |} demo_user w = (inr u, w') /\
    active_admin_count w' = 0.
Proof.
  eexists demo_world, _, _. split; [apply demo_accounts_ok|]. split; [done|].
  split; [vm_compute; reflexivity|]. by vm_compute.
Qed.
