(* ===== verification/Planner.v ===== *)
(** * Camera placement (the planning half of src/server/service/ai_scheduler.py and encode_scheduler.py)

    [rebalance] first keeps cameras where they are while the node has room, then
    places the others on the node with the most room left.  The plan is a map
    from cameras to nodes; [load] and [cap] are the source's dictionaries.

    The file ends with what any caller may rely on: capacity, completeness,
    work conservation, stability and idempotence. *)

From S2P Require Import Prelude.

(** [d[k]] on a dictionary whose keys were all initialised. *)
Definition get0 (d : gmap Z Z) (k : Z) : Z := default 0 (d !! k).

Definition cap_of (nodes : list (Z * Z)) : gmap Z Z :=
  list_to_map ((fun n => (fst n, Z.max 0 (snd n))) <$> nodes).

Definition load0 (nodes : list (Z * Z)) : gmap Z Z := list_to_map ((fun n => (fst n, 0)) <$> nodes).

(** 1) keep the current assignment if its node still has spare capacity *)
Definition keep_step (existing cap : gmap Z Z) (st : gmap Z Z * gmap Z Z) (cam : Z)
    : gmap Z Z * gmap Z Z :=
  let '(plan, load) := st in
  match existing !! cam with
  | Some nid =>
      match cap !! nid with
      | Some c => if get0 load nid <? c then (<[cam := nid]> plan, <[nid := get0 load nid + 1]> load)
                  else st
      | None => st
      end
  | None => st
  end.

(** [_pick]: the first node with the strictly greatest remaining capacity *)
Definition pick_step (load cap : gmap Z Z) (b : option Z * Z) (nid : Z) : option Z * Z :=
  let rem := get0 cap nid - get0 load nid in
  if snd b <? rem then (Some nid, rem) else b.

Definition pick (nodes : list Z) (load cap : gmap Z Z) : option Z :=
  fst (foldl (pick_step load cap) (None, 0) nodes).

(** 2) place the rest *)
Definition place_step (nodes : list Z) (cap : gmap Z Z) (st : gmap Z Z * gmap Z Z * list Z) (cam : Z)
    : gmap Z Z * gmap Z Z * list Z :=
  let '(plan, load, pending) := st in
  if bool_decide (is_Some (plan !! cam)) then st else
  match pick nodes load cap with
  | None => (plan, load, pending ++ [cam])
  | Some nid => (<[cam := nid]> plan, <[nid := get0 load nid + 1]> load, pending)
  end.

Record Plan := { p_plan : gmap Z Z; p_load : gmap Z Z; p_pending : list Z }.

Definition make_plan (nodes : list (Z * Z)) (existing : gmap Z Z) (cams : list Z) : Plan :=
  let cap := cap_of nodes in
  let '(plan, load) := foldl (keep_step existing cap) (∅, load0 nodes) cams in
  let '(plan, load, pending) := foldl (place_step (fst <$> nodes) cap) (plan, load, []) cams in
  {| p_plan := plan; p_load := load; p_pending := pending |}.

(** Cameras planned on a node. *)
Definition on_node (plan : gmap Z Z) (nid : Z) : Z :=
  Z.of_nat (size (filter (fun kv => snd kv = nid) plan)).

Definition total_cap (nodes : list (Z * Z)) : Z := sum_on (fun n => Z.max 0 (snd n)) nodes.

(** ** Loop invariant *)

Section Invariant.
Context (nodes : list (Z * Z)).
Let cap := cap_of nodes.

Record plan_inv (plan load : gmap Z Z) : Prop := {
  pi_load : forall nid, get0 load nid = on_node plan nid;
  pi_cap : forall nid, on_node plan nid <= get0 cap nid;
  pi_node : forall cam nid, plan !! cam = Some nid -> is_Some (cap !! nid)
}.

Lemma on_node_nonneg plan nid : 0 <= on_node plan nid.
Proof. unfold on_node. lia. Qed.

Lemma on_node_insert plan cam nid n :
  plan !! cam = None -> on_node (<[cam := nid]> plan) n = on_node plan n + (if decide (nid = n) then 1 else 0).
Proof.
  intros Hn. unfold on_node. case_decide as Hd.
  - rewrite map_filter_insert_True by done. rewrite map_size_insert_None; [lia|].
    apply map_lookup_filter_None. auto.
  - rewrite map_filter_insert_not' by (simpl; congruence || naive_solver). lia.
Qed.

Lemma get0_insert d k v n : get0 (<[k := v]> d) n = if decide (k = n) then v else get0 d n.
Proof. unfold get0. rewrite lookup_insert. by case_decide. Qed.

(** Putting a camera on a node with room. *)
Lemma plan_inv_put plan load cam nid :
  plan_inv plan load -> plan !! cam = None -> is_Some (cap !! nid) -> get0 load nid < get0 cap nid ->
  plan_inv (<[cam := nid]> plan) (<[nid := get0 load nid + 1]> load).
Proof.
  intros [Hl Hc Hn] Hnew Hnode Hroom. split.
  - intros n. rewrite get0_insert, on_node_insert by done. case_decide; subst; rewrite Hl; lia.
  - intros n. rewrite on_node_insert by done. specialize (Hc n).
    case_decide; subst; [rewrite <- Hl; lia|lia].
  - intros c n. rewrite lookup_insert. case_decide; [naive_solver|apply Hn].
Qed.

Lemma get0_load0 n : get0 (load0 nodes) n = 0.
Proof.
  unfold get0, load0. induction nodes as [|[i c] l IH]; simpl; [by rewrite lookup_empty|].
  rewrite lookup_insert. case_decide; [done|apply IH].
Qed.

Lemma cap_nonneg n : 0 <= get0 cap n.
Proof.
  unfold get0, cap, cap_of. induction nodes as [|[i c] l IH]; simpl; [by rewrite lookup_empty|].
  rewrite lookup_insert. case_decide; simpl; [lia|apply IH].
Qed.

Lemma plan_inv_empty : plan_inv ∅ (load0 nodes).
Proof.
  assert (H0 : forall n, on_node ∅ n = 0) by (intros n; unfold on_node; by rewrite map_filter_empty).
  split.
  - intros n. by rewrite get0_load0, H0.
  - intros n. rewrite H0. apply cap_nonneg.
  - intros cam nid. by rewrite lookup_empty.
Qed.

(** [pick] returns a node with room, and nothing only when all are full. *)
Lemma pick_fold load l b :
  let r := foldl (pick_step load cap) b l in
  snd b <= snd r /\ (forall n, n ∈ l -> get0 cap n - get0 load n <= snd r) /\
  (fst r = fst b /\ snd r = snd b \/
   exists n, n ∈ l /\ fst r = Some n /\ snd r = get0 cap n - get0 load n /\ snd b < snd r).
Proof.
  revert b. induction l as [|n l IH]; intros b; simpl.
  { split; [lia|]. split; [|auto]. intros n Hn. by apply elem_of_nil in Hn. }
  destruct (IH (pick_step load cap b n)) as (H1 & H2 & H3).
  assert (Hs : snd b <= snd (pick_step load cap b n) /\
    get0 cap n - get0 load n <= snd (pick_step load cap b n)) by (unfold pick_step; zcases; lia).
  split; [lia|]. split.
  - intros m [->|Hm]%elem_of_cons; [lia|by apply H2].
  - destruct H3 as [[Ef Es]|(m & Hm & Ef & Es & Hlt)].
    + rewrite Ef, Es. unfold pick_step. zcases; [|auto]. right. exists n. repeat split; set_solver.
    + right. exists m. repeat split; [set_solver|done|done|lia].
Qed.

Lemma pick_Some load nid :
  pick (fst <$> nodes) load cap = Some nid -> nid ∈ fst <$> nodes /\ get0 load nid < get0 cap nid.
Proof.
  unfold pick. destruct (pick_fold load (fst <$> nodes) (None, 0)) as (_ & _ & H).
  intros Hp. destruct H as [[Ef _]|(n & Hn & Ef & Es & Hlt)]; simpl in *.
  - rewrite Ef in Hp. done.
  - rewrite Ef in Hp. simplify_eq. split; [done|]. rewrite Es in Hlt. lia.
Qed.

Lemma pick_None load nid :
  pick (fst <$> nodes) load cap = None -> nid ∈ fst <$> nodes -> get0 cap nid <= get0 load nid.
Proof.
  unfold pick. destruct (pick_fold load (fst <$> nodes) (None, 0)) as (_ & H2 & H).
  intros Hp Hn. destruct H as [[_ Es]|(n & _ & Ef & _)]; simpl in *; [|congruence].
  specialize (H2 _ Hn). lia.
Qed.

Lemma node_has_cap nid : nid ∈ fst <$> nodes -> is_Some (cap !! nid).
Proof.
  unfold cap, cap_of. induction nodes as [|[i c] l IH]; simpl; [intros H; by apply elem_of_nil in H|].
  intros [->|Hn]%elem_of_cons; rewrite lookup_insert; case_decide; eauto. done.
Qed.

Lemma cap_is_node nid : is_Some (cap !! nid) -> nid ∈ fst <$> nodes.
Proof.
  unfold cap, cap_of. intros [c Hc]. apply elem_of_list_to_map_2 in Hc.
  apply list_elem_of_fmap in Hc as ([i c'] & He & Hin). simpl in He. simplify_eq. apply list_elem_of_fmap. by exists (i, c').
Qed.

(** First loop. *)
Lemma keep_loop existing cams plan load plan' load' :
  plan_inv plan load -> NoDup cams -> (forall c, c ∈ cams -> plan !! c = None) ->
  foldl (keep_step existing cap) (plan, load) cams = (plan', load') ->
  plan_inv plan' load' /\ (forall c, c ∉ cams -> plan' !! c = plan !! c) /\
  (forall c nid, c ∈ cams -> plan' !! c = Some nid -> existing !! c = Some nid).
Proof.
  revert plan load. induction cams as [|c cams IH]; intros plan load HI Hnd Hnew; cbn [foldl].
  { intros [= <- <-]. split_and!; try done. intros c nid Hc. by apply elem_of_nil in Hc. }
  apply NoDup_cons in Hnd as [Hc Hnd].
  assert (Hstep : (keep_step existing cap (plan, load) c = (plan, load)) \/
    exists nid, existing !! c = Some nid /\
      keep_step existing cap (plan, load) c = (<[c := nid]> plan, <[nid := get0 load nid + 1]> load) /\
      plan_inv (<[c := nid]> plan) (<[nid := get0 load nid + 1]> load)).
  { unfold keep_step. destruct (existing !! c) as [nid|]; [|auto]. destruct (cap !! nid) as [k|] eqn:Ek; [|auto].
    zcase; [right|auto]. exists nid. split_and!; try done.
    apply plan_inv_put; [done|apply Hnew; set_solver|by rewrite Ek|unfold get0; by rewrite Ek]. }
  destruct Hstep as [->|(nid & Hex & -> & HI')]; intros Hf.
  - destruct (IH plan load) as (H1 & H2 & H3); try done; [intros; apply Hnew; set_solver|].
    split_and!; try done.
    + intros c' Hc'. apply H2. set_solver.
    + intros c' n [->|Hin]%elem_of_cons Hp; [|by apply H3].
      rewrite H2, (Hnew c) in Hp by set_solver. done.
  - destruct (IH _ _ HI' Hnd) as (H1 & H2 & H3); [|exact Hf|].
    { intros c' Hc'. rewrite lookup_insert_ne by set_solver. apply Hnew. set_solver. }
    split_and!; try done.
    + intros c' Hc'. rewrite H2 by set_solver. rewrite lookup_insert_ne by set_solver. done.
    + intros c' n [->|Hin]%elem_of_cons Hp; [|by apply H3].
      rewrite H2, lookup_insert_eq in Hp by done. congruence.
Qed.

(** Second loop.  [pend0] are the cameras already left pending. *)
Lemma place_loop cams plan load pend0 plan' load' pend' :
  plan_inv plan load -> NoDup cams -> 
  (pend0 <> [] -> forall nid, nid ∈ fst <$> nodes -> get0 cap nid <= get0 load nid) ->
  foldl (place_step (fst <$> nodes) cap) (plan, load, pend0) cams = (plan', load', pend') ->
  plan_inv plan' load' /\ plan ⊆ plan' /\
  (pend' <> [] -> forall nid, nid ∈ fst <$> nodes -> get0 cap nid <= get0 load' nid) /\
  (forall c, c ∈ pend' <-> c ∈ pend0 \/ (c ∈ cams /\ plan' !! c = None)) /\
  (forall c, c ∉ cams -> plan' !! c = plan !! c) /\
  Z.of_nat (size plan' + length pend') = 
    Z.of_nat (size plan + length pend0) + count_on (fun c => bool_decide (plan !! c = None)) cams.
Proof.
  revert plan load pend0. induction cams as [|c cams IH]; intros plan load pend0 HI Hnd Hfull; cbn [foldl].
  { intros [= <- <- <-]. unfold count_on, sum_on; simpl. split_and!; try done; set_solver by lia. }
  apply NoDup_cons in Hnd as [Hc Hnd]. rewrite count_on_cons. cbn [place_step].
  destruct (plan !! c) as [n|] eqn:Ec; cbn.
  - intros Hf. destruct (IH _ _ _ HI Hnd Hfull Hf) as (H1 & H2 & H3 & H4 & H5 & H6).
    split_and!; try done.
    + intros x. rewrite H4, elem_of_cons. pose proof (lookup_weaken _ _ _ _ Ec H2). naive_solver.
    + intros c' Hc'. apply H5. set_solver.
  - destruct (pick (fst <$> nodes) load cap) as [nid|] eqn:Ep; intros Hf.
    + apply pick_Some in Ep as [Hn Hroom].
      assert (HI' := plan_inv_put _ _ c nid HI Ec (node_has_cap _ Hn) Hroom).
      edestruct IH as (H1 & H2 & H3 & H4 & H5 & H6); [exact HI'|exact Hnd| |exact Hf|].
      { intros Hp. exfalso. specialize (Hfull Hp _ Hn). lia. }
      assert (Hcnt : count_on (fun c0 => bool_decide (<[c := nid]> plan !! c0 = None)) cams =
                     count_on (fun c0 => bool_decide (plan !! c0 = None)) cams).
      { unfold count_on. apply sum_on_ext. intros x Hx. by rewrite lookup_insert_ne by set_solver. }
      split_and!; try done.
      * etrans; [|exact H2]. by apply insert_subseteq.
      * intros x. rewrite H4, elem_of_cons.
        pose proof (lookup_weaken _ _ c nid ltac:(apply lookup_insert_eq) H2). naive_solver.
      * intros c' Hc'. rewrite H5 by set_solver. apply lookup_insert_ne. set_solver.
      * rewrite H6, Hcnt, map_size_insert_None by done. lia.
    + assert (Hall := fun n Hn => pick_None load n Ep Hn).
      edestruct IH as (H1 & H2 & H3 & H4 & H5 & H6); [exact HI|exact Hnd| |exact Hf|]; [auto|].
      assert (Hno : plan' !! c = None) by (by rewrite H5).
      split_and!; try done.
      * intros x. rewrite H4, elem_of_cons, elem_of_app, list_elem_of_singleton. naive_solver.
      * intros c' Hc'. apply H5. set_solver.
      * rewrite H6, length_app. simpl. lia.
Qed.
End Invariant.

(** ** The plan as a whole *)

Section Counting.
Lemma on_node_delete (m : gmap Z Z) c n :
  on_node m n = on_node (delete c m) n + (if bool_decide (m !! c = Some n) then 1 else 0).
Proof.
  destruct (m !! c) as [k|] eqn:E.
  - rewrite <- (insert_delete_id m c k E) at 1.
    rewrite on_node_insert by apply lookup_delete_eq. case_decide; case_bool_decide; naive_solver lia.
  - rewrite delete_id by done. rewrite bool_decide_eq_false_2 by done. lia.
Qed.

(** Distinct keys mapped to [n] are at most [on_node m n]. *)
Lemma count_le_on_node (m : gmap Z Z) n l :
  NoDup l -> count_on (fun c => bool_decide (m !! c = Some n)) l <= on_node m n.
Proof.
  revert m. induction l as [|c l IH]; intros m Hnd; [apply on_node_nonneg|].
  apply NoDup_cons in Hnd as [Hc Hnd]. rewrite count_on_cons, (on_node_delete m c n).
  specialize (IH (delete c m) Hnd).
  assert (Heq : count_on (fun x => bool_decide (delete c m !! x = Some n)) l =
                count_on (fun x => bool_decide (m !! x = Some n)) l).
  { unfold count_on. apply sum_on_ext. intros x Hx. rewrite lookup_delete_ne; [done|]. by intros ->. }
  lia.
Qed.

Lemma sum_on_indicator (f : Z -> Z) (i : Z) (l : list Z) :
  NoDup l -> i ∈ l -> sum_on (fun n => f n + (if decide (i = n) then 1 else 0)) l = sum_on f l + 1.
Proof.
  induction l as [|x l IH]; intros Hnd Hi; [by apply elem_of_nil in Hi|].
  apply NoDup_cons in Hnd as [Hx Hnd]. rewrite !sum_on_cons. apply elem_of_cons in Hi as [->|Hi].
  - rewrite decide_True by done.
    rewrite (sum_on_ext _ f l); [lia|]. intros y Hy. rewrite decide_False; [lia|]. by intros ->.
  - rewrite IH by done. rewrite decide_False; [lia|]. by intros ->.
Qed.

Lemma size_sum (plan : gmap Z Z) (l : list Z) :
  NoDup l -> (forall c n, plan !! c = Some n -> n ∈ l) -> Z.of_nat (size plan) = sum_on (on_node plan) l.
Proof.
  intros Hl. induction plan as [|c n plan Hc IH] using map_ind; intros Hv.
  - rewrite map_size_empty, (sum_on_ext _ (fun _ => 0)).
    + induction l; [done|]. apply NoDup_cons in Hl as [_ Hl]. rewrite sum_on_cons. by rewrite <- IHl.
    + intros x _. unfold on_node. by rewrite map_filter_empty.
  - rewrite map_size_insert_None by done.
    rewrite (sum_on_ext _ (fun m => on_node plan m + (if decide (n = m) then 1 else 0)))
      by (intros; by apply on_node_insert).
    rewrite sum_on_indicator, <- IH; [lia| |done|eapply Hv, lookup_insert_eq].
    intros c' n' Hc'. apply (Hv c'). rewrite lookup_insert_ne by congruence. done.
Qed.
End Counting.

Section MakePlan.
Context (nodes : list (Z * Z)) (cams : list Z).
Hypothesis nodes_distinct : NoDup (fst <$> nodes).
Hypothesis cams_distinct : NoDup cams.

Record plan_ok (p : Plan) : Prop := {
  po_inv : plan_inv nodes (p_plan p) (p_load p);
  po_dom : forall c n, p_plan p !! c = Some n -> c ∈ cams;
  po_pending : forall c, c ∈ p_pending p <-> c ∈ cams /\ p_plan p !! c = None;
  po_full : p_pending p <> [] -> forall n, n ∈ fst <$> nodes -> on_node (p_plan p) n = get0 (cap_of nodes) n;
  po_count : Z.of_nat (size (p_plan p) + length (p_pending p)) = Z.of_nat (length cams)
}.

Lemma count_on_size (plan : gmap Z Z) :
  (forall c n, plan !! c = Some n -> c ∈ cams) ->
  Z.of_nat (size plan) + count_on (fun c => bool_decide (plan !! c = None)) cams = Z.of_nat (length cams).
Proof.
  intros Hd. assert (H : Z.of_nat (size plan) = count_on (fun c => bool_decide (is_Some (plan !! c))) cams).
  { clear nodes nodes_distinct. revert Hd. induction plan as [|c n plan Hc IH] using map_ind; intros Hv.
    - rewrite map_size_empty. clear Hv. induction cams as [|x l IHl]; [done|].
      apply NoDup_cons in cams_distinct as [_ Hl]. rewrite count_on_cons, <- IHl by done.
      rewrite lookup_empty, bool_decide_eq_false_2; [done|]. by intros [? ?].
    - rewrite map_size_insert_None by done. unfold count_on.
      rewrite (sum_on_ext _ (fun x => (if bool_decide (is_Some (plan !! x)) then 1 else 0) +
        (if decide (c = x) then 1 else 0))).
      + rewrite sum_on_indicator; [|done|eapply Hv, lookup_insert_eq]. rewrite Nat2Z.inj_succ, IH; [done|].
        intros c' n' Hc'. apply (Hv c' n'). rewrite lookup_insert_ne by congruence. done.
      + intros x _. rewrite lookup_insert. case_decide as Hx; [subst x; rewrite Hc|].
        * rewrite bool_decide_eq_true_2 by eauto. rewrite bool_decide_eq_false_2; [done|]. by intros [? ?].
        * lia. }
  rewrite H. clear. induction cams as [|x l IH]; [done|]. rewrite !count_on_cons. simpl length.
  destruct (plan !! x); simpl; lia.
Qed.

Lemma make_plan_ok existing : plan_ok (make_plan nodes existing cams).
Proof.
  unfold make_plan.
  destruct (foldl (keep_step existing (cap_of nodes)) (∅, load0 nodes) cams) as [plan1 load1] eqn:E1.
  destruct (foldl (place_step (fst <$> nodes) (cap_of nodes)) (plan1, load1, []) cams) as [[plan2 load2] pend] eqn:E2.
  apply keep_loop in E1 as (HI1 & Hout1 & _); [|apply plan_inv_empty|done|intros; apply lookup_empty].
  assert (Hdom1 : forall c n, plan1 !! c = Some n -> c ∈ cams).
  { intros c n Hc. destruct (decide (c ∈ cams)) as [|Hn]; [done|]. rewrite (Hout1 _ Hn), lookup_empty in Hc. done. }
  apply place_loop in E2 as (HI2 & Hsub & Hfull & Hpend & Hout2 & Hcnt); [|done|done|done].
  split; simpl; try done.
  - intros c n Hc. destruct (decide (c ∈ cams)) as [|Hn]; [done|]. rewrite (Hout2 _ Hn) in Hc. by eapply Hdom1.
  - intros c. rewrite Hpend. set_solver.
  - intros Hp n Hn. pose proof (Hfull Hp n Hn). pose proof (pi_cap _ _ _ HI2 n). pose proof (pi_load _ _ _ HI2 n). lia.
  - pose proof (count_on_size plan1 Hdom1). simpl in Hcnt. lia.
Qed.

(** A camera whose node has room for all its current cameras stays. *)
Lemma keep_loop_stays existing nid l plan load plan' load' :
  plan_inv nodes plan load -> NoDup l -> (forall c, c ∈ l -> plan !! c = None) -> is_Some (cap_of nodes !! nid) ->
  on_node plan nid + count_on (fun c => bool_decide (existing !! c = Some nid)) l <= get0 (cap_of nodes) nid ->
  foldl (keep_step existing (cap_of nodes)) (plan, load) l = (plan', load') ->
  forall c, c ∈ l -> existing !! c = Some nid -> plan' !! c = Some nid.
Proof.
  revert plan load. induction l as [|x l IH]; intros plan load HI Hnd Hnew Hcap Hroom Hf c Hc Hex.
  { by apply elem_of_nil in Hc. }
  apply NoDup_cons in Hnd as [Hx Hnd]. cbn [foldl] in Hf. rewrite count_on_cons in Hroom.
  assert (Hcnt : 0 <= count_on (fun c => bool_decide (existing !! c = Some nid)) l)
    by apply count_on_nonneg.
  assert (Hput : forall n, existing !! x = Some n -> is_Some (cap_of nodes !! n) -> get0 load n < get0 (cap_of nodes) n ->
    plan_inv nodes (<[x := n]> plan) (<[n := get0 load n + 1]> load) /\
    (forall c, c ∈ l -> <[x := n]> plan !! c = None)).
  { intros n _ Hn Hlt. split; [apply plan_inv_put; try done; apply Hnew; set_solver|].
    intros c' Hc'. rewrite lookup_insert_ne by set_solver. apply Hnew. set_solver. }
  destruct (keep_step existing (cap_of nodes) (plan, load) x) as [plan1 load1] eqn:E1.
  unfold keep_step in E1. destruct (existing !! x) as [n|] eqn:Ex.
  2: { simplify_eq. rewrite bool_decide_eq_false_2 in Hroom by done.
       apply elem_of_cons in Hc as [->|Hc]; [congruence|].
       eapply (IH plan1 load1); eauto; first [lia | intros; apply Hnew; set_solver]. }
  destruct (cap_of nodes !! n) as [k|] eqn:Ek.
  2: { simplify_eq. assert (n <> nid) by (intros ->; rewrite Ek in Hcap; by destruct Hcap).
       rewrite bool_decide_eq_false_2 in Hroom by congruence.
       apply elem_of_cons in Hc as [->|Hc]; [congruence|].
       eapply (IH plan1 load1); eauto; first [lia | intros; apply Hnew; set_solver]. }
  assert (Hk : get0 (cap_of nodes) n = k) by (unfold get0; by rewrite Ek).
  destruct (get0 load n <? k) eqn:Elt; simplify_eq.
  - destruct (Hput n) as [HI' Hnew']; [done|eauto|lia|].
    assert (Hon : on_node (<[x := n]> plan) nid + count_on (fun c => bool_decide (existing !! c = Some nid)) l
      <= get0 (cap_of nodes) nid).
    { rewrite on_node_insert by (apply Hnew; set_solver).
      destruct (decide (n = nid)) as [->|];
        [rewrite bool_decide_eq_true_2 in Hroom by done|rewrite bool_decide_eq_false_2 in Hroom by congruence]; lia. }
    apply elem_of_cons in Hc as [->|Hc]; [|by eapply (IH _ _ HI' Hnd)].
    apply keep_loop in Hf as (_ & Hout & _); [|done|done|done].
    rewrite (Hout _ Hx), lookup_insert_eq. congruence.
  - assert (n <> nid).
    { intros ->. rewrite bool_decide_eq_true_2 in Hroom by done. pose proof (pi_load _ _ _ HI nid). lia. }
    rewrite bool_decide_eq_false_2 in Hroom by congruence.
    apply elem_of_cons in Hc as [->|Hc]; [congruence|].
    eapply (IH plan1 load1); eauto; first [lia | intros; apply Hnew; set_solver].
Qed.

Lemma make_plan_stays existing c nid :
  c ∈ cams -> existing !! c = Some nid -> nid ∈ fst <$> nodes ->
  count_on (fun x => bool_decide (existing !! x = Some nid)) cams <= get0 (cap_of nodes) nid ->
  p_plan (make_plan nodes existing cams) !! c = Some nid.
Proof.
  intros Hc Hex Hn Hroom. unfold make_plan.
  destruct (foldl (keep_step existing (cap_of nodes)) (∅, load0 nodes) cams) as [plan1 load1] eqn:E1.
  destruct (foldl (place_step (fst <$> nodes) (cap_of nodes)) (plan1, load1, []) cams) as [[plan2 load2] pend] eqn:E2.
  assert (Hk : plan1 !! c = Some nid).
  { eapply (keep_loop_stays existing nid cams ∅ (load0 nodes)); eauto using plan_inv_empty, node_has_cap. }
  apply keep_loop in E1 as (HI1 & _ & _); [|apply plan_inv_empty|done|intros; apply lookup_empty].
  apply place_loop in E2 as (_ & Hsub & _); [|done|done|done]. simpl. by eapply lookup_weaken.
Qed.

(** The number of cameras placed is exactly what the pool can take. *)
Lemma total_cap_sum : total_cap nodes = sum_on (get0 (cap_of nodes)) (fst <$> nodes).
Proof.
  unfold total_cap, cap_of, get0. clear cams cams_distinct. induction nodes as [|[i c] l IH]; [done|].
  rewrite fmap_cons in nodes_distinct. apply NoDup_cons in nodes_distinct as [Hi Hl].
  rewrite !fmap_cons, !sum_on_cons. cbn [list_to_map fst snd foldr].
  rewrite lookup_insert_eq. cbn [default]. f_equal. rewrite IH by done. apply sum_on_ext. intros x Hx.
  rewrite lookup_insert_ne; [done|]. by intros ->.
Qed.

Lemma plan_size p : plan_ok p -> Z.of_nat (size (p_plan p)) = Z.min (Z.of_nat (length cams)) (total_cap nodes).
Proof.
  intros Hp. assert (Hs : Z.of_nat (size (p_plan p)) = sum_on (on_node (p_plan p)) (fst <$> nodes)).
  { apply size_sum; [done|]. intros c n Hc. eapply cap_is_node, (pi_node _ _ _ (po_inv _ Hp)); eauto. }
  assert (Hle : sum_on (on_node (p_plan p)) (fst <$> nodes) <= total_cap nodes).
  { rewrite total_cap_sum. generalize (fst <$> nodes). intros l. induction l as [|x l IH]; [done|].
    rewrite !sum_on_cons. pose proof (pi_cap _ _ _ (po_inv _ Hp) x). lia. }
  pose proof (po_count _ Hp) as Hc. destruct (p_pending p) as [|x r] eqn:E; simpl in Hc; [lia|].
  assert (sum_on (on_node (p_plan p)) (fst <$> nodes) = total_cap nodes); [|lia].
  rewrite total_cap_sum. apply sum_on_ext. intros n Hn. apply (po_full _ Hp); [by rewrite E|done].
Qed.

(** Planning again from the plan changes nothing. *)
Lemma make_plan_idem existing :
  p_plan (make_plan nodes (p_plan (make_plan nodes existing cams)) cams) = p_plan (make_plan nodes existing cams).
Proof.
  set (p := make_plan nodes existing cams). assert (Hp : plan_ok p) by apply make_plan_ok.
  set (q := make_plan nodes (p_plan p) cams). assert (Hq : plan_ok q) by apply make_plan_ok.
  symmetry. apply map_subseteq_size_eq.
  - apply map_subseteq_spec. intros c n Hc. apply make_plan_stays.
    + by eapply (po_dom _ Hp).
    + done.
    + eapply cap_is_node, (pi_node _ _ _ (po_inv _ Hp)); eauto.
    + etrans; [by apply count_le_on_node|]. apply (pi_cap _ _ _ (po_inv _ Hp)).
  - pose proof (plan_size p Hp). pose proof (plan_size q Hq). lia.
Qed.
End MakePlan.
