(* ===== verification/Scheduler.v ===== *)
(** * Distributed inference and encoder nodes

    src/server/service/ai_scheduler.py, encode_scheduler.py, ai_node_registry.py,
    encode_node_registry.py, live_activity.py, encode_offload.py (gates);
    model/ai_node.py, encoding_node.py, detection_assignment.py,
    encode_assignment.py; controller/ai_node.py, encode_node.py; the supervise
    tasks.  The two registries have the same shape, so one node record, one
    assignment record and one world type serve both: [n_capacity] is
    [AiNode.capacity] or [EncodingNode.max_sessions].  Names, endpoints,
    benchmarks and other descriptive columns are not kept. *)

From S2P Require Import Prelude PyStr Redis Token Sessions Planner.
From stdpp Require Import pretty.
Local Open Scope Z_scope.

Inductive node_status := Online | Degraded | Offline | Draining | Disabled.
#[export] Instance node_status_eq_dec : EqDecision node_status.
Proof. solve_decision. Defined.

Record Node := {
  n_id : Z;
  n_uuid : string;
  n_status : node_status;
  n_enabled : bool;
  n_gpu : bool;
  n_capacity : Z;
  n_assigned_count : Z;
  n_last_heartbeat : option Z;
  n_token_jti : option string;
  n_deleted_at : option Z
}.

Inductive assign_state := Pending | Active | Reassigning | Paused.
#[export] Instance assign_state_eq_dec : EqDecision assign_state.
Proof. solve_decision. Defined.

Record Assignment := {
  a_node_id : Z;
  a_state : assign_state;
  a_claimed_at : option Z;
  a_last_report_ts : option Z;
  a_epoch : option Z
}.

Record Stream := {
  st_id : Z;
  st_role : string;
  st_go2rtc_name : string;
  st_is_default_live : bool;
  st_is_default_full : bool;
  st_enabled : bool;
  st_codec : option string
}.

Record Camera := {
  cam_id : Z;
  cam_is_enabled : bool;
  cam_deleted_at : option Z;
  cam_live_transcode : bool;
  cam_dual_recording : bool;
  cam_dual_record_stream : option string;
  cam_streams : list Stream
}.

(** One registry: its nodes (primary-key order), its assignment table keyed by
    the unique camera id, the cameras and settings it reads, the streams pushed
    to go2rtc, and the token service's world (clock, Redis, uuids). *)
Record Sched := {
  s_tok : World;
  s_nodes : list Node;
  s_rows : gmap Z Assignment;
  s_cams : list Camera;
  s_detect_global : bool;             (* ai_settings, global row: detection_enabled *)
  s_detect : gmap Z bool;             (* per-camera override rows *)
  s_flag : bool;                      (* feature flag 'encoding_nodes' *)
  s_idle_s : Z;                       (* live_transcode_idle_s *)
  s_resynced : list Z                 (* go2rtc_sync.sync_camera calls *)
}.

Definition s_now (s : Sched) : Z := w_now (s_tok s).

Definition set_tok (t : World) (s : Sched) : Sched :=
  {| s_tok := t; s_nodes := s_nodes s; s_rows := s_rows s; s_cams := s_cams s;
     s_detect_global := s_detect_global s; s_detect := s_detect s; s_flag := s_flag s;
     s_idle_s := s_idle_s s; s_resynced := s_resynced s |}.
Definition set_nodes (l : list Node) (s : Sched) : Sched :=
  {| s_tok := s_tok s; s_nodes := l; s_rows := s_rows s; s_cams := s_cams s;
     s_detect_global := s_detect_global s; s_detect := s_detect s; s_flag := s_flag s;
     s_idle_s := s_idle_s s; s_resynced := s_resynced s |}.
Definition set_rows (r : gmap Z Assignment) (s : Sched) : Sched :=
  {| s_tok := s_tok s; s_nodes := s_nodes s; s_rows := r; s_cams := s_cams s;
     s_detect_global := s_detect_global s; s_detect := s_detect s; s_flag := s_flag s;
     s_idle_s := s_idle_s s; s_resynced := s_resynced s |}.
Definition add_resync (l : list Z) (s : Sched) : Sched :=
  {| s_tok := s_tok s; s_nodes := s_nodes s; s_rows := s_rows s; s_cams := s_cams s;
     s_detect_global := s_detect_global s; s_detect := s_detect s; s_flag := s_flag s;
     s_idle_s := s_idle_s s; s_resynced := s_resynced s ++ l |}.

(** ** Node rows (model/ai_node.py, model/encoding_node.py) *)

Definition node_live (n : Node) : bool := bool_decide (n_deleted_at n = None).

Definition schedulable_test (n : Node) : bool :=
  node_live n && n_enabled n && bool_decide (n_status n = Online).

(** [AiNode.schedulable]: ORDER BY gpu DESC, capacity DESC *)
Definition ai_schedulable (l : list Node) : list Node :=
  sort_on (fun n => if n_gpu n then 0 else 1) (sort_on (fun n => - n_capacity n) (List.filter schedulable_test l)).

(** [EncodingNode.schedulable]: ORDER BY max_sessions DESC *)
Definition encode_schedulable (l : list Node) : list Node :=
  sort_on (fun n => - n_capacity n) (List.filter schedulable_test l).

(** [stale(older_than)] *)
Definition stale_test (older_than : Z) (n : Node) : bool :=
  node_live n && (bool_decide (n_status n = Online) || bool_decide (n_status n = Degraded)) &&
  match n_last_heartbeat n with Some t => t <? older_than | None => false end.

Definition node_get_by_id (id : Z) (l : list Node) : option Node :=
  List.find (fun n => (n_id n =? id) && node_live n) l.

(** [node.update(...)] commits the row with this id. *)
Definition put_node (row : Node) (l : list Node) : list Node :=
  (fun n => if n_id n =? n_id row then row else n) <$> l.

Definition with_status (st : node_status) (n : Node) : Node :=
  {| n_id := n_id n; n_uuid := n_uuid n; n_status := st; n_enabled := n_enabled n; n_gpu := n_gpu n;
     n_capacity := n_capacity n; n_assigned_count := n_assigned_count n;
     n_last_heartbeat := n_last_heartbeat n; n_token_jti := n_token_jti n; n_deleted_at := n_deleted_at n |}.
Definition with_enabled (b : bool) (n : Node) : Node :=
  {| n_id := n_id n; n_uuid := n_uuid n; n_status := n_status n; n_enabled := b; n_gpu := n_gpu n;
     n_capacity := n_capacity n; n_assigned_count := n_assigned_count n;
     n_last_heartbeat := n_last_heartbeat n; n_token_jti := n_token_jti n; n_deleted_at := n_deleted_at n |}.
Definition with_capacity (c : Z) (n : Node) : Node :=
  {| n_id := n_id n; n_uuid := n_uuid n; n_status := n_status n; n_enabled := n_enabled n; n_gpu := n_gpu n;
     n_capacity := c; n_assigned_count := n_assigned_count n;
     n_last_heartbeat := n_last_heartbeat n; n_token_jti := n_token_jti n; n_deleted_at := n_deleted_at n |}.
Definition with_count (k : Z) (n : Node) : Node :=
  {| n_id := n_id n; n_uuid := n_uuid n; n_status := n_status n; n_enabled := n_enabled n; n_gpu := n_gpu n;
     n_capacity := n_capacity n; n_assigned_count := k;
     n_last_heartbeat := n_last_heartbeat n; n_token_jti := n_token_jti n; n_deleted_at := n_deleted_at n |}.
Definition with_beat (st : node_status) (now : Z) (n : Node) : Node :=
  {| n_id := n_id n; n_uuid := n_uuid n; n_status := st; n_enabled := n_enabled n; n_gpu := n_gpu n;
     n_capacity := n_capacity n; n_assigned_count := n_assigned_count n;
     n_last_heartbeat := Some now; n_token_jti := n_token_jti n; n_deleted_at := n_deleted_at n |}.
Definition with_token (jti : string) (n : Node) : Node :=
  {| n_id := n_id n; n_uuid := n_uuid n; n_status := n_status n; n_enabled := n_enabled n; n_gpu := n_gpu n;
     n_capacity := n_capacity n; n_assigned_count := n_assigned_count n;
     n_last_heartbeat := n_last_heartbeat n; n_token_jti := Some jti; n_deleted_at := n_deleted_at n |}.
(** [soft_delete] *)
Definition soft_deleted (now : Z) (n : Node) : Node :=
  {| n_id := n_id n; n_uuid := n_uuid n; n_status := Disabled; n_enabled := n_enabled n; n_gpu := n_gpu n;
     n_capacity := n_capacity n; n_assigned_count := n_assigned_count n;
     n_last_heartbeat := n_last_heartbeat n; n_token_jti := n_token_jti n; n_deleted_at := Some now |}.

(** [AiNode.create] / [EncodingNode.create] with the column defaults *)
Definition new_node (id : Z) (uuid : string) : Node :=
  {| n_id := id; n_uuid := uuid; n_status := Offline; n_enabled := true; n_gpu := false; n_capacity := 0;
     n_assigned_count := 0; n_last_heartbeat := None; n_token_jti := None; n_deleted_at := None |}.

(** ** Assignment rows (model/detection_assignment.py, model/encode_assignment.py) *)

(** The row [assign] writes, given the camera's current row. *)
Definition assigned_row (nid : Z) (st : assign_state) (old : option Assignment) : Assignment :=
  match old with
  | None => {| a_node_id := nid; a_state := st; a_claimed_at := None; a_last_report_ts := None;
               a_epoch := Some 1 |}
  | Some row =>
      if a_node_id row =? nid
      then {| a_node_id := nid; a_state := st; a_claimed_at := a_claimed_at row;
              a_last_report_ts := a_last_report_ts row; a_epoch := a_epoch row |}
      else {| a_node_id := nid; a_state := st; a_claimed_at := None;
              a_last_report_ts := a_last_report_ts row; a_epoch := Some (or_Z (a_epoch row) 0 + 1) |}
  end.

Definition assign (cam nid : Z) (st : assign_state) (rows : gmap Z Assignment) : gmap Z Assignment :=
  <[cam := assigned_row nid st (rows !! cam)]> rows.

Definition with_state (st : assign_state) (a : Assignment) : Assignment :=
  {| a_node_id := a_node_id a; a_state := st; a_claimed_at := a_claimed_at a;
     a_last_report_ts := a_last_report_ts a; a_epoch := a_epoch a |}.

Definition mark_report (now cam : Z) (rows : gmap Z Assignment) : gmap Z Assignment :=
  match rows !! cam with
  | None => rows
  | Some row =>
      <[cam := if bool_decide (a_state row = Pending)
               then {| a_node_id := a_node_id row; a_state := Active; a_claimed_at := Some now;
                       a_last_report_ts := Some now; a_epoch := a_epoch row |}
               else {| a_node_id := a_node_id row; a_state := a_state row; a_claimed_at := a_claimed_at row;
                       a_last_report_ts := Some now; a_epoch := a_epoch row |}]> rows
  end.

(** [for a in for_node(id): a.set_state('reassigning')] *)
Definition free_node (nid : Z) (rows : gmap Z Assignment) : gmap Z Assignment :=
  (fun a => if a_node_id a =? nid then with_state Reassigning a else a) <$> rows.

(** ** The etag (nodes re-poll when it moves) *)

Definition bump_etag (key : string) (s : Sched) : Sched :=
  match r_incr (s_now s) key (w_redis (s_tok s)) with
  | Some (_, r) => set_tok (set_redis r (s_tok s)) s
  | None => s
  end.

Definition current_etag (key : string) (s : Sched) : string :=
  match r_get (s_now s) key (w_redis (s_tok s)) with
  | Some (Some (RNum n)) => pretty n
  | Some (Some (RText t)) => or_str (Some t) "0"
  | _ => "0"
  end.

(** ** Rebalance: plan, then rewrite the table *)

(** One camera of the work list. [unchanged] is the source's keep test. *)
Definition apply_step (unchanged : Assignment -> Z -> bool) (plan : gmap Z Z) (existing : gmap Z Assignment)
    (st : gmap Z Assignment * list Z) (cam : Z) : gmap Z Assignment * list Z :=
  let '(rows, changed) := st in
  match plan !! cam with
  | None => match existing !! cam with
            | Some _ => (delete cam rows, changed ++ [cam])
            | None => st
            end
  | Some nid =>
      match existing !! cam with
      | Some a => if unchanged a nid then st else (assign cam nid Pending rows, changed ++ [cam])
      | None => (assign cam nid Pending rows, changed ++ [cam])
      end
  end.

(** Rows of cameras no longer on the work list. *)
Definition drop_step (cams : list Z) (st : gmap Z Assignment * list Z) (cam : Z) : gmap Z Assignment * list Z :=
  let '(rows, changed) := st in
  if bool_decide (cam ∈ cams) then st else (delete cam rows, changed ++ [cam]).

Definition row_keys (rows : gmap Z Assignment) : list Z := sort_on (fun z => z) (fst <$> map_to_list rows).

Definition apply_plan (unchanged : Assignment -> Z -> bool) (plan : gmap Z Z) (cams : list Z)
    (existing : gmap Z Assignment) : gmap Z Assignment * list Z :=
  foldl (drop_step cams) (foldl (apply_step unchanged plan existing) (existing, []) cams) (row_keys existing).

(** [for n in nodes: if n.assigned_count != load[n.id]: n.update(...)] *)
Definition update_counts (load : gmap Z Z) (pool : list Node) (l : list Node) : list Node :=
  foldl (fun l n => if n_assigned_count n =? get0 load (n_id n) then l
                    else put_node (with_count (get0 load (n_id n)) n) l) l pool.

Record Result := { rs_assigned : Z; rs_pending : list Z; rs_changed : Z; rs_etag : string }.

(** The common body; the changed cameras are returned for the encoder's resync. *)
Definition rebalance_core (pool : list Node) (unchanged : Assignment -> Z -> bool) (key : string)
    (cams : list Z) (s : Sched) : Plan * list Z * Sched :=
  let p := make_plan ((fun n => (n_id n, n_capacity n)) <$> pool) (a_node_id <$> s_rows s) cams in
  let '(rows, changed) := apply_plan unchanged (p_plan p) cams (s_rows s) in
  let s1 := set_nodes (update_counts (p_load p) pool (s_nodes s)) (set_rows rows s) in
  let s2 := if bool_decide (changed = []) then s1 else bump_etag key s1 in
  (p, changed, s2).

Definition result_of (cams : list Z) (p : Plan) (changed : list Z) (etag : string) : Result :=
  {| rs_assigned := Z.of_nat (length cams) - Z.of_nat (length (p_pending p)); rs_pending := p_pending p;
     rs_changed := Z.of_nat (length changed); rs_etag := etag |}.

(** ** AI scheduler (ai_scheduler.py, ai_config_resolver.enabled_camera_ids) *)

Definition AI_ETAG_KEY : string := "axp:ai:assign:etag".

(** [effective_settings(camera_id)['detection_enabled']] *)
Definition effective_detection (s : Sched) (cam : Z) : bool :=
  match s_detect s !! cam with Some b => b | None => s_detect_global s end.

(** [Camera.get_all_enabled] *)
Definition cameras_enabled (s : Sched) : list Camera :=
  List.filter (fun c => bool_decide (cam_deleted_at c = None) && cam_is_enabled c) (s_cams s).

Definition enabled_camera_ids (s : Sched) : list Z :=
  cam_id <$> List.filter (fun c => effective_detection s (cam_id c)) (cameras_enabled s).

Definition ai_unchanged (a : Assignment) (nid : Z) : bool := a_node_id a =? nid.

Definition ai_rebalance (s : Sched) : Result * Sched :=
  let cams := enabled_camera_ids s in
  let '(p, changed, s') := rebalance_core (ai_schedulable (s_nodes s)) ai_unchanged AI_ETAG_KEY cams s in
  (result_of cams p changed (current_etag AI_ETAG_KEY s'), s').

Definition ai_reassign (nid : Z) (s : Sched) : Result * Sched :=
  ai_rebalance (set_rows (free_node nid (s_rows s)) s).

Definition HEARTBEAT_INTERVAL_S : Z := 5.
Definition NODE_STALE_S : Z := 3 * HEARTBEAT_INTERVAL_S.

(** [mark_offline] on every stale node, then rebalance (ai_supervise.py) *)
Definition offline_stale (s : Sched) : list Node :=
  (fun n => if stale_test (s_now s - NODE_STALE_S * SEC) n then with_status Offline n else n) <$> s_nodes s.

Definition supervise_nodes (s : Sched) : Result * Sched :=
  ai_rebalance (set_nodes (offline_stale s) s).

(** ** Encoder scheduler (encode_scheduler.py, live_activity.py) *)

Definition ENC_ETAG_KEY : string := "axp:encode:assign:etag".
Definition LIVE_KEY_PREFIX : string := "axp:live:act:".

(** [live_activity.is_active]: fails open when Redis is down *)
Definition is_active (name : string) (s : Sched) : bool :=
  if s_idle_s s <=? 0 then true else
  match r_exists (s_now s) (LIVE_KEY_PREFIX +:+ name) (w_redis (s_tok s)) with
  | Some b => b
  | None => true
  end.

(** [live_activity.mark]: best effort *)
Definition mark (name : string) (s : Sched) : Sched :=
  if s_idle_s s <=? 0 then s else
  match r_setex (s_now s) (LIVE_KEY_PREFIX +:+ name) (Z.max 15 (s_idle_s s)) (RNum (epoch (s_now s)))
          (w_redis (s_tok s)) with
  | Some r => set_tok (set_redis r (s_tok s)) s
  | None => s
  end.

Definition default_live_stream (c : Camera) : option Stream :=
  List.find (fun st => st_is_default_live st && st_enabled st) (cam_streams c).

Definition live_transcode_enabled (c : Camera) (st : Stream) : bool :=
  st_is_default_live st && (cam_live_transcode c || bool_decide (st_codec st = Some "h265")).

Definition needs_encode (s : Sched) (c : Camera) : bool :=
  match default_live_stream c with
  | None => false
  | Some st => live_transcode_enabled c st && is_active (st_go2rtc_name st) s
  end.

Definition cameras_needing_encode (s : Sched) : list Z :=
  cam_id <$> List.filter (needs_encode s) (cameras_enabled s).

Definition encode_unchanged (a : Assignment) (nid : Z) : bool :=
  (a_node_id a =? nid) && negb (bool_decide (a_state a = Reassigning)).

(** [resync_camera]: best effort, only for a camera that exists *)
Definition camera_exists (s : Sched) (cam : Z) : bool :=
  existsb (fun c => (cam_id c =? cam) && bool_decide (cam_deleted_at c = None)) (s_cams s).

Definition resync_cameras (cams : list Z) (s : Sched) : Sched :=
  add_resync (List.filter (camera_exists s) cams) s.

Definition encode_rebalance (s : Sched) : Result * Sched :=
  if negb (s_flag s) then
    let keys := row_keys (s_rows s) in
    let s1 := resync_cameras keys (set_rows (foldl (fun rows c => delete c rows) (s_rows s) keys) s) in
    let s2 := if bool_decide (keys = []) then s1 else bump_etag ENC_ETAG_KEY s1 in
    ({| rs_assigned := 0; rs_pending := []; rs_changed := Z.of_nat (length keys);
        rs_etag := current_etag ENC_ETAG_KEY s2 |}, s2)
  else
    let cams := cameras_needing_encode s in
    let '(p, changed, s1) := rebalance_core (encode_schedulable (s_nodes s)) encode_unchanged ENC_ETAG_KEY cams s in
    let s2 := resync_cameras changed s1 in
    (result_of cams p changed (current_etag ENC_ETAG_KEY s2), s2).

Definition encode_reassign (nid : Z) (s : Sched) : Result * Sched :=
  encode_rebalance (set_rows (free_node nid (s_rows s)) s).

Definition supervise_encode_nodes (s : Sched) : Result * Sched :=
  encode_rebalance (set_nodes (offline_stale s) s).

(** [kick]: a viewer arrived on an unassigned camera *)
Definition kick (cam : Z) (s : Sched) : Sched :=
  if (cam =? 0) || negb (s_flag s) then s else
  match s_rows s !! cam with Some _ => s | None => snd (encode_rebalance s) end.

(** encode_offload.py: which source a viewer gets *)
Definition assignment_for (c : Camera) (s : Sched) : option Assignment :=
  if negb (s_flag s) then None else
  match default_live_stream c with
  | None => None
  | Some st => if live_transcode_enabled c st then s_rows s !! cam_id c else None
  end.

(** A node-published stream replaces the local transcode only while the node's
    session is confirmed and the node is online. *)
Definition live_offload_target (c : Camera) (s : Sched) : option (string * string) :=
  match assignment_for c s with
  | None => None
  | Some a =>
      if negb (bool_decide (a_state a = Active)) then None else
      match node_get_by_id (a_node_id a) (s_nodes s) with
      | None => None
      | Some n =>
          if negb (n_enabled n) || negb (bool_decide (n_status n = Online)) then None else
          (fun st => (st_go2rtc_name st +:+ "_enc", st_go2rtc_name st +:+ "_raw")) <$> default_live_stream c
      end
  end.

(** ** Registries (ai_node_registry.py, encode_node_registry.py) *)

Record Payload := {
  pl_gpu : option bool;
  pl_capacity : option Z;          (* capacity / max_sessions *)
  pl_bench_capacity : option Z;    (* the same key inside bench *)
  pl_status : option string;
  pl_active_sessions : list (option Z)   (* None: not an integer *)
}.

Definition ai_capacity (pl : Payload) : Z :=
  if truthy_Z (pl_capacity pl) then default 0 (pl_capacity pl)
  else if truthy_Z (pl_bench_capacity pl) then default 0 (pl_bench_capacity pl)
  else if default false (pl_gpu pl) then 6 else 2.

Definition DEFAULT_MAX_SESSIONS : Z := 4.
Definition max_sessions (pl : Payload) : Z :=
  if truthy_Z (pl_capacity pl) then default 0 (pl_capacity pl)
  else if truthy_Z (pl_bench_capacity pl) then default 0 (pl_bench_capacity pl)
  else DEFAULT_MAX_SESSIONS.

(** Status from a heartbeat: a draining node stays draining; anything but
    online/degraded counts as online. *)
Definition beat_status (n : Node) (pl : Payload) : node_status :=
  if bool_decide (n_status n = Draining) then Draining
  else if bool_decide (or_str (pl_status pl) "online" = "degraded") then Degraded else Online.

Section Registry.
Context {J : JwtLib}.

Definition S_ (A : Type) : Type := M Sched exn A.

(** A token-service call inside the registry. *)
Definition lift {A} (m : T A) : S_ A :=
  fun s => let '(r, t) := m (s_tok s) in (r, set_tok t s).

Definition run_ {A} (f : Sched -> A * Sched) : S_ A := fun s => let '(a, s') := f s in (inr a, s').

(** [try: TokenService.revoke(jti, 60) except Exception: pass] *)
Definition revoke_superseded (n : Node) : S_ unit :=
  if truthy_str (n_token_jti n)
  then try_with (lift (revoke (default "" (n_token_jti n)) 60)) (fun _ => ret tt)
  else ret tt.

Definition joined (pl_gpu0 : bool) (capacity now : Z) (jti : string) (n : Node) : Node :=
  {| n_id := n_id n; n_uuid := n_uuid n; n_status := Online; n_enabled := n_enabled n; n_gpu := pl_gpu0;
     n_capacity := capacity; n_assigned_count := n_assigned_count n; n_last_heartbeat := Some now;
     n_token_jti := Some jti; n_deleted_at := n_deleted_at n |}.

(** [join]: the node token, or [None] for an unknown node *)
Definition ai_join (node_id : Z) (pl : Payload) : S_ (option string) :=
  let! n := gets (fun s => node_get_by_id node_id (s_nodes s)) in
  match n with
  | None => ret None
  | Some n =>
      revoke_superseded n ;;;
      let! tok := lift (issue_node_token (n_uuid n) None) in
      let! now := gets s_now in
      modify (fun s => set_nodes (put_node (joined (default (n_gpu n) (pl_gpu pl)) (ai_capacity pl) now
                         (snd (fst tok)) n) (s_nodes s)) s) ;;;
      let! _ := run_ ai_rebalance in
      ret (Some (fst (fst tok)))
  end.

Definition encode_join (node_id : Z) (pl : Payload) : S_ (option string) :=
  let! n := gets (fun s => node_get_by_id node_id (s_nodes s)) in
  match n with
  | None => ret None
  | Some n =>
      revoke_superseded n ;;;
      let! tok := lift (issue_node_token (n_uuid n) None) in
      let! now := gets s_now in
      modify (fun s => set_nodes (put_node (joined (n_gpu n) (max_sessions pl) now (snd (fst tok)) n)
                         (s_nodes s)) s) ;;;
      let! _ := run_ encode_rebalance in
      ret (Some (fst (fst tok)))
  end.

(** [heartbeat] returns the etag and the drain flag. *)
Definition ai_heartbeat (n : Node) (pl : Payload) (s : Sched) : (string * bool) * Sched :=
  let row := with_beat (beat_status n pl) (s_now s) n in
  let s1 := set_nodes (put_node row (s_nodes s)) s in
  ((current_etag AI_ETAG_KEY s1, bool_decide (n_status row = Draining)), s1).

(** One reported session: confirmed only for the node's own assignment. *)
Definition confirm_step (nid now : Z) (st : gmap Z Assignment * list Z) (c : option Z)
    : gmap Z Assignment * list Z :=
  match c with
  | None => st
  | Some cid =>
      match fst st !! cid with
      | Some a => if a_node_id a =? nid
                  then (mark_report now cid (fst st),
                        if bool_decide (a_state a = Active) then snd st else snd st ++ [cid])
                  else st
      | None => st
      end
  end.

Definition encode_heartbeat (n : Node) (pl : Payload) (s : Sched) : (string * bool) * Sched :=
  let row := with_beat (beat_status n pl) (s_now s) n in
  let s1 := set_nodes (put_node row (s_nodes s)) s in
  let '(rows, flipped) := foldl (confirm_step (n_id n) (s_now s)) (s_rows s1, []) (pl_active_sessions pl) in
  let s2 := resync_cameras flipped (set_rows rows s1) in
  ((current_etag ENC_ETAG_KEY s2, bool_decide (n_status row = Draining)), s2).

(** ** Administration (controller/ai_node.py, controller/encode_node.py) *)

Section NodeController.
(** the registry's own scheduler *)
Context (reassign : Z -> Sched -> Result * Sched).

Definition get_node (id : Z) : S_ Node :=
  let! n := gets (fun s => node_get_by_id id (s_nodes s)) in
  match n with Some n => ret n | None => raise RowNotFoundException end.

Definition node_create (new_id : Z) (name : option string) : S_ (Node * string) :=
  if negb (truthy_str name) then raise (InvalidParameterException "name required") else
  let! uuid := lift fresh_hex in
  let node := new_node new_id uuid in
  modify (fun s => set_nodes (s_nodes s ++ [node]) s) ;;;
  let! tok := lift (issue_join_token new_id None) in
  ret (node, tok).

Definition node_issue_token (id : Z) (ttl_days : option Z) : S_ string :=
  let! n := get_node id in
  when (truthy_str (n_token_jti n)) (lift (revoke (default "" (n_token_jti n)) 60)) ;;;
  let! tok := lift (issue_node_token (n_uuid n) ttl_days) in
  modify (fun s => set_nodes (put_node (with_token (snd (fst tok)) n) (s_nodes s)) s) ;;;
  ret (fst (fst tok)).

(** [update] with the two fields the scheduler reads; [new_capacity] is the
    encoder's [max_sessions] (absent for AI nodes) *)
Definition node_update (id : Z) (new_capacity : option Z) (enabled : option bool) : S_ Node :=
  let! n := get_node id in
  let n1 := match new_capacity with Some c => with_capacity (Z.max 0 c) n | None => n end in
  let n2 := match enabled with
            | Some true => with_enabled true n1
            | Some false => with_status Draining (with_enabled false n1)
            | None => n1
            end in
  modify (fun s => set_nodes (put_node n2 (s_nodes s)) s) ;;;
  (if bool_decide (enabled = Some false) then let! _ := run_ (reassign id) in ret tt else ret tt) ;;;
  ret n2.

Definition node_drain (id : Z) : S_ unit :=
  let! n := get_node id in
  modify (fun s => set_nodes (put_node (with_status Draining n) (s_nodes s)) s) ;;;
  let! _ := run_ (reassign id) in
  ret tt.

Definition node_delete (id : Z) : S_ unit :=
  let! n := get_node id in
  when (truthy_str (n_token_jti n)) (lift (revoke (default "" (n_token_jti n)) 60)) ;;;
  let! now := gets s_now in
  modify (fun s => set_nodes (put_node (soft_deleted now n) (s_nodes s)) s) ;;;
  let! _ := run_ (reassign id) in
  ret tt.
End NodeController.
End Registry.

(** ** The table after a rebalance *)

Section ApplyPlan.
Context (unchanged : Assignment -> Z -> bool) (plan : gmap Z Z) (cams : list Z) (existing : gmap Z Assignment).
Hypothesis cams_distinct : NoDup cams.
Hypothesis plan_dom : forall c n, plan !! c = Some n -> c ∈ cams.

(** What becomes of the row of one camera. *)
Definition new_row (c : Z) : option Assignment :=
  match plan !! c with
  | None => None
  | Some nid =>
      Some (match existing !! c with
            | Some a => if unchanged a nid then a else assigned_row nid Pending (Some a)
            | None => assigned_row nid Pending None
            end)
  end.

Lemma apply_loop l rows changed :
  NoDup l -> (forall c, c ∈ l -> rows !! c = existing !! c) ->
  let r := foldl (apply_step unchanged plan existing) (rows, changed) l in
  (forall c, fst r !! c = if decide (c ∈ l) then new_row c else rows !! c) /\
  (forall c, c ∈ snd r -> c ∈ changed \/ is_Some (plan !! c) \/ is_Some (existing !! c)) /\
  ((forall c, c ∈ l -> match plan !! c, existing !! c with
                      | Some n, Some a => unchanged a n = true
                      | None, None => True
                      | _, _ => False
                      end) -> snd r = changed).
Proof.
  revert rows changed. induction l as [|x l IH]; intros rows changed Hnd Hsame; cbn [foldl].
  { cbv zeta. cbn [fst snd]. split_and!; [|auto|auto].
    intros c. rewrite decide_False; [done|]. by intros H%elem_of_nil. }
  apply NoDup_cons in Hnd as [Hx Hnd].
  set (st := apply_step unchanged plan existing (rows, changed) x).
  assert (Hst : (forall c, c <> x -> fst st !! c = rows !! c) /\ fst st !! x = new_row x).
  { subst st. unfold apply_step, new_row. specialize (Hsame x ltac:(set_solver)).
    destruct (plan !! x) as [n|] eqn:Ep, (existing !! x) as [a|] eqn:Ee; simpl.
    - destruct (unchanged a n); simpl; [auto|]. unfold assign. rewrite Hsame, lookup_insert_eq.
      split; [|done]. intros c Hc. by rewrite lookup_insert_ne.
    - unfold assign. rewrite Hsame, lookup_insert_eq. split; [|done]. intros c Hc. by rewrite lookup_insert_ne.
    - rewrite lookup_delete_eq. split; [|done]. intros c Hc. by rewrite lookup_delete_ne.
    - auto. }
  destruct Hst as [Hne Heq].
  assert (Hch : (snd st = changed \/ snd st = changed ++ [x] /\ (is_Some (plan !! x) \/ is_Some (existing !! x))) /\
    (match plan !! x, existing !! x with
     | Some n, Some a => unchanged a n = true | None, None => True | _, _ => False end -> snd st = changed)).
  { subst st. unfold apply_step. destruct (plan !! x) as [n|], (existing !! x) as [a|]; simpl;
      [destruct (unchanged a n)| | |]; simpl; split; eauto; done. }
  destruct Hch as [Hch1 Hch2]. destruct st as [rows1 changed1] eqn:Est. simpl in *.
  destruct (IH rows1 changed1 Hnd) as (H1 & H2 & H3).
  { intros c Hc. rewrite Hne by set_solver. apply Hsame. set_solver. }
  split_and!.
  - intros c. rewrite H1. destruct (decide (c = x)) as [->|Hcx].
    + rewrite decide_False, decide_True by set_solver. done.
    + rewrite Hne by done. destruct (decide (c ∈ l)); [rewrite decide_True by set_solver|rewrite decide_False by set_solver]; done.
  - intros c Hc%H2. destruct Hch1 as [->|[-> ?]]; set_solver.
  - intros Hall. rewrite H3; [apply Hch2, Hall; set_solver|]. intros c Hc. apply Hall. set_solver.
Qed.

Lemma drop_loop l rows changed :
  let r := foldl (drop_step cams) (rows, changed) l in
  (forall c, fst r !! c = if decide (c ∈ l /\ c ∉ cams) then None else rows !! c) /\
  ((forall c, c ∈ l -> c ∈ cams) -> r = (rows, changed)).
Proof.
  revert rows changed. induction l as [|x l IH]; intros rows changed; cbn [foldl].
  { cbv zeta. cbn [fst snd]. split; [|done]. intros c. rewrite decide_False; [done|]. by intros [H%elem_of_nil _]. }
  unfold drop_step at 2 4. case_bool_decide as Hx.
  - destruct (IH rows changed) as [H1 H2]. split.
    + intros c. rewrite H1. destruct (decide (c ∈ l /\ c ∉ cams)); [rewrite decide_True by set_solver; done|].
      rewrite decide_False; [done|]. set_solver.
    + intros Hall. apply H2. set_solver.
  - destruct (IH (delete x rows) (changed ++ [x])) as [H1 _]. split; [|set_solver].
    intros c. rewrite H1. destruct (decide (c = x)) as [->|Hcx].
    + rewrite (decide_True (P := x ∈ x :: l /\ x ∉ cams)) by set_solver.
      case_decide; [done|]. by rewrite lookup_delete_eq.
    + rewrite lookup_delete_ne by done. destruct (decide (c ∈ l /\ c ∉ cams));
        [rewrite decide_True by set_solver; done|rewrite decide_False by set_solver; done].
Qed.

Lemma elem_of_row_keys c rows : c ∈ row_keys rows <-> is_Some (rows !! c).
Proof.
  unfold row_keys. rewrite elem_of_sort_on, list_elem_of_fmap. split.
  - intros ([k v] & -> & H). apply elem_of_map_to_list in H. eauto.
  - intros [v Hv]. exists (c, v). split; [done|]. by apply elem_of_map_to_list.
Qed.

(** The table is rewritten exactly to the plan. *)
Lemma apply_plan_rows c : fst (apply_plan unchanged plan cams existing) !! c = new_row c.
Proof.
  unfold apply_plan. destruct (apply_loop cams existing []) as (H1 & _ & _); [done|done|].
  destruct (foldl (apply_step _ _ _) _ _) as [rows changed] eqn:E. simpl in H1.
  destruct (drop_loop (row_keys existing) rows changed) as [H2 _]. rewrite H2, H1.
  destruct (decide (c ∈ cams)) as [Hc|Hc].
  - rewrite decide_False; [done|]. set_solver.
  - unfold new_row. destruct (plan !! c) eqn:Ep; [by apply plan_dom in Ep|].
    case_decide as Hd; [done|]. destruct (existing !! c) eqn:Ee; [|done].
    destruct Hd. split; [|done]. apply elem_of_row_keys. by rewrite Ee.
Qed.

Lemma apply_plan_same :
  (forall c, match plan !! c, existing !! c with
             | Some n, Some a => unchanged a n = true
             | None, None => True
             | _, _ => False
             end) -> apply_plan unchanged plan cams existing = (existing, []).
Proof.
  intros Hall. unfold apply_plan. destruct (apply_loop cams existing []) as (H1 & _ & H3); [done|done|].
  specialize (H3 (fun c _ => Hall c)). destruct (foldl (apply_step _ _ _) _ _) as [rows changed] eqn:E. simpl in *. subst changed.
  assert (rows = existing) as ->.
  { apply map_eq. intros c. rewrite H1. case_decide; [|done]. unfold new_row. specialize (Hall c).
    destruct (plan !! c), (existing !! c); try done. by rewrite Hall. }
  destruct (drop_loop (row_keys existing) existing []) as [_ H2]. apply H2.
  intros c [a Ha]%elem_of_row_keys. specialize (Hall c). rewrite Ha in Hall.
  destruct (plan !! c) eqn:Ep; [by eapply plan_dom|done].
Qed.
End ApplyPlan.

Definition caps (pool : list Node) : list (Z * Z) := (fun n => (n_id n, n_capacity n)) <$> pool.

Lemma caps_ids pool : fst <$> caps pool = n_id <$> pool.
Proof. unfold caps. by rewrite <- list_fmap_compose. Qed.

Section Core.
Context (unchanged : Assignment -> Z -> bool).
Hypothesis unchanged_node : forall a n, unchanged a n = true -> a_node_id a = n.

Lemma bump_etag_rows key s : s_rows (bump_etag key s) = s_rows s /\ s_nodes (bump_etag key s) = s_nodes s /\
  s_cams (bump_etag key s) = s_cams s /\ s_detect (bump_etag key s) = s_detect s /\
  s_detect_global (bump_etag key s) = s_detect_global s.
Proof. unfold bump_etag. destruct (r_incr _ _ _) as [[??]|]; done. Qed.

Lemma assigned_row_node nid st o : a_node_id (assigned_row nid st o) = nid.
Proof. destruct o as [a|]; simpl; [|done]. by case_match. Qed.

Lemma core_rows pool key cams s p changed s' :
  NoDup (n_id <$> pool) -> NoDup cams -> rebalance_core pool unchanged key cams s = (p, changed, s') ->
  p = make_plan (caps pool) (a_node_id <$> s_rows s) cams /\
  plan_ok (caps pool) cams p /\
  (forall c, s_rows s' !! c = new_row unchanged (p_plan p) (s_rows s) c) /\
  a_node_id <$> s_rows s' = p_plan p /\
  s_nodes s' = update_counts (p_load p) pool (s_nodes s) /\ s_cams s' = s_cams s /\
  s_detect s' = s_detect s /\ s_detect_global s' = s_detect_global s.
Proof.
  intros Hp Hc H. unfold rebalance_core in H. fold (caps pool) in H.
  assert (Hok : plan_ok (caps pool) cams (make_plan (caps pool) (a_node_id <$> s_rows s) cams))
    by (apply make_plan_ok; [by rewrite caps_ids|done]).
  set (q := make_plan _ _ _) in *.
  destruct (apply_plan unchanged (p_plan q) cams (s_rows s)) as [rows ch] eqn:E.
  assert (Hr : forall c, rows !! c = new_row unchanged (p_plan q) (s_rows s) c).
  { intros c. pose proof (apply_plan_rows unchanged (p_plan q) cams (s_rows s) Hc (po_dom _ _ _ Hok) c) as Hx.
    by rewrite E in Hx. }
  assert (Hw : s_rows s' = rows /\ s_nodes s' = update_counts (p_load q) pool (s_nodes s) /\ s_cams s' = s_cams s /\
    s_detect s' = s_detect s /\ s_detect_global s' = s_detect_global s /\ p = q).
  { simplify_eq. case_bool_decide; [done|].
    match goal with |- context [bump_etag ?k ?x] => destruct (bump_etag_rows k x) as (-> & -> & -> & -> & ->) end. done. }
  destruct Hw as (Hrows & Hn & Hcm & Hd & Hg & ->). split_and!; try done.
  - intros c. by rewrite Hrows.
  - apply map_eq. intros c. rewrite lookup_fmap, Hrows, Hr. unfold new_row.
    destruct (p_plan q !! c) as [nid|]; [|done]. cbn [fmap option_fmap option_map]. f_equal.
    destruct (s_rows s !! c) as [a|]; [|apply assigned_row_node].
    destruct (unchanged a nid) eqn:Eu; [by apply unchanged_node|apply assigned_row_node].
Qed.
End Core.

Lemma ai_unchanged_node a n : ai_unchanged a n = true -> a_node_id a = n.
Proof. unfold ai_unchanged. lia. Qed.
Lemma encode_unchanged_node a n : encode_unchanged a n = true -> a_node_id a = n.
Proof. unfold encode_unchanged. lia. Qed.

(** Rows on one node. *)
Definition rows_on (rows : gmap Z Assignment) (nid : Z) : Z := on_node (a_node_id <$> rows) nid.

(** ** Pools *)

Lemma ai_schedulable_perm l : ai_schedulable l ≡ₚ List.filter schedulable_test l.
Proof. unfold ai_schedulable. by rewrite !sort_on_perm. Qed.
Lemma encode_schedulable_perm l : encode_schedulable l ≡ₚ List.filter schedulable_test l.
Proof. unfold encode_schedulable. by rewrite sort_on_perm. Qed.

Lemma filter_ids_NoDup {X} (f : X -> Z) (test : X -> bool) l :
  NoDup (f <$> l) -> NoDup (f <$> List.filter test l).
Proof.
  induction l as [|x l IH]; simpl; [done|]. intros [Hx Hl]%NoDup_cons.
  destruct (test x); simpl; [|auto]. apply NoDup_cons. split; [|auto].
  intros Hin. apply Hx. apply list_elem_of_fmap in Hin as (y & -> & Hy). apply list_elem_of_fmap. exists y. split; [done|].
  rewrite list_elem_of_In in Hy |- *. by apply filter_In in Hy as [? _].
Qed.

Lemma ai_pool_NoDup l : NoDup (n_id <$> l) -> NoDup (n_id <$> ai_schedulable l).
Proof. intros H. rewrite ai_schedulable_perm. by apply filter_ids_NoDup. Qed.
Lemma encode_pool_NoDup l : NoDup (n_id <$> l) -> NoDup (n_id <$> encode_schedulable l).
Proof. intros H. rewrite encode_schedulable_perm. by apply filter_ids_NoDup. Qed.

Lemma enabled_ids_NoDup s : NoDup (cam_id <$> s_cams s) -> NoDup (enabled_camera_ids s).
Proof. intros H. unfold enabled_camera_ids, cameras_enabled. by do 2 apply filter_ids_NoDup. Qed.
Lemma needing_ids_NoDup s : NoDup (cam_id <$> s_cams s) -> NoDup (cameras_needing_encode s).
Proof. intros H. unfold cameras_needing_encode, cameras_enabled. by do 2 apply filter_ids_NoDup. Qed.

(** Primary keys are unique. *)
Definition sched_ok (s : Sched) : Prop := NoDup (n_id <$> s_nodes s) /\ NoDup (cam_id <$> s_cams s).

(** ** What both schedulers guarantee, over the common body *)

Section CoreFacts.
Context (unchanged : Assignment -> Z -> bool).
Hypothesis unchanged_node : forall a n, unchanged a n = true -> a_node_id a = n.
Context (pool : list Node) (key : string) (cams : list Z) (s : Sched) (p : Plan) (changed : list Z) (s' : Sched).
Hypothesis pool_distinct : NoDup (n_id <$> pool).
Hypothesis cams_distinct : NoDup cams.
Hypothesis run : rebalance_core pool unchanged key cams s = (p, changed, s').

Lemma core_capacity n : n ∈ pool -> rows_on (s_rows s') (n_id n) <= Z.max 0 (n_capacity n).
Proof.
  intros Hn. edestruct core_rows as (_ & Hok & _ & Hrows & _); eauto.
  unfold rows_on. rewrite Hrows. etrans; [apply (pi_cap _ _ _ (po_inv _ _ _ Hok))|].
  assert (Hlk : cap_of (caps pool) !! n_id n = Some (Z.max 0 (n_capacity n))); [|unfold get0; by rewrite Hlk].
  unfold cap_of. apply elem_of_list_to_map_1.
  - rewrite <- list_fmap_compose. unfold caps. rewrite <- list_fmap_compose. done.
  - apply list_elem_of_fmap. exists (n_id n, n_capacity n). split; [done|]. apply list_elem_of_fmap. eauto.
Qed.

Lemma core_row_ok c a :
  s_rows s' !! c = Some a -> c ∈ cams /\ exists n, n ∈ pool /\ n_id n = a_node_id a.
Proof.
  intros Hc. edestruct core_rows as (_ & Hok & _ & Hrows & _); eauto.
  assert (Hp : p_plan p !! c = Some (a_node_id a)) by (rewrite <- Hrows, lookup_fmap, Hc; done).
  split; [by eapply (po_dom _ _ _ Hok)|].
  pose proof (cap_is_node _ _ (pi_node _ _ _ (po_inv _ _ _ Hok) _ _ Hp)) as Hin.
  rewrite caps_ids in Hin. apply list_elem_of_fmap in Hin as (n & ? & ?). eauto.
Qed.

Lemma core_size : Z.of_nat (size (s_rows s')) =
  Z.min (Z.of_nat (length cams)) (sum_on (fun n => Z.max 0 (n_capacity n)) pool).
Proof.
  edestruct core_rows as (_ & Hok & _ & Hrows & _); eauto.
  assert (Hs : size (s_rows s') = size (p_plan p)) by (rewrite <- Hrows; by rewrite map_size_fmap).
  rewrite Hs, (plan_size (caps pool) cams); [|by rewrite caps_ids|done]. f_equal.
  unfold total_cap, caps. clear. induction pool as [|n l IH]; [done|]. by rewrite fmap_cons, !sum_on_cons, IH.
Qed.

Lemma core_stays c a :
  (forall x k, a_node_id x = k -> x = a -> unchanged x k = true) ->
  c ∈ cams -> s_rows s !! c = Some a -> a_node_id a ∈ n_id <$> pool ->
  (forall n, n ∈ pool -> n_id n = a_node_id a ->
     count_on (fun x => bool_decide (a_node_id <$> s_rows s !! x = Some (a_node_id a))) cams <= Z.max 0 (n_capacity n)) ->
  s_rows s' !! c = Some a.
Proof.
  intros Hun Hc Ha Hn Hroom. edestruct core_rows as (Hp & Hok & Hnew & _); eauto. rewrite Hnew. unfold new_row.
  assert (Hplan : p_plan p !! c = Some (a_node_id a)).
  { rewrite Hp. apply make_plan_stays; rewrite ?caps_ids; try done.
    - by rewrite lookup_fmap, Ha.
    - apply list_elem_of_fmap in Hn as (n & Hid & Hin). specialize (Hroom n Hin (eq_sym Hid)).
      assert (Hlk : cap_of (caps pool) !! a_node_id a = Some (Z.max 0 (n_capacity n))).
      { unfold cap_of. apply elem_of_list_to_map_1.
        - rewrite <- list_fmap_compose. unfold caps. rewrite <- list_fmap_compose. done.
        - apply list_elem_of_fmap. exists (n_id n, n_capacity n). rewrite Hid. split; [done|].
          apply list_elem_of_fmap. eauto. }
      unfold get0. rewrite Hlk. simpl. etrans; [|exact Hroom]. apply Z.eq_le_incl.
      unfold count_on. apply sum_on_ext. intros x _. by rewrite lookup_fmap. }
  rewrite Hplan, Ha, (Hun a) by done. done.
Qed.

Lemma core_row_change c a a' :
  s_rows s !! c = Some a -> s_rows s' !! c = Some a' ->
  a' = a \/ a_state a' = Pending /\
    (a_node_id a' <> a_node_id a /\ a_epoch a' = Some (or_Z (a_epoch a) 0 + 1) /\ a_claimed_at a' = None \/
     a_node_id a' = a_node_id a /\ unchanged a (a_node_id a) = false /\ a_epoch a' = a_epoch a).
Proof.
  intros Ha. edestruct core_rows as (_ & _ & Hnew & _); eauto. rewrite Hnew. unfold new_row. rewrite Ha.
  destruct (p_plan p !! c) as [nid|]; [|done]. intros [= <-].
  destruct (unchanged a nid) eqn:Eu; [auto|right]. unfold assigned_row. zcase; simpl; [|auto].
  split; [done|]. right. subst. auto.
Qed.
End CoreFacts.

(** ** Counts do not influence the pool *)

Lemma insert_on_fmap {X} (key : X -> Z) (f : X -> X) x l :
  (forall y, key (f y) = key y) -> insert_on key (f x) (f <$> l) = f <$> insert_on key x l.
Proof.
  intros Hk. induction l as [|y l IH]; simpl; [done|]. rewrite !Hk. destruct (key x <=? key y); [done|].
  rewrite fmap_cons. by rewrite <- IH.
Qed.
Lemma sort_on_fmap {X} (key : X -> Z) (f : X -> X) l :
  (forall y, key (f y) = key y) -> sort_on key (f <$> l) = f <$> sort_on key l.
Proof. intros Hk. induction l as [|x l IH]; [done|]. rewrite fmap_cons. cbn [sort_on foldr] in *. unfold sort_on in IH. rewrite IH. by apply insert_on_fmap. Qed.
Lemma filter_fmap {X} (test : X -> bool) (f : X -> X) l :
  (forall y, test (f y) = test y) -> List.filter test (f <$> l) = f <$> List.filter test l.
Proof.
  intros Ht. induction l as [|x l IH]; [done|]. rewrite fmap_cons. cbn [List.filter]. rewrite Ht, IH. by destruct (test x).
Qed.

Lemma ai_schedulable_count k l : ai_schedulable (with_count k <$> l) = with_count k <$> ai_schedulable l.
Proof. unfold ai_schedulable. by rewrite filter_fmap, !sort_on_fmap. Qed.

Lemma caps_count k l : caps (with_count k <$> l) = caps l.
Proof. unfold caps. by rewrite <- list_fmap_compose. Qed.

(** Rows of [l] with the id of [n] are [n] up to the count. *)
Definition counts_apart (n : Node) (l : list Node) : Prop :=
  forall x, x ∈ l -> n_id x = n_id n -> with_count 0 x = with_count 0 n.

Lemma put_count_erased k n l :
  counts_apart n l -> with_count 0 <$> put_node (with_count k n) l = with_count 0 <$> l.
Proof.
  intros Hn. unfold put_node. rewrite <- list_fmap_compose. apply list_fmap_ext. intros i x Hx. simpl.
  zcase; [|done]. symmetry. apply Hn; [by eapply list_elem_of_lookup_2|done].
Qed.

Lemma counts_apart_erased n l l' :
  with_count 0 <$> l' = with_count 0 <$> l -> counts_apart n l -> counts_apart n l'.
Proof.
  intros He Hn x Hx Hid. assert (Hin : with_count 0 x ∈ with_count 0 <$> l) by (rewrite <- He; by apply list_elem_of_fmap_2).
  apply list_elem_of_fmap in Hin as (y & Hy & Hyl). rewrite Hy. apply Hn; [done|].
  assert (n_id (with_count 0 x) = n_id (with_count 0 y)) by congruence. simpl in *. congruence.
Qed.

Lemma update_counts_erased load pool l :
  (forall n, n ∈ pool -> counts_apart n l) ->
  with_count 0 <$> update_counts load pool l = with_count 0 <$> l.
Proof.
  unfold update_counts. revert l. induction pool as [|n pool IH]; intros l Hall; [done|]. cbn [foldl].
  assert (He : with_count 0 <$> (if n_assigned_count n =? get0 load (n_id n) then l
    else put_node (with_count (get0 load (n_id n)) n) l) = with_count 0 <$> l).
  { zcase; [done|]. apply put_count_erased, Hall. set_solver. }
  rewrite IH; [done|]. intros m Hm. eapply counts_apart_erased; [exact He|]. apply Hall. set_solver.
Qed.

Lemma NoDup_counts_apart n l : NoDup (n_id <$> l) -> n ∈ l -> counts_apart n l.
Proof.
  intros Hnd Hn x Hx Hid. assert (x = n) as ->; [|done].
  destruct (list_elem_of_lookup_1 _ _ Hx) as [i1 Hi1], (list_elem_of_lookup_1 _ _ Hn) as [i2 Hi2].
  assert (i1 = i2) as ->; [|congruence].
  eapply (NoDup_lookup (n_id <$> l)); [done|by rewrite list_lookup_fmap, Hi1|by rewrite list_lookup_fmap, Hi2; simpl; congruence].
Qed.

Lemma put_node_ids row l : n_id <$> put_node row l = n_id <$> l.
Proof.
  unfold put_node. rewrite <- list_fmap_compose. apply list_fmap_ext. intros i x _. simpl. zcase; [by subst|done].
Qed.

(** The pool of the registry after a rebalance has the same ids and capacities. *)
Lemma pool_after load l :
  NoDup (n_id <$> l) -> caps (ai_schedulable (update_counts load (ai_schedulable l) l)) = caps (ai_schedulable l).
Proof.
  intros Hnd. rewrite <- (caps_count 0 (ai_schedulable (update_counts _ _ _))), <- ai_schedulable_count.
  rewrite update_counts_erased; [by rewrite ai_schedulable_count, caps_count|].
  intros n Hn. apply NoDup_counts_apart; [done|]. rewrite ai_schedulable_perm, list_elem_of_In in Hn.
  apply list_elem_of_In. by apply filter_In in Hn as [? _].
Qed.

Lemma ai_pool_elem n l : n ∈ ai_schedulable l <-> n ∈ l /\ schedulable_test n = true.
Proof. by rewrite ai_schedulable_perm, !list_elem_of_In, filter_In. Qed.
Lemma encode_pool_elem n l : n ∈ encode_schedulable l <-> n ∈ l /\ schedulable_test n = true.
Proof. by rewrite encode_schedulable_perm, !list_elem_of_In, filter_In. Qed.

(** Every row points into the schedulable part of [nodes]. *)
Definition rows_schedulable (nodes : list Node) (rows : gmap Z Assignment) : Prop :=
  forall c a, rows !! c = Some a -> exists n, n ∈ nodes /\ schedulable_test n = true /\ n_id n = a_node_id a.

Lemma ai_rebalance_schedulable s : sched_ok s -> rows_schedulable (s_nodes s) (s_rows (snd (ai_rebalance s))).
Proof.
  intros [Hn Hc]. unfold ai_rebalance.
  destruct (rebalance_core (ai_schedulable (s_nodes s)) ai_unchanged AI_ETAG_KEY (enabled_camera_ids s) s) as [[p ch] s1] eqn:E.
  intros c a Ha. eapply core_row_ok in E as (_ & n & Hin & Hid);
    [|apply ai_unchanged_node|by apply ai_pool_NoDup|by apply enabled_ids_NoDup|exact Ha].
  apply ai_pool_elem in Hin as [? ?]. eauto.
Qed.

Lemma foldl_delete_all (l : list Z) (rows : gmap Z Assignment) c :
  foldl (fun rows c => delete c rows) rows l !! c = if decide (c ∈ l) then None else rows !! c.
Proof.
  revert rows. induction l as [|x l IH]; intros rows; cbn [foldl].
  { rewrite decide_False; [done|]. by intros H%elem_of_nil. }
  rewrite IH. destruct (decide (c = x)) as [->|Hne].
  - rewrite (decide_True (P := x ∈ x :: l)) by set_solver. case_decide; [done|]. apply lookup_delete_eq.
  - rewrite lookup_delete_ne by done. destruct (decide (c ∈ l)); [rewrite decide_True by set_solver; done|].
    rewrite decide_False by set_solver. done.
Qed.

Lemma encode_off_rows s c : s_flag s = false -> s_rows (snd (encode_rebalance s)) !! c = None.
Proof.
  intros Hf. unfold encode_rebalance. rewrite Hf. cbn [negb snd].
  set (s1 := resync_cameras _ _).
  assert (H1 : s_rows s1 !! c = None).
  { simpl. rewrite foldl_delete_all. case_decide as Hd; [done|]. rewrite elem_of_row_keys in Hd.
    destruct (s_rows s !! c); [destruct Hd; eauto|done]. }
  case_bool_decide; [done|]. by destruct (bump_etag_rows ENC_ETAG_KEY s1) as (-> & _).
Qed.

Lemma encode_rebalance_schedulable s :
  sched_ok s -> rows_schedulable (s_nodes s) (s_rows (snd (encode_rebalance s))).
Proof.
  intros [Hn Hc] c a Ha. destruct (s_flag s) eqn:Ef; [|by rewrite encode_off_rows in Ha].
  unfold encode_rebalance in Ha. rewrite Ef in Ha. simpl in Ha.
  destruct (rebalance_core _ _ _ _ s) as [[p ch] s1] eqn:E in Ha. simpl in Ha.
  eapply core_row_ok in E as (_ & n & Hin & Hid);
    [|apply encode_unchanged_node|by apply encode_pool_NoDup|by apply needing_ids_NoDup|exact Ha].
  apply encode_pool_elem in Hin as [? ?]. eauto.
Qed.

(** ** Properties *)

(** C1: No node is overcommitted: after a rebalance of either registry, each
    schedulable node has at most its capacity of cameras, and every row is for a
    camera on the work list and points to a schedulable node. *)
Theorem capacity_never_exceeded s :
  sched_ok s ->
  (forall n, n ∈ s_nodes s -> schedulable_test n = true ->
     rows_on (s_rows (snd (ai_rebalance s))) (n_id n) <= Z.max 0 (n_capacity n)) /\
  (s_flag s = true -> forall n, n ∈ s_nodes s -> schedulable_test n = true ->
     rows_on (s_rows (snd (encode_rebalance s))) (n_id n) <= Z.max 0 (n_capacity n)) /\
  (forall c, is_Some (s_rows (snd (ai_rebalance s)) !! c) -> c ∈ enabled_camera_ids s) /\
  rows_schedulable (s_nodes s) (s_rows (snd (ai_rebalance s))) /\
  rows_schedulable (s_nodes s) (s_rows (snd (encode_rebalance s))).
Proof.
  intros Hs. pose proof Hs as [Hn Hc]. split_and!; auto using ai_rebalance_schedulable, encode_rebalance_schedulable.
  - intros n Hin Ht. unfold ai_rebalance. destruct (rebalance_core _ _ _ _ s) as [[p ch] s1] eqn:E.
    eapply core_capacity in E; [exact E|apply ai_unchanged_node|by apply ai_pool_NoDup|by apply enabled_ids_NoDup|].
    by apply ai_pool_elem.
  - intros Hf n Hin Ht. unfold encode_rebalance. rewrite Hf. simpl.
    destruct (rebalance_core _ _ _ _ s) as [[p ch] s1] eqn:E. simpl.
    eapply core_capacity in E; [exact E|apply encode_unchanged_node|by apply encode_pool_NoDup|by apply needing_ids_NoDup|].
    by apply encode_pool_elem.
  - intros c [a Ha]. unfold ai_rebalance in Ha. destruct (rebalance_core _ _ _ _ s) as [[p ch] s1] eqn:E.
    eapply core_row_ok in E as [? _]; eauto using ai_unchanged_node, ai_pool_NoDup, enabled_ids_NoDup.
Qed.

(** Work conservation: the AI scheduler assigns exactly as many cameras as
    the pool can carry, min(enabled cameras, total capacity), and reports it. *)
Theorem rebalance_work_conserving s :
  sched_ok s ->
  let '(r, s') := ai_rebalance s in
  Z.of_nat (size (s_rows s')) =
    Z.min (Z.of_nat (length (enabled_camera_ids s)))
          (sum_on (fun n => Z.max 0 (n_capacity n)) (ai_schedulable (s_nodes s))) /\
  rs_assigned r = Z.of_nat (size (s_rows s')).
Proof.
  intros [Hn Hc]. unfold ai_rebalance. destruct (rebalance_core _ _ _ _ s) as [[p ch] s1] eqn:E.
  pose proof (ai_pool_NoDup _ Hn) as Hp. pose proof (enabled_ids_NoDup _ Hc) as Hcm.
  split; [eapply core_size; eauto using ai_unchanged_node|].
  eapply core_rows in E as (_ & Hok & _ & Hrows & _); eauto using ai_unchanged_node.
  simpl. pose proof (po_count _ _ _ Hok). rewrite <- (map_size_fmap a_node_id), Hrows. lia.
Qed.

(** Minimal movement: a camera whose node is schedulable and can carry all
    the enabled cameras it now has keeps its row untouched, state and epoch
    included. *)
Theorem rebalance_keeps_placed_cameras s c a n :
  sched_ok s -> c ∈ enabled_camera_ids s -> s_rows s !! c = Some a ->
  n ∈ s_nodes s -> schedulable_test n = true -> n_id n = a_node_id a ->
  count_on (fun x => bool_decide (a_node_id <$> s_rows s !! x = Some (a_node_id a))) (enabled_camera_ids s)
    <= Z.max 0 (n_capacity n) ->
  s_rows (snd (ai_rebalance s)) !! c = Some a.
Proof.
  intros [Hn Hc] Hin Ha Hnode Ht Hid Hroom. unfold ai_rebalance.
  destruct (rebalance_core _ _ _ _ s) as [[p ch] s1] eqn:E.
  assert (Hpool : n ∈ ai_schedulable (s_nodes s)) by (by apply ai_pool_elem).
  eapply core_stays in E; eauto using ai_unchanged_node, ai_pool_NoDup, enabled_ids_NoDup.
  - intros x k Hx _. unfold ai_unchanged. lia.
  - rewrite <- Hid. by apply list_elem_of_fmap_2.
  - intros m Hm Hmid. apply ai_pool_elem in Hm as [Hm _].
    assert (with_count 0 m = with_count 0 n) as Hmn
      by (apply (NoDup_counts_apart n (s_nodes s)); congruence).
    assert (n_capacity (with_count 0 m) = n_capacity (with_count 0 n)) as Hcap by congruence.
    simpl in Hcap. by rewrite Hcap.
Qed.

(** Rebalancing is idempotent: run again with nothing else changed, it
    moves no camera and does not bump the etag, so nodes are not made to re-poll. *)
Theorem ai_rebalance_idempotent s :
  sched_ok s ->
  let s1 := snd (ai_rebalance s) in
  rs_changed (fst (ai_rebalance s1)) = 0 /\ s_rows (snd (ai_rebalance s1)) = s_rows s1 /\
  s_tok (snd (ai_rebalance s1)) = s_tok s1.
Proof.
  intros [Hn Hc]. pose proof (ai_pool_NoDup _ Hn) as Hp. pose proof (enabled_ids_NoDup _ Hc) as Hcm.
  destruct (ai_rebalance s) as [r0 s1] eqn:E0. cbn [snd]. unfold ai_rebalance in E0.
  destruct (rebalance_core _ _ _ _ s) as [[p ch] s1'] eqn:E in E0. injection E0 as _ ->.
  eapply core_rows in E as (Hplan & Hok & _ & Hrows & Hnodes & Hcams & Hd & Hg); eauto using ai_unchanged_node.
  assert (Hids : enabled_camera_ids s1 = enabled_camera_ids s).
  { unfold enabled_camera_ids, cameras_enabled, effective_detection. by rewrite Hcams, Hd, Hg. }
  unfold ai_rebalance. rewrite Hids. unfold rebalance_core.
  fold (caps (ai_schedulable (s_nodes s1))). rewrite Hrows, Hnodes, pool_after by done.
  assert (Hidem : p_plan (make_plan (caps (ai_schedulable (s_nodes s))) (p_plan p) (enabled_camera_ids s)) = p_plan p).
  { rewrite Hplan. apply make_plan_idem; [by rewrite caps_ids|done]. }
  rewrite Hidem, apply_plan_same; [done|done|by apply (po_dom _ _ _ Hok)|].
  intros c. rewrite <- Hrows, lookup_fmap. destruct (s_rows s1 !! c); [|done]. simpl. unfold ai_unchanged. lia.
Qed.

(** Epoch discipline: a surviving row is either identical or back to
    pending with the epoch bumped and the claim cleared, when and only when its
    node changed. *)
Theorem epoch_bumped_iff_moved s c a a' :
  sched_ok s -> s_rows s !! c = Some a -> s_rows (snd (ai_rebalance s)) !! c = Some a' ->
  (a_node_id a' = a_node_id a /\ a' = a) \/
  (a_node_id a' <> a_node_id a /\ a_state a' = Pending /\ a_claimed_at a' = None /\
   a_epoch a' = Some (or_Z (a_epoch a) 0 + 1)).
Proof.
  intros [Hn Hc] Ha. unfold ai_rebalance. destruct (rebalance_core _ _ _ _ s) as [[p ch] s1] eqn:E. intros Ha'.
  eapply core_row_change in E; eauto using ai_unchanged_node, ai_pool_NoDup, enabled_ids_NoDup.
  destruct E as [->|(Hst & [(Hne & He & Hcl)|(_ & Hu & _)])]; [auto|auto|].
  unfold ai_unchanged in Hu. lia.
Qed.

(** A supervised registry leaves no camera on a node that has missed its
    heartbeats for NODE_STALE_S seconds, in either registry. *)
Theorem supervise_evacuates_stale_nodes s c a n :
  sched_ok s ->
  s_rows (snd (supervise_nodes s)) !! c = Some a \/ s_rows (snd (supervise_encode_nodes s)) !! c = Some a ->
  n ∈ s_nodes s -> stale_test (s_now s - NODE_STALE_S * SEC) n = true -> a_node_id a <> n_id n.
Proof.
  intros [Hn Hc] Hrow Hin Hst Heq.
  assert (Hids : n_id <$> offline_stale s = n_id <$> s_nodes s).
  { unfold offline_stale. rewrite <- list_fmap_compose. apply list_fmap_ext. intros i x _. simpl. by case_match. }
  assert (Hok : sched_ok (set_nodes (offline_stale s) s)) by (split; [simpl; by rewrite Hids|done]).
  assert (Hpool : exists m, m ∈ offline_stale s /\ schedulable_test m = true /\ n_id m = a_node_id a).
  { destruct Hrow as [H|H]; [eapply ai_rebalance_schedulable in H|eapply encode_rebalance_schedulable in H]; done. }
  destruct Hpool as (m & Hm & Ht & Hid). unfold offline_stale in Hm.
  apply list_elem_of_fmap in Hm as (x & -> & Hx).
  assert (x = n) as ->.
  { destruct (list_elem_of_lookup_1 _ _ Hx) as [i1 Hi1], (list_elem_of_lookup_1 _ _ Hin) as [i2 Hi2].
    assert (i1 = i2) as ->; [|congruence]. eapply (NoDup_lookup (n_id <$> s_nodes s)); [done|by rewrite list_lookup_fmap, Hi1|].
    rewrite list_lookup_fmap, Hi2. simpl. f_equal. destruct (stale_test _ x); simpl in Hid; congruence. }
  rewrite Hst in Ht. unfold schedulable_test in Ht. simpl in Ht. by rewrite andb_false_r in Ht.
Qed.

(** ** Taking a node out of service *)

Section LostNode.
Context {J : JwtLib} (reassign : Z -> Sched -> Result * Sched).

(** [id] was rewritten to an unschedulable row and the registry reassigned. *)
Definition taken_out (id : Z) (s' : Sched) : Prop :=
  exists row s1, schedulable_test row = false /\ n_id row = id /\ sched_ok s1 /\
    s_nodes s1 = put_node row (s_nodes s1) /\ s' = snd (reassign id s1).

Lemma taken_out_put id row s t :
  sched_ok s -> s_nodes t = s_nodes s -> s_cams t = s_cams s -> schedulable_test row = false -> n_id row = id ->
  taken_out id (snd (reassign id (set_nodes (put_node row (s_nodes t)) t))).
Proof.
  intros [Hn Hc] Hnn Hcc Hrow Hid. eexists row, _. split_and!; [done|done| | |reflexivity].
  - split; simpl; [by rewrite put_node_ids, Hnn|by rewrite Hcc].
  - simpl. unfold put_node. rewrite <- list_fmap_compose. apply list_fmap_ext. intros i y _. simpl.
    destruct (n_id y =? n_id row) eqn:E; [by rewrite Z.eqb_refl|by rewrite E].
Qed.

Lemma get_node_inr id s n t : get_node id s = (inr n, t) -> t = s /\ n_id n = id.
Proof.
  intros H. unfold get_node in H. minv1 H. destruct (node_get_by_id id (s_nodes s)) as [m|] eqn:Em; [|done].
  minv1 H. apply find_some in Em as [_ Em]. split; [done|]. lia.
Qed.

Lemma run_inr {X} (f : Sched -> X * Sched) s x s' : run_ f s = (inr x, s') -> s' = snd (f s).
Proof. unfold run_. destruct (f s). by intros [= _ <-]. Qed.

Lemma node_drain_out id s s' : sched_ok s -> node_drain reassign id s = (inr tt, s') -> taken_out id s'.
Proof.
  intros Hok H. unfold node_drain in H. minv1 H. apply get_node_inr in Hm as [-> Hid]. minv1 H. minv1 H.
  apply run_inr in Hm as ->. minv1 H.
  eapply (taken_out_put _ _ s); try done. unfold schedulable_test. simpl. by rewrite andb_false_r.
Qed.

Lemma node_update_out id s x s' :
  sched_ok s -> node_update reassign id None (Some false) s = (inr x, s') -> taken_out id s'.
Proof.
  intros Hok H. unfold node_update in H. minv1 H. apply get_node_inr in Hm as [-> Hid]. simpl in H.
  minv1 H. minv1 H. apply run_inr in Hm0 as ->. minv1 Hm. minv1 H.
  eapply (taken_out_put _ _ s); try done. unfold schedulable_test. simpl. by rewrite !andb_false_r.
Qed.

Lemma node_delete_out id s s' : sched_ok s -> node_delete reassign id s = (inr tt, s') -> taken_out id s'.
Proof.
  intros Hok H. unfold node_delete in H. minv1 H. apply get_node_inr in Hm as [-> Hid]. minv1 H.
  assert (Hrev : s_nodes w1 = s_nodes s /\ s_cams w1 = s_cams s).
  { unfold when, lift in Hm. destruct (truthy_str _); [|by minv1 Hm]. destruct (revoke _ _ _) in Hm. by simplify_eq. }
  destruct Hrev as [Hnn Hcc]. minv1 H. minv1 H. minv1 H. apply run_inr in Hm0 as ->. minv1 H.
  by eapply (taken_out_put _ _ s).
Qed.
End LostNode.

Lemma taken_out_rows reassign id s' c a :
  reassign = ai_reassign \/ reassign = encode_reassign -> taken_out reassign id s' ->
  s_rows s' !! c = Some a -> a_node_id a <> id.
Proof.
  intros Hre (row & s1 & Hrow & Hid & Hok & Hnodes & ->) Ha Heq.
  assert (Hsch : rows_schedulable (s_nodes s1) (s_rows (snd (reassign id s1)))).
  { destruct Hre as [->| ->]; [apply (ai_rebalance_schedulable (set_rows _ s1))
      |apply (encode_rebalance_schedulable (set_rows _ s1))]; exact Hok. }
  apply Hsch in Ha as (n & Hin & Ht & Hni). rewrite Hnodes in Hin. unfold put_node in Hin.
  apply list_elem_of_fmap in Hin as (y & -> & _). destruct (n_id y =? n_id row) eqn:E; [congruence|].
  rewrite Hid, <- Heq in E. lia.
Qed.

(** Draining, disabling or deleting a node takes every camera off it at
    once, in either registry. *)
Theorem lost_node_holds_no_camera {J : JwtLib} reassign id s s' x :
  sched_ok s -> reassign = ai_reassign \/ reassign = encode_reassign ->
  node_drain reassign id s = (inr tt, s') \/ node_delete reassign id s = (inr tt, s') \/
  node_update reassign id None (Some false) s = (inr x, s') ->
  forall c a, s_rows s' !! c = Some a -> a_node_id a <> id.
Proof.
  intros Hok Hre Hop c a Ha. eapply taken_out_rows; [exact Hre| |exact Ha].
  destruct Hop as [H|[H|H]]; eauto using node_drain_out, node_delete_out, node_update_out.
Qed.

(** ** Witnesses *)

Definition demo_node (id cap beat : Z) : Node :=
  {| n_id := id; n_uuid := "n"; n_status := Online; n_enabled := true; n_gpu := false; n_capacity := cap;
     n_assigned_count := 0; n_last_heartbeat := Some (beat * SEC); n_token_jti := None; n_deleted_at := None |}.
Definition demo_cam (id : Z) : Camera :=
  {| cam_id := id; cam_is_enabled := true; cam_deleted_at := None; cam_live_transcode := true;
     cam_dual_recording := false; cam_dual_record_stream := None;
     cam_streams := [{| st_id := 1; st_role := "sub"; st_go2rtc_name := "s"; st_is_default_live := true;
                        st_is_default_full := true; st_enabled := true; st_codec := None |}] |}.
Definition demo_row (nid : Z) : Assignment :=
  {| a_node_id := nid; a_state := Active; a_claimed_at := Some 0; a_last_report_ts := None; a_epoch := Some 1 |}.
Definition demo_sched : Sched :=
  {| s_tok := demo_world; s_nodes := [demo_node 1 2 999; demo_node 2 1 500]; 
     s_rows := {[ 11 := demo_row 1; 12 := demo_row 9 ]};
     s_cams := [demo_cam 11; demo_cam 12; demo_cam 13; demo_cam 14]; s_detect_global := true; s_detect := ∅;
     s_flag := true; s_idle_s := 0; s_resynced := [] |}.

Lemma demo_sched_ok : sched_ok demo_sched.
Proof. split; apply (bool_decide_unpack _); by vm_compute. Qed.

Lemma capacity_never_exceeded_witness :
  rows_on (s_rows (snd (ai_rebalance demo_sched))) 1 <= 2.
Proof.
  apply (proj1 (capacity_never_exceeded demo_sched demo_sched_ok) (demo_node 1 2 999)); [apply list_elem_of_here|done].
Defined.

Lemma rebalance_work_conserving_witness :
  rs_assigned (fst (ai_rebalance demo_sched)) = 3.
Proof.
  pose proof (rebalance_work_conserving demo_sched demo_sched_ok) as H.
  destruct (ai_rebalance demo_sched) as [r s'] eqn:E. destruct H as [_ H]. simpl. rewrite H.
  change s' with (snd (r, s')). rewrite <- E. by vm_compute.
Defined.

Lemma rebalance_keeps_placed_cameras_witness :
  s_rows (snd (ai_rebalance demo_sched)) !! 11 = Some (demo_row 1).
Proof.
  apply (rebalance_keeps_placed_cameras demo_sched 11 (demo_row 1) (demo_node 1 2 999));
    [apply demo_sched_ok|apply (bool_decide_unpack _); by vm_compute|done|apply list_elem_of_here|done|done|by vm_compute].
Defined.

Lemma ai_rebalance_idempotent_witness :
  rs_changed (fst (ai_rebalance (snd (ai_rebalance demo_sched)))) = 0 /\ rs_changed (fst (ai_rebalance demo_sched)) = 2.
Proof. split; [apply (ai_rebalance_idempotent demo_sched demo_sched_ok)|by vm_compute]. Defined.

Lemma epoch_bumped_iff_moved_witness :
  exists a', s_rows (snd (ai_rebalance demo_sched)) !! 12 = Some a' /\ a_epoch a' = Some 2.
Proof.
  destruct (s_rows (snd (ai_rebalance demo_sched)) !! 12) as [a'|] eqn:E; [|vm_compute in E; discriminate].
  exists a'. split; [done|].
  destruct (epoch_bumped_iff_moved demo_sched 12 (demo_row 9) a' demo_sched_ok eq_refl E) as [[Hn _]|(_ & _ & _ & He)];
    [|exact He]. vm_compute in E. injection E as <-. discriminate.
Defined.

Lemma supervise_evacuates_stale_nodes_witness :
  exists a, s_rows (snd (supervise_nodes demo_sched)) !! 11 = Some a /\ a_node_id a <> 2.
Proof.
  eexists. split; [vm_compute; reflexivity|].
  apply (supervise_evacuates_stale_nodes demo_sched 11 (demo_row 1) (demo_node 2 1 500) demo_sched_ok);
    [left; by vm_compute|apply list_elem_of_further, list_elem_of_here|by vm_compute].
Defined.

#[local] Existing Instance toy_jwt.
Lemma lost_node_holds_no_camera_witness :
  exists s', node_drain ai_reassign 1 demo_sched = (inr tt, s') /\
    forall c a, s_rows s' !! c = Some a -> a_node_id a <> 1.
Proof.
  destruct (node_drain ai_reassign 1 demo_sched) as [[e|[]] s'] eqn:E; [vm_compute in E; discriminate|].
  exists s'. split; [done|].
  apply (lost_node_holds_no_camera ai_reassign 1 demo_sched s' (demo_node 1 2 999) demo_sched_ok (or_introl eq_refl)).
  by left.
Defined.
