(* ===== verification/Guards.v ===== *)
(** * Who may call: the guards of the API

    src/server/decorator.py and the [before_request] hook of src/server/__init__.py.

    A guard either answers or hands over to the handler it wraps.  The world is the token
    service's; the node guards read a registry (Scheduler).  Writing an audit row does
    not fail here; its method and path columns are not kept. *)

From S2P Require Import Prelude PyStr Redis Permission Token Sessions Accounts Scheduler.
Local Open Scope Z_scope.
Local Open Scope list_scope.

Record Request := {
  rq_method : string;
  rq_path : string;
  rq_authorization : string;               (* headers.get('Authorization', '') *)
  rq_access_token : option string;         (* args.get('access_token') *)
  rq_api_key : option string;              (* headers.get('X-API-Key') *)
  rq_remote_addr : option string;
  rq_user_agent : option string
}.

Inductive Response (A : Type) :=
| Passed (a : A)                           (* what the guarded function returns *)
| NoPermission (msg : string)              (* 401 *)
| Forbidden (msg : string)                 (* 403 *)
| TooManyRequests (msg : string).          (* 429 *)
Arguments Passed {A}.
Arguments NoPermission {A}.
Arguments Forbidden {A}.
Arguments TooManyRequests {A}.

Definition G (A : Type) : Type := World -> Response A * World.
Definition refuse {A} (r : Response A) : G A := fun w => (r, w).

(** [auth[7:].strip()] behind [auth.startswith('Bearer ')] *)
Definition bearer (h : string) : option string := if startswith "Bearer " h then Some (strip (sdrop 7 h)) else None.

(** ** Before every request *)

Definition ACCESS_LOG_SKIP_PREFIXES : list string := ["/api/v1/healthz"; "/api/v1/auth/refresh"; "/static"]%string.
Definition ACTION_PERMISSION_DENIED : string := "permission_denied".

Definition access_logged (rq : Request) : bool :=
  negb (bool_decide (rq_method rq ∈ ["GET"; "HEAD"; "OPTIONS"]%string)) && startswith "/api/" (rq_path rq) &&
  negb (existsb (fun p => startswith p (rq_path rq)) ACCESS_LOG_SKIP_PREFIXES).

Definition record_access_log (rq : Request) (u : option User) : T unit :=
  when (access_logged rq)
    (audit_record "access" (Some (rq_path rq)) (u_id <$> u) (rq_remote_addr rq) (rq_user_agent rq) []).

Section Guards.
Context {J : JwtLib}.

(** the token a request presents *)
Definition presented (rq : Request) : option string :=
  match bearer (rq_authorization rq) with
  | Some t => Some t
  | None => if bool_decide (rq_method rq = "GET"%string) then rq_access_token rq else None
  end.

(** [g.current_user] and [g.token_claims] *)
Definition load_current_user (rq : Request) : T (option (User * Claims)) :=
  if bool_decide (rq_method rq = "OPTIONS"%string) then ret None else
  let! who := (if truthy_str (presented rq) then resolve_access_token (default "" (presented rq)) else ret None) in
  record_access_log rq (fst <$> who) ;;;
  ret who.

(** ** Guards of user endpoints *)

Definition audit_denied (rq : Request) (u : User) (target : string) (w : World) : World :=
  snd (audit_record ACTION_PERMISSION_DENIED (Some target) (Some (u_id u)) (rq_remote_addr rq) (rq_user_agent rq) [] w).

Definition login_required {A} (cu : option User) (k : User -> G A) : G A :=
  match cu with None => refuse (NoPermission "authentication_required") | Some u => k u end.

Definition permission_required {A} (rq : Request) (cu : option User) (resource action : string) (k : User -> G A) : G A :=
  match cu with
  | None => refuse (NoPermission "authentication_required")
  | Some u => fun w =>
      if negb (has (Some (subject_of u w)) resource action)
      then (Forbidden "permission_denied", audit_denied rq u (resource +:+ ":" +:+ action) w)
      else k u w
  end.

Definition roles_required {A} (rq : Request) (cu : option User) (role_names : list string) (k : User -> G A) : G A :=
  match cu with
  | None => refuse (NoPermission "authentication_required")
  | Some u => fun w =>
      if negb (existsb (fun n => bool_decide (ro_name <$> role_of u w = Some n)) role_names)
      then (Forbidden "permission_denied", audit_denied rq u ("role:" +:+ String.concat "," role_names) w)
      else k u w
  end.

(** [None]: the request may go on *)
Definition camera_scope_guard (rq : Request) (cu : option User) (camera_uuid action : string) (w : World) : option (Response unit) * World :=
  match cu with
  | None => (Some (NoPermission "authentication_required"), w)
  | Some u => if negb (has_camera_scope (Some (subject_of u w)) camera_uuid action)
              then (Some (Forbidden "camera_scope_denied"), audit_denied rq u ("camera_scope:" +:+ camera_uuid +:+ ":" +:+ action) w)
              else (None, w)
  end.

Definition ptz_guard (rq : Request) (cu : option User) (camera_uuid : string) (w : World) : option (Response unit) * World :=
  match cu with
  | None => (Some (NoPermission "authentication_required"), w)
  | Some u => if negb (can_ptz (Some (subject_of u w)) camera_uuid)
              then (Some (Forbidden "ptz_denied"), audit_denied rq u ("ptz:" +:+ camera_uuid) w)
              else (None, w)
  end.

(** A route with the usual pair of guards, after the hook. *)
Definition route {A} (rq : Request) (resource action : string) (k : User -> G A) : G A :=
  fun w =>
    match load_current_user rq w with
    | (inl _, w1) => (NoPermission "authentication_required", w1)  (* never: the hook catches *)
    | (inr who, w1) => login_required (fst <$> who) (fun u => permission_required rq (Some u) resource action k) w1
    end.

(** ** Guards of nodes and monitors *)

Definition node_get_by_uuid (uuid : string) (l : list Node) : option Node :=
  List.find (fun n => bool_decide (n_uuid n = uuid) && node_live n) l.

(** [node_token_required], and [encode_node_token_required] on the other registry *)
Definition node_token_required (rq : Request) (s : Sched) : Response Node :=
  match bearer (rq_authorization rq) with
  | None => NoPermission "node_auth_required"
  | Some tok =>
      match fst (verify_node_token tok (s_tok s)) with
      | inl _ => NoPermission "invalid_node_token"
      | inr claims =>
          match node_get_by_uuid (c_sub claims) (s_nodes s) with
          | None => Forbidden "node_disabled"
          | Some n =>
              if negb (n_enabled n) || negb (node_live n) then Forbidden "node_disabled"
              else if truthy_str (n_token_jti n) && negb (bool_decide (Some (c_jti claims) = n_token_jti n))
              then Forbidden "node_token_superseded"
              else Passed n
          end
      end
  end.

Definition monitor_required (rq : Request) (w : World) : Response (Monitor * Claims) :=
  match bearer (rq_authorization rq) with
  | None => NoPermission "monitor_auth_required"
  | Some tok =>
      match fst (verify_monitor_access tok w) with
      | inl _ => NoPermission "invalid_monitor_token"
      | inr p => Passed p
      end
  end.
End Guards.

(** ** What gets through *)

Section GuardFacts.
Context {J : JwtLib}.

Definition same_but_audit (w w' : World) : Prop := exists l, w' = set_audit (w_audit w ++ l) w.

Lemma same_but_audit_refl w : same_but_audit w w.
Proof. exists []. rewrite app_nil_r. by destruct w. Qed.
Lemma same_but_audit_trans w1 w2 w3 : same_but_audit w1 w2 -> same_but_audit w2 w3 -> same_but_audit w1 w3.
Proof. intros [l ->] [l' ->]. exists (l ++ l'). unfold set_audit. cbn. by rewrite app_assoc. Qed.

Lemma audit_denied_only rq u t w : same_but_audit w (audit_denied rq u t w).
Proof. unfold audit_denied, audit_record, modify. cbn. by eexists. Qed.

Lemma access_log_only rq u w : exists w1, record_access_log rq u w = (inr tt, w1) /\ same_but_audit w w1.
Proof.
  unfold record_access_log, when. destruct (access_logged rq); [|exists w; split; [done|apply same_but_audit_refl]].
  unfold audit_record, modify. eexists. split; [done|]. by eexists.
Qed.

(** what a verified access token says of its user *)
Record signed_in (tok : string) (u : User) (c : Claims) (w : World) : Prop := {
  sg_unexpired : jwt_decode (epoch (w_now w)) tok = JwtOk c;
  sg_type : c_typ c = Some "access"%string;
  sg_not_revoked : r_exists (w_now w) (DENYLIST_PREFIX +:+ c_jti c) (w_redis w) = Some false;
  sg_row : exists id, py_int (c_sub c) = Some id /\ w_users w !! id = Some u;
  sg_active : u_is_active u = true;
  sg_live : u_deleted_at u = None;
  sg_version : c_tv c = Some (or_Z (u_token_version u) 0)
}.

Lemma verify_access_signed tok u c w w' : verify_access tok w = (inr (u, c), w') -> w' = w /\ signed_in tok u c w.
Proof.
  intros H. pose proof (verify_access_inr _ _ _ _ _ H) as (-> & H1 & H2 & H3 & H4 & H5). split; [done|].
  unfold verify_access, is_denylisted in H. minv1 H. apply decode_inr in Hm as (-> & _). minv1 H. apply redis_exists_inr in Hm as (-> & _).
  destruct a0; [done|]. minv1 H. apply user_of_sub_inr in Hm as (-> & _). minv1 H. apply check_active_inr in Hm as (_ & Ha & Hd).
  case_bool_decide; [|done]. minv1 H. by constructor.
Qed.

Lemma resolve_signed tok w who w' : resolve_access_token tok w = (inr who, w') ->
  w' = w /\ match who with Some (u, c) => signed_in tok u c w | None => True end.
Proof.
  unfold resolve_access_token, try_with. intros H. destruct (bind _ _ w) as [[e|o] w1] eqn:E.
  - assert (w' = w1 /\ who = None) as [-> ->] by by injection H as <- <-. split; [|done].
    unfold bind in E. destruct (verify_access tok w) as [[e'|p] w2] eqn:Ev; [|by unfold ret in E].
    injection E as _ <-. revert Ev. unfold verify_access, decode, is_denylisted, bind, gets, raise, ret, redis_exists, check_active.
    destruct (jwt_decode _ _) as [c| |]; [|by intros [= _ <-]..]. case_bool_decide; [|by intros [= _ <-]].
    destruct (r_exists _ _ _) as [[]|]; [by intros [= _ <-]| |by intros [= _ <-]].
    destruct (user_of_sub _ w) as [[e2|u] w3] eqn:Eu; apply user_of_sub_world in Eu as ->; [by intros [= _ <-]|].
    destruct (negb _ || _); [by intros [= _ <-]|]. case_bool_decide; [done|]. by intros [= _ <-].
  - injection H as <- <-. unfold bind in E. destruct (verify_access tok w) as [[e'|[u c]] w2] eqn:Ev; [done|].
    apply verify_access_signed in Ev as [-> Hs]. injection E as <- <-. done.
Qed.

Lemma load_current_user_spec rq w : exists who w1, load_current_user rq w = (inr who, w1) /\ same_but_audit w w1 /\
  match who with Some (u, c) => exists t, presented rq = Some t /\ signed_in t u c w | None => True end.
Proof.
  unfold load_current_user. case_bool_decide; [exists None, w; split; [done|]; split; [apply same_but_audit_refl|done]|].
  unfold bind. destruct (truthy_str (presented rq)) eqn:Et.
  - destruct (presented rq) as [t|] eqn:Ep; [|done]. change (default ""%string (Some t)) with t. destruct (resolve_access_token t w) as [[e|who] w0] eqn:Er.
    + exfalso. revert Er. unfold resolve_access_token, try_with. by destruct (bind _ _ w) as [[]].
    + apply resolve_signed in Er as [-> Hs]. destruct (access_log_only rq (fst <$> who) w) as (w1 & -> & H1). exists who, w1.
      split; [done|]. split; [done|]. destruct who as [[u c]|]; [|done]. eauto.
  - cbn. destruct (access_log_only rq None w) as (w1 & -> & H1). exists None, w1. done.
Qed.

(** C17: no guarded handler runs without rights.  When it runs, the request presented an
    access token that is unexpired, not revoked, of the current version of a live and
    active user, whose role and permissions as they are now grant the action; the
    handler starts in the world of the request but for its access-log row.  A refused
    request changes nothing but the audit log. *)
Theorem handler_runs_only_with_rights {A} rq resource action (k : User -> G A) w resp w' :
  route rq resource action k w = (resp, w') ->
  (exists t u c w1, presented rq = Some t /\ signed_in t u c w /\ has (Some (subject_of u w)) resource action = true /\
     same_but_audit w w1 /\ k u w1 = (resp, w')) \/
  (same_but_audit w w' /\ (resp = NoPermission "authentication_required" \/ resp = Forbidden "permission_denied")).
Proof.
  unfold route. destruct (load_current_user_spec rq w) as (who & w1 & -> & Hw & Hs).
  destruct who as [[u c]|]; cbn [fmap option_fmap option_map fst login_required permission_required].
  - destruct Hs as (t & Ht & Hs). assert (Hsub : subject_of u w1 = subject_of u w) by (by destruct Hw as [l ->]). rewrite Hsub.
    destruct (has (Some (subject_of u w)) resource action) eqn:Eh; cbn [negb].
    + intros Hk. left. by exists t, u, c, w1.
    + intros [= <- <-]. right. split; [|by right]. eapply same_but_audit_trans; [exact Hw|apply audit_denied_only].
  - intros [= <- <-]. right. split; [done|by left].
Qed.

(** ** Node tokens *)

Lemma verify_node_inr tok w c w' : verify_node_token tok w = (inr c, w') ->
  w' = w /\ jwt_decode (epoch (w_now w)) tok = JwtOk c /\ c_typ c = Some "node"%string.
Proof.
  unfold verify_node_token, check_aud, is_denylisted. intros H. minv1 H. apply decode_inr in Hm as (-> & Hd & Ht).
  minv1 H. case_bool_decide; [|done]. minv1 Hm. minv1 H. apply redis_exists_inr in Hm as (-> & _). case_match; [done|]. minv1 H. done.
Qed.

Lemma node_guard_inv rq s n : node_token_required rq s = Passed n ->
  exists tok c, bearer (rq_authorization rq) = Some tok /\ jwt_decode (epoch (s_now s)) tok = JwtOk c /\
    n ∈ s_nodes s /\ n_uuid n = c_sub c /\ n_deleted_at n = None /\ n_enabled n = true /\
    (truthy_str (n_token_jti n) = true -> n_token_jti n = Some (c_jti c)).
Proof.
  unfold node_token_required. destruct (bearer _) as [tok|]; [|done]. destruct (verify_node_token tok (s_tok s)) as [[e|c] w'] eqn:Ev; [done|].
  cbn [fst]. apply verify_node_inr in Ev as (_ & Hd & _). destruct (node_get_by_uuid _ _) as [n'|] eqn:En; [|done].
  unfold node_get_by_uuid in En. apply List.find_some in En as [Hin Hn]. apply andb_true_iff in Hn as [Hu Hl].
  apply bool_decide_eq_true_1 in Hu, Hl. destruct (n_enabled n') eqn:Ee; [|done]. unfold node_live. rewrite bool_decide_eq_true_2 by done. cbn.
  destruct (truthy_str (n_token_jti n') && _) eqn:Ej; [done|]. intros [= <-]. exists tok, c.
  split; [done|]. split; [done|]. split; [by apply list_elem_of_In|]. split_and!; try done.
  intros Ht. rewrite Ht in Ej. cbn in Ej. by apply negb_false_iff, bool_decide_eq_true_1 in Ej.
Qed.

(** the tokens of one node *)
Definition uuids_ok (s : Sched) : Prop := forall n n', n ∈ s_nodes s -> n' ∈ s_nodes s ->
  n_deleted_at n = None -> n_deleted_at n' = None -> n_uuid n = n_uuid n' -> n_id n = n_id n'.

Lemma node_issue_inr id ttl s tok s' : node_issue_token id ttl s = (inr tok, s') ->
  exists n jti now, node_get_by_id id (s_nodes s) = Some n /\ jti = uuid_hex (w_uuids (s_tok s)) /\ now = s_now s /\ s_now s' = now /\
    tok = jwt_encode (node_claims (n_uuid n) "node" "node" jti now (now + default NODE_TOKEN_TTL_DAYS ttl * 86400 * SEC)) /\
    s_nodes s' = put_node (with_token jti n) (s_nodes s).
Proof.
  unfold node_issue_token. intros H. minv1 H. unfold get_node in Hm. minv1 Hm. destruct (node_get_by_id id (s_nodes s)) as [n|] eqn:En; [|done].
  minv1 Hm. minv1 H. assert (Hw : s_nodes w1 = s_nodes s /\ w_uuids (s_tok w1) = w_uuids (s_tok s) /\ s_now w1 = s_now s).
  { unfold when, lift in Hm. destruct (truthy_str _); [|by minv1 Hm]. unfold revoke, redis_setex in Hm. destruct (r_setex _ _ _ _ _); [|done].
    by simplify_eq. }
  destruct Hw as (H1 & H2 & H3). minv1 H. unfold lift, issue_node_token, bind, gets, fresh_hex, ret in Hm0. simplify_eq. minv1 H. minv1 H.
  exists n, (uuid_hex (w_uuids (s_tok s))), (s_now s). unfold s_now in *. cbn in *. by rewrite H1, H2, H3.
Qed.

(** a node has one token.  From the moment one is issued, any request the guard admits
    as that node presents exactly the new token's id, whatever was issued before; and the
    new token is admitted while it is unexpired and the node is enabled. *)
Theorem newest_node_token_only id ttl s tok s' s2 :
  uuids_ok s -> node_issue_token id ttl s = (inr tok, s') -> s_nodes s2 = s_nodes s' ->
  (forall rq n, node_token_required rq s2 = Passed n -> n_id n = id ->
     exists old c, bearer (rq_authorization rq) = Some old /\ jwt_decode (epoch (s_now s2)) old = JwtOk c /\ c_jti c = uuid_hex (w_uuids (s_tok s))) /\
  (forall rq, bearer (rq_authorization rq) = Some tok -> s_now s <= s_now s2 ->
     epoch (s_now s2) < epoch (s_now s + default NODE_TOKEN_TTL_DAYS ttl * 86400 * SEC) ->
     r_exists (s_now s2) (DENYLIST_PREFIX +:+ uuid_hex (w_uuids (s_tok s))) (w_redis (s_tok s2)) = Some false ->
     (forall n, node_get_by_id id (s_nodes s) = Some n -> n_enabled n = true) ->
     exists n, node_token_required rq s2 = Passed n /\ n_id n = id).
Proof.
  intros Hu Hi Hs2. apply node_issue_inr in Hi as (n & jti & now & En & Hj & -> & _ & -> & Hn). rewrite Hn in Hs2.
  pose proof En as En'. unfold node_get_by_id in En'. apply find_some in En' as [Hin Hid]. apply andb_true_iff in Hid as [Hid Hl].
  apply Z.eqb_eq in Hid. apply bool_decide_eq_true_1 in Hl. apply list_elem_of_In in Hin. split.
  - intros rq n' Hg Hn'. apply node_guard_inv in Hg as (old & c & Hb & Hd & Hin' & _ & _ & _ & Ht). exists old, c. split; [done|]. split; [done|].
    rewrite Hs2 in Hin'. apply list_elem_of_fmap_1 in Hin' as (m & -> & Hm). destruct (Z.eqb_spec (n_id m) (n_id (with_token jti n))) as [E|E].
    + cbn in Ht. rewrite Hj in Ht. cbn in Ht. assert (Htr : truthy_str (Some jti) = true).
      { rewrite Hj. unfold truthy_str. rewrite bool_decide_eq_false_2; [done|apply uuid_nonempty]. }
      rewrite Hj in Htr. specialize (Ht Htr). congruence.
    + cbn in E. congruence.
  - intros rq Hb Hle Hlt Hden Hen. set (c := node_claims _ _ _ _ _ _) in Hb.
    assert (Hd : jwt_decode (epoch (s_now s2)) (jwt_encode c) = JwtOk c) by (apply jwt_round_trip; [done|]; split; [by apply epoch_mono|done]).
    assert (Hf : node_get_by_uuid (n_uuid n) (s_nodes s2) = Some (with_token jti n)).
    { rewrite Hs2. unfold node_get_by_uuid. destruct (List.find _ _) as [m|] eqn:Ef.
      - apply find_some in Ef as [Hm Ht]. apply andb_true_iff in Ht as [Hmu Hml]. apply bool_decide_eq_true_1 in Hmu, Hml.
        apply list_elem_of_In, list_elem_of_fmap_1 in Hm as (m0 & -> & Hm). destruct (Z.eqb_spec (n_id m0) (n_id (with_token jti n))) as [|Hne]; [done|].
        destruct Hne. by apply (Hu m0 n).
      - pose proof (find_none _ _ Ef (with_token jti n)) as Hno. cbn in Hno. unfold node_live in Hno. cbn in Hno.
        rewrite !bool_decide_eq_true_2 in Hno by done. assert (true = false); [|done]. apply Hno, list_elem_of_In, list_elem_of_fmap.
        exists n. split; [|done]. cbn. by rewrite Z.eqb_refl. }
    exists (with_token jti n). split; [|done]. unfold node_token_required. rewrite Hb. unfold verify_node_token.
    rewrite (bind_run _ _ _ _ _ (decode_ok _ "node" (s_tok s2) c Hd eq_refl)). unfold check_aud, is_denylisted, redis_exists, bind. cbn [c c_aud node_claims c_jti].
    rewrite bool_decide_eq_true_2 by done. cbn [ret]. unfold s_now in Hden. rewrite Hj. unfold ret. rewrite Hden. cbn [fst c_sub]. rewrite <- Hj. change (c_sub c) with (n_uuid n). rewrite Hf.
    cbn [with_token n_enabled n_token_jti n_deleted_at]. unfold node_live. cbn [n_deleted_at with_token]. rewrite (bool_decide_eq_true_2 _ Hl).
    rewrite (Hen n En). cbn [negb orb]. rewrite (bool_decide_eq_true_2 (Some jti = Some jti)) by done. by rewrite andb_false_r.
Qed.
End GuardFacts.

(** ** Witnesses *)

#[local] Existing Instance toy_jwt.

Definition demo_request (m path auth : string) : Request :=
  {| rq_method := m; rq_path := path; rq_authorization := auth; rq_access_token := None; rq_api_key := None;
     rq_remote_addr := Some "10.0.0.9"%string; rq_user_agent := None |}.
Definition demo_call : Request :=
  demo_request "POST" "/api/v1/cameras" ("Bearer " +:+ p_access_token (issued_pair demo_user "web" None demo_world)).
Definition demo_handler (u : User) : G Z := fun w => (Passed (u_id u), w).

Lemma handler_runs_only_with_rights_witness :
  let out := route demo_call "cameras" "create" demo_handler demo_w1 in
  fst out = Passed (u_id demo_user) /\ length (w_audit (snd out)) = S (length (w_audit demo_w1)) /\
  ((exists t u c w1, presented demo_call = Some t /\ signed_in t u c demo_w1 /\ has (Some (subject_of u demo_w1)) "cameras" "create" = true /\
     same_but_audit demo_w1 w1 /\ demo_handler u w1 = (fst out, snd out)) \/
   (same_but_audit demo_w1 (snd out) /\ (fst out = NoPermission "authentication_required" \/ fst out = Forbidden "permission_denied"))).
Proof.
  split; [by vm_compute|]. split; [by vm_compute|]. apply (handler_runs_only_with_rights demo_call "cameras" "create" demo_handler). apply surjective_pairing.
Defined.

Definition demo_registry : Sched := set_nodes [demo_node 1 2 999] demo_sched.
Definition demo_rotated : (exn + string) * Sched := node_issue_token 1 None demo_registry.
Definition demo_node_call (tok : string) : Request := demo_request "POST" "/api/v1/ai/nodes/heartbeat" ("Bearer " +:+ tok).

Definition demo_token : string := match fst demo_rotated with inr t => t | inl _ => EmptyString end.

Lemma newest_node_token_only_witness : exists n, node_token_required (demo_node_call demo_token) (snd demo_rotated) = Passed n /\ n_id n = 1.
Proof.
  destruct (newest_node_token_only 1 None demo_registry demo_token (snd demo_rotated) (snd demo_rotated)) as [_ H].
  - intros n n' Hn Hn' _ _ _. apply list_elem_of_singleton in Hn as ->. by apply list_elem_of_singleton in Hn' as ->.
  - vm_compute. reflexivity.
  - done.
  - apply H; [vm_compute; reflexivity|vm_compute; discriminate|vm_compute; reflexivity|vm_compute; reflexivity|].
    intros n Hn. vm_compute in Hn. by injection Hn as <-.
Defined.
