(* ===== verification/Cameras.v ===== *)
(** * Cameras and their streams in go2rtc

    src/server/controller/camera.py, service/go2rtc_sync.py, task/list/camera_health.py,
    model/camera.py, model/stream.py, driver/go2rtc.py.

    The world has the tables, go2rtc's streams (name to source), the last frames kept on
    disk, the events emitted and the scheduler's world, which go2rtc_sync asks about
    encoder nodes.  Columns nothing here reads (model, firmware, capabilities, PTZ, AI and
    edge flags) are not kept, nor audit rows and the thumbnail cache in Redis.  The
    sessions of the server do not expire what they loaded: a handler goes on with the
    streams it read first, and the model passes them along.

    Parameters: uuids, Fernet, the outcome of the n-th call of go2rtc ([net_ok]; a failed
    PUT or DELETE has no effect), frames by stream name, the probe of a device. *)

From stdpp Require Import pretty.
From S2P Require Import Prelude PyStr Redis Permission Token Planner Scheduler.
Local Open Scope Z_scope.
Local Open Scope list_scope.

Definition CAM_ONLINE : string := "online".
Definition CAM_OFFLINE : string := "offline".
Definition CAM_ERROR : string := "error".
Definition CAM_UNKNOWN : string := "unknown".
Definition CAM_UNAUTHORIZED : string := "unauthorized".

(** columns a user edits *)
Record Settings := {
  cs_name : string;
  cs_vendor : string;
  cs_driver : string;
  cs_host : string;
  cs_rtsp_port : option Z;
  cs_rtsp_transport : option string;
  cs_channel : Z;
  cs_live_transcode : bool;
  cs_dual_recording : bool;
  cs_dual_record_stream : option string;
  cs_username_enc : option string;
  cs_password_enc : option string;
  cs_is_enabled : bool
}.

Record CamRow := {
  cr_id : Z;
  cr_uuid : string;
  cr_serial : option string;
  cr_set : Settings;
  cr_status : string;
  cr_last_seen_at : option Z;
  cr_last_error : option string;
  cr_deleted_at : option Z
}.

Record StreamRow := {
  sr_camera_id : Z;
  sr_stream : Stream;
  sr_rtsp_path : option string;
  sr_deleted_at : option Z
}.

(** a JPEG: its size, whether it starts with the SOI marker, which picture *)
Record Frame := { fr_bytes : Z; fr_soi : bool; fr_id : Z }.

Record CamWorld := {
  cw_sched : Sched;
  cw_rows : list CamRow;
  cw_streams : list StreamRow;
  cw_next : Z;
  cw_go2rtc : gmap string string;
  cw_calls : nat;
  cw_last_frames : gmap string Frame;
  cw_events : list (string * Z)
}.
Definition CM (A : Type) : Type := M CamWorld exn A.
Definition cw_now (w : CamWorld) : Z := w_now (s_tok (cw_sched w)).

Definition set_cam_rows (l : list CamRow) (w : CamWorld) : CamWorld :=
  {| cw_sched := cw_sched w; cw_rows := l; cw_streams := cw_streams w; cw_next := cw_next w; cw_go2rtc := cw_go2rtc w; cw_calls := cw_calls w;
     cw_last_frames := cw_last_frames w; cw_events := cw_events w |}.
Definition set_cam_streams (l : list StreamRow) (next : Z) (w : CamWorld) : CamWorld :=
  {| cw_sched := cw_sched w; cw_rows := cw_rows w; cw_streams := l; cw_next := next; cw_go2rtc := cw_go2rtc w; cw_calls := cw_calls w;
     cw_last_frames := cw_last_frames w; cw_events := cw_events w |}.
Definition set_go2rtc (g : gmap string string) (w : CamWorld) : CamWorld :=
  {| cw_sched := cw_sched w; cw_rows := cw_rows w; cw_streams := cw_streams w; cw_next := cw_next w; cw_go2rtc := g; cw_calls := S (cw_calls w);
     cw_last_frames := cw_last_frames w; cw_events := cw_events w |}.
Definition set_last_frames (f : gmap string Frame) (w : CamWorld) : CamWorld :=
  {| cw_sched := cw_sched w; cw_rows := cw_rows w; cw_streams := cw_streams w; cw_next := cw_next w; cw_go2rtc := cw_go2rtc w; cw_calls := cw_calls w;
     cw_last_frames := f; cw_events := cw_events w |}.
(** [automation_events.emit] *)
Definition emit (kind : string) (camera_id : Z) (w : CamWorld) : CamWorld :=
  {| cw_sched := cw_sched w; cw_rows := cw_rows w; cw_streams := cw_streams w; cw_next := cw_next w; cw_go2rtc := cw_go2rtc w; cw_calls := cw_calls w;
     cw_last_frames := cw_last_frames w; cw_events := cw_events w ++ [(kind, camera_id)] |}.

(** ** Rows *)

Definition cam_live (c : CamRow) : bool := bool_decide (cr_deleted_at c = None).
Definition get_by_uuid (uuid : string) : CM CamRow := fun w =>
  match List.find (fun c => bool_decide (cr_uuid c = uuid) && cam_live c) (cw_rows w) with Some c => (inr c, w) | None => (inl RowNotFoundException, w) end.

Definition find_duplicate (serial : option string) (host : string) (channel : Z) (w : CamWorld) : option CamRow :=
  let live := List.filter cam_live (cw_rows w) in
  match (if truthy_str serial then List.find (fun c => bool_decide (cr_serial c = serial)) live else None) with
  | Some c => Some c
  | None => List.find (fun c => bool_decide (cs_host (cr_set c) = host) && (cs_channel (cr_set c) =? channel)) live
  end.

Definition put_cam (c : CamRow) (w : CamWorld) : CamWorld := set_cam_rows ((fun x => if cr_id x =? cr_id c then c else x) <$> cw_rows w) w.
Definition cr_with (s : Settings) (c : CamRow) : CamRow :=
  {| cr_id := cr_id c; cr_uuid := cr_uuid c; cr_serial := cr_serial c; cr_set := s; cr_status := cr_status c; cr_last_seen_at := cr_last_seen_at c;
     cr_last_error := cr_last_error c; cr_deleted_at := cr_deleted_at c |}.
Definition cr_now (status : string) (seen : option Z) (error : option string) (c : CamRow) : CamRow :=
  {| cr_id := cr_id c; cr_uuid := cr_uuid c; cr_serial := cr_serial c; cr_set := cr_set c; cr_status := status; cr_last_seen_at := seen;
     cr_last_error := error; cr_deleted_at := cr_deleted_at c |}.

(** [set_status] on the object a handler holds *)
Definition with_cam_status (status : string) (error : option string) (now : Z) (c : CamRow) : CamRow :=
  if bool_decide (status = CAM_ONLINE) then cr_now status (Some now) None c
  else if truthy_str error then cr_now status (cr_last_seen_at c) (Some (stake 512 (default ""%string error))) c
  else cr_now status (cr_last_seen_at c) (cr_last_error c) c.
Definition set_status (status : string) (error : option string) (c : CamRow) (w : CamWorld) : CamRow * CamWorld :=
  let c' := with_cam_status status error (cw_now w) c in (c', put_cam c' w).

Definition disable (s : Settings) : Settings :=
  {| cs_name := cs_name s; cs_vendor := cs_vendor s; cs_driver := cs_driver s; cs_host := cs_host s; cs_rtsp_port := cs_rtsp_port s;
     cs_rtsp_transport := cs_rtsp_transport s; cs_channel := cs_channel s; cs_live_transcode := cs_live_transcode s; cs_dual_recording := cs_dual_recording s;
     cs_dual_record_stream := cs_dual_record_stream s; cs_username_enc := cs_username_enc s; cs_password_enc := cs_password_enc s; cs_is_enabled := false |}.
Definition cr_soft_delete (now : Z) (c : CamRow) : CamRow :=
  {| cr_id := cr_id c; cr_uuid := cr_uuid c; cr_serial := cr_serial c; cr_set := disable (cr_set c); cr_status := cr_status c;
     cr_last_seen_at := cr_last_seen_at c; cr_last_error := cr_last_error c; cr_deleted_at := Some now |}.

(** the relationship [streams]: live rows ordered by role *)
Definition stream_live (camera_id : Z) (s : StreamRow) : bool := (sr_camera_id s =? camera_id) && bool_decide (sr_deleted_at s = None).
Fixpoint insert_role (s : StreamRow) (l : list StreamRow) : list StreamRow :=
  match l with
  | [] => [s]
  | x :: r => if String.leb (st_role (sr_stream s)) (st_role (sr_stream x)) then s :: x :: r else x :: insert_role s r
  end.
Definition streams_of (camera_id : Z) (w : CamWorld) : list StreamRow :=
  foldr insert_role [] (List.filter (stream_live camera_id) (cw_streams w)).

Definition go2rtc_name_for (camera_uuid role : string) : string := "cam_" +:+ camera_uuid +:+ "_" +:+ role.

(** [Stream.delete_for_camera] *)
Definition st_renamed (name : string) (s : Stream) : Stream :=
  {| st_id := st_id s; st_role := st_role s; st_go2rtc_name := name; st_is_default_live := st_is_default_live s;
     st_is_default_full := st_is_default_full s; st_enabled := st_enabled s; st_codec := st_codec s |}.
Definition sr_tombstone (now : Z) (s : StreamRow) : StreamRow :=
  {| sr_camera_id := sr_camera_id s; sr_stream := st_renamed (st_go2rtc_name (sr_stream s) +:+ ":del:" +:+ pretty (now / 1000)) (sr_stream s);
     sr_rtsp_path := sr_rtsp_path s; sr_deleted_at := Some now |}.
Definition delete_for_camera (camera_id : Z) (w : CamWorld) : CamWorld :=
  set_cam_streams ((fun s => if stream_live camera_id s then sr_tombstone (cw_now w) s else s) <$> cw_streams w) (cw_next w) w.

(** ** Sources (service/go2rtc_sync.py) *)

(** [urllib.parse.quote(s, safe='')] on the bytes of UTF-8 *)
Definition hex (n : nat) : Ascii.ascii := Ascii.ascii_of_nat (if (n <? 10)%nat then 48 + n else 55 + n)%nat.
Definition unreserved (c : Ascii.ascii) : bool :=
  let n := Ascii.nat_of_ascii c in
  ((65 <=? n) && (n <=? 90))%nat || ((97 <=? n) && (n <=? 122))%nat || ((48 <=? n) && (n <=? 57))%nat || bool_decide (n ∈ [95; 46; 45; 126]%nat).
Definition quote_char (c : Ascii.ascii) : string :=
  if unreserved c then String c EmptyString
  else let n := Ascii.nat_of_ascii c in String (Ascii.ascii_of_nat 37) (String (hex (n / 16)) (String (hex (n mod 16)) EmptyString)).
Fixpoint quote (s : string) : string := match s with EmptyString => EmptyString | String c r => quote_char c +:+ quote r end.

(** The camera as the schedulers see it. *)
Definition cam_view (c : CamRow) (streams : list StreamRow) : Camera :=
  {| cam_id := cr_id c; cam_is_enabled := cs_is_enabled (cr_set c); cam_deleted_at := cr_deleted_at c; cam_live_transcode := cs_live_transcode (cr_set c);
     cam_dual_recording := cs_dual_recording (cr_set c); cam_dual_record_stream := cs_dual_record_stream (cr_set c); cam_streams := sr_stream <$> streams |}.

Section Sources.
Context (decrypt : string -> option string).

Definition get_credentials (c : CamRow) : option string * option string :=
  (match cs_username_enc (cr_set c) with Some e => if truthy_str (Some e) then decrypt e else None | None => None end,
   match cs_password_enc (cr_set c) with Some e => if truthy_str (Some e) then decrypt e else None | None => None end).

Definition input_preset (c : CamRow) : string :=
  let transport := lower (or_str (cs_rtsp_transport (cr_set c)) "auto") in
  if bool_decide (transport ∈ ["tcp"; "udp"]%string) then "#input=rtsp/" +:+ transport else EmptyString.
Definition rtsp_url (c : CamRow) (s : StreamRow) : string :=
  let '(username, password) := get_credentials c in
  let cred := if truthy_str username then quote (default "" username) +:+ ":" +:+ quote (or_str password "") +:+ "@" else EmptyString in
  "rtsp://" +:+ cred +:+ cs_host (cr_set c) +:+ ":" +:+ pretty (or_Z (cs_rtsp_port (cr_set c)) 554) +:+ or_str (sr_rtsp_path s) "".

Definition copy_source (url preset : string) : string :=
  if bool_decide (preset = EmptyString) then url +:+ "#video=copy#audio=copy" else "ffmpeg:" +:+ url +:+ preset +:+ "#video=copy#audio=copy".

Definition build_source (c : CamRow) (streams : list StreamRow) (s : StreamRow) (w : CamWorld) : string :=
  let cam := cam_view c streams in
  if live_transcode_enabled cam (sr_stream s) then
    match live_offload_target cam (cw_sched w) with
    | Some (enc_name, _) => "rtsp://127.0.0.1:8554/" +:+ enc_name
    | None => "ffmpeg:" +:+ rtsp_url c s +:+ input_preset c +:+ "#video=h264#audio=aac"
    end
  else copy_source (rtsp_url c s) (input_preset c).

(** the default live stream, with its row *)
Definition default_live_row (streams : list StreamRow) : option StreamRow :=
  List.find (fun s => st_is_default_live (sr_stream s) && st_enabled (sr_stream s)) streams.

(** [offload_companions] *)
Definition offload_companions (c : CamRow) (streams : list StreamRow) (w : CamWorld) : list (string * string) * list string :=
  match default_live_row streams with
  | None => ([], [])
  | Some s =>
      let raw := st_go2rtc_name (sr_stream s) +:+ "_raw" in
      let enc := st_go2rtc_name (sr_stream s) +:+ "_enc" in
      match assignment_for (cam_view c streams) (cw_sched w) with
      | None => if s_flag (cw_sched w) then ([], [raw; enc]) else ([], [])
      | Some _ => ([(raw, copy_source (rtsp_url c s) (input_preset c))], [])
      end
  end.

Definition expected_names (c : CamRow) (streams : list StreamRow) (w : CamWorld) : list string :=
  (st_go2rtc_name ∘ sr_stream <$> List.filter (fun s => st_enabled (sr_stream s)) streams) ++ (fst <$> fst (offload_companions c streams w)).

Context (net_ok : nat -> bool).

(** [put_stream], [delete_stream]: whether it raised *)
Definition put_stream (name src : string) (w : CamWorld) : bool * CamWorld :=
  if net_ok (cw_calls w) then (true, set_go2rtc (<[name := src]> (cw_go2rtc w)) w) else (false, set_go2rtc (cw_go2rtc w) w).
Definition delete_stream (name : string) (w : CamWorld) : CamWorld :=
  set_go2rtc (if net_ok (cw_calls w) then delete name (cw_go2rtc w) else cw_go2rtc w) w.

(** the results of [sync_camera], in order *)
Definition put_one (r : list (string * bool) * CamWorld) (ns : string * string) : list (string * bool) * CamWorld :=
  let '(ok, w1) := put_stream (fst ns) (snd ns) (snd r) in (fst r ++ [(fst ns, ok)], w1).
Definition put_row (c : CamRow) (streams : list StreamRow) (r : list (string * bool) * CamWorld) (s : StreamRow) : list (string * bool) * CamWorld :=
  if negb (st_enabled (sr_stream s)) || negb (cs_is_enabled (cr_set c)) then r
  else put_one r (st_go2rtc_name (sr_stream s), build_source c streams s (snd r)).
Definition sync_camera (c : CamRow) (streams : list StreamRow) (w : CamWorld) : list (string * bool) * CamWorld :=
  let r := foldl (put_row c streams) ([], w) streams in
  let '(puts, deletes) := offload_companions c streams (snd r) in
  let r1 := foldl put_one r puts in
  (fst r1, foldl (fun w n => delete_stream n w) (snd r1) deletes).

Definition names_of (s : StreamRow) : list string :=
  let n := st_go2rtc_name (sr_stream s) in n :: (if st_is_default_live (sr_stream s) then [n +:+ "_raw"; n +:+ "_enc"] else []).
Definition remove_camera (streams : list StreamRow) (w : CamWorld) : CamWorld :=
  foldl (fun w n => delete_stream n w) w (concat (names_of <$> streams)).
End Sources.

(** ** The controller *)

Definition bad_char (c : Ascii.ascii) : bool := let n := Ascii.nat_of_ascii c in (n <? 32)%nat || (n =? 32)%nat || (n =? 35)%nat.
Definition reject_injection (value field : string) : CM unit :=
  if all_chars (fun c => negb (bad_char c)) value then ret tt else raise (InvalidParameterException (field +:+ " contains invalid characters")).

Record StreamData := { sd_role : option string; sd_codec : option string; sd_rtsp_path : option string }.
(** [None]: absent, or null where the code cannot tell; [Some None] null where it can *)
Record CameraData := {
  cd_name : option string;
  cd_host : option string;
  cd_serial : option string;
  cd_channel : option Z;
  cd_vendor : option string;
  cd_driver : option string;
  cd_rtsp_port : option Z;
  cd_rtsp_transport : option (option string);
  cd_username : option string;
  cd_password : option string;
  cd_streams : list StreamData;
  cd_capability_streams : list StreamData;
  cd_is_enabled : option bool;
  cd_live_transcode : option bool;
  cd_dual_recording : option bool;
  cd_dual_record_stream : option (option string)
}.

Definition transport_of (t : option string) : option string :=
  let t := lower (or_str t "auto") in if bool_decide (t ∈ ["tcp"; "udp"]%string) then Some t else None.

Definition fallback_live (s : Stream) : Stream :=
  {| st_id := st_id s; st_role := st_role s; st_go2rtc_name := st_go2rtc_name s; st_is_default_live := true; st_is_default_full := st_is_default_full s;
     st_enabled := st_enabled s; st_codec := st_codec s |}.
Definition new_stream (c : CamRow) (id : Z) (role : string) (sd : StreamData) : StreamRow :=
  {| sr_camera_id := cr_id c; sr_rtsp_path := sd_rtsp_path sd; sr_deleted_at := None;
     sr_stream := {| st_id := id; st_role := role; st_go2rtc_name := go2rtc_name_for (cr_uuid c) role; st_is_default_live := bool_decide (role = "sub"%string);
                     st_is_default_full := bool_decide (role = "main"%string); st_enabled := true; st_codec := sd_codec sd |} |}.

(** the rows [_replace_streams] adds to its session: [None] a path was refused *)
Fixpoint build_streams (c : CamRow) (id : Z) (seen : list string) (sds : list StreamData) : option (list StreamRow) :=
  match sds with
  | [] => Some []
  | sd :: r =>
      let role := lower (or_str (sd_role sd) "main") in
      if bool_decide (role ∈ seen) then build_streams c id seen r
      else if all_chars (fun ch => negb (bad_char ch)) (or_str (sd_rtsp_path sd) "")
      then cons (new_stream c id role sd) <$> build_streams c (id + 1) (role :: seen) r
      else None
  end.
(** [streams[0].is_default_live = True] *)
Definition ensure_live (l : list StreamRow) : list StreamRow :=
  if existsb (fun s => st_is_default_live (sr_stream s)) l then l
  else match l with
       | [] => []
       | s :: r => {| sr_camera_id := sr_camera_id s; sr_stream := fallback_live (sr_stream s); sr_rtsp_path := sr_rtsp_path s; sr_deleted_at := sr_deleted_at s |} :: r
       end.
Definition replace_streams (c : CamRow) (sds : list StreamData) : CM unit :=
  modify (delete_for_camera (cr_id c)) ;;;
  let! w := gets id in
  match build_streams c (cw_next w) [] sds with
  | None => raise (InvalidParameterException "rtsp_path contains invalid characters")
  | Some rows => modify (fun w => set_cam_streams (cw_streams w ++ ensure_live rows) (cw_next w + Z.of_nat (length rows)) w)
  end.

Section Controller.
Context (encrypt : string -> string) (decrypt : string -> option string) (net_ok : nat -> bool) (new_uuid : Z -> string).
Notation sync_camera := (sync_camera decrypt net_ok).
Notation remove_camera := (remove_camera net_ok).

(** [_sync_and_set_status] with the streams the camera object holds *)
Definition sync_and_set_status (c : CamRow) (streams : list StreamRow) (mark_online : bool) (w : CamWorld) : CamRow * CamWorld :=
  let '(result, w1) := sync_camera c streams w in
  let failed := List.filter (fun r => negb (snd r)) result in
  if bool_decide (result = []) then set_status CAM_UNKNOWN None c w1
  else if negb (bool_decide (failed = [])) then set_status CAM_ERROR (Some ("go2rtc sync failed: " +:+ String.concat ", " (fst <$> failed))) c w1
  else if mark_online then set_status CAM_ONLINE None c w1 else (c, w1).

(** the row [create] inserts *)
Definition new_camera (data : CameraData) (name host : string) (channel : Z) (w : CamWorld) : CamRow :=
  {| cr_id := cw_next w; cr_uuid := new_uuid (cw_next w); cr_serial := cd_serial data;
    cr_set := {| cs_name := name; cs_vendor := or_str (cd_vendor data) "unknown"; cs_driver := or_str (cd_driver data) "onvif"; cs_host := host;
                 cs_rtsp_port := Some (or_Z (cd_rtsp_port data) 554); cs_rtsp_transport := transport_of (default None (cd_rtsp_transport data));
                 cs_channel := channel; cs_live_transcode := false; cs_dual_recording := false; cs_dual_record_stream := None;
                 cs_username_enc := encrypt <$> cd_username data; cs_password_enc := encrypt <$> cd_password data; cs_is_enabled := true |};
    cr_status := CAM_UNKNOWN; cr_last_seen_at := None; cr_last_error := None; cr_deleted_at := None |}.

Definition create (data : CameraData) : CM CamRow :=
  let name := strip (or_str (cd_name data) "") in
  let host := strip (or_str (cd_host data) "") in
  if negb (truthy_str (Some name)) || negb (truthy_str (Some host)) then raise (InvalidParameterException "name and host are required") else
  reject_injection host "host" ;;;
  let channel := or_Z (cd_channel data) 1 in
  let! dup := gets (find_duplicate (cd_serial data) host channel) in
  match dup with
  | Some _ => raise (ConflictException "camera already registered (serial or host+channel)")
  | None =>
      let! w := gets id in
      let c := new_camera data name host channel w in
      modify (fun w => set_cam_streams (cw_streams w) (cw_next w + 1) (set_cam_rows (cw_rows w ++ [c]) w)) ;;;
      replace_streams c (match cd_streams data with [] => cd_capability_streams data | l => l end) ;;;
      (* the streams are loaded here for the first time *)
      fun w => let '(c', w1) := sync_and_set_status c (streams_of (cr_id c) w) false w in (inr c', w1)
  end.

(** the edited columns *)
Definition edited (data : CameraData) (s : Settings) : Settings :=
  {| cs_name := default (cs_name s) (cd_name data); cs_vendor := default (cs_vendor s) (cd_vendor data); cs_driver := default (cs_driver s) (cd_driver data);
     cs_host := default (cs_host s) (cd_host data);
     cs_rtsp_port := match cd_rtsp_port data with Some p => Some p | None => cs_rtsp_port s end;
     cs_rtsp_transport := match cd_rtsp_transport data with Some t => transport_of t | None => cs_rtsp_transport s end;
     cs_channel := default (cs_channel s) (cd_channel data); cs_live_transcode := default (cs_live_transcode s) (cd_live_transcode data);
     cs_dual_recording := default (cs_dual_recording s) (cd_dual_recording data);
     cs_dual_record_stream := match cd_dual_record_stream data with
                              | Some r => if truthy_str r then r else None
                              | None => cs_dual_record_stream s
                              end;
     cs_username_enc := if truthy_str (cd_username data) || truthy_str (cd_password data)
                        then match cd_username data with Some u => Some (encrypt u) | None => cs_username_enc s end else cs_username_enc s;
     cs_password_enc := if truthy_str (cd_username data) || truthy_str (cd_password data)
                        then match cd_password data with Some p => Some (encrypt p) | None => cs_password_enc s end else cs_password_enc s;
     cs_is_enabled := default (cs_is_enabled s) (cd_is_enabled data) |}.

Definition checked_host (data : CameraData) : CM unit :=
  match cd_host data with Some h => reject_injection (strip h) "host" | None => ret tt end.
Definition given_streams (c : CamRow) (data : CameraData) : CM unit :=
  match cd_streams data with [] => ret tt | l => replace_streams c l end.

Definition update (camera_uuid : string) (data : CameraData) : CM CamRow :=
  let! c0 := get_by_uuid camera_uuid in
  let! streams := gets (streams_of (cr_id c0)) in           (* loaded with the row *)
  checked_host data ;;;
  let c := cr_with (edited data (cr_set c0)) c0 in
  modify (put_cam c) ;;;
  given_streams c data ;;;
  modify (remove_camera streams) ;;;
  fun w => let '(c', w1) := sync_and_set_status c streams false w in (inr c', emit "camera_config_changed" (cr_id c) w1).

Definition delete (camera_uuid : string) : CM unit :=
  let! c := get_by_uuid camera_uuid in
  let! streams := gets (streams_of (cr_id c)) in
  modify (remove_camera streams) ;;;
  modify (delete_for_camera (cr_id c)) ;;;
  modify (fun w => put_cam (cr_soft_delete (cw_now w) c) w) ;;;
  modify (fun w => set_last_frames (base.delete (cr_uuid c) (cw_last_frames w)) w).

(** what the device answered *)
Inductive Probe :=
| AuthError
| ProbeError (msg : string)
| Found (error : option string) (streams : list StreamData) (rtsp_port : option Z).

Definition detected_port (port : option Z) (s : Settings) : Settings :=
  {| cs_name := cs_name s; cs_vendor := cs_vendor s; cs_driver := cs_driver s; cs_host := cs_host s;
     cs_rtsp_port := if truthy_Z port then port else cs_rtsp_port s;
     cs_rtsp_transport := cs_rtsp_transport s; cs_channel := cs_channel s; cs_live_transcode := cs_live_transcode s; cs_dual_recording := cs_dual_recording s;
     cs_dual_record_stream := cs_dual_record_stream s; cs_username_enc := cs_username_enc s; cs_password_enc := cs_password_enc s;
     cs_is_enabled := cs_is_enabled s |}.

Definition reprobe (camera_uuid : string) (probe : Probe) : CM CamRow :=
  let! c0 := get_by_uuid camera_uuid in
  let! old := gets (streams_of (cr_id c0)) in
  let status s e : CM CamRow := fun w => let '(c, w1) := set_status s e c0 w in (inr c, w1) in
  match probe with
  | AuthError => status CAM_UNAUTHORIZED (Some "reprobe unauthorized"%string)
  | ProbeError msg => status CAM_ERROR (Some msg)
  | Found error streams port =>
      if truthy_str error && bool_decide (length streams = 0%nat) then status CAM_ERROR error else
      let c := cr_with (detected_port port (cr_set c0)) c0 in
      modify (put_cam c) ;;;
      match streams with
      | [] => fun w => let '(c', w1) := set_status CAM_ONLINE None c w in (inr c', w1)
      | _ =>
          replace_streams c streams ;;;
          modify (remove_camera old) ;;;
          fun w => let '(c', w1) := sync_and_set_status c old true w in (inr c', w1)
      end
  end.

(** one item of a batch, merged with the common fields; [Malformed]: not an object, or a
    host that is not text *)
Inductive BatchItem := Merged (d : CameraData) | Malformed.
(** [batch_create]: what each item came to; [None]: the batch raised *)
Fixpoint batch_items (items : list BatchItem) (w : CamWorld) : option (list (exn + CamRow)) * CamWorld :=
  match items with
  | [] => (Some [], w)
  | Malformed :: _ => (None, w)
  | Merged d :: r => let '(res, w1) := create d w in let '(rs, w2) := batch_items r w1 in (cons res <$> rs, w2)
  end.
Definition batch_create (flag : bool) (items : list BatchItem) (w : CamWorld) : (exn + option (list (exn + CamRow))) * CamWorld :=
  if negb flag then (inl (InvalidParameterException "feature_disabled"), w)
  else if bool_decide (length items = 0%nat) then (inl (InvalidParameterException "items required"), w)
  else if (100 <? length items)%nat then (inl (InvalidParameterException "too many items (max 100)"), w)
  else let '(rs, w1) := batch_items items w in (inr rs, w1).
End Controller.

(** ** Health (driver/go2rtc.py get_frame, task/list/camera_health.py) *)

Inductive FrameAnswer := Unreachable | Http (status : Z) (f : Frame).
Definition is_picture (f : Frame) : bool := (512 <=? fr_bytes f) && fr_soi f.
Definition GOOD_BYTES : Z := 8000.

Fixpoint frame_loop (answers : list FrameAnswer) (best : option Frame) : option Frame :=
  match answers with
  | [] => best
  | Unreachable :: _ => best
  | Http status f :: r =>
      if negb (status =? 200) || negb (is_picture f) then best else
      let best' := match best with Some b => if fr_bytes b <? fr_bytes f then Some f else Some b | None => Some f end in
      if GOOD_BYTES <=? fr_bytes f then best' else frame_loop r best'
  end.
Definition get_frame (answers : list FrameAnswer) : option Frame := frame_loop (take 3 answers) None.

(** [_probe_streams]: full, live, first; each name once *)
Definition opt_list {A} (o : option A) : list A := match o with Some x => [x] | None => [] end.
Fixpoint once_by_name (seen : list string) (l : list StreamRow) : list StreamRow :=
  match l with
  | [] => []
  | s :: r => let n := st_go2rtc_name (sr_stream s) in if bool_decide (n ∈ seen) then once_by_name seen r else s :: once_by_name (n :: seen) r
  end.
Definition probe_streams (streams : list StreamRow) : list StreamRow :=
  once_by_name [] (opt_list (List.find (fun s => st_is_default_full (sr_stream s)) streams) ++
                   opt_list (List.find (fun s => st_is_default_live (sr_stream s)) streams) ++ opt_list (head streams)).

Section Health.
Context (decrypt : string -> option string) (net_ok : nat -> bool).
Context (frames : string -> list FrameAnswer).            (* of this pass, by stream name *)

Definition first_frame (streams : list StreamRow) : option Frame :=
  head (concat ((fun s => opt_list (get_frame (frames (st_go2rtc_name (sr_stream s))))) <$> streams)).

(** [_ensure_all_registered] *)
Definition ensure_all_registered (c : CamRow) (streams : list StreamRow) (registered : option (gset string)) (w : CamWorld) : CamWorld :=
  match registered with
  | None => w
  | Some names => if forallb (fun n => bool_decide (n ∈ names)) (expected_names decrypt c streams w) then w
                  else snd (sync_camera decrypt net_ok c streams w)
  end.

(** one camera: the transitions so far and the world *)
Definition health_one (registered : option (gset string)) (st : list (Z * string) * CamWorld) (c : CamRow) : list (Z * string) * CamWorld :=
  let '(transitions, w) := st in
  let all := streams_of (cr_id c) w in
  let w1 := ensure_all_registered c all registered w in
  let streams := probe_streams all in
  let frame := first_frame streams in
  let online := match frame with Some _ => true | None => false end in
  let w2 := match frame, streams with
            | None, s :: _ => snd (put_stream net_ok (st_go2rtc_name (sr_stream s)) (build_source decrypt c all s w1) w1)
            | _, _ => w1
            end in
  let w3 := match frame with Some f => set_last_frames (<[cr_uuid c := f]> (cw_last_frames w2)) w2 | None => w2 end in
  let new_status := if online then CAM_ONLINE else CAM_OFFLINE in
  let w4 := if negb (bool_decide (cr_status c = new_status)) || online
            then put_cam (if online then cr_now new_status (Some (cw_now w3)) None c else cr_now new_status (cr_last_seen_at c) (cr_last_error c) c) w3
            else w3 in
  (if bool_decide (cr_status c = new_status) then transitions else transitions ++ [(cr_id c, new_status)], w4).

Definition emit_transition (w : CamWorld) (t : Z * string) : CamWorld :=
  emit (if bool_decide (snd t = CAM_ONLINE) then "camera_online" else "camera_offline") (fst t) w.

Definition enabled_cameras (w : CamWorld) : list CamRow := List.filter (fun c => cam_live c && cs_is_enabled (cr_set c)) (cw_rows w).

(** [run_health_pass]; [listed]: go2rtc told its streams *)
Definition run_health_pass (healthz listed : bool) (w : CamWorld) : CamWorld :=
  if negb healthz then w else
  let registered := if listed then Some (dom (cw_go2rtc w)) else None in
  let '(transitions, w1) := foldl (health_one registered) ([], w) (enabled_cameras w) in
  foldl emit_transition w1 transitions.
End Health.

(** ** What a health pass does *)

Section HealthTheory.
Context (decrypt : string -> option string) (net_ok : nat -> bool) (frames : string -> list FrameAnswer).
Notation run_health_pass := (run_health_pass decrypt net_ok frames).
Notation health_one := (health_one decrypt net_ok frames).

(** [w'] differs from [w] only in go2rtc's streams and the calls made. *)
Definition only_go2rtc (w w' : CamWorld) : Prop :=
  exists g n, w' = {| cw_sched := cw_sched w; cw_rows := cw_rows w; cw_streams := cw_streams w; cw_next := cw_next w; cw_go2rtc := g; cw_calls := n;
                      cw_last_frames := cw_last_frames w; cw_events := cw_events w |}.

Lemma only_go2rtc_refl w : only_go2rtc w w.
Proof. exists (cw_go2rtc w), (cw_calls w). by destruct w. Qed.

Lemma only_go2rtc_trans w1 w2 w3 : only_go2rtc w1 w2 -> only_go2rtc w2 w3 -> only_go2rtc w1 w3.
Proof. intros (g1 & n1 & ->) (g2 & n2 & ->). by exists g2, n2. Qed.

Lemma put_only name src w : only_go2rtc w (snd (put_stream net_ok name src w)).
Proof. unfold put_stream. destruct (net_ok _); eexists _, _; reflexivity. Qed.

Lemma delete_only name w : only_go2rtc w (delete_stream net_ok name w).
Proof. eexists _, _; reflexivity. Qed.

Lemma foldl_only {A X} (P : X -> X -> Prop) (f : X -> A -> X) (l : list A) (x : X) :
  (forall x, P x x) -> (forall x y z, P x y -> P y z -> P x z) -> (forall x a, P x (f x a)) -> P x (foldl f x l).
Proof. intros Hr Ht Hf. revert x. induction l as [|a l IH]; intros x; [apply Hr|]. cbn. eapply Ht; [apply Hf|apply IH]. Qed.

Lemma sync_only c streams w : only_go2rtc w (snd (sync_camera decrypt net_ok c streams w)).
Proof.
  assert (Hone : forall r ns, only_go2rtc (snd r) (snd (put_one net_ok r ns))).
  { intros [r w0] ns. unfold put_one. pose proof (put_only (fst ns) (snd ns) w0) as H. cbn [snd]. by destruct (put_stream _ _ _ _). }
  assert (Hp : forall l r, only_go2rtc (snd r) (snd (foldl (put_one net_ok) r l))).
  { intros l r. apply (foldl_only (fun r r' => only_go2rtc (snd r) (snd r'))); [intros; apply only_go2rtc_refl|intros ? ? ?; apply only_go2rtc_trans|apply Hone]. }
  assert (Hr : forall l r, only_go2rtc (snd r) (snd (foldl (put_row decrypt net_ok c streams) r l))).
  { intros l r. apply (foldl_only (fun r r' => only_go2rtc (snd r) (snd r'))); [intros; apply only_go2rtc_refl|intros ? ? ?; apply only_go2rtc_trans|].
    intros r0 s. unfold put_row. destruct (_ || _); [apply only_go2rtc_refl|apply Hone]. }
  unfold sync_camera. specialize (Hr streams ([], w)). destruct (offload_companions _ _ _ _) as [puts deletes].
  eapply only_go2rtc_trans; [exact Hr|]. eapply only_go2rtc_trans; [apply Hp|]. cbn [snd].
  apply (foldl_only only_go2rtc); [apply only_go2rtc_refl|apply only_go2rtc_trans|intros; apply delete_only].
Qed.

(** the row of a camera after a pass *)
Definition online (w : CamWorld) (c : CamRow) : bool :=
  match first_frame frames (probe_streams (streams_of (cr_id c) w)) with Some _ => true | None => false end.
Definition health_row (w : CamWorld) (c : CamRow) : CamRow :=
  if online w c then cr_now CAM_ONLINE (Some (cw_now w)) None c else cr_now CAM_OFFLINE (cr_last_seen_at c) (cr_last_error c) c.
Definition status_change (w : CamWorld) (c : CamRow) : list (Z * string) :=
  if bool_decide (cr_status (health_row w c) = cr_status c) then [] else [(cr_id c, cr_status (health_row w c))].

Lemma health_row_id w c : cr_id (health_row w c) = cr_id c.
Proof. unfold health_row. by destruct (online w c). Qed.

Lemma cam_eta c : cr_now (cr_status c) (cr_last_seen_at c) (cr_last_error c) c = c.
Proof. by destruct c. Qed.

(** [w] still has the schedulers and the streams of [w0]. *)
Definition same_setup (w0 w : CamWorld) : Prop := cw_sched w = cw_sched w0 /\ cw_streams w = cw_streams w0.

Lemma only_setup w0 w w' : same_setup w0 w -> only_go2rtc w w' -> same_setup w0 w' /\ cw_rows w' = cw_rows w /\ cw_events w' = cw_events w.
Proof. by intros [H1 H2] (g & n & ->). Qed.

Lemma ensure_only c streams registered w : only_go2rtc w (ensure_all_registered decrypt net_ok c streams registered w).
Proof. unfold ensure_all_registered. destruct registered as [names|]; [|apply only_go2rtc_refl]. destruct (forallb _ _); [apply only_go2rtc_refl|apply sync_only]. Qed.

Lemma health_one_spec registered w0 t w c : same_setup w0 w -> (forall x, x ∈ cw_rows w -> cr_id x = cr_id c -> x = c) ->
  let '(t', w') := health_one registered (t, w) c in
  t' = t ++ status_change w0 c /\ same_setup w0 w' /\ cw_events w' = cw_events w /\
  cw_rows w' = (fun x => if cr_id x =? cr_id c then health_row w0 c else x) <$> cw_rows w.
Proof.
  intros Hset Huniq. unfold Cameras.health_one. destruct Hset as [Hsch Hstr].
  assert (Hall : streams_of (cr_id c) w = streams_of (cr_id c) w0) by (unfold streams_of; by rewrite Hstr). rewrite Hall.
  set (all := streams_of (cr_id c) w0). set (w1 := ensure_all_registered _ _ _ _ _ _).
  assert (H1 : only_go2rtc w w1) by apply ensure_only.
  set (w2 := match first_frame frames (probe_streams all) with None => _ | Some _ => w1 end).
  assert (H2 : only_go2rtc w w2).
  { unfold w2. destruct (first_frame _ _); [done|]. destruct (probe_streams all); [done|]. eapply only_go2rtc_trans; [exact H1|apply put_only]. }
  destruct (only_setup w0 w w2 (conj Hsch Hstr) H2) as ([Hs2 Hst2] & Hr2 & He2). unfold status_change, health_row, online. fold all.
  destruct (first_frame frames (probe_streams all)) as [f|].
  - cbn [negb orb]. rewrite orb_true_r. cbn. split; [do 2 case_bool_decide; rewrite ?app_nil_r; congruence|]. split; [done|]. split; [done|]. rewrite Hr2.
    replace (cw_now (set_last_frames (<[cr_uuid c:=f]> (cw_last_frames w2)) w2)) with (cw_now w0) by (unfold cw_now; cbn; by rewrite Hs2). done.
  - rewrite orb_false_r. cbn. split; [do 2 case_bool_decide; rewrite ?app_nil_r; congruence|]. case_bool_decide as Hc; cbn [negb]; [|cbn; by rewrite Hr2].
    split; [done|]. split; [done|]. rewrite Hr2, <- Hc, cam_eta. symmetry. rewrite <- (list_fmap_id (cw_rows w)) at 2. apply list_fmap_ext.
    intros i x Hx. cbn. destruct (Z.eqb_spec (cr_id x) (cr_id c)); [|done]. symmetry. apply Huniq; [by eapply list_elem_of_lookup_2|done].
Qed.

Lemma health_fold registered w0 l t w : same_setup w0 w -> NoDup (cr_id <$> cw_rows w) -> NoDup (cr_id <$> l) -> (forall c, c ∈ l -> c ∈ cw_rows w) ->
  let '(t', w') := foldl (health_one registered) (t, w) l in
  t' = t ++ concat (status_change w0 <$> l) /\ same_setup w0 w' /\ cw_events w' = cw_events w /\
  cw_rows w' = (fun x => if bool_decide (cr_id x ∈ cr_id <$> l) then health_row w0 x else x) <$> cw_rows w.
Proof.
  revert t w. induction l as [|c l IH]; intros t w Hset Hn Hl Hin.
  - cbn. split; [by rewrite app_nil_r|]. split; [done|]. split; [done|]. by rewrite list_fmap_id.
  - cbn [fmap list_fmap] in Hl. apply NoDup_cons in Hl as [Hni Hl].
    assert (Hu : forall x, x ∈ cw_rows w -> cr_id x = cr_id c -> x = c)
      by (intros x Hx He; apply (nodup_key_inj cr_id (cw_rows w)); [done|done|apply Hin; by left|done]).
    pose proof (health_one_spec registered w0 t w c Hset Hu) as H. cbn [foldl]. destruct (health_one registered (t, w) c) as [t1 w1].
    destruct H as (-> & Hset1 & He1 & Hr1). specialize (IH (t ++ status_change w0 c) w1 Hset1).
    assert (Hids : cr_id <$> cw_rows w1 = cr_id <$> cw_rows w).
    { rewrite Hr1, <- list_fmap_compose. apply list_fmap_ext. intros _ x _. cbn. destruct (Z.eqb_spec (cr_id x) (cr_id c)); [by rewrite health_row_id|done]. }
    rewrite Hids in IH. specialize (IH Hn Hl). destruct (foldl _ _ l) as [t' w'].
    destruct IH as (-> & Hset' & He' & Hr').
    { intros c' Hc'. rewrite Hr1. apply list_elem_of_fmap. exists c'. split; [|apply Hin; by right].
      destruct (Z.eqb_spec (cr_id c') (cr_id c)) as [He|]; [|done]. exfalso. apply Hni. rewrite <- He. by apply list_elem_of_fmap_2. }
    split; [cbn [fmap list_fmap concat]; by rewrite app_assoc|]. split; [done|]. split; [congruence|]. rewrite Hr', Hr1, <- list_fmap_compose.
    apply list_fmap_ext. intros i x Hx. apply list_elem_of_lookup_2 in Hx. cbn [compose].
    destruct (Z.eqb_spec (cr_id x) (cr_id c)) as [He|He].
    + rewrite (Hu x Hx He), health_row_id. rewrite bool_decide_eq_false_2 by done. by rewrite bool_decide_eq_true_2 by (cbn; left).
    + assert (Hiff : cr_id x ∈ cr_id <$> (c :: l) <-> cr_id x ∈ cr_id <$> l) by (cbn; rewrite elem_of_cons; naive_solver).
      by rewrite (bool_decide_ext _ _ Hiff).
Qed.

Lemma emit_transitions l x : cw_rows (foldl emit_transition x l) = cw_rows x /\ cw_streams (foldl emit_transition x l) = cw_streams x /\
  cw_events (foldl emit_transition x l) = cw_events x ++ ((fun t => (if bool_decide (snd t = CAM_ONLINE) then "camera_online" else "camera_offline", fst t)%string) <$> l).
Proof.
  revert x. induction l as [|y l IH]; intros x; [cbn; by rewrite app_nil_r|]. cbn [foldl]. destruct (IH (emit_transition x y)) as (-> & -> & ->).
  split; [done|]. split; [done|]. cbn. by rewrite <- app_assoc.
Qed.

(** the rows a pass writes, before its events *)
Lemma health_rows registered w t w1 : NoDup (cr_id <$> cw_rows w) ->
  foldl (health_one registered) ([], w) (enabled_cameras w) = (t, w1) ->
  t = concat (status_change w <$> enabled_cameras w) /\ cw_events w1 = cw_events w /\ cw_streams w1 = cw_streams w /\
  cw_rows w1 = (fun c => if cam_live c && cs_is_enabled (cr_set c) then health_row w c else c) <$> cw_rows w.
Proof.
  intros Hn E. assert (Hl : NoDup (cr_id <$> enabled_cameras w)) by (by apply filter_nodup).
  pose proof (health_fold registered w (enabled_cameras w) [] w (conj eq_refl eq_refl) Hn Hl) as H.
  rewrite E in H. destruct H as (-> & [Hs Hst] & He & Hr); [by intros c [? _]%elem_of_filter_In|].
  split; [done|]. split; [done|]. split; [done|]. rewrite Hr. apply list_fmap_ext. intros i c Hc. apply list_elem_of_lookup_2 in Hc. cbn.
  case_bool_decide as Hm.
  - apply list_elem_of_fmap in Hm as (c' & Hid & [Hc' Hf]%elem_of_filter_In). rewrite (nodup_key_inj cr_id (cw_rows w) c c' Hn Hc Hc' Hid). by rewrite Hf.
  - destruct (_ && _) eqn:Hf; [|done]. destruct Hm. apply list_elem_of_fmap_2. by apply elem_of_filter_In.
Qed.

Lemma health_pass_tables listed w : NoDup (cr_id <$> cw_rows w) ->
  cw_rows (run_health_pass true listed w) = (fun c => if cam_live c && cs_is_enabled (cr_set c) then health_row w c else c) <$> cw_rows w /\
  cw_streams (run_health_pass true listed w) = cw_streams w.
Proof.
  intros Hn. unfold Cameras.run_health_pass. cbn [negb]. destruct (foldl _ _ _) as [t w1] eqn:E. destruct (health_rows _ _ _ _ Hn E) as (_ & _ & Hst & Hr).
  by destruct (emit_transitions t w1) as (-> & -> & _).
Qed.

(** A health pass, while go2rtc answers, sets every enabled camera online or offline by
    whether one of its streams gave a picture, touches no other camera, and emits one
    event for each camera whose status changed, in the order of the cameras and after all
    rows are written; while go2rtc does not answer it changes nothing. *)
Theorem health_pass_reports healthz listed w : NoDup (cr_id <$> cw_rows w) ->
  let w' := run_health_pass healthz listed w in
  if healthz then
    cw_rows w' = (fun c => if cam_live c && cs_is_enabled (cr_set c) then health_row w c else c) <$> cw_rows w /\ cw_streams w' = cw_streams w /\
    cw_events w' = cw_events w ++ ((fun t => (if bool_decide (snd t = CAM_ONLINE) then "camera_online" else "camera_offline", fst t)%string) <$>
                                   concat (status_change w <$> enabled_cameras w))
  else w' = w.
Proof.
  intros Hn w'. subst w'. destruct healthz; [|done]. destruct (health_pass_tables listed w Hn) as [-> ->]. split; [done|]. split; [done|].
  unfold Cameras.run_health_pass. cbn [negb]. destruct (foldl _ _ _) as [t w1] eqn:E. destruct (health_rows _ _ _ _ Hn E) as (-> & He & _).
  destruct (emit_transitions (concat (status_change w <$> enabled_cameras w)) w1) as (_ & _ & ->). by rewrite He.
Qed.

(** *** After a restart of go2rtc *)

Definition underscore : Ascii.ascii := Ascii.ascii_of_nat 95.

(** live rows carry the names the server gives them, for the roles the server knows *)
Record plain_names (w : CamWorld) : Prop := {
  pn_ids : NoDup (cr_id <$> cw_rows w);
  pn_uuids : NoDup (cr_uuid <$> cw_rows w);
  pn_hex : forall c, c ∈ cw_rows w -> all_chars (fun ch => negb (bool_decide (ch = underscore))) (cr_uuid c) = true;
  pn_streams : forall c s, c ∈ cw_rows w -> s ∈ streams_of (cr_id c) w ->
    st_go2rtc_name (sr_stream s) = go2rtc_name_for (cr_uuid c) (st_role (sr_stream s)) /\ st_role (sr_stream s) ∈ ["main"; "sub"; "third"]%string
}.

Lemma name_inj w c c' r r' : plain_names w -> c ∈ cw_rows w -> c' ∈ cw_rows w ->
  go2rtc_name_for (cr_uuid c) r = go2rtc_name_for (cr_uuid c') r' -> c = c' /\ r = r'.
Proof.
  intros Hp Hc Hc' H. unfold go2rtc_name_for in H. change ("_" +:+ r) with (String underscore r) in H. change ("_" +:+ r') with (String underscore r') in H.
  apply (inj (String.append "cam_")) in H. pose proof (split_once_at underscore (cr_uuid c) r (pn_hex w Hp c Hc)) as E. rewrite H in E.
  rewrite (split_once_at underscore (cr_uuid c') r' (pn_hex w Hp c' Hc')) in E. injection E as E ->. split; [|done].
  by apply (nodup_key_inj cr_uuid (cw_rows w)); [apply (pn_uuids w)|..].
Qed.

Lemma name_suffix u r x : go2rtc_name_for u r +:+ x = go2rtc_name_for u (r +:+ x).
Proof. unfold go2rtc_name_for. by rewrite <- !string_app_assoc. Qed.

(** what the companions of a camera take away is expected of no camera *)
Lemma expected_not_deleted w c c' n : plain_names w -> c ∈ cw_rows w -> c' ∈ cw_rows w ->
  n ∈ expected_names decrypt c (streams_of (cr_id c) w) w -> n ∈ snd (offload_companions decrypt c' (streams_of (cr_id c') w) w) -> False.
Proof.
  intros Hp Hc Hc' Hn Hd. unfold offload_companions in Hd. destruct (default_live_row (streams_of (cr_id c') w)) as [s'|] eqn:Es'; [|by apply elem_of_nil in Hd].
  destruct (assignment_for _ _) eqn:Ea'; [by apply elem_of_nil in Hd|]. destruct (s_flag _); [|by apply elem_of_nil in Hd]. cbn [snd] in Hd.
  apply List.find_some in Es' as [Hs' _]. apply list_elem_of_In in Hs'. destruct (pn_streams w Hp c' s' Hc' Hs') as [Hn' Hr']. rewrite Hn', !name_suffix in Hd.
  unfold expected_names in Hn. apply elem_of_app in Hn as [(s & -> & [Hs _]%elem_of_filter_In)%list_elem_of_fmap|Hn].
  - destruct (pn_streams w Hp c s Hc Hs) as [Hn Hr]. cbn [compose] in Hd. rewrite Hn in Hd.
    apply elem_of_cons in Hd as [Hd|Hd%list_elem_of_singleton]; apply (name_inj w) in Hd as [_ Hd]; try done; rewrite !elem_of_cons in Hr, Hr';
      destruct Hr as [Hr|[Hr|[Hr|Hr%elem_of_nil]]], Hr' as [Hr'|[Hr'|[Hr'|Hr'%elem_of_nil]]]; try done; by rewrite Hr, Hr' in Hd.
  - unfold offload_companions in Hn. destruct (default_live_row (streams_of (cr_id c) w)) as [s|] eqn:Es; [|by apply elem_of_nil in Hn].
    apply List.find_some in Es as Hs. destruct Hs as [Hs _]. apply list_elem_of_In in Hs. destruct (pn_streams w Hp c s Hc Hs) as [Hns Hr].
    destruct (assignment_for (cam_view c _) _) eqn:Ea; [|destruct (s_flag _); by apply elem_of_nil in Hn]. cbn in Hn. apply list_elem_of_singleton in Hn as ->.
    rewrite Hns, name_suffix in Hd. apply elem_of_cons in Hd as [Hd|Hd%list_elem_of_singleton]; apply (name_inj w) in Hd as [-> Hd]; try done.
    + congruence.
    + rewrite !elem_of_cons in Hr, Hr'. destruct Hr as [Hr|[Hr|[Hr|Hr%elem_of_nil]]], Hr' as [Hr'|[Hr'|[Hr'|Hr'%elem_of_nil]]]; try done; by rewrite Hr, Hr' in Hd.
Qed.

Definition registered_in (w : CamWorld) (n : string) : Prop := is_Some (cw_go2rtc w !! n).

Lemma offload_setup c streams w0 w : cw_sched w = cw_sched w0 -> offload_companions decrypt c streams w = offload_companions decrypt c streams w0.
Proof. intros H. unfold offload_companions. by rewrite H. Qed.

Hypothesis network_up : forall n, net_ok n = true.

Lemma put_registered name src w n : registered_in (snd (put_stream net_ok name src w)) n <-> n = name \/ registered_in w n.
Proof.
  unfold put_stream, registered_in. rewrite network_up. cbn. destruct (decide (name = n)) as [->|Hne]; [rewrite lookup_insert_eq|rewrite lookup_insert_ne by done]; naive_solver.
Qed.

Lemma put_one_registered r ns n : n = fst ns \/ registered_in (snd r) n -> registered_in (snd (put_one net_ok r ns)) n.
Proof. intros H. apply (put_registered _ (snd ns)) in H. unfold put_one. by destruct (put_stream _ _ _ _). Qed.

Lemma put_all_registered l r n : n ∈ fst <$> l \/ registered_in (snd r) n -> registered_in (snd (foldl (put_one net_ok) r l)) n.
Proof.
  revert r. induction l as [|x l IH]; intros r [H|H]; [by apply elem_of_nil in H|done|cbn in H; apply elem_of_cons in H as [->|H]| ]; cbn [foldl]; apply IH;
    [right; apply put_one_registered; by left|by left|right; apply put_one_registered; by right].
Qed.

Lemma rows_registered c streams l r n : cs_is_enabled (cr_set c) = true ->
  n ∈ (st_go2rtc_name ∘ sr_stream <$> List.filter (fun s => st_enabled (sr_stream s)) l) \/ registered_in (snd r) n ->
  registered_in (snd (foldl (put_row decrypt net_ok c streams) r l)) n.
Proof.
  intros Hen. revert r. induction l as [|s l IH]; intros r H; [destruct H as [H|]; [by apply elem_of_nil in H|done]|]. cbn [foldl]. apply IH. cbn in H.
  unfold put_row. rewrite Hen, orb_false_r. destruct (st_enabled (sr_stream s)); cbn in H |- *; [|done].
  destruct H as [H|H]; [apply elem_of_cons in H as [->|H]; [right|by left]|right]; apply put_one_registered; [by left|by right].
Qed.

Lemma deletes_registered l w n : registered_in w n -> n ∉ l -> registered_in (foldl (fun w n => delete_stream net_ok n w) w l) n.
Proof.
  revert w. induction l as [|x l IH]; intros w H Hn; [done|]. apply not_elem_of_cons in Hn as [Hx Hn]. cbn [foldl]. apply IH; [|done].
  unfold delete_stream, registered_in. rewrite network_up. cbn. by rewrite lookup_delete_ne.
Qed.

Lemma sync_registered c streams w n : cs_is_enabled (cr_set c) = true -> n ∉ snd (offload_companions decrypt c streams w) ->
  n ∈ expected_names decrypt c streams w \/ registered_in w n -> registered_in (snd (sync_camera decrypt net_ok c streams w)) n.
Proof.
  intros Hen Hnd H. unfold sync_camera. set (r := foldl (put_row _ _ _ _) _ _).
  assert (Hr : only_go2rtc w (snd r)).
  { unfold r. apply (foldl_only (fun r r' => only_go2rtc (snd r) (snd r')) _ streams ([], w)); [intros; apply only_go2rtc_refl|intros ? ? ?; apply only_go2rtc_trans|].
    intros [l0 w0] s. unfold put_row. destruct (_ || _); [apply only_go2rtc_refl|]. unfold put_one. cbn [fst snd].
    pose proof (put_only (st_go2rtc_name (sr_stream s)) (build_source decrypt c streams s w0) w0) as Hp. by destruct (put_stream _ _ _ _). }
  assert (Hs : cw_sched (snd r) = cw_sched w) by (by destruct Hr as (g & k & ->)). rewrite (offload_setup c streams w (snd r) Hs).
  unfold expected_names in H. destruct (offload_companions _ _ _ w) as [puts deletes]. cbn [fst snd] in *. apply deletes_registered; [|done].
  apply put_all_registered. rewrite elem_of_app in H. destruct H as [[H|H]|H]; [right|by left|right]; apply rows_registered; auto.
Qed.

Lemma health_one_registered names w0 t w c n : same_setup w0 w -> cs_is_enabled (cr_set c) = true ->
  n ∉ snd (offload_companions decrypt c (streams_of (cr_id c) w0) w0) ->
  registered_in w n \/ n ∈ expected_names decrypt c (streams_of (cr_id c) w0) w0 /\ (n ∈ names -> registered_in w n) ->
  registered_in (snd (health_one (Some names) (t, w) c)) n.
Proof.
  intros [Hsch Hstr] Hen Hnd H. unfold Cameras.health_one.
  assert (Hall : streams_of (cr_id c) w = streams_of (cr_id c) w0) by (unfold streams_of; by rewrite Hstr). rewrite Hall.
  set (all := streams_of (cr_id c) w0) in *. set (w1 := ensure_all_registered _ _ _ _ _ _).
  assert (H1 : registered_in w1 n).
  { assert (He : expected_names decrypt c all w = expected_names decrypt c all w0) by (unfold expected_names; by rewrite (offload_setup c all w0 w Hsch)).
    unfold w1, ensure_all_registered. rewrite He. destruct (forallb _ _) eqn:Ef.
    - destruct H as [H|[H Hin]]; [done|]. rewrite forallb_forall in Ef. apply Hin. specialize (Ef n). rewrite <- list_elem_of_In, bool_decide_eq_true in Ef. auto.
    - apply sync_registered; [done|by rewrite (offload_setup c all w0 w Hsch)|]. rewrite He. destruct H as [H|[H _]]; auto. }
  set (w2 := match first_frame frames (probe_streams all) with None => _ | Some _ => w1 end).
  assert (H2 : registered_in w2 n).
  { unfold w2. destruct (first_frame _ _); [done|]. destruct (probe_streams all); [done|]. apply put_registered. by right. }
  cbn [snd]. destruct (first_frame _ _); destruct (_ || _); exact H2.
Qed.

Lemma health_fold_registered names w0 l t w n : plain_names w0 -> same_setup w0 w -> NoDup (cr_id <$> cw_rows w) -> NoDup (cr_id <$> l) ->
  (forall c, c ∈ l -> c ∈ cw_rows w /\ c ∈ cw_rows w0 /\ cs_is_enabled (cr_set c) = true) ->
  (exists c, c ∈ cw_rows w0 /\ n ∈ expected_names decrypt c (streams_of (cr_id c) w0) w0) ->
  registered_in w n \/ (exists c, c ∈ l /\ n ∈ expected_names decrypt c (streams_of (cr_id c) w0) w0 /\ (n ∈ names -> registered_in w n)) ->
  registered_in (snd (foldl (health_one (Some names)) (t, w) l)) n.
Proof.
  intros Hp. revert t w. induction l as [|c l IH]; intros t w Hset Hn Hl Hin Hexp H.
  - destruct H as [H|(c & Hc & _)]; [done|by apply elem_of_nil in Hc].
  - cbn [fmap list_fmap] in Hl. apply NoDup_cons in Hl as [Hni Hl]. destruct (Hin c ltac:(by left)) as (Hcw & Hc0 & Hen).
    assert (Hnd : n ∉ snd (offload_companions decrypt c (streams_of (cr_id c) w0) w0)).
    { intros Hd. destruct Hexp as (c' & Hc' & Hexp). exact (expected_not_deleted w0 c' c n Hp Hc' Hc0 Hexp Hd). }
    pose proof (health_one_registered names w0 t w c n Hset Hen Hnd) as Hstep.
    pose proof (health_one_spec (Some names) w0 t w c Hset ltac:(intros x Hx He; by apply (nodup_key_inj cr_id (cw_rows w)))) as Hspec.
    cbn [foldl]. destruct (health_one (Some names) (t, w) c) as [t1 w1]. destruct Hspec as (_ & Hset1 & _ & Hr1). cbn [snd] in Hstep. apply IH; [done| |done| |done|].
    + replace (cr_id <$> cw_rows w1) with (cr_id <$> cw_rows w); [done|]. rewrite Hr1, <- list_fmap_compose. apply list_fmap_ext. intros _ x _. cbn.
      destruct (Z.eqb_spec (cr_id x) (cr_id c)); [by rewrite health_row_id|done].
    + intros c' Hc'. destruct (Hin c' ltac:(by right)) as (Hw' & H0' & Hen'). split; [|done]. rewrite Hr1. apply list_elem_of_fmap. exists c'. split; [|done].
      destruct (Z.eqb_spec (cr_id c') (cr_id c)) as [He|]; [|done]. exfalso. apply Hni. rewrite <- He. by apply list_elem_of_fmap_2.
    + destruct H as [H|(c' & [->|Hc']%elem_of_cons & He & Hin')]; [left; auto|left; auto|]. right. exists c'. split; [done|]. split; [done|]. auto.
Qed.

(** After go2rtc restarted and lost its streams, one health pass registers again every
    enabled stream of every enabled camera, and the companion stream an encoder node
    pulls from, whether the cameras give pictures or not. *)
Theorem go2rtc_restart_recovered w c n : plain_names w -> c ∈ enabled_cameras w -> n ∈ expected_names decrypt c (streams_of (cr_id c) w) w ->
  is_Some (cw_go2rtc (run_health_pass true true w) !! n).
Proof.
  intros Hp Hc Hn. unfold Cameras.run_health_pass. cbn [negb].
  pose proof (health_fold_registered (dom (cw_go2rtc w)) w (enabled_cameras w) [] w n Hp (conj eq_refl eq_refl) (pn_ids w Hp) (filter_nodup _ _ _ (pn_ids w Hp))) as H.
  destruct (foldl _ _ _) as [t w1]. assert (H1 : registered_in w1 n).
  { apply H.
    - intros c' [Hc' [_ He]%andb_prop]%elem_of_filter_In. done.
    - exists c. apply elem_of_filter_In in Hc as [Hc _]. done.
    - right. exists c. split; [done|]. split; [done|]. unfold registered_in. by rewrite elem_of_dom. }
  assert (Hemit : forall l x, cw_go2rtc (foldl emit_transition x l) = cw_go2rtc x) by (intros l; induction l as [|y l IH]; intros x; [done|cbn; by rewrite IH]).
  by rewrite Hemit.
Qed.
End HealthTheory.

(** ** What reaches go2rtc *)

Section Injection.
Context (encrypt : string -> string) (decrypt : string -> option string) (net_ok : nat -> bool) (new_uuid : Z -> string).

Definition hash_sign : Ascii.ascii := Ascii.ascii_of_nat 35.
Definition not_hash (c : Ascii.ascii) : bool := negb (bool_decide (c = hash_sign)).
Definition hash_free (s : string) : bool := all_chars not_hash s.

(** the directives the server itself appends *)
Definition DIRECTIVES : list string :=
  ["#video=copy#audio=copy"; "#input=rtsp/tcp#video=copy#audio=copy"; "#input=rtsp/udp#video=copy#audio=copy";
   "#video=h264#audio=aac"; "#input=rtsp/tcp#video=h264#audio=aac"; "#input=rtsp/udp#video=h264#audio=aac"]%string.
(** a source with no directive of a user's, or a pull of an encoder's rendition *)
Definition clean_source (src : string) : Prop :=
  (exists body suffix, src = body +:+ suffix /\ hash_free body = true /\ suffix ∈ DIRECTIVES) \/ exists name, src = "rtsp://127.0.0.1:8554/" +:+ name +:+ "_enc".

Definition row_clean (c : CamRow) : Prop := hash_free (cs_host (cr_set c)) = true.
Definition stream_clean (s : StreamRow) : Prop := hash_free (or_str (sr_rtsp_path s) "") = true.
Definition sources_ok (w : CamWorld) : Prop :=
  Forall row_clean (cw_rows w) /\ Forall stream_clean (cw_streams w) /\ forall name src, cw_go2rtc w !! name = Some src -> clean_source src.

Lemma not_bad_not_hash c : negb (bad_char c) = true -> not_hash c = true.
Proof. unfold not_hash. case_bool_decide as H; [subst c; vm_compute; discriminate|done]. Qed.

Lemma space_not_hash c : is_space c = true -> not_hash c = true.
Proof. unfold not_hash. case_bool_decide as H; [subst c; vm_compute; discriminate|done]. Qed.

Lemma hash_free_good s : all_chars (fun c => negb (bad_char c)) s = true -> hash_free s = true.
Proof. apply all_chars_impl, not_bad_not_hash. Qed.

Lemma hash_free_app a b : hash_free (a +:+ b) = hash_free a && hash_free b.
Proof. apply all_chars_app. Qed.

Lemma hash_free_quote s : hash_free (quote s) = true.
Proof.
  induction s as [|c s IH]; [done|]. cbn [quote]. rewrite hash_free_app, IH, andb_true_r.
  destruct c as [[] [] [] [] [] [] [] []]; reflexivity.
Qed.

Lemma hash_free_pretty (z : Z) : hash_free (pretty z) = true.
Proof.
  eapply all_chars_impl; [|apply pretty_Z_chars]. intros c Hc. unfold not_hash. case_bool_decide as H; [subst c; vm_compute in Hc; discriminate Hc|done].
Qed.

Lemma rtsp_url_clean c s : row_clean c -> stream_clean s -> hash_free (rtsp_url decrypt c s) = true.
Proof.
  intros Hc Hs. unfold rtsp_url. destruct (get_credentials decrypt c) as [u p].
  assert (Hcred : hash_free (if truthy_str u then quote (default "" u) +:+ ":" +:+ quote (or_str p "") +:+ "@" else EmptyString) = true)
    by (destruct (truthy_str u); [|done]; by rewrite !hash_free_app, !hash_free_quote).
  by rewrite !hash_free_app, Hcred, Hc, Hs, hash_free_pretty.
Qed.

Lemma input_preset_cases c : input_preset c ∈ [""; "#input=rtsp/tcp"; "#input=rtsp/udp"]%string.
Proof.
  unfold input_preset. case_bool_decide as H; [|by left]. apply elem_of_cons in H as [->|H%list_elem_of_singleton]; [right; by left|rewrite H; do 2 right; by left].
Qed.

Lemma copy_source_clean c s : row_clean c -> stream_clean s -> clean_source (copy_source (rtsp_url decrypt c s) (input_preset c)).
Proof.
  intros Hc Hs. left. pose proof (rtsp_url_clean c s Hc Hs) as Hu. unfold copy_source. pose proof (input_preset_cases c) as Hp. case_bool_decide as He.
  - exists (rtsp_url decrypt c s), "#video=copy#audio=copy"%string. split; [done|]. split; [done|by left].
  - exists ("ffmpeg:" +:+ rtsp_url decrypt c s), (input_preset c +:+ "#video=copy#audio=copy"). split; [by rewrite !string_app_assoc|]. split; [by rewrite hash_free_app, Hu|].
    rewrite !elem_of_cons in Hp. destruct Hp as [Hp|[->|[->|Hp%elem_of_nil]]]; [congruence|..|done]; unfold DIRECTIVES; rewrite !elem_of_cons; naive_solver.
Qed.

Lemma build_source_clean c streams s w : row_clean c -> stream_clean s -> clean_source (build_source decrypt c streams s w).
Proof.
  intros Hc Hs. unfold build_source. destruct (live_transcode_enabled _ _); [|by apply copy_source_clean].
  destruct (live_offload_target _ _) as [[enc raw]|] eqn:Eo.
  - right. unfold live_offload_target in Eo. repeat dmatch_in Eo; try done. destruct (default_live_stream _) as [st|]; [|done]. injection Eo as <- _. by eexists.
  - left. exists ("ffmpeg:" +:+ rtsp_url decrypt c s), (input_preset c +:+ "#video=h264#audio=aac"). split; [by rewrite !string_app_assoc|].
    split; [by rewrite hash_free_app, (rtsp_url_clean c s Hc Hs)|]. pose proof (input_preset_cases c) as Hp.
    rewrite !elem_of_cons in Hp. destruct Hp as [->|[->|[->|Hp%elem_of_nil]]]; [..|done]; unfold DIRECTIVES; rewrite !elem_of_cons; naive_solver.
Qed.

Lemma put_stream_ok name src w : clean_source src -> sources_ok w -> sources_ok (snd (put_stream net_ok name src w)).
Proof.
  intros Hc (H1 & H2 & H3). unfold put_stream. destruct (net_ok _); (split; [done|]; split; [done|]); cbn; [|done].
  intros n x. destruct (decide (name = n)) as [->|Hn]; [rewrite lookup_insert_eq; naive_solver|rewrite lookup_insert_ne by done; apply H3].
Qed.

Lemma delete_stream_ok name w : sources_ok w -> sources_ok (delete_stream net_ok name w).
Proof.
  intros (H1 & H2 & H3). split; [done|]. split; [done|]. intros n x. unfold delete_stream. cbn. destruct (net_ok _); [|apply H3]. intros H%lookup_delete_Some. by apply (H3 n), H.
Qed.

Lemma deletes_ok l w : sources_ok w -> sources_ok (foldl (fun w n => delete_stream net_ok n w) w l).
Proof. revert w. induction l as [|n l IH]; intros w H; [done|]. cbn. apply IH, delete_stream_ok, H. Qed.

Lemma put_one_ok r ns : clean_source (snd ns) -> sources_ok (snd r) -> sources_ok (snd (put_one net_ok r ns)).
Proof. intros Hc H. apply (put_stream_ok (fst ns) (snd ns)) in H; [|done]. unfold put_one. by destruct (put_stream _ _ _ _). Qed.

Lemma sync_ok c streams w : row_clean c -> Forall stream_clean streams -> sources_ok w -> sources_ok (snd (sync_camera decrypt net_ok c streams w)).
Proof.
  intros Hc Hs Hw. unfold sync_camera.
  assert (Hr : forall l r, Forall stream_clean l -> sources_ok (snd r) -> sources_ok (snd (foldl (put_row decrypt net_ok c streams) r l))).
  { induction l as [|s l IH]; intros r Hl H; [done|]. apply Forall_cons in Hl as [H1 Hl]. cbn [foldl]. apply IH; [done|]. unfold put_row.
    destruct (_ || _); [done|]. apply put_one_ok; [by apply build_source_clean|done]. }
  specialize (Hr streams ([], w) Hs Hw). set (r := foldl _ _ _) in *. assert (Hput : Forall (fun ns => clean_source (snd ns)) (fst (offload_companions decrypt c streams (snd r)))).
  { unfold offload_companions. destruct (default_live_row streams) as [s|] eqn:Es; [|constructor]. apply List.find_some in Es as [Hin _].
    apply list_elem_of_In in Hin. rewrite Forall_forall in Hs. destruct (assignment_for _ _); [|destruct (s_flag _); constructor]. cbn.
    apply Forall_singleton. apply copy_source_clean; auto. }
  clearbody r. destruct (offload_companions _ _ _ _) as [puts deletes]. cbn [fst snd] in *. apply deletes_ok.
  revert r Hr. induction puts as [|x puts IH]; intros r Hr; [done|]. apply Forall_cons in Hput as [Hx Hput]. cbn [foldl]. apply IH; [done|]. by apply put_one_ok.
Qed.

Lemma put_cam_ok c w : row_clean c -> sources_ok w -> sources_ok (put_cam c w).
Proof. intros Hc (H1 & H2 & H3). split; [|done]. cbn. apply Forall_fmap. eapply Forall_impl; [exact H1|]. intros x Hx. cbn. by destruct (_ =? _). Qed.

Lemma set_status_ok st e c w : row_clean c -> sources_ok w -> sources_ok (snd (set_status st e c w)).
Proof. intros Hc Hw. unfold set_status. cbn. apply put_cam_ok; [|done]. unfold with_cam_status. case_bool_decide; [done|]. by destruct (truthy_str e). Qed.

Lemma sync_and_set_status_ok c streams b w : row_clean c -> Forall stream_clean streams -> sources_ok w ->
  sources_ok (snd (sync_and_set_status decrypt net_ok c streams b w)).
Proof.
  intros Hc Hs Hw. unfold sync_and_set_status. pose proof (sync_ok c streams w Hc Hs Hw) as H. destruct (sync_camera _ _ _ _ _) as [r w1].
  case_bool_decide; [by apply set_status_ok|]. destruct (negb _); [by apply set_status_ok|]. destruct b; [by apply set_status_ok|done].
Qed.

Lemma delete_for_camera_ok id w : sources_ok w -> sources_ok (delete_for_camera id w).
Proof. intros (H1 & H2 & H3). split; [done|]. split; [|done]. cbn. apply Forall_fmap. eapply Forall_impl; [exact H2|]. intros x Hx. cbn. by destruct (stream_live id x). Qed.

Lemma build_streams_clean c id seen sds rows : build_streams c id seen sds = Some rows -> Forall stream_clean rows.
Proof.
  revert id seen rows. induction sds as [|sd sds IH]; intros id seen rows; cbn; [intros [= <-]; constructor|]. case_bool_decide; [apply IH|].
  destruct (all_chars _ _) eqn:Ep; [|done]. destruct (build_streams _ _ _ sds) as [rs|] eqn:E; [|done]. intros [= <-]. constructor; [by apply hash_free_good|by eapply IH].
Qed.

Lemma replace_streams_ok c sds w : sources_ok w -> sources_ok (snd (replace_streams c sds w)).
Proof.
  intros Hw. apply (delete_for_camera_ok (cr_id c)) in Hw. unfold replace_streams, bind, modify, gets. destruct (build_streams _ _ _ _) as [rows|] eqn:E; [|done].
  apply build_streams_clean in E. destruct Hw as (H1 & H2 & H3). split; [done|]. split; [|done]. cbn. apply Forall_app. split; [done|].
  unfold ensure_live. destruct (existsb _ _); [done|]. destruct rows as [|s rows]; [done|]. apply Forall_cons in E as [Hs E]. by constructor.
Qed.

Lemma streams_of_clean id w : sources_ok w -> Forall stream_clean (streams_of id w).
Proof.
  intros (_ & H & _). unfold streams_of. assert (Hf : Forall stream_clean (List.filter (stream_live id) (cw_streams w)))
    by (rewrite Forall_forall in H |- *; intros x [Hx _]%elem_of_filter_In; auto).
  induction Hf as [|x l Hx Hf IH]; [constructor|]. cbn. revert IH. generalize (foldr insert_role [] l). intros r Hr.
  induction Hr as [|y r Hy Hr IHr]; [by constructor|]. cbn. destruct (String.leb _ _); by repeat constructor.
Qed.

Lemma get_by_uuid_clean uuid w c : sources_ok w -> fst (get_by_uuid uuid w) = inr c -> row_clean c.
Proof.
  intros (H & _) Hg. unfold get_by_uuid in Hg. destruct (List.find _ _) as [c'|] eqn:E; [|done]. injection Hg as ->. apply List.find_some in E as [Hin _].
  rewrite Forall_forall in H. by apply H, list_elem_of_In.
Qed.

Notation create := (create encrypt decrypt net_ok new_uuid).
Notation update := (update encrypt decrypt net_ok).

Lemma create_sources data w : sources_ok w -> sources_ok (snd (create data w)).
Proof.
  intros Hw. unfold Cameras.create. destruct (_ || _); [done|]. unfold reject_injection.
  destruct (all_chars _ (strip (or_str (cd_host data) ""))) eqn:Eh; [|done]. unfold bind, ret, gets, modify. destruct (find_duplicate _ _ _ w); [done|]. cbn beta iota.
  set (c := new_camera encrypt new_uuid data _ _ _ _). assert (Hc : row_clean c) by (by apply hash_free_good).
  match goal with |- context [replace_streams c ?l ?w0] => pose proof (replace_streams_ok c l w0) as H; destruct (replace_streams c l w0) as [[e|[]] w1] end.
  - apply H. destruct Hw as (H1 & H2 & H3). split; [|done]. cbn. apply Forall_app. split; [done|]. by apply Forall_singleton.
  - cbn [snd] in H. assert (Hw1 : sources_ok w1).
    { apply H. destruct Hw as (H1 & H2 & H3). split; [|done]. cbn. apply Forall_app. split; [done|]. by apply Forall_singleton. }
    pose proof (sync_and_set_status_ok c (streams_of (cr_id c) w1) false w1 Hc (streams_of_clean _ _ Hw1) Hw1) as Hs.
    by destruct (sync_and_set_status _ _ _ _ _ w1).
Qed.

Lemma update_sources uuid data w : sources_ok w -> sources_ok (snd (update uuid data w)).
Proof.
  intros Hw. unfold Cameras.update, bind at 1. pose proof (get_by_uuid_clean uuid w) as Hg. unfold get_by_uuid in *.
  destruct (List.find _ _) as [c0|]; [|done]. specialize (Hg c0 Hw eq_refl). unfold bind, gets, modify.
  destruct (checked_host data w) as [r w0] eqn:Eh.
  assert (w0 = w /\ (r = inr tt -> forall h, cd_host data = Some h -> hash_free h = true)) as [-> Hh].
  { unfold checked_host in Eh. destruct (cd_host data) as [h|]; [|by injection Eh as _ ->]. unfold reject_injection in Eh.
    destruct (all_chars _ _) eqn:Ea; injection Eh as <- <-; [|done]. split; [done|]. intros _ ? [= <-].
    apply (all_chars_strip not_hash); [apply space_not_hash|]. by apply hash_free_good. }
  destruct r as [e|[]]; [done|].
  set (c := cr_with _ c0). assert (Hc : row_clean c) by (unfold row_clean, c; cbn; destruct (cd_host data) as [h|]; [by apply Hh|exact Hg]).
  pose proof (put_cam_ok c w Hc Hw) as Hw1. set (w1 := put_cam c w) in *.
  assert (Hr : sources_ok (snd (given_streams c data w1))) by (unfold given_streams; destruct (cd_streams data) as [|sd l]; [done|by apply replace_streams_ok]).
  destruct (given_streams c data w1) as [[e|[]] w2]; [done|]. cbn [snd] in Hr. set (w3 := remove_camera _ _ w2).
  assert (Hw3 : sources_ok w3) by (by apply deletes_ok).
  pose proof (sync_and_set_status_ok c (streams_of (cr_id c0) w) false w3 Hc (streams_of_clean _ _ Hw) Hw3) as H.
  destruct (sync_and_set_status _ _ _ _ _ w3) as [c' w4]. exact H.
Qed.

Lemma delete_cam_ok uuid w : sources_ok w -> sources_ok (snd (delete net_ok uuid w)).
Proof.
  intros Hw. unfold delete, bind. pose proof (get_by_uuid_clean uuid w) as Hg. unfold get_by_uuid in *.
  destruct (List.find _ _) as [c0|]; [|done]. specialize (Hg c0 Hw eq_refl). unfold gets, modify. cbn [snd].
  assert (H : sources_ok (delete_for_camera (cr_id c0) (remove_camera net_ok (streams_of (cr_id c0) w) w))) by (by apply delete_for_camera_ok, deletes_ok).
  destruct (put_cam_ok (cr_soft_delete (cw_now (delete_for_camera (cr_id c0) (remove_camera net_ok (streams_of (cr_id c0) w) w))) c0) _ Hg H) as (? & ? & ?). done.
Qed.

Lemma reprobe_ok uuid p w : sources_ok w -> sources_ok (snd (reprobe decrypt net_ok uuid p w)).
Proof.
  intros Hw. unfold reprobe, bind. pose proof (get_by_uuid_clean uuid w) as Hg. unfold get_by_uuid in *.
  destruct (List.find _ _) as [c0|]; [|done]. specialize (Hg c0 Hw eq_refl). unfold gets, modify. cbn beta iota.
  assert (Hset : forall st e, sources_ok (snd (let '(c, w1) := set_status st e c0 w in (inr (A := exn) c, w1))))
    by (intros st e; pose proof (set_status_ok st e c0 w Hg Hw) as H; by destruct (set_status st e c0 w)).
  destruct p as [|msg|error streams port]; [apply Hset|apply Hset|]. destruct (_ && _); [apply Hset|].
  set (c := cr_with _ c0). assert (Hc : row_clean c) by exact Hg. pose proof (put_cam_ok c w Hc Hw) as Hw1.
  destruct streams as [|sd l]; [pose proof (set_status_ok CAM_ONLINE None c _ Hc Hw1) as H; by destruct (set_status _ _ _ _)|].
  pose proof (replace_streams_ok c (sd :: l) _ Hw1) as Hr. destruct (replace_streams _ _ _) as [[e|[]] w2]; [done|]. cbn [snd] in Hr.
  assert (Hw3 : sources_ok (remove_camera net_ok (streams_of (cr_id c0) w) w2)) by (by apply deletes_ok).
  pose proof (sync_and_set_status_ok c (streams_of (cr_id c0) w) true _ Hc (streams_of_clean _ _ Hw) Hw3) as H.
  destruct (sync_and_set_status _ _ _ _ _ _) as [c' w4]. exact H.
Qed.

Lemma batch_ok items w : sources_ok w -> sources_ok (snd (batch_items encrypt decrypt net_ok new_uuid items w)).
Proof.
  revert w. induction items as [|[d|] items IH]; intros w Hw; [done| |done]. cbn [batch_items]. pose proof (create_sources d w Hw) as H.
  destruct (create d w) as [res w1]. specialize (IH w1 H). by destruct (batch_items _ _ _ _ items w1).
Qed.

Lemma health_ok frames healthz listed w : sources_ok w -> sources_ok (run_health_pass decrypt net_ok frames healthz listed w).
Proof.
  intros Hw. unfold run_health_pass. destruct healthz; [|done]. cbn [negb]. set (names := if listed then _ else _).
  assert (Hf : forall l t w, Forall row_clean l -> sources_ok w -> sources_ok (snd (foldl (health_one decrypt net_ok frames names) (t, w) l))).
  { induction l as [|c l IH]; intros t w0 Hl H0; [done|]. apply Forall_cons in Hl as [Hc Hl]. cbn [foldl].
    assert (H : sources_ok (snd (health_one decrypt net_ok frames names (t, w0) c))); [|destruct (health_one _ _ _ _ _ _); by apply IH].
    unfold health_one. pose proof (streams_of_clean (cr_id c) w0 H0) as Hs. set (all := streams_of (cr_id c) w0) in *.
    assert (H1 : sources_ok (ensure_all_registered decrypt net_ok c all names w0))
      by (unfold ensure_all_registered; destruct names; [|done]; destruct (forallb _ _); [done|]; by apply sync_ok).
    set (w1 := ensure_all_registered _ _ _ _ _ _) in *.
    assert (Hp : Forall stream_clean (probe_streams all)).
    { assert (Hin : forall o, (forall s, o = Some s -> s ∈ all) -> Forall stream_clean (opt_list o)).
      { rewrite Forall_forall in Hs. intros [s|] Ho; [|constructor]. apply Forall_singleton. by apply Hs, Ho. }
      assert (Ho : forall l seen, Forall stream_clean l -> Forall stream_clean (once_by_name seen l)).
      { intros l'. induction l' as [|s l' IH']; intros seen Hl'; [done|]. apply Forall_cons in Hl' as [H' Hl']. cbn. case_bool_decide; [by apply IH'|]. constructor; [done|by apply IH']. }
      apply Ho. apply Forall_app. split; [|apply Forall_app; split]; apply Hin; intros s Hf; [apply List.find_some in Hf as [Hf _]; by apply list_elem_of_In..|].
      destruct all; [done|]. injection Hf as ->. by left. }
    set (w2 := match first_frame frames (probe_streams all) with None => _ | Some _ => w1 end).
    assert (H2 : sources_ok w2).
    { unfold w2. destruct (first_frame _ _); [done|]. destruct (probe_streams all) as [|s r]; [done|]. apply Forall_cons in Hp as [Hp _]. apply put_stream_ok; [|done]. by apply build_source_clean. }
    cbn [snd]. destruct (first_frame _ _); (destruct (_ || _); [apply put_cam_ok; [exact Hc|]|]); exact H2. }
  assert (Hl : Forall row_clean (enabled_cameras w)) by (destruct Hw as (H & _); rewrite Forall_forall in H |- *; intros c [Hc _]%elem_of_filter_In; auto).
  specialize (Hf (enabled_cameras w) [] w Hl Hw). destruct (foldl _ _ _) as [t w1]. cbn [snd] in Hf. revert w1 Hf.
  induction t as [|x t IH]; intros w1 Hf; [done|]. cbn [foldl]. by apply IH.
Qed.

(** *** Histories *)

Inductive CamOp :=
| CCreate (data : CameraData)
| CBatch (flag : bool) (items : list BatchItem)
| CUpdate (uuid : string) (data : CameraData)
| CDelete (uuid : string)
| CReprobe (uuid : string) (p : Probe)
| CHealth (frames : string -> list FrameAnswer) (healthz listed : bool)
| CRestart                                   (* go2rtc forgets its streams *)
| CElse (s : Sched).                         (* nodes, assignments, the clock *)

Definition cam_step (w : CamWorld) (o : CamOp) : CamWorld :=
  match o with
  | CCreate data => snd (create data w)
  | CBatch flag items => snd (batch_create encrypt decrypt net_ok new_uuid flag items w)
  | CUpdate uuid data => snd (update uuid data w)
  | CDelete uuid => snd (delete net_ok uuid w)
  | CReprobe uuid p => snd (reprobe decrypt net_ok uuid p w)
  | CHealth frames healthz listed => run_health_pass decrypt net_ok frames healthz listed w
  | CRestart => set_go2rtc ∅ w
  | CElse s => {| cw_sched := s; cw_rows := cw_rows w; cw_streams := cw_streams w; cw_next := cw_next w; cw_go2rtc := cw_go2rtc w; cw_calls := cw_calls w;
                  cw_last_frames := cw_last_frames w; cw_events := cw_events w |}
  end.

(** C26: No host, path, user name or password becomes a directive of a go2rtc source: in
    every history, whatever is entered and whatever devices answer to a probe, each source
    is a text without [#] followed by one of the six suffixes of the server, or the pull of
    an encoder's rendition, which is named after the stream. *)
Theorem camera_sources_not_injectable w ops name src : cw_rows w = [] -> cw_streams w = [] -> cw_go2rtc w = ∅ ->
  cw_go2rtc (foldl cam_step w ops) !! name = Some src -> clean_source src.
Proof.
  intros H1 H2 H3. assert (Hok : sources_ok (foldl cam_step w ops)); [|destruct Hok as (_ & _ & H); apply H].
  assert (H : sources_ok w) by (unfold sources_ok; rewrite H1, H2, H3; by split_and!). clear H1 H2 H3. revert w H.
  induction ops as [|o ops IH]; intros w H; [done|]. cbn [foldl]. apply IH. destruct o as [d|flag items|uuid d|uuid|uuid p|frames hz ls| |t]; cbn [cam_step].
  - by apply create_sources.
  - unfold batch_create. destruct flag; [|done]. cbn [negb]. case_bool_decide; [done|]. destruct (_ <? _)%nat; [done|].
    pose proof (batch_ok items w H) as Hb. by destruct (batch_items _ _ _ _ items w).
  - by apply update_sources.
  - by apply delete_cam_ok.
  - by apply reprobe_ok.
  - by apply health_ok.
  - destruct H as (? & ? & _). by split_and!.
  - exact H.
Qed.

(** *** The tables *)

Definition roles (l : list StreamRow) : list string := st_role ∘ sr_stream <$> l.
Definition defaults (l : list StreamRow) : list StreamRow := List.filter (fun s => st_is_default_live (sr_stream s)) l.
(** one stream per role, one of them the default of the grid, at most one the full view *)
Definition good_streams (l : list StreamRow) : Prop :=
  NoDup (roles l) /\ (l <> [] -> length (defaults l) = 1%nat) /\ (forall s, s ∈ l -> st_is_default_full (sr_stream s) = bool_decide (st_role (sr_stream s) = "main"%string)).
Definition live_streams (id : Z) (w : CamWorld) : list StreamRow := List.filter (stream_live id) (cw_streams w).
Record tables_ok (w : CamWorld) : Prop := {
  tb_ids : NoDup (cr_id <$> cw_rows w);
  tb_next : forall c, c ∈ cw_rows w -> cr_id c < cw_next w;
  tb_serials : forall c c', c ∈ cw_rows w -> c' ∈ cw_rows w -> cam_live c = true -> cam_live c' = true ->
    truthy_str (cr_serial c) = true -> cr_serial c = cr_serial c' -> c = c';
  tb_streams : forall id, good_streams (live_streams id w)
}.

Lemma tables_same w w' : cw_rows w' = cw_rows w -> cw_streams w' = cw_streams w -> cw_next w' = cw_next w -> tables_ok w -> tables_ok w'.
Proof. intros H1 H2 H3 [A B C D]. split; unfold live_streams in *; rewrite ?H1, ?H2, ?H3 in *; auto. Qed.

Lemma tables_only w w' : only_go2rtc w w' -> tables_ok w -> tables_ok w'.
Proof. intros (g & n & ->). by apply tables_same. Qed.

(** writing a row back *)
Lemma tables_put c c0 w : c0 ∈ cw_rows w -> cr_id c = cr_id c0 -> cr_serial c = cr_serial c0 -> (cam_live c = true -> cam_live c0 = true) ->
  tables_ok w -> tables_ok (put_cam c w).
Proof.
  intros Hin Hid Hser Hlive [A B C D].
  assert (Hrow : forall x, x ∈ cw_rows (put_cam c w) -> exists y, y ∈ cw_rows w /\ cr_id x = cr_id y /\ cr_serial x = cr_serial y /\
            (cam_live x = true -> cam_live y = true) /\ (x = if cr_id y =? cr_id c then c else y)).
  { intros x (y & -> & Hy)%list_elem_of_fmap. destruct (Z.eqb_spec (cr_id y) (cr_id c)) as [He|He]; [exists c0|exists y; split_and!; try done; by destruct (Z.eqb_spec (cr_id y) (cr_id c))].
    split_and!; try done. by rewrite (proj2 (Z.eqb_eq _ _)). }
  split; [|intros x Hx; destruct (Hrow x Hx) as (y & Hy & -> & _); by apply B| |done].
  - replace (cr_id <$> cw_rows (put_cam c w)) with (cr_id <$> cw_rows w); [done|]. cbn. rewrite <- list_fmap_compose. apply list_fmap_ext. intros _ y _. cbn.
    by destruct (Z.eqb_spec (cr_id y) (cr_id c)).
  - intros x x' Hx Hx' Hl Hl' Ht He. destruct (Hrow x Hx) as (y & Hy & _ & Hs & Hv & ->), (Hrow x' Hx') as (y' & Hy' & _ & Hs' & Hv' & ->).
    assert (y = y') as ->; [|done]. apply C; try done; [by apply Hv|by apply Hv'|by rewrite <- Hs|by rewrite <- Hs, <- Hs'].
Qed.

Lemma build_streams_good c id seen sds rows : build_streams c id seen sds = Some rows ->
  NoDup (roles rows) /\ (forall s, s ∈ rows -> st_role (sr_stream s) ∉ seen /\ stream_live (cr_id c) s = true /\
    st_is_default_live (sr_stream s) = bool_decide (st_role (sr_stream s) = "sub"%string) /\
    st_is_default_full (sr_stream s) = bool_decide (st_role (sr_stream s) = "main"%string)).
Proof.
  revert id seen rows. induction sds as [|sd sds IH]; intros id seen rows; cbn; [intros [= <-]; split; [constructor|by intros ? ?%elem_of_nil]|].
  case_bool_decide as Hs; [apply IH|]. destruct (all_chars _ _); [|done]. destruct (build_streams _ _ _ sds) as [rs|] eqn:E; [|done]. intros [= <-].
  destruct (IH _ _ _ E) as [Hn Hall]. split.
  - cbn. constructor; [|done]. unfold roles. rewrite list_elem_of_fmap. intros (s & Hr & Hin). destruct (Hall s Hin) as [Hni _]. apply Hni. cbn in Hr. rewrite <- Hr. by left.
  - intros s [->|Hin]%elem_of_cons; [split; [done|]; unfold stream_live; cbn; by rewrite Z.eqb_refl|]. destruct (Hall s Hin) as (Hni & Hrest). split; [|done]. set_solver.
Qed.

Lemma ensure_live_good c rows : NoDup (roles rows) -> (forall s, s ∈ rows -> stream_live (cr_id c) s = true /\
    st_is_default_live (sr_stream s) = bool_decide (st_role (sr_stream s) = "sub"%string) /\
    st_is_default_full (sr_stream s) = bool_decide (st_role (sr_stream s) = "main"%string)) ->
  good_streams (ensure_live rows) /\ (forall s, s ∈ ensure_live rows -> stream_live (cr_id c) s = true).
Proof.
  intros Hn Hall. assert (Hdef : forall l, NoDup (roles l) -> (forall s, s ∈ l -> st_is_default_live (sr_stream s) = bool_decide (st_role (sr_stream s) = "sub"%string)) ->
    if existsb (fun s => st_is_default_live (sr_stream s)) l then length (defaults l) = 1%nat else defaults l = []).
  { unfold defaults. induction l as [|s l IH]; intros Hnd Hl; [done|]. cbn in Hnd. apply NoDup_cons in Hnd as [Hni Hnd]. specialize (IH Hnd ltac:(intros x Hx; apply Hl; by right)).
    cbn. destruct (st_is_default_live (sr_stream s)) eqn:Es; [|cbn; done]. cbn. f_equal. destruct (existsb _ l) eqn:Ee; [|by rewrite IH].
    exfalso. apply existsb_exists in Ee as (x & Hx%list_elem_of_In & Hd). rewrite (Hl s ltac:(by left)) in Es. rewrite (Hl x ltac:(by right)) in Hd.
    apply bool_decide_eq_true in Es, Hd. apply Hni. rewrite Es, <- Hd. apply list_elem_of_fmap. by exists x. }
  specialize (Hdef rows Hn ltac:(intros s Hs; by apply Hall)). unfold ensure_live. destruct (existsb _ rows).
  - split; [split; [done|]; split; [done|]; intros s Hs; by apply Hall|intros s Hs; by apply Hall].
  - destruct rows as [|s rows]; [split; [split; [constructor|]; split; [done|]; by intros ? ?%elem_of_nil|by intros ? ?%elem_of_nil]|].
    split; [split; [exact Hn|]; split|].
    + intros _. unfold defaults in *. cbn in *. destruct (st_is_default_live (sr_stream s)); [done|]. by rewrite Hdef.
    + intros x [->|Hx]%elem_of_cons; [cbn; apply (Hall s); by left|apply Hall; by right].
    + intros x [->|Hx]%elem_of_cons; [apply (Hall s); by left|apply Hall; by right].
Qed.

Lemma filter_tombstones id cid now l :
  List.filter (stream_live id) ((fun s => if stream_live cid s then sr_tombstone now s else s) <$> l) = if id =? cid then [] else List.filter (stream_live id) l.
Proof.
  assert (Ht : forall s, stream_live id (sr_tombstone now s) = false) by (intros s; unfold stream_live; cbn; apply andb_false_r).
  induction l as [|s l IH]; [by destruct (id =? cid)|]. cbn [fmap list_fmap List.filter]. rewrite IH. destruct (stream_live cid s) eqn:Es.
  - rewrite Ht. destruct (Z.eqb_spec id cid); [done|]. replace (stream_live id s) with false; [done|]. unfold stream_live in *.
    apply andb_prop in Es as [Es%Z.eqb_eq _]. destruct (Z.eqb_spec (sr_camera_id s) id); [congruence|done].
  - destruct (Z.eqb_spec id cid) as [->|]; [by rewrite Es|done].
Qed.

Lemma good_nil : good_streams [].
Proof. split; [constructor|]. split; [done|]. by intros ? ?%elem_of_nil. Qed.

Lemma delete_tables id w : tables_ok w -> tables_ok (delete_for_camera id w).
Proof.
  intros [A B C D]. split; [done|done|done|]. intros k. unfold live_streams. cbn. rewrite filter_tombstones. destruct (k =? id); [apply good_nil|apply D].
Qed.

Lemma replace_tables c sds w : tables_ok w -> tables_ok (snd (replace_streams c sds w)).
Proof.
  intros Hw. pose proof (delete_tables (cr_id c) w Hw) as H1. unfold replace_streams, bind, modify, gets. cbn beta iota.
  destruct (build_streams _ _ _ _) as [rows|] eqn:E; [|done]. apply build_streams_good in E as [Hn Hall].
  destruct (ensure_live_good c rows Hn ltac:(intros s Hs; destruct (Hall s Hs) as (_ & ? & ? & ?); done)) as [Hg Hl]. destruct H1 as [A B C D].
  split; [done|intros x Hx; cbn; specialize (B x Hx); cbn in B; lia|done|]. intros k. unfold live_streams. cbn [snd set_cam_streams cw_streams id]. rewrite List.filter_app.
  specialize (D k). unfold live_streams in D. cbn [delete_for_camera set_cam_streams cw_streams] in *. rewrite filter_tombstones in *. destruct (Z.eqb_spec k (cr_id c)) as [Hk|Hk].
  - rewrite Hk, app_nil_l, filter_true_id; done.
  - replace (List.filter (stream_live k) (ensure_live rows)) with (@nil StreamRow); [by rewrite app_nil_r|]. symmetry. revert Hl. generalize (ensure_live rows). intros l Hl. induction l as [|s l IH]; [done|].
    cbn. rewrite IH by (intros x Hx; apply Hl; by right). specialize (Hl s ltac:(by left)). unfold stream_live in *. apply andb_prop in Hl as [Hl%Z.eqb_eq _].
    destruct (Z.eqb_spec (sr_camera_id s) k); [congruence|done].
Qed.

(** a handler holds the object of a row of the table *)
Definition held (c : CamRow) (w : CamWorld) : Prop :=
  exists c0, c0 ∈ cw_rows w /\ cr_id c = cr_id c0 /\ cr_serial c = cr_serial c0 /\ (cam_live c = true -> cam_live c0 = true).

Lemma held_self c w : c ∈ cw_rows w -> held c w.
Proof. intros H. by exists c. Qed.

Lemma held_put c w : held c w -> held c (put_cam c w).
Proof.
  intros (c0 & Hin & Hid & _). apply held_self. apply list_elem_of_fmap. exists c0. split; [|done]. by rewrite (proj2 (Z.eqb_eq _ _)).
Qed.

Lemma held_status st e c w : held c w -> tables_ok w -> tables_ok (snd (set_status st e c w)).
Proof.
  intros (c0 & Hin & Hid & Hs & Hl) Hw. unfold set_status. cbn [snd]. assert (H : forall c', cr_id c' = cr_id c -> cr_serial c' = cr_serial c ->
    cr_deleted_at c' = cr_deleted_at c -> tables_ok (put_cam c' w)).
  { intros c' H1 H2 H3. apply (tables_put c' c0); [done|congruence|congruence| |done]. intros Hc'. apply Hl. unfold cam_live in *. by rewrite <- H3. }
  unfold with_cam_status. case_bool_decide; [by apply H|]. destruct (truthy_str e); by apply H.
Qed.

Lemma held_sync c streams b w : held c w -> tables_ok w -> tables_ok (snd (sync_and_set_status decrypt net_ok c streams b w)).
Proof.
  intros Hh Hw. unfold sync_and_set_status. pose proof (sync_only decrypt net_ok c streams w) as Ho. destruct (sync_camera _ _ _ _ _) as [r w1]. cbn [snd] in Ho.
  assert (Hh1 : held c w1) by (by destruct Ho as (g & n & ->)). pose proof (tables_only w w1 Ho Hw) as Hw1.
  case_bool_decide; [by apply held_status|]. destruct (negb _); [by apply held_status|]. destruct b; [by apply held_status|done].
Qed.

Lemma replace_rows c sds w : cw_rows (snd (replace_streams c sds w)) = cw_rows w.
Proof. unfold replace_streams, bind, modify, gets. by destruct (build_streams _ _ _ _). Qed.

Lemma remove_only streams w : only_go2rtc w (remove_camera net_ok streams w).
Proof. apply (foldl_only only_go2rtc); [apply only_go2rtc_refl|apply only_go2rtc_trans|intros; apply delete_only]. Qed.

(** the second half of an edit: streams, go2rtc, status *)
Lemma finish_tables c old b (m : CM unit) w : (forall w, cw_rows (snd (m w)) = cw_rows w) -> (forall w, tables_ok w -> tables_ok (snd (m w))) ->
  held c w -> tables_ok w ->
  forall r w1, m (put_cam c w) = (r, w1) -> tables_ok w1 /\ tables_ok (snd (sync_and_set_status decrypt net_ok c old b (remove_camera net_ok old w1))).
Proof.
  intros Hrows Hm Hh Hw r w1 E. assert (H1 : tables_ok (put_cam c w)) by (destruct Hh as (c0 & ? & ? & ? & ?); by apply (tables_put c c0)).
  pose proof (Hm _ H1) as H2. pose proof (Hrows (put_cam c w)) as Hr. rewrite E in H2, Hr. cbn [snd] in *. split; [done|].
  apply held_sync; [|by eapply tables_only, H2; apply remove_only]. destruct (remove_only old w1) as (g & n & ->). unfold held. cbn [cw_rows]. rewrite Hr. by apply held_put.
Qed.

Lemma get_by_uuid_held uuid w c : fst (get_by_uuid uuid w) = inr c -> c ∈ cw_rows w /\ cam_live c = true.
Proof.
  unfold get_by_uuid. destruct (List.find _ _) as [c'|] eqn:E; [|done]. intros [= ->]. apply List.find_some in E as [Hin [_ Hl]%andb_prop].
  by rewrite list_elem_of_In.
Qed.

(** a serial number that found no duplicate is new *)
Lemma no_duplicate_serial serial host channel w c : find_duplicate serial host channel w = None -> truthy_str serial = true ->
  c ∈ cw_rows w -> cam_live c = true -> cr_serial c <> serial.
Proof.
  unfold find_duplicate. intros H Ht Hc Hl He. rewrite Ht in H. destruct (List.find _ (List.filter cam_live (cw_rows w))) eqn:E; [done|].
  eapply List.find_none in E; [|apply list_elem_of_In, elem_of_filter_In; by split]. cbn in E. by rewrite bool_decide_eq_false in E.
Qed.

Lemma create_tables data w : tables_ok w -> tables_ok (snd (create data w)).
Proof.
  intros Hw. unfold Cameras.create. destruct (_ || _); [done|]. unfold reject_injection. destruct (all_chars _ _); [|done]. unfold bind, ret, gets, modify.
  destruct (find_duplicate _ _ _ w) eqn:Ed; [done|]. cbn beta iota. set (c := new_camera encrypt new_uuid data _ _ _ _).
  match goal with |- context [replace_streams c ?l ?w0] => set (w1 := w0); set (sds := l) end.
  assert (H1 : tables_ok w1).
  { destruct Hw as [A B C D]. split.
    - cbn. rewrite fmap_app. apply NoDup_app. split; [done|]. split; [|apply NoDup_singleton]. intros x (y & -> & Hy)%list_elem_of_fmap Hx%list_elem_of_singleton.
      specialize (B y Hy). cbn in Hx. lia.
    - intros x [Hx|Hx%list_elem_of_singleton]%elem_of_app; cbn; [specialize (B x Hx); lia|subst x; cbn; lia].
    - intros x x' [Hx|Hx%list_elem_of_singleton]%elem_of_app [Hx'|Hx'%list_elem_of_singleton]%elem_of_app Hl Hl' Ht He; [by apply C| | |congruence].
      + subst x'. exfalso. apply (no_duplicate_serial _ _ _ w x Ed); [by rewrite He in Ht|done..].
      + subst x. exfalso. apply (no_duplicate_serial _ _ _ w x' Ed); done.
    - exact D. }
  pose proof (replace_tables c sds w1 H1) as H2. pose proof (replace_rows c sds w1) as Hr. destruct (replace_streams c sds w1) as [[e|[]] w2]; [done|]. cbn [snd] in *.
  pose proof (held_sync c (streams_of (cr_id c) w2) false w2) as H. destruct (sync_and_set_status _ _ _ _ _ w2). apply H; [|done].
  apply held_self. rewrite Hr. apply elem_of_app. right. by left.
Qed.

Lemma given_rows c data w : cw_rows (snd (given_streams c data w)) = cw_rows w.
Proof. unfold given_streams. destruct (cd_streams data); [done|apply replace_rows]. Qed.

Lemma given_tables c data w : tables_ok w -> tables_ok (snd (given_streams c data w)).
Proof. unfold given_streams. destruct (cd_streams data); [done|apply replace_tables]. Qed.

Lemma update_tables uuid data w : tables_ok w -> tables_ok (snd (update uuid data w)).
Proof.
  intros Hw. unfold Cameras.update, bind at 1. pose proof (get_by_uuid_held uuid w) as Hg. unfold get_by_uuid in *.
  destruct (List.find _ _) as [c0|]; [|done]. destruct (Hg c0 eq_refl) as [Hin Hl]. unfold bind, gets, modify.
  assert (Hch : snd (checked_host data w) = w) by (unfold checked_host; destruct (cd_host data); [unfold reject_injection; by destruct (all_chars _ _)|done]).
  destruct (checked_host data w) as [[e|[]] w0]; cbn [snd] in Hch; subst w0; [done|]. set (c := cr_with _ c0).
  destruct (given_streams c data (put_cam c w)) as [r w1] eqn:Eg.
  assert (Hheld : held c w) by (exists c0; by split_and!).
  destruct (finish_tables c (streams_of (cr_id c0) w) false (given_streams c data) w (given_rows c data) (given_tables c data) Hheld Hw r w1 Eg) as [Ha Hb].
  destruct r as [e|[]]; [done|]. destruct (sync_and_set_status _ _ _ _ _ _) as [c' w4]. eapply tables_same, Hb; done.
Qed.

Lemma reprobe_tables uuid p w : tables_ok w -> tables_ok (snd (reprobe decrypt net_ok uuid p w)).
Proof.
  intros Hw. unfold reprobe, bind. pose proof (get_by_uuid_held uuid w) as Hg. unfold get_by_uuid in *.
  destruct (List.find _ _) as [c0|]; [|done]. destruct (Hg c0 eq_refl) as [Hin Hl]. unfold gets, modify. cbn beta iota.
  assert (Hset : forall st e c w0, held c w0 -> tables_ok w0 -> tables_ok (snd (let '(c, w1) := set_status st e c w0 in (inr (A := exn) c, w1))))
    by (intros st e c w0 Hh H0; pose proof (held_status st e c w0 Hh H0) as H; by destruct (set_status st e c w0)).
  destruct p as [|msg|error streams port]; [apply Hset; [by apply held_self|done]..|]. destruct (_ && _); [apply Hset; [by apply held_self|done]|].
  set (c := cr_with _ c0). assert (Hheld : held c w) by (exists c0; by split_and!).
  destruct streams as [|sd l]; [apply Hset; [by apply held_put|destruct Hheld as (y & ? & ? & ? & ?); by apply (tables_put c y)]|].
  destruct (replace_streams c (sd :: l) (put_cam c w)) as [r w1] eqn:Eg.
  destruct (finish_tables c (streams_of (cr_id c0) w) true (replace_streams c (sd :: l)) w (replace_rows c _) (replace_tables c _) Hheld Hw r w1 Eg) as [Ha Hb].
  destruct r as [e|[]]; [done|]. destruct (sync_and_set_status _ _ _ _ _ _) as [c' w4]. exact Hb.
Qed.

Lemma delete_cam_tables uuid w : tables_ok w -> tables_ok (snd (delete net_ok uuid w)).
Proof.
  intros Hw. unfold delete, bind. pose proof (get_by_uuid_held uuid w) as Hg. unfold get_by_uuid in *.
  destruct (List.find _ _) as [c0|]; [|done]. destruct (Hg c0 eq_refl) as [Hin Hl]. unfold gets, modify. cbn [snd].
  pose proof (delete_tables (cr_id c0) _ (tables_only _ _ (remove_only (streams_of (cr_id c0) w) w) Hw)) as H.
  destruct (remove_only (streams_of (cr_id c0) w) w) as (g & n & Hrm). set (w2 := delete_for_camera _ _) in *.
  apply (tables_same (put_cam (cr_soft_delete (cw_now w2) c0) w2)); [done..|]. apply (tables_put (cr_soft_delete (cw_now w2) c0) c0); [|done|done|done|exact H]. unfold w2. by rewrite Hrm.
Qed.

Lemma health_next frames healthz listed w : cw_next (run_health_pass decrypt net_ok frames healthz listed w) = cw_next w.
Proof.
  unfold run_health_pass. destruct healthz; [|done]. cbn [negb]. set (names := if listed then _ else _).
  assert (H : forall st c, cw_next (snd (health_one decrypt net_ok frames names st c)) = cw_next (snd st)).
  { intros [t w0] c. unfold health_one. cbn [snd]. destruct (ensure_only decrypt net_ok c (streams_of (cr_id c) w0) names w0) as (g & n & ->).
    set (w1 := {| cw_go2rtc := g |}). set (w2 := match first_frame _ _ with None => _ | Some _ => w1 end).
    assert (H2 : cw_next w2 = cw_next w0).
    { unfold w2. destruct (first_frame _ _); [done|]. destruct (probe_streams _) as [|s r]; [done|].
      destruct (put_only net_ok (st_go2rtc_name (sr_stream s)) (build_source decrypt c (streams_of (cr_id c) w0) s w1) w1) as (g' & n' & ->). done. }
    destruct (first_frame _ _); destruct (_ || _); exact H2. }
  pose proof (foldl_only (fun x y => cw_next (snd y) = cw_next (snd x)) (health_one decrypt net_ok frames names) (enabled_cameras w) ([], w)
    (fun _ => eq_refl) (fun _ _ _ A B => eq_trans B A) H) as Hf. destruct (foldl _ _ _) as [t w1]. cbn [snd] in Hf.
  rewrite <- Hf. revert w1 Hf. induction t as [|x t IH]; intros w1 Hf; [done|]. cbn [foldl]. by rewrite IH.
Qed.

Lemma health_tables frames healthz listed w : tables_ok w -> tables_ok (run_health_pass decrypt net_ok frames healthz listed w).
Proof.
  intros [A B C D]. destruct healthz; [|done]. destruct (health_pass_tables decrypt net_ok frames listed w A) as [Hr Hs]. pose proof (health_next frames true listed w) as Hn.
  assert (Hf : forall c x, x = (if cam_live c && cs_is_enabled (cr_set c) then health_row frames w c else c) -> cr_id x = cr_id c /\ cr_serial x = cr_serial c /\ cam_live x = cam_live c).
  { intros c x ->. destruct (_ && _); [|done]. unfold health_row. by destruct (online frames w c). }
  split; rewrite ?Hr, ?Hn.
  - rewrite <- list_fmap_compose. erewrite list_fmap_ext; [exact A|]. intros _ c _. by destruct (Hf c _ eq_refl).
  - intros x (c & Hx & Hc)%list_elem_of_fmap. destruct (Hf c x Hx) as [-> _]. by apply B.
  - intros x x' (c & Hx & Hc)%list_elem_of_fmap (c' & Hx' & Hc')%list_elem_of_fmap Hl Hl' Ht He. destruct (Hf c x Hx) as (_ & H1 & H2), (Hf c' x' Hx') as (_ & H1' & H2').
    assert (c = c') as ->; [|congruence]. apply C; congruence.
  - intros id. unfold live_streams. rewrite Hs. apply D.
Qed.

Lemma batch_tables items w : tables_ok w -> tables_ok (snd (batch_items encrypt decrypt net_ok new_uuid items w)).
Proof.
  revert w. induction items as [|[d|] items IH]; intros w Hw; [done| |done]. cbn [batch_items]. pose proof (create_tables d w Hw) as H.
  destruct (create d w) as [res w1]. specialize (IH w1 H). by destruct (batch_items _ _ _ _ items w1).
Qed.

(** In every history of requests, probes and health passes no two cameras in use have
    one serial number, and the streams of every camera have distinct roles, exactly one of
    them the default of the live grid and the one of role main, if any, that of the full
    view. *)
Theorem camera_tables_well_formed w ops : tables_ok w -> tables_ok (foldl cam_step w ops).
Proof.
  revert w. induction ops as [|o ops IH]; intros w H; [done|]. cbn [foldl]. apply IH. destruct o as [d|flag items|uuid d|uuid|uuid p|frames hz ls| |t]; cbn [cam_step].
  - by apply create_tables.
  - unfold batch_create. destruct flag; [|done]. cbn [negb]. case_bool_decide; [done|]. destruct (_ <? _)%nat; [done|].
    pose proof (batch_tables items w H) as Hb. by destruct (batch_items _ _ _ _ items w).
  - by apply update_tables.
  - by apply delete_cam_tables.
  - by apply reprobe_tables.
  - by apply health_tables.
  - by apply (tables_same w).
  - by apply (tables_same w).
Qed.
End Injection.

(** ** Witnesses *)

Definition no_cameras : CamWorld :=
  {| cw_sched := demo_sched; cw_rows := []; cw_streams := []; cw_next := 1; cw_go2rtc := ∅; cw_calls := 0; cw_last_frames := ∅; cw_events := [] |}.
Definition demo_stream (role path : string) : StreamData := {| sd_role := Some role; sd_codec := Some "h264"%string; sd_rtsp_path := Some path |}.
Definition demo_camera (host : string) (streams : list StreamData) : CameraData :=
  {| cd_name := Some "Gate"%string; cd_host := Some host; cd_serial := None; cd_channel := None; cd_vendor := None; cd_driver := None; cd_rtsp_port := None;
     cd_rtsp_transport := None; cd_username := Some "ad#min"%string; cd_password := Some "p"%string; cd_streams := streams; cd_capability_streams := [];
     cd_is_enabled := None; cd_live_transcode := None; cd_dual_recording := None; cd_dual_record_stream := None |}.
(** an edit that changes the host or the streams only *)
Definition demo_edit (host : option string) (streams : list StreamData) : CameraData :=
  {| cd_name := None; cd_host := host; cd_serial := None; cd_channel := None; cd_vendor := None; cd_driver := None; cd_rtsp_port := None;
     cd_rtsp_transport := None; cd_username := None; cd_password := None; cd_streams := streams; cd_capability_streams := [];
     cd_is_enabled := None; cd_live_transcode := None; cd_dual_recording := None; cd_dual_record_stream := None |}.
Definition demo_uuid_of (n : Z) : string := pretty n.
Definition demo_step : CamWorld -> CamOp -> CamWorld := cam_step id Some (fun _ => true) demo_uuid_of.
Definition two_streams : list StreamData := [demo_stream "main" "/101"; demo_stream "sub" "/102"].
Definition demo_cams : CamWorld := foldl demo_step no_cameras [CCreate (demo_camera "10.0.0.1" two_streams); CCreate (demo_camera "10.0.0.2" [])].
Definition demo_frames (n : string) : list FrameAnswer :=
  if bool_decide (n = "cam_1_sub"%string) then [Http 200 {| fr_bytes := 600; fr_soi := true; fr_id := 1 |}; Http 200 {| fr_bytes := 9000; fr_soi := true; fr_id := 2 |}]
  else [Unreachable].

Lemma health_pass_reports_witness :
  NoDup (cr_id <$> cw_rows demo_cams) /\
  cw_events (run_health_pass Some (fun _ => true) demo_frames true true demo_cams) = [("camera_online", 1); ("camera_offline", 4)]%string.
Proof.
  assert (H : NoDup (cr_id <$> cw_rows demo_cams)) by decide_it.
  split; [exact H|]. destruct (health_pass_reports Some (fun _ => true) demo_frames true true demo_cams H) as (_ & _ & ->). vm_compute. reflexivity.
Defined.

Lemma demo_plain : plain_names demo_cams.
Proof.
  assert (Hrows : forall c, c ∈ cw_rows demo_cams -> (cr_uuid c = "1" /\ cr_id c = 1 \/ cr_uuid c = "4" /\ cr_id c = 4)%string).
  { apply Forall_forall. vm_compute. repeat (constructor; [tauto|]). constructor. }
  split; [decide_it|decide_it|intros c Hc; destruct (Hrows c Hc) as [[-> _]|[-> _]]; reflexivity|].
  intros c s Hc Hs. assert (H : Forall (fun s => st_go2rtc_name (sr_stream s) = go2rtc_name_for (cr_uuid c) (st_role (sr_stream s)) /\
    st_role (sr_stream s) ∈ ["main"; "sub"; "third"]%string) (streams_of (cr_id c) demo_cams)); [|exact (proj1 (Forall_forall _ _) H s Hs)].
  destruct (Hrows c Hc) as [[-> ->]|[-> ->]]; decide_it.
Qed.

Lemma plain_restarted g w : plain_names w -> plain_names (set_go2rtc g w).
Proof. intros [A B C D]. by split. Qed.

Definition demo_gate : CamRow := new_camera id demo_uuid_of (demo_camera "10.0.0.1" two_streams) "Gate" "10.0.0.1" 1 no_cameras.

Lemma go2rtc_restart_recovered_witness :
  let w := set_go2rtc ∅ demo_cams in
  is_Some (cw_go2rtc (run_health_pass Some (fun _ => true) demo_frames true true w) !! "cam_1_main"%string).
Proof.
  apply (go2rtc_restart_recovered Some (fun _ => true) demo_frames (fun _ => eq_refl) (set_go2rtc ∅ demo_cams) demo_gate "cam_1_main");
    [apply plain_restarted, demo_plain| |decide_it]. apply list_elem_of_lookup_2 with 0%nat. vm_compute. reflexivity.
Defined.

Lemma camera_sources_not_injectable_witness :
  exists src, cw_go2rtc demo_cams !! "cam_1_sub"%string = Some src /\ src = "rtsp://ad%23min:p@10.0.0.1:554/102#video=copy#audio=copy"%string /\ clean_source src.
Proof.
  eexists. split; [vm_compute; reflexivity|]. split; [reflexivity|].
  apply (camera_sources_not_injectable id Some (fun _ => true) demo_uuid_of no_cameras
    [CCreate (demo_camera "10.0.0.1" two_streams); CCreate (demo_camera "10.0.0.2" [])] "cam_1_sub"); [reflexivity..|vm_compute; reflexivity].
Defined.

Lemma no_cameras_ok : tables_ok no_cameras.
Proof. split; [constructor|by intros ? ?%elem_of_nil|by intros ? ? ?%elem_of_nil|intros i; apply good_nil]. Qed.

Lemma camera_tables_well_formed_witness : tables_ok no_cameras /\ good_streams (live_streams 1 demo_cams) /\ length (live_streams 1 demo_cams) = 2%nat.
Proof.
  split; [exact no_cameras_ok|]. split; [|vm_compute; reflexivity].
  apply (tb_streams _ (camera_tables_well_formed id Some (fun _ => true) demo_uuid_of no_cameras
    [CCreate (demo_camera "10.0.0.1" two_streams); CCreate (demo_camera "10.0.0.2" [])] no_cameras_ok)).
Defined.

(** ** What goes wrong *)

Definition source_of (name : string) (w : CamWorld) : option string := cw_go2rtc w !! name.

(** An edit and a reprobe go on with the streams loaded before they were replaced: the
    table has the new path, go2rtc is told the old one. *)
Example edit_syncs_the_old_streams :
  let w := demo_step demo_cams (CUpdate "1" (demo_edit None [demo_stream "main" "/201"])) in
  sr_rtsp_path <$> streams_of 1 w = [Some "/201"%string] /\
  source_of "cam_1_main" w = Some "rtsp://ad%23min:p@10.0.0.1:554/101#video=copy#audio=copy"%string.
Proof. split; vm_compute; reflexivity. Qed.

(** A camera that had no streams is found online with its streams, and shown as unknown. *)
Example reprobe_finds_streams_unknown :
  let w := demo_step demo_cams (CReprobe "4" (Found None [demo_stream "main" "/1"] None)) in
  cr_status <$> cw_rows w = [CAM_UNKNOWN; CAM_UNKNOWN] /\ length (streams_of 4 w) = 1%nat /\ source_of "cam_4_main" w = None.
Proof. split_and!; vm_compute; reflexivity. Qed.

(** The streams are deleted, and the deletion committed, before the paths of the new ones
    are checked: a refused edit leaves the camera without streams ... *)
Example refused_edit_removes_streams :
  let r := update id Some (fun _ => true) "1" (demo_edit None [demo_stream "main" "/1#exec:x"]) demo_cams in
  fst r = inl (InvalidParameterException "rtsp_path contains invalid characters") /\ streams_of 1 (snd r) = [].
Proof. split; vm_compute; reflexivity. Qed.

(** ... and a refused registration leaves the camera, so that a second one conflicts. *)
Example refused_camera_is_registered :
  let bad := create id Some (fun _ => true) demo_uuid_of (demo_camera "10.0.0.3" [demo_stream "main" "/1#x"]) demo_cams in
  fst bad = inl (InvalidParameterException "rtsp_path contains invalid characters") /\
  fst (create id Some (fun _ => true) demo_uuid_of (demo_camera "10.0.0.3" two_streams) (snd bad)) =
    inl (ConflictException "camera already registered (serial or host+channel)").
Proof. split; vm_compute; reflexivity. Qed.

(** The host of an edit is checked without its ends and stored with them. *)
Example host_keeps_line_break :
  let nl := String (Ascii.ascii_of_nat 10) EmptyString in
  (fun c => cs_host (cr_set c)) <$> cw_rows (demo_step demo_cams (CUpdate "1" (demo_edit (Some ("10.0.0.9" +:+ nl)) []))) =
    ["10.0.0.9" +:+ nl; "10.0.0.2"%string].
Proof. vm_compute. reflexivity. Qed.

(** Only registration looks for duplicates. *)
Example edit_makes_a_duplicate :
  (fun c => cs_host (cr_set c)) <$> cw_rows (demo_step demo_cams (CUpdate "4" (demo_edit (Some "10.0.0.1"%string) []))) = ["10.0.0.1"; "10.0.0.1"]%string.
Proof. vm_compute. reflexivity. Qed.

(** An item that is no object ends the batch after the cameras before it were created. *)
Example malformed_item_ends_the_batch :
  let r := batch_create id Some (fun _ => true) demo_uuid_of true [Merged (demo_camera "10.0.0.5" []); Malformed; Merged (demo_camera "10.0.0.6" [])] no_cameras in
  fst r = inr None /\ length (cw_rows (snd r)) = 1%nat.
Proof. split; vm_compute; reflexivity. Qed.

(** The role of a stream is not checked: while an encoder node serves the camera it is part
    of a source.  (Camera 11 is assigned to an online node.) *)
Example role_reaches_the_source :
  let w := {| cw_sched := demo_sched; cw_rows := []; cw_streams := []; cw_next := 11; cw_go2rtc := ∅; cw_calls := 0; cw_last_frames := ∅; cw_events := [] |} in
  let hevc := {| sd_role := Some "a#video=x"%string; sd_codec := Some "h265"%string; sd_rtsp_path := Some "/1"%string |} in
  source_of "cam_11_a#video=x" (demo_step w (CCreate (demo_camera "10.0.0.1" [hevc]))) = Some "rtsp://127.0.0.1:8554/cam_11_a#video=x_enc"%string.
Proof. vm_compute. reflexivity. Qed.
