(* ===== verification/Tickets.v ===== *)
(** * Signed tickets

    src/server/service/live_ticket.py (the nginx and go2rtc WebSocket), update_ticket.py
    (polls during a self-update) and the launcher's copy of its check with the gate of the
    control API, windows/launcher/axp_launcher/control.py.

    [hmac_b64 key message] is the text of HMAC-SHA256 under sha256 of [key], base64url
    without padding. *)

From S2P Require Import Prelude PyStr Redis Token.
From stdpp Require Import pretty.
Local Open Scope Z_scope.

(** what both services read of config.py *)
Record TicketConfig := { SECRET_KEY : option string; JWT_SECRET : option string; UPDATE_TICKET_TTL_S : Z }.

Definition DEFAULT_TTL : Z := 30.
Definition MIN_TTL : Z := 5.

Definition newline : Ascii.ascii := Ascii.ascii_of_nat 10.
Definition dot : Ascii.ascii := Ascii.ascii_of_nat 46.
(** ['%s\n%d'] *)
Definition ticket_message (subject : string) (exp : Z) : string := subject +:+ String newline (pretty exp).

(** [config.SECRET_KEY or config.JWT_SECRET or 'dev-insecure'] *)
Definition secret_base (c : TicketConfig) : string := or_str (SECRET_KEY c) (or_str (JWT_SECRET c) "dev-insecure").

(** [hmac.compare_digest] on text: [None] is its TypeError on text that is not ASCII *)
Definition is_ascii (c : Ascii.ascii) : bool := (Ascii.nat_of_ascii c <? 128)%nat.
Definition compare_digest (a b : string) : option bool := if all_chars is_ascii a && all_chars is_ascii b then Some (bool_decide (a = b)) else None.

Section Mac.
Context (hmac_b64 : string -> string -> string).

(** ** live_ticket.py *)

Definition live_sign (c : TicketConfig) (name : string) (exp : Z) : string := hmac_b64 (secret_base c +:+ ":live-ws") (ticket_message name exp).
Definition live_issue (c : TicketConfig) (name : string) (ttl now : Z) : string * Z :=
  let ttl := Z.max MIN_TTL ttl in
  let exp := epoch now + ttl in
  (pretty exp +:+ String dot (live_sign c name exp), ttl).

(** the part all checks share: [None] raised *)
Definition check_signed (sign : Z -> string) (ticket : string) (now : Z) : option bool :=
  match split_once dot ticket with
  | None => Some false
  | Some (exp_s, sig) =>
      match py_int exp_s with
      | None => Some false
      | Some exp => if exp <? epoch now then Some false else compare_digest sig (sign exp)
      end
  end.
Definition live_verify (c : TicketConfig) (name ticket : string) (now : Z) : option bool :=
  if bool_decide (name = EmptyString) then Some false else check_signed (live_sign c name) ticket now.

(** ** update_ticket.py *)

Definition SUBJECT : string := "update".
Definition update_sign (c : TicketConfig) (exp : Z) : string := hmac_b64 (secret_base c +:+ ":sys-update") (ticket_message SUBJECT exp).
Definition update_issue (c : TicketConfig) (ttl : option Z) (now : Z) : string * Z :=
  let ttl := or_Z ttl (UPDATE_TICKET_TTL_S c) in
  let exp := epoch now + ttl in
  (pretty exp +:+ String dot (update_sign c exp), ttl).
Definition update_verify (c : TicketConfig) (ticket : string) (now : Z) : option bool := check_signed (update_sign c) ticket now.

(** ** control.py *)

(** [cfg]: the launcher's axp.env, [cfg.get(key, '')] *)
Record LauncherConfig := { lc_secret_key : string; lc_token : string }.
Definition launcher_verify (secret_key ticket : string) (now : Z) : option bool :=
  check_signed (fun exp => hmac_b64 (secret_key +:+ ":sys-update") (ticket_message "update" exp)) ticket now.

Definition bearer_ok (lc : LauncherConfig) (authorization : string) : option bool :=
  if bool_decide (lc_token lc = EmptyString) then Some false else compare_digest authorization ("Bearer " +:+ lc_token lc).

(** what the control API answers: who may poll, who may command; [ticket] is the query's, empty when there is none *)
Inductive ControlAnswer := Forbidden403 | Served (what : string) | Crashed.
Definition control_get (lc : LauncherConfig) (path authorization ticket : string) (now : Z) : ControlAnswer :=
  match bearer_ok lc authorization with
  | None => Crashed
  | Some true => Served path
  | Some false =>
      if bool_decide (path = "/v1/update/status"%string) then
        match launcher_verify (lc_secret_key lc) ticket now with None => Crashed | Some true => Served path | Some false => Forbidden403 end
      else Forbidden403
  end.
Definition control_post (lc : LauncherConfig) (path authorization : string) : ControlAnswer :=
  match bearer_ok lc authorization with None => Crashed | Some true => Served path | Some false => Forbidden403 end.
End Mac.

(** ** Laws *)

(** the subject and the expiry can be read back from what is signed *)
Lemma no_newline_pretty (z : Z) : all_chars (fun c => negb (bool_decide (c = newline))) (pretty z) = true.
Proof. eapply all_chars_impl; [|apply pretty_Z_chars]. intros c Hc. case_bool_decide; [subst; by vm_compute in Hc|done]. Qed.

Lemma no_dot_pretty (z : Z) : all_chars (fun c => negb (bool_decide (c = dot))) (pretty z) = true.
Proof. eapply all_chars_impl; [|apply pretty_Z_chars]. intros c Hc. case_bool_decide; [subst; by vm_compute in Hc|done]. Qed.

Lemma all_chars_String P c s : all_chars P (String c s) = P c && all_chars P s.
Proof. done. Qed.

Lemma last_line_inj sep a b x y :
  all_chars (fun c => negb (bool_decide (c = sep))) x = true -> all_chars (fun c => negb (bool_decide (c = sep))) y = true ->
  a +:+ String sep x = b +:+ String sep y -> a = b /\ x = y.
Proof.
  intros Hx Hy. revert b. induction a as [|c a IH]; intros [|d b].
  - by intros [= ->].
  - intros [= <- ->]. exfalso. change (all_chars (fun c => negb (bool_decide (c = sep))) (b +:+ String sep y) = true) in Hx.
    rewrite all_chars_app, all_chars_String in Hx. by rewrite bool_decide_true, andb_false_r in Hx.
  - intros [= -> <-]. exfalso. change (all_chars (fun c => negb (bool_decide (c = sep))) (a +:+ String sep x) = true) in Hy.
    rewrite all_chars_app, all_chars_String in Hy. by rewrite bool_decide_true, andb_false_r in Hy.
  - intros [= -> E]. destruct (IH b E) as [-> ->]. done.
Qed.

Lemma ticket_message_inj n1 n2 e1 e2 : ticket_message n1 e1 = ticket_message n2 e2 -> n1 = n2 /\ e1 = e2.
Proof.
  intros H. apply last_line_inj in H as [-> H]; [|apply no_newline_pretty..]. split; [done|]. by apply (inj pretty).
Qed.

Lemma split_ticket (exp : Z) sig : split_once dot (pretty exp +:+ String dot sig) = Some (pretty exp, sig).
Proof. apply split_once_at, no_dot_pretty. Qed.

(** a ticket in the form the services write it *)
Lemma check_written sign (exp : Z) sig now : check_signed sign (pretty exp +:+ String dot sig) now = if exp <? epoch now then Some false else compare_digest sig (sign exp).
Proof. unfold check_signed. by rewrite split_ticket, py_int_pretty. Qed.

(** an accepted ticket carries the tag of what it says, and is in time *)
Lemma check_accepted sign ticket now : check_signed sign ticket now = Some true ->
  exists exp_s exp, split_once dot ticket = Some (exp_s, sign exp) /\ py_int exp_s = Some exp /\ epoch now <= exp.
Proof.
  unfold check_signed. destruct (split_once dot ticket) as [[exp_s sig]|]; [|done]. destruct (py_int exp_s) as [exp|] eqn:E; [|done].
  destruct (Z.ltb_spec exp (epoch now)); [done|]. unfold compare_digest. destruct (_ && _); [|done]. intros [= Hs%bool_decide_eq_true]. subst sig. by exists exp_s, exp.
Qed.

Section Laws.
Context (hmac_b64 : string -> string -> string).
(** base64url is ASCII *)
Hypothesis hmac_ascii : forall k m, all_chars is_ascii (hmac_b64 k m) = true.

Lemma compare_tags k m k' m' : compare_digest (hmac_b64 k m) (hmac_b64 k' m') = Some (bool_decide (hmac_b64 k m = hmac_b64 k' m')).
Proof. unfold compare_digest. by rewrite !hmac_ascii. Qed.

(** C32: A live ticket is good for the stream it was issued for, from then until its lifetime
    (at least five seconds) is over and not after; for another stream, or as an update
    ticket, it is refused at any time unless the two tags happen to be equal.  And whatever
    text is presented for a stream, it is accepted exactly when it carries the tag of that
    very stream and of the expiry it states, and that instant is not over. *)
Theorem live_ticket_round_trip c name ttl now later : name <> EmptyString ->
  let '(ticket, expires_in) := live_issue hmac_b64 c name ttl now in
  live_verify hmac_b64 c name ticket later = Some (bool_decide (epoch later <= epoch now + expires_in)) /\ MIN_TTL <= expires_in /\
  (forall other, other <> name -> let exp := epoch now + expires_in in
     live_sign hmac_b64 c name exp <> live_sign hmac_b64 c other exp -> live_verify hmac_b64 c other ticket later = Some false) /\
  (let exp := epoch now + expires_in in
   live_sign hmac_b64 c name exp <> update_sign hmac_b64 c exp -> update_verify hmac_b64 c ticket later = Some false) /\
  (forall other presented, live_verify hmac_b64 c other presented later = Some true <->
     other <> EmptyString /\ exists exp_s exp, split_once dot presented = Some (exp_s, live_sign hmac_b64 c other exp) /\
       py_int exp_s = Some exp /\ epoch later <= exp).
Proof.
  intros Hn. unfold live_issue. split_and!.
  - unfold live_verify. rewrite bool_decide_eq_false_2, check_written by done. unfold live_sign. rewrite compare_tags.
    rewrite (bool_decide_true (hmac_b64 _ _ = _)) by done. case_bool_decide; destruct (Z.ltb_spec (epoch now + Z.max MIN_TTL ttl) (epoch later)); (done || lia).
  - lia.
  - intros other Ho Hne. unfold live_verify. case_bool_decide; [done|]. rewrite check_written. destruct (_ <? _); [done|].
    unfold live_sign in *. rewrite compare_tags. by rewrite bool_decide_eq_false_2.
  - intros Hne. unfold update_verify. rewrite check_written. destruct (_ <? _); [done|]. unfold live_sign, update_sign in *. rewrite compare_tags.
    by rewrite bool_decide_eq_false_2.
  - intros other presented. unfold live_verify. case_bool_decide as Ho; [split; [done|by intros [? _]]|]. split.
    + intros H%check_accepted. done.
    + intros (_ & exp_s & exp & Hs & He & Hl). unfold check_signed. rewrite Hs, He. destruct (Z.ltb_spec exp (epoch later)); [lia|].
      unfold live_sign. rewrite compare_tags. by rewrite bool_decide_eq_true_2.
Qed.

(** What is signed for a stream is signed for no other stream and no other expiry, and
    the keys of the two services differ whatever the configuration is. *)
Lemma tickets_apart c c' name name' exp exp' :
  (ticket_message name exp = ticket_message name' exp' -> name = name' /\ exp = exp') /\ secret_base c +:+ ":live-ws" <> secret_base c' +:+ ":sys-update".
Proof.
  split; [apply ticket_message_inj|]. intros H. by destruct (last_line_inj (Ascii.ascii_of_nat 58) _ _ "live-ws" "sys-update" eq_refl eq_refl H).
Qed.

(** The launcher checks update tickets as the server does whenever the server signs with
    SECRET_KEY; nothing else opens its control API but its own bearer token, which every
    command needs. *)
Theorem launcher_checks_like_the_server c lc : SECRET_KEY c = Some (lc_secret_key lc) -> lc_secret_key lc <> EmptyString ->
  (forall ticket now, launcher_verify hmac_b64 (lc_secret_key lc) ticket now = update_verify hmac_b64 c ticket now) /\
  (forall path auth ticket now, control_get hmac_b64 lc path auth ticket now = Served path ->
     (auth = "Bearer " +:+ lc_token lc /\ lc_token lc <> EmptyString) \/ (path = "/v1/update/status"%string /\ update_verify hmac_b64 c ticket now = Some true)) /\
  (forall path auth, control_post lc path auth = Served path -> auth = "Bearer " +:+ lc_token lc /\ lc_token lc <> EmptyString).
Proof.
  intros Hk Hne. assert (Hv : forall ticket now, launcher_verify hmac_b64 (lc_secret_key lc) ticket now = update_verify hmac_b64 c ticket now).
  { intros ticket now. unfold launcher_verify, update_verify, update_sign, secret_base. rewrite Hk. cbn. by destruct (lc_secret_key lc). }
  assert (Hb : forall auth, bearer_ok lc auth = Some true -> auth = "Bearer " +:+ lc_token lc /\ lc_token lc <> EmptyString).
  { intros auth. unfold bearer_ok, compare_digest. case_bool_decide; [done|]. destruct (_ && _); [|done]. by intros [= ?%bool_decide_eq_true]. }
  split; [exact Hv|]. split.
  - intros path auth ticket now. unfold control_get. destruct (bearer_ok lc auth) as [[]|] eqn:E; [left; by apply Hb| |done].
    case_bool_decide; [|done]. rewrite Hv. destruct (update_verify _ _ _ _) as [[]|]; [by right|done..].
  - intros path auth. unfold control_post. destruct (bearer_ok lc auth) as [[]|] eqn:E; [by intros _; apply Hb|done..].
Qed.
End Laws.

(** ** Examples *)

(** a tag that shows what it was computed from *)
Definition toy_mac (key message : string) : string := key +:+ "|" +:+ message.
Definition toy_tag (k m : string) : string := if all_chars is_ascii (toy_mac k m) then toy_mac k m else "x".
Lemma toy_tag_ascii k m : all_chars is_ascii (toy_tag k m) = true.
Proof. unfold toy_tag. by destruct (all_chars is_ascii (toy_mac k m)) eqn:E. Qed.
Definition demo_config : TicketConfig := {| SECRET_KEY := Some "k"%string; JWT_SECRET := None; UPDATE_TICKET_TTL_S := 900 |}.
Definition demo_launcher : LauncherConfig := {| lc_secret_key := "k"; lc_token := "t" |}.

Lemma live_ticket_round_trip_witness :
  live_verify toy_tag demo_config "cam_1_sub" (fst (live_issue toy_tag demo_config "cam_1_sub" 30 (100 * SEC))) (130 * SEC) = Some true /\
  live_verify toy_tag demo_config "cam_1_sub" (fst (live_issue toy_tag demo_config "cam_1_sub" 30 (100 * SEC))) (131 * SEC) = Some false /\
  (live_verify toy_tag demo_config "cam_1_sub" "200.k:live-ws|cam_1_sub" (100 * SEC) = Some true <->
   "cam_1_sub"%string <> EmptyString /\ exists exp_s exp, split_once dot "200.k:live-ws|cam_1_sub" = Some (exp_s, live_sign toy_tag demo_config "cam_1_sub" exp) /\
     py_int exp_s = Some exp /\ epoch (100 * SEC) <= exp).
Proof.
  pose proof (live_ticket_round_trip toy_tag toy_tag_ascii demo_config "cam_1_sub" 30 (100 * SEC)) as H.
  unfold live_issue in *. split; [|split]; [destruct (H (130 * SEC) ltac:(done)) as [E _]|destruct (H (131 * SEC) ltac:(done)) as [E _]|
    destruct (H (100 * SEC) ltac:(done)) as (_ & _ & _ & _ & E); exact (E _ _)]; (etransitivity; [exact E|by vm_compute]).
Defined.

Lemma launcher_checks_like_the_server_witness :
  launcher_verify toy_tag "k" (fst (update_issue toy_tag demo_config None (100 * SEC))) (1000 * SEC) = Some true /\
  control_post demo_launcher "/v1/shutdown" "Bearer t" = Served "/v1/shutdown".
Proof.
  destruct (launcher_checks_like_the_server toy_tag demo_config demo_launcher eq_refl ltac:(done)) as (H & _). split; [|by vm_compute].
  change "k"%string with (lc_secret_key demo_launcher). rewrite H. by vm_compute.
Defined.

(** The launcher reads SECRET_KEY alone: on a server that has only a JWT secret it refuses
    every ticket the server issues. *)
Example launcher_ignores_the_jwt_secret :
  let c := {| SECRET_KEY := None; JWT_SECRET := Some "j"%string; UPDATE_TICKET_TTL_S := 900 |} in
  let ticket := fst (update_issue toy_tag c None (100 * SEC)) in
  update_verify toy_tag c ticket (101 * SEC) = Some true /\ launcher_verify toy_tag "" ticket (101 * SEC) = Some false.
Proof. split; by vm_compute. Qed.

(** A tag that is not ASCII ends in an exception, not in a refusal. *)
Example foreign_tag_raises :
  live_verify toy_tag demo_config "cam_1_sub" ("200." +:+ String (Ascii.ascii_of_nat 195) (String (Ascii.ascii_of_nat 169) "")) (100 * SEC) = None.
Proof. by vm_compute. Qed.
