(* ===== verification/Live.v ===== *)
(** * Live media

    src/server/view/api/live.py: who may open a live stream (WebRTC, fMP4, the ticket for the
    WebSocket and the proxy's check of it), and what opening one sets off; and what nginx
    (src/frontend/nginx.conf) and Caddy (src/windows/caddy/Caddyfile.tmpl) make of a
    client's request before that check and after it.

    The cameras, their streams, the schedulers and the tokens are the world of Cameras;
    tags of tickets are a parameter (Tickets).  go2rtc's side of a proxied request, and
    the JSON form of an SDP answer, are left out. *)

From S2P Require Import Prelude PyStr Redis Permission Token Sessions Accounts Scheduler Guards Cameras Tickets.
Local Open Scope Z_scope.
Local Open Scope list_scope.

Record LiveWorld := { lv_cams : CamWorld; lv_reconciled : list Z }.
Definition lv_now (w : LiveWorld) : Z := cw_now (lv_cams w).
Definition lv_tok (w : LiveWorld) : World := s_tok (cw_sched (lv_cams w)).

Inductive LiveAnswer :=
| LvRefused (code : Z) (msg : string)
| LvProxied (name : string)                     (* go2rtc's stream of that name *)
| LvTicket (ticket : string) (expires_in : Z).

(** [Stream.get_by_go2rtc_name], [Camera.get_by_id] *)
Definition get_by_go2rtc_name (name : string) (w : CamWorld) : option StreamRow :=
  List.find (fun s => bool_decide (st_go2rtc_name (sr_stream s) = name) && bool_decide (sr_deleted_at s = None)) (cw_streams w).
Definition camera_get_by_id (id : Z) (w : CamWorld) : option CamRow := List.find (fun c => (cr_id c =? id) && cam_live c) (cw_rows w).

(** the token of a header, or else of the query, whatever the method *)
Definition media_token (rq : Request) : option string :=
  match bearer (rq_authorization rq) with
  | Some t => if bool_decide (t = EmptyString) then rq_access_token rq else Some t
  | None => rq_access_token rq
  end.

Section Live.
Context {J : JwtLib} (hmac_b64 : string -> string -> string) (conf : TicketConfig).

(** [_resolve] *)
Definition live_resolve (rq : Request) (name : string) (w : LiveWorld) : LiveAnswer + (User * CamRow) :=
  match media_token rq with
  | None => inl (LvRefused 401 "authentication_required")
  | Some tok =>
      if bool_decide (tok = EmptyString) then inl (LvRefused 401 "authentication_required") else
      match fst (verify_access tok (lv_tok w)) with
      | inl _ => inl (LvRefused 401 "invalid_token")
      | inr (user, _) =>
          match get_by_go2rtc_name name (lv_cams w) with
          | None => inl (LvRefused 404 "stream_not_found")
          | Some s =>
              match camera_get_by_id (sr_camera_id s) (lv_cams w) with
              | None => inl (LvRefused 404 "camera_not_found")
              | Some c =>
                  let subject := Some (subject_of user (lv_tok w)) in
                  if has subject "live" "read" && has_camera_scope subject (cr_uuid c) "view" then inr (user, c)
                  else inl (LvRefused 403 "live_scope_denied")
              end
          end
      end
  end.

(** [_mark_activity] *)
Definition mark_activity (c : CamRow) (name : string) (w : LiveWorld) : LiveWorld :=
  let cw := lv_cams w in
  {| lv_cams := {| cw_sched := kick (cr_id c) (mark name (cw_sched cw)); cw_rows := cw_rows cw; cw_streams := cw_streams cw; cw_next := cw_next cw;
                   cw_go2rtc := cw_go2rtc cw; cw_calls := cw_calls cw; cw_last_frames := cw_last_frames cw; cw_events := cw_events cw |};
     lv_reconciled := lv_reconciled w ++ [cr_id c] |}.

(** [webrtc] and [mp4], up to the request to go2rtc *)
Definition live_open (rq : Request) (name : string) (w : LiveWorld) : LiveAnswer * LiveWorld :=
  match live_resolve rq name w with inl a => (a, w) | inr (_, c) => (LvProxied name, mark_activity c name w) end.
Definition ws_ticket (rq : Request) (name : string) (w : LiveWorld) : LiveAnswer * LiveWorld :=
  match live_resolve rq name w with
  | inl a => (a, w)
  | inr (_, c) =>
      let w' := mark_activity c name w in
      let '(ticket, ttl) := live_issue hmac_b64 conf name DEFAULT_TTL (lv_now w') in (LvTicket ticket ttl, w')
  end.
End Live.

(** ** The proxy's check *)

(** [urlsplit(url).query]; a malformed network location, which raises, is left out *)
Definition url_query (url : string) : string :=
  let url := match split_once (Ascii.ascii_of_nat 35) url with Some (a, _) => a | None => url end in
  match split_once (Ascii.ascii_of_nat 63) url with Some (_, q) => q | None => EmptyString end.

(** [unquote] on bytes, after ['+'] became a space *)
Definition hex_val (c : Ascii.ascii) : option nat :=
  let n := Ascii.nat_of_ascii c in
  (if ((48 <=? n) && (n <=? 57))%nat then Some (n - 48)%nat else if ((65 <=? n) && (n <=? 70))%nat then Some (n - 55)%nat
   else if ((97 <=? n) && (n <=? 102))%nat then Some (n - 87)%nat else None).
Fixpoint unquote (s : string) : string :=
  match s with
  | EmptyString => EmptyString
  | String c r =>
      let plain := String c (unquote r) in
      if bool_decide (c = Ascii.ascii_of_nat 37) then
        match r with
        | String a (String b r') => match hex_val a, hex_val b with Some x, Some y => String (Ascii.ascii_of_nat (16 * x + y)) (unquote r') | _, _ => plain end
        | _ => plain
        end
      else plain
  end.
Fixpoint plus_to_space (s : string) : string :=
  match s with EmptyString => EmptyString | String c r => String (if bool_decide (c = Ascii.ascii_of_nat 43) then Ascii.ascii_of_nat 32 else c) (plus_to_space r) end.
Definition decode_part (s : string) : string := unquote (plus_to_space s).

(** [parse_qs(query).get(key)[0]]: blank values are dropped *)
Fixpoint first_field (key : string) (fields : list string) : option string :=
  match fields with
  | [] => None
  | f :: r =>
      match split_once (Ascii.ascii_of_nat 61) f with
      | Some (n, v) => if negb (bool_decide (v = EmptyString)) && bool_decide (decode_part n = key) then Some (decode_part v) else first_field key r
      | None => first_field key r
      end
  end.
Definition query_first (key query : string) : option string := first_field key (split_on (Ascii.ascii_of_nat 38) query).

Record WsAuth := {
  wa_src : option string; wa_ticket : option string;                 (* args *)
  wa_live_src : option string; wa_live_ticket : option string;       (* X-Live-Src, X-Live-Ticket *)
  wa_original_uri : option string; wa_forwarded_uri : option string  (* X-Original-URI, X-Forwarded-Uri *)
}.
Definition py_or (a b : option string) : option string := if truthy_str a then a else b.

(** the stream and the ticket a subrequest stands for *)
Definition ws_claim (a : WsAuth) : option string * option string :=
  let src := py_or (wa_src a) (wa_live_src a) in
  let ticket := py_or (wa_ticket a) (wa_live_ticket a) in
  if truthy_str src && truthy_str ticket then (src, ticket) else
  let q := url_query (or_str (wa_original_uri a) (default "" (wa_forwarded_uri a))) in
  (py_or src (query_first "src" q), py_or ticket (query_first "ticket" q)).

(** [ws_auth]: [None] raised *)
Definition ws_auth (hmac_b64 : string -> string -> string) (conf : TicketConfig) (a : WsAuth) (w : LiveWorld) : option bool :=
  let '(src, ticket) := ws_claim a in
  if truthy_str src && truthy_str ticket then live_verify hmac_b64 conf (default "" src) (default "" ticket) (lv_now w) else Some false.

(** ** The proxies (frontend/nginx.conf, windows/caddy/Caddyfile.tmpl) *)

(** [request.args.get(key)]: the first value, a blank one too *)
Fixpoint first_arg (key : string) (fields : list string) : option string :=
  match fields with
  | [] => None
  | f :: r =>
      let '(n, v) := match split_once (Ascii.ascii_of_nat 61) f with Some nv => nv | None => (f, EmptyString) end in
      if negb (bool_decide (f = EmptyString)) && bool_decide (decode_part n = key) then Some (decode_part v) else first_arg key r
  end.
Definition args_get (key query : string) : option string := first_arg key (split_on (Ascii.ascii_of_nat 38) query).

(** a request for /live-ws/ as the client sends it: its URI, and the headers it may carry *)
Record WsRequest := {
  wr_uri : string;
  wr_live_src : option string; wr_live_ticket : option string;
  wr_original_uri : option string; wr_forwarded_uri : option string
}.
(** nginx: auth_request drops the query and sets X-Original-URI; other headers pass *)
Definition nginx_subrequest (r : WsRequest) : WsAuth :=
  {| wa_src := None; wa_ticket := None; wa_live_src := wr_live_src r; wa_live_ticket := wr_live_ticket r;
     wa_original_uri := Some (wr_uri r); wa_forwarded_uri := wr_forwarded_uri r |}.
(** Caddy: forward_auth keeps the query and sets X-Forwarded-Uri; other headers pass *)
Definition caddy_subrequest (r : WsRequest) : WsAuth :=
  {| wa_src := args_get "src" (url_query (wr_uri r)); wa_ticket := args_get "ticket" (url_query (wr_uri r));
     wa_live_src := wr_live_src r; wa_live_ticket := wr_live_ticket r;
     wa_original_uri := wr_original_uri r; wa_forwarded_uri := Some (wr_uri r) |}.
Inductive Proxy := Nginx | Caddy.
Definition subrequest (p : Proxy) : WsRequest -> WsAuth := match p with Nginx => nginx_subrequest | Caddy => caddy_subrequest end.

(** what reaches go2rtc's /api/ws: the request, query and all, once ws-auth let it through *)
Definition proxied_ws (hmac_b64 : string -> string -> string) (conf : TicketConfig) (p : Proxy) (r : WsRequest) (w : LiveWorld) : option string :=
  match ws_auth hmac_b64 conf (subrequest p r) w with Some true => Some (url_query (wr_uri r)) | _ => None end.

(** ** The answer's candidates (_inject_host_candidate), on lines *)

Definition WEBRTC_PORT : Z := 8555.
Definition candidate_line (ip : string) (port : Z) (crlf : bool) : string :=
  "a=candidate:1 1 UDP 2130706431 " +:+ ip +:+ " " +:+ pretty.pretty port +:+ " typ host" +:+ (if crlf then String (Ascii.ascii_of_nat 13) "" else "").
Definition inject_lines (cand : string) (lines : list string) : list string :=
  concat ((fun l => if startswith "a=ice-pwd:" l then [l; cand] else [l]) <$> lines).
Fixpoint has_crlf (s : string) : bool :=
  match s with
  | String a ((String b _) as r) => (bool_decide (a = Ascii.ascii_of_nat 13) && bool_decide (b = newline)) || has_crlf r
  | _ => false
  end.
Definition inject_host_candidate (sdp ip : string) (port : Z) : string :=
  String.concat (String newline "") (inject_lines (candidate_line ip port (has_crlf sdp)) (split_on newline sdp)).

(** ** Who sees what *)

Section Access.
Context {J : JwtLib} (hmac_b64 : string -> string -> string) (conf : TicketConfig).
Abbreviation live_open := (live_open (J := J)).
Abbreviation ws_ticket := (ws_ticket (J := J) hmac_b64 conf).
Abbreviation ws_auth := (ws_auth hmac_b64 conf).

(** the request's user may see the camera of the stream called [name] *)
Definition entitled (rq : Request) (name : string) (w : LiveWorld) : Prop :=
  exists tok u claims s c, media_token rq = Some tok /\ signed_in tok u claims (lv_tok w) /\
    s ∈ cw_streams (lv_cams w) /\ st_go2rtc_name (sr_stream s) = name /\ sr_deleted_at s = None /\
    c ∈ cw_rows (lv_cams w) /\ cr_id c = sr_camera_id s /\ cr_deleted_at c = None /\
    has (Some (subject_of u (lv_tok w))) "live" "read" = true /\ has_camera_scope (Some (subject_of u (lv_tok w))) (cr_uuid c) "view" = true.

Lemma resolve_entitled rq name w u c : live_resolve rq name w = inr (u, c) -> entitled rq name w.
Proof.
  unfold live_resolve, entitled. destruct (media_token rq) as [tok|]; [|done]. case_bool_decide; [done|].
  destruct (verify_access tok (lv_tok w)) as [[e|[u0 claims]] w0] eqn:E; [done|]. cbn [fst]. apply verify_access_signed in E as [_ Hs].
  destruct (get_by_go2rtc_name name _) as [s|] eqn:Es; [|done]. destruct (camera_get_by_id _ _) as [c0|] eqn:Ec; [|done].
  unfold get_by_go2rtc_name in Es. apply find_some in Es as [Hin%list_elem_of_In [Hn%bool_decide_eq_true Hd%bool_decide_eq_true]%andb_prop].
  unfold camera_get_by_id in Ec. apply find_some in Ec as [Hc%list_elem_of_In [Hid%Z.eqb_eq Hl%bool_decide_eq_true]%andb_prop].
  destruct (_ && _) eqn:Ep; [|done]. apply andb_prop in Ep as [Hp1 Hp2]. intros [= -> ->]. by exists tok, u, claims, s, c.
Qed.

(** a refusal neither proxies nor hands out a ticket *)
Lemma resolve_refuses rq name w a : live_resolve rq name w = inl a -> exists code msg, a = LvRefused code msg.
Proof.
  unfold live_resolve. destruct (media_token rq) as [tok|]; [|intros [= <-]; eauto]. case_bool_decide; [intros [= <-]; eauto|].
  destruct (fst _) as [|[u cl]]; [intros [= <-]; eauto|]. destruct (get_by_go2rtc_name _ _); [|intros [= <-]; eauto].
  destruct (camera_get_by_id _ _); [|intros [= <-]; eauto]. destruct (_ && _); [done|intros [= <-]; eauto].
Qed.

(** *** A history of requests; anything else, time included, happens in between *)

Inductive LiveOp :=
| LOpen (rq : Request) (name : string)
| LWsTicket (rq : Request) (name : string)
| LElse (w : CamWorld).
Definition live_step (w : LiveWorld) (o : LiveOp) : LiveWorld :=
  match o with
  | LOpen rq name => snd (live_open rq name w)
  | LWsTicket rq name => snd (ws_ticket rq name w)
  | LElse cw => {| lv_cams := cw; lv_reconciled := lv_reconciled w |}
  end.
Definition live_run (w : LiveWorld) (ops : list LiveOp) : LiveWorld := foldl live_step w ops.

(** what the server signed in a history: streams and expiries *)
Fixpoint signed_in_history (w : LiveWorld) (ops : list LiveOp) : list (string * Z) :=
  match ops with
  | [] => []
  | o :: r =>
      match o with
      | LWsTicket rq name => match fst (ws_ticket rq name w) with LvTicket _ ttl => [(name, epoch (lv_now (live_step w o)) + ttl)] | _ => [] end
      | _ => []
      end ++ signed_in_history (live_step w o) r
  end.

(** nobody else can compute tags: one that is right for some text was computed by the server for it *)
Definition unforged (ticket : string) (signed : list (string * Z)) : Prop :=
  forall exp_s sig name exp, split_once dot ticket = Some (exp_s, sig) -> sig = live_sign hmac_b64 conf name exp -> (name, exp) ∈ signed.

Lemma signed_has_grant w ops name exp : (name, exp) ∈ signed_in_history w ops ->
  exists ops1 rq ops2, ops = ops1 ++ LWsTicket rq name :: ops2 /\ entitled rq name (live_run w ops1) /\
    exp = epoch (lv_now (live_run w (ops1 ++ [LWsTicket rq name]))) + DEFAULT_TTL.
Proof.
  revert w. induction ops as [|o ops IH]; intros w Hin; [by apply elem_of_nil in Hin|]. cbn [signed_in_history] in Hin.
  apply elem_of_app in Hin as [Hin|Hin].
  - destruct o as [| |]; try (by apply elem_of_nil in Hin). exists [], rq, ops. cbn [app live_run foldl live_step] in *.
    destruct (fst (ws_ticket rq name0 w)) eqn:E; try (by apply elem_of_nil in Hin). apply list_elem_of_singleton in Hin as [= <- ->].
    unfold Live.ws_ticket in E. destruct (live_resolve rq name w) as [a|[u c]] eqn:Er; [by destruct (resolve_refuses _ _ _ _ Er) as (? & ? & ->)|].
    split; [done|]. split; [by eapply resolve_entitled|]. unfold Live.ws_ticket. rewrite Er. cbn in *. by injection E as <- <-.
  - destruct (IH _ Hin) as (ops1 & rq & ops2 & -> & He & Hx). exists (o :: ops1), rq, ops2. done.
Qed.

Lemma encode_rebalance_now s : s_now (snd (encode_rebalance s)) = s_now s.
Proof.
  assert (Hb : forall key x, s_now (bump_etag key x) = s_now x) by (intros key x; unfold bump_etag; by destruct (r_incr _ _ _) as [[]|]).
  unfold encode_rebalance, rebalance_core. destruct (s_flag s); cbn [negb].
  - destruct (apply_plan _ _ _ _) as [rows changed]. cbn [snd]. case_bool_decide; [done|]. unfold s_now, resync_cameras, add_resync. cbn. apply Hb.
  - cbn [snd]. case_bool_decide; [done|]. etransitivity; [apply Hb|done].
Qed.

(** opening a stream takes no time *)
Lemma mark_activity_now c name w : lv_now (mark_activity c name w) = lv_now w.
Proof.
  unfold lv_now, mark_activity, cw_now. cbn. fold (s_now (kick (cr_id c) (mark name (cw_sched (lv_cams w))))).
  assert (Hm : s_now (mark name (cw_sched (lv_cams w))) = s_now (cw_sched (lv_cams w))) by (unfold mark; destruct (_ <=? _); [done|]; by destruct (r_setex _ _ _ _ _)).
  unfold kick. destruct (_ || _); [done|]. destruct (_ !! _); [done|]. by rewrite encode_rebalance_now.
Qed.
Lemma ticket_step_now rq name w : lv_now (live_step w (LWsTicket rq name)) = lv_now w.
Proof. cbn. unfold Live.ws_ticket. destruct (live_resolve rq name w) as [|[u c]]; [done|]. cbn. apply mark_activity_now. Qed.

(** what the query's first src decodes to is what the app takes from the same query *)
Lemma args_get_query key q v : args_get key q = Some v -> v <> EmptyString -> query_first key q = Some v.
Proof.
  unfold args_get, query_first. induction (split_on _ q) as [|f l IH]; [done|]. cbn [first_arg first_field]. intros H Hv.
  destruct (split_once _ f) as [[n x]|] eqn:E.
  - destruct (bool_decide (decode_part n = key)) eqn:Ek; [|rewrite andb_false_r in *; by apply IH]. rewrite andb_true_r in *.
    rewrite (bool_decide_eq_false_2 (f = EmptyString)) in H by (intros E0; by rewrite E0 in E). cbn [negb] in H. injection H as <-.
    rewrite bool_decide_eq_false_2; [done|]. intros ->. by apply Hv.
  - destruct (negb _ && _); [|by apply IH]. injection H as <-. by destruct Hv.
Qed.

(** behind both proxies the stream the request is checked for is the one its query names,
    unless an X-Live-Src header takes its place behind nginx *)
Lemma claim_of_proxy p r name : (p = Nginx -> truthy_str (wr_live_src r) = false) -> name <> EmptyString ->
  args_get "src" (url_query (wr_uri r)) = Some name -> fst (ws_claim (subrequest p r)) = Some name.
Proof.
  intros Hp Hn Hq. assert (Ht : truthy_str (Some name) = true) by (unfold truthy_str; by rewrite bool_decide_eq_false_2).
  pose proof (args_get_query _ _ _ Hq Hn) as Hq'. destruct p; unfold ws_claim, subrequest.
  - unfold nginx_subrequest, py_or. cbn [wa_src wa_ticket wa_live_src wa_live_ticket wa_original_uri wa_forwarded_uri truthy_str]. rewrite (Hp eq_refl). cbn [andb].
    destruct (decide (wr_uri r = EmptyString)) as [E|E]; [by rewrite E in Hq|].
    assert (Eo : forall d, or_str (Some (wr_uri r)) d = wr_uri r) by (intros d; unfold or_str, truthy_str; by rewrite bool_decide_eq_false_2). by rewrite Eo.
  - unfold caddy_subrequest. cbn [wa_src wa_ticket wa_live_src wa_live_ticket wa_original_uri wa_forwarded_uri]. rewrite Hq.
    assert (Hor : forall x, py_or (Some name) x = Some name) by (intros x; unfold py_or; by rewrite Ht). rewrite !Hor. by destruct (_ && _).
Qed.

(** C29: Live media reaches entitled users only.  A request that is proxied to a stream of
    go2rtc is one of a signed-in active user who may read live media and view the camera
    that stream belongs to.  And when nginx or Caddy lets a WebSocket through and go2rtc
    opens a stream for it, such a user asked for a ticket for the very stream that is opened
    at most thirty seconds before, whatever happened in the history in between: behind nginx
    provided the request carries no X-Live-Src header.  go2rtc opens the stream the query
    names first as src; tags are not forged. *)
Theorem live_media_needs_scope w0 ops (opened : string -> option string) :
  (forall q name, opened q = Some name -> name <> EmptyString /\ args_get "src" q = Some name) ->
  let w := live_run w0 ops in
  (forall rq name name', fst (live_open rq name w) = LvProxied name' -> name' = name /\ entitled rq name w) /\
  (forall p r name, proxied_ws hmac_b64 conf p r w ≫= opened = Some name ->
     (p = Nginx -> truthy_str (wr_live_src r) = false) ->
     (forall t, snd (ws_claim (subrequest p r)) = Some t -> unforged t (signed_in_history w0 ops)) ->
     exists ops1 rq ops2, ops = ops1 ++ LWsTicket rq name :: ops2 /\ entitled rq name (live_run w0 ops1) /\
       epoch (lv_now w) <= epoch (lv_now (live_run w0 ops1)) + DEFAULT_TTL).
Proof.
  intros Hgo w. split.
  - intros rq name name'. unfold Live.live_open. destruct (live_resolve rq name w) as [a|[u c]] eqn:E; cbn.
    + by destruct (resolve_refuses _ _ _ _ E) as (? & ? & ->).
    + intros [= <-]. split; [done|]. by eapply resolve_entitled.
  - intros p r name Ho Hp Hu. unfold proxied_ws in Ho. destruct (ws_auth (subrequest p r) w) as [[]|] eqn:Ha; [|done..]. cbn in Ho.
    apply Hgo in Ho as [Hne Hsrc]. pose proof (claim_of_proxy p r name Hp Hne Hsrc) as Hclaim.
    unfold Live.ws_auth in Ha. destruct (ws_claim (subrequest p r)) as [src ticket]. cbn [fst snd] in *. subst src.
    destruct ticket as [t|]; [|by rewrite andb_false_r in Ha]. destruct (_ && _); [|done]. cbn [default from_option id] in Ha. unfold live_verify in Ha. revert Ha.
    case_bool_decide; [done|]. intros H0. apply check_accepted in H0 as (exp_s & exp & Hsp & _ & Hle).
    destruct (signed_has_grant w0 ops name exp (Hu t eq_refl _ _ name exp Hsp eq_refl)) as (ops1 & rq & ops2 & -> & He & ->). exists ops1, rq, ops2. split; [done|]. split; [done|].
    assert (Hl : lv_now (live_run w0 (ops1 ++ [LWsTicket rq name])) = lv_now (live_run w0 ops1)) by (unfold live_run; rewrite foldl_app; apply ticket_step_now).
    by rewrite Hl in Hle.
Qed.
End Access.

(** ** The injected candidate *)

(** the lines of the answer are kept, in order, and each ice-pwd line is followed by the candidate *)
Lemma inject_keeps_lines cand lines : startswith "a=ice-pwd:" cand = false -> cand ∉ lines ->
  List.filter (fun l => negb (bool_decide (l = cand))) (inject_lines cand lines) = lines /\
  length (List.filter (fun l => bool_decide (l = cand)) (inject_lines cand lines)) = length (List.filter (startswith "a=ice-pwd:") lines).
Proof.
  intros Hc Hn. unfold inject_lines. induction lines as [|l lines IH]; [done|]. apply not_elem_of_cons in Hn as [Hl Hn].
  destruct (IH Hn) as [IH1 IH2]. cbn [fmap list_fmap concat List.filter]. destruct (startswith "a=ice-pwd:" l) eqn:El; cbn [app List.filter].
  - rewrite (bool_decide_false (l = cand)), (bool_decide_true (cand = cand)) by done. cbn [negb length]. by rewrite IH1, IH2.
  - rewrite (bool_decide_false (l = cand)) by done. cbn [negb]. by rewrite IH1.
Qed.

(** ** A concrete history *)

Lemma string_app_cancel a x y : a +:+ x = a +:+ y -> x = y.
Proof. induction a as [|c a IH]; [done|]. intros [= H]. by apply IH. Qed.
Lemma toy_tag_inj k m m' : all_chars is_ascii (toy_mac k m) = true -> toy_tag k m = toy_tag k m' -> (2 <= String.length k)%nat -> m = m'.
Proof.
  unfold toy_tag. intros -> H Hk. destruct (all_chars is_ascii (toy_mac k m')); [unfold toy_mac in H; by do 2 apply string_app_cancel in H|].
  unfold toy_mac in H. destruct k as [|c [|d k]]; cbn in Hk; [lia..|done].
Qed.

#[local] Existing Instance toy_jwt.

Definition demo_live : LiveWorld :=
  {| lv_cams := {| cw_sched := set_tok demo_w1 demo_sched; cw_rows := cw_rows demo_cams; cw_streams := cw_streams demo_cams; cw_next := cw_next demo_cams;
                   cw_go2rtc := cw_go2rtc demo_cams; cw_calls := 0; cw_last_frames := ∅; cw_events := [] |}; lv_reconciled := [] |}.
Definition later (at_s : Z) (w : LiveWorld) : CamWorld :=
  let cw := lv_cams w in
  {| cw_sched := set_tok (advance (at_s * SEC) (s_tok (cw_sched cw))) (cw_sched cw); cw_rows := cw_rows cw; cw_streams := cw_streams cw; cw_next := cw_next cw;
     cw_go2rtc := cw_go2rtc cw; cw_calls := cw_calls cw; cw_last_frames := cw_last_frames cw; cw_events := cw_events cw |}.
Definition demo_ticket_request : Request := demo_request "POST" "/api/v1/live/ws-ticket/cam_1_sub" (rq_authorization demo_call).
Definition demo_ticket : string :=
  match fst (ws_ticket toy_tag demo_config demo_ticket_request "cam_1_sub" demo_live) with LvTicket t _ => t | _ => EmptyString end.
(** the request of a browser, which sets no headers *)
Definition ask (src ticket : string) : WsRequest :=
  {| wr_uri := "/live-ws/?src=" +:+ src +:+ "&ticket=" +:+ ticket; wr_live_src := None; wr_live_ticket := None; wr_original_uri := None; wr_forwarded_uri := None |}.
Definition go2rtc_opens (q : string) : option string := match args_get "src" q with Some s => if bool_decide (s = EmptyString) then None else Some s | None => None end.
Definition demo_live_ops (at_s : Z) : list LiveOp := [LWsTicket demo_ticket_request "cam_1_sub"; LElse (later at_s demo_live)].

Lemma demo_unforged : unforged toy_tag demo_config demo_ticket (signed_in_history toy_tag demo_config demo_live (demo_live_ops 1020)).
Proof.
  intros exp_s sig name exp Hs ->. set (signed := signed_in_history _ _ _ _). vm_compute in signed. subst signed.
  assert (Hd : split_once dot demo_ticket = Some (pretty.pretty 1030, live_sign toy_tag demo_config "cam_1_sub" 1030)) by (vm_compute; reflexivity).
  rewrite Hd in Hs. injection Hs as _ Hs. apply toy_tag_inj in Hs; [|by vm_compute|vm_compute; lia].
  apply ticket_message_inj in Hs as [<- <-]. by left.
Qed.

Definition demo_opens (p : Proxy) (src : string) (at_s : Z) : option string :=
  proxied_ws toy_tag demo_config p (ask src demo_ticket) (live_run toy_tag demo_config demo_live (demo_live_ops at_s)) ≫= go2rtc_opens.

Lemma live_media_needs_scope_witness :
  demo_opens Nginx "cam_1_sub" 1020 = Some "cam_1_sub"%string /\ demo_opens Caddy "cam_1_sub" 1020 = Some "cam_1_sub"%string /\
  demo_opens Nginx "cam_1_sub" 1031 = None /\ demo_opens Nginx "cam_1_main" 1020 = None /\
  exists ops1 rq ops2, demo_live_ops 1020 = ops1 ++ LWsTicket rq "cam_1_sub" :: ops2 /\ entitled rq "cam_1_sub" (live_run toy_tag demo_config demo_live ops1).
Proof.
  assert (H : demo_opens Nginx "cam_1_sub" 1020 = Some "cam_1_sub"%string) by (by vm_compute).
  split; [exact H|]. split; [by vm_compute|]. split; [by vm_compute|]. split; [by vm_compute|].
  unfold demo_opens in H.
  assert (Hgo : forall q name, go2rtc_opens q = Some name -> name <> EmptyString /\ args_get "src" q = Some name).
  { intros q name. unfold go2rtc_opens. destruct (args_get "src" q) as [x|]; [|done].
    destruct (bool_decide_reflect (x = EmptyString)) as [Hx|Hx]; [discriminate|]. intros E. injection E as <-. by split. }
  destruct (live_media_needs_scope toy_tag demo_config demo_live (demo_live_ops 1020) go2rtc_opens Hgo) as [_ Hws].
  destruct (Hws Nginx (ask "cam_1_sub" demo_ticket) "cam_1_sub"%string H) as (ops1 & rq & ops2 & E & He & _); [reflexivity| |exists ops1, rq, ops2; exact (conj E He)].
  intros t Ht. assert (Hc : snd (ws_claim (subrequest Nginx (ask "cam_1_sub" demo_ticket))) = Some demo_ticket) by (by vm_compute).
  assert (t = demo_ticket) as -> by congruence. apply demo_unforged.
Defined.

(** nginx passes X-Live-Src and X-Live-Ticket on, and the check believes them before the URI:
    whoever holds a ticket for one stream opens any other *)
Example live_header_opens_any_stream :
  let r := {| wr_uri := "/live-ws/?src=cam_1_main"; wr_live_src := Some "cam_1_sub"%string; wr_live_ticket := Some demo_ticket;
              wr_original_uri := None; wr_forwarded_uri := None |} in
  proxied_ws toy_tag demo_config Nginx r (live_run toy_tag demo_config demo_live (demo_live_ops 1020)) ≫= go2rtc_opens = Some "cam_1_main"%string /\
  signed_in_history toy_tag demo_config demo_live (demo_live_ops 1020) = [("cam_1_sub"%string, 1030)].
Proof. split; by vm_compute. Qed.

(** the original request line of the proxy carries the same claim *)
Example claim_of_request_line :
  ws_claim {| wa_src := None; wa_ticket := None; wa_live_src := None; wa_live_ticket := None;
              wa_original_uri := Some "/live-ws/?x=&src=cam%5F1_sub&ticket=5.a+b#top"%string; wa_forwarded_uri := None |} = (Some "cam_1_sub", Some "5.a b")%string.
Proof. by vm_compute. Qed.

Example candidate_after_password :
  let crlf := String (Ascii.ascii_of_nat 13) (String newline "") in
  let line s := s +:+ String (Ascii.ascii_of_nat 13) "" in
  inject_host_candidate ("v=0" +:+ crlf +:+ "a=ice-pwd:x" +:+ crlf) "10.0.0.5" WEBRTC_PORT =
    "v=0" +:+ crlf +:+ "a=ice-pwd:x" +:+ crlf +:+ "a=candidate:1 1 UDP 2130706431 10.0.0.5 8555 typ host" +:+ crlf.
Proof. by vm_compute. Qed.
