(* ===== verification/Storage.v ===== *)
(** * Recording storage: placement, retention, rotation

    src/server/service/storage_manager.py, retention_engine.py, cache_buffer.py;
    model/segment.py, recording.py, storage_policy.py, disk.py.

    Tables are lists in primary-key order; ORDER BY is a stable sort.  The file
    system is a set of (disk, relative path); which unlinks the OS denies and what
    [shutil.disk_usage] reports are parameters.  Codec and geometry columns of
    segments are not kept. *)

From S2P Require Import Prelude Redis.

Record Segment := {
  sg_id : Z;
  sg_camera_id : Z;
  sg_disk_id : Z;
  sg_rel_path : string;
  sg_start_ts : Z;
  sg_end_ts : Z;
  sg_duration_ms : Z;
  sg_size_bytes : Z;
  sg_reason : string;
  sg_storage_tier : string;
  sg_stream_role : string;
  sg_corrupt : bool
}.

#[export] Instance Segment_eq_dec : EqDecision Segment.
Proof. solve_decision. Defined.

Record Recording := {
  rc_id : Z;
  rc_camera_id : Z;
  rc_reason : string;
  rc_retention_class : string;
  rc_start_ts : Z;
  rc_end_ts : option Z;
  rc_planned_end_ts : option Z;
  rc_deleted_at : option Z
}.

Record StoragePolicy := {
  sp_camera_id : option Z;           (* None: the global fallback *)
  sp_segment_seconds : Z;
  sp_container : string;
  sp_record_mode : string;
  sp_balance_strategy : string;
  sp_pinned_disk_id : option Z;
  sp_retention_days : option Z;
  sp_retention_max_bytes : option Z;
  sp_over_capacity_policy : string;
  sp_cache_buffer_seconds : option Z;
  sp_deleted_at : option Z
}.

Record Disk := {
  dk_id : Z;
  dk_name : string;
  dk_role : string;
  dk_enabled : bool;
  dk_reserved_free_bytes : option Z;
  dk_total_bytes : option Z;
  dk_free_bytes : option Z;
  dk_weight : option Z;
  dk_status : string;
  dk_deleted_at : option Z
}.

Record Store := {
  t_now : Z;
  t_redis : redis;
  t_cameras : list Z;                (* Camera.get_all_enabled, ids *)
  t_segments : list Segment;
  t_recordings : list Recording;
  t_policies : list StoragePolicy;
  t_disks : list Disk;
  t_files : gset (Z * string);
  t_reconciled : list Z              (* publish_reconcile(cam, 'mode_change') *)
}.

Definition set_segments (l : list Segment) (t : Store) : Store :=
  {| t_now := t_now t; t_redis := t_redis t; t_cameras := t_cameras t; t_segments := l;
     t_recordings := t_recordings t; t_policies := t_policies t; t_disks := t_disks t;
     t_files := t_files t; t_reconciled := t_reconciled t |}.
Definition set_files (f : gset (Z * string)) (t : Store) : Store :=
  {| t_now := t_now t; t_redis := t_redis t; t_cameras := t_cameras t; t_segments := t_segments t;
     t_recordings := t_recordings t; t_policies := t_policies t; t_disks := t_disks t;
     t_files := f; t_reconciled := t_reconciled t |}.
Definition set_recordings (l : list Recording) (t : Store) : Store :=
  {| t_now := t_now t; t_redis := t_redis t; t_cameras := t_cameras t; t_segments := t_segments t;
     t_recordings := l; t_policies := t_policies t; t_disks := t_disks t;
     t_files := t_files t; t_reconciled := t_reconciled t |}.
Definition set_policies (l : list StoragePolicy) (t : Store) : Store :=
  {| t_now := t_now t; t_redis := t_redis t; t_cameras := t_cameras t; t_segments := t_segments t;
     t_recordings := t_recordings t; t_policies := l; t_disks := t_disks t;
     t_files := t_files t; t_reconciled := t_reconciled t |}.
Definition set_disks (l : list Disk) (t : Store) : Store :=
  {| t_now := t_now t; t_redis := t_redis t; t_cameras := t_cameras t; t_segments := t_segments t;
     t_recordings := t_recordings t; t_policies := t_policies t; t_disks := l;
     t_files := t_files t; t_reconciled := t_reconciled t |}.
Definition set_t_redis (r : redis) (t : Store) : Store :=
  {| t_now := t_now t; t_redis := r; t_cameras := t_cameras t; t_segments := t_segments t;
     t_recordings := t_recordings t; t_policies := t_policies t; t_disks := t_disks t;
     t_files := t_files t; t_reconciled := t_reconciled t |}.
Definition add_reconcile (c : Z) (t : Store) : Store :=
  {| t_now := t_now t; t_redis := t_redis t; t_cameras := t_cameras t; t_segments := t_segments t;
     t_recordings := t_recordings t; t_policies := t_policies t; t_disks := t_disks t;
     t_files := t_files t; t_reconciled := t_reconciled t ++ [c] |}.

(** ** Segment queries (model/segment.py) *)

Definition by_start (l : list Segment) : list Segment := sort_on sg_start_ts l.

Definition get_range (camera_id start end_ : Z) (role : option string) (t : Store) : list Segment :=
  by_start (List.filter (fun s => (sg_camera_id s =? camera_id) && negb (sg_corrupt s) &&
      (sg_start_ts s <? end_) && (start <? sg_end_ts s) &&
      match role with Some r => bool_decide (sg_stream_role s = r) | None => true end) (t_segments t)).

Definition get_at (camera_id ts : Z) (t : Store) : option Segment :=
  head (sort_on (fun s => - sg_start_ts s) (List.filter (fun s => (sg_camera_id s =? camera_id) &&
      (sg_start_ts s <=? ts) && (ts <? sg_end_ts s)) (t_segments t))).

Definition oldest_for_camera (camera_id : Z) (n : nat) (t : Store) : list Segment :=
  limit n (by_start (List.filter (fun s => sg_camera_id s =? camera_id) (t_segments t))).

Definition older_than (camera_id cutoff : Z) (n : nat) (t : Store) : list Segment :=
  limit n (by_start (List.filter (fun s => (sg_camera_id s =? camera_id) && (sg_end_ts s <? cutoff)) (t_segments t))).

Definition oldest_on_disk (disk_id : Z) (n : nat) (t : Store) : list Segment :=
  limit n (by_start (List.filter (fun s => sg_disk_id s =? disk_id) (t_segments t))).

Definition total_size_for_camera (camera_id : Z) (t : Store) : Z :=
  sum_on sg_size_bytes (List.filter (fun s => sg_camera_id s =? camera_id) (t_segments t)).

Definition mark_reason (reason : string) (s : Segment) : Segment :=
  {| sg_id := sg_id s; sg_camera_id := sg_camera_id s; sg_disk_id := sg_disk_id s; sg_rel_path := sg_rel_path s;
     sg_start_ts := sg_start_ts s; sg_end_ts := sg_end_ts s;
     sg_duration_ms := sg_duration_ms s; sg_size_bytes := sg_size_bytes s; sg_reason := reason;
     sg_storage_tier := sg_storage_tier s; sg_stream_role := sg_stream_role s; sg_corrupt := sg_corrupt s |}.

(** ** Recordings (model/recording.py) *)

Definition PROTECTED_CLASSES : list string := ["protected"; "event"]%string.

Definition get_protected_intervals (camera_id : Z) (t : Store) : list (Z * Z) :=
  (fun r => (rc_start_ts r, default (t_now t) (rc_end_ts r))) <$>
    List.filter (fun r => (rc_camera_id r =? camera_id) && bool_decide (rc_retention_class r ∈ PROTECTED_CLASSES) &&
      bool_decide (rc_deleted_at r = None)) (t_recordings t).

(** [find_overlapping], earliest first *)
Definition find_overlapping (camera_id start end_ : Z) (reason : string) (t : Store) : option Recording :=
  head (sort_on rc_start_ts (List.filter (fun r => (rc_camera_id r =? camera_id) && bool_decide (rc_reason r = reason) &&
      bool_decide (rc_deleted_at r = None) && (rc_start_ts r <? end_) &&
      match rc_end_ts r with None => true | Some e => start <? e end) (t_recordings t))).

Definition extend_rec (start end_ : Z) (r : Recording) : Recording :=
  {| rc_id := rc_id r; rc_camera_id := rc_camera_id r; rc_reason := rc_reason r;
     rc_retention_class := rc_retention_class r;
     rc_start_ts := if start <? rc_start_ts r then start else rc_start_ts r;
     rc_end_ts := match rc_end_ts r with
                  | None => Some end_
                  | Some e => if e <? end_ then Some end_ else Some e
                  end;
     rc_planned_end_ts := rc_planned_end_ts r; rc_deleted_at := rc_deleted_at r |}.

Definition close_rec (end_ : Z) (r : Recording) : Recording :=
  {| rc_id := rc_id r; rc_camera_id := rc_camera_id r; rc_reason := rc_reason r;
     rc_retention_class := rc_retention_class r; rc_start_ts := rc_start_ts r; rc_end_ts := Some end_;
     rc_planned_end_ts := rc_planned_end_ts r; rc_deleted_at := rc_deleted_at r |}.

Definition set_protected (b : bool) (r : Recording) : Recording :=
  {| rc_id := rc_id r; rc_camera_id := rc_camera_id r; rc_reason := rc_reason r;
     rc_retention_class := if b then "protected"%string else "default"%string; rc_start_ts := rc_start_ts r;
     rc_end_ts := rc_end_ts r; rc_planned_end_ts := rc_planned_end_ts r; rc_deleted_at := rc_deleted_at r |}.

Definition new_recording (id camera_id : Z) (reason class : string) (start : Z) (end_ planned : option Z) : Recording :=
  {| rc_id := id; rc_camera_id := camera_id; rc_reason := reason; rc_retention_class := class;
     rc_start_ts := start; rc_end_ts := end_; rc_planned_end_ts := planned; rc_deleted_at := None |}.

(** A committed row replaces the row with its id. *)
Definition put_recording (r : Recording) (l : list Recording) : list Recording :=
  (fun x => if rc_id x =? rc_id r then r else x) <$> l.

Definition has_active_recording (camera_id : Z) (t : Store) : bool :=
  existsb (fun r => (rc_camera_id r =? camera_id) && bool_decide (rc_end_ts r = None) &&
    bool_decide (rc_deleted_at r = None) &&
    (bool_decide (rc_reason r = "manual"%string) || bool_decide (rc_reason r = "event"%string))) (t_recordings t).

Definition due_manual (now : Z) (n : nat) (t : Store) : list Recording :=
  limit n (List.filter (fun r => bool_decide (rc_reason r = "manual"%string) && bool_decide (rc_end_ts r = None) &&
    bool_decide (rc_deleted_at r = None) &&
    match rc_planned_end_ts r with Some p => p <=? now | None => false end) (t_recordings t)).

(** ** Policies (model/storage_policy.py) *)

Definition get_global (t : Store) : option StoragePolicy :=
  List.find (fun p => bool_decide (sp_camera_id p = None) && bool_decide (sp_deleted_at p = None)) (t_policies t).

Definition get_raw_for_camera (camera_id : Z) (t : Store) : option StoragePolicy :=
  List.find (fun p => bool_decide (sp_camera_id p = Some camera_id) && bool_decide (sp_deleted_at p = None)) (t_policies t).

Definition get_for_camera (camera_id : Z) (t : Store) : option StoragePolicy :=
  match get_raw_for_camera camera_id t with Some p => Some p | None => get_global t end.

Definition with_mode (mode : string) (p : StoragePolicy) : StoragePolicy :=
  {| sp_camera_id := sp_camera_id p; sp_segment_seconds := sp_segment_seconds p;
     sp_container := sp_container p; sp_record_mode := mode; sp_balance_strategy := sp_balance_strategy p;
     sp_pinned_disk_id := sp_pinned_disk_id p; sp_retention_days := sp_retention_days p;
     sp_retention_max_bytes := sp_retention_max_bytes p; sp_over_capacity_policy := sp_over_capacity_policy p;
     sp_cache_buffer_seconds := sp_cache_buffer_seconds p; sp_deleted_at := sp_deleted_at p |}.
Definition with_camera (camera_id : Z) (p : StoragePolicy) : StoragePolicy :=
  {| sp_camera_id := Some camera_id; sp_segment_seconds := sp_segment_seconds p;
     sp_container := sp_container p; sp_record_mode := sp_record_mode p; sp_balance_strategy := sp_balance_strategy p;
     sp_pinned_disk_id := sp_pinned_disk_id p; sp_retention_days := sp_retention_days p;
     sp_retention_max_bytes := sp_retention_max_bytes p; sp_over_capacity_policy := sp_over_capacity_policy p;
     sp_cache_buffer_seconds := sp_cache_buffer_seconds p; sp_deleted_at := None |}.
Definition with_pin (disk : Z) (p : StoragePolicy) : StoragePolicy :=
  {| sp_camera_id := sp_camera_id p; sp_segment_seconds := sp_segment_seconds p;
     sp_container := sp_container p; sp_record_mode := sp_record_mode p; sp_balance_strategy := sp_balance_strategy p;
     sp_pinned_disk_id := Some disk; sp_retention_days := sp_retention_days p;
     sp_retention_max_bytes := sp_retention_max_bytes p; sp_over_capacity_policy := sp_over_capacity_policy p;
     sp_cache_buffer_seconds := sp_cache_buffer_seconds p; sp_deleted_at := sp_deleted_at p |}.

(** The live row with the same [camera_id] is the row being committed. *)
Definition put_policy (p : StoragePolicy) (l : list StoragePolicy) : list StoragePolicy :=
  (fun x => if bool_decide (sp_camera_id x = sp_camera_id p) && bool_decide (sp_deleted_at x = None) then p else x) <$> l.

(** ** Disks (model/disk.py) *)

Definition get_writable (roles : list string) (t : Store) : list Disk :=
  List.filter (fun d => bool_decide (dk_deleted_at d = None) && dk_enabled d && bool_decide (dk_status d = "online"%string) &&
    bool_decide (dk_role d ∈ roles)) (t_disks t).

Definition usable_free_bytes (d : Disk) : Z :=
  Z.max 0 (or_Z (dk_free_bytes d) 0 - or_Z (dk_reserved_free_bytes d) 0).

Definition put_disk (d : Disk) (l : list Disk) : list Disk :=
  (fun x => if dk_id x =? dk_id d then d else x) <$> l.

(** ** Choosing a disk for live segments (storage_manager.py) *)

Definition MIN_WRITE_HEADROOM_BYTES : Z := 536870912.

Section WriteDisk.
Context (md5 : string -> Z).   (* int(hashlib.md5(text).hexdigest(), 16) *)
Context (str : Z -> string).   (* str(camera_id) *)

Definition hash_index (camera_id n : Z) : Z := md5 (str camera_id) mod n.

Definition write_pool (t : Store) : list Disk :=
  let fits := List.filter (fun d => MIN_WRITE_HEADROOM_BYTES <? usable_free_bytes d) in
  sort_on dk_id (match fits (get_writable ["cache"]%string t) with
                 | [] => fits (get_writable ["record"]%string t)
                 | l => l
                 end).

(** [policy]: the row the caller resolved (camera-specific or the global one) *)
Definition pick_write_disk (camera_id : Z) (policy : option StoragePolicy) (t : Store) : option Disk * Store :=
  match write_pool t with
  | [] => (None, t)
  | (d0 :: _) as pool =>
      let strategy := match policy with Some p => sp_balance_strategy p | None => "least_used"%string end in
      let n := Z.of_nat (length pool) in
      if bool_decide (strategy = "per_camera"%string) then
        let pinned := match policy with
                      | Some p => if truthy_Z (sp_pinned_disk_id p)
                                  then List.find (fun d => dk_id d =? default 0 (sp_pinned_disk_id p)) pool else None
                      | None => None
                      end in
        match pinned with
        | Some d => (Some d, t)
        | None =>
            let chosen := nth (Z.to_nat (hash_index camera_id n)) pool d0 in
            match policy with
            | Some p => if truthy_Z (sp_pinned_disk_id p) then (Some chosen, t)
                        else (Some chosen, set_policies (put_policy (with_pin (dk_id chosen) p) (t_policies t)) t)
            | None => (Some chosen, t)
            end
        end
      else if bool_decide (strategy = "round_robin"%string) then
        let '(k, t') := match r_incr (t_now t) "axp:rr:write_disk" (t_redis t) with
                        | Some (k, r) => (k, set_t_redis r t)
                        | None => (0, t)
                        end in
        (Some (nth (Z.to_nat (k mod n)) pool d0), t')
      else (max_on (fun d => usable_free_bytes d * or_Z (dk_weight d) 100) pool, t)
  end.
End WriteDisk.

Definition disks_needing_rotation (soft_margin : Z) (t : Store) : list Disk :=
  List.filter (fun d => or_Z (dk_free_bytes d) 0 <=? or_Z (dk_reserved_free_bytes d) 0 + soft_margin)
    (get_writable ["cache"; "record"]%string t).

(** ** Retention (retention_engine.py) *)

Definition overlaps (s : Segment) (intervals : list (Z * Z)) : bool :=
  existsb (fun '(start, end_) => (sg_start_ts s <? end_) && (start <? sg_end_ts s)) intervals.

Section Retention.
Context (unlink_denied : Z * string -> bool).
Context (disk_usage : Disk -> gset (Z * string) -> option (Z * Z)).   (* total, free *)

(** [delete_segment]: the file (if its disk is known and the OS allows), then the row *)
Definition delete_segment (s : Segment) (t : Store) : Store :=
  let file := (sg_disk_id s, sg_rel_path s) in
  let known := existsb (fun d => (dk_id d =? sg_disk_id s) && bool_decide (dk_deleted_at d = None)) (t_disks t) in
  let t1 := if known && negb (unlink_denied file) then set_files (t_files t ∖ {[ file ]}) t else t in
  set_segments (List.filter (fun x => negb (sg_id x =? sg_id s)) (t_segments t1)) t1.

Definition refresh_usage (d : Disk) (t : Store) : Store :=
  set_disks (put_disk match disk_usage d (t_files t) with
    | Some (total, free) =>
        {| dk_id := dk_id d; dk_name := dk_name d; dk_role := dk_role d; dk_enabled := dk_enabled d;
           dk_reserved_free_bytes := dk_reserved_free_bytes d; dk_total_bytes := Some total;
           dk_free_bytes := Some free; dk_weight := dk_weight d; dk_status := "online"%string;
           dk_deleted_at := dk_deleted_at d |}
    | None =>
        {| dk_id := dk_id d; dk_name := dk_name d; dk_role := dk_role d; dk_enabled := dk_enabled d;
           dk_reserved_free_bytes := dk_reserved_free_bytes d; dk_total_bytes := dk_total_bytes d;
           dk_free_bytes := dk_free_bytes d; dk_weight := dk_weight d; dk_status := "offline"%string;
           dk_deleted_at := dk_deleted_at d |}
    end (t_disks t)) t.

(** The eviction loop of [free_space]; [protected] is the per-camera cache. *)
Fixpoint evict (target : Z) (protected : Z -> list (Z * Z)) (segs : list Segment) (est_free deleted : Z) (t : Store)
    : Z * Store :=
  match segs with
  | [] => (deleted, t)
  | s :: r =>
      if target <=? est_free then (deleted, t)
      else if overlaps s (protected (sg_camera_id s)) then evict target protected r est_free deleted t
      else evict target protected r (est_free + sg_size_bytes s) (deleted + 1) (delete_segment s t)
  end.

Definition free_space (d : Disk) (target : Z) (t : Store) : Z * Store :=
  let '(deleted, t1) := evict target (fun c => get_protected_intervals c t) (oldest_on_disk (dk_id d) 2000 t)
                          (or_Z (dk_free_bytes d) 0) 0 t in
  (deleted, refresh_usage d t1).

Definition effective_policies (t : Store) : list (Z * StoragePolicy) :=
  omap (fun c => (fun p => (c, p)) <$> get_for_camera c t) (t_cameras t).

(** 1) one camera, days *)
Definition days_phase (t : Store) (cp : Z * StoragePolicy) (acc : Z * Store) : Z * Store :=
  let '(cam, pol) := cp in
  let '(deleted, t1) := acc in
  if negb (truthy_Z (sp_retention_days pol)) then acc else
  let protected := get_protected_intervals cam t in
  let cutoff := t_now t - default 0 (sp_retention_days pol) * 86400 * SEC in
  foldl (fun '(n, t2) s => if overlaps s protected then (n, t2) else (n + 1, delete_segment s t2))
    (deleted, t1) (older_than cam cutoff 2000 t1).

(** 2) one camera over its cap: one pass over the oldest segments *)
Fixpoint cap_pass (cap : Z) (allow_protected : bool) (protected : list (Z * Z)) (segs : list Segment)
    (used deleted : Z) (gone : gset Z) (t : Store) : Z * Z * gset Z * Store :=
  match segs with
  | [] => (used, deleted, gone, t)
  | s :: r =>
      if used <=? cap then (used, deleted, gone, t)
      else if bool_decide (sg_id s ∈ gone) then cap_pass cap allow_protected protected r used deleted gone t
      else if negb allow_protected && overlaps s protected
      then cap_pass cap allow_protected protected r used deleted gone t
      else cap_pass cap allow_protected protected r (used - sg_size_bytes s) (deleted + 1) ({[ sg_id s ]} ∪ gone)
             (delete_segment s t)
  end.

Definition capacity_delete (cam cap : Z) (protected : list (Z * Z)) (used deleted : Z) (t : Store) : Z * Store :=
  let segs := oldest_for_camera cam 5000 t in
  let '(used1, del1, gone1, t1) := cap_pass cap false protected segs used deleted ∅ t in
  if used1 <=? cap then (del1, t1) else
  let '(_, del2, _, t2) := cap_pass cap true protected segs used1 del1 gone1 t1 in
  (del2, t2).

(** OVER_STOP: stop this camera only, materialising an override when it inherits *)
Definition stop_camera (cam : Z) (pol : StoragePolicy) (t : Store) : Store :=
  add_reconcile cam
    (set_policies
       (match get_raw_for_camera cam t with
        | Some row => put_policy (with_mode "off" row) (t_policies t)
        | None => t_policies t ++ [with_mode "off" (with_camera cam pol)]
        end) t).

Inductive warning := CapacityStopped (cam : Z) | CapacityExceeded (cam : Z) | NoEvictableSpace (disk : string).

Definition capacity_phase (t0 : Store) (cp : Z * StoragePolicy) (acc : Z * list warning * Store)
    : Z * list warning * Store :=
  let '(cam, pol) := cp in
  let '(deleted, warnings, t) := acc in
  if negb (truthy_Z (sp_retention_max_bytes pol)) then acc else
  let cap := default 0 (sp_retention_max_bytes pol) in
  let used := total_size_for_camera cam t in
  if used <=? cap then acc else
  if bool_decide (sp_over_capacity_policy pol = "delete_oldest"%string) then
    let '(deleted', t') := capacity_delete cam cap (get_protected_intervals cam t0) used deleted t in
    (deleted', warnings, t')
  else if bool_decide (sp_over_capacity_policy pol = "stop_recording"%string) then
    (deleted, warnings ++ [CapacityStopped cam], stop_camera cam pol t)
  else if bool_decide (sp_over_capacity_policy pol = "warn_only"%string) then
    (deleted, warnings ++ [CapacityExceeded cam], t)
  else acc.

(** 3) one disk short of space *)
Definition disk_phase (d : Disk) (acc : Z * list warning * Store) : Z * list warning * Store :=
  let '(deleted, warnings, t) := acc in
  let target := or_Z (dk_reserved_free_bytes d) 0 + MIN_WRITE_HEADROOM_BYTES in
  let '(freed, t1) := free_space d target t in
  let free_now := match List.find (fun x => dk_id x =? dk_id d) (t_disks t1) with
                  | Some x => or_Z (dk_free_bytes x) 0 | None => 0 end in
  (deleted + freed,
   if (freed =? 0) && (free_now <=? or_Z (dk_reserved_free_bytes d) 0)
   then warnings ++ [NoEvictableSpace (dk_name d)] else warnings, t1).

Record RetentionReport := { rr_days : Z; rr_capacity : Z; rr_diskfree : Z; rr_warnings : list warning }.

Definition run_retention (t : Store) : RetentionReport * Store :=
  let '(n1, t1) := foldl (fun acc cp => days_phase t cp acc) (0, t) (effective_policies t) in
  let '(n2, w2, t2) := foldl (fun acc cp => capacity_phase t cp acc) (0, [], t1) (effective_policies t1) in
  let '(n3, w3, t3) := foldl (fun acc d => disk_phase d acc) (0, w2, t2) (disks_needing_rotation 0 t2) in
  ({| rr_days := n1; rr_capacity := n2; rr_diskfree := n3; rr_warnings := w3 |}, t3).
End Retention.

(** [check_pool_overcommit] *)
Definition check_pool_overcommit (proposed : option Z) (t : Store) : bool :=
  let disks := get_writable ["cache"; "record"]%string t in
  let pool_total := sum_on (fun d => or_Z (dk_total_bytes d) 0) disks in
  let reserved := sum_on (fun d => or_Z (dk_reserved_free_bytes d) 0) disks in
  let committed := sum_on (fun cp => or_Z (sp_retention_max_bytes (snd cp)) 0) (effective_policies t)
                   + or_Z proposed 0 in
  (pool_total <? committed + reserved) && (0 <? pool_total).

(** [cache_buffer.retain]: protect [event_ts-pre, event_ts+post] *)
Definition retain (new_id camera_id event_ts pre post : Z) (reason : string) (t : Store) : Recording * Store :=
  let start := event_ts - pre * SEC in
  let end_ := event_ts + post * SEC in
  let class := if bool_decide (reason = "event"%string) then "event"%string else "protected"%string in
  let rec_ := new_recording new_id camera_id reason class start (Some end_) None in
  let t1 := set_recordings (t_recordings t ++ [rec_]) t in
  let ids := sg_id <$> get_range camera_id start end_ (Some "main"%string) t1 in
  (rec_, set_segments ((fun s => if bool_decide (sg_id s ∈ ids) then mark_reason "manual" s else s) <$> t_segments t1) t1).

(** ** Deletions, abstractly

    [purge P t t']: [t'] is [t] after deleting segments that satisfy [P] and
    housekeeping that touches neither segments, files nor recordings. *)

Record same_base (t t' : Store) : Prop := {
  sb_now : t_now t' = t_now t;
  sb_recordings : t_recordings t' = t_recordings t;
  sb_cameras : t_cameras t' = t_cameras t
}.

Section PurgeTheory.
Context (unlink_denied : Z * string -> bool).
Notation delete_segment := (delete_segment unlink_denied).

Inductive purge (P : Segment -> Prop) : Store -> Store -> Prop :=
| purge_refl t : purge P t t
| purge_house t t1 t' :
    t_segments t1 = t_segments t -> t_files t1 = t_files t -> same_base t t1 -> purge P t1 t' -> purge P t t'
| purge_step s t t' : P s -> purge P (delete_segment s t) t' -> purge P t t'.

Definition seg_file (s : Segment) : Z * string := (sg_disk_id s, sg_rel_path s).

Lemma same_base_refl t : same_base t t.
Proof. done. Qed.

Lemma same_base_trans t1 t2 t3 : same_base t1 t2 -> same_base t2 t3 -> same_base t1 t3.
Proof. intros [] []. split; congruence. Qed.

Lemma delete_segment_base s t : same_base t (delete_segment s t).
Proof. unfold Storage.delete_segment. by destruct (_ && _). Qed.

Lemma delete_segment_policies s t : t_policies (delete_segment s t) = t_policies t.
Proof. unfold Storage.delete_segment. by destruct (_ && _). Qed.

Lemma delete_segment_rows s t :
  t_segments (delete_segment s t) = List.filter (fun x => negb (sg_id x =? sg_id s)) (t_segments t).
Proof. unfold Storage.delete_segment. by destruct (_ && _). Qed.

Lemma elem_of_delete_segment x s t :
  x ∈ t_segments (delete_segment s t) <-> x ∈ t_segments t /\ sg_id x <> sg_id s.
Proof.
  rewrite delete_segment_rows, list_elem_of_In, filter_In, <- list_elem_of_In.
  destruct (Z.eqb_spec (sg_id x) (sg_id s)); naive_solver.
Qed.

Lemma delete_segment_files f s t :
  f ∈ t_files (delete_segment s t) <->
  f ∈ t_files t /\ (f = seg_file s ->
    existsb (fun d => (dk_id d =? sg_disk_id s) && bool_decide (dk_deleted_at d = None)) (t_disks t) = false
    \/ unlink_denied f = true).
Proof.
  unfold Storage.delete_segment, seg_file.
  destruct (existsb _ _) eqn:Hk; simpl; [|naive_solver].
  destruct (unlink_denied _) eqn:Hu; simpl; [naive_solver|].
  set_unfold. split; [intros [? ?]; naive_solver|]. intros [? H]. split; [done|].
  intros ->. destruct H; naive_solver congruence.
Qed.

Lemma delete_segment_nodup s t :
  NoDup (sg_id <$> t_segments t) -> NoDup (sg_id <$> t_segments (delete_segment s t)).
Proof.
  rewrite delete_segment_rows. generalize (t_segments t) as l.
  induction l as [|x l IH]; intros Hn; [done|]. cbn in *. apply NoDup_cons in Hn as [Hx Hn].
  destruct (negb _) eqn:Eb; cbn; [|by apply IH]. apply NoDup_cons. split; [|by apply IH].
  intros (y & Hy & Hin)%list_elem_of_fmap. apply Hx, list_elem_of_fmap. exists y. split; [done|].
  by apply list_elem_of_In, filter_In in Hin as [?%list_elem_of_In _].
Qed.

Lemma purge_trans P t1 t2 t3 : purge P t1 t2 -> purge P t2 t3 -> purge P t1 t3.
Proof. induction 1; [done|..]; intros H3; [eapply purge_house; eauto|eapply purge_step; eauto]. Qed.

Lemma purge_delete (P : Segment -> Prop) s t : P s -> purge P t (delete_segment s t).
Proof. intros HP. eapply purge_step; [done|apply purge_refl]. Qed.

Lemma purge_mono (P Q : Segment -> Prop) t t' : (forall s, P s -> Q s) -> purge P t t' -> purge Q t t'.
Proof. intros HPQ. induction 1; [apply purge_refl|eapply purge_house; eauto|eapply purge_step; eauto]. Qed.

Lemma purge_base P t t' : purge P t t' -> same_base t t'.
Proof.
  induction 1 as [t|t t1 t' _ _ Hb _ IH|s t t' _ _ IH]; [done| |].
  - by eapply same_base_trans.
  - eapply same_base_trans; [apply delete_segment_base|done].
Qed.

Lemma purge_subset P t t' : purge P t t' -> t_segments t' ⊆ t_segments t.
Proof.
  induction 1 as [t|t t1 t' Hs _ _ _ IH|s t t' _ _ IH]; [done|by rewrite <- Hs|].
  intros x [? _]%IH%elem_of_delete_segment. done.
Qed.

Lemma purge_files P t t' : purge P t t' -> t_files t' ⊆ t_files t.
Proof.
  induction 1 as [t|t t1 t' _ Hf _ _ IH|s t t' _ _ IH]; [done|by rewrite <- Hf|].
  etransitivity; [exact IH|]. unfold Storage.delete_segment. destruct (_ && _); cbn; set_solver.
Qed.

Lemma purge_nodup P t t' : purge P t t' -> NoDup (sg_id <$> t_segments t) -> NoDup (sg_id <$> t_segments t').
Proof.
  induction 1 as [t|t t1 t' Hs _ _ _ IH|s t t' _ _ IH]; intros Hn; [done|apply IH; by rewrite Hs|].
  by apply IH, delete_segment_nodup.
Qed.

(** A row no deletion names keeps its row and its file. *)
Lemma purge_keeps P t t' s :
  purge P t t' -> (forall x, P x -> sg_id x <> sg_id s) -> s ∈ t_segments t -> s ∈ t_segments t'.
Proof.
  induction 1 as [t|t t1 t' Hs _ _ _ IH|x t t' HP _ IH]; intros Hne Hin; [done|apply IH; [done|by rewrite Hs]|].
  apply IH; [done|]. apply elem_of_delete_segment. split; [done|]. intros E. by apply (Hne x HP).
Qed.

Lemma purge_keeps_file P t t' f :
  purge P t t' -> (forall x, P x -> seg_file x <> f) -> f ∈ t_files t -> f ∈ t_files t'.
Proof.
  induction 1 as [t|t t1 t' _ Hf _ _ IH|x t t' HP _ IH]; intros Hne Hin; [done|apply IH; [done|by rewrite Hf]|].
  apply IH; [done|]. apply delete_segment_files. split; [done|]. intros E. by destruct (Hne x HP).
Qed.

(** Deleting never increases a nonnegative measure of a camera's segments. *)
Lemma purge_sum P t t' cam (f : Segment -> Z) :
  purge P t t' -> (forall x, x ∈ t_segments t -> 0 <= f x) ->
  sum_on f (List.filter (fun s => sg_camera_id s =? cam) (t_segments t')) <=
  sum_on f (List.filter (fun s => sg_camera_id s =? cam) (t_segments t)).
Proof.
  intros H. induction H as [t|t t1 t' Hs _ _ _ IH|s t t' _ _ IH]; intros Hpos.
  - lia.
  - rewrite <- Hs. apply IH. by rewrite Hs.
  - etransitivity; [apply IH; intros x [? _]%elem_of_delete_segment; by apply Hpos|].
    rewrite delete_segment_rows. clear -Hpos. induction (t_segments t) as [|y l IHl]; [done|].
    assert (0 <= f y) by (apply Hpos; set_solver).
    specialize (IHl ltac:(intros; apply Hpos; set_solver)). cbn [List.filter].
    destruct (negb _); cbn [List.filter]; destruct (sg_camera_id y =? cam); rewrite ?sum_on_cons; lia.
Qed.
End PurgeTheory.

#[export] Hint Resolve purge_refl purge_delete same_base_refl : axp.

(** ** The phases of a retention run are purges *)

Definition protected_seg (t : Store) (s : Segment) : Prop :=
  overlaps s (get_protected_intervals (sg_camera_id s) t) = true.

Lemma get_protected_base c t t' :
  same_base t t' -> get_protected_intervals c t' = get_protected_intervals c t.
Proof. intros [Hn Hr _]. unfold get_protected_intervals. by rewrite Hn, Hr. Qed.

Lemma elem_of_sub_sorted {A} (key : A -> Z) (f : A -> bool) (n : nat) (l : list A) x :
  x ∈ limit n (sort_on key (List.filter f l)) -> x ∈ l /\ f x = true.
Proof.
  intros H%elem_of_take. destruct H as (i & H & _). apply list_elem_of_lookup_2 in H.
  apply elem_of_sort_on, list_elem_of_In, filter_In in H as [?%list_elem_of_In ?]. done.
Qed.

Lemma elem_of_all_sorted {A} (key : A -> Z) (f : A -> bool) (n : nat) (l : list A) x :
  (length (List.filter f l) <= n)%nat -> x ∈ l -> f x = true -> x ∈ limit n (sort_on key (List.filter f l)).
Proof.
  intros Hn Hx Hf. unfold limit. rewrite take_ge by by rewrite sort_on_perm.
  apply elem_of_sort_on, list_elem_of_In, filter_In. by rewrite <- list_elem_of_In.
Qed.

Section RetentionTheory.
Context (unlink_denied : Z * string -> bool).
Context (disk_usage : Disk -> gset (Z * string) -> option (Z * Z)).
Notation purge := (purge unlink_denied).
Notation delete_segment := (delete_segment unlink_denied).

(** *** 1) days *)

Lemma days_fold_purge prot segs n t :
  purge (fun s => s ∈ segs /\ overlaps s prot = false) t
    (snd (foldl (fun '(n, t2) s => if overlaps s prot then (n, t2) else (n + 1, delete_segment s t2)) (n, t) segs)).
Proof.
  revert n t. induction segs as [|s segs IH]; intros n t; cbn [foldl]; [apply purge_refl|].
  destruct (overlaps s prot) eqn:Ho.
  - eapply purge_mono; [|apply IH]. set_solver.
  - eapply purge_step; [split; [by left|done]|]. eapply purge_mono; [|apply IH]. set_solver.
Qed.

Lemma days_fold_gone prot segs n t s :
  s ∈ segs -> overlaps s prot = false ->
  s ∉ t_segments (snd (foldl (fun '(n, t2) s => if overlaps s prot then (n, t2) else (n + 1, delete_segment s t2))
                         (n, t) segs)).
Proof.
  revert n t. induction segs as [|x segs IH]; intros n t Hin Ho; cbn [foldl]; [by apply elem_of_nil in Hin|].
  apply elem_of_cons in Hin as [<-|Hin]; [|destruct (overlaps x prot); by apply IH].
  rewrite Ho. intros H. pose proof (days_fold_purge prot segs (n + 1) (delete_segment s t)) as Hp.
  apply (purge_subset _ _ _ _ Hp) in H. by apply elem_of_delete_segment in H as [_ []].
Qed.

Lemma days_fold_policies prot segs n t :
  t_policies (snd (foldl (fun '(n, t2) s => if overlaps s prot then (n, t2) else (n + 1, delete_segment s t2))
                     (n, t) segs)) = t_policies t.
Proof.
  revert n t. induction segs as [|s segs IH]; intros n t; cbn [foldl]; [done|].
  destruct (overlaps s prot); rewrite IH; [done|apply delete_segment_policies].
Qed.

Lemma days_phase_purge t cp acc :
  purge (fun s => s ∈ t_segments (snd acc) /\ ~ overlaps s (get_protected_intervals (fst cp) t) = true /\
                  sg_camera_id s = fst cp) (snd acc) (snd (days_phase unlink_denied t cp acc)).
Proof.
  destruct cp as [cam pol], acc as [n t1]. cbn. destruct (negb _); [apply purge_refl|].
  eapply purge_mono; [|apply days_fold_purge]. intros s [Hs Ho].
  apply elem_of_sub_sorted in Hs as [? [?%Z.eqb_eq _]%andb_true_iff]. split_and!; [done|by rewrite Ho|done].
Qed.

Lemma days_phase_policies t cp acc :
  t_policies (snd (days_phase unlink_denied t cp acc)) = t_policies (snd acc).
Proof. destruct cp as [cam pol], acc as [n t1]. cbn. destruct (negb _); [done|]. apply days_fold_policies. Qed.

(** Segments that may be deleted: those of a store, not protected in it. *)
Definition unprotected_of (t : Store) (s : Segment) : Prop := s ∈ t_segments t /\ ~ protected_seg t s.

Lemma days_phases_purge t cps acc :
  t_segments (snd acc) ⊆ t_segments t ->
  purge (unprotected_of t) (snd acc) (snd (foldl (fun acc cp => days_phase unlink_denied t cp acc) acc cps)).
Proof.
  revert acc. induction cps as [|cp cps IH]; intros acc Hsub; cbn [foldl]; [apply purge_refl|].
  pose proof (days_phase_purge t cp acc) as Hp. eapply purge_trans.
  - eapply purge_mono; [|apply Hp]. intros s (Hs & Ho & Hc). split; [by apply Hsub|]. unfold protected_seg. by rewrite Hc.
  - apply IH. etransitivity; [by apply (purge_subset _ _ _ _ Hp)|done].
Qed.

Lemma days_phases_policies t cps acc :
  t_policies (snd (foldl (fun acc cp => days_phase unlink_denied t cp acc) acc cps)) = t_policies (snd acc).
Proof.
  revert acc. induction cps as [|cp cps IH]; intros acc; cbn [foldl]; [done|]. by rewrite IH, days_phase_policies.
Qed.

(** *** 3) disk free space *)

Lemma evict_purge target prot segs est n t :
  purge (fun s => s ∈ segs /\ overlaps s (prot (sg_camera_id s)) = false) t
    (snd (evict unlink_denied target prot segs est n t)).
Proof.
  revert est n t. induction segs as [|s segs IH]; intros est n t; cbn [evict]; [apply purge_refl|].
  destruct (target <=? est); [apply purge_refl|].
  destruct (overlaps s _) eqn:Ho.
  - eapply purge_mono; [|apply IH]. set_solver.
  - eapply purge_step; [split; [by left|done]|]. eapply purge_mono; [|apply IH]. set_solver.
Qed.

Lemma free_space_purge d target t :
  purge (unprotected_of t) t (snd (free_space unlink_denied disk_usage d target t)).
Proof.
  unfold free_space. pose proof (evict_purge target (fun c => get_protected_intervals c t)
    (oldest_on_disk (dk_id d) 2000 t) (or_Z (dk_free_bytes d) 0) 0 t) as Hp.
  destruct (evict _ _ _ _ _ _ _) as [n t1]. eapply purge_trans.
  - eapply purge_mono; [|apply Hp]. intros s [[Hs _]%elem_of_sub_sorted Ho].
    split; [done|]. unfold protected_seg. by rewrite Ho.
  - eapply purge_house; [..|apply purge_refl]; done.
Qed.

Lemma unprotected_mono P t t' s : purge P t t' -> unprotected_of t' s -> unprotected_of t s.
Proof.
  intros Hp [Hs Ho]. split; [by apply (purge_subset _ _ _ _ Hp)|]. unfold protected_seg in *.
  by rewrite <- (get_protected_base _ _ _ (purge_base _ _ _ _ Hp)).
Qed.

Lemma disk_phases_purge ds acc :
  purge (unprotected_of (snd acc)) (snd acc)
    (snd (foldl (fun acc d => disk_phase unlink_denied disk_usage d acc) acc ds)).
Proof.
  revert acc. induction ds as [|d ds IH]; intros [[n w] t]; cbn [foldl]; [apply purge_refl|].
  assert (purge (unprotected_of t) t (snd (disk_phase unlink_denied disk_usage d (n, w, t)))) as Hp.
  { unfold disk_phase. pose proof (free_space_purge d (or_Z (dk_reserved_free_bytes d) 0 + MIN_WRITE_HEADROOM_BYTES) t).
    by destruct (free_space _ _ _ _ _). }
  eapply purge_trans; [apply Hp|]. eapply purge_mono; [|apply IH]. intros s. by eapply unprotected_mono.
Qed.
(** *** 2) capacity *)

Lemma total_delete cam s t :
  NoDup (sg_id <$> t_segments t) -> s ∈ t_segments t -> sg_camera_id s = cam ->
  total_size_for_camera cam (delete_segment s t) = total_size_for_camera cam t - sg_size_bytes s.
Proof.
  unfold total_size_for_camera. rewrite delete_segment_rows. intros Hn Hs Hc. revert Hn Hs.
  generalize (t_segments t) as l. induction l as [|x l IH]; intros Hn Hs; [by apply elem_of_nil in Hs|].
  cbn in Hn. apply NoDup_cons in Hn as [Hx Hn]. cbn [List.filter].
  apply elem_of_cons in Hs as [<-|Hs].
  - rewrite Z.eqb_refl. cbn [negb]. rewrite (proj2 (Z.eqb_eq _ _) Hc), sum_on_cons.
    assert (List.filter (fun x => negb (sg_id x =? sg_id s)) l = l) as ->; [|lia].
    clear -Hx. induction l as [|y l IH]; [done|]. cbn in *. apply not_elem_of_cons in Hx as [Hne Hx].
    destruct (Z.eqb_spec (sg_id y) (sg_id s)); [congruence|]. cbn. by rewrite IH.
  - destruct (Z.eqb_spec (sg_id x) (sg_id s)) as [E|E].
    { destruct Hx. rewrite E. by apply list_elem_of_fmap_2. }
    cbn [negb List.filter]. specialize (IH Hn Hs).
    destruct (sg_camera_id x =? cam); rewrite ?sum_on_cons; lia.
Qed.

(** Bookkeeping of the deletion loop: the rows of the batch still present are
    those whose id is not in [gone], and [used] is what the camera uses. *)
Record cap_inv (cam : Z) (segs : list Segment) (used : Z) (gone : gset Z) (t : Store) : Prop := {
  ci_nodup : NoDup (sg_id <$> t_segments t);
  ci_cam : forall s, s ∈ segs -> sg_camera_id s = cam;
  ci_gone : forall s, s ∈ segs -> sg_id s ∉ gone <-> s ∈ t_segments t;
  ci_used : used = total_size_for_camera cam t
}.

Lemma cap_inv_delete cam segs used gone t s :
  (forall x y, x ∈ segs -> y ∈ segs -> sg_id x = sg_id y -> x = y) ->
  cap_inv cam segs used gone t -> s ∈ segs -> sg_id s ∉ gone ->
  cap_inv cam segs (used - sg_size_bytes s) ({[ sg_id s ]} ∪ gone) (delete_segment s t).
Proof.
  intros Hinj [Hn Hc Hg Hu] Hs Hg'. split.
  - by apply delete_segment_nodup.
  - done.
  - intros x Hx. rewrite elem_of_delete_segment, <- (Hg x Hx). set_solver.
  - rewrite total_delete; [by rewrite Hu|done|by apply (Hg s)|by apply Hc].
Qed.

Lemma cap_pass_spec cam batch cap allow prot segs used n gone t :
  (forall x y, x ∈ batch -> y ∈ batch -> sg_id x = sg_id y -> x = y) ->
  segs ⊆ batch -> cap_inv cam batch used gone t ->
  let '(used', n', gone', t') := cap_pass unlink_denied cap allow prot segs used n gone t in
  cap_inv cam batch used' gone' t' /\
  purge (fun s => s ∈ segs /\ (allow = true \/ overlaps s prot = false)) t t' /\
  gone ⊆ gone' /\
  (cap < used' -> forall s, s ∈ segs -> sg_id s ∈ gone' \/ allow = false /\ overlaps s prot = true).
Proof.
  intros Hinj. revert used n gone t. induction segs as [|s segs IH]; intros used n gone t Hsub Hci; cbn [cap_pass].
  { split_and!; [done|apply purge_refl|done|]. intros _ s Hs. by apply elem_of_nil in Hs. }
  destruct (Z.leb_spec used cap) as [Hle|Hlt]; [split_and!; [done|apply purge_refl|done|lia]|].
  assert (Hs : s ∈ batch) by set_solver. assert (Hsub' : segs ⊆ batch) by set_solver.
  case_bool_decide as Hg; [|destruct (negb allow && overlaps s prot) eqn:Ho].
  - specialize (IH used n gone t Hsub' Hci). destruct (cap_pass _ _ _ _ _ _ _ _ _) as [[[u' n'] g'] t'].
    destruct IH as (H1 & H2 & H3 & H4). split_and!; [done| |done|].
    + eapply purge_mono; [|apply H2]. set_solver.
    + intros Hu x [->|Hx]%elem_of_cons; [left; by apply H3|by apply H4].
  - specialize (IH used n gone t Hsub' Hci). destruct (cap_pass _ _ _ _ _ _ _ _ _) as [[[u' n'] g'] t'].
    destruct IH as (H1 & H2 & H3 & H4). split_and!; [done| |done|].
    + eapply purge_mono; [|apply H2]. set_solver.
    + apply andb_true_iff in Ho as [Ha Ho]. apply negb_true_iff in Ha.
      intros Hu x [->|Hx]%elem_of_cons; [by right|by apply H4].
  - specialize (IH (used - sg_size_bytes s) (n + 1) ({[ sg_id s ]} ∪ gone) (delete_segment s t) Hsub'
                  (cap_inv_delete _ _ _ _ _ _ Hinj Hci Hs Hg)).
    destruct (cap_pass _ _ _ _ _ _ _ _ _) as [[[u' n'] g'] t']. destruct IH as (H1 & H2 & H3 & H4).
    split_and!; [done| |set_solver|].
    + eapply (purge_step _ _ s).
      * split; [by left|]. apply andb_false_iff in Ho as [Ha|Ho]; [left; by apply negb_false_iff in Ha|by right].
      * eapply purge_mono; [|apply H2]. set_solver.
    + intros Hu x [->|Hx]%elem_of_cons; [left; set_solver|by apply H4].
Qed.

(** What one camera's [delete_oldest] does: it deletes only segments of the
    oldest batch; it ends within the cap or with the batch deleted; and a
    protected segment goes only when every unprotected one of the batch went. *)
Lemma capacity_delete_spec cam cap prot n t :
  NoDup (sg_id <$> t_segments t) ->
  let batch := oldest_for_camera cam 5000 t in
  let t' := snd (capacity_delete unlink_denied cam cap prot (total_size_for_camera cam t) n t) in
  purge (fun s => s ∈ batch) t t' /\
  (total_size_for_camera cam t' <= cap \/ forall s, s ∈ batch -> s ∉ t_segments t') /\
  (forall p u, p ∈ batch -> p ∉ t_segments t' -> overlaps p prot = true ->
               u ∈ batch -> overlaps u prot = false -> u ∉ t_segments t').
Proof.
  intros Hn batch. assert (Hb : forall s, s ∈ batch -> s ∈ t_segments t /\ sg_camera_id s = cam).
  { intros s [? ?%Z.eqb_eq]%elem_of_sub_sorted. done. }
  assert (Hinj : forall x y, x ∈ batch -> y ∈ batch -> sg_id x = sg_id y -> x = y).
  { intros x y [Hx _]%Hb [Hy _]%Hb. by apply (nodup_key_inj sg_id (t_segments t)). }
  assert (Hci : cap_inv cam batch (total_size_for_camera cam t) ∅ t).
  { split; [done|by intros s [_ ?]%Hb| |done]. intros s [? _]%Hb. set_solver. }
  unfold capacity_delete. fold batch.
  pose proof (cap_pass_spec cam batch cap false prot batch _ n ∅ t Hinj (reflexivity _) Hci) as H1.
  destruct (cap_pass _ _ _ _ _ _ _ _ _) as [[[u1 n1] g1] t1]. destruct H1 as (Hi1 & Hp1 & _ & Hd1).
  assert (Hp1' : purge (fun s => s ∈ batch) t t1) by (eapply purge_mono; [|apply Hp1]; by intros ? [? _]).
  destruct (Z.leb_spec u1 cap) as [Hle|Hlt]; cbn [snd].
  - split_and!; [done|left; by rewrite <- (ci_used _ _ _ _ _ Hi1)|].
    intros p u Hp Hgone Ho _ _. destruct Hgone.
    eapply purge_keeps; [apply Hp1| |by apply Hb]. intros x [Hx [Hx'|Hx']]; [done|].
    intros E. apply Hinj in E; [|done..]. congruence.
  - pose proof (cap_pass_spec cam batch cap true prot batch u1 n1 g1 t1 Hinj (reflexivity _) Hi1) as H2.
    destruct (cap_pass _ _ _ _ _ _ _ _ _) as [[[u2 n2] g2] t2]. destruct H2 as (Hi2 & Hp2 & Hg2 & Hd2). cbn [snd].
    split_and!.
    + eapply purge_trans; [apply Hp1'|]. eapply purge_mono; [|apply Hp2]. by intros ? [? _].
    + destruct (decide (u2 <= cap)); [left; by rewrite <- (ci_used _ _ _ _ _ Hi2)|right].
      intros s Hs Hin. destruct (Hd2 ltac:(lia) s Hs) as [Hg|[? _]]; [|done].
      by apply (ci_gone _ _ _ _ _ Hi2 s Hs) in Hin.
    + intros p u _ _ _ Hu Ho Hin. destruct (Hd1 ltac:(lia) u Hu) as [Hg|[_ ?]]; [|congruence].
      apply (ci_gone _ _ _ _ _ Hi2 u Hu) in Hin. set_solver.
Qed.

Lemma cap_pass_base cap allow prot segs used n gone t :
  same_base t (snd (cap_pass unlink_denied cap allow prot segs used n gone t)).
Proof.
  revert used n gone t. induction segs as [|s segs IH]; intros used n gone t; cbn [cap_pass]; [done|].
  destruct (_ <=? _); [done|]. case_bool_decide; [apply IH|]. destruct (_ && _); [apply IH|].
  eapply same_base_trans; [apply delete_segment_base|apply IH].
Qed.

Lemma capacity_delete_base cam cap prot used n t :
  same_base t (snd (capacity_delete unlink_denied cam cap prot used n t)).
Proof.
  unfold capacity_delete. pose proof (cap_pass_base cap false prot (oldest_for_camera cam 5000 t) used n ∅ t) as H1.
  destruct (cap_pass _ _ _ _ _ _ _ _ _) as [[[u1 n1] g1] t1]. destruct (_ <=? _); [done|].
  pose proof (cap_pass_base cap true prot (oldest_for_camera cam 5000 t) u1 n1 g1 t1) as H2.
  destruct (cap_pass _ _ _ _ _ _ _ _ _) as [[[u2 n2] g2] t2]. by eapply same_base_trans.
Qed.

Lemma capacity_phases_base t0 cps acc :
  same_base (snd acc) (snd (foldl (fun acc cp => capacity_phase unlink_denied t0 cp acc) acc cps)).
Proof.
  revert acc. induction cps as [|[cam pol] cps IH]; intros [[n w] t]; cbn [foldl]; [done|].
  eapply same_base_trans; [|apply IH]. cbn. destruct (negb _); [done|]. destruct (_ <=? _); [done|]. case_bool_decide.
  - pose proof (capacity_delete_base cam (default 0 (sp_retention_max_bytes pol)) (get_protected_intervals cam t0)
      (total_size_for_camera cam t) n t). by destruct (capacity_delete _ _ _ _ _ _ _).
  - by case_bool_decide; [|case_bool_decide].
Qed.

Lemma run_retention_base t : same_base t (snd (run_retention unlink_denied disk_usage t)).
Proof.
  unfold run_retention.
  pose proof (days_phases_purge t (effective_policies t) (0, t) (reflexivity _)) as H1%purge_base.
  destruct (foldl _ (0, t) (effective_policies t)) as [n1 t1].
  pose proof (capacity_phases_base t (effective_policies t1) (0, [], t1)) as H2.
  destruct (foldl _ (0, [], t1) (effective_policies t1)) as [[n2 w2] t2].
  pose proof (disk_phases_purge (disks_needing_rotation 0 t2) (0, w2, t2)) as H3%purge_base.
  destruct (foldl _ (0, w2, t2) _) as [[n3 w3] t3].
  eapply same_base_trans; [exact H1|]. by eapply same_base_trans.
Qed.

Lemma capacity_phase_purge t0 cp n w t :
  NoDup (sg_id <$> t_segments t) ->
  purge (fun s => s ∈ t_segments t /\ sg_camera_id s = fst cp /\ truthy_Z (sp_retention_max_bytes (snd cp)) = true /\
                  sp_over_capacity_policy (snd cp) = "delete_oldest"%string)
    t (snd (capacity_phase unlink_denied t0 cp (n, w, t))).
Proof.
  intros Hn. destruct cp as [cam pol]. cbn. destruct (truthy_Z _) eqn:Ht; cbn [negb snd]; [|apply purge_refl].
  destruct (_ <=? _); [apply purge_refl|]. case_bool_decide as Hd.
  - destruct (capacity_delete_spec cam (default 0 (sp_retention_max_bytes pol)) (get_protected_intervals cam t0) n t Hn)
      as (Hp & _). destruct (capacity_delete _ _ _ _ _ _ _) as [n' t']. eapply purge_mono; [|apply Hp].
    by intros s [? ?%Z.eqb_eq]%elem_of_sub_sorted.
  - case_bool_decide; [|case_bool_decide; apply purge_refl].
    eapply purge_house; [..|apply purge_refl]; done.
Qed.

(** What phase 2 may delete, for a list of (camera, policy). *)
Definition capped_in (cps : list (Z * StoragePolicy)) (t : Store) (s : Segment) : Prop :=
  s ∈ t_segments t /\ exists pol, (sg_camera_id s, pol) ∈ cps /\ truthy_Z (sp_retention_max_bytes pol) = true /\
    sp_over_capacity_policy pol = "delete_oldest"%string.

Lemma capacity_phases_purge t0 cps acc :
  NoDup (sg_id <$> t_segments (snd acc)) ->
  purge (capped_in cps (snd acc)) (snd acc)
    (snd (foldl (fun acc cp => capacity_phase unlink_denied t0 cp acc) acc cps)).
Proof.
  revert acc. induction cps as [|cp cps IH]; intros [[n w] t] Hn; cbn [foldl snd]; [apply purge_refl|].
  pose proof (capacity_phase_purge t0 cp n w t Hn) as Hp. eapply purge_trans.
  - eapply purge_mono; [|apply Hp]. intros s (Hs & Hc & Ht & Ho). split; [done|]. exists (snd cp).
    split; [|done]. rewrite Hc. apply elem_of_cons. left. by destruct cp.
  - eapply purge_mono; [|apply IH; by apply (purge_nodup _ _ _ _ Hp)].
    intros s (Hs & pol & Hin & Ht). split; [by apply (purge_subset _ _ _ _ Hp)|].
    exists pol. split; [by right|done].
Qed.

(** *** The whole run *)

Lemma effective_policies_eq t t' :
  t_policies t' = t_policies t -> same_base t t' -> effective_policies t' = effective_policies t.
Proof.
  intros Hp [_ _ Hc]. unfold effective_policies, get_for_camera, get_raw_for_camera, get_global. by rewrite Hp, Hc.
Qed.

Lemma elem_of_effective cam pol t :
  (cam, pol) ∈ effective_policies t <-> cam ∈ t_cameras t /\ get_for_camera cam t = Some pol.
Proof.
  unfold effective_policies. rewrite list_elem_of_omap. split.
  - intros (c & Hc & Hs). destruct (get_for_camera c t) eqn:E; naive_solver.
  - intros [Hc Hs]. exists cam. by rewrite Hs.
Qed.

(** The run as three purges: unprotected segments, segments of cameras with an
    enforced cap, unprotected segments. *)
Lemma run_retention_phases t :
  NoDup (sg_id <$> t_segments t) ->
  exists t1 t2,
    t1 = snd (foldl (fun acc cp => days_phase unlink_denied t cp acc) (0, t) (effective_policies t)) /\
    t2 = snd (foldl (fun acc cp => capacity_phase unlink_denied t cp acc) (0, [], t1) (effective_policies t)) /\
    purge (unprotected_of t) t t1 /\
    purge (capped_in (effective_policies t) t1) t1 t2 /\
    purge (unprotected_of t2) t2 (snd (run_retention unlink_denied disk_usage t)).
Proof.
  intros Hn. unfold run_retention.
  pose proof (days_phases_purge t (effective_policies t) (0, t) (reflexivity _)) as H1.
  pose proof (days_phases_policies t (effective_policies t) (0, t)) as Hpol.
  destruct (foldl _ (0, t) (effective_policies t)) as [n1 t1]. cbn [snd] in *.
  rewrite (effective_policies_eq _ _ Hpol (purge_base _ _ _ _ H1)).
  pose proof (capacity_phases_purge t (effective_policies t) (0, [], t1) (purge_nodup _ _ _ _ H1 Hn)) as H2.
  destruct (foldl _ (0, [], t1) (effective_policies t)) as [[n2 w2] t2] eqn:E2. cbn [snd] in *.
  exists t1, t2. split_and!; [done|by rewrite E2|done|done|].
  pose proof (disk_phases_purge (disks_needing_rotation 0 t2) (0, w2, t2)) as H3.
  by destruct (foldl _ (0, w2, t2) _) as [[n3 w3] t3].
Qed.
End RetentionTheory.

Definition caps_enforced_for (cam : Z) (t : Store) : Prop :=
  exists pol, get_for_camera cam t = Some pol /\ truthy_Z (sp_retention_max_bytes pol) = true /\
    sp_over_capacity_policy pol = "delete_oldest"%string.

(** A whole run only deletes, and protected segments only under a byte cap. *)
Lemma run_retention_purge unlink_denied disk_usage t :
  NoDup (sg_id <$> t_segments t) ->
  purge unlink_denied (fun x => x ∈ t_segments t /\ (protected_seg t x -> caps_enforced_for (sg_camera_id x) t)) t
    (snd (run_retention unlink_denied disk_usage t)).
Proof.
  intros Hn. destruct (run_retention_phases unlink_denied disk_usage t Hn) as (t1 & t2 & _ & _ & H1 & H2 & H3).
  eapply purge_trans; [|eapply purge_trans].
  - eapply purge_mono; [|apply H1]. intros x [Hx Hu]. by split.
  - eapply purge_mono; [|apply H2]. intros x (Hx & pol & [_ Hpol]%elem_of_effective & Ht).
    split; [by apply (purge_subset _ _ _ _ H1)|]. intros _. by exists pol.
  - eapply purge_mono; [|apply H3]. intros x Hx. apply (unprotected_mono _ _ _ _ _ H2) in Hx.
    apply (unprotected_mono _ _ _ _ _ H1) in Hx as [Hx Hu]. by split.
Qed.

Lemma protected_survives unlink_denied disk_usage t s :
  NoDup (sg_id <$> t_segments t) -> NoDup (seg_file <$> t_segments t) ->
  s ∈ t_segments t -> protected_seg t s -> ~ caps_enforced_for (sg_camera_id s) t ->
  s ∈ t_segments (snd (run_retention unlink_denied disk_usage t)) /\
  (seg_file s ∈ t_files t -> seg_file s ∈ t_files (snd (run_retention unlink_denied disk_usage t))).
Proof.
  intros Hn Hf Hs Hprot Hcap. pose proof (run_retention_purge unlink_denied disk_usage t Hn) as Hp.
  assert (Hne : forall x, x ∈ t_segments t /\ (protected_seg t x -> caps_enforced_for (sg_camera_id x) t) -> x <> s).
  { intros x [_ H] ->. by apply Hcap, H. }
  split.
  - eapply purge_keeps; [apply Hp| |done]. intros x Hx E. apply (Hne x Hx). by eapply (nodup_key_inj sg_id); [|apply Hx|..].
  - eapply purge_keeps_file; [apply Hp|]. intros x Hx E. apply (Hne x Hx). by eapply (nodup_key_inj seg_file); [|apply Hx|..].
Qed.

(** C3: a segment overlapping a protected or event recording of its camera keeps
    its row and its file through a whole retention run, unless its camera's
    effective policy deletes the oldest beyond a byte cap. *)
Theorem protected_footage_survives unlink_denied disk_usage t s :
  NoDup (sg_id <$> t_segments t) -> NoDup (seg_file <$> t_segments t) ->
  s ∈ t_segments t -> protected_seg t s -> ~ caps_enforced_for (sg_camera_id s) t ->
  s ∈ t_segments (snd (run_retention unlink_denied disk_usage t)) /\
  (seg_file s ∈ t_files t -> seg_file s ∈ t_files (snd (run_retention unlink_denied disk_usage t))).
Proof. apply protected_survives. Qed.

Section Caps.
Context (unlink_denied : Z * string -> bool).
Notation purge := (purge unlink_denied).

Lemma purge_total P t t' cam :
  purge P t t' -> (forall x, x ∈ t_segments t -> 0 <= sg_size_bytes x) ->
  total_size_for_camera cam t' <= total_size_for_camera cam t.
Proof. apply purge_sum. Qed.

Definition batch_len (cam : Z) (t : Store) : nat :=
  length (List.filter (fun s => sg_camera_id s =? cam) (t_segments t)).

Lemma purge_len P t t' cam : purge P t t' -> (batch_len cam t' <= batch_len cam t)%nat.
Proof.
  intros H. unfold batch_len. pose proof (purge_sum _ _ _ _ cam (fun _ => 1) H ltac:(intros; lia)) as Hle.
  assert (forall l : list Segment, sum_on (fun _ => 1) l = Z.of_nat (length l)) as Hl.
  { induction l as [|x l IHl]; [done|]. rewrite sum_on_cons, IHl. cbn [length]. lia. }
  rewrite !Hl in Hle. lia.
Qed.

Lemma sum_on_filter_none (f : Segment -> bool) g l :
  (forall s, s ∈ l -> f s = false) -> sum_on g (List.filter f l) = 0.
Proof.
  induction l as [|x l IH]; intros H; [done|]. cbn. rewrite (H x) by set_solver. apply IH. set_solver.
Qed.

Lemma camera_rows_nodup cam t : NoDup (sg_id <$> t_segments t) -> NoDup (List.filter (fun s => sg_camera_id s =? cam) (t_segments t)).
Proof. intros H. by apply (NoDup_fmap_1 sg_id), filter_nodup. Qed.

(** The camera's footage fits the cap in [t'], or a whole batch of it went. *)
Definition capped (cam cap : Z) (t t' : Store) : Prop :=
  total_size_for_camera cam t' <= cap \/ (batch_len cam t' + 5000 <= batch_len cam t)%nat.

Lemma batch_gone P cam cap t t' :
  purge P t t' -> NoDup (sg_id <$> t_segments t) -> 0 <= cap -> (forall s, s ∈ oldest_for_camera cam 5000 t -> s ∉ t_segments t') -> capped cam cap t t'.
Proof.
  intros Hp Hn H0 Hgone. set (L := List.filter (fun s => sg_camera_id s =? cam) (t_segments t)).
  assert (HnL : NoDup (by_start L)) by (unfold by_start; rewrite sort_on_perm; by apply camera_rows_nodup).
  assert (Hsub : forall s, s ∈ List.filter (fun s => sg_camera_id s =? cam) (t_segments t') -> s ∈ drop 5000 (by_start L)).
  { intros s [Hs Hc]%elem_of_filter_In. assert (Hin : s ∈ by_start L).
    { apply elem_of_sort_on, elem_of_filter_In. split; [by apply (purge_subset _ _ _ _ Hp)|done]. }
    rewrite <- (take_drop 5000 (by_start L)) in Hin. apply elem_of_app in Hin as [Hin|]; [|done]. by apply Hgone in Hin. }
  destruct (Nat.le_gt_cases 5000 (length L)) as [Hl|Hl].
  - right. unfold batch_len. fold L. assert (length (by_start L) = length L) as El by (by apply Permutation_length, sort_on_perm).
    pose proof (NoDup_submseteq _ (drop 5000 (by_start L))
      (camera_rows_nodup cam t' (purge_nodup _ _ _ _ Hp Hn)) Hsub) as Hle%submseteq_length.
    rewrite length_drop, El in Hle. lia.
  - left. unfold total_size_for_camera. rewrite sum_on_filter_none; [done|]. intros s Hs. destruct (sg_camera_id s =? cam) eqn:Hc; [|done].
    assert (Hd : s ∈ drop 5000 (by_start L)) by (apply Hsub, elem_of_filter_In; by split). rewrite drop_ge in Hd; [by apply elem_of_nil in Hd|].
    assert (length (by_start L) = length L) as -> by (by apply Permutation_length, sort_on_perm). lia.
Qed.

(** One camera's turn in phase 2 brings it within its cap. *)
Lemma capacity_phase_enforces t0 cam pol n w t :
  NoDup (sg_id <$> t_segments t) ->
  truthy_Z (sp_retention_max_bytes pol) = true -> 0 <= default 0 (sp_retention_max_bytes pol) ->
  sp_over_capacity_policy pol = "delete_oldest"%string ->
  capped cam (default 0 (sp_retention_max_bytes pol)) t (snd (capacity_phase unlink_denied t0 (cam, pol) (n, w, t))).
Proof.
  intros Hn Ht H0 Hd. cbn. rewrite Ht. cbn [negb]. destruct (Z.leb_spec (total_size_for_camera cam t)
    (default 0 (sp_retention_max_bytes pol))); [by left|]. rewrite bool_decide_eq_true_2 by done.
  destruct (capacity_delete_spec unlink_denied cam (default 0 (sp_retention_max_bytes pol))
              (get_protected_intervals cam t0) n t Hn) as (Hp & [Hle|Hgone] & _);
    destruct (capacity_delete _ _ _ _ _ _ _) as [n' t']; cbn [snd] in *; [by left|by eapply batch_gone].
Qed.

Lemma capped_purge cam cap P Q t t1 t2 t3 :
  purge P t t1 -> capped cam cap t1 t2 -> purge Q t2 t3 -> (forall x, x ∈ t_segments t2 -> 0 <= sg_size_bytes x) -> capped cam cap t t3.
Proof.
  intros H1 [Hc|Hc] H2 Hpos; [left; etransitivity; [by eapply purge_total|done]|right].
  pose proof (purge_len _ _ _ cam H1). pose proof (purge_len _ _ _ cam H2). lia.
Qed.

Lemma capacity_phases_enforce t0 cam pol cps n w t :
  (cam, pol) ∈ cps -> NoDup (sg_id <$> t_segments t) ->
  (forall x, x ∈ t_segments t -> 0 <= sg_size_bytes x) ->
  truthy_Z (sp_retention_max_bytes pol) = true -> 0 <= default 0 (sp_retention_max_bytes pol) ->
  sp_over_capacity_policy pol = "delete_oldest"%string ->
  capped cam (default 0 (sp_retention_max_bytes pol)) t (snd (foldl (fun acc cp => capacity_phase unlink_denied t0 cp acc) (n, w, t) cps)).
Proof.
  intros Hin Hn Hpos Ht H0 Hd. revert n w t Hin Hn Hpos.
  induction cps as [|cp cps IH]; intros n w t Hin Hn Hpos; [by apply elem_of_nil in Hin|]. cbn [foldl].
  pose proof (capacity_phase_purge unlink_denied t0 cp n w t Hn) as Hp.
  assert (Hpos' : forall x, x ∈ t_segments (capacity_phase unlink_denied t0 cp (n, w, t)).2 -> 0 <= sg_size_bytes x)
    by (intros x Hx; by apply Hpos, (purge_subset _ _ _ _ Hp)).
  apply elem_of_cons in Hin as [<-|Hin].
  - eapply (capped_purge _ _ (fun _ => True) _ t t); [apply purge_refl|by apply capacity_phase_enforces| |done].
    apply capacity_phases_purge. by apply (purge_nodup _ _ _ _ Hp).
  - pose proof (fun acc => capacity_phases_purge unlink_denied t0 cps acc) as Hrest.
    destruct (capacity_phase _ _ cp _) as [[n' w'] t1]. cbn [snd] in *. assert (Hn1 := purge_nodup _ _ _ _ Hp Hn).
    eapply (capped_purge _ _ _ (fun _ => True)); [exact Hp|by apply IH|apply purge_refl|]. intros x Hx. eapply Hpos', purge_subset; [by apply (Hrest (n', w', t1))|exact Hx].
Qed.
End Caps.

(** A run brings a camera with a byte cap within it, or deletes a whole batch of its segments. *)
Lemma run_within_cap unlink_denied disk_usage t cam pol cap :
  NoDup (sg_id <$> t_segments t) -> (forall s, s ∈ t_segments t -> 0 <= sg_size_bytes s) ->
  cam ∈ t_cameras t -> get_for_camera cam t = Some pol ->
  sp_retention_max_bytes pol = Some cap -> 0 < cap ->
  sp_over_capacity_policy pol = "delete_oldest"%string ->
  capped cam cap t (snd (run_retention unlink_denied disk_usage t)).
Proof.
  intros Hn Hpos Hc Hpol Hcap Hc0 Hd.
  destruct (run_retention_phases unlink_denied disk_usage t Hn) as (t1 & t2 & -> & -> & H1 & H2 & H3).
  assert (Hpos1 := fun x Hx => Hpos x (purge_subset _ _ _ _ H1 x Hx)).
  eapply capped_purge; [exact H1| |exact H3|intros x Hx; by apply Hpos1, (purge_subset _ _ _ _ H2)].
  replace cap with (default 0 (sp_retention_max_bytes pol)) by by rewrite Hcap.
  apply capacity_phases_enforce; [by apply elem_of_effective|by apply (purge_nodup _ _ _ _ H1)|done|..].
  - rewrite Hcap. cbn. destruct (Z.eqb_spec cap 0); [lia|done].
  - rewrite Hcap. cbn. lia.
  - done.
Qed.

(** C11: a retention run brings every enabled camera whose effective policy deletes the oldest
    beyond a positive byte cap within that cap, even when all its footage is protected; a camera
    with more to delete than the 5000 segments one run looks at loses 5000 of them.  (Segments
    have distinct ids and no negative sizes.) *)
Theorem caps_enforced unlink_denied disk_usage t cam pol cap :
  NoDup (sg_id <$> t_segments t) -> (forall s, s ∈ t_segments t -> 0 <= sg_size_bytes s) ->
  cam ∈ t_cameras t -> get_for_camera cam t = Some pol ->
  sp_retention_max_bytes pol = Some cap -> 0 < cap ->
  sp_over_capacity_policy pol = "delete_oldest"%string ->
  let t' := snd (run_retention unlink_denied disk_usage t) in
  total_size_for_camera cam t' <= cap \/ (batch_len cam t' + 5000 <= batch_len cam t)%nat.
Proof. apply run_within_cap. Qed.

Lemma purge_gone unlink_denied P t t' s : purge unlink_denied P t t' -> s ∉ t_segments t -> s ∉ t_segments t'.
Proof. intros H Hs Hs'. by apply Hs, (purge_subset _ _ _ _ H). Qed.

Lemma days_phases_shrink unlink_denied t cps acc :
  purge unlink_denied (fun _ => True) (snd acc)
    (snd (foldl (fun acc cp => days_phase unlink_denied t cp acc) acc cps)).
Proof.
  revert acc. induction cps as [|cp cps IH]; intros acc; cbn [foldl]; [apply purge_refl|].
  eapply purge_trans; [|apply IH]. by eapply purge_mono; [|apply days_phase_purge].
Qed.

Lemma days_phase_gone unlink_denied t cam pol acc s :
  truthy_Z (sp_retention_days pol) = true ->
  sg_camera_id s = cam -> sg_end_ts s < t_now t - default 0 (sp_retention_days pol) * 86400 * SEC ->
  overlaps s (get_protected_intervals cam t) = false -> (batch_len cam (snd acc) <= 2000)%nat ->
  s ∉ t_segments (snd (days_phase unlink_denied t (cam, pol) acc)).
Proof.
  intros Ht Hc He Ho Hl. destruct acc as [n t1]. unfold days_phase. rewrite Ht. cbn [negb].
  destruct (decide (s ∈ t_segments t1)) as [Hs|Hs]; [|by eapply purge_gone; [apply days_fold_purge|]].
  apply days_fold_gone; [|done]. apply elem_of_all_sorted; [|done|].
  - etransitivity; [|exact Hl]. unfold batch_len. cbn [snd]. clear. induction (t_segments t1) as [|y l IHl]; [done|].
    cbn [List.filter]. destruct (sg_camera_id y =? cam); cbn [andb]; [|done]. destruct (_ <? _); cbn [length]; lia.
  - rewrite Hc, Z.eqb_refl. cbn [andb]. by apply Z.ltb_lt.
Qed.

Lemma days_phases_gone unlink_denied t cps acc cam pol s :
  (cam, pol) ∈ cps -> truthy_Z (sp_retention_days pol) = true ->
  sg_camera_id s = cam -> sg_end_ts s < t_now t - default 0 (sp_retention_days pol) * 86400 * SEC ->
  overlaps s (get_protected_intervals cam t) = false -> (batch_len cam (snd acc) <= 2000)%nat ->
  s ∉ t_segments (snd (foldl (fun acc cp => days_phase unlink_denied t cp acc) acc cps)).
Proof.
  intros Hin Ht Hc He Ho. revert acc. induction cps as [|cp cps IH]; intros acc Hl; [by apply elem_of_nil in Hin|].
  cbn [foldl]. apply elem_of_cons in Hin as [<-|Hin].
  - eapply purge_gone; [apply days_phases_shrink|]. by apply days_phase_gone.
  - apply IH; [done|]. etransitivity; [|exact Hl]. eapply purge_len, days_phase_purge.
Qed.

(** After a retention run no enabled camera with a retention period keeps an
    unprotected segment that ended before the period began (for up to the 2000
    segments one pass looks at). *)
Theorem retention_days_enforced unlink_denied disk_usage t cam pol days s :
  NoDup (sg_id <$> t_segments t) -> cam ∈ t_cameras t -> get_for_camera cam t = Some pol ->
  sp_retention_days pol = Some days -> days <> 0 -> (batch_len cam t <= 2000)%nat ->
  sg_camera_id s = cam -> sg_end_ts s < t_now t - days * 86400 * SEC -> ~ protected_seg t s ->
  s ∉ t_segments (snd (run_retention unlink_denied disk_usage t)).
Proof.
  intros Hn Hc Hpol Hd H0 Hl Hs He Hp.
  destruct (run_retention_phases unlink_denied disk_usage t Hn) as (t1 & t2 & -> & _ & _ & H2 & H3).
  eapply purge_gone; [apply H3|]. eapply purge_gone; [apply H2|].
  eapply (days_phases_gone _ _ _ _ cam pol); [by apply elem_of_effective| |done| | |done].
  - rewrite Hd. cbn. by destruct (Z.eqb_spec days 0).
  - by rewrite Hd.
  - apply not_true_is_false. by rewrite <- Hs.
Qed.

(** Deleting down to a cap takes only the camera's oldest segments, and takes
    a protected one only after every unprotected one of that batch; it ends within
    the cap or with the batch deleted. *)
Theorem protected_deleted_last unlink_denied cam cap prot n t :
  NoDup (sg_id <$> t_segments t) ->
  let batch := oldest_for_camera cam 5000 t in
  let t' := snd (capacity_delete unlink_denied cam cap prot (total_size_for_camera cam t) n t) in
  (forall s, s ∈ t_segments t -> s ∉ t_segments t' -> s ∈ batch) /\
  (forall p u, p ∈ batch -> p ∉ t_segments t' -> overlaps p prot = true ->
               u ∈ batch -> overlaps u prot = false -> u ∉ t_segments t') /\
  (total_size_for_camera cam t' <= cap \/ forall s, s ∈ batch -> s ∉ t_segments t').
Proof.
  intros Hn batch t'. destruct (capacity_delete_spec unlink_denied cam cap prot n t Hn) as (Hp & He & Hl).
  split_and!; [|done|done]. intros s Hs Hgone.
  destruct (decide (s ∈ batch)) as [|Hb]; [done|]. destruct Hgone.
  eapply purge_keeps; [apply Hp| |done]. intros x Hx E. apply Hb.
  assert (x = s) as <-; [|done]. eapply (nodup_key_inj sg_id); [done| |done|done].
  by apply elem_of_sub_sorted in Hx as [? _].
Qed.

(** ** Placement *)

(** An online, enabled disk of the role with room beyond the headroom. *)
Definition has_room (role : string) (t : Store) (d : Disk) : Prop :=
  d ∈ t_disks t /\ dk_deleted_at d = None /\ dk_enabled d = true /\ dk_status d = "online"%string /\
  dk_role d = role /\ MIN_WRITE_HEADROOM_BYTES < usable_free_bytes d.

Lemma elem_of_fits role t d :
  d ∈ List.filter (fun d => MIN_WRITE_HEADROOM_BYTES <? usable_free_bytes d) (get_writable [role] t) <->
  has_room role t d.
Proof.
  unfold get_writable, has_room. rewrite !elem_of_filter_In, !andb_true_iff, Z.ltb_lt, !bool_decide_eq_true.
  rewrite list_elem_of_singleton. tauto.
Qed.

Lemma write_pool_spec t :
  (write_pool t = [] <-> forall d, ~ has_room "cache" t d /\ ~ has_room "record" t d) /\
  (forall d, d ∈ write_pool t ->
     has_room "cache" t d \/ has_room "record" t d /\ forall d', ~ has_room "cache" t d').
Proof.
  unfold write_pool. set (C := List.filter _ (get_writable ["cache"%string] t)).
  set (R := List.filter _ (get_writable ["record"%string] t)).
  assert (HC : forall d, d ∈ C <-> has_room "cache" t d) by (intros; apply elem_of_fits).
  assert (HR : forall d, d ∈ R <-> has_room "record" t d) by (intros; apply elem_of_fits).
  assert (Hnil : forall l : list Disk, sort_on dk_id l = [] <-> forall d, d ∉ l).
  { intros l. split; [intros E d; rewrite <- (elem_of_sort_on dk_id), E; apply not_elem_of_nil|].
    intros H. destruct (sort_on dk_id l) as [|x r] eqn:E; [done|]. destruct (H x).
    apply (elem_of_sort_on dk_id). rewrite E. by left. }
  assert (Hemp : forall l : list Disk, (exists x, x ∈ l) \/ l = []) by (intros [|x ?]; [by right|left; exists x; by left]).
  destruct (Hemp C) as [[c Hc]|E]; [|rewrite E in *].
  - assert ((match C with [] => R | d :: l => d :: l end) = C) as ->
      by (destruct C; [by apply elem_of_nil in Hc|done]).
    split; [|intros d Hd; left; apply HC; by rewrite (elem_of_sort_on dk_id) in Hd].
    rewrite Hnil. split; [intros H; by destruct (H c)|]. intros H. destruct (H c) as [Hno _]. by destruct Hno; apply HC.
  - assert (HC' : forall d, ~ has_room "cache" t d) by (intros d ?%HC; by apply (not_elem_of_nil d)).
    split.
    + rewrite Hnil. split; [intros H d; split; [by apply HC'|by rewrite <- HR]|].
      intros H d Hd%HR. by apply (H d).
    + intros d Hd. right. split; [|done]. apply HR. by rewrite (elem_of_sort_on dk_id) in Hd.
Qed.

Lemma nth_mod_elem {A} (l : list A) (d : A) (k : Z) :
  l <> [] -> nth (Z.to_nat (k mod Z.of_nat (length l))) l d ∈ l.
Proof.
  intros Hl. apply list_elem_of_In, nth_In. destruct l as [|x r]; [done|].
  pose proof (Z.mod_pos_bound k (Z.of_nat (length (x :: r))) ltac:(cbn [length]; lia)). lia.
Qed.

Lemma pick_write_disk_elem md5 str cam policy t :
  match fst (pick_write_disk md5 str cam policy t) with
  | Some d => d ∈ write_pool t
  | None => write_pool t = []
  end.
Proof.
  unfold pick_write_disk, hash_index. destruct (write_pool t) as [|d0 r] eqn:Ep; [done|].
  clear Ep. case_bool_decide; [|case_bool_decide].
  - destruct policy as [p|]; [|by cbn [fst]; apply nth_mod_elem].
    destruct (truthy_Z (sp_pinned_disk_id p)); [|by cbn [fst]; apply nth_mod_elem].
    destruct (List.find _ _) as [d|] eqn:Ef; [|by cbn [fst]; apply nth_mod_elem].
    cbn [fst]. by apply find_some in Ef as [?%list_elem_of_In _].
  - destruct (r_incr _ _ _) as [[k rd]|]; by cbn [fst]; apply nth_mod_elem.
  - cbn [fst]. destruct (max_on _ (d0 :: r)) as [m|] eqn:Em; [|done].
    by destruct (max_on_Some _ _ _ Em).
Qed.

(** Whatever the balancing strategy, live segments go to an online, enabled disk
    with room beyond the headroom, on the cache tier whenever one qualifies; the
    choice fails exactly when no cache or record disk has room. *)
Theorem pick_write_disk_sound md5 str cam policy t :
  (forall d, fst (pick_write_disk md5 str cam policy t) = Some d ->
     has_room "cache" t d \/ has_room "record" t d /\ forall d', ~ has_room "cache" t d') /\
  (fst (pick_write_disk md5 str cam policy t) = None <->
     forall d, ~ has_room "cache" t d /\ ~ has_room "record" t d).
Proof.
  pose proof (pick_write_disk_elem md5 str cam policy t) as H. destruct (write_pool_spec t) as [Hn Hs].
  destruct (fst _) as [d|] eqn:E.
  - split; [intros ? [= ->]; by apply Hs|]. split; [done|]. intros Hno. apply Hn in Hno. rewrite Hno in H.
    by apply elem_of_nil in H.
  - split; [done|]. split; [intros _; by apply Hn|done].
Qed.

Lemma find_put_policy f p l q :
  List.find f l = Some q -> f p = true ->
  (forall x, (bool_decide (sp_camera_id x = sp_camera_id p) && bool_decide (sp_deleted_at x = None)) = f x) ->
  List.find f (put_policy p l) = Some p.
Proof.
  intros Hf Hp Hx. induction l as [|x l IH]; [done|]. cbn in *. rewrite Hx.
  destruct (f x) eqn:E; [by rewrite Hp|]. rewrite E. by apply IH.
Qed.

Lemma find_put_policy_other f p l :
  (forall x, (bool_decide (sp_camera_id x = sp_camera_id p) && bool_decide (sp_deleted_at x = None)) = true ->
     f x = false) -> f p = false -> List.find f (put_policy p l) = List.find f l.
Proof.
  intros Hx Hp. induction l as [|x l IH]; [done|]. cbn.
  destruct (_ && _) eqn:E; [by rewrite Hp, (Hx x)|]. destruct (f x); [done|apply IH].
Qed.

(** With the [per_camera] strategy on the global policy, the first placement pins
    that shared row, and every camera that inherits it is then placed on the
    same disk, instead of being spread by the hash of its id. *)
Theorem per_camera_pin_is_shared md5 str a b t p d t' :
  get_raw_for_camera b t = None -> get_raw_for_camera a t = None -> get_global t = Some p ->
  sp_balance_strategy p = "per_camera"%string -> sp_pinned_disk_id p = None ->
  NoDup (dk_id <$> t_disks t) -> (forall x, x ∈ t_disks t -> 0 < dk_id x) ->
  pick_write_disk md5 str a (get_for_camera a t) t = (Some d, t') ->
  pick_write_disk md5 str b (get_for_camera b t') t' = (Some d, t').
Proof.
  intros Hb Ha Hg Hs Hpin Hnd Hid Hpick.
  pose proof (pick_write_disk_elem md5 str a (get_for_camera a t) t) as Hin. rewrite Hpick in Hin. cbn [fst] in Hin.
  revert Hpick. unfold get_for_camera at 1. rewrite Ha, Hg. unfold pick_write_disk at 1.
  destruct (write_pool t) as [|d0 r] eqn:Ep; [done|]. rewrite Hs, bool_decide_eq_true_2, Hpin by done.
  cbn [truthy_Z]. intros [= Hd <-].
  assert (Hgl : sp_camera_id p = None /\ sp_deleted_at p = None).
  { apply find_some in Hg as [_ [?%bool_decide_eq_true ?%bool_decide_eq_true]%andb_true_iff]. done. }
  destruct Hgl as [Hc0 Hd0]. rewrite Hd.
  set (t' := set_policies _ t).
  assert (get_for_camera b t' = Some (with_pin (dk_id d) p)) as ->.
  { unfold get_for_camera. assert (get_raw_for_camera b t' = None) as ->.
    - unfold get_raw_for_camera. cbn [t' t_policies set_policies]. rewrite find_put_policy_other; [exact Hb| |].
      + cbn [with_pin sp_camera_id sp_deleted_at]. rewrite Hc0. intros x [->%bool_decide_eq_true _]%andb_true_iff. by rewrite bool_decide_eq_false_2.
      + cbn [with_pin sp_camera_id sp_deleted_at]. rewrite Hc0. by rewrite bool_decide_eq_false_2.
    - unfold get_global. cbn [t' t_policies set_policies]. eapply find_put_policy; [exact Hg| |].
      + cbn [with_pin sp_camera_id sp_deleted_at]. by rewrite Hc0, Hd0.
      + intros x. cbn [with_pin sp_camera_id sp_deleted_at]. f_equal. apply bool_decide_ext. by rewrite Hc0. }
  assert (Hdisk : forall x, x ∈ d0 :: r -> x ∈ t_disks t)
    by (rewrite <- Ep; intros x Hx; by apply write_pool_spec in Hx as [(H & _)|[(H & _) _]]).
  unfold pick_write_disk. replace (write_pool t') with (write_pool t) by done. rewrite Ep.
  cbn [sp_balance_strategy with_pin sp_pinned_disk_id]. rewrite Hs, bool_decide_eq_true_2 by done.
  cbn [truthy_Z default]. pose proof (Hid d (Hdisk d Hin)). destruct (Z.eqb_spec (dk_id d) 0); [lia|]. cbn [negb].
  destruct (List.find _ (d0 :: r)) as [d'|] eqn:Ef.
  - apply find_some in Ef as [Hd'%list_elem_of_In E%Z.eqb_eq].
    by rewrite (nodup_key_inj dk_id (t_disks t) d' d Hnd (Hdisk _ Hd') (Hdisk _ Hin) E).
  - eapply find_none in Ef; [|by apply list_elem_of_In]. by rewrite Z.eqb_refl in Ef.
Qed.

(** ** Witnesses *)

Definition demo_seg (id cam start : Z) : Segment :=
  {| sg_id := id; sg_camera_id := cam; sg_disk_id := 7; sg_rel_path := String (Ascii.ascii_of_nat (Z.to_nat id)) "";
     sg_start_ts := start; sg_end_ts := start + 10 * SEC; sg_duration_ms := 10000; sg_size_bytes := 60; sg_reason := "continuous";
     sg_storage_tier := "record"; sg_stream_role := "main"; sg_corrupt := false |}.

Definition demo_policy (cam : option Z) (days cap pin : option Z) (strategy : string) : StoragePolicy :=
  {| sp_camera_id := cam; sp_segment_seconds := 10; sp_container := "mpegts"; sp_record_mode := "continuous"; sp_balance_strategy := strategy; sp_pinned_disk_id := pin;
     sp_retention_days := days; sp_retention_max_bytes := cap; sp_over_capacity_policy := "delete_oldest";
     sp_cache_buffer_seconds := Some 60; sp_deleted_at := None |}.

Definition demo_disk (id : Z) : Disk :=
  {| dk_id := id; dk_name := "d"; dk_role := "record"; dk_enabled := true; dk_reserved_free_bytes := Some 0;
     dk_total_bytes := Some 10737418240; dk_free_bytes := Some 5368709120; dk_weight := Some 100;
     dk_status := "online"; dk_deleted_at := None |}.

(** Camera 1 inherits one day of retention; camera 2 has a cap of 100 bytes. *)
Definition demo_store : Store :=
  {| t_now := 10 * 86400 * SEC; t_redis := {| r_store := ∅; r_up := true |}; t_cameras := [1; 2];
     t_segments := [demo_seg 31 1 0; demo_seg 32 1 (100 * SEC); demo_seg 33 2 (864000 * SEC - 60 * SEC);
                    demo_seg 34 2 (864000 * SEC - 50 * SEC); demo_seg 35 2 (864000 * SEC - 40 * SEC)];
     t_recordings := [new_recording 50 1 "event" "event" 0 (Some (5 * SEC)) None;
                      new_recording 51 2 "event" "event" (864000 * SEC - 100 * SEC) (Some (864000 * SEC - 45 * SEC)) None];
     t_policies := [demo_policy None (Some 1) None None "per_camera"; demo_policy (Some 2) None (Some 100) None "least_used"];
     t_disks := [demo_disk 7; demo_disk 8]; t_files := list_to_set (seg_file <$> [demo_seg 31 1 0; demo_seg 32 1 0]);
     t_reconciled := [] |}.

Definition demo_usage (d : Disk) (f : gset (Z * string)) : option (Z * Z) := Some (10737418240, 5368709120).
Definition demo_run : Store := snd (run_retention (fun _ => false) demo_usage demo_store).

Lemma protected_footage_survives_witness : demo_seg 31 1 0 ∈ t_segments demo_run.
Proof.
  apply protected_footage_survives; [decide_it|decide_it|decide_it|by vm_compute|].
  intros (pol & Hp & Ht & _). vm_compute in Hp. injection Hp as <-. discriminate Ht.
Defined.

Lemma caps_enforced_witness : total_size_for_camera 2 demo_store = 180 /\ total_size_for_camera 2 demo_run <= 100.
Proof.
  split; [vm_compute; reflexivity|].
  destruct (caps_enforced (fun _ => false) demo_usage demo_store 2 (demo_policy (Some 2) None (Some 100) None "least_used") 100) as [H|H];
    [decide_it| |decide_it|vm_compute; reflexivity|reflexivity|lia|reflexivity|exact H|apply Nat.leb_le in H; vm_compute in H; discriminate H].
  intros s Hs. assert (sg_size_bytes s = 60) as ->; [|lia].
  repeat (apply elem_of_cons in Hs as [->|Hs]; [reflexivity|]). by apply elem_of_nil in Hs.
Defined.

Lemma retention_days_enforced_witness : demo_seg 32 1 (100 * SEC) ∉ t_segments demo_run.
Proof.
  apply (retention_days_enforced (fun _ => false) demo_usage demo_store 1
           (demo_policy None (Some 1) None None "per_camera") 1);
    [decide_it|decide_it|vm_compute; reflexivity|reflexivity|lia|apply Nat.leb_le; vm_compute; reflexivity|
     reflexivity|apply Z.ltb_lt; vm_compute; reflexivity|].
  intros H. vm_compute in H. discriminate H.
Defined.

(** Of camera 2's three segments the two the event covers are older, yet the
    unprotected one goes first. *)
Lemma protected_deleted_last_witness :
  let t' := snd (capacity_delete (fun _ => false) 2 100 (get_protected_intervals 2 demo_store)
                   (total_size_for_camera 2 demo_store) 0 demo_store) in
  demo_seg 33 2 (864000 * SEC - 60 * SEC) ∉ t_segments t' /\
  demo_seg 35 2 (864000 * SEC - 40 * SEC) ∉ t_segments t'.
Proof.
  assert (Hgone : demo_seg 33 2 (864000 * SEC - 60 * SEC) ∉ t_segments (snd (capacity_delete (fun _ => false) 2 100
    (get_protected_intervals 2 demo_store) (total_size_for_camera 2 demo_store) 0 demo_store))) by decide_it.
  split; [exact Hgone|].
  apply (protected_deleted_last (fun _ => false) 2 100 (get_protected_intervals 2 demo_store) 0 demo_store ltac:(decide_it))
    with (p := demo_seg 33 2 (864000 * SEC - 60 * SEC)); [decide_it|exact Hgone|by vm_compute|decide_it|by vm_compute].
Defined.

(** Two cameras that inherit the global policy, placed one after the other. *)
Definition demo_md5 (s : string) : Z := Z.of_nat (String.length s).
Definition demo_str (z : Z) : string := if z =? 1 then "1" else "33".

Lemma per_camera_pin_is_shared_witness :
  exists d t', pick_write_disk demo_md5 demo_str 1 (get_for_camera 1 demo_store) demo_store = (Some d, t') /\
    pick_write_disk demo_md5 demo_str 3 (get_for_camera 3 t') t' = (Some d, t') /\
    fst (pick_write_disk demo_md5 demo_str 3 (get_for_camera 3 demo_store) demo_store) <> Some d.
Proof.
  eexists _, _. split; [vm_compute; reflexivity|]. split; [|vm_compute; congruence].
  apply (per_camera_pin_is_shared demo_md5 demo_str 1 3 demo_store (demo_policy None (Some 1) None None "per_camera"));
    [vm_compute; reflexivity..|decide_it| |vm_compute; reflexivity].
  intros x Hx. repeat (apply elem_of_cons in Hx as [->|Hx]; [reflexivity|]). by apply elem_of_nil in Hx.
Defined.

(** ** What a range holds *)

Lemma elem_of_get_range cam a b t s : s ∈ get_range cam a b (Some "main"%string) t <->
  s ∈ t_segments t /\ sg_camera_id s = cam /\ sg_corrupt s = false /\ sg_start_ts s < b /\ a < sg_end_ts s /\ sg_stream_role s = "main"%string.
Proof.
  unfold get_range, by_start. rewrite elem_of_sort_on, elem_of_filter_In, !andb_true_iff, !bool_decide_eq_true, !Z.ltb_lt, Z.eqb_eq, negb_true_iff. naive_solver.
Qed.
