(* ===== verification/Sweep.v ===== *)
(** * Moving footage between disks

    src/server/task/list/segment_sweep.py: promotion of cached segments to the
    record disks, pruning of index rows whose disk is gone, evacuation of a disk;
    [cache_tier_older_than] of model/segment.py and the disk removal of
    controller/storage.py.

    [move_file] is [os.makedirs] and [shutil.move] on a source that exists: it may
    raise [OSError], leaving or not a partial copy at the destination. *)

From S2P Require Import Prelude Redis Storage.

Inductive move_outcome := Moved | MoveFailed (leftover : bool).

(** A segment at another place; the footage is the same. *)
Definition with_place (disk : Z) (tier : string) (s : Segment) : Segment :=
  {| sg_id := sg_id s; sg_camera_id := sg_camera_id s; sg_disk_id := disk; sg_rel_path := sg_rel_path s;
     sg_start_ts := sg_start_ts s; sg_end_ts := sg_end_ts s; sg_duration_ms := sg_duration_ms s;
     sg_size_bytes := sg_size_bytes s; sg_reason := sg_reason s; sg_storage_tier := tier;
     sg_stream_role := sg_stream_role s; sg_corrupt := sg_corrupt s |}.

Definition put_segment (s : Segment) (l : list Segment) : list Segment :=
  (fun x => if sg_id x =? sg_id s then s else x) <$> l.

Definition cache_tier_older_than (cutoff : Z) (n : nat) (t : Store) : list Segment :=
  limit n (by_start (List.filter (fun s => bool_decide (sg_storage_tier s = "cache"%string) && (sg_end_ts s <? cutoff))
    (t_segments t))).

(** [Disk.get_all] as the dictionary by id *)
Definition live_disk (id : Z) (t : Store) : option Disk :=
  List.find (fun d => (dk_id d =? id) && bool_decide (dk_deleted_at d = None)) (t_disks t).

Section Sweep.
Context (move_file : Z * string -> Z -> move_outcome).

(** [_move_segment]; [false] is the [OSError] *)
Definition move_segment (s : Segment) (dst : Disk) (t : Store) : bool * Store :=
  let src_file := (sg_disk_id s, sg_rel_path s) in
  let dst_file := (dk_id dst, sg_rel_path s) in
  if bool_decide (src_file ∈ t_files t) then
    match move_file src_file (dk_id dst) with
    | Moved => (true, set_segments (put_segment (with_place (dk_id dst) "record" s) (t_segments t))
                        (set_files ({[ dst_file ]} ∪ (t_files t ∖ {[ src_file ]})) t))
    | MoveFailed leftover => (false, if leftover then set_files ({[ dst_file ]} ∪ t_files t) t else t)
    end
  else (false, t).

(** one round of the promotion loop *)
Definition promote (record_disks : list Disk) (seg : Segment) (acc : Z * Store) : Z * Store :=
  let '(promoted, t) := acc in
  match live_disk (sg_disk_id seg) t with
  | None => (promoted, t)
  | Some src =>
      match record_disks with
      | dst :: _ =>
          if negb (bool_decide (dk_role src = "record"%string)) then
            let '(ok, t') := move_segment seg dst t in (if ok then promoted + 1 else promoted, t')
          else (promoted, set_segments (put_segment (with_place (sg_disk_id seg) "record" seg) (t_segments t)) t)
      | [] => (promoted, set_segments (put_segment (with_place (sg_disk_id seg) "record" seg) (t_segments t)) t)
      end
  end.

Definition record_pool (t : Store) : list Disk :=
  sort_on (fun d => - usable_free_bytes d) (get_writable ["record"]%string t).

Definition sweep_cutoff (t : Store) : Z :=
  t_now t - or_Z (match get_global t with Some p => sp_cache_buffer_seconds p | None => Some 60 end) 60 * SEC.

(** index rows whose disk row is gone entirely (a soft-deleted disk keeps its rows) *)
Definition orphan_rows (t : Store) : list Segment :=
  limit 2000 (List.filter (fun s => bool_decide (sg_disk_id s ∉ dk_id <$> t_disks t)) (t_segments t)).

Definition prune_orphans (t : Store) : Z * Store :=
  match t_disks t with
  | [] => (0, t)
  | _ => (Z.of_nat (length (orphan_rows t)),
          set_segments (List.filter (fun s => bool_decide (sg_id s ∉ sg_id <$> orphan_rows t)) (t_segments t)) t)
  end.

Definition promote_all (t : Store) : Z * Store :=
  foldl (fun acc s => promote (record_pool t) s acc) (0, t) (cache_tier_older_than (sweep_cutoff t) 500 t).

Definition sweep (t : Store) : Z * Z * Store :=
  let '(promoted, t1) := promote_all t in
  let '(orphans, t2) := prune_orphans t1 in
  (promoted, orphans, t2).

(** ** Evacuation *)

Inductive evac_result := EvacNoTargets | EvacNotFound | EvacDone (moved failed : Z).

(** one batch: every segment to the target with the most usable space *)
Fixpoint evac_batch (targets : list Disk) (batch : list Segment) (moved : Z) (failed_ids : gset Z) (t : Store)
    : Z * gset Z * Store :=
  match batch with
  | [] => (moved, failed_ids, t)
  | seg :: r =>
      match max_on usable_free_bytes targets with
      | None => (moved, failed_ids, t)                 (* unreachable: targets is not empty *)
      | Some dst =>
          let '(ok, t') := move_segment seg dst t in
          if ok then evac_batch targets r (moved + 1) failed_ids t'
          else evac_batch targets r moved ({[ sg_id seg ]} ∪ failed_ids) t'
      end
  end.

(** [while True]; [None] only when [fuel] rounds were not enough *)
Fixpoint evac_loop (fuel : nat) (disk_id : Z) (targets : list Disk) (moved : Z) (failed_ids : gset Z) (t : Store)
    : option (Z * gset Z * Store) :=
  match fuel with
  | O => None
  | S fuel' =>
      let batch := List.filter (fun s => bool_decide (sg_id s ∉ failed_ids))
                     (oldest_on_disk disk_id (200 + size failed_ids) t) in
      match batch with
      | [] => Some (moved, failed_ids, t)
      | _ => let '(moved', failed', t') := evac_batch targets batch moved failed_ids t in
             evac_loop fuel' disk_id targets moved' failed' t'
      end
  end.

Definition evac_targets (disk_id : Z) (t : Store) : list Disk :=
  List.filter (fun d => negb (dk_id d =? disk_id)) (get_writable ["cache"; "record"]%string t).

Definition evacuate_disk (fuel : nat) (disk_id : Z) (t : Store) : option (evac_result * Store) :=
  let targets := evac_targets disk_id t in
  match targets with
  | [] => Some (EvacNoTargets, t)
  | _ =>
      if existsb (fun d => dk_id d =? disk_id) (t_disks t) then
        (fun '(moved, failed, t') => (EvacDone moved (Z.of_nat (size failed)), t')) <$>
          evac_loop fuel disk_id targets 0 ∅ t
      else Some (EvacNotFound, t)
  end.
End Sweep.

(** ** Removing a disk (controller/storage.py) *)

Inductive delete_disk_result := DiskNotFound | EvacQueued | Unregistered.

Definition unregister (now : Z) (d : Disk) : Disk :=
  {| dk_id := dk_id d; dk_name := dk_name d; dk_role := dk_role d; dk_enabled := false;
     dk_reserved_free_bytes := dk_reserved_free_bytes d; dk_total_bytes := dk_total_bytes d;
     dk_free_bytes := dk_free_bytes d; dk_weight := dk_weight d; dk_status := dk_status d;
     dk_deleted_at := Some now |}.

(** the evacuation itself runs later, as a task *)
Definition delete_disk (disk_id : Z) (mode : string) (t : Store) : delete_disk_result * Store :=
  match live_disk disk_id t with
  | None => (DiskNotFound, t)
  | Some d =>
      if bool_decide (mode = "evacuate"%string) then (EvacQueued, t)
      else (Unregistered, set_disks (put_disk (unregister (t_now t) d) (t_disks t)) t)
  end.

(** ** Relocation

    What moves may do to the index and to the files: every row stays, at most its
    place changes, to a disk of the pool, and its file is there afterwards iff it
    was there before. *)

Definition same_footage (s s' : Segment) : Prop := s' = with_place (sg_disk_id s') (sg_storage_tier s') s.

Record relocated (t t' : Store) : Prop := {
  rl_rows : Forall2 (fun s s' => same_footage s s' /\ (seg_file s ∈ t_files t <-> seg_file s' ∈ t_files t') /\
                                (sg_disk_id s' = sg_disk_id s \/ sg_disk_id s' ∈ dk_id <$> t_disks t))
              (t_segments t) (t_segments t');
  rl_disks : t_disks t' = t_disks t;
  rl_recordings : t_recordings t' = t_recordings t;
  rl_policies : t_policies t' = t_policies t
}.

(** Distinct rows, at distinct paths: [exists_rel_path] at indexing. *)
Record index_ok (t : Store) : Prop := {
  ix_ids : NoDup (sg_id <$> t_segments t);
  ix_paths : NoDup (sg_rel_path <$> t_segments t)
}.

#[export] Instance relocated_refl : Reflexive relocated.
Proof. intros t. constructor; [|done..]. apply Forall_Forall2_diag, Forall_forall. intros [] _. by split_and!; [| |left]. Qed.

#[export] Instance relocated_trans : Transitive relocated.
Proof.
  intros t1 t2 t3 [R1 D1 C1 P1] [R2 D2 C2 P2]. constructor; [|congruence..].
  eapply Forall2_trans; [|exact R1|exact R2]. unfold same_footage.
  intros s s' s'' (E & H & K) (E' & H' & K'). rewrite D1 in K'. split_and!; [rewrite E' at 1; by rewrite E|tauto|].
  destruct K' as [->|K']; [done|by right].
Qed.

Lemma relocated_column {A} (f : Segment -> A) t t' :
  (forall s d k, f (with_place d k s) = f s) -> relocated t t' -> f <$> t_segments t' = f <$> t_segments t.
Proof. intros Hf [R _ _ _]. induction R as [|s s' l l' [E _] R IH]; [done|]. cbn. by rewrite E, Hf, IH. Qed.

Lemma relocated_index t t' : relocated t t' -> index_ok t -> index_ok t'.
Proof.
  intros R [Hi Hp]. constructor; [by rewrite (relocated_column sg_id t)|by rewrite (relocated_column sg_rel_path t)].
Qed.

Lemma relocated_row t t' s :
  relocated t t' -> s ∈ t_segments t ->
  exists s', s' ∈ t_segments t' /\ same_footage s s' /\ (seg_file s ∈ t_files t <-> seg_file s' ∈ t_files t').
Proof.
  intros [R _ _ _] [i Hi]%list_elem_of_lookup. destruct (Forall2_lookup_l _ _ _ _ _ R Hi) as (s' & Hi' & E & F).
  exists s'. split; [by eapply list_elem_of_lookup_2|]. destruct F as [F _]. by split.
Qed.

(** Rewriting one row in place while only files at its own path come and go. *)
Lemma relocated_put s d k t files :
  index_ok t -> s ∈ t_segments t -> d = sg_disk_id s \/ d ∈ dk_id <$> t_disks t ->
  (seg_file s ∈ t_files t <-> (d, sg_rel_path s) ∈ files) ->
  (forall f, f.2 <> sg_rel_path s -> f ∈ t_files t <-> f ∈ files) ->
  relocated t (set_segments (put_segment (with_place d k s) (t_segments t)) (set_files files t)).
Proof.
  intros [Hi Hp] Hs Hd Hown Hrest. constructor; [|done..]. cbn. unfold put_segment.
  apply Forall2_fmap_r, Forall_Forall2_diag, Forall_forall. intros x Hx. cbn.
  destruct (Z.eqb_spec (sg_id x) (sg_id s)) as [E|E].
  - assert (x = s) as -> by by eapply (nodup_key_inj sg_id). by split_and!.
  - split_and!; [by destruct x| |by left]. apply Hrest. cbn. intros Ep. apply E.
    by rewrite (nodup_key_inj sg_rel_path _ x s Hp Hx Hs Ep).
Qed.

(** A copy left at the destination is nobody's file. *)
Lemma relocated_leftover s d t :
  index_ok t -> s ∈ t_segments t -> seg_file s ∈ t_files t ->
  relocated t (set_files ({[ (d, sg_rel_path s) ]} ∪ t_files t) t).
Proof.
  intros [Hi Hp] Hs Hf. constructor; [|done..]. apply Forall_Forall2_diag, Forall_forall. intros x Hx.
  split_and!; [by destruct x| |by left]. cbn. split; [set_solver|]. intros [E%elem_of_singleton|H]%elem_of_union; [|done].
  injection E as _ Ep. by rewrite (nodup_key_inj sg_rel_path _ x s Hp Hx Hs Ep).
Qed.

Section Moves.
Context (move_file : Z * string -> Z -> move_outcome).
Notation move_segment := (move_segment move_file).

Lemma move_segment_relocated s dst t :
  index_ok t -> s ∈ t_segments t -> dk_id dst ∈ dk_id <$> t_disks t -> relocated t (snd (move_segment s dst t)).
Proof.
  intros Hok Hs Hd. unfold Sweep.move_segment. case_bool_decide as Hf; [|reflexivity].
  destruct (move_file _ _) as [|[]]; cbn [snd]; [|by apply relocated_leftover|reflexivity].
  apply relocated_put; [done|done|by right|set_solver|]. intros [d p] Hp. cbn in Hp. set_solver.
Qed.

Lemma put_segment_other s' x l : x ∈ l -> sg_id x <> sg_id s' -> x ∈ put_segment s' l.
Proof. intros Hx Hn. apply list_elem_of_fmap. exists x. by destruct (Z.eqb_spec (sg_id x) (sg_id s')). Qed.

Lemma move_segment_other s dst t x :
  x ∈ t_segments t -> sg_id x <> sg_id s -> x ∈ t_segments (snd (move_segment s dst t)).
Proof.
  intros Hx Hn. unfold Sweep.move_segment. case_bool_decide; [|done].
  destruct (move_file _ _) as [|[]]; cbn [snd]; try done. by apply put_segment_other.
Qed.

(** ** Promotion *)

Lemma promote_relocated rd s acc :
  index_ok (snd acc) -> s ∈ t_segments (snd acc) -> (forall d, d ∈ rd -> dk_id d ∈ dk_id <$> t_disks (snd acc)) ->
  relocated (snd acc) (snd (promote move_file rd s acc)).
Proof.
  destruct acc as [n t]. cbn [snd]. intros Hok Hs Hrd. unfold promote.
  assert (Hput : relocated t (set_segments (put_segment (with_place (sg_disk_id s) "record" s) (t_segments t)) t)).
  { pose proof (relocated_put s (sg_disk_id s) "record" t (t_files t) Hok Hs (or_introl eq_refl)) as R. destruct t; apply R; set_solver. }
  destruct (live_disk _ t) as [src|]; [|reflexivity]. destruct rd as [|dst rd]; [done|].
  destruct (negb _); [|done]. pose proof (move_segment_relocated s dst t Hok Hs (Hrd dst ltac:(set_solver))) as R.
  by destruct (move_segment s dst t).
Qed.

Lemma promote_other rd s acc x :
  x ∈ t_segments (snd acc) -> sg_id x <> sg_id s -> x ∈ t_segments (snd (promote move_file rd s acc)).
Proof.
  destruct acc as [n t]. cbn [snd]. intros Hx Hn. unfold promote.
  destruct (live_disk _ t) as [src|]; [|done]. destruct rd as [|dst rd]; [by apply put_segment_other|].
  destruct (negb _); [|by apply put_segment_other]. pose proof (move_segment_other s dst t x Hx Hn) as H.
  by destruct (move_segment s dst t).
Qed.

(** A loop over distinct rows of the index whose rounds relocate only their own row. *)
Lemma fold_relocated {B} (f : B * Store -> Segment -> B * Store) (segs : list Segment) (disks : list Disk) (acc : B * Store) :
  t_disks (snd acc) = disks ->
  (forall acc s, t_disks (snd acc) = disks -> index_ok (snd acc) -> s ∈ t_segments (snd acc) -> relocated (snd acc) (snd (f acc s))) ->
  (forall acc s x, x ∈ t_segments (snd acc) -> sg_id x <> sg_id s -> x ∈ t_segments (snd (f acc s))) ->
  index_ok (snd acc) -> NoDup (sg_id <$> segs) -> (forall s, s ∈ segs -> s ∈ t_segments (snd acc)) ->
  relocated (snd acc) (snd (foldl f acc segs)).
Proof.
  intros Hd Hr Ho. revert acc Hd. induction segs as [|s segs IH]; intros acc Hd Hok Hn Hin; [reflexivity|]. cbn.
  cbn in Hn. apply NoDup_cons in Hn as [Hs Hn].
  assert (R : relocated (snd acc) (snd (f acc s))) by (apply Hr; [done|done|apply Hin; set_solver]).
  etransitivity; [exact R|]. apply IH; [by rewrite (rl_disks _ _ R)|by eapply relocated_index|done|].
  intros x Hx. apply Ho; [apply Hin; set_solver|]. intros E. apply Hs. rewrite <- E. by apply list_elem_of_fmap_2.
Qed.
End Moves.

(** *** Query facts *)

Lemma query_rows (n : nat) (f : Segment -> bool) (l : list Segment) s :
  s ∈ limit n (by_start (List.filter f l)) -> s ∈ l /\ f s = true.
Proof.
  intros H%elem_of_limit. apply elem_of_filter_In. by apply (elem_of_sort_on sg_start_ts).
Qed.

Lemma query_nodup {K} (key : Segment -> K) (n : nat) (f : Segment -> bool) (l : list Segment) :
  NoDup (key <$> l) -> NoDup (key <$> limit n (by_start (List.filter f l))).
Proof.
  intros H%(filter_nodup key f). unfold limit. rewrite fmap_take. eapply sublist_NoDup; [|apply sublist_take].
  unfold by_start. by rewrite sort_on_perm.
Qed.

Section SweepTheory.
Context (move_file : Z * string -> Z -> move_outcome).

Lemma promote_all_relocated t : index_ok t -> relocated t (snd (promote_all move_file t)).
Proof.
  intros Hok. unfold promote_all.
  apply (fold_relocated (fun acc s => promote move_file (record_pool t) s acc)
           (cache_tier_older_than (sweep_cutoff t) 500 t) (t_disks t) (0, t)); cbn [snd].
  - done.
  - intros acc s Ed Hok' Hs. apply promote_relocated; [done..|]. intros d Hd. rewrite Ed. apply list_elem_of_fmap_2.
    unfold record_pool in Hd. apply elem_of_sort_on in Hd. by apply elem_of_filter_In in Hd as [? _].
  - intros. by apply promote_other.
  - done.
  - apply query_nodup, Hok.
  - intros s Hs. by apply query_rows in Hs as [].
Qed.

Lemma prune_keeps_known t s :
  index_ok t -> s ∈ t_segments t -> sg_disk_id s ∈ dk_id <$> t_disks t -> s ∈ t_segments (snd (prune_orphans t)).
Proof.
  intros [Hi _] Hs Hd. unfold prune_orphans. destruct (t_disks t) as [|d0 ds] eqn:Ed; [by apply elem_of_nil in Hd|].
  cbn. apply elem_of_filter_In. split; [done|]. apply bool_decide_eq_true. intros (x & E & Hx)%list_elem_of_fmap.
  assert (x ∈ t_segments t /\ sg_disk_id x ∉ dk_id <$> t_disks t) as [Hxs Hxd].
  { unfold orphan_rows in Hx. rewrite Ed in Hx |- *. apply elem_of_limit in Hx.
    apply elem_of_filter_In in Hx as [? ?%bool_decide_eq_true]. done. }
  rewrite (nodup_key_inj sg_id _ s x Hi Hs Hxs E), <- Ed in Hd. done.
Qed.

(** ** Evacuation *)

(** the rows an evacuation has still to try *)
Definition pending (disk_id : Z) (failed : gset Z) (t : Store) : list Segment :=
  List.filter (fun s => (sg_disk_id s =? disk_id) && bool_decide (sg_id s ∉ failed)) (t_segments t).

Definition without (s : Segment) (l : list Segment) : list Segment := List.filter (fun x => negb (sg_id x =? sg_id s)) l.

Lemma pending_after_move disk_id failed s d k files t :
  d <> disk_id ->
  pending disk_id failed (set_segments (put_segment (with_place d k s) (t_segments t)) (set_files files t)) =
  without s (pending disk_id failed t).
Proof.
  intros Hd. unfold pending, without, put_segment. cbn. induction (t_segments t) as [|x l IH]; [done|]. cbn.
  destruct (Z.eqb_spec (sg_id x) (sg_id s)) as [E|E]; cbn.
  - rewrite (proj2 (Z.eqb_neq d disk_id)) by done. cbn. rewrite IH. destruct (_ && _); cbn; [|done].
    by rewrite E, Z.eqb_refl.
  - rewrite IH. destruct (_ && _); cbn; [|done]. by rewrite (proj2 (Z.eqb_neq _ _) E).
Qed.

Lemma pending_after_failure disk_id failed s t t' :
  t_segments t' = t_segments t -> pending disk_id ({[ sg_id s ]} ∪ failed) t' = without s (pending disk_id failed t).
Proof.
  intros E. unfold pending, without. rewrite E. clear E. induction (t_segments t) as [|x l IH]; [done|]. cbn. rewrite IH.
  destruct (sg_disk_id x =? disk_id); cbn; [|done].
  destruct (Z.eqb_spec (sg_id x) (sg_id s)) as [E|E].
  - rewrite bool_decide_eq_false_2 by set_solver. case_bool_decide; cbn; [|done]. by rewrite E, Z.eqb_refl.
  - rewrite (bool_decide_ext (sg_id x ∉ {[sg_id s]} ∪ failed) (sg_id x ∉ failed)) by set_solver.
    case_bool_decide; cbn; [|done]. by rewrite (proj2 (Z.eqb_neq _ _) E).
Qed.

Lemma without_length s l :
  NoDup (sg_id <$> l) -> s ∈ l -> length l = S (length (without s l)).
Proof.
  unfold without. induction l as [|x l IH]; intros Hn Hs; [by apply elem_of_nil in Hs|]. cbn in *.
  apply NoDup_cons in Hn as [Hx Hn]. apply elem_of_cons in Hs as [->|Hs].
  - rewrite Z.eqb_refl. cbn. f_equal. symmetry. rewrite (filter_true_id); [done|].
    intros y Hy. apply negb_true_iff, Z.eqb_neq. intros E. apply Hx. rewrite <- E. by apply list_elem_of_fmap_2.
  - destruct (Z.eqb_spec (sg_id x) (sg_id s)) as [E|E]; cbn.
    + exfalso. apply Hx. rewrite E. by apply list_elem_of_fmap_2.
    + by rewrite <- IH.
Qed.

(** The OS would not move the file, or it was not there. *)
Definition refused (dst : Disk) (t : Store) (s : Segment) : Prop :=
  seg_file s ∉ t_files t \/ exists l, move_file (seg_file s) (dk_id dst) = MoveFailed l.

(** What holds between rounds, from the store [t0] the task started with. *)
Record evac_inv (disk_id : Z) (dst : Disk) (t0 : Store) (moved : Z) (failed : gset Z) (t : Store) : Prop := {
  ei_reloc : relocated t0 t;
  ei_ok : index_ok t0;
  ei_failed : forall i, i ∈ failed -> exists s, s ∈ t_segments t0 /\ s ∈ t_segments t /\ sg_id s = i /\
                sg_disk_id s = disk_id /\ refused dst t0 s;
  ei_count : moved + Z.of_nat (size failed) + Z.of_nat (length (pending disk_id failed t)) =
             Z.of_nat (length (pending disk_id ∅ t0));
  ei_rows : forall s, s ∈ t_segments t -> s ∈ t_segments t0 \/ (sg_disk_id s = dk_id dst /\ seg_file s ∈ t_files t)
}.

Lemma elem_of_pending disk_id failed t s :
  s ∈ pending disk_id failed t <-> s ∈ t_segments t /\ sg_disk_id s = disk_id /\ sg_id s ∉ failed.
Proof. unfold pending. by rewrite elem_of_filter_In, andb_true_iff, Z.eqb_eq, bool_decide_eq_true. Qed.

Lemma elem_of_without s x l : x ∈ without s l <-> x ∈ l /\ sg_id x <> sg_id s.
Proof. unfold without. by rewrite elem_of_filter_In, negb_true_iff, Z.eqb_neq. Qed.

Lemma relocated_elem t t' s : relocated t t' -> index_ok t -> s ∈ t_segments t -> s ∈ t_segments t' ->
  seg_file s ∈ t_files t <-> seg_file s ∈ t_files t'.
Proof.
  intros R Hok Hs Hs'. destruct (relocated_row t t' s R Hs) as (s' & H' & E & Hf).
  assert (s' = s) as ->; [|done]. destruct (relocated_index t t' R Hok) as [Hi _].
  apply (nodup_key_inj sg_id _ s' s Hi); [done|done|]. by rewrite E.
Qed.

(** A row both stores have, in the inventory of the target or untouched. *)
Lemma ei_rows_step dst t0 t t' x :
  relocated t t' -> index_ok t -> x ∈ t_segments t -> x ∈ t_segments t' ->
  x ∈ t_segments t0 \/ (sg_disk_id x = dk_id dst /\ seg_file x ∈ t_files t) ->
  x ∈ t_segments t0 \/ (sg_disk_id x = dk_id dst /\ seg_file x ∈ t_files t').
Proof. intros R Hok Hx Hx' [H|[Hd H]]; [by left|right]. split; [done|]. by apply (relocated_elem t t' x). Qed.

Lemma evac_inv_failed disk_id dst t0 moved failed t t' s :
  evac_inv disk_id dst t0 moved failed t -> s ∈ pending disk_id failed t -> s ∈ t_segments t0 ->
  t_segments t' = t_segments t -> relocated t t' -> refused dst t0 s ->
  evac_inv disk_id dst t0 moved ({[ sg_id s ]} ∪ failed) t'.
Proof.
  intros [R Hok Hf Hc Hr] Hs Hin0 Eseg R' Href. pose proof (relocated_index _ _ R Hok) as Hok'.
  pose proof (proj1 (elem_of_pending _ _ _ _) Hs) as (Hin & Hdk & Hnf). constructor.
  - by etransitivity.
  - done.
  - intros i [->%elem_of_singleton|Hi]%elem_of_union; [by exists s; rewrite Eseg|].
    destruct (Hf i Hi) as (x & ? & ? & ?). exists x. by rewrite Eseg.
  - rewrite (pending_after_failure disk_id failed s t t' Eseg), <- Hc, (without_length s (pending disk_id failed t));
      [|by apply filter_nodup, Hok'|done].
    rewrite size_union, size_singleton by set_solver. lia.
  - intros x Hx. rewrite Eseg in Hx. apply (ei_rows_step dst t0 t); [done|done|done|by rewrite Eseg|by apply Hr].
Qed.

Lemma evac_inv_moved disk_id dst t0 moved failed t s :
  dk_id dst <> disk_id -> evac_inv disk_id dst t0 moved failed t -> s ∈ pending disk_id failed t ->
  seg_file s ∈ t_files t ->
  let t' := set_segments (put_segment (with_place (dk_id dst) "record" s) (t_segments t))
              (set_files ({[ (dk_id dst, sg_rel_path s) ]} ∪ (t_files t ∖ {[ seg_file s ]})) t) in
  relocated t t' -> evac_inv disk_id dst t0 (moved + 1) failed t'.
Proof.
  intros Hd [R Hok Hf Hc Hr] Hs Hfile t' R'. pose proof (relocated_index _ _ R Hok) as Hok'.
  pose proof (proj1 (elem_of_pending _ _ _ _) Hs) as (Hin & Hdk & Hnf). constructor.
  - by etransitivity.
  - done.
  - intros i Hi. destruct (Hf i Hi) as (x & ? & ? & ? & ? & ?). exists x. split_and!; try done.
    apply put_segment_other; [done|]. cbn. congruence.
  - unfold t'. rewrite pending_after_move, <- Hc, (without_length s (pending disk_id failed t)); [lia| |done|done].
    by apply filter_nodup, Hok'.
  - intros x Hx. pose proof Hx as (y & E & Hy)%list_elem_of_fmap.
    destruct (Z.eqb_spec (sg_id y) (sg_id (with_place (dk_id dst) "record" s))) as [Ey|Ey]; subst x.
    + right. cbn. split; [done|]. set_solver.
    + apply (ei_rows_step dst t0 t); [done..|by apply Hr].
Qed.

(** One move. *)
Lemma evac_step disk_id dst t0 moved failed t s :
  dk_id dst <> disk_id -> dk_id dst ∈ dk_id <$> t_disks t0 ->
  evac_inv disk_id dst t0 moved failed t -> s ∈ pending disk_id failed t ->
  let '(ok, t') := move_segment move_file s dst t in
  let failed' := if ok then failed else {[ sg_id s ]} ∪ failed in
  evac_inv disk_id dst t0 (if ok then moved + 1 else moved) failed' t' /\
  pending disk_id failed' t' = without s (pending disk_id failed t).
Proof.
  intros Hd Hk Hinv Hs. pose proof Hinv as [R Hok _ _ Hr]. pose proof (proj1 (elem_of_pending _ _ _ _) Hs) as (Hin & Hdk & _).
  rewrite <- (rl_disks _ _ R) in Hk.
  pose proof (move_segment_relocated move_file s dst t (relocated_index _ _ R Hok) Hin Hk) as R'.
  assert (Hin0 : s ∈ t_segments t0) by (destruct (Hr s Hin) as [?|[? _]]; [done|congruence]).
  pose proof (relocated_elem t0 t s R Hok Hin0 Hin) as Hfile. unfold move_segment in *. fold (seg_file s) in *.
  destruct (bool_decide (seg_file s ∈ t_files t)) eqn:Eb; [apply bool_decide_eq_true in Eb|apply bool_decide_eq_false in Eb].
  - destruct (move_file (seg_file s) (dk_id dst)) as [|l] eqn:Em; cbn [snd] in R'.
    + split; [by apply evac_inv_moved|by apply pending_after_move].
    + assert (t_segments (if l then set_files ({[(dk_id dst, sg_rel_path s)]} ∪ t_files t) t else t) = t_segments t) as E
        by by destruct l.
      split; [|by apply pending_after_failure]. apply (evac_inv_failed disk_id dst t0 moved failed t); [done..|].
      right. by exists l.
  - split; [|by apply pending_after_failure]. apply (evac_inv_failed disk_id dst t0 moved failed t); [done..|].
    left. tauto.
Qed.

Lemma evac_batch_inv disk_id dst targets t0 batch : forall moved failed t,
  max_on usable_free_bytes targets = Some dst -> dk_id dst <> disk_id -> dk_id dst ∈ dk_id <$> t_disks t0 ->
  evac_inv disk_id dst t0 moved failed t -> NoDup (sg_id <$> batch) -> (forall s, s ∈ batch -> s ∈ pending disk_id failed t) ->
  let '(moved', failed', t') := evac_batch move_file targets batch moved failed t in
  evac_inv disk_id dst t0 moved' failed' t' /\
  (length (pending disk_id failed' t') + length batch = length (pending disk_id failed t))%nat.
Proof.
  induction batch as [|s batch IH]; intros moved failed t Hdst Hd Hk Hinv Hn Hin; [by cbn; split; [|lia]|].
  cbn [evac_batch]. rewrite Hdst. cbn in Hn. apply NoDup_cons in Hn as [Hs Hn].
  assert (Hsp : s ∈ pending disk_id failed t) by (apply Hin; set_solver).
  pose proof (evac_step disk_id dst t0 moved failed t s Hd Hk Hinv Hsp) as H.
  destruct (move_segment move_file s dst t) as [ok t']. destruct H as [Hinv' Ep].
  assert (Hlen : length (pending disk_id failed t) = S (length (without s (pending disk_id failed t)))).
  { apply without_length; [|done]. apply filter_nodup. apply (relocated_index t0 t); apply Hinv. }
  assert (Hin' : forall x, x ∈ batch -> x ∈ pending disk_id (if ok then failed else {[ sg_id s ]} ∪ failed) t').
  { intros x Hx. rewrite Ep. apply elem_of_without. split; [apply Hin; set_solver|]. intros E. apply Hs.
    rewrite <- E. by apply list_elem_of_fmap_2. }
  destruct ok; specialize (IH _ _ t' Hdst Hd Hk Hinv' Hn Hin'); rewrite Ep in IH;
    destruct (evac_batch _ _ _ _ _ _) as [[m f] t'']; cbn [length]; destruct IH; (split; [done|lia]).
Qed.

(** A round finds something to try as long as something is pending: rows that
    failed already cannot fill the query's limit, which grows with them. *)
Lemma evac_query disk_id failed t :
  NoDup (sg_id <$> t_segments t) ->
  let batch := List.filter (fun s => bool_decide (sg_id s ∉ failed)) (oldest_on_disk disk_id (200 + size failed) t) in
  NoDup (sg_id <$> batch) /\ (forall s, s ∈ batch -> s ∈ pending disk_id failed t) /\
  (batch = [] -> pending disk_id failed t = []).
Proof.
  intros Hn batch. assert (Hq : NoDup (sg_id <$> oldest_on_disk disk_id (200 + size failed) t)) by by apply query_nodup.
  split_and!.
  - by apply filter_nodup.
  - intros s [Hs Hf%bool_decide_eq_true]%elem_of_filter_In. apply query_rows in Hs as [Hs Hd%Z.eqb_eq].
    by apply elem_of_pending.
  - intros Eb. assert (Hall : forall s, s ∈ oldest_on_disk disk_id (200 + size failed) t -> sg_id s ∈ failed).
    { intros s Hs. destruct (decide (sg_id s ∈ failed)) as [?|Hf]; [done|]. assert (s ∈ batch) as H; [|by rewrite Eb in H; apply elem_of_nil in H].
      apply elem_of_filter_In. by rewrite bool_decide_eq_true. }
    assert (Hlen : (length (oldest_on_disk disk_id (200 + size failed) t) <= size failed)%nat).
    { rewrite <- (length_fmap sg_id), <- (size_list_to_set (C:=gset Z)) by done. apply subseteq_size.
      intros i (s & -> & Hs)%elem_of_list_to_set%list_elem_of_fmap. by apply Hall. }
    unfold oldest_on_disk, limit in *. rewrite length_take in Hlen. rewrite take_ge in Hall by lia.
    destruct (pending disk_id failed t) as [|s l] eqn:Ep; [done|]. exfalso.
    assert (s ∈ pending disk_id failed t) as (Hs & Hd & Hf)%elem_of_pending by (rewrite Ep; set_solver).
    apply Hf, Hall. unfold by_start. rewrite sort_on_perm. apply elem_of_filter_In. by rewrite Z.eqb_eq.
Qed.

Lemma evac_loop_done disk_id dst targets t0 fuel : forall moved failed t,
  max_on usable_free_bytes targets = Some dst -> dk_id dst <> disk_id -> dk_id dst ∈ dk_id <$> t_disks t0 ->
  evac_inv disk_id dst t0 moved failed t -> (length (pending disk_id failed t) < fuel)%nat ->
  exists moved' failed' t', evac_loop move_file fuel disk_id targets moved failed t = Some (moved', failed', t') /\
    evac_inv disk_id dst t0 moved' failed' t' /\ pending disk_id failed' t' = [].
Proof.
  induction fuel as [|fuel IH]; intros moved failed t Hdst Hd Hk Hinv Hlt; [lia|]. cbn [evac_loop].
  destruct (evac_query disk_id failed t) as (Hn & Hsub & Hend).
  { apply (relocated_index t0 t); apply Hinv. }
  set (batch := List.filter _ (oldest_on_disk _ _ _)) in *. pose proof (evac_batch_inv disk_id dst targets t0 batch) as Hb.
  destruct batch as [|s batch]; [exists moved, failed, t; split_and!; [done..|by apply Hend]|].
  specialize (Hb moved failed t Hdst Hd Hk Hinv Hn Hsub).
  destruct (evac_batch _ _ _ _ _ _) as [[m f] t'] eqn:E. destruct Hb as [Hinv' Hlen]. cbn in Hlen.
  apply IH; [done..|lia].
Qed.

Lemma evac_inv_start disk_id dst t : index_ok t -> evac_inv disk_id dst t 0 ∅ t.
Proof.
  intros Hok. constructor; [reflexivity|done|set_solver|rewrite size_empty; lia|by left].
Qed.

Lemma evac_targets_other disk_id t dst :
  max_on usable_free_bytes (evac_targets disk_id t) = Some dst ->
  dk_id dst <> disk_id /\ dk_id dst ∈ dk_id <$> t_disks t.
Proof.
  intros [H _]%max_on_Some. unfold evac_targets in H. apply elem_of_filter_In in H as [H1 H2%negb_true_iff%Z.eqb_neq].
  split; [done|]. apply list_elem_of_fmap_2. by apply elem_of_filter_In in H1 as [? _].
Qed.

(** The task run to its end, with the invariant of its last round. *)
Lemma evacuate_disk_done disk_id t dst :
  index_ok t -> disk_id ∈ dk_id <$> t_disks t ->
  max_on usable_free_bytes (evac_targets disk_id t) = Some dst ->
  exists moved failed t',
    evacuate_disk move_file (S (length (t_segments t))) disk_id t = Some (EvacDone moved (Z.of_nat (size failed)), t') /\
    evac_inv disk_id dst t moved failed t' /\ pending disk_id failed t' = [].
Proof.
  intros Hok Hdisk Hdst. destruct (evac_targets_other _ _ _ Hdst) as [Hd Hk].
  destruct (evac_loop_done disk_id dst (evac_targets disk_id t) t (S (length (t_segments t))) 0 ∅ t Hdst Hd Hk)
    as (m & f & t' & E & Hinv & Hend).
  - by apply evac_inv_start.
  - apply Nat.lt_succ_r. unfold pending. apply filter_length_le.
  - exists m, f, t'. split_and!; [|done..]. unfold evacuate_disk.
    destruct (evac_targets disk_id t) as [|d0 ds] eqn:Et; [done|].
    assert (existsb (fun d => dk_id d =? disk_id) (t_disks t) = true) as ->.
    { apply existsb_exists. apply list_elem_of_fmap in Hdisk as (d & -> & Hin). exists d.
      split; [by apply list_elem_of_In|apply Z.eqb_refl]. }
    by rewrite E.
Qed.

(** C16: Evacuating a disk always comes to an end, its unbounded loop included: one
    round more than there are index rows is enough.  Every segment that was on the
    disk is then indexed, as the same footage, on the target with the most usable
    space, where its file is, or is untouched because the OS refused the move or
    the file was missing; the two numbers reported add up to what was there. *)
Theorem evacuation_completes disk_id t dst :
  index_ok t -> disk_id ∈ dk_id <$> t_disks t ->
  max_on usable_free_bytes (evac_targets disk_id t) = Some dst ->
  exists moved failed t',
    evacuate_disk move_file (S (length (t_segments t))) disk_id t = Some (EvacDone moved failed, t') /\
    moved + failed = count_on (fun s => sg_disk_id s =? disk_id) (t_segments t) /\
    forall s, s ∈ t_segments t -> sg_disk_id s = disk_id ->
      (s ∈ t_segments t' /\ refused dst t s) \/
      exists s', s' ∈ t_segments t' /\ same_footage s s' /\ sg_disk_id s' = dk_id dst /\ seg_file s' ∈ t_files t'.
Proof.
  intros Hok Hdisk Hdst. destruct (evacuate_disk_done disk_id t dst Hok Hdisk Hdst) as (m & f & t' & E & Hinv & Hend).
  destruct Hinv as [R _ Hf Hc Hr]. exists m, (Z.of_nat (size f)), t'. split_and!; [done| |].
  - rewrite Hend in Hc. cbn in Hc. rewrite Z.add_0_r in Hc. rewrite Hc. unfold pending. clear.
    induction (t_segments t) as [|x l IH]; [done|]. rewrite count_on_cons. cbn [List.filter].
    rewrite bool_decide_eq_true_2, andb_true_r by set_solver. destruct (_ =? _); cbn [length]; lia.
  - intros s Hs Hd. destruct (relocated_row t t' s R Hs) as (s' & Hs' & Esame & Hfile).
    assert (Eid : sg_id s' = sg_id s) by by rewrite Esame.
    destruct (decide (sg_disk_id s' = disk_id)) as [Hd'|Hd'].
    + assert (sg_id s' ∈ f) as Hin.
      { destruct (decide (sg_id s' ∈ f)) as [?|Hn]; [done|].
        assert (s' ∈ pending disk_id f t') as H by by apply elem_of_pending. rewrite Hend in H. by apply elem_of_nil in H. }
      left. destruct (Hf _ Hin) as (x & Hx & Hx' & Ex & _ & Href).
      assert (x = s) as -> by (apply (nodup_key_inj sg_id (t_segments t)); [apply Hok|done|done|congruence]). done.
    + right. exists s'. split_and!; [done..| |].
      * destruct (Hr s' Hs') as [H0|[H1 _]]; [|done].
        exfalso. apply Hd'. assert (s' = s) as ->; [|done].
        apply (nodup_key_inj sg_id (t_segments t)); [apply Hok|done..].
      * destruct (Hr s' Hs') as [H0|[_ H2]]; [|done].
        exfalso. apply Hd'. assert (s' = s) as ->; [|done].
        apply (nodup_key_inj sg_id (t_segments t)); [apply Hok|done..].
Qed.

(** *** The promotion can starve

    The 500 rows looked at are the oldest in the cache tier, and rows whose disk is
    not registered any more are skipped without leaving the tier. *)
Lemma skipped_rounds rd segs n t :
  (forall s, s ∈ segs -> live_disk (sg_disk_id s) t = None) ->
  foldl (fun acc s => promote move_file rd s acc) (n, t) segs = (n, t).
Proof.
  induction segs as [|s segs IH]; intros H; [done|]. cbn [foldl]. unfold promote at 2. rewrite (H s) by set_solver.
  apply IH. set_solver.
Qed.

Theorem promotion_starves t :
  (forall s, s ∈ cache_tier_older_than (sweep_cutoff t) 500 t -> live_disk (sg_disk_id s) t = None) ->
  promote_all move_file t = (0, t).
Proof. apply skipped_rounds. Qed.
End SweepTheory.

(** ** Witness: disk 7 is evacuated to disk 8; the OS refuses one of the files. *)

Definition demo_move (f : Z * string) (d : Z) : move_outcome :=
  if bool_decide (f.2 = " "%string) then MoveFailed true else Moved.

Lemma demo_index_ok : index_ok demo_store.
Proof. split; decide_it. Qed.

Lemma evacuation_completes_witness :
  exists moved failed t', evacuate_disk demo_move 6 7 demo_store = Some (EvacDone moved failed, t') /\ moved + failed = 5 /\
    evacuate_disk demo_move 6 7 demo_store = Some (EvacDone 1 4, t').
Proof.
  destruct (evacuation_completes demo_move 7 demo_store (demo_disk 8) demo_index_ok ltac:(decide_it) ltac:(vm_compute; reflexivity))
    as (m & f & t' & E & Hc & _).
  exists m, f, t'. split; [exact E|]. split; [exact Hc|]. transitivity (Some (EvacDone m f, t')); [exact E|].
  assert (Hm : fst <$> evacuate_disk demo_move 6 7 demo_store = Some (EvacDone 1 4)) by (vm_compute; reflexivity).
  change (S (length (t_segments demo_store))) with 6%nat in E. rewrite E in Hm. cbn in Hm. injection Hm as -> ->. reflexivity.
Defined.
