(* ===== verification/EventPipeline.v ===== *)
(** * The event pipeline

    src/server/service/event_pipeline.py, event_policy_resolver.py,
    schedule_resolver.py, event_clip.py; model/event.py, event_policy.py,
    schedule.py, event_outbox.py; task/list/event_maintenance.py;
    controller/recording.py (manual recordings).

    One call runs at one instant of the clock of its [Store].  Ids come from a
    counter (their uniqueness is the Snowflake file's subject).  The site's UTC
    offset at an instant comes from tzdata and is a parameter.  The vendor's raw
    payload and the drawn region are not kept. *)

From stdpp Require Import pretty.
From S2P Require Import Prelude Redis Storage.

Inductive EventState := STATE_ACTIVE | STATE_ENDED | STATE_PULSE.
#[export] Instance EventState_eq_dec : EqDecision EventState.
Proof. solve_decision. Defined.

Record Event := {
  ev_id : Z;
  ev_camera_id : Z;
  ev_type : string;
  ev_subtype : option string;
  ev_state : EventState;
  ev_start_ts : Z;
  ev_end_ts : option Z;
  ev_duration_ms : option Z;
  ev_score : option Z;
  ev_source : string;
  ev_channel : option Z;
  ev_recording_id : option Z;
  ev_policy_action : option string;
  ev_dedup_key : string;
  ev_vendor_event_id : option string;
  ev_deleted_at : option Z
}.

Record EventPolicy := {
  ep_camera_id : option Z;           (* None: global *)
  ep_event_type : string;            (* a type or "*" *)
  ep_subtype : option string;
  ep_action : string;
  ep_pre_buffer_s : Z;
  ep_post_buffer_s : Z;
  ep_cooldown_s : Z;
  ep_min_score : option Z;
  ep_notify : bool;
  ep_enabled : bool;
  ep_deleted_at : option Z
}.

Record Schedule := {
  sc_camera_id : Z;
  sc_day_of_week : Z;                (* 0 = Monday *)
  sc_start_min : Z;
  sc_end_min : Z;
  sc_mode : string;
  sc_priority : Z;
  sc_enabled : bool;
  sc_deleted_at : option Z
}.

(** One pending notification: the event as published. *)
Record EventOutbox := { ob_id : Z; ob_event : Event; ob_status : string; ob_attempts : Z }.

Record NormalizedEvent := {
  n_type : string;
  n_state : string;                  (* start / end / pulse *)
  n_subtype : option string;
  n_score : option Z;
  n_channel : option Z;
  n_vendor_event_id : option string;
  n_dedup_extra : option string
}.

Record EventWorld := {
  ew_store : Store;
  ew_events : list Event;
  ew_policies : list EventPolicy;
  ew_schedules : list Schedule;
  ew_outbox : list EventOutbox;
  ew_next_id : Z
}.

Definition ew_now (w : EventWorld) : Z := t_now (ew_store w).

Definition set_store (s : Store) (w : EventWorld) : EventWorld :=
  {| ew_store := s; ew_events := ew_events w; ew_policies := ew_policies w; ew_schedules := ew_schedules w;
     ew_outbox := ew_outbox w; ew_next_id := ew_next_id w |}.
Definition set_events (l : list Event) (w : EventWorld) : EventWorld :=
  {| ew_store := ew_store w; ew_events := l; ew_policies := ew_policies w; ew_schedules := ew_schedules w;
     ew_outbox := ew_outbox w; ew_next_id := ew_next_id w |}.
Definition set_schedules (l : list Schedule) (w : EventWorld) : EventWorld :=
  {| ew_store := ew_store w; ew_events := ew_events w; ew_policies := ew_policies w; ew_schedules := l;
     ew_outbox := ew_outbox w; ew_next_id := ew_next_id w |}.
Definition set_outbox (l : list EventOutbox) (w : EventWorld) : EventWorld :=
  {| ew_store := ew_store w; ew_events := ew_events w; ew_policies := ew_policies w; ew_schedules := ew_schedules w;
     ew_outbox := l; ew_next_id := ew_next_id w |}.
Definition fresh_id (w : EventWorld) : Z * EventWorld :=
  (ew_next_id w,
   {| ew_store := ew_store w; ew_events := ew_events w; ew_policies := ew_policies w; ew_schedules := ew_schedules w;
      ew_outbox := ew_outbox w; ew_next_id := ew_next_id w + 1 |}).

(** ** Events (model/event.py) *)

Definition ev_is_active (e : Event) : bool :=
  bool_decide (ev_state e = STATE_ACTIVE) && bool_decide (ev_deleted_at e = None).

Definition exists_vendor (camera_id : Z) (vid : string) (w : EventWorld) : bool :=
  existsb (fun e => (ev_camera_id e =? camera_id) && bool_decide (ev_vendor_event_id e = Some vid)) (ew_events w).

(** latest start first *)
Definition get_active_by_dedup (key : string) (w : EventWorld) : option Event :=
  head (sort_on (fun e => - ev_start_ts e)
          (List.filter (fun e => bool_decide (ev_dedup_key e = key) && ev_is_active e) (ew_events w))).

Definition get_stale_active (older_than : Z) (n : nat) (w : EventWorld) : list Event :=
  limit n (List.filter (fun e => ev_is_active e && (ev_start_ts e <? older_than)) (ew_events w)).

Definition event_get_by_id (id : Z) (w : EventWorld) : option Event :=
  List.find (fun e => (ev_id e =? id) && bool_decide (ev_deleted_at e = None)) (ew_events w).

(** A committed row replaces the row with its id. *)
Definition put_event (e : Event) (l : list Event) : list Event :=
  (fun x => if ev_id x =? ev_id e then e else x) <$> l.

Definition close_event (end_ : Z) (e : Event) : Event :=
  {| ev_id := ev_id e; ev_camera_id := ev_camera_id e; ev_type := ev_type e; ev_subtype := ev_subtype e;
     ev_state := STATE_ENDED; ev_start_ts := ev_start_ts e; ev_end_ts := Some end_;
     ev_duration_ms := Some (Z.max 0 ((end_ - ev_start_ts e) ÷ 1000));
     ev_score := ev_score e; ev_source := ev_source e; ev_channel := ev_channel e;
     ev_recording_id := ev_recording_id e; ev_policy_action := ev_policy_action e; ev_dedup_key := ev_dedup_key e;
     ev_vendor_event_id := ev_vendor_event_id e; ev_deleted_at := ev_deleted_at e |}.

Definition with_action (a : string) (e : Event) : Event :=
  {| ev_id := ev_id e; ev_camera_id := ev_camera_id e; ev_type := ev_type e; ev_subtype := ev_subtype e;
     ev_state := ev_state e; ev_start_ts := ev_start_ts e; ev_end_ts := ev_end_ts e;
     ev_duration_ms := ev_duration_ms e; ev_score := ev_score e; ev_source := ev_source e; ev_channel := ev_channel e;
     ev_recording_id := ev_recording_id e; ev_policy_action := Some a; ev_dedup_key := ev_dedup_key e;
     ev_vendor_event_id := ev_vendor_event_id e; ev_deleted_at := ev_deleted_at e |}.

Definition with_recording (r : Z) (e : Event) : Event :=
  {| ev_id := ev_id e; ev_camera_id := ev_camera_id e; ev_type := ev_type e; ev_subtype := ev_subtype e;
     ev_state := ev_state e; ev_start_ts := ev_start_ts e; ev_end_ts := ev_end_ts e;
     ev_duration_ms := ev_duration_ms e; ev_score := ev_score e; ev_source := ev_source e; ev_channel := ev_channel e;
     ev_recording_id := Some r; ev_policy_action := ev_policy_action e; ev_dedup_key := ev_dedup_key e;
     ev_vendor_event_id := ev_vendor_event_id e; ev_deleted_at := ev_deleted_at e |}.

Definition soft_delete_event (at_ : Z) (e : Event) : Event :=
  {| ev_id := ev_id e; ev_camera_id := ev_camera_id e; ev_type := ev_type e; ev_subtype := ev_subtype e;
     ev_state := ev_state e; ev_start_ts := ev_start_ts e; ev_end_ts := ev_end_ts e;
     ev_duration_ms := ev_duration_ms e; ev_score := ev_score e; ev_source := ev_source e; ev_channel := ev_channel e;
     ev_recording_id := ev_recording_id e; ev_policy_action := ev_policy_action e; ev_dedup_key := ev_dedup_key e;
     ev_vendor_event_id := ev_vendor_event_id e; ev_deleted_at := Some at_ |}.

Definition put_ev (e : Event) (w : EventWorld) : EventWorld := set_events (put_event e (ew_events w)) w.

(** ** Which policy applies (event_policy_resolver.py) *)

Definition get_candidates (camera_id : Z) (event_type : string) (w : EventWorld) : list EventPolicy :=
  List.filter (fun p => bool_decide (ep_deleted_at p = None) && ep_enabled p &&
      (bool_decide (ep_camera_id p = Some camera_id) || bool_decide (ep_camera_id p = None)) &&
      (bool_decide (ep_event_type p = event_type) || bool_decide (ep_event_type p = "*"%string))) (ew_policies w).

Definition rank (p : EventPolicy) (camera_id : Z) (event_type : string) (subtype : option string) : Z :=
  (if bool_decide (ep_camera_id p = Some camera_id) then 1000 else 0) +
  (if bool_decide (ep_event_type p = event_type) then 100
   else if bool_decide (ep_event_type p = "*"%string) then 10 else 0) +
  (if truthy_str (ep_subtype p) && truthy_str subtype && bool_decide (ep_subtype p = subtype) then 5 else 0).

(** a subtype-specific policy excludes other subtypes *)
Definition subtype_excludes (p : EventPolicy) (subtype : option string) : bool :=
  truthy_str (ep_subtype p) && negb (bool_decide (ep_subtype p = Some (or_str subtype ""))).

Fixpoint resolve_loop (camera_id : Z) (event_type : string) (subtype : option string) (l : list EventPolicy)
    (best : option EventPolicy) (best_rank : Z) : option EventPolicy :=
  match l with
  | [] => best
  | p :: r =>
      if subtype_excludes p subtype then resolve_loop camera_id event_type subtype r best best_rank
      else let k := rank p camera_id event_type subtype in
           if best_rank <? k then resolve_loop camera_id event_type subtype r (Some p) k
           else resolve_loop camera_id event_type subtype r best best_rank
  end.

Definition resolve (camera_id : Z) (event_type : string) (subtype : option string) (w : EventWorld) : option EventPolicy :=
  resolve_loop camera_id event_type subtype (get_candidates camera_id event_type w) None (-1).

(** ** Which schedule applies (schedule_resolver.py) *)

Definition MINUTE : Z := 60 * SEC.
Definition DAY : Z := 86400 * SEC.
(** 1970-01-01 was a Thursday; Monday is 0. *)
Definition weekday (local : Z) : Z := (local / DAY + 3) mod 7.
Definition minute_of_day (local : Z) : Z := (local mod DAY) / MINUTE.

Definition get_for_camera_dow (camera_id dow : Z) (w : EventWorld) : list Schedule :=
  List.filter (fun s => (sc_camera_id s =? camera_id) && (sc_day_of_week s =? dow) &&
    bool_decide (sc_deleted_at s = None) && sc_enabled s) (ew_schedules w).

Section Pipeline.
(** offset of the site's time zone from UTC at an instant, in microseconds *)
Context (utc_offset : Z -> Z).

Definition mode (camera_id ts_utc : Z) (w : EventWorld) : string :=
  let local := ts_utc + utc_offset ts_utc in
  let minute := minute_of_day local in
  let applicable := List.filter (fun r => (sc_start_min r <=? minute) && (minute <? sc_end_min r))
                      (get_for_camera_dow camera_id (weekday local) w) in
  match max_on sc_priority applicable with
  | None => "continuous"%string
  | Some r => sc_mode r
  end.

(** ** Policy action × schedule mode *)

Definition combine (action mode event_type : string) : string :=
  let motion_gate := bool_decide (mode = "motion_only"%string) && negb (bool_decide (event_type = "motion"%string)) in
  if bool_decide (action = "discard"%string) then "discard"
  else if bool_decide (action = "notify_only"%string) then
    if motion_gate then "discard" else "notify_only"
  else if bool_decide (action = "timelapse"%string) then
    if bool_decide (mode = "off"%string) then "discard" else if motion_gate then "discard" else "timelapse"
  else if bool_decide (action = "record"%string) then
    if bool_decide (mode = "off"%string) then "discard" else if motion_gate then "discard" else "record"
  else "discard".

(** ** Cooldown *)

Definition cooldown_key (dedup : string) : string := "axp:event:cooldown:" +:+ dedup.

(** an unreachable Redis counts as "not in cooldown" *)
Definition within_cooldown (dedup : string) (w : EventWorld) : bool :=
  default false (r_exists (ew_now w) (cooldown_key dedup) (t_redis (ew_store w))).

Definition mark_trigger (dedup : string) (cooldown_s : Z) (w : EventWorld) : EventWorld :=
  match r_setex (ew_now w) (cooldown_key dedup) (Z.max 1 cooldown_s) (RText "1") (t_redis (ew_store w)) with
  | Some r => set_store (set_t_redis r (ew_store w)) w
  | None => w
  end.

(** ** The clip of an event (event_clip.py) *)

Definition clip_start (e : Event) (pre_s : Z) (t : Store) : Z :=
  let cache := match get_for_camera (ev_camera_id e) t with
               | Some p => or_Z (sp_cache_buffer_seconds p) 60 | None => 60 end in
  ev_start_ts e - Z.min pre_s cache * SEC.
(** [ev.end_ts or utcnow()] *)
Definition clip_end (e : Event) (post_s : Z) (t : Store) : Z := default (t_now t) (ev_end_ts e) + post_s * SEC.

Definition materialize (event_id pre_s post_s : Z) (w : EventWorld) : option Recording * EventWorld :=
  match event_get_by_id event_id w with
  | None => (None, w)
  | Some e =>
      let t := ew_store w in
      let start := clip_start e pre_s t in
      let end_ := clip_end e post_s t in
      let '(rec_, w1) :=
        match find_overlapping (ev_camera_id e) start end_ "event" t with
        | Some existing =>
            let r := extend_rec start end_ existing in
            (r, set_store (set_recordings (put_recording r (t_recordings t)) t) w)
        | None =>
            let '(id, w1) := fresh_id w in
            let r := new_recording id (ev_camera_id e) "event" "event" start (Some end_) None in
            (r, set_store (set_recordings (t_recordings t ++ [r]) t) w1)
        end in
      (Some rec_, put_ev (with_recording (rc_id rec_) e) w1)
  end.

(** ** One normalized event *)

Definition opt_str (o : option string) : string := default "None"%string o.
Definition opt_int (o : option Z) : string := match o with Some z => pretty z | None => "None" end.

Definition dedup_key (camera_id : Z) (n : NormalizedEvent) : string :=
  let base := pretty camera_id +:+ ":" +:+ n_type n +:+ ":" +:+ opt_str (n_subtype n) +:+ ":" +:+ opt_int (n_channel n) in
  if truthy_str (n_dedup_extra n) then base +:+ ":" +:+ default "" (n_dedup_extra n) else base.

Definition create (camera_id : Z) (n : NormalizedEvent) (source dedup : string) (ts : Z) (st : EventState) (w : EventWorld)
    : Event * EventWorld :=
  let '(id, w1) := fresh_id w in
  let e := {| ev_id := id; ev_camera_id := camera_id; ev_type := n_type n; ev_subtype := n_subtype n; ev_state := st;
              ev_start_ts := ts; ev_end_ts := None; ev_duration_ms := None; ev_score := n_score n; ev_source := source;
              ev_channel := n_channel n; ev_recording_id := None; ev_policy_action := None; ev_dedup_key := dedup;
              ev_vendor_event_id := n_vendor_event_id n; ev_deleted_at := None |} in
  (e, set_events (ew_events w1 ++ [e]) w1).

Definition publish (e : Event) (w : EventWorld) : EventWorld :=
  let '(id, w1) := fresh_id w in
  set_outbox (ew_outbox w1 ++ [{| ob_id := id; ob_event := e; ob_status := "pending"; ob_attempts := 0 |}]) w1.

(** From the policy on; [w] already holds the row [e]. *)
Definition act (camera_id : Z) (n : NormalizedEvent) (dedup : string) (e : Event) (w : EventWorld) : Event * EventWorld :=
  let set_action a := (with_action a e, put_ev (with_action a e) w) in
  match resolve camera_id (n_type n) (n_subtype n) w with
  | None => (e, w)
  | Some p =>
      if negb (ep_enabled p) then (e, w)
      else if match ep_min_score p with Some m => or_Z (n_score n) 0 <? m | None => false end
      then set_action "discard:score"%string
      else if within_cooldown dedup w then set_action "discard:cooldown"%string
      else
        let action := combine (ep_action p) (mode camera_id (ev_start_ts e) w) (n_type n) in
        let '(e1, w1) := set_action action in
        let '(e2, w2) :=
          if bool_decide (action = "record"%string) then
            let '(r, w2) := materialize (ev_id e1) (ep_pre_buffer_s p) (ep_post_buffer_s p) w1 in
            (match r with Some r => with_recording (rc_id r) e1 | None => e1 end, mark_trigger dedup (ep_cooldown_s p) w2)
          else (e1, w1) in
        (e2, if negb (bool_decide (action = "discard"%string)) &&
                (ep_notify p || bool_decide (action = "notify_only"%string))
             then publish e2 w2 else w2)
  end.

Definition process (camera_id : Z) (n : NormalizedEvent) (source : string) (w : EventWorld) : option Event * EventWorld :=
  if match n_vendor_event_id n with Some v => truthy_str (Some v) && exists_vendor camera_id v w | None => false end
  then (None, w)
  else
    let now := ew_now w in
    let dedup := dedup_key camera_id n in
    let continue '(e, w1) := let '(e', w2) := act camera_id n dedup e w1 in (Some e', w2) in
    if bool_decide (n_state n = "start"%string) then
      match get_active_by_dedup dedup w with
      | Some e => (Some e, w)                       (* duplicate start absorbed *)
      | None => continue (create camera_id n source dedup now STATE_ACTIVE w)
      end
    else if bool_decide (n_state n = "end"%string) then
      match get_active_by_dedup dedup w with
      | None => (None, w)                           (* an end without a start is noise *)
      | Some e => let e1 := close_event now e in continue (e1, put_ev e1 w)
      end
    else continue (create camera_id n source dedup now STATE_PULSE w).
End Pipeline.

(** ** Maintenance (task/list/event_maintenance.py) *)

Definition MAX_ACTIVE_AGE_S : Z := 120.
Definition EVENT_RETENTION_DAYS : Z := 90.

Definition active_event_sweeper (w : EventWorld) : Z * EventWorld :=
  let stale := get_stale_active (ew_now w - MAX_ACTIVE_AGE_S * SEC) 1000 w in
  (Z.of_nat (length stale), foldl (fun w e => put_ev (close_event (ew_now w) e) w) w stale).

Definition cleanup_events (w : EventWorld) : EventWorld :=
  let cutoff := ew_now w - EVENT_RETENTION_DAYS * DAY in
  set_events ((fun e => if (ev_start_ts e <? cutoff) && bool_decide (ev_deleted_at e = None)
                        then soft_delete_event (ew_now w) e else e) <$> ew_events w) w.

(** [Schedule.replace_for_camera] *)
Definition delete_schedule (at_ : Z) (s : Schedule) : Schedule :=
  {| sc_camera_id := sc_camera_id s; sc_day_of_week := sc_day_of_week s; sc_start_min := sc_start_min s;
     sc_end_min := sc_end_min s; sc_mode := sc_mode s; sc_priority := sc_priority s; sc_enabled := sc_enabled s;
     sc_deleted_at := Some at_ |}.
Definition replace_for_camera (camera_id : Z) (rules : list (Z * Z * Z * string * Z)) (w : EventWorld) : EventWorld :=
  set_schedules
    (((fun s => if (sc_camera_id s =? camera_id) && bool_decide (sc_deleted_at s = None)
                then delete_schedule (ew_now w) s else s) <$> ew_schedules w) ++
     ((fun '(dow, from, to, m, prio) =>
         {| sc_camera_id := camera_id; sc_day_of_week := dow; sc_start_min := from; sc_end_min := to; sc_mode := m;
            sc_priority := prio; sc_enabled := true; sc_deleted_at := None |}) <$> rules)) w.

(** ** The most specific policy *)

(** Documented order: camera before global, exact type before "*", subtype before none. *)
Definition specificity (p : EventPolicy) (camera_id : Z) (event_type : string) (subtype : option string) : bool * bool * bool :=
  (bool_decide (ep_camera_id p = Some camera_id), bool_decide (ep_event_type p = event_type),
   truthy_str (ep_subtype p) && truthy_str subtype && bool_decide (ep_subtype p = subtype)).

Definition spec_le (a b : bool * bool * bool) : Prop :=
  let '(c1, t1, s1) := a in let '(c2, t2, s2) := b in
  (c1 = false /\ c2 = true) \/
  c1 = c2 /\ ((t1 = false /\ t2 = true) \/ t1 = t2 /\ (s1 = true -> s2 = true)).

(** A live enabled policy for the camera or global, for the type or any, whose
    subtype (if any) is the event's. *)
Definition applies (p : EventPolicy) (camera_id : Z) (event_type : string) (subtype : option string) (w : EventWorld) : Prop :=
  p ∈ get_candidates camera_id event_type w /\ subtype_excludes p subtype = false.

Lemma resolve_loop_spec cam ty st l best k :
  match resolve_loop cam ty st l best k with
  | None => best = None /\ forall q, q ∈ l -> subtype_excludes q st = true \/ rank q cam ty st <= k
  | Some p => (best = Some p /\ (forall q, q ∈ l -> subtype_excludes q st = false -> rank q cam ty st <= k))
              \/ (p ∈ l /\ subtype_excludes p st = false /\ k < rank p cam ty st /\
                  forall q, q ∈ l -> subtype_excludes q st = false -> rank q cam ty st <= rank p cam ty st)
  end.
Proof.
  revert best k. induction l as [|x l IH]; intros best k; cbn [resolve_loop].
  { destruct best; [left|]; split; try done; intros q Hq; by apply elem_of_nil in Hq. }
  destruct (subtype_excludes x st) eqn:Hx.
  { specialize (IH best k). destruct (resolve_loop _ _ _ _ _ _) as [p|].
    - destruct IH as [[Hb IH]|(Hp & Hs & Hk & IH)]; [left|right]; split_and!; try done; try (by right);
        intros q [->|Hq]%elem_of_cons; [congruence|by apply IH|congruence|by apply IH].
    - destruct IH as [Hb IH]. split; [done|]. intros q [->|Hq]%elem_of_cons; [by left|by apply IH]. }
  destruct (Z.ltb_spec k (rank x cam ty st)) as [Hlt|Hge].
  - specialize (IH (Some x) (rank x cam ty st)). destruct (resolve_loop _ _ _ _ _ _) as [p|]; [|by destruct IH].
    right. destruct IH as [[[= ->] IH]|(Hp & Hs & Hk & IH)]; split_and!; try done; try (by constructor); try lia.
    + intros q [->|Hq]%elem_of_cons; [lia|by apply IH].
    + intros q [->|Hq]%elem_of_cons; [lia|by apply IH].
  - specialize (IH best k). destruct (resolve_loop _ _ _ _ _ _) as [p|].
    + destruct IH as [[Hb IH]|(Hp & Hs & Hk & IH)]; [left|right]; split_and!; try done; try (by right);
        intros q [->|Hq]%elem_of_cons; [lia|by apply IH|lia|by apply IH].
    + destruct IH as [Hb IH]. split; [done|]. intros q [->|Hq]%elem_of_cons; [by right|by apply IH].
Qed.

Lemma rank_nonneg p cam ty st : 0 <= rank p cam ty st.
Proof. unfold rank. repeat case_match; lia. Qed.

Lemma rank_specificity p q cam ty st w :
  p ∈ get_candidates cam ty w -> q ∈ get_candidates cam ty w ->
  rank q cam ty st <= rank p cam ty st ->
  spec_le (specificity q cam ty st) (specificity p cam ty st).
Proof.
  unfold get_candidates. rewrite !elem_of_filter_In, !andb_true_iff, !orb_true_iff.
  intros (_ & (_ & _) & Hp) (_ & (_ & _) & Hq). unfold rank, specificity, spec_le.
  set (sp := truthy_str (ep_subtype p) && truthy_str st && _). set (sq := truthy_str (ep_subtype q) && truthy_str st && _).
  set (cp := bool_decide (ep_camera_id p = _)). set (cq := bool_decide (ep_camera_id q = _)).
  set (tp := bool_decide (ep_event_type p = ty)) in *. set (tq := bool_decide (ep_event_type q = ty)) in *.
  destruct Hp as [Hp|Hp], Hq as [Hq|Hq]; rewrite ?Hp, ?Hq; clearbody sp sq cp cq tp tq;
    destruct cp, cq, sp, sq, tp, tq; cbn; intros; try discriminate; try lia; tauto.
Qed.

(** The resolver returns a policy that applies and that no applicable one
    beats in the order camera, type, subtype; it returns none only when none
    applies. *)
Theorem resolve_most_specific cam ty st w :
  match resolve cam ty st w with
  | Some p => applies p cam ty st w /\
      forall q, applies q cam ty st w -> spec_le (specificity q cam ty st) (specificity p cam ty st)
  | None => forall q, ~ applies q cam ty st w
  end.
Proof.
  unfold resolve. pose proof (resolve_loop_spec cam ty st (get_candidates cam ty w) None (-1)) as H.
  destruct (resolve_loop _ _ _ _ _ _) as [p|].
  - destruct H as [[? _]|(Hp & Hs & _ & H)]; [done|]. split; [done|]. intros q [Hq Hqs].
    eapply rank_specificity; [done..|]. by apply H.
  - destruct H as [_ H]. intros q [Hq Hqs]. pose proof (rank_nonneg q cam ty st).
    destruct (H q Hq); [congruence|lia].
Qed.

(** ** Invariant of the event table *)

Record ev_ok (w : EventWorld) : Prop := {
  eo_nodup : NoDup (ev_id <$> ew_events w);
  eo_fresh : forall e, e ∈ ew_events w -> ev_id e < ew_next_id w;
  eo_active : forall e1 e2, e1 ∈ ew_events w -> e2 ∈ ew_events w -> ev_is_active e1 = true -> ev_is_active e2 = true ->
              ev_dedup_key e1 = ev_dedup_key e2 -> e1 = e2
}.

(** [e] is [e0] later on: the same event, not revived. *)
Definition evolves (e0 e : Event) : Prop :=
  ev_id e = ev_id e0 /\ ev_dedup_key e = ev_dedup_key e0 /\ (ev_is_active e = true -> ev_is_active e0 = true).

Lemma elem_of_put_event e l x :
  x ∈ put_event e l <-> (x = e /\ exists y, y ∈ l /\ ev_id y = ev_id e) \/ (x ∈ l /\ ev_id x <> ev_id e).
Proof.
  unfold put_event. rewrite list_elem_of_fmap. split.
  - intros (y & -> & Hy). destruct (Z.eqb_spec (ev_id y) (ev_id e)); [left|right]; eauto.
  - intros [(-> & y & Hy & E)|[Hx Hne]].
    + exists y. by rewrite E, Z.eqb_refl.
    + exists x. by destruct (Z.eqb_spec (ev_id x) (ev_id e)).
Qed.

Lemma put_event_ids e l : ev_id <$> put_event e l = ev_id <$> l.
Proof.
  unfold put_event. rewrite <- list_fmap_compose. apply list_fmap_ext. intros i x _. cbn.
  by destruct (Z.eqb_spec (ev_id x) (ev_id e)).
Qed.

Lemma put_ev_ok e0 e w : ev_ok w -> e0 ∈ ew_events w -> evolves e0 e -> ev_ok (put_ev e w) /\ e ∈ ew_events (put_ev e w).
Proof.
  intros [Hn Hf Ha] H0 (Hid & Hk & Hact). split; [split|]; cbn [put_ev set_events ew_events ew_next_id].
  - by rewrite put_event_ids.
  - intros x [(-> & y & Hy & E)|[Hx _]]%elem_of_put_event; [rewrite <- E|]; by apply Hf.
  - assert (Hmix : forall x, x ∈ ew_events w -> ev_id x <> ev_id e -> ev_is_active e = true -> ev_is_active x = true ->
        ev_dedup_key e = ev_dedup_key x -> False).
    { intros x Hx Hne He Hxa E. apply Hne. rewrite Hid. f_equal. apply Ha; [done..|by apply Hact|congruence]. }
    intros x y [(-> & _)|[Hx Hxne]]%elem_of_put_event [(-> & _)|[Hy Hyne]]%elem_of_put_event Hxa Hya E;
      [done|exfalso; by eapply (Hmix y)|exfalso; by eapply (Hmix x)|by apply Ha].
  - apply elem_of_put_event. left. eauto.
Qed.

Lemma evolves_action a e : evolves e (with_action a e).
Proof. done. Qed.
Lemma evolves_recording r e : evolves e (with_recording r e).
Proof. done. Qed.
Lemma evolves_close t e : evolves e (close_event t e).
Proof. split; [done|]. by split. Qed.
#[local] Hint Resolve evolves_action evolves_recording evolves_close : axp.

Lemma ev_ok_store s w : ev_ok w -> ev_ok (set_store s w).
Proof. by intros []. Qed.

Lemma ev_ok_fresh w : ev_ok w -> ev_ok (snd (fresh_id w)).
Proof. intros [Hn Hf Ha]. split; [done| |done]. intros e He. cbn. specialize (Hf e He). lia. Qed.

Lemma mark_trigger_ok dedup c w : ev_ok w -> ev_ok (mark_trigger dedup c w).
Proof. intros H. unfold mark_trigger. case_match; [by apply ev_ok_store|done]. Qed.

Lemma publish_ok e w : ev_ok w -> ev_ok (publish e w).
Proof. intros H%ev_ok_fresh. by destruct H. Qed.

Lemma get_by_id_row e w :
  ev_ok w -> e ∈ ew_events w -> ev_deleted_at e = None -> event_get_by_id (ev_id e) w = Some e.
Proof.
  intros [Hn _ _] He Hd. unfold event_get_by_id. destruct (List.find _ _) as [x|] eqn:Ef.
  - apply find_some in Ef as [Hx%list_elem_of_In [E%Z.eqb_eq _]%andb_true_iff].
    f_equal. by apply (nodup_key_inj ev_id (ew_events w)).
  - eapply find_none in Ef; [|by apply list_elem_of_In]. cbn in Ef. rewrite Z.eqb_refl, Hd in Ef.
    by rewrite bool_decide_eq_true_2 in Ef.
Qed.

(** What materialising a live row's clip does. *)
Lemma materialize_run e pre post w :
  ev_ok w -> e ∈ ew_events w -> ev_deleted_at e = None ->
  let t := ew_store w in
  exists r w',
    materialize (ev_id e) pre post w = (Some r, w') /\
    ev_ok w' /\ with_recording (rc_id r) e ∈ ew_events w' /\
    ew_outbox w' = ew_outbox w /\ ew_policies w' = ew_policies w /\ ew_schedules w' = ew_schedules w /\
    ew_store w' = set_recordings (t_recordings (ew_store w')) t /\
    ((find_overlapping (ev_camera_id e) (clip_start e pre t) (clip_end e post t) "event" t = None /\
      r = new_recording (ew_next_id w) (ev_camera_id e) "event" "event" (clip_start e pre t) (Some (clip_end e post t)) None /\
      t_recordings (ew_store w') = t_recordings t ++ [r]) \/
     (exists old, find_overlapping (ev_camera_id e) (clip_start e pre t) (clip_end e post t) "event" t = Some old /\
      r = extend_rec (clip_start e pre t) (clip_end e post t) old /\
      t_recordings (ew_store w') = put_recording r (t_recordings t))).
Proof.
  intros Hok He Hd t. unfold materialize. rewrite get_by_id_row by done.
  destruct (find_overlapping _ _ _ _ _) as [old|] eqn:Ef.
  - eexists _, _. split; [reflexivity|].
    pose proof (ev_ok_store (set_recordings (put_recording (extend_rec (clip_start e pre t) (clip_end e post t) old)
      (t_recordings t)) t) w Hok) as Hok'.
    destruct (put_ev_ok e (with_recording (rc_id old) e) _ Hok' He (evolves_recording _ _)) as [H1 H2].
    split_and!; [exact H1|exact H2|done..|]. right. exists old. done.
  - cbn [fresh_id]. eexists _, _. split; [reflexivity|].
    pose proof (ev_ok_store (set_recordings (t_recordings t ++ [new_recording (ew_next_id w) (ev_camera_id e) "event" "event"
      (clip_start e pre t) (Some (clip_end e post t)) None]) t) (snd (fresh_id w)) (ev_ok_fresh _ Hok)) as Hok'.
    destruct (put_ev_ok e (with_recording (ew_next_id w) e) _ Hok' He (evolves_recording _ _)) as [H1 H2].
    split_and!; [exact H1|exact H2|done..|]. left. done.
Qed.

(** ** The four ends of the pipeline *)

Definition DISCARDS : list string := ["discard"; "discard:score"; "discard:cooldown"]%string.

Lemma combine_range a m ty :
  combine a m ty ∈ ["discard"; "notify_only"; "timelapse"; "record"]%string.
Proof. unfold combine. repeat case_match; cbn; set_solver. Qed.

Lemma resolve_enabled cam ty st w p : resolve cam ty st w = Some p -> ep_enabled p = true.
Proof.
  intros E. unfold resolve in E. pose proof (resolve_loop_spec cam ty st (get_candidates cam ty w) None (-1)) as H.
  rewrite E in H. destruct H as [[? _]|(Hp & _)]; [done|]. unfold get_candidates in Hp.
  apply elem_of_filter_In in Hp as [_ Hp]. rewrite !andb_true_iff in Hp. apply Hp.
Qed.

Lemma resolve_policies cam ty st w w' : ew_policies w' = ew_policies w -> resolve cam ty st w' = resolve cam ty st w.
Proof. intros E. unfold resolve, get_candidates. by rewrite E. Qed.

Section PipelineTheory.
Context (utc_offset : Z -> Z).

(** Untouched, discarded, passed on, or recorded. *)
Inductive outcome (cam : Z) (n : NormalizedEvent) (dedup : string) (e : Event) (w : EventWorld)
    : Event -> EventWorld -> Prop :=
| out_untouched : resolve cam (n_type n) (n_subtype n) w = None -> outcome cam n dedup e w e w
| out_discarded a : a ∈ DISCARDS -> outcome cam n dedup e w (with_action a e) (put_ev (with_action a e) w)
| out_passed a (b : bool) : a ∈ ["notify_only"; "timelapse"]%string ->
    outcome cam n dedup e w (with_action a e)
      (if b then publish (with_action a e) (put_ev (with_action a e) w) else put_ev (with_action a e) w)
| out_recorded p r w1 (b : bool) :
    resolve cam (n_type n) (n_subtype n) w = Some p ->
    materialize (ev_id e) (ep_pre_buffer_s p) (ep_post_buffer_s p) (put_ev (with_action "record" e) w) = (Some r, w1) ->
    let e' := with_recording (rc_id r) (with_action "record" e) in
    let w2 := mark_trigger dedup (ep_cooldown_s p) w1 in
    outcome cam n dedup e w e' (if b then publish e' w2 else w2).

Lemma act_outcome cam n dedup e w :
  ev_ok w -> e ∈ ew_events w -> ev_deleted_at e = None ->
  outcome cam n dedup e w (fst (act utc_offset cam n dedup e w)) (snd (act utc_offset cam n dedup e w)).
Proof.
  intros Hok He Hd. unfold act. destruct (resolve _ _ _ _) as [p|] eqn:Er; [|by apply out_untouched].
  rewrite (resolve_enabled _ _ _ _ _ Er). cbn [negb].
  destruct (match ep_min_score p with Some _ => _ | None => _ end); [apply out_discarded; set_solver|].
  destruct (within_cooldown dedup w); [apply out_discarded; set_solver|].
  pose proof (combine_range (ep_action p) (mode utc_offset cam (ev_start_ts e) w) (n_type n)) as Hc.
  set (a := combine _ _ _) in *. clearbody a.
  assert (Hcases : a = "discard"%string \/ a ∈ ["notify_only"; "timelapse"]%string \/ a = "record"%string) by set_solver.
  destruct Hcases as [->|[Ha| ->]].
  - cbn. apply out_discarded. set_solver.
  - rewrite (bool_decide_eq_false_2 (a = "record"%string)) by set_solver.
    rewrite (bool_decide_eq_false_2 (a = "discard"%string)) by set_solver. cbn [negb andb fst snd].
    by apply out_passed.
  - rewrite (bool_decide_eq_true_2 ("record"%string = "record"%string)) by done.
    destruct (put_ev_ok e (with_action "record" e) w Hok He (evolves_action _ _)) as [Hok1 He1].
    destruct (materialize_run (with_action "record" e) (ep_pre_buffer_s p) (ep_post_buffer_s p) _ Hok1 He1 Hd)
      as (r & w1 & Hm & _). cbn [ev_id with_action] in Hm |- *. rewrite Hm. cbn [negb andb fst snd].
    rewrite (bool_decide_eq_false_2 ("record"%string = "discard"%string)) by done. cbn [negb andb].
    by eapply out_recorded.
Qed.

(** Every end keeps the invariant and the row. *)
Lemma outcome_ok cam n dedup e w e' w' :
  ev_ok w -> e ∈ ew_events w -> ev_deleted_at e = None -> outcome cam n dedup e w e' w' ->
  ev_ok w' /\ e' ∈ ew_events w'.
Proof.
  intros Hok He Hd Ho. destruct Ho as [Hu|a Ha|a b Ha|p r w1 b Hp Hm].
  - done.
  - by eapply put_ev_ok; eauto with axp.
  - destruct (put_ev_ok e (with_action a e) w Hok He (evolves_action _ _)) as [H1 H2].
    destruct b; [|done]. split; [by apply publish_ok|done].
  - destruct (put_ev_ok e (with_action "record" e) w Hok He (evolves_action _ _)) as [H1 H2].
    destruct (materialize_run _ (ep_pre_buffer_s p) (ep_post_buffer_s p) _ H1 H2 Hd) as (r' & w' & Hm' & Hok' & Hin & _).
    cbn [ev_id with_action] in Hm'. rewrite Hm in Hm'. simplify_eq.
    assert (Hok2 : ev_ok w2) by by apply mark_trigger_ok.
    assert (Hin2 : e' ∈ ew_events w2) by (unfold w2, mark_trigger; by case_match).
    destruct b; [split; [by apply publish_ok|done]|done].
Qed.

Lemma create_ok cam n source dedup ts st w :
  ev_ok w -> (st = STATE_ACTIVE -> get_active_by_dedup dedup w = None) ->
  let '(e, w1) := create cam n source dedup ts st w in
  ev_ok w1 /\ e ∈ ew_events w1 /\ ev_deleted_at e = None /\ ew_outbox w1 = ew_outbox w /\ ew_store w1 = ew_store w /\
  ev_start_ts e = ts /\ ev_camera_id e = cam /\ ev_dedup_key e = dedup.
Proof.
  intros [Hn Hf Ha] Hst. cbn. split_and!; [split; cbn|apply elem_of_app; right; by left|done..].
  - rewrite fmap_app. apply NoDup_app. split_and!; [done| |apply NoDup_singleton].
    intros i (x & E & Hx)%list_elem_of_fmap Hi%list_elem_of_singleton. cbn in Hi. specialize (Hf _ Hx). lia.
  - intros x [Hx| ->%list_elem_of_singleton]%elem_of_app; [specialize (Hf x Hx); lia|cbn; lia].
  - set (e := Build_Event _ _ _ _ _ _ _ _ _ _ _ _ _ _ _ _).
    assert (Hnone : forall x, x ∈ ew_events w -> ev_is_active x = true -> ev_is_active e = true -> ev_dedup_key x = dedup -> False).
    { intros x Hx Hxa Hea Hk. unfold ev_is_active in Hea. apply andb_true_iff in Hea as [Hs%bool_decide_eq_true _].
      cbn in Hs. specialize (Hst Hs). unfold get_active_by_dedup in Hst.
      assert (x ∈ sort_on (fun e => - ev_start_ts e)
        (List.filter (fun e => bool_decide (ev_dedup_key e = dedup) && ev_is_active e) (ew_events w))) as Hin.
      { apply elem_of_sort_on, elem_of_filter_In. by rewrite bool_decide_eq_true_2, Hxa. }
      destruct (sort_on _ _); [by apply elem_of_nil in Hin|done]. }
    intros x y [Hx| ->%list_elem_of_singleton]%elem_of_app [Hy| ->%list_elem_of_singleton]%elem_of_app Hxa Hya E;
      [by apply Ha|destruct (Hnone x); done|destruct (Hnone y); done|done].
Qed.

Lemma get_active_row key w e :
  get_active_by_dedup key w = Some e -> e ∈ ew_events w /\ ev_is_active e = true /\ ev_dedup_key e = key.
Proof.
  unfold get_active_by_dedup. intros H. destruct (sort_on _ _) as [|x l] eqn:E; [done|]. injection H as ->.
  assert (e ∈ e :: l) as Hin by by left. rewrite <- E in Hin.
  apply elem_of_sort_on, elem_of_filter_In in Hin as (? & [?%bool_decide_eq_true ?]%andb_true_iff). done.
Qed.

Lemma is_active_live e : ev_is_active e = true -> ev_deleted_at e = None.
Proof. unfold ev_is_active. by intros [_ ?%bool_decide_eq_true]%andb_true_iff. Qed.

(** One call of [process]: nothing, or one outcome of the row it wrote. *)
Inductive processed (cam : Z) (n : NormalizedEvent) (w : EventWorld) : option Event * EventWorld -> Prop :=
| pr_nothing r :
    r = None \/ n_state n = "start"%string /\ r = get_active_by_dedup (dedup_key cam n) w -> processed cam n w (r, w)
| pr_outcome e w1 e' w' :
    ev_ok w1 -> e ∈ ew_events w1 -> ev_deleted_at e = None -> ev_dedup_key e = dedup_key cam n ->
    ew_outbox w1 = ew_outbox w -> ew_store w1 = ew_store w -> ew_policies w1 = ew_policies w ->
    ew_next_id w <= ew_next_id w1 -> outcome cam n (dedup_key cam n) e w1 e' w' -> processed cam n w (Some e', w').

Lemma process_processed cam n source w : ev_ok w -> processed cam n w (process utc_offset cam n source w).
Proof.
  intros Hok. unfold process. destruct (match n_vendor_event_id n with Some _ => _ | None => _ end); [apply pr_nothing; by left|].
  case_bool_decide; [|case_bool_decide].
  - destruct (get_active_by_dedup _ w) as [e|] eqn:Eg; [apply pr_nothing; right; by rewrite Eg|].
    pose proof (create_ok cam n source (dedup_key cam n) (ew_now w) STATE_ACTIVE w Hok (fun _ => Eg)) as Hc.
    destruct (create _ _ _ _ _ _ _) as [e w1] eqn:Ec. destruct Hc as (H1 & H2 & H3 & H4 & H5 & _ & _ & Hk).
    pose proof (act_outcome cam n (dedup_key cam n) e w1 H1 H2 H3) as Ho.
    destruct (act _ _ _ _ _ _) as [e' w']. eapply pr_outcome; try done; injection Ec as _ <-; [done|cbn; lia].
  - destruct (get_active_by_dedup _ w) as [e|] eqn:Eg; [|apply pr_nothing; by left].
    apply get_active_row in Eg as (He & Ha & Hk).
    destruct (put_ev_ok e (close_event (ew_now w) e) w Hok He (evolves_close _ _)) as [H1 H2].
    pose proof (act_outcome cam n (dedup_key cam n) _ _ H1 H2 (is_active_live e Ha)) as Ho.
    destruct (act _ _ _ _ _ _) as [e' w']. eapply pr_outcome; try done. by apply is_active_live in Ha.
  - assert (Hst : STATE_PULSE = STATE_ACTIVE -> get_active_by_dedup (dedup_key cam n) w = None) by done.
    pose proof (create_ok cam n source (dedup_key cam n) (ew_now w) STATE_PULSE w Hok Hst) as Hc.
    destruct (create _ _ _ _ _ _ _) as [e w1] eqn:Ec. destruct Hc as (H1 & H2 & H3 & H4 & H5 & _ & _ & Hk).
    pose proof (act_outcome cam n (dedup_key cam n) e w1 H1 H2 H3) as Ho.
    destruct (act _ _ _ _ _ _) as [e' w']. eapply pr_outcome; try done; injection Ec as _ <-; [done|cbn; lia].
Qed.

Lemma process_ok cam n source w : ev_ok w -> ev_ok (snd (process utc_offset cam n source w)).
Proof.
  intros Hok. destruct (process_processed cam n source w Hok) as [|e w1 e' w' H1 H2 H3 _ _ _ _ _ Ho]; [done|].
  by destruct (outcome_ok _ _ _ _ _ _ _ H1 H2 H3 Ho).
Qed.

(** ** Maintenance keeps the invariant *)

Lemma sweep_fold_ok l w :
  ev_ok w -> (forall e, e ∈ l -> exists x, x ∈ ew_events w /\ ev_id x = ev_id e /\ ev_dedup_key x = ev_dedup_key e) ->
  ev_ok (foldl (fun w e => put_ev (close_event (ew_now w) e) w) w l).
Proof.
  revert w. induction l as [|e l IH]; intros w Hok Hl; [done|]. cbn [foldl].
  destruct (Hl e ltac:(by left)) as (x & Hx & Hid & Hk).
  destruct (put_ev_ok x (close_event (ew_now w) e) w Hok Hx) as [Hok' He']; [split; [done|]; by split|].
  apply IH; [done|]. intros y Hy. destruct (Hl y ltac:(by right)) as (z & Hz & Hzi & Hzk).
  destruct (decide (ev_id z = ev_id e)) as [E|E].
  - exists (close_event (ew_now w) e). split; [done|]. cbn [ev_id ev_dedup_key close_event]. split; [congruence|].
    rewrite <- Hzk, <- Hk. f_equal. apply (nodup_key_inj ev_id (ew_events w)); [apply Hok|done|done|congruence].
  - exists z. split; [|done]. apply elem_of_put_event. right. done.
Qed.

Lemma sweeper_ok w : ev_ok w -> ev_ok (snd (active_event_sweeper w)).
Proof.
  intros Hok. apply sweep_fold_ok; [done|]. intros e He. exists e. split; [|done].
  unfold get_stale_active, limit in He. apply elem_of_take in He as (i & Hi & _).
  by apply list_elem_of_lookup_2, elem_of_filter_In in Hi as [? _].
Qed.

Lemma map_events_ok f w :
  (forall e, evolves e (f e)) -> ev_ok w -> ev_ok (set_events (f <$> ew_events w) w).
Proof.
  intros Hf [Hn Hfr Ha]. split; cbn [set_events ew_events ew_next_id].
  - rewrite <- list_fmap_compose. rewrite (list_fmap_ext _ ev_id); [done|]. intros i x _. apply Hf.
  - intros e (x & -> & Hx)%list_elem_of_fmap. destruct (Hf x) as (-> & _). by apply Hfr.
  - intros e1 e2 (x & -> & Hx)%list_elem_of_fmap (y & -> & Hy)%list_elem_of_fmap H1 H2 E.
    destruct (Hf x) as (_ & Ex & Hax), (Hf y) as (_ & Ey & Hay). f_equal. apply Ha; auto. congruence.
Qed.

Lemma cleanup_ok w : ev_ok w -> ev_ok (cleanup_events w).
Proof.
  apply map_events_ok. intros e. destruct (_ && _); [|done].
  split; [done|]. split; [done|]. unfold ev_is_active. cbn [ev_state ev_deleted_at soft_delete_event].
  by rewrite andb_false_r.
Qed.
End PipelineTheory.

(** ** Histories *)

Inductive ev_op :=
| OpEvent (cam : Z) (n : NormalizedEvent) (source : string)
| OpSweep
| OpCleanup
| OpStore (f : Store -> Store).     (* anything the other subsystems do: retention, time passing *)

Definition ev_step (utc_offset : Z -> Z) (o : ev_op) (w : EventWorld) : EventWorld :=
  match o with
  | OpEvent cam n source => snd (process utc_offset cam n source w)
  | OpSweep => snd (active_event_sweeper w)
  | OpCleanup => cleanup_events w
  | OpStore f => set_store (f (ew_store w)) w
  end.

Definition ev_run (utc_offset : Z -> Z) (w : EventWorld) (ops : list ev_op) : EventWorld :=
  foldl (fun w o => ev_step utc_offset o w) w ops.

Lemma ev_run_ok utc_offset w ops : ev_ok w -> ev_ok (ev_run utc_offset w ops).
Proof.
  revert w. induction ops as [|o ops IH]; intros w Hok; [done|]. apply IH. destruct o; cbn [ev_step].
  - by apply process_ok.
  - by apply sweeper_ok.
  - by apply cleanup_ok.
  - by apply ev_ok_store.
Qed.

Lemma ev_ok_empty w : ew_events w = [] -> ev_ok w.
Proof.
  intros E. split; rewrite E; [apply NoDup_nil_2|intros e He; by apply elem_of_nil in He|].
  intros e1 e2 He. by apply elem_of_nil in He.
Qed.

(** C7: whatever sequence of camera events, sweeps, clean-ups and changes by the other
    subsystems, there is at most one active event per deduplication key, and
    event ids stay unique. *)
Theorem one_active_event_per_key utc_offset w ops :
  ew_events w = [] ->
  let w' := ev_run utc_offset w ops in
  NoDup (ev_id <$> ew_events w') /\
  forall e1 e2, e1 ∈ ew_events w' -> e2 ∈ ew_events w' -> ev_is_active e1 = true -> ev_is_active e2 = true ->
    ev_dedup_key e1 = ev_dedup_key e2 -> e1 = e2.
Proof. intros H%ev_ok_empty w'. destruct (ev_run_ok utc_offset w ops H) as [Hn _ Ha]. done. Qed.

Definition notified (w w' : EventWorld) : Prop := ew_outbox w' <> ew_outbox w.
Definition recorded (w w' : EventWorld) : Prop := t_recordings (ew_store w') <> t_recordings (ew_store w).

Lemma mark_trigger_frame dedup c w :
  t_recordings (ew_store (mark_trigger dedup c w)) = t_recordings (ew_store w) /\
  t_segments (ew_store (mark_trigger dedup c w)) = t_segments (ew_store w) /\
  ew_outbox (mark_trigger dedup c w) = ew_outbox w /\ ew_now (mark_trigger dedup c w) = ew_now w /\
  t_policies (ew_store (mark_trigger dedup c w)) = t_policies (ew_store w).
Proof. unfold mark_trigger. by case_match. Qed.

(** Recordings change only for an event whose final action is [record], and a
    notification goes out only for [record], [timelapse] or [notify_only]: an
    event discarded by its score, the cooldown or the schedule is silent. *)
Theorem discarded_events_are_silent utc_offset cam n source w :
  ev_ok w ->
  let '(r, w') := process utc_offset cam n source w in
  (recorded w w' -> exists e, r = Some e /\ ev_policy_action e = Some "record"%string) /\
  (notified w w' -> exists e a, r = Some e /\ ev_policy_action e = Some a /\
     a ∈ ["record"; "timelapse"; "notify_only"]%string).
Proof.
  intros Hok. unfold recorded, notified. destruct (process_processed utc_offset cam n source w Hok)
    as [r|e w1 e' w' H1 H2 H3 _ Hob Hst _ _ Ho]; [done|]. rewrite <- Hob, <- Hst.
  destruct Ho as [Hu|a Ha|a b Ha|p r w2 b Hp Hm].
  - done.
  - done.
  - split; [by destruct b|]. intros _. eexists _, a. split; [done|]. split; [done|]. set_solver.
  - split; intros _; [by eexists|]. eexists _, "record"%string. split; [done|]. split; [done|]. set_solver.
Qed.

(** A repeated vendor event, a second start and an end without a start change
    nothing at all. *)
Theorem noise_changes_nothing utc_offset cam n source w :
  (exists v, n_vendor_event_id n = Some v /\ v <> ""%string /\ exists_vendor cam v w = true) \/
  (n_state n = "start"%string /\ get_active_by_dedup (dedup_key cam n) w <> None) \/
  (n_state n = "end"%string /\ get_active_by_dedup (dedup_key cam n) w = None) ->
  snd (process utc_offset cam n source w) = w.
Proof.
  unfold process. intros [(v & -> & Hv & ->)|[[-> Hg]|[-> ->]]].
  - cbn [truthy_str]. by rewrite bool_decide_eq_false_2.
  - case_match; [done|]. cbn [bool_decide]. rewrite bool_decide_eq_true_2 by done. by destruct (get_active_by_dedup _ _).
  - case_match; [done|]. rewrite bool_decide_eq_false_2, bool_decide_eq_true_2 by done. done.
Qed.

(** ** The clip *)

Definition covers (r : Recording) (a b : Z) : Prop := rc_start_ts r <= a /\ exists e, rc_end_ts r = Some e /\ b <= e.

Lemma extend_covers a b r : covers (extend_rec a b r) a b.
Proof.
  split; cbn [extend_rec rc_start_ts rc_end_ts].
  - zcases; lia.
  - destruct (rc_end_ts r) as [e|]; [|by eexists; split; [reflexivity|]]. destruct (Z.ltb_spec e b); eexists; split; try done; lia.
Qed.

Lemma find_overlapping_row cam a b reason t r :
  find_overlapping cam a b reason t = Some r ->
  r ∈ t_recordings t /\ rc_camera_id r = cam /\ rc_reason r = reason /\ rc_deleted_at r = None.
Proof.
  unfold find_overlapping. destruct (sort_on _ _) as [|x l] eqn:E; [done|]. cbn. intros [= ->].
  assert (r ∈ r :: l) as Hin by by left. rewrite <- E in Hin. apply elem_of_sort_on, elem_of_filter_In in Hin as [Hin Hf].
  rewrite !andb_true_iff, !bool_decide_eq_true, Z.eqb_eq in Hf. tauto.
Qed.

Lemma elem_of_put_recording r old l : old ∈ l -> rc_id r = rc_id old -> r ∈ put_recording r l.
Proof. intros Ho E. apply list_elem_of_fmap. exists old. by rewrite E, Z.eqb_refl. Qed.

(** Event recordings are protected unless an operator released one. *)
Definition event_recordings_protected (t : Store) : Prop :=
  forall r, r ∈ t_recordings t -> rc_reason r = "event"%string -> rc_retention_class r ∈ PROTECTED_CLASSES.

Lemma materialize_covers e pre post w r w' :
  ev_ok w -> e ∈ ew_events w -> ev_deleted_at e = None -> materialize (ev_id e) pre post w = (Some r, w') ->
  r ∈ t_recordings (ew_store w') /\ rc_camera_id r = ev_camera_id e /\ rc_reason r = "event"%string /\
  rc_deleted_at r = None /\ covers r (clip_start e pre (ew_store w)) (clip_end e post (ew_store w)) /\
  (event_recordings_protected (ew_store w) -> rc_retention_class r ∈ PROTECTED_CLASSES).
Proof.
  intros Hok He Hd Hm. destruct (materialize_run e pre post w Hok He Hd) as (r' & w'' & Hm' & _ & _ & _ & _ & _ & _ & Hc).
  rewrite Hm in Hm'. simplify_eq. destruct Hc as [(_ & -> & ->)|(old & Hf & -> & ->)].
  - split_and!; [apply elem_of_app; right; by left|done..| |cbn; set_solver].
    split; [cbn; lia|]. eexists. split; [done|lia].
  - apply find_overlapping_row in Hf as (Ho & Hcam & Hre & Hdel).
    split_and!; [by eapply elem_of_put_recording|done..|apply extend_covers|]. intros Hp. by apply (Hp old).
Qed.

Lemma covered_is_protected t r s a b :
  r ∈ t_recordings t -> rc_camera_id r = sg_camera_id s -> rc_deleted_at r = None ->
  rc_retention_class r ∈ PROTECTED_CLASSES -> covers r a b -> sg_start_ts s < b -> a < sg_end_ts s -> protected_seg t s.
Proof.
  intros Hr Hc Hd Hp (Ha & e & He & Hb) H1 H2. unfold protected_seg, overlaps. apply existsb_exists.
  exists (rc_start_ts r, e). split; [|apply andb_true_iff; rewrite !Z.ltb_lt; lia].
  apply list_elem_of_In. unfold get_protected_intervals. apply list_elem_of_fmap. exists r.
  split; [by rewrite He|]. apply elem_of_filter_In. split; [done|]. by rewrite Hc, Z.eqb_refl, !bool_decide_eq_true_2.
Qed.

(** C6: when an event ends up recorded, a live event recording linked to it
    covers [start - min(pre, cache), end + post], and every segment of its camera
    overlapping that interval survives the next retention run (camera without an
    enforced byte cap, no event recording released by an operator). *)
Theorem recorded_clip_is_kept utc_offset unlink_denied disk_usage cam n source w e w' p :
  ev_ok w -> (n_state n = "start"%string -> get_active_by_dedup (dedup_key cam n) w = None) ->
  resolve cam (n_type n) (n_subtype n) w = Some p ->
  process utc_offset cam n source w = (Some e, w') -> ev_policy_action e = Some "record"%string ->
  event_recordings_protected (ew_store w) ->
  let a := clip_start e (ep_pre_buffer_s p) (ew_store w) in
  let b := clip_end e (ep_post_buffer_s p) (ew_store w) in
  (exists r, r ∈ t_recordings (ew_store w') /\ ev_recording_id e = Some (rc_id r) /\ covers r a b) /\
  forall s, s ∈ t_segments (ew_store w') -> sg_camera_id s = ev_camera_id e -> sg_start_ts s < b -> a < sg_end_ts s ->
    NoDup (sg_id <$> t_segments (ew_store w')) -> NoDup (seg_file <$> t_segments (ew_store w')) ->
    ~ caps_enforced_for (sg_camera_id s) (ew_store w') ->
    s ∈ t_segments (snd (run_retention unlink_denied disk_usage (ew_store w'))).
Proof.
  intros Hok Hst Hres Hpr Hact Hprot a b.
  pose proof (process_processed utc_offset cam n source w Hok) as H. rewrite Hpr in H.
  inversion H as [r [?|[Hs Hr]]|e0 w1 e' w'' H1 H2 H3 _ Hob Hstore Hpol Hnx Ho]; simplify_eq; [by rewrite (Hst Hs) in Hr|].
  rewrite <- (resolve_policies _ _ _ _ _ Hpol) in Hres.
  destruct Ho as [Hu|x Hx|x y Hx|p' r w2 y Hp' Hm]; [congruence|set_solver..|]. simplify_eq.
  destruct (put_ev_ok e0 (with_action "record" e0) w1 H1 H2 (evolves_action _ _)) as [H1' H2'].
  destruct (materialize_covers _ _ _ _ _ _ H1' H2' H3 Hm) as (Hr & Hcam & Hre & Hdel & Hcov & Hcl).
  cbn [put_ev set_events ew_store] in Hcov, Hcl. rewrite Hstore in Hcov, Hcl. specialize (Hcl Hprot).
  destruct (mark_trigger_frame (dedup_key cam n) (ep_cooldown_s p) w2) as (Er & _).
  set (wf := if y then publish e' w0 else w0) in *.
  assert (Hr' : r ∈ t_recordings (ew_store wf)) by (rewrite <- Er in Hr; unfold wf; by destruct y).
  clearbody wf. clear H Hpr.
  split; [by exists r|].
  intros s Hs Hsc Hlt Hgt Hn Hf Hcap. apply protected_survives; [done..| |done].
  eapply (covered_is_protected _ r s a b); try done. by rewrite Hcam, Hsc.
Qed.

(** ** The end of an event inside its cooldown *)

(** An end that arrives while its own cooldown runs closes the event but marks it
    [discard:cooldown] and leaves the recordings as they were: the clip ends
    [post] seconds after the start, whatever the event's duration. *)
Theorem end_in_cooldown_leaves_clip utc_offset cam n source w e p :
  ev_ok w -> n_state n = "end"%string -> n_vendor_event_id n = None ->
  get_active_by_dedup (dedup_key cam n) w = Some e ->
  resolve cam (n_type n) (n_subtype n) w = Some p -> ep_min_score p = None ->
  within_cooldown (dedup_key cam n) w = true ->
  exists e' w', process utc_offset cam n source w = (Some e', w') /\
    ev_id e' = ev_id e /\ ev_end_ts e' = Some (ew_now w) /\ ev_policy_action e' = Some "discard:cooldown"%string /\
    ev_recording_id e' = ev_recording_id e /\ ew_store w' = ew_store w /\ ew_outbox w' = ew_outbox w.
Proof.
  intros Hok Hs Hv Hg Hres Hms Hcd. unfold process, act. rewrite Hv, Hs, Hg.
  rewrite bool_decide_eq_false_2, bool_decide_eq_true_2 by done.
  rewrite (resolve_policies _ _ _ w) by done. rewrite Hres, (resolve_enabled _ _ _ _ _ Hres), Hms. cbn [negb].
  change (within_cooldown (dedup_key cam n) (put_ev (close_event (ew_now w) e) w)) with (within_cooldown (dedup_key cam n) w).
  rewrite Hcd. eexists _, _. split; [reflexivity|]. done.
Qed.

(** ** Stale events *)

Lemma sweep_fold_inactive l w x :
  ev_ok w -> (forall e, e ∈ l -> e ∈ ew_events w) -> NoDup (ev_id <$> l) ->
  x ∈ ew_events (foldl (fun w e => put_ev (close_event (ew_now w) e) w) w l) -> ev_is_active x = true ->
  x ∈ ew_events w /\ x ∉ l.
Proof.
  revert w. induction l as [|e l IH]; intros w Hok Hl Hn Hx Ha; [split; [done|apply not_elem_of_nil]|].
  cbn [foldl] in Hx. cbn [fmap list_fmap] in Hn. apply NoDup_cons in Hn as [He Hn].
  destruct (put_ev_ok e (close_event (ew_now w) e) w Hok (Hl e ltac:(by left)) (evolves_close _ _)) as [Hok' _].
  apply IH in Hx as [Hx Hxl]; [|done| |done|done].
  - apply elem_of_put_event in Hx as [(-> & _)|[Hx Hne]]; [done|]. split; [done|].
    apply not_elem_of_cons. split; [|done]. by intros ->.
  - intros y Hy. apply elem_of_put_event. right. split; [by apply Hl; right|].
    intros E. apply He. cbn [ev_id close_event] in E. rewrite <- E. by apply list_elem_of_fmap_2.
Qed.

Definition stale_events (w : EventWorld) : list Event :=
  List.filter (fun e => ev_is_active e && (ev_start_ts e <? ew_now w - MAX_ACTIVE_AGE_S * SEC)) (ew_events w).

(** After the sweeper no event that started more than [MAX_ACTIVE_AGE_S] seconds
    ago is still active (for up to the 1000 events one sweep looks at). *)
Theorem sweeper_ends_stale_events w e :
  ev_ok w -> (length (stale_events w) <= 1000)%nat ->
  e ∈ ew_events (snd (active_event_sweeper w)) -> ev_is_active e = true -> ew_now w - MAX_ACTIVE_AGE_S * SEC <= ev_start_ts e.
Proof.
  intros Hok Hlen He Ha. unfold active_event_sweeper, get_stale_active, limit in He. cbn [snd] in He.
  rewrite take_ge in He by done. apply sweep_fold_inactive in He as [He Hn]; [|done| | |done].
  - destruct (Z.le_gt_cases (ew_now w - MAX_ACTIVE_AGE_S * SEC) (ev_start_ts e)); [done|]. destruct Hn.
    apply elem_of_filter_In. split; [done|]. rewrite Ha. cbn. by apply Z.ltb_lt.
  - intros y Hy. by apply elem_of_filter_In in Hy as [? _].
  - destruct Hok as [Hnd _ _]. revert Hnd. generalize (ew_events w) as l. clear.
    induction l as [|y l IH]; intros Hn; [done|]. cbn [fmap list_fmap] in Hn. apply NoDup_cons in Hn as [Hy Hn].
    cbn [List.filter]. destruct (_ && _); [|by apply IH]. cbn [fmap list_fmap]. apply NoDup_cons. split; [|by apply IH].
    intros (z & E & Hz)%list_elem_of_fmap. apply Hy. rewrite E. apply list_elem_of_fmap_2.
    by apply elem_of_filter_In in Hz as [? _].
Qed.

(** ** Witnesses *)

Definition kst (_ : Z) : Z := 9 * 3600 * SEC.

Definition demo_event (st : string) : NormalizedEvent :=
  {| n_type := "motion"; n_state := st; n_subtype := Some "vmd"%string; n_score := None; n_channel := Some 1;
     n_vendor_event_id := None; n_dedup_extra := None |}.

Definition demo_event_policy : EventPolicy :=
  {| ep_camera_id := None; ep_event_type := "*"; ep_subtype := None; ep_action := "record"; ep_pre_buffer_s := 5;
     ep_post_buffer_s := 10; ep_cooldown_s := 10; ep_min_score := None; ep_notify := true; ep_enabled := true;
     ep_deleted_at := None |}.

Definition demo_footage : Segment := demo_seg 36 1 (864000 * SEC - 10 * SEC).

Definition demo_ew : EventWorld :=
  {| ew_store := set_segments (demo_footage :: t_segments demo_store) demo_store; ew_events := [];
     ew_policies := [demo_event_policy]; ew_schedules := []; ew_outbox := []; ew_next_id := 100 |}.

Definition advance (dt : Z) (t : Store) : Store :=
  {| t_now := t_now t + dt; t_redis := t_redis t; t_cameras := t_cameras t; t_segments := t_segments t;
     t_recordings := t_recordings t; t_policies := t_policies t; t_disks := t_disks t; t_files := t_files t;
     t_reconciled := t_reconciled t |}.

(** A motion event starts and five seconds pass. *)
Definition demo_started : EventWorld :=
  ev_run kst demo_ew [OpEvent 1 (demo_event "start") "isapi"; OpStore (advance (5 * SEC))].

Lemma demo_ew_ok : ev_ok demo_ew.
Proof. by apply ev_ok_empty. Qed.

Lemma one_active_event_per_key_witness :
  NoDup (ev_id <$> ew_events (ev_run kst demo_ew
    [OpEvent 1 (demo_event "start") "isapi"; OpEvent 1 (demo_event "start") "isapi"; OpSweep; OpEvent 1 (demo_event "pulse") "isapi"])).
Proof. apply (one_active_event_per_key kst demo_ew); reflexivity. Defined.

Lemma discarded_events_are_silent_witness :
  exists e w', process kst 1 (demo_event "start") "isapi" demo_ew = (Some e, w') /\ recorded demo_ew w' /\
    ev_policy_action e = Some "record"%string.
Proof.
  pose proof (discarded_events_are_silent kst 1 (demo_event "start") "isapi" demo_ew demo_ew_ok) as H.
  destruct (process kst 1 (demo_event "start") "isapi" demo_ew) as [r w'] eqn:E. destruct H as [H _].
  assert (Hr : recorded demo_ew w').
  { unfold recorded. assert (w' = snd (process kst 1 (demo_event "start") "isapi" demo_ew)) as -> by by rewrite E.
    vm_compute. discriminate. }
  destruct (H Hr) as (e & -> & Ha). by exists e, w'.
Defined.

Lemma noise_changes_nothing_witness :
  snd (process kst 1 (demo_event "end") "isapi" demo_ew) = demo_ew /\
  snd (process kst 1 (demo_event "start") "isapi" demo_started) = demo_started.
Proof.
  split; apply noise_changes_nothing; right; [right|left]; (split; [reflexivity|]);
    [vm_compute; reflexivity|vm_compute; discriminate].
Defined.

Lemma recorded_clip_is_kept_witness :
  exists e w', process kst 1 (demo_event "start") "isapi" demo_ew = (Some e, w') /\
    demo_footage ∈ t_segments (snd (run_retention (fun _ => false) demo_usage (ew_store w'))).
Proof.
  eexists _, _. split; [vm_compute; reflexivity|].
  eapply (recorded_clip_is_kept kst (fun _ => false) demo_usage 1 (demo_event "start") "isapi" demo_ew _ _ demo_event_policy);
    [apply demo_ew_ok|intros _; vm_compute; reflexivity|vm_compute; reflexivity|vm_compute; reflexivity|reflexivity| | | | | | | |].
  - intros r Hr. cbn in Hr. repeat (apply elem_of_cons in Hr as [->|Hr]; [intros _; cbn; set_solver|]). by apply elem_of_nil in Hr.
  - decide_it.
  - reflexivity.
  - vm_compute; reflexivity.
  - vm_compute; reflexivity.
  - decide_it.
  - decide_it.
  - intros (pol & Hp & Ht & _). vm_compute in Hp. injection Hp as <-. discriminate Ht.
Defined.

Lemma end_in_cooldown_leaves_clip_witness :
  exists e' w', process kst 1 (demo_event "end") "isapi" demo_started = (Some e', w') /\
    ev_policy_action e' = Some "discard:cooldown"%string /\ t_recordings (ew_store w') = t_recordings (ew_store demo_started).
Proof.
  assert (Hok : ev_ok demo_started) by apply ev_run_ok, demo_ew_ok.
  edestruct (end_in_cooldown_leaves_clip kst 1 (demo_event "end") "isapi" demo_started) as (e' & w' & H & _ & _ & Ha & _ & Hs & _);
    [exact Hok|reflexivity|reflexivity|vm_compute; reflexivity|vm_compute; reflexivity|reflexivity|vm_compute; reflexivity|].
  exists e', w'. split; [exact H|]. split; [exact Ha|]. by rewrite Hs.
Defined.

Lemma sweeper_ends_stale_events_witness :
  let w := set_store (advance (200 * SEC) (ew_store demo_started)) demo_started in
  existsb ev_is_active (ew_events w) = true /\ existsb ev_is_active (ew_events (snd (active_event_sweeper w))) = false.
Proof.
  cbv zeta. split; [vm_compute; reflexivity|]. apply not_true_is_false. intros (e & He%list_elem_of_In & Ha)%existsb_exists.
  set (w := set_store _ demo_started) in *.
  assert (Hok : ev_ok w) by (apply ev_ok_store, ev_run_ok, demo_ew_ok).
  pose proof (sweeper_ends_stale_events w e Hok ltac:(apply Nat.leb_le; vm_compute; reflexivity) He Ha) as H.
  assert (ev_start_ts e = 864000 * SEC) as E.
  { revert He. vm_compute (ew_events _). intros He. repeat (apply elem_of_cons in He as [->|He]; [reflexivity|]). by apply elem_of_nil in He. }
  rewrite E in H. vm_compute in H. by apply H.
Defined.

(** Coalescing extends only the earliest overlapping clip: two event recordings
    of one camera that overlap each other can remain. *)
Definition two_clips : EventWorld :=
  set_store (set_recordings [new_recording 1 1 "event" "event" (864000 * SEC - 30 * SEC) (Some (864000 * SEC - 1 * SEC)) None;
                             new_recording 2 1 "event" "event" (864000 * SEC + 5 * SEC) (Some (864000 * SEC + 30 * SEC)) None]
               (ew_store demo_ew)) demo_ew.

Lemma coalescing_is_not_transitive :
  (fun r => (rc_id r, rc_start_ts r / SEC - 864000, (fun e => e / SEC - 864000) <$> rc_end_ts r)) <$>
    t_recordings (ew_store (snd (process kst 1 (demo_event "pulse") "isapi" two_clips)))
  = [(1, -30, Some 10); (2, 5, Some 30)].
Proof. vm_compute. reflexivity. Qed.
