(* ===== verification/Indexer.v ===== *)
(** * Indexing recorded segments

    src/server/service/segment_indexer.py, with [exists_rel_path] and [create] of
    model/segment.py.

    What [os.listdir], [os.stat] and ffprobe answer are parameters; the files are
    those of the [Store].  A file's path on a disk is the text the index keeps
    ([rel_path]); codec, geometry and audio columns are not kept. *)

From Stdlib Require Import Ascii.
From stdpp Require Import pretty.
From S2P Require Import Prelude PyStr Redis Storage Sweep EventPipeline.

(** ** Names and their time *)

(** the digits of a text already known to be digits *)
Definition number (s : string) : Z := default 0 (digits 0 false s).

Definition ends_with (suffix s : string) : bool :=
  let k := (String.length s - String.length suffix)%nat in
  bool_decide (String.length suffix <= String.length s)%nat && bool_decide (sdrop k s = suffix).

(** [_NAME_RE.search]: date and time digits of a name ending in
    [seg-DDDDDDDD-DDDDDD.mp4] or [.ts] *)
Definition name_match (name : string) : option (string * string) :=
  let try ext :=
    let tail := sdrop (String.length name - (20 + String.length ext)) name in
    let d := stake 8 (sdrop 4 tail) in
    let h := stake 6 (sdrop 13 tail) in
    if bool_decide (tail = ("seg-" +:+ d +:+ "-" +:+ h +:+ "." +:+ ext)%string) &&
       bool_decide (String.length d = 8)%nat && bool_decide (String.length h = 6)%nat && all_digits d && all_digits h
    then Some (d, h) else None in
  match try "mp4"%string with Some x => Some x | None => try "ts"%string end.

(** *** The proleptic Gregorian calendar of [datetime] *)

Definition is_leap (y : Z) : bool := (y mod 4 =? 0) && (negb (y mod 100 =? 0) || (y mod 400 =? 0)).

Definition days_in_month (y m : Z) : Z :=
  if bool_decide (m ∈ [4; 6; 9; 11]) then 30
  else if m =? 2 then (if is_leap y then 29 else 28) else 31.

(** days before year [y], from 1 January of year 1 *)
Definition days_before_year (y : Z) : Z := let p := y - 1 in p * 365 + p / 4 - p / 100 + p / 400.

Definition days_before_month (y m : Z) : Z :=
  sum_on (fun k => days_in_month y k) (seqZ 1 (m - 1)).

Definition EPOCH_DAYS : Z := days_before_year 1970.

(** a naive UTC datetime as microseconds since the epoch *)
Definition timestamp (y m d hh mm ss : Z) : Z :=
  ((days_before_year y + days_before_month y m + (d - 1) - EPOCH_DAYS) * 86400 + hh * 3600 + mm * 60 + ss) * SEC.

Definition valid_datetime (y m d hh mm ss : Z) : bool :=
  (1 <=? y) && (1 <=? m) && (m <=? 12) && (1 <=? d) && (d <=? days_in_month y m) &&
  (hh <=? 23) && (mm <=? 59) && (ss <=? 59).

(** [strptime(date + time, '%Y%m%d%H%M%S')]: 14 digits, so every field takes its
    full width *)
Definition parse_start_ts (filename : string) : option Z :=
  match name_match filename with
  | None => None
  | Some (d, h) =>
      let y := number (stake 4 d) in let m := number (stake 2 (sdrop 4 d)) in let dd := number (sdrop 6 d) in
      let hh := number (stake 2 h) in let mm := number (stake 2 (sdrop 2 h)) in let ss := number (sdrop 4 h) in
      if valid_datetime y m dd hh mm ss then Some (timestamp y m dd hh mm ss) else None
  end.

(** ** The directory scan *)

Fixpoint insert_name (x : string) (l : list string) : list string :=
  match l with
  | [] => [x]
  | y :: r => if String.leb x y then x :: l else y :: insert_name x r
  end.
Definition sort_names (l : list string) : list string := foldr insert_name [] l.

Definition segment_ext (container : string) : string :=
  if bool_decide (container = "mpegts"%string) then "ts" else "mp4".

(** [{camera_id}/] or [{camera_id}/{subdir}/] *)
Definition dir_of (camera_id : Z) (subdir : string) : string :=
  if bool_decide (subdir = EmptyString) then pretty camera_id +:+ "/"
  else pretty camera_id +:+ "/" +:+ subdir +:+ "/".

(** names directly inside a directory *)
Definition dir_names (disk_id : Z) (dir : string) (files : gset (Z * string)) : list string :=
  omap (fun '(d, p) =>
    if (d =? disk_id) && startswith dir p then
      let n := sdrop (String.length dir) p in
      match split_once "/"%char n with None => Some n | Some _ => None end
    else None) (elements files).

Definition exists_rel_path (camera_id : Z) (path : string) (t : Store) : bool :=
  existsb (fun s => (sg_camera_id s =? camera_id) && bool_decide (sg_rel_path s = path)) (t_segments t).

Definition SETTLE_SECONDS : Z := 3.

Section Scan.
Context (listdir_ok : Z -> string -> bool).               (* isdir and listdir succeed *)
Context (stat : Z * string -> option (Z * Z)).            (* mtime, size; None: OSError *)
Context (probe : Z * string -> option Z).                 (* duration_ms; None: ffprobe failed *)

Definition new_segment (id camera_id disk_id : Z) (path role : string) (start duration size : Z) : Segment :=
  {| sg_id := id; sg_camera_id := camera_id; sg_disk_id := disk_id; sg_rel_path := path; sg_start_ts := start;
     sg_end_ts := start + duration * 1000; sg_duration_ms := duration; sg_size_bytes := size;
     sg_reason := "continuous"; sg_storage_tier := "cache"; sg_stream_role := role;
     sg_corrupt := (size =? 0) || (duration =? 0) |}.

(** one name of the scan *)
Definition index_one (camera_id disk_id : Z) (dir role : string) (include_newest : bool) (name : string)
    (acc : Z * EventWorld) : Z * EventWorld :=
  let '(inserted, w) := acc in
  let path := dir +:+ name in
  if exists_rel_path camera_id path (ew_store w) then acc else
  match stat (disk_id, path) with
  | None => acc
  | Some (mtime, size) =>
      if negb include_newest && (ew_now w - SETTLE_SECONDS * SEC <? mtime) then acc else
      match parse_start_ts name with
      | None => acc
      | Some start =>
          let '(id, w1) := fresh_id w in
          let s := new_segment id camera_id disk_id path role start (default 0 (probe (disk_id, path))) size in
          (if sg_corrupt s then inserted else inserted + 1,
           set_store (set_segments (t_segments (ew_store w1) ++ [s]) (ew_store w1)) w1)
      end
  end.

(** the names one scan looks at *)
Definition scan_names (camera_id disk_id : Z) (container subdir : string) (include_newest : bool) (t : Store) : list string :=
  let dir := dir_of camera_id subdir in
  let files := sort_names (List.filter (fun n => ends_with ("." +:+ segment_ext container) n &&
                 bool_decide (is_Some (name_match n))) (dir_names disk_id dir (t_files t))) in
  if include_newest then files
  else if bool_decide (length files <= 1)%nat then [] else removelast files.

Definition index_camera_dir (camera_id disk_id : Z) (container subdir role : string) (include_newest : bool)
    (w : EventWorld) : Z * EventWorld :=
  let dir := dir_of camera_id subdir in
  if listdir_ok disk_id dir then
    foldl (fun acc n => index_one camera_id disk_id dir role include_newest n acc) (0, w)
      (scan_names camera_id disk_id container subdir include_newest (ew_store w))
  else (0, w).
End Scan.

(** ** What a scan does *)

Lemma exists_rel_path_spec cam path t :
  exists_rel_path cam path t = true <-> exists s, s ∈ t_segments t /\ sg_camera_id s = cam /\ sg_rel_path s = path.
Proof.
  unfold exists_rel_path. rewrite existsb_exists. split; intros (s & Hs & H); exists s; rewrite list_elem_of_In in *.
  - by apply andb_true_iff in H as [->%Z.eqb_eq ->%bool_decide_eq_true].
  - split; [done|]. by rewrite andb_true_iff, Z.eqb_eq, bool_decide_eq_true.
Qed.

Section ScanTheory.
Context (stat : Z * string -> option (Z * Z)) (probe : Z * string -> option Z).
Notation index_one := (index_one stat probe).

(** The name can be indexed: readable, settled unless the scan is final, and dated. *)
Definition indexable (now disk_id : Z) (dir : string) (include_newest : bool) (name : string) : bool :=
  match stat (disk_id, dir +:+ name) with
  | Some (mtime, _) => (include_newest || (mtime <=? now - SETTLE_SECONDS * SEC)) && bool_decide (is_Some (parse_start_ts name))
  | None => false
  end.

(** A row a scan adds. *)
Definition from_scan (cam disk_id : Z) (dir role : string) (names : list string) (s : Segment) : Prop :=
  sg_camera_id s = cam /\ sg_disk_id s = disk_id /\ sg_stream_role s = role /\ sg_storage_tier s = "cache"%string /\
  exists name, name ∈ names /\ sg_rel_path s = dir +:+ name /\ parse_start_ts name = Some (sg_start_ts s).

(** Between the store a scan starts from and the one it has reached. *)
Record scan_inv (cam disk_id : Z) (dir role : string) (newest : bool) (done_ : list string) (w0 w : EventWorld) : Prop := {
  si_rows : exists new, t_segments (ew_store w) = t_segments (ew_store w0) ++ new /\
    (forall s, s ∈ new -> from_scan cam disk_id dir role done_ s /\ ew_next_id w0 <= sg_id s < ew_next_id w /\
                          exists_rel_path cam (sg_rel_path s) (ew_store w0) = false) /\
    NoDup (sg_rel_path <$> new) /\ NoDup (sg_id <$> new);
  si_done : forall n, n ∈ done_ -> indexable (ew_now w0) disk_id dir newest n = true ->
    exists_rel_path cam (dir +:+ n) (ew_store w) = true;
  si_next : ew_next_id w0 <= ew_next_id w;
  si_rest : exists segs, ew_store w = set_segments segs (ew_store w0);
  si_other : ew_events w = ew_events w0 /\ ew_policies w = ew_policies w0 /\ ew_schedules w = ew_schedules w0 /\
             ew_outbox w = ew_outbox w0
}.

Lemma from_scan_more cam disk_id dir role done_ n s :
  from_scan cam disk_id dir role done_ s -> from_scan cam disk_id dir role (done_ ++ [n]) s.
Proof. intros (? & ? & ? & ? & name & ? & ?). split_and!; [done..|]. exists name. split; [|done]. set_solver. Qed.

Lemma app_string_inj (d a b : string) : d +:+ a = d +:+ b -> a = b.
Proof. induction d as [|c d IH]; cbn; [done|]. intros [= H]. by apply IH. Qed.

(** A name that adds nothing. *)
Lemma scan_inv_skip cam disk_id dir role newest done_ n w0 w :
  scan_inv cam disk_id dir role newest done_ w0 w ->
  (indexable (ew_now w0) disk_id dir newest n = true -> exists_rel_path cam (dir +:+ n) (ew_store w) = true) ->
  scan_inv cam disk_id dir role newest (done_ ++ [n]) w0 w.
Proof.
  intros [(new & E & Hnew & Hp & Hi) Hd Hx Hr Ho] Hn. constructor; try done.
  - exists new. split_and!; [done| |done..]. intros s Hs. destruct (Hnew s Hs) as (? & ?). split; [|done].
    by apply from_scan_more.
  - intros x [Hx'| ->%list_elem_of_singleton]%elem_of_app Hix; [by apply Hd|by apply Hn].
Qed.

Lemma index_one_inv cam disk_id dir role newest done_ n w0 acc :
  scan_inv cam disk_id dir role newest done_ w0 (snd acc) ->
  scan_inv cam disk_id dir role newest (done_ ++ [n]) w0 (snd (index_one cam disk_id dir role newest n acc)).
Proof.
  destruct acc as [k w]. cbn [snd]. intros Hinv. unfold Indexer.index_one.
  destruct (exists_rel_path cam (dir +:+ n) (ew_store w)) eqn:Eex; [by apply scan_inv_skip|].
  pose proof Hinv as [(new & E & Hnew & Hp & Hi) Hd Hx (segs & Hr) Ho].
  assert (Hnow : ew_now w = ew_now w0) by (unfold ew_now; by rewrite Hr).
  assert (Hskip : indexable (ew_now w0) disk_id dir newest n = false -> scan_inv cam disk_id dir role newest (done_ ++ [n]) w0 w).
  { intros Hf. apply scan_inv_skip; [done|]. by rewrite Hf. }
  unfold indexable in Hskip. destruct (stat (disk_id, dir +:+ n)) as [[mtime size]|]; [|by apply Hskip].
  destruct (negb newest && (ew_now w - SETTLE_SECONDS * SEC <? mtime)) eqn:Eset.
  { apply Hskip. apply andb_true_iff in Eset as [E1%negb_true_iff E2%Z.ltb_lt]. rewrite E1, <- Hnow. cbn.
    by rewrite (proj2 (Z.leb_gt _ _)) by lia. }
  destruct (parse_start_ts n) as [start|] eqn:Ep.
  2: { apply Hskip. by rewrite andb_false_r. }
  cbn [snd fst]. constructor; cbn -[exists_rel_path].
  - eexists (new ++ [_]). split_and!; [by rewrite E, <- app_assoc| | |].
    + intros s [Hs| ->%list_elem_of_singleton]%elem_of_app.
      * destruct (Hnew s Hs) as (? & ? & ?). split_and!; [by apply from_scan_more|lia|lia|done].
      * cbn. split_and!; [|lia|lia|].
        { split_and!; [done..|]. exists n. split; [set_solver|done]. }
        { apply not_true_iff_false. intros (x & Hxs & Hxc & Hxp)%exists_rel_path_spec.
          apply not_true_iff_false in Eex. apply Eex, exists_rel_path_spec. exists x. split; [|done]. rewrite E. set_solver. }
    + rewrite fmap_app. apply NoDup_app. split_and!; [done| |apply NoDup_singleton].
      intros x (s & -> & Hs)%list_elem_of_fmap Hx'%list_elem_of_singleton. apply not_true_iff_false in Eex. apply Eex.
      apply exists_rel_path_spec. exists s. cbn in Hx'. destruct (Hnew s Hs) as ((? & ?) & _).
      split_and!; [rewrite E; set_solver|done|done].
    + rewrite fmap_app. apply NoDup_app. split_and!; [done| |apply NoDup_singleton].
      intros x (s & -> & Hs)%list_elem_of_fmap Hx'%list_elem_of_singleton. cbn in Hx'. destruct (Hnew s Hs) as (_ & ? & _). lia.
  - intros x Hx' Hix. apply exists_rel_path_spec. apply elem_of_app in Hx' as [Hx'| ->%list_elem_of_singleton].
    + destruct (proj1 (exists_rel_path_spec _ _ _) (Hd x Hx' Hix)) as (s & Hs & ?). exists s. split; [set_solver|done].
    + eexists. split; [apply elem_of_app; right; by apply list_elem_of_singleton|]. done.
  - lia.
  - rewrite Hr. by eexists.
  - done.
Qed.

Lemma index_fold_inv cam disk_id dir role newest names : forall done_ w0 acc,
  scan_inv cam disk_id dir role newest done_ w0 (snd acc) ->
  scan_inv cam disk_id dir role newest (done_ ++ names) w0
    (snd (foldl (fun acc n => index_one cam disk_id dir role newest n acc) acc names)).
Proof.
  induction names as [|n names IH]; intros done_ w0 acc Hinv; [by rewrite app_nil_r|]. cbn [foldl].
  replace (done_ ++ n :: names) with ((done_ ++ [n]) ++ names) by by rewrite <- app_assoc.
  apply IH. by apply index_one_inv.
Qed.

Lemma scan_inv_start cam disk_id dir role newest w : scan_inv cam disk_id dir role newest [] w w.
Proof.
  constructor; [|set_solver|lia| |done].
  - exists []. rewrite app_nil_r. split_and!; [done|set_solver|apply NoDup_nil_2|apply NoDup_nil_2].
  - exists (t_segments (ew_store w)). by destruct (ew_store w).
Qed.
End ScanTheory.

(** ** The catalogue stays well-formed

    Row ids come from the counter; a path starts with its camera's id, so rows of
    two cameras never share one. *)

Fixpoint no_slash (s : string) : bool :=
  match s with EmptyString => true | String c r => negb (bool_decide (c = "/"%char)) && no_slash r end.

Lemma split_once_slash a b : no_slash a = true -> split_once "/"%char (a +:+ "/" +:+ b) = Some (a, b).
Proof.
  induction a as [|c a IH]; [done|]. cbn [no_slash]. intros [Hc%negb_true_iff Ha]%andb_true_iff.
  change (String c a +:+ ("/" +:+ b)) with (String c (a +:+ "/" +:+ b)). cbn [split_once]. by rewrite Hc, (IH Ha).
Qed.

Lemma digit_no_slash c : is_digit c = true -> negb (bool_decide (c = "/"%char)) = true.
Proof. intros H. apply negb_true_iff, bool_decide_eq_false. intros ->. by vm_compute in H. Qed.

Lemma no_slash_pretty_go x s : no_slash s = true -> no_slash (pretty_N_go x s) = true.
Proof.
  revert s. induction (N.lt_wf_0 x) as [x _ IH]; intros s Hs. destruct (decide (0 < x)%N) as [Hx|Hx].
  - rewrite pretty_N_go_step by done. apply IH; [by apply N.div_lt|]. cbn [no_slash].
    destruct (pretty_N_char_digit (x `mod` 10)) as (Hd & _ & _); [by apply N.mod_lt|]. by rewrite digit_no_slash.
  - by replace x with 0%N by lia.
Qed.

Lemma no_slash_pretty (z : Z) : no_slash (pretty z) = true.
Proof.
  destruct z as [|p|p]; [done| |].
  - change (pretty (Z.pos p)) with (pretty_N_go (N.pos p) ""). by apply no_slash_pretty_go.
  - change (pretty (Z.neg p)) with (String "-"%char (pretty_N_go (N.pos p) "")). cbn [no_slash].
    by rewrite no_slash_pretty_go.
Qed.


(** The camera a path belongs to. *)
Definition owner (path : string) : option string := fst <$> split_once "/"%char path.

Lemma owner_dir cam subdir name : owner (dir_of cam subdir +:+ name) = Some (pretty cam).
Proof.
  unfold owner, dir_of. case_bool_decide.
  - rewrite <- string_app_assoc. by rewrite split_once_slash by apply no_slash_pretty.
  - rewrite <- !string_app_assoc. by rewrite split_once_slash by apply no_slash_pretty.
Qed.

Record catalog_ok (w : EventWorld) : Prop := {
  co_index : index_ok (ew_store w);
  co_fresh : forall s, s ∈ t_segments (ew_store w) -> sg_id s < ew_next_id w;
  co_owner : forall s, s ∈ t_segments (ew_store w) -> owner (sg_rel_path s) = Some (pretty (sg_camera_id s))
}.

Section CatalogTheory.
Context (listdir_ok : Z -> string -> bool) (stat : Z * string -> option (Z * Z)) (probe : Z * string -> option Z).
Notation index_camera_dir := (index_camera_dir listdir_ok stat probe).

Lemma index_camera_dir_inv cam disk_id container subdir role newest w :
  exists names, scan_inv stat cam disk_id (dir_of cam subdir) role newest names w
                  (snd (index_camera_dir cam disk_id container subdir role newest w)) /\
    (listdir_ok disk_id (dir_of cam subdir) = true ->
     names = scan_names cam disk_id container subdir newest (ew_store w)).
Proof.
  unfold Indexer.index_camera_dir. destruct (listdir_ok _ _).
  - eexists. split; [|done]. apply (index_fold_inv stat probe cam disk_id _ role newest _ [] w (0, w)).
    apply scan_inv_start.
  - exists []. split; [apply scan_inv_start|done].
Qed.

Lemma scan_inv_catalog cam disk_id subdir role newest names w w' :
  scan_inv stat cam disk_id (dir_of cam subdir) role newest names w w' -> catalog_ok w -> catalog_ok w'.
Proof.
  intros [(new & E & Hnew & Hp & Hi) _ Hx _ _] [[Hids Hpaths] Hf Ho].
  assert (Hown : forall s, s ∈ new -> owner (sg_rel_path s) = Some (pretty (sg_camera_id s))).
  { intros s Hs. destruct (Hnew s Hs) as ((-> & _ & _ & _ & name & _ & -> & _) & _). apply owner_dir. }
  constructor.
  - constructor; rewrite E, fmap_app; apply NoDup_app; split_and!; try done.
    + intros i (s & -> & Hs)%list_elem_of_fmap (x & Ex & Hxn)%list_elem_of_fmap.
      specialize (Hf s Hs). destruct (Hnew x Hxn) as (_ & ? & _). lia.
    + intros i (s & -> & Hs)%list_elem_of_fmap (x & Ex & Hxn)%list_elem_of_fmap.
      destruct (Hnew x Hxn) as ((Hc & _) & _ & Hno). apply not_true_iff_false in Hno. apply Hno.
      apply exists_rel_path_spec. exists s. split_and!; [done| |done].
      pose proof (Ho s Hs) as H1. rewrite Ex, (Hown x Hxn) in H1. injection H1 as H1.
      apply (f_equal py_int) in H1. rewrite !py_int_pretty in H1. congruence.
  - intros s Hs. rewrite E in Hs. apply elem_of_app in Hs as [Hs|Hs]; [specialize (Hf s Hs); lia|].
    destruct (Hnew s Hs) as (_ & ? & _). lia.
  - intros s Hs. rewrite E in Hs. apply elem_of_app in Hs as [Hs|Hs]; [by apply Ho|by apply Hown].
Qed.

Lemma index_camera_dir_catalog cam disk_id container subdir role newest w :
  catalog_ok w -> catalog_ok (snd (index_camera_dir cam disk_id container subdir role newest w)).
Proof. destruct (index_camera_dir_inv cam disk_id container subdir role newest w) as (? & H & _). by apply (scan_inv_catalog _ _ _ _ _ _ _ _ H). Qed.

(** After the final scan of a directory every readable, dated file of it is
    indexed, the newest one included. *)
Lemma final_scan_complete cam disk_id container subdir role w name :
  listdir_ok disk_id (dir_of cam subdir) = true ->
  name ∈ scan_names cam disk_id container subdir true (ew_store w) ->
  is_Some (stat (disk_id, dir_of cam subdir +:+ name)) -> is_Some (parse_start_ts name) ->
  exists_rel_path cam (dir_of cam subdir +:+ name)
    (ew_store (snd (index_camera_dir cam disk_id container subdir role true w))) = true.
Proof.
  intros Hl Hn [[mt sz] Hs] Hp. destruct (index_camera_dir_inv cam disk_id container subdir role true w) as (names & Hinv & En).
  apply (si_done _ _ _ _ _ _ _ _ _ Hinv); [by rewrite (En Hl)|]. unfold indexable. rewrite Hs. cbn. by rewrite bool_decide_eq_true_2.
Qed.

(** Scanning again adds nothing as long as no file comes. *)
Lemma index_one_known cam disk_id dir role newest n acc :
  exists_rel_path cam (dir +:+ n) (ew_store (snd acc)) = true ->
  index_one stat probe cam disk_id dir role newest n acc = acc.
Proof. destruct acc as [k w]. cbn. by intros ->. Qed.
End CatalogTheory.

Example parse_1 : parse_start_ts "seg-20240229-235959.ts" = Some (1709251199 * SEC).
Proof. vm_compute. reflexivity. Qed.
Example parse_2 : parse_start_ts "seg-20230229-235959.ts" = None.
Proof. vm_compute. reflexivity. Qed.
Example parse_3 : parse_start_ts "seg-20240101-000000.mkv" = None.
Proof. vm_compute. reflexivity. Qed.
