(* ===== verification/Archive.v ===== *)
(** * What the storage promises: an archive of footage

    The abstract view the rest of the system has of segments, disks, files and
    index rows: which footage can be played, by path.  Scanning, sweeping,
    evacuating, retention and disk removal (Indexer.v, Sweep.v, Storage.v) are
    related to it by a refinement theorem: moves are invisible, scans only add,
    deletions spare what they must. *)

From S2P Require Import Prelude Redis Storage Sweep EventPipeline Indexer.

(** ** The abstract archive *)

Record Footage := { ft_camera : Z; ft_role : string; ft_start : Z; ft_end : Z; ft_bytes : Z }.

Definition Archive := gmap string Footage.

(** What one step may do. [Expire safe]: footage may disappear, except the safe. *)
Inductive label := Keep | Record_ | Expire (safe : string -> Footage -> Prop).

Inductive archive_step (a : Archive) : label -> Archive -> Prop :=
| arc_keep : archive_step a Keep a
| arc_record a' : a ⊆ a' -> archive_step a Record_ a'
| arc_expire safe a' : a' ⊆ a -> (forall p f, a !! p = Some f -> safe p f -> a' !! p = Some f) -> archive_step a (Expire safe) a'.

Lemma expire_keeps a safe a' p f : archive_step a (Expire safe) a' -> a !! p = Some f -> safe p f -> a' !! p = Some f.
Proof. inversion 1; subst; eauto. Qed.

(** ** The archive a store holds *)

Definition footage_of (s : Segment) : Footage :=
  {| ft_camera := sg_camera_id s; ft_role := sg_stream_role s; ft_start := sg_start_ts s; ft_end := sg_end_ts s;
     ft_bytes := sg_size_bytes s |}.

Definition archive (t : Store) : Archive :=
  list_to_map ((fun s => (sg_rel_path s, footage_of s)) <$>
    List.filter (fun s => bool_decide (seg_file s ∈ t_files t)) (t_segments t)).

(** the operations of the storage *)
Inductive storage_op :=
| OpScan (camera_id disk_id : Z) (container subdir role : string) (include_newest : bool)
| OpSweep
| OpEvacuate (disk_id : Z)
| OpDeleteDisk (disk_id : Z) (mode : string)
| OpRetention.

Section Refinement.
Context (listdir_ok : Z -> string -> bool) (stat : Z * string -> option (Z * Z)) (probe : Z * string -> option Z).
Context (move_file : Z * string -> Z -> move_outcome).
Context (unlink_denied : Z * string -> bool) (disk_usage : Disk -> gset (Z * string) -> option (Z * Z)).

Definition run_storage (op : storage_op) (w : EventWorld) : option EventWorld :=
  let t := ew_store w in
  match op with
  | OpScan c d container subdir role newest =>
      Some (snd (index_camera_dir listdir_ok stat probe c d container subdir role newest w))
  | OpSweep => Some (set_store (snd (sweep move_file t)) w)
  | OpEvacuate d => (fun r => set_store (snd r) w) <$> evacuate_disk move_file (S (length (t_segments t))) d t
  | OpDeleteDisk d mode => Some (set_store (snd (delete_disk d mode t)) w)
  | OpRetention => Some (set_store (snd (run_retention unlink_denied disk_usage t)) w)
  end.

(** Footage on a disk that still has its row, registered or not. *)
Definition on_known_disk (t : Store) (p : string) (_ : Footage) : Prop :=
  exists s, s ∈ t_segments t /\ sg_rel_path s = p /\ sg_disk_id s ∈ dk_id <$> t_disks t.

(** Footage a protected or event recording of its camera overlaps, unless the
    camera has a byte cap that deletes the oldest. *)
Definition under_protection (t : Store) (_ : string) (f : Footage) : Prop :=
  (exists i, i ∈ get_protected_intervals (ft_camera f) t /\ ft_start f < i.2 /\ i.1 < ft_end f) /\
  ~ caps_enforced_for (ft_camera f) t.

Definition label_of (op : storage_op) (t : Store) : label :=
  match op with
  | OpScan _ _ _ _ _ _ => Record_
  | OpSweep => Expire (on_known_disk t)
  | OpEvacuate _ | OpDeleteDisk _ _ => Keep
  | OpRetention => Expire (under_protection t)
  end.

(** ** Facts on the abstraction *)

Lemma archive_lookup t p f :
  index_ok t ->
  archive t !! p = Some f <-> exists s, s ∈ t_segments t /\ sg_rel_path s = p /\ footage_of s = f /\ seg_file s ∈ t_files t.
Proof.
  intros [_ Hp]. unfold archive. set (l := _ <$> _).
  assert (Hn : NoDup l.*1) by (unfold l; rewrite <- list_fmap_compose; cbn; by apply filter_nodup).
  transitivity ((p, f) ∈ l); [symmetry; by apply (elem_of_list_to_map (M:=gmap string))|].
  unfold l. rewrite list_elem_of_fmap. split.
  - intros (s & [= -> ->] & [Hs Hf%bool_decide_eq_true]%elem_of_filter_In). by exists s.
  - intros (s & Hs & <- & <- & Hf). exists s. split; [done|]. apply elem_of_filter_In. by rewrite bool_decide_eq_true.
Qed.

(** Moves are invisible. *)
Lemma relocated_archive t t' : index_ok t -> relocated t t' -> archive t' = archive t.
Proof.
  intros Hok R. apply map_eq. intros p. apply option_eq. intros f.
  rewrite (archive_lookup t' p f) by by eapply relocated_index. rewrite (archive_lookup t p f Hok). split.
  - intros (s' & Hs' & <- & <- & Hf). destruct R as [R _ _ _]. apply list_elem_of_lookup in Hs' as [i Hi].
    destruct (Forall2_lookup_r _ _ _ _ _ R Hi) as (s & Hs & E & Hiff). exists s.
    split_and!; [by eapply list_elem_of_lookup_2|by rewrite E|by rewrite E|by apply Hiff].
  - intros (s & Hs & <- & <- & Hf). destruct (relocated_row t t' s R Hs) as (s' & Hs' & E & Hiff). exists s'.
    split_and!; [done|by rewrite E|by rewrite E|by apply Hiff].
Qed.

(** Dropping rows and files drops footage. *)
Lemma shrunk_archive t t' :
  index_ok t -> index_ok t' -> t_segments t' ⊆ t_segments t -> t_files t' ⊆ t_files t -> archive t' ⊆ archive t.
Proof.
  intros Hok Hok' Hs Hf. apply map_subseteq_spec. intros p f. rewrite (archive_lookup t'), (archive_lookup t) by done.
  intros (s & Hin & Ep & Ef & Hfile). exists s. split_and!; [by apply Hs|done|done|by apply Hf].
Qed.

Lemma index_ok_files t : index_ok t -> NoDup (seg_file <$> t_segments t).
Proof.
  intros [_ Hp]. eapply (NoDup_fmap_1 snd). rewrite <- list_fmap_compose. exact Hp.
Qed.

Lemma index_ok_filter f t : index_ok t -> index_ok (set_segments (List.filter f (t_segments t)) t).
Proof. intros [Hi Hp]. constructor; by apply filter_nodup. Qed.

Lemma purge_index_ok P t t' : purge unlink_denied P t t' -> index_ok t -> index_ok t'.
Proof.
  induction 1 as [t|t t1 t' Hs _ _ _ IH|s t t' _ _ IH]; intros Hok; [done| |].
  - apply IH. destruct Hok as [Hi Hp]. constructor; by rewrite Hs.
  - apply IH. destruct (index_ok_filter (fun x => negb (sg_id x =? sg_id s)) t Hok) as [Hi Hp].
    constructor; by rewrite delete_segment_rows.
Qed.

(** ** One lemma per operation *)

Lemma scan_refines c d container subdir role newest w :
  catalog_ok w ->
  archive (ew_store w) ⊆ archive (ew_store (snd (index_camera_dir listdir_ok stat probe c d container subdir role newest w))).
Proof.
  intros Hok. pose proof (index_camera_dir_catalog listdir_ok stat probe c d container subdir role newest w Hok) as Hok'.
  destruct (index_camera_dir_inv listdir_ok stat probe c d container subdir role newest w) as (names & [(new & E & _) _ _ (segs & Er) _] & _).
  apply map_subseteq_spec. intros p f. rewrite (archive_lookup _ p f (co_index _ Hok)), (archive_lookup _ p f (co_index _ Hok')).
  intros (s & Hs & Ep & Ef & Hf). exists s. split_and!; [rewrite E; set_solver|done|done|]. by rewrite Er.
Qed.

Lemma sweep_refines t :
  index_ok t -> index_ok (snd (sweep move_file t)) /\
  archive_step (archive t) (Expire (on_known_disk t)) (archive (snd (sweep move_file t))).
Proof.
  intros Hok. unfold sweep. pose proof (promote_all_relocated move_file t Hok) as R.
  destruct (promote_all move_file t) as [n t1]. cbn [snd] in R. pose proof (relocated_index _ _ R Hok) as Hok1.
  assert (Hpr : exists f, snd (prune_orphans t1) = set_segments (List.filter f (t_segments t1)) t1 ).
  { unfold prune_orphans. destruct (t_disks t1) eqn:Ed; [|by eexists]. exists (fun _ => true). cbn.
    rewrite filter_true_id by done. by destruct t1. }
  pose proof (prune_keeps_known t1) as Hk. destruct (prune_orphans t1) as [k t2]. cbn [snd] in *. destruct Hpr as [f ->].
  pose proof (index_ok_filter f t1 Hok1) as Hok2. split; [done|]. rewrite <- (relocated_archive t t1 Hok R). apply arc_expire.
  - apply shrunk_archive; [done|done| |done]. intros x [Hx _]%elem_of_filter_In. done.
  - intros p g (s1 & Hs1 & Ep & Eg & Hf)%archive_lookup (s & Hs & Eps & Hd); [|done].
    apply archive_lookup; [done|]. exists s1. split_and!; [|done|done|done]. apply Hk; [done|done|].
    rewrite (rl_disks _ _ R). destruct R as [Rr Rd _ _]. apply list_elem_of_lookup in Hs1 as [i Hi].
    destruct (Forall2_lookup_r _ _ _ _ _ Rr Hi) as (s0 & Hs0 & E & _ & Hdisk). apply list_elem_of_lookup_2 in Hs0.
    assert (s0 = s) as ->.
    { apply (nodup_key_inj sg_rel_path (t_segments t)); [apply Hok|done|done|]. rewrite Eps, <- Ep. by rewrite E. }
    destruct Hdisk as [->|?]; done.
Qed.

Lemma retention_refines t :
  index_ok t -> index_ok (snd (run_retention unlink_denied disk_usage t)) /\
  archive_step (archive t) (Expire (under_protection t)) (archive (snd (run_retention unlink_denied disk_usage t))).
Proof.
  intros Hok. pose proof (run_retention_purge unlink_denied disk_usage t (ix_ids _ Hok)) as Hp.
  pose proof (purge_index_ok _ _ _ Hp Hok) as Hok'. split; [done|]. apply arc_expire.
  - apply shrunk_archive; [done|done|by eapply purge_subset|by eapply purge_files].
  - intros p f (s & Hs & Ep & <- & Hf)%archive_lookup [(i & Hi & Hlt & Hgt) Hcap]; [|done].
    assert (Hprot : protected_seg t s).
    { unfold protected_seg, overlaps. apply existsb_exists. exists i. split; [by apply list_elem_of_In|].
      destruct i as [b e]. cbn in *. apply andb_true_iff. split; by apply Z.ltb_lt. }
    destruct (protected_survives unlink_denied disk_usage t s (ix_ids _ Hok) (index_ok_files t Hok) Hs Hprot Hcap) as [Hs' Hf'].
    apply archive_lookup; [done|]. exists s. split_and!; [done..|by apply Hf'].
Qed.

Lemma evacuate_refines d t r t' :
  index_ok t -> evacuate_disk move_file (S (length (t_segments t))) d t = Some (r, t') ->
  index_ok t' /\ archive t' = archive t.
Proof.
  intros Hok H. unfold evacuate_disk in H. destruct (evac_targets d t) as [|d0 ds] eqn:Et; [by injection H as _ <-|].
  destruct (existsb _ _) eqn:Ee; [|by injection H as _ <-].
  assert (Hdst : exists dst, max_on usable_free_bytes (d0 :: ds) = Some dst) by by eexists. destruct Hdst as [dst Hdst].
  rewrite <- Et in Hdst, H. destruct (evac_targets_other d t dst Hdst) as [Hne Hk].
  destruct (evac_loop_done move_file d dst (evac_targets d t) t (S (length (t_segments t))) 0 ∅ t Hdst Hne Hk)
    as (m & f & t1 & E & Hinv & _); [by apply evac_inv_start| |].
  { apply Nat.lt_succ_r. unfold pending. apply filter_length_le. }
  rewrite E in H. injection H as _ <-. destruct Hinv as [R _ _ _ _].
  split; [by eapply relocated_index|by eapply relocated_archive].
Qed.

Lemma delete_disk_segments d mode t :
  t_segments (snd (delete_disk d mode t)) = t_segments t /\ t_files (snd (delete_disk d mode t)) = t_files t.
Proof. unfold delete_disk. destruct (live_disk d t); [|done]. by case_bool_decide. Qed.

Lemma archive_same t t' : t_segments t' = t_segments t -> t_files t' = t_files t -> archive t' = archive t.
Proof. intros Es Ef. unfold archive. by rewrite Es, Ef. Qed.

(** C13: The storage refines the abstract archive.  A directory scan only adds footage;
    an evacuation, or removing a disk, changes nothing that can be played; a sweep
    only drops footage whose disk has no row left; a retention run only drops footage
    and never what protected or event recordings cover, byte caps apart. *)
Theorem storage_refines_archive op w w' :
  catalog_ok w -> run_storage op w = Some w' ->
  archive_step (archive (ew_store w)) (label_of op (ew_store w)) (archive (ew_store w')) /\ index_ok (ew_store w').
Proof.
  intros Hc H. pose proof (co_index _ Hc) as Hok.
  destruct op as [c d container subdir role newest| |d|d mode|]; cbn [run_storage] in H; cbn [label_of].
  - injection H as <-. split; [by apply arc_record, scan_refines|by apply index_camera_dir_catalog].
  - injection H as <-. destruct (sweep_refines (ew_store w) Hok). done.
  - destruct (evacuate_disk _ _ _ _) as [[r t']|] eqn:E; [|done]. injection H as <-.
    destruct (evacuate_refines d (ew_store w) r t' Hok E) as [Hok' Ea]. cbn. rewrite Ea. split; [apply arc_keep|done].
  - injection H as <-. destruct (delete_disk_segments d mode (ew_store w)) as [Es Ef]. cbn. split.
    + rewrite (archive_same (ew_store w) (snd (delete_disk d mode (ew_store w)))) by done. apply arc_keep.
    + destruct Hok as [Hi Hp]. constructor; by rewrite Es.
  - injection H as <-. destruct (retention_refines (ew_store w) Hok). done.
Qed.
End Refinement.

(** ** Witness: retention on a day of footage. *)

Definition demo_archive_world : EventWorld :=
  {| ew_store := demo_store; ew_events := []; ew_policies := []; ew_schedules := []; ew_outbox := []; ew_next_id := 100 |}.

(** The paths of the demonstration store do not name their camera, so only a store
    without rows or one filled by scans is a catalogue; scan first. *)
Definition demo_scanned : EventWorld :=
  snd (index_camera_dir (fun _ _ => true) (fun _ => Some (0, 60)) (fun _ => Some 10000) 1 7 "mpegts" "" "main" true
    (set_store (set_segments [] (set_files {[ (7, "1/seg-19700101-000001.ts"%string) ]} demo_store)) demo_archive_world)).

Lemma demo_scanned_ok : catalog_ok demo_scanned.
Proof.
  apply index_camera_dir_catalog. constructor; [constructor; apply NoDup_nil_2|intros s Hs; by apply elem_of_nil in Hs..].
Qed.

Definition demo_retained : EventWorld :=
  set_store (snd (run_retention (fun _ => false) demo_usage (ew_store demo_scanned))) demo_scanned.

Lemma storage_refines_archive_witness :
  run_storage (fun _ _ => true) (fun _ => Some (0, 60)) (fun _ => Some 10000) demo_move (fun _ => false) demo_usage
    OpRetention demo_scanned = Some demo_retained /\
  archive (ew_store demo_retained) !! "1/seg-19700101-000001.ts" =
    Some {| ft_camera := 1; ft_role := "main"; ft_start := 1 * SEC; ft_end := 11 * SEC; ft_bytes := 60 |}.
Proof.
  split; [reflexivity|].
  destruct (storage_refines_archive (fun _ _ => true) (fun _ => Some (0, 60)) (fun _ => Some 10000) demo_move (fun _ => false)
    demo_usage OpRetention demo_scanned demo_retained demo_scanned_ok eq_refl) as [H _].
  apply (expire_keeps _ (under_protection (ew_store demo_scanned)) _ _ _ H); [vm_compute; reflexivity|]. split.
  - exists (0, 5 * SEC). split; [apply (bool_decide_unpack _); vm_compute; exact I|]. vm_compute. split; reflexivity.
  - intros (pol & Hp & Ht & _). vm_compute in Hp. injection Hp as <-. discriminate Ht.
Defined.
