(* ===== verification/Recordings.v ===== *)
(** * Manual recordings and the recording mode

    src/server/controller/recording.py, task/list/recording_autoclose.py and
    [StoragePolicy.upsert_for_camera].  The reconcile signal is the list of
    cameras signalled; audit rows are not kept. *)

From S2P Require Import Prelude Redis Permission Token Storage EventPipeline.

Definition get_active_manual (camera_id : Z) (t : Store) : option Recording :=
  List.find (fun r => (rc_camera_id r =? camera_id) && bool_decide (rc_reason r = "manual"%string) &&
    bool_decide (rc_end_ts r = None) && bool_decide (rc_deleted_at r = None)) (t_recordings t).

Definition recording_get_by_id (id : Z) (t : Store) : option Recording :=
  List.find (fun r => (rc_id r =? id) && bool_decide (rc_deleted_at r = None)) (t_recordings t).

(** [StoragePolicy()] with its column defaults *)
Definition default_policy (camera_id : option Z) : StoragePolicy :=
  {| sp_camera_id := camera_id; sp_segment_seconds := 10; sp_container := "mpegts"; sp_record_mode := "off"; sp_balance_strategy := "least_used"; sp_pinned_disk_id := None;
     sp_retention_days := None; sp_retention_max_bytes := None; sp_over_capacity_policy := "delete_oldest";
     sp_cache_buffer_seconds := Some 60; sp_deleted_at := None |}.

(** [upsert_for_camera(camera_id, {'record_mode': mode})] *)
Definition upsert_mode (camera_id : Z) (mode : string) (t : Store) : Store :=
  set_policies
    (match get_raw_for_camera camera_id t with
     | Some row => put_policy (with_mode mode row) (t_policies t)
     | None => t_policies t ++ [with_mode mode (default_policy (Some camera_id))]
     end) t.

Definition R := M EventWorld exn.

Definition set_mode (camera_id : Z) (mode : string) : R unit :=
  if negb (bool_decide (mode ∈ ["off"; "continuous"]%string)) then raise (InvalidParameterException "mode") else
  modify (fun w => set_store (add_reconcile camera_id (upsert_mode camera_id mode (ew_store w))) w).

Definition manual_start (camera_id : Z) (duration_s : option Z) : R Recording :=
  let! active := gets (fun w => get_active_manual camera_id (ew_store w)) in
  match active with
  | Some _ => raise (InvalidParameterException "already active")
  | None =>
      let! now := gets ew_now in
      let! planned := match duration_s with
                      | None => ret None
                      | Some d => if (d <? 5) || (24 * 3600 <? d) then raise (InvalidParameterException "duration")
                                  else ret (Some (now + d * SEC))
                      end in
      let! id := (fun w => let '(i, w1) := fresh_id w in (inr i, w1)) in
      let rec_ := new_recording id camera_id "manual" "protected" now None planned in
      modify (fun w => set_store (add_reconcile camera_id
        (set_recordings (t_recordings (ew_store w) ++ [rec_]) (ew_store w))) w) ;;;
      ret rec_
  end.

(** [_close]: end the row now and mark the segments it overlaps *)
Definition close_manual (r : Recording) (t : Store) : Store :=
  let t1 := set_recordings (put_recording (close_rec (t_now t) r) (t_recordings t)) t in
  let ids := sg_id <$> get_range (rc_camera_id r) (rc_start_ts r) (t_now t) None t1 in
  set_segments ((fun s => if bool_decide (sg_id s ∈ ids) then mark_reason "manual" s else s) <$> t_segments t1) t1.

Definition manual_stop (camera_id : Z) (recording_id : option Z) : R Recording :=
  let! r := gets (fun w => match recording_id with
                           | Some i => if i =? 0 then get_active_manual camera_id (ew_store w)
                                       else recording_get_by_id i (ew_store w)
                           | None => get_active_manual camera_id (ew_store w)
                           end) in
  match r with
  | None => raise RowNotFoundException
  | Some r =>
      if negb (rc_camera_id r =? camera_id) || negb (bool_decide (rc_reason r = "manual"%string)) ||
         bool_decide (rc_end_ts r <> None)
      then raise RowNotFoundException
      else modify (fun w => set_store (add_reconcile camera_id (close_manual r (ew_store w))) w) ;;; ret r
  end.

Definition autoclose_due (w : EventWorld) : Z * EventWorld :=
  let due := due_manual (ew_now w) 200 (ew_store w) in
  (Z.of_nat (length due),
   set_store (foldl (fun t r => add_reconcile (rc_camera_id r) (close_manual r t)) (ew_store w) due) w).

Section Protect.
(** uuid of a live camera *)
Context (camera_uuid : Z -> option string).

Definition protect (actor : option subject) (recording_id : Z) (protected : bool) : R unit :=
  let! r := gets (fun w => recording_get_by_id recording_id (ew_store w)) in
  match r with
  | None => raise RowNotFoundException
  | Some r =>
      match camera_uuid (rc_camera_id r) with
      | None => raise RowNotFoundException              (* Camera.get_by_id raises *)
      | Some uuid =>
          if negb (has_camera_scope actor uuid "view") then raise NoPermissionException
          else modify (fun w => set_store (set_recordings (put_recording (set_protected protected r)
                                   (t_recordings (ew_store w))) (ew_store w)) w)
      end
  end.
End Protect.

(** ** At most one running manual recording per camera *)

Definition is_running_manual (r : Recording) : bool :=
  bool_decide (rc_reason r = "manual"%string) && bool_decide (rc_end_ts r = None) && bool_decide (rc_deleted_at r = None).

Record rec_ok (w : EventWorld) : Prop := {
  ro_nodup : NoDup (rc_id <$> t_recordings (ew_store w));
  ro_fresh : forall r, r ∈ t_recordings (ew_store w) -> rc_id r < ew_next_id w;
  ro_running : forall r1 r2, r1 ∈ t_recordings (ew_store w) -> r2 ∈ t_recordings (ew_store w) ->
    is_running_manual r1 = true -> is_running_manual r2 = true -> rc_camera_id r1 = rc_camera_id r2 -> r1 = r2
}.

(** [r] is [r0] later on: the same row, not reopened. *)
Definition rc_evolves (r0 r : Recording) : Prop :=
  rc_id r = rc_id r0 /\ rc_camera_id r = rc_camera_id r0 /\ (is_running_manual r = true -> is_running_manual r0 = true).

Lemma elem_of_put_rec r l x :
  x ∈ put_recording r l <-> (x = r /\ exists y, y ∈ l /\ rc_id y = rc_id r) \/ (x ∈ l /\ rc_id x <> rc_id r).
Proof.
  unfold put_recording. rewrite list_elem_of_fmap. split.
  - intros (y & -> & Hy). destruct (Z.eqb_spec (rc_id y) (rc_id r)); [left|right]; eauto.
  - intros [(-> & y & Hy & E)|[Hx Hne]].
    + exists y. by rewrite E, Z.eqb_refl.
    + exists x. by destruct (Z.eqb_spec (rc_id x) (rc_id r)).
Qed.

Lemma put_recording_ids r l : rc_id <$> put_recording r l = rc_id <$> l.
Proof.
  unfold put_recording. rewrite <- list_fmap_compose. apply list_fmap_ext. intros i x _. cbn.
  by destruct (Z.eqb_spec (rc_id x) (rc_id r)).
Qed.

(** The recordings and the id counter are all [rec_ok] looks at. *)
Lemma rec_ok_same w w' :
  t_recordings (ew_store w') = t_recordings (ew_store w) -> ew_next_id w <= ew_next_id w' -> rec_ok w -> rec_ok w'.
Proof. intros E Hle [Hn Hf Hr]. split; rewrite ?E; [done| |done]. intros r Hr'. specialize (Hf r Hr'). lia. Qed.

Lemma rec_ok_put w w' r0 r :
  t_recordings (ew_store w') = put_recording r (t_recordings (ew_store w)) -> ew_next_id w <= ew_next_id w' ->
  rec_ok w -> r0 ∈ t_recordings (ew_store w) -> rc_evolves r0 r -> rec_ok w'.
Proof.
  intros E Hle [Hn Hf Hr] H0 (Hid & Hcam & Hrun). split; rewrite E.
  - by rewrite put_recording_ids.
  - intros x [(-> & y & Hy & Ey)|[Hx _]]%elem_of_put_rec; [rewrite <- Ey|]; [specialize (Hf y Hy)|specialize (Hf x Hx)]; lia.
  - assert (Hmix : forall x, x ∈ t_recordings (ew_store w) -> rc_id x <> rc_id r -> is_running_manual r = true ->
        is_running_manual x = true -> rc_camera_id r = rc_camera_id x -> False).
    { intros x Hx Hne Hr1 Hx1 Ec. apply Hne. rewrite Hid. f_equal. apply Hr; auto. congruence. }
    intros x y [(-> & _)|[Hx Hxne]]%elem_of_put_rec [(-> & _)|[Hy Hyne]]%elem_of_put_rec H1 H2 Ec;
      [done|exfalso; by eapply (Hmix y)|exfalso; by eapply (Hmix x)|by apply Hr].
Qed.

Lemma rec_ok_add w w' r :
  t_recordings (ew_store w') = t_recordings (ew_store w) ++ [r] -> rc_id r = ew_next_id w -> ew_next_id w < ew_next_id w' ->
  rec_ok w ->
  (forall x, x ∈ t_recordings (ew_store w) -> is_running_manual r = true -> is_running_manual x = true ->
     rc_camera_id x <> rc_camera_id r) -> rec_ok w'.
Proof.
  intros E Hid Hlt [Hn Hf Hr] Hnew. split; rewrite E.
  - rewrite fmap_app. apply NoDup_app. split_and!; [done| |apply NoDup_singleton].
    intros i (x & Ex & Hx)%list_elem_of_fmap Hi%list_elem_of_singleton. cbn in Hi. specialize (Hf _ Hx). lia.
  - intros x [Hx| ->%list_elem_of_singleton]%elem_of_app; [specialize (Hf x Hx)|]; lia.
  - intros x y [Hx| ->%list_elem_of_singleton]%elem_of_app [Hy| ->%list_elem_of_singleton]%elem_of_app H1 H2 Ec;
      [by apply Hr|by destruct (Hnew x Hx)|by destruct (Hnew y Hy)|done].
Qed.

Lemma close_evolves t r : rc_evolves r (close_rec t r).
Proof.
  split; [done|]. split; [done|]. unfold is_running_manual. cbn [rc_end_ts close_rec].
  rewrite (bool_decide_eq_false_2 (Some t = None)) by done. by rewrite andb_false_r.
Qed.

Lemma set_protected_evolves b r : rc_evolves r (set_protected b r).
Proof. done. Qed.

Lemma extend_evolves a b r : rc_evolves r (extend_rec a b r).
Proof.
  split; [done|]. split; [done|]. unfold is_running_manual. cbn [rc_end_ts extend_rec rc_reason rc_deleted_at].
  destruct (rc_end_ts r) as [e|]; [destruct (e <? b)|]; rewrite (bool_decide_eq_false_2 (Some _ = None)) by done;
    by rewrite andb_false_r.
Qed.

Lemma materialize_rec_ok e pre post w :
  ev_ok w -> e ∈ ew_events w -> ev_deleted_at e = None -> rec_ok w ->
  rec_ok (snd (materialize (ev_id e) pre post w)).
Proof.
  intros Hok He Hd Hr. unfold materialize. rewrite get_by_id_row by done.
  destruct (find_overlapping _ _ _ _ _) as [old|] eqn:Ef; cbn [snd].
  - apply find_overlapping_row in Ef as (Ho & _). eapply (rec_ok_put w); [reflexivity|cbn; lia|done|exact Ho|apply extend_evolves].
  - eapply (rec_ok_add w); [reflexivity|done|cbn; lia|done|]. by intros x _ Hx.
Qed.

Lemma process_rec_ok utc_offset cam n source w :
  ev_ok w -> rec_ok w -> rec_ok (snd (process utc_offset cam n source w)).
Proof.
  intros Hok Hr. destruct (process_processed utc_offset cam n source w Hok)
    as [r|e w1 e' w' H1 H2 H3 _ _ Hst _ Hnx Ho]; [done|]. cbn [snd].
  assert (Hr1 : rec_ok w1) by (apply (rec_ok_same w); [by rewrite Hst|done|done]).
  destruct Ho as [Hu|a Ha|a b Ha|p r w2 b Hp Hm].
  - done.
  - by apply (rec_ok_same w1).
  - apply (rec_ok_same w1); destruct b; cbn; try done; lia.
  - destruct (put_ev_ok e (with_action "record" e) w1 H1 H2 (evolves_action _ _)) as [H1' H2'].
    pose proof (materialize_rec_ok (with_action "record" e) (ep_pre_buffer_s p) (ep_post_buffer_s p) _ H1' H2' H3) as Hm'.
    cbn [ev_id with_action] in Hm'. rewrite Hm in Hm'. cbn [snd] in Hm'.
    apply (rec_ok_same w2); [| |apply Hm'; by apply (rec_ok_same w1)].
    + destruct (mark_trigger_frame (dedup_key cam n) (ep_cooldown_s p) w2) as (E & _). by destruct b.
    + assert (ew_next_id (mark_trigger (dedup_key cam n) (ep_cooldown_s p) w2) = ew_next_id w2) as E
        by (unfold mark_trigger; by case_match). destruct b; cbn; rewrite ?E; subst w0; lia.
Qed.

Lemma get_active_manual_None cam t r :
  get_active_manual cam t = None -> r ∈ t_recordings t -> is_running_manual r = true -> rc_camera_id r <> cam.
Proof.
  intros Hf Hr Hrun E. eapply find_none in Hf; [|by apply list_elem_of_In]. cbv beta in Hf.
  unfold is_running_manual in Hrun. rewrite !andb_true_iff, !bool_decide_eq_true in Hrun. destruct Hrun as [[H1 H2] H3].
  rewrite E, Z.eqb_refl in Hf. by rewrite !bool_decide_eq_true_2 in Hf.
Qed.

Lemma close_manual_recordings r t :
  t_recordings (close_manual r t) = put_recording (close_rec (t_now t) r) (t_recordings t).
Proof. done. Qed.

Lemma autoclose_rec_ok w : rec_ok w -> rec_ok (snd (autoclose_due w)).
Proof.
  intros Hr. unfold autoclose_due. cbn [snd].
  assert (Hl : forall r, r ∈ due_manual (ew_now w) 200 (ew_store w) ->
            exists x, x ∈ t_recordings (ew_store w) /\ rc_id x = rc_id r /\ rc_camera_id x = rc_camera_id r).
  { intros r Hin. exists r. split; [|done]. unfold due_manual, limit in Hin. apply elem_of_take in Hin as (i & Hi & _).
    by apply list_elem_of_lookup_2, elem_of_filter_In in Hi as [? _]. }
  revert Hl. generalize (due_manual (ew_now w) 200 (ew_store w)) as l.
  assert (Hgen : forall l t, rec_ok (set_store t w) ->
    (forall r, r ∈ l -> exists x, x ∈ t_recordings t /\ rc_id x = rc_id r /\ rc_camera_id x = rc_camera_id r) ->
    rec_ok (set_store (foldl (fun t r => add_reconcile (rc_camera_id r) (close_manual r t)) t l) w)).
  { induction l as [|r l IH]; intros t Ht Hl; [done|]. cbn [foldl].
    destruct (Hl r ltac:(by left)) as (x & Hx & Hid & Hcam). apply IH.
    - eapply (rec_ok_put (set_store t w)); [reflexivity|cbn; lia|done|exact Hx|].
      destruct (close_evolves (t_now t) r) as (_ & _ & Hrun). split; [by rewrite Hid|]. split; [by rewrite Hcam|].
      intros Hc. unfold is_running_manual in Hc. cbn [rc_end_ts close_rec] in Hc.
      rewrite (bool_decide_eq_false_2 (Some _ = None)) in Hc by done. by rewrite andb_false_r in Hc.
    - intros y Hy. destruct (Hl y ltac:(by right)) as (z & Hz & Hzi & Hzc).
      destruct (decide (rc_id z = rc_id r)) as [E|E].
      + exists (close_rec (t_now t) r). split; [apply elem_of_put_rec; left; eauto|]. cbn [rc_id rc_camera_id close_rec].
        split; [congruence|]. rewrite <- Hzc, <- Hcam. f_equal. apply (nodup_key_inj rc_id (t_recordings t));
          [apply Ht|done|done|congruence].
      + exists z. split; [apply elem_of_put_rec; by right|done]. }
  intros l Hl. apply Hgen; [|done]. by destruct Hr.
Qed.

Inductive rec_op :=
| RStart (cam : Z) (duration_s : option Z)
| RStop (cam : Z) (recording_id : option Z)
| RAutoclose
| RProtect (actor : option subject) (recording_id : Z) (b : bool)
| RMode (cam : Z) (mode : string)
| REvent (cam : Z) (n : NormalizedEvent) (source : string)
| RSweep
| RCleanup
| RRetention
| RTick (dt : Z).

Section Histories.
Context (utc_offset : Z -> Z) (camera_uuid : Z -> option string).
Context (unlink_denied : Z * string -> bool) (disk_usage : Disk -> gset (Z * string) -> option (Z * Z)).

Definition rec_step (o : rec_op) (w : EventWorld) : EventWorld :=
  match o with
  | RStart cam d => snd (manual_start cam d w)
  | RStop cam i => snd (manual_stop cam i w)
  | RAutoclose => snd (autoclose_due w)
  | RProtect actor i b => snd (protect camera_uuid actor i b w)
  | RMode cam m => snd (set_mode cam m w)
  | REvent cam n source => snd (process utc_offset cam n source w)
  | RSweep => snd (active_event_sweeper w)
  | RCleanup => cleanup_events w
  | RRetention => set_store (snd (run_retention unlink_denied disk_usage (ew_store w))) w
  | RTick dt => set_store (advance dt (ew_store w)) w
  end.

Definition rec_run (w : EventWorld) (ops : list rec_op) : EventWorld := foldl (fun w o => rec_step o w) w ops.

Lemma sweep_store l w :
  ew_store (foldl (fun w e => put_ev (close_event (ew_now w) e) w) w l) = ew_store w /\
  ew_next_id (foldl (fun w e => put_ev (close_event (ew_now w) e) w) w l) = ew_next_id w.
Proof. revert w. induction l as [|e l IH]; intros w; [done|]. cbn [foldl]. by rewrite !(proj1 (IH _)), !(proj2 (IH _)). Qed.

Lemma ev_ok_frame w w' :
  ew_events w' = ew_events w -> ew_next_id w <= ew_next_id w' -> ev_ok w -> ev_ok w'.
Proof. intros E Hle [Hn Hf Ha]. split; rewrite ?E; [done| |done]. intros e He. specialize (Hf e He). lia. Qed.

Definition both_ok (w : EventWorld) : Prop := ev_ok w /\ rec_ok w.

Lemma both_ok_same w w' :
  ew_events w' = ew_events w -> t_recordings (ew_store w') = t_recordings (ew_store w) ->
  ew_next_id w <= ew_next_id w' -> both_ok w -> both_ok w'.
Proof. intros H1 H2 H3 [He Hr]. split; [by apply (ev_ok_frame w)|by apply (rec_ok_same w)]. Qed.

Lemma both_ok_put w w' r0 r :
  ew_events w' = ew_events w -> t_recordings (ew_store w') = put_recording r (t_recordings (ew_store w)) ->
  ew_next_id w <= ew_next_id w' -> r0 ∈ t_recordings (ew_store w) -> rc_evolves r0 r -> both_ok w -> both_ok w'.
Proof. intros H1 H2 H3 H4 H5 [He Hr]. split; [by apply (ev_ok_frame w)|by eapply (rec_ok_put w)]. Qed.

Lemma manual_start_ok cam d w : both_ok w -> both_ok (snd (manual_start cam d w)).
Proof.
  intros [He Hr]. unfold manual_start, bind, gets, ret, raise, modify.
  destruct (get_active_manual cam (ew_store w)) eqn:Eg; [done|].
  destruct d as [d|]; [destruct (_ || _); [done|]|]; cbn [fresh_id snd];
    (split; [apply (ev_ok_frame w); [done|cbn; lia|done]|]);
    (eapply (rec_ok_add w); [reflexivity|done|cbn; lia|done|]; intros x Hx _ Hrun; by eapply get_active_manual_None).
Qed.

Lemma manual_stop_ok cam i w : both_ok w -> both_ok (snd (manual_stop cam i w)).
Proof.
  intros Hok. unfold manual_stop, bind, gets, ret, raise, modify.
  assert (Hrow : forall r, (match i with Some i => if i =? 0 then get_active_manual cam (ew_store w)
      else recording_get_by_id i (ew_store w) | None => get_active_manual cam (ew_store w) end) = Some r ->
      r ∈ t_recordings (ew_store w)).
  { intros r. destruct i as [i|]; [destruct (i =? 0)|]; intros Hf; by apply find_some in Hf as [?%list_elem_of_In _]. }
  destruct (match i with Some _ => _ | None => _ end) as [r|]; [|done]. specialize (Hrow r eq_refl).
  destruct (_ || _); [done|]. cbn [snd].
  eapply (both_ok_put w); [done|apply close_manual_recordings|done|exact Hrow|apply close_evolves|done].
Qed.

Lemma protect_ok actor i b w : both_ok w -> both_ok (snd (protect camera_uuid actor i b w)).
Proof.
  intros Hok. unfold protect, bind, gets, ret, raise, modify. destruct (recording_get_by_id _ _) as [r|] eqn:Eg; [|done].
  destruct (camera_uuid _); [|done]. destruct (negb _); [done|]. cbn [snd].
  apply find_some in Eg as [Hr%list_elem_of_In _].
  by eapply (both_ok_put w); [done|reflexivity|done|exact Hr|apply (set_protected_evolves b)|].
Qed.

Lemma rec_step_ok o w : both_ok w -> both_ok (rec_step o w).
Proof.
  intros Hok. destruct o; cbn [rec_step].
  - by apply manual_start_ok.
  - by apply manual_stop_ok.
  - destruct Hok as [He Hr]. split; [by apply (ev_ok_frame w)|by apply autoclose_rec_ok].
  - by apply protect_ok.
  - unfold set_mode, raise, modify. destruct (negb _); [done|]. by apply (both_ok_same w).
  - destruct Hok. split; [by apply process_ok|by apply process_rec_ok].
  - destruct Hok as [He Hr]. split; [by apply sweeper_ok|]. unfold active_event_sweeper. cbn [snd].
    destruct (sweep_store (get_stale_active (ew_now w - MAX_ACTIVE_AGE_S * SEC) 1000 w) w) as [E1 E2].
    apply (rec_ok_same w); [by rewrite E1|by rewrite E2|done].
  - destruct Hok as [He Hr]. split; [by apply cleanup_ok|by apply (rec_ok_same w)].
  - apply (both_ok_same w); [done|apply run_retention_base|done|done].
  - by apply (both_ok_same w).
Qed.
End Histories.

(** Through manual starts and stops, auto-stop, the protection toggle, mode
    changes, camera events, maintenance and retention, a camera never has two
    running manual recordings, and recording ids stay unique. *)
Theorem one_running_manual_per_camera utc_offset camera_uuid unlink_denied disk_usage w ops :
  ew_events w = [] -> t_recordings (ew_store w) = [] ->
  let l := t_recordings (ew_store (rec_run utc_offset camera_uuid unlink_denied disk_usage w ops)) in
  NoDup (rc_id <$> l) /\
  forall r1 r2, r1 ∈ l -> r2 ∈ l -> is_running_manual r1 = true -> is_running_manual r2 = true ->
    rc_camera_id r1 = rc_camera_id r2 -> r1 = r2.
Proof.
  intros He Hr. assert (Hok : both_ok w).
  { split; [by apply ev_ok_empty|]. split; rewrite Hr; [apply NoDup_nil_2|..].
    - intros r H. by apply elem_of_nil in H.
    - intros r1 r2 H. by apply elem_of_nil in H. }
  assert (Hrun : both_ok (rec_run utc_offset camera_uuid unlink_denied disk_usage w ops)).
  { clear He Hr. revert w Hok. unfold rec_run. induction ops as [|o ops IH]; intros w Hok; [done|].
    cbn [foldl]. by apply IH, rec_step_ok. }
  destruct Hrun as [_ [H1 _ H3]]. done.
Qed.

(** ** The mode switch and an inherited policy *)

(** Switching the mode of a camera that inherits the global policy gives it a
    policy of its own built from the column defaults: the retention period and
    the byte cap it inherited no longer apply to it. *)
Theorem set_mode_drops_inherited_limits camera_id mode w :
  mode ∈ ["off"; "continuous"]%string -> get_raw_for_camera camera_id (ew_store w) = None ->
  get_for_camera camera_id (ew_store (snd (set_mode camera_id mode w)))
    = Some (with_mode mode (default_policy (Some camera_id))).
Proof.
  intros Hm Hraw. unfold set_mode. rewrite bool_decide_eq_true_2 by done. cbn [negb modify snd].
  unfold upsert_mode. rewrite Hraw. unfold get_for_camera, get_raw_for_camera in *.
  cbn [ew_store set_store add_reconcile t_policies set_policies].
  assert (Hf : forall (f : StoragePolicy -> bool) l x, List.find f l = None -> f x = true -> List.find f (l ++ [x]) = Some x).
  { intros f l x. induction l as [|y l IH]; cbn; [by intros _ ->|]. destruct (f y); [done|]. by apply IH. }
  erewrite Hf; [done|exact Hraw|]. cbn [sp_camera_id sp_deleted_at with_mode default_policy].
  by rewrite !bool_decide_eq_true_2.
Qed.

(** ** Witnesses *)

Definition demo_recording_world : EventWorld :=
  set_store (set_recordings [] (ew_store demo_ew)) demo_ew.

Lemma one_running_manual_per_camera_witness :
  let l := t_recordings (ew_store (rec_run kst (fun _ => None) (fun _ => false) demo_usage demo_recording_world
             [RStart 1 (Some 60); RStart 1 None; REvent 1 (demo_event "start") "isapi"; RTick (61 * SEC); RAutoclose;
              RStart 1 None; RRetention])) in
  length l = 3%nat /\ NoDup (rc_id <$> l).
Proof.
  split; [vm_compute; reflexivity|].
  apply (one_running_manual_per_camera kst (fun _ => None) (fun _ => false) demo_usage demo_recording_world); reflexivity.
Defined.

Lemma set_mode_drops_inherited_limits_witness :
  (get_for_camera 1 (ew_store demo_ew) ≫= sp_retention_days) = Some 1 /\
  (get_for_camera 1 (ew_store (snd (set_mode 1 "continuous" demo_ew))) ≫= sp_retention_days) = None.
Proof.
  split; [vm_compute; reflexivity|].
  rewrite (set_mode_drops_inherited_limits 1 "continuous" demo_ew); [reflexivity|decide_it|vm_compute; reflexivity].
Defined.
