(* ===== verification/Policies.v ===== *)
(** * The storage page: disks and policies

    src/server/controller/storage.py, the queries and [upsert_for_camera] of
    model/storage_policy.py, model/disk.py, service/disk_scanner.py.

    The world is the Store with the mount paths of its disks, deleted ones too: the database
    keeps those unique.  Parameters: what the file system says of a path (a directory, can be
    written to, its usage), the candidates the system lists.  The device, fs_uuid and
    event_retention_days columns are not kept, numbers of a request come after [safe_int]. *)

From S2P Require Import Prelude PyStr Redis Permission Token Storage Sweep EventPipeline Recordings.
Local Open Scope Z_scope.
Local Open Scope list_scope.

Record PoolWorld := { pl_store : Store; pl_mounts : list (Z * string); pl_next : Z; pl_audit : list (string * Z); pl_queued : list Z (* evacuations *) }.
Definition PM (A : Type) : Type := M PoolWorld exn A.
Definition set_pool (t : Store) (w : PoolWorld) : PoolWorld := {| pl_store := t; pl_mounts := pl_mounts w; pl_next := pl_next w; pl_audit := pl_audit w; pl_queued := pl_queued w |}.
Definition audit (what : string) (disk_id : Z) (w : PoolWorld) : PoolWorld :=
  {| pl_store := pl_store w; pl_mounts := pl_mounts w; pl_next := pl_next w; pl_audit := pl_audit w ++ [(what, disk_id)]; pl_queued := pl_queued w |}.

(** ** Policies *)

(** the allowed keys of a request that are not null *)
Record PolicyFields := {
  pf_segment_seconds : option Z; pf_container : option string; pf_record_mode : option string; pf_balance_strategy : option string; pf_pinned_disk_id : option Z;
  pf_retention_days : option Z; pf_retention_max_bytes : option Z; pf_over_capacity_policy : option string; pf_cache_buffer_seconds : option Z
}.
Definition with_fields (f : PolicyFields) (p : StoragePolicy) : StoragePolicy :=
  let keep {A} (new old : option A) : option A := match new with Some v => Some v | None => old end in
  {| sp_camera_id := sp_camera_id p; sp_segment_seconds := default (sp_segment_seconds p) (pf_segment_seconds f); sp_container := default (sp_container p) (pf_container f);
     sp_record_mode := default (sp_record_mode p) (pf_record_mode f); sp_balance_strategy := default (sp_balance_strategy p) (pf_balance_strategy f);
     sp_pinned_disk_id := keep (pf_pinned_disk_id f) (sp_pinned_disk_id p); sp_retention_days := keep (pf_retention_days f) (sp_retention_days p);
     sp_retention_max_bytes := keep (pf_retention_max_bytes f) (sp_retention_max_bytes p);
     sp_over_capacity_policy := default (sp_over_capacity_policy p) (pf_over_capacity_policy f);
     sp_cache_buffer_seconds := keep (pf_cache_buffer_seconds f) (sp_cache_buffer_seconds p); sp_deleted_at := sp_deleted_at p |}.

(** the row of a camera, or the global one *)
Definition own_policy (camera_id : option Z) (t : Store) : option StoragePolicy :=
  match camera_id with Some c => get_raw_for_camera c t | None => get_global t end.
(** [upsert_for_camera]; the camera id of a request is never 0 *)
Definition upsert_for_camera (camera_id : option Z) (f : PolicyFields) (t : Store) : StoragePolicy * Store :=
  match own_policy camera_id t with
  | Some row => let p := with_fields f row in (p, set_policies (put_policy p (t_policies t)) t)
  | None => let p := with_fields f (default_policy camera_id) in (p, set_policies (t_policies t ++ [p]) t)
  end.

(** the policy and whether it warns of an overcommitted pool *)
Definition update_policy (camera_id : option Z) (f : PolicyFields) : PM (StoragePolicy * bool) :=
  match pf_record_mode f with
  | Some m => if negb (bool_decide (m ∈ ["off"; "continuous"]%string)) then raise (InvalidParameterException "invalid record_mode") else ret tt
  | None => ret tt
  end ;;;
  fun w =>
    let prev_mode := match own_policy camera_id (pl_store w) with Some p => sp_record_mode p | None => "off"%string end in
    let '(p, t) := upsert_for_camera camera_id f (pl_store w) in
    let warning := check_pool_overcommit (if truthy_Z (pf_retention_max_bytes f) then pf_retention_max_bytes f else None) t in
    let t1 := match camera_id with Some c => if bool_decide (sp_record_mode p = prev_mode) then t else add_reconcile c t | None => t end in
    (inr (p, warning), set_pool t1 w).

(** [camera_usage], of a camera *)
Record CameraUsage := { cu_used_bytes : Z; cu_retention_max_bytes : option Z; cu_retention_days : option Z; cu_has_override : bool }.
Definition camera_usage (cam : Z) (t : Store) : CameraUsage :=
  let raw := get_raw_for_camera cam t in
  let or_global f := match raw ≫= f with Some v => Some v | None => get_global t ≫= f end in
  {| cu_used_bytes := total_size_for_camera cam t; cu_retention_max_bytes := or_global sp_retention_max_bytes; cu_retention_days := or_global sp_retention_days;
     cu_has_override := bool_decide (is_Some raw) |}.

(** ** Disks *)

Section Disks.
Context (is_dir writable : string -> bool) (disk_usage : Disk -> gset (Z * string) -> option (Z * Z)).

Definition mount_of (id : Z) (w : PoolWorld) : option string := snd <$> List.find (fun p => fst p =? id) (pl_mounts w).
Definition get_by_mount_path (path : string) (w : PoolWorld) : option Disk :=
  List.find (fun d => bool_decide (mount_of (dk_id d) w = Some path) && bool_decide (dk_deleted_at d = None)) (t_disks (pl_store w)).

Record DiskData := { dd_mount_path : option string; dd_name : option string; dd_role : option string; dd_enabled : bool; dd_reserved : Z; dd_weight : Z }.
Definition VALID_ROLES : list string := ["system"; "cache"; "record"]%string.
Definition create_disk (d : DiskData) : PM Disk :=
  let mount_path := strip (or_str (dd_mount_path d) "") in
  let name := strip (or_str (dd_name d) "") in
  let role := or_str (dd_role d) "record" in
  if bool_decide (mount_path = EmptyString) || bool_decide (name = EmptyString) then raise (InvalidParameterException "mount_path and name are required") else
  if negb (bool_decide (role ∈ VALID_ROLES)) then raise (InvalidParameterException "invalid role") else
  if negb (is_dir mount_path) then raise (InvalidParameterException "mount_path is not a directory") else
  if negb (writable mount_path) then raise (InvalidParameterException "mount_path is not writable") else
  let! known := gets (get_by_mount_path mount_path) in
  match known with
  | Some _ => raise (ConflictException "disk already registered")
  | None =>
      let! taken := gets (fun w => existsb (fun p => bool_decide (snd p = mount_path)) (pl_mounts w)) in
      if taken : bool then raise IntegrityError else        (* the column is unique, over deleted rows too *)
      fun w =>
        let id := pl_next w in
        let disk := {| dk_id := id; dk_name := name; dk_role := role; dk_enabled := dd_enabled d; dk_reserved_free_bytes := Some (dd_reserved d); dk_total_bytes := Some 0;
                       dk_free_bytes := Some 0; dk_weight := Some (dd_weight d); dk_status := "online"; dk_deleted_at := None |} in
        let t := refresh_usage disk_usage disk (set_disks (t_disks (pl_store w) ++ [disk]) (pl_store w)) in
        (inr (default disk (live_disk id t)),
         audit "disk_registered" id {| pl_store := t; pl_mounts := pl_mounts w ++ [(id, mount_path)]; pl_next := id + 1; pl_audit := pl_audit w; pl_queued := pl_queued w |})
  end.

(** the fields given *)
Record DiskPatch := { dp_name : option string; dp_role : option string; dp_enabled : option bool; dp_reserved : option Z; dp_weight : option Z }.
Definition edited_disk (p : DiskPatch) (d : Disk) : Disk :=
  {| dk_id := dk_id d; dk_name := default (dk_name d) (dp_name p);
     dk_role := match dp_role p with Some r => if bool_decide (r ∈ VALID_ROLES) then r else dk_role d | None => dk_role d end;
     dk_enabled := default (dk_enabled d) (dp_enabled p); dk_reserved_free_bytes := match dp_reserved p with Some v => Some v | None => dk_reserved_free_bytes d end;
     dk_total_bytes := dk_total_bytes d; dk_free_bytes := dk_free_bytes d; dk_weight := match dp_weight p with Some v => Some v | None => dk_weight d end;
     dk_status := dk_status d; dk_deleted_at := dk_deleted_at d |}.
Definition save_disk (d : Disk) (w : PoolWorld) : PoolWorld := set_pool (set_disks (put_disk d (t_disks (pl_store w))) (pl_store w)) w.
Definition update_disk (id : Z) (p : DiskPatch) : PM Disk :=
  let! d := gets (fun w => live_disk id (pl_store w)) in
  match d with None => raise RowNotFoundException | Some d => modify (save_disk (edited_disk p d)) ;;; ret (edited_disk p d) end.

(** [delete_disk]; the row is written by [Sweep.delete_disk] *)
Definition remove_disk (id : Z) (mode : string) : PM unit :=
  let! r := fun w => let '(r, t) := delete_disk id mode (pl_store w) in (inr r, set_pool t w) in
  match r with
  | DiskNotFound => raise RowNotFoundException
  | EvacQueued => modify (fun w => audit "disk_evacuate" id {| pl_store := pl_store w; pl_mounts := pl_mounts w; pl_next := pl_next w; pl_audit := pl_audit w; pl_queued := pl_queued w ++ [id] |})
  | Unregistered => modify (audit "disk_unregistered" id)
  end.
Definition refresh_all_usage (w : PoolWorld) : PoolWorld :=
  set_pool (foldl (fun t d => refresh_usage disk_usage d t) (pl_store w) (List.filter (fun d => bool_decide (dk_deleted_at d = None)) (t_disks (pl_store w)))) w.

(** [Disk.get_all] by role and name; the order of the rows is the database's *)
Context (by_role_name : list Disk -> list Disk).
Definition get_all (t : Store) : list Disk := by_role_name (List.filter (fun d => bool_decide (dk_deleted_at d = None)) (t_disks t)).
(** a dict by role, in the order the roles come *)
Record RoleSum := { ro_count : Z; ro_total_bytes : Z; ro_free_bytes : Z; ro_reserved_bytes : Z }.
Definition no_disks : RoleSum := {| ro_count := 0; ro_total_bytes := 0; ro_free_bytes := 0; ro_reserved_bytes := 0 |}.
Definition count_disk (d : Disk) (r : RoleSum) : RoleSum :=
  {| ro_count := ro_count r + 1; ro_total_bytes := ro_total_bytes r + or_Z (dk_total_bytes d) 0; ro_free_bytes := ro_free_bytes r + or_Z (dk_free_bytes d) 0;
     ro_reserved_bytes := ro_reserved_bytes r + or_Z (dk_reserved_free_bytes d) 0 |}.
Fixpoint count_role (d : Disk) (l : list (string * RoleSum)) : list (string * RoleSum) :=
  match l with
  | [] => [(dk_role d, count_disk d no_disks)]
  | (r, s) :: l => if bool_decide (r = dk_role d) then (r, count_disk d s) :: l else (r, s) :: count_role d l
  end.
Fixpoint role_sum (role : string) (l : list (string * RoleSum)) : RoleSum :=
  match l with [] => no_disks | (r, s) :: l => if bool_decide (r = role) then s else role_sum role l end.
Definition disk_warning (d : Disk) : option string :=
  if negb (bool_decide (dk_status d = "online"%string)) then Some ("disk_offline:" +:+ dk_name d)
  else if or_Z (dk_free_bytes d) 0 <=? or_Z (dk_reserved_free_bytes d) 0 then Some ("disk_full:" +:+ dk_name d) else None.
Record PoolSummary := { su_roles : list (string * RoleSum); su_record_total_bytes : Z; su_warnings : list string; su_disks : list Disk }.
Definition pool_summary (t : Store) : PoolSummary :=
  let disks := get_all t in
  let roles := foldl (fun l d => count_role d l) [] disks in
  {| su_roles := roles; su_record_total_bytes := ro_total_bytes (role_sum "record" roles) + ro_total_bytes (role_sum "cache" roles);
     su_warnings := omap disk_warning disks; su_disks := disks |}.

(** [discover_candidates]: directories under the root, then partitions; [usable]: disk_usage answers *)
Definition REAL_FS : list string := ["ext4"; "ext3"; "ext2"; "xfs"; "btrfs"; "zfs"; "f2fs"; "apfs"; "ntfs"; "refs"]%string.
Definition registered_mounts (w : PoolWorld) : list string := omap (fun d => if bool_decide (dk_deleted_at d = None) then mount_of (dk_id d) w else None) (t_disks (pl_store w)).
Definition add_dir (usable : string -> bool) (taken : list string) (seen : list string) (mp : string) : list string :=
  if negb (is_dir mp) || bool_decide (mp ∈ taken) || bool_decide (mp ∈ seen) || negb (usable mp) then seen else seen ++ [mp].
Definition add_partition (usable : string -> bool) (root : string) (taken : list string) (seen : list string) (p : string * string) : list string :=
  let '(mp, fstype) := p in
  if bool_decide (mp ∈ taken) || bool_decide (mp ∈ seen) || bool_decide (mp = "/"%string) || negb (startswith root mp) then seen else
  if negb (bool_decide (fstype = EmptyString)) && negb (bool_decide (lower fstype ∈ REAL_FS)) then seen else
  if negb (usable mp) then seen else seen ++ [mp].
Definition discover_candidates (usable : string -> bool) (root : string) (dirs : list string) (partitions : list (string * string)) (w : PoolWorld) : list string :=
  let taken := registered_mounts w in
  let seen := if is_dir root then foldl (add_dir usable taken) [] dirs else [] in
  foldl (add_partition usable root taken) seen partitions.
End Disks.

(** ** A policy is written to its own row *)

Lemma find_snoc {A} (f : A -> bool) l x : List.find f l = None -> f x = true -> List.find f (l ++ [x]) = Some x.
Proof. induction l as [|y l IH]; cbn; [by intros _ ->|]. destruct (f y); [done|]. by apply IH. Qed.
Lemma find_snoc_other {A} (f : A -> bool) l x : f x = false -> List.find f (l ++ [x]) = List.find f l.
Proof. intros Hx. induction l as [|y l IH]; cbn; [by rewrite Hx|]. by destruct (f y). Qed.
Lemma find_nothing {A} (f : A -> bool) l : (forall y, y ∈ l -> f y = false) -> List.find f l = None.
Proof. induction l as [|x l IH]; intros H; [done|]. cbn. rewrite (H x) by set_solver. apply IH. set_solver. Qed.

(** The live row of a camera, or the global one, both by their camera_id. *)
Definition is_row (camera_id : option Z) (p : StoragePolicy) : bool := bool_decide (sp_camera_id p = camera_id) && bool_decide (sp_deleted_at p = None).
Lemma own_policy_row camera_id t : own_policy camera_id t = List.find (is_row camera_id) (t_policies t).
Proof.
  destruct camera_id; [done|]. cbn. unfold get_global. induction (t_policies t) as [|p l IH]; [done|]. cbn.
  replace (is_row None p) with (bool_decide (sp_camera_id p = None) && bool_decide (sp_deleted_at p = None)); [by rewrite IH|].
  unfold is_row. f_equal. by apply bool_decide_ext.
Qed.
Lemma is_row_spec camera_id p : is_row camera_id p = true <-> sp_camera_id p = camera_id /\ sp_deleted_at p = None.
Proof. unfold is_row. rewrite andb_true_iff, !bool_decide_eq_true. done. Qed.
Lemma not_row c p : sp_camera_id p <> c -> is_row c p = false.
Proof. intros H. apply not_true_iff_false. rewrite is_row_spec. by intros [? _]. Qed.

Lemma upsert_own camera_id f t :
  let p := with_fields f (default (default_policy camera_id) (own_policy camera_id t)) in
  fst (upsert_for_camera camera_id f t) = p /\ own_policy camera_id (snd (upsert_for_camera camera_id f t)) = Some p.
Proof.
  unfold upsert_for_camera. rewrite !own_policy_row. destruct (List.find _ _) as [row|] eqn:E; cbn [fst snd default t_policies set_policies]; (split; [done|]).
  - pose proof (find_some _ _ E) as [_ [Hc Hd]%is_row_spec]. eapply find_put_policy; [exact E|by apply is_row_spec|].
    intros x. change (sp_camera_id (with_fields f (id row))) with (sp_camera_id row). by rewrite Hc.
  - apply find_snoc; [exact E|]. by apply is_row_spec.
Qed.

Lemma upsert_other camera_id c f t :
  c <> camera_id -> own_policy c (snd (upsert_for_camera camera_id f t)) = own_policy c t.
Proof.
  intros Hc. unfold upsert_for_camera. rewrite !own_policy_row. destruct (List.find (is_row camera_id) _) as [row|] eqn:E; cbn [snd t_policies set_policies].
  - pose proof (find_some _ _ E) as [_ [Hr Hd]%is_row_spec]. apply find_put_policy_other.
    + intros x [Hx _]%is_row_spec. cbn in Hx. apply not_row. congruence.
    + apply not_row. cbn. congruence.
  - apply find_snoc_other, not_row. cbn. congruence.
Qed.

Lemma upsert_rest camera_id f t :
  let t' := snd (upsert_for_camera camera_id f t) in
  t_segments t' = t_segments t /\ t_cameras t' = t_cameras t /\ t_reconciled t' = t_reconciled t /\ t_disks t' = t_disks t.
Proof. unfold upsert_for_camera. by destruct (own_policy camera_id t). Qed.

Lemma update_policy_inr camera_id f w p warn w' :
  update_policy camera_id f w = (inr (p, warn), w') ->
  let mode0 := match own_policy camera_id (pl_store w) with Some q => sp_record_mode q | None => "off"%string end in
  let t := snd (upsert_for_camera camera_id f (pl_store w)) in
  (forall m, pf_record_mode f = Some m -> m ∈ ["off"; "continuous"]%string) /\
  p = fst (upsert_for_camera camera_id f (pl_store w)) /\
  w' = set_pool match camera_id with Some c => if bool_decide (sp_record_mode p = mode0) then t else add_reconcile c t | None => t end w.
Proof.
  intros H. unfold update_policy in H. apply bind_inr in H as (u & w1 & H1 & H).
  assert (w1 = w /\ forall m, pf_record_mode f = Some m -> m ∈ ["off"; "continuous"]%string) as [-> Hm].
  { destruct (pf_record_mode f) as [m|]; [|by injection H1 as _ <-]. destruct (bool_decide_reflect (m ∈ ["off"; "continuous"]%string)); [|discriminate H1].
    injection H1 as _ <-. split; [done|]. by intros m' [= <-]. }
  destruct (upsert_for_camera camera_id f (pl_store w)) as [q t] eqn:E. injection H as <- _ <-. by repeat split.
Qed.

(** A refused change writes nothing. *)
Lemma update_policy_inl camera_id f w e w' : update_policy camera_id f w = (inl e, w') -> w' = w.
Proof.
  unfold update_policy, bind. destruct (pf_record_mode f) as [m|]; [destruct (negb _)|]; [by intros [= _ <-]|..];
    cbn; by destruct (upsert_for_camera camera_id f (pl_store w)).
Qed.

Lemma own_told c camera_id (same : bool) t :
  own_policy c (match camera_id with Some cam => if same then t else add_reconcile cam t | None => t end) = own_policy c t.
Proof. destruct camera_id; [|done]. by destruct same. Qed.

(** A change of the policy of a camera, or of the global one, is written to that row and to no
    other: the row holds the fields given over what it had (the column defaults when there was
    no row), every other camera's row and the global one are as before, and the recorder is told
    iff the row's mode changed. *)
Theorem policy_change_keeps_its_row camera_id f w p warn w' :
  update_policy camera_id f w = (inr (p, warn), w') ->
  own_policy camera_id (pl_store w') = Some p /\
  p = with_fields f (default (default_policy camera_id) (own_policy camera_id (pl_store w))) /\
  (forall c, c <> camera_id -> own_policy c (pl_store w') = own_policy c (pl_store w)) /\
  (forall cam, camera_id = Some cam ->
     t_reconciled (pl_store w') = t_reconciled (pl_store w) ++
       (if bool_decide (sp_record_mode p = match own_policy camera_id (pl_store w) with Some q => sp_record_mode q | None => "off"%string end) then [] else [cam])).
Proof.
  intros (_ & -> & ->)%update_policy_inr. destruct (upsert_own camera_id f (pl_store w)) as [Hp Ho].
  rewrite Hp. destruct (upsert_rest camera_id f (pl_store w)) as (_ & _ & Hr & _). set (t := snd _) in *.
  cbn [pl_store set_pool]. repeat split.
  - by rewrite own_told, Ho.
  - intros c Hc. rewrite own_told. by apply upsert_other.
  - intros cam ->. case_bool_decide; cbn [t_reconciled add_reconcile]; rewrite Hr; [by rewrite app_nil_r|done].
Qed.

(** C12: A byte cap set through the storage page on an enabled camera whose policy then deletes the
    oldest holds after the next retention run, protected footage included; a camera with more to
    delete than the 5000 segments one run looks at loses 5000 of them. *)
Theorem new_cap_takes_effect unlink_denied disk_usage cam f w p warn w' cap :
  update_policy (Some cam) f w = (inr (p, warn), w') ->
  pf_retention_max_bytes f = Some cap -> 0 < cap -> sp_over_capacity_policy p = "delete_oldest"%string ->
  NoDup (sg_id <$> t_segments (pl_store w)) -> (forall s, s ∈ t_segments (pl_store w) -> 0 <= sg_size_bytes s) ->
  cam ∈ t_cameras (pl_store w) ->
  let t' := snd (run_retention unlink_denied disk_usage (pl_store w')) in
  total_size_for_camera cam t' <= cap \/ (batch_len cam t' + 5000 <= batch_len cam (pl_store w))%nat.
Proof.
  intros (_ & -> & ->)%update_policy_inr Hcap H0 Hd Hn Hpos Hc.
  destruct (upsert_own (Some cam) f (pl_store w)) as [Hp Ho]. destruct (upsert_rest (Some cam) f (pl_store w)) as (Hs & Hcam & _ & _).
  rewrite Hp in *. cbn [pl_store set_pool]. set (t := snd _) in *. set (t1 := if bool_decide _ then _ else _).
  assert (Hs1 : t_segments t1 = t_segments (pl_store w)) by (unfold t1; case_bool_decide; cbn [t_segments add_reconcile]; by rewrite Hs).
  replace (batch_len cam (pl_store w)) with (batch_len cam t1) by (unfold batch_len; by rewrite Hs1).
  apply (run_within_cap _ _ _ _ (with_fields f (default (default_policy (Some cam)) (own_policy (Some cam) (pl_store w))))); rewrite ?Hs1; try done.
  - unfold t1. case_bool_decide; cbn [t_cameras add_reconcile]; by rewrite Hcam.
  - unfold get_for_camera, t1. case_bool_decide; [|change (get_raw_for_camera cam (add_reconcile cam t)) with (get_raw_for_camera cam t)];
      cbn [own_policy] in Ho; by rewrite Ho.
  - cbn. by rewrite Hcap.
Qed.

(** ** Disks of the pool *)

Section DiskTheory.
Context (is_dir writable : string -> bool) (disk_usage : Disk -> gset (Z * string) -> option (Z * Z)).

(** What the database keeps of the disks: one row per id, one mount path per row, no two rows
    at one path; ids are handed out once. *)
Record pool_ok (w : PoolWorld) : Prop := {
  pk_ids : NoDup (dk_id <$> t_disks (pl_store w));
  pk_mounts : (fst <$> pl_mounts w) = (dk_id <$> t_disks (pl_store w));
  pk_paths : NoDup (snd <$> pl_mounts w);
  pk_fresh : forall d, d ∈ t_disks (pl_store w) -> dk_id d < pl_next w
}.

Lemma put_disk_ids d l : dk_id <$> put_disk d l = dk_id <$> l.
Proof. unfold put_disk. rewrite <- list_fmap_compose. apply list_fmap_ext. intros i x _. cbn. destruct (Z.eqb_spec (dk_id x) (dk_id d)); congruence. Qed.
Lemma refresh_usage_ids d t : dk_id <$> t_disks (refresh_usage disk_usage d t) = dk_id <$> t_disks t.
Proof. unfold refresh_usage. cbn [t_disks set_disks]. by rewrite put_disk_ids. Qed.
Lemma refresh_all_ids l t : dk_id <$> t_disks (foldl (fun t d => refresh_usage disk_usage d t) t l) = dk_id <$> t_disks t.
Proof. revert t. induction l as [|x l IH]; intros t; [done|]. cbn [foldl]. by rewrite IH, refresh_usage_ids. Qed.

Lemma pool_ok_same w w' :
  pool_ok w -> dk_id <$> t_disks (pl_store w') = dk_id <$> t_disks (pl_store w) -> pl_mounts w' = pl_mounts w -> pl_next w' = pl_next w -> pool_ok w'.
Proof.
  intros [H1 H2 H3 H4] Hd Hm Hn. split; rewrite ?Hd, ?Hm, ?Hn; try done.
  intros d Hin. assert (dk_id d ∈ dk_id <$> t_disks (pl_store w)) as (d' & -> & Hd')%list_elem_of_fmap by (rewrite <- Hd; by apply list_elem_of_fmap_2).
  by apply H4.
Qed.

(** the row a request registers, before its usage is read *)
Definition fresh_disk (d : DiskData) (w : PoolWorld) : Disk :=
  {| dk_id := pl_next w; dk_name := strip (or_str (dd_name d) ""); dk_role := or_str (dd_role d) "record"; dk_enabled := dd_enabled d; dk_reserved_free_bytes := Some (dd_reserved d); dk_total_bytes := Some 0;
     dk_free_bytes := Some 0; dk_weight := Some (dd_weight d); dk_status := "online"; dk_deleted_at := None |}.
Definition path_of (d : DiskData) : string := strip (or_str (dd_mount_path d) "").
Definition registered (d : DiskData) (w : PoolWorld) : PoolWorld :=
  audit "disk_registered" (pl_next w)
    {| pl_store := refresh_usage disk_usage (fresh_disk d w) (set_disks (t_disks (pl_store w) ++ [fresh_disk d w]) (pl_store w));
       pl_mounts := pl_mounts w ++ [(pl_next w, path_of d)]; pl_next := pl_next w + 1; pl_audit := pl_audit w; pl_queued := pl_queued w |}.

(** A registration is refused without a trace, or writes one row and its path. *)
Lemma create_disk_cases d w r w' :
  create_disk is_dir writable disk_usage d w = (r, w') ->
  (exists e, r = inl e /\ w' = w) \/
  (r = inr (default (fresh_disk d w) (live_disk (pl_next w) (pl_store w'))) /\ w' = registered d w /\
   path_of d <> EmptyString /\ or_str (dd_role d) "record" ∈ VALID_ROLES /\ is_dir (path_of d) = true /\ writable (path_of d) = true /\
   path_of d ∉ snd <$> pl_mounts w).
Proof.
  intros H. unfold create_disk in H. cbv zeta in H. change (strip (or_str (dd_mount_path d) "")) with (path_of d) in H.
  destruct (bool_decide_reflect (path_of d = EmptyString)) as [|Hne]; [left; by injection H as <- <-; eauto|].
  destruct (bool_decide (strip _ = _)); [left; by injection H as <- <-; eauto|]. cbn [orb] in H.
  destruct (bool_decide_reflect (or_str (dd_role d) "record" ∈ VALID_ROLES)) as [Hr|]; [|left; by injection H as <- <-; eauto]. cbn [negb] in H.
  destruct (is_dir (path_of d)) eqn:Hd; [|left; by injection H as <- <-; eauto]. cbn [negb] in H.
  destruct (writable (path_of d)) eqn:Hw; [|left; by injection H as <- <-; eauto]. cbn [negb] in H.
  unfold bind at 1, gets at 1 in H. destruct (get_by_mount_path (path_of d) w); [left; by injection H as <- <-; eauto|].
  unfold bind at 1, gets at 1 in H. destruct (existsb _ _) eqn:Et; [left; by injection H as <- <-; eauto|].
  injection H as <- <-. right. split_and!; try done.
  intros (x & Hxp & Hx)%list_elem_of_fmap. apply not_true_iff_false in Et. apply Et, existsb_exists. exists x.
  split; [by apply list_elem_of_In|]. by apply bool_decide_eq_true.
Qed.

Lemma registered_ok d w : pool_ok w -> path_of d ∉ snd <$> pl_mounts w -> pool_ok (registered d w).
Proof.
  intros [H1 H2 H3 H4] Hp. split; cbn [registered audit pl_store pl_mounts pl_next]; rewrite ?refresh_usage_ids, ?fmap_app; cbn [t_disks set_disks].
  - rewrite fmap_app. apply NoDup_app. split_and!; [done| |apply NoDup_singleton].
    intros i (x & -> & Hx)%list_elem_of_fmap Hi%list_elem_of_singleton. apply H4 in Hx. cbn in Hi. lia.
  - by rewrite fmap_app, H2.
  - apply NoDup_app. split_and!; [done| |apply NoDup_singleton]. by intros i Hi ->%list_elem_of_singleton.
  - intros x Hx. assert (Hi : dk_id x ∈ dk_id <$> t_disks (pl_store w) ++ [fresh_disk d w])
      by (change (t_disks (pl_store w) ++ _) with (t_disks (set_disks (t_disks (pl_store w) ++ [fresh_disk d w]) (pl_store w)));
          rewrite <- (refresh_usage_ids (fresh_disk d w)); by apply list_elem_of_fmap_2).
    rewrite fmap_app in Hi. apply elem_of_app in Hi as [(y & -> & Hy)%list_elem_of_fmap|Hi%list_elem_of_singleton]; [apply H4 in Hy|rewrite Hi; cbn]; lia.
Qed.

Inductive PoolOp := PoolCreate (d : DiskData) | PoolUpdate (id : Z) (p : DiskPatch) | PoolRemove (id : Z) (mode : string) | PoolRefresh | PoolPolicy (camera_id : option Z) (f : PolicyFields).
Definition pool_step (w : PoolWorld) (op : PoolOp) : PoolWorld :=
  match op with
  | PoolCreate d => snd (create_disk is_dir writable disk_usage d w)
  | PoolUpdate id p => snd (update_disk id p w)
  | PoolRemove id mode => snd (remove_disk id mode w)
  | PoolRefresh => refresh_all_usage disk_usage w
  | PoolPolicy camera_id f => snd (update_policy camera_id f w)
  end.

(** Whatever the storage page is asked, refused requests included, ids stay unique and no two
    disks, removed ones included, share a mount path. *)
Theorem pool_stays_ok ops w : pool_ok w -> pool_ok (foldl pool_step w ops).
Proof.
  revert w. induction ops as [|op ops IH]; intros w H; [done|]. apply IH. clear IH.
  destruct op as [d|id p|id mode| |camera_id f]; cbn [pool_step].
  - destruct (create_disk _ _ _ d w) as [r w'] eqn:E. apply create_disk_cases in E as [(e & _ & ->)|(_ & -> & _ & _ & _ & _ & Hp)]; [done|]. by apply registered_ok.
  - unfold update_disk, bind, gets. destruct (live_disk id (pl_store w)) as [d|]; [|done]. apply (pool_ok_same w); [done| |done|done].
    cbn. by rewrite put_disk_ids.
  - unfold remove_disk, bind, delete_disk. destruct (live_disk id (pl_store w)) as [d|]; [|by apply (pool_ok_same w)].
    case_bool_decide; apply (pool_ok_same w); try done. cbn. by rewrite put_disk_ids.
  - apply (pool_ok_same w); [done| |done|done]. apply refresh_all_ids.
  - destruct (update_policy camera_id f w) as [[e|[p warn]] w'] eqn:E.
    + by apply update_policy_inl in E as ->.
    + apply update_policy_inr in E as (_ & _ & ->). apply (pool_ok_same w); [done| |done|done].
      cbn [pl_store set_pool]. destruct (upsert_rest camera_id f (pl_store w)) as (_ & _ & _ & <-).
      destruct camera_id; [by case_bool_decide|done].
Qed.

(** *** A registered disk *)

Lemma put_disk_new d l x : dk_id x = dk_id d -> (forall y, y ∈ l -> dk_id y <> dk_id d) -> put_disk d (l ++ [x]) = l ++ [d].
Proof.
  intros Hx Hl. unfold put_disk. rewrite fmap_app. cbn. rewrite Hx, Z.eqb_refl. f_equal. rewrite <- (list_fmap_id l) at 2. apply list_fmap_ext.
  intros i y Hy. apply list_elem_of_lookup_2, Hl in Hy. by apply Z.eqb_neq in Hy as ->.
Qed.

Lemma registered_disks d w :
  pool_ok w ->
  exists x, t_disks (pl_store (registered d w)) = t_disks (pl_store w) ++ [x] /\ dk_id x = pl_next w /\ dk_deleted_at x = None /\
    dk_enabled x = dd_enabled d /\ dk_role x = or_str (dd_role d) "record" /\
    (is_Some (disk_usage (fresh_disk d w) (t_files (pl_store w))) -> dk_status x = "online"%string).
Proof.
  intros Hok. cbn [registered audit pl_store refresh_usage t_disks set_disks t_files]. eexists. rewrite put_disk_new.
  2: by destruct (disk_usage _ _) as [[? ?]|].
  2: { intros y Hy E. apply (pk_fresh _ Hok) in Hy. destruct (disk_usage _ _) as [[? ?]|]; cbn in E; lia. }
  split; [done|]. destruct (disk_usage _ _) as [[? ?]|]; cbn; by repeat split.
Qed.

Lemma live_disk_new x l t : (forall y, y ∈ l -> dk_id y <> dk_id x) -> dk_deleted_at x = None -> t_disks t = l ++ [x] -> live_disk (dk_id x) t = Some x.
Proof.
  intros Hl Hx Ht. unfold live_disk. rewrite Ht. apply find_snoc; [|by rewrite Z.eqb_refl, Hx].
  apply find_nothing. intros y Hy. apply Hl, Z.eqb_neq in Hy. by rewrite Hy.
Qed.

Lemma mount_new id path (w : PoolWorld) l : id ∉ fst <$> l -> pl_mounts w = l ++ [(id, path)] -> mount_of id w = Some path.
Proof.
  intros Hl Hm. unfold mount_of. rewrite Hm, find_snoc with (x := (id, path)); [done| |cbn; lia].
  apply find_nothing. intros y Hy. cbn. apply Z.eqb_neq. intros E. apply Hl. rewrite <- E. by apply list_elem_of_fmap_2.
Qed.

Lemma candidates_unregistered usable root dirs parts w p :
  p ∈ discover_candidates is_dir usable root dirs parts w -> p ∉ registered_mounts w.
Proof.
  unfold discover_candidates. set (taken := registered_mounts w).
  assert (Hd : forall seen, (p ∈ seen -> p ∉ taken) -> p ∈ foldl (add_dir is_dir usable taken) seen dirs -> p ∉ taken).
  { induction dirs as [|mp l IH]; intros seen Hs; [done|]. cbn [foldl]. apply IH. unfold add_dir.
    destruct (is_dir mp); [|done]. case_bool_decide; [done|]. destruct (_ || _); [done|]. set_solver. }
  assert (Hp : forall seen, (p ∈ seen -> p ∉ taken) -> p ∈ foldl (add_partition usable root taken) seen parts -> p ∉ taken).
  { induction parts as [|[mp fs] l IH]; intros seen Hs; [done|]. cbn [foldl]. apply IH. unfold add_partition.
    case_bool_decide; [done|]. cbn [orb]. destruct (_ || _); [done|]. destruct (_ && _); [done|]. destruct (usable mp); [|done]. set_solver. }
  apply Hp. destruct (is_dir root); [apply Hd|]; set_solver.
Qed.

(** A disk that registers is a writable directory; it is in the pool at once, under a path no
    other disk has, open to recordings when it is enabled, is not the system disk and its usage
    can be read, and the scan for new disks does not offer it again. *)
Theorem registered_disk_joins_pool d w disk w' :
  pool_ok w -> create_disk is_dir writable disk_usage d w = (inr disk, w') ->
  live_disk (dk_id disk) (pl_store w') = Some disk /\ mount_of (dk_id disk) w' = Some (path_of d) /\
  is_dir (path_of d) = true /\ writable (path_of d) = true /\
  (forall x, x ∈ t_disks (pl_store w') <-> x ∈ t_disks (pl_store w) \/ x = disk) /\
  (dd_enabled d = true -> or_str (dd_role d) "record" <> "system"%string -> is_Some (disk_usage (fresh_disk d w) (t_files (pl_store w))) ->
     disk ∈ get_writable ["cache"; "record"]%string (pl_store w')) /\
  forall usable root dirs parts, path_of d ∉ discover_candidates is_dir usable root dirs parts w'.
Proof.
  intros Hok H. apply create_disk_cases in H as [(e & He & _)|(Hr & -> & _ & Hrole & Hd & Hw & Hp)]; [discriminate He|].
  destruct (registered_disks d w Hok) as (x & Hx & Hid & Hdel & Hen & Hro & Hon).
  assert (Hne : forall y, y ∈ t_disks (pl_store w) -> dk_id y <> dk_id x) by (intros y Hy; apply (pk_fresh _ Hok) in Hy; lia).
  pose proof (live_disk_new x _ (pl_store (registered d w)) Hne Hdel Hx) as Hl. rewrite Hid in Hl. rewrite Hl in Hr. injection Hr as ->.
  assert (Hm : mount_of (pl_next w) (registered d w) = Some (path_of d)).
  { apply (mount_new _ _ _ (pl_mounts w)); [|done]. rewrite (pk_mounts _ Hok). intros (y & E & Hy)%list_elem_of_fmap. by apply (Hne y Hy); rewrite Hid. }
  rewrite Hid, Hx. split_and!; try done; [set_solver|..].
  - intros He Hs Hu. unfold get_writable. rewrite Hx. apply list_elem_of_In, filter_In. split; [apply in_or_app; right; by left|].
    rewrite Hdel, Hen, He, Hro, (Hon Hu). cbn [andb]. apply andb_true_iff. split; [done|]. apply bool_decide_eq_true.
    unfold VALID_ROLES in Hrole. set_solver.
  - intros usable root dirs parts Hc%candidates_unregistered. apply Hc. unfold registered_mounts. apply list_elem_of_omap. exists x.
    rewrite Hx, Hdel, Hid, Hm. split; [set_solver|done].
Qed.

Lemma add_dir_mono usable taken dirs seen p : p ∈ seen -> p ∈ foldl (add_dir is_dir usable taken) seen dirs.
Proof. revert seen. induction dirs as [|x l IH]; intros seen H; [done|]. cbn [foldl]. apply IH. unfold add_dir. destruct (_ || _); [done|]. set_solver. Qed.
Lemma add_partition_mono usable root taken parts seen p : p ∈ seen -> p ∈ foldl (add_partition usable root taken) seen parts.
Proof.
  revert seen. induction parts as [|[mp fs] l IH]; intros seen H; [done|]. cbn [foldl]. apply IH. unfold add_partition.
  destruct (_ || _); [done|]. destruct (_ && _); [done|]. destruct (negb _); [done|]. set_solver.
Qed.
Lemma add_dir_offers usable taken dirs seen p :
  p ∈ dirs -> is_dir p = true -> usable p = true -> p ∉ taken -> p ∈ foldl (add_dir is_dir usable taken) seen dirs.
Proof.
  intros Hp Hd Hu Ht. revert seen. induction dirs as [|x l IH]; intros seen; [by apply elem_of_nil in Hp|]. cbn [foldl].
  apply elem_of_cons in Hp as [<-|Hp]; [|by apply IH].
  apply add_dir_mono. unfold add_dir. rewrite Hd, Hu. cbn [negb orb]. rewrite bool_decide_eq_false_2 by done. cbn [orb]. rewrite orb_false_r.
  case_bool_decide; set_solver.
Qed.

Lemma mount_row id w p : mount_of id w = Some p -> (id, p) ∈ pl_mounts w.
Proof.
  unfold mount_of. intros (x & Hx & ->)%fmap_Some. apply find_some in Hx as [Hx%list_elem_of_In E%Z.eqb_eq]. by rewrite <- E; destruct x.
Qed.

(** A removed disk keeps its row at its mount path, and no live disk is there. *)
Lemma removed_disk_path id mode w w' p :
  pool_ok w -> remove_disk id mode w = (inr tt, w') -> mode <> "evacuate"%string -> mount_of id w = Some p ->
  pl_mounts w' = pl_mounts w /\ forall y, y ∈ t_disks (pl_store w') -> dk_deleted_at y = None -> mount_of (dk_id y) w' <> Some p.
Proof.
  intros Hok H Hmode Hm. unfold remove_disk, bind, delete_disk in H. destruct (live_disk id (pl_store w)) as [d|] eqn:Hl; [|discriminate H].
  rewrite bool_decide_eq_false_2 in H by done. injection H as <-. split; [done|]. intros y Hy Hdel Hmy.
  change (mount_of (dk_id y) w = Some p) in Hmy. apply mount_row in Hm, Hmy.
  pose proof (nodup_key_inj snd _ _ _ (pk_paths _ Hok) Hm Hmy eq_refl) as [= Hid].
  apply find_some in Hl as [_ [Hd%Z.eqb_eq _]%andb_true_iff]. cbn in Hy. unfold put_disk in Hy.
  apply list_elem_of_fmap in Hy as (z & -> & _). cbn in Hid, Hdel. destruct (Z.eqb_spec (dk_id z) (dk_id d)); [done|congruence].
Qed.

(** A removed disk keeps its mount path: the scan offers the path as a new disk, and
    registering it fails on the database's unique column. *)
Theorem removed_disk_cannot_return id mode d w w' p usable root dirs parts :
  pool_ok w -> remove_disk id mode w = (inr tt, w') -> mode <> "evacuate"%string -> mount_of id w = Some p ->
  is_dir root = true -> is_dir p = true -> writable p = true -> usable p = true -> p ∈ dirs ->
  path_of d = p -> p <> EmptyString -> strip (or_str (dd_name d) "") <> EmptyString -> or_str (dd_role d) "record" ∈ VALID_ROLES ->
  p ∈ discover_candidates is_dir usable root dirs parts w' /\
  create_disk is_dir writable disk_usage d w' = (inl IntegrityError, w').
Proof.
  intros Hok H Hmode Hm Hroot Hd Hw Hu Hdirs Hp Hp0 Hn Hrole.
  pose proof (removed_disk_path id mode w w' p Hok H Hmode Hm) as [Hmounts Hlive]. split.
  - unfold discover_candidates. rewrite Hroot. apply add_partition_mono, add_dir_offers; try done.
    unfold registered_mounts. intros (y & Hy & E)%list_elem_of_omap. case_bool_decide; [|done]. by apply (Hlive y).
  - unfold create_disk. cbv zeta. change (strip (or_str (dd_mount_path d) "")) with (path_of d). rewrite Hp, !bool_decide_eq_false_2, bool_decide_eq_true_2, Hd, Hw by done.
    cbn [orb negb]. unfold bind, gets. replace (get_by_mount_path p w') with (@None Disk).
    + replace (existsb _ _) with true; [done|]. symmetry. apply existsb_exists. exists (id, p). rewrite Hmounts.
      split; [by apply list_elem_of_In, mount_row|by apply bool_decide_eq_true].
    + symmetry. apply find_nothing. intros y Hy. destruct (bool_decide_reflect (dk_deleted_at y = None)); [|by rewrite andb_false_r].
      rewrite bool_decide_eq_false_2; [done|]. by apply Hlive.
Qed.
(** *** The summary *)

Lemma role_count role d l : role_sum role (count_role d l) = if bool_decide (dk_role d = role) then count_disk d (role_sum role l) else role_sum role l.
Proof.
  induction l as [|[r s] l IH]; cbn; [by case_bool_decide|]. destruct (bool_decide_reflect (r = dk_role d)) as [->|Hr]; cbn; [by case_bool_decide|].
  rewrite IH. destruct (bool_decide_reflect (r = role)) as [->|]; [|done]. by rewrite bool_decide_eq_false_2.
Qed.

Lemma roles_fold role (f : Disk -> Z) (g : RoleSum -> Z) l acc :
  (forall d s, g (count_disk d s) = g s + f d) ->
  g (role_sum role (foldl (fun l d => count_role d l) acc l)) = g (role_sum role acc) + sum_on (fun d => if bool_decide (dk_role d = role) then f d else 0) l.
Proof.
  intros Hg. revert acc. induction l as [|d l IH]; intros acc; cbn [foldl]; [unfold sum_on; cbn; lia|].
  rewrite IH, role_count, sum_on_cons. case_bool_decide; rewrite ?Hg; lia.
Qed.

Lemma record_and_cache (f : Disk -> Z) l :
  sum_on (fun d => if bool_decide (dk_role d = "record"%string) then f d else 0) l + sum_on (fun d => if bool_decide (dk_role d = "cache"%string) then f d else 0) l =
  sum_on (fun d => if bool_decide (dk_role d ∈ ["cache"; "record"]%string) then f d else 0) l.
Proof.
  induction l as [|d l IH]; [done|]. rewrite !sum_on_cons, <- IH.
  repeat case_bool_decide; try lia; exfalso; [congruence|set_solver..].
Qed.

(** What the page shows of a role is the sum over its live disks, and the space it shows for
    recordings is the total of the live record and cache disks. *)
Theorem pool_summary_totals by_role_name t :
  (forall l, by_role_name l ≡ₚ l) ->
  let live := List.filter (fun d => bool_decide (dk_deleted_at d = None)) (t_disks t) in
  let of_role role f := sum_on (fun d => if bool_decide (dk_role d = role) then f d else 0) live in
  let s := pool_summary by_role_name t in
  (forall role, role_sum role (su_roles s) =
     {| ro_count := of_role role (fun _ => 1); ro_total_bytes := of_role role (fun d => or_Z (dk_total_bytes d) 0); ro_free_bytes := of_role role (fun d => or_Z (dk_free_bytes d) 0);
        ro_reserved_bytes := of_role role (fun d => or_Z (dk_reserved_free_bytes d) 0) |}) /\
  su_record_total_bytes s = sum_on (fun d => if bool_decide (dk_role d ∈ ["cache"; "record"]%string) then or_Z (dk_total_bytes d) 0 else 0) live.
Proof.
  intros Hperm live of_role s.
  assert (Hf : forall (f : Disk -> Z) (g : RoleSum -> Z) role, (forall d r, g (count_disk d r) = g r + f d) -> g no_disks = 0 ->
    g (role_sum role (su_roles s)) = of_role role f).
  { intros f g role Hg H0. subst s. unfold pool_summary, get_all. cbn [su_roles]. fold live. rewrite (roles_fold role f g) by done. cbn [role_sum]. rewrite H0.
    apply sum_on_perm, Hperm. }
  split.
  - intros role. rewrite <- (Hf (fun _ => 1) ro_count role), <- (Hf _ ro_total_bytes role), <- (Hf _ ro_free_bytes role), <- (Hf _ ro_reserved_bytes role) by done.
    by destruct (role_sum role (su_roles s)).
  - change (su_record_total_bytes s) with (ro_total_bytes (role_sum "record" (su_roles s)) + ro_total_bytes (role_sum "cache" (su_roles s))).
    rewrite !(Hf (fun d => or_Z (dk_total_bytes d) 0)) by done. apply record_and_cache.
Qed.
End DiskTheory.

(** ** Witnesses *)

(** Disks 7 and 8; camera 2 has a cap of 100 bytes and the days of its own row, camera 1 follows
    the global row: a day, recording continuously. *)
Definition demo_pool : PoolWorld :=
  {| pl_store := demo_store; pl_mounts := [(7, "/mnt/axp/a"); (8, "/mnt/axp/b")]%string; pl_next := 9; pl_audit := []; pl_queued := [] |}.
Definition no_fields : PolicyFields :=
  {| pf_segment_seconds := None; pf_container := None; pf_record_mode := None; pf_balance_strategy := None; pf_pinned_disk_id := None;
     pf_retention_days := None; pf_retention_max_bytes := None; pf_over_capacity_policy := None; pf_cache_buffer_seconds := None |}.
Definition cap_fields (cap : Z) : PolicyFields :=
  {| pf_segment_seconds := None; pf_container := None; pf_record_mode := None; pf_balance_strategy := None; pf_pinned_disk_id := None;
     pf_retention_days := None; pf_retention_max_bytes := Some cap; pf_over_capacity_policy := None; pf_cache_buffer_seconds := None |}.
Definition demo_capped : PoolWorld := snd (update_policy (Some 2) (cap_fields 60) demo_pool).

Lemma policy_change_keeps_its_row_witness :
  own_policy (Some 2) (pl_store demo_capped) = Some (demo_policy (Some 2) None (Some 60) None "least_used") /\
  own_policy None (pl_store demo_capped) = own_policy None demo_store.
Proof.
  destruct (policy_change_keeps_its_row (Some 2) (cap_fields 60) demo_pool (demo_policy (Some 2) None (Some 60) None "least_used") false demo_capped
    ltac:(vm_compute; reflexivity)) as (H & _ & Ho & _).
  exact (conj H (Ho None ltac:(discriminate))).
Defined.

(** Camera 2 keeps 180 bytes, the cap is lowered to 60. *)
Lemma new_cap_takes_effect_witness :
  total_size_for_camera 2 (pl_store demo_capped) = 180 /\
  total_size_for_camera 2 (snd (run_retention (fun _ => false) demo_usage (pl_store demo_capped))) <= 60.
Proof.
  split; [vm_compute; reflexivity|].
  destruct (new_cap_takes_effect (fun _ => false) demo_usage 2 (cap_fields 60) demo_pool (demo_policy (Some 2) None (Some 60) None "least_used") false demo_capped 60) as [H|H];
    [vm_compute; reflexivity|reflexivity|lia|reflexivity|decide_it| |decide_it|exact H|apply Nat.leb_le in H; vm_compute in H; discriminate H].
  intros s Hs. assert (sg_size_bytes s = 60) as ->; [|lia].
  repeat (apply elem_of_cons in Hs as [->|Hs]; [reflexivity|]). by apply elem_of_nil in Hs.
Defined.

Definition demo_disk_data : DiskData :=
  {| dd_mount_path := Some " /mnt/axp/c "; dd_name := Some "third"; dd_role := None; dd_enabled := true; dd_reserved := 0; dd_weight := 100 |}%string.
Lemma demo_pool_ok : pool_ok demo_pool.
Proof.
  split; [decide_it|reflexivity|decide_it|]. intros d Hd. apply elem_of_cons in Hd as [->|[->|Hd%elem_of_nil]%elem_of_cons]; [by vm_compute..|done].
Qed.

Lemma pool_stays_ok_witness :
  pool_ok (foldl (pool_step (fun _ => true) (fun _ => true) demo_usage) demo_pool [PoolCreate demo_disk_data; PoolRemove 7 "unregister"; PoolPolicy None no_fields]).
Proof. exact (pool_stays_ok (fun _ => true) (fun _ => true) demo_usage _ _ demo_pool_ok). Defined.

Lemma registered_disk_joins_pool_witness :
  let '(r, w') := create_disk (fun _ => true) (fun _ => true) demo_usage demo_disk_data demo_pool in
  exists disk, r = inr disk /\ mount_of (dk_id disk) w' = Some "/mnt/axp/c"%string /\ disk ∈ get_writable ["cache"; "record"]%string (pl_store w').
Proof.
  destruct (create_disk (fun _ => true) (fun _ => true) demo_usage demo_disk_data demo_pool) as [[e|disk] w'] eqn:E;
    [vm_compute in E; discriminate E|].
  pose proof (registered_disk_joins_pool _ _ _ _ _ _ _ demo_pool_ok E) as (_ & Hm & _ & _ & _ & Hg & _).
  exists disk. split_and!; [done|exact Hm|]. apply Hg; [done|discriminate|done].
Defined.

Lemma removed_disk_cannot_return_witness :
  let w' := snd (remove_disk 7 "unregister" demo_pool) in
  let d := {| dd_mount_path := Some "/mnt/axp/a"; dd_name := Some "again"; dd_role := None; dd_enabled := true; dd_reserved := 0; dd_weight := 100 |}%string in
  "/mnt/axp/a"%string ∈ discover_candidates (fun _ => true) (fun _ => true) "/mnt/axp" ["/mnt/axp/a"; "/mnt/axp/b"]%string [] w' /\
  fst (create_disk (fun _ => true) (fun _ => true) demo_usage d w') = inl IntegrityError.
Proof.
  cbv zeta. set (d := {| dd_mount_path := Some "/mnt/axp/a"%string |}).
  destruct (removed_disk_cannot_return (fun _ => true) (fun _ => true) demo_usage 7 "unregister" d demo_pool (snd (remove_disk 7 "unregister" demo_pool)) "/mnt/axp/a"
    (fun _ => true) "/mnt/axp" ["/mnt/axp/a"; "/mnt/axp/b"]%string [] demo_pool_ok) as [H1 H2]; try reflexivity; try discriminate; [decide_it..|].
  split; [exact H1|]. by rewrite H2.
Defined.

(** ** What the page does not do *)

(** The proposed cap is already in the row when the pool is summed, and is added again: a pool
    of 20 GB does not hold a camera with 11. *)
Lemma proposed_cap_counts_twice :
  let gb := 1073741824 in
  match fst (update_policy (Some 2) (cap_fields (11 * gb)) demo_pool) with inr (_, warning) => warning = true | inl _ => False end /\
  check_pool_overcommit None (pl_store (snd (update_policy (Some 2) (cap_fields (11 * gb)) demo_pool))) = false.
Proof. by vm_compute. Qed.

(** The first setting of a camera's own, whatever it is, replaces all it followed: its row
    starts from the column defaults, so the camera that recorded under the global row is now
    reported as off, and is kept for good where the global row said a day. *)
Lemma first_override_drops_the_global_row :
  let w' := snd (update_policy (Some 1) {| pf_segment_seconds := Some 4; pf_container := None; pf_record_mode := None; pf_balance_strategy := None; pf_pinned_disk_id := None;
     pf_retention_days := None; pf_retention_max_bytes := None; pf_over_capacity_policy := None; pf_cache_buffer_seconds := None |} demo_pool) in
  ((fun p => (sp_record_mode p, sp_retention_days p)) <$> get_for_camera 1 demo_store) = Some ("continuous"%string, Some 1) /\
  ((fun p => (sp_record_mode p, sp_retention_days p)) <$> get_for_camera 1 (pl_store w')) = Some ("off"%string, None).
Proof. by vm_compute. Qed.

(** A limit once set is never cleared by a change: null is not written. *)
Theorem limits_only_replaced camera_id f w p warn w' q :
  update_policy camera_id f w = (inr (p, warn), w') -> own_policy camera_id (pl_store w) = Some q ->
  (is_Some (sp_retention_days q) -> is_Some (sp_retention_days p)) /\ (is_Some (sp_retention_max_bytes q) -> is_Some (sp_retention_max_bytes p)).
Proof.
  intros (_ & -> & _)%update_policy_inr Hq. destruct (upsert_own camera_id f (pl_store w)) as [-> _]. rewrite Hq. cbn.
  by destruct (pf_retention_days f), (pf_retention_max_bytes f).
Qed.

(** The page shows camera 2 with the global day of retention; its own row has none, so a
    retention run never deletes by age there. *)
Lemma usage_shows_days_not_applied :
  cu_retention_days (camera_usage 2 demo_store) = Some 1 /\ (get_for_camera 2 demo_store ≫= sp_retention_days) = None.
Proof. by vm_compute. Qed.
