(* ===== verification/Recorder.v ===== *)
(** * The recorder supervisor

    src/worker/recorder/supervisor.py with [upsert] of model/recorder_health.py and
    [graceful_stop] of worker/procutil.py.

    Three lanes of ffmpeg children run side by side: the main recorder, the opt-in
    recorder of a second stream, and the consumers that keep live transcodes warm.
    The source writes each lane's methods out; here a lane is a parameter of one
    method, with the lanes' differences as cases.

    A child is its pid; the pids alive are part of the world.  A stopped or killed
    child is dead (the end of the stop ladder is an unconditional kill).  Parameters:
    the directory scan's answers (as in Indexer.v), whether [os.makedirs] and
    [spawn] succeed, go2rtc's consumer counts, the order Python iterates a set in.
    One tick runs at one instant; instants and backoffs are microseconds. *)

From stdpp Require Import pretty.
From S2P Require Import Prelude PyStr Redis Token Sessions Storage Sweep EventPipeline Indexer Scheduler.

Inductive lane := Main | Sub | Warm.

#[export] Instance lane_eq_dec : EqDecision lane.
Proof. solve_decision. Defined.

Record Proc := {
  p_pid : Z;
  p_disk : option Z;                 (* last_disk; None in the warm lane *)
  p_container : string;
  p_segment_seconds : Z;
  p_last_segment_at : Z;
  p_restart_count : Z;
  p_backoff : Z;
  p_next_retry : Z;
  p_state : string;
  p_dead_handled : bool;
  p_last_db_segment_at : option Z
}.

Record RecorderHealth := {
  h_state : string;
  h_pid : option Z;
  h_last_segment_at : option Z;
  h_restart_count : Z;
  h_last_error : option string
}.

Record RecWorld := {
  rw_ew : EventWorld;                (* storage, schedules *)
  rw_sched : Sched;                  (* cameras with their streams, live activity, encoder nodes *)
  rw_mono : Z;                       (* time.monotonic() *)
  rw_procs : lane -> dict Proc;
  rw_alive : gset Z;
  rw_next_pid : Z;
  rw_health : gmap Z RecorderHealth
}.

Definition set_ew (e : EventWorld) (w : RecWorld) : RecWorld :=
  {| rw_ew := e; rw_sched := rw_sched w; rw_mono := rw_mono w; rw_procs := rw_procs w; rw_alive := rw_alive w;
     rw_next_pid := rw_next_pid w; rw_health := rw_health w |}.
Definition set_sched (s : Sched) (w : RecWorld) : RecWorld :=
  {| rw_ew := rw_ew w; rw_sched := s; rw_mono := rw_mono w; rw_procs := rw_procs w; rw_alive := rw_alive w;
     rw_next_pid := rw_next_pid w; rw_health := rw_health w |}.
Definition set_procs (l : lane) (d : dict Proc) (w : RecWorld) : RecWorld :=
  {| rw_ew := rw_ew w; rw_sched := rw_sched w; rw_mono := rw_mono w;
     rw_procs := fun l' => if decide (l' = l) then d else rw_procs w l'; rw_alive := rw_alive w;
     rw_next_pid := rw_next_pid w; rw_health := rw_health w |}.
Definition set_alive (a : gset Z) (w : RecWorld) : RecWorld :=
  {| rw_ew := rw_ew w; rw_sched := rw_sched w; rw_mono := rw_mono w; rw_procs := rw_procs w; rw_alive := a;
     rw_next_pid := rw_next_pid w; rw_health := rw_health w |}.
Definition set_health_row (c : Z) (h : RecorderHealth) (w : RecWorld) : RecWorld :=
  {| rw_ew := rw_ew w; rw_sched := rw_sched w; rw_mono := rw_mono w; rw_procs := rw_procs w; rw_alive := rw_alive w;
     rw_next_pid := rw_next_pid w; rw_health := <[c := h]> (rw_health w) |}.
(** a child that [spawn] started *)
Definition add_child (w : RecWorld) : RecWorld :=
  {| rw_ew := rw_ew w; rw_sched := rw_sched w; rw_mono := rw_mono w; rw_procs := rw_procs w;
     rw_alive := {[ rw_next_pid w ]} ∪ rw_alive w; rw_next_pid := rw_next_pid w + 1; rw_health := rw_health w |}.

Definition put_proc (l : lane) (c : Z) (p : Proc) (w : RecWorld) : RecWorld := set_procs l (dict_set c p (rw_procs w l)) w.
Definition running (p : Proc) (w : RecWorld) : bool := bool_decide (p_pid p ∈ rw_alive w).

Definition BACKOFF_START : Z := 1 * SEC.
Definition BACKOFF_MAX : Z := 15 * SEC.
Definition STALL_FACTOR : Z := 3.

Inductive os_error := OSError (call : string).

Definition RM := M RecWorld os_error.

(** ** Health rows *)

Definition health_default : RecorderHealth :=
  {| h_state := "stopped"; h_pid := None; h_last_segment_at := None; h_restart_count := 0; h_last_error := None |}.

(** [_set_health] *)
Definition set_health (camera_id : Z) (state : string) (pid : option Z) (last_segment_at : option Z)
    (restart_count : option Z) (error : option string) (w : RecWorld) : RecWorld :=
  let h := default health_default (rw_health w !! camera_id) in
  set_health_row camera_id
    {| h_state := state;
       h_pid := if bool_decide (pid <> None) || bool_decide (state = "stopped"%string) then pid else h_pid h;
       h_last_segment_at := match last_segment_at with Some t => Some t | None => h_last_segment_at h end;
       h_restart_count := default (h_restart_count h) restart_count;
       h_last_error := match error with Some e => Some (stake 1000 e) | None => h_last_error h end |} w.

(** ** Streams *)

Definition record_stream (cam : Camera) : option Stream :=
  match cam_streams cam with
  | [] => None
  | s0 :: _ =>
      match List.find st_is_default_full (cam_streams cam) with
      | Some s => Some s
      | None => match List.find (fun s => bool_decide (st_role s = "main"%string)) (cam_streams cam) with
                | Some s => Some s
                | None => Some s0
                end
      end
  end.

Definition first_some {A} (a b : option A) : option A := match a with Some x => Some x | None => b end.

Definition sub_stream (cam : Camera) : option Stream :=
  let streams := cam_streams cam in
  if bool_decide (length streams < 2)%nat then None else
  let other s := match record_stream cam with Some m => negb (st_id s =? st_id m) | None => true end in
  let fallback := first_some (List.find (fun s => bool_decide (st_role s = "sub"%string)) streams)
                    (first_some (List.find (fun s => st_is_default_live s && other s) streams)
                                (List.find other streams)) in
  if truthy_str (cam_dual_record_stream cam)
  then first_some (List.find (fun s => bool_decide (Some (st_role s) = cam_dual_record_stream cam)) streams) fallback
  else fallback.

Definition warm_stream (cam : Camera) : option Stream :=
  match default_live_stream cam with
  | Some s => if live_transcode_enabled cam s then Some s else None
  | None => None
  end.

Definition lane_stream (l : lane) (cam : Camera) : option Stream :=
  match l with Main => record_stream cam | Sub => sub_stream cam | Warm => warm_stream cam end.

(** subdirectory and role a lane records under *)
Definition lane_dir (l : lane) : string := match l with Sub => "sub" | _ => "" end.
Definition lane_role (l : lane) : string := match l with Sub => "sub" | _ => "main" end.

Section Supervisor.
Context (listdir_ok : Z -> string -> bool) (stat : Z * string -> option (Z * Z)) (probe : Z * string -> option Z).
Context (makedirs_ok : Z -> string -> bool).          (* disk, directory *)
Context (spawn_ok : string -> bool).                  (* go2rtc stream name; false: OSError *)
Context (consumers : string -> option Z).             (* go2rtc's count; None: the query raised *)
Context (md5 : string -> Z).
Context (utc_offset : Z -> Z).
Context (set_iter : gset Z -> list Z).

(** the directory scan of a lane *)
Definition scan (l : lane) (camera_id : Z) (p : Proc) (newest : bool) (w : RecWorld) : Z * RecWorld :=
  match l, p_disk p with
  | Warm, _ | _, None => (0, w)
  | _, Some d =>
      let '(n, e) := index_camera_dir listdir_ok stat probe camera_id d (p_container p) (lane_dir l) (lane_role l) newest (rw_ew w)
      in (n, set_ew e w)
  end.

(** ** Starting *)

Definition health_error (l : lane) (camera_id : Z) (error : string) : RM unit :=
  modify (fun w => match l with Main => set_health camera_id "error" None None None (Some error) w | _ => w end).

Definition new_proc (pid : Z) (disk : option Z) (container : string) (seconds now : Z) (prior : option Proc) : Proc :=
  {| p_pid := pid; p_disk := disk; p_container := container; p_segment_seconds := seconds; p_last_segment_at := now;
     p_restart_count := match prior with Some p => p_restart_count p | None => 0 end;
     p_backoff := match prior with Some p => p_backoff p | None => BACKOFF_START end;
     p_next_retry := 0; p_state := "starting"; p_dead_handled := false; p_last_db_segment_at := None |}.

(** [spawn], then the entry in the lane's dictionary *)
Definition spawn_child (l : lane) (cam : Camera) (s : Stream) (disk : option Z) (container : string) (seconds : Z)
    (prior : option Proc) : RM unit :=
  if spawn_ok (st_go2rtc_name s) then
    modify (fun w =>
      let p := new_proc (rw_next_pid w) disk container seconds (rw_mono w) prior in
      let w1 := put_proc l (cam_id cam) p (add_child w) in
      match l with
      | Main => set_health (cam_id cam) "starting" (Some (p_pid p)) None (Some (p_restart_count p)) None w1
      | _ => w1
      end)
  else health_error l (cam_id cam) "spawn_failed".

(** the disk the storage policy gives the camera *)
Definition choose_disk (camera_id : Z) (policy : option StoragePolicy) : RM (option Disk) :=
  fun w => let '(d, t) := pick_write_disk md5 (pretty : Z -> string) camera_id policy (ew_store (rw_ew w)) in
           (inr d, set_ew (set_store t (rw_ew w)) w).

(** the rest of a start, once the backoff gate is open *)
Definition launch (l : lane) (cam : Camera) (prior : option Proc) : RM unit :=
  match lane_stream l cam with
  | None => health_error l (cam_id cam) "no_stream"
  | Some s =>
      match l with
      | Warm => spawn_child Warm cam s None "" 10 prior
      | _ =>
          let! policy := gets (fun w => get_for_camera (cam_id cam) (ew_store (rw_ew w))) in
          let! disk := choose_disk (cam_id cam) policy in
          match disk with
          | None => health_error l (cam_id cam) "no_writable_disk"
          | Some d =>
              if makedirs_ok (dk_id d) (dir_of (cam_id cam) (lane_dir l)) then
                spawn_child l cam s (Some (dk_id d))
                  (match policy with Some p => sp_container p | None => "mpegts"%string end)
                  (match policy with Some p => sp_segment_seconds p | None => 10 end) prior
              else raise (OSError "makedirs")          (* outside the try of the source *)
          end
      end
  end.

(** [_start], [_start_sub], [_start_warm] *)
Definition start (l : lane) (cam : Camera) : RM unit :=
  let! now := gets rw_mono in
  let! prior := gets (fun w => dict_get (cam_id cam) (rw_procs w l)) in
  if match prior with Some p => now <? p_next_retry p | None => false end then ret tt
  else launch l cam prior.

(** ** Stopping and deaths *)

(** [graceful_stop] *)
Definition kill_child (pid : Z) (w : RecWorld) : RecWorld := set_alive (rw_alive w ∖ {[ pid ]}) w.

(** [_stop], [_stop_sub], [_stop_warm] *)
Definition stop (l : lane) (camera_id : Z) : RM unit :=
  modify (fun w =>
    let w1 := match dict_get camera_id (rw_procs w l) with
              | None => w
              | Some p => snd (scan l camera_id p true
                            (kill_child (p_pid p) (set_procs l (dict_pop camera_id (rw_procs w l)) w)))
              end in
    match l with Main => set_health camera_id "stopped" None None None None w1 | _ => w1 end).

(** the bookkeeping of the first time a death is seen *)
Definition mark_dead (l : lane) (camera_id : Z) (p : Proc) (reason : string) (w : RecWorld) : RecWorld :=
  let backoff := Z.min (p_backoff p * 2) BACKOFF_MAX in
  let p' := {| p_pid := p_pid p; p_disk := p_disk p; p_container := p_container p;
               p_segment_seconds := p_segment_seconds p; p_last_segment_at := p_last_segment_at p;
               p_restart_count := p_restart_count p + 1; p_backoff := backoff; p_next_retry := rw_mono w + backoff;
               p_state := p_state p; p_dead_handled := true; p_last_db_segment_at := p_last_db_segment_at p |} in
  let w1 := put_proc l camera_id p' w in
  let w2 := match l with
            | Main => set_health camera_id (if 10 <? p_restart_count p' then "error" else "reconnecting") None None
                        (Some (p_restart_count p')) (Some reason) w1
            | _ => w1
            end in
  snd (scan l camera_id p' true w2).

(** [_on_dead], [_on_dead_sub], [_on_dead_warm] *)
Definition on_dead (l : lane) (cam : Camera) (p : Proc) (reason : string) : RM unit :=
  (if p_dead_handled p then ret tt else modify (mark_dead l (cam_id cam) p reason)) ;;;
  let! now := gets rw_mono in
  let! p' := gets (fun w => dict_get (cam_id cam) (rw_procs w l)) in
  match p' with
  | Some q => if p_next_retry q <=? now then start l cam else ret tt
  | None => ret tt
  end.

(** ** A running child *)

(** what a scan that found segments updates *)
Definition refresh (l : lane) (count now utc : Z) (p : Proc) : Proc :=
  if count =? 0 then p else
  {| p_pid := p_pid p; p_disk := p_disk p; p_container := p_container p; p_segment_seconds := p_segment_seconds p;
     p_last_segment_at := now; p_restart_count := p_restart_count p; p_backoff := BACKOFF_START;
     p_next_retry := p_next_retry p; p_state := p_state p; p_dead_handled := p_dead_handled p;
     p_last_db_segment_at := match l with Main => Some utc | _ => p_last_db_segment_at p end |}.

Definition with_state (state : string) (p : Proc) : Proc :=
  {| p_pid := p_pid p; p_disk := p_disk p; p_container := p_container p; p_segment_seconds := p_segment_seconds p;
     p_last_segment_at := p_last_segment_at p; p_restart_count := p_restart_count p; p_backoff := p_backoff p;
     p_next_retry := p_next_retry p; p_state := state; p_dead_handled := p_dead_handled p;
     p_last_db_segment_at := p_last_db_segment_at p |}.

Definition stalled (now : Z) (p : Proc) : bool :=
  (STALL_FACTOR * p_segment_seconds p + 8) * SEC <? now - p_last_segment_at p.

(** [_maintain], [_maintain_sub] *)
Definition maintain (l : lane) (cam : Camera) (p : Proc) : RM unit :=
  modify (fun w => let '(count, w1) := scan l (cam_id cam) p false w in
                   put_proc l (cam_id cam) (refresh l count (rw_mono w) (ew_now (rw_ew w)) p) w1) ;;;
  let! now := gets rw_mono in
  let! p' := gets (fun w => dict_get (cam_id cam) (rw_procs w l)) in
  match p' with
  | None => ret tt
  | Some q =>
      if stalled now q then modify (kill_child (p_pid q)) ;;; on_dead l cam q "stalled"
      else match l with
           | Main => modify (fun w => set_health (cam_id cam) "recording" (Some (p_pid q)) (p_last_db_segment_at q)
                               (Some (p_restart_count q)) None (put_proc Main (cam_id cam) (with_state "recording" q) w))
           | _ => ret tt
           end
  end.

(** ** One pass over a lane *)

(** the body of the loop over the desired cameras *)
Definition converge (l : lane) (cam : Camera) : RM unit :=
  let! p := gets (fun w => dict_get (cam_id cam) (rw_procs w l)) in
  match p with
  | None => start l cam
  | Some p =>
      let! up := gets (running p) in
      if negb up then on_dead l cam p "process_exited"
      else match l with Warm => ret tt | _ => maintain l cam p end
  end.

(** stop what is not desired, then the desired cameras in turn *)
Definition tick_lane (l : lane) (desired : list Camera) : RM unit :=
  let! have := gets (fun w => dict_keys (rw_procs w l)) in
  for_each (List.filter (fun c => negb (bool_decide (c ∈ cam_id <$> desired))) have) (stop l) ;;;
  for_each desired (converge l).

(** ** What should be recording *)

(** recordings still open, or whose window has not passed *)
Definition forced_ids (w : RecWorld) : gset Z :=
  list_to_set (rc_camera_id <$> List.filter (fun r => bool_decide (rc_deleted_at r = None) &&
    match rc_end_ts r with None => true | Some e => ew_now (rw_ew w) <? e end) (t_recordings (ew_store (rw_ew w)))).

Definition camera_row (id : Z) (w : RecWorld) : option Camera :=
  List.find (fun c => (cam_id c =? id) && bool_decide (cam_deleted_at c = None)) (s_cams (rw_sched w)).

Definition desired_cameras (w : RecWorld) : list Camera :=
  let continuous : gset Z := list_to_set (cam_id <$> cameras_enabled (rw_sched w)) in
  omap (fun id =>
    match camera_row id w with
    | Some cam => if negb (cam_is_enabled cam) then None
                  else if negb (bool_decide (id ∈ forced_ids w)) &&
                          bool_decide (mode utc_offset id (ew_now (rw_ew w)) (rw_ew w) = "off"%string) then None
                  else Some cam
    | None => None
    end) (set_iter (continuous ∪ forced_ids w)).

(** [_tick_subs]: cameras of [dual_ids], a set *)
Definition dual_cameras (desired : list Camera) : list Camera :=
  let dual := List.filter cam_dual_recording desired in
  omap (fun id => List.find (fun c => cam_id c =? id) dual) (set_iter (list_to_set (cam_id <$> dual))).

(** [_refresh_viewer_activity]: our own consumer does not count *)
Definition refresh_viewer_activity (cam : Camera) (s : Stream) (w : RecWorld) : RecWorld :=
  if s_idle_s (rw_sched w) <=? 0 then w else
  match consumers (st_go2rtc_name s) with
  | None => w
  | Some n =>
      let own := if bool_decide (cam_id cam ∈ dict_keys (rw_procs w Warm)) then 1 else 0 in
      if 0 <? n - own then set_sched (mark (st_go2rtc_name s) (rw_sched w)) w else w
  end.

(** the live transcodes to hold open *)
Fixpoint warm_cameras (cams : list Camera) (acc : list Camera) (w : RecWorld) : list Camera * RecWorld :=
  match cams with
  | [] => (acc, w)
  | cam :: r =>
      match warm_stream cam with
      | None => warm_cameras r acc w
      | Some s =>
          let w1 := refresh_viewer_activity cam s w in
          if negb (is_active (st_go2rtc_name s) (rw_sched w1)) then warm_cameras r acc w1
          else if bool_decide (is_Some (live_offload_target cam (rw_sched w1))) then warm_cameras r acc w1
          else warm_cameras r (acc ++ [cam]) w1
      end
  end.

Definition tick_warm : RM unit :=
  let! warm := (fun w => let '(cams, w1) := warm_cameras (cameras_enabled (rw_sched w)) [] w in (inr cams, w1)) in
  tick_lane Warm warm.

(** [tick]; the second and third lanes swallow their faults *)
Definition tick : RM unit :=
  let! desired := gets desired_cameras in
  tick_lane Main desired ;;;
  try_with (tick_lane Sub (dual_cameras desired)) (fun _ => ret tt) ;;;
  try_with tick_warm (fun _ => ret tt).

Definition stop_all (l : lane) : RM unit :=
  let! have := gets (fun w => dict_keys (rw_procs w l)) in for_each have (stop l).

Definition shutdown : RM unit := stop_all Warm ;;; stop_all Sub ;;; stop_all Main.

(** [run]: ticks whose faults are logged, then the shutdown *)
Definition tick_guarded : RM unit := try_with tick (fun _ => ret tt).
End Supervisor.

(** ** The children and their table *)

Definition get_proc (l : lane) (c : Z) (w : RecWorld) : option Proc := dict_get c (rw_procs w l).

Lemma get_put_proc l c p l' c' w :
  get_proc l' c' (put_proc l c p w) = if decide (l' = l /\ c' = c) then Some p else get_proc l' c' w.
Proof.
  unfold get_proc, put_proc, set_procs. cbn. destruct (decide (l' = l)) as [->|Hl].
  - rewrite dict_get_set. destruct (decide (c' = c)), (decide _); naive_solver.
  - rewrite decide_False; [done|]. by intros [? _].
Qed.

Lemma get_pop_proc l c l' c' w :
  get_proc l' c' (set_procs l (dict_pop c (rw_procs w l)) w) = if decide (l' = l /\ c' = c) then None else get_proc l' c' w.
Proof.
  unfold get_proc, set_procs. cbn. destruct (decide (l' = l)) as [->|Hl].
  - rewrite dict_get_pop. destruct (decide (c' = c)), (decide _); naive_solver.
  - rewrite decide_False; [done|]. by intros [? _].
Qed.

(** Every live child is some entry's, no two entries share a child, and no entry
    waits longer than the largest backoff. *)
Record sup_ok (w : RecWorld) : Prop := {
  so_inj : forall l c p l' c' p', get_proc l c w = Some p -> get_proc l' c' w = Some p' -> p_pid p = p_pid p' ->
    l = l' /\ c = c';
  so_fresh : forall l c p, get_proc l c w = Some p -> p_pid p < rw_next_pid w;
  so_alive : forall pid, pid ∈ rw_alive w -> exists l c p, get_proc l c w = Some p /\ p_pid p = pid;
  so_backoff : forall l c p, get_proc l c w = Some p ->
    BACKOFF_START <= p_backoff p <= BACKOFF_MAX /\ p_next_retry p <= rw_mono w + BACKOFF_MAX;
  so_mono : 0 <= rw_mono w
}.

(** What an operation on camera [c] of lane [l] leaves alone. *)
Record frame (l : lane) (c : Z) (w w' : RecWorld) : Prop := {
  fr_mono : rw_mono w' = rw_mono w;
  fr_procs : forall l' c', (l', c') <> (l, c) -> get_proc l' c' w' = get_proc l' c' w;
  fr_alive : forall l' c' p, (l', c') <> (l, c) -> get_proc l' c' w = Some p ->
    p_pid p ∈ rw_alive w' <-> p_pid p ∈ rw_alive w;
  fr_health : forall c', (Main, c') <> (l, c) -> rw_health w' !! c' = rw_health w !! c'
}.

Definition local_step (l : lane) (c : Z) (w w' : RecWorld) : Prop := sup_ok w' /\ frame l c w w'.

Lemma frame_refl l c w : frame l c w w.
Proof. by constructor. Qed.

Lemma frame_trans l c w1 w2 w3 : frame l c w1 w2 -> frame l c w2 w3 -> frame l c w1 w3.
Proof.
  intros [M1 P1 A1 H1] [M2 P2 A2 H2]. constructor; [congruence| | |].
  - intros. rewrite P2 by done. by apply P1.
  - intros l' c' p Hne Hp. rewrite (A2 l' c' p Hne); [by apply (A1 l' c')|]. by rewrite P1.
  - intros. rewrite H2 by done. by apply H1.
Qed.

Lemma local_trans l c w1 w2 w3 : local_step l c w1 w2 -> (sup_ok w2 -> local_step l c w2 w3) -> local_step l c w1 w3.
Proof. intros [O1 F1] H. destruct (H O1) as [O2 F2]. split; [done|by eapply frame_trans]. Qed.

(** Worlds with the same children. *)
Definition same_children (w w' : RecWorld) : Prop :=
  rw_mono w' = rw_mono w /\ (forall l c, get_proc l c w' = get_proc l c w) /\ rw_alive w' = rw_alive w /\
  rw_next_pid w' = rw_next_pid w.

Lemma same_children_ok w w' : same_children w w' -> sup_ok w -> sup_ok w'.
Proof.
  intros (Em & Ep & Ea & En) [Hi Hf Ha Hb Hm]. constructor.
  - intros l c p l' c' p'. rewrite !Ep. apply Hi.
  - intros l c p. rewrite Ep, En. apply Hf.
  - intros pid. rewrite Ea. intros H. destruct (Ha pid H) as (l & c & p & ?). exists l, c, p. by rewrite Ep.
  - intros l c p. rewrite Ep, Em. apply Hb.
  - by rewrite Em.
Qed.

Lemma same_children_local l c w w' :
  same_children w w' -> (forall c', (Main, c') <> (l, c) -> rw_health w' !! c' = rw_health w !! c') ->
  sup_ok w -> local_step l c w w'.
Proof.
  intros Hs Hh Ho. split; [by eapply same_children_ok|]. destruct Hs as (Em & Ep & Ea & En).
  constructor; [done|by intros|by rewrite Ea|done].
Qed.

(** Entry updates that keep the child. *)
Lemma put_proc_local l c p p' w :
  get_proc l c w = Some p -> p_pid p' = p_pid p -> BACKOFF_START <= p_backoff p' <= BACKOFF_MAX ->
  p_next_retry p' <= rw_mono w + BACKOFF_MAX -> sup_ok w -> local_step l c w (put_proc l c p' w).
Proof.
  intros Hp Epid Hbo Hnr [Hi Hf Ha Hb Hm]. split.
  - assert (Hold : forall l' c' q, get_proc l' c' (put_proc l c p' w) = Some q ->
      exists q0, get_proc l' c' w = Some q0 /\ p_pid q0 = p_pid q).
    { intros l' c' q. rewrite get_put_proc. destruct (decide _) as [[-> ->]|]; [|by eauto]. intros [= <-]. eauto. }
    constructor.
    + intros l1 c1 p1 l2 c2 p2 (q1 & H1 & E1)%Hold (q2 & H2 & E2)%Hold E. apply (Hi l1 c1 q1 l2 c2 q2); congruence.
    + intros l1 c1 p1 (q1 & H1 & E1)%Hold. rewrite <- E1. by apply (Hf l1 c1).
    + intros pid (l1 & c1 & p1 & H1 & E1)%Ha. destruct (decide (l1 = l /\ c1 = c)) as [[-> ->]|Hne].
      * exists l, c, p'. rewrite get_put_proc, decide_True by done. split; [done|]. congruence.
      * exists l1, c1, p1. by rewrite get_put_proc, decide_False.
    + intros l1 c1 p1. rewrite get_put_proc. destruct (decide _); [|apply Hb]. by intros [= <-].
    + done.
  - constructor; [done| |done|done]. intros l' c' Hne. rewrite get_put_proc, decide_False; [done|].
    intros [-> ->]. by apply Hne.
Qed.

Lemma kill_child_local l c p w :
  get_proc l c w = Some p -> sup_ok w -> local_step l c w (kill_child (p_pid p) w).
Proof.
  intros Hp [Hi Hf Ha Hb Hm]. split.
  - constructor; try done. cbn. intros pid [H _]%elem_of_difference. by apply Ha.
  - constructor; [done|done| |done]. cbn. intros l' c' q Hne Hq. rewrite elem_of_difference, elem_of_singleton.
    split; [tauto|]. intros H. split; [done|]. intros E. destruct (Hi _ _ _ _ _ _ Hq Hp E) as [-> ->]. by apply Hne.
Qed.

(** A new child takes the place of a dead one or of none. *)
Lemma spawn_local l c p w :
  p_pid p = rw_next_pid w -> (forall q, get_proc l c w = Some q -> p_pid q ∉ rw_alive w) ->
  BACKOFF_START <= p_backoff p <= BACKOFF_MAX -> p_next_retry p <= rw_mono w + BACKOFF_MAX ->
  sup_ok w -> local_step l c w (put_proc l c p (add_child w)).
Proof.
  intros Epid Hdead Hbo Hnr [Hi Hf Ha Hb Hm].
  assert (Hget : forall l' c', get_proc l' c' (put_proc l c p (add_child w)) =
    if decide (l' = l /\ c' = c) then Some p else get_proc l' c' w) by (intros; by rewrite get_put_proc).
  split.
  - constructor.
    + intros l1 c1 p1 l2 c2 p2. rewrite !Hget. destruct (decide _) as [[-> ->]|], (decide _) as [[-> ->]|];
        [done| | |apply Hi]; intros H1 H2 E; simplify_eq; exfalso.
      * specialize (Hf _ _ _ H2). lia.
      * specialize (Hf _ _ _ H1). lia.
    + intros l1 c1 p1. rewrite Hget. cbn. destruct (decide _); [intros [= <-]; lia|]. intros H%Hf. lia.
    + intros pid Hpid. cbn in Hpid. apply elem_of_union in Hpid as [->%elem_of_singleton|H].
      * exists l, c, p. by rewrite Hget, decide_True.
      * destruct (Ha pid H) as (l1 & c1 & p1 & H1 & <-). exists l1, c1, p1. rewrite Hget, decide_False; [done|].
        intros [-> ->]. by apply (Hdead p1).
    + intros l1 c1 p1. rewrite Hget. destruct (decide _); [by intros [= <-]|apply Hb].
    + done.
  - constructor; [done| | |done].
    + intros l' c' Hne. rewrite Hget, decide_False; [done|]. intros [-> ->]. by apply Hne.
    + cbn. intros l' c' q Hne Hq. rewrite elem_of_union, elem_of_singleton. specialize (Hf _ _ _ Hq). split; [|tauto].
      intros [?|?]; [lia|done].
Qed.

Lemma remove_local l c p w :
  get_proc l c w = Some p -> sup_ok w ->
  local_step l c w (kill_child (p_pid p) (set_procs l (dict_pop c (rw_procs w l)) w)).
Proof.
  intros Hp [Hi Hf Ha Hb Hm].
  assert (Hget : forall l' c', get_proc l' c' (kill_child (p_pid p) (set_procs l (dict_pop c (rw_procs w l)) w)) =
    if decide (l' = l /\ c' = c) then None else get_proc l' c' w) by (intros; by rewrite <- get_pop_proc).
  split.
  - constructor.
    + intros l1 c1 p1 l2 c2 p2. rewrite !Hget. destruct (decide _), (decide _); try done. apply Hi.
    + intros l1 c1 p1. rewrite Hget. destruct (decide _); [done|]. apply Hf.
    + intros pid Hpid. cbn in Hpid. apply elem_of_difference in Hpid as [H Hne]. destruct (Ha pid H) as (l1 & c1 & p1 & H1 & <-). exists l1, c1, p1.
      rewrite Hget, decide_False; [done|]. intros [-> ->]. apply Hne. rewrite elem_of_singleton. congruence.
    + intros l1 c1 p1. rewrite Hget. destruct (decide _); [done|]. apply Hb.
    + done.
  - constructor; [done| | |done].
    + intros l' c' Hne. rewrite Hget, decide_False; [done|]. intros [-> ->]. by apply Hne.
    + cbn. intros l' c' q Hne Hq. rewrite elem_of_difference, elem_of_singleton.
      split; [tauto|]. intros H. split; [done|]. intros E. destruct (Hi _ _ _ _ _ _ Hq Hp E) as [-> ->]. by apply Hne.
Qed.

(** ** Every operation stays on its own camera and lane *)

Section Local.
Context (listdir_ok : Z -> string -> bool) (stat : Z * string -> option (Z * Z)) (probe : Z * string -> option Z).
Context (makedirs_ok : Z -> string -> bool) (spawn_ok : string -> bool) (consumers : string -> option Z).
Context (md5 : string -> Z) (utc_offset : Z -> Z) (set_iter : gset Z -> list Z).
Notation scan := (scan listdir_ok stat probe).
Notation start := (start makedirs_ok spawn_ok md5).
Notation stop := (stop listdir_ok stat probe).
Notation on_dead := (on_dead listdir_ok stat probe makedirs_ok spawn_ok md5).
Notation maintain := (maintain listdir_ok stat probe makedirs_ok spawn_ok md5).
Notation converge := (converge listdir_ok stat probe makedirs_ok spawn_ok md5).
Notation tick_lane := (tick_lane listdir_ok stat probe makedirs_ok spawn_ok md5).

Lemma set_ew_children e w : same_children w (set_ew e w).
Proof. done. Qed.

Lemma scan_eq l c p newest w : exists e, snd (scan l c p newest w) = set_ew e w.
Proof.
  assert (w = set_ew (rw_ew w) w) as E by by destruct w.
  unfold Recorder.scan. destruct l, (p_disk p) as [d|]; try (by exists (rw_ew w));
    destruct (index_camera_dir _ _ _ _ _ _ _ _ _ _) as [n e]; by exists e.
Qed.

Lemma scan_local l l' c p newest w : sup_ok w -> local_step l c w (snd (scan l' c p newest w)).
Proof. intros Ho. destruct (scan_eq l' c p newest w) as [e ->]. by apply same_children_local. Qed.

Lemma set_health_local c state pid ls rc err w : sup_ok w -> local_step Main c w (set_health c state pid ls rc err w).
Proof.
  intros Ho. apply same_children_local; [done| |done]. intros c' Hne. cbn. rewrite lookup_insert_ne; [done|].
  intros ->. by apply Hne.
Qed.

Lemma health_error_local l c err w : sup_ok w -> local_step l c w (snd (health_error l c err w)).
Proof.
  intros Ho. unfold health_error, modify. cbn [snd]. destruct l; [by apply set_health_local|..]; by apply same_children_local.
Qed.

(** When [start] may run: the camera has no child, or a dead one. *)
Definition startable (l : lane) (c : Z) (w : RecWorld) : Prop :=
  forall q, get_proc l c w = Some q -> p_pid q ∉ rw_alive w.

Lemma new_proc_bounds pid disk container seconds now prior l c w :
  sup_ok w -> prior = get_proc l c w ->
  let p := new_proc pid disk container seconds now prior in
  BACKOFF_START <= p_backoff p <= BACKOFF_MAX /\ 0 = p_next_retry p.
Proof.
  intros Ho ->. cbn. split; [|done]. destruct (get_proc l c w) as [q|] eqn:E; [by apply (so_backoff w Ho l c)|].
  unfold BACKOFF_START, BACKOFF_MAX, SEC. lia.
Qed.

Lemma spawn_child_local l cam s disk container seconds prior w :
  sup_ok w -> startable l (cam_id cam) w -> prior = get_proc l (cam_id cam) w ->
  local_step l (cam_id cam) w (snd (spawn_child spawn_ok l cam s disk container seconds prior w)).
Proof.
  intros Ho Hs Hprior. pose proof (so_mono w Ho) as Hm. unfold spawn_child. destruct (spawn_ok _); [|by apply health_error_local].
  unfold modify. cbn [snd]. destruct (new_proc_bounds (rw_next_pid w) disk container seconds (rw_mono w) prior l (cam_id cam) w Ho Hprior)
    as [Hb Hn].
  assert (Hp : local_step l (cam_id cam) w
    (put_proc l (cam_id cam) (new_proc (rw_next_pid w) disk container seconds (rw_mono w) prior) (add_child w))).
  { apply spawn_local; [done|done|done| |done]. rewrite <- Hn. unfold BACKOFF_MAX, SEC. lia. }
  destruct l; [|done..]. eapply local_trans; [exact Hp|]. intros. by apply set_health_local.
Qed.

Lemma choose_disk_eq c policy w : exists d e, choose_disk md5 c policy w = (inr d, set_ew e w).
Proof. unfold choose_disk. destruct (pick_write_disk _ _ _ _ _) as [d t]. eauto. Qed.

(** The three ends of a launch. *)
Lemma launch_cases l cam prior w :
  (exists err, launch makedirs_ok spawn_ok md5 l cam prior w = health_error l (cam_id cam) err w) \/
  (exists err e, launch makedirs_ok spawn_ok md5 l cam prior w = health_error l (cam_id cam) err (set_ew e w)) \/
  (exists d e, makedirs_ok d (dir_of (cam_id cam) (lane_dir l)) = false /\ launch makedirs_ok spawn_ok md5 l cam prior w = (inl (OSError "makedirs"), set_ew e w)) \/
  (exists s disk container seconds e, launch makedirs_ok spawn_ok md5 l cam prior w =
     spawn_child spawn_ok l cam s disk container seconds prior (set_ew e w)).
Proof.
  unfold launch. destruct (lane_stream l cam) as [s|]; [|left; eauto]. do 1 right.
  destruct (choose_disk_eq (cam_id cam) (get_for_camera (cam_id cam) (ew_store (rw_ew w))) w) as (d & e & E).
  assert (Hw : w = set_ew (rw_ew w) w) by by destruct w.
  destruct l; [| |right; right; exists s, None, ""%string, 10, (rw_ew w); by rewrite <- Hw];
    unfold bind, gets; cbn beta iota; rewrite E; (destruct d as [d|]; [|left; eauto]);
    (destruct (makedirs_ok _ _) eqn:Em; right; [right; eauto 10|left; by exists (dk_id d), e]).
Qed.

Lemma launch_local l cam prior w :
  sup_ok w -> startable l (cam_id cam) w -> prior = get_proc l (cam_id cam) w ->
  local_step l (cam_id cam) w (snd (launch makedirs_ok spawn_ok md5 l cam prior w)).
Proof.
  intros Ho Hs Hp. assert (Hl : forall e, local_step l (cam_id cam) w (set_ew e w)) by (intros; by apply same_children_local).
  destruct (launch_cases l cam prior w) as [(err & ->)|[(err & e & ->)|[(d & e & _ & ->)|(s & d & k & n & e & ->)]]].
  - by apply health_error_local.
  - eapply local_trans; [apply (Hl e)|]. intros. by apply health_error_local.
  - apply Hl.
  - eapply local_trans; [apply (Hl e)|]. intros. by apply spawn_child_local.
Qed.

Lemma start_eq l cam w :
  start l cam w =
  if match get_proc l (cam_id cam) w with Some p => rw_mono w <? p_next_retry p | None => false end then (inr tt, w)
  else launch makedirs_ok spawn_ok md5 l cam (get_proc l (cam_id cam) w) w.
Proof. unfold Recorder.start, bind, gets, ret, get_proc. destruct (dict_get _ _) as [p|]; [|done]. by destruct (_ <? _). Qed.

Lemma start_local l cam w :
  sup_ok w -> startable l (cam_id cam) w -> local_step l (cam_id cam) w (snd (start l cam w)).
Proof.
  intros Ho Hs. rewrite start_eq. destruct (match get_proc _ _ _ with Some _ => _ | None => _ end).
  - split; [done|apply frame_refl].
  - by apply launch_local.
Qed.

Lemma stop_local l c w : sup_ok w -> local_step l c w (snd (stop l c w)).
Proof.
  intros Ho. unfold Recorder.stop, modify. cbn [snd].
  assert (Hw : local_step l c w (match dict_get c (rw_procs w l) with
    | None => w
    | Some p => snd (scan l c p true (kill_child (p_pid p) (set_procs l (dict_pop c (rw_procs w l)) w)))
    end)).
  { destruct (dict_get c (rw_procs w l)) as [p|] eqn:E; [|split; [done|apply frame_refl]].
    eapply local_trans; [by apply (remove_local l c p w)|]. intros. by apply scan_local. }
  destruct l; [|exact Hw..]. eapply local_trans; [exact Hw|]. intros. by apply set_health_local.
Qed.

Lemma stop_removes l c w : get_proc l c (snd (stop l c w)) = None.
Proof.
  unfold Recorder.stop, modify. cbn [snd]. set (w1 := match dict_get c (rw_procs w l) with None => w | Some p => _ end).
  assert (H : get_proc l c w1 = None).
  { unfold w1. destruct (dict_get c (rw_procs w l)) as [p|] eqn:E; [|done].
    destruct (scan_eq l c p true (kill_child (p_pid p) (set_procs l (dict_pop c (rw_procs w l)) w))) as [e ->].
    change (get_proc l c (set_procs l (dict_pop c (rw_procs w l)) w) = None). by rewrite get_pop_proc, decide_True. }
  by destruct l.
Qed.

(** [start] that returns has a running child to show, or an error row. *)
Definition started (l : lane) (c : Z) (w : RecWorld) : Prop :=
  (exists p, get_proc l c w = Some p /\ p_pid p ∈ rw_alive w) \/
  (l = Main -> exists h, rw_health w !! c = Some h /\ h_state h = "error"%string).

Lemma health_error_started l c err w : started l c (snd (health_error l c err w)).
Proof.
  right. intros ->. unfold health_error, modify. cbn [snd]. eexists. split; [apply lookup_insert_eq|done].
Qed.

Lemma spawn_child_started l cam s disk container seconds prior w :
  started l (cam_id cam) (snd (spawn_child spawn_ok l cam s disk container seconds prior w)).
Proof.
  unfold spawn_child. destruct (spawn_ok _); [|apply health_error_started]. unfold modify. cbn [snd]. left.
  eexists (new_proc (rw_next_pid w) disk container seconds (rw_mono w) prior).
  assert (H : get_proc l (cam_id cam) (put_proc l (cam_id cam) (new_proc (rw_next_pid w) disk container seconds (rw_mono w) prior)
                (add_child w)) = Some (new_proc (rw_next_pid w) disk container seconds (rw_mono w) prior))
    by by rewrite get_put_proc, decide_True.
  destruct l; (split; [exact H|cbn; set_solver]).
Qed.

Lemma launch_started l cam prior w u w' :
  launch makedirs_ok spawn_ok md5 l cam prior w = (inr u, w') -> started l (cam_id cam) w'.
Proof.
  intros H. change w' with (snd (inr u : os_error + unit, w')). rewrite <- H.
  destruct (launch_cases l cam prior w) as [(err & E)|[(err & e & E)|[(d & e & _ & E)|(s & d & k & n & e & E)]]]; rewrite E in H |- *;
    [apply health_error_started..|done|apply spawn_child_started].
Qed.

(** ** Converging one camera *)

(** The camera has a live child, or waits out a backoff no longer than the largest
    one, or (in the main lane) its health row says that it cannot be started. *)
Definition served (l : lane) (c : Z) (w : RecWorld) : Prop :=
  started l c w \/
  exists p, get_proc l c w = Some p /\ p_dead_handled p = true /\ rw_mono w < p_next_retry p <= rw_mono w + BACKOFF_MAX.

Lemma mark_dead_eq l c p reason w :
  exists p' w1, mark_dead listdir_ok stat probe l c p reason w = w1 /\ get_proc l c w1 = Some p' /\
    p_pid p' = p_pid p /\ p_dead_handled p' = true /\ rw_alive w1 = rw_alive w /\ rw_mono w1 = rw_mono w /\
    (get_proc l c w = Some p -> sup_ok w -> local_step l c w w1).
Proof.
  unfold mark_dead. set (p' := {| p_pid := p_pid p |}). set (w1 := put_proc l c p' w).
  set (w2 := match l with Main => _ | _ => w1 end). destruct (scan_eq l c p' true w2) as [e Ee].
  exists p', (set_ew e w2). split; [done|].
  assert (Hg : get_proc l c w1 = Some p') by (unfold w1; by rewrite get_put_proc, decide_True).
  split_and!; [by destruct l|done|done|by destruct l|by destruct l|].
  intros Hp Ho. rewrite <- Ee. destruct (so_backoff w Ho l c p Hp) as [[Hb1 Hb2] _].
  unfold BACKOFF_START, BACKOFF_MAX, SEC in *.
  eapply local_trans; [apply (put_proc_local l c p p' w); [done|done|cbn; unfold BACKOFF_START, BACKOFF_MAX, SEC; lia..|done]|]. intros Ho1.
  assert (Hh : local_step l c w1 w2) by (unfold w2; destruct l; [by apply set_health_local|by split; [|apply frame_refl]..]).
  eapply local_trans; [exact Hh|]. intros. by apply scan_local.
Qed.

Lemma on_dead_eq l cam p reason w :
  get_proc l (cam_id cam) w = Some p -> p_pid p ∉ rw_alive w -> sup_ok w ->
  exists q w1, local_step l (cam_id cam) w w1 /\ get_proc l (cam_id cam) w1 = Some q /\ p_pid q ∉ rw_alive w1 /\
    p_dead_handled q = true /\
    on_dead l cam p reason w = if p_next_retry q <=? rw_mono w1 then start l cam w1 else (inr tt, w1).
Proof.
  intros Hp Hd Ho. destruct (mark_dead_eq l (cam_id cam) p reason w) as (q & w1 & E & Hq & Epid & Hdead & Ea & Em & Hl).
  assert (Hrun : forall w2, get_proc l (cam_id cam) w2 = Some (if p_dead_handled p then p else q) ->
    (let! now := gets rw_mono in
     let! p' := gets (fun w => dict_get (cam_id cam) (rw_procs w l)) in
     match p' with
     | Some q => if p_next_retry q <=? now then start l cam else ret tt
     | None => ret tt
     end) w2 = if p_next_retry (if p_dead_handled p then p else q) <=? rw_mono w2 then start l cam w2 else (inr tt, w2)).
  { intros w2 H2. unfold bind, gets, get_proc in *. cbn beta iota. rewrite H2. by destruct (_ <=? _). }
  unfold Recorder.on_dead. destruct (p_dead_handled p) eqn:Edh.
  - exists p, w. split_and!; [split; [done|apply frame_refl]|done|done|done|]. by apply Hrun.
  - exists q, w1. split_and!; [by apply Hl|done|by rewrite Epid, Ea|done|].
    unfold bind at 1, modify. rewrite E. by apply Hrun.
Qed.

Lemma on_dead_local l cam p reason w :
  get_proc l (cam_id cam) w = Some p -> p_pid p ∉ rw_alive w -> sup_ok w ->
  local_step l (cam_id cam) w (snd (on_dead l cam p reason w)).
Proof.
  intros Hp Hd Ho. destruct (on_dead_eq l cam p reason w Hp Hd Ho) as (q & w1 & Hl & Hq & Hqd & _ & ->).
  destruct (_ <=? _); [|done]. eapply local_trans; [exact Hl|]. intros Ho1. apply start_local; [done|].
  intros q' Hq'. congruence.
Qed.

Lemma on_dead_served l cam p reason w u w' :
  get_proc l (cam_id cam) w = Some p -> p_pid p ∉ rw_alive w -> sup_ok w ->
  on_dead l cam p reason w = (inr u, w') -> served l (cam_id cam) w'.
Proof.
  intros Hp Hd Ho H. destruct (on_dead_eq l cam p reason w Hp Hd Ho) as (q & w1 & Hl & Hq & Hqd & Hdh & E). rewrite E in H.
  destruct (p_next_retry q <=? rw_mono w1) eqn:En.
  - left. apply Z.leb_le in En. rewrite start_eq, Hq, (proj2 (Z.ltb_ge _ _)) in H by done. by eapply launch_started.
  - apply Z.leb_gt in En. injection H as _ <-. right. exists q. split_and!; [done..|].
    destruct Hl as [Ho1 _]. by destruct (so_backoff w1 Ho1 l (cam_id cam) q Hq).
Qed.

(** [maintain]: the entry refreshed, then the stall test. *)
Lemma maintain_eq l cam p w :
  get_proc l (cam_id cam) w = Some p -> sup_ok w ->
  exists q w1, local_step l (cam_id cam) w w1 /\ get_proc l (cam_id cam) w1 = Some q /\ p_pid q = p_pid p /\
    rw_alive w1 = rw_alive w /\
    maintain l cam p w = (if stalled (rw_mono w1) q then (modify (kill_child (p_pid q)) ;;; on_dead l cam q "stalled") w1
      else match l with
           | Main => modify (fun w => set_health (cam_id cam) "recording" (Some (p_pid q)) (p_last_db_segment_at q)
                               (Some (p_restart_count q)) None (put_proc Main (cam_id cam) (with_state "recording" q) w)) w1
           | _ => (inr tt, w1)
           end).
Proof.
  intros Hp Ho. destruct (scan l (cam_id cam) p false w) as [n w0] eqn:Es.
  destruct (scan_eq l (cam_id cam) p false w) as [e Ee]. rewrite Es in Ee. cbn in Ee. subst w0.
  set (q := refresh l n (rw_mono w) (ew_now (rw_ew w)) p).
  assert (Hq : p_pid q = p_pid p /\ BACKOFF_START <= p_backoff q <= BACKOFF_MAX /\ p_next_retry q = p_next_retry p).
  { destruct (so_backoff w Ho l _ p Hp) as [Hb _]. unfold q, refresh. destruct (n =? 0); [done|]. split; [done|].
    split; [|done]. cbn. unfold BACKOFF_START, BACKOFF_MAX, SEC. lia. }
  destruct Hq as (Epid & Hb & En). destruct (so_backoff w Ho l _ p Hp) as [_ Hn].
  assert (Hg : get_proc l (cam_id cam) (put_proc l (cam_id cam) q (set_ew e w)) = Some q) by by rewrite get_put_proc, decide_True.
  exists q, (put_proc l (cam_id cam) q (set_ew e w)). split_and!; [|done|done|done|].
  - eapply local_trans; [by apply (same_children_local l (cam_id cam) w (set_ew e w))|]. intros Ho1.
    apply (put_proc_local l (cam_id cam) p); [done|done|done| |done]. rewrite En. exact Hn.
  - unfold Recorder.maintain, bind at 1, modify at 1. rewrite Es. fold q. unfold bind at 1 2, gets. cbn beta iota.
    fold (get_proc l (cam_id cam) (put_proc l (cam_id cam) q (set_ew e w))). rewrite Hg.
    destruct (stalled _ _); [done|]. by destruct l.
Qed.

Lemma kill_then_dead l cam q w :
  get_proc l (cam_id cam) w = Some q -> sup_ok w ->
  get_proc l (cam_id cam) (kill_child (p_pid q) w) = Some q /\ p_pid q ∉ rw_alive (kill_child (p_pid q) w) /\
  local_step l (cam_id cam) w (kill_child (p_pid q) w).
Proof. intros Hq Ho. split_and!; [done|cbn; set_solver|by eapply kill_child_local]. Qed.

Lemma maintain_local l cam p w :
  get_proc l (cam_id cam) w = Some p -> sup_ok w -> local_step l (cam_id cam) w (snd (maintain l cam p w)).
Proof.
  intros Hp Ho. destruct (maintain_eq l cam p w Hp Ho) as (q & w1 & Hl & Hq & _ & _ & ->).
  eapply local_trans; [exact Hl|]. intros Ho1. destruct (stalled _ _).
  - destruct (kill_then_dead l cam q w1 Hq Ho1) as (Hq2 & Hd & Hk). eapply local_trans; [exact Hk|].
    intros Ho2. by apply on_dead_local.
  - destruct l; [|by split; [|apply frame_refl]..]. unfold modify. cbn [snd].
    destruct (so_backoff w1 Ho1 Main _ q Hq) as [Hb Hn].
    eapply local_trans; [by apply (put_proc_local Main (cam_id cam) q (with_state "recording" q))|]. intros. by apply set_health_local.
Qed.

Lemma maintain_served l cam p w u w' :
  get_proc l (cam_id cam) w = Some p -> p_pid p ∈ rw_alive w -> sup_ok w ->
  maintain l cam p w = (inr u, w') -> served l (cam_id cam) w'.
Proof.
  intros Hp Hrun Ho H. destruct (maintain_eq l cam p w Hp Ho) as (q & w1 & [Ho1 _] & Hq & Epid & Ea & E). rewrite E in H.
  destruct (stalled _ _).
  - destruct (kill_then_dead l cam q w1 Hq Ho1) as (Hq2 & Hd & [Ho2 _]). by apply (on_dead_served l cam q "stalled" _ u w' Hq2 Hd Ho2).
  - left. left. destruct l.
    + injection H as _ <-. exists (with_state "recording" q). split; [|cbn; by rewrite Ea, Epid].
      change (get_proc Main (cam_id cam) (put_proc Main (cam_id cam) (with_state "recording" q) w1) = Some (with_state "recording" q)).
      by rewrite get_put_proc, decide_True.
    + injection H as _ <-. exists q. by rewrite Ea, Epid.
    + injection H as _ <-. exists q. by rewrite Ea, Epid.
Qed.

Lemma converge_cases l cam w :
  (get_proc l (cam_id cam) w = None /\ converge l cam w = start l cam w) \/
  (exists p, get_proc l (cam_id cam) w = Some p /\ p_pid p ∉ rw_alive w /\ converge l cam w = on_dead l cam p "process_exited" w) \/
  (exists p, get_proc l (cam_id cam) w = Some p /\ p_pid p ∈ rw_alive w /\
     converge l cam w = match l with Warm => (inr tt, w) | _ => maintain l cam p w end).
Proof.
  unfold Recorder.converge, bind, gets, get_proc. destruct (dict_get (cam_id cam) (rw_procs w l)) as [p|]; [right|by left].
  unfold running. case_bool_decide as Hr; cbn [negb]; [right|left]; exists p; split_and!; try done. by destruct l.
Qed.

Lemma converge_local l cam w : sup_ok w -> local_step l (cam_id cam) w (snd (converge l cam w)).
Proof.
  intros Ho. destruct (converge_cases l cam w) as [(Hp & ->)|[(p & Hp & Hd & ->)|(p & Hp & Hr & ->)]].
  - apply start_local; [done|]. intros q. by rewrite Hp.
  - by apply on_dead_local.
  - destruct l; [by apply maintain_local|by apply maintain_local|]. split; [done|apply frame_refl].
Qed.

Lemma converge_served l cam w u w' : sup_ok w -> converge l cam w = (inr u, w') -> served l (cam_id cam) w'.
Proof.
  intros Ho H. destruct (converge_cases l cam w) as [(Hp & E)|[(p & Hp & Hd & E)|(p & Hp & Hr & E)]]; rewrite E in H.
  - left. rewrite start_eq, Hp in H. by eapply launch_started.
  - by eapply on_dead_served.
  - destruct l; [by eapply maintain_served|by eapply maintain_served|]. injection H as _ <-. left. left. by exists p.
Qed.

(** Only a directory that cannot be made ends a camera's turn early. *)
Definition no_dir (l : lane) (cam : Camera) : Prop := exists d, makedirs_ok d (dir_of (cam_id cam) (lane_dir l)) = false.
Lemma start_fails l cam w e w' : start l cam w = (inl e, w') -> e = OSError "makedirs" /\ no_dir l cam.
Proof.
  rewrite start_eq. destruct (match get_proc _ _ _ with Some _ => _ | None => _ end); [done|]. intros H.
  assert (Hh : forall err w1, health_error l (cam_id cam) err w1 <> (inl e, w')) by done.
  destruct (launch_cases l cam (get_proc l (cam_id cam) w) w) as [(err & E)|[(err & e0 & E)|[(d & e0 & Hd & E)|(s & d & k & n & e0 & E)]]]; rewrite E in H.
  - by apply Hh in H.
  - by apply Hh in H.
  - injection H as <- _. split; [done|by exists d].
  - unfold spawn_child in H. destruct (spawn_ok _); [done|by apply Hh in H].
Qed.
Lemma on_dead_fails l cam p reason w e w' :
  get_proc l (cam_id cam) w = Some p -> p_pid p ∉ rw_alive w -> sup_ok w -> on_dead l cam p reason w = (inl e, w') -> e = OSError "makedirs" /\ no_dir l cam.
Proof.
  intros Hp Hd Ho. destruct (on_dead_eq l cam p reason w Hp Hd Ho) as (q & w1 & _ & _ & _ & _ & ->). destruct (_ <=? _); [apply start_fails|done].
Qed.
Lemma converge_fails l cam w e w' : sup_ok w -> converge l cam w = (inl e, w') -> e = OSError "makedirs" /\ no_dir l cam.
Proof.
  intros Ho. destruct (converge_cases l cam w) as [(Hp & ->)|[(p & Hp & Hd & ->)|(p & Hp & Hr & ->)]]; [apply start_fails|by apply on_dead_fails|].
  assert (Hm : maintain l cam p w = (inl e, w') -> e = OSError "makedirs" /\ no_dir l cam).
  { destruct (maintain_eq l cam p w Hp Ho) as (q & w1 & [Ho1 _] & Hq & _ & _ & ->). destruct (stalled _ _); [|by destruct l].
    destruct (kill_then_dead l cam q w1 Hq Ho1) as (Hq2 & Hd & [Ho2 _]). by apply on_dead_fails. }
  by destruct l.
Qed.

(** A property of one entry survives steps elsewhere. *)
Definition stable_at (l : lane) (c : Z) (Q : RecWorld -> Prop) : Prop :=
  forall l' c' w w', (l', c') <> (l, c) -> frame l' c' w w' -> Q w -> Q w'.

Lemma served_stable l c : stable_at l c (served l c).
Proof.
  intros l' c' w w' Hne [Em Ep Ea Eh]. assert (Hne' : (l, c) <> (l', c')) by congruence.
  intros [[(p & Hp & Hr)|He]|(p & Hp & Hd & Hn)].
  - left. left. exists p. rewrite (Ep l c) by done. split; [done|]. by apply (Ea l c).
  - left. right. intros ->. destruct (He eq_refl) as (h & Hh & Es). exists h. split; [|done]. by rewrite Eh.
  - right. exists p. rewrite (Ep l c) by done. by rewrite Em.
Qed.

Lemma absent_stable l c : stable_at l c (fun w => get_proc l c w = None).
Proof. intros l' c' w w' Hne [_ Ep _ _] H. rewrite Ep; [done|]. congruence. Qed.

Lemma keeps_stable {A} l c l' c' Q (m : RM A) :
  stable_at l c Q -> (l', c') <> (l, c) -> (forall w, sup_ok w -> local_step l' c' w (snd (m w))) ->
  keeps (fun w => sup_ok w /\ Q w) m.
Proof. intros Hq Hne Hm w [Ho Hw]. destruct (Hm w Ho) as [Ho' Hf]. split; [done|by eapply Hq]. Qed.

(** *** A pass over a lane *)

Lemma lane_keeps_ok l desired : keeps sup_ok (tick_lane l desired).
Proof.
  unfold Recorder.tick_lane. apply keeps_bind; [apply keeps_gets|]. intros have.
  apply keeps_bind; [|intros _]; apply keeps_for_each; intros x _ w Hw; [by apply (stop_local l x w)|by apply (converge_local l x w)].
Qed.

Lemma converge_all_keeps l c Q cams :
  stable_at l c Q -> c ∉ cam_id <$> cams -> keeps (fun w => sup_ok w /\ Q w) (for_each cams (converge l)).
Proof.
  intros Hq Hn. apply keeps_for_each. intros cam Hcam. apply (keeps_stable l c l (cam_id cam)); [done| |by apply converge_local].
  intros [= E]. apply Hn. rewrite <- E. by apply list_elem_of_fmap_2.
Qed.

Lemma other_lane_keeps l c Q l' desired :
  stable_at l c Q -> l' <> l -> keeps (fun w => sup_ok w /\ Q w) (tick_lane l' desired).
Proof.
  intros Hq Hne. unfold Recorder.tick_lane. apply keeps_bind; [apply keeps_gets|]. intros have.
  apply keeps_bind; [|intros _]; apply keeps_for_each; intros x _.
  - apply (keeps_stable l c l' x); [done|congruence|apply stop_local].
  - apply (keeps_stable l c l' (cam_id x)); [done|congruence|apply converge_local].
Qed.

Lemma converge_all_served l cams : forall w u w',
  sup_ok w -> for_each cams (converge l) w = (inr u, w') -> forall cam, cam ∈ cams -> served l (cam_id cam) w'.
Proof.
  induction cams as [|cam cams IH]; intros w u w' Ho H; [set_solver|].
  cbn [for_each] in H. apply bind_inr in H as ([] & w1 & H1 & H2).
  pose proof (converge_local l cam w Ho) as [Ho1 _]. rewrite H1 in Ho1. cbn in Ho1.
  intros c [->|Hc]%elem_of_cons; [|by eapply IH]. destruct (decide (cam_id cam ∈ cam_id <$> cams)) as [Hin|Hn].
  - apply list_elem_of_fmap in Hin as (c' & -> & Hc'). by eapply IH.
  - pose proof (converge_all_keeps l (cam_id cam) _ cams (served_stable l (cam_id cam)) Hn w1) as Hk.
    rewrite H2 in Hk. cbn beta iota in Hk. destruct Hk as [_ Hk]; [|exact Hk]. split; [done|]. exact (converge_served l cam w tt w1 Ho H1).
Qed.

(** A pass goes to its end, or up to the first camera whose directory cannot be made. *)
Definition pass_outcome (l : lane) (cams : list Camera) (r : os_error + unit) (w' : RecWorld) : Prop :=
  (r = inr tt /\ forall cam, cam ∈ cams -> served l (cam_id cam) w') \/
  (r = inl (OSError "makedirs") /\ exists pre cam post, cams = pre ++ cam :: post /\ no_dir l cam /\
     forall c, c ∈ pre -> cam_id c <> cam_id cam -> served l (cam_id c) w').
Lemma converge_all_outcome l cams w : sup_ok w -> pass_outcome l cams (fst (for_each cams (converge l) w)) (snd (for_each cams (converge l) w)).
Proof.
  intros Ho. destruct (for_each cams (converge l) w) as [[e|[]] w'] eqn:E; cbn [fst snd]; [right|left; split; [done|by eapply converge_all_served]].
  enough (e = OSError "makedirs" /\ exists pre cam post w1, cams = pre ++ cam :: post /\ for_each pre (converge l) w = (inr tt, w1) /\
    converge l cam w1 = (inl e, w') /\ sup_ok w1) as (-> & pre & cam & post & w1 & -> & H1 & H2 & Ho1).
  { split; [done|]. exists pre, cam, post. split; [done|]. split; [by apply (converge_fails l cam w1 _ w' Ho1 H2)|]. intros c Hc Hne.
    pose proof (converge_local l cam w1 Ho1) as [_ Hf]. rewrite H2 in Hf. apply (served_stable l (cam_id c) l (cam_id cam) w1); [congruence|exact Hf|].
    exact (converge_all_served l pre w tt w1 Ho H1 c Hc). }
  revert w Ho E. induction cams as [|cam cams IH]; intros w Ho E; [done|]. cbn [for_each] in E. unfold bind in E.
  pose proof (converge_local l cam w Ho) as [Ho1 _]. destruct (converge l cam w) as [[e1|[]] w1] eqn:E1; cbn [snd] in Ho1.
  - injection E as -> ->. split; [by apply (converge_fails l cam w _ _ Ho E1)|]. exists [], cam, cams, w. by rewrite E1.
  - destruct (IH w1 Ho1 E) as (He & pre & c & post & w2 & -> & H1 & H2 & H3). split; [done|].
    exists (cam :: pre), c, post, w2. split_and!; [done| |done|done]. cbn [for_each]. unfold bind. by rewrite E1.
Qed.

(** After the first loop the cameras not desired have no child. *)
Lemma stop_all_absent l c gone : c ∈ gone -> forall w, sup_ok w ->
  let w' := snd (for_each gone (stop l) w) in sup_ok w' /\ get_proc l c w' = None.
Proof.
  intros Hc. assert (Hk : forall gone', keeps (fun w => sup_ok w /\ get_proc l c w = None) (for_each gone' (stop l))).
  { intros gone'. apply keeps_for_each. intros x _. destruct (decide (x = c)) as [->|Hne].
    - intros w [Ho _]. split; [by apply (stop_local l c w)|apply stop_removes].
    - apply (keeps_stable l c l x); [apply absent_stable|congruence|apply stop_local]. }
  induction gone as [|x gone IH]; [by apply elem_of_nil in Hc|]. intros w Ho. cbn [for_each].
  pose proof (stop_local l x w Ho) as [Ho1 _]. unfold bind. pose proof (stop_removes l x w) as Hr.
  destruct (stop l x w) as [[e|[]] w1] eqn:E; [done|]. cbn [snd] in *.
  apply elem_of_cons in Hc as [->|Hc]; [by apply Hk|by apply IH].
Qed.

Lemma stop_all_total l gone w : fst (for_each gone (stop l) w) = inr tt.
Proof. revert w. induction gone as [|x gone IH]; intros w; [done|]. cbn [for_each]. unfold bind, Recorder.stop, modify. apply IH. Qed.

Lemma tick_lane_converges l desired w :
  sup_ok w -> let '(r, w') := tick_lane l desired w in
  sup_ok w' /\ pass_outcome l desired r w' /\ (forall c, c ∉ cam_id <$> desired -> get_proc l c w' = None).
Proof.
  intros Ho. destruct (tick_lane l desired w) as [r w'] eqn:H. pose proof (lane_keeps_ok l desired w Ho) as Ho'. rewrite H in Ho'. cbn in Ho'. split; [done|].
  unfold Recorder.tick_lane in H. unfold bind at 1, gets in H. cbn beta iota in H.
  set (gone := List.filter _ _) in H. pose proof (stop_all_total l gone w) as Ht. unfold bind in H.
  destruct (for_each gone (stop l) w) as [r1 w1] eqn:H1. cbn [fst] in Ht. subst r1.
  assert (Ho1 : sup_ok w1).
  { assert (K : keeps sup_ok (for_each gone (stop l))) by (apply keeps_for_each; intros x _ w0 ?; by apply (stop_local l x w0)).
    specialize (K w Ho). by rewrite H1 in K. }
  split; [pose proof (converge_all_outcome l desired w1 Ho1) as K; by rewrite H in K|]. intros c Hc.
  pose proof (converge_all_keeps l c _ desired (absent_stable l c) Hc w1) as Hk. rewrite H in Hk.
  cbn beta iota in Hk. destruct Hk as [_ Hk]; [|exact Hk]. split; [done|].
  destruct (decide (c ∈ gone)) as [Hg|Hg].
  - pose proof (stop_all_absent l c gone Hg w Ho) as [_ Ha]. by rewrite H1 in Ha.
  - assert (Hs : get_proc l c w = None).
    { destruct (get_proc l c w) as [p|] eqn:Ep; [|done]. exfalso. apply Hg. apply elem_of_filter_In.
      split; [by eapply dict_get_keys|]. by rewrite bool_decide_eq_false_2. }
    assert (K : keeps (fun w => sup_ok w /\ get_proc l c w = None) (for_each gone (stop l))).
    { apply keeps_for_each. intros x Hx. apply (keeps_stable l c l x); [apply absent_stable| |apply stop_local].
      intros [= ->]. done. }
    specialize (K w (conj Ho Hs)). rewrite H1 in K. apply K.
Qed.

Notation tick_warm := (tick_warm listdir_ok stat probe makedirs_ok spawn_ok consumers md5).
Notation tick := (tick listdir_ok stat probe makedirs_ok spawn_ok consumers md5 utc_offset set_iter).
Notation tick_guarded := (tick_guarded listdir_ok stat probe makedirs_ok spawn_ok consumers md5 utc_offset set_iter).
Notation stop_all := (stop_all listdir_ok stat probe).
Notation shutdown := (shutdown listdir_ok stat probe).

(** *** The third lane's gate only touches activity marks *)

Lemma set_sched_children s w : same_children w (set_sched s w).
Proof. done. Qed.

Lemma warm_cameras_eq cams : forall acc w, exists cs s, warm_cameras consumers cams acc w = (cs, set_sched s w).
Proof.
  induction cams as [|cam cams IH]; intros acc w; [exists acc, (rw_sched w); by destruct w|]. cbn [warm_cameras].
  destruct (warm_stream cam) as [st|]; [|apply IH].
  assert (exists s, refresh_viewer_activity consumers cam st w = set_sched s w) as [s ->].
  { unfold refresh_viewer_activity. assert (E : w = set_sched (rw_sched w) w) by by destruct w.
    destruct (_ <=? _); [by eexists|]. destruct (consumers _); [|by eexists]. destruct (0 <? _); by eexists. }
  destruct (negb _); [destruct (IH acc (set_sched s w)) as (cs & s' & ->); by exists cs, s'|].
  destruct (bool_decide _); [destruct (IH acc (set_sched s w)) as (cs & s' & ->); by exists cs, s'|].
  destruct (IH (acc ++ [cam]) (set_sched s w)) as (cs & s' & ->). by exists cs, s'.
Qed.

Lemma tick_warm_eq w : exists cs s, tick_warm w = tick_lane Warm cs (set_sched s w).
Proof.
  unfold Recorder.tick_warm. destruct (warm_cameras_eq (cameras_enabled (rw_sched w)) [] w) as (cs & s & E).
  exists cs, s. unfold bind at 1. by rewrite E.
Qed.

Lemma tick_warm_keeps c Q : stable_at Main c Q -> keeps (fun w => sup_ok w /\ Q w) tick_warm.
Proof.
  intros Hq w [Ho Hw]. destruct (tick_warm_eq w) as (cs & s & ->). apply (other_lane_keeps Main c Q Warm cs Hq); [done|].
  split; [by apply (same_children_ok w)|]. apply (Hq Warm c w (set_sched s w)); [done| |done].
  by apply same_children_local.
Qed.

Lemma try_run (m : RM unit) w : try_with m (fun _ => ret tt) w = (inr tt, snd (m w)).
Proof. unfold try_with, ret. by destruct (m w) as [[e|[]] w1]. Qed.

Lemma tick_parts w :
  tick w = match tick_lane Main (desired_cameras utc_offset set_iter w) w with
           | (inl e, w1) => (inl e, w1)
           | (inr _, w1) => (inr tt, snd (tick_warm (snd (tick_lane Sub (dual_cameras set_iter (desired_cameras utc_offset set_iter w)) w1))))
           end.
Proof.
  unfold Recorder.tick. unfold bind at 1, gets. cbn beta iota. unfold bind at 1. destruct (tick_lane Main _ w) as [[e|[]] w1]; [done|].
  unfold bind. by rewrite !try_run.
Qed.

Lemma tick_keeps_ok : keeps sup_ok tick.
Proof.
  unfold Recorder.tick. apply keeps_bind; [apply keeps_gets|]. intros desired.
  apply keeps_bind; [apply lane_keeps_ok|]. intros _. apply keeps_bind; [|intros _]; (apply keeps_try; [|intros; apply keeps_ret]).
  - apply lane_keeps_ok.
  - intros w Ho. destruct (tick_warm_eq w) as (cs & s & ->). apply lane_keeps_ok. by apply (same_children_ok w).
Qed.

(** *** Shutdown *)

Definition lane_empty (l : lane) (w : RecWorld) : Prop := forall c, get_proc l c w = None.

Lemma stop_all_empties l w :
  sup_ok w -> let w' := snd (stop_all l w) in
  sup_ok w' /\ lane_empty l w' /\ forall l', lane_empty l' w -> lane_empty l' w'.
Proof.
  intros Ho w'. unfold Recorder.stop_all, bind, gets in w'. cbn beta iota in w'.
  assert (Hok : sup_ok w').
  { apply (keeps_for_each sup_ok); [|done]. intros x _ w0 ?. by apply (stop_local l x w0). }
  assert (Hk : forall l' c, get_proc l' c w = None -> get_proc l' c w' = None).
  { intros l' c Hc. assert (K : keeps (fun w => sup_ok w /\ get_proc l' c w = None) (for_each (dict_keys (rw_procs w l)) (stop l))).
    { apply keeps_for_each. intros x _. destruct (decide ((l, x) = (l', c))) as [[= -> ->]|Hne].
      - intros w0 [H0 _]. split; [by apply (stop_local l' c w0)|apply stop_removes].
      - apply (keeps_stable l' c l x); [apply absent_stable|done|apply stop_local]. }
    apply (K w (conj Ho Hc)). }
  split; [done|]. split.
  - intros c. destruct (get_proc l c w) as [p|] eqn:E; [|by apply Hk].
    apply (stop_all_absent l c (dict_keys (rw_procs w l))); [by eapply dict_get_keys|done].
  - intros l' He c. apply Hk, He.
Qed.

Lemma shutdown_kills_all w : sup_ok w -> rw_alive (snd (shutdown w)) = ∅.
Proof.
  intros Ho. assert (Htot : forall l w, exists w1, stop_all l w = (inr tt, w1)).
  { intros l w0. unfold Recorder.stop_all, bind, gets. cbn beta iota. pose proof (stop_all_total l (dict_keys (rw_procs w0 l)) w0) as H.
    destruct (for_each _ _ w0) as [r w1]. cbn in H. subst. eauto. }
  destruct (Htot Warm w) as [w1 E1]. destruct (Htot Sub w1) as [w2 E2]. destruct (Htot Main w2) as [w3 E3].
  assert (E : shutdown w = (inr tt, w3)) by (unfold Recorder.shutdown, bind; by rewrite E1, E2, E3).
  destruct (stop_all_empties Warm w Ho) as (O1 & L1 & _). rewrite E1 in O1, L1. cbn in O1, L1.
  destruct (stop_all_empties Sub w1 O1) as (O2 & L2 & K2). rewrite E2 in O2, L2, K2. cbn in O2, L2, K2.
  destruct (stop_all_empties Main w2 O2) as (O3 & L3 & K3). rewrite E3 in O3, L3, K3. cbn in O3, L3, K3.
  rewrite E. cbn. apply set_eq. intros pid. split; [|set_solver]. intros (l & c & p & Hp & _)%(so_alive w3 O3).
  destruct l; [by rewrite (L3 c) in Hp|by rewrite (K3 Sub L2 c) in Hp|by rewrite (K3 Warm (K2 Warm L1) c) in Hp].
Qed.

(** ** The supervisor's guarantees *)

(** Between two ticks time passes, children may die, and the rest of the system
    writes its tables; the supervisor's own tables do not change. *)
Definition environment (w w' : RecWorld) : Prop :=
  rw_mono w <= rw_mono w' /\ (forall l, rw_procs w' l = rw_procs w l) /\ rw_alive w' ⊆ rw_alive w /\
  rw_next_pid w' = rw_next_pid w.

Inductive supervised : RecWorld -> Prop :=
| sup_start w : 0 <= rw_mono w -> (forall l, rw_procs w l = []) -> rw_alive w = ∅ -> supervised w
| sup_tick w : supervised w -> supervised (snd (tick_guarded w))
| sup_env w w' : supervised w -> environment w w' -> supervised w'.

Lemma supervised_ok w : supervised w -> sup_ok w.
Proof.
  induction 1 as [w Hm Hp Ha|w _ IH|w w' _ IH (Hm & Hp & Ha & Hn)].
  - constructor; [| |by rewrite Ha| |done]; intros l c p; unfold get_proc; by rewrite Hp.
  - apply (keeps_try sup_ok tick _ tick_keeps_ok); [intros; apply keeps_ret|done].
  - assert (Hg : forall l c, get_proc l c w' = get_proc l c w) by (intros; unfold get_proc; by rewrite Hp).
    destruct IH as [Hi Hf Hal Hb H0]. constructor.
    + intros l c p l' c' p'. rewrite !Hg. apply Hi.
    + intros l c p. rewrite Hg, Hn. apply Hf.
    + intros pid Hpid%Ha. destruct (Hal pid Hpid) as (l & c & p & ?). exists l, c, p. by rewrite Hg.
    + intros l c p. rewrite Hg. intros [? ?]%Hb. split; [done|lia].
    + lia.
Qed.

(** C14: The supervisor converges.  After a tick no camera has a recorder that should not, and
    either the tick returned, and every camera that should be recording has a live recorder, waits
    out a restart backoff of at most 15 seconds, or has a health row with the error that keeps it
    from starting; or it raised at a camera whose directory could not be made (and only then),
    and the cameras before that one are served so. *)
Theorem tick_converges w :
  supervised w ->
  let desired := desired_cameras utc_offset set_iter w in
  let '(r, w') := tick w in
  (forall c, c ∉ cam_id <$> desired -> get_proc Main c w' = None) /\
  ((r = inr tt /\ forall cam, cam ∈ desired -> served Main (cam_id cam) w') \/
   (r = inl (OSError "makedirs") /\ exists pre cam post, desired = pre ++ cam :: post /\
      (exists d, makedirs_ok d (dir_of (cam_id cam) (lane_dir Main)) = false) /\
      forall c, c ∈ pre -> cam_id c <> cam_id cam -> served Main (cam_id c) w')).
Proof.
  intros Ho%supervised_ok. cbv zeta. rewrite tick_parts. pose proof (tick_lane_converges Main (desired_cameras utc_offset set_iter w) w Ho) as H.
  destruct (tick_lane Main _ w) as [[e|[]] w1]; destruct H as (Ho1 & Hr & Hn); [by split|].
  assert (Hk : forall c Q, stable_at Main c Q -> Q w1 ->
    Q (snd (tick_warm (snd (tick_lane Sub (dual_cameras set_iter (desired_cameras utc_offset set_iter w)) w1))))).
  { intros c Q Hq Hw1. apply (tick_warm_keeps c Q Hq). by apply (other_lane_keeps Main c Q Sub). }
  destruct Hr as [[_ Hs]|[? _]]; [|done].
  split; [intros c Hc; apply (Hk c (fun w => get_proc Main c w = None)); [apply absent_stable|by apply Hn]|].
  left. split; [done|]. intros cam Hcam. apply (Hk (cam_id cam)); [apply served_stable|by apply Hs].
Qed.

(** In every history of ticks (failing ones included), deaths and outside
    changes, each live ffmpeg child is the one child of one camera in one lane, so
    no camera is recorded twice and no recorder is lost track of; and the shutdown
    leaves no child behind. *)
Theorem no_stray_recorders w :
  supervised w ->
  (forall pid, pid ∈ rw_alive w -> exists l c p, get_proc l c w = Some p /\ p_pid p = pid /\
     forall l' c' p', get_proc l' c' w = Some p' -> p_pid p' = pid -> l' = l /\ c' = c) /\
  rw_alive (snd (shutdown w)) = ∅.
Proof.
  intros Ho%supervised_ok. split; [|by apply shutdown_kills_all]. intros pid Hpid.
  destruct (so_alive w Ho pid Hpid) as (l & c & p & Hp & <-). exists l, c, p. split_and!; [done|done|].
  intros l' c' p' Hp' E. by apply (so_inj w Ho l' c' p' l c p).
Qed.
End Local.

(** ** What should be recording *)

Section Desired.
Context (utc_offset : Z -> Z) (set_iter : gset Z -> list Z).
Hypothesis set_iter_perm : forall X, set_iter X ≡ₚ elements X.   (* iterating a set gives its elements, once each *)

Lemma camera_row_find cam w :
  NoDup (cam_id <$> s_cams (rw_sched w)) -> cam ∈ s_cams (rw_sched w) -> cam_deleted_at cam = None ->
  camera_row (cam_id cam) w = Some cam.
Proof.
  intros Hn Hin Hd. unfold camera_row. destruct (List.find _ _) as [c|] eqn:E.
  - apply find_some in E as [Hc [Ei%Z.eqb_eq _]%andb_true_iff]. f_equal. apply (nodup_key_inj cam_id (s_cams (rw_sched w))); [done| |done|done].
    by apply list_elem_of_In.
  - eapply find_none in E; [|by apply list_elem_of_In]. rewrite Z.eqb_refl, Hd in E. done.
Qed.

Definition forced (c : Z) (w : RecWorld) : Prop :=
  exists r, r ∈ t_recordings (ew_store (rw_ew w)) /\ rc_camera_id r = c /\ rc_deleted_at r = None /\
    match rc_end_ts r with None => True | Some e => ew_now (rw_ew w) < e end.

Lemma elem_of_forced_ids c w : c ∈ forced_ids w <-> forced c w.
Proof.
  unfold forced_ids, forced. rewrite elem_of_list_to_set, list_elem_of_fmap. split.
  - intros (r & -> & [Hr [Hd%bool_decide_eq_true He]%andb_true_iff]%elem_of_filter_In). exists r. split_and!; [done..|].
    destruct (rc_end_ts r); [by apply Z.ltb_lt|done].
  - intros (r & Hr & <- & Hd & He). exists r. split; [done|]. apply elem_of_filter_In. split; [done|].
    rewrite bool_decide_eq_true_2 by done. destruct (rc_end_ts r); [by apply Z.ltb_lt|done].
Qed.

(** A camera is to be recorded exactly when it is enabled and the weekly schedule
    does not say 'off' now, or a recording of it is still open (an event's
    post-buffer, a manual recording), whatever the schedule says. *)
Theorem recording_follows_schedule cam w :
  NoDup (cam_id <$> s_cams (rw_sched w)) ->
  cam ∈ desired_cameras utc_offset set_iter w <->
  cam ∈ s_cams (rw_sched w) /\ cam_deleted_at cam = None /\ cam_is_enabled cam = true /\
  (forced (cam_id cam) w \/ mode utc_offset (cam_id cam) (ew_now (rw_ew w)) (rw_ew w) <> "off"%string).
Proof.
  intros Hn. unfold desired_cameras. rewrite list_elem_of_omap. split.
  - intros (id & Hid & H). destruct (camera_row id w) as [c|] eqn:Ec; [|done].
    unfold camera_row in Ec. apply find_some in Ec as [Hc [<-%Z.eqb_eq Hd%bool_decide_eq_true]%andb_true_iff].
    apply list_elem_of_In in Hc. destruct (cam_is_enabled c) eqn:Een; [|done]. cbn in H.
    destruct (negb _ && _) eqn:Eb; [done|]. injection H as <-. split_and!; [done..|].
    apply andb_false_iff in Eb as [Eb|Eb].
    + left. apply negb_false_iff, bool_decide_eq_true in Eb. by apply elem_of_forced_ids.
    + right. by apply bool_decide_eq_false in Eb.
  - intros (Hin & Hd & Hen & Hm). exists (cam_id cam). split.
    + rewrite set_iter_perm, elem_of_elements, elem_of_union, elem_of_list_to_set. left.
      apply list_elem_of_fmap_2. unfold cameras_enabled. apply elem_of_filter_In. split; [done|].
      by rewrite bool_decide_eq_true_2, Hen.
    + rewrite (camera_row_find cam w Hn Hin Hd), Hen. cbn.
      assert (negb (bool_decide (cam_id cam ∈ forced_ids w)) &&
        bool_decide (mode utc_offset (cam_id cam) (ew_now (rw_ew w)) (rw_ew w) = "off"%string) = false) as ->; [|done].
      apply andb_false_iff. destruct Hm as [Hf|Hm]; [left|right].
      * apply negb_false_iff, bool_decide_eq_true. by apply elem_of_forced_ids.
      * by apply bool_decide_eq_false.
Qed.

(** Storage policies play no part: neither the recording mode of a camera nor the
    over-capacity policy that stops one changes what is recorded. *)
Theorem recording_mode_is_ignored policies w :
  desired_cameras utc_offset set_iter (set_ew (set_store (set_policies policies (ew_store (rw_ew w))) (rw_ew w)) w) =
  desired_cameras utc_offset set_iter w.
Proof. done. Qed.

(** The retention run that finds a camera over its cap under 'stop_recording' leaves
    it recording. *)
Corollary over_capacity_does_not_stop cam pol w :
  desired_cameras utc_offset set_iter (set_ew (set_store (stop_camera cam pol (ew_store (rw_ew w))) (rw_ew w)) w) =
  desired_cameras utc_offset set_iter w.
Proof. done. Qed.
End Desired.

(** ** A stop loses no footage *)

Section LastSegment.
Context (listdir_ok : Z -> string -> bool) (stat : Z * string -> option (Z * Z)) (probe : Z * string -> option Z).
Notation stop := (stop listdir_ok stat probe).

(** When a recorder is stopped, everything readable and dated that it wrote is in
    the index afterwards, the segment it was writing included. *)
Theorem stop_indexes_last_segment l c p d w name :
  l <> Warm -> get_proc l c w = Some p -> p_disk p = Some d ->
  listdir_ok d (dir_of c (lane_dir l)) = true ->
  name ∈ scan_names c d (p_container p) (lane_dir l) true (ew_store (rw_ew w)) ->
  is_Some (stat (d, dir_of c (lane_dir l) +:+ name)) -> is_Some (parse_start_ts name) ->
  exists_rel_path c (dir_of c (lane_dir l) +:+ name) (ew_store (rw_ew (snd (stop l c w)))) = true.
Proof.
  intros Hl Hp Hd Hdir Hn Hs Hts. unfold get_proc in Hp.
  pose proof (final_scan_complete listdir_ok stat probe c d (p_container p) (lane_dir l) (lane_role l) (rw_ew w) name Hdir Hn Hs Hts) as H.
  assert (E : forall w', rw_ew w' = rw_ew w -> rw_ew (snd (scan listdir_ok stat probe l c p true w')) =
    snd (index_camera_dir listdir_ok stat probe c d (p_container p) (lane_dir l) (lane_role l) true (rw_ew w))).
  { intros w' Ew. unfold Recorder.scan. rewrite Hd, Ew. destruct l; [| |done];
      destruct (index_camera_dir _ _ _ _ _ _ _ _ _ _) as [n e]; done. }
  unfold Recorder.stop, modify. cbn [snd]. rewrite Hp.
  set (w1 := snd (scan _ _ _ l c p true _)).
  assert (Ew1 : rw_ew w1 = snd (index_camera_dir listdir_ok stat probe c d (p_container p) (lane_dir l) (lane_role l) true (rw_ew w)))
    by by apply E.
  destruct l; [|by rewrite Ew1|done]. change (rw_ew (set_health c "stopped" None None None None w1)) with (rw_ew w1). by rewrite Ew1.
Qed.
End LastSegment.

(** ** Witnesses *)

Definition demo_rec : RecWorld :=
  {| rw_ew := demo_ew;
     rw_sched := {| s_tok := demo_world; s_nodes := []; s_rows := ∅; s_cams := [demo_cam 1; demo_cam 2]; s_detect_global := true;
                    s_detect := ∅; s_flag := false; s_idle_s := 0; s_resynced := [] |};
     rw_mono := 100 * SEC; rw_procs := fun _ => []; rw_alive := ∅; rw_next_pid := 500; rw_health := ∅ |}.

Definition demo_tick (makedirs : Z -> string -> bool) : RecWorld -> (os_error + unit) * RecWorld :=
  tick (fun _ _ => true) (fun _ => Some (0, 60)) (fun _ => Some 10000) makedirs (fun _ => true) (fun _ => None)
       demo_md5 kst elements.

Definition demo_guarded : RecWorld -> (os_error + unit) * RecWorld :=
  tick_guarded (fun _ _ => true) (fun _ => Some (0, 60)) (fun _ => Some 10000) (fun _ _ => true) (fun _ => true) (fun _ => None)
       demo_md5 kst elements.

(** Two cameras: a main recorder and a warm consumer each. *)
Definition demo_running : RecWorld := snd (demo_guarded demo_rec).

Lemma tick_converges_witness :
  served Main 2 demo_running /\ rw_alive demo_running = {[500; 501; 502; 503]} /\ get_proc Main 3 demo_running = None.
Proof.
  pose proof (tick_converges (fun _ _ => true) (fun _ => Some (0, 60)) (fun _ => Some 10000) (fun _ _ => true) (fun _ => true)
    (fun _ => None) demo_md5 kst elements demo_rec) as H. fold (demo_tick (fun _ _ => true) demo_rec) in H.
  assert (E : demo_tick (fun _ _ => true) demo_rec = (inr tt, demo_running)) by (vm_compute; reflexivity).
  cbv zeta in H. rewrite E in H. destruct H as [H2 [[_ H1]|[He _]]]; [| |discriminate He].
  - apply sup_start; [vm_compute; discriminate|reflexivity|reflexivity].
  - split; [|split].
    + apply (H1 (demo_cam 2)). vm_compute. left.
    + apply (bool_decide_unpack _). vm_compute. exact I.
    + apply H2. vm_compute. intros H. inversion H as [|? ? ? H']; subst. inversion H' as [|? ? ? H'']; subst. inversion H''.
Defined.

(** A death, and time passing. *)
Definition after_death (pid dt : Z) (w : RecWorld) : RecWorld :=
  {| rw_ew := rw_ew w; rw_sched := rw_sched w; rw_mono := rw_mono w + dt; rw_procs := rw_procs w;
     rw_alive := rw_alive w ∖ {[ pid ]}; rw_next_pid := rw_next_pid w; rw_health := rw_health w |}.

Lemma environment_after_death pid dt w : 0 <= dt -> environment w (after_death pid dt w).
Proof. intros H. split; [cbn; lia|]. split; [done|]. split; [cbn; set_solver|done]. Qed.

Definition demo_later : RecWorld := after_death 500 (10 * SEC) demo_running.

Lemma no_stray_recorders_witness :
  (exists l c p, get_proc l c (snd (demo_guarded demo_later)) = Some p /\ p_pid p = 501) /\
  rw_alive (snd (shutdown (fun _ _ => true) (fun _ => Some (0, 60)) (fun _ => Some 10000)
    (snd (demo_guarded demo_later)))) = ∅.
Proof.
  destruct (no_stray_recorders (fun _ _ => true) (fun _ => Some (0, 60)) (fun _ => Some 10000) (fun _ _ => true) (fun _ => true)
    (fun _ => None) demo_md5 kst elements (snd (demo_guarded demo_later))) as [H1 H2].
  - apply (sup_tick _ _ _ _ _ _ _ _ _ demo_later). apply (sup_env _ _ _ _ _ _ _ _ _ demo_running).
    + apply (sup_tick _ _ _ _ _ _ _ _ _ demo_rec). apply sup_start; [vm_compute; discriminate|reflexivity|reflexivity].
    + apply environment_after_death. vm_compute. discriminate.
  - split; [|exact H2]. destruct (H1 501) as (l & c & p & Hp & E & _); [apply (bool_decide_unpack _); vm_compute; exact I|].
    exists l, c, p. split; [exact Hp|exact E].
Defined.

Lemma recording_follows_schedule_witness : demo_cam 1 ∈ desired_cameras kst elements demo_rec.
Proof.
  apply (recording_follows_schedule kst elements (fun X => reflexivity (elements X)) (demo_cam 1) demo_rec).
  - apply (bool_decide_unpack _). vm_compute. exact I.
  - split; [left|]. split; [reflexivity|]. split; [reflexivity|]. right. vm_compute. discriminate.
Defined.

(** Camera 1 has written a segment to disk 7; its recorder is stopped. *)
Definition demo_written : RecWorld :=
  set_ew (set_store (set_files ({[ (7, "1/seg-20240101-000000.ts"%string); (8, "1/seg-20240101-000000.ts"%string) ]})
    (ew_store (rw_ew demo_running))) (rw_ew demo_running)) demo_running.

Lemma stop_indexes_last_segment_witness :
  exists_rel_path 1 "1/seg-20240101-000000.ts" (ew_store (rw_ew demo_written)) = false /\
  exists_rel_path 1 "1/seg-20240101-000000.ts"
    (ew_store (rw_ew (snd (stop (fun _ _ => true) (fun _ => Some (0, 60)) (fun _ => Some 10000) Main 1 demo_written)))) = true.
Proof.
  split; [vm_compute; reflexivity|].
  assert (Hp : exists p d, get_proc Main 1 demo_written = Some p /\ p_disk p = Some d /\ (d = 7 \/ d = 8) /\ p_container p = "mpegts"%string).
  { eexists _, _. split; [vm_compute; reflexivity|]. split; [vm_compute; reflexivity|]. split; [|vm_compute; reflexivity].
    first [left; reflexivity|right; reflexivity]. }
  destruct Hp as (p & d & Hp & Hd & Hd7 & Hc).
  apply (stop_indexes_last_segment (fun _ _ => true) (fun _ => Some (0, 60)) (fun _ => Some 10000) Main 1 p d demo_written
    "seg-20240101-000000.ts"); [discriminate|exact Hp|exact Hd|reflexivity| |eexists; reflexivity|eexists; vm_compute; reflexivity].
  rewrite Hc. destruct Hd7 as [-> | ->]; vm_compute; left.
Defined.

(** *** One camera's disk fault keeps the others from recording

    [os.makedirs] is called outside the [try] of [_start]: its [OSError] ends the
    tick, tick after tick, before the cameras that come later are looked at. *)
Definition camera_2_fails (_ : Z) (dir : string) : bool := negb (bool_decide (dir = "2/"%string)).

Example makedirs_fault_starves_others :
  let w1 := snd (demo_tick camera_2_fails demo_rec) in let w2 := snd (demo_tick camera_2_fails w1) in
  fst (demo_tick camera_2_fails demo_rec) = inl (OSError "makedirs") /\
  fst (demo_tick camera_2_fails w2) = inl (OSError "makedirs") /\
  get_proc Main 1 (snd (demo_tick camera_2_fails w2)) = None /\ rw_alive w2 = ∅.
Proof. split_and!; vm_compute; reflexivity. Qed.
