(* ===== verification/Json.v ===== *)
(** * JSON values as the automation code uses them

    Python's [==], truthiness, [in], [str()] and [json.dumps] on decoded JSON.
    A float is a rational (no infinity or NaN) whose [repr] is a parameter; an
    object is an association list with distinct keys. *)

From stdpp Require Import pretty.
From Stdlib Require Import QArith.
From S2P Require Import Prelude PyStr.
Local Open Scope Z_scope.
Local Open Scope list_scope.

Inductive json :=
| JNull
| JBool (b : bool)
| JInt (z : Z)
| JFloat (q : Q)
| JStr (s : string)
| JList (l : list json)
| JObj (kvs : list (string * json)).

Fixpoint assoc {A} (k : string) (l : list (string * A)) : option A :=
  match l with
  | [] => None
  | (k', v) :: r => if bool_decide (k = k') then Some v else assoc k r
  end.

(** [d[k] = v] *)
Fixpoint set_key {A} (k : string) (v : A) (l : list (string * A)) : list (string * A) :=
  match l with
  | [] => [(k, v)]
  | (k', x) :: r => if bool_decide (k = k') then (k, v) :: r else (k', x) :: set_key k v r
  end.

(** [d.pop(k, None)] *)
Definition del_key {A} (k : string) (l : list (string * A)) : list (string * A) :=
  List.filter (fun p => negb (bool_decide (k = fst p))) l.

(** [d.get(k)], absent read as None *)
Definition jget (k : string) (kvs : list (string * json)) : json := default JNull (assoc k kvs).

Definition truthy (v : json) : bool :=
  match v with
  | JNull => false
  | JBool b => b
  | JInt z => negb (z =? 0)
  | JFloat q => negb (Qeq_bool q 0)
  | JStr s => negb (bool_decide (s = EmptyString))
  | JList l => match l with [] => false | _ => true end
  | JObj l => match l with [] => false | _ => true end
  end.

(** booleans are integers *)
Definition as_number (v : json) : option Q :=
  match v with
  | JBool b => Some (inject_Z (Z.b2z b))
  | JInt z => Some (inject_Z z)
  | JFloat q => Some q
  | _ => None
  end.

(** [==]: numbers by value; objects without order *)
Fixpoint py_eq (a b : json) : bool :=
  match a, b with
  | JNull, JNull => true
  | JStr x, JStr y => bool_decide (x = y)
  | JList l, JList r =>
      (fix go l r := match l, r with
                     | [], [] => true
                     | x :: l', y :: r' => py_eq x y && go l' r'
                     | _, _ => false
                     end) l r
  | JObj l, JObj r =>
      bool_decide (length l = length r) &&
      (fix go l := match l with
                   | [] => true
                   | (k, v) :: l' => match assoc k r with Some v' => py_eq v v' && go l' | None => false end
                   end) l
  | _, _ => match as_number a, as_number b with Some x, Some y => Qeq_bool x y | _, _ => false end
  end.

Definition hashable (v : json) : bool := match v with JList _ | JObj _ => false | _ => true end.

(** [x in s] on strings *)
Fixpoint is_substring (x s : string) : bool :=
  startswith x s || match s with EmptyString => false | String _ r => is_substring x r end.

(** [a in (b or [])]; [None]: TypeError *)
Definition py_in (a b : json) : option bool :=
  if negb (truthy b) then Some false else
  match b with
  | JList l => Some (existsb (py_eq a) l)
  | JStr s => match a with JStr x => Some (is_substring x s) | _ => None end
  | JObj kvs => if hashable a then match a with JStr k => Some (bool_decide (is_Some (assoc k kvs))) | _ => Some false end
                else None
  | _ => None
  end.

(** the elements [for x in v] walks; [None]: TypeError *)
Definition iter (v : json) : option (list json) :=
  match v with
  | JList l => Some l
  | JStr s => Some ((fun c => JStr (String c EmptyString)) <$> String.list_ascii_of_string s)
  | JObj kvs => Some ((fun p => JStr (fst p)) <$> kvs)
  | _ => None
  end.

(** [int(x)]; [None]: ValueError or TypeError *)
Definition to_int (v : json) : option Z :=
  match v with
  | JInt z => Some z
  | JBool b => Some (Z.b2z b)
  | JFloat q => Some (Z.quot (Qnum q) (Zpos (Qden q)))
  | JStr s => py_int s
  | _ => None
  end.

(** ** json.dumps(v, ensure_ascii=False) *)

Definition chr (n : nat) : string := String (Ascii.ascii_of_nat n) EmptyString.
Definition hex_digit (n : nat) : string := chr (if Nat.ltb n 10 then 48 + n else 87 + n)%nat.

Definition escape_char (c : Ascii.ascii) : string :=
  let n := Ascii.nat_of_ascii c in
  if Nat.eqb n 34 then chr 92 +:+ chr 34
  else if Nat.eqb n 92 then chr 92 +:+ chr 92
  else if Nat.eqb n 10 then chr 92 +:+ "n"
  else if Nat.eqb n 13 then chr 92 +:+ "r"
  else if Nat.eqb n 9 then chr 92 +:+ "t"
  else if Nat.eqb n 12 then chr 92 +:+ "f"
  else if Nat.eqb n 8 then chr 92 +:+ "b"
  else if Nat.ltb n 32 then chr 92 +:+ "u00" +:+ hex_digit (n / 16) +:+ hex_digit (n mod 16)
  else String c EmptyString.

Fixpoint escape (s : string) : string :=
  match s with EmptyString => EmptyString | String c r => escape_char c +:+ escape r end.

Definition quote (s : string) : string := chr 34 +:+ escape s +:+ chr 34.

Fixpoint join (sep : string) (l : list string) : string :=
  match l with [] => "" | [x] => x | x :: r => x +:+ sep +:+ join sep r end.

Section Print.
Context (repr_float : Q -> string).

Fixpoint dumps (v : json) : string :=
  match v with
  | JNull => "null"
  | JBool true => "true"
  | JBool false => "false"
  | JInt z => pretty z
  | JFloat q => repr_float q
  | JStr s => quote s
  | JList l => "[" +:+ join ", " (List.map dumps l) +:+ "]"
  | JObj kvs => "{" +:+ join ", " (List.map (fun p => quote (fst p) +:+ ": " +:+ dumps (snd p)) kvs) +:+ "}"
  end.

(** [_fmt]: how a value is spliced into a text *)
Definition fmt (v : json) : string :=
  match v with
  | JNull => ""
  | JList _ | JObj _ => dumps v
  | JBool true => "True"
  | JBool false => "False"
  | JInt z => pretty z
  | JFloat q => repr_float q
  | JStr s => s
  end.
End Print.
