(* ===== verification/Normalizer.v ===== *)
(** * Vendor events

    src/server/service/event_normalizer.py and the entry of the event pipeline that uses it
    ([handle] of event_pipeline.py), composed with EventPipeline.

    Messages are what the event sources make of a device's answers (Subscriptions) and what
    a user injects: text fields, numbers where the code takes either.  Drawn regions and the
    camera's own clock are not kept: the pipeline stamps the time of receipt. *)

From S2P Require Import Prelude PyStr Redis Storage EventPipeline Json.
Local Open Scope Z_scope.
Local Open Scope list_scope.

Definition VALID_TYPES : list string :=
  ["motion"; "line_crossing"; "intrusion"; "region_enter"; "region_exit"; "tamper"; "audio"; "io"; "video_loss"; "object"; "loitering"; "count";
   "occupancy"; "doorbell_call"; "audio_class"; "smoke"; "lpr"; "face"; "access"; "unknown"]%string.

(** vendor event type, in lower case, to the unified one *)
Definition ISAPI_MAP : list (string * string) :=
  [("vmd", "motion"); ("motiondetection", "motion"); ("linedetection", "line_crossing"); ("fielddetection", "intrusion");
   ("regionentrance", "region_enter"); ("regionexiting", "region_exit"); ("tamperdetection", "tamper"); ("shelteralarm", "tamper");
   ("scenechangedetection", "tamper"); ("defocus", "tamper"); ("audioexception", "audio"); ("io", "io"); ("inputport", "io");
   ("videoloss", "video_loss"); ("videomismatch", "video_loss"); ("facedetection", "object")]%string.
(** what a topic contains, the first that fits *)
Definition ONVIF_PATTERNS : list (string * string) :=
  [("cellmotiondetector", "motion"); ("motionalarm", "motion"); ("motiondetect", "motion"); ("linedetector", "line_crossing");
   ("fielddetector", "intrusion"); ("intrusiondetector", "intrusion"); ("tamperdetector", "tamper"); ("imagetooblurry", "tamper");
   ("audioanalytics", "audio"); ("audiotooloud", "audio"); ("digitalinput", "io"); ("device/io", "io"); ("signalloss", "video_loss");
   ("globalscenechange", "video_loss")]%string.
Definition SUNAPI_MAP : list (string * string) :=
  [("motiondetection", "motion"); ("tampering", "tamper"); ("defocusdetection", "tamper"); ("audiodetection", "audio"); ("passline", "line_crossing");
   ("linecrossing", "line_crossing"); ("intrusion", "intrusion"); ("intrudedobject", "intrusion"); ("enter", "region_enter"); ("appear", "region_enter");
   ("exit", "region_exit"); ("disappear", "region_exit"); ("videoloss", "video_loss"); ("alarminput", "io")]%string.

Record IsapiAlert := { ia_eventType : option string; ia_eventState : option string; ia_channelID : option string; ia_dynChannelID : option string; ia_vendor_event_id : option string }.
Record OnvifMessage := { om_topic : option string; om_data : list (string * string); om_property_operation : option string; om_channel : json }.
Record SunapiStatus := { ss_event : option string; ss_state : string; ss_channel : json }.
Record ManualEvent := { me_type : option string; me_state : option string; me_subtype : option string; me_score : json; me_channel : json; me_vendor_event_id : option string }.

(** [_safe_int] *)
Definition safe_int (v : json) : option Z := match v with JNull => None | JStr s => if bool_decide (s = EmptyString) then None else py_int s | _ => to_int v end.
Definition opt_text (o : option string) : json := match o with Some s => JStr s | None => JNull end.
Definition last_field (sep : Ascii.ascii) (s : string) : string := List.last (split_on sep s) EmptyString.

Definition normalized (type state : string) (subtype : option string) (score channel : option Z) (vendor_event_id : option string) : NormalizedEvent :=
  {| n_type := type; n_state := state; n_subtype := subtype; n_score := score; n_channel := channel; n_vendor_event_id := vendor_event_id; n_dedup_extra := None |}.

Definition normalize_isapi (a : IsapiAlert) : option NormalizedEvent :=
  let etype := lower (or_str (ia_eventType a) "") in
  if bool_decide (etype = EmptyString) then None else
  let estate := lower (or_str (ia_eventState a) "") in
  let state := if bool_decide (estate = "active"%string) then "start"%string else if bool_decide (estate = "inactive"%string) then "end"%string else "pulse"%string in
  let channel := safe_int (opt_text (if truthy_str (ia_channelID a) then ia_channelID a else ia_dynChannelID a)) in
  Some (normalized (default "unknown"%string (assoc etype ISAPI_MAP)) state (Some etype) None channel (ia_vendor_event_id a)).

Fixpoint first_pattern (topic : string) (l : list (string * string)) : string :=
  match l with [] => "unknown" | (p, t) :: r => if is_substring p topic then t else first_pattern topic r end.
Definition normalize_onvif (m : OnvifMessage) : option NormalizedEvent :=
  let topic := lower (or_str (om_topic m) "") in
  if bool_decide (topic = EmptyString) then None else
  let raw_state := lower (default (default EmptyString (assoc "IsMotion" (om_data m))) (assoc "State" (om_data m))) in
  let op := lower (or_str (om_property_operation m) "") in
  let state := if bool_decide (raw_state ∈ ["true"; "1"; "active"]%string) then "start"%string
               else if bool_decide (raw_state ∈ ["false"; "0"; "inactive"]%string) then "end"%string
               else if bool_decide (op = "deleted"%string) then "end"%string else "pulse"%string in
  let subtype := if is_substring "/" topic then Some (last_field (Ascii.ascii_of_nat 47) topic) else None in
  Some (normalized (first_pattern topic ONVIF_PATTERNS) state subtype None (safe_int (om_channel m)) None).

Definition normalize_sunapi (s : SunapiStatus) : option NormalizedEvent :=
  let key := lower (or_str (ss_event s) "") in
  if bool_decide (key = EmptyString) then None else
  let raw_state := lower (ss_state s) in
  let state := if bool_decide (raw_state ∈ ["true"; "1"; "on"; "active"]%string) then "start"%string
               else if bool_decide (raw_state ∈ ["false"; "0"; "off"; "inactive"]%string) then "end"%string else "pulse"%string in
  Some (normalized (default "unknown"%string (assoc key SUNAPI_MAP)) state (Some key) None (safe_int (ss_channel s)) None).

Definition normalize_manual (r : ManualEvent) : option NormalizedEvent :=
  match me_type r with
  | Some t =>
      if bool_decide (t ∈ VALID_TYPES) then
        Some (normalized t (default "pulse"%string (me_state r)) (me_subtype r) (safe_int (me_score r)) (safe_int (me_channel r)) (me_vendor_event_id r))
      else None
  | None => None
  end.

(** [normalize]: what is dispatched on the source's name *)
Inductive RawEvent := RawIsapi (a : IsapiAlert) | RawOnvif (m : OnvifMessage) | RawSunapi (s : SunapiStatus) | RawManual (r : ManualEvent).
Definition source_of (raw : RawEvent) : string :=
  match raw with RawIsapi _ => "isapi" | RawOnvif _ => "onvif" | RawSunapi _ => "sunapi" | RawManual _ => "manual" end.
Definition normalize_event (raw : RawEvent) : option NormalizedEvent :=
  match raw with
  | RawIsapi a => normalize_isapi a
  | RawOnvif m => normalize_onvif m
  | RawSunapi s => normalize_sunapi s
  | RawManual r => normalize_manual r
  end.

(** [event_pipeline.handle] *)
Definition handle (utc_offset : Z -> Z) (camera_id : Z) (raw : RawEvent) (w : EventWorld) : option Event * EventWorld :=
  match normalize_event raw with
  | None => (None, w)
  | Some n => process utc_offset camera_id n (source_of raw) w
  end.

(** ** What is normalised *)

Definition STATES : list string := ["start"; "end"; "pulse"]%string.

Lemma assoc_in {A} k (l : list (string * A)) v : assoc k l = Some v -> v ∈ snd <$> l.
Proof.
  induction l as [|[k' x] l IH]; [done|]. cbn [assoc]. case_bool_decide; [intros [= ->]; by left|]. intros E%IH. by right.
Qed.
Lemma mapped_valid k l : Forall (fun p => snd p ∈ VALID_TYPES) l -> default "unknown"%string (assoc k l) ∈ VALID_TYPES.
Proof.
  intros H. destruct (assoc k l) as [t|] eqn:E; cbn; [|decide_it]. apply assoc_in in E. apply list_elem_of_fmap in E as (p & -> & Hp).
  rewrite Forall_forall in H. by apply H.
Qed.
Lemma pattern_valid topic l : Forall (fun p => snd p ∈ VALID_TYPES) l -> first_pattern topic l ∈ VALID_TYPES.
Proof. induction 1 as [|[p t] l Hp Hl IH]; cbn [first_pattern]; [decide_it|]. by destruct (is_substring _ _). Qed.

(** every event has a type the rest knows; a device's event starts, ends or is a pulse *)
Lemma normalized_ok raw n : normalize_event raw = Some n -> n_type n ∈ VALID_TYPES /\ (source_of raw <> "manual"%string -> n_state n ∈ STATES).
Proof.
  destruct raw as [a|m|s|r]; cbn [normalize_event source_of].
  - unfold normalize_isapi. case_bool_decide; [done|]. intros E%(inj Some). subst n. split; [apply mapped_valid; decide_it|intros _; cbn; repeat case_bool_decide; decide_it].
  - unfold normalize_onvif. case_bool_decide; [done|]. intros E%(inj Some). subst n. split; [apply pattern_valid; decide_it|intros _; cbn; repeat case_bool_decide; decide_it].
  - unfold normalize_sunapi. case_bool_decide; [done|]. intros E%(inj Some). subst n. split; [apply mapped_valid; decide_it|intros _; cbn; repeat case_bool_decide; decide_it].
  - unfold normalize_manual. destruct (me_type r) as [t|]; [|done]. case_bool_decide; [|done]. intros E%(inj Some). subst n. by split.
Qed.

(** ** What the devices say *)

(** the value of an ONVIF message: State, or IsMotion where there is no State *)
Definition onvif_value (data : list (string * string)) (v : string) : Prop :=
  assoc "State" data = Some v \/ (assoc "State" data = None /\ assoc "IsMotion" data = Some v).

(** in the words of each vendor: an alarm is on ([true]) or off *)
Inductive says : RawEvent -> bool -> Prop :=
| says_isapi t s ch dyn (on : bool) : t <> EmptyString -> lower s = (if on then "active" else "inactive")%string ->
    says (RawIsapi {| ia_eventType := Some t; ia_eventState := Some s; ia_channelID := ch; ia_dynChannelID := dyn; ia_vendor_event_id := None |}) on
| says_onvif t data op ch v (on : bool) : t <> EmptyString -> onvif_value data v ->
    lower v ∈ (if on then ["true"; "1"; "active"] else ["false"; "0"; "inactive"])%string ->
    says (RawOnvif {| om_topic := Some t; om_data := data; om_property_operation := op; om_channel := ch |}) on
| says_onvif_deleted t data op ch : t <> EmptyString -> lower op = "deleted"%string ->
    (forall v, onvif_value data v -> lower v ∉ ["true"; "1"; "active"]%string) ->
    says (RawOnvif {| om_topic := Some t; om_data := data; om_property_operation := Some op; om_channel := ch |}) false
| says_sunapi t s ch (on : bool) : t <> EmptyString ->
    lower s ∈ (if on then ["true"; "1"; "on"; "active"] else ["false"; "0"; "off"; "inactive"])%string ->
    says (RawSunapi {| ss_event := Some t; ss_state := s; ss_channel := ch |}) on.

Lemma lower_of_text t : t <> EmptyString -> lower (or_str (Some t) "") <> EmptyString.
Proof. unfold or_str, truthy_str. intros H. rewrite bool_decide_eq_false_2 by done. by destruct t. Qed.

Lemma word_apart (x : string) (l l' : list string) : x ∈ l -> Forall (.∉ l') l -> x ∉ l'.
Proof. intros Hx H. rewrite Forall_forall in H. by apply H. Qed.

Lemma says_normalized raw on : says raw on ->
  exists n, normalize_event raw = Some n /\ n_state n = (if on then "start" else "end")%string /\ n_vendor_event_id n = None.
Proof.
  intros H. destruct H as [t s ch dyn on Ht Hs|t data op ch v on Ht Hv Hs|t data op ch Ht Hop Hd|t s ch on Ht Hs]; cbn [normalize_event];
    pose proof (lower_of_text t Ht) as Hne.
  - unfold normalize_isapi. cbn [ia_eventType ia_eventState]. rewrite bool_decide_eq_false_2 by done. eexists. split; [reflexivity|]. split; [|done]. cbn [n_state normalized].
    assert (Es : lower (or_str (Some s) "") = (if on then "active" else "inactive")%string) by (by destruct s). rewrite Es. by destruct on.
  - unfold normalize_onvif. cbn [om_topic om_data om_property_operation om_channel]. rewrite bool_decide_eq_false_2 by done. eexists. split; [reflexivity|]. split; [|done]. cbn [n_state normalized].
    assert (Ev : default (default EmptyString (assoc "IsMotion" data)) (assoc "State" data) = v) by (destruct Hv as [->|[-> ->]]; done). rewrite Ev. destruct on.
    + by rewrite bool_decide_eq_true_2.
    + rewrite bool_decide_eq_false_2 by (by eapply word_apart; [exact Hs|decide_it]). by rewrite bool_decide_eq_true_2.
  - unfold normalize_onvif. cbn [om_topic om_data om_property_operation om_channel]. rewrite bool_decide_eq_false_2 by done. eexists. split; [reflexivity|]. split; [|done]. cbn [n_state normalized].
    assert (Eo : lower (or_str (Some op) "") = "deleted"%string) by (by destruct op). rewrite Eo. clear Eo.
    rewrite bool_decide_eq_false_2; [by case_bool_decide|]. unfold onvif_value in Hd.
    destruct (assoc "State" data) as [v|]; [by apply Hd; left|]. destruct (assoc "IsMotion" data) as [v|]; [by apply Hd; right|]. decide_it.
  - unfold normalize_sunapi. cbn [ss_event ss_state ss_channel]. rewrite bool_decide_eq_false_2 by done. eexists. split; [reflexivity|]. split; [|done]. cbn [n_state normalized].
    destruct on.
    + by rewrite bool_decide_eq_true_2.
    + rewrite bool_decide_eq_false_2 by (by eapply word_apart; [exact Hs|decide_it]). by rewrite bool_decide_eq_true_2.
Qed.

(** ** The events of an alarm *)

(** [x] is the row [e] with an action or a recording *)
Definition same_state (x e : Event) : Prop :=
  ev_id x = ev_id e /\ ev_state x = ev_state e /\ ev_deleted_at x = ev_deleted_at e /\ ev_dedup_key x = ev_dedup_key e.
Lemma same_state_active x e : same_state x e -> ev_is_active x = ev_is_active e.
Proof. intros (_ & H1 & H2 & _). unfold ev_is_active. by rewrite H1, H2. Qed.

Lemma mark_trigger_events dedup c w : ew_events (mark_trigger dedup c w) = ew_events w.
Proof. unfold mark_trigger. by case_match. Qed.

Section Alarm.
Context (utc_offset : Z -> Z).
Abbreviation handle := (handle utc_offset).

(** the rows an outcome leaves are those before, one of them with an action and a recording *)
Lemma outcome_rows cam n dedup e w e' w' x : outcome cam n dedup e w e' w' -> x ∈ ew_events w' -> x ∈ ew_events w \/ same_state x e.
Proof.
  intros Ho. destruct Ho as [Hu|a Ha|a b Ha|p r w1 b Hp Hm].
  - by left.
  - intros [(-> & _)|[Hx _]]%elem_of_put_event; [by right|by left].
  - intros Hx. assert (Hp : x ∈ put_event (with_action a e) (ew_events w)) by by destruct b.
    apply elem_of_put_event in Hp as [(-> & _)|[Hp _]]; [by right|by left].
  - intros Hx. assert (Hx1 : x ∈ ew_events w1) by (rewrite <- (mark_trigger_events dedup (ep_cooldown_s p)); by destruct b). clear Hx.
    revert Hm Hx1. unfold materialize. destruct (event_get_by_id _ _) as [y|] eqn:Ey; [|by intros [= ]].
    unfold event_get_by_id in Ey. apply find_some in Ey as [Hy%list_elem_of_In [Hid%Z.eqb_eq _]%andb_true_iff].
    apply elem_of_put_event in Hy as [(-> & _)|[_ Hne]]; [|by rewrite Hid in Hne].
    destruct (find_overlapping _ _ _ _ _) as [old|]; intros [= <- <-] Hx;
      (apply elem_of_put_event in Hx as [(-> & _)|[Hx _]]; [by right|]; apply elem_of_put_event in Hx as [(-> & _)|[Hx _]]; [by right|by left]).
Qed.
Lemma outcome_same cam n dedup e w e' w' : outcome cam n dedup e w e' w' -> same_state e' e.
Proof. by intros []. Qed.

Lemma active_of key w e : ev_ok w -> e ∈ ew_events w -> ev_is_active e = true -> ev_dedup_key e = key -> get_active_by_dedup key w = Some e.
Proof.
  intros Hok He Ha Hk. destruct (get_active_by_dedup key w) as [x|] eqn:E.
  - apply get_active_row in E as (Hx & Hxa & Hxk). f_equal. apply Hok; congruence.
  - exfalso. unfold get_active_by_dedup in E.
    assert (Hin : e ∈ sort_on (fun e => - ev_start_ts e) (List.filter (fun e => bool_decide (ev_dedup_key e = key) && ev_is_active e) (ew_events w))).
    { apply elem_of_sort_on, elem_of_filter_In. by rewrite bool_decide_eq_true_2, Ha. }
    destruct (sort_on _ _); [by apply elem_of_nil in Hin|done].
Qed.

(** a start leaves an active event of its key *)
Lemma start_opens cam n source w : ev_ok w -> n_vendor_event_id n = None -> n_state n = "start"%string ->
  let w' := snd (process utc_offset cam n source w) in exists e, get_active_by_dedup (dedup_key cam n) w' = Some e.
Proof.
  intros Hok Hv Hs. pose proof (process_ok utc_offset cam n source w Hok) as Hok'. revert Hok'. unfold process. rewrite Hv, Hs, bool_decide_eq_true_2 by done.
  destruct (get_active_by_dedup _ w) as [e|] eqn:Eg; [by exists e|].
  pose proof (create_ok cam n source (dedup_key cam n) (ew_now w) STATE_ACTIVE w Hok (fun _ => Eg)) as Hc.
  destruct (create _ _ _ _ _ _ _) as [e w1] eqn:Ec. destruct Hc as (H1 & H2 & H3 & _ & _ & _ & _ & Hk).
  pose proof (act_outcome utc_offset cam n (dedup_key cam n) e w1 H1 H2 H3) as Ho. destruct (outcome_ok _ _ _ _ _ _ _ H1 H2 H3 Ho) as [H4 H5].
  pose proof (outcome_same _ _ _ _ _ _ _ Ho) as Hsame. destruct (act _ _ _ _ _ _) as [e' w']. cbn in *. intros _. exists e'.
  apply active_of; [done..| |by destruct Hsame as (_ & _ & _ & ->)]. rewrite (same_state_active _ _ Hsame). injection Ec as <- _. done.
Qed.

(** an end leaves none *)
Lemma end_closes cam n source w : ev_ok w -> n_vendor_event_id n = None -> n_state n = "end"%string ->
  get_active_by_dedup (dedup_key cam n) (snd (process utc_offset cam n source w)) = None.
Proof.
  intros Hok Hv Hs. unfold process. rewrite Hv, Hs, bool_decide_eq_false_2, bool_decide_eq_true_2 by done.
  destruct (get_active_by_dedup _ w) as [e|] eqn:Eg; [|done]. apply get_active_row in Eg as (He & Ha & Hk).
  destruct (put_ev_ok e (close_event (ew_now w) e) w Hok He (evolves_close _ _)) as [H1 H2].
  pose proof (act_outcome utc_offset cam n (dedup_key cam n) _ _ H1 H2 (is_active_live e Ha)) as Ho.
  destruct (act _ _ _ _ _ _) as [e' w'] eqn:Eact. cbn [fst snd] in *. destruct (get_active_by_dedup _ w') as [x|] eqn:Ex; [exfalso|done].
  apply get_active_row in Ex as (Hx & Hxa & Hxk). destruct (outcome_rows _ _ _ _ _ _ _ x Ho Hx) as [Hx1|Hsame].
  - apply elem_of_put_event in Hx1 as [(-> & _)|[Hx1 Hne]]; [done|]. apply Hne. cbn. f_equal. apply Hok; congruence.
  - by rewrite (same_state_active _ _ Hsame) in Hxa.
Qed.

(** two messages about one alarm of a device *)
Definition same_alarm (a b : RawEvent) : Prop :=
  match a, b with
  | RawIsapi a, RawIsapi b => lower (or_str (ia_eventType a) "") = lower (or_str (ia_eventType b) "") /\ ia_channelID a = ia_channelID b /\ ia_dynChannelID a = ia_dynChannelID b
  | RawOnvif a, RawOnvif b => lower (or_str (om_topic a) "") = lower (or_str (om_topic b) "") /\ om_channel a = om_channel b
  | RawSunapi a, RawSunapi b => lower (or_str (ss_event a) "") = lower (or_str (ss_event b) "") /\ ss_channel a = ss_channel b
  | _, _ => False
  end.

Lemma same_alarm_key cam a b n m : same_alarm a b -> normalize_event a = Some n -> normalize_event b = Some m -> dedup_key cam n = dedup_key cam m.
Proof.
  destruct a as [a|a|a|a], b as [b|b|b|b]; try done; cbn [same_alarm normalize_event].
  - intros (E1 & E2 & E3). unfold normalize_isapi. rewrite E1, E2, E3. case_bool_decide; [done|]. intros H1%(inj Some) H2%(inj Some). by subst.
  - intros (E1 & E2). unfold normalize_onvif. rewrite E1, E2. case_bool_decide; [done|]. intros H1%(inj Some) H2%(inj Some). by subst.
  - intros (E1 & E2). unfold normalize_sunapi. rewrite E1, E2. case_bool_decide; [done|]. intros H1%(inj Some) H2%(inj Some). by subst.
Qed.

(** C24: The life of an alarm.  When a device says, in the words of its vendor, that an alarm
    is on, there is one active event for it, and saying so again changes nothing; when it
    says that the alarm is off, however much later and with whatever in between, there is no
    active event for it; saying so of one without an event that is on is noise and changes
    nothing.  Every event carries a type the rest of the system knows. *)
Theorem alarm_has_one_event cam on off w0 ops : says on true -> says off false -> same_alarm on off -> ev_ok w0 ->
  exists n, normalize_event on = Some n /\ n_type n ∈ VALID_TYPES /\
  let w1 := snd (handle cam on w0) in
  (exists e, get_active_by_dedup (dedup_key cam n) w1 = Some e /\ handle cam on w1 = (Some e, w1)) /\
  let w2 := ev_run utc_offset w1 ops in
  let w3 := snd (handle cam off w2) in
  get_active_by_dedup (dedup_key cam n) w3 = None /\ (get_active_by_dedup (dedup_key cam n) w2 = None -> w3 = w2) /\ handle cam off w3 = (None, w3).
Proof.
  intros Hs1 Hs2 Hsame Hok. destruct (says_normalized on true Hs1) as (n & Hn & Hsn & Hvn). destruct (says_normalized off false Hs2) as (m & Hm & Hsm & Hvm).
  exists n. split; [done|]. split; [by eapply normalized_ok|].
  pose proof (same_alarm_key cam _ _ _ _ Hsame Hn Hm) as Hk. intros w1.
  assert (Hon : forall w, handle cam on w = process utc_offset cam n (source_of on) w) by (intros w; unfold Normalizer.handle; by rewrite Hn).
  assert (Hoff : forall w, handle cam off w = process utc_offset cam m (source_of off) w) by (intros w; unfold Normalizer.handle; by rewrite Hm).
  assert (Hend : forall w, get_active_by_dedup (dedup_key cam m) w = None -> handle cam off w = (None, w)).
  { intros w E. rewrite Hoff. unfold process. by rewrite Hvm, Hsm, bool_decide_eq_false_2, bool_decide_eq_true_2, E. }
  assert (E1 : w1 = snd (process utc_offset cam n (source_of on) w0)) by (unfold w1; by rewrite Hon). clearbody w1. split.
  - destruct (start_opens cam n (source_of on) w0 Hok Hvn Hsn) as (e & He). rewrite <- E1 in He. exists e. split; [done|]. rewrite Hon.
    unfold process at 1. rewrite Hvn, Hsn, bool_decide_eq_true_2 by done. by rewrite He.
  - rewrite Hk. intros w2 w3. assert (Hok2 : ev_ok w2) by (apply ev_run_ok; rewrite E1; by apply process_ok).
    assert (H3 : get_active_by_dedup (dedup_key cam m) w3 = None) by (unfold w3; rewrite Hoff; by apply end_closes).
    split; [done|]. split; [|by apply Hend]. intros E. unfold w3. by rewrite Hend.
Qed.
End Alarm.

(** ** A concrete alarm *)

Definition vmd (state : string) : RawEvent :=
  RawIsapi {| ia_eventType := Some "VMD"%string; ia_eventState := Some state; ia_channelID := Some "1"%string; ia_dynChannelID := None; ia_vendor_event_id := None |}.

Definition motion_topic (state op : string) : RawEvent :=
  RawOnvif {| om_topic := Some "tns1:RuleEngine/CellMotionDetector/Motion"%string; om_data := [("IsMotion"%string, state)];
              om_property_operation := Some op; om_channel := JNull |}.

Lemma alarm_has_one_event_witness :
  (let w1 := snd (handle kst 1 (vmd "active") demo_ew) in
   (exists e, get_active_by_dedup "1:motion:vmd:1" w1 = Some e /\ handle kst 1 (vmd "active") w1 = (Some e, w1)) /\
   get_active_by_dedup "1:motion:vmd:1" (snd (handle kst 1 (vmd "inactive") (ev_run kst w1 [OpStore (advance (5 * SEC)); OpSweep]))) = None) /\
  get_active_by_dedup "1:motion:motion:0" (snd (handle kst 1 (motion_topic "" "Deleted") (snd (handle kst 1 (motion_topic "true" "Changed") demo_ew)))) = None.
Proof.
  split.
  - destruct (alarm_has_one_event kst 1 (vmd "active") (vmd "inactive") demo_ew [OpStore (advance (5 * SEC)); OpSweep]) as (n & Hn & _ & H1 & H2 & _);
      [by constructor|by constructor|split_and!; reflexivity|apply demo_ew_ok|]. vm_compute in Hn. injection Hn as <-. split; [exact H1|exact H2].
  - destruct (alarm_has_one_event kst 1 (motion_topic "true" "Changed") (motion_topic "" "Deleted") demo_ew []) as (n & Hn & _ & _ & H2 & _);
      [apply (says_onvif _ _ _ _ "true"); [done|by right|decide_it]| |split_and!; reflexivity|apply demo_ew_ok|].
    + apply says_onvif_deleted; [done|reflexivity|]. intros v [Hv|[_ Hv]]; vm_compute in Hv; [done|]. injection Hv as <-. decide_it.
    + vm_compute in Hn. injection Hn as <-. exact H2.
Defined.

(** an injected event may have any state: what is neither start nor end is a pulse *)
Example injected_state_is_not_checked :
  n_state <$> normalize_event (RawManual {| me_type := Some "motion"%string; me_state := Some "Start"%string; me_subtype := None; me_score := JStr "70";
    me_channel := JNull; me_vendor_event_id := None |}) = Some "Start"%string.
Proof. reflexivity. Qed.

(** topics match by what they contain: a counter's topic counts as the line it crosses *)
Example topic_by_substring :
  (fun n => (n_type n, n_state n, n_subtype n)) <$> normalize_event (RawOnvif {| om_topic := Some "tns1:RuleEngine/LineDetector/Crossed"%string;
    om_data := [("ObjectId", "7")]%string; om_property_operation := Some "Changed"%string; om_channel := JNull |}) =
  Some ("line_crossing", "pulse", Some "crossed")%string.
Proof. reflexivity. Qed.
