(* ===== verification/Subscriptions.v ===== *)
(** * Event subscriptions

    src/server/task/list/event_subscription.py, driver/isapi_event.py, onvif_event.py,
    sunapi_event.py, event_base.py, view/api/subscription.py, model/camera_subscription.py:
    reading events off the devices, one worker per camera under a lease in Redis.

    Composed with Normalizer (what a message says) and EventPipeline (what comes of it).
    Parameters: the XML parser with the decoding before it, what a device answers.  Bytes
    are strings.  What zeep makes of a SOAP answer is the list of messages. *)

From stdpp Require Import pretty.
From S2P Require Import Prelude PyStr Redis Storage EventPipeline Json Normalizer.
Local Open Scope Z_scope.
Local Open Scope list_scope.

(** ** The alert stream (isapi_event.py) *)

(** [bytes.split(sep)] for a non-empty separator; [skip]: bytes of a separator still to pass over *)
Fixpoint split_seq (sep : string) (skip : nat) (s : string) : list string :=
  match s with
  | EmptyString => [EmptyString]
  | String c r =>
      match skip with
      | S k => split_seq sep k r
      | O => if startswith sep s then EmptyString :: split_seq sep (String.length sep - 1) r
             else match split_seq sep 0 r with w :: ws => String c w :: ws | [] => [String c EmptyString] end
      end
  end.

(** [bytes.strip()] leaves something *)
Definition byte_space (c : Ascii.ascii) : bool := let n := Ascii.nat_of_ascii c in ((9 <=? n) && (n <=? 13) || (n =? 32))%nat.
Definition not_blank (s : string) : bool := negb (all_chars byte_space s).
Definition delimiter (boundary : string) : string := "--" +:+ boundary.
Definition split_multipart (buffer boundary : string) : list string * string :=
  let parts := split_seq (delimiter boundary) 0 buffer in
  (List.filter not_blank (removelast parts), List.last parts EmptyString).

(** the rest from the first occurrence on *)
Fixpoint find_from (p s : string) : option string :=
  if startswith p s then Some s else match s with EmptyString => None | String _ r => find_from p r end.
Definition CRLF2 : string := String (Ascii.ascii_of_nat 13) (String (Ascii.ascii_of_nat 10) (String (Ascii.ascii_of_nat 13) (String (Ascii.ascii_of_nat 10) EmptyString))).
Fixpoint byte_rstrip (s : string) : string :=
  match s with EmptyString => EmptyString | String c r => if all_chars byte_space s then EmptyString else String c (byte_rstrip r) end.
Definition extract_xml (part : string) : option string :=
  let body := match find_from CRLF2 part with Some s => sdrop 4 s | None => part end in
  find_from "<EventNotificationAlert" (byte_rstrip body).

(** an element with its text and children *)
Inductive xml := Elem (tag : string) (text : option string) (kids : list xml).
Definition tag_of (x : xml) : string := let 'Elem t _ _ := x in t.
Definition text_of (x : xml) : option string := let 'Elem _ t _ := x in t.
Fixpoint xml_iter (x : xml) : list xml := let 'Elem _ _ kids := x in x :: concat (map xml_iter kids).
Definition localname (tag : string) : string := if is_substring "}" tag then last_field (Ascii.ascii_of_nat 125) tag else tag.
Definition xml_text (root : xml) (name : string) : option string :=
  strip <$> (List.find (fun el => bool_decide (localname (tag_of el) = name) && truthy_str (text_of el)) (xml_iter root) ≫= text_of).
Definition first_text (a b : option string) : option string := if truthy_str a then a else b.

Section Sources.
Context (parse_xml : string -> option xml).

Definition parse_alert_xml (text : string) : option IsapiAlert :=
  match parse_xml text with
  | None => None
  | Some root =>
      if negb (bool_decide (localname (tag_of root) = "EventNotificationAlert"%string)) then None else
      Some {| ia_eventType := xml_text root "eventType"; ia_eventState := xml_text root "eventState";
              ia_channelID := first_text (xml_text root "channelID") (xml_text root "dynChannelID"); ia_dynChannelID := None; ia_vendor_event_id := None |}
  end.

Record IsapiSource := { is_buffer : string; is_boundary : string; is_healthy : bool }.
(** what the next read of the stream gives *)
Inductive ChunkAnswer := Chunk (b : string) | StreamEnd | ReadFault.
Definition part_alerts (part : string) : list IsapiAlert :=
  match extract_xml part with
  | None => []
  | Some text => match parse_alert_xml text with Some a => if truthy_str (ia_eventType a) then [a] else [] | None => [] end
  end.
Definition isapi_poll (a : ChunkAnswer) (s : IsapiSource) : list IsapiAlert * IsapiSource :=
  match a with
  | ReadFault => ([], {| is_buffer := is_buffer s; is_boundary := is_boundary s; is_healthy := false |})
  | StreamEnd => ([], s)                            (* next(it, b'') *)
  | Chunk b =>
      if bool_decide (b = EmptyString) then ([], s) else
      let '(parts, rest) := split_multipart (is_buffer s +:+ b) (is_boundary s) in
      (concat (part_alerts <$> parts), {| is_buffer := rest; is_boundary := is_boundary s; is_healthy := is_healthy s |})
  end.
Fixpoint isapi_polls (chunks : list string) (s : IsapiSource) : list IsapiAlert * IsapiSource :=
  match chunks with
  | [] => ([], s)
  | c :: r => let '(l1, s1) := isapi_poll (Chunk c) s in let '(l2, s2) := isapi_polls r s1 in (l1 ++ l2, s2)
  end.

(** ** The status page (sunapi_event.py) *)

Fixpoint splitlines_go (cur : string) (s : string) : list string :=
  match s with
  | EmptyString => if bool_decide (cur = EmptyString) then [] else [cur]
  | String c r =>
      let n := Ascii.nat_of_ascii c in
      if (((10 <=? n) && (n <=? 13)) || ((28 <=? n) && (n <=? 30)))%nat then
        cur :: match r with
               | String d r' => if ((n =? 13) && (Ascii.nat_of_ascii d =? 10))%nat then splitlines_go EmptyString r' else splitlines_go EmptyString r
               | EmptyString => []
               end
      else splitlines_go (cur +:+ String c EmptyString) r
  end.
Definition splitlines (s : string) : list string := splitlines_go EmptyString s.
Definition parse_line (state : list (string * bool)) (line : string) : list (string * bool) :=
  match split_once (Ascii.ascii_of_nat 61) (strip line) with
  | None => state
  | Some (key, value) => set_key (strip key) (bool_decide (lower (strip value) ∈ ["true"; "1"; "on"]%string)) state
  end.
Definition parse_eventstatus (text : string) : list (string * bool) := foldl parse_line [] (splitlines text).

Definition event_name (key : string) : string := last_field (Ascii.ascii_of_nat 46) key.
Fixpoint channel_in (parts : list string) : option Z :=
  match parts with
  | p :: (q :: _) as r => if bool_decide (lower p = "channel"%string) && isdigit q then py_int q else channel_in r
  | _ => None
  end.
Definition channel_of (key : string) : option Z := channel_in (split_on (Ascii.ascii_of_nat 46) key).

(** the keys whose value changed *)
Definition changes (prev current : list (string * bool)) : list (string * bool) :=
  List.filter (fun '(k, active) => let was := default false (assoc k prev) in (active && negb was) || (negb active && was)) current.
Definition status_event (c : string * bool) : SunapiStatus :=
  {| ss_event := Some (event_name (fst c)); ss_state := if snd c then "true" else "false"; ss_channel := match channel_of (fst c) with Some z => JInt z | None => JNull end |}.
Definition diff_status (prev current : list (string * bool)) : list SunapiStatus := status_event <$> changes prev current.

Record SunapiSource := { su_prev : list (string * bool); su_healthy : bool }.
Definition sunapi_poll (answer : option string) (s : SunapiSource) : list SunapiStatus * SunapiSource :=
  match answer with
  | None => ([], {| su_prev := su_prev s; su_healthy := false |})
  | Some text => let current := parse_eventstatus text in (diff_status (su_prev s) current, {| su_prev := current; su_healthy := true |})
  end.
End Sources.

(** ** Reading in pieces *)

Lemma startswith_app p s t : startswith p s = true -> startswith p (s +:+ t) = true.
Proof.
  revert s. induction p as [|c p IH]; intros [|d s]; try done. change (String d s +:+ t) with (String d (s +:+ t)). cbn [startswith].
  intros [H1 H2]%andb_true_iff. rewrite H1. by apply IH.
Qed.
Lemma startswith_length p s : startswith p s = true -> (String.length p <= String.length s)%nat.
Proof. revert s. induction p as [|c p IH]; intros [|d s]; cbn; try done; [lia|]. intros [_ H%IH]%andb_true_iff. lia. Qed.
Lemma startswith_app_inv p s t : startswith p (s +:+ t) = true -> (String.length p <= String.length s)%nat -> startswith p s = true.
Proof.
  revert s. induction p as [|c p IH]; intros [|d s]; try done; [cbn; lia|]. change (String d s +:+ t) with (String d (s +:+ t)). cbn [startswith String.length].
  intros [H1 H2]%andb_true_iff Hl. rewrite H1. apply IH; [done|lia].
Qed.

Lemma split_seq_nonnil sep k s : split_seq sep k s <> [].
Proof. revert k. induction s as [|c s IH]; intros [|k]; cbn; try done. destruct (startswith _ _); [done|]. by destruct (split_seq sep 0 s). Qed.
Lemma split_seq_one sep s r : split_seq sep 0 s = [r] -> r = s.
Proof.
  revert r. induction s as [|c s IH]; intros r; cbn; [by intros [= <-]|]. destruct (startswith _ _).
  - intros [= <- H]. by apply split_seq_nonnil in H.
  - destruct (split_seq sep 0 s) as [|w [|? ?]] eqn:E; [by apply split_seq_nonnil in E| |done]. intros [= <-]. f_equal. by apply IH.
Qed.
Lemma split_seq_short sep s : (String.length s < String.length sep)%nat -> split_seq sep 0 s = [s].
Proof.
  induction s as [|c s IH]; cbn; [done|]. intros H. destruct (startswith sep (String c s)) eqn:E; [apply startswith_length in E; cbn in E; lia|].
  rewrite IH by lia. done.
Qed.

(** splitting a text that grew is going on with the last, unfinished part *)
Lemma split_seq_app sep a b k : sep <> EmptyString -> (k <= String.length a)%nat ->
  split_seq sep k (a +:+ b) = removelast (split_seq sep k a) ++ split_seq sep 0 (List.last (split_seq sep k a) EmptyString +:+ b).
Proof.
  intros Hsep. revert k. induction a as [|c a IH]; intros k Hk; [destruct k; [done|cbn in Hk; lia]|].
  destruct k as [|k]; [|cbn [split_seq String.append]; apply IH; cbn in Hk; lia].
  change (String c a +:+ b) with (String c (a +:+ b)). cbn [split_seq]. destruct (startswith sep (String c a)) eqn:Es.
  - pose proof (startswith_app _ _ b Es) as Es'. change (String c a +:+ b) with (String c (a +:+ b)) in Es'. rewrite Es'. apply startswith_length in Es. cbn in Es.
    rewrite IH by lia. pose proof (split_seq_nonnil sep (String.length sep - 1) a) as Hn. destruct (split_seq sep (String.length sep - 1) a); [done|reflexivity].
  - destruct (decide (String.length (String c a) < String.length sep)%nat) as [Hl|Hl].
    + cbn in Hl. rewrite (split_seq_short sep a) by lia. reflexivity.
    + destruct (startswith sep (String c (a +:+ b))) eqn:Es'.
      { rewrite (startswith_app_inv sep (String c a) b) in Es; [done|exact Es'|lia]. }
      rewrite IH by lia. destruct (split_seq sep 0 a) as [|w ws] eqn:Ea; [by apply split_seq_nonnil in Ea|].
      destruct ws as [|w' ws].
      * apply split_seq_one in Ea as ->. cbn [removelast List.last app]. change (String c a +:+ b) with (String c (a +:+ b)). cbn [split_seq]. by rewrite Es'.
      * cbn [removelast List.last app]. done.
Qed.

Lemma last_app_nonnil {A} (l l' : list A) d : l' <> [] -> List.last (l ++ l') d = List.last l' d.
Proof. intros H. induction l as [|x l IH]; [done|]. cbn [app List.last]. destruct (l ++ l') eqn:E; [by apply app_eq_nil in E as [_ ->]|done]. Qed.

Lemma split_multipart_app boundary a b :
  split_multipart (a +:+ b) boundary =
    (fst (split_multipart a boundary) ++ fst (split_multipart (snd (split_multipart a boundary) +:+ b) boundary), snd (split_multipart (snd (split_multipart a boundary) +:+ b) boundary)).
Proof.
  unfold split_multipart. cbn [fst snd]. rewrite (split_seq_app (delimiter boundary) a b 0) by (done || lia).
  set (rest := List.last (split_seq _ 0 a) EmptyString). pose proof (split_seq_nonnil (delimiter boundary) 0 (rest +:+ b)) as Hn.
  rewrite removelast_app by done. rewrite List.filter_app. f_equal. by apply last_app_nonnil.
Qed.

Lemma multipart_rest boundary s : split_multipart (snd (split_multipart s boundary)) boundary = ([], snd (split_multipart s boundary)).
Proof.
  pose proof (split_multipart_app boundary s EmptyString) as H. rewrite string_app_empty_r in H. rewrite string_app_empty_r in H.
  destruct (split_multipart s boundary) as [ps r]. cbn [fst snd] in *. destruct (split_multipart r boundary) as [ps' r']. cbn [fst snd] in H.
  injection H as H ->. f_equal. by apply (app_inv_head ps); rewrite app_nil_r.
Qed.

(** C23: A device's alert stream may be cut into any pieces: reading the pieces one after the
    other yields the alerts, in order, that reading all of it at once yields, and leaves the
    same rest to be completed. *)
Theorem alerts_whatever_the_pieces parse_xml chunks s : isapi_polls parse_xml chunks s = isapi_poll parse_xml (Chunk (String.concat "" chunks)) s.
Proof.
  revert s. induction chunks as [|c chunks IH]; intros s; [done|]. cbn [isapi_polls].
  assert (E : String.concat "" (c :: chunks) = c +:+ String.concat "" chunks) by (destruct chunks; [by rewrite string_app_empty_r|done]). rewrite E. clear E.
  generalize (String.concat "" chunks) IH. intros rest Hrest. clear IH. unfold isapi_poll at 1. case_bool_decide as Hc.
  { subst c. rewrite Hrest. change ("" +:+ rest) with rest. by destruct (isapi_poll parse_xml (Chunk rest) s). }
  destruct (split_multipart (is_buffer s +:+ c) (is_boundary s)) as [ps r] eqn:E1. rewrite Hrest. unfold isapi_poll.
  rewrite (bool_decide_eq_false_2 (c +:+ rest = EmptyString)) by (by destruct c).
  pose proof (split_multipart_app (is_boundary s) (is_buffer s +:+ c) rest) as Happ. rewrite E1, <- string_app_assoc in Happ. cbn [fst snd is_buffer is_boundary] in *.
  rewrite Happ. case_bool_decide as Hr.
  - subst rest. pose proof (multipart_rest (is_boundary s) (is_buffer s +:+ c)) as Hm. rewrite E1 in Hm. cbn [snd] in Hm. rewrite string_app_empty_r, Hm. cbn [fst snd]. by rewrite !app_nil_r.
  - destruct (split_multipart (r +:+ rest) (is_boundary s)) as [ps' r']. cbn [fst snd]. by rewrite fmap_app, concat_app.
Qed.

(** ** Changes of a status page *)

Fixpoint status_changes (prev : list (string * bool)) (pages : list (list (string * bool))) : list (string * bool) :=
  match pages with [] => [] | p :: r => changes prev p ++ status_changes p r end.
Definition reported (k : string) (l : list (string * bool)) : list bool := snd <$> List.filter (fun p => bool_decide (k = fst p)) l.
(** the changes of one value that is looked at again and again, forgotten where it is missing *)
Fixpoint edges (was : bool) (vals : list (option bool)) : list bool :=
  match vals with
  | [] => []
  | None :: r => edges false r
  | Some v :: r => if Bool.eqb v was then edges was r else v :: edges v r
  end.

Lemma set_key_nodup {A} k (v : A) l : NoDup (fst <$> l) -> NoDup (fst <$> set_key k v l).
Proof.
  assert (Hin : forall l x, x ∈ fst <$> set_key k v l -> x = k \/ x ∈ fst <$> l).
  { clear. intros l x. induction l as [|[k' y] l IH]; cbn [set_key]; [intros Hx%list_elem_of_singleton; by left|].
    case_bool_decide; [intros [->|Hx]%elem_of_cons; [by left|right; by right]|].
    intros [->|Hx]%elem_of_cons; [right; by left|]. destruct (IH Hx); [by left|right; by right]. }
  induction l as [|[k' y] l IH]; cbn [set_key]; [intros _; apply NoDup_singleton|]. intros [Hk Hl]%NoDup_cons.
  case_bool_decide; [subst; by constructor|]. constructor; [|by apply IH]. by intros [?|?]%Hin.
Qed.
Lemma eventstatus_keys text : NoDup (fst <$> parse_eventstatus text).
Proof.
  unfold parse_eventstatus. assert (H : NoDup (fst <$> ([] : list (string * bool)))) by constructor. revert H. generalize (@nil (string * bool)).
  induction (splitlines text) as [|l ls IH]; intros acc Hacc; [done|]. apply IH. unfold parse_line. destruct (split_once _ _) as [[k v]|]; [by apply set_key_nodup|done].
Qed.

Lemma reported_absent k l : k ∉ fst <$> l -> reported k l = [].
Proof.
  unfold reported. induction l as [|[k' b] l IH]; cbn; [done|]. intros H%not_elem_of_cons. destruct H as [H1 H2]. rewrite bool_decide_eq_false_2 by done. by apply IH.
Qed.
Lemma reported_app k l1 l2 : reported k (l1 ++ l2) = reported k l1 ++ reported k l2.
Proof. unfold reported. by rewrite List.filter_app, fmap_app. Qed.

Lemma reported_changes k prev cur : NoDup (fst <$> cur) ->
  reported k (changes prev cur) = match assoc k cur with Some v => if Bool.eqb v (default false (assoc k prev)) then [] else [v] | None => [] end.
Proof.
  intros Hnd. induction cur as [|[k' v] cur IH]; [done|]. cbn [fmap list_fmap fst] in Hnd. apply NoDup_cons in Hnd as [Hk Hnd]. unfold changes. cbn [List.filter assoc]. fold (changes prev cur).
  assert (Hc : forall x, x ∈ fst <$> changes prev cur -> x ∈ fst <$> cur).
  { intros x (p & -> & Hp)%list_elem_of_fmap. apply elem_of_filter_In in Hp as [Hp _]. by apply list_elem_of_fmap_2. }
  case_bool_decide as E.
  - subst k'. assert (Hr : reported k (changes prev cur) = []) by (apply reported_absent; intros H; by apply Hk, Hc).
    destruct v, (default false (assoc k prev)); cbn [andb orb negb Bool.eqb]; unfold reported in *; cbn [List.filter fst]; rewrite ?bool_decide_eq_true_2 by done; cbn [fmap list_fmap snd]; by rewrite Hr.
  - rewrite <- IH by done. destruct (_ || _); [|done]. unfold reported. cbn [List.filter fst]. by rewrite bool_decide_eq_false_2.
Qed.

(** what is reported of a key over a series of pages *)
Lemma status_reports k prev pages : Forall (fun p => NoDup (fst <$> p)) pages ->
  reported k (status_changes prev pages) = edges (default false (assoc k prev)) (assoc k <$> pages).
Proof.
  intros H. revert prev. induction H as [|p pages Hp Hr IH]; intros prev; [done|]. cbn [status_changes fmap list_fmap edges].
  rewrite reported_app, reported_changes, IH by done. destruct (assoc k p) as [v|]; cbn [default from_option id]; [|done].
  destruct (Bool.eqb v _) eqn:E; [|done]. apply Bool.eqb_prop in E as <-. done.
Qed.

(** a value seen on every page is reported in turn on and off, beginning with on *)
Inductive alternating : bool -> list bool -> Prop :=
| alternating_nil b : alternating b []
| alternating_cons b l : alternating b l -> alternating (negb b) (b :: l).
Lemma last_cons_default {A} (x d : A) l : List.last (x :: l) d = List.last l x.
Proof. revert x d. induction l as [|y l IH]; intros x d; [done|]. change (List.last (y :: l) d = List.last (y :: l) x). by rewrite !IH. Qed.
Lemma edges_alternate was vals : alternating was (edges was (Some <$> vals)) /\ List.last (edges was (Some <$> vals)) was = List.last vals was.
Proof.
  revert was. induction vals as [|v vals IH]; intros was; [split; [constructor|done]|]. cbn [fmap list_fmap edges]. destruct (Bool.eqb v was) eqn:E.
  - apply Bool.eqb_prop in E as ->. destruct (IH was) as [H1 H2]. split; [done|]. rewrite H2. by destruct vals as [|? vals].
  - destruct (IH v) as [H1 H2]. split; [replace was with (negb v) by (by destruct v, was); by constructor|].
    rewrite !last_cons_default. exact H2.
Qed.

(** ** The sources (event_base.py) *)

Record PullMessage := { pm_topic : option string; pm_data : list (string * string); pm_operation : option string }.
(** [parse_pull_messages], of one message *)
Definition pull_message (m : PullMessage) : OnvifMessage :=
  {| om_topic := Some (or_str (pm_topic m) ""); om_data := pm_data m; om_property_operation := pm_operation m; om_channel := JNull |}.
Record OnvifSource := { on_renew_at : option Z; on_healthy : bool }.      (* needs_renew_at, in milliseconds *)

Inductive Source := SrcIsapi (s : IsapiSource) | SrcOnvif (s : OnvifSource) | SrcSunapi (s : SunapiSource).
Definition source_name (s : Source) : string := match s with SrcIsapi _ => "isapi" | SrcOnvif _ => "onvif" | SrcSunapi _ => "sunapi" end.
Definition healthy (s : Source) : bool := match s with SrcIsapi s => is_healthy s | SrcOnvif s => on_healthy s | SrcSunapi s => su_healthy s end.
(** what a device does in one turn, whichever it is *)
Record Answer := { an_chunk : ChunkAnswer; an_renewed : bool; an_messages : option (list PullMessage); an_status : option string }.

Record EventCamera := { ec_id : Z; ec_enabled : bool; ec_deleted_at : option Z; ec_driver : option string; ec_capabilities : json }.

(** [_is_event_capable] *)
Definition is_event_capable (c : EventCamera) : bool :=
  match ec_capabilities c with
  | JObj caps =>
      match jget "events" caps with
      | JObj events => truthy (jget "transport" events) || existsb (fun k => truthy (jget k events)) ["motion"; "linecross"; "intrusion"; "tamper"]%string
      | _ => false
      end
  | _ => false
  end.
(** [select_protocol]; [None]: AttributeError *)
Definition select_protocol (c : EventCamera) : option string :=
  let driver := lower (or_str (ec_driver c) "") in
  let transport := match ec_capabilities c with
                   | JObj caps => match jget "events" caps with
                                  | JObj events => Some (jget "transport" events)
                                  | v => if truthy v then None else Some JNull
                                  end
                   | v => Some JNull
                   end in
  match transport with
  | None => None
  | Some t =>
      if bool_decide (driver = "isapi"%string) || py_eq t (JStr "isapi_alertstream") then Some "isapi_alertstream"%string
      else if bool_decide (driver = "sunapi"%string) || py_eq t (JStr "sunapi_eventstatus") then Some "sunapi"%string
      else Some "onvif_pullpoint"%string
  end.
Definition make_event_source (c : EventCamera) : option Source :=
  (fun p => if bool_decide (p = "isapi_alertstream"%string) then SrcIsapi {| is_buffer := ""; is_boundary := "boundary"; is_healthy := false |}
            else if bool_decide (p = "sunapi"%string) then SrcSunapi {| su_prev := []; su_healthy := false |}
            else SrcOnvif {| on_renew_at := None; on_healthy := false |}) <$> select_protocol c.

(** [strip] of double quotes *)
Definition dquote : Ascii.ascii := Ascii.ascii_of_nat 34.
Fixpoint lquotes (s : string) : string := match s with String c r => if bool_decide (c = dquote) then lquotes r else s | EmptyString => EmptyString end.
Fixpoint rquotes (s : string) : string :=
  match s with EmptyString => EmptyString | String c r => if all_chars (fun c => bool_decide (c = dquote)) s then EmptyString else String c (rquotes r) end.
(** [open]: [None] it raises; the Content-Type of an alert stream names the boundary *)
Definition source_open (ctype : option string) (now : Z) (s : Source) : option Source :=
  (fun ct => match s with
             | SrcIsapi s =>
                 SrcIsapi {| is_buffer := is_buffer s; is_healthy := true;
                             is_boundary := match find_from "boundary=" ct with Some t => rquotes (lquotes (strip (sdrop 9 t))) | None => is_boundary s end |}
             | SrcOnvif _ => SrcOnvif {| on_renew_at := Some (now / 1000 + 3600000); on_healthy := true |}
             | SrcSunapi _ => SrcSunapi {| su_prev := []; su_healthy := true |}
             end) <$> ctype.

(** ** The worker (event_subscription.py) *)

Record SubRow := { sr_protocol : string; sr_state : string; sr_last_event_ts : option Z; sr_last_error : option string }.
Record Worker := { wk_id : string; wk_camera : Z; wk_source : Source }.
Record SubWorld := { sb_ev : EventWorld; sb_cams : list EventCamera; sb_rows : gmap Z SubRow; sb_workers : list Worker; sb_queue : list Z }.

Definition LOCK_TTL : Z := 90.
Definition lock_key (camera_id : Z) : string := "axp:sub:" +:+ pretty camera_id +:+ ":lock".
Definition stop_key (camera_id : Z) : string := "axp:sub:" +:+ pretty camera_id +:+ ":stop".
Definition sb_now (w : SubWorld) : Z := ew_now (sb_ev w).
Definition sb_redis (w : SubWorld) : redis := t_redis (ew_store (sb_ev w)).
Definition set_sb_ev (e : EventWorld) (w : SubWorld) : SubWorld := {| sb_ev := e; sb_cams := sb_cams w; sb_rows := sb_rows w; sb_workers := sb_workers w; sb_queue := sb_queue w |}.
Definition set_sb_redis (r : redis) (w : SubWorld) : SubWorld := set_sb_ev (set_store (set_t_redis r (ew_store (sb_ev w))) (sb_ev w)) w.
Definition set_workers (l : list Worker) (w : SubWorld) : SubWorld := {| sb_ev := sb_ev w; sb_cams := sb_cams w; sb_rows := sb_rows w; sb_workers := l; sb_queue := sb_queue w |}.

(** [CameraSubscription.upsert] with the protocol, the state and what else is given *)
Definition upsert (cam : Z) (protocol state : string) (last_event : option Z) (error : option string) (w : SubWorld) : SubWorld :=
  let old := sb_rows w !! cam in
  let row := {| sr_protocol := protocol; sr_state := state;
                sr_last_event_ts := match last_event with Some t => Some t | None => old ≫= sr_last_event_ts end;
                sr_last_error := match error with Some e => Some (stake 512 e) | None => old ≫= sr_last_error end |} in
  {| sb_ev := sb_ev w; sb_cams := sb_cams w; sb_rows := <[cam := row]> (sb_rows w); sb_workers := sb_workers w; sb_queue := sb_queue w |}.

(** [supervise_subscriptions]: a fault of Redis ends it where it is *)
Fixpoint supervise_go (l : list EventCamera) (w : SubWorld) : list Z :=
  match l with
  | [] => []
  | c :: r =>
      if negb (is_event_capable c) then supervise_go r w else
      match r_exists (sb_now w) (lock_key (ec_id c)) (sb_redis w) with
      | None => []
      | Some true => supervise_go r w
      | Some false => ec_id c :: supervise_go r w
      end
  end.
Definition supervise_subscriptions (w : SubWorld) : SubWorld :=
  let started := supervise_go (List.filter (fun c => ec_enabled c && bool_decide (ec_deleted_at c = None)) (sb_cams w)) w in
  {| sb_ev := sb_ev w; sb_cams := sb_cams w; sb_rows := sb_rows w; sb_workers := sb_workers w; sb_queue := sb_queue w ++ started |}.

(** the [except] and [finally] of [run_subscription]; the worker is not listed any more *)
Definition finish (cam : Z) (protocol : string) (error : option string) (w : SubWorld) : SubWorld :=
  let w1 := match error with Some e => upsert cam protocol "error" None (Some e) w | None => w end in
  match r_delete (lock_key cam) (sb_redis w1) with
  | None => w1
  | Some r => upsert cam protocol "stopped" None None (set_sb_redis r w1)
  end.

(** [run_subscription] up to its loop; [open_]: what [open] meets *)
Definition run_subscription (worker_id : string) (cam : Z) (open_ : string + string) (w : SubWorld) : SubWorld :=
  match r_set_nx_ex (sb_now w) (lock_key cam) (RText worker_id) LOCK_TTL (sb_redis w) with
  | None | Some (false, _) => w
  | Some (true, r1) =>
      let w1 := set_sb_redis r1 w in
      match r_delete (stop_key cam) (sb_redis w1) with
      | None => w1
      | Some r2 =>
          let w2 := set_sb_redis r2 w1 in
          match List.find (fun c => (ec_id c =? cam) && bool_decide (ec_deleted_at c = None)) (sb_cams w2) ≫= make_event_source with
          | None => w2                              (* no such camera: the lock runs out *)
          | Some src =>
              let w3 := upsert cam (source_name src) "connecting" None None w2 in
              match source_open (match open_ with inl ct => Some ct | inr _ => None end) (sb_now w3) src with
              | None => finish cam (source_name src) (Some (match open_ with inr e => e | inl _ => EmptyString end)) w3
              | Some src' =>
                  set_workers (sb_workers w3 ++ [{| wk_id := worker_id; wk_camera := cam; wk_source := src' |}]) (upsert cam (source_name src) "active" None None w3)
              end
          end
      end
  end.

Section Turn.
Context (parse_xml : string -> option xml) (utc_offset : Z -> Z).

Definition source_poll (a : Answer) (s : Source) : list RawEvent * Source :=
  match s with
  | SrcIsapi s => let '(l, s') := isapi_poll parse_xml (an_chunk a) s in (RawIsapi <$> l, SrcIsapi s')
  | SrcOnvif s =>
      match an_messages a with
      | Some ms => ((fun m => RawOnvif (pull_message m)) <$> ms, SrcOnvif s)
      | None => ([], SrcOnvif {| on_renew_at := on_renew_at s; on_healthy := false |})
      end
  | SrcSunapi s => let '(l, s') := sunapi_poll (an_status a) s in (RawSunapi <$> l, SrcSunapi s')
  end.
(** [if needs_renew_at and now_ms >= needs_renew_at - 60_000: renew()] *)
Definition source_renew (a : Answer) (now : Z) (s : Source) : Source :=
  match s with
  | SrcOnvif o =>
      match on_renew_at o with
      | Some t =>
          if negb (t =? 0) && (t - 60000 <=? now / 1000) then
            if an_renewed a then SrcOnvif {| on_renew_at := Some (now / 1000 + 3600000); on_healthy := on_healthy o |}
            else SrcOnvif {| on_renew_at := Some t; on_healthy := false |}
          else s
      | None => s
      end
  | _ => s
  end.

Definition drop_worker (id : string) (w : SubWorld) : SubWorld := set_workers (List.filter (fun k => negb (bool_decide (wk_id k = id))) (sb_workers w)) w.
(** one turn of the loop of the worker [k] *)
Definition turn_of (k : Worker) (a : Answer) (w : SubWorld) : SubWorld :=
  let cam := wk_camera k in
  let stop error w := finish cam (source_name (wk_source k)) error (drop_worker (wk_id k) w) in
  match r_exists (sb_now w) (stop_key cam) (sb_redis w) with
  | None => stop (Some "redis"%string) w
  | Some true => stop None w
  | Some false =>
      let '(batch, src) := source_poll a (source_renew a (sb_now w) (wk_source k)) in
      match r_setex (sb_now w) (lock_key cam) LOCK_TTL (RText (wk_id k)) (sb_redis w) with
      | None => stop (Some "redis"%string) w
      | Some r =>
          let w1 := upsert cam (source_name src) "active" (Some (sb_now w)) None (set_sb_redis r w) in
          let w2 := set_sb_ev (foldl (fun e raw => snd (handle utc_offset cam raw e)) (sb_ev w1) batch) w1 in
          if healthy src then
            set_workers ((fun x => if bool_decide (wk_id x = wk_id k) then {| wk_id := wk_id k; wk_camera := cam; wk_source := src |} else x) <$> sb_workers w2) w2
          else stop None w2
      end
  end.
Definition turn (id : string) (a : Answer) (w : SubWorld) : SubWorld :=
  match List.find (fun k => bool_decide (wk_id k = id)) (sb_workers w) with Some k => turn_of k a w | None => w end.
End Turn.

(** view/api/subscription.py: [resubscribe] *)
Definition resubscribe (cam : Z) (w : SubWorld) : SubWorld :=
  match r_delete (lock_key cam) (sb_redis w) with
  | None => w
  | Some r => let w1 := set_sb_redis r w in match r_delete (stop_key cam) (sb_redis w1) with Some r2 => set_sb_redis r2 w1 | None => w1 end
  end.

(** ** One worker per camera *)

Lemma lock_key_inj a b : lock_key a = lock_key b -> a = b.
Proof. unfold lock_key. intros H. apply (f_equal (sdrop 8)) in H. cbn [sdrop String.append] in H. by apply pretty_sep_inj in H as [? _]. Qed.

(** the store as far as leases are concerned: the clock, and the keys that are no cooldown *)
Definition same_leases (w w' : EventWorld) : Prop :=
  ew_now w' = ew_now w /\ forall t cam, r_lookup t (lock_key cam) (t_redis (ew_store w')) = r_lookup t (lock_key cam) (t_redis (ew_store w)).
(** and Redis as reachable as before *)
Definition steady (w w' : EventWorld) : Prop := same_leases w w' /\ r_up (t_redis (ew_store w')) = r_up (t_redis (ew_store w)).
Lemma steady_trans w1 w2 w3 : steady w1 w2 -> steady w2 w3 -> steady w1 w3.
Proof. intros [[E1 H1] U1] [[E2 H2] U2]. split; [|congruence]. split; [congruence|]. intros t cam. by rewrite H2. Qed.

Lemma mark_trigger_leases dedup c w : steady w (mark_trigger dedup c w).
Proof.
  unfold mark_trigger. destruct (r_setex _ _ _ _ _) as [r|] eqn:E; [|done]. unfold r_setex in E. destruct (_ && _); [|done]. injection E as <-.
  split; [|done]. split; [done|]. intros t cam. apply r_lookup_put_ne. by unfold cooldown_key, lock_key.
Qed.
Lemma materialize_leases id pre post w : steady w (snd (materialize id pre post w)).
Proof. unfold materialize. destruct (event_get_by_id _ _) as [e|]; [|done]. by destruct (find_overlapping _ _ _ _ _). Qed.

Section OneWorker.
Context (parse_xml : string -> option xml) (utc_offset : Z -> Z).

Lemma act_leases cam n dedup e w : steady w (snd (act utc_offset cam n dedup e w)).
Proof.
  unfold act. destruct (resolve _ _ _ _) as [p|]; [|done]. destruct (negb _); [done|]. destruct (match ep_min_score p with Some _ => _ | None => _ end); [done|].
  destruct (within_cooldown _ _); [done|]. cbv zeta. case_bool_decide.
  - pose proof (materialize_leases (ev_id (with_action (combine (ep_action p) (mode utc_offset cam (ev_start_ts e) w) (n_type n)) e)) (ep_pre_buffer_s p) (ep_post_buffer_s p)
      (put_ev (with_action (combine (ep_action p) (mode utc_offset cam (ev_start_ts e) w) (n_type n)) e) w)) as Hm.
    destruct (materialize _ _ _ _) as [r w2]. cbn [snd] in *. pose proof (mark_trigger_leases dedup (ep_cooldown_s p) w2) as Ht.
    destruct (_ && _); by eapply steady_trans.
  - by destruct (_ && _).
Qed.
Lemma process_leases cam n source w : steady w (snd (process utc_offset cam n source w)).
Proof.
  unfold process. destruct (match n_vendor_event_id n with Some _ => _ | None => _ end); [done|].
  assert (Hact : forall e w1, steady w w1 -> steady w (snd (let '(e', w2) := act utc_offset cam n (dedup_key cam n) e w1 in (Some e', w2)))).
  { intros e w1 H. pose proof (act_leases cam n (dedup_key cam n) e w1) as Ha. destruct (act _ _ _ _ _ _). by eapply steady_trans. }
  case_bool_decide; [|case_bool_decide].
  - destruct (get_active_by_dedup _ _); [done|]. by apply Hact.
  - destruct (get_active_by_dedup _ _); [|done]. by apply Hact.
  - by apply Hact.
Qed.
Lemma handles_leases cam batch w : steady w (foldl (fun e raw => snd (handle utc_offset cam raw e)) w batch).
Proof.
  revert w. induction batch as [|raw batch IH]; intros w; [done|]. cbn [foldl]. eapply steady_trans; [|apply IH].
  unfold handle. destruct (normalize_event raw); [apply process_leases|done].
Qed.

(** [id] holds the lease of [cam] *)
Definition holds (id : string) (cam : Z) (w : SubWorld) : Prop := exists exp, r_lookup (sb_now w) (lock_key cam) (sb_redis w) = Some (RText id, exp).
(** the workers have names of their own, and the camera [c] at most one, with its lease *)
Record workers_ok (c : Z) (w : SubWorld) : Prop := {
  wo_ids : NoDup (wk_id <$> sb_workers w);
  wo_camera : forall k1 k2, k1 ∈ sb_workers w -> k2 ∈ sb_workers w -> wk_camera k1 = c -> wk_camera k2 = c -> k1 = k2;
  wo_lease : forall k, k ∈ sb_workers w -> wk_camera k = c -> holds (wk_id k) c w
}.

(** nobody reads [c] *)
Definition unread (c : Z) (w : SubWorld) : Prop := forall k, k ∈ sb_workers w -> wk_camera k <> c.
(** a lease of [c] that a worker holds lasts beyond [t] *)
Definition lease_lasts (c t : Z) (w : SubWorld) : Prop := unread c w \/ is_Some (r_lookup t (lock_key c) (sb_redis w)).
Definition sb_wait (t : Z) (w : SubWorld) : SubWorld := set_sb_ev (set_store (advance (t - sb_now w) (ew_store (sb_ev w))) (sb_ev w)) w.

(** what can happen where the lease of the camera [c] is respected: a worker of [c] comes
    back before its lease runs out, and an administrator asks for a new subscription of [c]
    only while there is no worker; of other cameras, at any time *)
Inductive sub_step (c : Z) : SubWorld -> SubWorld -> Prop :=
| st_supervise w : sub_step c w (supervise_subscriptions w)
| st_run id cam open_ w : id ∉ wk_id <$> sb_workers w -> sub_step c w (run_subscription id cam open_ w)
| st_turn id a w : sub_step c w (turn parse_xml utc_offset id a w)
| st_wait t w : sb_now w <= t -> lease_lasts c t w -> sub_step c w (sb_wait t w)
| st_resubscribe cam w : (cam = c -> unread c w) -> sub_step c w (resubscribe cam w)
| st_other w w' : sb_workers w' = sb_workers w -> same_leases (sb_ev w) (sb_ev w') -> sub_step c w w'.
End OneWorker.

Lemma stop_not_lock a b : stop_key a <> lock_key b.
Proof. unfold lock_key, stop_key. intros H. apply (f_equal (sdrop 8)) in H. cbn [sdrop String.append] in H. by apply pretty_sep_inj in H as [_ ?]. Qed.
Lemma r_lookup_delete_ne t k k' r r' : r_delete k r = Some r' -> k <> k' -> r_lookup t k' r' = r_lookup t k' r.
Proof. unfold r_delete. destruct (r_up r); [|done]. intros [= <-] Hne. unfold r_lookup. cbn. by rewrite lookup_delete_ne. Qed.

(** leases of other cameras stay as they are *)
Definition other_leases (cam : Z) (w w' : SubWorld) : Prop :=
  sb_now w' = sb_now w /\ forall t c, c <> cam -> r_lookup t (lock_key c) (sb_redis w') = r_lookup t (lock_key c) (sb_redis w).
Lemma other_leases_trans cam w1 w2 w3 : other_leases cam w1 w2 -> other_leases cam w2 w3 -> other_leases cam w1 w3.
Proof. intros [E1 H1] [E2 H2]. split; [congruence|]. intros t c Hc. by rewrite H2, H1. Qed.

Lemma finish_other cam p error w : other_leases cam w (finish cam p error w) /\ sb_workers (finish cam p error w) = sb_workers w.
Proof.
  unfold finish. set (w1 := match error with Some e => upsert cam p "error" None (Some e) w | None => w end).
  assert (H1 : other_leases cam w w1 /\ sb_workers w1 = sb_workers w) by by destruct error. destruct H1 as [H1 H2]. clearbody w1.
  destruct (r_delete _ _) as [r|] eqn:E; [|done]. split; [|done]. eapply other_leases_trans; [done|]. split; [done|]. intros t c Hc.
  eapply r_lookup_delete_ne; [exact E|]. by intros ?%lock_key_inj.
Qed.

(** fewer workers, and the lease of the one of [c] as it was *)
Lemma workers_frame c w w' f : workers_ok c w -> sb_now w' = sb_now w -> sb_workers w' = List.filter f (sb_workers w) ->
  (~ unread c w' -> r_lookup (sb_now w) (lock_key c) (sb_redis w') = r_lookup (sb_now w) (lock_key c) (sb_redis w)) -> workers_ok c w'.
Proof.
  intros [Hi Hc Hl] Hn Hw Hr. assert (Hin : forall k, k ∈ sb_workers w' -> k ∈ sb_workers w) by (intros k; rewrite Hw; by intros [? _]%elem_of_filter_In). split.
  - rewrite Hw. by apply filter_nodup.
  - auto.
  - intros k Hk Hkc. unfold holds. rewrite Hn, Hr; [by apply Hl; auto|]. intros Hu. by apply (Hu k).
Qed.
Lemma filter_all {A} (l : list A) : List.filter (fun _ => true) l = l.
Proof. induction l; cbn; congruence. Qed.

Lemma workers_same c w w' : workers_ok c w -> sb_workers w' = sb_workers w -> same_leases (sb_ev w) (sb_ev w') -> workers_ok c w'.
Proof. intros Hok Hw [Hn Hl]. apply (workers_frame c w w' (fun _ => true)); [done|done|by rewrite filter_all|]. intros _. apply Hl. Qed.

(** nothing happened to [c] that matters: its lease is untouched, or nobody reads it *)
Lemma workers_apart c cam w w' : workers_ok c w -> other_leases cam w w' -> sb_workers w' = sb_workers w -> (cam = c -> unread c w) -> workers_ok c w'.
Proof.
  intros Hok [Hn Hl] Hw Hu. apply (workers_frame c w w' (fun _ => true)); [done|done|by rewrite filter_all|]. intros Hr. apply Hl. intros <-. apply Hr.
  unfold unread. rewrite Hw. by apply Hu.
Qed.

Section OneWorkerSteps.
Context (parse_xml : string -> option xml) (utc_offset : Z -> Z).

Lemma run_ok c id cam open_ w : workers_ok c w -> id ∉ wk_id <$> sb_workers w -> workers_ok c (run_subscription id cam open_ w).
Proof.
  intros Hok Hid. unfold run_subscription. destruct (r_set_nx_ex _ _ _ _ _) as [[[] r1]|] eqn:E1; [|done..].
  unfold r_set_nx_ex in E1. destruct (_ && _); [|done]. destruct (r_lookup (sb_now w) (lock_key cam) (sb_redis w)) eqn:El; [done|]. injection E1 as <-.
  assert (Hfree : cam = c -> unread c w).
  { intros -> k Hk Hkc. destruct (wo_lease c w Hok k Hk Hkc) as (exp & Hx). congruence. }
  set (w1 := set_sb_redis _ w).
  assert (Hhold : forall r t, t = sb_now w -> r_lookup t (lock_key cam) (r_put (lock_key cam) (RText id, Some (sb_now w + LOCK_TTL * SEC)) r) = Some (RText id, Some (sb_now w + LOCK_TTL * SEC))).
  { intros r t ->. apply r_lookup_put_eq. unfold live, LOCK_TTL, SEC. cbn. apply Z.ltb_lt. lia. }
  assert (H1 : other_leases cam w w1) by (split; [done|]; intros t x Hx; apply r_lookup_put_ne; by intros ?%lock_key_inj).
  assert (Hweak : forall w', other_leases cam w w' -> sb_workers w' = sb_workers w -> workers_ok c w') by (intros w' ??; by apply (workers_apart c cam w)).
  destruct (r_delete _ _) as [r2|] eqn:E2; [|by apply Hweak].
  assert (H2 : other_leases cam w (set_sb_redis r2 w1)).
  { eapply other_leases_trans; [exact H1|]. split; [done|]. intros t x Hx. eapply r_lookup_delete_ne; [exact E2|apply stop_not_lock]. }
  assert (Hmine : holds id cam (set_sb_redis r2 w1)).
  { eexists. change (sb_redis (set_sb_redis r2 w1)) with r2. erewrite r_lookup_delete_ne; [|exact E2|apply stop_not_lock]. by apply Hhold. }
  destruct (List.find _ _ ≫= make_event_source) as [src|]; [|by apply Hweak].
  destruct (source_open _ _ _) as [src'|].
  - destruct Hok as [Hi Hc Hl]. split; cbn [sb_workers set_workers upsert set_sb_redis set_sb_ev w1].
    + rewrite fmap_app. apply NoDup_app. split_and!; [apply Hi| |apply NoDup_singleton]. intros i Hi' Hx%list_elem_of_singleton. cbn in Hx. by subst i.
    + intros k1 k2 [H3| ->%list_elem_of_singleton]%elem_of_app [H4| ->%list_elem_of_singleton]%elem_of_app; cbn; intros E3 E4; [by apply Hc| | |done];
        exfalso; by eapply Hfree.
    + intros k [Hk| ->%list_elem_of_singleton]%elem_of_app Hkc; [|cbn in Hkc; subst c; exact Hmine]. destruct (Hl k Hk Hkc) as (exp & Hx). exists exp.
      destruct H2 as [_ H2]. rewrite <- Hx. apply H2. intros ->. by apply (Hfree eq_refl k).
  - match goal with |- workers_ok _ (finish ?c ?p ?e ?w0) => destruct (finish_other c p e w0) as [Hf Hw] end. apply Hweak; [by eapply other_leases_trans|]. by rewrite Hw.
Qed.

Lemma drop_ok c k error w w1 p : workers_ok c w -> k ∈ sb_workers w -> other_leases (wk_camera k) w w1 -> sb_workers w1 = sb_workers w ->
  workers_ok c (finish (wk_camera k) p error (drop_worker (wk_id k) w1)).
Proof.
  intros Hok Hk Ho Hw. destruct (finish_other (wk_camera k) p error (drop_worker (wk_id k) w1)) as [Hf Hfw].
  assert (Ho2 : other_leases (wk_camera k) w (finish (wk_camera k) p error (drop_worker (wk_id k) w1))) by (eapply other_leases_trans; [exact Ho|done]). destruct Ho2 as [Hn Hl].
  eapply (workers_frame c w _ (fun x => negb (bool_decide (wk_id x = wk_id k)))); [done|done|rewrite Hfw; cbn; by rewrite Hw|].
  intros Hr. apply Hl. intros ->. apply Hr. intros x Hx Hxc. rewrite Hfw in Hx. cbn in Hx. rewrite Hw in Hx. apply elem_of_filter_In in Hx as [Hx Hne].
  apply negb_true_iff, bool_decide_eq_false in Hne. apply Hne. by rewrite (wo_camera _ w Hok x k Hx Hk Hxc eq_refl).
Qed.

Lemma turn_ok c id a w : workers_ok c w -> workers_ok c (turn parse_xml utc_offset id a w).
Proof.
  intros Hok. unfold turn. destruct (List.find _ _) as [k|] eqn:Ek; [|done]. apply find_some in Ek as [Hk%list_elem_of_In _].
  assert (Hrefl : other_leases (wk_camera k) w w) by done.
  unfold turn_of. destruct (r_exists _ _ _) as [[]|]; [by apply (drop_ok c k None w w)| |by apply (drop_ok c k (Some "redis"%string) w w)].
  destruct (source_poll _ _ _) as [batch src]. destruct (r_setex _ _ _ _ _) as [r|] eqn:Er; [|by apply (drop_ok c k (Some "redis"%string) w w)].
  unfold r_setex in Er. destruct (_ && _); [|done]. injection Er as <-. cbv zeta.
  set (w1 := upsert _ _ _ _ _ _). pose proof (handles_leases utc_offset (wk_camera k) batch (sb_ev w1)) as [[Hn Hl] _].
  set (w2 := set_sb_ev _ w1).
  assert (Ho : other_leases (wk_camera k) w w2).
  { split; [exact Hn|]. intros t x Hx. etransitivity; [apply Hl|]. apply r_lookup_put_ne. by intros ?%lock_key_inj. }
  destruct (healthy src); [|by apply (drop_ok c k None w w2)]. destruct Ho as [Ho1 Ho2].
  set (f := fun x => if bool_decide (wk_id x = wk_id k) then {| wk_id := wk_id k; wk_camera := wk_camera k; wk_source := src |} else x).
  assert (Hf : forall x, x ∈ sb_workers w -> wk_id (f x) = wk_id x /\ wk_camera (f x) = wk_camera x).
  { intros x Hx. unfold f. case_bool_decide as E; [|done]. cbn. split; [done|]. by rewrite (nodup_key_inj wk_id (sb_workers w) x k (wo_ids c w Hok) Hx Hk E). }
  split; cbn [sb_workers set_workers]; change (sb_workers w2) with (sb_workers w).
  - rewrite <- list_fmap_compose. erewrite list_fmap_ext; [apply (wo_ids c w Hok)|]. intros i x Hx. apply Hf. by eapply list_elem_of_lookup_2.
  - intros y1 y2 (x1 & -> & H1)%list_elem_of_fmap (x2 & -> & H2)%list_elem_of_fmap. rewrite (proj2 (Hf x1 H1)), (proj2 (Hf x2 H2)). intros E1 E2. f_equal. by apply (wo_camera c w Hok).
  - intros y (x & -> & Hx)%list_elem_of_fmap. destruct (Hf x Hx) as [-> ->]. intros Hxc. unfold holds. change (sb_now (set_workers _ w2)) with (sb_now w2).
    change (sb_redis (set_workers _ w2)) with (sb_redis w2). rewrite Ho1. destruct (decide (wk_camera k = c)) as [E|E].
    + rewrite (wo_camera c w Hok x k Hx Hk Hxc E), <- E. eexists. etransitivity; [apply Hl|]. apply r_lookup_put_eq. unfold live, LOCK_TTL, SEC. cbn. apply Z.ltb_lt. lia.
    + destruct (wo_lease c w Hok x Hx Hxc) as (exp & He). exists exp. rewrite <- He. apply Ho2. by intros ->.
Qed.

Lemma resubscribe_other cam w : other_leases cam w (resubscribe cam w) /\ sb_workers (resubscribe cam w) = sb_workers w.
Proof.
  unfold resubscribe. destruct (r_delete (lock_key cam) _) as [r|] eqn:E; [|done].
  assert (H1 : other_leases cam w (set_sb_redis r w)) by (split; [done|]; intros t x Hx; eapply r_lookup_delete_ne; [exact E|]; by intros ?%lock_key_inj).
  cbv zeta. destruct (r_delete (stop_key cam) _) as [r2|] eqn:E2; [|done]. split; [|done]. eapply other_leases_trans; [exact H1|]. split; [done|].
  intros t x Hx. eapply r_lookup_delete_ne; [exact E2|apply stop_not_lock].
Qed.

Lemma step_ok c w w' : workers_ok c w -> sub_step parse_xml utc_offset c w w' -> workers_ok c w'.
Proof.
  intros Hok Hs. destruct Hs as [w|id cam open_ w Hid|id a w|t w Ht Hl|cam w Hu|w w' Hw Hl].
  - by apply (workers_same c w).
  - by apply run_ok.
  - by apply turn_ok.
  - destruct Hok as [Hi Hc Hold]. split; [done..|]. intros k Hk Hkc. destruct Hl as [Hl|[v Hv]]; [by destruct (Hl k Hk)|]. destruct (Hold k Hk Hkc) as (exp & He). exists exp.
    assert (Hnow : sb_now (sb_wait t w) = t) by (unfold sb_wait, sb_now, ew_now; cbn; lia). rewrite Hnow. change (sb_redis (sb_wait t w)) with (sb_redis w).
    unfold r_lookup in *. destruct (r_store (sb_redis w) !! _) as [e|]; [|done]. destruct (live (sb_now w) e); [|done]. injection He as ->. by destruct (live t _).
  - destruct (resubscribe_other cam w). by apply (workers_apart c cam w).
  - by apply (workers_same c w).
Qed.

(** C22: One subscription per camera.  In every history of supervision, starts, turns and
    ends of the workers, and of requests for a new subscription, in which every worker of the
    camera [c] comes back to its loop before its lease of ninety seconds runs out and no
    new subscription of [c] is asked for while a worker reads it, no two workers read the
    events of [c], and one that does holds the lease of [c] in its own name.  Late workers
    of other cameras and new subscriptions of those do not matter. *)
Theorem one_worker_per_camera c w0 w : sb_workers w0 = [] -> rtc (sub_step parse_xml utc_offset c) w0 w ->
  List.filter (fun k => wk_camera k =? c) (sb_workers w) = [] \/
  exists k, List.filter (fun k => wk_camera k =? c) (sb_workers w) = [k] /\ holds (wk_id k) c w.
Proof.
  intros H0 Hr. assert (Hok : workers_ok c w0) by (split; rewrite ?H0; [constructor|intros ?? ?%elem_of_nil; done|intros k ?%elem_of_nil; done]).
  assert (Hw : workers_ok c w) by (clear H0; induction Hr as [w|w1 w2 w3 Hs Hr IH]; [done|]; apply IH; by eapply step_ok). destruct Hw as [Hi Hc Hl].
  assert (Hin : forall k, k ∈ List.filter (fun k => wk_camera k =? c) (sb_workers w) -> k ∈ sb_workers w /\ wk_camera k = c)
    by (intros k [Hk E%Z.eqb_eq]%elem_of_filter_In; done).
  pose proof (filter_nodup wk_id (fun k => wk_camera k =? c) _ Hi) as Hn. destruct (List.filter _ _) as [|k l]; [by left|right]. exists k.
  destruct (Hin k ltac:(by left)) as [Hk Hkc]. split; [|by apply Hl]. destruct l as [|k' l]; [done|]. destruct (Hin k' ltac:(right; by left)) as [Hk' Hkc'].
  rewrite (Hc k' k) in Hn by done. cbn in Hn. apply NoDup_cons in Hn as [Hn _]. destruct Hn. by left.
Qed.

(** A subscription that breaks off is taken up again.  When the source of a worker is no
    longer healthy after its turn, and Redis answers, the worker is gone, its lease is free,
    and the next supervision of an enabled camera with events queues it again. *)
Theorem broken_subscription_is_queued k a w c : workers_ok (wk_camera k) w -> k ∈ sb_workers w -> r_up (sb_redis w) = true ->
  r_lookup (sb_now w) (stop_key (wk_camera k)) (sb_redis w) = None ->
  healthy (snd (source_poll parse_xml a (source_renew a (sb_now w) (wk_source k)))) = false ->
  c ∈ sb_cams w -> ec_id c = wk_camera k -> ec_enabled c = true -> ec_deleted_at c = None -> is_event_capable c = true ->
  let w' := turn parse_xml utc_offset (wk_id k) a w in
  (forall x, x ∈ sb_workers w' <-> x ∈ sb_workers w /\ wk_camera x <> wk_camera k) /\ wk_camera k ∈ sb_queue (supervise_subscriptions w').
Proof.
  intros Hok Hk Hup Hstop Hbad Hc Hcid Hen Hdel Hcap w'.
  assert (Hfind : List.find (fun x => bool_decide (wk_id x = wk_id k)) (sb_workers w) = Some k).
  { destruct (List.find _ _) as [x|] eqn:E.
    - apply find_some in E as [Hx%list_elem_of_In E%bool_decide_eq_true]. f_equal. by apply (nodup_key_inj wk_id (sb_workers w)); [apply Hok|..].
    - eapply find_none in E; [|by apply list_elem_of_In]. by apply bool_decide_eq_false in E. }
  unfold w', turn. rewrite Hfind. unfold turn_of, r_exists. rewrite Hup, Hstop. rewrite bool_decide_eq_false_2 by (by intros [? ?]).
  destruct (source_poll _ _ _) as [batch src]. cbn [snd] in Hbad. unfold r_setex. rewrite Hup. cbn [andb Z.ltb Z.compare LOCK_TTL]. cbv zeta.
  set (w1 := upsert _ _ _ _ _ _). pose proof (handles_leases utc_offset (wk_camera k) batch (sb_ev w1)) as [_ Hu2]. set (w2 := set_sb_ev _ w1). rewrite Hbad.
  unfold finish. change (sb_redis (drop_worker (wk_id k) w2)) with (sb_redis w2). unfold r_delete.
  assert (Hup2 : r_up (sb_redis w2) = true) by (etransitivity; [exact Hu2|exact Hup]). rewrite Hup2. clear Hu2.
  set (r := {| r_up := true; r_store := _ |}). split.
  - intros x. cbn. rewrite elem_of_filter_In, negb_true_iff, bool_decide_eq_false. split; intros [Hx Hne]; (split; [done|]); intros E; apply Hne.
    + by rewrite (wo_camera _ w Hok x k Hx Hk E eq_refl).
    + by rewrite (nodup_key_inj wk_id (sb_workers w) x k (wo_ids _ w Hok) Hx Hk E).
  - cbn. apply elem_of_app. right.
    match goal with |- _ ∈ supervise_go ?l ?w0 => assert (Hin : c ∈ l) by (apply elem_of_filter_In; split; [done|]; by rewrite Hen, Hdel); set (w3 := w0) in *; generalize dependent l end.
    assert (Hfree : r_exists (sb_now w3) (lock_key (wk_camera k)) (sb_redis w3) = Some false).
    { unfold r_exists. change (sb_redis w3) with r. cbn [r_up r]. rewrite bool_decide_eq_false_2; [done|]. unfold r_lookup. cbn [r_store r]. rewrite lookup_delete_eq. by intros [? ?]. }
    assert (Hr3 : r_up (sb_redis w3) = true) by done. rewrite <- Hcid in *. clearbody w3. clear -Hfree Hcap Hr3. intros l Hin.
    induction l as [|x l IH]; [by apply elem_of_nil in Hin|]. cbn [supervise_go]. apply elem_of_cons in Hin as [<-|Hin].
    + rewrite Hcap, Hfree. cbn. by left.
    + specialize (IH Hin). destruct (negb _); [done|]. unfold r_exists at 1. rewrite Hr3. destruct (bool_decide _); [done|by right].
Qed.
End OneWorkerSteps.

(** ** Concrete subscriptions *)

Definition capabilities (transport : string) : json := JObj [("events", JObj [("transport", JStr transport)])]%string.
Definition event_camera (id : Z) (driver : string) : EventCamera :=
  {| ec_id := id; ec_enabled := true; ec_deleted_at := None; ec_driver := Some driver; ec_capabilities := capabilities "push" |}.
Definition demo_sub : SubWorld := {| sb_ev := demo_ew; sb_cams := [event_camera 1 "isapi"; event_camera 2 "sunapi"]; sb_rows := ∅; sb_workers := []; sb_queue := [] |}.
(** reads an alert of motion whatever the text says *)
Definition toy_xml (_ : string) : option xml := Some (Elem "{ns}EventNotificationAlert" None [Elem "eventType" (Some " VMD "%string) []; Elem "channelID" (Some "1"%string) []]).
Definition demo_started_sub : SubWorld := run_subscription "a" 1 (inl "multipart/mixed; boundary=xx"%string) demo_sub.
Definition quiet_answer : Answer := {| an_chunk := StreamEnd; an_renewed := true; an_messages := Some []; an_status := None |}.
Definition alert_answer : Answer :=
  {| an_chunk := Chunk "--xx<EventNotificationAlert/>--xx"%string; an_renewed := true; an_messages := Some []; an_status := None |}.
Definition fault_answer : Answer := {| an_chunk := ReadFault; an_renewed := true; an_messages := None; an_status := None |}.
Definition at_later (s : Z) (w : SubWorld) : SubWorld := sb_wait (sb_now w + s * SEC) w.

Lemma one_worker_per_camera_witness :
  let w := run_subscription "b" 2 (inl ""%string) (resubscribe 2 (turn toy_xml kst "a" alert_answer (at_later 60 demo_started_sub))) in
  (wk_camera <$> sb_workers w) = [1; 2] /\ length (ew_events (sb_ev w)) = 1%nat /\
  exists k, List.filter (fun k => wk_camera k =? 1) (sb_workers w) = [k] /\ holds (wk_id k) 1 w.
Proof.
  intros w. split; [by vm_compute|]. split; [by vm_compute|]. destruct (one_worker_per_camera toy_xml kst 1 demo_sub w) as [H|H]; [reflexivity| |by vm_compute in H|exact H].
  eapply rtc_l; [apply (st_run toy_xml kst 1 "a" 1 (inl "multipart/mixed; boundary=xx"%string)); apply not_elem_of_nil|].
  eapply rtc_l; [apply (st_wait toy_xml kst 1 (sb_now demo_started_sub + 60 * SEC)); [apply Z.leb_le; by vm_compute|right; apply (bool_decide_unpack _); by vm_compute]|].
  eapply rtc_l; [apply (st_turn toy_xml kst 1 "a" alert_answer)|].
  eapply rtc_l; [apply (st_resubscribe toy_xml kst 1 2); discriminate|].
  apply rtc_once, (st_run toy_xml kst 1 "b" 2 (inl ""%string)). apply (bool_decide_unpack _). by vm_compute.
Defined.

Lemma broken_subscription_is_queued_witness :
  let w' := turn toy_xml kst "a" fault_answer demo_started_sub in
  (forall x, x ∈ sb_workers w' <-> x ∈ sb_workers demo_started_sub /\ wk_camera x <> 1) /\ 1 ∈ sb_queue (supervise_subscriptions w').
Proof.
  eapply (broken_subscription_is_queued toy_xml kst {| wk_id := "a"; wk_camera := 1; wk_source := SrcIsapi {| is_buffer := ""; is_boundary := "xx"; is_healthy := true |} |}
    fault_answer demo_started_sub (event_camera 1 "isapi")); [|by left|reflexivity|by vm_compute|reflexivity|by left|reflexivity..].
  apply run_ok; [|apply not_elem_of_nil]. split; [constructor|intros k1 k2 H; by apply elem_of_nil in H|]. intros k Hk. by apply elem_of_nil in Hk.
Defined.

(** the reader asks for the next piece with an empty one as default: a stream the device has
    closed counts as healthy, and its worker asks it again without end, holding the lease *)
Example closed_stream_is_polled_forever :
  let w := Nat.iter 3 (turn toy_xml kst "a" quiet_answer) demo_started_sub in
  sb_workers w = sb_workers demo_started_sub /\ (sr_state <$> sb_rows w !! 1) = Some "active"%string /\ sb_queue (supervise_subscriptions w) = [2].
Proof. split_and!; by vm_compute. Qed.

(** asking for a new subscription frees the lease of the running one: both read on, and each
    message becomes two events *)
Example resubscribe_runs_two_workers :
  let w := run_subscription "b" 1 (inl "multipart/mixed; boundary=xx"%string) (resubscribe 1 demo_started_sub) in
  let w' := turn toy_xml kst "b" alert_answer (turn toy_xml kst "a" alert_answer w) in
  (wk_camera <$> sb_workers w) = [1; 1] /\ (ev_type <$> ew_events (sb_ev w')) = ["motion"; "motion"]%string.
Proof. split; by vm_compute. Qed.

(** the loop never looks at its camera again: one that is deleted goes on reporting *)
Example deleted_camera_keeps_reporting :
  let gone := {| ec_id := 1; ec_enabled := false; ec_deleted_at := Some 0; ec_driver := Some "isapi"%string; ec_capabilities := capabilities "push" |} in
  let w := {| sb_ev := sb_ev demo_started_sub; sb_cams := [gone]; sb_rows := sb_rows demo_started_sub; sb_workers := sb_workers demo_started_sub; sb_queue := [] |} in
  let w' := turn toy_xml kst "a" alert_answer w in
  length (sb_workers w') = 1%nat /\ (ev_camera_id <$> ew_events (sb_ev w')) = [1].
Proof. split; by vm_compute. Qed.

(** a worker that comes back late finds another one beside it, and takes the lease from it *)
Example late_worker_is_joined :
  let w := run_subscription "b" 1 (inl ""%string) (at_later 91 demo_started_sub) in
  (wk_id <$> sb_workers w) = ["a"; "b"]%string /\ fst <$> r_lookup (sb_now w) (lock_key 1) (sb_redis (turn toy_xml kst "a" quiet_answer w)) = Some (RText "a").
Proof. split; by vm_compute. Qed.

(** a key that is missing from a page is forgotten, not reported as over *)
Example vanished_key_never_ends :
  status_changes [] [[("Channel.0.MotionDetection", true)]; []; [("Channel.0.MotionDetection", false)]]%string = [("Channel.0.MotionDetection"%string, true)].
Proof. reflexivity. Qed.

Example status_page :
  diff_status [] (parse_eventstatus ("Channel.0.MotionDetection=True" +:+ CRLF2 +:+ "Channel.1.Tampering=False"))
  = [{| ss_event := Some "MotionDetection"%string; ss_state := "true"; ss_channel := JInt 0 |}].
Proof. by vm_compute. Qed.

(** the stream in pieces: the delimiter, cut in two, ends the first part *)
Example alert_in_pieces :
  length (fst (isapi_polls toy_xml ["--xx<EventNotif"; "icationAlert/>-"; "-xx"]%string {| is_buffer := ""; is_boundary := "xx"; is_healthy := true |})) = 1%nat.
Proof. by vm_compute. Qed.
