(* ===== verification/Flow.v ===== *)
(** * Automation flows

    src/server/service/flow_engine.py, clause.py, trigger_router.py; model/flow.py,
    flow_run.py; the outbox consumer task/list/outbox_consumer.py.

    A graph is typed: node ids, node types, edge ends and handles are strings (the
    [isinstance] checks of [validate_graph]); node data stays JSON.  The drivers
    behind [action_runner.run] (HTTP, mail, SMS, push, devices) are a parameter:
    they may change the event world, succeed, fail or raise.  [py_float] is
    [float()] on a text.  Node timings are not kept. *)

From stdpp Require Import pretty.
From Stdlib Require Import QArith Lqa.
From S2P Require Import Prelude PyStr Redis Token Storage EventPipeline Recordings Json.
Local Open Scope Z_scope.
Local Open Scope list_scope.

(** ** Triggers (trigger_router.py) *)

Record TriggerEvent := {
  tr_trigger_type : string;
  tr_camera_id : option Z;
  tr_type : option string;
  tr_subtype : option string;
  tr_score : option Z;
  tr_classes : list string;
  tr_zone : option Z;
  tr_ts : option Z;
  tr_event_id : option Z;
  tr_snapshot_path : option string;
  tr_region : json;
  tr_identity_id : option Z;
  tr_identity_name : json;
  tr_device_id : json;
  tr_context : list (string * json)
}.

Definition opt_jstr (o : option string) : json := match o with Some s => JStr s | None => JNull end.
Definition opt_jint (o : option Z) : json := match o with Some z => JInt z | None => JNull end.

(** [int(x) if str(x or '').isdigit() else None] *)
Definition digit_id (v : json) : option Z :=
  if negb (truthy v) then None else
  match v with
  | JInt z => if 0 <=? z then Some z else None
  | JStr s => if isdigit s then py_int s else None
  | _ => None
  end.

(** [raw]: the published payload's raw field; events carry no snapshot path *)
Definition from_outbox (row : EventOutbox) (raw : list (string * json)) : TriggerEvent :=
  let e := ob_event row in
  let is_object := bool_decide (ev_type e = "object"%string) in
  {| tr_trigger_type := if is_object then "object" else "event";
     tr_camera_id := if ev_camera_id e =? 0 then None else Some (ev_camera_id e);
     tr_type := Some (ev_type e); tr_subtype := ev_subtype e; tr_score := ev_score e;
     tr_classes := if is_object && truthy_str (ev_subtype e) then [default ""%string (ev_subtype e)] else [];
     tr_zone := None; tr_ts := Some (ev_start_ts e / 1000);
     tr_event_id := if ev_id e =? 0 then None else Some (ev_id e);
     tr_snapshot_path := None; tr_region := JNull;
     tr_identity_id := digit_id (jget "identity_id" raw); tr_identity_name := jget "identity" raw;
     tr_device_id := JNull; tr_context := [] |}.

Definition plain_trigger (trigger_type : string) (type : option string) (camera_id : option Z) (now : Z) (device_id : json)
    (context : list (string * json)) : TriggerEvent :=
  {| tr_trigger_type := trigger_type; tr_camera_id := camera_id; tr_type := type; tr_subtype := None; tr_score := None;
     tr_classes := []; tr_zone := None; tr_ts := Some (now / 1000); tr_event_id := None; tr_snapshot_path := None;
     tr_region := JNull; tr_identity_id := None; tr_identity_name := JNull; tr_device_id := device_id;
     tr_context := context |}.

Definition from_system_event (event_type : string) (camera_id : option Z) (attrs : list (string * json)) (now : Z) : TriggerEvent :=
  plain_trigger "system_event" (Some event_type) camera_id now (jget "device_id" attrs) attrs.
Definition from_incoming (body query : list (string * json)) (now : Z) : TriggerEvent :=
  plain_trigger "incoming_webhook" (Some "incoming_webhook"%string) None now JNull [("body"%string, JObj body); ("query"%string, JObj query)].
Definition from_manual (camera_id : option Z) (context : list (string * json)) (now : Z) : TriggerEvent :=
  plain_trigger "manual" None camera_id now JNull context.
Definition from_schedule (camera_id : option Z) (now : Z) : TriggerEvent :=
  plain_trigger "schedule" None camera_id now JNull [].

(** ** Graphs (model/flow.py) *)

Record FNode := { nd_id : string; nd_type : string; nd_data : list (string * json) }.
Record FEdge := { fe_source : string; fe_handle : option string; fe_target : string }.
Record Graph := { g_nodes : list FNode; g_edges : list FEdge }.

Definition ACTION_NODE_TYPES : list string :=
  ["webhook"; "push"; "email"; "sms"; "record"; "camera_enable"; "camera_disable"; "speaker"; "io"]%string.
Definition NODE_TYPES : list string := ["trigger"; "condition"; "delay"]%string ++ ACTION_NODE_TYPES.
Definition MAX_NODES : nat := 100.
Definition MAX_EDGES : nat := 300.
Definition MAX_STEPS : nat := 100.

Definition node_handles (type : string) : list string :=
  if bool_decide (type = "trigger"%string) then ["out"%string]
  else if bool_decide (type = "condition"%string) then ["true"; "false"]%string
  else ["ok"; "err"]%string.

Record Flow := {
  fl_id : Z;
  fl_enabled : bool;
  fl_graph : Graph;
  fl_cooldown_s : Z;
  fl_incoming_token : option string;
  fl_last_run_ts : option Z;
  fl_deleted_at : option Z
}.

Definition trigger_nodes (f : Flow) : list FNode :=
  List.filter (fun n => bool_decide (nd_type n = "trigger"%string)) (g_nodes (fl_graph f)).

Definition find_node (id : string) (l : list FNode) : option FNode :=
  List.find (fun n => bool_decide (nd_id n = id)) (rev l).    (* a later duplicate overwrites *)

(** ** Saving a graph: validate_graph *)

Definition OPS : list string := ["eq"; "ne"; "gt"; "gte"; "lt"; "lte"; "in"; "not_in"]%string.

(** a condition's clauses must be objects with a known operator *)
Definition clauses_ok (n : FNode) : bool :=
  let cl := jget "clauses" (nd_data n) in
  if negb (truthy cl) then true else
  match iter cl with
  | None => false
  | Some l => forallb (fun c => match c with
                                | JObj kvs => match jget "op" kvs with JStr op => bool_decide (op ∈ OPS) | _ => false end
                                | _ => false
                                end) l
  end.

Fixpoint nodes_ok (seen : list string) (l : list FNode) : bool :=
  match l with
  | [] => true
  | n :: r =>
      negb (bool_decide (nd_id n = EmptyString)) && negb (bool_decide (nd_id n ∈ seen)) &&
      bool_decide (nd_type n ∈ NODE_TYPES) &&
      (negb (bool_decide (nd_type n = "condition"%string)) || clauses_ok n) &&
      nodes_ok (nd_id n :: seen) r
  end.

Definition edge_ok (nodes : list FNode) (e : FEdge) : bool :=
  match find_node (fe_source e) nodes, find_node (fe_target e) nodes with
  | Some s, Some t =>
      negb (bool_decide (nd_type t = "trigger"%string)) &&
      match fe_handle e with None => true | Some h => bool_decide (h ∈ node_handles (nd_type s)) end
  | _, _ => false
  end.

(** [true]: saved; [false]: InvalidParameterException *)
Definition validate_graph (g : Graph) : bool :=
  (length (g_nodes g) <=? MAX_NODES)%nat && (length (g_edges g) <=? MAX_EDGES)%nat &&
  nodes_ok [] (g_nodes g) &&
  existsb (fun n => bool_decide (nd_type n = "trigger"%string)) (g_nodes g) &&
  forallb (edge_ok (g_nodes g)) (g_edges g).

(** ** Templates *)

Definition is_name_char (c : Ascii.ascii) : bool :=
  let n := Ascii.nat_of_ascii c in
  is_digit c || ((65 <=? n) && (n <=? 90) || (97 <=? n) && (n <=? 122) || (n =? 95) || (n =? 46) || (n =? 45))%nat.

Fixpoint take_name (s : string) : string * string :=
  match s with
  | String c r => if is_name_char c then let '(p, q) := take_name r in (String c p, q) else (EmptyString, s)
  | EmptyString => (EmptyString, s)
  end.

Definition drop2 (code : nat) (s : string) : option string :=
  match s with
  | String c (String d r) =>
      if ((Ascii.nat_of_ascii c =? code) && (Ascii.nat_of_ascii d =? code))%nat then Some r else None
  | _ => None
  end.

(** [{{\s*([A-Za-z0-9_.\-]+)\s*}}] at the head of [s]: the path and what follows *)
Definition match_tpl (s : string) : option (string * string) :=
  match drop2 123 s with
  | None => None
  | Some r =>
      let '(p, r2) := take_name (lstrip r) in
      if bool_decide (p = EmptyString) then None
      else match drop2 125 (lstrip r2) with Some rest => Some (p, rest) | None => None end
  end.

(** [_lookup]: walk the dots through objects *)
Definition lookup_path (path : string) (ctx : json) : json :=
  foldl (fun cur part => match cur with JObj kvs => jget part kvs | _ => JNull end) ctx
    (split_on (Ascii.ascii_of_nat 46) path).

Section Templates.
Context (repr_float : Q -> string).

(** [_TPL.sub]; [skip]: characters of a match still to drop *)
Fixpoint subst_tpl (ctx : json) (skip : nat) (s : string) : string :=
  match s with
  | EmptyString => EmptyString
  | String c r =>
      match skip with
      | S k => subst_tpl ctx k r
      | O => match match_tpl s with
             | Some (p, rest) => fmt repr_float (lookup_path p ctx) +:+ subst_tpl ctx (String.length s - String.length rest - 1) r
             | None => String c (subst_tpl ctx 0 r)
             end
      end
  end.

Fixpoint render (ctx : json) (v : json) : json :=
  match v with
  | JStr s => match match_tpl (strip s) with
              | Some (p, EmptyString) => lookup_path p ctx
              | _ => JStr (subst_tpl ctx 0 s)
              end
  | JObj kvs => JObj (List.map (fun p => (fst p, render ctx (snd p))) kvs)
  | JList l => JList (List.map (render ctx) l)
  | _ => v
  end.
End Templates.

(** ** Conditions (clause.py)

    A raised TypeError that the code does not catch is [None]. *)

Section Engine.
Context (py_float : string -> option Q) (repr_float : Q -> string).

(** [float(v) if v is not None else 0.0]; [None]: TypeError or ValueError *)
Definition clause_num (v : json) : option Q :=
  match v with
  | JNull => Some 0%Q
  | JStr s => py_float s
  | _ => as_number v
  end.

Definition num_cmp (f : comparison -> bool) (a b : json) : bool :=
  match clause_num a, clause_num b with Some x, Some y => f (Qcompare x y) | _, _ => false end.

(** [bool(OPS[op](a, b))] under [except (TypeError, ValueError): False] *)
Definition op_apply (op : string) (a b : json) : bool :=
  if bool_decide (op = "eq"%string) then py_eq a b
  else if bool_decide (op = "ne"%string) then negb (py_eq a b)
  else if bool_decide (op = "gt"%string) then num_cmp (fun c => match c with Gt => true | _ => false end) a b
  else if bool_decide (op = "gte"%string) then num_cmp (fun c => match c with Lt => false | _ => true end) a b
  else if bool_decide (op = "lt"%string) then num_cmp (fun c => match c with Lt => true | _ => false end) a b
  else if bool_decide (op = "lte"%string) then num_cmp (fun c => match c with Gt => false | _ => true end) a b
  else if bool_decide (op = "in"%string) then default false (py_in a b)
  else match py_in a b with Some x => negb x | None => false end.

(** [OPS.get(v)]: the operator name, absent, or a TypeError on an unhashable value *)
Definition get_op (v : json) : option (option string) :=
  if negb (hashable v) then None
  else match v with JStr op => Some (if bool_decide (op ∈ OPS) then Some op else None) | _ => Some None end.

(** [set(classes) & set(value or [])] is non-empty *)
Definition classes_meet (classes : list string) (value : json) : option bool :=
  if negb (truthy value) then Some false else
  match iter value with
  | None => None
  | Some l => if forallb hashable l
              then Some (existsb (fun c => existsb (py_eq (JStr c)) l) classes) else None
  end.

Definition clause_field (field : string) (tr : TriggerEvent) : json :=
  if bool_decide (field = "score"%string) then opt_jint (tr_score tr)
  else if bool_decide (field = "camera_id"%string) then opt_jint (tr_camera_id tr)
  else if bool_decide (field = "type"%string) then opt_jstr (tr_type tr)
  else if bool_decide (field = "subtype"%string) then opt_jstr (tr_subtype tr)
  else if bool_decide (field = "object_class"%string) then opt_jstr (head (tr_classes tr))
  else if bool_decide (field = "identity_id"%string) then opt_jint (tr_identity_id tr)
  else if bool_decide (field = "identity"%string) then tr_identity_name tr
  else if bool_decide (field = "device_id"%string) then tr_device_id tr
  else JNull.

Definition match_clause (cl : list (string * json)) (tr : TriggerEvent) : option bool :=
  match get_op (jget "op" cl) with
  | None => None
  | Some None => Some false
  | Some (Some op) =>
      let value := jget "value" cl in
      let field := jget "field" cl in
      if negb (hashable field) then None else
      if py_eq field (JStr "object_class") && bool_decide (op ∈ ["in"; "not_in"]%string) then
        match classes_meet (tr_classes tr) value with
        | None => None
        | Some hit => Some (if bool_decide (op = "in"%string) then hit else negb hit)
        end
      else Some (op_apply op (match field with JStr f => clause_field f tr | _ => JNull end) value)
  end.

(** one clause: a custom left-hand side, or a trigger field *)
Definition eval_one (cl : json) (tr : TriggerEvent) : option bool :=
  match cl with
  | JObj kvs =>
      if bool_decide (is_Some (assoc "left" kvs)) &&
         (py_eq (jget "field" kvs) JNull || py_eq (jget "field" kvs) (JStr "") || py_eq (jget "field" kvs) (JStr "custom"))
      then match get_op (jget "op" kvs) with
           | None => None
           | Some None => Some false
           | Some (Some op) => Some (op_apply op (jget "left" kvs) (jget "value" kvs))
           end
      else match_clause kvs tr
  | _ => None
  end.

(** [any(hits)] / [all(hits)] over a generator: later clauses are not evaluated *)
Fixpoint any_of (l : list json) (tr : TriggerEvent) : option bool :=
  match l with
  | [] => Some false
  | c :: r => match eval_one c tr with None => None | Some true => Some true | Some false => any_of r tr end
  end.
Fixpoint all_of (l : list json) (tr : TriggerEvent) : option bool :=
  match l with
  | [] => Some true
  | c :: r => match eval_one c tr with None => None | Some false => Some false | Some true => all_of r tr end
  end.

Definition eval_condition (cond : list (string * json)) (tr : TriggerEvent) : option bool :=
  let clauses := jget "clauses" cond in
  if negb (truthy clauses) then Some true else
  match iter clauses with
  | None => None
  | Some l => if py_eq (jget "mode" cond) (JStr "any") then any_of l tr else all_of l tr
  end.

(** ** Which trigger nodes a trigger starts *)

Definition sources_of (n : FNode) : option (list (list (string * json))) :=
  let v := jget "sources" (nd_data n) in
  if negb (truthy v) then Some [] else
  match iter v with
  | None => None
  | Some l => Some (omap (fun s => match s with JObj kvs => Some kvs | _ => None end) l)
  end.

(** [_int_list] *)
Definition int_list (v : json) : option (list Z) :=
  if negb (truthy v) then Some [] else match iter v with None => None | Some l => Some (omap to_int l) end.

(** [x not in xs] for an optional string *)
Definition str_not_in (x : option string) (xs : json) : option bool :=
  match py_in (opt_jstr x) xs with Some b => Some (negb b) | None => None end.

(** [(score or 0) < v] *)
Definition score_below (score : option Z) (v : json) : option bool :=
  match as_number v with
  | Some q => Some (match Qcompare (inject_Z (or_Z score 0)) q with Lt => true | _ => false end)
  | None => None
  end.

Definition source_matches (s : list (string * json)) (tr : TriggerEvent) : option bool :=
  let tt := jget "trigger_type" s in
  if negb (py_eq tt (JStr "event") || py_eq tt (JStr "object") || py_eq tt (JStr "system_event")) then Some false else
  let cams := jget "camera_ids" s in
  match (if truthy cams then
           match int_list cams with
           | None => None
           | Some l => Some (negb match tr_camera_id tr with Some c => bool_decide (c ∈ l) | None => false end)
           end
         else Some false) with
  | None => None
  | Some true => Some false
  | Some false =>
      if py_eq tt (JStr "object") then
        let cls := jget "classes" s in
        match (if truthy cls then match classes_meet (tr_classes tr) cls with None => None | Some b => Some (negb b) end
               else Some false) with
        | None => None
        | Some true => Some false
        | Some false =>
            let mc := jget "min_confidence" s in
            if truthy mc then match score_below (tr_score tr) mc with None => None | Some b => Some (negb b) end
            else Some true
        end
      else
        let types := jget "event_types" s in
        if truthy types then match str_not_in (tr_type tr) types with None => None | Some b => Some (negb b) end
        else Some true
  end.

Fixpoint any_source (l : list (list (string * json))) (tr : TriggerEvent) : option bool :=
  match l with
  | [] => Some false
  | s :: r =>
      if py_eq (jget "trigger_type" s) (JStr (tr_trigger_type tr)) then
        match source_matches s tr with None => None | Some true => Some true | Some false => any_source r tr end
      else any_source r tr
  end.

Definition node_matches (n : FNode) (tr : TriggerEvent) : option bool :=
  match sources_of n with None => None | Some l => any_source l tr end.

Fixpoint filter_opt {A} (f : A -> option bool) (l : list A) : option (list A) :=
  match l with
  | [] => Some []
  | x :: r => match f x with
              | None => None
              | Some b => match filter_opt f r with None => None | Some r' => Some (if b then x :: r' else r') end
              end
  end.

(** ** Running a graph *)

Definition edge_handle (e : FEdge) : option string :=
  if truthy_str (fe_handle e) then fe_handle e else None.

(** [_targets(_out_edges(edges), nid, handle, default)] *)
Definition targets (edges : list FEdge) (nid handle default_ : string) : list string :=
  let from h := omap (fun e =>
    if negb (bool_decide (fe_source e = EmptyString)) && negb (bool_decide (fe_target e = EmptyString)) &&
       bool_decide (fe_source e = nid) && bool_decide (edge_handle e = h)
    then Some (fe_target e) else None) edges in
  from (Some handle) ++ (if bool_decide (handle = default_) then from None else []).

Record NodeResult := {
  nr_node_id : string;
  nr_type : string;
  nr_status : string;
  nr_input : option json;
  nr_output : json;
  nr_error : option string
}.

(** What a node hands back: status, rendered input, output, error, branches *)
Record Exec := { x_status : string; x_input : option json; x_output : json; x_error : option string; x_branches : list string }.

Definition MAX_DELAY_S : Q := inject_Z 60.
Definition MAX_TOTAL_DELAY_S : Q := inject_Z 120.

(** [_num]: anything that is no number is 0 *)
Definition delay_num (v : json) : Q :=
  match v with JNull => 0%Q | _ => default 0%Q (clause_num v) end.

Definition Qmin2 (a b : Q) : Q := if Qle_bool a b then a else b.
Definition Qmax2 (a b : Q) : Q := if Qle_bool a b then b else a.

Context (drivers : string -> list (string * json) -> TriggerEvent -> EventWorld -> (string + list (string * json)) * EventWorld).
Context (live_cameras : list Z).         (* ids Camera.get_by_id finds *)
Context (camera_name : Z -> option string).

Definition falsy_str (v : json) (d : string) : string := match v with JStr s => or_str (Some s) d | _ => d end.

(** [_record]: a fixed-duration manual recording *)
Definition record_node (params : list (string * json)) (tr : TriggerEvent) (w : EventWorld)
    : (string + list (string * json)) * EventWorld :=
  let failed e := inr [("status"%string, JStr "failed"); ("error"%string, JStr e)] in
  let cam := let v := jget "camera_id" params in if truthy v then v else opt_jint (tr_camera_id tr) in
  if negb (truthy cam) then (failed "no_camera"%string, w) else
  match to_int cam with
  | None => (inl "ValueError"%string, w)
  | Some c =>
      if negb (bool_decide (c ∈ live_cameras)) then (inl "RowNotFoundException"%string, w) else
      let dur := jget "duration_s" params in
      match (if truthy dur then to_int dur else Some 60) with
      | None => (inl "ValueError"%string, w)
      | Some d =>
          match manual_start c (Some d) w with
          | (inr r, w') => (inr [("status"%string, JStr "success"); ("recording_id"%string, JStr (pretty (rc_id r)))], w')
          | (inl (InvalidParameterException msg), w') => (failed msg, w')
          | (inl _, w') => (inl "exception"%string, w')
          end
      end
  end.

(** [_execute]; [inl]: the exception's text *)
Definition execute (n : FNode) (tr : TriggerEvent) (ctx : json) (budget : Q) (w : EventWorld)
    : (string + Exec) * Q * EventWorld :=
  let params := match render repr_float ctx (JObj (nd_data n)) with JObj kvs => del_key "label" kvs | _ => [] end in
  if bool_decide (nd_type n = "condition"%string) then
    (match eval_condition params tr with
     | None => inl "TypeError"%string
     | Some hit => inr {| x_status := "success"; x_input := Some (JObj params); x_output := JObj [("result"%string, JBool hit)];
                          x_error := None; x_branches := [if hit then "true" else "false"]%string |}
     end, budget, w)
  else if bool_decide (nd_type n = "delay"%string) then
    let secs := Qmax2 0 (Qmin2 (Qmin2 (delay_num (jget "seconds" params)) MAX_DELAY_S) budget) in
    (inr {| x_status := "success"; x_input := Some (JObj params); x_output := JObj [("slept_s"%string, JFloat secs)];
            x_error := None; x_branches := ["ok"%string] |}, (budget - secs)%Q, w)
  else
    let '(res, w') :=
      if bool_decide (nd_type n = "record"%string) then record_node params tr w
      else if bool_decide (nd_type n ∈ ACTION_NODE_TYPES) then drivers (nd_type n) params tr w
      else (inr [("status"%string, JStr "failed"); ("error"%string, JStr "unknown_node_type")], w) in
    (match res with
     | inl e => inl e
     | inr kvs =>
         let status := falsy_str (jget "status" kvs) "failed" in
         inr {| x_status := status; x_input := Some (JObj params); x_output := JObj kvs;
                x_error := match jget "error" kvs with JStr e => Some e | _ => None end;
                x_branches := [if bool_decide (status = "success"%string) then "ok" else "err"]%string |}
     end, budget, w').

(** [event_payload] and [_trigger_vars] *)
Definition trigger_vars (tr : TriggerEvent) : json :=
  let id_str o := match o with Some z => if z =? 0 then JNull else JStr (pretty z) | None => JNull end in
  JObj ([("type"%string, JStr (or_str (tr_type tr) (tr_trigger_type tr))); ("trigger_type"%string, JStr (tr_trigger_type tr));
         ("camera_id"%string, id_str (tr_camera_id tr)); ("event_id"%string, id_str (tr_event_id tr));
         ("subtype"%string, opt_jstr (tr_subtype tr)); ("score"%string, opt_jint (tr_score tr));
         ("ts"%string, opt_jint (tr_ts tr)); ("classes"%string, JList (JStr <$> tr_classes tr)); ("region"%string, tr_region tr)]
        ++ (if truthy_Z (tr_identity_id tr) || truthy (tr_identity_name tr)
            then [("identity_id"%string, id_str (tr_identity_id tr)); ("identity"%string, tr_identity_name tr)] else [])
        ++ (match tr_context tr with [] => [] | c => [("context"%string, JObj c)] end)
        ++ [("zone"%string, opt_jint (tr_zone tr)); ("snapshot_path"%string, opt_jstr (tr_snapshot_path tr));
            ("camera_name"%string, match tr_camera_id tr with
                                  | Some c => if c =? 0 then JNull else opt_jstr (camera_name c)
                                  | None => JNull end)]).

(** state of the walk *)
Record Walk := {
  wk_results : list NodeResult;
  wk_executed : list string;
  wk_nodes_ctx : list (string * json);      (* ctx['nodes'] *)
  wk_budget : Q;
  wk_world : EventWorld
}.

Definition walk_ctx (tr : TriggerEvent) (k : Walk) : json :=
  JObj [("trigger"%string, trigger_vars tr); ("nodes"%string, JObj (wk_nodes_ctx k))].

(** one node: execute, log, the branches it takes *)
Definition run_node (n : FNode) (tr : TriggerEvent) (k : Walk) : Walk * list string :=
  let '(r, budget, w) := execute n tr (walk_ctx tr k) (wk_budget k) (wk_world k) in
  let x := match r with
           | inr x => x
           | inl e => {| x_status := "failed"; x_input := None; x_output := JNull; x_error := Some e; x_branches := ["err"%string] |}
           end in
  ({| wk_results := wk_results k ++ [{| nr_node_id := nd_id n; nr_type := nd_type n; nr_status := x_status x;
                                        nr_input := x_input x; nr_output := x_output x; nr_error := x_error x |}];
      wk_executed := nd_id n :: wk_executed k;
      wk_nodes_ctx := set_key (nd_id n) (match x_output x with JObj _ => x_output x | v => JObj [("value"%string, v)] end)
                        (wk_nodes_ctx k);
      wk_budget := budget; wk_world := w |}, x_branches x).

(** [while queue and steps < MAX_STEPS]; [fuel] is the steps left *)
Fixpoint walk (fuel : nat) (g : Graph) (tr : TriggerEvent) (queue : list string) (k : Walk) : list string * Walk :=
  match fuel with
  | O => (queue, k)
  | S fuel' =>
      (fix skip (q : list string) : list string * Walk :=
         match q with
         | [] => ([], k)
         | nid :: q' =>
             if bool_decide (nid ∈ wk_executed k) then skip q' else
             match find_node nid (g_nodes g) with
             | None => skip q'
             | Some n =>
                 let '(k', branches) := run_node n tr k in
                 let default_ := if bool_decide (nd_type n = "condition"%string) then "true"%string else "ok"%string in
                 walk fuel' g tr (q' ++ mjoin ((fun h => targets (g_edges g) nid h default_) <$> branches)) k'
             end
         end) queue
  end.

(** the trigger nodes the run starts from *)
Fixpoint start_walk (g : Graph) (tr : TriggerEvent) (starts : list FNode) (queue : list string) (k : Walk) : list string * Walk :=
  match starts with
  | [] => (queue, k)
  | n :: r =>
      if bool_decide (nd_id n ∈ wk_executed k) then start_walk g tr r queue k else
      start_walk g tr r (queue ++ targets (g_edges g) (nd_id n) "out" "out")
        {| wk_results := wk_results k ++ [{| nr_node_id := nd_id n; nr_type := "trigger"; nr_status := "success"; nr_input := None;
                                             nr_output := trigger_vars tr; nr_error := None |}];
           wk_executed := nd_id n :: wk_executed k; wk_nodes_ctx := wk_nodes_ctx k; wk_budget := wk_budget k;
           wk_world := wk_world k |}
  end.

Definition summarize (results : list NodeResult) : string :=
  let st := omap (fun r => if bool_decide (nr_type r = "trigger"%string) then None else Some (nr_status r)) results in
  if forallb (fun s => bool_decide (s = "success"%string)) st then "success"%string
  else if existsb (fun s => bool_decide (s = "success"%string)) st then "partial"%string else "failed"%string.

(** the walk of one run, from fresh state *)
Definition run_graph (g : Graph) (tr : TriggerEvent) (starts : list FNode) (w : EventWorld) : list string * Walk :=
  let '(q, k) := start_walk g tr starts []
                   {| wk_results := []; wk_executed := []; wk_nodes_ctx := []; wk_budget := MAX_TOTAL_DELAY_S; wk_world := w |} in
  walk MAX_STEPS g tr q k.

(** ** Dispatch *)

Record FlowRun := {
  fr_id : Z;
  fr_flow_id : Z;
  fr_trigger_type : string;
  fr_event_id : option Z;
  fr_camera_id : option Z;
  fr_status : string;
  fr_skip_reason : option string;
  fr_node_results : list NodeResult
}.

Record FlowWorld := { fw_ew : EventWorld; fw_flows : list Flow; fw_runs : list FlowRun }.

Definition set_ew (w : EventWorld) (f : FlowWorld) : FlowWorld :=
  {| fw_ew := w; fw_flows := fw_flows f; fw_runs := fw_runs f |}.

Definition add_run (tr : TriggerEvent) (flow_id : Z) (status : string) (skip : option string) (results : list NodeResult)
    (id : Z) (f : FlowWorld) : FlowRun * FlowWorld :=
  let run := {| fr_id := id; fr_flow_id := flow_id; fr_trigger_type := tr_trigger_type tr; fr_event_id := tr_event_id tr;
                fr_camera_id := tr_camera_id tr; fr_status := status; fr_skip_reason := skip; fr_node_results := results |} in
  (run, {| fw_ew := fw_ew f; fw_flows := fw_flows f; fw_runs := fw_runs f ++ [run] |}).

(** [flow.last_run_ts = utcnow()] *)
Definition touch_flow (id now : Z) (f : FlowWorld) : FlowWorld :=
  {| fw_ew := fw_ew f; fw_runs := fw_runs f;
     fw_flows := (fun x => if fl_id x =? id
       then {| fl_id := fl_id x; fl_enabled := fl_enabled x; fl_graph := fl_graph x; fl_cooldown_s := fl_cooldown_s x;
               fl_incoming_token := fl_incoming_token x; fl_last_run_ts := Some now; fl_deleted_at := fl_deleted_at x |}
       else x) <$> fw_flows f |}.

Definition run_flow (flow : Flow) (tr : TriggerEvent) (start_nodes : option (list FNode)) (f : FlowWorld) : FlowRun * FlowWorld :=
  let '(id, w1) := fresh_id (fw_ew f) in
  let f1 := touch_flow (fl_id flow) (ew_now w1) (set_ew w1 f) in
  let '(_, k) := run_graph (fl_graph flow) tr (default (trigger_nodes flow) start_nodes) w1 in
  add_run tr (fl_id flow) (summarize (wk_results k)) None (wk_results k) id (set_ew (wk_world k) f1).

Definition flow_cd_key (flow : Flow) : string := "axp:flow:cd:" +:+ pretty (fl_id flow).

Definition flow_within_cooldown (flow : Flow) (w : EventWorld) : bool :=
  if fl_cooldown_s flow =? 0 then false
  else default false (r_exists (ew_now w) (flow_cd_key flow) (t_redis (ew_store w))).

Definition mark_cooldown (flow : Flow) (w : EventWorld) : EventWorld :=
  if fl_cooldown_s flow =? 0 then w else
  match r_setex (ew_now w) (flow_cd_key flow) (fl_cooldown_s flow) (RText "1") (t_redis (ew_store w)) with
  | Some r => set_store (set_t_redis r (ew_store w)) w
  | None => w
  end.

(** [Flow.active()], by id *)
Definition active_flows (f : FlowWorld) : list Flow :=
  sort_on fl_id (List.filter (fun x => bool_decide (fl_deleted_at x = None) && fl_enabled x) (fw_flows f)).

Fixpoint on_trigger_flows (flows : list Flow) (tr : TriggerEvent) (runs : list FlowRun) (f : FlowWorld)
    : option (list FlowRun) * FlowWorld :=
  match flows with
  | [] => (Some runs, f)
  | flow :: r =>
      match filter_opt (fun n => node_matches n tr) (trigger_nodes flow) with
      | None => (None, f)                              (* TypeError out of the loop *)
      | Some [] => on_trigger_flows r tr runs f
      | Some starts =>
          if flow_within_cooldown flow (fw_ew f) then
            let '(id, w1) := fresh_id (fw_ew f) in
            let '(run, f1) := add_run tr (fl_id flow) "skipped" (Some "cooldown"%string) [] id (set_ew w1 f) in
            on_trigger_flows r tr (runs ++ [run]) f1
          else
            let '(run, f1) := run_flow flow tr (Some starts) (set_ew (mark_cooldown flow (fw_ew f)) f) in
            on_trigger_flows r tr (runs ++ [run]) f1
      end
  end.

Definition on_trigger (tr : TriggerEvent) (f : FlowWorld) : option (list FlowRun) * FlowWorld :=
  on_trigger_flows (active_flows f) tr [] f.

(** ** The outbox consumer *)

Definition MAX_ATTEMPTS : Z := 5.

Definition get_pending (n : nat) (w : EventWorld) : list EventOutbox :=
  limit n (sort_on ob_id (List.filter (fun r => bool_decide (ob_status r = "pending"%string)) (ew_outbox w))).

Definition put_outbox (r : EventOutbox) (w : EventWorld) : EventWorld :=
  set_outbox ((fun x => if ob_id x =? ob_id r then r else x) <$> ew_outbox w) w.

Definition mark_consumed (r : EventOutbox) : EventOutbox :=
  {| ob_id := ob_id r; ob_event := ob_event r; ob_status := "consumed"; ob_attempts := ob_attempts r |}.

Definition mark_failed_attempt (r : EventOutbox) : EventOutbox :=
  let attempts := ob_attempts r + 1 in
  {| ob_id := ob_id r; ob_event := ob_event r;
     ob_status := if MAX_ATTEMPTS <=? attempts then "failed" else ob_status r; ob_attempts := attempts |}.

(** [subscriptions]: external webhook subscriptions; [false]: it raised *)
Context (raw_of : EventOutbox -> list (string * json)) (subscriptions : EventOutbox -> EventWorld -> bool * EventWorld).

Definition consume_row (row : EventOutbox) (f : FlowWorld) : FlowWorld :=
  let '(runs, f1) := on_trigger (from_outbox row (raw_of row)) f in
  let '(ok, w2) := match runs with
                   | None => (false, fw_ew f1)
                   | Some _ => subscriptions row (fw_ew f1)
                   end in
  set_ew (put_outbox (if ok then mark_consumed row else mark_failed_attempt row) w2) f1.

Definition consume (f : FlowWorld) : FlowWorld :=
  foldl (fun f row => consume_row row f) f (get_pending 100 (fw_ew f)).
End Engine.

(** ** Every reached node once

    The branches a logged node took, read off its log entry. *)
Definition branches_of (r : NodeResult) : list string :=
  if bool_decide (nr_type r = "trigger"%string) then ["out"%string]
  else if bool_decide (nr_type r = "condition"%string) then
    match nr_output r with
    | JObj [(_, JBool b)] => [if b then "true" else "false"]%string
    | _ => ["err"%string]
    end
  else if bool_decide (nr_status r = "success"%string) then ["ok"%string] else ["err"%string].

Definition default_branch (r : NodeResult) : string :=
  if bool_decide (nr_type r = "trigger"%string) then "out"
  else if bool_decide (nr_type r = "condition"%string) then "true" else "ok".

(** the nodes a log entry leads to *)
Definition leads_to (g : Graph) (r : NodeResult) (t : string) : Prop :=
  exists h, h ∈ branches_of r /\ t ∈ targets (g_edges g) (nr_node_id r) h (default_branch r).

(** the nodes a run reaches: those it starts from, and those the branches taken at a reached node
    lead to *)
Inductive reached (g : Graph) (starts : list string) (log : list NodeResult) : string -> Prop :=
| reached_start t : t ∈ starts -> reached g starts log t
| reached_edge r t : r ∈ log -> reached g starts log (nr_node_id r) -> leads_to g r t -> reached g starts log t.

Lemma reached_mono g starts log log' t : (forall r, r ∈ log -> r ∈ log') -> reached g starts log t -> reached g starts log' t.
Proof. intros Hl. induction 1; [by apply reached_start|]. eapply reached_edge; eauto. Qed.

Lemma elem_of_targets edges nid h d t :
  t ∈ targets edges nid h d -> exists e, e ∈ edges /\ fe_target e = t.
Proof.
  unfold targets. rewrite elem_of_app. intros [H|H].
  - apply list_elem_of_omap in H as (e & He & H). case_match; naive_solver.
  - case_bool_decide; [|by apply elem_of_nil in H]. apply list_elem_of_omap in H as (e & He & H). case_match; naive_solver.
Qed.

Lemma find_node_elem id l n : find_node id l = Some n -> n ∈ l /\ nd_id n = id.
Proof.
  unfold find_node. intros H%find_some. destruct H as [H%in_rev%list_elem_of_In E%bool_decide_eq_true]. done.
Qed.

Lemma leads_to_node g r t :
  validate_graph g = true -> leads_to g r t ->
  exists n, find_node t (g_nodes g) = Some n /\ nd_type n <> "trigger"%string.
Proof.
  unfold validate_graph. rewrite !andb_true_iff. intros (_ & He) (h & _ & Ht).
  apply elem_of_targets in Ht as (e & Hin & <-). rewrite forallb_forall in He.
  specialize (He e ltac:(by apply list_elem_of_In)). unfold edge_ok in He.
  destruct (find_node (fe_source e) _); [|done]. destruct (find_node (fe_target e) _) as [n|]; [|done].
  exists n. split; [done|]. apply andb_true_iff in He as [Hn _]. apply negb_true_iff, bool_decide_eq_false in Hn. done.
Qed.

Lemma validate_ids g : validate_graph g = true -> NoDup (nd_id <$> g_nodes g) /\ (length (g_nodes g) <= MAX_NODES)%nat /\
  exists n, n ∈ g_nodes g /\ nd_type n = "trigger"%string.
Proof.
  unfold validate_graph. rewrite !andb_true_iff. intros ((((Hl & _) & Hn) & Ht) & _). split_and!.
  - assert (Hgen : forall l seen, nodes_ok seen l = true -> NoDup (nd_id <$> l) /\ forall n, n ∈ l -> nd_id n ∉ seen).
    { induction l as [|n l IH]; intros seen H; [split; [apply NoDup_nil_2|intros ? Hx; by apply elem_of_nil in Hx]|].
      cbn [nodes_ok] in H. rewrite !andb_true_iff in H. destruct H as ((((_ & H2) & _) & _) & H5).
      apply negb_true_iff, bool_decide_eq_false in H2. apply IH in H5 as [H5 H6]. split.
      - cbn. apply NoDup_cons. split; [|done]. intros (x & E & Hx)%list_elem_of_fmap. apply (H6 x Hx). rewrite <- E. by left.
      - intros x [->|Hx]%elem_of_cons; [done|]. specialize (H6 x Hx). set_solver. }
    by apply (Hgen _ []).
  - by apply Nat.leb_le.
  - apply existsb_exists in Ht as (n & Hin%list_elem_of_In & E%bool_decide_eq_true). eauto.
Qed.

Section WalkTheory.
Context (py_float : string -> option Q) (repr_float : Q -> string).
Context (drivers : string -> list (string * json) -> TriggerEvent -> EventWorld -> (string + list (string * json)) * EventWorld).
Context (live_cameras : list Z) (camera_name : Z -> option string).
Notation run_node := (run_node py_float repr_float drivers live_cameras camera_name).
Notation walk := (walk py_float repr_float drivers live_cameras camera_name).

(** Running a node appends one entry for it, whose branches are those returned. *)
Lemma run_node_spec n tr k :
  nd_type n <> "trigger"%string ->
  let '(k', branches) := run_node n tr k in
  exists r, wk_results k' = wk_results k ++ [r] /\ wk_executed k' = nd_id n :: wk_executed k /\
    nr_node_id r = nd_id n /\ nr_type r = nd_type n /\ branches_of r = branches.
Proof.
  intros Hnt. unfold Flow.run_node. destruct (execute _ _ _ _ _ _ _ _ _) as [[x budget] w] eqn:Ex.
  eexists. split; [reflexivity|]. split; [done|]. split; [done|]. split; [done|].
  unfold branches_of. cbn [nr_type nr_output nr_status]. rewrite bool_decide_eq_false_2 by done.
  unfold execute in Ex. case_bool_decide as Hc.
  - destruct (eval_condition _ _ _) as [hit|]; injection Ex as <- _ _; done.
  - destruct x as [e|x]; [done|]. case_bool_decide as Hd.
    + injection Ex as <- _ _. done.
    + destruct (if bool_decide (nd_type n = "record"%string) then _ else _) as [res w']. injection Ex as Ex _ _.
      destruct res as [e|kvs]; [done|]. injection Ex as <-. cbn [x_status x_branches]. by case_bool_decide.
Qed.

(** What the walk keeps true of its queue and log. *)
Record walk_inv (g : Graph) (starts : list string) (q : list string) (k : Walk) : Prop := {
  wi_executed : wk_executed k ≡ₚ nr_node_id <$> wk_results k;
  wi_nodup : NoDup (wk_executed k);
  wi_closed : forall r t, r ∈ wk_results k -> leads_to g r t -> t ∈ wk_executed k \/ t ∈ q;
  wi_queue : forall t, t ∈ q -> exists r, r ∈ wk_results k /\ leads_to g r t;
  wi_sound : forall r, r ∈ wk_results k -> reached g starts (wk_results k) (nr_node_id r);
  wi_types : forall r, r ∈ wk_results k -> exists n, n ∈ g_nodes g /\ nd_id n = nr_node_id r /\ nd_type n = nr_type r
}.

(** non-trigger nodes not run yet *)
Definition left_over (g : Graph) (k : Walk) : nat :=
  length (List.filter (fun n => negb (bool_decide (nd_type n = "trigger"%string)) && negb (bool_decide (nd_id n ∈ wk_executed k)))
            (g_nodes g)).

Lemma left_over_run g n k ids :
  n ∈ g_nodes g -> nd_type n <> "trigger"%string -> nd_id n ∉ wk_executed k -> ids = nd_id n :: wk_executed k ->
  (length (List.filter (fun n => negb (bool_decide (nd_type n = "trigger"%string)) && negb (bool_decide (nd_id n ∈ ids)))
            (g_nodes g)) < left_over g k)%nat.
Proof.
  intros Hn Ht Hne ->. unfold left_over.
  assert (Hle : forall x, negb (bool_decide (nd_id x ∈ nd_id n :: wk_executed k)) = true -> negb (bool_decide (nd_id x ∈ wk_executed k)) = true).
  { intros x. rewrite !negb_true_iff, !bool_decide_eq_false. set_solver. }
  assert (Hmono : forall l, (length (List.filter (fun x => negb (bool_decide (nd_type x = "trigger"%string)) && negb (bool_decide (nd_id x ∈ nd_id n :: wk_executed k))) l)
    <= length (List.filter (fun x => negb (bool_decide (nd_type x = "trigger"%string)) && negb (bool_decide (nd_id x ∈ wk_executed k))) l))%nat).
  { induction l as [|x l IH]; [done|]. cbn [List.filter]. specialize (Hle x).
    destruct (negb (bool_decide (nd_type x = "trigger"%string))); cbn [andb]; [|done].
    destruct (negb (bool_decide (nd_id x ∈ nd_id n :: wk_executed k))); [rewrite Hle by done; cbn; lia|].
    destruct (negb (bool_decide (nd_id x ∈ wk_executed k))); cbn; lia. }
  induction (g_nodes g) as [|x l IH]; [by apply elem_of_nil in Hn|]. cbn [List.filter]. specialize (Hmono l).
  apply elem_of_cons in Hn as [<-|Hn].
  - rewrite (bool_decide_eq_false_2 (nd_type n = _)) by done.
    rewrite (bool_decide_eq_true_2 (nd_id n ∈ nd_id n :: _)) by by left.
    rewrite (bool_decide_eq_false_2 (nd_id n ∈ wk_executed k)) by done. cbn. lia.
  - specialize (IH Hn). specialize (Hle x).
    destruct (negb (bool_decide (nd_type x = "trigger"%string))); cbn [andb]; [|done].
    destruct (negb (bool_decide (nd_id x ∈ nd_id n :: wk_executed k))); [rewrite Hle by done; cbn; lia|].
    destruct (negb (bool_decide (nd_id x ∈ wk_executed k))); cbn; lia.
Qed.

Lemma walk_inv_run g S0 nid q n tr k :
  walk_inv g S0 (nid :: q) k -> nid ∉ wk_executed k -> find_node nid (g_nodes g) = Some n -> nd_type n <> "trigger"%string ->
  let '(k', branches) := run_node n tr k in
  let d := if bool_decide (nd_type n = "condition"%string) then "true"%string else "ok"%string in
  walk_inv g S0 (q ++ mjoin ((fun h => targets (g_edges g) nid h d) <$> branches)) k' /\
  wk_executed k' = nid :: wk_executed k.
Proof.
  intros [He Hn Hc Hq Hs Hty] Hne Hf Ht. apply find_node_elem in Hf as [Hin <-].
  pose proof (run_node_spec n tr k Ht) as Hr. destruct (run_node n tr k) as [k' branches].
  destruct Hr as (r & Er & Ex & Hid & Hrt & Hb).
  set (d := if bool_decide _ then _ else _).
  assert (Hlead : forall t, leads_to g r t <-> t ∈ mjoin ((fun h => targets (g_edges g) (nd_id n) h d) <$> branches)).
  { intros t. unfold leads_to. rewrite Hb, Hid. assert (default_branch r = d) as ->
      by (unfold default_branch; by rewrite Hrt, bool_decide_eq_false_2). rewrite list_elem_of_join. split.
    - intros (h & Hh & Hin'). eexists. split; [exact Hin'|]. apply list_elem_of_fmap. by exists h.
    - intros (l & Hl & (h & -> & Hh)%list_elem_of_fmap). eauto. }
  split; [|done]. split; rewrite ?Er, ?Ex.
  - rewrite fmap_app, He. cbn. rewrite Hid. by rewrite Permutation_app_comm.
  - by apply NoDup_cons.
  - intros r' t [Hr'| ->%list_elem_of_singleton]%elem_of_app Hl.
    + destruct (Hc r' t Hr' Hl) as [H|[->|H]%elem_of_cons]; [left; by right|left; by left|right; apply elem_of_app; by left].
    + right. apply elem_of_app. right. by apply Hlead.
  - intros t [Ht'|Ht']%elem_of_app.
    + destruct (Hq t ltac:(by right)) as (r' & Hr' & Hl). exists r'. split; [apply elem_of_app; by left|done].
    + exists r. split; [apply elem_of_app; right; by left|by apply Hlead].
  - assert (Hm : forall x, x ∈ wk_results k -> x ∈ wk_results k ++ [r]) by (intros; apply elem_of_app; by left).
    intros r' [Hr'| ->%list_elem_of_singleton]%elem_of_app; [by eapply reached_mono; [|apply Hs]|].
    destruct (Hq (nd_id n) ltac:(by left)) as (r' & Hr' & Hl). rewrite Hid. eapply reached_edge; [by apply Hm|by eapply reached_mono; [|apply Hs]|done].
  - intros r' [Hr'| ->%list_elem_of_singleton]%elem_of_app; [by apply Hty|]. exists n. by rewrite Hid, Hrt.
Qed.

Lemma walk_inv_skip g S0 nid q k : walk_inv g S0 (nid :: q) k -> nid ∈ wk_executed k -> walk_inv g S0 q k.
Proof.
  intros [He Hn Hc Hq Hs Hty] Hex. split; try done.
  - intros r t Hr Hl. destruct (Hc r t Hr Hl) as [H|[->|H]%elem_of_cons]; [by left|by left|by right].
  - intros t Ht. apply Hq. by right.
Qed.

(** With more steps than nodes left, the walk empties its queue. *)
Lemma walk_complete g S0 tr fuel q k :
  validate_graph g = true -> walk_inv g S0 q k -> (left_over g k < fuel)%nat ->
  exists k', walk fuel g tr q k = ([], k') /\ walk_inv g S0 [] k' /\ wk_executed k ⊆ wk_executed k'.
Proof.
  intros Hv. revert q k. induction fuel as [|fuel IH]; intros q k Hinv Hlt; [lia|]. cbn [Flow.walk].
  induction q as [|nid q IHq]; [eauto|].
  case_bool_decide as Hex; [apply IHq; by eapply walk_inv_skip|].
  destruct (wi_queue _ _ _ _ Hinv nid ltac:(by left)) as (r & _ & Hl).
  destruct (leads_to_node g r nid Hv Hl) as (n & Hf & Ht). rewrite Hf.
  pose proof (walk_inv_run g S0 nid q n tr k Hinv Hex Hf Ht) as Hrun. destruct (run_node n tr k) as [k' branches].
  destruct Hrun as [Hinv' Ex']. enough (exists k'', walk fuel g tr _ k' = ([], k'') /\ walk_inv g S0 [] k'' /\
    wk_executed k' ⊆ wk_executed k'') as (k'' & E & H1 & H2) by (exists k''; split_and!; [exact E|done|]; rewrite Ex' in H2; set_solver).
  apply IH; [done|].
  apply find_node_elem in Hf as [Hin Hid].
  assert (Hlo : (left_over g k' < left_over g k)%nat).
  { apply (left_over_run g n k (wk_executed k') Hin Ht); [by rewrite Hid|by rewrite Hid]. }
  lia.
Qed.

Notation start_walk := (start_walk camera_name).
Notation run_graph := (run_graph py_float repr_float drivers live_cameras camera_name).

Definition is_start (g : Graph) (n : FNode) : Prop := n ∈ g_nodes g /\ nd_type n = "trigger"%string.

Lemma start_walk_inv g S0 tr starts q k :
  (forall n, n ∈ starts -> nd_id n ∈ S0) -> (forall n, n ∈ starts -> is_start g n) -> walk_inv g S0 q k ->
  let '(q', k') := start_walk g tr starts q k in
  walk_inv g S0 q' k' /\ wk_executed k ⊆ wk_executed k' /\ (forall n, n ∈ starts -> nd_id n ∈ wk_executed k').
Proof.
  revert q k. induction starts as [|n starts IH]; intros q k HS Hst Hinv; cbn [Flow.start_walk].
  { split_and!; [done|done|]. intros n Hn. by apply elem_of_nil in Hn. }
  assert (Hst' : forall n, n ∈ starts -> is_start g n) by (intros; apply Hst; by right).
  assert (HS' : forall n, n ∈ starts -> nd_id n ∈ S0) by (intros; apply HS; by right).
  case_bool_decide as Hex.
  - specialize (IH q k HS' Hst' Hinv). destruct (start_walk g tr starts q k) as [q' k']. destruct IH as (H1 & H2 & H3).
    split_and!; [done|done|]. intros x [->|Hx]%elem_of_cons; [by apply H2|by apply H3].
  - set (r := {| nr_node_id := nd_id n; nr_type := "trigger"; nr_status := "success"; nr_input := None;
                 nr_output := trigger_vars camera_name tr; nr_error := None |}).
    set (k1 := {| wk_results := wk_results k ++ [r]; wk_executed := nd_id n :: wk_executed k; wk_nodes_ctx := wk_nodes_ctx k;
                  wk_budget := wk_budget k; wk_world := wk_world k |}).
    assert (Hlead : forall t, leads_to g r t <-> t ∈ targets (g_edges g) (nd_id n) "out" "out").
    { intros t. unfold leads_to. split; [by intros (h & ->%list_elem_of_singleton & H)|].
      intros H. exists "out"%string. split; [by apply list_elem_of_singleton|done]. }
    assert (Hinv1 : walk_inv g S0 (q ++ targets (g_edges g) (nd_id n) "out" "out") k1).
    { destruct Hinv as [He Hn Hc Hq Hs Hty]. split; cbn [wk_executed wk_results k1].
      - rewrite fmap_app, He. cbn. by rewrite Permutation_app_comm.
      - by apply NoDup_cons.
      - intros r' t [Hr'| ->%list_elem_of_singleton]%elem_of_app Hl.
        + destruct (Hc r' t Hr' Hl); [left; by right|right; apply elem_of_app; by left].
        + right. apply elem_of_app. right. by apply Hlead.
      - intros t [Ht'|Ht']%elem_of_app.
        + destruct (Hq t Ht') as (r' & Hr' & Hl). exists r'. split; [apply elem_of_app; by left|done].
        + exists r. split; [apply elem_of_app; right; by left|by apply Hlead].
      - intros r' [Hr'| ->%list_elem_of_singleton]%elem_of_app; [|by apply reached_start, HS; left].
        eapply reached_mono; [|by apply Hs]. intros; apply elem_of_app; by left.
      - intros r' [Hr'| ->%list_elem_of_singleton]%elem_of_app; [by apply Hty|].
        destruct (Hst n ltac:(by left)) as [Hin Ht]. by exists n. }
    specialize (IH _ k1 HS' Hst' Hinv1).
    destruct (start_walk g tr starts (q ++ targets (g_edges g) (nd_id n) "out" "out") k1) as [q' k'].
    destruct IH as (H1 & H2 & H3). split_and!; [done|set_solver|].
    intros x [->|Hx]%elem_of_cons; [apply H2; by left|by apply H3].
Qed.

Lemma left_over_bound g k : validate_graph g = true -> (left_over g k < MAX_STEPS)%nat.
Proof.
  intros Hv. apply validate_ids in Hv as (_ & Hl & n & Hn & Ht). unfold left_over.
  enough (length (List.filter (fun n => negb (bool_decide (nd_type n = "trigger"%string)) &&
      negb (bool_decide (nd_id n ∈ wk_executed k))) (g_nodes g)) < length (g_nodes g))%nat by (unfold MAX_STEPS, MAX_NODES in *; lia).
  clear Hl. assert (Hle : forall f (l : list FNode), (length (List.filter f l) <= length l)%nat).
  { intros f. induction l as [|x l IH]; cbn; [done|]. destruct (f x); cbn; lia. }
  induction (g_nodes g) as [|x l IH]; [by apply elem_of_nil in Hn|]. cbn [List.filter].
  apply elem_of_cons in Hn as [<-|Hn].
  - rewrite bool_decide_eq_true_2 by done. cbn [negb andb length]. specialize (Hle (fun n => negb (bool_decide (nd_type n = "trigger"%string)) &&
      negb (bool_decide (nd_id n ∈ wk_executed k))) l). lia.
  - specialize (IH Hn). destruct (_ && _); cbn [length]; lia.
Qed.

Lemma run_graph_spec g tr starts w :
  validate_graph g = true -> (forall n, n ∈ starts -> is_start g n) ->
  exists k, run_graph g tr starts w = ([], k) /\ walk_inv g (nd_id <$> starts) [] k /\ (forall n, n ∈ starts -> nd_id n ∈ wk_executed k).
Proof.
  intros Hv Hst. unfold Flow.run_graph. set (k0 := {| wk_results := []; wk_executed := [] |}).
  assert (Hinv0 : walk_inv g (nd_id <$> starts) [] k0).
  { split; cbn [wk_executed wk_results k0]; [done|apply NoDup_nil_2|..].
    - intros r t H. by apply elem_of_nil in H.
    - intros t H. by apply elem_of_nil in H.
    - intros r H. by apply elem_of_nil in H.
    - intros r H. by apply elem_of_nil in H. }
  pose proof (start_walk_inv g (nd_id <$> starts) tr starts [] k0 (fun n => list_elem_of_fmap_2 nd_id starts n) Hst Hinv0) as Hs.
  destruct (start_walk g tr starts [] k0) as [q k]. destruct Hs as (Hinv & _ & Hin).
  destruct (walk_complete g (nd_id <$> starts) tr MAX_STEPS q k Hv Hinv (left_over_bound g k Hv)) as (k' & E & Hinv' & Hsub).
  exists k'. split_and!; [exact E|done|]. intros n Hn. by apply Hsub, Hin.
Qed.

(** ** Delays *)

(** the seconds a log entry slept *)
Definition slept (r : NodeResult) : Q :=
  if bool_decide (nr_type r = "delay"%string) then match nr_output r with JObj [(_, JFloat q)] => q | _ => 0%Q end else 0%Q.

Definition total_slept (l : list NodeResult) : Q := foldr (fun r s => slept r + s)%Q 0%Q l.

Lemma total_slept_app l1 l2 : (total_slept (l1 ++ l2) == total_slept l1 + total_slept l2)%Q.
Proof.
  induction l1 as [|r l1 IH].
  - change (total_slept ([] ++ l2)) with (total_slept l2). change (total_slept []) with 0%Q. lra.
  - change (total_slept ((r :: l1) ++ l2)) with (slept r + total_slept (l1 ++ l2))%Q.
    change (total_slept (r :: l1)) with (slept r + total_slept l1)%Q. rewrite IH. lra.
Qed.

Lemma total_slept_one r : (total_slept [r] == slept r)%Q.
Proof. change (total_slept [r]) with (slept r + 0)%Q. lra. Qed.

Definition budget_inv (k : Walk) : Prop :=
  (0 <= wk_budget k)%Q /\ (total_slept (wk_results k) + wk_budget k == MAX_TOTAL_DELAY_S)%Q.

Lemma run_node_budget n tr k : budget_inv k -> budget_inv (fst (run_node n tr k)).
Proof.
  intros [H0 Hs]. unfold Flow.run_node, budget_inv.
  destruct (execute _ _ _ _ _ _ _ _ _) as [[x budget] w] eqn:Ex. cbn [fst wk_budget wk_results].
  rewrite total_slept_app, total_slept_one. unfold execute in Ex. case_bool_decide as Hc; [|case_bool_decide as Hd].
  - injection Ex as <- <- _. unfold slept. cbn [nr_type]. rewrite bool_decide_eq_false_2 by congruence. split; [done|lra].
  - injection Ex as <- <- _. unfold slept. cbn [nr_type nr_output x_output]. rewrite bool_decide_eq_true_2 by done.
    set (a := delay_num _ _). unfold Qmax2, Qmin2. repeat match goal with
      | |- context [Qle_bool ?x ?y] => destruct (Qle_bool x y) eqn:?
      end; repeat match goal with
      | H : Qle_bool _ _ = true |- _ => apply Qle_bool_iff in H
      end; split; lra.
  - destruct (if bool_decide (nd_type n = "record"%string) then _ else _) as [res w']. injection Ex as _ <- _.
    unfold slept. cbn [nr_type]. rewrite bool_decide_eq_false_2 by done. split; [done|lra].
Qed.

Lemma walk_budget g tr fuel q k : budget_inv k -> budget_inv (snd (walk fuel g tr q k)).
Proof.
  revert q k. induction fuel as [|fuel IH]; intros q k Hb; [done|]. cbn [Flow.walk].
  induction q as [|nid q IHq]; [done|]. case_bool_decide; [done|]. destruct (find_node _ _) as [n|]; [|done].
  pose proof (run_node_budget n tr k Hb) as Hrb. destruct (run_node n tr k) as [k' branches]. by apply IH.
Qed.

Lemma start_walk_budget g tr starts q k : budget_inv k -> budget_inv (snd (start_walk g tr starts q k)).
Proof.
  revert q k. induction starts as [|n starts IH]; intros q k Hb; [done|]. cbn [Flow.start_walk].
  case_bool_decide; [by apply IH|]. apply IH. destruct Hb as [H0 Hs]. split; [done|]. cbn [wk_results wk_budget].
  rewrite total_slept_app, total_slept_one. unfold slept. cbn [nr_type]. rewrite bool_decide_eq_false_2 by done. lra.
Qed.
End WalkTheory.

Section FlowClaims.
Context (py_float : string -> option Q) (repr_float : Q -> string).
Context (drivers : string -> list (string * json) -> TriggerEvent -> EventWorld -> (string + list (string * json)) * EventWorld).
Context (live_cameras : list Z) (camera_name : Z -> option string).

(** C4: a run of a saved graph, started from trigger nodes, is never cut short: its
    queue is empty when it ends, whatever the drivers answer.  No node runs twice, and the nodes
    that ran are exactly those reached: the nodes it was started from, and from a reached node
    those its log entry's branches lead to, and so on. *)
Theorem flow_runs_each_reached_node_once g tr starts w :
  validate_graph g = true -> (forall n, n ∈ starts -> is_start g n) ->
  let '(queue, k) := run_graph py_float repr_float drivers live_cameras camera_name g tr starts w in
  queue = [] /\
  NoDup (nr_node_id <$> wk_results k) /\
  (forall t, t ∈ nr_node_id <$> wk_results k <-> reached g (nd_id <$> starts) (wk_results k) t) /\
  (forall r, r ∈ wk_results k -> exists n, n ∈ g_nodes g /\ nd_id n = nr_node_id r /\ nd_type n = nr_type r).
Proof.
  intros Hv Hst. destruct (run_graph_spec py_float repr_float drivers live_cameras camera_name g tr starts w Hv Hst)
    as (k & E & [He Hn Hc _ Hs Hty] & Hin). rewrite E.
  split_and!; [done|by rewrite <- He| |done]. intros t. split.
  - intros (r & -> & Hr)%list_elem_of_fmap. by apply Hs.
  - rewrite <- He. induction 1 as [t (n & -> & Hn')%list_elem_of_fmap|r t Hr _ _ Hl]; [by apply Hin|].
    by destruct (Hc r t Hr Hl) as [?|?%elem_of_nil].
Qed.

(** However many delay nodes a run chains and whatever they ask for, the run sleeps at
    most [MAX_TOTAL_DELAY_S] seconds in all. *)
Theorem flow_delays_bounded g tr starts w :
  (0 <= wk_budget (snd (run_graph py_float repr_float drivers live_cameras camera_name g tr starts w)) /\
   total_slept (wk_results (snd (run_graph py_float repr_float drivers live_cameras camera_name g tr starts w)))
     <= MAX_TOTAL_DELAY_S)%Q.
Proof.
  assert (budget_inv (snd (run_graph py_float repr_float drivers live_cameras camera_name g tr starts w))) as [H0 Hs].
  { unfold run_graph. pose proof (start_walk_budget camera_name g tr starts [] {| wk_results := []; wk_executed := [];
      wk_nodes_ctx := []; wk_budget := MAX_TOTAL_DELAY_S; wk_world := w |} ltac:(split; [done|cbn; lra])) as Hb.
    destruct (start_walk camera_name g tr starts [] _) as [q k]. by apply walk_budget. }
  split; [done|]. lra.
Qed.
End FlowClaims.

(** ** Witnesses *)

Local Open Scope string_scope.

(** trigger → condition → delay → webhook → back to the condition *)
Definition demo_graph : Graph :=
  {| g_nodes := [{| nd_id := "t"; nd_type := "trigger"; nd_data := [("sources", JList [JObj [("trigger_type", JStr "event")]])] |};
                 {| nd_id := "c"; nd_type := "condition";
                    nd_data := [("clauses", JList [JObj [("field", JStr "type"); ("op", JStr "eq"); ("value", JStr "motion")]])] |};
                 {| nd_id := "d"; nd_type := "delay"; nd_data := [("seconds", JInt 600)] |};
                 {| nd_id := "w"; nd_type := "webhook"; nd_data := [("url", JStr "https://x/{{ trigger.camera_id }}")] |}]%list;
     g_edges := [{| fe_source := "t"; fe_handle := None; fe_target := "c" |};
                 {| fe_source := "c"; fe_handle := Some "true"; fe_target := "d" |};
                 {| fe_source := "d"; fe_handle := Some "ok"; fe_target := "w" |};
                 {| fe_source := "w"; fe_handle := None; fe_target := "c" |}]%list |}.

Definition demo_drivers (type : string) (params : list (string * json)) (tr : TriggerEvent) (w : EventWorld)
    : (string + list (string * json)) * EventWorld := (inr [("status", JStr "success"); ("url", jget "url" params)]%list, w).

Definition demo_trigger : TriggerEvent :=
  plain_trigger "event" (Some "motion") (Some 7) 0 JNull []%list.

Definition demo_walk : list string * Walk :=
  run_graph (fun _ => None) (fun _ => "") demo_drivers [1]%list (fun _ => None) demo_graph demo_trigger
    (List.filter (fun n => bool_decide (nd_type n = "trigger")) (g_nodes demo_graph)) demo_ew.

Lemma flow_runs_each_reached_node_once_witness :
  nr_node_id <$> wk_results (snd demo_walk) = ["t"; "c"; "d"; "w"]%list /\
  (nr_output <$> last (wk_results (snd demo_walk))) = Some (JObj [("status", JStr "success"); ("url", JStr "https://x/7")]%list) /\
  fst demo_walk = []%list.
Proof.
  split; [vm_compute; reflexivity|]. split; [vm_compute; reflexivity|].
  pose proof (flow_runs_each_reached_node_once (fun _ => None) (fun _ => "") demo_drivers [1]%list (fun _ => None)
    demo_graph demo_trigger (List.filter (fun n => bool_decide (nd_type n = "trigger")) (g_nodes demo_graph)) demo_ew) as H.
  fold demo_walk in H. destruct demo_walk as [q k]. apply H; [vm_compute; reflexivity|].
  intros n Hn. apply elem_of_filter_In in Hn as [Hn Ht%bool_decide_eq_true]. done.
Defined.

(** ** A malformed source *)

Definition poison_flow : Flow :=
  {| fl_id := 1; fl_enabled := true; fl_cooldown_s := 0; fl_incoming_token := None; fl_last_run_ts := None; fl_deleted_at := None;
     fl_graph := {| g_nodes := [{| nd_id := "t"; nd_type := "trigger";
        nd_data := [("sources", JList [JObj [("trigger_type", JStr "event"); ("camera_ids", JInt 7)]])] |}]%list; g_edges := [] |} |}.

Definition poison_world (other : list Flow) : FlowWorld :=
  {| fw_ew := snd (process kst 1 (demo_event "pulse") "isapi" demo_ew); fw_flows := poison_flow :: other; fw_runs := [] |}.

(** A graph whose trigger source gives [camera_ids] as a number is accepted on
    save; every event then makes matching raise before any later flow or webhook
    subscription is served, and after [MAX_ATTEMPTS] tries the outbox row is
    marked failed. *)
Theorem malformed_source_fails_every_event py_float repr_float drivers live_cameras camera_name raw_of subscriptions :
  let consume_ := consume py_float repr_float drivers live_cameras camera_name raw_of subscriptions in
  validate_graph (fl_graph poison_flow) = true /\
  (ob_status <$> ew_outbox (fw_ew (poison_world []))) = ["pending"]%list /\
  (ob_status <$> ew_outbox (fw_ew (Nat.iter 5 consume_ (poison_world [])))) = ["failed"]%list /\
  fw_runs (Nat.iter 5 consume_ (poison_world [])) = []%list.
Proof. split_and!; vm_compute; reflexivity. Qed.
