(* ===== verification/Cron.v ===== *)
(** * Cron expressions and the schedule trigger

    src/server/util/cron.py; tick_schedules of service/flow_engine.py, started every
    minute by task/list/schedule_trigger.py with the current KST time.

    [cron_match] catches every ValueError and AttributeError, so an expression it
    cannot read never matches.  The reference semantics is on structured expressions:
    the theorem says that writing one down and matching the text is matching it. *)

From stdpp Require Import pretty.
From Stdlib Require Import Ascii.
From S2P Require Import Prelude PyStr Redis Storage EventPipeline Json Flow.
Local Open Scope Z_scope.
Local Open Scope list_scope.

(** the fields of a datetime the matcher reads *)
Record DateTime := { d_minute : Z; d_hour : Z; d_day : Z; d_month : Z; d_isoweekday : Z }.

Definition RANGES : list (Z * Z) := [(0, 59); (0, 23); (1, 31); (1, 12); (0, 7)].

(** [range(a, b, step)]; [None]: ValueError *)
Definition py_range (a b step : Z) : option (list Z) :=
  if step =? 0 then None else
  let n := if 0 <? step then (b - a + step - 1) / step else (a - b - step - 1) / - step in
  Some ((fun k => a + k * step) <$> seqZ 0 n).

(** the values of one comma-separated part *)
Definition part_set (part : string) (lo hi : Z) : option (list Z) :=
  match match split_once "/" part with
        | Some (p, s) => (fun n => (p, n)) <$> py_int s
        | None => Some (part, 1)
        end with
  | None => None
  | Some (p, step) =>
      match (if bool_decide (p = "*"%string) then Some (lo, hi)
             else match split_once "-" p with
                  | Some (a, b) => match py_int a, py_int b with Some x, Some y => Some (x, y) | _, _ => None end
                  | None => (fun n => (n, n)) <$> py_int p
                  end) with
      | None => None
      | Some (start, end_) => py_range start (end_ + 1) step
      end
  end.

Fixpoint field_parts (parts : list string) (lo hi : Z) : option (list Z) :=
  match parts with
  | [] => Some []
  | p :: r => match part_set p lo hi with
              | None => None
              | Some vs => match field_parts r lo hi with Some ws => Some (vs ++ ws) | None => None end
              end
  end.

Definition field_set (field : string) (lo hi : Z) : option (list Z) := field_parts (split_on "," field) lo hi.

Definition values (dt : DateTime) : list Z :=
  [d_minute dt; d_hour dt; d_day dt; d_month dt; d_isoweekday dt mod 7].

(** the loop over fields, values and ranges; field 4 reads 7 as Sunday *)
Fixpoint match_fields (i : nat) (fields : list string) (vals : list Z) (ranges : list (Z * Z)) : bool :=
  match fields, vals, ranges with
  | f :: fs, v :: vs, (lo, hi) :: rs =>
      match field_set f lo hi with
      | None => false
      | Some allowed =>
          let allowed := if bool_decide (i = 4%nat) && bool_decide (7 ∈ allowed) then 0 :: allowed else allowed in
          if bool_decide (v ∈ allowed) then match_fields (S i) fs vs rs else false
      end
  | _, _, _ => true
  end.

Definition cron_match (expr : json) (dt : DateTime) : bool :=
  match expr with
  | JStr s => let fields := words s in
              if bool_decide (length fields = 5%nat) then match_fields 0 fields (values dt) RANGES else false
  | _ => false                                          (* no [split] *)
  end.

(** ** The beat *)

Section Tick.
Context (py_float : string -> option QArith_base.Q) (repr_float : QArith_base.Q -> string).
Context (drivers : string -> list (string * json) -> TriggerEvent -> EventWorld -> (string + list (string * json)) * EventWorld).
Context (live_cameras : list Z) (camera_name : Z -> option string).

Definition crons_of (sources : list (list (string * json))) : list json :=
  omap (fun s => if py_eq (jget "trigger_type" s) (JStr "schedule") && truthy (jget "cron" s) then Some (jget "cron" s) else None) sources.

(** the trigger nodes of one flow; [None]: a TypeError leaves the task *)
Fixpoint tick_nodes (flow : Flow) (nodes : list FNode) (now : DateTime) (fired : Z) (f : FlowWorld) : option Z * FlowWorld :=
  match nodes with
  | [] => (Some fired, f)
  | n :: r =>
      match sources_of n with
      | None => (None, f)
      | Some sources =>
          if existsb (fun c => cron_match c now) (crons_of sources) then
            let '(_, f1) := run_flow py_float repr_float drivers live_cameras camera_name flow
                              (from_schedule None (ew_now (fw_ew f))) (Some [n]) f in
            tick_nodes flow r now (fired + 1) f1
          else tick_nodes flow r now fired f
      end
  end.

Fixpoint tick_flows (flows : list Flow) (now : DateTime) (fired : Z) (f : FlowWorld) : option Z * FlowWorld :=
  match flows with
  | [] => (Some fired, f)
  | flow :: r =>
      match tick_nodes flow (trigger_nodes flow) now fired f with
      | (None, f1) => (None, f1)
      | (Some n, f1) => tick_flows r now n f1
      end
  end.

Definition tick_schedules (now : DateTime) (f : FlowWorld) : option Z * FlowWorld := tick_flows (active_flows f) now 0 f.
End Tick.

(** ** Structured expressions *)

Inductive cron_base := Star | At (n : N) | Range (a b : N).
Record cron_part := { cp_base : cron_base; cp_step : option positive }.
Definition cron_field : Type := cron_part * list cron_part.   (* at least one part *)
Definition parts (f : cron_field) : list cron_part := fst f :: snd f.

Definition render_base (b : cron_base) : string :=
  match b with Star => "*" | At n => pretty (Z.of_N n) | Range a b => pretty (Z.of_N a) +:+ "-" +:+ pretty (Z.of_N b) end.
Definition render_part (p : cron_part) : string :=
  match cp_step p with None => render_base (cp_base p) | Some k => render_base (cp_base p) +:+ "/" +:+ pretty (Z.pos k) end.
Fixpoint join (sep : string) (l : list string) : string :=
  match l with [] => "" | [s] => s | s :: r => s +:+ sep +:+ join sep r end.
Definition render_field (f : cron_field) : string := join "," (render_part <$> parts f).
Definition render (fs : list cron_field) : string := join " " (render_field <$> fs).

(** what a part, a field and an expression mean *)
Definition bounds_of (b : cron_base) (lo hi : Z) : Z * Z :=
  match b with Star => (lo, hi) | At n => (Z.of_N n, Z.of_N n) | Range a b => (Z.of_N a, Z.of_N b) end.
Definition part_has (p : cron_part) (lo hi v : Z) : Prop :=
  let '(a, b) := bounds_of (cp_base p) lo hi in
  a <= v <= b /\ (v - a) mod (match cp_step p with Some k => Z.pos k | None => 1 end) = 0.
Definition field_has (f : cron_field) (lo hi v : Z) : Prop := Exists (fun p => part_has p lo hi v) (parts f).

Definition matches (m h dom mon dow : cron_field) (dt : DateTime) : Prop :=
  let d := d_isoweekday dt mod 7 in
  field_has m 0 59 (d_minute dt) /\ field_has h 0 23 (d_hour dt) /\ field_has dom 1 31 (d_day dt) /\
  field_has mon 1 12 (d_month dt) /\ (field_has dow 0 7 d \/ (d = 0 /\ field_has dow 0 7 7)).

(** ** Reading back what was written *)

Lemma elem_of_py_range a b step l v :
  0 < step -> py_range a b step = Some l -> v ∈ l <-> a <= v < b /\ (v - a) mod step = 0.
Proof.
  intros Hs. unfold py_range. destruct (Z.eqb_spec step 0); [lia|]. destruct (Z.ltb_spec 0 step); [|lia]. intros [= <-].
  rewrite list_elem_of_fmap. split.
  - intros (k & -> & Hk%elem_of_seqZ). pose proof (Z.div_mod (b - a + step - 1) step ltac:(lia)).
    pose proof (Z.mod_pos_bound (b - a + step - 1) step Hs). split; [nia|].
    replace (a + k * step - a) with (k * step) by lia. by apply Z.mod_mul.
  - intros [Hv Hm]. exists ((v - a) / step). pose proof (Z.div_mod (v - a) step ltac:(lia)). split; [lia|].
    apply elem_of_seqZ. pose proof (Z.div_mod (b - a + step - 1) step ltac:(lia)).
    pose proof (Z.mod_pos_bound (b - a + step - 1) step Hs). split; [apply Z.div_pos; lia|nia].
Qed.

Definition free (sep : ascii) (s : string) : bool := all_chars (fun c => negb (bool_decide (c = sep))) s.

Lemma free_app sep a b : free sep (a +:+ b) = free sep a && free sep b.
Proof.
  unfold free. induction a as [|c a IH]; [done|].
  change (String c a +:+ b) with (String c (a +:+ b)). cbn [all_chars]. by rewrite IH, andb_assoc.
Qed.

Lemma free_one sep c : sep <> c -> free sep (String c "") = true.
Proof. intros H. unfold free. cbn [all_chars]. rewrite bool_decide_eq_false_2; [done|congruence]. Qed.

Lemma free_pretty sep (n : N) : is_digit sep = false -> free sep (pretty (Z.of_N n)) = true.
Proof.
  intros H. eapply all_chars_impl; [|apply pretty_N_digits]. intros c Hc. cbn. case_bool_decide; [congruence|done].
Qed.

Lemma split_once_free sep s : free sep s = true -> split_once sep s = None.
Proof.
  induction s as [|c s IH]; [done|]. unfold free. cbn [all_chars split_once]. intros [Hc Hs]%andb_prop.
  destruct (bool_decide (c = sep)); [done|]. by rewrite IH.
Qed.

Lemma app_sep a b : a +:+ "/" +:+ b = a +:+ String "/" b /\ a +:+ "-" +:+ b = a +:+ String "-" b.
Proof. done. Qed.

Lemma render_base_free sep b : is_digit sep = false -> sep <> "*"%char -> sep <> "-"%char ->
  free sep (render_base b) = true.
Proof.
  intros H1 H2 H3. destruct b as [|n|x y]; cbn [render_base]; [|by apply free_pretty|].
  - by rewrite free_one.
  - by rewrite !free_app, !free_pretty, free_one.
Qed.

Lemma render_part_free sep p : is_digit sep = false -> sep <> "*"%char ->
  sep <> "-"%char -> sep <> "/"%char -> free sep (render_part p) = true.
Proof.
  intros H1 H2 H3 H4. unfold render_part. destruct (cp_step p) as [k|]; [|by apply render_base_free].
  rewrite !free_app, render_base_free by done. change (Z.pos k) with (Z.of_N (N.pos k)). by rewrite free_pretty, free_one.
Qed.

Lemma pretty_not_star (n : N) : pretty (Z.of_N n) <> "*"%string.
Proof. intros E. pose proof (pretty_N_digits n) as H. by rewrite E in H. Qed.

(** the bounds a base is read back with *)
Lemma read_base b lo hi :
  (if bool_decide (render_base b = "*"%string) then Some (lo, hi)
   else match split_once "-" (render_base b) with
        | Some (a, c) => match py_int a, py_int c with Some x, Some y => Some (x, y) | _, _ => None end
        | None => (fun n => (n, n)) <$> py_int (render_base b)
        end) = Some (bounds_of b lo hi).
Proof.
  destruct b as [|n|x y]; cbn [render_base bounds_of]; [done| |].
  - rewrite bool_decide_eq_false_2 by apply pretty_not_star.
    rewrite split_once_free by by apply free_pretty. by rewrite py_int_pretty.
  - rewrite bool_decide_eq_false_2.
    + rewrite (proj2 (app_sep _ _)), split_once_at by by apply free_pretty. by rewrite !py_int_pretty.
    + intros E. assert (H : free "-" (pretty (Z.of_N x) +:+ "-" +:+ pretty (Z.of_N y)) = true) by by rewrite E.
      rewrite !free_app in H. cbn in H. by rewrite andb_false_r in H.
Qed.

Lemma read_part p lo hi :
  part_set (render_part p) lo hi =
  py_range (fst (bounds_of (cp_base p) lo hi)) (snd (bounds_of (cp_base p) lo hi) + 1)
    (match cp_step p with Some k => Z.pos k | None => 1 end).
Proof.
  unfold part_set, render_part. destruct (cp_step p) as [k|].
  - rewrite (proj1 (app_sep _ _)), split_once_at by by apply render_base_free. rewrite py_int_pretty. cbn [fmap option_fmap option_map].
    rewrite read_base. by destruct (bounds_of _ _ _).
  - rewrite split_once_free by by apply render_base_free. rewrite read_base. by destruct (bounds_of _ _ _).
Qed.

Lemma part_set_has p lo hi : exists l, part_set (render_part p) lo hi = Some l /\ forall v, v ∈ l <-> part_has p lo hi v.
Proof.
  rewrite read_part. set (k := match cp_step p with Some k => Z.pos k | None => 1 end).
  assert (Hk : 0 < k) by (unfold k; destruct (cp_step p); lia).
  destruct (py_range _ _ k) as [l|] eqn:E; [|unfold py_range in E; destruct (Z.eqb_spec k 0); [lia|done]].
  exists l. split; [done|]. intros v. rewrite (elem_of_py_range _ _ _ _ v Hk E). unfold part_has.
  destruct (bounds_of _ _ _) as [a b]. cbn [fst snd]. fold k. assert (a <= v < b + 1 <-> a <= v <= b) as -> by lia. done.
Qed.

Lemma split_on_join sep l :
  l <> [] -> Forall (fun s => free sep s = true) l -> split_on sep (join (String sep "") l) = l.
Proof.
  assert (H1 : forall s r, free sep s = true -> split_on sep (s +:+ String sep r) = s :: split_on sep r).
  { intros s r. induction s as [|c s IH]; intros Hs.
    - change ("" +:+ String sep r) with (String sep r). cbn [split_on]. by rewrite bool_decide_eq_true_2.
    - unfold free in Hs. cbn [all_chars] in Hs. apply andb_prop in Hs as [Hc Hs].
      change (String c s +:+ String sep r) with (String c (s +:+ String sep r)). cbn [split_on].
      destruct (bool_decide (c = sep)); [done|]. by rewrite IH. }
  assert (H2 : forall s, free sep s = true -> split_on sep s = [s]).
  { intros s. induction s as [|c s IH]; intros Hs; [done|]. unfold free in Hs. cbn [all_chars] in Hs. apply andb_prop in Hs as [Hc Hs].
    cbn [split_on]. destruct (bool_decide (c = sep)); [done|]. by rewrite IH. }
  induction l as [|s l IH]; [done|]. intros _ [Hs Hl]%Forall_cons. destruct l as [|s' l]; [by apply H2|].
  change (join (String sep "") (s :: s' :: l)) with (s +:+ String sep (join (String sep "") (s' :: l))).
  rewrite H1 by done. by rewrite IH.
Qed.

Lemma words_go_word cur s r :
  no_space s = true -> cur +:+ s <> ""%string -> words_go cur (s +:+ String " " r) = (cur +:+ s) :: words_go "" r.
Proof.
  revert cur. induction s as [|c s IH]; intros cur Hs Hc.
  - rewrite string_app_empty_r in *. change ("" +:+ String " " r) with (String " " r). cbn [words_go].
    replace (is_space " ") with true by done. by rewrite bool_decide_eq_false_2.
  - cbn [no_space] in Hs. apply andb_prop in Hs as [Hsp Hs]. change (String c s +:+ String " " r) with (String c (s +:+ String " " r)).
    cbn [words_go]. apply negb_true_iff in Hsp. rewrite Hsp.
    assert (E : cur +:+ String c s = (cur +:+ String c "") +:+ s) by by rewrite <- (string_app_assoc cur).
    rewrite E in *. by apply IH.
Qed.

Lemma words_go_last cur s : no_space s = true -> cur +:+ s <> ""%string -> words_go cur s = [cur +:+ s].
Proof.
  revert cur. induction s as [|c s IH]; intros cur Hs Hc.
  - rewrite string_app_empty_r in *. cbn [words_go]. by rewrite bool_decide_eq_false_2.
  - cbn [no_space] in Hs. apply andb_prop in Hs as [Hsp Hs]. cbn [words_go]. apply negb_true_iff in Hsp. rewrite Hsp.
    assert (E : cur +:+ String c s = (cur +:+ String c "") +:+ s) by by rewrite <- (string_app_assoc cur).
    rewrite E in *. by apply IH.
Qed.

Lemma words_join l : Forall (fun s => no_space s = true /\ s <> ""%string) l -> words (join " " l) = l.
Proof.
  unfold words. induction l as [|s l IH]; [done|]. intros [[Hs Hne] Hl]%Forall_cons. destruct l as [|s' l].
  - cbn [join]. by rewrite words_go_last.
  - change (join " " (s :: s' :: l)) with (s +:+ String " " (join " " (s' :: l))). rewrite words_go_word by done.
    rewrite IH by done. done.
Qed.

(** the characters a field is written with *)
Definition cron_char (c : ascii) : bool := is_digit c || bool_decide (c ∈ ["*"; "-"; "/"; ","]%char).

Lemma cron_chars_number (n : N) : all_chars cron_char (pretty (Z.of_N n)) = true.
Proof. eapply all_chars_impl; [|apply pretty_N_digits]. intros c Hc. unfold cron_char. by rewrite Hc. Qed.

Lemma cron_chars_part p : all_chars cron_char (render_part p) = true.
Proof.
  unfold render_part, render_base. destruct (cp_step p) as [k|]; destruct (cp_base p) as [|n|x y];
    rewrite ?all_chars_app; try change (Z.pos k) with (Z.of_N (N.pos k)); by rewrite ?cron_chars_number.
Qed.

Lemma cron_chars_no_space s : all_chars cron_char s = true -> no_space s = true.
Proof.
  induction s as [|c s IH]; [done|]. cbn [all_chars no_space]. intros [Hc Hs]%andb_prop. rewrite IH by done.
  rewrite andb_true_r. unfold cron_char in Hc. apply orb_prop in Hc as [Hd|Hc%bool_decide_eq_true_1].
  - unfold is_digit, is_space in *. apply andb_prop in Hd as [H1%Nat.leb_le H2%Nat.leb_le].
    rewrite negb_true_iff. repeat rewrite orb_false_iff. repeat rewrite andb_false_iff.
    rewrite ?Nat.eqb_neq, ?Nat.leb_gt. lia.
  - repeat (apply elem_of_cons in Hc as [->|Hc]; [done|]). by apply elem_of_nil in Hc.
Qed.

Lemma join_cons sep a b r : join sep (a :: b :: r) = a +:+ sep +:+ join sep (b :: r).
Proof. done. Qed.

Lemma render_field_word f : no_space (render_field f) = true /\ render_field f <> ""%string.
Proof.
  destruct f as [p ps]. unfold render_field, parts. cbn [fst snd fmap list_fmap].
  assert (Hne : forall p, render_part p <> ""%string).
  { intros [b [k|]]; unfold render_part; destruct b; cbn; try done; try apply pretty_Z_not_empty;
      destruct (pretty_head (Z.of_N n)) as (c & r & -> & _) || destruct (pretty_head (Z.of_N a)) as (c & r & -> & _); done. }
  split.
  - apply cron_chars_no_space. revert p. induction ps as [|q ps IH]; intros p; [apply cron_chars_part|].
    cbn [fmap list_fmap]. rewrite join_cons, !all_chars_app, cron_chars_part. apply IH.
  - destruct ps as [|q ps]; [apply Hne|]. cbn [fmap list_fmap]. rewrite join_cons. specialize (Hne p). by destruct (render_part p).
Qed.

Lemma field_set_has f lo hi : exists l, field_set (render_field f) lo hi = Some l /\ forall v, v ∈ l <-> field_has f lo hi v.
Proof.
  unfold field_set, render_field, field_has. rewrite split_on_join.
  - generalize (parts f). clear f. intros l. induction l as [|p l IH]; [exists []; split; [done|]; intros v; split; [set_solver|by intros ?%Exists_nil]|].
    destruct IH as (ws & E & Hws), (part_set_has p lo hi) as (vs & E' & Hvs). exists (vs ++ ws). cbn [fmap list_fmap field_parts].
    rewrite E', E. split; [done|]. intros v. by rewrite elem_of_app, Exists_cons, Hvs, Hws.
  - by destruct f.
  - apply Forall_fmap, Forall_true. intros p. by apply render_part_free.
Qed.

Lemma match_fields_step i f fs v vs lo hi rs :
  match_fields i (render_field f :: fs) (v :: vs) ((lo, hi) :: rs) = true <->
  (field_has f lo hi v \/ (i = 4%nat /\ v = 0 /\ field_has f lo hi 7)) /\ match_fields (S i) fs vs rs = true.
Proof.
  destruct (field_set_has f lo hi) as (l & E & Hl). cbn [match_fields]. rewrite E.
  assert (Hv : v ∈ (if bool_decide (i = 4%nat) && bool_decide (7 ∈ l) then 0 :: l else l) <->
               field_has f lo hi v \/ (i = 4%nat /\ v = 0 /\ field_has f lo hi 7)).
  { rewrite <- !Hl. destruct (bool_decide (i = 4%nat) && bool_decide (7 ∈ l)) eqn:B.
    - apply andb_prop in B as [B1%bool_decide_eq_true_1 B2%bool_decide_eq_true_1]. rewrite elem_of_cons. tauto.
    - apply andb_false_iff in B as [B%bool_decide_eq_false_1|B%bool_decide_eq_false_1]; tauto. }
  cbv zeta. set (L := if _ && _ then _ else _) in Hv |- *. clearbody L.
  case_bool_decide as B; rewrite Hv in B; [tauto|]. split; [done|tauto].
Qed.

(** C38: The cron matcher decides exactly what the expression says.  An expression of
    five fields, each a non-empty list of "*", a number or a range, with or without a
    step, is written down as text and matched against a time: the matcher answers yes
    just when every field contains its part of the time (lower bound, upper bound and
    step counted from the lower bound), where 0 and 7 both mean Sunday in the last
    field.  Numbers may be of any size and ranges empty. *)
Theorem cron_match_meaning m h dom mon dow dt :
  cron_match (JStr (render [m; h; dom; mon; dow])) dt = true <-> matches m h dom mon dow dt.
Proof.
  unfold cron_match, render. rewrite words_join by (apply Forall_fmap, Forall_true; intros f; apply render_field_word).
  cbn [fmap list_fmap length]. rewrite bool_decide_eq_true_2 by done. unfold values, RANGES, matches.
  rewrite !match_fields_step. cbn [match_fields]. intuition (try discriminate; auto).
Qed.

Example cron_office_hours :
  cron_match (JStr "0 9 * * 1-5") {| d_minute := 0; d_hour := 9; d_day := 8; d_month := 6; d_isoweekday := 1 |} = true /\
  cron_match (JStr "0 9 * * 6,0") {| d_minute := 0; d_hour := 9; d_day := 8; d_month := 6; d_isoweekday := 1 |} = false /\
  cron_match (JStr "*/15 * * * 7") {| d_minute := 45; d_hour := 9; d_day := 8; d_month := 6; d_isoweekday := 7 |} = true.
Proof. by vm_compute. Qed.
