(* ===== verification/Launcher.v ===== *)
(** * The service supervisor of the Windows launcher

    src/windows/launcher/axp_launcher/supervisor.py (ServiceState, Supervisor); the
    process table of [build_specs] as a list of specifications.

    One operation works on one service's state and on what all share (clock, live
    children, the stop event).  What a start meets is a parameter: [boot name n] for
    the [n]-th spawn of the launcher.  Times are microseconds.  Log pumps, the job
    object and the argument vectors are not modelled; a stop always ends the child
    (CTRL_BREAK, then kill). *)

From S2P Require Import Prelude Redis.
Local Open Scope Z_scope.
Local Open Scope list_scope.

Definition BACKOFF_START_L : Z := 1 * SEC.
Definition BACKOFF_MAX_L : Z := 60 * SEC.
Definition CRASHLOOP_WINDOW : Z := 600 * SEC.
Definition CRASHLOOP_LIMIT : nat := 10.
Definition CRASHLOOP_RETRY : Z := 300 * SEC.
Definition HEALTHY_RESET : Z := 120 * SEC.
Definition READY_TIMEOUT : Z := 90 * SEC.

Record ServiceSpec := {
  ss_name : string;
  ss_ready : bool;              (* has a readiness probe *)
  ss_pre_start : bool;
  ss_post_ready : bool;
  ss_app_tier : bool;
  ss_optional : bool            (* the binary may be absent *)
}.

Inductive svc_status := Stopped | Starting | Running | Failed | Crashlooping | Disabled.
#[export] Instance svc_status_eq_dec : EqDecision svc_status.
Proof. solve_decision. Defined.

Record ServiceState := {
  st_popen : option Z;
  st_started_at : Z;
  st_restart_count : Z;
  st_backoff : Z;
  st_next_retry : Z;
  st_recent_deaths : list Z;
  st_status : svc_status;
  st_desired : bool
}.

Definition fresh_state : ServiceState :=
  {| st_popen := None; st_started_at := 0; st_restart_count := 0; st_backoff := BACKOFF_START_L; st_next_retry := 0;
     st_recent_deaths := []; st_status := Stopped; st_desired := true |}.

Record Shared := {
  g_now : Z;                    (* time.monotonic() *)
  g_alive : gset Z;             (* pids whose poll() is None *)
  g_spawns : nat;               (* spawn attempts so far; also the next pid *)
  g_stopping : bool             (* _stop_event *)
}.

Definition set_popen (p : option Z) (s : ServiceState) : ServiceState :=
  {| st_popen := p; st_started_at := st_started_at s; st_restart_count := st_restart_count s; st_backoff := st_backoff s;
     st_next_retry := st_next_retry s; st_recent_deaths := st_recent_deaths s; st_status := st_status s; st_desired := st_desired s |}.
Definition set_status (x : svc_status) (s : ServiceState) : ServiceState :=
  {| st_popen := st_popen s; st_started_at := st_started_at s; st_restart_count := st_restart_count s; st_backoff := st_backoff s;
     st_next_retry := st_next_retry s; st_recent_deaths := st_recent_deaths s; st_status := x; st_desired := st_desired s |}.
Definition set_desired (b : bool) (s : ServiceState) : ServiceState :=
  {| st_popen := st_popen s; st_started_at := st_started_at s; st_restart_count := st_restart_count s; st_backoff := st_backoff s;
     st_next_retry := st_next_retry s; st_recent_deaths := st_recent_deaths s; st_status := st_status s; st_desired := b |}.
Definition set_retry (backoff next : Z) (s : ServiceState) : ServiceState :=
  {| st_popen := st_popen s; st_started_at := st_started_at s; st_restart_count := st_restart_count s; st_backoff := backoff;
     st_next_retry := next; st_recent_deaths := st_recent_deaths s; st_status := st_status s; st_desired := st_desired s |}.
Definition set_deaths (count : Z) (l : list Z) (s : ServiceState) : ServiceState :=
  {| st_popen := st_popen s; st_started_at := st_started_at s; st_restart_count := count; st_backoff := st_backoff s;
     st_next_retry := st_next_retry s; st_recent_deaths := l; st_status := st_status s; st_desired := st_desired s |}.

Definition pass (dt : Z) (g : Shared) : Shared :=
  {| g_now := g_now g + dt; g_alive := g_alive g; g_spawns := g_spawns g; g_stopping := g_stopping g |}.
Definition reap (pid : Z) (g : Shared) : Shared :=
  {| g_now := g_now g; g_alive := g_alive g ∖ {[ pid ]}; g_spawns := g_spawns g; g_stopping := g_stopping g |}.
Definition polls (s : ServiceState) (g : Shared) : bool :=
  match st_popen s with Some pid => bool_decide (pid ∈ g_alive g) | None => false end.

(** what the n-th spawn meets *)
Inductive readiness := Ready (after : N) | NotReady | Exited (after : N).
Record Boot := { bo_pre_start : bool; bo_spawn : bool; bo_ready : readiness; bo_post_ready : bool }.

(** how long the wait takes for what comes after [n], and whether it comes in time *)
Definition wait_time (n : N) : Z := Z.min (Z.of_N n) READY_TIMEOUT.
Definition in_time (n : N) : bool := Z.of_N n <? READY_TIMEOUT.

Section Launcher.
Context (boot : string -> nat -> Boot) (present : string -> bool) (stop_time : string -> N).

(** [_spawn] *)
Definition spawn (p : ServiceSpec) (s : ServiceState) (g : Shared) : ServiceState * Shared :=
  let b := boot (ss_name p) (g_spawns g) in
  let g1 := {| g_now := g_now g; g_alive := g_alive g; g_spawns := S (g_spawns g); g_stopping := g_stopping g |} in
  if ss_pre_start p && negb (bo_pre_start b) then (set_status Failed s, g1)
  else if negb (bo_spawn b) then (set_status Failed (set_popen None s), g1)
  else
    let pid := Z.of_nat (g_spawns g) in
    ({| st_popen := Some pid; st_started_at := g_now g; st_restart_count := st_restart_count s; st_backoff := st_backoff s;
        st_next_retry := st_next_retry s; st_recent_deaths := st_recent_deaths s; st_status := Starting; st_desired := st_desired s |},
     {| g_now := g_now g; g_alive := {[ pid ]} ∪ g_alive g; g_spawns := S (g_spawns g); g_stopping := g_stopping g |}).

(** [_start_and_wait] *)
Definition start_and_wait (p : ServiceSpec) (s : ServiceState) (g : Shared) : ServiceState * Shared :=
  let b := boot (ss_name p) (g_spawns g) in
  let '(s1, g1) := spawn p s g in
  match st_popen s1 with
  | None => (s1, g1)
  | Some pid =>
      let '(up, g2) :=
        if negb (ss_ready p) then (true, g1)
        else if g_stopping g1 then (false, g1)
        else match bo_ready b with
             | Ready n => (in_time n, pass (wait_time n) g1)
             | NotReady => (false, pass READY_TIMEOUT g1)
             | Exited n => (false, (if in_time n then reap pid else id) (pass (wait_time n) g1))
             end in
      if negb up then (set_status Failed s1, g2)
      else if ss_post_ready p && negb (bo_post_ready b) then (set_status Failed s1, g2)
      else (set_status Running s1, g2)
  end.

(** [_stop_child] *)
Definition stop_child (p : ServiceSpec) (s : ServiceState) (g : Shared) : ServiceState * Shared :=
  let s1 := set_status Stopped (set_popen None s) in
  match st_popen s with
  | Some pid => if bool_decide (pid ∈ g_alive g) then (s1, reap pid (pass (Z.of_N (stop_time (ss_name p))) g)) else (s1, g)
  | None => (s1, g)
  end.

(** [_register_death] *)
Definition register_death (s : ServiceState) (g : Shared) : ServiceState :=
  let now := g_now g in
  let recent := List.filter (fun t => now - t <? CRASHLOOP_WINDOW) (st_recent_deaths s) ++ [now] in
  let s1 := set_deaths (st_restart_count s + 1) recent s in
  if (CRASHLOOP_LIMIT <? length recent)%nat then set_status Crashlooping (set_retry (st_backoff s) (now + CRASHLOOP_RETRY) s1) else s1.

(** [_monitor_one] *)
Definition monitor_one (p : ServiceSpec) (s : ServiceState) (g : Shared) : ServiceState * Shared :=
  if negb (st_desired s) || bool_decide (st_status s = Disabled) then (s, g)
  else if bool_decide (st_status s = Crashlooping) then
    match st_popen s with
    | None =>
        if st_next_retry s <=? g_now g then
          let '(s1, g1) := start_and_wait p (set_deaths (st_restart_count s) [] s) g in
          if bool_decide (st_status s1 = Running) then (s1, g1)
          else (set_status Crashlooping (set_retry (st_backoff s1) (g_now g1 + CRASHLOOP_RETRY) s1), g1)
        else (s, g)
    | Some _ => (s, g)
    end
  else
    match st_popen s with
    | None =>
        if bool_decide (st_status s = Failed) && (st_next_retry s <=? g_now g) then
          let s1 := register_death s g in
          if bool_decide (st_status s1 = Crashlooping) then (s1, g) else start_and_wait p s1 g
        else (s, g)
    | Some pid =>
        if bool_decide (pid ∈ g_alive g) then
          (if negb (st_backoff s =? BACKOFF_START_L) && (HEALTHY_RESET <? g_now g - st_started_at s)
           then set_retry BACKOFF_START_L (st_next_retry s) s else s, g)
        else
          let s1 := register_death (set_popen None s) g in
          if bool_decide (st_status s1 = Crashlooping) then (s1, g)
          else (set_status Failed (set_retry (Z.min (st_backoff s1 * 2) BACKOFF_MAX_L) (g_now g + st_backoff s1) s1), g)
    end.

(** ** All services, in start order *)

Definition table : Type := list (ServiceSpec * ServiceState).

Fixpoint on_all (f : ServiceSpec -> ServiceState -> Shared -> ServiceState * Shared) (l : table) (g : Shared) : table * Shared :=
  match l with
  | [] => ([], g)
  | (p, s) :: r => let '(s1, g1) := f p s g in let '(r1, g2) := on_all f r g1 in ((p, s1) :: r1, g2)
  end.

(** one round of [monitor_forever] *)
Definition monitor_round (l : table) (g : Shared) : table * Shared := on_all monitor_one l (pass (2 * SEC) g).

(** [start_infra] *)
Definition start_infra (l : table) (g : Shared) : table * Shared :=
  on_all (fun p s g => if ss_app_tier p || g_stopping g then (s, g) else start_and_wait p s g) l g.

Definition reset (s : ServiceState) : ServiceState :=
  set_retry BACKOFF_START_L (st_next_retry s) (set_deaths 0 [] (set_desired true s)).

(** [start_app_tier] *)
Definition start_app_tier (l : table) (g : Shared) : table * Shared :=
  on_all (fun p s g =>
    if negb (ss_app_tier p) then (s, g)
    else if ss_optional p && negb (present (ss_name p)) then (set_desired false (set_status Disabled s), g)
    else start_and_wait p (reset s) g) l g.

(** [stop_all], last service first *)
Definition stop_all_services (app_only : bool) (l : table) (g : Shared) : table * Shared :=
  let '(r, g1) := on_all (fun p s g =>
    if app_only && negb (ss_app_tier p) then (s, g) else stop_child p (set_desired false s) g) (rev l) g in
  (rev r, g1).

(** [stop_service] and [restart_service], by name *)
Definition stop_service (name : string) (l : table) (g : Shared) : table * Shared :=
  on_all (fun p s g => if bool_decide (ss_name p = name) then stop_child p (set_desired false s) g else (s, g)) l g.
Definition restart_service (name : string) (l : table) (g : Shared) : table * Shared :=
  on_all (fun p s g => if bool_decide (ss_name p = name)
                       then let '(s1, g1) := stop_child p s g in start_and_wait p (reset s1) g1 else (s, g)) l g.

Definition shutdown_all (l : table) (g : Shared) : table * Shared :=
  stop_all_services false l {| g_now := g_now g; g_alive := g_alive g; g_spawns := g_spawns g; g_stopping := true |}.
End Launcher.

(** ** How long a service stays down *)

Record svc_ok (s : ServiceState) (g : Shared) : Prop := {
  sk_backoff : BACKOFF_START_L <= st_backoff s <= BACKOFF_MAX_L;
  sk_retry : st_next_retry s <= g_now g + CRASHLOOP_RETRY;
  sk_pid : forall pid, st_popen s = Some pid -> pid < Z.of_nat (g_spawns g)
}.

Definition later (g g' : Shared) : Prop := g_now g <= g_now g' /\ (g_spawns g <= g_spawns g')%nat.

#[export] Instance later_preorder : PreOrder later.
Proof. split; [intros g; unfold later; lia|]. intros x y z [? ?] [? ?]. unfold later. lia. Qed.

Lemma svc_ok_later s g g' : later g g' -> svc_ok s g -> svc_ok s g'.
Proof. intros [H1 H2] [A B D]. constructor; [done|lia|]. intros pid Hp. specialize (D pid Hp). lia. Qed.

(** a service that should run, has no child and waits for its retry time *)
Definition down (s : ServiceState) : bool :=
  st_desired s && bool_decide (st_popen s = None) && (bool_decide (st_status s = Failed) || bool_decide (st_status s = Crashlooping)).

(** Passes of the monitor over one service, each in the world it finds; [None] once
    a pass has tried to spawn the service. *)
Fixpoint quiet (boot : string -> nat -> Boot) (p : ServiceSpec) (s : ServiceState) (gs : list Shared) : option ServiceState :=
  match gs with
  | [] => Some s
  | g :: r => let '(s1, g1) := monitor_one boot p s g in if (g_spawns g <? g_spawns g1)%nat then None else quiet boot p s1 r
  end.

Lemma quiet_app boot p s a b : quiet boot p s (a ++ b) = match quiet boot p s a with Some s1 => quiet boot p s1 b | None => None end.
Proof. revert s. induction a as [|g a IH]; intros s; [done|]. cbn [app quiet]. destruct (monitor_one boot p s g) as [s1 g1]. destruct (g_spawns g <? g_spawns g1)%nat; [done|apply IH]. Qed.

(** A crashlooping service whose slow retry left a child that is not ready (or exited
    while starting) is never looked at again. *)
Lemma crashloop_with_child_is_stuck boot p s g pid :
  st_status s = Crashlooping -> st_popen s = Some pid -> monitor_one boot p s g = (s, g).
Proof. intros Hs Hp. unfold monitor_one. rewrite Hs, Hp. by destruct (_ || _). Qed.

Lemma stuck_stays_quiet boot p s gs pid : st_status s = Crashlooping -> st_popen s = Some pid -> quiet boot p s gs = Some s.
Proof.
  intros Hs Hp. induction gs as [|g gs IH]; [done|]. cbn [quiet]. rewrite (crashloop_with_child_is_stuck _ _ _ _ pid) by done. by rewrite Nat.ltb_irrefl.
Qed.

Section LauncherFacts.
Context (boot : string -> nat -> Boot) (present : string -> bool) (stop_time : string -> N).

(** what every operation on one service keeps *)
Definition keeps (r : ServiceState * Shared) (g : Shared) : Prop := svc_ok (fst r) (snd r) /\ later g (snd r).

Lemma spawn_keeps p s g : svc_ok s g -> keeps (spawn boot p s g) g /\ g_spawns (snd (spawn boot p s g)) = S (g_spawns g).
Proof.
  intros [A B D]. unfold spawn. cbv zeta. destruct (_ && _); [|destruct (negb _)]; cbn.
  all: split; [|done]; split; [|unfold later; cbn; lia].
  all: constructor; cbn; try done; try lia; intros pid Hp; first [specialize (D pid Hp); lia | simplify_eq; lia].
Qed.

Lemma wait_time_nonneg n : 0 <= wait_time n.
Proof. unfold wait_time, READY_TIMEOUT, SEC. lia. Qed.

Lemma start_keeps p s g : svc_ok s g ->
  keeps (start_and_wait boot p s g) g /\ g_spawns (snd (start_and_wait boot p s g)) = S (g_spawns g).
Proof.
  intros Hs. pose proof (spawn_keeps p s g Hs) as H. unfold start_and_wait. cbv zeta.
  destruct (spawn boot p s g) as [s1 g1]. destruct H as ([H1 H2] & H3). cbn in *.
  destruct (st_popen s1) as [pid|]; [|done].
  set (r := if negb (ss_ready p) then _ else _). assert (Hr : later g1 (snd r) /\ g_spawns (snd r) = g_spawns g1).
  { unfold r, later. destruct (negb (ss_ready p)); [cbn; lia|]. destruct (g_stopping g1); [cbn; lia|].
    destruct (bo_ready _) as [n| |n]; [|cbn|destruct (in_time n)]; cbn; try (pose proof (wait_time_nonneg n)); unfold READY_TIMEOUT, SEC; lia. }
  destruct r as [up g2]. cbn in Hr. destruct Hr as [Hr1 Hr2].
  assert (Hx : forall x, svc_ok (set_status x s1) g2) by (intros x; destruct (svc_ok_later s1 g1 g2 Hr1 H1); by constructor).
  assert (Hl : later g g2) by (by etrans).
  destruct (negb up); [|destruct (_ && _)]; (split; [split; [apply Hx|done]|cbn; lia]).
Qed.

Lemma stop_keeps p s g : svc_ok s g -> keeps (stop_child stop_time p s g) g.
Proof.
  intros [A B D]. unfold stop_child. destruct (st_popen s) as [pid|]; [case_bool_decide|]; cbn;
    (split; [constructor; cbn; try done; lia|unfold later; cbn; lia]).
Qed.

Lemma desired_ok b s g : svc_ok s g -> svc_ok (set_desired b s) g.
Proof. intros [A B D]. by constructor. Qed.
Lemma reset_ok s g : svc_ok s g -> svc_ok (reset s) g.
Proof. intros [A B D]. constructor; cbn; try done. Qed.

Lemma register_facts s g : st_backoff (register_death s g) = st_backoff s /\ st_popen (register_death s g) = st_popen s /\
  st_desired (register_death s g) = st_desired s /\
  (st_status (register_death s g) = Crashlooping /\ st_next_retry (register_death s g) = g_now g + CRASHLOOP_RETRY \/
   st_status (register_death s g) = st_status s).
Proof. unfold register_death. cbv zeta. destruct (_ <? _)%nat; cbn; split_and!; auto. Qed.

Lemma register_ok s g : svc_ok s g -> svc_ok (register_death s g) g.
Proof. intros [A B D]. unfold register_death. cbv zeta. destruct (_ <? _)%nat; constructor; cbn; try done; lia. Qed.

Lemma monitor_keeps p s g : svc_ok s g -> keeps (monitor_one boot p s g) g.
Proof.
  intros Hs. unfold monitor_one. destruct (negb _ || _); [done|]. case_bool_decide as Hc.
  - destruct (st_popen s) as [pid|] eqn:Ep; [done|]. destruct (_ <=? _); [|done].
    assert (Hm : svc_ok (set_deaths (st_restart_count s) [] s) g) by (destruct Hs; by constructor).
    destruct (start_keeps p _ g Hm) as [[H1 H2] _]. destruct (start_and_wait _ _ _ _) as [s1 g1]. cbn in *.
    case_bool_decide; (split; [|done]); [done|]. destruct H1 as [A B D]. constructor; cbn; try done; lia.
  - destruct (st_popen s) as [pid|] eqn:Ep.
    + case_bool_decide.
      * split; [|done]. destruct (_ && _); [|done]. destruct Hs. constructor; cbn; try done.
      * assert (Ho : svc_ok (set_popen None s) g) by (destruct Hs; by constructor).
        destruct (register_facts (set_popen None s) g) as (Eb & _). destruct (register_ok _ _ Ho) as [A B D].
        case_bool_decide; (split; [|done]); [by constructor|].
        constructor; cbn; rewrite ?Eb in *; cbn in *; try done; unfold BACKOFF_MAX_L, BACKOFF_START_L, CRASHLOOP_RETRY, SEC in *; lia.
    + destruct (_ && _); [|done]. pose proof (register_ok s g Hs) as Ho.
      case_bool_decide; [done|]. by destruct (start_keeps p (register_death s g) g Ho) as [H3 _].
Qed.

(** an operation on every service keeps what each of them keeps *)
Lemma on_all_keeps f l g :
  (forall p s g, svc_ok s g -> keeps (f p s g) g) -> Forall (fun e => svc_ok (snd e) g) l ->
  Forall (fun e => svc_ok (snd e) (snd (on_all f l g))) (fst (on_all f l g)) /\ later g (snd (on_all f l g)).
Proof.
  intros Hf. revert g. induction l as [|[p s] l IH]; intros g H; cbn; [by split; [constructor|]|].
  apply Forall_cons in H as [Hs Hl]. destruct (Hf p s g Hs) as [H1 L1]. destruct (f p s g) as [s1 g1]. cbn in *.
  destruct (IH g1) as [H2 L2]; [eapply Forall_impl; [exact Hl|]; intros e He; by eapply svc_ok_later|].
  destruct (on_all f l g1) as [l2 g2]. cbn in *. split; [|by etrans]. constructor; [by eapply svc_ok_later|done].
Qed.

(** ** Histories of the launcher *)

(** Everything that happens to the services: the launcher's operations, time passing
    and children dying. *)
Inductive launched : table -> Shared -> Prop :=
| l_begin specs g : 0 <= g_now g -> launched ((fun p => (p, fresh_state)) <$> specs) g
| l_round l g l' g' : launched l g -> monitor_round boot l g = (l', g') -> launched l' g'
| l_infra l g l' g' : launched l g -> start_infra boot l g = (l', g') -> launched l' g'
| l_app l g l' g' : launched l g -> start_app_tier boot present l g = (l', g') -> launched l' g'
| l_stop l g l' g' b : launched l g -> stop_all_services stop_time b l g = (l', g') -> launched l' g'
| l_stop_one l g l' g' n : launched l g -> stop_service stop_time n l g = (l', g') -> launched l' g'
| l_restart l g l' g' n : launched l g -> restart_service boot stop_time n l g = (l', g') -> launched l' g'
| l_world l g g' : launched l g -> later g g' -> g_spawns g' = g_spawns g -> g_alive g' ⊆ g_alive g -> launched l g'.

Lemma on_all_ok f l g l' g' :
  (forall p s g, svc_ok s g -> keeps (f p s g) g) -> Forall (fun e => svc_ok (snd e) g) l ->
  on_all f l g = (l', g') -> Forall (fun e => svc_ok (snd e) g') l'.
Proof. intros Hf Hl E. destruct (on_all_keeps f l g Hf Hl) as [H _]. by rewrite E in H. Qed.

Lemma launched_ok l g : launched l g -> Forall (fun e => svc_ok (snd e) g) l.
Proof.
  induction 1 as [specs g Hg|l g l' g' _ IH E|l g l' g' _ IH E|l g l' g' _ IH E|l g l' g' b _ IH E|l g l' g' n _ IH E|l g l' g' n _ IH E|l g g' _ IH Hl _ _].
  - apply Forall_fmap, Forall_true. intros p. constructor; cbn; try done; unfold BACKOFF_START_L, BACKOFF_MAX_L, CRASHLOOP_RETRY, SEC; lia.
  - eapply on_all_ok; [|eapply Forall_impl; [exact IH|]|exact E]; [intros; by apply monitor_keeps|].
    intros e He. eapply svc_ok_later; [|exact He]. unfold later, pass, SEC. cbn. lia.
  - eapply on_all_ok; [|exact IH|exact E]. intros p s g0 H0. cbv beta. destruct (_ || _); [done|]. by apply start_keeps.
  - eapply on_all_ok; [|exact IH|exact E]. intros p s g0 H0. cbv beta. destruct (negb _); [done|].
    destruct (_ && _); [split; [destruct H0; by constructor|done]|]. by apply start_keeps, reset_ok.
  - unfold stop_all_services in E. destruct (on_all _ (rev l) g) as [r g1] eqn:Er. simplify_eq. apply Forall_rev.
    eapply on_all_ok; [|apply Forall_rev, IH|exact Er]. intros p s g0 H0. cbv beta. destruct (_ && _); [done|]. by apply stop_keeps, desired_ok.
  - eapply on_all_ok; [|exact IH|exact E]. intros p s g0 H0. cbv beta. case_bool_decide; [|done]. by apply stop_keeps, desired_ok.
  - eapply on_all_ok; [|exact IH|exact E]. intros p s g0 H0. cbv beta. case_bool_decide; [|done].
    destruct (stop_keeps p s g0 H0) as [H1 L1]. destruct (stop_child _ _ _ _) as [s1 g1]. cbn in *.
    destruct (start_keeps p (reset s1) g1 (reset_ok _ _ H1)) as [[H2 L2] _]. split; [done|by etrans].
  - eapply Forall_impl; [exact IH|]. intros e He. by eapply svc_ok_later.
Qed.

Lemma start_spawns p s g : g_spawns (snd (start_and_wait boot p s g)) = S (g_spawns g).
Proof.
  unfold start_and_wait, spawn. cbv zeta. destruct (_ && _); [|destruct (negb _)]; cbn.
  1: destruct (st_popen s); cbn; [|done].
  3: idtac.
  all: try done.
  all: destruct (negb (ss_ready p)); [|destruct (g_stopping g); [|destruct (bo_ready _) as [n| |n]; try destruct (in_time n)]]; cbn; try done.
  all: destruct (ss_post_ready p && _); done.
Qed.

(** a pass over a down service that does not spawn it *)
Lemma quiet_pass p s g s' : down s = true -> quiet boot p s [g] = Some s' ->
  (s' = s /\ g_now g < st_next_retry s) \/
  (down s' = true /\ st_status s = Failed /\ st_status s' = Crashlooping /\ st_next_retry s' = g_now g + CRASHLOOP_RETRY).
Proof.
  assert (Hq0 : (g_spawns g <? g_spawns g)%nat = false) by (apply Nat.ltb_ge; lia).
  assert (Hq1 : (g_spawns g <? S (g_spawns g))%nat = true) by (apply Nat.ltb_lt; lia).
  unfold down. intros Hd Hq. apply andb_prop in Hd as [Hd Hst]. apply andb_prop in Hd as [Hd Hp]. apply bool_decide_eq_true_1 in Hp.
  cbn [quiet] in Hq. unfold monitor_one in Hq. rewrite Hd, Hp in Hq. cbn [negb orb] in Hq.
  apply orb_prop in Hst as [Hst|Hst]; apply bool_decide_eq_true_1 in Hst; rewrite Hst in Hq.
  - rewrite !bool_decide_eq_false_2, bool_decide_eq_true_2 in Hq by done. cbn [andb] in Hq.
    destruct (Z.leb_spec (st_next_retry s) (g_now g)); [right|left; rewrite Hq0 in Hq; by simplify_eq].
    destruct (register_facts s g) as (_ & Ep & Ed & Hc). case_bool_decide as Hcr.
    + rewrite Hq0 in Hq. injection Hq as <-. rewrite Ep, Hp, Ed, Hd, Hcr. destruct Hc as [[_ Hc]|Hc]; [done|congruence].
    + pose proof (start_spawns p (register_death s g) g) as Hn. destruct (start_and_wait _ _ _ _) as [s1 g1]. cbn in Hn.
      by rewrite Hn, Hq1 in Hq.
  - rewrite bool_decide_eq_false_2, bool_decide_eq_true_2 in Hq by done.
    destruct (Z.leb_spec (st_next_retry s) (g_now g)); [|left; rewrite Hq0 in Hq; by simplify_eq].
    pose proof (start_spawns p (set_deaths (st_restart_count s) [] s) g) as Hn. destruct (start_and_wait _ _ _ _) as [s1 g1]. cbn in Hn.
    destruct (bool_decide _); cbv beta iota zeta in Hq; by rewrite Hn, Hq1 in Hq.
Qed.

(** while passes stay quiet the service is down, and due by [R] or 300 s after a pass *)
Definition due (R T : Z) (s : ServiceState) : Prop :=
  down s = true /\ (st_status s = Crashlooping /\ st_next_retry s <= T + CRASHLOOP_RETRY \/ st_status s = Failed /\ st_next_retry s <= R).

Lemma quiet_passes p s gs s' R T : due R T s -> Forall (fun g => g_now g <= T) gs -> quiet boot p s gs = Some s' -> due R T s'.
Proof.
  intros Hd Hg. revert s Hd. induction Hg as [|g gs Hg _ IH]; intros s Hd Hq; [by injection Hq as <-|].
  change (g :: gs) with ([g] ++ gs) in Hq. rewrite quiet_app in Hq. destruct (quiet boot p s [g]) as [s1|] eqn:E; [|done].
  apply (IH s1); [|done]. destruct (quiet_pass p s g s1 (proj1 Hd) E) as [[-> _]|(H1 & _ & H2 & H3)]; [done|].
  split; [done|left]. split; [done|lia].
Qed.

Lemma crashlooping_stays p s gs s' : down s = true -> st_status s = Crashlooping -> quiet boot p s gs = Some s' -> s' = s.
Proof.
  intros Hd Hs. induction gs as [|g gs IH]; intros Hq; [by injection Hq|].
  change (g :: gs) with ([g] ++ gs) in Hq. rewrite quiet_app in Hq. destruct (quiet boot p s [g]) as [s1|] eqn:E; [|done].
  destruct (quiet_pass p s g s1 Hd E) as [[-> _]|(_ & H & _)]; [by apply IH|congruence].
Qed.

(** C37: a child that is found dead leaves its service down: it is marked failed and due
    within 60 seconds, or crashlooping and due in 300; and in any history of the
    launcher a service that is down - wanted, marked failed or crashlooping, its handle
    cleared - is spawned again by the monitor, at the latest by the first pass 300 seconds
    after a pass 300 seconds from now, however many passes come in between.  Only a
    crashlooping service that still has the handle of a child, dead or not, as its slow
    retry leaves it where the child exited or never got ready, is not: no pass of the
    monitor touches it. *)
Theorem down_service_comes_back p s l g gs1 ga gs2 gb :
  launched l g -> (p, s) ∈ l ->
  (forall pid, st_desired s = true -> st_status s = Running \/ st_status s = Failed -> st_popen s = Some pid -> pid ∉ g_alive g ->
     let '(s1, g1) := monitor_one boot p s g in
     down s1 = true /\ g1 = g /\
     (st_status s1 = Failed /\ st_next_retry s1 <= g_now g + BACKOFF_MAX_L \/
      st_status s1 = Crashlooping /\ st_next_retry s1 = g_now g + CRASHLOOP_RETRY)) /\
  (down s = true -> Forall (fun x => g_now x <= g_now ga) gs1 ->
   g_now g + CRASHLOOP_RETRY <= g_now ga -> g_now ga + CRASHLOOP_RETRY <= g_now gb ->
   quiet boot p s (gs1 ++ [ga] ++ gs2 ++ [gb]) = None) /\
  (st_status s = Crashlooping -> forall pid, st_popen s = Some pid -> forall gs, quiet boot p s gs = Some s).
Proof.
  intros Hl Hin. pose proof (launched_ok l g Hl) as Hall. rewrite Forall_forall in Hall. specialize (Hall _ Hin). cbn in Hall. split_and!.
  - intros pid Hd Hst Hp Hn. unfold monitor_one. rewrite Hd, Hp. cbn [negb orb].
    rewrite !(bool_decide_eq_false_2 (_ = _)), (bool_decide_eq_false_2 (pid ∈ _)) by (done || destruct Hst; congruence).
    destruct (register_facts (set_popen None s) g) as (Eb & Ep & Ed & Hc). destruct Hall as [Hb _ _].
    case_bool_decide as Hcr.
    + unfold down. rewrite Ep, Ed, Hcr. cbn. rewrite Hd. destruct Hc as [[_ Hc]|Hc]; [by auto|]. cbn in Hc. destruct Hst; congruence.
    + unfold down. cbn. rewrite Ep, Ed, Eb. cbn. rewrite Hd. split; [done|]. split; [done|]. left. split; [done|lia].
  - intros Hd Hg Ha Hb. destruct (quiet boot p s _) as [s4|] eqn:E; [exfalso|done].
    rewrite quiet_app in E. destruct (quiet boot p s gs1) as [s1|] eqn:E1; [|done].
    rewrite quiet_app in E. destruct (quiet boot p s1 [ga]) as [s2|] eqn:E2; [|done].
    rewrite quiet_app in E. destruct (quiet boot p s2 gs2) as [s3|] eqn:E3; [|done].
    assert (H0 : due (g_now ga) (g_now ga) s).
    { split; [done|]. pose proof (sk_retry _ _ Hall). unfold down in Hd. apply andb_prop in Hd as [_ Hd].
      apply orb_prop in Hd as [Hd|Hd]; apply bool_decide_eq_true_1 in Hd; [right|left]; (split; [done|]); unfold CRASHLOOP_RETRY, SEC in *; lia. }
    pose proof (quiet_passes p s gs1 s1 _ _ H0 Hg E1) as [Hd1 H1].
    assert (H2 : down s2 = true /\ st_status s2 = Crashlooping /\ st_next_retry s2 <= g_now ga + CRASHLOOP_RETRY).
    { destruct (quiet_pass p s1 ga s2 Hd1 E2) as [[-> Hx]|(H3 & _ & H4 & H5)]; [|by rewrite H5].
      destruct H1 as [[H1 H1']|[H1 H1']]; [done|lia]. }
    destruct H2 as (Hd2 & Hc2 & Hr2). pose proof (crashlooping_stays p s2 gs2 s3 Hd2 Hc2 E3) as ->.
    destruct (quiet_pass p s2 gb s4 Hd2 E) as [[_ Hx]|(_ & H & _)]; [lia|congruence].
  - intros Hs pid Hp gs. by eapply stuck_stays_quiet.
Qed.
End LauncherFacts.

(** ** Concrete runs *)

Definition demo_spec : ServiceSpec :=
  {| ss_name := "backend"; ss_ready := true; ss_pre_start := false; ss_post_ready := false; ss_app_tier := true; ss_optional := false |}.
Definition demo_shared : Shared := {| g_now := 1000 * SEC; g_alive := ∅; g_spawns := 0; g_stopping := false |}.
Definition at_s (t : Z) (g : Shared) : Shared :=
  {| g_now := t * SEC; g_alive := g_alive g; g_spawns := g_spawns g; g_stopping := g_stopping g |}.
Definition no_binary : string -> nat -> Boot := fun _ _ => {| bo_pre_start := true; bo_spawn := false; bo_ready := Ready 0; bo_post_ready := true |}.
Definition never_ready : string -> nat -> Boot := fun _ _ => {| bo_pre_start := true; bo_spawn := true; bo_ready := NotReady; bo_post_ready := true |}.
Definition dies_at_once : string -> nat -> Boot := fun _ _ => {| bo_pre_start := true; bo_spawn := true; bo_ready := Exited 0; bo_post_ready := true |}.
Definition demo_started : table * Shared := start_app_tier no_binary (fun _ => true) [(demo_spec, fresh_state)] demo_shared.
Definition demo_failed : ServiceState := set_status Failed (reset fresh_state).

Lemma down_service_comes_back_witness :
  down demo_failed = true /\
  quiet no_binary demo_spec demo_failed
    ([at_s 1100 (snd demo_started)] ++ [at_s 1300 (snd demo_started)] ++ [] ++ [at_s 1600 (snd demo_started)]) = None.
Proof.
  split; [reflexivity|].
  apply (down_service_comes_back no_binary (fun _ => true) (fun _ => 0%N) demo_spec demo_failed
           [(demo_spec, demo_failed)] (snd demo_started)).
  - apply (l_app no_binary (fun _ => true) (fun _ => 0%N) [(demo_spec, fresh_state)] demo_shared);
      [apply (l_begin no_binary (fun _ => true) (fun _ => 0%N) [demo_spec] demo_shared); vm_compute; discriminate|reflexivity].
  - by constructor.
  - reflexivity.
  - constructor; [vm_compute; discriminate|constructor].
  - vm_compute; discriminate.
  - vm_compute; discriminate.
Defined.

(** [n] passes of the monitor, 61 seconds apart *)
Fixpoint passes (boot : string -> nat -> Boot) (n : nat) (s : ServiceState) (g : Shared) : ServiceState * Shared :=
  match n with
  | O => (s, g)
  | S n => let '(s1, g1) := monitor_one boot demo_spec s (pass (61 * SEC) g) in passes boot n s1 g1
  end.

(** One crash is registered twice: when the monitor finds the child dead and again
    when it restarts it. *)
Example one_crash_counts_twice :
  let '(s, g) := start_and_wait dies_at_once demo_spec fresh_state demo_shared in
  g_spawns g = 1%nat /\
  st_restart_count (fst (passes dies_at_once 2 s g)) = 2 /\ g_spawns (snd (passes dies_at_once 2 s g)) = 2%nat.
Proof. vm_compute. split_and!; reflexivity. Qed.

(** So the sixth crash trips the limit of ten deaths. *)
Fixpoint spin (n : nat) (s : ServiceState) (g : Shared) : ServiceState * Shared :=
  match n with O => (s, g) | S n => let '(s1, g1) := monitor_one dies_at_once demo_spec s g in spin n s1 (pass (33 * SEC) g1) end.
Example six_crashes_reach_the_limit_of_ten :
  let '(s, g) := start_and_wait dies_at_once demo_spec fresh_state demo_shared in
  let '(s', g') := spin 12 s g in st_status s' = Crashlooping /\ (g_spawns g' <= 6)%nat.
Proof. vm_compute. split; [reflexivity|lia]. Qed.

Example crashloop_retry_leaves_child :
  let s := set_status Crashlooping fresh_state in
  let s1 := fst (monitor_one never_ready demo_spec s demo_shared) in
  st_status s1 = Crashlooping /\ st_popen s1 = Some 0 /\ st_next_retry s1 = 1390 * SEC.
Proof. vm_compute. split_and!; reflexivity. Qed.
