(* ===== verification/Updater.v ===== *)
(** * The self-update of the Windows installation

    src/windows/launcher/axp_launcher/update.py (Updater), the paths and version file
    of env.py, dump and restore of mariadb_init.py as the updater uses them.

    The install tree is a record: version directories, the [current] junction, the
    database (a number standing for its contents), dumps, whether the application tier
    runs.  Every outside action (HTTP, disk, zip, subprocess, junction) may fail:
    [ok n] says whether the [n]-th one succeeds.  A Python exception is a value; the
    [try]/[except]/[finally] of [_run] is [run].  The application tier's own start is
    Launcher.v. *)

From stdpp Require Import pretty.
From Stdlib Require Import Ascii.
From S2P Require Import Prelude PyStr.
Local Open Scope Z_scope.
Local Open Scope list_scope.

(** ** Version keys *)

(** [s.lstrip('v')] *)
Fixpoint lstrip_v (s : string) : string :=
  match s with String "v"%char r => lstrip_v r | _ => s end.

(** [s.partition(sep)] without the separator *)
Definition partition (sep : ascii) (s : string) : string * string := default (s, ""%string) (split_once sep s).

(** [re.findall(r'\d+', s)] as integers *)
Fixpoint runs (cur : option Z) (s : string) : list Z :=
  match s with
  | EmptyString => option_list cur
  | String c r => if is_digit c then runs (Some (default 0 cur * 10 + digit_val c)) r
                  else option_list cur ++ runs None r
  end.

Definition is_letter (c : ascii) : bool :=
  let n := nat_of_ascii c in ((65 <=? n) && (n <=? 90) || (97 <=? n) && (n <=? 122))%nat.
Definition lower_letter (c : ascii) : ascii :=
  let n := nat_of_ascii c in if ((65 <=? n) && (n <=? 90))%nat then ascii_of_nat (n + 32) else c.

(** the leading letters, lowered, and the rest *)
Fixpoint letters (s : string) : string * string :=
  match s with
  | String c r => if is_letter c then let '(a, b) := letters r in (String (lower_letter c) a, b) else (EmptyString, s)
  | EmptyString => (EmptyString, EmptyString)
  end.

Fixpoint leading_digits (cur : option Z) (s : string) : option Z :=
  match s with
  | String c r => if is_digit c then leading_digits (Some (default 0 cur * 10 + digit_val c)) r else cur
  | EmptyString => cur
  end.

Definition PRE_RANK : list (string * Z) := [("alpha", 0); ("beta", 1); ("rc", 2)]%string.
Definition CHANNEL_MIN_RANK : list (string * Z) := [("stable", 3); ("beta", 1); ("alpha", 0)]%string.
Definition rank_of (tbl : list (string * Z)) (k : string) (d : Z) : Z :=
  default d (snd <$> List.find (fun e => bool_decide (fst e = k)) tbl).

Definition pad3 (l : list Z) : list Z := take 3 (take 3 l ++ [0; 0; 0]).

(** [([A-Za-z]+)\.?(\d+)?] at the start of the prerelease part *)
Definition pre_key (pre : string) : Z * Z :=
  let '(name, rest) := letters pre in
  if bool_decide (name = ""%string) then (0, 0) else
  let rest := match rest with String "."%char r => r | _ => rest end in
  (rank_of PRE_RANK name 0, default 0 (leading_digits None rest)).

(** [_vtuple] *)
Definition vtuple (v : string) : list Z :=
  let '(main, pre) := partition "-" (lstrip_v (or_str (Some v) "0")) in
  let nums := pad3 (runs None main) in
  if bool_decide (pre = ""%string) then nums ++ [3; 0] else let '(r, n) := pre_key pre in nums ++ [r; n].

Definition prerelease_rank (tag : string) : Z :=
  let '(_, pre) := partition "-" (lstrip_v tag) in
  if bool_decide (pre = ""%string) then 3 else fst (pre_key pre).

(** tuples compare lexicographically *)
Fixpoint vlt (a b : list Z) : bool :=
  match a, b with
  | x :: a', y :: b' => (x <? y) || ((x =? y) && vlt a' b')
  | [], _ :: _ => true
  | _, [] => false
  end.

(** ** Releases *)

Record Asset := { as_name : string; as_size : Z }.
Record Release := { rl_tag : string; rl_draft : bool; rl_assets : list Asset }.
Record Manifest := { mf_min_launcher : string; mf_min_from : string; mf_sha256 : option string }.
Definition no_manifest : Manifest := {| mf_min_launcher := "0"; mf_min_from := "0"; mf_sha256 := None |}.

Definition accepts (channel : string) (r : Release) : bool :=
  negb (rl_draft r) && (rank_of CHANNEL_MIN_RANK channel 3 <=? prerelease_rank (rl_tag r)).

(** [max(candidates, key=_vtuple)]: the first of the greatest *)
Definition newer (best r : Release) : Release :=
  if vlt (vtuple (or_str (Some (rl_tag best)) "0")) (vtuple (or_str (Some (rl_tag r)) "0")) then r else best.
Definition pick_release (channel : string) (releases : list Release) : option Release :=
  match List.filter (accepts channel) releases with [] => None | r :: rs => Some (foldl newer r rs) end.

(** ** The installation *)

Record Tree := { tr_version : string; tr_usable : bool }.

Record Install := {
  i_versions : gmap string Tree;          (* versions\v<name> *)
  i_tmp : gmap string Tree;               (* versions\v<name>.tmp *)
  i_current : option string;              (* what the junction points at *)
  i_db : Z;
  i_dumps : list (string * Z);            (* backups\pre-v<name>.sql, newest first *)
  i_app_up : bool;
  i_stops : nat;                          (* times the application tier was stopped *)
  i_installed : option (string * string); (* installed.json: current, previous *)
  i_phase : string;
  i_error : option string;
  i_from : option string;
  i_to : option string;
  i_rolled_back : option bool;            (* the message of a failed update *)
  i_locked : bool;
  i_db_changed : bool;                    (* locals of [_run] *)
  i_dump : option string;
  i_tick : nat                            (* outside actions so far *)
}.

Definition U (A : Type) : Type := M Install string A.
Definition set_phase (p : string) (e : option string) (i : Install) : Install :=
  {| i_versions := i_versions i; i_tmp := i_tmp i; i_current := i_current i; i_db := i_db i; i_dumps := i_dumps i;
     i_app_up := i_app_up i; i_stops := i_stops i; i_installed := i_installed i; i_phase := p; i_error := e;
     i_from := i_from i; i_to := i_to i; i_rolled_back := i_rolled_back i; i_locked := i_locked i;
     i_db_changed := i_db_changed i; i_dump := i_dump i; i_tick := i_tick i |}.
Definition set_route (from to : string) (i : Install) : Install :=
  {| i_versions := i_versions i; i_tmp := i_tmp i; i_current := i_current i; i_db := i_db i; i_dumps := i_dumps i;
     i_app_up := i_app_up i; i_stops := i_stops i; i_installed := i_installed i; i_phase := i_phase i; i_error := i_error i;
     i_from := Some from; i_to := Some to; i_rolled_back := i_rolled_back i; i_locked := i_locked i;
     i_db_changed := i_db_changed i; i_dump := i_dump i; i_tick := i_tick i |}.
Definition set_trees (vs tmp : gmap string Tree) (i : Install) : Install :=
  {| i_versions := vs; i_tmp := tmp; i_current := i_current i; i_db := i_db i; i_dumps := i_dumps i;
     i_app_up := i_app_up i; i_stops := i_stops i; i_installed := i_installed i; i_phase := i_phase i; i_error := i_error i;
     i_from := i_from i; i_to := i_to i; i_rolled_back := i_rolled_back i; i_locked := i_locked i;
     i_db_changed := i_db_changed i; i_dump := i_dump i; i_tick := i_tick i |}.
Definition set_current (c : option string) (i : Install) : Install :=
  {| i_versions := i_versions i; i_tmp := i_tmp i; i_current := c; i_db := i_db i; i_dumps := i_dumps i;
     i_app_up := i_app_up i; i_stops := i_stops i; i_installed := i_installed i; i_phase := i_phase i; i_error := i_error i;
     i_from := i_from i; i_to := i_to i; i_rolled_back := i_rolled_back i; i_locked := i_locked i;
     i_db_changed := i_db_changed i; i_dump := i_dump i; i_tick := i_tick i |}.
Definition set_db (db : Z) (dumps : list (string * Z)) (i : Install) : Install :=
  {| i_versions := i_versions i; i_tmp := i_tmp i; i_current := i_current i; i_db := db; i_dumps := dumps;
     i_app_up := i_app_up i; i_stops := i_stops i; i_installed := i_installed i; i_phase := i_phase i; i_error := i_error i;
     i_from := i_from i; i_to := i_to i; i_rolled_back := i_rolled_back i; i_locked := i_locked i;
     i_db_changed := i_db_changed i; i_dump := i_dump i; i_tick := i_tick i |}.
Definition set_app (up : bool) (stops : nat) (i : Install) : Install :=
  {| i_versions := i_versions i; i_tmp := i_tmp i; i_current := i_current i; i_db := i_db i; i_dumps := i_dumps i;
     i_app_up := up; i_stops := stops; i_installed := i_installed i; i_phase := i_phase i; i_error := i_error i;
     i_from := i_from i; i_to := i_to i; i_rolled_back := i_rolled_back i; i_locked := i_locked i;
     i_db_changed := i_db_changed i; i_dump := i_dump i; i_tick := i_tick i |}.
Definition set_done (inst : option (string * string)) (rb : option bool) (locked : bool) (i : Install) : Install :=
  {| i_versions := i_versions i; i_tmp := i_tmp i; i_current := i_current i; i_db := i_db i; i_dumps := i_dumps i;
     i_app_up := i_app_up i; i_stops := i_stops i; i_installed := inst; i_phase := i_phase i; i_error := i_error i;
     i_from := i_from i; i_to := i_to i; i_rolled_back := rb; i_locked := locked;
     i_db_changed := i_db_changed i; i_dump := i_dump i; i_tick := i_tick i |}.
Definition set_locals (changed : bool) (dump : option string) (tick : nat) (i : Install) : Install :=
  {| i_versions := i_versions i; i_tmp := i_tmp i; i_current := i_current i; i_db := i_db i; i_dumps := i_dumps i;
     i_app_up := i_app_up i; i_stops := i_stops i; i_installed := i_installed i; i_phase := i_phase i; i_error := i_error i;
     i_from := i_from i; i_to := i_to i; i_rolled_back := i_rolled_back i; i_locked := i_locked i;
     i_db_changed := changed; i_dump := dump; i_tick := tick |}.

(** [env.current_version]: the VERSION file of the tree behind the junction *)
Definition current_version (i : Install) : string :=
  match i_current i with
  | Some c => match i_versions i !! c with Some t => tr_version t | None => "0.0.0" end
  | None => "0.0.0"
  end.

Definition LAUNCHER_VERSION : string := "1.0.0".

Section Update.
(** outcome of the n-th outside action *)
Context (ok : nat -> bool).
(** GitHub: the release listing, a release by tag, its manifest (none when the asset or
    the fetch is missing); [None] of the first two is an HTTP error *)
Context (listing : nat -> option (list Release)) (by_tag : string -> nat -> option Release) (manifest_of : Release -> nat -> option Manifest).
Context (free_space : nat -> Z) (sha_matches : nat -> string -> bool) (unzipped : string -> nat -> Tree).
(** what [db-upgrade] makes of the database, complete or not; what a restore leaves on failure *)
Context (migrated : string -> nat -> Z -> Z) (half_restored : nat -> Z).
(** the health gate's verdict on the running version *)
Context (healthy : nat -> string -> bool).
Context (backup_on : bool).

Definition tick (i : Install) : Install := set_locals (i_db_changed i) (i_dump i) (S (i_tick i)) i.

(** an outside action that raises [msg] when it fails *)
Definition ext (msg : string) : U unit :=
  fun i => (if ok (i_tick i) then inr tt else inl msg, tick i).
(** one whose outcome is looked at *)
Definition attempt : U bool := fun i => (inr (ok (i_tick i)), tick i).
Definition observe {A} (f : nat -> A) : U A := fun i => (inr (f (i_tick i)), tick i).
Definition some_or {A} (msg : string) (o : option A) : U A := match o with Some a => ret a | None => raise msg end.
Definition check (b : bool) (msg : string) : U unit := if b then ret tt else raise msg.

Definition phase (p : string) : U unit := modify (fun i => set_phase p None i).

(** [shutil.rmtree]: a failure leaves a gutted tree *)
Definition rmtree_version (v : string) : U unit :=
  fun i => match i_versions i !! v with
           | None => (inr tt, i)
           | Some t => if ok (i_tick i) then (inr tt, tick (set_trees (delete v (i_versions i)) (i_tmp i) i))
                       else (inl "rmtree"%string, tick (set_trees (<[v := {| tr_version := tr_version t; tr_usable := false |}]> (i_versions i)) (i_tmp i) i))
           end.

Definition rmtree_tmp (v : string) : U unit :=
  let! i := gets (fun i => i) in
  match i_tmp i !! v with
  | None => ret tt
  | Some _ => ext "rmtree" ;;; modify (fun i => set_trees (i_versions i) (delete v (i_tmp i)) i)
  end.

Definition extract (v : string) : U unit :=
  let! t := observe (unzipped v) in
  modify (fun i => set_trees (i_versions i) (<[v := t]> (i_tmp i)) i) ;;;
  ext "extract".

Definition backup_db (target : string) : U unit :=
  if backup_on then
    ext "mkdir" ;;;
    let! dumped := attempt in
    modify (fun i => let others := List.filter (fun d => negb (bool_decide (fst d = target))) (i_dumps i) in
      if dumped : bool then set_locals (i_db_changed i) (Some target) (i_tick i) (set_db (i_db i) (take 3 ((target, i_db i) :: others)) i)
      else set_locals (i_db_changed i) None (i_tick i) (set_db (i_db i) (take 3 others) i))
  else ret tt.

Definition stop_app : U unit := modify (fun i => set_app false (S (i_stops i)) i).
Definition start_app : U unit := modify (fun i => set_app true (i_stops i) i).

(** [tmp.rename(vdir)] *)
Definition promote_tmp (v : string) : U unit :=
  ext "rename" ;;;
  modify (fun i => match i_tmp i !! v with
                   | Some t => set_trees (<[v := t]> (i_versions i)) (delete v (i_tmp i)) i
                   | None => i
                   end).

Definition migrate (v : string) : U unit :=
  modify (fun i => set_locals true (i_dump i) (i_tick i) i) ;;;
  let! m := observe (migrated v) in
  modify (fun i => set_db (m (i_db i)) (i_dumps i) i) ;;;
  ext "db-upgrade".

Definition swap_junction (v : string) : U unit :=
  let! i := gets (fun i => i) in
  match i_current i with
  | Some _ => ext "junction" ;;; modify (set_current None)
  | None => ret tt
  end ;;;
  ext "mklink" ;;;
  modify (set_current (Some v)).

Definition prune_versions (keep : list string) : U unit :=
  modify (fun i => set_trees (filter (fun e => fst e ∈ keep) (i_versions i)) ∅ i).

Definition fetch_release (version : option string) (channel : string) : U Release :=
  if truthy_str version then
    let! r := observe (by_tag (default "" version)) in some_or "http" r
  else
    let! l := observe listing in
    let! l := some_or "http" l in
    some_or "no release available" (pick_release channel l).

(** the body of the [try]: choose and verify, stage, activate *)
Definition select (prev : string) (version : option string) (channel : string) : U string :=
  phase "checking" ;;;
  let! rel := fetch_release version channel in
  let target := lstrip_v (rl_tag rel) in
  let! mf := observe (manifest_of rel) in
  let mf := default no_manifest mf in
  modify (set_route prev target) ;;;
  phase "precheck" ;;;
  check (negb (bool_decide (target = prev))) "already installed" ;;;
  check (negb (vlt (vtuple LAUNCHER_VERSION) (vtuple (mf_min_launcher mf)))) "needs_installer" ;;;
  check (negb (vlt (vtuple prev) (vtuple (mf_min_from mf)))) "min_from_version not met" ;;;
  let! app_asset := some_or "release has no app asset"
    (List.find (fun a => bool_decide (as_name a = "aeroxprotect-windows-x64-app-v" +:+ target +:+ ".zip")) (rl_assets rel)) in
  ext "disk_usage" ;;;
  let! free := observe free_space in
  check (as_size app_asset * 3 <=? free) "not enough free disk space" ;;;
  ext "download" ;;;
  phase "verifying" ;;;
  let! sha := observe sha_matches in
  check (match mf_sha256 mf with Some want => if truthy_str (Some want) then sha want else true | None => true end) "sha256 mismatch" ;;;
  ret target.

Definition stage (target : string) : U unit :=
  phase "extracting" ;;;
  rmtree_tmp target ;;;
  extract target ;;;
  phase "backup_db" ;;;
  backup_db target ;;;
  phase "stopping_app" ;;;
  stop_app ;;;
  rmtree_version target ;;;
  promote_tmp target ;;;
  phase "migrating" ;;;
  migrate target.

Definition activate (prev target : string) : U unit :=
  phase "swapping" ;;;
  swap_junction target ;;;
  ext "seed" ;;;
  phase "starting" ;;;
  start_app ;;;
  phase "health" ;;;
  let! gate := observe healthy in
  check (gate target) "health gate failed" ;;;
  ext "installed.json" ;;;
  modify (fun i => set_done (Some (target, prev)) (i_rolled_back i) (i_locked i) i) ;;;
  prune_versions [target; prev] ;;;
  phase "done".

Definition update_body (prev : string) (version : option string) (channel : string) : U unit :=
  let! target := select prev version channel in
  stage target ;;;
  activate prev target.

(** the restore of [_rollback]; it returns whether it worked, and never raises *)
Definition restore_dump (dump : option string) (error : string) : U unit :=
  match dump with
  | Some d =>
      let! i := gets (fun i => i) in
      match List.find (fun e => bool_decide (fst e = d)) (i_dumps i) with
      | Some (_, content) =>
          modify (set_phase "restoring" (Some error)) ;;;
          let! n := gets i_tick in
          let! restored := attempt in
          modify (fun i => set_db (if restored : bool then content else half_restored n) (i_dumps i) i)
      | None => ret tt
      end
  | None => ret tt
  end.

(** the junction part: only onto a different, intact tree *)
Definition point_back (prev : string) : U unit :=
  let! i := gets (fun i => i) in
  let prev_dir := lstrip_v prev in
  let target_dir := lstrip_v (default "" (i_to i)) in
  if negb (bool_decide (prev_dir = target_dir)) &&
     match i_versions i !! prev_dir with Some t => tr_usable t | None => false end
  then swap_junction prev_dir ;;; modify (fun i => set_done (i_installed i) (Some true) (i_locked i) i)
  else ret tt.

(** [_rollback]; its own exceptions are logged *)
Definition rollback_body (prev : string) (dump : option string) (error : string) : U unit :=
  stop_app ;;;
  point_back prev ;;;
  restore_dump dump error ;;;
  start_app.

Definition rollback (prev : string) (dump : option string) (error : string) : U unit :=
  modify (fun i => set_done (i_installed i) (Some false) (i_locked i) (set_phase "rollback" (Some error) i)) ;;;
  try_with (rollback_body prev dump error) (fun _ => ret tt) ;;;
  modify (set_phase "failed" (Some error)).

(** [_run] *)
Definition run (version : option string) (channel : string) : U unit :=
  modify (fun i => set_locals false None (i_tick i) i) ;;;
  let! prev := gets current_version in
  try_with (update_body prev version channel)
    (fun e => let! i := gets (fun i => i) in rollback prev (if i_db_changed i then i_dump i else None) e) ;;;
  modify (fun i => set_done (i_installed i) (i_rolled_back i) false i).

(** [apply]: False when an update is running *)
Definition apply (version : option string) (channel : string) (i : Install) : bool * Install :=
  if i_locked i then (false, i)
  else (true, snd (run version channel (set_done (i_installed i) (i_rolled_back i) true i))).

(** ** What an update never touches *)

(** Between the start of a run and any of its steps: the tree of the previous version
    is as it was, the database is as it was until the migration starts, and a dump of
    this run holds what the database was. *)
Record underway (prev : string) (t : Tree) (db : Z) (i : Install) : Prop := {
  uw_tree : i_versions i !! prev = Some t;
  uw_db : i_db_changed i = false -> i_db i = db;
  uw_dump : forall d, i_dump i = Some d -> List.find (fun e => bool_decide (fst e = d)) (i_dumps i) = Some (d, db);
  uw_locked : i_locked i = true
}.

Section Underway.
Context (prev : string) (t : Tree) (db : Z).
Notation kept := (keeps (E := string) (underway prev t db)).

Lemma kept_pure (f : Install -> Install) :
  (forall i, i_versions (f i) = i_versions i /\ i_db (f i) = i_db i /\ i_dumps (f i) = i_dumps i /\
     i_db_changed (f i) = i_db_changed i /\ i_dump (f i) = i_dump i /\ i_locked (f i) = i_locked i) ->
  forall i, underway prev t db i -> underway prev t db (f i).
Proof.
  intros H i [H1 H2 H3 H4]. destruct (H i) as (E1 & E2 & E3 & E4 & E5 & E6).
  constructor; rewrite ?E1, ?E2, ?E3, ?E4, ?E5, ?E6; done.
Qed.

Lemma kept_modify f :
  (forall i, i_versions (f i) = i_versions i /\ i_db (f i) = i_db i /\ i_dumps (f i) = i_dumps i /\
     i_db_changed (f i) = i_db_changed i /\ i_dump (f i) = i_dump i /\ i_locked (f i) = i_locked i) -> kept (modify f).
Proof. intros H. apply keeps_modify, kept_pure, H. Qed.
Lemma kept_ext msg : kept (ext msg).
Proof. intros i Hi. unfold ext. cbn. by apply (kept_pure tick). Qed.
Lemma kept_attempt : kept attempt.
Proof. intros i Hi. by apply (kept_pure tick). Qed.
Lemma kept_observe {A} (f : nat -> A) : kept (observe f).
Proof. intros i Hi. by apply (kept_pure tick). Qed.
Lemma kept_some_or {A} msg (o : option A) : kept (some_or msg o).
Proof. destruct o; [apply keeps_ret|apply keeps_raise]. Qed.
Lemma kept_check {A} b msg (k : U A) : (b = true -> kept k) -> kept (bind (check b msg) (fun _ => k)).
Proof. intros H. destruct b; [by apply H|]. intros i Hi. exact Hi. Qed.
Lemma kept_phase p : kept (phase p).
Proof. by apply kept_modify. Qed.
Lemma kept_rmtree_tmp v : kept (rmtree_tmp v).
Proof.
  unfold rmtree_tmp. apply keeps_bind; [apply keeps_gets|]. intros i. destruct (i_tmp i !! v); [|apply keeps_ret].
  apply keeps_bind; [apply kept_ext|]. intros _. by apply kept_modify.
Qed.
Lemma kept_extract v : kept (extract v).
Proof. unfold extract. apply keeps_bind; [apply kept_observe|]. intros x. apply keeps_bind; [by apply kept_modify|]. intros _. apply kept_ext. Qed.
Lemma kept_rmtree_version v : v <> prev -> kept (rmtree_version v).
Proof.
  intros Hv i [H1 H2 H3 H4]. unfold rmtree_version. destruct (i_versions i !! v) as [tr|]; [|done].
  destruct (ok (i_tick i)); constructor; cbn; try done; by rewrite ?lookup_delete_ne, ?lookup_insert_ne.
Qed.
Lemma kept_promote_tmp v : v <> prev -> kept (promote_tmp v).
Proof.
  intros Hv. unfold promote_tmp. apply keeps_bind; [apply kept_ext|]. intros _. apply keeps_modify. intros i [H1 H2 H3 H4].
  destruct (i_tmp i !! v); constructor; cbn; try done. by rewrite lookup_insert_ne.
Qed.
Lemma kept_migrate v : kept (migrate v).
Proof.
  unfold migrate. intros i [H1 H2 H3 H4]. unfold bind, modify, observe, ext. cbn. constructor; by cbn.
Qed.
Lemma kept_swap v : kept (swap_junction v).
Proof.
  unfold swap_junction. apply keeps_bind; [apply keeps_gets|]. intros i. apply keeps_bind.
  - destruct (i_current i); [|apply keeps_ret]. apply keeps_bind; [apply kept_ext|]. intros _. by apply kept_modify.
  - intros _. apply keeps_bind; [apply kept_ext|]. intros _. by apply kept_modify.
Qed.
Lemma kept_prune l : prev ∈ l -> kept (prune_versions l).
Proof.
  intros Hl. apply keeps_modify. intros i [H1 H2 H3 H4]. constructor; try done. cbn. apply map_lookup_filter_Some. done.
Qed.

(** the dump is of the database before this update, as the migration comes later *)
Lemma kept_backup v i : underway prev t db i -> i_db_changed i = false ->
  underway prev t db (snd (backup_db v i)) /\ i_db_changed (snd (backup_db v i)) = false.
Proof.
  intros Hi Hc. unfold backup_db. destruct backup_on; [|done]. unfold bind, ext, attempt, modify. cbn.
  destruct (ok (i_tick i)); [|cbn; split; [by apply (kept_pure tick)|done]]. cbn. destruct Hi as [H1 H2 H3 H4].
  destruct (ok _); cbn; (split; [|done]); constructor; cbn; try done.
  intros d [= <-]. rewrite bool_decide_eq_true_2 by done. by rewrite H2.
Qed.

(** [kept] and "the migration has not started" together *)
Definition unmigrated (prev : string) (t : Tree) (db : Z) (i : Install) : Prop := underway prev t db i /\ i_db_changed i = false.

Lemma select_kept version channel : keeps (E := string) (unmigrated prev t db) (select prev version channel).
Proof.
  assert (Hp : forall f, (forall i, i_versions (f i) = i_versions i /\ i_db (f i) = i_db i /\ i_dumps (f i) = i_dumps i /\
     i_db_changed (f i) = i_db_changed i /\ i_dump (f i) = i_dump i /\ i_locked (f i) = i_locked i) ->
     forall i, unmigrated prev t db i -> unmigrated prev t db (f i)).
  { intros f Hf i [Hu Hc]. split; [by apply (kept_pure f Hf)|]. destruct (Hf i) as (_ & _ & _ & -> & _). done. }
  assert (Ho : forall A (f : nat -> A), keeps (E := string) (unmigrated prev t db) (observe f)) by (intros A f i Hi; by apply (Hp tick)).
  assert (He : forall msg, keeps (E := string) (unmigrated prev t db) (ext msg)) by (intros msg i Hi; by apply (Hp tick)).
  assert (Hm : forall f, (forall i, i_versions (f i) = i_versions i /\ i_db (f i) = i_db i /\ i_dumps (f i) = i_dumps i /\
     i_db_changed (f i) = i_db_changed i /\ i_dump (f i) = i_dump i /\ i_locked (f i) = i_locked i) ->
     keeps (E := string) (unmigrated prev t db) (modify f)) by (intros f Hf; by apply keeps_modify, Hp).
  assert (Hs : forall A msg (o : option A), keeps (E := string) (unmigrated prev t db) (some_or msg o))
    by (intros A msg [a|]; [apply keeps_ret|apply keeps_raise]).
  assert (Hc : forall b msg, keeps (E := string) (unmigrated prev t db) (check b msg))
    by (intros [] msg; [apply keeps_ret|apply keeps_raise]).
  unfold select, fetch_release, phase.
  repeat first [apply keeps_bind; [|intros ?] | apply keeps_ret | by apply Hm | apply Ho | apply He | apply Hs | apply Hc | apply keeps_if].
Qed.

Lemma keeps_then {A B} (P Q : Install -> Prop) (m : U A) (k : A -> U B) :
  (forall i, P i -> Q i) -> keeps P m -> (forall a i, P i -> Q (snd (k a i))) -> forall i, P i -> Q (snd (bind m k i)).
Proof. intros HPQ Hm Hk i Hi. unfold bind. specialize (Hm i Hi). destruct (m i) as [[e|a] i1]; [by apply HPQ|by apply Hk]. Qed.

Lemma keeps_and {A} (P Q : Install -> Prop) (m : U A) : keeps P m -> keeps Q m -> keeps (fun i => P i /\ Q i) m.
Proof. intros HP HQ i [Hp Hq]. split; [by apply HP|by apply HQ]. Qed.

(** one action before the migration *)
Ltac next H := refine (keeps_then (unmigrated prev t db) (underway prev t db) _ _ _ H _); [by intros ? []|intros _; cbv beta].

Lemma stage_kept target : target <> prev -> forall i, unmigrated prev t db i -> underway prev t db (snd (stage target i)).
Proof.
  intros Ht. assert (Hu : forall i, unmigrated prev t db i -> underway prev t db i) by (by intros i []).
  assert (Hrm : forall v, keeps (fun i => i_db_changed i = false) (rmtree_tmp v)).
  { intros v i Hi. unfold rmtree_tmp, bind, gets, ext. cbn. destruct (i_tmp i !! v); [|done]. by destruct (ok _). }
  assert (Hrv : forall v, keeps (fun i => i_db_changed i = false) (rmtree_version v)).
  { intros v i Hi. unfold rmtree_version. destruct (i_versions i !! v); [|done]. by destruct (ok _). }
  assert (Hpt : forall v, keeps (fun i => i_db_changed i = false) (promote_tmp v)).
  { intros v i Hi. unfold promote_tmp, bind, ext, modify. destruct (ok _); [|done]. cbn. by destruct (i_tmp i !! v). }
  assert (Hph : forall p, keeps (unmigrated prev t db) (phase p)) by (intros p; apply keeps_and; [apply kept_phase|by intros ? ?]).
  assert (Hst : keeps (unmigrated prev t db) stop_app) by (apply keeps_and; [by apply kept_modify|by intros ? ?]).
  assert (Hbk : keeps (unmigrated prev t db) (backup_db target)) by (intros i [Hi Hc]; by apply kept_backup).
  assert (Hex : keeps (unmigrated prev t db) (extract target)) by (apply keeps_and; [apply kept_extract|by intros ? ?]).
  unfold stage.
  next (Hph "extracting"%string). next (keeps_and _ _ _ (kept_rmtree_tmp target) (Hrm target)). next Hex. next (Hph "backup_db"%string). next Hbk.
  next (Hph "stopping_app"%string). next Hst. next (keeps_and _ _ _ (kept_rmtree_version target Ht) (Hrv target)).
  next (keeps_and _ _ _ (kept_promote_tmp target Ht) (Hpt target)). next (Hph "migrating"%string).
  intros i Hi. apply kept_migrate. by apply Hu.
Qed.

Lemma activate_kept target : keeps (E := string) (underway prev t db) (activate prev target).
Proof.
  unfold activate. repeat first [ apply kept_phase | apply kept_swap | apply kept_ext | apply kept_observe
    | by apply kept_modify | by apply kept_prune; set_solver | by unfold check; apply keeps_if; [apply keeps_ret|apply keeps_raise]
    | apply keeps_bind; [|intros ?] ].
Qed.
End Underway.

(** ** Rolling back *)

(** what a rollback keeps, whatever fails in it *)
Definition rolling (vs : gmap string Tree) (prev : string) (i : Install) : Prop :=
  i_versions i = vs /\ i_locked i = true /\ (i_rolled_back i = Some true -> i_current i = Some (lstrip_v prev)).

Lemma swap_fields v i : let i' := snd (swap_junction v i) in
  i_versions i' = i_versions i /\ i_locked i' = i_locked i /\ i_rolled_back i' = i_rolled_back i /\
  (fst (swap_junction v i) = inr tt -> i_current i' = Some v).
Proof.
  unfold swap_junction, bind, gets, ext, modify, ret. destruct (i_current i); cbn.
  - destruct (ok (i_tick i)); cbn; [|by split_and!]. destruct (ok _); cbn; by split_and!.
  - destruct (ok _); cbn; by split_and!.
Qed.

Lemma point_back_rolling vs prev i :
  i_versions i = vs -> i_locked i = true -> i_rolled_back i = Some false -> rolling vs prev (snd (point_back prev i)).
Proof.
  intros H1 H2 H3. unfold point_back. unfold bind at 1. cbn [gets]. destruct (_ && _); [|split; [done|]; split; [done|]; cbn; by rewrite H3].
  destruct (swap_fields (lstrip_v prev) i) as (S1 & S2 & S3 & S4). unfold bind, modify.
  destruct (swap_junction (lstrip_v prev) i) as [[err|[]] i1]; cbn in *; (split; [cbn; congruence|]; split; [cbn; congruence|]); cbn.
  - rewrite S3, H3. done.
  - intros _. by apply S4.
Qed.

Lemma restore_rolling vs prev d e i : rolling vs prev i -> rolling vs prev (snd (restore_dump d e i)).
Proof.
  intros H. unfold restore_dump, bind, gets, modify, attempt. destruct d as [d|]; [|done]. by destruct (List.find _ _) as [[? ?]|].
Qed.

Lemma rollback_rolling prev d e i :
  i_locked i = true -> rolling (i_versions i) prev (snd (rollback prev d e i)) /\ i_phase (snd (rollback prev d e i)) = "failed"%string.
Proof.
  intros Hl. set (vs := i_versions i). assert (Hvs : i_versions i = vs) by done. clearbody vs. unfold rollback.
  assert (Hb : forall i0, i_versions i0 = vs -> i_locked i0 = true -> i_rolled_back i0 = Some false ->
     rolling vs prev (snd (rollback_body prev d e i0))).
  { intros i0 H1 H2 H3. unfold rollback_body. unfold bind at 1. cbn [stop_app modify].
    set (x := set_app false (S (i_stops i0)) i0).
    pose proof (point_back_rolling vs prev x H1 H2 H3) as Hp. unfold bind at 1.
    destruct (point_back prev x) as [[err|[]] i1]; [exact Hp|]. unfold bind. pose proof (restore_rolling vs prev d e i1 Hp) as Hq.
    by destruct (restore_dump d e i1) as [[err|[]] i2]. }
  unfold bind at 1, modify. cbn [fst snd].
  specialize (Hb (set_done (i_installed i) (Some false) (i_locked i) (set_phase "rollback" (Some e) i)) Hvs Hl eq_refl).
  unfold bind, try_with. destruct (rollback_body _ _ _ _) as [[err|[]] i2]; done.
Qed.

(** ** The result of an update *)

Lemma check_inr b msg i u i' : check b msg i = (inr u, i') -> b = true /\ i' = i.
Proof. destruct b; [|done]. by intros [= _ <-]. Qed.

Lemma select_target prev version channel i target i' : select prev version channel i = (inr target, i') -> target <> prev.
Proof.
  unfold select. intros H. apply bind_inr in H as (? & ? & _ & H). apply bind_inr in H as (rel & ? & _ & H). cbv zeta in H.
  apply bind_inr in H as (mf & ? & _ & H). cbv zeta in H. apply bind_inr in H as (? & ? & _ & H). apply bind_inr in H as (? & ? & _ & H).
  apply bind_inr in H as (? & ? & Hc%check_inr & H). destruct Hc as [Hc _]. apply negb_true_iff, bool_decide_eq_false in Hc.
  do 10 (apply bind_inr in H as (? & ? & _ & H)). apply ret_inr in H as [-> _]. exact Hc.
Qed.

Lemma swap_inr v i u i' : swap_junction v i = (inr u, i') -> i_current i' = Some v.
Proof. intros H. destruct (swap_fields v i) as (_ & _ & _ & Hc). rewrite H in Hc. destruct u. by apply Hc. Qed.

Lemma ext_inr msg i u i' : ext msg i = (inr u, i') -> i' = tick i.
Proof. unfold ext. destruct (ok _); [|done]. by intros [= _ <-]. Qed.

Lemma activate_done prev target i u i' : activate prev target i = (inr u, i') ->
  i_current i' = Some target /\ i_installed i' = Some (target, prev) /\ i_app_up i' = true /\ i_phase i' = "done"%string.
Proof.
  unfold activate. intros H. apply bind_inr in H as (? & i1 & _ & H).
  apply bind_inr in H as (? & i2 & Hs%swap_inr & H). apply bind_inr in H as (? & ? & ->%ext_inr & H).
  apply bind_inr in H as (? & ? & ->%modify_inr & H). apply bind_inr in H as (? & ? & ->%modify_inr & H).
  apply bind_inr in H as (? & ? & ->%modify_inr & H). apply bind_inr in H as (g & ? & Hg & H). injection Hg as <- <-.
  apply bind_inr in H as (? & ? & [_ ->]%check_inr & H). apply bind_inr in H as (? & ? & ->%ext_inr & H).
  apply bind_inr in H as (? & ? & ->%modify_inr & H). apply bind_inr in H as (? & ? & ->%modify_inr & H).
  apply modify_inr in H as ->. done.
Qed.

(** The installation before an update: the junction points at an intact version
    directory that carries the name of the version in it. *)
Definition intact (prev : string) (t : Tree) (i : Install) : Prop :=
  i_current i = Some prev /\ i_versions i !! prev = Some t /\ tr_version t = prev /\ tr_usable t = true /\ lstrip_v prev = prev.

Lemma intact_version prev t i : intact prev t i -> current_version i = prev.
Proof. intros (Hc & Hv & Ht & _). unfold current_version. by rewrite Hc, Hv. Qed.

(** the body of the [try], whether it returns or raises *)
Lemma body_underway prev t version channel i :
  i_versions i !! prev = Some t -> i_locked i = true -> i_db_changed i = false -> i_dump i = None ->
  underway prev t (i_db i) (snd (update_body prev version channel i)).
Proof.
  intros Hv Hl Hc Hd. assert (Hu : unmigrated prev t (i_db i) i) by (split; [|done]; constructor; [done|done| |done]; by rewrite Hd).
  unfold update_body, bind at 1. pose proof (select_kept prev t (i_db i) version channel i Hu) as Hs.
  destruct (select prev version channel i) as [[e|target] i1] eqn:Es; [exact (proj1 Hs)|].
  apply select_target in Es. unfold bind. pose proof (stage_kept prev t (i_db i) target Es i1 Hs) as Hst.
  destruct (stage target i1) as [[e|u] i2]; [exact Hst|]. by apply activate_kept.
Qed.

(** Whatever fails during an update, the machine keeps a version to run.  When
    an update of an intact installation ends, the updater is free again and the tree
    of the previous version is untouched; either the update is done, and the junction
    points at the new version, which passed the health gate and is recorded as
    installed with the previous one behind it; or it failed, and if the message says
    that it was rolled back then the junction points at the previous version. *)
Theorem previous_version_survives prev t version channel i i' :
  i_locked i = false -> intact prev t i ->
  apply version channel i = (true, i') ->
  i_locked i' = false /\ i_versions i' !! prev = Some t /\
  ((i_phase i' = "done"%string /\ i_app_up i' = true /\
      exists target, target <> prev /\ i_current i' = Some target /\ i_installed i' = Some (target, prev)) \/
   (i_phase i' = "failed"%string /\ (i_rolled_back i' = Some true -> i_current i' = Some prev))).
Proof.
  intros Hl Hi H. unfold apply in H. rewrite Hl in H. injection H as <-.
  set (il := set_done (i_installed i) (i_rolled_back i) true i). set (i0 := set_locals false None (i_tick il) il).
  assert (Hcv : current_version i0 = prev) by exact (intact_version prev t i Hi). destruct Hi as (_ & Hv & _ & _ & Hp).
  pose proof (body_underway prev t version channel i0 Hv eq_refl eq_refl eq_refl) as Hu.
  unfold run, bind, gets, modify, try_with. fold i0. rewrite Hcv.
  destruct (update_body prev version channel i0) as [[e|u] i1] eqn:E; cbn [snd] in Hu.
  - destruct (rollback_rolling prev (if i_db_changed i1 then i_dump i1 else None) e i1 (uw_locked _ _ _ _ Hu)) as [(H1 & H2 & H3) H4].
    assert (Hret : fst (rollback prev (if i_db_changed i1 then i_dump i1 else None) e i1) = inr tt).
    { unfold rollback, bind, try_with, modify. by destruct (rollback_body _ _ _ _) as [[?|[]] ?]. }
    destruct (rollback _ _ _ i1) as [r i2]. cbn in Hret, H1, H2, H3, H4. subst r. cbn. split; [done|]. split; [rewrite H1; apply Hu|].
    right. split; [done|]. intros Hr. rewrite Hp in H3. by apply H3.
  - cbn. split; [done|]. split; [apply Hu|]. left. unfold update_body in E. apply bind_inr in E as (target & i2 & Hs%select_target & E).
    apply bind_inr in E as (? & i3 & _ & E). apply activate_done in E as (A1 & A2 & A3 & A4). eauto 10.
Qed.

(** *** When the rollback's own actions work *)

Lemma rollback_works prev t d e i :
  i_versions i !! prev = Some t -> tr_usable t = true -> lstrip_v prev = prev -> lstrip_v (default ""%string (i_to i)) <> prev ->
  (forall m, (i_tick i <= m)%nat -> ok m = true) ->
  let i' := snd (rollback prev d e i) in
  i_current i' = Some prev /\ i_app_up i' = true /\ i_rolled_back i' = Some true /\ i_phase i' = "failed"%string /\
  i_db i' = match d with
            | Some v => match List.find (fun e => bool_decide (fst e = v)) (i_dumps i) with Some (_, c) => c | None => i_db i end
            | None => i_db i
            end.
Proof.
  intros Hv Hu Hp Hto Hok. cbn zeta. unfold rollback, rollback_body, point_back, restore_dump, swap_junction, bind, try_with, modify, gets, stop_app,
    start_app, ret. cbn -[lstrip_v]. rewrite Hp, Hv, Hu. rewrite bool_decide_eq_false_2 by congruence. cbn -[lstrip_v].
  unfold ext, tick, attempt. destruct (i_current i); cbn -[lstrip_v]; rewrite !Hok by lia; cbn -[lstrip_v]; rewrite ?Hok by lia; cbn -[lstrip_v];
    (destruct d as [v|]; [|done]); cbn -[lstrip_v]; (destruct (List.find _ (i_dumps i)) as [[? c]|]; [|done]); cbn -[lstrip_v];
    rewrite ?Hok by lia; done.
Qed.

Definition knows (target : string) (i : Install) : Prop := i_to i = Some target.

Lemma select_knows prev version channel i target i' :
  select prev version channel i = (inr target, i') -> knows target i' /\ lstrip_v target = target.
Proof.
  assert (Hl : forall s, lstrip_v (lstrip_v s) = lstrip_v s).
  { intros s. induction s as [|c s IH]; [done|]. cbn. destruct (decide (c = "v"%char)) as [->|Hc]; [exact IH|].
    destruct c as [[] [] [] [] [] [] [] []]; try done. }
  unfold select. intros H. apply bind_inr in H as (? & ? & _ & H). apply bind_inr in H as (rel & ? & _ & H). cbv zeta in H.
  apply bind_inr in H as (mf & ? & _ & H). cbv zeta in H. apply bind_inr in H as (? & i1 & ->%modify_inr & H).
  apply bind_inr in H as (? & ? & ->%modify_inr & H). apply bind_inr in H as (? & ? & [_ ->]%check_inr & H).
  apply bind_inr in H as (? & ? & [_ ->]%check_inr & H). apply bind_inr in H as (? & ? & [_ ->]%check_inr & H).
  apply bind_inr in H as (a & ? & Ha & H).
  unfold some_or in Ha. destruct (List.find _ _) in Ha; [|done]. apply ret_inr in Ha as [_ ->].
  apply bind_inr in H as (? & ? & ->%ext_inr & H). apply bind_inr in H as (fr & ? & Hf & H). injection Hf as _ <-.
  apply bind_inr in H as (? & ? & [_ ->]%check_inr & H). apply bind_inr in H as (? & ? & ->%ext_inr & H).
  apply bind_inr in H as (? & ? & ->%modify_inr & H). apply bind_inr in H as (sh & ? & Hsh & H). injection Hsh as _ <-.
  apply bind_inr in H as (? & ? & [_ ->]%check_inr & H). apply ret_inr in H as [-> ->]. split; [done|apply Hl].
Qed.

Lemma kept_knows {A} target (m : U A) : (forall i, i_to (snd (m i)) = i_to i) -> keeps (knows target) m.
Proof. intros H i Hi. unfold knows. by rewrite H. Qed.

Lemma activation_knows prev target v : keeps (E := string) (knows target) (stage v ;;; activate prev v).
Proof.
  assert (Ht : forall v, keeps (E := string) (knows target) (rmtree_tmp v)).
  { intros v' i Hi. unfold rmtree_tmp, bind, gets, ext. cbn. destruct (i_tmp i !! v'); [|done]. by destruct (ok _). }
  assert (Hv : forall v, keeps (E := string) (knows target) (rmtree_version v)).
  { intros v' i Hi. unfold rmtree_version. destruct (i_versions i !! v'); [|done]. by destruct (ok _). }
  assert (Hp : forall v, keeps (E := string) (knows target) (promote_tmp v)).
  { intros v' i Hi. unfold promote_tmp, bind, ext, modify. destruct (ok _); [|done]. cbn. by destruct (i_tmp i !! v'). }
  assert (Hb : forall v, keeps (E := string) (knows target) (backup_db v)).
  { intros v' i Hi. unfold backup_db. destruct backup_on; [|done]. unfold bind, ext, attempt, modify. cbn.
    destruct (ok _); [|done]. cbn. by destruct (ok _). }
  assert (Hs : forall v, keeps (E := string) (knows target) (swap_junction v)).
  { intros v' i Hi. unfold swap_junction, bind, gets, ext, modify, ret. destruct (i_current i); cbn; [destruct (ok _); [|done]; cbn|]; by destruct (ok _). }
  assert (Hph : forall p, keeps (E := string) (knows target) (phase p)) by (intros p i Hi; exact Hi).
  assert (He : forall p, keeps (E := string) (knows target) (ext p)) by (intros p i Hi; exact Hi).
  assert (Hpr : forall p, keeps (E := string) (knows target) (prune_versions p)) by (intros p i Hi; exact Hi).
  unfold stage, activate, extract, migrate, stop_app, start_app.
  repeat first [ apply Hph | apply Ht | apply Hv | apply Hp | apply Hb | apply Hs | apply He | apply Hpr
    | intros i Hi; exact Hi | by unfold check; apply keeps_if; [apply keeps_ret|apply keeps_raise]
    | apply keeps_bind; [|intros ?] ].
Qed.

(** A failed update is undone.  Suppose an update of an intact installation has
    chosen a release and then fails anywhere (extracting, migrating, swapping, the
    health gate), and the outside actions of the rollback itself succeed.  Then the
    junction points at the previous version again, the application tier is running,
    the message says so, and the database is what it was before the update, unless the
    migration had started without a dump having been made. *)
Theorem failed_update_is_undone prev t version channel i target i1 e i2 :
  i_locked i = true -> intact prev t i -> i_db_changed i = false -> i_dump i = None ->
  select prev version channel i = (inr target, i1) ->
  (stage target ;;; activate prev target) i1 = (inl e, i2) ->
  (forall m, (i_tick i2 <= m)%nat -> ok m = true) ->
  let i' := snd (run version channel i) in
  i_current i' = Some prev /\ i_app_up i' = true /\ i_rolled_back i' = Some true /\ i_phase i' = "failed"%string /\
  (i_db i' = i_db i \/ (i_db_changed i2 = true /\ i_dump i2 = None)).
Proof.
  intros Hl Hi Hc Hd Hs Hf Hok. cbn zeta. pose proof (intact_version _ _ _ Hi) as Hcv. destruct Hi as (_ & Hv & _ & Hus & Hp).
  assert (E : update_body prev version channel i = (inl e, i2)) by (unfold update_body, bind at 1; by rewrite Hs).
  pose proof (body_underway prev t version channel i Hv Hl Hc Hd) as Hu. rewrite E in Hu. cbn [snd] in Hu.
  destruct (select_knows _ _ _ _ _ _ Hs) as [Hk Hlt]. pose proof (activation_knows prev target target i1 Hk) as Hk2.
  rewrite Hf in Hk2. cbn [snd] in Hk2. pose proof (select_target _ _ _ _ _ _ Hs) as Hne.
  assert (Hi0 : set_locals false None (i_tick i) i = i) by (destruct i; cbn in *; by subst).
  unfold run, bind, gets, modify, try_with. rewrite Hi0, Hcv, E.
  destruct (rollback_works prev t (if i_db_changed i2 then i_dump i2 else None) e i2 (uw_tree _ _ _ _ Hu) Hus Hp) as (R1 & R2 & R3 & R4 & R5);
    [by rewrite Hk2; cbn; rewrite Hlt|exact Hok|].
  assert (Hret : fst (rollback prev (if i_db_changed i2 then i_dump i2 else None) e i2) = inr tt).
  { unfold rollback, bind, try_with, modify. by destruct (rollback_body _ _ _ _) as [[?|[]] ?]. }
  destruct (rollback _ _ _ i2) as [r i3]. cbn in Hret, R1, R2, R3, R4, R5. subst r. cbn. split_and!; [done..|].
  rewrite R5. destruct Hu as [_ Hdb Hdump _]. destruct (i_db_changed i2); [|left; by apply Hdb].
  destruct (i_dump i2) as [d|] eqn:Ed; [|by right]. left. by rewrite (Hdump d).
Qed.
End Update.

(** ** Channels and versions *)

(** The release an update without a version takes: accepted by the channel, and no
    accepted release is newer. *)
Lemma vlt_irrefl a : vlt a a = false.
Proof. induction a as [|x a IH]; [done|]. cbn. by rewrite Z.ltb_irrefl, Z.eqb_refl. Qed.
Lemma vlt_trans a b c : vlt a b = true -> vlt b c = true -> vlt a c = true.
Proof.
  revert b c. induction a as [|x a IH]; intros [|y b] [|z c]; cbn; try done.
  intros [H1%Z.ltb_lt|[H1%Z.eqb_eq H1']%andb_prop]%orb_prop [H2%Z.ltb_lt|[H2%Z.eqb_eq H2']%andb_prop]%orb_prop;
    apply orb_true_iff; [left; apply Z.ltb_lt; lia..|]. right. apply andb_true_iff. split; [apply Z.eqb_eq; lia|by eapply IH].
Qed.

Definition release_key (r : Release) : list Z := vtuple (or_str (Some (rl_tag r)) "0").

Theorem pick_release_newest channel rs r :
  pick_release channel rs = Some r ->
  r ∈ rs /\ accepts channel r = true /\
  forall r', r' ∈ rs -> accepts channel r' = true -> vlt (release_key r) (release_key r') = false.
Proof.
  unfold pick_release. destruct (List.filter (accepts channel) rs) as [|r0 l] eqn:E; [done|]. intros [= <-].
  assert (H : forall l b, foldl newer b l ∈ b :: l /\
     forall y, (vlt (release_key b) (release_key y) = false \/ y ∈ l) -> vlt (release_key (foldl newer b l)) (release_key y) = false).
  { clear. intros l. induction l as [|x l IH]; intros b; cbn; [split; [set_solver|]; intros y [H|H]; [done|by apply elem_of_nil in H]|].
    destruct (IH (newer b x)) as [I1 I2]. unfold newer in I1, I2 |- *. fold (release_key b) (release_key x) in I1, I2 |- *.
    destruct (vlt (release_key b) (release_key x)) eqn:Ex.
    - split; [set_solver|]. intros y [Hy|[->|Hy]%elem_of_cons]; apply I2; [left|left; apply vlt_irrefl|by right].
      apply not_true_iff_false. intros Hxy. assert (vlt (release_key b) (release_key y) = true) by (by eapply vlt_trans). congruence.
    - split; [set_solver|]. intros y [Hy|[->|Hy]%elem_of_cons]; apply I2; [by left|by left|by right]. }
  destruct (H l r0) as [H1 H2]. rewrite <- E in H1. apply elem_of_filter_In in H1 as [Hin Ha]. split; [exact Hin|]. split; [exact Ha|].
  intros r' Hr' Ha'. apply H2. assert (Hf : r' ∈ List.filter (accepts channel) rs) by by apply elem_of_filter_In.
  rewrite E in Hf. apply elem_of_cons in Hf as [->|Hf]; [left; apply vlt_irrefl|by right].
Qed.

Example version_order :
  vlt (vtuple "0.1.2-alpha.1") (vtuple "v0.1.2-beta.1") && vlt (vtuple "0.1.2-beta.1") (vtuple "0.1.2-rc.1") &&
  vlt (vtuple "0.1.2-rc.1") (vtuple "0.1.2") && vlt (vtuple "0.1.2") (vtuple "0.1.3-alpha.1") = true.
Proof. by vm_compute. Qed.

(** ** Witnesses and what goes wrong *)

Definition demo_tree (v : string) : Tree := {| tr_version := v; tr_usable := true |}.
Definition demo_install : Install :=
  {| i_versions := {[ "1.0.0"%string := demo_tree "1.0.0" ]}; i_tmp := ∅; i_current := Some "1.0.0"%string; i_db := 10; i_dumps := [];
     i_app_up := true; i_stops := 0; i_installed := None; i_phase := "idle"; i_error := None; i_from := None; i_to := None;
     i_rolled_back := None; i_locked := false; i_db_changed := false; i_dump := None; i_tick := 0 |}.
Definition demo_release (v : string) : Release :=
  {| rl_tag := "v" +:+ v; rl_draft := false; rl_assets := [{| as_name := "aeroxprotect-windows-x64-app-v" +:+ v +:+ ".zip"; as_size := 5 |}] |}.
Definition demo_apply (ok : nat -> bool) (listing : nat -> option (list Release)) (healthy : bool) (i : Install) : bool * Install :=
  apply ok listing (fun _ _ => None) (fun _ _ => None) (fun _ => 100) (fun _ _ => true) (fun v _ => demo_tree v)
    (fun _ _ db => db + 1) (fun _ => 0) (fun _ _ => healthy) true None "stable" i.
Definition two_releases (_ : nat) : option (list Release) := Some [demo_release "1.0.9"; demo_release "1.1.0"; demo_release "1.2.0-rc.1"].

Lemma demo_intact : intact "1.0.0" (demo_tree "1.0.0") demo_install.
Proof. repeat split. Qed.

Lemma previous_version_survives_witness :
  let i' := snd (demo_apply (fun _ => true) two_releases true demo_install) in
  i_locked i' = false /\ i_versions i' !! "1.0.0"%string = Some (demo_tree "1.0.0") /\
  ((i_phase i' = "done"%string /\ i_app_up i' = true /\
      exists target, target <> "1.0.0"%string /\ i_current i' = Some target /\ i_installed i' = Some (target, "1.0.0"%string)) \/
   (i_phase i' = "failed"%string /\ (i_rolled_back i' = Some true -> i_current i' = Some "1.0.0"%string))).
Proof.
  intros i'. assert (E : fst (demo_apply (fun _ => true) two_releases true demo_install) = true) by (vm_compute; reflexivity).
  apply (previous_version_survives (fun _ => true) two_releases (fun _ _ => None) (fun _ _ => None) (fun _ => 100) (fun _ _ => true)
    (fun v _ => demo_tree v) (fun _ _ db => db + 1) (fun _ => 0) (fun _ _ => true) true
    "1.0.0" (demo_tree "1.0.0") None "stable" demo_install); [reflexivity|exact demo_intact|].
  exact (eq_trans (surjective_pairing _) (f_equal (fun b => (b, i')) E)).
Defined.

Example demo_done :
  let i' := snd (demo_apply (fun _ => true) two_releases true demo_install) in
  i_phase i' = "done"%string /\ i_current i' = Some "1.1.0"%string.
Proof. by vm_compute. Qed.

(** A release without network: nothing was chosen, downloaded or changed, yet the
    whole application tier (recorders included) is stopped and started again. *)
Example failed_check_restarts_everything :
  let i' := snd (demo_apply (fun _ => true) (fun _ => None) true demo_install) in
  i_phase i' = "failed"%string /\ i_stops i' = 1%nat.
Proof. by vm_compute. Qed.

(** The same after an earlier successful update: [to] still names that version, so the
    report asks for a manual recovery although nothing was touched. *)
Example stale_target_asks_for_recovery :
  let i1 := snd (demo_apply (fun _ => true) two_releases true demo_install) in
  let i2 := snd (demo_apply (fun _ => true) (fun _ => None) true i1) in
  i_current i2 = i_current i1 /\ i_phase i2 = "failed"%string /\ i_rolled_back i2 = Some false.
Proof. by vm_compute. Qed.

(** The health gate fails and the junction to the previous version cannot be made: the
    rest of the rollback is skipped, so nothing runs, and the migrated database stays
    although a dump was there. *)
Example rollback_fault_leaves_all_down :
  let i' := snd (demo_apply (fun n => (n <? 18)%nat) two_releases false demo_install) in
  i_phase i' = "failed"%string /\ i_app_up i' = false /\ i_current i' = None /\ i_db i' = 11 /\ i_dumps i' = [("1.1.0"%string, 10)].
Proof. by vm_compute. Qed.

Definition all_ok (_ : nat) : bool := true.
Definition demo_locked : Install := set_done None None true demo_install.
Definition demo_select : (string + string) * Install :=
  select all_ok two_releases (fun _ _ => None) (fun _ _ => None) (fun _ => 100) (fun _ _ => true) "1.0.0" None "stable" demo_locked.
Definition demo_activation : (string + unit) * Install :=
  (stage all_ok (fun v _ => demo_tree v) (fun _ _ db => db + 1) true "1.1.0" ;;; activate all_ok (fun _ _ => false) "1.0.0" "1.1.0") (snd demo_select).

Lemma pair_of {A B} (p : A * B) a : fst p = a -> p = (a, snd p).
Proof. destruct p. by intros <-. Qed.

(** The new version does not come up; everything is as before. *)
Lemma failed_update_is_undone_witness :
  let i' := snd (run all_ok two_releases (fun _ _ => None) (fun _ _ => None) (fun _ => 100) (fun _ _ => true) (fun v _ => demo_tree v)
    (fun _ _ db => db + 1) (fun _ => 0) (fun _ _ => false) true None "stable" demo_locked) in
  i_current i' = Some "1.0.0"%string /\ i_app_up i' = true /\ i_rolled_back i' = Some true /\ i_phase i' = "failed"%string /\
  (i_db i' = 10 \/ (i_db_changed (snd demo_activation) = true /\ i_dump (snd demo_activation) = None)).
Proof.
  apply (failed_update_is_undone all_ok two_releases (fun _ _ => None) (fun _ _ => None) (fun _ => 100) (fun _ _ => true) (fun v _ => demo_tree v)
    (fun _ _ db => db + 1) (fun _ => 0) (fun _ _ => false) true "1.0.0" (demo_tree "1.0.0") None "stable" demo_locked "1.1.0" (snd demo_select)
    "health gate failed" (snd demo_activation)); [reflexivity|exact demo_intact|reflexivity|reflexivity| | |reflexivity].
  - apply (pair_of demo_select). vm_compute. reflexivity.
  - transitivity demo_activation; [unfold demo_activation; reflexivity|].
    apply (pair_of demo_activation). vm_compute. reflexivity.
Defined.
