(* ===== verification/Migrations.v ===== *)
(** * Schema migrations

    src/server/service/db_migrate.py, as [db_upgrade] of src/server/command.py calls it.

    The schema is a parameter, with what the database makes of it: whether it has a [roles]
    table, what [create_all] and the text of a file do to it, whether they succeed (a file
    that fails may have done a part: DDL is not transactional).  Every statement on the
    connection may raise: [lost n] says the n-th statement ever sent does.  Rows are kept with
    version, file name, checksum and note.  Texts are ASCII; the widths and the collation of
    the columns are not kept. *)

From S2P Require Import Prelude PyStr Indexer.
From Stdlib Require Import Ascii.
Local Open Scope Z_scope.
Local Open Scope list_scope.

(** ** [strip_db_statements]

    ^\s*(USE|CREATE\s+DATABASE)\b[^;]*;\s*$ without regard to case, at every line start. *)

Definition nl : ascii := Ascii.ascii_of_nat 10.
Definition is_word (c : ascii) : bool := is_digit c || bool_decide (c = "_"%char) || let n := Ascii.nat_of_ascii (lower_char c) in ((97 <=? n) && (n <=? 122))%nat.
(** \b after a keyword *)
Definition word_ends (s : string) : bool := match s with EmptyString => true | String c _ => negb (is_word c) end.
Definition keyword (k s : string) : option string := if startswith k (lower s) then Some (sdrop (String.length k) s) else None.
(** [^;]*; *)
Fixpoint after_semicolon (s : string) : option string :=
  match s with EmptyString => None | String c r => if bool_decide (c = ";"%char) then Some r else after_semicolon r end.
(** \s*$, greedy: to the end of the text, or up to the last line end of the blanks; and whether
    what follows is a line start *)
Fixpoint blank_tail (start : bool) (s : string) : option (bool * string) :=
  match s with
  | EmptyString => Some (start, EmptyString)
  | String c r =>
      if is_space c then match blank_tail (bool_decide (c = nl)) r with Some t => Some t | None => if bool_decide (c = nl) then Some (start, s) else None end
      else None
  end.
(** the rest after a match that starts here *)
Definition db_statement (s : string) : option (bool * string) :=
  let s := lstrip s in
  let k := match keyword "use" s with
           | Some r => Some r
           | None => match keyword "create" s with
                     | Some (String c r) => if is_space c then keyword "database" (lstrip r) else None
                     | _ => None
                     end
           end in
  match k with
  | Some r => if word_ends r then match after_semicolon r with Some r => blank_tail false r | None => None end else None
  | None => None
  end.
(** [sub]: from left to right; [start]: this position is a line start *)
Fixpoint strip_go (fuel : nat) (start : bool) (s : string) : string :=
  match fuel with
  | O => s
  | S n =>
      match (if start then db_statement s else None) with
      | Some (start, r) => strip_go n start r
      | None => match s with EmptyString => EmptyString | String c r => String c (strip_go n (bool_decide (c = nl)) r) end
      end
  end.
Definition strip_db_statements (sql : string) : string := strip_go (String.length sql) true sql.

(** ** [discover] *)

Definition Dir : Type := option (list (string * string)).        (* None: not a directory; name and text of its files *)
Definition version_of (name : string) : string := match split_once "_" name with Some (v, _) => v | None => name end.
Fixpoint insert_file (x : string * string) (l : list (string * string)) : list (string * string) :=
  match l with
  | [] => [x]
  | y :: r => if String.leb (version_of (fst x)) (version_of (fst y)) then x :: l else y :: insert_file x r
  end.
Fixpoint insert_listed (x : string * string) (l : list (string * string)) : list (string * string) :=
  match l with [] => [x] | y :: r => if String.leb (fst x) (fst y) then x :: l else y :: insert_listed x r end.
(** sorted by name, then, keeping that order, by version: both as text *)
Definition discover (d : Dir) : list (string * string) :=
  match d with
  | None => []
  | Some l => foldr insert_file [] (List.filter (fun f => ends_with ".sql" (fst f)) (foldr insert_listed [] l))
  end.
Definition ver (f : string * string) : string := version_of (fst f).

(** ** The runner *)

Record MigRow := { mg_version : string; mg_filename : string; mg_checksum : string; mg_note : option string }.
Inductive mig_exn := DbError | MigrationError (version : string).
Inductive mig_mode := Fresh | Baseline | Incremental.
Record MigResult := { mr_mode : mig_mode; mr_baselined : list string; mr_applied : list string }.

Section Runner.
Context {S : Type} (has_roles : S -> bool) (create_all : S -> bool * S) (run_sql : string -> S -> bool * S) (sha256 : string -> string).

(** the database; how many statements were sent and which files' texts were executed *)
Record MigWorld := { md_schema : S; md_table : option (list MigRow); md_sent : nat; md_ran : list string }.
Definition D (A : Type) : Type := M MigWorld mig_exn A.
Definition set_schema (s : S) (w : MigWorld) : MigWorld := {| md_schema := s; md_table := md_table w; md_sent := md_sent w; md_ran := md_ran w |}.
Definition set_table (t : list MigRow) (w : MigWorld) : MigWorld := {| md_schema := md_schema w; md_table := Some t; md_sent := md_sent w; md_ran := md_ran w |}.
Definition rows (w : MigWorld) : list MigRow := default [] (md_table w).

Section Upgrade.
Context (lost : nat -> bool) (dir : Dir).

(** [cur.execute] *)
Definition execute {A} (m : D A) : D A :=
  fun w => let w1 := {| md_schema := md_schema w; md_table := md_table w; md_sent := md_sent w + 1; md_ran := md_ran w |} in
           if lost (md_sent w) then (inl DbError, w1) else m w1.
Definition migrations_table : D bool := execute (gets (fun w => bool_decide (is_Some (md_table w)))).
Definition roles_table : D bool := execute (gets (fun w => has_roles (md_schema w))).
Definition applied_rows : D (list MigRow) := execute (gets rows).
(** INSERT; the version is the primary key *)
Definition record (f : string * string) (note : option string) : D unit :=
  execute (fun w =>
    if existsb (fun r => bool_decide (mg_version r = ver f)) (rows w) then (inl DbError, w)
    else (inr tt, set_table (rows w ++ [{| mg_version := ver f; mg_filename := fst f; mg_checksum := sha256 (snd f); mg_note := note |}]) w)).
Definition run_file (f : string * string) : D unit :=
  let sql := strip (strip_db_statements (snd f)) in
  if bool_decide (sql = EmptyString) then ret tt else
  execute (fun w => let '(ok, s) := run_sql sql (md_schema w) in
    let w1 := {| md_schema := s; md_table := md_table w; md_sent := md_sent w; md_ran := md_ran w ++ [ver f] |} in
    if ok : bool then (inr tt, w1) else (inl DbError, w1)).

Definition status : D (list string * list string) :=
  let! known := migrations_table in
  if negb known then ret ([], ver <$> discover dir) else
  let! applied := applied_rows in
  ret (sort_names (mg_version <$> applied), List.filter (fun v => negb (bool_decide (v ∈ (mg_version <$> applied)))) (ver <$> discover dir)).

Definition baseline (note : string) (mode : mig_mode) : D MigResult :=
  for_each (discover dir) (fun f => record f (Some note)) ;;;
  ret {| mr_mode := mode; mr_baselined := ver <$> discover dir; mr_applied := [] |}.

(** the loop over the files; [applied] was read before it *)
Fixpoint apply_pending (applied : list MigRow) (files : list (string * string)) (ran : list string) : D (list string) :=
  match files with
  | [] => ret ran
  | f :: r =>
      if existsb (fun x => bool_decide (mg_version x = ver f)) applied then apply_pending applied r ran else
      try_with (run_file f) (fun _ => raise (MigrationError (ver f))) ;;;
      record f None ;;;
      apply_pending applied r (ran ++ [ver f])
  end.

Definition upgrade : D MigResult :=
  execute (modify (fun w => set_table (rows w) w)) ;;;       (* CREATE TABLE IF NOT EXISTS *)
  let! roles := roles_table in
  if negb roles then
    (fun w => let '(ok, s) := create_all (md_schema w) in if ok : bool then (inr tt, set_schema s w) else (inl DbError, set_schema s w)) ;;;
    baseline "baseline:create_all" Fresh
  else
    let! applied := applied_rows in
    match applied with
    | [] => baseline "baseline:existing" Baseline
    | _ :: _ => let! ran := apply_pending applied (discover dir) [] in ret {| mr_mode := Incremental; mr_baselined := []; mr_applied := ran |}
    end.
End Upgrade.

(** ** What was recorded is not run again *)

Definition versions (l : list MigRow) : list string := mg_version <$> l.
(** Since [w0] rows were only added, and no version of [vs] was run. *)
Definition ran_outside (vs : list string) (w0 w : MigWorld) : Prop :=
  (exists rs, rows w = rows w0 ++ rs) /\ exists l, md_ran w = md_ran w0 ++ l /\ forall v, v ∈ l -> v ∉ vs.
Lemma ran_outside_refl vs w : ran_outside vs w w.
Proof. split; [exists []|exists []; split]; rewrite ?app_nil_r; try done. by intros v Hv%elem_of_nil. Qed.
Lemma ran_outside_trans vs w0 w1 w2 : ran_outside vs w0 w1 -> ran_outside vs w1 w2 -> ran_outside vs w0 w2.
Proof.
  intros [(r1 & H1) (l1 & E1 & O1)] [(r2 & H2) (l2 & E2 & O2)]. split; [exists (r1 ++ r2); by rewrite H2, H1, app_assoc|].
  exists (l1 ++ l2). split; [by rewrite E2, E1, app_assoc|]. intros v [?|?]%elem_of_app; auto.
Qed.
Lemma ran_outside_mono vs vs' w0 w : (forall v, v ∈ vs -> v ∈ vs') -> ran_outside vs' w0 w -> ran_outside vs w0 w.
Proof. intros Hs [H (l & E & O)]. split; [done|]. exists l. split; [done|]. intros v Hv Hin. by apply (O v), Hs. Qed.
Lemma ran_outside_same vs w0 w w' : ran_outside vs w0 w -> rows w' = rows w -> md_ran w' = md_ran w -> ran_outside vs w0 w'.
Proof. intros [(rs & Hr) (l & E & O)] Hr' Hl'. split; [exists rs; congruence|]. exists l. split; [congruence|done]. Qed.

Section Keep.
Context (lost : nat -> bool) (vs : list string) (w0 : MigWorld).
Notation kept := (keeps (E := mig_exn) (ran_outside vs w0)).

Lemma kept_execute {A} (m : D A) : kept m -> kept (execute lost m).
Proof.
  intros Hm w Hw. unfold execute. destruct (lost _); [by eapply ran_outside_same|]. apply Hm. by eapply ran_outside_same.
Qed.
Lemma kept_record f note : kept (record lost f note).
Proof.
  apply kept_execute. intros w [(rs & Hr) Hl]. destruct (existsb _ _); [by split; [exists rs|]|]. split; [|done].
  eexists. cbn [snd rows set_table md_table default]. by rewrite Hr, <- app_assoc.
Qed.
Lemma kept_run_file f : ver f ∉ vs -> kept (run_file lost f).
Proof.
  intros Hf. unfold run_file. case_bool_decide; [apply keeps_ret|]. apply kept_execute. intros w [Hr (l & E & O)].
  destruct (run_sql _ _) as [ok s]. assert (H2 : exists l, md_ran w ++ [ver f] = md_ran w0 ++ l /\ forall v, v ∈ l -> v ∉ vs).
  { exists (l ++ [ver f]). rewrite E, <- app_assoc. split; [done|]. intros v [Hv| ->%list_elem_of_singleton]%elem_of_app; [by apply O|done]. }
  by destruct ok.
Qed.
Lemma kept_pending applied files ran : (forall v, v ∈ vs -> v ∈ versions applied) -> kept (apply_pending lost applied files ran).
Proof.
  intros Hvs. revert ran. induction files as [|f r IH]; intros ran; cbn; [apply keeps_ret|].
  destruct (existsb _ _) eqn:E; [apply IH|]. assert (Hf : ver f ∉ vs).
  { intros Hv%Hvs. apply not_true_iff_false in E. apply E, existsb_exists. apply list_elem_of_fmap in Hv as (x & Hx & Hin).
    exists x. split; [by apply list_elem_of_In|]. by apply bool_decide_eq_true. }
  apply keeps_bind; [apply keeps_try; [by apply kept_run_file|intros e; apply keeps_raise]|]. intros _.
  apply keeps_bind; [apply kept_record|]. intros _. apply IH.
Qed.
Lemma kept_baseline dir note mode : kept (baseline lost dir note mode).
Proof. apply keeps_bind; [apply keeps_for_each; intros; apply kept_record|]. intros _. apply keeps_ret. Qed.
End Keep.

(** ** A run, by the way it takes *)

Definition same_db (w w' : MigWorld) : Prop := md_schema w' = md_schema w /\ rows w' = rows w /\ md_ran w' = md_ran w.

Lemma execute_cases {A} lost (m : D A) w :
  exists w1, same_db w w1 /\ (execute lost m w = (inl DbError, w1) /\ lost (md_sent w) = true \/ execute lost m w = m w1).
Proof. unfold execute. destruct (lost (md_sent w)) eqn:E; eexists; (split; [|by auto]); done. Qed.

(** The table is made and read; then the schema is created and all files recorded, or all files
    recorded, or the pending ones applied. *)
Lemma upgrade_cases lost dir w :
  exists wc,
    (same_db w wc /\ upgrade lost dir w = (inl DbError, wc) /\ exists n, lost n = true) \/
    (has_roles (md_schema w) = false /\ rows wc = rows w /\ md_ran wc = md_ran w /\ md_schema wc = snd (create_all (md_schema w)) /\
       (fst (create_all (md_schema w)) = false /\ upgrade lost dir w = (inl DbError, wc) \/
        fst (create_all (md_schema w)) = true /\ upgrade lost dir w = baseline lost dir "baseline:create_all" Fresh wc)) \/
    (has_roles (md_schema w) = true /\ rows w = [] /\ same_db w wc /\ upgrade lost dir w = baseline lost dir "baseline:existing" Baseline wc) \/
    (has_roles (md_schema w) = true /\ rows w <> [] /\ same_db w wc /\
       upgrade lost dir w = bind (apply_pending lost (rows w) (discover dir) []) (fun ran => ret {| mr_mode := Incremental; mr_baselined := []; mr_applied := ran |}) wc).
Proof.
  remember (upgrade lost dir w) as res eqn:E. unfold upgrade, bind at 1 in E. revert E.
  destruct (execute_cases lost (modify (fun w => set_table (rows w) w)) w) as (w1 & (Hs1 & Ht1 & Hr1) & [[-> Hl]| ->]); [intros ->; exists w1; left; unfold same_db; eauto 7|].
  cbn [modify]. set (w1' := set_table _ w1). assert (same_db w w1') as (Hs & Ht & Hr) by (unfold same_db; cbn; auto). clearbody w1'. clear Hs1 Ht1 Hr1 w1.
  unfold roles_table, bind at 1. destruct (execute_cases lost (gets (fun w => has_roles (md_schema w))) w1') as (w2 & (Hs2 & Ht2 & Hr2) & [[-> Hl]| ->]).
  { intros ->. exists w2. left. unfold same_db. split_and!; [congruence..|done|eauto]. }
  cbn [gets]. rewrite Hs2, Hs. destruct (has_roles (md_schema w)) eqn:Eroles; cbn [negb].
  - unfold applied_rows, bind at 1. destruct (execute_cases lost (gets rows) w2) as (w3 & (Hs3 & Ht3 & Hr3) & [[-> Hl]| ->]).
    { intros ->. exists w3. left. unfold same_db. split_and!; [congruence..|done|eauto]. }
    cbn [gets]. intros E. exists w3. right; right. assert (same_db w w3) by (unfold same_db; split_and!; congruence). replace (rows w3) with (rows w) in E by congruence.
    destruct (rows w) as [|x l] eqn:Er; [left|right]; by split_and!.
  - unfold bind at 1. rewrite Hs2, Hs. destruct (create_all (md_schema w)) as [ok s] eqn:Ec. intros E. exists (set_schema s w2). right; left. cbn [fst snd].
    split_and!; [done|cbn; unfold rows in *; cbn; congruence|cbn; congruence|done|]. destruct ok; auto.
Qed.

Definition pending (applied : list MigRow) (files : list (string * string)) : list string :=
  List.filter (fun v => negb (bool_decide (v ∈ versions applied))) (ver <$> files).
Lemma in_applied f applied : existsb (fun r => bool_decide (mg_version r = ver f)) applied = bool_decide (ver f ∈ versions applied).
Proof.
  apply eq_true_iff_eq. rewrite existsb_exists, bool_decide_eq_true. unfold versions. rewrite list_elem_of_fmap.
  split; intros (x & H1 & H2); exists x; revert H1 H2; rewrite ?bool_decide_eq_true, ?list_elem_of_In; auto.
Qed.

Lemma record_inr lost f note w u w' :
  record lost f note w = (inr u, w') -> md_schema w' = md_schema w /\ md_ran w' = md_ran w /\ versions (rows w') = versions (rows w) ++ [ver f] /\ ver f ∉ versions (rows w).
Proof.
  unfold record. destruct (execute_cases lost (fun w => if existsb (fun r => bool_decide (mg_version r = ver f)) (rows w) then (inl DbError, w) else (inr tt,
    set_table (rows w ++ [{| mg_version := ver f; mg_filename := fst f; mg_checksum := sha256 (snd f); mg_note := note |}]) w)) w) as (w1 & (Hs & Ht & Hr) & [[-> _]| ->]); [done|].
  rewrite in_applied, Ht. case_bool_decide; [done|]. intros [= _ <-]. cbn. split_and!; [done..| |done]. unfold versions. by rewrite fmap_app.
Qed.
Lemma record_inl lost f note w e w' :
  record lost f note w = (inl e, w') -> e = DbError /\ same_db w w' /\ ((exists n, lost n = true) \/ ver f ∈ versions (rows w)).
Proof.
  unfold record. destruct (execute_cases lost (fun w => if existsb (fun r => bool_decide (mg_version r = ver f)) (rows w) then (inl DbError, w) else (inr tt,
    set_table (rows w ++ [{| mg_version := ver f; mg_filename := fst f; mg_checksum := sha256 (snd f); mg_note := note |}]) w)) w) as (w1 & Hw & [[-> Hl]| ->]).
  - intros [= <- <-]. split_and!; [done..|eauto].
  - pose proof Hw as (Hs & Ht & Hr). rewrite in_applied, Ht. case_bool_decide; [|done]. intros [= <- <-]. auto.
Qed.

Lemma baseline_inr lost dir note mode w r w' :
  baseline lost dir note mode w = (inr r, w') ->
  md_schema w' = md_schema w /\ md_ran w' = md_ran w /\ versions (rows w') = versions (rows w) ++ (ver <$> discover dir) /\
  r = {| mr_mode := mode; mr_baselined := ver <$> discover dir; mr_applied := [] |}.
Proof.
  intros H. unfold baseline in H. apply bind_inr in H as (u & w1 & Hm & H). apply ret_inr in H as [-> ->].
  assert (md_schema w1 = md_schema w /\ md_ran w1 = md_ran w /\ versions (rows w1) = versions (rows w) ++ (ver <$> discover dir)) as (? & ? & ?); [|done].
  revert w Hm. induction (discover dir) as [|f l IH]; intros w Hm; cbn in Hm; [apply ret_inr in Hm as [_ ->]; by rewrite app_nil_r|].
  apply bind_inr in Hm as (u' & w2 & H1 & H2). apply record_inr in H1 as (? & ? & Hv & _). apply IH in H2 as (? & ? & Hv2).
  split_and!; [congruence..|]. rewrite Hv2, Hv, <- app_assoc. done.
Qed.

Lemma run_file_cases lost f w r w' :
  run_file lost f w = (r, w') -> rows w' = rows w /\ (exists l, md_ran w' = md_ran w ++ l /\ l ⊆ [ver f]).
Proof.
  unfold run_file. case_bool_decide; [intros [= _ <-]; split; [done|exists []; split; [by rewrite app_nil_r|set_solver]]|].
  match goal with |- execute lost ?m w = _ -> _ => destruct (execute_cases lost m w) as (w1 & (Hs & Ht & Hr) & [[-> _]| ->]) end.
  - intros [= _ <-]. split; [done|]. exists []. split; [by rewrite app_nil_r|set_solver].
  - destruct (run_sql _ _) as [ok s]. intros E. assert (w' = {| md_schema := s; md_table := md_table w1; md_sent := md_sent w1; md_ran := md_ran w1 ++ [ver f] |}) as ->
      by (destruct ok; by injection E as _ <-). split; [exact Ht|]. exists [ver f]. split; [cbn; by rewrite Hr|done].
Qed.

(** A loop that ends recorded what was pending, in order. *)
Lemma apply_pending_inr lost applied files ran w ran' w' :
  apply_pending lost applied files ran w = (inr ran', w') ->
  ran' = ran ++ pending applied files /\ versions (rows w') = versions (rows w) ++ pending applied files /\
  exists l, md_ran w' = md_ran w ++ l /\ l ⊆ pending applied files.
Proof.
  unfold pending. revert ran w. induction files as [|f r IH]; intros ran w H; cbn in H.
  { apply ret_inr in H as [-> ->]. cbn. rewrite !app_nil_r. split_and!; [done..|exists []; split; [by rewrite app_nil_r|set_solver]]. }
  rewrite in_applied in H. cbn. destruct (bool_decide (ver f ∈ versions applied)); cbn; [by apply IH|].
  apply bind_inr in H as (u & w1 & H1 & H). apply bind_inr in H as (u2 & w2 & H2 & H).
  assert (run_file lost f w = (inr u, w1)) as (Hrw & l & Hl & Hsub)%run_file_cases by (revert H1; unfold try_with; destruct (run_file lost f w) as [[]]; done).
  apply record_inr in H2 as (_ & Hr2 & Hv2 & _). apply IH in H as (-> & Hv & l' & Hl' & Hsub').
  split_and!; [by rewrite <- app_assoc|by rewrite Hv, Hv2, Hrw, <- app_assoc|].
  exists (l ++ l'). split; [by rewrite Hl', Hr2, Hl, app_assoc|]. set_solver.
Qed.

(** A loop that fails does so at a pending file, after the pending ones before it. *)
Lemma apply_pending_inl lost applied files ran w e w' :
  apply_pending lost applied files ran w = (inl e, w') ->
  exists f1 f f2, files = f1 ++ f :: f2 /\ ver f ∉ versions applied /\ versions (rows w') = versions (rows w) ++ pending applied f1 /\
    (exists l, md_ran w' = md_ran w ++ l /\ l ⊆ pending applied f1 ++ [ver f]) /\ (e = MigrationError (ver f) \/ e = DbError).
Proof.
  unfold pending. revert ran w. induction files as [|f r IH]; intros ran w H; cbn in H; [done|].
  rewrite in_applied in H. destruct (bool_decide_reflect (ver f ∈ versions applied)) as [Hin|Hin].
  { apply IH in H as (f1 & g & f2 & -> & Hg & Hv & Hl & He). exists (f :: f1), g, f2. cbn. by rewrite bool_decide_eq_true_2. }
  unfold bind at 1, try_with in H. destruct (run_file lost f w) as [[e1|u] w1] eqn:E1; pose proof (run_file_cases _ _ _ _ _ E1) as (Hrw & l & Hl & Hsub).
  { injection H as <- <-. exists [], f, r. cbn. rewrite app_nil_r, Hrw. split_and!; [done..|by exists l|by left]. }
  unfold bind at 1 in H. destruct (record lost f None w1) as [[e2|u2] w2] eqn:E2.
  { injection H as <- <-. apply record_inl in E2 as (-> & (_ & Hr2 & Hra2) & _). exists [], f, r. cbn. rewrite app_nil_r, Hr2, Hrw, Hra2. split_and!; [done..|by exists l|by right]. }
  apply record_inr in E2 as (_ & Hr2 & Hv2 & _). apply IH in H as (f1 & g & f2 & -> & Hg & Hv & (l' & Hl' & Hsub') & He).
  exists (f :: f1), g, f2. cbn. rewrite bool_decide_eq_false_2 by done. cbn. rewrite Hv, Hv2, Hrw, <- app_assoc. split_and!; try done.
  exists (l ++ l'). split; [by rewrite Hl', Hr2, Hl, app_assoc|]. set_solver.
Qed.

Lemma upgrade_keeps lost dir w : ran_outside (versions (rows w)) w (snd (upgrade lost dir w)).
Proof.
  assert (Hsame : forall wc, rows wc = rows w -> md_ran wc = md_ran w -> ran_outside (versions (rows w)) w wc)
    by (intros wc ? ?; eapply ran_outside_same; [apply ran_outside_refl|done..]).
  destruct (upgrade_cases lost dir w) as (wc & [((_ & Hr & Hl) & -> & _)|[(_ & Hr & Hl & _ & [(_ & ->)|(_ & ->)])|[(_ & _ & (_ & Hr & Hl) & ->)|(_ & _ & (_ & Hr & Hl) & ->)]]]);
    [by apply Hsame|by apply Hsame|apply kept_baseline; by apply Hsame..|].
  apply keeps_bind; [by apply kept_pending|intros; apply keeps_ret|by apply Hsame].
Qed.

(** ** Histories *)

(** Upgrades one after another, each with the files of its day; any statement may be lost. *)
Definition upgrades (lost : nat -> bool) (w : MigWorld) (dirs : list Dir) : MigWorld := foldl (fun w d => snd (upgrade lost d w)) w dirs.

(** A migration that is recorded stays recorded and is never executed again, whatever upgrades
    follow and wherever they break off. *)
Theorem recorded_migration_never_reruns lost dirs w :
  (exists rs, rows (upgrades lost w dirs) = rows w ++ rs) /\
  exists l, md_ran (upgrades lost w dirs) = md_ran w ++ l /\ forall v, v ∈ l -> v ∉ versions (rows w).
Proof.
  change (ran_outside (versions (rows w)) w (upgrades lost w dirs)). revert w. induction dirs as [|d dirs IH]; intros w; [apply ran_outside_refl|].
  cbn. pose proof (upgrade_keeps lost d w) as H. eapply ran_outside_trans; [exact H|]. eapply ran_outside_mono; [|apply IH].
  destruct H as [(rs & ->) _]. intros v Hv. unfold versions. rewrite fmap_app. set_solver.
Qed.

(** An upgrade that succeeds records every version of its directory, in order: of a database
    with a history it executes the pending files and no other; otherwise it executes none. *)
Theorem upgrade_records_every_version lost dir w r w' :
  upgrade lost dir w = (inr r, w') ->
  versions (rows w') = versions (rows w) ++ mr_baselined r ++ mr_applied r /\
  (forall f, f ∈ discover dir -> ver f ∈ versions (rows w')) /\
  (has_roles (md_schema w) = true -> rows w <> [] ->
     mr_mode r = Incremental /\ mr_baselined r = [] /\ mr_applied r = pending (rows w) (discover dir) /\ exists l, md_ran w' = md_ran w ++ l /\ l ⊆ mr_applied r) /\
  (has_roles (md_schema w) = false \/ rows w = [] -> mr_applied r = [] /\ md_ran w' = md_ran w).
Proof.
  intros H.
  assert (Hall : forall l : list string, (ver <$> discover dir) ⊆ l -> forall f, f ∈ discover dir -> ver f ∈ l) by (intros l Hl f Hf; apply Hl; by apply list_elem_of_fmap_2).
  destruct (upgrade_cases lost dir w) as (wc & [((_ & Hr & Hl) & E & _)|[(Hro & Hr & Hl & _ & [(_ & E)|(_ & E)])|[(Hro & Hn & (_ & Hr & Hl) & E)|(Hro & Hn & (_ & Hr & Hl) & E)]]]);
    rewrite H in E; try discriminate E; symmetry in E.
  - apply baseline_inr in E as (_ & Hra & Hv & ->). rewrite Hr in Hv. cbn. rewrite app_nil_r. split_and!; [done|apply Hall; rewrite Hv; set_solver|congruence|]. intros _. split; congruence.
  - apply baseline_inr in E as (_ & Hra & Hv & ->). rewrite Hr in Hv. cbn. rewrite app_nil_r. split_and!; [done|apply Hall; rewrite Hv; set_solver|done|]. intros _. split; congruence.
  - apply bind_inr in E as (ran & w1 & E & H1). apply ret_inr in H1 as [-> ->]. apply apply_pending_inr in E as (-> & Hv & l & Hra & Hsub). cbn. rewrite Hr in Hv.
    split_and!; [done| |intros _ _; split_and!; try done; exists l; split; [congruence|done]|intros [?|?]; congruence].
    apply Hall. rewrite Hv. unfold pending. intros v Hvin. rewrite elem_of_app. destruct (decide (v ∈ versions (rows w))); [by left|right].
    apply list_elem_of_In, filter_In. split; [by apply list_elem_of_In|]. by rewrite bool_decide_eq_false_2.
Qed.

Lemma pending_app applied l1 l2 : pending applied (l1 ++ l2) = pending applied l1 ++ pending applied l2.
Proof. unfold pending. by rewrite fmap_app, List.filter_app. Qed.
Lemma elem_of_pending_files v applied l : v ∈ pending applied l <-> v ∈ (ver <$> l) /\ v ∉ versions applied.
Proof.
  unfold pending. rewrite list_elem_of_In, filter_In, <- list_elem_of_In, negb_true_iff. by rewrite bool_decide_eq_false.
Qed.
Lemma pending_none applied l : (forall f, f ∈ l -> ver f ∈ versions applied) -> pending applied l = [].
Proof.
  intros H. destruct (pending applied l) as [|v r] eqn:E; [done|]. assert (v ∈ pending applied l) as [(f & -> & Hf)%list_elem_of_fmap Hv]%elem_of_pending_files by (rewrite E; by left).
  by destruct Hv; apply H.
Qed.
Lemma pending_ext applied applied' l :
  (forall f, f ∈ l -> ver f ∈ versions applied <-> ver f ∈ versions applied') -> pending applied l = pending applied' l.
Proof.
  intros H. unfold pending. induction l as [|f l IH]; [done|]. cbn. rewrite IH by (intros g Hg; apply H; by right).
  by rewrite (bool_decide_ext (ver f ∈ versions applied) (ver f ∈ versions applied')) by (apply H; by left).
Qed.

(** C15: An upgrade of a database with a history that fails leaves the versions before the failing
    file recorded and the others not, and executed no later file; the next upgrade that
    succeeds on the same files starts with the file that failed. *)
Theorem failed_upgrade_resumes lost dir w e w' :
  upgrade lost dir w = (inl e, w') -> has_roles (md_schema w) = true -> rows w <> [] -> NoDup (ver <$> discover dir) ->
  (e = DbError /\ same_db w w') \/
  exists f1 f f2, discover dir = f1 ++ f :: f2 /\ ver f ∉ versions (rows w') /\ (e = MigrationError (ver f) \/ e = DbError) /\
    versions (rows w') = versions (rows w) ++ pending (rows w) f1 /\
    (exists l, md_ran w' = md_ran w ++ l /\ l ⊆ pending (rows w) f1 ++ [ver f]) /\
    forall lost2 r w2, has_roles (md_schema w') = true -> upgrade lost2 dir w' = (inr r, w2) -> mr_applied r = ver f :: pending (rows w) f2.
Proof.
  intros H Hro Hn Hnd.
  destruct (upgrade_cases lost dir w) as (wc & [(Hs & E & _)|[(Hro' & _)|[(_ & Hn' & _)|(_ & _ & (_ & Hr & Hl) & E)]]]); [left|congruence..|right].
  { rewrite H in E. by injection E as -> ->. }
  rewrite H in E. symmetry in E. unfold bind in E. destruct (apply_pending _ _ _ _ wc) as [[e1|ran] w1] eqn:E1; [|discriminate E].
  injection E as -> ->. apply apply_pending_inl in E1 as (f1 & f & f2 & Hd & Hf & Hv & (l & Hra & Hsub) & He). rewrite Hr in Hv.
  rewrite Hd, fmap_app in Hnd. apply NoDup_app in Hnd as (_ & Hdis & [Hf2 _]%NoDup_cons).
  assert (Hnew : ver f ∉ versions (rows w')).
  { rewrite Hv, elem_of_app, elem_of_pending_files. intros [?|[Hin _]]; [done|]. apply (Hdis _ Hin). by left. }
  exists f1, f, f2. split_and!; try done; [exists l; split; [congruence|done]|].
  intros lost2 r w2 Hro2 Hu. apply upgrade_records_every_version in Hu as (_ & _ & Hinc & _).
  destruct Hinc as (_ & _ & -> & _); [done| |]. { intros E0. rewrite E0 in Hv. destruct (rows w) eqn:Ew; [done|]. discriminate Hv. }
  rewrite Hd, pending_app, pending_none. 2: { intros g Hg. rewrite Hv, elem_of_app, elem_of_pending_files. destruct (decide (ver g ∈ versions (rows w))); [by left|right]. split; [by apply list_elem_of_fmap_2|done]. }
  unfold pending at 1. cbn. rewrite bool_decide_eq_false_2 by done. cbn. f_equal. apply pending_ext. intros g Hg. rewrite Hv, elem_of_app, elem_of_pending_files.
  split; [|auto]. intros [?|[Hin _]]; [done|]. exfalso. apply (Hdis _ Hin). right. by apply list_elem_of_fmap_2.
Qed.

(** An upgrade after one that succeeded, on the same files, changes nothing. *)
Theorem upgrade_is_idempotent lost dir w r w' lost2 :
  upgrade lost dir w = (inr r, w') -> has_roles (md_schema w') = true -> same_db w' (snd (upgrade lost2 dir w')).
Proof.
  intros (_ & Hall & _)%upgrade_records_every_version Hro.
  destruct (upgrade_cases lost2 dir w') as (wc & [(Hs & -> & _)|[(Hro' & _)|[(_ & Hn & Hs & ->)|(_ & _ & Hs & ->)]]]); [done|congruence|..].
  - unfold baseline. destruct (discover dir) as [|f l]; [done|]. specialize (Hall f ltac:(left)). by rewrite Hn, elem_of_nil in Hall.
  - assert (Hp : forall files, (forall f, f ∈ files -> ver f ∈ versions (rows w')) -> forall ran, apply_pending lost2 (rows w') files ran = ret ran).
    { induction files as [|f l IH]; intros Hf ran; [done|]. cbn. rewrite in_applied, bool_decide_eq_true_2 by (apply Hf; left). apply IH. intros g Hg. apply Hf. by right. }
    unfold bind. by rewrite Hp.
Qed.

Lemma record_runs lost f note w : (forall n, lost n = false) -> ver f ∉ versions (rows w) -> exists u w', record lost f note w = (inr u, w').
Proof.
  intros Hl Hf. destruct (record lost f note w) as [[e|u] w'] eqn:E; [|by exists u, w'].
  apply record_inl in E as (_ & _ & [[n Hn]|Hin]); [congruence|done].
Qed.
Lemma run_file_runs lost f w : (forall n, lost n = false) -> (forall sql s, fst (run_sql sql s) = true) -> exists w', run_file lost f w = (inr tt, w').
Proof.
  intros Hl Hok. unfold run_file. case_bool_decide; [by eexists|]. unfold execute. rewrite Hl. cbn.
  pose proof (Hok (strip (strip_db_statements (snd f))) (md_schema w)) as H1. destruct (run_sql _ _) as [ok s]. cbn in H1. rewrite H1. by eexists.
Qed.

Lemma records_run lost note files w :
  (forall n, lost n = false) -> NoDup (ver <$> files) -> (forall f, f ∈ files -> ver f ∉ versions (rows w)) ->
  exists w', for_each files (fun f => record lost f note) w = (inr tt, w').
Proof.
  intros Hl. revert w. induction files as [|f l IH]; intros w Hnd Hw; [by eexists|].
  cbn in Hnd |- *. apply NoDup_cons in Hnd as [Hf Hnd]. destruct (record_runs lost f note w Hl (Hw f ltac:(left))) as (u & w1 & E).
  unfold bind. rewrite E. apply IH; [done|]. intros g Hg. apply record_inr in E as (_ & _ & -> & _).
  rewrite elem_of_app, list_elem_of_singleton. intros [?|Eg]; [by apply (Hw g); [right|]|]. apply Hf. rewrite <- Eg. by apply list_elem_of_fmap_2.
Qed.
Lemma pending_runs lost applied files ran w :
  (forall n, lost n = false) -> (forall sql s, fst (run_sql sql s) = true) -> NoDup (ver <$> files) ->
  (forall f, f ∈ files -> ver f ∉ versions applied -> ver f ∉ versions (rows w)) ->
  exists ran' w', apply_pending lost applied files ran w = (inr ran', w').
Proof.
  intros Hl Hok. revert ran w. induction files as [|f l IH]; intros ran w Hn Hw; [by eexists _, _|]. cbn in Hn |- *. apply NoDup_cons in Hn as [Hf Hn]. rewrite in_applied.
  case_bool_decide as Hin; [apply IH; [done|]; intros g Hg; apply Hw; by right|].
  destruct (run_file_runs lost f w Hl Hok) as (w1 & E1). pose proof (run_file_cases _ _ _ _ _ E1) as [Hr1 _].
  destruct (record_runs lost f None w1 Hl) as (u & w2 & E2); [rewrite Hr1; apply Hw; [left|done]|].
  unfold bind, try_with. rewrite E1, E2. apply IH; [done|]. intros g Hg Hng. apply record_inr in E2 as (_ & _ & -> & _).
  rewrite Hr1, elem_of_app, list_elem_of_singleton. intros [Hin2|Eg]; [revert Hin2; apply Hw; [by right|done]|]. apply Hf. rewrite <- Eg. by apply list_elem_of_fmap_2.
Qed.

(** When no statement is lost and every text runs, an upgrade goes through. *)
Theorem upgrade_completes lost dir w :
  (forall n, lost n = false) -> (forall sql s, fst (run_sql sql s) = true) -> NoDup (ver <$> discover dir) ->
  (has_roles (md_schema w) = false -> fst (create_all (md_schema w)) = true /\ forall f, f ∈ discover dir -> ver f ∉ versions (rows w)) ->
  exists r w', upgrade lost dir w = (inr r, w').
Proof.
  intros Hl Hok Hnd Hfresh.
  destruct (upgrade_cases lost dir w) as (wc & [(_ & _ & n & Hn)|[(Hro & Hr & _ & _ & [(Hc & _)|(_ & ->)])|[(_ & Hn & (_ & Hr & _) & ->)|(_ & _ & (_ & Hr & _) & ->)]]]); [congruence|destruct (Hfresh Hro); congruence|..].
  - destruct (records_run lost (Some "baseline:create_all"%string) (discover dir) wc Hl Hnd) as (w' & E); [rewrite Hr; by apply Hfresh|].
    unfold baseline, bind. rewrite E. by eexists _, _.
  - destruct (records_run lost (Some "baseline:existing"%string) (discover dir) wc Hl Hnd) as (w' & E); [rewrite Hr, Hn; intros f _ Hf; by apply elem_of_nil in Hf|].
    unfold baseline, bind. rewrite E. by eexists _, _.
  - destruct (pending_runs lost (rows w) (discover dir) [] wc Hl Hok Hnd) as (ran & w' & E); [by rewrite Hr|]. unfold bind. rewrite E. by eexists _, _.
Qed.

(** After an upgrade that succeeded the page shows nothing pending. *)
Theorem nothing_pending_after lost lost2 dir w r w' :
  upgrade lost dir w = (inr r, w') -> (forall n, lost2 n = false) ->
  fst (status lost2 dir w') = inr (sort_names (versions (rows w')), []).
Proof.
  intros (_ & Hall & _)%upgrade_records_every_version Hl. unfold status, migrations_table, applied_rows, bind, execute. rewrite !Hl. cbn [gets fst snd].
  assert (Hn : pending (rows w') (discover dir) = []) by by apply pending_none.
  destruct (md_table w') as [l|] eqn:Et; cbn.
  - rewrite Hl. cbn. unfold rows in *. rewrite Et in *. cbn in *. by rewrite <- Hn.
  - unfold rows in *. rewrite Et in *. destruct (discover dir) as [|f fs]; [done|]. specialize (Hall f ltac:(left)). by apply elem_of_nil in Hall.
Qed.
End Runner.

(** ** The fuel of [strip_db_statements] *)

Lemma lstrip_length s : (String.length (lstrip s) <= String.length s)%nat.
Proof. induction s as [|c r IH]; cbn; [done|]. destruct (is_space c); cbn; lia. Qed.
Lemma sdrop_length n s : String.length (sdrop n s) = (String.length s - n)%nat.
Proof. revert s. induction n as [|n IH]; intros [|c r]; cbn; by rewrite ?IH. Qed.
Lemma startswith_le k s : startswith k s = true -> (String.length k <= String.length s)%nat.
Proof. revert s. induction k as [|a k IH]; intros [|c r]; cbn; try done; [lia|]. intros [_ H]%andb_true_iff. apply IH in H. lia. Qed.
Lemma lower_length s : String.length (lower s) = String.length s.
Proof. induction s as [|c r IH]; cbn; [done|]. by rewrite IH. Qed.
Lemma keyword_length k s r : keyword k s = Some r -> String.length s = (String.length k + String.length r)%nat.
Proof.
  unfold keyword. destruct (startswith k (lower s)) eqn:E; [|done]. intros [= <-]. apply startswith_le in E. rewrite lower_length in E. rewrite sdrop_length. lia.
Qed.
Lemma after_semicolon_length s r : after_semicolon s = Some r -> (String.length r < String.length s)%nat.
Proof. induction s as [|c s IH]; cbn; [done|]. case_bool_decide; [intros [= <-]; lia|]. intros Hs%IH. lia. Qed.
Lemma blank_tail_length start s b r : blank_tail start s = Some (b, r) -> (String.length r <= String.length s)%nat.
Proof.
  revert start b r. induction s as [|c s IH]; intros start b r; cbn; [by intros [= _ <-]|]. destruct (is_space c); [|done].
  destruct (blank_tail _ s) as [[b' t]|] eqn:E; [intros [= _ <-]; apply IH in E; lia|]. case_bool_decide; [|done]. intros [= _ <-]. cbn. lia.
Qed.
Lemma db_statement_shorter s b r : db_statement s = Some (b, r) -> (String.length r < String.length s)%nat.
Proof.
  unfold db_statement. pose proof (lstrip_length s). set (t := lstrip s) in *.
  assert (Hend : forall k, match (if word_ends k then match after_semicolon k with Some r => blank_tail false r | None => None end else None) with
    Some (_, r) => (String.length r < String.length k)%nat | None => True end).
  { intros k. destruct (word_ends k); [|done]. destruct (after_semicolon k) as [u|] eqn:E; [|done]. apply after_semicolon_length in E.
    destruct (blank_tail false u) as [[? ?]|] eqn:E2; [|done]. apply blank_tail_length in E2. lia. }
  destruct (keyword "use" t) as [k|] eqn:Ek.
  { intros Hk. specialize (Hend k). rewrite Hk in Hend. apply keyword_length in Ek. lia. }
  destruct (keyword "create" t) as [[|c k]|] eqn:Ec; [done| |done]. destruct (is_space c); [|done].
  destruct (keyword "database" (lstrip k)) as [k2|] eqn:Ed; [|done]. intros Hk. specialize (Hend k2). rewrite Hk in Hend.
  apply keyword_length in Ec, Ed. pose proof (lstrip_length k). cbn in Ec. lia.
Qed.

(** The text's length is enough. *)
Lemma strip_go_enough n m start s : (String.length s <= n)%nat -> (String.length s <= m)%nat -> strip_go n start s = strip_go m start s.
Proof.
  revert m start s. induction n as [|n IH]; intros m start s Hn Hm.
  { destruct s; [|cbn in Hn; lia]. by destruct m, start. }
  destruct m as [|m]; [destruct s; [|cbn in Hm; lia]; by destruct start|]. cbn.
  destruct (if start then db_statement s else None) as [[b r]|] eqn:E.
  - destruct start; [|done]. apply db_statement_shorter in E. apply IH; lia.
  - destruct s as [|c r]; [done|]. cbn in Hn, Hm. rewrite (IH m) by lia. done.
Qed.

(** ** Witnesses *)

(** A schema as the list of what was done to it. *)
Definition toy_roles (s : list string) : bool := bool_decide ("CREATE TABLE roles (id INT);"%string ∈ s) || bool_decide ("models"%string ∈ s).
Definition toy_create (s : list string) : bool * list string := (true, s ++ ["models"%string]).
Definition toy_run (sql : string) (s : list string) : bool * list string := if bool_decide (sql = "BAD;"%string) then (false, s) else (true, s ++ [sql]).
Definition demo_dir : Dir :=
  Some [("notes.txt", "x"); ("0001_next.sql", "ALTER TABLE roles ADD COLUMN x INT;"); ("0000_init.sql", "USE axp;" +:+ String nl "CREATE TABLE roles (id INT);")]%string.
Definition later_dir : Dir := (fun l => l ++ [("0002_bad.sql", "BAD;"); ("0003_more.sql", "ALTER TABLE roles ADD COLUMN y INT;")]%string) <$> demo_dir.
Definition no_db : MigWorld (S := list string) := {| md_schema := []; md_table := None; md_sent := 0; md_ran := [] |}.
Definition demo_upgrade (lost : nat -> bool) (dir : Dir) (w : MigWorld) := upgrade toy_roles toy_create toy_run (fun s => s) lost dir w.
Definition steady : nat -> bool := fun _ => false.
Definition installed : MigWorld := snd (demo_upgrade steady demo_dir no_db).

Lemma upgrade_records_every_version_witness :
  versions (rows installed) = ["0000"; "0001"]%string /\ md_schema installed = ["models"%string].
Proof.
  destruct (upgrade_records_every_version toy_roles toy_create toy_run (fun s => s) steady demo_dir no_db
    {| mr_mode := Fresh; mr_baselined := ["0000"; "0001"]%string; mr_applied := [] |} installed ltac:(vm_compute; reflexivity)) as (H & _).
  split; [exact H|vm_compute; reflexivity].
Defined.

(** The third file fails, the fourth is not tried; the next upgrade begins with the third. *)
Lemma failed_upgrade_resumes_witness :
  let w := snd (demo_upgrade steady later_dir installed) in
  fst (demo_upgrade steady later_dir installed) = inl (MigrationError "0002") /\ versions (rows w) = ["0000"; "0001"]%string /\ md_ran w = ["0002"%string].
Proof.
  cbv zeta. set (w := snd (demo_upgrade steady later_dir installed)).
  assert (E : demo_upgrade steady later_dir installed = (inl (MigrationError "0002"), w)) by (vm_compute; reflexivity).
  destruct (failed_upgrade_resumes toy_roles toy_create toy_run (fun s => s) steady later_dir installed (MigrationError "0002") w E) as [[He _]|(f1 & f & f2 & Hd & Hf & He & Hv & _)];
    [reflexivity|discriminate|decide_it|discriminate He|].
  split_and!; [by rewrite E|vm_compute; reflexivity|vm_compute; reflexivity].
Defined.

Lemma upgrade_is_idempotent_witness : same_db installed (snd (demo_upgrade steady demo_dir installed)).
Proof.
  exact (upgrade_is_idempotent toy_roles toy_create toy_run (fun s => s) steady demo_dir no_db
    {| mr_mode := Fresh; mr_baselined := ["0000"; "0001"]%string; mr_applied := [] |} installed steady ltac:(vm_compute; reflexivity) ltac:(reflexivity)).
Defined.

Lemma upgrade_completes_witness : exists r w', upgrade toy_roles toy_create (fun sql s => (true, s ++ [sql])) (fun s => s) steady later_dir installed = (inr r, w').
Proof. apply upgrade_completes; [done|done|decide_it|]. intros H. vm_compute in H. discriminate H. Defined.

(** ** What an upgrade does not guard against *)

(** The rows of a baseline are written one by one: when the run breaks off after the first, the
    next upgrade takes the schema the models made for an old one and runs the files it already
    embodies. *)
Lemma interrupted_baseline_replays :
  let broken := snd (demo_upgrade (fun n => (n =? 3)%nat) demo_dir no_db) in
  versions (rows broken) = ["0000"%string] /\ md_schema broken = ["models"%string] /\
  md_schema (snd (demo_upgrade steady demo_dir broken)) = ["models"; "ALTER TABLE roles ADD COLUMN x INT;"]%string.
Proof. by vm_compute. Qed.

(** Two files of one number: both run, the second cannot be recorded, and later upgrades skip it. *)
Lemma equal_versions_run_unrecorded :
  let dir := (fun l => l ++ [("0002_a.sql", "A;"); ("0002_b.sql", "B;")]%string) <$> demo_dir in
  let w := snd (demo_upgrade steady dir installed) in
  fst (demo_upgrade steady dir installed) = inl DbError /\ md_schema w = ["models"; "A;"; "B;"]%string /\
  match fst (demo_upgrade steady dir w) with inr r => mr_applied r = [] | inl _ => False end.
Proof. by vm_compute. Qed.

(** Versions are compared as text. *)
Lemma versions_ordered_as_text : ver <$> discover (Some [("9_a.sql", ""); ("10_b.sql", "")]%string) = ["10"; "9"]%string.
Proof. by vm_compute. Qed.

(** A line that begins with USE inside a statement is cut out of it; a USE with a comment behind
    it is kept and changes the schema of the connection. *)
Lemma use_index_is_cut :
  strip_db_statements ("SELECT 1 FROM t" +:+ String nl ("USE INDEX (i)" +:+ String nl "WHERE a = 1;")) = ("SELECT 1 FROM t" +:+ String nl "")%string /\
  strip_db_statements "USE axp; -- the schema"%string = "USE axp; -- the schema"%string.
Proof. by vm_compute. Qed.
