(* ===== verification/AccessControl.v ===== *)
(** * Doors and access credentials

    src/server/service/access_control.py, controller/access.py, driver/door.py;
    model/door.py, access_credential.py, access_event.py.

    [hash_pin] (sha256 with the server secret) and the vendor's HTTP relay are
    parameters, and so is the [access_control] feature flag.  Ids and the clock are
    those of the event world the access events are raised in; who changed a row is
    not kept. *)

From stdpp Require Import pretty.
From S2P Require Import Prelude PyStr Redis Permission Token Storage EventPipeline.
Local Open Scope Z_scope.

Record Door := {
  dr_id : Z;
  dr_name : string;
  dr_controller_type : string;
  dr_host : option string;            (* controller_config['host'] *)
  dr_lock_state : string;
  dr_camera_id : option Z;
  dr_access_group : string;
  dr_require_pin : bool;
  dr_unlock_seconds : Z;
  dr_unlocked_at : option Z;
  dr_enabled : bool;
  dr_deleted_at : option Z
}.

Record AccessCredential := {
  ac_id : Z;
  ac_card_number : string;
  ac_holder_name : string;
  ac_access_group : string;
  ac_pin_hash : option string;
  ac_valid_from : option Z;
  ac_valid_until : option Z;
  ac_enabled : bool;
  ac_deleted_at : option Z
}.

Record AccessEvent := {
  ae_id : Z;
  ae_door_id : Z;
  ae_credential_id : option Z;
  ae_card_number : option string;
  ae_holder_name : option string;
  ae_decision : string;
  ae_reason : string;
  ae_source : string;
  ae_ts : Z
}.

Record AccessWorld := {
  aw_ew : EventWorld;
  aw_doors : list Door;
  aw_credentials : list AccessCredential;
  aw_log : list AccessEvent
}.

Definition aw_now (a : AccessWorld) : Z := ew_now (aw_ew a).
Definition set_aw_ew (w : EventWorld) (a : AccessWorld) : AccessWorld :=
  {| aw_ew := w; aw_doors := aw_doors a; aw_credentials := aw_credentials a; aw_log := aw_log a |}.
Definition set_doors (l : list Door) (a : AccessWorld) : AccessWorld :=
  {| aw_ew := aw_ew a; aw_doors := l; aw_credentials := aw_credentials a; aw_log := aw_log a |}.
Definition set_credentials (l : list AccessCredential) (a : AccessWorld) : AccessWorld :=
  {| aw_ew := aw_ew a; aw_doors := aw_doors a; aw_credentials := l; aw_log := aw_log a |}.
Definition set_log (l : list AccessEvent) (a : AccessWorld) : AccessWorld :=
  {| aw_ew := aw_ew a; aw_doors := aw_doors a; aw_credentials := aw_credentials a; aw_log := l |}.

(** ** Rows *)

Definition door_get_by_id (id : Z) (a : AccessWorld) : option Door :=
  List.find (fun d => (dr_id d =? id) && bool_decide (dr_deleted_at d = None)) (aw_doors a).

Definition put_door (d : Door) (a : AccessWorld) : AccessWorld :=
  set_doors ((fun x => if dr_id x =? dr_id d then d else x) <$> aw_doors a) a.

Definition mark_unlocked (now : Z) (d : Door) : Door :=
  {| dr_id := dr_id d; dr_name := dr_name d; dr_controller_type := dr_controller_type d; dr_host := dr_host d;
     dr_lock_state := "unlocked"; dr_camera_id := dr_camera_id d; dr_access_group := dr_access_group d;
     dr_require_pin := dr_require_pin d; dr_unlock_seconds := dr_unlock_seconds d; dr_unlocked_at := Some now;
     dr_enabled := dr_enabled d; dr_deleted_at := dr_deleted_at d |}.

Definition delete_door_row (now : Z) (d : Door) : Door :=
  {| dr_id := dr_id d; dr_name := dr_name d; dr_controller_type := dr_controller_type d; dr_host := dr_host d;
     dr_lock_state := dr_lock_state d; dr_camera_id := dr_camera_id d; dr_access_group := dr_access_group d;
     dr_require_pin := dr_require_pin d; dr_unlock_seconds := dr_unlock_seconds d; dr_unlocked_at := dr_unlocked_at d;
     dr_enabled := false; dr_deleted_at := Some now |}.

(** [effective_lock_state]: a pulse reverts once its window has passed *)
Definition effective_lock_state (now : Z) (d : Door) : string :=
  match dr_unlocked_at d with
  | Some at_ =>
      if bool_decide (dr_lock_state d = "unlocked"%string) && (or_Z (Some (dr_unlock_seconds d)) 5 * SEC <=? now - at_)
      then "locked" else dr_lock_state d
  | None => dr_lock_state d
  end.

(** the fields a door update may carry; [None]: not in the request, or null; the last two
    are [bool] of what is given, so that null there is [Some false] *)
Record DoorPatch := {
  dp_name : option string;
  dp_controller_type : option string;
  dp_host : option string;
  dp_camera_id : option Z;
  dp_access_group : option string;
  dp_unlock_seconds : option Z;
  dp_require_pin : option bool;
  dp_enabled : option bool
}.

Definition modify_door (p : DoorPatch) (d : Door) : Door :=
  {| dr_id := dr_id d; dr_name := default (dr_name d) (dp_name p);
     dr_controller_type := default (dr_controller_type d) (dp_controller_type p);
     dr_host := match dp_host p with Some h => Some h | None => dr_host d end; dr_lock_state := dr_lock_state d;
     dr_camera_id := match dp_camera_id p with Some c => Some c | None => dr_camera_id d end;
     dr_access_group := default (dr_access_group d) (dp_access_group p);
     dr_require_pin := default (dr_require_pin d) (dp_require_pin p);
     dr_unlock_seconds := default (dr_unlock_seconds d) (dp_unlock_seconds p); dr_unlocked_at := dr_unlocked_at d;
     dr_enabled := default (dr_enabled d) (dp_enabled p); dr_deleted_at := dr_deleted_at d |}.

Definition cred_get_by_id (id : Z) (a : AccessWorld) : option AccessCredential :=
  List.find (fun c => (ac_id c =? id) && bool_decide (ac_deleted_at c = None)) (aw_credentials a).

(** [str(card or '').strip()[:64]] *)
Definition normalize_card (card : string) : string := stake 64 (strip card).

Definition find_by_card (card : string) (a : AccessWorld) : option AccessCredential :=
  List.find (fun c => bool_decide (ac_card_number c = normalize_card card) && bool_decide (ac_deleted_at c = None))
    (aw_credentials a).

Definition is_valid_at (now : Z) (c : AccessCredential) : bool :=
  negb match ac_valid_from c with Some f => now <? f | None => false end &&
  negb match ac_valid_until c with Some u => u <? now | None => false end.

Definition put_credential (c : AccessCredential) (a : AccessWorld) : AccessWorld :=
  set_credentials ((fun x => if ac_id x =? ac_id c then c else x) <$> aw_credentials a) a.

Definition delete_credential_row (now : Z) (c : AccessCredential) : AccessCredential :=
  {| ac_id := ac_id c; ac_card_number := ac_card_number c; ac_holder_name := ac_holder_name c;
     ac_access_group := ac_access_group c; ac_pin_hash := ac_pin_hash c; ac_valid_from := ac_valid_from c;
     ac_valid_until := ac_valid_until c; ac_enabled := false; ac_deleted_at := Some now |}.

(** validity bounds: outer [None] not in the request, inner [None] cleared; a PIN
    likewise; already converted to instants by [_parse_ms] *)
Record CredPatch := {
  cp_holder_name : option string;
  cp_access_group : option string;
  cp_valid_from : option (option Z);
  cp_valid_until : option (option Z);
  cp_pin : option (option string);
  cp_enabled : option bool
}.

Section Access.
Context (hash_pin : string -> string).

Definition pin_hash_of (pin : option string) : option string :=
  if truthy_str pin then hash_pin <$> pin else None.

Definition modify_credential (p : CredPatch) (c : AccessCredential) : AccessCredential :=
  {| ac_id := ac_id c; ac_card_number := ac_card_number c; ac_holder_name := default (ac_holder_name c) (cp_holder_name p);
     ac_access_group := default (ac_access_group c) (cp_access_group p);
     ac_pin_hash := match cp_pin p with Some pin => pin_hash_of pin | None => ac_pin_hash c end;
     ac_valid_from := default (ac_valid_from c) (cp_valid_from p);
     ac_valid_until := default (ac_valid_until c) (cp_valid_until p);
     ac_enabled := default (ac_enabled c) (cp_enabled p); ac_deleted_at := ac_deleted_at c |}.

Definition verify_pin (c : AccessCredential) (pin : option string) : bool :=
  match ac_pin_hash c with
  | None => true
  | Some h => match pin with Some p => bool_decide (hash_pin p = h) | None => false end
  end.

(** ** Decision (access_control.evaluate) *)

Definition evaluate (d : Door) (card : string) (pin : option string) (a : AccessWorld)
    : string * string * option AccessCredential :=
  if negb (dr_enabled d) then ("denied", "door_disabled", None)%string else
  match find_by_card (strip card) a with
  | None => ("denied", "unknown_card", None)%string
  | Some c =>
      if negb (ac_enabled c) then ("denied", "card_disabled", Some c)%string
      else if negb (is_valid_at (aw_now a) c) then ("denied", "expired", Some c)%string
      else if negb (bool_decide (dr_access_group d = "public"%string)) &&
              negb (bool_decide (ac_access_group c = dr_access_group d)) then ("denied", "wrong_group", Some c)%string
      else if dr_require_pin d && (bool_decide (ac_pin_hash c = None) || negb (verify_pin c pin))
      then ("denied", "bad_pin", Some c)%string
      else ("granted", "ok", Some c)%string
  end.

(** ** The lock (driver/door.py) *)

Context (vendor_http : Door -> string).        (* status of the relay call *)

Definition drive (d : Door) : string :=
  if bool_decide (dr_controller_type d = "mock"%string) then "ok"
  else if bool_decide (dr_controller_type d = "vendor_http"%string)
  then (if truthy_str (dr_host d) then vendor_http d else "failed"%string)
  else if bool_decide (dr_controller_type d = "onvif_relay"%string) then "skipped" else "failed".

Definition drive_unlock (d : Door) (a : AccessWorld) : Door * AccessWorld :=
  if bool_decide (drive d = "ok"%string) then let d' := mark_unlocked (aw_now a) d in (d', put_door d' a) else (d, a).

Definition record_access (door_id : Z) (decision reason : string) (cred : option AccessCredential) (card : option string)
    (source : string) (a : AccessWorld) : AccessEvent * AccessWorld :=
  let '(id, w1) := fresh_id (aw_ew a) in
  let e := {| ae_id := id; ae_door_id := door_id; ae_credential_id := ac_id <$> cred; ae_card_number := card;
              ae_holder_name := ac_holder_name <$> cred; ae_decision := decision; ae_reason := reason; ae_source := source;
              ae_ts := aw_now a |} in
  (e, set_log (aw_log a ++ [e]) (set_aw_ew w1 a)).

(** ** The swipe *)

Context (utc_offset : Z -> Z) (live_cameras : list Z).

Definition access_event_input (d : Door) (decision : string) (e : AccessEvent) : NormalizedEvent :=
  {| n_type := "access"; n_state := "pulse"; n_subtype := Some decision; n_score := None; n_channel := None;
     n_vendor_event_id := None;
     n_dedup_extra := Some (pretty (dr_id d) +:+ ":" +:+ default ""%string (ae_card_number e)) |}.

(** [_raise_event]: an unknown camera raises and is swallowed *)
Definition raise_event (d : Door) (decision : string) (e : AccessEvent) (a : AccessWorld) : AccessWorld :=
  match dr_camera_id d with
  | None => a
  | Some c =>
      if (c =? 0) || negb (bool_decide (c ∈ live_cameras)) then a
      else set_aw_ew (snd (process utc_offset c (access_event_input d decision e) "access" (aw_ew a))) a
  end.

Definition process_swipe (d : Door) (card : string) (pin : option string) (source : string) (a : AccessWorld)
    : AccessEvent * bool * AccessWorld :=
  let '(decision, reason, cred) := evaluate d card pin a in
  let granted := bool_decide (decision = "granted"%string) in
  let a1 := if granted then snd (drive_unlock d a) else a in
  let '(e, a2) := record_access (dr_id d) decision reason cred (Some (stake 64 (strip card))) source a1 in
  (e, granted, raise_event d decision e a2).

Definition unlock_door (d : Door) (source : string) (a : AccessWorld) : AccessEvent * AccessWorld :=
  let '(d', a1) := drive_unlock d a in
  record_access (dr_id d) "granted" "manual_unlock" None None source a1.

(** ** controller/access.py *)

Context (flag : bool).                          (* feature_flag.is_enabled('access_control') *)
Definition A := M AccessWorld exn.

Definition guard_ : A unit := if flag then ret tt else raise NoPermissionException.
Definition CONTROLLERS : list string := ["mock"; "vendor_http"; "onvif_relay"]%string.

Definition require_door (id : Z) : A Door :=
  let! o := gets (door_get_by_id id) in match o with Some d => ret d | None => raise RowNotFoundException end.
Definition require_cred (id : Z) : A AccessCredential :=
  let! o := gets (cred_get_by_id id) in match o with Some c => ret c | None => raise RowNotFoundException end.

Definition bad_controller (o : option string) : bool := truthy_str o && negb (bool_decide (default ""%string o ∈ CONTROLLERS)).

Definition create_door (p : DoorPatch) : A Door :=
  guard_ ;;;
  if bool_decide (strip (default ""%string (dp_name p)) = ""%string) then raise (InvalidParameterException "name required")
  else if bad_controller (dp_controller_type p) then raise (InvalidParameterException "controller_type")
  else
    let! id := (fun a => let '(i, w) := fresh_id (aw_ew a) in (inr i, set_aw_ew w a)) in
    let d := {| dr_id := id; dr_name := default ""%string (dp_name p); dr_controller_type := or_str (dp_controller_type p) "mock";
                dr_host := dp_host p; dr_lock_state := "locked"; dr_camera_id := dp_camera_id p;
                dr_access_group := or_str (dp_access_group p) "default"; dr_require_pin := default false (dp_require_pin p);
                dr_unlock_seconds := or_Z (dp_unlock_seconds p) 5; dr_unlocked_at := None; dr_enabled := true;
                dr_deleted_at := None |} in
    modify (fun a => set_doors (aw_doors a ++ [d]) a) ;;; ret d.

Definition update_door (id : Z) (p : DoorPatch) : A Door :=
  guard_ ;;; let! d := require_door id in
  if bad_controller (dp_controller_type p) then raise (InvalidParameterException "controller_type")
  else modify (put_door (modify_door p d)) ;;; ret (modify_door p d).

Definition delete_door (id : Z) : A unit :=
  guard_ ;;; let! d := require_door id in modify (fun a => put_door (delete_door_row (aw_now a) d) a).

Definition unlock (id : Z) : A AccessEvent :=
  guard_ ;;; let! d := require_door id in (fun a => let '(e, a') := unlock_door d "manual" a in (inr e, a')).

Definition swipe (id : Z) (card : string) (pin : option string) (source : option string) : A bool :=
  guard_ ;;; let! d := require_door id in
  if bool_decide (strip card = ""%string) then raise (InvalidParameterException "card_number required")
  else (fun a => let '(_, granted, a') := process_swipe d (strip card) pin (or_str source "api") a in (inr granted, a')).

Definition create_credential (card holder : string) (group pin : option string) (from until : option Z) : A AccessCredential :=
  guard_ ;;;
  if bool_decide (strip card = ""%string) || bool_decide (strip holder = ""%string)
  then raise (InvalidParameterException "card_number and holder_name required")
  else
    let! dup := gets (find_by_card (strip card)) in
    match dup with
    | Some _ => raise (InvalidParameterException "card already registered")
    | None =>
        let! id := (fun a => let '(i, w) := fresh_id (aw_ew a) in (inr i, set_aw_ew w a)) in
        let c := {| ac_id := id; ac_card_number := normalize_card card; ac_holder_name := holder;
                    ac_access_group := or_str group "default"; ac_pin_hash := pin_hash_of pin; ac_valid_from := from;
                    ac_valid_until := until; ac_enabled := true; ac_deleted_at := None |} in
        modify (fun a => set_credentials (aw_credentials a ++ [c]) a) ;;; ret c
    end.

Definition update_credential (id : Z) (p : CredPatch) : A AccessCredential :=
  guard_ ;;; let! c := require_cred id in
  modify (put_credential (modify_credential p c)) ;;; ret (modify_credential p c).

Definition delete_credential (id : Z) : A unit :=
  guard_ ;;; let! c := require_cred id in modify (fun a => put_credential (delete_credential_row (aw_now a) c) a).
End Access.

(** ** Who may open a door *)

(** A live, enabled credential for the card, within its validity, of the door's
    group unless the door is public, with a PIN set and given when the door asks
    for one. *)
Definition entitled (hash_pin : string -> string) (d : Door) (card : string) (pin : option string) (a : AccessWorld)
    (c : AccessCredential) : Prop :=
  dr_enabled d = true /\ c ∈ aw_credentials a /\ ac_deleted_at c = None /\ ac_card_number c = normalize_card (strip card) /\
  ac_enabled c = true /\
  (forall f, ac_valid_from c = Some f -> f <= aw_now a) /\ (forall u, ac_valid_until c = Some u -> aw_now a <= u) /\
  (dr_access_group d = "public"%string \/ ac_access_group c = dr_access_group d) /\
  (dr_require_pin d = true -> exists p, pin = Some p /\ ac_pin_hash c = Some (hash_pin p)).

(** live cards are distinct *)
Definition cards_unique (a : AccessWorld) : Prop :=
  forall c1 c2, c1 ∈ aw_credentials a -> c2 ∈ aw_credentials a -> ac_deleted_at c1 = None -> ac_deleted_at c2 = None ->
    ac_card_number c1 = ac_card_number c2 -> c1 = c2.

Lemma find_by_card_elem card a c :
  find_by_card card a = Some c ->
  c ∈ aw_credentials a /\ ac_deleted_at c = None /\ ac_card_number c = normalize_card card.
Proof.
  unfold find_by_card. intros H%find_some. destruct H as [H%list_elem_of_In E].
  rewrite andb_true_iff, !bool_decide_eq_true in E. tauto.
Qed.

Lemma find_by_card_unique card a c :
  cards_unique a -> c ∈ aw_credentials a -> ac_deleted_at c = None -> ac_card_number c = normalize_card card ->
  find_by_card card a = Some c.
Proof.
  intros Hu Hc Hd Hn. destruct (find_by_card card a) as [c'|] eqn:E.
  - apply find_by_card_elem in E as (Hc' & Hd' & Hn'). f_equal. apply Hu; congruence.
  - unfold find_by_card in E. eapply find_none in E; [|by apply list_elem_of_In]. cbv beta in E.
    by rewrite !bool_decide_eq_true_2 in E.
Qed.

Lemma is_valid_at_spec now c :
  is_valid_at now c = true <->
  (forall f, ac_valid_from c = Some f -> f <= now) /\ (forall u, ac_valid_until c = Some u -> now <= u).
Proof.
  unfold is_valid_at. rewrite andb_true_iff, !negb_true_iff.
  destruct (ac_valid_from c) as [f|], (ac_valid_until c) as [u|]; rewrite ?Z.ltb_ge; naive_solver.
Qed.

Section AccessTheory.
Context (hash_pin : string -> string) (vendor_http : Door -> string) (utc_offset : Z -> Z) (live_cameras : list Z).

Lemma evaluate_granted d card pin a c r :
  evaluate hash_pin d card pin a = ("granted"%string, r, c) -> exists c', c = Some c' /\ entitled hash_pin d card pin a c'.
Proof.
  unfold evaluate. destruct (dr_enabled d) eqn:Hen; [|done]. cbn [negb].
  destruct (find_by_card _ _) as [c'|] eqn:Ef; [|done]. apply find_by_card_elem in Ef as (Hin & Hdel & Hnum).
  destruct (ac_enabled c') eqn:Hce; [|done]. destruct (is_valid_at _ _) eqn:Hv; [|done]. cbn [negb].
  destruct (negb _ && negb _) eqn:Hg; [done|]. destruct (dr_require_pin d && _) eqn:Hp; [done|].
  intros [= <- <-]. exists c'. split; [done|]. apply is_valid_at_spec in Hv as [Hv1 Hv2].
  unfold entitled. split_and!; try done.
  - apply andb_false_iff in Hg as [Hg|Hg]; apply negb_false_iff, bool_decide_eq_true in Hg; auto.
  - intros Hreq. rewrite Hreq in Hp. cbn [andb] in Hp. apply orb_false_iff in Hp as [Hp1 Hp2].
    apply bool_decide_eq_false in Hp1. apply negb_false_iff in Hp2. unfold verify_pin in Hp2.
    destruct (ac_pin_hash c') as [h|]; [|done]. destruct pin as [p|]; [|done].
    apply bool_decide_eq_true in Hp2. exists p. by rewrite Hp2.
Qed.

Lemma evaluate_entitled d card pin a c :
  cards_unique a -> entitled hash_pin d card pin a c ->
  evaluate hash_pin d card pin a = ("granted", "ok", Some c)%string.
Proof.
  intros Hu (Hen & Hin & Hdel & Hnum & Hce & Hv1 & Hv2 & Hg & Hp). unfold evaluate. rewrite Hen. cbn [negb].
  rewrite (find_by_card_unique _ _ c Hu) by done. rewrite Hce. cbn [negb].
  rewrite (proj2 (is_valid_at_spec _ _) (conj Hv1 Hv2)). cbn [negb].
  assert (negb (bool_decide (dr_access_group d = "public"%string)) && negb (bool_decide (ac_access_group c = dr_access_group d)) = false) as ->.
  { destruct Hg as [Hg|Hg]; [by rewrite (bool_decide_eq_true_2 _ Hg)|rewrite (bool_decide_eq_true_2 _ Hg); by rewrite andb_false_r]. }
  destruct (dr_require_pin d); [|done]. destruct (Hp eq_refl) as (p & -> & Hh). unfold verify_pin. rewrite Hh.
  rewrite (bool_decide_eq_true_2 (hash_pin p = hash_pin p)) by done. by rewrite bool_decide_eq_false_2.
Qed.

Notation swipe_ := (process_swipe hash_pin vendor_http utc_offset live_cameras).

(** C39: a swipe is granted exactly when the card's credential is entitled to the door
    (live cards being distinct); every swipe adds one log entry with its
    decision, and a refused one leaves every door as it was. *)
Theorem swipe_grants_iff_entitled d card pin source a :
  cards_unique a ->
  let '(e, granted, a') := swipe_ d card pin source a in
  (granted = true <-> exists c, entitled hash_pin d card pin a c) /\
  aw_log a' = aw_log a ++ [e] /\ ae_door_id e = dr_id d /\ (ae_decision e = "granted"%string <-> granted = true) /\
  (granted = false -> aw_doors a' = aw_doors a).
Proof.
  intros Hu. unfold process_swipe. destruct (evaluate hash_pin d card pin a) as [[decision reason] cred] eqn:Ee.
  cbn [record_access fresh_id]. set (a1 := if bool_decide _ then _ else _).
  assert (Hlog : aw_log a1 = aw_log a) by (unfold a1, drive_unlock; repeat (case_match; try done)).
  assert (Hraise : forall dec e b, aw_log (raise_event utc_offset live_cameras d dec e b) = aw_log b /\
            aw_doors (raise_event utc_offset live_cameras d dec e b) = aw_doors b)
    by (intros; unfold raise_event; repeat (case_match; try done)).
  rewrite (proj1 (Hraise _ _ _)), (proj2 (Hraise _ _ _)). cbn [aw_log set_log aw_doors set_aw_ew ae_decision ae_door_id].
  split_and!; [|by rewrite Hlog|done|by rewrite bool_decide_eq_true|].
  - rewrite bool_decide_eq_true. split.
    + intros ->. destruct (evaluate_granted _ _ _ _ _ _ Ee) as (c & _ & H). eauto.
    + intros (c & Hc). rewrite (evaluate_entitled _ _ _ _ _ Hu Hc) in Ee. congruence.
  - intros Hf. unfold a1. by rewrite Hf.
Qed.
End AccessTheory.

(** ** Every open door is accounted for *)

Inductive access_op :=
| ACreateDoor (p : DoorPatch)
| AUpdateDoor (id : Z) (p : DoorPatch)
| ADeleteDoor (id : Z)
| AUnlock (id : Z)
| ASwipe (id : Z) (card : string) (pin source : option string)
| ACreateCred (card holder : string) (group pin : option string) (from until : option Z)
| AUpdateCred (id : Z) (p : CredPatch)
| ADeleteCred (id : Z)
| ATick (dt : Z).

Section AccessHistories.
Context (hash_pin : string -> string) (vendor_http : Door -> string) (utc_offset : Z -> Z) (live_cameras : list Z) (flag : bool).

Definition access_step (o : access_op) (a : AccessWorld) : AccessWorld :=
  match o with
  | ACreateDoor p => snd (create_door flag p a)
  | AUpdateDoor id p => snd (update_door flag id p a)
  | ADeleteDoor id => snd (delete_door flag id a)
  | AUnlock id => snd (unlock vendor_http flag id a)
  | ASwipe id card pin source => snd (swipe hash_pin vendor_http utc_offset live_cameras flag id card pin source a)
  | ACreateCred card holder group pin from until => snd (create_credential hash_pin flag card holder group pin from until a)
  | AUpdateCred id p => snd (update_credential hash_pin flag id p a)
  | ADeleteCred id => snd (delete_credential flag id a)
  | ATick dt => set_aw_ew (set_store (advance dt (ew_store (aw_ew a))) (aw_ew a)) a
  end.

Definition access_run (a : AccessWorld) (ops : list access_op) : AccessWorld := foldl (fun a o => access_step o a) a ops.

(** The log has a grant for this door at this instant. *)
Definition logged_grant (log : list AccessEvent) (door at_ : Z) : Prop :=
  exists e, e ∈ log /\ ae_door_id e = door /\ ae_decision e = "granted"%string /\ ae_ts e = at_.

Definition accounted (log : list AccessEvent) (d : Door) : Prop :=
  (dr_lock_state d = "unlocked"%string -> dr_unlocked_at d <> None) /\
  (forall at_, dr_unlocked_at d = Some at_ -> logged_grant log (dr_id d) at_).

Definition audit_ok (a : AccessWorld) : Prop := forall d, d ∈ aw_doors a -> accounted (aw_log a) d.

Lemma accounted_grows log e d : accounted log d -> accounted (log ++ [e]) d.
Proof.
  intros [H1 H2]. split; [done|]. intros at_ Hat. destruct (H2 at_ Hat) as (x & Hx & Hr). exists x.
  split; [apply elem_of_app; by left|done].
Qed.

Lemma elem_of_put_door d a x : x ∈ aw_doors (put_door d a) -> x = d \/ x ∈ aw_doors a.
Proof. cbn. intros (y & -> & Hy)%list_elem_of_fmap. destruct (_ =? _); auto. Qed.

Lemma audit_ok_same a a' :
  audit_ok a -> aw_doors a' = aw_doors a -> aw_log a' = aw_log a -> audit_ok a'.
Proof. intros H E1 E2 d. rewrite E1, E2. apply H. Qed.

Lemma audit_ok_put a d d' :
  audit_ok a -> d ∈ aw_doors a -> dr_id d' = dr_id d -> dr_lock_state d' = dr_lock_state d ->
  dr_unlocked_at d' = dr_unlocked_at d -> audit_ok (put_door d' a).
Proof.
  intros H Hd Hi Hl Hu x [->|Hx]%elem_of_put_door; [|by apply H].
  unfold accounted. rewrite Hi, Hl, Hu. by apply H.
Qed.

(** Unlocking and logging at one instant. *)
Lemma audit_ok_unlock d reason cred card source a :
  audit_ok a -> audit_ok (snd (record_access (dr_id d) "granted" reason cred card source (snd (drive_unlock vendor_http d a)))).
Proof.
  intros H. unfold drive_unlock. case_bool_decide; cbn [snd record_access fresh_id]; [|intros x Hx; by apply accounted_grows, H].
  intros x Hx. apply elem_of_put_door in Hx as [->|Hx]; [|by apply accounted_grows, H].
  split; [done|]. intros at_ [= <-]. eexists. split; [apply elem_of_app; right; by left|done].
Qed.

Lemma raise_event_frame d dec e a :
  aw_doors (raise_event utc_offset live_cameras d dec e a) = aw_doors a /\
  aw_log (raise_event utc_offset live_cameras d dec e a) = aw_log a.
Proof. unfold raise_event. repeat (case_match; try done). Qed.

Lemma audit_ok_swipe d card pin source a :
  audit_ok a -> audit_ok (snd (process_swipe hash_pin vendor_http utc_offset live_cameras d card pin source a)).
Proof.
  intros H. unfold process_swipe. destruct (evaluate _ _ _ _ _) as [[dec reason] cred].
  case_bool_decide as Hd.
  - subst dec. pose proof (audit_ok_unlock d reason cred (Some (stake 64 (strip card))) source a H) as H'.
    destruct (record_access _ _ _ _ _ _ _) as [e a2]. cbn [snd] in *. eapply audit_ok_same; [exact H'|apply raise_event_frame..].
  - cbn [record_access fresh_id snd]. eapply audit_ok_same; [|apply raise_event_frame..].
    intros x Hx. by apply accounted_grows, H.
Qed.

Lemma door_row id a d : door_get_by_id id a = Some d -> d ∈ aw_doors a.
Proof. intros H%find_some. by destruct H as [?%list_elem_of_In _]. Qed.

Lemma access_step_audit o a : audit_ok a -> audit_ok (access_step o a).
Proof.
  intros H. destruct o; cbn [access_step]; [..|by apply (audit_ok_same a)];
    unfold create_door, update_door, delete_door, unlock, swipe, create_credential, update_credential, delete_credential,
      guard_, require_door, require_cred, bind, gets, ret, raise, modify; (destruct flag; [|done]).
  - destruct (bool_decide _); [done|]. destruct (bad_controller _); [done|]. cbn [fresh_id snd]. intros x Hx.
    cbn in Hx. apply elem_of_app in Hx as [Hx|Hx]; [by apply H|]. by apply list_elem_of_singleton in Hx as ->.
  - destruct (door_get_by_id id a) as [d|] eqn:E; [|done]. destruct (bad_controller _); [done|]. cbn [snd].
    by apply (audit_ok_put a d); [|apply door_row in E|..].
  - destruct (door_get_by_id id a) as [d|] eqn:E; [|done]. cbn [snd]. by apply (audit_ok_put a d); [|apply door_row in E|..].
  - destruct (door_get_by_id id a) as [d|]; [|done]. unfold unlock_door.
    pose proof (audit_ok_unlock d "manual_unlock" None None "manual" a H) as H'.
    destruct (drive_unlock vendor_http d a) as [d' a1]. cbn [snd] in *. by destruct (record_access _ _ _ _ _ _ _).
  - destruct (door_get_by_id id a) as [d|]; [|done]. destruct (bool_decide _); [done|].
    pose proof (audit_ok_swipe d (strip card) pin (or_str source "api") a H) as H'.
    by destruct (process_swipe _ _ _ _ _ _ _ _ _) as [[e granted] a'].
  - destruct (_ || _); [done|]. destruct (find_by_card _ _); [done|]. by apply (audit_ok_same a).
  - destruct (cred_get_by_id id a) as [c|]; [|done]. by apply (audit_ok_same a).
  - destruct (cred_get_by_id id a) as [c|]; [|done]. by apply (audit_ok_same a).
Qed.
End AccessHistories.

(** C10: after any sequence of door and credential administration, unlocks and swipes, a door
    that shows as open has a logged grant for it less than its unlock window ago. *)
Theorem open_door_is_accounted_for hash_pin vendor_http utc_offset live_cameras flag a ops d :
  aw_doors a = [] ->
  let a' := access_run hash_pin vendor_http utc_offset live_cameras flag a ops in
  d ∈ aw_doors a' -> effective_lock_state (aw_now a') d = "unlocked"%string ->
  exists e, e ∈ aw_log a' /\ ae_door_id e = dr_id d /\ ae_decision e = "granted"%string /\
    aw_now a' - ae_ts e < or_Z (Some (dr_unlock_seconds d)) 5 * SEC.
Proof.
  intros Hnil a' Hd Hopen.
  assert (Hok : audit_ok a').
  { assert (H0 : audit_ok a) by (intros x Hx; rewrite Hnil in Hx; by apply elem_of_nil in Hx).
    unfold a', access_run. clear -H0. revert a H0. induction ops as [|o ops IH]; intros a H0; [done|].
    cbn [foldl]. by apply IH, access_step_audit. }
  destruct (Hok d Hd) as [Hl Hg]. unfold effective_lock_state in Hopen.
  destruct (dr_unlocked_at d) as [at_|]; [|by destruct (Hl Hopen)].
  destruct (Hg at_ eq_refl) as (e & He & Hid & Hdec & Hts). exists e. split_and!; [done..|].
  destruct (_ && _) eqn:Eb; [done|]. rewrite Hopen, bool_decide_eq_true_2 in Eb by done. cbn [andb] in Eb.
  apply Z.leb_gt in Eb. by rewrite Hts.
Qed.

(** ** Witnesses *)

Definition demo_access : AccessWorld := {| aw_ew := demo_ew; aw_doors := []; aw_credentials := []; aw_log := [] |}.

Definition demo_door : DoorPatch :=
  {| dp_name := Some "gate"%string; dp_controller_type := None; dp_host := None; dp_camera_id := Some 1; dp_access_group := None;
     dp_unlock_seconds := None; dp_require_pin := Some true; dp_enabled := None |}.

Definition demo_pin (p : string) : string := "#" +:+ p.

Definition demo_access_setup : AccessWorld :=
  access_run demo_pin (fun _ => "ok"%string) kst [1] true demo_access
    [ACreateDoor demo_door; ACreateCred "A1" "Kim" None (Some "1234"%string) None None].

Lemma open_door_is_accounted_for_witness :
  let a := access_run demo_pin (fun _ => "ok"%string) kst [1] true demo_access
    [ACreateDoor demo_door; ACreateCred "A1" "Kim" None (Some "1234"%string) None None;
     ASwipe 100 "A1" (Some "0000"%string) None; ASwipe 100 " A1 " (Some "1234"%string) None; ATick (3 * SEC)] in
  exists d e, d ∈ aw_doors a /\ effective_lock_state (aw_now a) d = "unlocked"%string /\
    e ∈ aw_log a /\ ae_door_id e = dr_id d /\ ae_decision e = "granted"%string.
Proof.
  cbv zeta. set (ops := [ACreateDoor _; _; _; _; _]).
  set (a := access_run demo_pin (fun _ => "ok"%string) kst [1] true demo_access ops).
  assert (Hd : exists d, head (aw_doors a) = Some d /\ effective_lock_state (aw_now a) d = "unlocked"%string)
    by (eexists; split; [vm_compute; reflexivity|vm_compute; reflexivity]).
  destruct Hd as (d & Hd & Ho).
  assert (Hin : d ∈ aw_doors a) by (destruct (aw_doors a); [done|]; injection Hd as ->; by left).
  destruct (open_door_is_accounted_for demo_pin (fun _ => "ok"%string) kst [1] true demo_access ops d eq_refl Hin Ho)
    as (e & He & Hid & Hdec & _).
  by exists d, e.
Defined.

Lemma swipe_grants_iff_entitled_witness :
  exists d e a', door_get_by_id 100 demo_access_setup = Some d /\
    process_swipe demo_pin (fun _ => "ok"%string) kst [1] d "A1" (Some "1234"%string) "api" demo_access_setup = (e, true, a') /\
    exists c, entitled demo_pin d "A1" (Some "1234"%string) demo_access_setup c.
Proof.
  eexists _, _, _. split; [vm_compute; reflexivity|]. split; [vm_compute; reflexivity|].
  pose proof (swipe_grants_iff_entitled demo_pin (fun _ => "ok"%string) kst [1]
    (default (Build_Door 0 "" "" None "" None "" false 0 None false None) (door_get_by_id 100 demo_access_setup))
    "A1" (Some "1234"%string) "api" demo_access_setup) as H.
  assert (Hu : cards_unique demo_access_setup).
  { intros c1 c2 H1 H2 _ _ _. vm_compute in H1, H2. apply list_elem_of_singleton in H1 as ->. by apply list_elem_of_singleton in H2. }
  specialize (H Hu). vm_compute (process_swipe _ _ _ _ _ _ _ _ _) in H. by apply H.
Defined.
