(* ===== verification/Vision.v ===== *)
(** * What the vision components share

    src/server/model/detection.py, detection_zone.py, object_trigger.py, counting.py;
    service/geometry.py, service/event_pipeline.py (ingest_object).

    The rows the detection, trigger, counting and smoke code read and write, in one
    world with the event pipeline ([dw_ew]: database, Redis and clock) and the
    inference registry ([dw_sched]); planar geometry on exact rationals.  Camera
    features are the enabled names per camera. *)

From Stdlib Require Import QArith Qround Qabs.
From stdpp Require Import pretty.
From S2P Require Import Prelude PyStr Redis Permission Token Sessions Storage EventPipeline Json Scheduler.
Local Open Scope Z_scope.
Local Open Scope list_scope.

(** ** Rows *)

Record Detection := {
  dt_id : Z;
  dt_camera_id : Z;
  dt_ts : Z;
  dt_class_id : json;
  dt_label : string;
  dt_confidence : Z;
  dt_track_id : Z;
  dt_track_key : string;
  dt_bbox : list Q;
  dt_zone_id : option Z;
  dt_segment_id : option Z;
  dt_event_id : option Z;
  dt_attrs : json;
  dt_node_id : Z
}.

Definition polygon := list (Q * Q).

Record DetectionZone := {
  dz_id : Z;
  dz_camera_id : Z;
  dz_kind : string;
  dz_polygon : polygon;
  dz_enabled : bool;
  dz_priority : Z;
  dz_deleted_at : option Z
}.

Record ObjectTrigger := {
  ot_id : Z;
  ot_camera_id : option Z;
  ot_labels : list string;
  ot_zone_id : option Z;
  ot_min_confidence : Z;
  ot_min_dwell_ms : Z;
  ot_require_zone_entry : bool;
  ot_min_count : Z;
  ot_cooldown_s : Z;
  ot_debounce_per_track : bool;
  ot_event_subtype : option string;
  ot_enabled : bool;
  ot_deleted_at : option Z
}.

Record CountingLine := {
  cl_id : Z;
  cl_camera_id : Z;
  cl_kind : string;
  cl_geometry : polygon;
  cl_class_filter : option (list string);
  cl_loiter_threshold_s : option Z;
  cl_occupancy_threshold : option Z;
  cl_enabled : bool;
  cl_deleted_at : option Z
}.

Record CountingStat := {
  cs_camera_id : Z;
  cs_line_id : Z;
  cs_bucket_ts : Z;
  cs_in_count : Z;
  cs_out_count : Z;
  cs_occupancy : Z;
  cs_label : option string
}.

Record DetWorld := {
  dw_ew : EventWorld;
  dw_sched : Sched;                        (* assignments and cameras of the inference registry *)
  dw_dets : list Detection;
  dw_zones : list DetectionZone;
  dw_triggers : list ObjectTrigger;
  dw_lines : list CountingLine;
  dw_stats : list CountingStat;
  dw_flags : string -> bool;               (* feature_flag.is_enabled *)
  dw_features : Z -> list string;          (* cameras.ai_features *)
  dw_min_confidence : option Z             (* ai_settings.min_confidence, global row *)
}.

Definition dw_now (w : DetWorld) : Z := ew_now (dw_ew w).
Definition set_dets (l : list Detection) (w : DetWorld) : DetWorld :=
  {| dw_ew := dw_ew w; dw_sched := dw_sched w; dw_dets := l; dw_zones := dw_zones w;
     dw_triggers := dw_triggers w; dw_lines := dw_lines w; dw_stats := dw_stats w; dw_flags := dw_flags w; dw_features := dw_features w; dw_min_confidence := dw_min_confidence w |}.
Definition set_dw_ew (e : EventWorld) (w : DetWorld) : DetWorld :=
  {| dw_ew := e; dw_sched := dw_sched w; dw_dets := dw_dets w; dw_zones := dw_zones w;
     dw_triggers := dw_triggers w; dw_lines := dw_lines w; dw_stats := dw_stats w; dw_flags := dw_flags w; dw_features := dw_features w; dw_min_confidence := dw_min_confidence w |}.
Definition set_dw_sched (s : Sched) (w : DetWorld) : DetWorld :=
  {| dw_ew := dw_ew w; dw_sched := s; dw_dets := dw_dets w; dw_zones := dw_zones w;
     dw_triggers := dw_triggers w; dw_lines := dw_lines w; dw_stats := dw_stats w; dw_flags := dw_flags w; dw_features := dw_features w; dw_min_confidence := dw_min_confidence w |}.
Definition set_stats (l : list CountingStat) (w : DetWorld) : DetWorld :=
  {| dw_ew := dw_ew w; dw_sched := dw_sched w; dw_dets := dw_dets w; dw_zones := dw_zones w;
     dw_triggers := dw_triggers w; dw_lines := dw_lines w; dw_stats := l; dw_flags := dw_flags w; dw_features := dw_features w; dw_min_confidence := dw_min_confidence w |}.
Definition set_rw_redis (r : redis) (w : DetWorld) : DetWorld :=
  set_dw_ew (set_store (set_t_redis r (ew_store (dw_ew w))) (dw_ew w)) w.
Definition dw_redis (w : DetWorld) : redis := t_redis (ew_store (dw_ew w)).

(** ** Geometry (geometry.py) *)

Definition qlt (a b : Q) : bool := negb (Qle_bool b a).
Definition qmax (a b : Q) : Q := if qlt a b then b else a.
Definition qmin (a b : Q) : Q := if qlt b a then b else a.

Lemma qlt_spec a b : qlt a b = true <-> (a < b)%Q.
Proof. unfold qlt. rewrite negb_true_iff, <- not_true_iff_false, Qle_bool_iff. split; [apply Qnot_le_lt|apply Qlt_not_le]. Qed.
Lemma qlt_false a b : qlt a b = false <-> (b <= a)%Q.
Proof. unfold qlt. rewrite negb_false_iff. apply Qle_bool_iff. Qed.

#[export] Instance qlt_proper : Proper (Qeq ==> Qeq ==> eq) qlt.
Proof. intros a b H c d H'. unfold qlt. by rewrite H, H'. Qed.
#[export] Instance qmax_proper : Proper (Qeq ==> Qeq ==> Qeq) qmax.
Proof. intros a b H c d H'. unfold qmax. rewrite (qlt_proper a b H c d H'). by destruct (qlt b d). Qed.
#[export] Instance qmin_proper : Proper (Qeq ==> Qeq ==> Qeq) qmin.
Proof. intros a b H c d H'. unfold qmin. rewrite (qlt_proper c d H' a b H). by destruct (qlt d b). Qed.

Lemma qmax_spec a b : (a <= qmax a b)%Q /\ (b <= qmax a b)%Q /\ (qmax a b = a \/ qmax a b = b).
Proof.
  unfold qmax. destruct (qlt a b) eqn:E; [apply qlt_spec, Qlt_le_weak in E|apply qlt_false in E]; split_and!; auto using Qle_refl.
Qed.
Lemma qmin_spec a b : (qmin a b <= a)%Q /\ (qmin a b <= b)%Q /\ (qmin a b = a \/ qmin a b = b).
Proof.
  unfold qmin. destruct (qlt b a) eqn:E; [apply qlt_spec, Qlt_le_weak in E|apply qlt_false in E]; split_and!; auto using Qle_refl.
Qed.
Lemma qmax_comm a b : (qmax a b == qmax b a)%Q.
Proof.
  destruct (qmax_spec a b) as (H1 & H2 & [H|H]), (qmax_spec b a) as (H3 & H4 & [H'|H']); rewrite H, H' in *; try done; by apply Qle_antisym.
Qed.
Lemma qmin_comm a b : (qmin a b == qmin b a)%Q.
Proof.
  destruct (qmin_spec a b) as (H1 & H2 & [H|H]), (qmin_spec b a) as (H3 & H4 & [H'|H']); rewrite H, H' in *; try done; by apply Qle_antisym.
Qed.

Definition bottom_center (bbox : list Q) : Q * Q :=
  match bbox with
  | [x1; y1; x2; y2] => (((x1 + x2) / 2)%Q, qmax y1 y2)
  | _ => (0%Q, 0%Q)                         (* never: a stored box has four coordinates *)
  end.

(** the edge from [j] to [i] crosses the ray *)
Definition crosses (x y : Q) (i j : Q * Q) : bool :=
  let '(xi, yi) := i in let '(xj, yj) := j in
  negb (Bool.eqb (qlt y yi) (qlt y yj)) && qlt x ((xj - xi) * (y - yi) / (yj - yi) + xi)%Q.

Fixpoint ray (x y : Q) (prev : Q * Q) (rest : polygon) (inside : bool) : bool :=
  match rest with
  | [] => inside
  | p :: r => ray x y p r (if crosses x y p prev then negb inside else inside)
  end.

Definition point_in_polygon (x y : Q) (poly : polygon) : bool :=
  if (Nat.ltb (length poly) 3)%nat then false else
  ray x y (List.last poly (0%Q, 0%Q)) poly false.

Definition polygon_area (poly : polygon) : Q :=
  if (Nat.ltb (length poly) 3)%nat then 0%Q else
  let next := tail poly ++ take 1 poly in
  let s := foldl (fun s '((x1, y1), (x2, y2)) => (s + (x1 * y2 - x2 * y1))%Q) 0%Q (zip poly next) in
  (Qabs s / 2)%Q.

(** ** Promotion to an event *)

Section Promote.
Context (utc_offset : Z -> Z).

Definition camera_live (camera_id : Z) (w : DetWorld) : bool :=
  existsb (fun c => (cam_id c =? camera_id) && bool_decide (cam_deleted_at c = None)) (s_cams (dw_sched w)).

(** [event_pipeline.ingest_object]; [None]: RowNotFoundException *)
Definition ingest_object (camera_id : Z) (type : string) (subtype : option string) (score : Z) (source : string)
    (dedup_extra : option string) (w : DetWorld) : option (option Event * DetWorld) :=
  if camera_live camera_id w then
    let '(e, ew) := process utc_offset camera_id
      {| n_type := type; n_state := "pulse"; n_subtype := subtype; n_score := Some score; n_channel := None;
         n_vendor_event_id := None; n_dedup_extra := dedup_extra |} source (dw_ew w) in
    Some (e, set_dw_ew ew w)
  else None.

End Promote.

(** ** Raising events for rows one after the other *)

Section Raised.
Context {R : Type} (ask : R -> DetWorld -> option (option Event * DetWorld)).

(** the ingest modules' [_raise_event] in its loop, with the count of events that came of it *)
Definition raise_one (st : Z * DetWorld) (r : R) : Z * DetWorld :=
  let '(raised, d) := st in
  match ask r d with Some (Some _, d') => (raised + 1, d') | Some (None, d') => (raised, d') | None => (raised, d) end.

(** the event pipeline was asked for these rows, in order, and [n] events came of it *)
Inductive raised : list R -> Z -> DetWorld -> DetWorld -> Prop :=
  | raised_nil d : raised [] 0 d d
  | raised_new r l n d e d1 d2 : ask r d = Some (Some e, d1) -> raised l n d1 d2 -> raised (r :: l) (n + 1) d d2
  | raised_held r l n d d1 d2 : ask r d = Some (None, d1) -> raised l n d1 d2 -> raised (r :: l) n d d2
  | raised_gone r l n d d2 : ask r d = None -> raised l n d d2 -> raised (r :: l) n d d2.

Lemma raised_fold l k d n d' : foldl raise_one (k, d) l = (n, d') -> raised l (n - k) d d'.
Proof.
  revert k d. induction l as [|r l IH]; intros k d E; [injection E as <- <-; rewrite Z.sub_diag; constructor|].
  cbn [foldl] in E. unfold raise_one at 2 in E. destruct (ask r d) as [[[e|] d1]|] eqn:Ed.
  - replace (n - k) with (n - (k + 1) + 1) by lia. eapply raised_new; eauto.
  - eapply raised_held; eauto.
  - eapply raised_gone; eauto.
Qed.
End Raised.

(** the same questions, asked for other rows *)
Lemma raised_Forall2 {R R'} (ask : R -> DetWorld -> option (option Event * DetWorld)) (ask' : R' -> DetWorld -> option (option Event * DetWorld)) l l' n d d' :
  Forall2 (fun r r' => ask r = ask' r') l l' -> raised ask l n d d' -> raised ask' l' n d d'.
Proof.
  intros H Hr. revert l' H. induction Hr as [d|r l n d e d1 d2 Ha _ IH|r l n d d1 d2 Ha _ IH|r l n d d2 Ha _ IH]; intros l' H; inversion H as [|? r' ? l2 Hrr Hl]; subst;
    [constructor|eapply raised_new|eapply raised_held|eapply raised_gone]; rewrite <- ?Hrr; eauto.
Qed.

(** ** A concrete world for the witnesses *)

Definition demo_vision : DetWorld :=
  {| dw_ew := demo_ew; dw_sched := demo_sched; dw_dets := [];
     dw_zones := [{| dz_id := 8; dz_camera_id := 11; dz_kind := "include"; dz_polygon := [(0, 0); (1, 0); (1, 1); (0, 1)]%Q;
                     dz_enabled := true; dz_priority := 0; dz_deleted_at := None |}];
     dw_triggers := [{| ot_id := 9; ot_camera_id := None; ot_labels := ["person"%string]; ot_zone_id := None; ot_min_confidence := 50;
                        ot_min_dwell_ms := 0; ot_require_zone_entry := false; ot_min_count := 1; ot_cooldown_s := 30;
                        ot_debounce_per_track := true; ot_event_subtype := None; ot_enabled := true; ot_deleted_at := None |}];
     dw_lines := []; dw_stats := []; dw_flags := fun _ => true; dw_features := fun _ => ["smoke"%string];
     dw_min_confidence := None |}.
