(* ===== verification/Tracker.v ===== *)
(** * The tracking half of a detector node

    src/worker/detector/tracker.py (SimpleTracker), sampler.py (TrackSampler), zones.py
    (ZoneFilter) and the report of camera_pipeline.py.

    Coordinates and scores are exact rationals.  md5's hex digest and the order in which
    Python iterates a set of small integers are parameters; [itertools.count] is the
    next id.  The dictionary of tracks is a list in insertion order.  Frame capture and
    inference are not modelled. *)

From stdpp Require Import pretty.
From Stdlib Require Import QArith Qabs.
From S2P Require Import Prelude Vision.
Local Open Scope Z_scope.
Local Open Scope list_scope.

(** pixels: x1, y1, x2, y2 *)
Record Box := { bx1 : Q; by1 : Q; bx2 : Q; by2 : Q }.
Record Det := { de_bbox : Box; de_confidence : Q; de_class_id : Z; de_label : string }.

Record TrackedObject := {
  tk_local_id : Z;
  tk_track_key : string;
  tk_bbox : Box;
  tk_label : string;
  tk_class_id : Z;
  tk_confidence : Q;
  tk_first_ts : Z;
  tk_last_ts : Z;
  tk_is_new : bool;
  tk_is_lost : bool;
  tk_force : bool
}.

Record SimpleTracker := {
  st_tracks : list TrackedObject;
  st_next_id : Z
}.

(** ** Overlap *)

Definition iou (a b : Box) : Q :=
  let iw := qmax 0 (qmin (bx2 a) (bx2 b) - qmax (bx1 a) (bx1 b)) in
  let ih := qmax 0 (qmin (by2 a) (by2 b) - qmax (by1 a) (by1 b)) in
  let inter := (iw * ih)%Q in
  if Qle_bool inter 0 then 0 else
  let area_a := (qmax 0 (bx2 a - bx1 a) * qmax 0 (by2 a - by1 a))%Q in
  let area_b := (qmax 0 (bx2 b - bx1 b) * qmax 0 (by2 b - by1 b))%Q in
  let union := (area_a + area_b - inter)%Q in
  if qlt 0 union then (inter / union)%Q else 0.

(** ** Greedy matching *)

(** an overlap, the index of a live track, the index of a detection *)
Definition pair3 : Type := Q * nat * nat.

(** tuples compare lexicographically *)
Definition pair_ge (p q : pair3) : bool :=
  let '(v, t, d) := p in let '(v', t', d') := q in
  qlt v' v || (Qeq_bool v v' && ((t' <? t)%nat || ((t =? t')%nat && (d' <=? d)%nat))).

(** [pairs.sort(reverse=True)] *)
Definition ge3 (p q : pair3) : Prop := pair_ge p q = true.
#[export] Instance ge3_dec : RelDecision ge3.
Proof. intros p q. unfold ge3. apply _. Defined.
Definition sort_pairs (l : list pair3) : list pair3 := merge_sort ge3 l.

Fixpoint greedy (pairs : list pair3) (used_t used_d : list nat) : list (nat * nat) :=
  match pairs with
  | [] => []
  | (_, ti, di) :: r =>
      if bool_decide (ti ∈ used_t) || bool_decide (di ∈ used_d) then greedy r used_t used_d
      else (ti, di) :: greedy r (ti :: used_t) (di :: used_d)
  end.

Section Tracker.
Context (md5_hex : string -> string) (set_iter : list nat -> list nat) (session : string) (camera_id : Z).
Context (iou_thresh : Q) (max_age_ms : Z).

Definition track_key (local_id : Z) : string :=
  String.substring 0 32 (md5_hex (session +:+ ":" +:+ pretty camera_id +:+ ":" +:+ pretty local_id)).

Definition all_pairs (live : list TrackedObject) (dets : list Det) (unmatched : list nat) : list pair3 :=
  concat (imap (fun ti t =>
    omap (fun di => d ← dets !! di;
                    let v := iou (tk_bbox t) (de_bbox d) in
                    if Qle_bool iou_thresh v then Some (v, ti, di) else None) (set_iter unmatched)) live).

Definition seen_no_more (t : TrackedObject) : TrackedObject :=
  {| tk_local_id := tk_local_id t; tk_track_key := tk_track_key t; tk_bbox := tk_bbox t; tk_label := tk_label t;
     tk_class_id := tk_class_id t; tk_confidence := tk_confidence t; tk_first_ts := tk_first_ts t; tk_last_ts := tk_last_ts t;
     tk_is_new := false; tk_is_lost := tk_is_lost t; tk_force := tk_force t |}.
(** [TrackedObject.update] *)
Definition track_update (d : Det) (ts : Z) (t : TrackedObject) : TrackedObject :=
  {| tk_local_id := tk_local_id t; tk_track_key := tk_track_key t; tk_bbox := de_bbox d; tk_label := de_label d;
     tk_class_id := de_class_id d; tk_confidence := de_confidence d; tk_first_ts := tk_first_ts t; tk_last_ts := ts;
     tk_is_new := false; tk_is_lost := tk_is_lost t; tk_force := tk_force t |}.
Definition new_track (id : Z) (d : Det) (ts : Z) : TrackedObject :=
  {| tk_local_id := id; tk_track_key := track_key id; tk_bbox := de_bbox d; tk_label := de_label d;
     tk_class_id := de_class_id d; tk_confidence := de_confidence d; tk_first_ts := ts; tk_last_ts := ts;
     tk_is_new := true; tk_is_lost := false; tk_force := false |}.
Definition mark_lost (t : TrackedObject) : TrackedObject :=
  {| tk_local_id := tk_local_id t; tk_track_key := tk_track_key t; tk_bbox := tk_bbox t; tk_label := tk_label t;
     tk_class_id := tk_class_id t; tk_confidence := tk_confidence t; tk_first_ts := tk_first_ts t; tk_last_ts := tk_last_ts t;
     tk_is_new := tk_is_new t; tk_is_lost := true; tk_force := tk_force t |}.

Definition matches (live : list TrackedObject) (dets : list Det) : list (nat * nat) :=
  greedy (sort_pairs (all_pairs live dets (seq 0 (length dets)))) [] [].

(** a live track after the matching *)
Definition matched (ms : list (nat * nat)) (dets : list Det) (ts : Z) (ti : nat) (t : TrackedObject) : TrackedObject :=
  match List.find (fun m => (fst m =? ti)%nat) ms with
  | Some (_, di) => match dets !! di with Some d => track_update d ts t | None => t end
  | None => t
  end.

Definition left_over (ms : list (nat * nat)) (n : nat) : list nat :=
  List.filter (fun di => negb (bool_decide (di ∈ snd <$> ms))) (seq 0 n).

Definition stale (ts : Z) (t : TrackedObject) : bool := max_age_ms <? ts - tk_last_ts t.

(** [SimpleTracker.update] *)
Definition update (dets : list Det) (ts : Z) (s : SimpleTracker) : list TrackedObject * SimpleTracker :=
  let live := seen_no_more <$> st_tracks s in
  let ms := matches live dets in
  let live1 := imap (matched ms dets ts) live in
  let fresh := imap (fun i d => new_track (st_next_id s + Z.of_nat i) d ts) (omap (fun di => dets !! di) (set_iter (left_over ms (length dets)))) in
  let all := live1 ++ fresh in
  let kept := List.filter (fun t => negb (stale ts t)) all in
  let lost := mark_lost <$> List.filter (stale ts) all in
  (kept ++ lost, {| st_tracks := kept; st_next_id := st_next_id s + Z.of_nat (length fresh) |}).
End Tracker.

(** ** Sampling *)

(** [TrackSampler._last] *)
Definition sample_one (interval : Z) (ts : Z) (acc : list TrackedObject * gmap string Z) (t : TrackedObject) : list TrackedObject * gmap string Z :=
  let '(out, last) := acc in
  if tk_is_new t || tk_is_lost t || tk_force t then (out ++ [t], <[tk_track_key t := ts]> last)
  else if interval <=? ts - default (- 10 ^ 15) (last !! tk_track_key t) then (out ++ [t], <[tk_track_key t := ts]> last)
  else (out, last).
Definition forget_lost (last : gmap string Z) (t : TrackedObject) : gmap string Z :=
  if tk_is_lost t then delete (tk_track_key t) last else last.
Definition sample (interval : Z) (tracks : list TrackedObject) (ts : Z) (last : gmap string Z) : list TrackedObject * gmap string Z :=
  let '(out, last1) := foldl (sample_one interval ts) ([], last) tracks in
  (out, foldl forget_lost last1 tracks).

(** ** Zones on the node *)

Definition or_Q (a d : Q) : Q := if Qeq_bool a 0 then d else a.
Definition worker_crosses (x y : Q) (i j : Q * Q) : bool :=
  let '(xi, yi) := i in let '(xj, yj) := j in
  negb (Bool.eqb (qlt y yi) (qlt y yj)) && qlt x ((xj - xi) * (y - yi) / or_Q (yj - yi) (1 # 1000000000000) + xi)%Q.
Fixpoint worker_ray (x y : Q) (prev : Q * Q) (rest : polygon) (inside : bool) : bool :=
  match rest with
  | [] => inside
  | p :: r => worker_ray x y p r (if worker_crosses x y p prev then negb inside else inside)
  end.
Definition worker_point_in_polygon (x y : Q) (poly : polygon) : bool :=
  if (Nat.ltb (length poly) 3)%nat then false else worker_ray x y (List.last poly (0%Q, 0%Q)) poly false.

Definition keep (include ignore : list polygon) (frame_w frame_h : Z) (d : Det) : bool :=
  let b := de_bbox d in
  let bx := ((bx1 b + bx2 b) / 2)%Q in let by_ := qmax (by1 b) (by2 b) in
  let nx := (bx / inject_Z (Z.max 1 frame_w))%Q in let ny := (by_ / inject_Z (Z.max 1 frame_h))%Q in
  if negb (bool_decide (include = [])) && negb (existsb (worker_point_in_polygon nx ny) include) then false
  else negb (existsb (worker_point_in_polygon nx ny) ignore).

Definition zone_filter (include ignore : list polygon) (frame_w frame_h : Z) (dets : list Det) : list Det :=
  List.filter (keep include ignore frame_w frame_h) dets.

(** the box of [CameraPipeline._report] *)
Definition report_bbox (frame_w frame_h : Z) (t : TrackedObject) : list Q :=
  let b := tk_bbox t in
  [bx1 b / inject_Z frame_w; by1 b / inject_Z frame_h; bx2 b / inject_Z frame_w; by2 b / inject_Z frame_h]%Q.

(** ** The order of pairs *)

Lemma ge3_spec v t d v' t' d' : ge3 (v, t, d) (v', t', d') <->
  (v' < v)%Q \/ ((v == v')%Q /\ ((t' < t)%nat \/ (t = t' /\ (d' <= d)%nat))).
Proof.
  unfold ge3, pair_ge. rewrite orb_true_iff, qlt_spec, andb_true_iff, Qeq_bool_iff, orb_true_iff, andb_true_iff.
  by rewrite Nat.ltb_lt, Nat.eqb_eq, Nat.leb_le.
Qed.

#[export] Instance ge3_total : Total ge3.
Proof.
  intros [[v t] d] [[v' t'] d']. rewrite !ge3_spec. destruct (Q_dec v v') as [[H|H]|H]; [by right; left|by left; left|].
  assert (H' : (v' == v)%Q) by by symmetry. destruct (lt_eq_lt_dec t t') as [[Ht|Ht]|Ht]; [right; right; auto| |left; right; auto].
  destruct (le_ge_dec d d'); [right; right|left; right]; auto.
Qed.

#[export] Instance ge3_trans : Transitive ge3.
Proof.
  intros [[v t] d] [[v' t'] d'] [[v'' t''] d'']. rewrite !ge3_spec. intros [H|[H H1]] [H'|[H' H1']].
  - left. by eapply Qlt_trans.
  - left. by rewrite <- H'.
  - left. by rewrite H.
  - right. split; [by rewrite H|]. lia.
Qed.

Lemma ge3_value v t d v' t' d' : ge3 (v, t, d) (v', t', d') -> (v' <= v)%Q.
Proof. rewrite ge3_spec. intros [H|[H _]]; [by apply Qlt_le_weak|]. rewrite H. apply Qle_refl. Qed.

(** ** The matching *)

Lemma greedy_fresh l ut ud ti di : (ti, di) ∈ greedy l ut ud -> ti ∉ ut /\ di ∉ ud /\ exists v, (v, ti, di) ∈ l.
Proof.
  revert ut ud. induction l as [|[[v t] d] l IH]; intros ut ud H; cbn in H; [by apply elem_of_nil in H|].
  destruct (_ || _) eqn:E.
  - apply IH in H as (H1 & H2 & v' & H3). split_and!; try done. exists v'. by right.
  - apply orb_false_iff in E as [E1 E2]. apply bool_decide_eq_false_1 in E1, E2.
    apply elem_of_cons in H as [H|H]; [simplify_eq; split_and!; try done; exists v; by left|].
    apply IH in H as (H1 & H2 & v' & H3). apply not_elem_of_cons in H1 as [_ H1]. apply not_elem_of_cons in H2 as [_ H2].
    split_and!; try done. exists v'. by right.
Qed.

Lemma greedy_nodup l ut ud : NoDup (fst <$> greedy l ut ud) /\ NoDup (snd <$> greedy l ut ud).
Proof.
  revert ut ud. induction l as [|[[v t] d] l IH]; intros ut ud; cbn; [split; constructor|].
  destruct (_ || _); [apply IH|]. destruct (IH (t :: ut) (d :: ud)) as [H1 H2]. cbn. split; constructor; try done.
  - intros Hx. apply list_elem_of_fmap_1 in Hx as ([t' d'] & Ht & Hin). cbn in Ht. subst t'. apply greedy_fresh in Hin as (Hx & _). by destruct Hx; left.
  - intros Hx. apply list_elem_of_fmap_1 in Hx as ([t' d'] & Ht & Hin). cbn in Ht. subst d'. apply greedy_fresh in Hin as (_ & Hx & _). by destruct Hx; left.
Qed.

(** No pair is passed over unless one at least as good took its track or its detection. *)
Lemma greedy_stable l ut ud v ti di : StronglySorted ge3 l -> (v, ti, di) ∈ l ->
  ti ∈ ut \/ di ∈ ud \/ exists v' ti' di', (v', ti', di') ∈ l /\ (ti', di') ∈ greedy l ut ud /\ (v <= v')%Q /\ (ti' = ti \/ di' = di).
Proof.
  intros Hs. revert ut ud. induction Hs as [|[[w t] d] l Hs IH Hall]; intros ut ud Hin; [by apply elem_of_nil in Hin|].
  cbn. apply elem_of_cons in Hin as [Hin|Hin].
  - simplify_eq. destruct (_ || _) eqn:E.
    + apply orb_true_iff in E as [E|E]; apply bool_decide_eq_true_1 in E; auto.
    + right; right. exists w, t, d. split_and!; [by left|by left|apply Qle_refl|by left].
  - destruct (_ || _).
    + destruct (IH ut ud Hin) as [H|[H|(v' & t' & d' & H1 & H2 & H3 & H4)]]; [by left|by right; left|]. right; right. exists v', t', d'. split_and!; [by right|done..].
    + destruct (IH (t :: ut) (d :: ud) Hin) as [H|[H|(v' & t' & d' & H1 & H2 & H3 & H4)]].
      * apply elem_of_cons in H as [->|H]; [|by left]. right; right. exists w, t, d. split_and!; [by left|by left| |by left].
        rewrite Forall_forall in Hall. by eapply ge3_value, (Hall (v, t, di)).
      * apply elem_of_cons in H as [->|H]; [|by right; left]. right; right. exists w, t, d. split_and!; [by left|by left| |by right].
        rewrite Forall_forall in Hall. by eapply ge3_value, (Hall (v, ti, d)).
      * right; right. exists v', t', d'. split_and!; [by right|by right|done..].
Qed.

(** ** The overlap of two boxes *)

Lemma iou_sym a b : (iou a b == iou b a)%Q.
Proof.
  assert (Hw : (qmax 0 (qmin (bx2 a) (bx2 b) - qmax (bx1 a) (bx1 b)) == qmax 0 (qmin (bx2 b) (bx2 a) - qmax (bx1 b) (bx1 a)))%Q)
    by by rewrite (qmin_comm (bx2 a)), (qmax_comm (bx1 a)).
  assert (Hh : (qmax 0 (qmin (by2 a) (by2 b) - qmax (by1 a) (by1 b)) == qmax 0 (qmin (by2 b) (by2 a) - qmax (by1 b) (by1 a)))%Q)
    by by rewrite (qmin_comm (by2 a)), (qmax_comm (by1 a)).
  unfold iou. cbv zeta. set (i1 := (_ * _)%Q). set (i2 := (qmax 0 (qmin (bx2 b) _ - _) * _)%Q).
  assert (Hi : (i1 == i2)%Q) by (unfold i1, i2; by rewrite Hw, Hh). clearbody i1 i2.
  set (A := (qmax 0 (bx2 a - bx1 a) * _)%Q). set (B := (qmax 0 (bx2 b - bx1 b) * _)%Q). clearbody A B.
  rewrite Hi. destruct (Qle_bool i2 0); [done|].
  assert (Hu : (A + B - i1 == B + A - i2)%Q) by (rewrite Hi; ring). rewrite (qlt_proper 0%Q 0%Q (Qeq_refl 0%Q) _ _ Hu).
  destruct (qlt 0 (B + A - i2)); [by apply Qdiv_comp|done].
Qed.

Lemma overlap_le lo hi lo' hi' : (qmax 0 (qmin hi hi' - qmax lo lo') <= qmax 0 (hi - lo))%Q.
Proof.
  destruct (qmax_spec 0 (hi - lo)) as (H1 & H2 & _). destruct (qmax_spec 0 (qmin hi hi' - qmax lo lo')) as (_ & _ & [->| ->]); [done|].
  eapply Qle_trans; [|exact H2]. destruct (qmin_spec hi hi') as (H3 & _). destruct (qmax_spec lo lo') as (H4 & _).
  apply Qplus_le_compat; [done|by apply Qopp_le_compat].
Qed.

Lemma qmax_nonneg a : (0 <= qmax 0 a)%Q.
Proof. apply qmax_spec. Qed.

Lemma overlap_area_le a b :
  (qmax 0 (qmin (bx2 a) (bx2 b) - qmax (bx1 a) (bx1 b)) * qmax 0 (qmin (by2 a) (by2 b) - qmax (by1 a) (by1 b)) <=
   qmax 0 (bx2 a - bx1 a) * qmax 0 (by2 a - by1 a))%Q.
Proof. apply Qmult_le_compat_nonneg; (split; [apply qmax_nonneg|apply overlap_le]). Qed.

(** the overlap is a ratio, and a box overlaps itself whole *)
Lemma iou_bounds a b : (0 <= iou a b <= 1)%Q.
Proof.
  unfold iou. cbv zeta. set (I := (_ * _)%Q). set (A := (qmax 0 (bx2 a - bx1 a) * _)%Q). set (B := (qmax 0 (bx2 b - bx1 b) * _)%Q).
  assert (HA : (I <= A)%Q) by apply overlap_area_le.
  assert (HB : (I <= B)%Q).
  { eapply Qle_trans; [|apply (overlap_area_le b a)]. unfold I. by rewrite (qmin_comm (bx2 a)), (qmax_comm (bx1 a)), (qmin_comm (by2 a)), (qmax_comm (by1 a)); apply Qle_refl. }
  clearbody I A B. destruct (Qle_bool I 0) eqn:E; [done|]. assert (HI : (0 < I)%Q) by (apply qlt_spec; unfold qlt; by rewrite E).
  destruct (qlt 0 _) eqn:E2; [|done]. apply qlt_spec in E2. split.
  - apply Qle_shift_div_l; [done|]. rewrite Qmult_0_l. by apply Qlt_le_weak.
  - apply Qle_shift_div_r; [done|]. rewrite Qmult_1_l. apply Qplus_le_l with (z := I). ring_simplify.
    setoid_replace (2 * I)%Q with (I + I)%Q using relation Qeq by ring. by apply Qplus_le_compat.
Qed.

(** ** One frame *)

Record tracker_ok (s : SimpleTracker) : Prop := {
  to_ids : NoDup (tk_local_id <$> st_tracks s);
  to_next : Forall (fun t => tk_local_id t < st_next_id s) (st_tracks s);
  to_present : Forall (fun t => tk_is_lost t = false) (st_tracks s)
}.

Lemma filter_split {A} (f : A -> bool) (l : list A) : List.filter (fun x => negb (f x)) l ++ List.filter f l ≡ₚ l.
Proof.
  induction l as [|a l IH]; [done|]. cbn. destruct (f a); cbn; [|by constructor].
  rewrite <- Permutation_middle. by constructor.
Qed.

Section Frame.
Context (md5_hex : string -> string) (set_iter : list nat -> list nat) (session : string) (camera_id : Z).
Context (iou_thresh : Q) (max_age_ms : Z).
Context (set_iter_perm : forall l, set_iter l ≡ₚ l) (age_nonneg : 0 <= max_age_ms).
Notation update := (update md5_hex set_iter session camera_id iou_thresh max_age_ms).
Notation matches := (matches set_iter iou_thresh).

Lemma elem_all_pairs live dets un v ti di : (v, ti, di) ∈ all_pairs set_iter iou_thresh live dets un <->
  exists t d, live !! ti = Some t /\ dets !! di = Some d /\ di ∈ un /\ v = iou (tk_bbox t) (de_bbox d) /\ (iou_thresh <= v)%Q.
Proof.
  unfold all_pairs. etrans; [apply list_elem_of_In|]. etrans; [apply in_concat|]. split.
  - intros (x & Hx & Hin). apply list_elem_of_In, elem_of_lookup_imap in Hx as (i & t & -> & Ht). apply list_elem_of_In, list_elem_of_omap in Hin as (j & Hj & E).
    destruct (dets !! j) as [d|] eqn:Ed; cbn in E; [|done]. destruct (Qle_bool _ _) eqn:Eq; [|done]. simplify_eq. apply Qle_bool_iff in Eq.
    exists t, d. split_and!; try done. by rewrite set_iter_perm in Hj.
  - intros (t & d & Ht & Hd & Hu & -> & Hv). eexists. split.
    + apply list_elem_of_In, elem_of_lookup_imap. by exists ti, t.
    + apply list_elem_of_In, list_elem_of_omap. exists di. rewrite set_iter_perm. split; [done|]. rewrite Hd. cbn.
      apply Qle_bool_iff in Hv. by rewrite Hv.
Qed.

Lemma matches_sound live dets ti di : (ti, di) ∈ matches live dets ->
  exists t d, live !! ti = Some t /\ dets !! di = Some d /\ (iou_thresh <= iou (tk_bbox t) (de_bbox d))%Q.
Proof.
  intros H. apply greedy_fresh in H as (_ & _ & v & H). unfold sort_pairs in H. rewrite merge_sort_Permutation in H.
  apply elem_all_pairs in H as (t & d & Ht & Hd & _ & -> & Hv). eauto.
Qed.

Lemma matches_stable live dets ti di t d : live !! ti = Some t -> dets !! di = Some d -> (iou_thresh <= iou (tk_bbox t) (de_bbox d))%Q ->
  exists ti' di' t' d', (ti', di') ∈ matches live dets /\ live !! ti' = Some t' /\ dets !! di' = Some d' /\
    (iou (tk_bbox t) (de_bbox d) <= iou (tk_bbox t') (de_bbox d'))%Q /\ (ti' = ti \/ di' = di).
Proof.
  intros Ht Hd Hv. set (l := sort_pairs (all_pairs set_iter iou_thresh live dets (seq 0 (length dets)))).
  assert (Hin : (iou (tk_bbox t) (de_bbox d), ti, di) ∈ l).
  { unfold l, sort_pairs. rewrite merge_sort_Permutation. apply elem_all_pairs. exists t, d. split_and!; try done.
    apply elem_of_seq. apply lookup_lt_Some in Hd. lia. }
  destruct (greedy_stable l [] [] _ _ _ (StronglySorted_merge_sort ge3 _) Hin) as [H|[H|(v' & ti' & di' & H1 & H2 & H3 & H4)]];
    [by apply elem_of_nil in H..|].
  unfold l, sort_pairs in H1. rewrite merge_sort_Permutation in H1. apply elem_all_pairs in H1 as (t' & d' & Ht' & Hd' & _ & -> & _).
  by exists ti', di', t', d'.
Qed.

Lemma find_match ms (ti di : nat) : NoDup (fst <$> ms) -> (ti, di) ∈ ms -> List.find (fun m => (fst m =? ti)%nat) ms = Some (ti, di).
Proof.
  induction ms as [|[t d] ms IH]; intros Hn Hin; [by apply elem_of_nil in Hin|]. apply NoDup_cons in Hn as [Hx Hn]. cbn.
  apply elem_of_cons in Hin as [Hin|Hin]; [simplify_eq; by rewrite Nat.eqb_refl|].
  destruct (Nat.eqb_spec t ti) as [->|_]; [|by apply IH]. destruct Hx. by apply (list_elem_of_fmap_2 fst _ _ Hin).
Qed.

Lemma no_match (ms : list (nat * nat)) (ti : nat) : ti ∉ fst <$> ms -> List.find (fun m => (fst m =? ti)%nat) ms = None.
Proof.
  intros H. destruct (List.find _ ms) as [[t d]|] eqn:E; [|done]. apply List.find_some in E as [Hin Ht]. cbn in Ht.
  apply Nat.eqb_eq in Ht as ->. destruct H. apply list_elem_of_In in Hin. by apply (list_elem_of_fmap_2 fst _ _ Hin).
Qed.

Lemma matched_id ms dets ts ti t : tk_local_id (matched ms dets ts ti t) = tk_local_id t /\
  tk_is_lost (matched ms dets ts ti t) = tk_is_lost t /\ (tk_is_new t = false -> tk_is_new (matched ms dets ts ti t) = false).
Proof. unfold matched. destruct (List.find _ _) as [[? di]|]; [|done]. by destruct (dets !! di). Qed.

(** the tracks after the matching, before the stale ones leave *)
Definition all_tracks (dets : list Det) (ts : Z) (s : SimpleTracker) : list TrackedObject :=
  let live := seen_no_more <$> st_tracks s in
  let ms := matches live dets in
  imap (matched ms dets ts) live ++
  imap (fun i d => new_track md5_hex session camera_id (st_next_id s + Z.of_nat i) d ts)
       (omap (fun di => dets !! di) (set_iter (left_over ms (length dets)))).

Lemma omap_all {A} (dets : list A) l : Forall (fun di => (di < length dets)%nat) l -> length (omap (fun di => dets !! di) l) = length l.
Proof.
  induction 1 as [|x l Hx _ IH]; [done|]. cbn. destruct (lookup_lt_is_Some_2 _ _ Hx) as [d ->]. cbn. by rewrite IH.
Qed.

Lemma all_tracks_ids dets ts s : exists n, tk_local_id <$> all_tracks dets ts s =
    (tk_local_id <$> st_tracks s) ++ ((fun i => st_next_id s + Z.of_nat i) <$> seq 0 n) /\
  st_next_id (snd (update dets ts s)) = st_next_id s + Z.of_nat n /\
  n = length (left_over (matches (seen_no_more <$> st_tracks s) dets) (length dets)).
Proof.
  eexists. unfold all_tracks, update. cbv zeta. cbn [snd st_next_id]. rewrite length_imap.
  set (new := omap _ _). split; [|split; [done|]].
  - rewrite fmap_app, fmap_imap. f_equal.
    + apply list_eq. intros i. rewrite !list_lookup_fmap, list_lookup_imap, list_lookup_fmap. destruct (st_tracks s !! i); [|done]. cbn. by rewrite (proj1 (matched_id _ _ _ _ _)).
    + rewrite fmap_imap. cbn. rewrite <- imap_seq_0. apply imap_ext. done.
  - unfold new. rewrite omap_all.
    + by rewrite set_iter_perm.
    + rewrite Forall_forall. intros di Hdi. rewrite set_iter_perm in Hdi. apply elem_of_filter_In in Hdi as [Hdi _]. apply elem_of_seq in Hdi. lia.
Qed.

Lemma update_unfold dets ts s : update dets ts s =
  (List.filter (fun t => negb (stale max_age_ms ts t)) (all_tracks dets ts s) ++ (mark_lost <$> List.filter (stale max_age_ms ts) (all_tracks dets ts s)),
   {| st_tracks := List.filter (fun t => negb (stale max_age_ms ts t)) (all_tracks dets ts s); st_next_id := st_next_id (snd (update dets ts s)) |}).
Proof. done. Qed.

Lemma all_tracks_nodup dets ts s : tracker_ok s -> NoDup (tk_local_id <$> all_tracks dets ts s).
Proof.
  intros [H1 H2 _]. destruct (all_tracks_ids dets ts s) as (n & -> & _). apply NoDup_app. split; [done|]. split.
  - intros x Hx Hy. apply list_elem_of_fmap_1 in Hx as (t & -> & Ht). apply list_elem_of_fmap_1 in Hy as (k & Hk & _).
    rewrite Forall_forall in H2. specialize (H2 t Ht). lia.
  - apply NoDup_fmap_2; [intros a b; lia|apply NoDup_seq].
Qed.

(** a track of this frame: an old one, or one flagged new with an id not used before *)
Lemma all_tracks_origin dets ts s o : tracker_ok s -> o ∈ all_tracks dets ts s -> tk_is_lost o = false /\
  (tk_is_new o = false /\ tk_local_id o ∈ tk_local_id <$> st_tracks s \/
   tk_is_new o = true /\ st_next_id s <= tk_local_id o < st_next_id (snd (update dets ts s)) /\ tk_last_ts o = ts).
Proof.
  intros [_ _ H3] Hin. apply elem_of_app in Hin as [Hin|Hin]; apply elem_of_lookup_imap in Hin as (i & x & -> & Hx).
  - rewrite list_lookup_fmap in Hx. destruct (st_tracks s !! i) as [t|] eqn:Et; [|done]. cbn in Hx. injection Hx as <-.
    destruct (matched_id (matches (seen_no_more <$> st_tracks s) dets) dets ts i (seen_no_more t)) as (E1 & E2 & E3). rewrite E1, E2, E3 by done.
    apply list_elem_of_lookup_2 in Et. rewrite Forall_forall in H3. split; [by apply (H3 t)|]. left. split; [done|].
    change (tk_local_id t ∈ tk_local_id <$> st_tracks s). by apply list_elem_of_fmap_2.
  - cbn. split; [done|]. right. split; [done|]. split; [|done]. unfold update. cbn. rewrite length_imap. apply lookup_lt_Some in Hx. lia.
Qed.

Lemma update_ok dets ts s : tracker_ok s -> tracker_ok (snd (update dets ts s)).
Proof.
  intros H. rewrite update_unfold. cbn [snd]. constructor; cbn [st_tracks st_next_id].
  - apply filter_nodup. by apply all_tracks_nodup.
  - apply Forall_forall. intros o Ho. apply elem_of_filter_In in Ho as [Ho _]. destruct (all_tracks_origin dets ts s o H Ho) as (_ & [[_ Hx]|(_ & Hx & _)]); [|lia].
    apply list_elem_of_fmap_1 in Hx as (t & -> & Ht). pose proof (to_next _ H) as Hn. rewrite Forall_forall in Hn. specialize (Hn t Ht).
    destruct (all_tracks_ids dets ts s) as (n & _ & -> & _). lia.
  - apply Forall_forall. intros o Ho. apply elem_of_filter_In in Ho as [Ho _]. by destruct (all_tracks_origin dets ts s o H Ho).
Qed.

Lemma live_track dets ts s ti t : st_tracks s !! ti = Some t ->
  matched (matches (seen_no_more <$> st_tracks s) dets) dets ts ti (seen_no_more t) ∈ all_tracks dets ts s.
Proof.
  intros Ht. apply elem_of_app. left. apply elem_of_lookup_imap. exists ti, (seen_no_more t). split; [done|]. by rewrite list_lookup_fmap, Ht.
Qed.

Lemma left_over_length ms n : NoDup (snd <$> ms) -> (forall di, di ∈ snd <$> ms -> (di < n)%nat) ->
  Z.of_nat (length (left_over ms n)) = Z.of_nat n - Z.of_nat (length ms).
Proof.
  intros Hn Hlt. unfold left_over. set (f := fun di => bool_decide (di ∈ snd <$> ms)).
  pose proof (Permutation_length (filter_split f (seq 0 n))) as Hl. rewrite length_app, length_seq in Hl.
  assert (Hp : List.filter f (seq 0 n) ≡ₚ snd <$> ms).
  { apply NoDup_Permutation; [|done|].
    - apply NoDup_ListNoDup, List.NoDup_filter, NoDup_ListNoDup, NoDup_seq.
    - intros x. rewrite elem_of_filter_In, elem_of_seq. unfold f. rewrite bool_decide_eq_true. naive_solver lia. }
  apply Permutation_length in Hp. rewrite length_fmap in Hp. change (Z.of_nat (length (List.filter (fun x => negb (f x)) (seq 0 n))) = Z.of_nat n - Z.of_nat (length ms)). lia.
Qed.

(** a frame is matched as well as it can be, best overlaps first.  No track takes
    two detections and no detection goes to two tracks; matched pairs overlap enough;
    a pair that overlaps enough is only left apart when its track or its detection has
    a partner that overlaps at least as much.  A matched track carries the detection's
    box; each detection left over becomes a new track under an id never used before; a
    track left over is kept, or reported lost once it is too old. *)
Theorem frame_matches_best_overlaps dets ts s :
  tracker_ok s ->
  let out := fst (update dets ts s) in
  let s' := snd (update dets ts s) in
  exists ms : list (nat * nat),
    NoDup (fst <$> ms) /\ NoDup (snd <$> ms) /\
    (forall ti di, (ti, di) ∈ ms -> exists t d, st_tracks s !! ti = Some t /\ dets !! di = Some d /\
       (iou_thresh <= iou (tk_bbox t) (de_bbox d))%Q /\ track_update d ts t ∈ st_tracks s') /\
    (forall ti di t d, st_tracks s !! ti = Some t -> dets !! di = Some d -> (iou_thresh <= iou (tk_bbox t) (de_bbox d))%Q ->
       exists ti' di' t' d', (ti', di') ∈ ms /\ (ti' = ti \/ di' = di) /\ st_tracks s !! ti' = Some t' /\ dets !! di' = Some d' /\
         (iou (tk_bbox t) (de_bbox d) <= iou (tk_bbox t') (de_bbox d'))%Q) /\
    (forall di d, dets !! di = Some d -> di ∉ snd <$> ms -> exists id,
       st_next_id s <= id < st_next_id s' /\ new_track md5_hex session camera_id id d ts ∈ st_tracks s') /\
    (forall ti t, st_tracks s !! ti = Some t -> ti ∉ fst <$> ms ->
       if stale max_age_ms ts t then mark_lost (seen_no_more t) ∈ out /\ tk_local_id t ∉ tk_local_id <$> st_tracks s'
       else seen_no_more t ∈ st_tracks s') /\
    st_next_id s' = st_next_id s + Z.of_nat (length dets) - Z.of_nat (length ms).
Proof.
  intros Hok out s'. set (live := seen_no_more <$> st_tracks s). set (ms := matches live dets). exists ms.
  assert (Hnd : NoDup (fst <$> ms) /\ NoDup (snd <$> ms)) by apply greedy_nodup. destruct Hnd as [Hf Hs].
  assert (Hlive : forall i t, live !! i = Some t -> exists t0, st_tracks s !! i = Some t0 /\ t = seen_no_more t0).
  { intros i t Ht. unfold live in Ht. rewrite list_lookup_fmap in Ht. destruct (st_tracks s !! i) as [t0|]; [|done]. exists t0. by injection Ht as <-. }
  assert (Hkeep : forall o, o ∈ all_tracks dets ts s -> tk_last_ts o = ts -> o ∈ st_tracks s').
  { intros o Ho Hts. apply elem_of_filter_In. split; [done|]. unfold stale. rewrite Hts. apply negb_true_iff, Z.ltb_ge. lia. }
  split; [done|]. split; [done|]. split_and!.
  - intros ti di Hin. destruct (matches_sound live dets ti di Hin) as (t & d & Ht & Hd & Hv). destruct (Hlive ti t Ht) as (t0 & Ht0 & ->).
    exists t0, d. split_and!; try done. apply Hkeep; [|done]. pose proof (live_track dets ts s ti t0 Ht0) as Hl.
    unfold matched in Hl. fold live ms in Hl. by rewrite (find_match ms ti di Hf Hin), Hd in Hl.
  - intros ti di t d Ht Hd Hv. destruct (matches_stable live dets ti di (seen_no_more t) d) as (ti' & di' & t' & d' & H1 & H2 & H3 & H4 & H5); try done.
    { unfold live. by rewrite list_lookup_fmap, Ht. }
    destruct (Hlive ti' t' H2) as (t0 & Ht0 & ->). by exists ti', di', t0, d'.
  - intros di d Hd Hnot. assert (Hin : d ∈ omap (fun i => dets !! i) (set_iter (left_over ms (length dets)))).
    { apply list_elem_of_omap. exists di. split; [|done]. rewrite set_iter_perm. apply elem_of_filter_In. split; [apply elem_of_seq; apply lookup_lt_Some in Hd; lia|].
      by rewrite bool_decide_eq_false_2. }
    apply list_elem_of_lookup_1 in Hin as [i Hi]. exists (st_next_id s + Z.of_nat i). split.
    + unfold s', Tracker.update. cbn. rewrite length_imap. apply lookup_lt_Some in Hi. unfold ms, live in Hi. lia.
    + apply Hkeep; [|done]. apply elem_of_app. right. apply elem_of_lookup_imap. by exists i, d.
  - intros ti t Ht Hnot. pose proof (live_track dets ts s ti t Ht) as Hl. unfold matched in Hl. fold live ms in Hl. rewrite (no_match ms ti Hnot) in Hl.
    destruct (stale max_age_ms ts t) eqn:Es; [|by apply elem_of_filter_In; split; [|unfold stale in *; cbn; rewrite Es]]. split.
    + apply elem_of_app. right. apply list_elem_of_fmap_2, elem_of_filter_In. by split.
    + intros Hx. apply list_elem_of_fmap_1 in Hx as (o & Ho & Hin). apply elem_of_filter_In in Hin as [Hin Hst].
      assert (o = seen_no_more t) as -> by (eapply (nodup_key_inj tk_local_id); [by apply (all_tracks_nodup dets ts s)|done|done|done]).
      unfold stale in *. cbn in Hst. by rewrite Es in Hst.
  - destruct (all_tracks_ids dets ts s) as (n & _ & Hn & ->). unfold s'. rewrite Hn. fold live ms. rewrite left_over_length; [lia|done|].
    intros di Hdi. apply list_elem_of_fmap_1 in Hdi as ([ti di'] & -> & Hin). destruct (matches_sound live dets ti di' Hin) as (_ & d & _ & Hd & _).
    by apply lookup_lt_Some in Hd.
Qed.

(** ** The life of a track *)

(** the outputs of the tracker over a sequence of frames *)
Fixpoint frames (l : list (list Det * Z)) (s : SimpleTracker) : list (list TrackedObject) :=
  match l with
  | [] => []
  | (dets, ts) :: r => let '(out, s') := update dets ts s in out :: frames r s'
  end.

Definition announced (outs : list (list TrackedObject)) : list Z := tk_local_id <$> List.filter tk_is_new (concat outs).
Definition reported_lost (outs : list (list TrackedObject)) : list Z := tk_local_id <$> List.filter tk_is_lost (concat outs).

Lemma update_ids dets ts s : tk_local_id <$> fst (update dets ts s) ≡ₚ tk_local_id <$> all_tracks dets ts s.
Proof.
  rewrite update_unfold. cbn [fst]. rewrite fmap_app.
  replace (tk_local_id <$> (mark_lost <$> List.filter (stale max_age_ms ts) (all_tracks dets ts s))) with
    (tk_local_id <$> List.filter (stale max_age_ms ts) (all_tracks dets ts s)) by by rewrite <- list_fmap_compose.
  rewrite <- fmap_app. by rewrite filter_split.
Qed.

(** what one output says *)
Lemma output_spec dets ts s o : tracker_ok s -> o ∈ fst (update dets ts s) ->
  (tk_local_id o ∈ tk_local_id <$> st_tracks s /\ tk_is_new o = false \/
   tk_is_new o = true /\ st_next_id s <= tk_local_id o < st_next_id (snd (update dets ts s))) /\
  (if tk_is_lost o then tk_local_id o ∉ tk_local_id <$> st_tracks (snd (update dets ts s)) /\ tk_is_new o = false
   else tk_local_id o ∈ tk_local_id <$> st_tracks (snd (update dets ts s))).
Proof.
  intros H Ho. rewrite update_unfold in Ho. cbn [fst] in Ho. apply elem_of_app in Ho as [Ho|Ho].
  - apply elem_of_filter_In in Ho as [Ho Hst]. destruct (all_tracks_origin dets ts s o H Ho) as (E & Hor). rewrite E. split.
    + destruct Hor as [[? ?]|(? & ? & _)]; auto.
    + apply list_elem_of_fmap_2, elem_of_filter_In. done.
  - apply list_elem_of_fmap_1 in Ho as (t & -> & Ht). apply elem_of_filter_In in Ht as [Ht Hst]. cbn.
    destruct (all_tracks_origin dets ts s t H Ht) as (E & Hor). split; [destruct Hor as [[? ?]|(? & ? & _)]; auto|]. split.
    + intros Hx. apply list_elem_of_fmap_1 in Hx as (t' & Hid & Hin). apply elem_of_filter_In in Hin as [Hin Hst'].
      assert (t' = t) as -> by (eapply (nodup_key_inj tk_local_id); [by apply (all_tracks_nodup dets ts s)|done|done|done]). by rewrite Hst in Hst'.
    + destruct Hor as [[? ?]|(? & _ & Hts)]; [done|]. exfalso. unfold stale in Hst. rewrite Hts in Hst. lia.
Qed.

Lemma update_next dets ts s : st_next_id s <= st_next_id (snd (update dets ts s)).
Proof. destruct (all_tracks_ids dets ts s) as (n & _ & -> & _). lia. Qed.

Lemma frames_ids l s o : tracker_ok s -> o ∈ concat (frames l s) ->
  tk_local_id o ∈ tk_local_id <$> st_tracks s /\ tk_is_new o = false \/ st_next_id s <= tk_local_id o.
Proof.
  revert s. induction l as [|[dets ts] l IH]; intros s H Ho; cbn in Ho; [by apply elem_of_nil in Ho|].
  change (update dets ts s) with (fst (update dets ts s), snd (update dets ts s)) in Ho. cbn [concat] in Ho.
  apply elem_of_app in Ho as [Ho|Ho].
  - destruct (output_spec dets ts s o H Ho) as [[?|[_ ?]] _]; [by left|right; lia].
  - destruct (IH _ (update_ok dets ts s H) Ho) as [[Hin Hn]|Hn]; [|right; pose proof (update_next dets ts s); lia].
    apply list_elem_of_fmap_1 in Hin as (t & Hid & Hin). apply elem_of_filter_In in Hin as [Hin _]. rewrite Hid, Hn.
    destruct (all_tracks_origin dets ts s t H Hin) as (_ & [[_ Hx]|(_ & Hx & _)]); [by left|right; lia].
Qed.

Fixpoint after (l : list (list Det * Z)) (s : SimpleTracker) : SimpleTracker :=
  match l with [] => s | (dets, ts) :: r => after r (snd (update dets ts s)) end.

Lemma frames_cons dets ts l s : frames ((dets, ts) :: l) s = fst (update dets ts s) :: frames l (snd (update dets ts s)).
Proof. done. Qed.

Lemma frames_app l1 l2 s : frames (l1 ++ l2) s = frames l1 s ++ frames l2 (after l1 s).
Proof. revert s. induction l1 as [|[dets ts] l1 IH]; intros s; [done|]. cbn [app]. by rewrite !frames_cons, IH. Qed.

Lemma gone_stays l s id : tracker_ok s -> id ∉ tk_local_id <$> st_tracks s -> id < st_next_id s -> id ∉ tk_local_id <$> concat (frames l s).
Proof.
  intros H Hn Hlt Hx. apply list_elem_of_fmap_1 in Hx as (o & -> & Ho). destruct (frames_ids l s o H Ho) as [[? _]|?]; [done|lia].
Qed.

Lemma announced_cons out outs : announced (out :: outs) = (tk_local_id <$> List.filter tk_is_new out) ++ announced outs.
Proof. unfold announced. cbn [concat]. by rewrite List.filter_app, fmap_app. Qed.
Lemma reported_lost_cons out outs : reported_lost (out :: outs) = (tk_local_id <$> List.filter tk_is_lost out) ++ reported_lost outs.
Proof. unfold reported_lost. cbn [concat]. by rewrite List.filter_app, fmap_app. Qed.
Lemma reported_lost_out outs id : id ∈ reported_lost outs -> id ∈ tk_local_id <$> concat outs.
Proof. intros H. apply list_elem_of_fmap_1 in H as (o & -> & Ho). apply elem_of_filter_In in Ho as [Ho _]. by apply list_elem_of_fmap_2. Qed.

Lemma output_nodup dets ts s f : tracker_ok s -> NoDup (tk_local_id <$> List.filter f (fst (update dets ts s))).
Proof. intros H. apply filter_nodup. rewrite update_ids. by apply all_tracks_nodup. Qed.

(** an id lost in this frame is out of use *)
Lemma lost_gone dets ts s id : tracker_ok s -> id ∈ tk_local_id <$> List.filter tk_is_lost (fst (update dets ts s)) ->
  id ∉ tk_local_id <$> st_tracks (snd (update dets ts s)) /\ id < st_next_id (snd (update dets ts s)) /\ id ∈ tk_local_id <$> st_tracks s.
Proof.
  intros H Hx. apply list_elem_of_fmap_1 in Hx as (o & -> & Ho). apply elem_of_filter_In in Ho as [Ho Hl].
  destruct (output_spec dets ts s o H Ho) as [Hor Hlost]. rewrite Hl in Hlost. destruct Hlost as [Hn Hnew].
  destruct Hor as [[Hin _]|[Hnew' _]]; [|congruence]. split_and!; [done| |done].
  apply list_elem_of_fmap_1 in Hin as (t & Hid & Hin). pose proof (to_next _ H) as Hx. rewrite Forall_forall in Hx. specialize (Hx t Hin).
  rewrite Hid. pose proof (update_next dets ts s). lia.
Qed.

Lemma announced_once l s : tracker_ok s -> NoDup (announced (frames l s)).
Proof.
  revert s. induction l as [|[dets ts] l IH]; intros s H; [constructor|]. rewrite frames_cons, announced_cons. apply NoDup_app.
  split; [by apply output_nodup|]. split; [|apply IH; by apply update_ok]. intros id H1 H2.
  apply list_elem_of_fmap_1 in H1 as (o & -> & Ho). apply elem_of_filter_In in Ho as [Ho Hnew].
  destruct (output_spec dets ts s o H Ho) as [[[_ Hx]|[_ Hlt]] _]; [congruence|].
  apply list_elem_of_fmap_1 in H2 as (o' & Hid & Ho'). apply elem_of_filter_In in Ho' as [Ho' Hnew'].
  destruct (frames_ids l _ o' (update_ok dets ts s H) Ho') as [[_ Hx]|Hx]; [congruence|lia].
Qed.

Lemma lost_once l s : tracker_ok s -> NoDup (reported_lost (frames l s)).
Proof.
  revert s. induction l as [|[dets ts] l IH]; intros s H; [constructor|]. rewrite frames_cons, reported_lost_cons. apply NoDup_app.
  split; [by apply output_nodup|]. split; [|apply IH; by apply update_ok]. intros id H1 H2.
  apply (lost_gone dets ts s id H) in H1 as (Hn & Hlt & _). apply reported_lost_out in H2. by apply (gone_stays l _ id (update_ok dets ts s H)) in H2.
Qed.

Lemma lost_was_announced l s id : tracker_ok s -> id ∈ reported_lost (frames l s) ->
  id ∈ announced (frames l s) \/ id ∈ tk_local_id <$> st_tracks s.
Proof.
  revert s. induction l as [|[dets ts] l IH]; intros s H Hx; [by apply elem_of_nil in Hx|]. rewrite frames_cons, reported_lost_cons in Hx.
  rewrite frames_cons, announced_cons. apply elem_of_app in Hx as [Hx|Hx]; [right; by apply (lost_gone dets ts s)|].
  destruct (IH _ (update_ok dets ts s H) Hx) as [Ha|Ha]; [left; apply elem_of_app; by right|].
  apply list_elem_of_fmap_1 in Ha as (t & -> & Ht). assert (Hout : t ∈ fst (update dets ts s)) by (apply elem_of_app; by left).
  destruct (output_spec dets ts s t H Hout) as [[[Hin _]|[Hnew _]] _]; [by right|left; apply elem_of_app; left].
  apply list_elem_of_fmap_2, elem_of_filter_In. done.
Qed.

(** over any sequence of frames an id is announced as new at most once and reported
    lost at most once, only after it was announced; once it is reported lost no later
    frame mentions it. *)
Theorem track_announced_and_lost_once l s :
  tracker_ok s ->
  NoDup (announced (frames l s)) /\ NoDup (reported_lost (frames l s)) /\
  (forall id, id ∈ reported_lost (frames l s) -> id ∈ announced (frames l s) \/ id ∈ tk_local_id <$> st_tracks s) /\
  (forall l1 l2 id, l = l1 ++ l2 -> id ∈ reported_lost (frames l1 s) -> id ∉ tk_local_id <$> concat (frames l2 (after l1 s))).
Proof.
  intros H. split_and!; [by apply announced_once|by apply lost_once|intros id; by apply lost_was_announced|].
  intros l1 l2 id _. revert s H. induction l1 as [|[dets ts] l1 IH]; intros s H Hx; [by apply elem_of_nil in Hx|].
  rewrite frames_cons, reported_lost_cons in Hx. cbn [after]. apply elem_of_app in Hx as [Hx|Hx]; [|apply IH; [by apply update_ok|done]].
  apply (lost_gone dets ts s id H) in Hx as (Hn & Hlt & _). intros Hy.
  apply (gone_stays (l1 ++ l2) _ id (update_ok dets ts s H) Hn Hlt). rewrite frames_app, concat_app, fmap_app. apply elem_of_app. by right.
Qed.
End Frame.

(** ** What the sampler lets through *)

Definition flagged (t : TrackedObject) : bool := tk_is_new t || tk_is_lost t || tk_force t.
Definition due_for_report (interval ts : Z) (last : gmap string Z) (t : TrackedObject) : bool :=
  flagged t || (interval <=? ts - default (- 10 ^ 15) (last !! tk_track_key t)).

Lemma sample_one_fold interval ts l out last :
  NoDup (tk_track_key <$> l) ->
  let r := foldl (sample_one interval ts) (out, last) l in
  fst r = out ++ List.filter (due_for_report interval ts last) l /\
  (forall k, k ∉ tk_track_key <$> l -> snd r !! k = last !! k) /\
  (forall t, t ∈ l -> snd r !! tk_track_key t = if due_for_report interval ts last t then Some ts else last !! tk_track_key t).
Proof.
  revert out last. induction l as [|a l IH]; intros out last Hn; cbn [foldl].
  { split; [by rewrite app_nil_r|]. split; [done|]. intros t Ht. by apply elem_of_nil in Ht. }
  rewrite fmap_cons in Hn. apply NoDup_cons in Hn as [Ha Hn].
  assert (Es : sample_one interval ts (out, last) a =
    if due_for_report interval ts last a then (out ++ [a], <[tk_track_key a := ts]> last) else (out, last)).
  { unfold sample_one, due_for_report, flagged. destruct (_ || tk_force a); [done|]. done. }
  rewrite Es. cbn [List.filter]. destruct (due_for_report interval ts last a) eqn:Ed.
  - assert (Hl : forall t, t ∈ l -> due_for_report interval ts (<[tk_track_key a:=ts]> last) t = due_for_report interval ts last t).
    { intros t Ht. unfold due_for_report. rewrite lookup_insert_ne; [done|]. intros E. destruct Ha. rewrite E. by apply list_elem_of_fmap_2. }
    destruct (IH (out ++ [a]) (<[tk_track_key a:=ts]> last) Hn) as (H1 & H2 & H3). split; [|split].
    + rewrite H1, <- app_assoc. cbn. do 2 f_equal. clear -Hl. induction l as [|t l IHl]; [done|]. cbn. rewrite (Hl t) by (by left). rewrite IHl; [done|].
      intros t' Ht'. apply Hl. by right.
    + intros k Hk. apply not_elem_of_cons in Hk as [Hk Hk']. rewrite (H2 k Hk'). by rewrite lookup_insert_ne.
    + intros t Ht. apply elem_of_cons in Ht as [->|Ht]; [rewrite Ed, (H2 _ Ha); by rewrite lookup_insert_eq|].
      rewrite (H3 t Ht), (Hl t Ht). destruct (due_for_report _ _ _ t); [done|]. apply lookup_insert_ne.
      intros E. destruct Ha. rewrite E. by apply list_elem_of_fmap_2.
  - destruct (IH out last Hn) as (H1 & H2 & H3). split; [done|]. split.
    + intros k Hk. apply not_elem_of_cons in Hk as [_ Hk]. by apply H2.
    + intros t Ht. apply elem_of_cons in Ht as [->|Ht]; [rewrite Ed; by apply H2|by apply H3].
Qed.

Lemma forget_lost_fold l last k : NoDup (tk_track_key <$> l) ->
  (forall t, t ∈ l -> tk_track_key t = k -> tk_is_lost t = false) -> foldl forget_lost last l !! k = last !! k.
Proof.
  revert last. induction l as [|a l IH]; intros last Hn H; [done|]. rewrite fmap_cons in Hn. apply NoDup_cons in Hn as [_ Hn]. cbn [foldl].
  rewrite IH; [|done|intros t Ht; apply H; by right]. unfold forget_lost. destruct (tk_is_lost a) eqn:E; [|done].
  apply lookup_delete_ne. intros Hk. specialize (H a ltac:(by left) Hk). congruence.
Qed.

(** One call: exactly the tracks that are new, lost, forced or due are reported. *)
Lemma sample_spec interval tracks ts last : NoDup (tk_track_key <$> tracks) ->
  fst (sample interval tracks ts last) = List.filter (due_for_report interval ts last) tracks /\
  (forall t, t ∈ tracks -> tk_is_lost t = false ->
     snd (sample interval tracks ts last) !! tk_track_key t = if due_for_report interval ts last t then Some ts else last !! tk_track_key t) /\
  (forall k, k ∉ tk_track_key <$> tracks -> snd (sample interval tracks ts last) !! k = last !! k).
Proof.
  intros Hn. unfold sample. destruct (sample_one_fold interval ts tracks [] last Hn) as (H1 & H2 & H3).
  destruct (foldl (sample_one interval ts) ([], last) tracks) as [out last1]. cbn in *. split; [done|]. split.
  - intros t Ht Hl. rewrite forget_lost_fold; [by apply H3|done|]. intros t' Ht' E.
    by rewrite (nodup_key_inj tk_track_key tracks t' t Hn Ht' Ht E).
  - intros k Hk. rewrite forget_lost_fold; [by apply H2|done|]. intros t Ht E. destruct Hk. rewrite <- E. by apply list_elem_of_fmap_2.
Qed.

(** the instants at which key [k] is reported over a sequence of calls *)
Fixpoint report_times (interval : Z) (k : string) (calls : list (list TrackedObject * Z)) (last : gmap string Z) : list Z :=
  match calls with
  | [] => []
  | (tracks, ts) :: r =>
      let '(out, last') := sample interval tracks ts last in
      (if bool_decide (k ∈ tk_track_key <$> out) then [ts] else []) ++ report_times interval k r last'
  end.

(** a track that goes on is reported at most once per sample interval: over any
    calls in which it is neither new nor lost nor forced, [n] reports after one at [t0]
    take until [t0 + n * interval] at least. *)
Theorem sustained_track_rate interval k calls last t0 :
  last !! k = Some t0 ->
  Forall (fun c => NoDup (tk_track_key <$> fst c) /\ (forall t, t ∈ fst c -> tk_track_key t = k -> flagged t = false)) calls ->
  forall n ts, report_times interval k calls last !! n = Some ts -> t0 + Z.of_nat (S n) * interval <= ts.
Proof.
  intros Hl Hc. revert last t0 Hl. induction Hc as [|[tracks now] calls [Hn Hf] _ IH]; intros last t0 Hl n ts Ht; [done|].
  cbn [report_times] in Ht. destruct (sample_spec interval tracks now last Hn) as (H1 & H2 & H3).
  destruct (sample interval tracks now last) as [out last']. cbn in *. subst out.
  assert (Hlast : if bool_decide (k ∈ tk_track_key <$> List.filter (due_for_report interval now last) tracks)
    then t0 + interval <= now /\ last' !! k = Some now else last' !! k = Some t0).
  { case_bool_decide as Hk.
    - apply list_elem_of_fmap_1 in Hk as (t & -> & Hin). apply elem_of_filter_In in Hin as [Hin Hd].
      pose proof (Hf t Hin eq_refl) as Hfl. assert (Hlo : tk_is_lost t = false) by (unfold flagged in Hfl; destruct (tk_is_lost t); [by rewrite orb_true_r in Hfl|done]).
      rewrite (H2 t Hin Hlo), Hd. split; [|done]. unfold due_for_report in Hd. rewrite Hfl, Hl in Hd. cbn in Hd. lia.
    - destruct (decide (k ∈ tk_track_key <$> tracks)) as [Hin|Hin]; [|by rewrite H3].
      apply list_elem_of_fmap_1 in Hin as (t & -> & Hin). pose proof (Hf t Hin eq_refl) as Hfl.
      assert (Hlo : tk_is_lost t = false) by (unfold flagged in Hfl; destruct (tk_is_lost t); [by rewrite orb_true_r in Hfl|done]).
      rewrite (H2 t Hin Hlo). destruct (due_for_report interval now last t) eqn:Ed; [|done]. destruct Hk. by apply list_elem_of_fmap_2, elem_of_filter_In. }
  case_bool_decide; cbn [app] in Ht.
  - destruct Hlast as [Hi Hl']. destruct n as [|n]; [cbn in Ht; simplify_eq; lia|]. specialize (IH last' now Hl' n ts Ht). lia.
  - exact (IH last' t0 Hlast n ts Ht).
Qed.

(** ** Zones: the node and the server agree *)

#[export] Instance crosses_proper : Proper (Qeq ==> Qeq ==> eq ==> eq ==> eq) crosses.
Proof.
  intros x x' Hx y y' Hy [xi yi] ? <- [xj yj] ? <-. unfold crosses.
  rewrite (qlt_proper y y' Hy yi yi (Qeq_refl _)), (qlt_proper y y' Hy yj yj (Qeq_refl _)). f_equal.
  apply qlt_proper; [done|]. by rewrite Hy.
Qed.

Lemma ray_proper x x' y y' prev rest inside : (x == x')%Q -> (y == y')%Q -> ray x y prev rest inside = ray x' y' prev rest inside.
Proof.
  intros Hx Hy. revert prev inside. induction rest as [|p r IH]; intros prev inside; [done|]. cbn.
  by rewrite (crosses_proper x x' Hx y y' Hy p p eq_refl prev prev eq_refl), IH.
Qed.

#[export] Instance point_in_polygon_proper : Proper (Qeq ==> Qeq ==> eq ==> eq) point_in_polygon.
Proof. intros x x' Hx y y' Hy p ? <-. unfold point_in_polygon. destruct (_ <? _)%nat; [done|]. by apply ray_proper. Qed.

Lemma worker_crosses_same x y i j : worker_crosses x y i j = crosses x y i j.
Proof.
  destruct i as [xi yi], j as [xj yj]. unfold worker_crosses, crosses. destruct (Bool.eqb _ _) eqn:E; [done|]. cbn [negb andb].
  unfold or_Q. destruct (Qeq_bool (yj - yi) 0) eqn:Eq; [|done]. apply Qeq_bool_iff in Eq. exfalso.
  assert (Hy : (yj == yi)%Q) by (apply Qplus_inj_r with (z := (- yi)%Q); rewrite Qplus_opp_r; exact Eq).
  rewrite (qlt_proper y y (Qeq_refl _) yj yi Hy) in E. by rewrite Bool.eqb_reflx in E.
Qed.

Lemma worker_point_in_polygon_same x y p : worker_point_in_polygon x y p = point_in_polygon x y p.
Proof.
  unfold worker_point_in_polygon, point_in_polygon. destruct (_ <? _)%nat; [done|]. generalize (List.last p (0%Q, 0%Q)). generalize false.
  induction p as [|q p IH]; intros b prev; [done|]. cbn. by rewrite worker_crosses_same, IH.
Qed.

Lemma qmax_div a b c : (0 < c)%Q -> (qmax a b / c == qmax (a / c) (b / c))%Q.
Proof.
  intros Hc. assert (Hi : (0 < / c)%Q) by by apply Qinv_lt_0_compat. unfold qmax, Qdiv.
  assert (E : qlt a b = qlt (a * / c) (b * / c)); [|by rewrite <- E; destruct (qlt a b)].
  destruct (qlt a b) eqn:E; symmetry.
  - apply qlt_spec in E. apply qlt_spec. by apply Qmult_lt_compat_r.
  - apply qlt_false in E. apply qlt_false. apply Qmult_le_compat_r; [done|by apply Qlt_le_weak].
Qed.

(** the node keeps a detection exactly when the server's own geometry would, on the
    box the node reports: its ground point lies in some include zone (if there is one)
    and in no ignore zone. *)
Theorem zones_agree_with_server include ignore frame_w frame_h d t :
  0 < frame_w -> 0 < frame_h -> tk_bbox t = de_bbox d ->
  let '(x, y) := bottom_center (report_bbox frame_w frame_h t) in
  keep include ignore frame_w frame_h d =
    (bool_decide (include = []) || existsb (point_in_polygon x y) include) && negb (existsb (point_in_polygon x y) ignore).
Proof.
  intros Hw Hh Hb. unfold report_bbox, bottom_center. rewrite Hb. set (b := de_bbox d).
  assert (Hx : (((bx1 b + bx2 b) / 2) / inject_Z (Z.max 1 frame_w) == (bx1 b / inject_Z frame_w + bx2 b / inject_Z frame_w) / 2)%Q).
  { rewrite Z.max_r by lia. field. intros H. change 0%Q with (inject_Z 0) in H. apply (proj1 (inject_Z_injective frame_w 0)) in H. lia. }
  assert (Hy : (qmax (by1 b) (by2 b) / inject_Z (Z.max 1 frame_h) == qmax (by1 b / inject_Z frame_h) (by2 b / inject_Z frame_h))%Q).
  { rewrite Z.max_r by lia. apply qmax_div. change 0%Q with (inject_Z 0). by rewrite <- (Zlt_Qlt 0 frame_h). }
  assert (He : forall l, existsb (worker_point_in_polygon ((bx1 b + bx2 b) / 2 / inject_Z (Z.max 1 frame_w)) (qmax (by1 b) (by2 b) / inject_Z (Z.max 1 frame_h))) l =
    existsb (point_in_polygon ((bx1 b / inject_Z frame_w + bx2 b / inject_Z frame_w) / 2) (qmax (by1 b / inject_Z frame_h) (by2 b / inject_Z frame_h))) l).
  { induction l as [|p l IH]; [done|]. cbn [existsb]. rewrite worker_point_in_polygon_same, IH. by rewrite (point_in_polygon_proper _ _ Hx _ _ Hy p p eq_refl). }
  unfold keep. cbv zeta. fold b. rewrite !He. destruct (bool_decide (include = [])); cbn [negb andb orb]; [done|]. by destruct (existsb _ include).
Qed.

(** ** Concrete runs *)

Definition demo_box (x : Z) : Box := {| bx1 := inject_Z x; by1 := 0; bx2 := inject_Z (x + 10); by2 := 10 |}.
Definition demo_det (x : Z) : Det := {| de_bbox := demo_box x; de_confidence := 9 # 10; de_class_id := 0; de_label := "person" |}.
Definition demo_tracker : SimpleTracker := {| st_tracks := []; st_next_id := 1 |}.
Notation demo_update := (update (fun s => s) (fun l => l) "s" 7 (3 # 10) 2000).
Definition demo_frames : list (list Det * Z) :=
  [([demo_det 0; demo_det 100], 0); ([demo_det 101; demo_det 1], 500); ([demo_det 2], 3000); ([], 6000)].

Lemma demo_tracker_ok : tracker_ok demo_tracker.
Proof. split; constructor. Qed.

Definition demo_second : SimpleTracker := snd (demo_update [demo_det 0; demo_det 100] 0 demo_tracker).

Example demo_second_matched :
  tk_local_id <$> fst (demo_update [demo_det 101; demo_det 1; demo_det 300] 500 demo_second) = [1; 2; 3] /\
  (bx1 ∘ tk_bbox) <$> fst (demo_update [demo_det 101; demo_det 1; demo_det 300] 500 demo_second) = [inject_Z 1; inject_Z 101; inject_Z 300].
Proof. vm_compute. split; reflexivity. Qed.

Lemma frame_matches_best_overlaps_witness :
  exists ms : list (nat * nat), NoDup (fst <$> ms) /\
    st_next_id (snd (demo_update [demo_det 101; demo_det 1; demo_det 300] 500 demo_second)) = 6 - Z.of_nat (length ms).
Proof.
  destruct (frame_matches_best_overlaps (fun s => s) (fun l => l) "s" 7 (3 # 10) 2000 (fun l => Permutation_refl l) ltac:(lia)
    [demo_det 101; demo_det 1; demo_det 300] 500 demo_second) as (ms & H1 & _ & _ & _ & _ & _ & H7).
  - apply (update_ok (fun s => s) (fun l => l) "s" 7 (3 # 10) 2000 (fun l => Permutation_refl l)), demo_tracker_ok.
  - exists ms. split; [exact H1|exact H7].
Defined.

Lemma track_announced_and_lost_once_witness :
  let outs := frames (fun s => s) (fun l => l) "s" 7 (3 # 10) 2000 demo_frames demo_tracker in
  announced outs = [1; 2] /\ reported_lost outs = [2; 1] /\ NoDup (reported_lost outs).
Proof.
  intros outs. split; [vm_compute; reflexivity|]. split; [vm_compute; reflexivity|].
  apply (track_announced_and_lost_once (fun s => s) (fun l => l) "s" 7 (3 # 10) 2000 (fun l => Permutation_refl l) ltac:(lia)
           demo_frames demo_tracker demo_tracker_ok).
Defined.

Definition demo_sustained (ts : Z) : TrackedObject := track_update (demo_det 0) ts (new_track (fun s => s) "s" 7 1 (demo_det 0) 0).
Definition demo_calls : list (list TrackedObject * Z) := (fun ts => ([demo_sustained ts], ts)) <$> [400; 1000; 1600; 2100].

Lemma sustained_track_rate_witness :
  report_times 1000 "s:7:1" demo_calls {[ "s:7:1"%string := 0 ]} = [1000; 2100] /\ 0 + Z.of_nat 2 * 1000 <= 2100.
Proof.
  split; [vm_compute; reflexivity|].
  apply (sustained_track_rate 1000 "s:7:1" demo_calls {[ "s:7:1"%string := 0 ]} 0) with (n := 1%nat).
  - vm_compute; reflexivity.
  - repeat constructor; cbn; try set_solver; intros t Ht _; apply list_elem_of_singleton in Ht as ->; reflexivity.
  - vm_compute; reflexivity.
Defined.

Definition demo_zone : polygon := [(0, 0); (1 # 2, 0); (1 # 2, 1); (0, 1)]%Q.
Lemma zones_agree_with_server_witness :
  keep [demo_zone] [] 640 480 (demo_det 100) = true /\ keep [demo_zone] [] 640 480 (demo_det 600) = false /\
  let '(x, y) := bottom_center (report_bbox 640 480 (new_track (fun s => s) "s" 7 1 (demo_det 100) 0)) in
  keep [demo_zone] [] 640 480 (demo_det 100) =
    (bool_decide ([demo_zone] = []) || existsb (point_in_polygon x y) [demo_zone]) && negb (existsb (point_in_polygon x y) []).
Proof.
  split; [reflexivity|]. split; [reflexivity|].
  exact (zones_agree_with_server [demo_zone] [] 640 480 (demo_det 100) (new_track (fun s => s) "s" 7 1 (demo_det 100) 0)
    ltac:(lia) ltac:(lia) eq_refl).
Defined.
