(* ===== verification/NodeAgents.v ===== *)
(** * The agents on encoder and detector nodes

    src/worker/encoder/node_agent.py (build_live_cmd, EncodeSession, NodeAgent),
    src/worker/detector/node_agent.py (NodeAgent), with [spawn] and [graceful_stop] of
    worker/procutil.py.

    Both agents poll their work orders and make what runs follow them.  The two differ
    in what a session is, so [reconcile] and [apply_specs] are proved once against the
    interface [Runner], which each agent implements: an ffmpeg child for the encoder, a
    pipeline thread for the detector.  HTTP is a parameter of one round of the loop (what
    the heartbeat and the poll answer); [spawn] may fail; a stopped child is dead (the
    ladder of [graceful_stop] ends in kill).  Instants are microseconds.  An encoder
    spec is typed as [live_job_spec] of service/encode_config_resolver.py builds it, with
    [crf] left as any JSON. *)

From stdpp Require Import pretty.
From S2P Require Import Prelude PyStr Json Redis Token Scheduler.
Local Open Scope Z_scope.
Local Open Scope list_scope.

(** ** Following the work orders *)

Class Runner (Spec Sess W : Type) := {
  r_id : Spec -> Z;                       (* spec['camera_id'] *)
  r_same : Spec -> Spec -> bool;          (* == on specs *)
  r_spec : Sess -> Spec;
  r_open : Spec -> W -> Sess * W;
  r_close : Sess -> W -> W;
  r_open_spec : forall s w, r_spec (fst (r_open s w)) = s
}.

Section Agent.
Context {Spec Sess W : Type} {R : Runner Spec Sess W}.

(** [{s['camera_id']: s for s in specs}] *)
Definition want (specs : list Spec) : dict Spec := foldl (fun d s => dict_set (r_id s) s d) [] specs.

(** [reconcile]: what to start, stop and update *)
Definition to_start (specs : list Spec) (current : dict Spec) : list Spec :=
  omap (fun e => match dict_get (fst e) current with None => Some (snd e) | Some _ => None end) (want specs).
Definition to_stop (specs : list Spec) (current : dict Spec) : list Z :=
  omap (fun e => match dict_get (fst e) (want specs) with None => Some (fst e) | Some _ => None end) current.
Definition to_update (specs : list Spec) (current : dict Spec) : list Spec :=
  omap (fun e => match dict_get (fst e) current with Some c => if r_same c (snd e) then None else Some (snd e) | None => None end) (want specs).

Definition current_specs (d : dict Sess) : dict Spec := (fun e => (fst e, r_spec (snd e))) <$> d.

(** [self.sessions.pop(cid).stop()] *)
Definition drop_session (st : dict Sess * W) (cid : Z) : dict Sess * W :=
  match dict_get cid (fst st) with
  | Some x => (dict_pop cid (fst st), r_close x (snd st))
  | None => st                             (* never: the ids come from the dictionary *)
  end.
Definition open_session (st : dict Sess * W) (s : Spec) : dict Sess * W :=
  let '(x, w) := r_open s (snd st) in (dict_set (r_id s) x (fst st), w).
Definition update_session (st : dict Sess * W) (s : Spec) : dict Sess * W := open_session (drop_session st (r_id s)) s.

(** [apply_specs] *)
Definition apply_specs (specs : list Spec) (st : dict Sess * W) : dict Sess * W :=
  let current := current_specs (fst st) in
  foldl open_session
    (foldl update_session
       (foldl drop_session st (to_stop specs current))
       (to_update specs current))
    (to_start specs current).
End Agent.

(** ** The encoder's command line *)

Definition ALLOWED_PRESETS : list string := ["ultrafast"; "superfast"; "veryfast"; "faster"; "fast"; "medium"]%string.
Definition HW_ENCODERS : list (string * string) :=
  [("none", "libx264"); ("nvenc", "h264_nvenc"); ("qsv", "h264_qsv"); ("vaapi", "h264_vaapi"); ("videotoolbox", "h264_videotoolbox")]%string.

Record EncodeSpec := {
  sp_camera_id : Z;
  sp_epoch : Z;
  sp_pull_url : option string;
  sp_publish_url : option string;
  sp_v_codec : option string;
  sp_preset : option string;
  sp_crf : option json                    (* None: no such key *)
}.

Definition same_spec (a b : EncodeSpec) : bool :=
  (sp_camera_id a =? sp_camera_id b) && (sp_epoch a =? sp_epoch b) && bool_decide (sp_pull_url a = sp_pull_url b) &&
  bool_decide (sp_publish_url a = sp_publish_url b) && bool_decide (sp_v_codec a = sp_v_codec b) &&
  bool_decide (sp_preset a = sp_preset b) &&
  match sp_crf a, sp_crf b with Some x, Some y => py_eq x y | None, None => true | _, _ => false end.

Definition clamp_crf (n : Z) : Z := Z.min 51 (Z.max 0 n).

Definition build_live_cmd (ffmpeg_bin hwaccel : string) (s : EncodeSpec) : option (list string) :=
  let pull := or_str (sp_pull_url s) "" in
  let publish := or_str (sp_publish_url s) "" in
  if negb (startswith "rtsp://" pull && startswith "rtsp://" publish) then None else
  if negb (bool_decide (sp_v_codec s = Some "libx264"%string) || bool_decide (sp_v_codec s = Some "h264"%string)) then None else
  let preset := or_str (sp_preset s) "veryfast" in
  if negb (bool_decide (preset ∈ ALLOWED_PRESETS)) then None else
  match to_int (default (JInt 23) (sp_crf s)) with
  | None => None
  | Some n =>
      let crf := clamp_crf n in
      let encoder := default "libx264"%string (assoc hwaccel HW_ENCODERS) in
      Some ([ffmpeg_bin; "-hide_banner"; "-loglevel"; "warning"; "-rtsp_transport"; "tcp"; "-i"; pull; "-map"; "0:v:0"; "-map"; "0:a?"]%string ++
            (if bool_decide (encoder = "libx264"%string)
             then ["-c:v"; "libx264"; "-preset"; preset; "-crf"; pretty crf; "-pix_fmt"; "yuv420p"]%string
             else ["-c:v"; encoder; "-b:v"; "4M"]%string) ++
            ["-c:a"; "aac"; "-f"; "rtsp"; "-rtsp_transport"; "tcp"; publish]%string)%list
  end.

(** ** Encode sessions *)

Definition ENC_BACKOFF_START : Z := 1 * SEC.
Definition ENC_BACKOFF_MAX : Z := 15 * SEC.
Definition MIN_HEALTHY : Z := 3 * SEC.
Definition STABLE_RESET : Z := 30 * SEC.

Record EncodeSession := {
  es_spec : EncodeSpec;
  es_popen : option Z;
  es_started_at : Z;
  es_backoff : Z;
  es_next_retry : Z;
  es_restart_count : Z
}.

Record Host := {
  h_now : Z;                              (* time.monotonic() *)
  h_alive : gset Z;                       (* children whose poll() is None *)
  h_spawns : nat                          (* spawn calls so far; also the next pid *)
}.

Definition host_pass (dt : Z) (w : Host) : Host := {| h_now := h_now w + dt; h_alive := h_alive w; h_spawns := h_spawns w |}.
Definition host_dead (pid : Z) (w : Host) : Host := {| h_now := h_now w; h_alive := h_alive w ∖ {[ pid ]}; h_spawns := h_spawns w |}.

Definition new_session (s : EncodeSpec) : EncodeSession :=
  {| es_spec := s; es_popen := None; es_started_at := 0; es_backoff := ENC_BACKOFF_START; es_next_retry := 0; es_restart_count := 0 |}.

Definition running (w : Host) (x : EncodeSession) : bool :=
  match es_popen x with Some pid => bool_decide (pid ∈ h_alive w) | None => false end.

(** [healthy] *)
Definition healthy (w : Host) (x : EncodeSession) : bool := running w x && (MIN_HEALTHY <=? h_now w - es_started_at x).

(** [stop]; ending the child takes time *)
Definition stop_session (stop_time : N) (x : EncodeSession) (w : Host) : Host :=
  match es_popen x with
  | Some pid => if bool_decide (pid ∈ h_alive w) then host_dead pid (host_pass (Z.of_N stop_time) w) else w
  | None => w
  end.

Section Encoder.
Context (ffmpeg_bin hwaccel : string) (spawn_ok : nat -> bool) (stop_time : N).

Definition encoder_runner : Runner EncodeSpec EncodeSession Host := {|
  r_id := sp_camera_id;
  r_same := same_spec;
  r_spec := es_spec;
  r_open := fun s w => (new_session s, w);
  r_close := stop_session stop_time;
  r_open_spec := fun _ _ => eq_refl
|}.
#[local] Existing Instance encoder_runner.

(** [_start] *)
Definition start_session (x : EncodeSession) (w : Host) : EncodeSession * Host :=
  match build_live_cmd ffmpeg_bin hwaccel (es_spec x) with
  | None => (x, w)
  | Some _ =>
      let w1 := {| h_now := h_now w; h_alive := h_alive w; h_spawns := S (h_spawns w) |} in
      if spawn_ok (h_spawns w) then
        ({| es_spec := es_spec x; es_popen := Some (Z.of_nat (h_spawns w)); es_started_at := h_now w; es_backoff := es_backoff x;
            es_next_retry := es_next_retry x; es_restart_count := es_restart_count x |},
         {| h_now := h_now w; h_alive := {[ Z.of_nat (h_spawns w) ]} ∪ h_alive w; h_spawns := S (h_spawns w) |})
      else
        ({| es_spec := es_spec x; es_popen := None; es_started_at := es_started_at x; es_backoff := es_backoff x;
            es_next_retry := es_next_retry x; es_restart_count := es_restart_count x |}, w1)
  end.

Definition with_backoff (b : Z) (x : EncodeSession) : EncodeSession :=
  {| es_spec := es_spec x; es_popen := es_popen x; es_started_at := es_started_at x; es_backoff := b;
     es_next_retry := es_next_retry x; es_restart_count := es_restart_count x |}.
Definition session_died (now : Z) (x : EncodeSession) : EncodeSession :=
  {| es_spec := es_spec x; es_popen := None; es_started_at := es_started_at x; es_backoff := Z.min (es_backoff x * 2) ENC_BACKOFF_MAX;
     es_next_retry := now + es_backoff x; es_restart_count := es_restart_count x + 1 |}.

(** [tick] *)
Definition session_tick (x : EncodeSession) (w : Host) : EncodeSession * Host :=
  if running w x then
    (if negb (es_backoff x =? ENC_BACKOFF_START) && (STABLE_RESET <? h_now w - es_started_at x) then with_backoff ENC_BACKOFF_START x else x, w)
  else
    let x1 := match es_popen x with Some _ => session_died (h_now w) x | None => x end in
    if es_next_retry x1 <=? h_now w then start_session x1 w else (x1, w).

Fixpoint tick_all (d : dict EncodeSession) (w : Host) : dict EncodeSession * Host :=
  match d with
  | [] => ([], w)
  | (cid, x) :: r => let '(x1, w1) := session_tick x w in let '(r1, w2) := tick_all r w1 in ((cid, x1) :: r1, w2)
  end.

(** [heartbeat]'s [active_sessions] *)
Definition active_sessions (d : dict EncodeSession) (w : Host) : list Z := fst <$> List.filter (fun e => healthy w (snd e)) d.

(** One round of [run] after the heartbeat: [None] is a 304 or a failed poll. *)
Definition agent_round (specs : option (list EncodeSpec)) (st : dict EncodeSession * Host) : dict EncodeSession * Host :=
  let '(d, w) := match specs with Some l => apply_specs l st | None => st end in
  tick_all d w.

(** [NodeAgent.stop] *)
Definition agent_stop (st : dict EncodeSession * Host) : Host := foldl (fun w e => stop_session stop_time (snd e) w) (snd st) (fst st).
End Encoder.

(** ** The detector's pipelines and reports *)

Record Pipeline (Spec : Type) := { pi_spec : Spec; pi_thread : nat }.
Arguments pi_spec {Spec}.
Arguments pi_thread {Spec}.
Record Threads := { th_running : list nat; th_next : nat }.

Section Detector.
Context {Spec Report : Type} (camera_id_of : Spec -> Z) (spec_eq : Spec -> Spec -> bool).

Definition detector_runner : Runner Spec (Pipeline Spec) Threads := {|
  r_id := camera_id_of;
  r_same := spec_eq;
  r_spec := pi_spec;
  r_open := fun s w => ({| pi_spec := s; pi_thread := th_next w |}, {| th_running := th_next w :: th_running w; th_next := S (th_next w) |});
  r_close := fun p w => {| th_running := List.filter (fun t => negb (t =? pi_thread p)%nat) (th_running w); th_next := th_next w |};
  r_open_spec := fun _ _ => eq_refl
|}.
#[local] Existing Instance detector_runner.

(** [flush_reports]' batch: whole queue items until there are 1000 reports *)
Fixpoint take_batch (batch : list Report) (queue : list (list Report)) : list Report * list (list Report) :=
  match queue with
  | [] => (batch, [])
  | item :: rest => if (length batch <? 1000)%nat then take_batch (batch ++ item) rest else (batch, queue)
  end.
End Detector.

(** ** Sessions follow the work orders *)

Section AgentFacts.
Context {Spec Sess W : Type} {R : Runner Spec Sess W}.
Implicit Types (st : dict Sess * W) (specs : list Spec) (d : dict Sess).

Lemma dict_get_current d c : dict_get c (current_specs d) = r_spec <$> dict_get c d.
Proof. unfold current_specs. induction d as [|[k x] d IH]; cbn; [done|]. by destruct (k =? c). Qed.

Lemma want_step specs : NoDup (dict_keys (want specs)) /\ Forall (fun e => fst e = r_id (snd e)) (want specs).
Proof.
  unfold want. assert (H : forall ws : dict Spec, NoDup (dict_keys ws) /\ Forall (fun e : Z * Spec => fst e = r_id (snd e)) ws ->
    NoDup (dict_keys (foldl (fun ws s => dict_set (r_id s) s ws) ws specs)) /\
    Forall (fun e => fst e = r_id (snd e)) (foldl (fun ws s => dict_set (r_id s) s ws) ws specs)).
  { induction specs as [|s specs IH]; intros ws [H1 H2]; [done|]. cbn. apply IH. split; [by apply dict_set_nodup|].
    clear -H2. induction H2 as [|[k a] ws Hk Hf IH]; cbn; [by repeat constructor|]. cbn in Hk.
    destruct (Z.eqb_spec k (r_id s)); cbn; constructor; done. }
  apply H. split; constructor.
Qed.

Lemma want_id specs c s : dict_get c (want specs) = Some s -> r_id s = c.
Proof.
  intros H. apply dict_get_elem in H. destruct (want_step specs) as [_ Hf]. rewrite Forall_forall in Hf. by specialize (Hf _ H).
Qed.

(** a sub-dictionary of the wanted specs keeps ids apart *)
Lemma want_part_nodup specs (f : Z * Spec -> option Spec) : (forall e s, f e = Some s -> s = snd e) -> NoDup (r_id <$> omap f (want specs)).
Proof.
  intros Hf. destruct (want_step specs) as [Hn Hid]. induction Hid as [|[k s] l Hk Hid IH]; [constructor|].
  unfold dict_keys in Hn. rewrite fmap_cons in Hn. apply NoDup_cons in Hn as [Hx Hn]. cbn. destruct (f (k, s)) as [s'|] eqn:E; [|by apply IH].
  apply Hf in E. cbn in E, Hk. subst s'. rewrite fmap_cons. constructor; [|by apply IH]. intros Hin.
  apply list_elem_of_fmap_1 in Hin as (s2 & Es & Hin). apply list_elem_of_omap in Hin as ([k2 s3] & Hin & E2). apply Hf in E2. cbn in E2. subst s3.
  destruct Hx. rewrite Forall_forall in Hid. specialize (Hid _ Hin). cbn in Hid. rewrite Hk, Es, <- Hid.
  by apply (list_elem_of_fmap_2 fst _ _ Hin).
Qed.

Lemma to_start_elem specs (current : dict Spec) s : s ∈ to_start specs current <-> dict_get (r_id s) (want specs) = Some s /\ dict_get (r_id s) current = None.
Proof.
  destruct (want_step specs) as [Hn Hid]. rewrite Forall_forall in Hid. unfold to_start. rewrite list_elem_of_omap. split.
  - intros ([k s'] & Hin & E). cbn in E. destruct (dict_get k current) eqn:Ec; [done|]. simplify_eq. pose proof (Hid _ Hin) as Hk. cbn in Hk. subst k.
    split; [by apply elem_dict_get|done].
  - intros [H1 H2]. exists (r_id s, s). split; [by apply dict_get_elem|]. cbn. by rewrite H2.
Qed.

Lemma to_update_elem specs (current : dict Spec) s : s ∈ to_update specs current <->
  dict_get (r_id s) (want specs) = Some s /\ exists c, dict_get (r_id s) current = Some c /\ r_same c s = false.
Proof.
  destruct (want_step specs) as [Hn Hid]. rewrite Forall_forall in Hid. unfold to_update. rewrite list_elem_of_omap. split.
  - intros ([k s'] & Hin & E). cbn in E. destruct (dict_get k current) as [c|] eqn:Ec; [|done]. destruct (r_same c s') eqn:Es; [done|]. simplify_eq.
    pose proof (Hid _ Hin) as Hk. cbn in Hk. subst k. split; [by apply elem_dict_get|]. eauto.
  - intros (H1 & c & H2 & H3). exists (r_id s, s). split; [by apply dict_get_elem|]. cbn. by rewrite H2, H3.
Qed.

Lemma to_start_nodup specs (current : dict Spec) : NoDup (r_id <$> to_start specs current).
Proof. apply want_part_nodup. intros e s E. destruct (dict_get _ _); by simplify_eq. Qed.
Lemma to_update_nodup specs (current : dict Spec) : NoDup (r_id <$> to_update specs current).
Proof. apply want_part_nodup. intros e s E. destruct (dict_get _ _); [|done]. destruct (r_same _ _); by simplify_eq. Qed.

Lemma to_stop_elem specs (current : dict Spec) c : c ∈ to_stop specs current <-> c ∈ dict_keys current /\ dict_get c (want specs) = None.
Proof.
  unfold to_stop. rewrite list_elem_of_omap. split.
  - intros ([k s] & Hin & E). cbn in E. destruct (dict_get k (want specs)) eqn:Ew; [done|]. simplify_eq. split; [by apply (list_elem_of_fmap_2 fst _ _ Hin)|done].
  - intros [H1 H2]. apply list_elem_of_fmap_1 in H1 as ([k s] & -> & Hin). exists (k, s). split; [done|]. cbn in *. by rewrite H2.
Qed.

Lemma open_session_get st s c : dict_get c (fst (open_session st s)) = if decide (c = r_id s) then Some (fst (r_open s (snd st))) else dict_get c (fst st).
Proof. unfold open_session. destruct (r_open s (snd st)) as [x w] eqn:E. cbn. by rewrite dict_get_set. Qed.

Lemma drop_session_get st k c : dict_get c (fst (drop_session st k)) = if decide (c = k) then None else dict_get c (fst st).
Proof.
  unfold drop_session. destruct (dict_get k (fst st)) eqn:E; cbn; [apply dict_get_pop|]. destruct (decide (c = k)); [by subst|done].
Qed.

Lemma drop_all_get l st c : dict_get c (fst (foldl drop_session st l)) = if bool_decide (c ∈ l) then None else dict_get c (fst st).
Proof.
  revert st. induction l as [|k l IH]; intros st; cbn [foldl]; [done|]. rewrite IH, drop_session_get.
  destruct (decide (c = k)) as [->|Hk]; [rewrite bool_decide_eq_true_2 with (P := k ∈ k :: l) by (by left); by case_bool_decide|].
  repeat case_bool_decide; try done; exfalso; set_solver.
Qed.

(** opening sessions one by one, each possibly after closing the old one *)
Lemma open_all_get (f : dict Sess * W -> Spec -> dict Sess * W) l st :
  (forall st s c, exists x, r_spec x = s /\ dict_get c (fst (f st s)) = if decide (c = r_id s) then Some x else dict_get c (fst st)) ->
  NoDup (r_id <$> l) ->
  (forall s, s ∈ l -> exists x, dict_get (r_id s) (fst (foldl f st l)) = Some x /\ r_spec x = s) /\
  (forall c, c ∉ r_id <$> l -> dict_get c (fst (foldl f st l)) = dict_get c (fst st)).
Proof.
  intros Hf. revert st. induction l as [|a l IH]; intros st Hn; [split; [intros s Hs; by apply elem_of_nil in Hs|done]|].
  rewrite fmap_cons in Hn. apply NoDup_cons in Hn as [Ha Hn]. cbn [foldl]. destruct (IH (f st a) Hn) as [H1 H2]. split.
  - intros s Hs. apply elem_of_cons in Hs as [->|Hs]; [|by apply H1]. rewrite (H2 _ Ha). destruct (Hf st a (r_id a)) as (x & Hx & ->).
    rewrite decide_True by done. eauto.
  - intros c Hc. rewrite fmap_cons in Hc. apply not_elem_of_cons in Hc as [Hc Hc']. rewrite (H2 c Hc'). destruct (Hf st a c) as (x & _ & ->). by rewrite decide_False.
Qed.

Lemma open_session_opens st s c : exists x, r_spec x = s /\ dict_get c (fst (open_session st s)) = if decide (c = r_id s) then Some x else dict_get c (fst st).
Proof. exists (fst (r_open s (snd st))). split; [apply r_open_spec|apply open_session_get]. Qed.

Lemma update_session_opens st s c : exists x, r_spec x = s /\ dict_get c (fst (update_session st s)) = if decide (c = r_id s) then Some x else dict_get c (fst st).
Proof.
  unfold update_session. exists (fst (r_open s (snd (drop_session st (r_id s))))). split; [apply r_open_spec|].
  rewrite open_session_get, drop_session_get. by destruct (decide (c = r_id s)).
Qed.

(** after a poll the sessions are the work orders.  Every camera wanted has exactly
    one session; it is the old one, untouched, when its spec did not change, and a new
    one on the last spec sent otherwise; every other camera has none. *)
Theorem apply_specs_follows specs st c :
  match dict_get c (want specs) with
  | None => dict_get c (fst (apply_specs specs st)) = None
  | Some s => exists x, dict_get c (fst (apply_specs specs st)) = Some x /\
      (dict_get c (fst st) = Some x /\ r_same (r_spec x) s = true \/ r_spec x = s)
  end.
Proof.
  unfold apply_specs. set (current := current_specs (fst st)). set (st1 := foldl drop_session st _). set (st2 := foldl update_session st1 _).
  destruct (open_all_get update_session (to_update specs current) st1 update_session_opens (to_update_nodup _ _)) as [U1 U2].
  destruct (open_all_get open_session (to_start specs current) st2 open_session_opens (to_start_nodup _ _)) as [S1 S2].
  assert (Hcur : dict_get c current = r_spec <$> dict_get c (fst st)) by apply dict_get_current.
  assert (Hnot : forall l : list Spec, (forall s, s ∈ l -> dict_get (r_id s) (want specs) = Some s) ->
    (forall s, dict_get c (want specs) = Some s -> s ∉ l) -> c ∉ r_id <$> l).
  { intros l Hl Hs Hin. apply list_elem_of_fmap_1 in Hin as (s & -> & Hin). by apply (Hs s (Hl s Hin)). }
  destruct (dict_get c (want specs)) as [s|] eqn:Ew.
  - pose proof (want_id specs c s Ew) as <-. destruct (dict_get (r_id s) (fst st)) as [x|] eqn:Ex; cbn in Hcur.
    + rewrite S2. 2:{ apply Hnot; [intros s' Hs'; by apply to_start_elem in Hs' as [? _]|]. intros s' [= <-] Hs'. apply to_start_elem in Hs' as [_ Hs']. congruence. }
      destruct (r_same (r_spec x) s) eqn:Es.
      * exists x. split; [|left; done]. unfold st2. rewrite U2.
        -- unfold st1. rewrite drop_all_get, bool_decide_eq_false_2; [done|]. rewrite to_stop_elem. intros [_ H]. congruence.
        -- apply Hnot; [intros s' Hs'; by apply to_update_elem in Hs' as [? _]|]. intros s' [= <-] Hs'. apply to_update_elem in Hs' as (_ & c' & Hc' & Hx). congruence.
      * destruct (U1 s) as (x' & Hx' & Es'); [apply to_update_elem; split; [done|eauto]|]. exists x'. split; [done|by right].
    + destruct (S1 s) as (x' & Hx' & Es'); [by apply to_start_elem|]. exists x'. split; [done|by right].
  - rewrite S2. 2:{ apply Hnot; [intros s' Hs'; by apply to_start_elem in Hs' as [? _]|done]. }
    unfold st2. rewrite U2. 2:{ apply Hnot; [intros s' Hs'; by apply to_update_elem in Hs' as [? _]|done]. }
    unfold st1. rewrite drop_all_get. case_bool_decide as Hs; [done|]. destruct (dict_get c (fst st)) as [x|] eqn:Ex; [|done]. destruct Hs.
    apply to_stop_elem. split; [|done]. eapply dict_get_keys. by rewrite Hcur.
Qed.
End AgentFacts.

(** ** What the encoder may run *)

Definition WORDS : list string :=
  ["-hide_banner"; "-loglevel"; "warning"; "-rtsp_transport"; "tcp"; "-i"; "-map"; "0:v:0"; "0:a?"; "-c:v"; "-preset"; "-crf"; "-pix_fmt"; "yuv420p";
       "-b:v"; "4M"; "-c:a"; "aac"; "-f"; "rtsp"]%string.
Definition fixed_word (ffmpeg_bin hwaccel a : string) : Prop :=
  a = ffmpeg_bin \/ a = default "libx264"%string (assoc hwaccel HW_ENCODERS) \/ a ∈ WORDS.

(** a work order cannot smuggle arguments into ffmpeg: every argument of the command
    is a word of the program, the two rtsp:// URLs of the order, a preset from the
    allowed list, or a quality between 0 and 51; an order that offers anything else is
    refused. *)
Theorem live_command_is_safe ffmpeg_bin hwaccel s cmd :
  build_live_cmd ffmpeg_bin hwaccel s = Some cmd ->
  exists pull publish preset crf,
    sp_pull_url s = Some pull /\ startswith "rtsp://" pull = true /\ sp_publish_url s = Some publish /\ startswith "rtsp://" publish = true /\
    preset ∈ ALLOWED_PRESETS /\ 0 <= crf <= 51 /\
    forall a, a ∈ cmd -> fixed_word ffmpeg_bin hwaccel a \/ a = pull \/ a = publish \/ a = preset \/ a = pretty crf.
Proof.
  unfold build_live_cmd. destruct (startswith "rtsp://" (or_str (sp_pull_url s) "")) eqn:E1; [|done].
  destruct (startswith "rtsp://" (or_str (sp_publish_url s) "")) eqn:E2; [|done]. cbn [andb negb].
  destruct (negb (_ || _)); [done|]. case_bool_decide as Hp; [|done]. cbn [negb]. destruct (to_int _) as [n|]; [|done]. intros [= <-].
  assert (Hu : forall o : option string, startswith "rtsp://" (or_str o "") = true -> exists u, o = Some u /\ or_str o "" = u).
  { intros [u|] Hs; [|done]. exists u. split; [done|]. unfold or_str, truthy_str in *. case_bool_decide as Hu; [by subst|done]. }
  destruct (Hu _ E1) as (pull & Ep & Eq). destruct (Hu _ E2) as (publish & Ep' & Eq'). rewrite Eq in *. rewrite Eq' in *.
  exists pull, publish, (or_str (sp_preset s) "veryfast"), (clamp_crf n). split_and!; try done; [unfold clamp_crf; lia..|].
  intros a Ha. unfold fixed_word. assert (Hw : forall x, bool_decide (x ∈ WORDS) = true -> x ∈ WORDS) by (intros x; apply bool_decide_eq_true_1).
  case_bool_decide as He; cbn [app] in Ha.
  all: repeat (apply elem_of_cons in Ha as [->|Ha];
         [first [right; left; reflexivity | right; right; left; reflexivity | right; right; right; left; reflexivity | right; right; right; right; reflexivity
                | left; left; reflexivity | left; right; left; reflexivity | left; right; left; symmetry; exact He | left; right; right; apply Hw; vm_compute; reflexivity]|]).
  all: by apply elem_of_nil in Ha.
Qed.

(** ** The encoder's children *)

Section EncoderFacts.
Context (ffmpeg_bin hwaccel : string) (spawn_ok : nat -> bool) (stop_time : N).
#[local] Hint Extern 0 (Runner _ _ _) => exact (encoder_runner stop_time) : typeclass_instances.
Notation tick_all := (tick_all ffmpeg_bin hwaccel spawn_ok).
Notation session_tick := (session_tick ffmpeg_bin hwaccel spawn_ok).
Notation agent_round := (agent_round ffmpeg_bin hwaccel spawn_ok stop_time).

Definition pids (d : dict EncodeSession) : list Z := omap (fun e => es_popen (snd e)) d.

Record children_ok (d : dict EncodeSession) (w : Host) : Prop := {
  co_keys : NoDup (dict_keys d);
  co_pids : NoDup (pids d);
  co_old : Forall (fun p => p < Z.of_nat (h_spawns w)) (pids d);
  co_alive : forall p, p ∈ h_alive w -> p ∈ pids d
}.

Lemma elem_pids d p : p ∈ pids d <-> exists c x, (c, x) ∈ d /\ es_popen x = Some p.
Proof. unfold pids. rewrite list_elem_of_omap. split; [intros ([c x] & H & E); eauto|intros (c & x & H & E); by exists (c, x)]. Qed.

(** one child, one session *)
Lemma pid_session d w c x c' x' p : children_ok d w -> (c, x) ∈ d -> (c', x') ∈ d -> es_popen x = Some p -> es_popen x' = Some p -> c = c'.
Proof.
  intros [_ Hp _ _] H H' E E'. revert H H'. unfold pids in Hp. induction d as [|[k y] d IH]; intros H H'; [by apply elem_of_nil in H|].
  cbn in Hp. apply elem_of_cons in H as [H|H]; apply elem_of_cons in H' as [H'|H']; simplify_eq; [done|..].
  - rewrite E in Hp. apply NoDup_cons in Hp as [Hx _]. destruct Hx. apply elem_pids. eauto.
  - rewrite E' in Hp. apply NoDup_cons in Hp as [Hx _]. destruct Hx. apply elem_pids. eauto.
  - apply IH; [|done..]. destruct (es_popen y); [by apply NoDup_cons in Hp as [_ Hp]|done].
Qed.

Lemma pids_filter_nodup (f : Z * EncodeSession -> bool) d : NoDup (pids d) -> NoDup (pids (List.filter f d)).
Proof.
  unfold pids. induction d as [|[k y] d IH]; [done|]. cbn. intros H. assert (H' : NoDup (omap (fun e : Z * EncodeSession => es_popen (snd e)) d)).
  { destruct (es_popen y); [by apply NoDup_cons in H as [_ H]|done]. }
  destruct (f (k, y)); [|by apply IH]. cbn. destruct (es_popen y) as [p|]; [|by apply IH]. apply NoDup_cons in H as [Hx _].
  constructor; [|by apply IH]. intros Hin. apply Hx. apply elem_pids in Hin as (c & x & Hin & E). apply elem_of_filter_In in Hin as [Hin _]. apply elem_pids. eauto.
Qed.

Lemma stop_spawns x w : h_spawns (stop_session stop_time x w) = h_spawns w.
Proof. unfold stop_session. destruct (es_popen x); [|done]. by case_bool_decide. Qed.

Lemma stop_alive x w p : p ∈ h_alive (stop_session stop_time x w) <-> p ∈ h_alive w /\ es_popen x <> Some p.
Proof.
  unfold stop_session. destruct (es_popen x) as [q|]; [|naive_solver]. case_bool_decide; cbn; [set_solver|]. split; [|tauto].
  intros Hp. split; [done|]. congruence.
Qed.

Lemma drop_children d w c : children_ok d w -> children_ok (fst (drop_session (d, w) c)) (snd (drop_session (d, w) c)).
Proof.
  intros H. unfold drop_session. cbn [fst snd]. destruct (dict_get c d) as [x|] eqn:E; [|done]. cbn [fst snd r_close encoder_runner].
  constructor.
  - apply dict_pop_nodup, H.
  - apply pids_filter_nodup, H.
  - rewrite stop_spawns. apply Forall_forall. intros p Hp. apply elem_pids in Hp as (k & y & Hin & Ey). apply elem_of_filter_In in Hin as [Hin _].
    pose proof (co_old _ _ H) as Ho. rewrite Forall_forall in Ho. apply Ho, elem_pids. eauto.
  - intros p Hp. apply stop_alive in Hp as [Hp Hx]. apply (co_alive _ _ H) in Hp. apply elem_pids in Hp as (k & y & Hin & Ey). apply elem_pids. exists k, y.
    split; [|done]. apply elem_of_filter_In. split; [done|]. cbn. apply negb_true_iff, Z.eqb_neq. intros ->.
    pose proof (elem_dict_get c y d (co_keys _ _ H) Hin). congruence.
Qed.

Lemma open_children d w s : dict_get (sp_camera_id s) d = None -> children_ok d w ->
  children_ok (fst (open_session (d, w) s)) (snd (open_session (d, w) s)).
Proof.
  intros Hg [H1 H2 H3 H4]. unfold open_session. cbn. assert (Ep : pids (dict_set (sp_camera_id s) (new_session s) d) = pids d).
  { clear -Hg. unfold pids. induction d as [|[k y] d IH]; [done|]. cbn in *. destruct (Z.eqb_spec k (sp_camera_id s)); [done|]. cbn. by rewrite IH. }
  constructor; rewrite ?Ep; try done. by apply dict_set_nodup.
Qed.

Lemma drop_all_children l st : children_ok (fst st) (snd st) -> children_ok (fst (foldl drop_session st l)) (snd (foldl drop_session st l)).
Proof. revert st. induction l as [|c l IH]; intros [d w] H; [done|]. cbn [foldl]. by apply IH, drop_children. Qed.

Lemma update_all_children l st : children_ok (fst st) (snd st) -> children_ok (fst (foldl update_session st l)) (snd (foldl update_session st l)).
Proof.
  revert st. induction l as [|s l IH]; intros [d w] H; [done|]. cbn [foldl]. apply IH. unfold update_session.
  pose proof (drop_children d w (r_id s) H) as Hd. destruct (drop_session (d, w) (r_id s)) as [d1 w1] eqn:E. apply open_children; [|done].
  pose proof (drop_session_get (d, w) (r_id s) (r_id s)) as Hg. rewrite E, decide_True in Hg by done. exact Hg.
Qed.

Lemma start_all_children l st : NoDup (sp_camera_id <$> l) -> (forall s, s ∈ l -> dict_get (sp_camera_id s) (fst st) = None) ->
  children_ok (fst st) (snd st) -> children_ok (fst (foldl open_session st l)) (snd (foldl open_session st l)).
Proof.
  revert st. induction l as [|s l IH]; intros [d w] Hn Hg H; [done|]. rewrite fmap_cons in Hn. apply NoDup_cons in Hn as [Hs Hn]. cbn [foldl].
  apply IH; [done| |by apply open_children; [apply Hg; left|]]. intros s' Hs'. rewrite open_session_get. cbn.
  rewrite decide_False; [apply (Hg s'); by right|]. intros E. destruct Hs. rewrite <- E. by apply list_elem_of_fmap_2.
Qed.

Lemma apply_children specs st : children_ok (fst st) (snd st) -> children_ok (fst (apply_specs specs st)) (snd (apply_specs specs st)).
Proof.
  intros H. unfold apply_specs. set (current := current_specs (fst st)). apply start_all_children.
  - exact (to_start_nodup specs current).
  - intros s Hs. apply to_start_elem in Hs as [_ Hs]. unfold current in Hs. rewrite dict_get_current in Hs.
    assert (Hn : dict_get (r_id s) (fst st) = None) by by destruct (dict_get (r_id s) (fst st)).
    destruct (open_all_get update_session (to_update specs current) (foldl drop_session st (to_stop specs current)) update_session_opens
                (to_update_nodup _ _)) as [_ U].
    change (sp_camera_id s) with (r_id s). rewrite U.
    + rewrite drop_all_get. by case_bool_decide.
    + intros Hin. apply list_elem_of_fmap_1 in Hin as (s' & Es & Hin). apply to_update_elem in Hin as (_ & c & Hc & _). unfold current in Hc.
      rewrite dict_get_current, <- Es, Hn in Hc. done.
  - by apply update_all_children, drop_all_children.
Qed.

(** ** Ticks *)

Lemma start_session_spec x w : let '(x', w') := start_session ffmpeg_bin hwaccel spawn_ok x w in
  h_now w' = h_now w /\
  (es_popen x' = es_popen x /\ w' = w \/
   es_popen x' = None /\ h_alive w' = h_alive w /\ h_spawns w' = S (h_spawns w) \/
   es_popen x' = Some (Z.of_nat (h_spawns w)) /\ h_alive w' = {[ Z.of_nat (h_spawns w) ]} ∪ h_alive w /\ h_spawns w' = S (h_spawns w)).
Proof.
  unfold start_session. destruct (build_live_cmd _ _ _); [|split; [done|by left]].
  destruct (spawn_ok _); cbn; (split; [done|]); right; [right|left]; done.
Qed.

Lemma session_tick_spec x w : let '(x', w') := session_tick x w in
  h_now w' = h_now w /\ (h_spawns w <= h_spawns w')%nat /\
  (es_popen x' = es_popen x /\ h_alive w' = h_alive w \/
   running w x = false /\ es_popen x' = None /\ h_alive w' = h_alive w \/
   running w x = false /\ es_popen x' = Some (Z.of_nat (h_spawns w)) /\ h_alive w' = {[ Z.of_nat (h_spawns w) ]} ∪ h_alive w /\ h_spawns w' = S (h_spawns w)).
Proof.
  unfold NodeAgents.session_tick. destruct (running w x) eqn:Er.
  - destruct (negb _ && _); (split; [done|]; split; [done|by left]).
  - set (x1 := match es_popen x with Some _ => _ | None => x end). assert (E : es_popen x1 = None) by (unfold x1; by destruct (es_popen x) eqn:E).
    destruct (es_next_retry x1 <=? h_now w); [|split; [done|]; split; [done|right; by left]].
    pose proof (start_session_spec x1 w) as H. destruct (start_session _ _ _ x1 w) as [x' w']. destruct H as (Hn & [[H1 ->]|[(H1 & H2 & H3)|(H1 & H2 & H3)]]).
    + split; [done|]. split; [done|]. right; left. by rewrite H1.
    + split; [done|]. split; [lia|]. by right; left.
    + split; [done|]. split; [lia|]. by right; right.
Qed.

Lemma pids_app d1 d2 : pids (d1 ++ d2) = pids d1 ++ pids d2.
Proof. unfold pids. induction d1 as [|e d1 IH]; [done|]. cbn. destruct (es_popen (snd e)); cbn; by rewrite IH. Qed.
Lemma pids_cons c x d : pids ((c, x) :: d) = option_list (es_popen x) ++ pids d.
Proof. unfold pids. cbn. by destruct (es_popen x). Qed.

Lemma not_running w x p : running w x = false -> es_popen x = Some p -> p ∉ h_alive w.
Proof. unfold running. intros H E. rewrite E in H. by apply bool_decide_eq_false_1 in H. Qed.

(** a tick of one session among the others *)
Lemma tick_one_children pre c x d w : children_ok (pre ++ (c, x) :: d) w ->
  children_ok (pre ++ (c, fst (session_tick x w)) :: d) (snd (session_tick x w)).
Proof.
  intros [H1 H2 H3 H4]. pose proof (session_tick_spec x w) as Ht. destruct (session_tick x w) as [x' w']. cbn [fst snd].
  assert (Hk : dict_keys (pre ++ (c, x') :: d) = dict_keys (pre ++ (c, x) :: d)) by (unfold dict_keys; by rewrite !fmap_app).
  rewrite pids_app, pids_cons in H2, H3. setoid_rewrite pids_app in H4. setoid_rewrite pids_cons in H4.
  destruct Ht as (_ & Hs & Ht). constructor; rewrite ?Hk, ?pids_app, ?pids_cons; [done|..].
  - destruct Ht as [[-> _]|[(Hr & -> & _)|(Hr & -> & _ & _)]]; [done| |].
    + eapply NoDup_Permutation_proper in H2; [|symmetry; apply Permutation_app_swap_app]. apply NoDup_app in H2 as (_ & _ & H2). exact H2.
    + rewrite Permutation_app_swap_app. cbn [option_list app]. constructor.
      * intros Hin. rewrite Forall_forall in H3. specialize (H3 (Z.of_nat (h_spawns w))). assert (Hlt : Z.of_nat (h_spawns w) < Z.of_nat (h_spawns w)); [|lia].
        apply H3. set_solver.
      * eapply NoDup_Permutation_proper in H2; [|symmetry; apply Permutation_app_swap_app]. by apply NoDup_app in H2 as (_ & _ & H2).
  - rewrite Forall_forall in H3 |- *. intros p Hp. destruct Ht as [[E _]|[(Hr & E & _)|(Hr & E & _ & Hsp)]]; rewrite E in Hp.
    + specialize (H3 p Hp). lia.
    + assert (Hp' : p < Z.of_nat (h_spawns w)) by (apply H3; set_solver). lia.
    + cbn in Hp. rewrite elem_of_app, elem_of_cons in Hp. destruct (decide (p = Z.of_nat (h_spawns w))) as [->|Hne]; [lia|].
      assert (Hp' : p < Z.of_nat (h_spawns w)) by (apply H3; set_solver). lia.
  - intros p Hp. destruct Ht as [[E Ha]|[(Hr & E & Ha)|(Hr & E & Ha & _)]]; rewrite Ha in Hp; rewrite E.
    + by apply H4.
    + specialize (H4 p Hp). destruct (es_popen x) as [q|] eqn:Eq; [|done]. pose proof (not_running w x q Hr Eq) as Hq. cbn in H4 |- *. set_solver.
    + apply elem_of_union in Hp as [Hp|Hp]; [set_solver|]. specialize (H4 p Hp). destruct (es_popen x) as [q|] eqn:Eq; [|set_solver].
      pose proof (not_running w x q Hr Eq) as Hq. cbn in H4 |- *. set_solver.
Qed.

Lemma tick_all_children pre d w : children_ok (pre ++ d) w -> children_ok (pre ++ fst (tick_all d w)) (snd (tick_all d w)).
Proof.
  revert pre w. induction d as [|[c x] d IH]; intros pre w H; [done|]. cbn. pose proof (tick_one_children pre c x d w H) as H1.
  destruct (session_tick x w) as [x1 w1]. cbn in H1. replace (pre ++ (c, x1) :: d) with ((pre ++ [(c, x1)]) ++ d) in H1 by by rewrite <- app_assoc.
  specialize (IH _ _ H1). destruct (tick_all d w1) as [r w2]. cbn in *. by rewrite <- app_assoc in IH.
Qed.

(** ** Histories of an encoder node *)

Inductive encoding : dict EncodeSession * Host -> Prop :=
| en_start w : h_alive w = ∅ -> encoding ([], w)
| en_round specs st : encoding st -> encoding (agent_round specs st)
| en_world d w w' : encoding (d, w) -> h_now w <= h_now w' -> h_spawns w' = h_spawns w -> h_alive w' ⊆ h_alive w -> encoding (d, w').

Lemma encoding_ok st : encoding st -> children_ok (fst st) (snd st).
Proof.
  induction 1 as [w Hw|specs [d w] _ IH|d w w' _ IH Hn Hs Ha].
  - constructor; cbn; [constructor..|]. intros p. by rewrite Hw, elem_of_empty.
  - unfold NodeAgents.agent_round. assert (H1 : children_ok (fst (match specs with Some l => apply_specs l (d, w) | None => (d, w) end))
      (snd (match specs with Some l => apply_specs l (d, w) | None => (d, w) end))) by (destruct specs; [by apply apply_children|done]).
    destruct (match specs with Some l => _ | None => _ end) as [d1 w1]. exact (tick_all_children [] d1 w1 H1).
  - destruct IH as [H1 H2 H3 H4]. constructor; cbn in *; [done|done|by rewrite Hs|]. intros p Hp. apply H4. set_solver.
Qed.

Lemma stop_all_alive d w p : p ∈ h_alive (agent_stop stop_time (d, w)) -> p ∈ h_alive w /\ p ∉ pids d.
Proof.
  unfold agent_stop. cbn. revert w. induction d as [|[c x] d IH]; intros w Hp; [split; [done|apply not_elem_of_nil]|]. cbn in Hp.
  apply IH in Hp as [Hp Hn]. apply stop_alive in Hp as [Hp Hx]. split; [done|]. rewrite pids_cons, not_elem_of_app. split; [|done].
  destruct (es_popen x); cbn; [|apply not_elem_of_nil]. rewrite list_elem_of_singleton. congruence.
Qed.

(** in every history of an encoder node each ffmpeg child that is alive is the one
    child of the one session of one camera, and stopping the agent leaves none. *)
Theorem encoder_children_accounted st :
  encoding st ->
  (forall p, p ∈ h_alive (snd st) -> exists c x, dict_get c (fst st) = Some x /\ es_popen x = Some p /\
     forall c' x', dict_get c' (fst st) = Some x' -> es_popen x' = Some p -> c' = c) /\
  h_alive (agent_stop stop_time st) = ∅.
Proof.
  intros H. apply encoding_ok in H. destruct st as [d w]. cbn [fst snd] in *. split.
  - intros p Hp. apply (co_alive _ _ H) in Hp. apply elem_pids in Hp as (c & x & Hin & Ex). exists c, x.
    split; [by apply elem_dict_get; [apply H|]|]. split; [done|]. intros c' x' Hc' Ex'. apply dict_get_elem in Hc'. by eapply pid_session.
  - apply set_eq. intros p. rewrite elem_of_empty. split; [|done]. intros Hp. apply stop_all_alive in Hp as [Hp Hn]. by apply (co_alive _ _ H) in Hp.
Qed.
End EncoderFacts.

(** ** From the node's report to the viewers *)

Lemma confirm_step_rows nid now l rows fl c a' :
  fst (foldl (confirm_step nid now) (rows, fl) l) !! c = Some a' -> a_state a' = Active ->
  exists a, rows !! c = Some a /\ a_node_id a' = a_node_id a /\ (a_state a = Active \/ a_node_id a = nid /\ Some c ∈ l).
Proof.
  revert rows fl. induction l as [|o l IH]; intros rows fl H Ha; [cbn in H; eauto 6|]. cbn [foldl] in H.
  destruct (confirm_step nid now (rows, fl) o) as [rows1 fl1] eqn:E. destruct (IH _ _ H Ha) as (a1 & H1 & Hn & Hc).
  assert (Hkeep : rows1 !! c = rows !! c \/ exists a, rows !! c = Some a /\ a_node_id a1 = a_node_id a /\ a_node_id a = nid /\ o = Some c).
  { unfold confirm_step in E. destruct o as [cid|]; cbn in E; [|left; congruence]. destruct (rows !! cid) as [a|] eqn:Er; [|left; congruence].
    destruct (Z.eqb_spec (a_node_id a) nid) as [Hid|_]; [|left; congruence]. injection E as <- _. unfold mark_report in *. rewrite Er in *.
    destruct (decide (c = cid)) as [->|Hne]; [right|left; by rewrite lookup_insert_ne]. exists a. rewrite lookup_insert_eq in H1.
    by case_bool_decide; simplify_eq. }
  destruct Hkeep as [<-|(a & Hr & Hn' & Hid & ->)].
  - exists a1. split; [done|]. split; [done|]. destruct Hc as [?|[? ?]]; [by left|right; split; [done|by right]].
  - exists a. split; [done|]. split; [congruence|]. right. split; [done|by left].
Qed.

(** the server flips a camera to the node's stream only on proof: a heartbeat that
    turns an assignment active is that node's own, and the camera's session on the node
    was alive and at least three seconds old when it was sent. *)
Theorem viewers_switched_only_to_running_streams d w n pl s c a a' :
  NoDup (dict_keys d) ->
  pl_active_sessions pl = Some <$> active_sessions d w ->
  s_rows s !! c = Some a -> a_state a <> Active ->
  s_rows (snd (encode_heartbeat n pl s)) !! c = Some a' -> a_state a' = Active ->
  a_node_id a' = n_id n /\
  exists x pid, dict_get c d = Some x /\ es_popen x = Some pid /\ pid ∈ h_alive w /\ MIN_HEALTHY <= h_now w - es_started_at x.
Proof.
  intros Hd Hp Hr Ha Hr' Ha'. unfold encode_heartbeat in Hr'. rewrite Hp in Hr'.
  destruct (foldl _ _ _) as [rows fl] eqn:E. assert (Hf : rows = fst (rows, fl)) by done. rewrite <- E in Hf.
  assert (Hrows : rows !! c = Some a') by (revert Hr'; unfold resync_cameras; by destruct fl).
  rewrite Hf in Hrows. apply confirm_step_rows in Hrows as (a0 & H0 & Hn & Hc); [|done]. cbn in H0. rewrite Hr in H0. injection H0 as <-.
  destruct Hc as [?|[Hid Hin]]; [done|]. split; [congruence|]. apply list_elem_of_fmap_1 in Hin as (c' & [= <-] & Hin).
  unfold active_sessions in Hin. apply list_elem_of_fmap_1 in Hin as ([k x] & -> & Hin). apply elem_of_filter_In in Hin as [Hin Hh]. cbn in Hh |- *.
  unfold healthy, running in Hh. apply andb_true_iff in Hh as [H1 H2]. destruct (es_popen x) as [pid|] eqn:Ep; [|done].
  exists x, pid. split; [by apply elem_dict_get|]. split; [done|]. split; [by apply bool_decide_eq_true_1 in H1|by apply Z.leb_le].
Qed.

(** ** The reports of a detector *)

Lemma take_batch_spec {Report} (q : list (list Report)) (b0 : list Report) :
  let '(b, rest) := take_batch b0 q in
  b ++ concat rest = b0 ++ concat q /\ (rest = [] \/ 1000 <= length b)%nat /\
  (forall m, Forall (fun item => length item <= m)%nat q -> length b <= Nat.max (length b0) (999 + m))%nat.
Proof.
  revert b0. induction q as [|item q IH]; intros b0; cbn [take_batch concat]; [split; [done|]; split; [by left|]; intros; lia|].
  destruct (Nat.ltb_spec (length b0) 1000); [|split; [done|]; split; [by right|]; intros; lia].
  specialize (IH (b0 ++ item)). destruct (take_batch _ _) as [b rest]. destruct IH as (H1 & H2 & H3).
  split; [by rewrite H1, <- app_assoc|]. split; [done|]. intros m Hm. apply Forall_cons in Hm as [Hi Hm]. specialize (H3 m Hm).
  rewrite length_app in H3. lia.
Qed.

(** ** Witnesses *)

Definition demo_order (id : Z) (url : string) : EncodeSpec :=
  {| sp_camera_id := id; sp_epoch := 1; sp_pull_url := Some "rtsp://go2rtc/a_raw"%string; sp_publish_url := Some url;
     sp_v_codec := Some "libx264"%string; sp_preset := None; sp_crf := Some (JStr "99") |}.
Definition demo_host : Host := {| h_now := 0; h_alive := ∅; h_spawns := 0 |}.
Definition demo_round (specs : option (list EncodeSpec)) (st : dict EncodeSession * Host) : dict EncodeSession * Host :=
  agent_round "ffmpeg" "none" (fun _ => true) 0 specs st.
Definition demo_node0 : dict EncodeSession * Host := demo_round (Some [demo_order 11 "rtsp://go2rtc/a_enc"; demo_order 12 "http://x"]) ([], demo_host).
Definition demo_node4 : dict EncodeSession * Host := (fst demo_node0, host_pass (4 * SEC) (snd demo_node0)).

Lemma live_command_is_safe_witness : exists cmd, build_live_cmd "ffmpeg" "none" (demo_order 11 "rtsp://go2rtc/a_enc") = Some cmd /\ length cmd = 27%nat /\
  exists pull publish preset crf, sp_pull_url (demo_order 11 "rtsp://go2rtc/a_enc") = Some pull /\ startswith "rtsp://" pull = true /\
    sp_publish_url (demo_order 11 "rtsp://go2rtc/a_enc") = Some publish /\ startswith "rtsp://" publish = true /\
    preset ∈ ALLOWED_PRESETS /\ 0 <= crf <= 51 /\
    forall a, a ∈ cmd -> fixed_word "ffmpeg" "none" a \/ a = pull \/ a = publish \/ a = preset \/ a = pretty crf.
Proof.
  destruct (build_live_cmd "ffmpeg" "none" (demo_order 11 "rtsp://go2rtc/a_enc")) as [cmd|] eqn:E; [|by vm_compute in E].
  exists cmd. split; [done|]. split; [by vm_compute in E; simplify_eq|]. by apply (live_command_is_safe _ _ _ _ E).
Defined.

Lemma encoder_children_accounted_witness : active_sessions (fst demo_node4) (snd demo_node4) = [11] /\ h_alive (snd demo_node4) = {[ 0 ]} /\
  (forall p, p ∈ h_alive (snd demo_node4) -> exists c x, dict_get c (fst demo_node4) = Some x /\ es_popen x = Some p /\
     forall c' x', dict_get c' (fst demo_node4) = Some x' -> es_popen x' = Some p -> c' = c) /\
  h_alive (agent_stop 0 demo_node4) = ∅.
Proof.
  split; [by vm_compute|]. split; [by vm_compute|]. apply (encoder_children_accounted "ffmpeg" "none" (fun _ => true)). unfold demo_node4.
  apply (en_world _ _ _ _ (fst demo_node0) (snd demo_node0)).
  - rewrite <- surjective_pairing. apply en_round, en_start. done.
  - vm_compute. discriminate.
  - done.
  - done.
Defined.

Definition demo_beat : Payload :=
  {| pl_gpu := None; pl_capacity := None; pl_bench_capacity := None; pl_status := Some "online"%string;
     pl_active_sessions := Some <$> active_sessions (fst demo_node4) (snd demo_node4) |}.
Definition demo_waiting : Sched := set_rows {[ 11 := with_state Pending (demo_row 1); 12 := with_state Pending (demo_row 1) ]} demo_sched.

Lemma viewers_switched_only_to_running_streams_witness :
  let s' := snd (encode_heartbeat (demo_node 1 2 999) demo_beat demo_waiting) in
  (a_state <$> s_rows s' !! 11) = Some Active /\ (a_state <$> s_rows s' !! 12) = Some Pending /\
  exists x pid, dict_get 11 (fst demo_node4) = Some x /\ es_popen x = Some pid /\ pid ∈ h_alive (snd demo_node4) /\
    MIN_HEALTHY <= h_now (snd demo_node4) - es_started_at x.
Proof.
  cbv zeta. split; [by vm_compute|]. split; [by vm_compute|].
  destruct (s_rows (snd (encode_heartbeat (demo_node 1 2 999) demo_beat demo_waiting)) !! 11) as [a'|] eqn:E; [|by vm_compute in E].
  assert (Ha : a_state a' = Active) by by (vm_compute in E; simplify_eq).
  apply (viewers_switched_only_to_running_streams (fst demo_node4) (snd demo_node4) (demo_node 1 2 999) demo_beat demo_waiting 11
           (with_state Pending (demo_row 1)) a'); try done.
  apply (bool_decide_unpack _). by vm_compute.
Defined.
