(* ===== verification/Counting.v ===== *)
(** * Counting lines, occupancy and loitering

    src/server/service/counting.py, model/counting.py, service/feature_flag.py (the
    cached map, read as its current value).

    One batch of stored detections of a camera runs through every enabled line and
    region of that camera.  A Python exception inside one line ([Fault]) is logged and
    the next line goes on; what the line wrote before it stays.  [local_epoch] is
    [timestamp()] of a naive datetime: microseconds since the epoch when the value is
    read in the server's own time zone. *)

From Stdlib Require Import QArith Qround.
From stdpp Require Import pretty.
From S2P Require Import Prelude PyStr Redis Permission Token Sessions Storage EventPipeline Json Scheduler Vision.
Local Open Scope Z_scope.
Local Open Scope list_scope.

Definition TTL : Z := 120.

Definition side_key (line_id track : Z) : string := "axp:count:side:" +:+ pretty line_id +:+ ":" +:+ pretty track.
Definition enter_key (line_id track : Z) : string := "axp:count:enter:" +:+ pretty line_id +:+ ":" +:+ pretty track.
Definition loiter_key (line_id track : Z) : string := "axp:count:loiter:" +:+ pretty line_id +:+ ":" +:+ pretty track.

(** [None]: fewer than two points *)
Definition line_side (px py : Q) (line : polygon) : option Z :=
  match line with
  | (x1, y1) :: (x2, y2) :: _ =>
      Some (if Qle_bool 0 ((x2 - x1) * (py - y1) - (y2 - y1) * (px - x1))%Q then 1 else -1)
  | _ => None
  end.

(** ** Counters (model/counting.py) *)

Definition get_lines (camera_id : Z) (w : DetWorld) : list CountingLine :=
  sort_on cl_id (List.filter (fun l => (cl_camera_id l =? camera_id) && bool_decide (cl_deleted_at l = None) && cl_enabled l)
                   (dw_lines w)).

(** [ts.replace(second=0, microsecond=0)] *)
Definition bucket (ts : Z) : Z := ts - ts mod MINUTE.

Definition same_counter (camera_id line_id b : Z) (label : option string) (c : CountingStat) : bool :=
  (cs_camera_id c =? camera_id) && (cs_line_id c =? line_id) && (cs_bucket_ts c =? b) && bool_decide (cs_label c = label).

Definition add_counts (in_delta out_delta : Z) (occupancy : option Z) (c : CountingStat) : CountingStat :=
  {| cs_camera_id := cs_camera_id c; cs_line_id := cs_line_id c; cs_bucket_ts := cs_bucket_ts c;
     cs_in_count := cs_in_count c + in_delta; cs_out_count := cs_out_count c + out_delta;
     cs_occupancy := match occupancy with Some o => Z.max (cs_occupancy c) o | None => cs_occupancy c end;
     cs_label := cs_label c |}.

(** the first counter of the bucket, or a new one *)
Fixpoint record_in (camera_id line_id b in_delta out_delta : Z) (occupancy : option Z) (label : option string)
    (l : list CountingStat) : list CountingStat :=
  match l with
  | [] => [add_counts in_delta out_delta occupancy
             {| cs_camera_id := camera_id; cs_line_id := line_id; cs_bucket_ts := b; cs_in_count := 0; cs_out_count := 0;
                cs_occupancy := 0; cs_label := label |}]
  | c :: r => if same_counter camera_id line_id b label c then add_counts in_delta out_delta occupancy c :: r
              else c :: record_in camera_id line_id b in_delta out_delta occupancy label r
  end.

Definition record (camera_id line_id ts in_delta out_delta : Z) (occupancy : option Z) (label : option string)
    (w : DetWorld) : DetWorld :=
  set_stats (record_in camera_id line_id (bucket ts) in_delta out_delta occupancy label (dw_stats w)) w.

(** ** One line *)

Inductive fault := Fault.
Definition C_ (A : Type) : Type := M DetWorld fault A.

(** a Redis call that may raise *)
Definition redis_get (key : string) : C_ (option rval) :=
  fun w => match r_get (dw_now w) key (dw_redis w) with Some v => (inr v, w) | None => (inl Fault, w) end.
Definition redis_setex (key : string) (ttl : Z) (v : string) : C_ unit :=
  fun w => match r_setex (dw_now w) key ttl (RText v) (dw_redis w) with Some r => (inr tt, set_rw_redis r w) | None => (inl Fault, w) end.
Definition redis_exists (key : string) : C_ bool :=
  fun w => match r_exists (dw_now w) key (dw_redis w) with Some v => (inr v, w) | None => (inl Fault, w) end.
Definition redis_delete (key : string) : C_ unit :=
  fun w => match r_delete key (dw_redis w) with Some r => (inr tt, set_rw_redis r w) | None => (inl Fault, w) end.

(** [int(value)] of a stored text *)
Definition stored_int (v : rval) : C_ Z :=
  match v with
  | RNum n => ret n
  | RText s => match py_int s with Some n => ret n | None => raise Fault end
  end.

Section Engine.
Context (utc_offset local_epoch : Z -> Z).

Definition ts_ms (ts : Z) : Z := Z.quot (local_epoch ts) 1000.

(** [_emit]: an exception is logged *)
Definition emit (camera_id : Z) (etype : string) (value : Z) (label : option string) (dedup_extra : string) : C_ unit :=
  fun w => match ingest_object utc_offset camera_id etype label (Z.min 100 value) "server" (Some dedup_extra) w with
           | Some (_, w') => (inr tt, w')
           | None => (inr tt, w)
           end.

Definition cross (camera_id : Z) (line : CountingLine) (track : Z) (bx by_ : Q) (ts : Z) (label : string) : C_ unit :=
  match line_side bx by_ (cl_geometry line) with
  | None => raise Fault
  | Some side =>
      let key := side_key (cl_id line) track in
      let! prev := redis_get key in
      redis_setex key TTL (pretty side) ;;;
      match prev with
      | None => ret tt
      | Some v => let! p := stored_int v in
                  if p =? side then ret tt
                  else modify (record camera_id (cl_id line) ts (if 0 <? side then 1 else 0) (if 0 <? side then 0 else 1)
                                 None (Some label))
      end
  end.

Definition dwell (camera_id : Z) (line : CountingLine) (track ts : Z) (label : string) : C_ unit :=
  match cl_loiter_threshold_s line with
  | Some thr =>
      if thr =? 0 then ret tt else
      let ekey := enter_key (cl_id line) track in
      let now_ms := ts_ms ts in
      let! enter := redis_get ekey in
      match enter with
      | None => redis_setex ekey TTL (pretty now_ms)
      | Some v =>
          let! e := stored_int v in
          let d := now_ms - e in                       (* [dwell_s], in milliseconds *)
          if thr * 1000 <=? d then
            let! told := redis_exists (loiter_key (cl_id line) track) in
            if told : bool then ret tt else
              redis_setex (loiter_key (cl_id line) track) TTL "1" ;;;
              emit camera_id "loitering" (Z.quot d 1000) (Some label) (pretty (cl_id line) +:+ ":" +:+ pretty track)
          else ret tt
      end
  | None => ret tt
  end.

Definition class_filtered (line : CountingLine) (d : Detection) : bool :=
  match cl_class_filter line with Some ((_ :: _) as f) => negb (bool_decide (dt_label d ∈ f)) | _ => false end.

(** one row of the loop; the result is the members so far *)
Definition process_row (camera_id : Z) (line : CountingLine) (counting_on loiter_on : bool) (d : Detection)
    (members : list Z) : C_ (list Z) :=
  if class_filtered line d then ret members else
  let '(bx, by_) := bottom_center (dt_bbox d) in
  let track := dt_track_id d in
  if bool_decide (cl_kind line = "line"%string) then
    when counting_on (cross camera_id line track bx by_ (dt_ts d) (dt_label d)) ;;; ret members
  else if point_in_polygon bx by_ (cl_geometry line) then
    when loiter_on (dwell camera_id line track (dt_ts d) (dt_label d)) ;;;
    ret (if bool_decide (track ∈ members) then members else members ++ [track])
  else
    redis_delete (enter_key (cl_id line) track) ;;;
    redis_delete (loiter_key (cl_id line) track) ;;;
    ret members.

Fixpoint process_rows (camera_id : Z) (line : CountingLine) (counting_on loiter_on : bool) (rows : list Detection)
    (members : list Z) : C_ (list Z) :=
  match rows with
  | [] => ret members
  | d :: r => let! m := process_row camera_id line counting_on loiter_on d members in
              process_rows camera_id line counting_on loiter_on r m
  end.

Definition process_line (camera_id : Z) (line : CountingLine) (rows : list Detection) (counting_on loiter_on : bool) : C_ unit :=
  let! members := process_rows camera_id line counting_on loiter_on rows [] in
  match rows with
  | d :: _ =>
      when (bool_decide (cl_kind line = "region"%string) && (0 <? Z.of_nat (length members)))
        (let occ := Z.of_nat (length members) in
         when counting_on (modify (record camera_id (cl_id line) (dt_ts d) 0 0 (Some occ) None)) ;;;
         when (match cl_occupancy_threshold line with Some t => negb (t =? 0) && (t <? occ) | None => false end)
           (emit camera_id "occupancy" occ None (pretty (cl_id line))))
  | [] => ret tt
  end.

Definition process_batch (camera_id : Z) (rows : list Detection) (w : DetWorld) : DetWorld :=
  let counting_on := dw_flags w "object_counting" in
  let loiter_on := dw_flags w "loitering" in
  if counting_on || loiter_on then
    foldl (fun w l => snd (process_line camera_id l rows counting_on loiter_on w)) w (get_lines camera_id w)
  else w.
End Engine.

(** ** What a batch leaves alone *)

Definition same_rows (w w' : DetWorld) : Prop :=
  dw_dets w' = dw_dets w /\ dw_sched w' = dw_sched w /\ dw_lines w' = dw_lines w /\ dw_flags w' = dw_flags w.

#[export] Instance same_rows_preorder : PreOrder same_rows.
Proof. split; [by intros w|]. unfold same_rows. intros x y z. naive_solver congruence. Qed.

Lemma ingest_object_frame off cam ty st sc src dd w e w' :
  ingest_object off cam ty st sc src dd w = Some (e, w') -> same_rows w w'.
Proof. unfold ingest_object. destruct (camera_live cam w); [|done]. destruct (process _ _ _ _ _). by intros [= <- <-]. Qed.

Section Frame.
Context (off loc : Z -> Z) (w0 : DetWorld).
Notation kept := (keeps (E := fault) (same_rows w0)).

Lemma same_rows_step w w' : same_rows w0 w -> same_rows w w' -> same_rows w0 w'.
Proof. intros H1 H2. by transitivity w. Qed.

Lemma redis_get_kept k : kept (redis_get k).
Proof. intros w Hw. unfold redis_get. by destruct (r_get _ _ _). Qed.
Lemma redis_setex_kept k t v : kept (redis_setex k t v).
Proof. intros w Hw. unfold redis_setex. by destruct (r_setex _ _ _ _ _). Qed.
Lemma redis_exists_kept k : kept (redis_exists k).
Proof. intros w Hw. unfold redis_exists. by destruct (r_exists _ _ _). Qed.
Lemma redis_delete_kept k : kept (redis_delete k).
Proof. intros w Hw. unfold redis_delete. by destruct (r_delete _ _). Qed.
Lemma stored_int_kept v : kept (stored_int v).
Proof. destruct v as [s|n]; [|apply keeps_ret]. cbn. destruct (py_int s); auto with axp. Qed.
Lemma emit_kept cam ty v l d : kept (emit off cam ty v l d).
Proof.
  intros w Hw. unfold emit. destruct (ingest_object _ _ _ _ _ _ _ _) as [[e w']|] eqn:E; [|done].
  eapply same_rows_step; [done|by eapply ingest_object_frame].
Qed.
Lemma record_kept cam l ts i o oc lb : kept (modify (record cam l ts i o oc lb)).
Proof. by apply keeps_modify. Qed.
Lemma when_kept (b : bool) (m : C_ unit) : kept m -> kept (when b m).
Proof. destruct b; [done|]. intros _. apply keeps_ret. Qed.
End Frame.

#[local] Hint Resolve redis_get_kept redis_setex_kept redis_exists_kept redis_delete_kept stored_int_kept emit_kept
  record_kept when_kept : kept.

Ltac keep := repeat first
  [ apply keeps_bind; [|intros ?] | apply keeps_ret | apply keeps_raise | solve [auto with kept] | apply when_kept | dmatch ].

Lemma process_line_kept off loc w0 cam l rows b1 b2 : keeps (E := fault) (same_rows w0) (process_line off loc cam l rows b1 b2).
Proof.
  unfold process_line. apply keeps_bind.
  - generalize ([] : list Z). induction rows as [|d rows IH]; intros m; [apply keeps_ret|]. cbn [process_rows].
    apply keeps_bind; [|intros; apply IH]. unfold process_row, cross, dwell. keep.
  - intros m. keep.
Qed.

Lemma process_batch_frame off loc cam rows w : same_rows w (process_batch off loc cam rows w).
Proof.
  assert (H : forall b1 b2 ls w1, same_rows w w1 -> same_rows w (foldl (fun w l => snd (process_line off loc cam l rows b1 b2 w)) w1 ls)).
  { intros b1 b2 ls. induction ls as [|l ls IH]; intros w1 H1; [done|]. cbn. apply IH. by apply process_line_kept. }
  unfold process_batch. destruct (_ || _); [by apply H|done].
Qed.

(** ** Counters add up *)

Definition of_line (l : Z) (c : CountingStat) : bool := cs_line_id c =? l.
Definition ins (l : Z) (w : DetWorld) : Z := sum_on cs_in_count (List.filter (of_line l) (dw_stats w)).
Definition outs (l : Z) (w : DetWorld) : Z := sum_on cs_out_count (List.filter (of_line l) (dw_stats w)).

Lemma record_in_total cam l b i o oc lb st l' :
  sum_on cs_in_count (List.filter (of_line l') (record_in cam l b i o oc lb st)) =
    sum_on cs_in_count (List.filter (of_line l') st) + (if l =? l' then i else 0) /\
  sum_on cs_out_count (List.filter (of_line l') (record_in cam l b i o oc lb st)) =
    sum_on cs_out_count (List.filter (of_line l') st) + (if l =? l' then o else 0).
Proof.
  unfold of_line. destruct (Z.eqb_spec l l') as [El|El]; (induction st as [|c st [IH1 IH2]]; cbn [record_in]);
    try (cbn; destruct (Z.eqb_spec l l'); cbn; lia);
    (destruct (same_counter cam l b lb c) eqn:E; cbn -[sum_on]; destruct (Z.eqb_spec (cs_line_id c) l') as [Ec|Ec]);
    rewrite ?sum_on_cons; cbn -[sum_on]; try (split; lia);
    unfold same_counter in E; apply andb_prop in E as [[[_ E]%andb_prop _]%andb_prop _]; apply Z.eqb_eq in E; congruence.
Qed.

Lemma record_total cam l ts i o oc lb w l' :
  ins l' (record cam l ts i o oc lb w) = ins l' w + (if l =? l' then i else 0) /\
  outs l' (record cam l ts i o oc lb w) = outs l' w + (if l =? l' then o else 0).
Proof. apply record_in_total. Qed.

(** ** Crossings, track by track *)

(** pairs of consecutive sides that differ, by the side they reach *)
Fixpoint rises (l : list Z) : Z :=
  match l with
  | p :: ((q :: _) as r) => (if negb (p =? q) && (0 <? q) then 1 else 0) + rises r
  | _ => 0
  end.
Fixpoint falls (l : list Z) : Z :=
  match l with
  | p :: ((q :: _) as r) => (if negb (p =? q) && negb (0 <? q) then 1 else 0) + falls r
  | _ => 0
  end.

Definition side_of (line : CountingLine) (d : Detection) : option Z :=
  let '(bx, by_) := bottom_center (dt_bbox d) in line_side bx by_ (cl_geometry line).

(** the sides a track takes through the rows the line counts *)
Definition sides (line : CountingLine) (rows : list Detection) (t : Z) : list Z :=
  omap (fun d => if class_filtered line d then None else if dt_track_id d =? t then side_of line d else None) rows.

Definition path (line : CountingLine) (s : Z -> option Z) (rows : list Detection) (t : Z) : list Z :=
  option_list (s t) ++ sides line rows t.

(** Redis holds, live, exactly the last sides [s] of the line's tracks *)
Definition reads (v : rval) (p : Z) : Prop := match v with RNum n => n = p | RText t => py_int t = Some p end.
Definition holds (line : CountingLine) (s : Z -> option Z) (w : DetWorld) : Prop :=
  r_up (dw_redis w) = true /\
  forall t, match s t, r_lookup (dw_now w) (side_key (cl_id line) t) (dw_redis w) with
            | Some p, Some (v, _) => reads v p
            | None, None => True
            | _, _ => False
            end.

Lemma side_key_inj l t t' : side_key l t = side_key l t' -> t = t'.
Proof. unfold side_key. intros H%(inj _)%(inj _)%(inj _). by apply (inj pretty) in H. Qed.

Definition seen_on (s : Z -> option Z) (t side : Z) : Z -> option Z := fun u => if u =? t then Some side else s u.

Lemma holds_setex line s t side w r :
  holds line s w -> r_setex (dw_now w) (side_key (cl_id line) t) TTL (RText (pretty side)) (dw_redis w) = Some r ->
  holds line (seen_on s t side) (set_rw_redis r w).
Proof.
  intros [Hup H] Hr. unfold r_setex in Hr. rewrite Hup in Hr. cbn in Hr. injection Hr as <-. split; [done|].
  intros u. specialize (H u). unfold seen_on. change (dw_now (set_rw_redis _ w)) with (dw_now w).
  change (dw_redis (set_rw_redis ?r w)) with r. destruct (Z.eqb_spec u t) as [->|Hu].
  - rewrite r_lookup_put_eq by (cbn; apply Z.ltb_lt; unfold TTL, SEC; lia). apply py_int_pretty.
  - rewrite r_lookup_put_ne; [exact H|]. by intros ?%side_key_inj.
Qed.

Lemma holds_record line s cam l ts i o oc lb w : holds line s w -> holds line s (record cam l ts i o oc lb w).
Proof. done. Qed.

Lemma cross_counts cam line t bx by_ ts lb s side w :
  holds line s w -> line_side bx by_ (cl_geometry line) = Some side ->
  exists w', cross cam line t bx by_ ts lb w = (inr tt, w') /\ holds line (seen_on s t side) w' /\
    forall l, ins l w' = ins l w + (if cl_id line =? l then rises (option_list (s t) ++ [side]) else 0) /\
              outs l w' = outs l w + (if cl_id line =? l then falls (option_list (s t) ++ [side]) else 0).
Proof.
  intros H Hs. unfold cross. rewrite Hs. pose proof H as [Hup Hk]. specialize (Hk t).
  unfold bind at 1, redis_get, r_get. rewrite Hup. unfold bind at 1, redis_setex.
  destruct (r_setex _ _ _ _ _) as [r|] eqn:Er; [|by unfold r_setex in Er; rewrite Hup in Er].
  pose proof (holds_setex _ _ _ _ _ _ H Er) as H'.
  assert (Hz : forall l w', w' = set_rw_redis r w -> ins l w' = ins l w /\ outs l w' = outs l w) by (by intros l w' ->).
  destruct (s t) as [p|] eqn:Ep; destruct (r_lookup _ _ _) as [[v e]|]; cbn in Hk |- *; try done.
  - assert (Hv : stored_int v (set_rw_redis r w) = (inr p, set_rw_redis r w)) by (destruct v; cbn in *; [by rewrite Hk|by subst]).
    unfold bind. rewrite Hv. destruct (Z.eqb_spec p side) as [->|Hp].
    + eexists. split; [done|]. split; [done|]. intros l. cbn -[ins outs]. destruct (Hz l _ eq_refl). destruct (_ =? _); lia.
    + eexists. split; [done|]. split; [by apply holds_record|]. intros l. destruct (Hz l _ eq_refl).
      destruct (record_total cam (cl_id line) ts (if 0 <? side then 1 else 0) (if 0 <? side then 0 else 1) None (Some lb)
                  (set_rw_redis r w) l) as [E1 E2].
      rewrite E1, E2. cbn -[ins outs]. destruct (Z.eqb_spec p side); [done|]. destruct (_ =? l), (0 <? side); cbn -[ins outs]; lia.
  - eexists. split; [done|]. split; [done|]. intros l. cbn -[ins outs]. destruct (Hz l _ eq_refl). destruct (_ =? _); lia.
Qed.

Lemma rises_cons (o : option Z) q r : rises (option_list o ++ q :: r) = rises (option_list o ++ [q]) + rises (q :: r).
Proof.
  destruct o as [p|]; [|done]. change (option_list (Some p)) with [p]. cbn [app].
  change (rises (p :: q :: r)) with ((if negb (p =? q) && (0 <? q) then 1 else 0) + rises (q :: r)).
  change (rises [p; q]) with ((if negb (p =? q) && (0 <? q) then 1 else 0) + 0). lia.
Qed.
Lemma falls_cons (o : option Z) q r : falls (option_list o ++ q :: r) = falls (option_list o ++ [q]) + falls (q :: r).
Proof.
  destruct o as [p|]; [|done]. change (option_list (Some p)) with [p]. cbn [app].
  change (falls (p :: q :: r)) with ((if negb (p =? q) && (negb (0 <? q)) then 1 else 0) + falls (q :: r)).
  change (falls [p; q]) with ((if negb (p =? q) && (negb (0 <? q)) then 1 else 0) + 0). lia.
Qed.

Lemma path_other line s d rows t side :
  t <> dt_track_id d -> path line (seen_on s (dt_track_id d) side) rows t = path line s (d :: rows) t.
Proof.
  intros Ht. unfold path, seen_on, sides. cbn. destruct (Z.eqb_spec t (dt_track_id d)); [done|].
  destruct (class_filtered line d); [done|]. destruct (Z.eqb_spec (dt_track_id d) t); [congruence|done].
Qed.

Lemma path_here line s d rows side :
  class_filtered line d = false -> side_of line d = Some side ->
  path line s (d :: rows) (dt_track_id d) = option_list (s (dt_track_id d)) ++ side :: sides line rows (dt_track_id d) /\
  path line (seen_on s (dt_track_id d) side) rows (dt_track_id d) = side :: sides line rows (dt_track_id d).
Proof. intros Hf Hs. unfold path, seen_on, sides. cbn. rewrite Hf, !Z.eqb_refl, Hs. done. Qed.

Lemma process_rows_counts off loc cam line rows b s T w :
  cl_kind line = "line"%string -> (2 <= length (cl_geometry line))%nat -> NoDup T ->
  (forall d, d ∈ rows -> dt_track_id d ∈ T) -> holds line s w ->
  exists w', process_rows off loc cam line true b rows [] w = (inr [], w') /\
    holds line (fun t => last (path line s rows t)) w' /\
    forall l, ins l w' = ins l w + (if cl_id line =? l then sum_on (fun t => rises (path line s rows t)) T
                                                             - sum_on (fun t => rises (option_list (s t))) T else 0) /\
              outs l w' = outs l w + (if cl_id line =? l then sum_on (fun t => falls (path line s rows t)) T
                                                               - sum_on (fun t => falls (option_list (s t))) T else 0).
Proof.
  intros Hk Hg Hn. revert s w. induction rows as [|d rows IH]; intros s w HT H.
  - exists w. split; [done|]. split.
    + destruct H as [Hup H]. split; [done|]. intros t. specialize (H t). unfold path. cbn. rewrite app_nil_r. by destruct (s t).
    + intros l. unfold path. cbn.
      rewrite (sum_on_ext (fun t => rises (option_list (s t) ++ [])) (fun t => rises (option_list (s t)))) by (intros; by rewrite app_nil_r).
      rewrite (sum_on_ext (fun t => falls (option_list (s t) ++ [])) (fun t => falls (option_list (s t)))) by (intros; by rewrite app_nil_r).
      destruct (_ =? _); lia.
  - cbn [process_rows]. unfold bind at 1. unfold process_row at 1.
    destruct (class_filtered line d) eqn:Ef.
    + cbn [ret]. destruct (IH s w) as (w' & E & Hh & Hc); [set_solver|done|]. exists w'.
      assert (Hp : forall t, path line s (d :: rows) t = path line s rows t) by (intros t; unfold path, sides; cbn; by rewrite Ef).
      split; [done|]. split; [|intros l; destruct (Hc l) as [C1 C2]; rewrite C1, C2].
      * destruct Hh as [Hup Hh]. split; [done|]. intros t. rewrite Hp. apply Hh.
      * rewrite (sum_on_ext (fun t => rises (path line s (d :: rows) t)) (fun t => rises (path line s rows t)))
          by (intros; by rewrite Hp).
        rewrite (sum_on_ext (fun t => falls (path line s (d :: rows) t)) (fun t => falls (path line s rows t)))
          by (intros; by rewrite Hp). done.
    + destruct (bottom_center (dt_bbox d)) as [bx by_] eqn:Eb. rewrite Hk. rewrite bool_decide_eq_true_2 by done.
      set (t0 := dt_track_id d).
      assert (exists side, line_side bx by_ (cl_geometry line) = Some side) as [side Hs].
      { destruct (cl_geometry line) as [|[] [|[] g]]; cbn in Hg; [lia|lia|]. by eexists. }
      assert (Hso : side_of line d = Some side) by (unfold side_of; by rewrite Eb).
      destruct (cross_counts cam line t0 bx by_ (dt_ts d) (dt_label d) s side w H Hs) as (w1 & E1 & H1 & C1).
      cbn [when]. unfold bind at 1. rewrite E1. cbn [ret].
      destruct (IH (seen_on s t0 side) w1) as (w' & E & Hh & Hc); [set_solver|done|]. exists w'. split; [done|].
      destruct (path_here line s d rows side Ef Hso) as [P1 P2]. fold t0 in P1, P2.
      assert (Po : forall t, t <> t0 -> path line (seen_on s t0 side) rows t = path line s (d :: rows) t)
        by (intros t Ht; by apply path_other).
      split.
      * destruct Hh as [Hup Hh]. split; [done|]. intros t. specialize (Hh t). destruct (decide (t = t0)) as [->|Ht].
        { rewrite P2 in Hh. rewrite P1. rewrite last_app_cons. exact Hh. }
        by rewrite <- Po.
      * intros l. destruct (Hc l) as [C2 C3], (C1 l) as [C4 C5]. rewrite C2, C3, C4, C5. clear C2 C3 C4 C5.
        destruct (cl_id line =? l); [|lia].
        assert (Ht0 : t0 ∈ T) by (apply HT; set_solver).
        assert (So : forall t, t <> t0 -> seen_on s t0 side t = s t)
          by (intros t Ht; unfold seen_on; by destruct (Z.eqb_spec t t0)).
        assert (Sh : seen_on s t0 side t0 = Some side) by (unfold seen_on; by rewrite Z.eqb_refl).
        rewrite (sum_on_point (fun t => rises (path line s (d :: rows) t)) (fun t => rises (path line (seen_on s t0 side) rows t)) T t0),
          (sum_on_point (fun t => falls (path line s (d :: rows) t)) (fun t => falls (path line (seen_on s t0 side) rows t)) T t0),
          (sum_on_point (fun t => rises (option_list (s t))) (fun t => rises (option_list (seen_on s t0 side t))) T t0),
          (sum_on_point (fun t => falls (option_list (s t))) (fun t => falls (option_list (seen_on s t0 side t))) T t0); try done.
        2-5: intros t Ht; rewrite ?So, ?Po; done.
        rewrite P1, P2, Sh, rises_cons, falls_cons. destruct (s t0); cbn; lia.
Qed.

Definition tracks (rows : list Detection) : list Z := remove_dups (dt_track_id <$> rows).

(** Counting a batch on a line is counting every track on its own.  Whatever the
    order in which the detections of several tracks interleave, and with Redis holding
    the side each track was last seen on, processing the batch never faults, adds to
    the line's "in" counters one for every time some track moved from the other side
    to the positive one and to its "out" counters one for every move back, leaves the
    totals of every other line alone, and leaves in Redis the last side of each track,
    so that the next batch continues from it. *)
Theorem line_counts_each_track off loc cam line rows s b w :
  cl_kind line = "line"%string -> (2 <= length (cl_geometry line))%nat -> holds line s w ->
  exists w', process_line off loc cam line rows true b w = (inr tt, w') /\
    holds line (fun t => last (path line s rows t)) w' /\
    forall l,
      ins l w' = ins l w + (if cl_id line =? l then sum_on (fun t => rises (path line s rows t)) (tracks rows) else 0) /\
      outs l w' = outs l w + (if cl_id line =? l then sum_on (fun t => falls (path line s rows t)) (tracks rows) else 0).
Proof.
  intros Hk Hg H.
  destruct (process_rows_counts off loc cam line rows b s (tracks rows) w Hk Hg) as (w' & E & Hh & Hc); [apply NoDup_remove_dups| |done|].
  - intros d Hd. apply elem_of_remove_dups. by apply list_elem_of_fmap_2.
  - exists w'. split; [|split; [done|]].
    + unfold process_line, bind at 1. rewrite E. destruct rows; [done|]. by rewrite Hk.
    + intros l. destruct (Hc l) as [C1 C2]. rewrite C1, C2.
      rewrite (sum_on_ext (fun t => rises (option_list (s t))) (fun _ => 0)) by (intros t _; by destruct (s t)).
      rewrite (sum_on_ext (fun t => falls (option_list (s t))) (fun _ => 0)) by (intros t _; by destruct (s t)).
      assert (Z0 : sum_on (fun _ : Z => 0) (tracks rows) = 0) by (clear; generalize (tracks rows); intros T; induction T as [|t T IH]; [done|]; rewrite sum_on_cons, IH; done).
      rewrite Z0. destruct (_ =? _); lia.
Qed.

(** ** Loitering and the lifetime of the entry time *)

(** an entry time is within the report clamp of the instant its key was written,
    and the key lives [TTL] seconds *)
Definition entries_recent (line : CountingLine) (loc : Z -> Z) (w : DetWorld) : Prop :=
  forall t v e, r_store (dw_redis w) !! enter_key (cl_id line) t = Some (v, e) ->
    exists ts wr, reads v (ts_ms loc ts) /\ e = Some (wr + TTL * SEC) /\ Z.abs (ts - wr) <= 60 * SEC.

Lemma enter_key_inj l t t' : enter_key l t = enter_key l t' -> t = t'.
Proof. unfold enter_key. intros H%(inj _)%(inj _)%(inj _). by apply (inj pretty) in H. Qed.

(** A loitering threshold above twice the lifetime of the entry time never fires: the
    entry key of the region expires while the track is still inside.  The reporting
    clamp lets a dwell look at most [TTL + 120] seconds long. *)
Theorem long_loitering_never_reported off loc k cam line track ts lb thr w :
  (forall x, loc x = x + k) -> cl_loiter_threshold_s line = Some thr -> TTL + 120 < thr ->
  Z.abs (ts - dw_now w) <= 60 * SEC -> entries_recent line loc w ->
  let w' := snd (dwell off loc cam line track ts lb w) in
  ew_events (dw_ew w') = ew_events (dw_ew w) /\ entries_recent line loc w'.
Proof.
  intros Hl Ht Hthr Hts Hr. cbn zeta. unfold dwell. rewrite Ht. destruct (Z.eqb_spec thr 0) as [->|_]; [done|].
  unfold bind, redis_get, r_get. destruct (r_up _) eqn:Hup; [|done].
  destruct (r_lookup _ _ _) as [[v e]|] eqn:El; cbn [fmap option_fmap option_map fst].
  - unfold r_lookup in El. destruct (r_store _ !! _) as [e'|] eqn:Es; [|done]. destruct (live _ e') eqn:Eliv; [|done].
    injection El as ->. destruct (Hr _ _ _ Es) as (ts0 & wr & Hv & -> & Hts0).
    assert (stored_int v w = (inr (ts_ms loc ts0), w)) as -> by (destruct v; cbn in *; [by rewrite Hv|by subst]).
    cbn in Eliv. apply Z.ltb_lt in Eliv. destruct (Z.leb_spec (thr * 1000) (ts_ms loc ts - ts_ms loc ts0)); [|done].
    exfalso. unfold ts_ms, TTL, SEC in *. rewrite !Hl in *.
    pose proof (Z.quot_rem' (ts + k) 1000). pose proof (Z.quot_rem' (ts0 + k) 1000).
    pose proof (Z.rem_bound_abs (ts + k) 1000 ltac:(done)). pose proof (Z.rem_bound_abs (ts0 + k) 1000 ltac:(done)). lia.
  - unfold redis_setex. destruct (r_setex _ _ _ _ _) as [r|] eqn:Er; [|done]. cbn. split; [done|].
    unfold r_setex in Er. rewrite Hup in Er. cbn in Er. injection Er as <-. intros u v e. cbn.
    destruct (decide (u = track)) as [->|Hu].
    + rewrite lookup_insert_eq. intros [= <- <-]. exists ts, (dw_now w). split; [apply py_int_pretty|]. split; [done|lia].
    + rewrite lookup_insert_ne by (by intros ?%enter_key_inj). apply Hr.
Qed.

(** ** Witnesses *)

Definition demo_line : CountingLine :=
  {| cl_id := 3; cl_camera_id := 1; cl_kind := "line"; cl_geometry := [(0, 1 # 2); (1, 1 # 2)]%Q; cl_class_filter := None;
     cl_loiter_threshold_s := None; cl_occupancy_threshold := None; cl_enabled := true; cl_deleted_at := None |}.
Definition demo_region : CountingLine :=
  {| cl_id := 4; cl_camera_id := 1; cl_kind := "region"; cl_geometry := [(0, 0); (1, 0); (1, 1); (0, 1)]%Q; cl_class_filter := None;
     cl_loiter_threshold_s := Some 300; cl_occupancy_threshold := Some 1; cl_enabled := true; cl_deleted_at := None |}.
Definition demo_at (t : Z) (y : Q) : Detection :=
  {| dt_id := 0; dt_camera_id := 1; dt_ts := 864000 * SEC; dt_class_id := JInt 0; dt_label := "person"; dt_confidence := 90;
     dt_track_id := t; dt_track_key := "t"; dt_bbox := [(1 # 4)%Q; 0%Q; (1 # 2)%Q; y]; dt_zone_id := None; dt_segment_id := None;
     dt_event_id := None; dt_attrs := JNull; dt_node_id := 1 |}.

(** Track 5 goes down and up again while track 6 goes up. *)
Definition demo_rows : list Detection := [demo_at 5 (3 # 4); demo_at 6 (1 # 4); demo_at 5 (1 # 4); demo_at 6 (3 # 4); demo_at 5 (3 # 4)].

Lemma demo_vision_holds s : (forall t, s t = None) -> holds demo_line s demo_vision.
Proof. intros H. split; [done|]. intros t. rewrite H. done. Qed.

Lemma line_counts_each_track_witness :
  exists w', process_line kst kst 1 demo_line demo_rows true false demo_vision = (inr tt, w') /\
    ins 3 w' = 2 /\ outs 3 w' = 1.
Proof.
  destruct (line_counts_each_track kst kst 1 demo_line demo_rows (fun _ => None) false demo_vision) as (w' & E & _ & H);
    [reflexivity|cbn; lia|by apply demo_vision_holds|].
  exists w'. split; [exact E|]. exact (H 3).
Defined.

Lemma long_loitering_never_reported_witness :
  ew_events (dw_ew (snd (dwell kst (fun x => x) 1 demo_region 5 (dw_now demo_vision) "person" demo_vision))) =
  ew_events (dw_ew demo_vision).
Proof.
  apply (long_loitering_never_reported kst (fun x => x) 0 1 demo_region 5 (dw_now demo_vision) "person" 300 demo_vision);
    [intros; lia|reflexivity|reflexivity|rewrite Z.sub_diag; done|]. intros t v e H. done.
Defined.
