(* ===== verification/Detections.v ===== *)
(** * Detections reported by inference nodes

    src/server/service/detection_ingest.py, object_trigger_engine.py, smoke_alert.py,
    label_map.py, camera_features.py; model/detection.py, detection_zone.py,
    object_trigger.py.

    A batch is decoded JSON, whatever a node sent; a Python exception that leaves
    [ingest_batch] is a value.  Numbers are exact rationals.  Parameters: [float()]
    on text and [str()] on JSON values, md5's hex digest. *)

From Stdlib Require Import QArith Qround Qabs Ascii.
From stdpp Require Import pretty.
From S2P Require Import Prelude PyStr Redis Permission Token Sessions Storage EventPipeline Json Scheduler NodeAgents Vision Counting.
Local Open Scope Z_scope.
Local Open Scope list_scope.

(** ** Labels (label_map.py) *)

Definition COCO_LABELS : list (Z * string) :=
  [(0, "person"); (1, "bicycle"); (2, "car"); (3, "motorcycle"); (4, "airplane"); (5, "bus"); (6, "train"); (7, "truck");
   (8, "boat"); (14, "bird"); (15, "cat"); (16, "dog"); (17, "horse"); (18, "sheep"); (19, "cow"); (20, "elephant");
   (21, "bear"); (22, "zebra"); (23, "giraffe")]%string.
Definition CUSTOM_LABELS : list (Z * string) := [(1000, "smoke"); (1001, "fire")]%string.
Definition ALL_LABELS : list (Z * string) := COCO_LABELS ++ CUSTOM_LABELS.

Definition label_of_id (j : json) : option string :=
  match as_number j with
  | Some q => snd <$> List.find (fun e => Qeq_bool (inject_Z (fst e)) q) ALL_LABELS
  | None => None
  end.
Definition id_of_label (l : string) : option Z := fst <$> List.find (fun e => bool_decide (snd e = l)) ALL_LABELS.

Inductive py_error := TypeError | AttributeError | ValueError_ | OverflowError.

(** [label_map.normalize]: class id and label, or nothing *)
Definition normalize (class_id label : json) : py_error + option (json * string) :=
  if negb (hashable class_id) then inl TypeError else             (* [class_id in _ALL_LABELS] *)
  match class_id, label_of_id class_id with
  | _, Some l => inr (Some (class_id, l))
  | _, None =>
      if truthy label then
        match label with
        | JStr s =>
            let lab := lower (strip s) in
            match id_of_label lab with
            | Some i => inr (Some (JInt i, lab))
            | None => match class_id with JNull => inr None | _ => inr (Some (class_id, lab)) end
            end
        | _ => inl AttributeError                                  (* no [strip] *)
        end
      else inr None
  end.

(** ** Numbers *)

(** [round(q)]: to the nearest integer, halves to the even one *)
Definition round_half_even (q : Q) : Z :=
  let f := Qfloor q in
  let d := (q - inject_Z f)%Q in
  if qlt d (1 # 2) then f else if qlt (1 # 2) d then f + 1 else if Z.even f then f else f + 1.

(** [round(q, 5)] *)
Definition round5 (q : Q) : Q := (inject_Z (round_half_even (q * inject_Z 100000)) / inject_Z 100000)%Q.

Section Numbers.
Context (py_float : string -> option Q).

Definition FLOAT_LIMIT : Z := 2 ^ 1024 - 2 ^ 970.

(** [float(v)]: a number, a TypeError or ValueError, or an OverflowError *)
Inductive float_result := FloatOk (q : Q) | FloatBad | FloatOverflow.
Definition to_float (v : json) : float_result :=
  match v with
  | JInt z => if FLOAT_LIMIT <=? Z.abs z then FloatOverflow else FloatOk (inject_Z z)
  | JStr s => match py_float s with Some q => FloatOk q | None => FloatBad end
  | _ => match as_number v with Some q => FloatOk q | None => FloatBad end
  end.

(** texts [float()] reads as no rational number *)
Inductive non_number := NotANumber | PlusInfinity | MinusInfinity.
Definition special_float (v : json) : option non_number :=
  match v with
  | JStr s =>
      let t := lower (strip s) in
      if bool_decide (t ∈ ["nan"; "+nan"; "-nan"]%string) then Some NotANumber
      else if bool_decide (t ∈ ["inf"; "+inf"; "infinity"; "+infinity"]%string) then Some PlusInfinity
      else if bool_decide (t ∈ ["-inf"; "-infinity"]%string) then Some MinusInfinity
      else None
  | _ => None
  end.

(** [min(1.0, nan)] is 1.0 *)
Definition clamp01 (v : json) : py_error + Q :=
  match special_float v with
  | Some NotANumber | Some PlusInfinity => inr 1%Q
  | Some MinusInfinity => inr 0%Q
  | None =>
      match to_float v with
      | FloatOk q => inr (qmax 0 (qmin 1 q))
      | FloatBad => inr 0%Q
      | FloatOverflow => inl OverflowError
      end
  end.

(** [round] of what is no number raises *)
Definition conf_int (v : json) : py_error + Z :=
  match special_float v with
  | Some NotANumber => inl ValueError_
  | Some _ => inl OverflowError
  | None =>
      match to_float v with
      | FloatOk c => let c := if Qle_bool c 1 then (c * 100)%Q else c in inr (Z.max 0 (Z.min 100 (round_half_even c)))
      | FloatBad => inr 0
      | FloatOverflow => inl OverflowError
      end
  end.
End Numbers.

Definition CLAMP_SECONDS : Z := 60.

(** [_report_ts]; a timestamp [datetime] cannot hold is one too far from now *)
Definition report_ts (ts_ms : json) (now : Z) : py_error + Z :=
  if negb (truthy ts_ms) then inr now else
  match ts_ms with
  | JList _ | JObj _ => inl TypeError
  | _ => match to_int ts_ms with
         | None => inr now
         | Some ms => let ts := ms * 1000 in if CLAMP_SECONDS * SEC <? Z.abs (ts - now) then inr now else inr ts
         end
  end.

(** ** Track identities *)

Definition hex_val (c : ascii) : option Z :=
  let n := Z.of_nat (nat_of_ascii c) in
  if (48 <=? n) && (n <=? 57) then Some (n - 48)
  else if (97 <=? n) && (n <=? 102) then Some (n - 87)
  else if (65 <=? n) && (n <=? 70) then Some (n - 55) else None.

Fixpoint hex_digits (acc : Z) (seen : bool) (s : string) : option Z :=
  match s with
  | EmptyString => if seen then Some acc else None
  | String c r => match hex_val c with
                  | Some v => hex_digits (acc * 16 + v) true r
                  | None => if bool_decide (c = "_"%char) && seen then hex_digits acc false r else None
                  end
  end.

(** [int(s, 16)] *)
Definition py_int16 (s : string) : option Z :=
  let body s := if startswith "0x" s || startswith "0X" s
                then (if startswith "_" (sdrop 2 s) then hex_digits 0 false (sdrop 3 s) else hex_digits 0 false (sdrop 2 s))
                else hex_digits 0 false s in
  match strip s with
  | String "-"%char r => Z.opp <$> body r
  | String "+"%char r => body r
  | r => body r
  end.

Section Ingest.
Context (py_float : string -> option Q) (py_str : json -> string) (md5_hex : string -> string).
Context (utc_offset : Z -> Z).
Context (local_epoch : Z -> Z).

Definition track_ids (rep : list (string * json)) (node_id camera_id : Z) : string * Z :=
  let tk0 := jget "track_key" rep in
  let tk1 := if truthy tk0 then py_str tk0
             else md5_hex (pretty node_id +:+ ":" +:+ pretty camera_id +:+ ":" +:+ py_str (jget "bytetrack_id" rep)) in
  let tk := stake 32 tk1 in
  (tk, match py_int16 (stake 15 tk) with
       | Some i => i
       | None => default 0 (py_int16 (stake 15 (md5_hex tk)))
       end).

(** ** Validation of one report *)

Definition reject_reason := string.

(** [epoch_map.get(str(cam), epoch_map.get(cam))]: the keys of a JSON object are texts *)
Definition stated_epoch (rep epoch_map : list (string * json)) (cam : Z) : json :=
  match jget "epoch" rep with JNull => jget (pretty cam) epoch_map | e => e end.

Definition validate (rep : list (string * json)) (node_id : Z) (epoch_map : list (string * json)) (w : DetWorld)
    : py_error + option reject_reason :=
  let cam_j := jget "camera_id" rep in
  if negb (truthy cam_j) then inr (Some "missing_camera"%string) else
  match to_int cam_j with
  | None => inr (Some "bad_camera_id"%string)
  | Some cam =>
      match s_rows (dw_sched w) !! cam with
      | None => inr (Some "not_assigned"%string)
      | Some a =>
          if negb (a_node_id a =? node_id) then inr (Some "not_assigned"%string) else
          let check_bbox := match jget "bbox" rep with
                            | JList l => if bool_decide (length l = 4)%nat then None else Some "bad_bbox"%string
                            | _ => Some "bad_bbox"%string
                            end in
          match stated_epoch rep epoch_map cam with
          | JNull => inr check_bbox
          | e => match to_int e, a_epoch a with
                 | Some n, Some m => if n =? m then inr check_bbox else inr (Some "stale_epoch"%string)
                 | None, _ => inl (match e with JStr _ => ValueError_ | _ => TypeError end)
                 | _, None => inl TypeError
                 end
          end
      end
  end.

(** ** Building a row *)

Definition zones_for (camera_id : Z) (w : DetWorld) : list DetectionZone :=
  List.filter (fun z => bool_decide (dz_kind z = "include"%string))
    (sort_on (fun z => - dz_priority z) (sort_on dz_id (List.filter (fun z => (dz_camera_id z =? camera_id) &&
       bool_decide (dz_deleted_at z = None) && dz_enabled z) (dw_zones w)))).

(** the key [(-priority, area)] is smaller *)
Definition zone_before (a b : DetectionZone) : bool :=
  (dz_priority b <? dz_priority a) ||
  ((dz_priority a =? dz_priority b) && qlt (polygon_area (dz_polygon a)) (polygon_area (dz_polygon b))).

(** the first of the least: [hits.sort(key=...); hits[0]] *)
Definition best_zone (hits : list DetectionZone) : option DetectionZone :=
  match hits with [] => None | z :: r => Some (foldl (fun best x => if zone_before x best then x else best) z r) end.

Definition attribute_zone (camera_id : Z) (bbox : list Q) (w : DetWorld) : option Z :=
  let '(bx, by_) := bottom_center bbox in
  dz_id <$> best_zone (List.filter (fun z => point_in_polygon bx by_ (dz_polygon z)) (zones_for camera_id w)).

Fixpoint map_error {A B} (f : A -> py_error + B) (l : list A) : py_error + list B :=
  match l with
  | [] => inr []
  | x :: r => match f x with
              | inl e => inl e
              | inr y => match map_error f r with inl e => inl e | inr ys => inr (y :: ys) end
              end
  end.

(** [_build_row]; the id is given when the batch is stored *)
Definition build_row (rep : list (string * json)) (node_id : Z) (w : DetWorld) : py_error + option Detection :=
  match normalize (jget "class_id" rep) (jget "label" rep) with
  | inl e => inl e
  | inr None => inr None
  | inr (Some (class_id, label)) =>
      match to_int (jget "camera_id" rep), jget "bbox" rep with
      | Some cam, JList box =>
          match map_error (clamp01 py_float) box with
          | inl e => inl e
          | inr coords =>
              match report_ts (jget "ts" rep) (dw_now w), conf_int py_float (default (JInt 0) (assoc "confidence" rep)) with
              | inl e, _ | _, inl e => inl e
              | inr ts, inr conf =>
                  let bbox := round5 <$> coords in
                  let '(tk, tid) := track_ids rep node_id cam in
                  inr (Some {| dt_id := 0; dt_camera_id := cam; dt_ts := ts; dt_class_id := class_id; dt_label := label;
                               dt_confidence := conf; dt_track_id := tid; dt_track_key := tk; dt_bbox := bbox;
                               dt_zone_id := attribute_zone cam bbox w;
                               dt_segment_id := sg_id <$> get_at cam ts (ew_store (dw_ew w)); dt_event_id := None;
                               dt_attrs := jget "attrs" rep; dt_node_id := node_id |})
              end
          end
      | _, _ => inl TypeError                  (* never after [validate] *)
      end
  end.

(** the loop over the reports *)
Fixpoint collect (idx : Z) (batch : list json) (node_id : Z) (epoch_map : list (string * json)) (w : DetWorld)
    (rows : list Detection) (rejected : list (Z * reject_reason)) : py_error + (list Detection * list (Z * reject_reason)) :=
  match batch with
  | [] => inr (rows, rejected)
  | JObj rep :: r =>
      match validate rep node_id epoch_map w with
      | inl e => inl e
      | inr (Some reason) => collect (idx + 1) r node_id epoch_map w rows (rejected ++ [(idx, reason)])
      | inr None =>
          match build_row rep node_id w with
          | inl e => inl e
          | inr None => collect (idx + 1) r node_id epoch_map w rows (rejected ++ [(idx, "unknown_label"%string)])
          | inr (Some row) => collect (idx + 1) r node_id epoch_map w (rows ++ [row]) rejected
          end
      end
  | _ :: _ => inl AttributeError               (* no [get] *)
  end.

(** ** Storing (model/detection.py) *)

Definition with_id (i : Z) (d : Detection) : Detection :=
  {| dt_id := i; dt_camera_id := dt_camera_id d; dt_ts := dt_ts d; dt_class_id := dt_class_id d; dt_label := dt_label d;
     dt_confidence := dt_confidence d; dt_track_id := dt_track_id d; dt_track_key := dt_track_key d; dt_bbox := dt_bbox d;
     dt_zone_id := dt_zone_id d; dt_segment_id := dt_segment_id d; dt_event_id := dt_event_id d; dt_attrs := dt_attrs d;
     dt_node_id := dt_node_id d |}.

Definition with_event (e : Z) (d : Detection) : Detection :=
  {| dt_id := dt_id d; dt_camera_id := dt_camera_id d; dt_ts := dt_ts d; dt_class_id := dt_class_id d; dt_label := dt_label d;
     dt_confidence := dt_confidence d; dt_track_id := dt_track_id d; dt_track_key := dt_track_key d; dt_bbox := dt_bbox d;
     dt_zone_id := dt_zone_id d; dt_segment_id := dt_segment_id d; dt_event_id := Some e; dt_attrs := dt_attrs d;
     dt_node_id := dt_node_id d |}.

Fixpoint bulk_create (rows : list Detection) (w : DetWorld) : list Detection * DetWorld :=
  match rows with
  | [] => ([], w)
  | r :: rest =>
      let '(i, e) := fresh_id (dw_ew w) in
      let d := with_id i r in
      let '(ds, w') := bulk_create rest (set_dets (dw_dets w ++ [d]) (set_dw_ew e w)) in
      (d :: ds, w')
  end.

Definition link_event (det_id event_id : Z) (w : DetWorld) : DetWorld :=
  set_dets ((fun d => if dt_id d =? det_id then with_event event_id d else d) <$> dw_dets w) w.

(** ** Object triggers (object_trigger_engine.py) *)

Definition trigger_candidates (camera_id : Z) (w : DetWorld) : list ObjectTrigger :=
  let live := List.filter (fun t => bool_decide (ot_deleted_at t = None) && ot_enabled t) (dw_triggers w) in
  List.filter (fun t => bool_decide (ot_camera_id t = Some camera_id)) live ++
  List.filter (fun t => bool_decide (ot_camera_id t = None)) live.

Definition cd_key (trigger_id camera_id : Z) : string :=
  "axp:trig:" +:+ pretty trigger_id +:+ ":" +:+ pretty camera_id +:+ ":last".
Definition track_seen_key (track_key : string) (trigger_id : Z) : string :=
  "axp:trig:track:" +:+ track_key +:+ ":" +:+ pretty trigger_id.

(** [exists(key) == 1], False when Redis fails *)
Definition seen (key : string) (w : DetWorld) : bool := default false (r_exists (dw_now w) key (dw_redis w)).

(** [setex], best effort *)
Definition remember (key : string) (ttl : Z) (w : DetWorld) : DetWorld :=
  match r_setex (dw_now w) key ttl (RText "1") (dw_redis w) with Some r => set_rw_redis r w | None => w end.

(** distinct tracks of the label around the detection *)
Definition concurrent_count (camera_id : Z) (label : string) (anchor : Z) (w : DetWorld) : Z :=
  Z.of_nat (size (list_to_set (dt_track_id <$> List.filter (fun d => (dt_camera_id d =? camera_id) &&
    bool_decide (dt_label d = label) && (anchor - 2 * SEC <=? dt_ts d)) (dw_dets w)) : gset Z)).

(** [attrs or {}] read as an object; another truthy value has no [get] *)
Definition attrs_of (d : Detection) : option (list (string * json)) :=
  if truthy (dt_attrs d) then match dt_attrs d with JObj kvs => Some kvs | _ => None end else Some [].

(** the trigger's own conditions, in the order of the [continue]s; [None]: an exception *)
Definition trigger_matches (t : ObjectTrigger) (d : Detection) (attrs : list (string * json)) (w : DetWorld) : option bool :=
  if negb (bool_decide (dt_label d ∈ ot_labels t)) then Some false else
  if dt_confidence d <? ot_min_confidence t then Some false else
  if match ot_zone_id t with Some z => negb (bool_decide (dt_zone_id d = Some z)) | None => false end then Some false else
  if ot_require_zone_entry t && negb (truthy (jget "zone_entry" attrs)) then Some false else
  match (if ot_min_dwell_ms t =? 0 then Some false
         else (fun n => n <? ot_min_dwell_ms t) <$> to_int (default (JInt 0) (assoc "dwell_ms" attrs))) with
  | None => None
  | Some true => Some false
  | Some false =>
      if (1 <? ot_min_count t) && (concurrent_count (dt_camera_id d) (dt_label d) (dt_ts d) w <? ot_min_count t) then Some false else
      if ot_debounce_per_track t && truthy_str (Some (dt_track_key d)) && seen (track_seen_key (dt_track_key d) (ot_id t)) w
      then Some false else
      Some (negb (seen (cd_key (ot_id t) (dt_camera_id d)) w))
  end.

(** [evaluate]: first matching trigger; [None]: an exception, with what was done kept *)
Fixpoint evaluate (ts : list ObjectTrigger) (d : Detection) (attrs : list (string * json)) (w : DetWorld)
    : option (option Event * DetWorld) :=
  match ts with
  | [] => Some (None, w)
  | t :: r =>
      match trigger_matches t d attrs w with
      | None => None
      | Some false => evaluate r d attrs w
      | Some true =>
          match ingest_object utc_offset (dt_camera_id d) "object"
                  (Some (if truthy_str (ot_event_subtype t) then default ""%string (ot_event_subtype t) else dt_label d))
                  (dt_confidence d) "server" None w with
          | None => None
          | Some (None, w1) => Some (None, w1)
          | Some (Some ev, w1) =>
              let w2 := remember (cd_key (ot_id t) (dt_camera_id d)) (Z.max 1 (ot_cooldown_s t)) w1 in
              let w3 := if ot_debounce_per_track t && truthy_str (Some (dt_track_key d))
                        then remember (track_seen_key (dt_track_key d) (ot_id t)) (Z.max 60 (ot_cooldown_s t * 4)) w2 else w2 in
              Some (Some ev, w3)
          end
      end
  end.

(** [_run_triggers]: an exception on one detection is logged *)
Definition run_trigger (w : DetWorld) (d : Detection) : DetWorld :=
  match attrs_of d with
  | None => w
  | Some attrs =>
      match evaluate (trigger_candidates (dt_camera_id d) w) d attrs w with
      | Some (Some ev, w1) => link_event (dt_id d) (ev_id ev) w1
      | Some (None, w1) => w1
      | None => w
      end
  end.

(** ** Smoke alerts (smoke_alert.py) *)

Definition DEFAULT_THRESHOLD : Z := 50.
Definition COOLDOWN_SECONDS : Z := 30.

Definition smoke_threshold (w : DetWorld) : Z :=
  match dw_min_confidence w with Some c => Z.max DEFAULT_THRESHOLD c | None => DEFAULT_THRESHOLD end.

(** [SET NX EX], fail-open *)
Definition cooldown_ok (camera_id : Z) (w : DetWorld) : bool * DetWorld :=
  match r_set_nx_ex (dw_now w) ("axp:smoke:cooldown:" +:+ pretty camera_id) (RText "1") COOLDOWN_SECONDS (dw_redis w) with
  | Some (won, r) => (won, set_rw_redis r w)
  | None => (true, w)
  end.

Definition smoke_alert (camera_id : Z) (rows : list Detection) (w : DetWorld) : DetWorld :=
  if negb (camera_live camera_id w && bool_decide ("smoke"%string ∈ dw_features w camera_id)) then w else
  match max_on dt_confidence (List.filter (fun d => bool_decide (dt_label d ∈ snd <$> CUSTOM_LABELS) &&
          (smoke_threshold w <=? dt_confidence d)) rows) with
  | None => w
  | Some best =>
      let '(ok, w1) := cooldown_ok camera_id w in
      if ok then match ingest_object utc_offset camera_id "smoke" (Some (dt_label best)) (dt_confidence best) "smoke" None w1 with
                 | Some (_, w2) => w2
                 | None => w1
                 end
      else w1
  end.

(** ** The batch *)

Definition MAX_BATCH : nat := 2000.

(** cameras in the order their first row came *)
Definition batch_cameras (rows : list Detection) : list Z := remove_dups (dt_camera_id <$> rows).

Definition analytics (rows : list Detection) (w : DetWorld) : DetWorld :=
  foldl (fun w c => let mine := List.filter (fun d => dt_camera_id d =? c) rows in
                    smoke_alert c mine (process_batch utc_offset local_epoch c mine w)) w (batch_cameras rows).

Definition mark_reports (rows : list Detection) (w : DetWorld) : DetWorld :=
  foldl (fun w c => set_dw_sched (set_rows (mark_report (s_now (dw_sched w)) c (s_rows (dw_sched w))) (dw_sched w)) w) w
    (batch_cameras rows).

Record IngestResult := { ir_accepted : Z; ir_rejected : list (Z * reject_reason) }.

Definition ingest_batch (node_id : Z) (batch : list json) (epoch_map : list (string * json)) (w : DetWorld)
    : (py_error + IngestResult) * DetWorld :=
  match collect 0 (take MAX_BATCH batch) node_id epoch_map w [] [] with
  | inl e => (inl e, w)
  | inr (rows, rejected) =>
      let '(stored, w1) := bulk_create rows w in
      let w2 := mark_reports rows w1 in
      let w3 := foldl run_trigger w2 stored in
      (inr {| ir_accepted := Z.of_nat (length stored); ir_rejected := rejected |}, analytics rows w3)
  end.
End Ingest.

(** ** What promotion leaves alone *)

Section Facts.
Context (off : Z -> Z).

(** the pipeline writes only its own cooldown keys *)
Definition redis_frame (w w' : EventWorld) : Prop :=
  ew_now w' = ew_now w /\ r_up (t_redis (ew_store w')) = r_up (t_redis (ew_store w)) /\
  forall k, (forall d, k <> cooldown_key d) ->
    r_store (t_redis (ew_store w')) !! k = r_store (t_redis (ew_store w)) !! k.

#[local] Instance redis_frame_preorder : PreOrder redis_frame.
Proof.
  split; [by intros w|]. intros x y z (A1 & A2 & A3) (B1 & B2 & B3). split; [congruence|]. split; [congruence|].
  intros k Hk. rewrite B3, A3; done.
Qed.

Lemma mark_trigger_redis dd c w : redis_frame w (mark_trigger dd c w).
Proof.
  unfold mark_trigger, r_setex. destruct (r_up _ && _); [|done]. split; [done|]. split; [done|]. intros k Hk. cbn.
  by rewrite lookup_insert_ne by (intros E; by apply (Hk dd)).
Qed.

Lemma materialize_frame i a b w : redis_frame w (snd (materialize i a b w)).
Proof.
  unfold materialize, fresh_id. destruct (event_get_by_id i w); [|done]. cbv zeta. by destruct (find_overlapping _ _ _ _ _).
Qed.

Lemma act_frame cam n dd e w : redis_frame w (snd (act off cam n dd e w)).
Proof.
  unfold act. destruct (resolve _ _ _ _) as [p|]; [|done]. destruct (negb _); [done|]. 
  set (below := match ep_min_score p with Some _ => _ | None => _ end). destruct below; [done|].
  destruct (within_cooldown dd w); [done|]. cbv zeta. destruct (bool_decide (_ = "record"%string)).
  - destruct (materialize _ _ _ _) as [r w2] eqn:Em.
    assert (H2 : redis_frame w w2).
    { change w2 with (snd (r, w2)). rewrite <- Em. etrans; [|apply materialize_frame]. done. }
    cbn. etrans; [exact H2|]. etrans; [apply (mark_trigger_redis dd (ep_cooldown_s p))|]. by destruct (_ && _).
  - cbn. by destruct (_ && _).
Qed.

Lemma process_frame cam n src w : redis_frame w (snd (process off cam n src w)).
Proof.
  unfold process. set (again := match n_vendor_event_id n with Some _ => _ | None => _ end). destruct again; [done|].
  assert (H : forall e w1, redis_frame w w1 ->
     redis_frame w (snd (let '(e', w2) := act off cam n (dedup_key cam n) e w1 in (Some e', w2)))).
  { intros e w1 H1. pose proof (act_frame cam n (dedup_key cam n) e w1). destruct (act _ _ _ _ _ _). by etrans. }
  unfold create, fresh_id. cbv beta iota zeta.
  repeat case_bool_decide; try (destruct (get_active_by_dedup _ _); [|]); try done; by apply H.
Qed.

Lemma ingest_object_redis cam ty st sc src dd w e w' :
  ingest_object off cam ty st sc src dd w = Some (e, w') -> redis_frame (dw_ew w) (dw_ew w').
Proof.
  unfold ingest_object. destruct (camera_live cam w); [|done].
  match goal with |- context [process off cam ?n src ?x] => pose proof (process_frame cam n src x) as H; destruct (process off cam n src x) end.
  by intros [= <- <-].
Qed.

(** ** Cooldown of a trigger *)

(** the trigger a detection fires: the first whose conditions all hold *)
Fixpoint winner (ts : list ObjectTrigger) (d : Detection) (attrs : list (string * json)) (w : DetWorld) : option ObjectTrigger :=
  match ts with
  | [] => None
  | t :: r => match trigger_matches t d attrs w with
              | Some true => Some t
              | Some false => winner r d attrs w
              | None => None
              end
  end.

Definition fired_by (d : Detection) (w : DetWorld) : option ObjectTrigger :=
  match attrs_of d with
  | Some attrs => match evaluate off (trigger_candidates (dt_camera_id d) w) d attrs w with
                  | Some (Some _, _) => winner (trigger_candidates (dt_camera_id d) w) d attrs w
                  | _ => None
                  end
  | None => None
  end.

(** detection [d] is evaluated when the clock shows [t] *)
Definition at_time (t : Z) (w : DetWorld) : DetWorld :=
  let s := ew_store (dw_ew w) in
  set_dw_ew (set_store {| t_now := t; t_redis := t_redis s; t_cameras := t_cameras s; t_segments := t_segments s;
     t_recordings := t_recordings s; t_policies := t_policies s; t_disks := t_disks s; t_files := t_files s;
     t_reconciled := t_reconciled s |} (dw_ew w)) w.
Definition step (w : DetWorld) (p : Z * Detection) : DetWorld := run_trigger off (at_time (fst p) w) (snd p).

Lemma winner_matches ts d attrs w t :
  winner ts d attrs w = Some t -> t ∈ ts /\ trigger_matches t d attrs w = Some true.
Proof.
  induction ts as [|t' ts IH]; [done|]. cbn. destruct (trigger_matches t' d attrs w) as [[]|] eqn:E; [|naive_solver set_solver|done].
  intros [= ->]. set_solver.
Qed.

(** what an evaluation does, by the trigger that fires *)
Lemma evaluate_winner ts d attrs w :
  match winner ts d attrs w with
  | None => forall r, evaluate off ts d attrs w = Some r -> r = (None, w)
  | Some t => evaluate off ts d attrs w =
      match ingest_object off (dt_camera_id d) "object"
              (Some (if truthy_str (ot_event_subtype t) then default ""%string (ot_event_subtype t) else dt_label d))
              (dt_confidence d) "server" None w with
      | None => None
      | Some (None, w1) => Some (None, w1)
      | Some (Some ev, w1) =>
          let w2 := remember (cd_key (ot_id t) (dt_camera_id d)) (Z.max 1 (ot_cooldown_s t)) w1 in
          Some (Some ev, if ot_debounce_per_track t && truthy_str (Some (dt_track_key d))
                         then remember (track_seen_key (dt_track_key d) (ot_id t)) (Z.max 60 (ot_cooldown_s t * 4)) w2 else w2)
      end
  end.
Proof.
  induction ts as [|t ts IH]; cbn; [by intros r [= <-]|].
  destruct (trigger_matches t d attrs w) as [[]|]; [reflexivity|exact IH|done].
Qed.

Lemma cd_key_not_event id cam d : cd_key id cam <> cooldown_key d.
Proof. done. Qed.
Lemma track_seen_not_event k id d : track_seen_key k id <> cooldown_key d.
Proof. done. Qed.
Lemma cd_key_inj t c t' c' : cd_key t c = cd_key t' c' -> t = t'.
Proof. unfold cd_key. intros H%(inj _). by apply pretty_sep_inj in H as [-> _]. Qed.
Lemma cd_key_not_track t c k t' : cd_key t c <> track_seen_key k t'.
Proof.
  unfold cd_key, track_seen_key. destruct (pretty_head t) as (a & r & -> & Ha). intros H. cbn in H. injection H as -> _. done.
Qed.

(** the cooldown of trigger [t] on camera [c] runs at least until [until] *)
Definition cooling (t c until : Z) (w : DetWorld) : Prop :=
  r_up (dw_redis w) = true /\
  exists v e, r_store (dw_redis w) !! cd_key t c = Some (v, Some e) /\ until <= e.

Lemma cooling_frame t c u w w' : redis_frame (dw_ew w) (dw_ew w') -> cooling t c u w -> cooling t c u w'.
Proof.
  intros (_ & Hu & Hs) [Hup (v & e & Hk & He)]. unfold cooling, dw_redis in *. rewrite Hu, Hs by (intros; apply cd_key_not_event).
  eauto.
Qed.

Lemma cooling_remember_other t c u k ttl w : k <> cd_key t c -> cooling t c u w -> cooling t c u (remember k ttl w).
Proof.
  intros Hk [Hup H]. unfold remember, r_setex. destruct (_ && _); [|by split]. split; [done|]. cbn. by rewrite lookup_insert_ne.
Qed.

Lemma cooling_remember t c ttl w :
  r_up (dw_redis w) = true -> 0 < ttl -> cooling t c (dw_now w + ttl * SEC) (remember (cd_key t c) ttl w).
Proof.
  intros Hup Ht. unfold remember, r_setex. rewrite Hup. destruct (Z.ltb_spec 0 ttl); [|lia]. cbn. split; [done|].
  cbn. rewrite lookup_insert_eq. eexists _, _. split; [done|lia].
Qed.

(** while it runs, the trigger does not match *)
Lemma cooling_blocks t d attrs u w :
  cooling (ot_id t) (dt_camera_id d) u w -> dw_now w < u -> trigger_matches t d attrs w <> Some true.
Proof.
  intros [Hup (v & e & Hk & He)] Hn. unfold trigger_matches.
  assert (Hs : seen (cd_key (ot_id t) (dt_camera_id d)) w = true).
  { unfold seen, r_exists. rewrite Hup. unfold r_lookup. rewrite Hk. cbn. destruct (Z.ltb_spec (dw_now w) e); [done|lia]. }
  rewrite Hs. repeat dmatch; done.
Qed.

Lemma remember_fields k ttl w :
  dw_triggers (remember k ttl w) = dw_triggers w /\ dw_now (remember k ttl w) = dw_now w /\
  r_up (dw_redis (remember k ttl w)) = r_up (dw_redis w).
Proof. unfold remember, r_setex. by destruct (_ && _). Qed.

Lemma ingest_object_triggers cam ty st sc src dd w e w' :
  ingest_object off cam ty st sc src dd w = Some (e, w') -> dw_triggers w' = dw_triggers w.
Proof. unfold ingest_object. destruct (camera_live cam w); [|done]. destruct (process _ _ _ _ _). by intros [= _ <-]. Qed.

Lemma candidates_live cam w t : t ∈ trigger_candidates cam w -> t ∈ dw_triggers w.
Proof. unfold trigger_candidates. rewrite elem_of_app, !elem_of_filter_In. tauto. Qed.

(** one evaluation keeps the triggers, and keeps a cooldown running at least to [u]
    when a fresh one of the same trigger would end later *)
Lemma evaluate_cooling t c u d attrs w ev w' :
  NoDup (ot_id <$> dw_triggers w) -> t ∈ dw_triggers w -> u <= dw_now w + Z.max 1 (ot_cooldown_s t) * SEC ->
  evaluate off (trigger_candidates (dt_camera_id d) w) d attrs w = Some (ev, w') ->
  dw_triggers w' = dw_triggers w /\ (cooling (ot_id t) c u w -> cooling (ot_id t) c u w').
Proof.
  intros Hn Ht Hu E. pose proof (evaluate_winner (trigger_candidates (dt_camera_id d) w) d attrs w) as Hw.
  destruct (winner _ d attrs w) as [t'|] eqn:Ew; [|by injection (Hw _ E) as -> ->].
  apply winner_matches in Ew as [Hin _]. apply candidates_live in Hin. rewrite Hw in E.
  destruct (ingest_object _ _ _ _ _ _ _ _) as [[[e|] w1]|] eqn:Ei; [|by injection E as <- <-; split;
    [by eapply ingest_object_triggers|apply cooling_frame; by eapply ingest_object_redis]|done].
  pose proof (ingest_object_triggers _ _ _ _ _ _ _ _ _ Ei) as Htr. pose proof (ingest_object_redis _ _ _ _ _ _ _ _ _ Ei) as Hf.
  cbv zeta in E. set (w2 := remember (cd_key (ot_id t') (dt_camera_id d)) _ w1) in E.
  assert (H2 : dw_triggers w2 = dw_triggers w /\ (cooling (ot_id t) c u w -> cooling (ot_id t) c u w2)).
  { split; [unfold w2; by rewrite (proj1 (remember_fields _ _ _))|]. intros Hc. apply (cooling_frame _ _ _ _ _ Hf) in Hc.
    destruct (decide (cd_key (ot_id t') (dt_camera_id d) = cd_key (ot_id t) c)) as [Ek|Ek]; [|by apply cooling_remember_other].
    assert (t' = t) as -> by (eapply (nodup_key_inj ot_id); eauto using cd_key_inj). subst w2. rewrite Ek.
    destruct (cooling_remember (ot_id t) c (Z.max 1 (ot_cooldown_s t)) w1 (proj1 Hc) ltac:(lia)) as [Hup (v & x & Hk & Hx)].
    split; [done|]. exists v, x. split; [done|]. destruct Hf as (Hnow & _). unfold dw_now in *. rewrite Hnow in Hx. lia. }
  destruct (_ && _); injection E as <- <-; [|exact H2]. destruct H2 as [H2 H3]. split; [by rewrite (proj1 (remember_fields _ _ _))|].
  intros Hc. apply cooling_remember_other; [|by apply H3]. intros Ek. by apply (cd_key_not_track (ot_id t) c (dt_track_key d) (ot_id t')).
Qed.

Lemma step_cooling t c u w p :
  NoDup (ot_id <$> dw_triggers w) -> t ∈ dw_triggers w -> u <= fst p + Z.max 1 (ot_cooldown_s t) * SEC ->
  dw_triggers (step w p) = dw_triggers w /\ (cooling (ot_id t) c u w -> cooling (ot_id t) c u (step w p)).
Proof.
  destruct p as [n d]. intros Hn Ht Hu. unfold step, run_trigger. cbn [fst snd].
  destruct (attrs_of d) as [attrs|]; [|done].
  destruct (evaluate off (trigger_candidates (dt_camera_id d) (at_time n w)) d attrs (at_time n w)) as [[ev w1]|] eqn:E; [|done].
  destruct (evaluate_cooling t c u d attrs (at_time n w) ev w1 Hn Ht Hu E) as [H1 H2]. destruct ev as [ev|]; done.
Qed.

Lemma steps_cooling t c u l w :
  NoDup (ot_id <$> dw_triggers w) -> t ∈ dw_triggers w -> (forall p, p ∈ l -> u <= fst p + Z.max 1 (ot_cooldown_s t) * SEC) ->
  dw_triggers (foldl step w l) = dw_triggers w /\ (cooling (ot_id t) c u w -> cooling (ot_id t) c u (foldl step w l)).
Proof.
  revert w. induction l as [|p l IH]; intros w Hn Ht Hu; [done|]. cbn.
  destruct (step_cooling t c u w p Hn Ht ltac:(apply Hu; set_solver)) as [E H1].
  destruct (IH (step w p)) as [E2 H2]; [by rewrite E|by rewrite E|set_solver|]. rewrite E2, E. split; [done|]. tauto.
Qed.

(** a promotion starts the cooldown *)
Lemma fired_cools n d t w :
  r_up (dw_redis w) = true -> fired_by d (at_time n w) = Some t ->
  t ∈ dw_triggers w /\ dw_triggers (step w (n, d)) = dw_triggers w /\
  cooling (ot_id t) (dt_camera_id d) (n + Z.max 1 (ot_cooldown_s t) * SEC) (step w (n, d)).
Proof.
  intros Hup. unfold fired_by, step, run_trigger. cbn [fst snd]. destruct (attrs_of d) as [attrs|]; [|done].
  set (w0 := at_time n w). pose proof (evaluate_winner (trigger_candidates (dt_camera_id d) w0) d attrs w0) as Hw.
  destruct (evaluate off _ d attrs w0) as [[[ev|] w1]|] eqn:E; try done. intros Hwin. rewrite Hwin in Hw.
  pose proof (winner_matches _ _ _ _ _ Hwin) as [Hin _]. apply candidates_live in Hin. split; [done|].
  destruct (ingest_object _ _ _ _ _ _ _ _) as [[[e|] w2]|] eqn:Ei; try done. cbv zeta in Hw. injection Hw as -> ->.
  pose proof (ingest_object_triggers _ _ _ _ _ _ _ _ _ Ei) as Htr.
  destruct (ingest_object_redis _ _ _ _ _ _ _ _ _ Ei) as (Hnow & Hu2 & _).
  assert (Hc : cooling (ot_id t) (dt_camera_id d) (n + Z.max 1 (ot_cooldown_s t) * SEC)
                 (remember (cd_key (ot_id t) (dt_camera_id d)) (Z.max 1 (ot_cooldown_s t)) w2)).
  { replace n with (dw_now w2) by (unfold dw_now; by rewrite Hnow). apply cooling_remember; [|lia].
    unfold dw_redis. rewrite Hu2. exact Hup. }
  destruct (ot_debounce_per_track t && _); cbn [link_event dw_triggers set_dets].
  - split; [rewrite (proj1 (remember_fields _ _ _)), (proj1 (remember_fields _ _ _)); done|].
    apply cooling_remember_other; [|exact Hc]. intros Ek. by apply (cd_key_not_track (ot_id t) (dt_camera_id d) (dt_track_key d) (ot_id t)).
  - split; [by rewrite (proj1 (remember_fields _ _ _))|exact Hc].
Qed.

(** A trigger promotes at most one detection of a camera per cooldown.  After it
    has promoted one at time [n1], and whatever detections of whatever cameras are
    evaluated from then on, it does not promote another one of that camera before
    [n1] plus its cooldown (at least one second), as long as Redis answers. *)
Theorem one_promotion_per_cooldown w n1 d1 mid n2 d2 t t' :
  r_up (dw_redis w) = true -> NoDup (ot_id <$> dw_triggers w) ->
  fired_by d1 (at_time n1 w) = Some t ->
  (forall p, p ∈ mid -> n1 <= fst p) ->
  fired_by d2 (at_time n2 (foldl step (step w (n1, d1)) mid)) = Some t' ->
  ot_id t' = ot_id t -> dt_camera_id d2 = dt_camera_id d1 ->
  n1 + Z.max 1 (ot_cooldown_s t) * SEC <= n2.
Proof.
  intros Hup Hn Hf Hmid Hf2 Hid Hcam. destruct (Z.le_gt_cases (n1 + Z.max 1 (ot_cooldown_s t) * SEC) n2) as [H|Hlt]; [done|exfalso].
  apply fired_cools in Hf as (Ht & Htr & Hc); [|done].
  eapply (steps_cooling t) in Hc as Hc2; [| | |].
  2-3: by rewrite Htr.
  2: intros p Hp; specialize (Hmid p Hp); lia.
  clear Hc. unfold fired_by in Hf2. destruct (attrs_of d2) as [attrs|]; [|done].
  destruct (evaluate _ _ _ _ _) as [[[ev|] w3]|]; try done. apply winner_matches in Hf2 as [_ Hm].
  rewrite <- Hid, <- Hcam in Hc2.
  eapply (cooling_blocks t' d2 attrs (n1 + Z.max 1 (ot_cooldown_s t) * SEC)); [| |exact Hm]; [|exact Hlt].
  exact Hc2.
Qed.
End Facts.

(** ** What a batch stores *)

Lemma map_error_inr {A B} (f : A -> py_error + B) l ys :
  map_error f l = inr ys -> Forall2 (fun x y => f x = inr y) l ys.
Proof.
  revert ys. induction l as [|x l IH]; intros ys; cbn; [intros [= <-]; constructor|].
  destruct (f x) as [|y] eqn:E; [done|]. destruct (map_error f l) as [|ys']; [done|]. intros [= <-]. constructor; [done|by apply IH].
Qed.

Lemma clamp_bounds q : (0 <= qmax 0 (qmin 1 q) <= 1)%Q.
Proof.
  unfold qmax, qmin. destruct (qlt q 1) eqn:E1; [apply qlt_spec in E1|apply qlt_false in E1].
  - destruct (qlt 0 q) eqn:E2; [apply qlt_spec in E2; split; by apply Qlt_le_weak|split; done].
  - by vm_compute.
Qed.

Lemma clamp01_bounds py_float v q : clamp01 py_float v = inr q -> (0 <= q <= 1)%Q.
Proof.
  unfold clamp01. destruct (special_float v) as [[]|]; [intros [= <-]; done..|].
  destruct (to_float _ _); intros [= <-]; [apply clamp_bounds|done].
Qed.

Lemma round_half_even_bounds q (a b : Z) : (inject_Z a <= q <= inject_Z b)%Q -> (a <= round_half_even q <= b)%Z.
Proof.
  intros [Ha Hb]. unfold round_half_even.
  assert (Hf1 : (a <= Qfloor q)%Z) by (rewrite <- (Qfloor_Z a); by apply Qfloor_resp_le).
  assert (Hf2 : (Qfloor q <= b)%Z) by (rewrite <- (Qfloor_Z b); by apply Qfloor_resp_le).
  destruct (Z.eq_dec (Qfloor q) b) as [E|E].
  - assert (q <= inject_Z (Qfloor q))%Q by (by rewrite E).
    assert (Hd : qlt (q - inject_Z (Qfloor q)) (1 # 2) = true).
    { apply qlt_spec. apply Qle_lt_trans with 0%Q; [|done]. apply Qplus_le_l with (z := inject_Z (Qfloor q)). ring_simplify. done. }
    rewrite Hd. lia.
  - destruct (qlt _ (1 # 2)); [lia|]. destruct (qlt (1 # 2) _); [lia|]. destruct (Z.even _); lia.
Qed.

Lemma round5_bounds q : (0 <= q <= 1)%Q -> (0 <= round5 q <= 1)%Q.
Proof.
  intros [H0 H1]. unfold round5. assert (H : (0 <= round_half_even (q * inject_Z 100000) <= 100000)%Z).
  { apply round_half_even_bounds. split.
    - apply Qmult_le_0_compat; done.
    - apply (Qle_trans _ (1 * inject_Z 100000)); [by apply Qmult_le_compat_r|done]. }
  destruct H as [Ha Hb]. split.
  - apply Qle_shift_div_l; [done|]. rewrite Qmult_0_l. change 0%Q with (inject_Z 0). by rewrite <- Zle_Qle.
  - apply Qle_shift_div_r; [done|]. rewrite Qmult_1_l. by rewrite <- Zle_Qle.
Qed.

Lemma zone_before_spec a b : zone_before a b = true <->
  dz_priority b < dz_priority a \/
  (dz_priority a = dz_priority b /\ (polygon_area (dz_polygon a) < polygon_area (dz_polygon b))%Q).
Proof. unfold zone_before. rewrite orb_true_iff, andb_true_iff, Z.ltb_lt, Z.eqb_eq, qlt_spec. done. Qed.

Lemma zone_before_trans a b c : zone_before a b = true -> zone_before b c = true -> zone_before a c = true.
Proof.
  rewrite !zone_before_spec. intros [H1|[H1 H1']] [H2|[H2 H2']]; try (left; lia).
  right. split; [lia|]. by eapply Qlt_trans.
Qed.

Lemma zone_before_irrefl a : zone_before a a = false.
Proof. apply not_true_iff_false. rewrite zone_before_spec. intros [H|[_ H]]; [lia|]. by apply Qlt_irrefl in H. Qed.

Lemma best_zone_best hits z : best_zone hits = Some z -> z ∈ hits /\ forall x, x ∈ hits -> zone_before x z = false.
Proof.
  destruct hits as [|z0 hits]; [done|]. cbn. intros [= <-].
  set (f := fun best x => if zone_before x best then x else best).
  assert (H : forall l b, (foldl f b l ∈ b :: l) /\
     forall y, (zone_before y b = false \/ y ∈ l) -> zone_before y (foldl f b l) = false).
  { intros l. induction l as [|x l IH]; intros b; cbn; [split; [set_solver|]; intros y [H|H]; [done|by apply elem_of_nil in H]|].
    destruct (IH (f b x)) as [I1 I2]. unfold f in I1, I2 |- *. destruct (zone_before x b) eqn:Ex.
    - split; [set_solver|]. intros y [Hy|[->|Hy]%elem_of_cons]; apply I2; [left| |by right].
      + apply not_true_iff_false. intros Hyx. assert (zone_before y b = true) by (by eapply zone_before_trans). congruence.
      + left. apply zone_before_irrefl.
    - split; [set_solver|]. intros y [Hy|[->|Hy]%elem_of_cons]; apply I2; [by left|by left|by right]. }
  destruct (H hits z0) as [H1 H2]. split; [exact H1|].
  intros x [->|Hx]%elem_of_cons; apply H2; [left; apply zone_before_irrefl|by right].
Qed.

Lemma stake_length n s : (String.length (stake n s) <= n)%nat.
Proof. revert s. induction n as [|n IH]; intros [|c s]; cbn; try lia. specialize (IH s). lia. Qed.

(** the zone of a box: the best of the camera's live include zones its foot is in *)
Definition zone_of (w : DetWorld) (d : Detection) : Prop :=
  let hit z := z ∈ zones_for (dt_camera_id d) w /\
               (let '(x, y) := bottom_center (dt_bbox d) in point_in_polygon x y (dz_polygon z) = true) in
  match dt_zone_id d with
  | Some i => exists z, hit z /\ dz_id z = i /\ forall z', hit z' -> zone_before z' z = false
  | None => forall z, ~ hit z
  end.

Record stored_ok (w : DetWorld) (node_id : Z) (d : Detection) : Prop := {
  so_box : length (dt_bbox d) = 4%nat /\ Forall (fun q => (0 <= q <= 1)%Q) (dt_bbox d);
  so_confidence : 0 <= dt_confidence d <= 100;
  so_ts : Z.abs (dt_ts d - dw_now w) <= CLAMP_SECONDS * SEC;
  so_track : (String.length (dt_track_key d) <= 32)%nat;
  so_node : dt_node_id d = node_id;
  so_assigned : exists a, s_rows (dw_sched w) !! dt_camera_id d = Some a /\ a_node_id a = node_id;
  so_zone : zone_of w d;
  so_segment : dt_segment_id d = sg_id <$> get_at (dt_camera_id d) (dt_ts d) (ew_store (dw_ew w))
}.

Section Rows.
Context (py_float : string -> option Q) (py_str : json -> string) (md5_hex : string -> string) (off loc : Z -> Z).

Lemma report_ts_bounds j now ts : report_ts j now = inr ts -> Z.abs (ts - now) <= CLAMP_SECONDS * SEC.
Proof.
  assert (H0 : Z.abs (now - now) <= CLAMP_SECONDS * SEC) by (rewrite Z.sub_diag; unfold CLAMP_SECONDS, SEC; lia).
  unfold report_ts. destruct (negb (truthy j)); [by intros [= <-]|].
  destruct j; try done; destruct (to_int _) as [ms|]; try (by intros [= <-]); cbv zeta;
    (destruct (Z.ltb_spec (CLAMP_SECONDS * SEC) (Z.abs (ms * 1000 - now))); intros [= <-]; [done|lia]).
Qed.

Lemma conf_bounds v c : conf_int py_float v = inr c -> 0 <= c <= 100.
Proof. unfold conf_int. destruct (special_float v) as [[]|]; [done..|]. destruct (to_float _ _); intros [= <-]; lia. Qed.

Lemma attribute_zone_ok cam box w d :
  dt_camera_id d = cam -> dt_bbox d = box -> dt_zone_id d = attribute_zone cam box w -> zone_of w d.
Proof.
  intros Hc Hb Hz. unfold zone_of. rewrite Hz, Hc, Hb. unfold attribute_zone. destruct (bottom_center box) as [x y].
  destruct (best_zone _) as [z|] eqn:E; cbn.
  - apply best_zone_best in E as [Hin Hbest]. apply elem_of_filter_In in Hin. exists z. split; [done|]. split; [done|].
    intros z' Hz'. apply Hbest. by apply elem_of_filter_In.
  - intros z Hz'. unfold best_zone in E.
    assert (Hin : z ∈ List.filter (fun z => point_in_polygon x y (dz_polygon z)) (zones_for cam w)) by by apply elem_of_filter_In.
    destruct (List.filter _ _); [by apply elem_of_nil in Hin|done].
Qed.

Lemma track_key_length rep node_id cam : (String.length (fst (track_ids py_str md5_hex rep node_id cam)) <= 32)%nat.
Proof. unfold track_ids. exact (stake_length 32 _). Qed.

Lemma build_row_ok rep node_id em w d :
  validate rep node_id em w = inr None -> build_row py_float py_str md5_hex rep node_id w = inr (Some d) -> stored_ok w node_id d.
Proof.
  intros Hv. unfold build_row. destruct (normalize _ _) as [|[[ci lb]|]]; try done.
  unfold validate in Hv. destruct (negb _); [done|]. destruct (to_int (jget "camera_id" rep)) as [cam|]; [|done].
  destruct (s_rows (dw_sched w) !! cam) as [a|] eqn:Ea; [|done]. destruct (Z.eqb_spec (a_node_id a) node_id) as [Ena|]; [|done].
  cbn in Hv. assert (Hbox : exists l, jget "bbox" rep = JList l /\ length l = 4%nat).
  { set (cb := match jget "bbox" rep with
                 | JList l => if bool_decide (length l = 4%nat) then None else Some "bad_bbox"%string
                 | _ => Some "bad_bbox"%string
                 end) in Hv.
    assert (Hcb : cb = None).
    { clearbody cb. generalize dependent (stated_epoch rep em cam). intros e Hv.
      assert (H : e = JNull \/ match to_int e, a_epoch a with
                 | Some n, Some m => if n =? m then inr cb else inr (Some "stale_epoch"%string)
                 | None, _ => inl (match e with JStr _ => ValueError_ | _ => TypeError end)
                 | _, None => inl TypeError
                 end = inr None) by (destruct e; [by left|by right..]).
      destruct H as [->|H]; [by injection Hv as ->|]. clear Hv.
      destruct (to_int e) as [n|]; [destruct (a_epoch a) as [m|]; [destruct (n =? m)|]|]; by simplify_eq. }
    clear Hv. subst cb. destruct (jget "bbox" rep) as [| | | | |l|]; try done. exists l. split; [done|]. by case_bool_decide. }
  destruct Hbox as (box & -> & Hlen). destruct (map_error _ box) as [|coords] eqn:Ec; [done|].
  destruct (report_ts _ _) as [|ts] eqn:Et; [done|]. destruct (conf_int _ _) as [|conf] eqn:Ef; [done|].
  destruct (track_ids py_str md5_hex rep node_id cam) as [tk tid] eqn:Etk. intros [= <-].
  apply map_error_inr in Ec. constructor; cbn.
  - split; [rewrite length_fmap; apply Forall2_length in Ec; congruence|]. apply Forall_fmap. clear - Ec.
    induction Ec; constructor; [|done]. cbn. apply round5_bounds. by eapply clamp01_bounds.
  - by eapply conf_bounds.
  - by eapply report_ts_bounds.
  - pose proof (track_key_length rep node_id cam) as Htk. by rewrite Etk in Htk.
  - done.
  - eauto.
  - by eapply attribute_zone_ok.
  - done.
Qed.

Lemma collect_ok idx batch node_id em w rows rej rows' rej' :
  collect py_float py_str md5_hex idx batch node_id em w rows rej = inr (rows', rej') ->
  Forall (stored_ok w node_id) rows ->
  Forall (stored_ok w node_id) rows' /\ (length rows' + length rej' = length rows + length rej + length batch)%nat.
Proof.
  revert idx rows rej. induction batch as [|j batch IH]; intros idx rows rej; cbn; [intros [= -> ->] H; split; [done|lia]|].
  destruct j as [| | | | | |rep]; try done. destruct (validate rep node_id em w) as [|[r|]] eqn:Ev; [done| |].
  - intros H Hr. destruct (IH _ _ _ H Hr) as [H1 H2]. split; [done|]. rewrite length_app in H2. cbn in H2. lia.
  - destruct (build_row _ _ _ rep node_id w) as [|[d|]] eqn:Eb; [done| |]; intros H Hr.
    + destruct (IH _ _ _ H) as [H1 H2]; [apply Forall_app; split; [done|]; constructor; [|done]; by eapply build_row_ok|].
      split; [done|]. rewrite length_app in H2. cbn in H2. lia.
    + destruct (IH _ _ _ H Hr) as [H1 H2]. split; [done|]. rewrite length_app in H2. cbn in H2. lia.
Qed.
(** rows up to the event they are linked to *)
Definition erase (d : Detection) : Detection := with_event 0 d.

Lemma run_trigger_rows w d : erase <$> dw_dets (run_trigger off w d) = erase <$> dw_dets w.
Proof.
  unfold run_trigger. destruct (attrs_of d) as [attrs|]; [|done].
  pose proof (evaluate_winner off (trigger_candidates (dt_camera_id d) w) d attrs w) as Hw.
  assert (H : forall e w1, evaluate off (trigger_candidates (dt_camera_id d) w) d attrs w = Some (e, w1) -> dw_dets w1 = dw_dets w).
  { intros e w1 E. destruct (winner _ _ _ _) as [t|]; [|by injection (Hw _ E) as -> ->]. rewrite Hw in E.
    assert (R : forall k ttl x, dw_dets (remember k ttl x) = dw_dets x) by (intros; unfold remember; by destruct (r_setex _ _ _ _ _)).
    destruct (ingest_object _ _ _ _ _ _ _ _) as [[[ev|] w2]|] eqn:Ei; [| |done]; apply ingest_object_frame in Ei as [Ei _];
      cbv zeta in E; injection E as _ <-; [|done]. destruct (_ && _); by rewrite ?R. }
  destruct (evaluate _ _ _ _ _) as [[[ev|] w1]|]; [|by erewrite H|done].
  cbn. rewrite <- list_fmap_compose. rewrite <- (H _ _ eq_refl). apply list_fmap_ext. intros _ x _. cbn. by destruct (_ =? _).
Qed.

Lemma run_triggers_rows l w : erase <$> dw_dets (foldl (run_trigger off) w l) = erase <$> dw_dets w.
Proof. revert w. induction l as [|d l IH]; intros w; [done|]. cbn. by rewrite IH, run_trigger_rows. Qed.

Lemma smoke_alert_rows cam rows w : dw_dets (smoke_alert off cam rows w) = dw_dets w.
Proof.
  unfold smoke_alert. destruct (negb _); [done|]. destruct (max_on _ _); [|done]. unfold cooldown_ok.
  destruct (r_set_nx_ex _ _ _ _ _) as [[[] r]|]; [|done|];
    (destruct (ingest_object _ _ _ _ _ _ _ _) as [[e w2]|] eqn:E; [|done]; by apply ingest_object_frame in E as [-> _]).
Qed.

Lemma analytics_rows rows w : dw_dets (analytics off loc rows w) = dw_dets w.
Proof.
  unfold analytics. generalize (batch_cameras rows). intros cs. revert w. induction cs as [|c cs IH]; intros w; [done|].
  cbn [foldl]. rewrite IH, smoke_alert_rows. apply (process_batch_frame off loc c).
Qed.

Lemma mark_reports_rows rows w : dw_dets (mark_reports rows w) = dw_dets w.
Proof. unfold mark_reports. generalize (batch_cameras rows). intros cs. revert w. induction cs as [|c cs IH]; intros w; [done|]. cbn. by rewrite IH. Qed.

Lemma bulk_create_rows rows w ds w' :
  bulk_create rows w = (ds, w') -> dw_dets w' = dw_dets w ++ ds /\ Forall2 (fun r d => exists i, d = with_id i r) rows ds.
Proof.
  revert w ds. induction rows as [|r rows IH]; intros w ds; cbn; [intros [= <- <-]; by rewrite app_nil_r|].
  destruct (bulk_create rows _) as [ds' w1] eqn:E. intros [= <- <-]. apply IH in E as [E1 E2]. rewrite E1. cbn.
  rewrite <- app_assoc. split; [done|]. constructor; eauto.
Qed.

Lemma stored_ok_id w node i d : stored_ok w node d -> stored_ok w node (with_id i d).
Proof. by intros [? ? ? ? ? ? ? ?]. Qed.

(** C36: Ingesting a batch.  Either some report makes the code raise, and then nothing
    at all is stored, or the accepted reports become new rows after the existing ones
    (which change at most in the event they are linked to): each new row has a box of
    four coordinates within the frame, a confidence within 0 and 100, a time within a
    minute of the server's clock, belongs to a camera currently assigned to the
    reporting node, carries the highest-priority (then smallest) live include zone its
    foot point is in, or none if there is none, and the segment that covers its time.
    Accepted and rejected reports add up to the batch, cut at its maximum length. *)
Theorem stored_detections_well_formed node_id batch em w r w' :
  ingest_batch py_float py_str md5_hex off loc node_id batch em w = (r, w') ->
  match r with
  | inl _ => w' = w
  | inr res => exists rows, erase <$> dw_dets w' = erase <$> (dw_dets w ++ rows) /\ Forall (stored_ok w node_id) rows /\
      ir_accepted res = Z.of_nat (length rows) /\
      ir_accepted res + Z.of_nat (length (ir_rejected res)) = Z.min (Z.of_nat (length batch)) (Z.of_nat MAX_BATCH)
  end.
Proof.
  unfold ingest_batch. destruct (collect _ _ _ _ _ _ _ _ _ _) as [e|[rows rej]] eqn:Ec; [by intros [= <- <-]|].
  destruct (bulk_create rows w) as [ds w1] eqn:Eb. intros [= <- <-]. exists ds.
  apply collect_ok in Ec as [Hok Hlen]; [|constructor]. apply bulk_create_rows in Eb as [Hd Hf].
  assert (Hl : length rows = length ds) by by eapply Forall2_length. split_and!.
  - rewrite analytics_rows, run_triggers_rows, mark_reports_rows. by rewrite Hd.
  - clear - Hok Hf. induction Hf as [|r d rows ds [i ->] Hf IH]; [constructor|].
    apply Forall_cons in Hok as [H1 H2]. constructor; [by apply stored_ok_id|by apply IH].
  - done.
  - cbn [ir_accepted ir_rejected]. rewrite length_take in Hlen. cbn [length] in Hlen. lia.
Qed.

(** A node that was drained, disabled or deleted can store nothing more.  From the
    moment the registry has moved its cameras away, whatever it still sends is either
    rejected report by report or refused as a whole, and the world is unchanged. *)
Theorem lost_node_reports_nothing {J : JwtLib} node_id batch em w s x :
  sched_ok (dw_sched w) ->
  node_drain ai_reassign node_id (dw_sched w) = (inr tt, s) \/ node_delete ai_reassign node_id (dw_sched w) = (inr tt, s) \/
  node_update ai_reassign node_id None (Some false) (dw_sched w) = (inr x, s) ->
  let w1 := set_dw_sched s w in
  match ingest_batch py_float py_str md5_hex off loc node_id batch em w1 with
  | (inl _, w') => w' = w1
  | (inr res, w') => w' = w1 /\ ir_accepted res = 0
  end.
Proof.
  intros Hok Hop w1.
  assert (Hout : forall c a, s_rows (dw_sched w1) !! c = Some a -> a_node_id a <> node_id).
  { intros c a. eapply (taken_out_rows ai_reassign); [by left|].
    destruct Hop as [H|[H|H]]; eauto using node_drain_out, node_delete_out, node_update_out. }
  unfold ingest_batch. destruct (collect _ _ _ _ _ _ _ _ _ _) as [e|[rows rej]] eqn:Ec; [done|].
  apply collect_ok in Ec as [Hrows _]; [|constructor]. destruct rows as [|d rows]; [done|].
  apply Forall_cons in Hrows as [Hd _]. destruct (so_assigned _ _ _ Hd) as (a & Ha & Hn). by apply Hout in Ha.
Qed.
End Rows.

(** No report is lost on the way for size.  A detector node sends whole frames, in
    order, stopping at a thousand reports; while no frame has more than 1001 of them the
    server reads every batch to its end, and what was not sent stays queued. *)
Theorem detector_batches_are_read_whole (queue : list (list json)) :
  Forall (fun frame => length frame <= 1001)%nat queue ->
  let '(batch, rest) := take_batch [] queue in
  take MAX_BATCH batch = batch /\ batch ++ concat rest = concat queue /\ (rest = [] \/ 1000 <= length batch)%nat.
Proof.
  intros H. pose proof (take_batch_spec queue []) as Hs. destruct (take_batch [] queue) as [batch rest]. destruct Hs as (H1 & H2 & H3).
  specialize (H3 _ H). split; [|done]. apply take_ge. unfold MAX_BATCH. cbn [length] in H3. lia.
Qed.

(** ** Witnesses *)

Definition demo_report : json :=
  JObj [("camera_id", JInt 11); ("class_id", JInt 0); ("confidence", JFloat (9 # 10)); ("track_key", JStr "ab12");
        ("bbox", JList [JFloat (1 # 4); JFloat (1 # 4); JFloat (1 # 2); JInt 7])]%string.
Definition no_float (_ : string) : option Q := None.
Definition py_none (_ : json) : string := "ab12".
Definition demo_ingest : (py_error + IngestResult) * DetWorld :=
  ingest_batch no_float py_none (fun s => s) kst kst 1 [demo_report; JObj []; JObj [("camera_id", JInt 12)]] [] demo_vision.

Lemma stored_detections_well_formed_witness :
  exists rows, erase <$> dw_dets (snd demo_ingest) = erase <$> rows /\ length rows = 1%nat /\ Forall (stored_ok demo_vision 1) rows.
Proof.
  destruct (stored_detections_well_formed no_float py_none (fun s => s) kst kst 1 [demo_report; JObj []; JObj [("camera_id", JInt 12)]] []
    demo_vision (fst demo_ingest) (snd demo_ingest) eq_refl) as (rows & H1 & H2 & H3 & _).
  exists rows. split; [exact H1|]. split; [|exact H2]. apply Nat2Z.inj. by rewrite <- H3.
Defined.

#[local] Existing Instance toy_jwt.
Lemma lost_node_reports_nothing_witness :
  exists s, node_drain ai_reassign 1 (dw_sched demo_vision) = (inr tt, s) /\
    let w1 := set_dw_sched s demo_vision in
    match ingest_batch no_float py_none (fun s => s) kst kst 1 [demo_report] [] w1 with
    | (inl _, w') => w' = w1
    | (inr res, w') => w' = w1 /\ ir_accepted res = 0
    end.
Proof.
  destruct (node_drain ai_reassign 1 (dw_sched demo_vision)) as [[e|[]] s] eqn:E; [vm_compute in E; discriminate|].
  exists s. split; [done|].
  apply (lost_node_reports_nothing no_float py_none (fun s => s) kst kst 1 [demo_report] [] demo_vision s (demo_node 1 2 999) demo_sched_ok).
  by left.
Defined.

(** The first report fires the trigger; a later one fires it again only a cooldown later. *)
Definition demo_sighting (tk : string) : Detection :=
  {| dt_id := 0; dt_camera_id := 11; dt_ts := 864000 * SEC; dt_class_id := JInt 0; dt_label := "person"; dt_confidence := 90;
     dt_track_id := 1; dt_track_key := tk; dt_bbox := [0; 0; 1; 1]%Q; dt_zone_id := None; dt_segment_id := None;
     dt_event_id := None; dt_attrs := JNull; dt_node_id := 1 |}.
Definition demo_trigger : ObjectTrigger := default (Build_ObjectTrigger 0 None [] None 0 0 false 0 0 false None false None) (head (dw_triggers demo_vision)).

Lemma one_promotion_per_cooldown_witness :
  fired_by kst (demo_sighting "a") (at_time (864000 * SEC) demo_vision) = Some demo_trigger /\
  fired_by kst (demo_sighting "b") (at_time (864031 * SEC) (step kst demo_vision (864000 * SEC, demo_sighting "a"))) = Some demo_trigger /\
  864000 * SEC + Z.max 1 30 * SEC <= 864031 * SEC.
Proof.
  split; [vm_compute; reflexivity|]. split; [vm_compute; reflexivity|].
  apply (one_promotion_per_cooldown kst demo_vision (864000 * SEC) (demo_sighting "a") [] (864031 * SEC) (demo_sighting "b") demo_trigger demo_trigger);
    try reflexivity; try (vm_compute; reflexivity).
  - apply (bool_decide_unpack _). by vm_compute.
  - intros p Hp. by apply elem_of_nil in Hp.
Defined.

Lemma detector_batches_are_read_whole_witness :
  let '(batch, rest) := take_batch [] (replicate 2 (replicate 999 JNull) ++ [[JNull]]) in
  length batch = 1998%nat /\ take MAX_BATCH batch = batch /\ batch ++ concat rest = concat (replicate 2 (replicate 999 JNull) ++ [[JNull]]) /\
  (rest = [] \/ 1000 <= length batch)%nat.
Proof.
  pose proof (detector_batches_are_read_whole (replicate 2 (replicate 999 JNull) ++ [[JNull]])) as H.
  destruct (take_batch [] (replicate 2 (replicate 999 JNull) ++ [[JNull]])) as [batch rest] eqn:E. split.
  - apply (f_equal (fun p => length (fst p))) in E. cbn [fst] in E. rewrite <- E. by vm_compute.
  - apply H. apply (bool_decide_unpack _). by vm_compute.
Defined.
