(* ===== verification/Faces.v ===== *)
(** * Faces and sounds

    src/server/service/face_ingest.py, face_match.py, cosine of semantic_embed.py,
    controller/face.py (identities and enrolment), model/face_identity.py and
    face_observation.py; service/audio_ingest.py.

    Vectors are lists of rationals: [float] of a text is a parameter, sums and products are
    exact, infinities and NaN are left out.  Boxes, notes and external references are not
    kept. *)

From Stdlib Require Import QArith.
From S2P Require Import Prelude PyStr Redis Permission Token Storage EventPipeline Json Scheduler Vision Detections.
Local Open Scope Z_scope.
Local Open Scope list_scope.

Record FaceIdentity := {
  fi_id : Z;
  fi_name : string;
  fi_consent : bool;
  fi_consent_at : option Z;
  fi_retention_days : option Z;
  fi_enabled : bool;
  fi_backend : option string;
  fi_dim : option nat;
  fi_embeddings : option (list (list Q));
  fi_deleted_at : option Z
}.

Record FaceObservation := {
  fo_id : Z;
  fo_camera_id : Z;
  fo_ts : Z;
  fo_backend : string;
  fo_embedding : list Q;              (* dim is its length *)
  fo_quality : option Z;
  fo_identity : option (Z * string);  (* identity_id, identity_name *)
  fo_score : option Z;
  fo_node_id : Z
}.

Record FaceWorld := { fw_det : DetWorld; fw_idents : list FaceIdentity; fw_obs : list FaceObservation; fw_next : Z }.
(** [None]: an exception the controllers do not know *)
Definition FM (A : Type) : Type := M FaceWorld (option exn) A.
Definition fw_now (w : FaceWorld) : Z := dw_now (fw_det w).
Definition set_idents (l : list FaceIdentity) (next : Z) (w : FaceWorld) : FaceWorld :=
  {| fw_det := fw_det w; fw_idents := l; fw_obs := fw_obs w; fw_next := next |}.
Definition put_ident (i : FaceIdentity) (w : FaceWorld) : FaceWorld :=
  set_idents ((fun x => if fi_id x =? fi_id i then i else x) <$> fw_idents w) (fw_next w) w.

(** ** Identities (model/face_identity.py) *)

Definition ident_get (id : Z) (w : FaceWorld) : option FaceIdentity := List.find (fun i => (fi_id i =? id) && bool_decide (fi_deleted_at i = None)) (fw_idents w).
Definition match_pool (w : FaceWorld) : list FaceIdentity :=
  List.filter (fun i => bool_decide (fi_deleted_at i = None) && fi_enabled i && fi_consent i && bool_decide (is_Some (fi_embeddings i))) (fw_idents w).
Definition new_ident (id : Z) (name : string) (consent : bool) (retention_days : option Z) (now : Z) : FaceIdentity :=
  {| fi_id := id; fi_name := name; fi_consent := consent; fi_consent_at := if consent then Some now else None; fi_retention_days := retention_days;
     fi_enabled := true; fi_backend := None; fi_dim := None; fi_embeddings := None; fi_deleted_at := None |}.
(** [modify]: the fields given *)
Record FacePatch := { fp_name : option string; fp_retention_days : option Z; fp_enabled : option bool; fp_consent : option bool }.
Definition ident_modify (p : FacePatch) (now : Z) (i : FaceIdentity) : FaceIdentity :=
  {| fi_id := fi_id i; fi_name := default (fi_name i) (fp_name p); fi_consent := default (fi_consent i) (fp_consent p);
     fi_consent_at := match fp_consent p with Some true => Some now | Some false => None | None => fi_consent_at i end;
     fi_retention_days := match fp_retention_days p with Some d => Some d | None => fi_retention_days i end;
     fi_enabled := default (fi_enabled i) (fp_enabled p); fi_backend := fi_backend i; fi_dim := fi_dim i; fi_embeddings := fi_embeddings i;
     fi_deleted_at := fi_deleted_at i |}.
(** [add_embedding]: [None] is its ValueError *)
Definition add_embedding (v : list Q) (backend : string) (dim : nat) (i : FaceIdentity) : option FaceIdentity :=
  if truthy_str (fi_backend i) && negb (bool_decide (fi_backend i = Some backend) && bool_decide (fi_dim i = Some dim)) then None else
  Some {| fi_id := fi_id i; fi_name := fi_name i; fi_consent := fi_consent i; fi_consent_at := fi_consent_at i; fi_retention_days := fi_retention_days i;
          fi_enabled := fi_enabled i; fi_backend := Some backend; fi_dim := Some dim; fi_embeddings := Some (default [] (fi_embeddings i) ++ [v]);
          fi_deleted_at := fi_deleted_at i |}.
Definition ident_soft_delete (now : Z) (i : FaceIdentity) : FaceIdentity :=
  {| fi_id := fi_id i; fi_name := fi_name i; fi_consent := fi_consent i; fi_consent_at := fi_consent_at i; fi_retention_days := fi_retention_days i;
     fi_enabled := fi_enabled i; fi_backend := fi_backend i; fi_dim := fi_dim i; fi_embeddings := None; fi_deleted_at := Some now |}.

(** ** Matching (face_match.py) *)

Definition MATCH_THRESHOLD : Q := 11 # 20.
Fixpoint dot (a b : list Q) : Q := match a, b with x :: a', y :: b' => (x * y + dot a' b')%Q | _, _ => 0%Q end.
Definition cosine (a b : list Q) : Q :=
  if bool_decide (length a = 0%nat) || bool_decide (length b = 0%nat) || negb (bool_decide (length a = length b)) then 0%Q else dot a b.

(** the references that can be compared with a vector, with their identity, in order *)
Definition comparable (v : list Q) (backend : string) (pool : list FaceIdentity) : list (FaceIdentity * list Q) :=
  concat ((fun i => if bool_decide (fi_backend i = Some backend) && bool_decide (fi_dim i = Some (length v))
                    then (fun ref => (i, ref)) <$> List.filter (fun ref => bool_decide (length ref = length v)) (default [] (fi_embeddings i)) else []) <$> pool).
(** the loops: strictly better than the best so far *)
Fixpoint best_match (v : list Q) (best : option FaceIdentity * Q) (l : list (FaceIdentity * list Q)) : option FaceIdentity * Q :=
  match l with
  | [] => best
  | (i, ref) :: r => let s := cosine v ref in best_match v (if qlt (snd best) s then (Some i, s) else best) r
  end.
Definition score_pct (q : Q) : Z := let p := (q * 100)%Q in Z.max 0 (Z.min 100 (Z.quot (Qnum p) (Zpos (Qden p)))).
Definition face_match (v : list Q) (backend : string) (w : FaceWorld) : option FaceIdentity * Z :=
  match v with
  | [] => (None, 0)
  | _ =>
      match best_match v (None, 0%Q) (comparable v backend (match_pool w)) with
      | (Some i, s) => if qlt s MATCH_THRESHOLD then (None, 0) else (Some i, score_pct s)
      | (None, _) => (None, 0)
      end
  end.

Section Faces.
Context (py_float : string -> option Q) (py_str : json -> string) (utc_offset : Z -> Z).

(** [[float(x) for x in vec]] *)
(** why it raised: a text that is no number (ValueError), what is no number at all (TypeError), a number too large (OverflowError) *)
Inductive vector := VecOk (v : list Q) | VecText | VecType | VecOverflow.
Fixpoint floats (l : list json) : vector :=
  match l with
  | [] => VecOk []
  | x :: r =>
      match to_float py_float x with
      | FloatOk q => match floats r with VecOk v => VecOk (q :: v) | e => e end
      | FloatBad => match x with JStr _ => VecText | _ => VecType end
      | FloatOverflow => VecOverflow
      end
  end.

(** ** The controller *)

Definition create_identity (flag : bool) (name : option string) (consent : bool) (retention_days : option Z) : FM FaceIdentity :=
  if negb flag then raise (Some NoPermissionException) else
  let name := strip (or_str name "") in
  if bool_decide (name = EmptyString) then raise (Some (InvalidParameterException "name required")) else
  fun w => let i := new_ident (fw_next w) (stake 120 name) consent retention_days (fw_now w) in (inr i, set_idents (fw_idents w ++ [i]) (fw_next w + 1) w).

Definition with_identity (flag : bool) (id : Z) (k : FaceIdentity -> FM FaceIdentity) : FM FaceIdentity :=
  if negb flag then raise (Some NoPermissionException) else
  let! o := gets (ident_get id) in
  match o with None => raise (Some RowNotFoundException) | Some i => k i end.
Definition save_ident (f : Z -> FaceIdentity -> FaceIdentity) (i : FaceIdentity) : FM FaceIdentity := fun w => let i' := f (fw_now w) i in (inr i', put_ident i' w).
Definition update_identity (flag : bool) (id : Z) (p : FacePatch) : FM FaceIdentity := with_identity flag id (save_ident (ident_modify p)).
Definition delete_identity (flag : bool) (id : Z) : FM FaceIdentity := with_identity flag id (save_ident ident_soft_delete).

(** what a reference is taken from *)
Inductive EnrolData :=
| FromObservation (obs_id : option Z)             (* safe_int of it *)
| FromVector (embedding : json) (backend : option string).
Definition add_reference (i : FaceIdentity) (v : list Q) (backend : string) : FM FaceIdentity :=
  match add_embedding v backend (length v) i with
  | None => raise (Some (InvalidParameterException "embedding backend/dim mismatch"))
  | Some i' => modify (put_ident i') ;;; ret i'
  end.
Definition enroll (flag : bool) (id : Z) (data : EnrolData) : FM FaceIdentity :=
  with_identity flag id (fun i =>
    if negb (fi_consent i) then raise (Some (InvalidParameterException "consent required before enrollment")) else
    match data with
    | FromObservation oid =>
        let! obs := gets (fun w => List.find (fun o => bool_decide (Some (fo_id o) = oid)) (fw_obs w)) in
        match obs with None => raise (Some RowNotFoundException) | Some o => add_reference i (fo_embedding o) (fo_backend o) end
    | FromVector (JList (x :: r)) (Some backend) =>
        if bool_decide (backend = EmptyString) then raise (Some (InvalidParameterException "observation_id or (embedding + backend) required")) else
        match floats (x :: r) with
        | VecOk v => add_reference i v backend
        | VecText => raise (Some (InvalidParameterException "could not convert string to float"))
        | VecType | VecOverflow => raise None
        end
    | FromVector _ _ => raise (Some (InvalidParameterException "observation_id or (embedding + backend) required"))
    end).

(** ** Ingest *)

Definition FACE_MAX_BATCH : nat := 200.

(** the checks of a report's camera that all ingest modules make: [inr None] it is the node's *)
Definition camera_reason (rep : list (string * json)) (node_id : Z) (w : DetWorld) : option reject_reason :=
  let cam_j := jget "camera_id" rep in
  if negb (truthy cam_j) then Some "missing_camera"%string else
  match to_int cam_j with
  | None => Some "bad_camera_id"%string
  | Some cam =>
      match s_rows (dw_sched w) !! cam with
      | None => Some "not_assigned"%string
      | Some a => if negb (a_node_id a =? node_id) then Some "not_assigned"%string else None
      end
  end.

Definition face_validate (rep : list (string * json)) (node_id : Z) (w : DetWorld) : py_error + option reject_reason :=
  match camera_reason rep node_id w with
  | Some r => inr (Some r)
  | None =>
      match jget "embedding" rep with
      | JList (x :: r) =>
          match floats (x :: r) with
          | VecOk _ => if negb (truthy (jget "backend" rep)) then inr (Some "missing_backend"%string) else inr None
          | VecText | VecType => inr (Some "bad_embedding"%string)
          | VecOverflow => inl OverflowError
          end
      | _ => inr (Some "missing_embedding"%string)
      end
  end.

(** [_clamp], [_report_ts] *)
Definition clamp_quality (v : json) : option Z := match v with JNull => None | _ => (fun z => Z.max 0 (Z.min 100 z)) <$> to_int v end.
Definition face_ts (v : json) (now : Z) : Z := match v with JNull => now | _ => match to_int v with Some ms => default now (from_ms ms) | None => now end end.

Definition face_row (rep : list (string * json)) (node_id now : Z) : FaceObservation :=
  {| fo_id := 0; fo_camera_id := default 0 (to_int (jget "camera_id" rep)); fo_ts := face_ts (jget "ts" rep) now;
     fo_backend := stake 16 (match jget "backend" rep with JStr s => s | v => py_str v end);
     fo_embedding := match jget "embedding" rep with JList l => match floats l with VecOk v => v | _ => [] end | _ => [] end;
     fo_quality := clamp_quality (jget "quality" rep); fo_identity := None; fo_score := None; fo_node_id := node_id |}.
Definition with_match (m : FaceIdentity * Z) (o : FaceObservation) : FaceObservation :=
  {| fo_id := fo_id o; fo_camera_id := fo_camera_id o; fo_ts := fo_ts o; fo_backend := fo_backend o; fo_embedding := fo_embedding o; fo_quality := fo_quality o;
     fo_identity := Some (fi_id (fst m), fi_name (fst m)); fo_score := Some (snd m); fo_node_id := fo_node_id o |}.
Definition with_obs_id (id : Z) (o : FaceObservation) : FaceObservation :=
  {| fo_id := id; fo_camera_id := fo_camera_id o; fo_ts := fo_ts o; fo_backend := fo_backend o; fo_embedding := fo_embedding o; fo_quality := fo_quality o;
     fo_identity := fo_identity o; fo_score := fo_score o; fo_node_id := fo_node_id o |}.

Definition feature_on (name : string) (camera_id : Z) (w : DetWorld) : bool := camera_live camera_id w && bool_decide (name ∈ dw_features w camera_id).
Definition matched_row (o : FaceObservation) (w : FaceWorld) : FaceObservation :=
  if feature_on "face" (fo_camera_id o) (fw_det w) then
    match face_match (fo_embedding o) (fo_backend o) w with (Some i, s) => with_match (i, s) o | (None, _) => o end
  else o.

Fixpoint face_collect (idx : Z) (batch : list json) (node_id : Z) (w : FaceWorld) : py_error + (list FaceObservation * list (Z * reject_reason)) :=
  match batch with
  | [] => inr ([], [])
  | JObj rep :: r =>
      match face_validate rep node_id (fw_det w) with
      | inl e => inl e
      | inr (Some reason) => match face_collect (idx + 1) r node_id w with inl e => inl e | inr (rows, rej) => inr (rows, (idx, reason) :: rej) end
      | inr None =>
          let row := matched_row (face_row rep node_id (fw_now w)) w in
          match face_collect (idx + 1) r node_id w with inl e => inl e | inr (rows, rej) => inr (row :: rows, rej) end
      end
  | _ :: _ => inl AttributeError
  end.

(** [_raise_event] *)
Definition face_event (o : FaceObservation) : DetWorld -> option (option Event * DetWorld) :=
  ingest_object utc_offset (fo_camera_id o) "face" (Some "known"%string) (default 0 (fo_score o)) "face"
    (Some (match fo_identity o with Some (i, _) => if i =? 0 then EmptyString else pretty.pretty i | None => EmptyString end)).
Definition known (o : FaceObservation) : bool := bool_decide (is_Some (fo_identity o)).
Fixpoint number_obs (id : Z) (l : list FaceObservation) : list FaceObservation := match l with [] => [] | o :: r => with_obs_id id o :: number_obs (id + 1) r end.

Record FaceResult := { fr_accepted : Z; fr_rejected : list (Z * reject_reason); fr_matched : Z }.
Definition face_ingest (node_id : Z) (batch : list json) (w : FaceWorld) : (py_error + FaceResult) * FaceWorld :=
  match face_collect 0 (take FACE_MAX_BATCH batch) node_id w with
  | inl e => (inl e, w)
  | inr (rows, rejected) =>
      let obs := number_obs (fw_next w) rows in
      let '(n, d) := foldl (raise_one face_event) (0, fw_det w) (List.filter known rows) in
      (inr {| fr_accepted := Z.of_nat (length rows); fr_rejected := rejected; fr_matched := n |},
       {| fw_det := d; fw_idents := fw_idents w; fw_obs := fw_obs w ++ obs; fw_next := fw_next w + Z.of_nat (length rows) |})
  end.
End Faces.

(** ** Laws of matching *)

Lemma best_match_spec v l b : let '(o, s) := best_match v b l in
  (snd b <= s)%Q /\ ((o, s) = b \/ exists i ref, (i, ref) ∈ l /\ o = Some i /\ s = cosine v ref) /\ (forall p, p ∈ l -> (cosine v (snd p) <= s)%Q).
Proof.
  revert b. induction l as [|[i ref] l IH]; intros [bi bs]; cbn [best_match snd].
  - split; [apply Qle_refl|]. split; [by left|by intros p ?%elem_of_nil].
  - destruct (qlt bs (cosine v ref)) eqn:E; [apply qlt_spec in E|apply qlt_false in E];
      match goal with |- context [best_match v ?x l] => specialize (IH x); destruct (best_match v x l) as [o s] end; destruct IH as (H1 & H2 & H3); cbn [snd] in H1.
    + split; [by eapply Qle_trans; [apply Qlt_le_weak|]|]. split.
      * right. destruct H2 as [[= -> ->]|(i' & ref' & Hin & -> & ->)]; [exists i, ref|exists i', ref']; (split; [by left || by right|done]).
      * intros p [->|Hp]%elem_of_cons; [done|by apply H3].
    + split; [done|]. split.
      * destruct H2 as [?|(i' & ref' & Hin & -> & ->)]; [by left|right]. exists i', ref'. split; [by right|done].
      * intros p [->|Hp]%elem_of_cons; [by eapply Qle_trans|by apply H3].
Qed.

Definition matchable (i : FaceIdentity) (w : FaceWorld) : Prop :=
  i ∈ fw_idents w /\ fi_deleted_at i = None /\ fi_enabled i = true /\ fi_consent i = true.
Lemma comparable_spec v backend w i ref : (i, ref) ∈ comparable v backend (match_pool w) <->
  matchable i w /\ fi_backend i = Some backend /\ fi_dim i = Some (length v) /\ (exists refs, fi_embeddings i = Some refs /\ ref ∈ refs) /\ length ref = length v.
Proof.
  unfold comparable, match_pool, matchable. rewrite list_elem_of_In, in_concat. split.
  - intros (l & Hl & Hin). apply list_elem_of_In in Hl. apply list_elem_of_In in Hin. apply list_elem_of_fmap in Hl as (x & -> & Hx).
    rewrite elem_of_filter_In, !andb_true_iff, !bool_decide_eq_true in Hx. destruct (_ && _) eqn:Ed in Hin; [|by apply elem_of_nil in Hin].
    rewrite andb_true_iff, !bool_decide_eq_true in Ed. apply list_elem_of_fmap in Hin as (ref' & [= -> ->] & Hr). apply elem_of_filter_In in Hr as [Hr Hlen].
    rewrite bool_decide_eq_true in Hlen. destruct Hx as (Hxin & ((Hdel & Hen) & Hco) & [refs Hrefs]). rewrite Hrefs in Hr. split_and!; try tauto. by exists refs.
  - intros ((Hin & Hd & He & Hc) & Hb & Hdim & (refs & Hrefs & Hr) & Hlen).
    eexists. split; [apply list_elem_of_In, list_elem_of_fmap; exists i; split; [reflexivity|]|].
    + rewrite elem_of_filter_In, !andb_true_iff, !bool_decide_eq_true. by rewrite Hrefs.
    + rewrite !bool_decide_eq_true_2 by done. apply list_elem_of_In, list_elem_of_fmap. exists ref. split; [done|]. rewrite Hrefs. apply elem_of_filter_In.
      by rewrite bool_decide_eq_true.
Qed.

(** what [face_match] answers *)
Lemma face_match_spec v backend w : v <> [] ->
  match face_match v backend w with
  | (Some i, pct) => exists ref, (i, ref) ∈ comparable v backend (match_pool w) /\ (MATCH_THRESHOLD <= cosine v ref)%Q /\ pct = score_pct (cosine v ref) /\
      forall p, p ∈ comparable v backend (match_pool w) -> (cosine v (snd p) <= cosine v ref)%Q
  | (None, _) => forall p, p ∈ comparable v backend (match_pool w) -> (cosine v (snd p) < MATCH_THRESHOLD)%Q
  end.
Proof.
  intros Hv. unfold face_match. destruct v as [|x v]; [done|]. set (u := x :: v) in *. clearbody u.
  pose proof (best_match_spec u (comparable u backend (match_pool w)) (None, 0%Q)) as H. destruct (best_match _ _ _) as [[i|] s]; destruct H as (H1 & H2 & H3).
  - destruct H2 as [?|(i' & ref & Hin & [= <-] & ->)]; [done|]. destruct (qlt _ _) eqn:E; [apply qlt_spec in E|apply qlt_false in E].
    + intros p Hp. eapply Qle_lt_trans; [by apply H3|done].
    + by exists ref.
  - destruct H2 as [[= ->]|(i' & ref & _ & ? & _)]; [|done]. intros p Hp. eapply Qle_lt_trans; [by apply H3|]. reflexivity.
Qed.

(** ** What a batch leaves *)

Section Batch.
Context (py_float : string -> option Q) (py_str : json -> string) (utc_offset : Z -> Z).
Abbreviation face_ingest := (face_ingest py_float py_str utc_offset).

(** a stored observation: of a camera of the node, and named after the identity that is nearest, if one is near enough and may be matched *)
Record obs_ok (node_id : Z) (w : FaceWorld) (o : FaceObservation) : Prop := {
  oo_assigned : exists a, s_rows (dw_sched (fw_det w)) !! fo_camera_id o = Some a /\ a_node_id a = node_id;
  oo_vector : fo_embedding o <> [];
  oo_identity :
    match fo_identity o with
    | Some (i, n) => feature_on "face" (fo_camera_id o) (fw_det w) = true /\ exists ident ref, fi_id ident = i /\ fi_name ident = n /\
        matchable ident w /\ (ident, ref) ∈ comparable (fo_embedding o) (fo_backend o) (match_pool w) /\ (MATCH_THRESHOLD <= cosine (fo_embedding o) ref)%Q /\
        fo_score o = Some (score_pct (cosine (fo_embedding o) ref)) /\
        forall p, p ∈ comparable (fo_embedding o) (fo_backend o) (match_pool w) -> (cosine (fo_embedding o) (snd p) <= cosine (fo_embedding o) ref)%Q
    | None => feature_on "face" (fo_camera_id o) (fw_det w) = true ->
        forall p, p ∈ comparable (fo_embedding o) (fo_backend o) (match_pool w) -> (cosine (fo_embedding o) (snd p) < MATCH_THRESHOLD)%Q
    end
}.

Lemma floats_length l v : floats py_float l = VecOk v -> length v = length l.
Proof.
  revert v. induction l as [|x l IH]; intros v; cbn [floats]; [by intros [= <-]|].
  destruct (to_float py_float x); [|by destruct x|done]. destruct (floats py_float l) as [u| | |]; try done. intros [= <-]. cbn. by rewrite (IH u eq_refl).
Qed.

Lemma camera_ours rep node_id w : camera_reason rep node_id w = None ->
  exists a, s_rows (dw_sched w) !! default 0 (to_int (jget "camera_id" rep)) = Some a /\ a_node_id a = node_id.
Proof.
  unfold camera_reason. destruct (truthy _); [|done]. cbn [negb]. destruct (to_int _) as [cam|]; [|done]. cbn [default from_option id].
  destruct (s_rows _ !! cam) as [a|]; [|done]. destruct (a_node_id a =? node_id) eqn:E; [|done]. apply Z.eqb_eq in E. by exists a.
Qed.

Lemma face_row_ok rep node_id w : face_validate py_float rep node_id (fw_det w) = inr None ->
  obs_ok node_id w (matched_row (face_row py_float py_str rep node_id (fw_now w)) w).
Proof.
  unfold face_validate. destruct (camera_reason _ _ _) eqn:Ec; [done|]. apply camera_ours in Ec as (a & Ha & Hn).
  destruct (jget "embedding" rep) as [| | | | |[|x l]|] eqn:Ej; try done. destruct (floats py_float (x :: l)) as [v| | |] eqn:Ev; try done. intros _.
  assert (Hv : v <> []) by (intros ->; by apply floats_length in Ev).
  set (row := face_row py_float py_str rep node_id (fw_now w)).
  assert (Hrow : fo_camera_id row = default 0 (to_int (jget "camera_id" rep)) /\ fo_embedding row = v /\ fo_identity row = None).
  { unfold row, face_row. cbn [fo_camera_id fo_embedding fo_identity]. by rewrite Ej, Ev. }
  clearbody row. destruct Hrow as (Hcam & Hemb & Hid). unfold matched_row. destruct (feature_on _ _ _) eqn:Ef.
  - pose proof (face_match_spec (fo_embedding row) (fo_backend row) w ltac:(by rewrite Hemb)) as Hm. destruct (face_match _ _ _) as [[i|] pct].
    + destruct Hm as (ref & Hc & Ht & -> & Hmax). split; cbn [with_match fo_camera_id fo_embedding fo_identity fo_backend fo_score fst snd]; [rewrite Hcam; by exists a|by rewrite Hemb|].
      split; [done|]. exists i, ref. apply comparable_spec in Hc as Hc'. destruct Hc' as (Hmat & _). done.
    + split; [rewrite Hcam; by exists a|by rewrite Hemb|]. by rewrite Hid.
  - split; [rewrite Hcam; by exists a|by rewrite Hemb|]. rewrite Hid. by rewrite Ef.
Qed.

Lemma obs_ok_id node_id w i o : obs_ok node_id w o -> obs_ok node_id w (with_obs_id i o).
Proof. intros []. by split. Qed.
Lemma number_obs_Forall P id l : (forall i o, P o -> P (with_obs_id i o)) -> Forall P l -> Forall P (number_obs id l).
Proof. intros HP H. revert id. induction H as [|o l Ho Hl IH]; intros id; constructor; auto. Qed.
Lemma length_number_obs id l : length (number_obs id l) = length l.
Proof. revert id. induction l; intros id; cbn; auto. Qed.

Lemma face_collected idx batch node_id w rows rej : face_collect py_float py_str idx batch node_id w = inr (rows, rej) ->
  Forall (obs_ok node_id w) rows /\ (length rows + length rej = length batch)%nat.
Proof.
  revert idx rows rej. induction batch as [|j batch IH]; intros idx rows rej H; [by injection H as <- <-|].
  cbn [face_collect] in H. destruct j as [| | | | | |rep]; try done. destruct (face_validate _ _ _ _) as [|[reason|]] eqn:Ev; [done| |];
    destruct (face_collect _ _ _ _ _ _) as [|[rows1 rej1]] eqn:Er; try done; injection H as <- <-; destruct (IH _ _ _ Er) as [Hf Hlen].
  - split; [done|]. cbn. lia.
  - split; [|cbn; lia]. constructor; [by apply face_row_ok|done].
Qed.

Lemma known_obs id rows : Forall2 (fun o o' => face_event utc_offset o = face_event utc_offset o') (List.filter known rows) (List.filter known (number_obs id rows)).
Proof.
  revert id. induction rows as [|o rows IH]; intros id; [constructor|]. cbn [number_obs List.filter]. change (known (with_obs_id id o)) with (known o).
  destruct (known o); [|apply IH]. by constructor.
Qed.

Lemma face_ingest_leaves node_id batch w res w' : face_ingest node_id batch w = (inr res, w') ->
  exists rows, Forall (obs_ok node_id w) rows /\ (length rows + length (fr_rejected res) = Nat.min FACE_MAX_BATCH (length batch))%nat /\
    w' = {| fw_det := fw_det w'; fw_idents := fw_idents w; fw_obs := fw_obs w ++ number_obs (fw_next w) rows; fw_next := fw_next w + Z.of_nat (length rows) |} /\
    fr_accepted res = Z.of_nat (length rows) /\ raised (face_event utc_offset) (List.filter known rows) (fr_matched res) (fw_det w) (fw_det w').
Proof.
  unfold Faces.face_ingest. destruct (face_collect _ _ _ _ _ _) as [|[rows rejected]] eqn:E; [done|].
  destruct (face_collected _ _ _ _ _ _ E) as [Hok Hlen]. rewrite length_take in Hlen. destruct (foldl _ _ _) as [n d] eqn:Ef. intros [= <- <-].
  exists rows. cbn [fw_det fr_accepted fr_rejected fr_matched]. split_and!; try done. rewrite <- (Z.sub_0_r n). by apply raised_fold.
Qed.
Lemma face_ingest_raises node_id batch w e w' : face_ingest node_id batch w = (inl e, w') -> w' = w.
Proof. unfold Faces.face_ingest. destruct (face_collect _ _ _ _ _ _) as [|[rows rejected]]; [by intros [= _ <-]|]. by destruct (foldl _ _ _). Qed.

(** C33: What a node's batch of faces leaves.  A batch that is answered stores one observation
    per accepted report.  Each is of a camera assigned to the node; where faces are on, it
    is named after the enabled, undeleted identity with consent whose reference is nearest,
    when that is at least 0.55, and after nobody when no such reference is that near; where
    they are off it is unnamed.  Events are asked for exactly for the named ones, in order.
    A batch that ends in an exception stores nothing. *)
Theorem faces_match_consenting_only node_id batch w res w' : face_ingest node_id batch w = (res, w') ->
  match res with
  | inl _ => w' = w
  | inr res =>
      exists obs, fw_obs w' = fw_obs w ++ obs /\ Forall (obs_ok node_id w) obs /\ fw_idents w' = fw_idents w /\
      fr_accepted res = Z.of_nat (length obs) /\ (length obs + length (fr_rejected res) = Nat.min FACE_MAX_BATCH (length batch))%nat /\
      raised (face_event utc_offset) (List.filter known obs) (fr_matched res) (fw_det w) (fw_det w')
  end.
Proof.
  destruct res as [e|res]; [apply face_ingest_raises|]. intros (rows & Hok & Hlen & -> & Hacc & Hr)%face_ingest_leaves.
  exists (number_obs (fw_next w) rows). rewrite length_number_obs. split_and!; try done.
  - apply number_obs_Forall; [intros; by apply obs_ok_id|done].
  - eapply raised_Forall2; [by apply known_obs|done].
Qed.

(** ** The right to erasure *)

Inductive FaceOp :=
| FCreate (flag : bool) (name : option string) (consent : bool) (days : option Z)
| FUpdate (flag : bool) (id : Z) (p : FacePatch)
| FDelete (flag : bool) (id : Z)
| FEnroll (flag : bool) (id : Z) (data : EnrolData)
| FIngest (node_id : Z) (batch : list json)
| FElse (d : DetWorld).
Definition face_step (w : FaceWorld) (o : FaceOp) : FaceWorld :=
  match o with
  | FCreate flag name consent days => snd (create_identity flag name consent days w)
  | FUpdate flag id p => snd (update_identity flag id p w)
  | FDelete flag id => snd (delete_identity flag id w)
  | FEnroll flag id data => snd (enroll py_float flag id data w)
  | FIngest node_id batch => snd (face_ingest node_id batch w)
  | FElse d => {| fw_det := d; fw_idents := fw_idents w; fw_obs := fw_obs w; fw_next := fw_next w |}
  end.

(** the identity is deleted, holds no reference, and its number is not given out again *)
Definition erased (id : Z) (w : FaceWorld) : Prop :=
  id < fw_next w /\ forall i, i ∈ fw_idents w -> fi_id i = id -> fi_deleted_at i <> None /\ fi_embeddings i = None.
(** [w'] has only observations added, none named after [id] *)
Definition unnamed_since (id : Z) (w w' : FaceWorld) : Prop :=
  exists obs, fw_obs w' = fw_obs w ++ obs /\ forall o, o ∈ obs -> fst <$> fo_identity o <> Some id.

Lemma unnamed_same id w w' : fw_obs w' = fw_obs w -> unnamed_since id w w'.
Proof. intros E. exists []. split; [by rewrite app_nil_r|by intros ? ?%elem_of_nil]. Qed.
Lemma unnamed_trans id w1 w2 w3 : unnamed_since id w1 w2 -> unnamed_since id w2 w3 -> unnamed_since id w1 w3.
Proof.
  intros (o1 & E1 & H1) (o2 & E2 & H2). exists (o1 ++ o2). split; [by rewrite E2, E1, app_assoc|]. intros o [Ho|Ho]%elem_of_app; auto.
Qed.

Lemma ident_get_live id w i : ident_get id w = Some i -> i ∈ fw_idents w /\ fi_id i = id /\ fi_deleted_at i = None.
Proof. unfold ident_get. intros H. apply find_some in H as [Hin%list_elem_of_In [He%Z.eqb_eq Hd%bool_decide_eq_true]%andb_prop]. done. Qed.

(** rewriting the row of a live identity leaves an erased one alone *)
Lemma erased_put id w i i' : erased id w -> ident_get (fi_id i) w = Some i -> fi_id i' = fi_id i -> erased id (put_ident i' w).
Proof.
  intros [Hn He] Hg Hid. apply ident_get_live in Hg as (Hin & _ & Hd). split; [done|]. intros x Hx Hxi.
  apply list_elem_of_fmap in Hx as (y & -> & Hy). destruct (Z.eqb_spec (fi_id y) (fi_id i')) as [E|E]; [|by apply He].
  exfalso. destruct (He i Hin) as [H _]; [congruence|]. by rewrite Hd in H.
Qed.

Lemma with_identity_step flag id0 id k w : erased id w ->
  (forall i, ident_get id0 w = Some i -> erased id (snd (k i w)) /\ unnamed_since id w (snd (k i w))) ->
  erased id (snd (with_identity flag id0 k w)) /\ unnamed_since id w (snd (with_identity flag id0 k w)).
Proof.
  intros He Hk. unfold with_identity. destruct flag; [|split; [done|by apply unnamed_same]]. cbn [negb]. unfold bind, gets.
  destruct (ident_get id0 w) as [i|]; [by apply Hk|split; [done|by apply unnamed_same]].
Qed.

Lemma ident_get_self id w i : ident_get id w = Some i -> ident_get (fi_id i) w = Some i.
Proof. intros H. apply ident_get_live in H as Hl. destruct Hl as (_ & -> & _). done. Qed.

Lemma save_step id f i w : erased id w -> ident_get (fi_id i) w = Some i -> (forall now, fi_id (f now i) = fi_id i) ->
  erased id (snd (save_ident f i w)) /\ unnamed_since id w (snd (save_ident f i w)).
Proof. intros He Hg Hf. cbn. split; [by eapply erased_put|by apply unnamed_same]. Qed.

Lemma add_embedding_id v b d i i' : add_embedding v b d i = Some i' -> fi_id i' = fi_id i.
Proof. unfold add_embedding. destruct (_ && _); [done|]. by intros [= <-]. Qed.

Lemma add_reference_step id i v b w : erased id w -> ident_get (fi_id i) w = Some i ->
  erased id (snd (add_reference i v b w)) /\ unnamed_since id w (snd (add_reference i v b w)).
Proof.
  intros He Hi. unfold add_reference. destruct (add_embedding v b (length v) i) as [i'|] eqn:E; [|split; [done|by apply unnamed_same]]. cbn.
  split; [by eapply erased_put; [..|eapply add_embedding_id]|by apply unnamed_same].
Qed.

Lemma erased_step id w o : erased id w -> erased id (face_step w o) /\ unnamed_since id w (face_step w o).
Proof.
  intros He. destruct o as [flag name consent days|flag id0 p|flag id0|flag id0 data|node_id batch|d]; cbn [face_step].
  - unfold create_identity. destruct flag; [|split; [done|by apply unnamed_same]]. cbn [negb]. case_bool_decide; [split; [done|by apply unnamed_same]|]. cbn.
    destruct He as [Hn He]. split; [|by apply unnamed_same]. split; [cbn; lia|]. intros i [Hi|Hi%list_elem_of_singleton]%elem_of_app Hid; [by apply He|]. subst i. cbn in Hid. lia.
  - apply with_identity_step; [done|]. intros i Hi. apply save_step; [done|by eapply ident_get_self|done].
  - apply with_identity_step; [done|]. intros i Hi. apply save_step; [done|by eapply ident_get_self|done].
  - apply with_identity_step; [done|]. intros i Hi. apply ident_get_self in Hi. destruct (fi_consent i); [|split; [done|by apply unnamed_same]]. cbn [negb].
    destruct data as [oid|emb backend].
    + unfold bind, gets. destruct (List.find _ _) as [ob|]; [by apply add_reference_step|split; [done|by apply unnamed_same]].
    + destruct emb as [| | | | |[|x l]|]; try (split; [done|by apply unnamed_same]). destruct backend as [b|]; [|split; [done|by apply unnamed_same]].
      case_bool_decide; [split; [done|by apply unnamed_same]|]. destruct (floats py_float (x :: l)) as [v| | |]; [by apply add_reference_step|split; [done|by apply unnamed_same]..].
  - destruct (face_ingest node_id batch w) as [[e|res] w'] eqn:E; cbn [snd]; [apply face_ingest_raises in E as ->; split; [done|by apply unnamed_same]|].
    apply face_ingest_leaves in E as (rows & Hok & _ & -> & _). split; [destruct He as [Hn He]; split; [cbn; lia|done]|].
    exists (number_obs (fw_next w) rows). split; [done|]. intros o Ho Hid.
    apply (number_obs_Forall (obs_ok node_id w) (fw_next w)) in Hok; [|intros; by apply obs_ok_id]. rewrite Forall_forall in Hok. apply Hok in Ho as [_ _ Ho].
    destruct (fo_identity o) as [[i n]|]; [|done]. injection Hid as ->. destruct Ho as (_ & ident & _ & Hi & _ & (Hin & Hdel & _) & _).
    by destruct (proj2 He ident Hin Hi) as [H _].
  - split; [by destruct He|by apply unnamed_same].
Qed.

Lemma erased_run id ops w : erased id w -> erased id (foldl face_step w ops) /\ unnamed_since id w (foldl face_step w ops).
Proof.
  revert w. induction ops as [|o ops IH]; intros w He; [split; [done|by apply unnamed_same]|].
  destruct (erased_step id w o He) as [He1 Hu]. destruct (IH _ He1) as [He2 Hu2]. split; [done|]. by eapply unnamed_trans.
Qed.

(** C34: The right to erasure.  Once the controller has deleted a face identity, and whatever
    is created, changed, enrolled or ingested afterwards, every row of that number stays
    deleted and holds no reference vector, and no observation stored since is named after
    it. *)
Theorem erased_identity_stays_erased flag id w i w1 ops : Forall (fun i => fi_id i < fw_next w) (fw_idents w) ->
  delete_identity flag id w = (inr i, w1) ->
  let w2 := foldl face_step w1 ops in
  (forall x, x ∈ fw_idents w2 -> fi_id x = id -> fi_deleted_at x <> None /\ fi_embeddings x = None) /\
  exists obs, fw_obs w2 = fw_obs w1 ++ obs /\ forall o, o ∈ obs -> fst <$> fo_identity o <> Some id.
Proof.
  intros Hn Hdel w2. assert (He : erased id w1); [|by destruct (erased_run id ops w1 He) as [[_ ?] ?]].
  unfold delete_identity, with_identity in Hdel. destruct flag; [|done]. unfold bind, gets in Hdel. cbn in Hdel.
  destruct (ident_get id w) as [x|] eqn:Hg; [|done]. apply ident_get_live in Hg as (Hin & Hx & _). injection Hdel as <- <-. rewrite Forall_forall in Hn. split; [cbn; subst id; by apply Hn|].
  intros y Hy Hid. apply list_elem_of_fmap in Hy as (z & -> & Hz). cbn [ident_soft_delete fi_id] in *. destruct (Z.eqb_spec (fi_id z) (fi_id x)); [by split|]. congruence.
Qed.
End Batch.

(** ** Sounds (audio_ingest.py) *)

Record AudioDetection := { au_id : Z; au_camera_id : Z; au_ts : Z; au_label : string; au_score : Z; au_node_id : Z }.
(** [au_threshold]: ai_settings.audio_threshold, when there is one *)
Record AudioWorld := { au_det : DetWorld; au_rows : list AudioDetection; au_next : Z; au_threshold : option Z }.

Section Audio.
Context (py_str : json -> string) (utc_offset : Z -> Z).

Definition AUDIO_MAX_BATCH : nat := 200.
Definition DEFAULT_THRESHOLD : Z := 60.
Definition audio_validate (rep : list (string * json)) (node_id : Z) (w : DetWorld) : option reject_reason :=
  match camera_reason rep node_id w with
  | Some r => Some r
  | None => if negb (truthy (jget "label" rep)) then Some "missing_label"%string else None
  end.
(** [None]: the score is no integer, and [int] raises *)
Definition audio_row (rep : list (string * json)) (node_id now : Z) : option AudioDetection :=
  (fun score => {| au_id := 0; au_camera_id := default 0 (to_int (jget "camera_id" rep)); au_ts := face_ts (jget "ts" rep) now;
                   au_label := stake 32 (match jget "label" rep with JStr s => s | v => py_str v end);
                   au_score := Z.max 0 (Z.min 100 score); au_node_id := node_id |})
  <$> to_int (default (JInt 0) (assoc "score" rep)).
(** what a report that raises raises *)
Definition audio_error (rep : json) : py_error :=
  match rep with JObj rep => match assoc "score" rep with Some (JStr _) => ValueError_ | _ => TypeError end | _ => AttributeError end.

Fixpoint audio_collect (idx : Z) (batch : list json) (node_id : Z) (w : AudioWorld) : py_error + (list AudioDetection * list (Z * reject_reason)) :=
  match batch with
  | [] => inr ([], [])
  | JObj rep :: r =>
      match audio_validate rep node_id (au_det w) with
      | Some reason => match audio_collect (idx + 1) r node_id w with inl e => inl e | inr (rows, rej) => inr (rows, (idx, reason) :: rej) end
      | None =>
          match audio_row rep node_id (dw_now (au_det w)) with
          | None => inl (audio_error (JObj rep))
          | Some row => match audio_collect (idx + 1) r node_id w with inl e => inl e | inr (rows, rej) => inr (row :: rows, rej) end
          end
      end
  | j :: _ => inl (audio_error j)
  end.

Definition audio_event (threshold : Z) (o : AudioDetection) (d : DetWorld) : option (option Event * DetWorld) :=
  if (threshold <=? au_score o) && feature_on "audio" (au_camera_id o) d then
    ingest_object utc_offset (au_camera_id o) "audio_class" (Some (au_label o)) (au_score o) "audio" None d
  else None.
Definition with_audio_id (id : Z) (o : AudioDetection) : AudioDetection :=
  {| au_id := id; au_camera_id := au_camera_id o; au_ts := au_ts o; au_label := au_label o; au_score := au_score o; au_node_id := au_node_id o |}.
Fixpoint number_audio (id : Z) (l : list AudioDetection) : list AudioDetection := match l with [] => [] | o :: r => with_audio_id id o :: number_audio (id + 1) r end.

Definition audio_ingest (node_id : Z) (batch : list json) (w : AudioWorld) : (py_error + (Z * list (Z * reject_reason))) * AudioWorld :=
  match audio_collect 0 (take AUDIO_MAX_BATCH batch) node_id w with
  | inl e => (inl e, w)
  | inr (rows, rejected) =>
      let '(_, d) := foldl (raise_one (audio_event (default DEFAULT_THRESHOLD (au_threshold w)))) (0, au_det w) rows in
      (inr (Z.of_nat (length rows), rejected),
       {| au_det := d; au_rows := au_rows w ++ number_audio (au_next w) rows; au_next := au_next w + Z.of_nat (length rows); au_threshold := au_threshold w |})
  end.

Lemma audio_collected idx batch node_id w rows rej : audio_collect idx batch node_id w = inr (rows, rej) ->
  Forall (fun o => (exists a, s_rows (dw_sched (au_det w)) !! au_camera_id o = Some a /\ a_node_id a = node_id) /\ 0 <= au_score o <= 100 /\ au_node_id o = node_id) rows /\
  (length rows + length rej = length batch)%nat.
Proof.
  revert idx rows rej. induction batch as [|j batch IH]; intros idx rows rej H; [by injection H as <- <-|].
  cbn [audio_collect] in H. destruct j as [| | | | | |rep]; try done. destruct (audio_validate _ _ _) as [reason|] eqn:Ev.
  - destruct (audio_collect _ _ _ _) as [|[rows1 rej1]] eqn:Er; try done; injection H as <- <-. destruct (IH _ _ _ Er) as [Hf Hlen]. split; [done|]. cbn. lia.
  - destruct (audio_row _ _ _) as [row|] eqn:Erow; [|done]. destruct (audio_collect _ _ _ _) as [|[rows1 rej1]] eqn:Er; try done; injection H as <- <-.
    destruct (IH _ _ _ Er) as [Hf Hlen]. split; [|cbn; lia]. constructor; [|done]. unfold audio_validate in Ev. destruct (camera_reason _ _ _) eqn:Ec; [done|].
    apply camera_ours in Ec. unfold audio_row in Erow. destruct (to_int (default _ _)) as [sc|]; [|done]. injection Erow as <-. cbn. split_and!; [done|lia..|done].
Qed.

(** what an answered batch leaves: rows of the node's cameras, and events for the loud ones where sounds are on *)
Lemma audio_ingest_leaves node_id batch w n rejected w' : audio_ingest node_id batch w = (inr (n, rejected), w') ->
  exists rows k, audio_collect 0 (take AUDIO_MAX_BATCH batch) node_id w = inr (rows, rejected) /\ au_rows w' = au_rows w ++ number_audio (au_next w) rows /\
    n = Z.of_nat (length rows) /\ raised (audio_event (default DEFAULT_THRESHOLD (au_threshold w))) rows k (au_det w) (au_det w').
Proof.
  unfold audio_ingest. destruct (audio_collect _ _ _ _) as [|[rows rej]] eqn:E; [done|]. destruct (foldl _ _ _) as [k d] eqn:Ef. intros [= <- <- <-].
  exists rows, (k - 0). split_and!; try done. by apply raised_fold.
Qed.
End Audio.

(** ** Concrete batches *)

Definition face_det : DetWorld :=
  {| dw_ew := demo_ew; dw_sched := demo_sched; dw_dets := []; dw_zones := []; dw_triggers := []; dw_lines := []; dw_stats := []; dw_flags := fun _ => true;
     dw_features := fun _ => ["face"%string; "audio"%string]; dw_min_confidence := None |}.
Definition ann : FaceIdentity :=
  {| fi_id := 5; fi_name := "Ann"; fi_consent := true; fi_consent_at := Some 0; fi_retention_days := None; fi_enabled := true; fi_backend := Some "arc"%string; fi_dim := Some 2%nat;
     fi_embeddings := Some [[1; 0]%Q]; fi_deleted_at := None |}.
Definition face_world (l : list FaceIdentity) : FaceWorld := {| fw_det := face_det; fw_idents := l; fw_obs := []; fw_next := 20 |}.
Definition face_report (camera : Z) (v : list json) : json := JObj [("camera_id", JInt camera); ("embedding", JList v); ("backend", JStr "arc")].
Definition near_ann : json := face_report 11 [JFloat (9 # 10); JInt 0].
Definition two_faces : list json := [near_ann; face_report 12 [JInt 1; JInt 0]; face_report 11 [JInt 0; JInt 1]].

Lemma faces_match_consenting_only_witness :
  exists res w', face_ingest no_float py_none kst 1 two_faces (face_world [ann]) = (inr res, w') /\ fr_rejected res = [(1, "not_assigned"%string)] /\
  (fo_identity <$> fw_obs w') = [Some (5, "Ann"%string); None] /\ (fo_score <$> fw_obs w') = [Some 90; None] /\
  exists obs, fw_obs w' = [] ++ obs /\ Forall (obs_ok 1 (face_world [ann])) obs /\ raised (face_event kst) (List.filter known obs) 1 face_det (fw_det w').
Proof.
  destruct (face_ingest no_float py_none kst 1 two_faces (face_world [ann])) as [r w'] eqn:E.
  pose proof (faces_match_consenting_only _ _ _ _ _ _ _ _ E) as H.
  assert (Er : r = inr {| fr_accepted := 2; fr_rejected := [(1, "not_assigned"%string)]; fr_matched := 1 |}) by (change r with (fst (r, w')); rewrite <- E; by vm_compute).
  assert (Ew : (fo_identity <$> fw_obs w') = [Some (5, "Ann"%string); None] /\ (fo_score <$> fw_obs w') = [Some 90; None])
    by (change w' with (snd (r, w')); rewrite <- E; clear; split; vm_compute; reflexivity).
  clear E. subst r. destruct H as (obs & Ho & Hok & _ & _ & _ & Hr). eexists _, w'. split; [done|]. split; [done|]. destruct Ew. split_and!; try done. by exists obs.
Defined.

Lemma erased_identity_stays_erased_witness :
  exists i w1, delete_identity true 5 (face_world [ann]) = (inr i, w1) /\
  let w2 := foldl (face_step no_float py_none kst) w1 [FUpdate true 5 {| fp_name := None; fp_retention_days := None; fp_enabled := Some true; fp_consent := Some true |};
    FEnroll true 5 (FromVector (JList [JInt 1; JInt 0]) (Some "arc"%string)); FIngest 1 [near_ann]] in
  (forall x, x ∈ fw_idents w2 -> fi_id x = 5 -> fi_deleted_at x <> None /\ fi_embeddings x = None) /\
  exists obs, fw_obs w2 = fw_obs w1 ++ obs /\ forall o, o ∈ obs -> fst <$> fo_identity o <> Some 5.
Proof.
  eexists _, _. split; [reflexivity|]. eapply (erased_identity_stays_erased no_float py_none kst true 5 (face_world [ann])); [|reflexivity].
  constructor; [reflexivity|constructor].
Defined.

(** the erasure is of the references: an observation keeps its vector and the name it was given *)
Example erased_face_remains_in_observations :
  let w1 := snd (face_ingest no_float py_none kst 1 [near_ann] (face_world [ann])) in
  let w2 := snd (delete_identity true 5 w1) in
  ((fun o => (fo_identity o, fo_embedding o)) <$> fw_obs w2) = [(Some (5, "Ann"%string), [9 # 10; 0 # 1]%Q)].
Proof. by vm_compute. Qed.

(** [cosine] is a plain dot product of vectors that nothing normalises: a long reference vector
    resembles every face that is not on its far side *)
Example a_long_reference_matches_everyone :
  let w1 := snd (enroll no_float true 5 (FromVector (JList [JInt 1000; JInt 1000]) (Some "arc"%string)) (face_world [ann])) in
  (fo_identity <$> fw_obs (snd (face_ingest no_float py_none kst 1 two_faces w1))) = [Some (5, "Ann"%string); Some (5, "Ann"%string)].
Proof. by vm_compute. Qed.

(** the checks of a report let a score through that [int] does not take: one bad row ends the batch *)
Example bad_score_ends_the_batch :
  let w := {| au_det := face_det; au_rows := []; au_next := 20; au_threshold := None |} in
  let bark score := JObj [("camera_id", JInt 11); ("label", JStr "bark"); ("score", score)] in
  fst (audio_ingest py_none kst 1 [bark (JInt 70); bark JNull] w) = inl TypeError /\
  (au_score <$> au_rows (snd (audio_ingest py_none kst 1 [bark (JInt 70); bark (JInt 170)] w))) = [70; 100].
Proof. split; by vm_compute. Qed.
