(* ===== verification/Playback.v ===== *)
(** * Timeline planning

    src/server/service/playback_planner.py: continuous ranges and gaps for the
    scrub bar, from the segment index. *)

From S2P Require Import Prelude Redis Storage.

(** [GAP_MERGE_FACTOR * max(1.0, (duration_ms or 10000) / 1000.0)], in microseconds *)
Definition gap_limit (s : Segment) : Z := 2 * Z.max SEC (or_Z (Some (sg_duration_ms s)) 10000 * 1000).

(** the first loop; [current] is the open range *)
Fixpoint merge_ranges (segs : list Segment) (current : option (Z * Z)) : list (Z * Z) :=
  match segs with
  | [] => match current with Some r => [r] | None => [] end
  | s :: rest =>
      match current with
      | Some (a, b) =>
          if sg_start_ts s - b <=? gap_limit s then merge_ranges rest (Some (a, Z.max b (sg_end_ts s)))
          else (a, b) :: merge_ranges rest (Some (sg_start_ts s, sg_end_ts s))
      | None => merge_ranges rest (Some (sg_start_ts s, sg_end_ts s))
      end
  end.

(** the second loop; [cursor] is where coverage ended *)
Fixpoint find_gaps (ranges : list (Z * Z)) (cursor end_ : Z) : list (Z * Z) :=
  match ranges with
  | [] => if cursor <? end_ then [(cursor, end_)] else []
  | (a, b) :: rest =>
      (if cursor <? a then [(cursor, a)] else []) ++ find_gaps rest (Z.max cursor b) end_
  end.

Definition build_timeline (camera_id start end_ : Z) (t : Store) : list (Z * Z) * list (Z * Z) :=
  let ranges := merge_ranges (get_range camera_id start end_ (Some "main"%string) t) None in
  (ranges, find_gaps ranges start end_).

(** ** What the ranges cover *)

Definition range_in (r r' : Z * Z) : Prop := fst r' <= fst r /\ snd r <= snd r'.

Lemma merge_ranges_current segs a b :
  exists r, r ∈ merge_ranges segs (Some (a, b)) /\ range_in (a, b) r.
Proof.
  revert a b. induction segs as [|s segs IH]; intros a b; cbn [merge_ranges].
  - exists (a, b). split; [by left|]. split; cbn; lia.
  - destruct (_ <=? _).
    + destruct (IH a (Z.max b (sg_end_ts s))) as (r & Hr & H1 & H2). exists r. split; [done|]. split; cbn in *; lia.
    + exists (a, b). split; [by left|]. split; cbn; lia.
Qed.

Lemma merge_ranges_covers segs cur s :
  sorted_on sg_start_ts segs -> (forall a b x, cur = Some (a, b) -> x ∈ segs -> a <= sg_start_ts x) ->
  s ∈ segs -> exists r, r ∈ merge_ranges segs cur /\ range_in (sg_start_ts s, sg_end_ts s) r.
Proof.
  revert cur. induction segs as [|x segs IH]; intros cur Hs Hcur Hin; [by apply elem_of_nil in Hin|].
  apply StronglySorted_inv in Hs as [Hs Hx]. rewrite Forall_forall in Hx. cbn [merge_ranges].
  assert (Hnew : forall a b y, Some (sg_start_ts x, sg_end_ts x) = Some (a, b) -> y ∈ segs -> a <= sg_start_ts y)
    by (intros a b y [= <- <-] Hy; by apply Hx).
  assert (Hone : s = x -> exists r, r ∈ merge_ranges segs (Some (sg_start_ts x, sg_end_ts x)) /\
                            range_in (sg_start_ts s, sg_end_ts s) r)
    by (intros ->; apply merge_ranges_current).
  destruct cur as [[a b]|].
  - destruct (_ <=? _).
    + apply elem_of_cons in Hin as [->|Hin].
      * destruct (merge_ranges_current segs a (Z.max b (sg_end_ts x))) as (r & Hr & H1 & H2). exists r. split; [done|].
        specialize (Hcur a b x eq_refl ltac:(by left)). split; cbn in *; lia.
      * apply IH; [done| |done]. intros a' b' y [= <- <-] Hy. apply (Hcur a b); [done|by right].
    + assert (exists r, r ∈ merge_ranges segs (Some (sg_start_ts x, sg_end_ts x)) /\
                range_in (sg_start_ts s, sg_end_ts s) r) as (r & Hr & H)
        by (apply elem_of_cons in Hin as [?|Hin]; [by apply Hone|by apply IH]).
      exists r. split; [by right|done].
  - apply elem_of_cons in Hin as [?|Hin]; [by apply Hone|by apply IH].
Qed.

Definition in_order (l : list (Z * Z)) : Prop := StronglySorted (fun r r' => fst r <= fst r') l.

Lemma merge_ranges_starts segs cur lo :
  (forall x, x ∈ segs -> lo <= sg_start_ts x) -> (forall a b, cur = Some (a, b) -> lo <= a) ->
  forall r, r ∈ merge_ranges segs cur -> lo <= fst r.
Proof.
  revert cur. induction segs as [|s segs IH]; intros cur Hlo Hcur r; cbn [merge_ranges].
  - destruct cur as [[a b]|]; [|by intros ?%elem_of_nil]. intros ->%list_elem_of_singleton. by eapply Hcur.
  - assert (Hlo' : forall x, x ∈ segs -> lo <= sg_start_ts x) by (intros; apply Hlo; by right).
    assert (Hs : forall a b, Some (sg_start_ts s, sg_end_ts s) = Some (a, b) -> lo <= a)
      by (intros a b [= <- _]; apply Hlo; by left).
    destruct cur as [[a b]|]; [|by apply IH]. destruct (_ <=? _).
    + apply IH; [done|]. intros a' b' [= <- _]. by eapply Hcur.
    + intros [->|Hr]%elem_of_cons; [by eapply Hcur|]. by eapply IH.
Qed.

Lemma merge_ranges_in_order segs cur :
  sorted_on sg_start_ts segs -> (forall a b x, cur = Some (a, b) -> x ∈ segs -> a <= sg_start_ts x) ->
  in_order (merge_ranges segs cur).
Proof.
  unfold in_order. revert cur. induction segs as [|s segs IH]; intros cur Hs Hcur; cbn [merge_ranges].
  - destruct cur; repeat constructor.
  - apply StronglySorted_inv in Hs as [Hs Hx]. rewrite Forall_forall in Hx.
    assert (Hnew : forall a b y, Some (sg_start_ts s, sg_end_ts s) = Some (a, b) -> y ∈ segs -> a <= sg_start_ts y)
      by (intros a b y [= <- <-] Hy; by apply Hx).
    destruct cur as [[a b]|]; [|by apply IH]. destruct (_ <=? _).
    + apply IH; [done|]. intros a' b' y [= <- <-] Hy. apply (Hcur a b); [done|by right].
    + constructor; [by apply IH|]. apply Forall_forall. intros r Hr. cbn [fst].
      pose proof (Hcur a b s eq_refl ltac:(by left)) as Ha.
      apply (merge_ranges_starts segs (Some (sg_start_ts s, sg_end_ts s)) a) in Hr; [done|..].
      * intros x Hx'. pose proof (Hx x Hx') as Hxs. cbn in Hxs. lia.
      * by intros a' b' [= <- _].
Qed.

(** ** Gaps *)

Lemma find_gaps_spec ranges cursor end_ g :
  in_order ranges -> g ∈ find_gaps ranges cursor end_ ->
  cursor <= fst g < snd g /\ forall r, r ∈ ranges -> snd r <= fst g \/ snd g <= fst r.
Proof.
  unfold in_order. revert cursor. induction ranges as [|[a b] ranges IH]; intros cursor Ho; cbn [find_gaps].
  - destruct (Z.ltb_spec cursor end_); [|by intros ?%elem_of_nil]. intros ->%list_elem_of_singleton. cbn. split; [lia|].
    intros r Hr. by apply elem_of_nil in Hr.
  - apply StronglySorted_inv in Ho as [Ho Ha]. rewrite Forall_forall in Ha. intros [Hg|Hg]%elem_of_app.
    + destruct (Z.ltb_spec cursor a); [|by apply elem_of_nil in Hg]. apply list_elem_of_singleton in Hg as ->. cbn.
      split; [lia|]. intros r [->|Hr]%elem_of_cons; [cbn; lia|]. specialize (Ha r Hr). cbn in Ha. lia.
    + destruct (IH _ Ho Hg) as [H1 H2]. split; [lia|]. intros r [->|Hr]%elem_of_cons; [cbn; lia|by apply H2].
Qed.

Lemma find_gaps_complete ranges cursor end_ x :
  cursor <= x < end_ -> (forall g, g ∈ find_gaps ranges cursor end_ -> ~ (fst g <= x < snd g)) ->
  exists r, r ∈ ranges /\ fst r <= x < snd r.
Proof.
  revert cursor. induction ranges as [|[a b] ranges IH]; intros cursor Hx Hno; cbn [find_gaps] in Hno.
  - destruct (Z.ltb_spec cursor end_); [|lia]. destruct (Hno (cursor, end_)); [by left|cbn; lia].
  - destruct (Z.lt_ge_cases x a) as [Hxa|Hxa].
    + destruct (Z.ltb_spec cursor a); [|lia]. destruct (Hno (cursor, a)); [by left|cbn; lia].
    + destruct (Z.lt_ge_cases x b) as [Hxb|Hxb]; [exists (a, b); split; [by left|cbn; lia]|].
      destruct (IH (Z.max cursor b)) as (r & Hr & H); [lia| |exists r; split; [by right|done]].
      intros g Hg. apply Hno. apply elem_of_app. by right.
Qed.

(** On the timeline of [start, end) every listed segment lies inside a range, no gap
    overlaps a range (so no footage is shown as missing), and every instant that
    is not in a gap is in a range. *)
Theorem timeline_partitions camera_id start end_ t :
  let '(ranges, gaps) := build_timeline camera_id start end_ t in
  (forall s, s ∈ get_range camera_id start end_ (Some "main"%string) t ->
     exists r, r ∈ ranges /\ range_in (sg_start_ts s, sg_end_ts s) r) /\
  (forall g r, g ∈ gaps -> r ∈ ranges -> snd r <= fst g \/ snd g <= fst r) /\
  (forall x, start <= x < end_ ->
     (exists g, g ∈ gaps /\ fst g <= x < snd g) \/ (exists r, r ∈ ranges /\ fst r <= x < snd r)).
Proof.
  unfold build_timeline. set (segs := get_range _ _ _ _ _).
  assert (Hs : sorted_on sg_start_ts segs) by apply sort_on_sorted.
  set (ranges := merge_ranges segs None).
  assert (Ho : in_order ranges) by (by apply merge_ranges_in_order).
  split_and!.
  - intros s Hin. by apply merge_ranges_covers.
  - intros g r Hg Hr. by apply (find_gaps_spec ranges start end_ g Ho Hg).
  - intros x Hx. set (in_gap := fun g : Z * Z => (fst g <=? x) && (x <? snd g)).
    destruct (existsb in_gap (find_gaps ranges start end_)) eqn:E.
    + apply existsb_exists in E as (g & Hg%list_elem_of_In & Hin). left. exists g. split; [done|].
      apply andb_true_iff in Hin as [?%Z.leb_le ?%Z.ltb_lt]. done.
    + right. apply (find_gaps_complete ranges start end_ x Hx). intros g Hg Hin.
      assert (existsb in_gap (find_gaps ranges start end_) = true); [|congruence].
      apply existsb_exists. exists g. split; [by apply list_elem_of_In|]. apply andb_true_iff.
      rewrite Z.leb_le, Z.ltb_lt. done.
Qed.

(** two ten-second segments five seconds apart, then a minute of nothing *)
Example demo_timeline :
  build_timeline 1 0 (200 * SEC) (set_segments [demo_seg 1 1 0; demo_seg 2 1 (15 * SEC); demo_seg 3 1 (100 * SEC)] demo_store)
  = ([(0, 25 * SEC); (100 * SEC, 110 * SEC)], [(25 * SEC, 100 * SEC); (110 * SEC, 200 * SEC)]).
Proof. vm_compute. reflexivity. Qed.
