(* ===== verification/Media.v ===== *)
(** * Recorded media

    src/server/view/api/playback.py, the playlist of service/playback_planner.py
    (build_m3u8) and the offload of renditions to encoder nodes
    (service/encode_offload.py, transcode_segment).

    The segment index is the Store, cameras, schedulers and tokens the world of Live;
    renditions on disk are a map.  Parameters: the container and the codec-independent
    facts of a file (whether it is MPEG-TS, its modification time), what makedirs, ffmpeg
    and a node answer ([Render]), the JPEG ffmpeg cuts, the text of an instant.
    Pictures are byte strings.  Conditional and range requests are left out. *)

From stdpp Require Import pretty.
From S2P Require Import Prelude PyStr Redis Permission Token Sessions Accounts Scheduler Guards Cameras Live Storage Playback.
Local Open Scope Z_scope.
Local Open Scope list_scope.

(** ** The playlist *)

(** ['%.3f' % (ms / 1000.0)] for [ms >= 0] *)
Definition seconds3 (ms : Z) : string :=
  let f := pretty (ms mod 1000) in
  pretty (ms / 1000) +:+ "." +:+ (if ms mod 1000 <? 10 then "00" else if ms mod 1000 <? 100 then "0" else "") +:+ f.
Definition shown_ms (s : Segment) : Z := or_Z (Some (sg_duration_ms s)) 10000.
(** [math.ceil(ms / 1000.0)], the largest of them, 10 when there is no segment *)
Definition ceil_seconds (ms : Z) : Z := - ((- ms) / 1000).
Definition target_duration (segs : list Segment) : Z :=
  match segs with [] => 10 | s :: r => foldl (fun m s => Z.max m (ceil_seconds (shown_ms s))) (ceil_seconds (shown_ms s)) r end.
Definition SEGMENT_URI : string := "/api/v1/playback/segments/".

Section Playlist.
Context (iso_utc : Z -> string).

Fixpoint playlist_entries (q : string) (prev_end : option Z) (segs : list Segment) : list string :=
  match segs with
  | [] => []
  | s :: r =>
      (match prev_end with Some e => if SEC <? sg_start_ts s - e then ["#EXT-X-DISCONTINUITY"%string] else [] | None => [] end) ++
      ["#EXT-X-PROGRAM-DATE-TIME:" +:+ iso_utc (sg_start_ts s); "#EXTINF:" +:+ seconds3 (shown_ms s) +:+ ","; SEGMENT_URI +:+ pretty (sg_id s) +:+ "/hls" +:+ q] ++
      playlist_entries q (Some (sg_end_ts s)) r
  end.
Definition build_m3u8 (camera_id start end_ : Z) (token : string) (transcode : bool) (t : Store) : list string :=
  let segs := get_range camera_id start end_ (Some "main"%string) t in
  let q := "?access_token=" +:+ token +:+ (if transcode then "&transcode=h264" else "") in
  ["#EXTM3U"; "#EXT-X-VERSION:3"; "#EXT-X-PLAYLIST-TYPE:VOD"; "#EXT-X-TARGETDURATION:" +:+ pretty (target_duration segs); "#EXT-X-MEDIA-SEQUENCE:0"]%string ++
  playlist_entries q None segs ++ ["#EXT-X-ENDLIST"%string].
End Playlist.

(** ** Offload of a rendition (encode_offload.py) *)

Definition SEGMENT_MAX_BYTES : Z := 128 * 1024 * 1024.
Definition inflight_key (node_id : Z) : string := "axp:encode:inflight:" +:+ pretty node_id.

(** [int(r.get(key) or 0)], 0 when that fails *)
Definition inflight_of (node_id : Z) (s : Sched) : Z :=
  match r_get (s_now s) (inflight_key node_id) (w_redis (s_tok s)) with
  | Some (Some (RNum n)) => n
  | Some (Some (RText t)) => default 0 (py_int t)
  | _ => 0
  end.
(** the loop of [_pick_node]: the first of the least loaded that are not saturated *)
Fixpoint least_loaded (load : Node -> Z) (best : option Node) (l : list Node) : option Node :=
  match l with
  | [] => best
  | n :: r =>
      if Z.max 2 (n_capacity n * 2) <=? load n then least_loaded load best r else
      match best with
      | Some b => if load n <? load b then least_loaded load (Some n) r else least_loaded load best r
      | None => least_loaded load (Some n) r
      end
  end.
Definition pick_node (endpoint : Z -> option string) (s : Sched) : option Node :=
  let nodes := List.filter (fun n => truthy_str (endpoint (n_id n))) (encode_schedulable (s_nodes s)) in
  least_loaded (fun n => inflight_of (n_id n) s) None nodes.

(** [DECR] *)
Definition r_decr (now : Z) (k : string) (r : redis) : option (Z * redis) :=
  if r_up r then
    match r_lookup now k r with
    | None => Some (-1, r_put k (RNum (-1), None) r)
    | Some (RNum n, t) => Some (n - 1, r_put k (RNum (n - 1), t) r)
    | Some (RText _, _) => None
    end
  else None.
Definition gauge_up (key : string) (now : Z) (r : redis) : bool * redis :=
  match r_incr now key r with
  | Some (_, r1) => match r_expire now key 120 r1 with Some r2 => (true, r2) | None => (false, r1) end
  | None => (false, r)
  end.
(** [transcode_segment]: [size], [None] when the file cannot be read; [sent]: the node answered
    200 with a body that could be stored *)
Definition transcode_segment (endpoint : Z -> option string) (size : option Z) (sent : bool) (s : Sched) : bool * Sched :=
  if negb (s_flag s) then (false, s) else
  match pick_node endpoint s with
  | None => (false, s)
  | Some n =>
      match size with
      | None => (false, s)
      | Some z =>
          if (z <=? 0) || (SEGMENT_MAX_BYTES <? z) then (false, s) else
          let key := inflight_key (n_id n) in
          let '(counted, r1) := gauge_up key (s_now s) (w_redis (s_tok s)) in
          let r2 := if counted then match r_decr (s_now s) key r1 with Some (_, r) => r | None => r1 end else r1 in
          (sent, set_tok (set_redis r2 (s_tok s)) s)
      end
  end.

(** ** Renditions of a segment *)

(** on disk, by disk, camera, segment and whether it is H.264 *)
Record Rendition := { re_size : Z; re_mtime : Z; re_source : Z * string }.
Record MediaWorld := { me_live : LiveWorld; me_store : Store; me_hls : gmap (Z * Z * Z * bool) Rendition }.
Definition me_now (w : MediaWorld) : Z := t_now (me_store w).
Definition me_sched (w : MediaWorld) : Sched := cw_sched (lv_cams (me_live w)).
Definition me_tok (w : MediaWorld) : World := s_tok (me_sched w).
Definition set_hls (h : gmap (Z * Z * Z * bool) Rendition) (w : MediaWorld) : MediaWorld := {| me_live := me_live w; me_store := me_store w; me_hls := h |}.
Definition set_me_sched (s : Sched) (w : MediaWorld) : MediaWorld :=
  let cw := lv_cams (me_live w) in
  {| me_live := {| lv_cams := {| cw_sched := s; cw_rows := cw_rows cw; cw_streams := cw_streams cw; cw_next := cw_next cw; cw_go2rtc := cw_go2rtc cw;
                                 cw_calls := cw_calls cw; cw_last_frames := cw_last_frames cw; cw_events := cw_events cw |};
                   lv_reconciled := lv_reconciled (me_live w) |};
     me_store := me_store w; me_hls := me_hls w |}.

(** what a request meets: makedirs, the size of the source, a node's answer, and the size of what ffmpeg leaves (0: it failed) *)
Record Render := { rr_mkdir : bool; rr_size : option Z; rr_sent : option Z; rr_ffmpeg : Z }.

Definition disk_live (t : Store) (id : Z) : bool := existsb (fun d => (dk_id d =? id) && bool_decide (dk_deleted_at d = None)) (t_disks t).
Definition segment_row (id : Z) (t : Store) : option Segment := List.find (fun s => sg_id s =? id) (t_segments t).
(** [_segment_abs]: the file of a row *)
Definition segment_abs (s : Segment) (t : Store) : option (Z * string) :=
  if disk_live t (sg_disk_id s) && bool_decide ((sg_disk_id s, sg_rel_path s) ∈ t_files t) then Some (sg_disk_id s, sg_rel_path s) else None.

Inductive Sent :=
| SentFile (f : Z * string)
| SentRendition (key : Z * Z * Z * bool)
| SentPicture (jpeg : string).
Inductive MediaAnswer :=
| MNoPermission (msg : string) | MForbidden (msg : string) | MNotFound (msg : string) | MBadRequest (msg : string)
| MRaised                                        (* RowNotFoundException out of the view *)
| MPlaylist (lines : list string)
| MSent (what : Sent).

Section Serve.
Context {J : JwtLib} (iso_utc : Z -> string) (mpegts : Segment -> bool) (mtime : Z * string -> option Z) (endpoint : Z -> option string).
Context (grab : Z * string -> Z -> option string).      (* the frame at an offset, in microseconds *)

(** [_ensure_hls_ts] *)
Definition ensure_hls_ts (s : Segment) (src : Z * string) (transcode : bool) (run : Render) (w : MediaWorld) : option Sent * MediaWorld :=
  if mpegts s && negb transcode then (Some (SentFile src), w) else
  if negb (disk_live (me_store w) (sg_disk_id s)) then (None, w) else
  if negb (rr_mkdir run) then (None, w) else
  let key := (sg_disk_id s, sg_camera_id s, sg_id s, transcode) in
  let fresh := match me_hls w !! key, mtime src with Some r, Some m => (0 <? re_size r) && (m <=? re_mtime r) | _, _ => false end in
  if fresh then (Some (SentRendition key), w) else
  let put size w' := (Some (SentRendition key), set_hls (<[key := {| re_size := size; re_mtime := me_now w'; re_source := src |}]> (me_hls w')) w') in
  let '(sent, w1) :=
    if transcode then let '(ok, s') := transcode_segment endpoint (rr_size run) (bool_decide (is_Some (rr_sent run))) (me_sched w) in (ok, set_me_sched s' w)
    else (false, w) in
  if sent then put (default 0 (rr_sent run)) w1
  else if 0 <? rr_ffmpeg run then put (rr_ffmpeg run) w1 else (None, w1).

(** [_media_auth], [_media_camera] *)
Definition media_auth (rq : Request) (w : MediaWorld) : option (User * string) :=
  match media_token rq with
  | None => None
  | Some tok =>
      if bool_decide (tok = EmptyString) then None else
      match fst (verify_access tok (me_tok w)) with inr (u, _) => Some (u, tok) | inl _ => None end
  end.
Definition media_camera (u : User) (camera_uuid : string) (w : MediaWorld) : option CamRow :=
  let subject := Some (subject_of u (me_tok w)) in
  if negb (has subject "playback" "read") then None
  else if negb (has_camera_scope subject camera_uuid "view") then None
  else match fst (get_by_uuid camera_uuid (lv_cams (me_live w))) with inr c => Some c | inl _ => None end.

Definition parse_ms (v : option string) : option Z := if truthy_str v then py_int (default ""%string v) ≫= from_ms else None.

(** [hls]: the playlist *)
Definition hls (rq : Request) (camera_uuid : string) (from to : option string) (transcode : bool) (w : MediaWorld) : MediaAnswer :=
  match media_auth rq w with
  | None => MNoPermission "authentication_required"
  | Some (u, tok) =>
      match media_camera u camera_uuid w with
      | None => MForbidden "playback_denied"
      | Some c =>
          match parse_ms from, parse_ms to with
          | Some a, Some b => MPlaylist (build_m3u8 iso_utc (cr_id c) a b tok transcode (me_store w))
          | _, _ => MBadRequest "from/to required"
          end
      end
  end.

(** the start all endpoints on one segment share: the row, whose camera the user may play back *)
Definition with_segment (rq : Request) (segment_id : Z) (w : MediaWorld) (k : Segment -> MediaAnswer * MediaWorld) : MediaAnswer * MediaWorld :=
  match media_auth rq w with
  | None => (MNoPermission "authentication_required", w)
  | Some (u, _) =>
      match segment_row segment_id (me_store w) with
      | None => (MNotFound "segment_not_found", w)
      | Some s =>
          match camera_get_by_id (sg_camera_id s) (lv_cams (me_live w)) with
          | None => (MRaised, w)
          | Some c => match media_camera u (cr_uuid c) w with None => (MForbidden "playback_denied", w) | Some _ => k s end
          end
      end
  end.

Definition segment_hls (rq : Request) (segment_id : Z) (transcode : bool) (run : Render) (w : MediaWorld) : MediaAnswer * MediaWorld :=
  with_segment rq segment_id w (fun s =>
    match segment_abs s (me_store w) with
    | None => (MNotFound "segment_unavailable", w)
    | Some src => match ensure_hls_ts s src transcode run w with
                  | (Some x, w1) => (MSent x, w1)
                  | (None, w1) => (MNotFound "segment_unavailable", w1)
                  end
    end).
Definition segment_data (rq : Request) (segment_id : Z) (w : MediaWorld) : MediaAnswer * MediaWorld :=
  with_segment rq segment_id w (fun s =>
    match segment_abs s (me_store w) with None => (MNotFound "segment_unavailable", w) | Some f => (MSent (SentFile f), w) end).

Definition frame_at (rq : Request) (camera_uuid : string) (ts : option string) (w : MediaWorld) : MediaAnswer :=
  match media_auth rq w with
  | None => MNoPermission "authentication_required"
  | Some (u, _) =>
      match media_camera u camera_uuid w with
      | None => MForbidden "playback_denied"
      | Some c =>
          match parse_ms ts with
          | None => MBadRequest "ts required"
          | Some t =>
              match get_at (cr_id c) t (me_store w) with
              | None => MNotFound "no_segment_at_ts"
              | Some s =>
                  match segment_abs s (me_store w) with
                  | None => MNotFound "segment_unavailable"
                  | Some f => match grab f (Z.max 0 (t - sg_start_ts s)) with Some jpeg => MSent (SentPicture jpeg) | None => MNotFound "frame_unavailable" end
                  end
              end
          end
      end
  end.

(** decoding UTF-8, as the text client of Redis does with every value, and encoding to
    latin-1: works for characters up to U+00FF *)
Fixpoint latin1_of_utf8 (s : string) : option string :=
  match s with
  | EmptyString => Some EmptyString
  | String c r =>
      let n := Ascii.nat_of_ascii c in
      if (n <? 128)%nat then String c <$> latin1_of_utf8 r else
      match r with
      | String d r1 =>
          let m := Ascii.nat_of_ascii d in
          if ((194 <=? n) && (n <=? 195) && (128 <=? m) && (m <=? 191))%nat then String (Ascii.ascii_of_nat (64 * (n - 192) + (m - 128))) <$> latin1_of_utf8 r1 else None
      | EmptyString => None
      end
  end.
Definition thumb_key (segment_id : Z) : string := "axp:thumb:segthumb:" +:+ pretty segment_id.
(** what the cache gives: nothing when Redis fails or the value does not decode *)
Definition cached_thumb (segment_id : Z) (w : MediaWorld) : option string :=
  match r_get (s_now (me_sched w)) (thumb_key segment_id) (w_redis (me_tok w)) with
  | Some (Some (RText t)) => if bool_decide (t = EmptyString) then None else latin1_of_utf8 t
  | Some (Some (RNum n)) => Some (pretty n)
  | _ => None
  end.
Definition thumb (rq : Request) (segment_id : Z) (w : MediaWorld) : MediaAnswer * MediaWorld :=
  with_segment rq segment_id w (fun s =>
    match cached_thumb segment_id w with
    | Some jpeg => (MSent (SentPicture jpeg), w)
    | None =>
        match segment_abs s (me_store w) with
        | None => (MNotFound "segment_unavailable", w)
        | Some f =>
            match grab f 0 with
            | None => (MNotFound "thumb_unavailable", w)
            | Some jpeg =>
                let sd := me_sched w in
                (MSent (SentPicture jpeg),
                 match r_setex (s_now sd) (thumb_key segment_id) 3600 (RText jpeg) (w_redis (s_tok sd)) with
                 | Some r => set_me_sched (set_tok (set_redis r (s_tok sd)) sd) w
                 | None => w
                 end)
            end
        end
    end).
End Serve.

(** ** The playlist lists the window *)

(** the segment a line of a playlist is the address of *)
Definition uri_id (line : string) : option Z :=
  if startswith SEGMENT_URI line then
    match split_once (Ascii.ascii_of_nat 47) (sdrop (String.length SEGMENT_URI) line) with Some (id, _) => py_int id | None => None end
  else None.
Definition uris (lines : list string) : list Z := omap uri_id lines.
Definition breaks (lines : list string) : nat := length (List.filter (fun l => bool_decide (l = "#EXT-X-DISCONTINUITY"%string)) lines).

(** a player's reading of a playlist: for each address whether a break, which instant and
    which length were announced for it *)
Record Shown := { sh_break : bool; sh_date : option string; sh_inf : option string; sh_id : Z }.
Definition after_prefix (p l : string) : option string := if startswith p l then Some (sdrop (String.length p) l) else None.
Fixpoint read_playlist (brk : bool) (date inf : option string) (lines : list string) : list Shown :=
  match lines with
  | [] => []
  | l :: r =>
      if bool_decide (l = "#EXT-X-DISCONTINUITY"%string) then read_playlist true date inf r else
      match after_prefix "#EXT-X-PROGRAM-DATE-TIME:" l with
      | Some d => read_playlist brk (Some d) inf r
      | None =>
          match after_prefix "#EXTINF:" l with
          | Some d => read_playlist brk date (Some d) r
          | None =>
              match uri_id l with
              | Some id => {| sh_break := brk; sh_date := date; sh_inf := inf; sh_id := id |} :: read_playlist false None None r
              | None => read_playlist brk date inf r
              end
          end
      end
  end.

(** what it should show: a break before a segment that starts more than a second after the
    one before it ended, and before no other *)
Definition shown (iso : Z -> string) (before : option Segment) (s : Segment) : Shown :=
  {| sh_break := match before with Some p => SEC <? sg_start_ts s - sg_end_ts p | None => false end;
     sh_date := Some (iso (sg_start_ts s)); sh_inf := Some (seconds3 (shown_ms s) +:+ ","); sh_id := sg_id s |}.
Fixpoint shown_all (iso : Z -> string) (before : option Segment) (segs : list Segment) : list Shown :=
  match segs with [] => [] | s :: r => shown iso before s :: shown_all iso (Some s) r end.

Lemma pretty_has_no_slash (z : Z) : all_chars (fun c => negb (bool_decide (c = Ascii.ascii_of_nat 47))) (pretty z) = true.
Proof. eapply all_chars_impl; [|apply pretty_Z_chars]. intros c Hc. case_bool_decide; [subst; by vm_compute in Hc|done]. Qed.

Lemma uri_id_uri (id : Z) q : uri_id (SEGMENT_URI +:+ pretty id +:+ "/hls" +:+ q) = Some id.
Proof.
  assert (Hs : forall p x, startswith p (p +:+ x) = true) by (intros p x; induction p as [|c p IH]; [done|]; change (bool_decide (c = c) && startswith p (p +:+ x) = true); by rewrite bool_decide_true).
  assert (Hd : forall p x, sdrop (String.length p) (p +:+ x) = x) by (intros p x; induction p as [|c p IH]; [by destruct x|done]).
  unfold uri_id. rewrite Hs, Hd. change ("/hls" +:+ q) with (String (Ascii.ascii_of_nat 47) ("hls" +:+ q)). rewrite split_once_at by apply pretty_has_no_slash.
  apply py_int_pretty.
Qed.

Lemma after_prefix_app p x : after_prefix p (p +:+ x) = Some x.
Proof.
  unfold after_prefix. assert (startswith p (p +:+ x) = true /\ sdrop (String.length p) (p +:+ x) = x) as [-> ->]; [|done].
  induction p as [|c p [IH1 IH2]]; [by destruct x|]. change (bool_decide (c = c) && startswith p (p +:+ x) = true /\ sdrop (String.length p) (p +:+ x) = x).
  by rewrite bool_decide_true.
Qed.

Lemma shown_ids iso p segs : sh_id <$> shown_all iso p segs = sg_id <$> segs.
Proof. revert p. induction segs as [|s segs IH]; intros p; cbn; [done|]. by rewrite IH. Qed.

Lemma read_entries iso q p segs rest : 
  read_playlist false None None (playlist_entries iso q (sg_end_ts <$> p) segs ++ rest) = shown_all iso p segs ++ read_playlist false None None rest.
Proof.
  revert p. induction segs as [|s segs IH]; intros p; [done|]. cbn [playlist_entries shown_all]. rewrite <- !app_assoc.
  assert (He : forall b, read_playlist b None None ((["#EXT-X-PROGRAM-DATE-TIME:" +:+ iso (sg_start_ts s); "#EXTINF:" +:+ seconds3 (shown_ms s) +:+ ",";
      SEGMENT_URI +:+ pretty (sg_id s) +:+ "/hls" +:+ q]) ++ playlist_entries iso q (Some (sg_end_ts s)) segs ++ rest) =
    {| sh_break := b; sh_date := Some (iso (sg_start_ts s)); sh_inf := Some (seconds3 (shown_ms s) +:+ ","); sh_id := sg_id s |}
      :: shown_all iso (Some s) segs ++ read_playlist false None None rest).
  { intros b. rewrite <- (IH (Some s)). cbn [app read_playlist]. rewrite !bool_decide_eq_false_2 by discriminate. rewrite (after_prefix_app "#EXT-X-PROGRAM-DATE-TIME:").
    change (after_prefix "#EXT-X-PROGRAM-DATE-TIME:" ("#EXTINF:" +:+ _)) with (@None string). rewrite (after_prefix_app "#EXTINF:").
    change (after_prefix _ (SEGMENT_URI +:+ _)) with (@None string). change (after_prefix "#EXTINF:" (SEGMENT_URI +:+ _)) with (@None string). by rewrite uri_id_uri. }
  unfold shown at 1. destruct p as [p|]; cbn [fmap option_fmap option_map]; [|apply He]. destruct (SEC <? _); [|apply He]. cbn [app read_playlist]. by apply He.
Qed.

(** no tag is left over: as many as there are breaks *)
Lemma entries_breaks iso q p segs : breaks (playlist_entries iso q (sg_end_ts <$> p) segs) = length (List.filter sh_break (shown_all iso p segs)).
Proof.
  revert p. induction segs as [|s segs IH]; intros p; [done|]. cbn [playlist_entries shown_all]. unfold breaks in *. rewrite !List.filter_app, !length_app. change (Some (sg_end_ts s)) with (sg_end_ts <$> Some s). rewrite (IH (Some s)).
  assert (Hn : forall d l u, List.filter (fun l => bool_decide (l = "#EXT-X-DISCONTINUITY"%string)) ["#EXT-X-PROGRAM-DATE-TIME:" +:+ d; "#EXTINF:" +:+ l; SEGMENT_URI +:+ u] = [])
    by (intros d l u; cbn [List.filter]; by rewrite !bool_decide_eq_false_2 by discriminate).
  rewrite Hn. cbn [List.filter]. unfold shown at 1. cbn [sh_break]. destruct p as [p|]; cbn [fmap option_fmap option_map]; [|done]. by destruct (SEC <? _).
Qed.

Lemma target_fold l m s : s ∈ l -> ceil_seconds (shown_ms s) <= foldl (fun m s => Z.max m (ceil_seconds (shown_ms s))) m l.
Proof.
  assert (Hm : forall l m, m <= foldl (fun m s => Z.max m (ceil_seconds (shown_ms s))) m l) by (clear; intros l; induction l as [|x l IH]; intros m; cbn; [lia|]; specialize (IH (Z.max m (ceil_seconds (shown_ms x)))); lia).
  revert m. induction l as [|x l IH]; intros m; [by intros ?%elem_of_nil|]. intros [->|H]%elem_of_cons; cbn; [|by apply IH].
  specialize (Hm l (Z.max m (ceil_seconds (shown_ms x)))). lia.
Qed.

(** C31: A playlist holds the main segments that meet the window, in order of time and each
    once.  A player that reads it finds, for each, its starting instant and its length right
    before its address, and a break there exactly when the segment starts more than a second
    after the one before it ended; no other break is marked.  The announced target duration
    is one no segment exceeds. *)
Theorem playlist_plays_the_window iso cam start end_ token transcode t :
  let segs := get_range cam start end_ (Some "main"%string) t in
  let lines := build_m3u8 iso cam start end_ token transcode t in
  read_playlist false None None lines = shown_all iso None segs /\ sh_id <$> shown_all iso None segs = sg_id <$> segs /\
  breaks lines = length (List.filter sh_break (shown_all iso None segs)) /\ sorted_on sg_start_ts segs /\
  (forall s, s ∈ segs <-> s ∈ t_segments t /\ sg_camera_id s = cam /\ sg_corrupt s = false /\ sg_stream_role s = "main"%string /\ sg_start_ts s < end_ /\ start < sg_end_ts s) /\
  In ("#EXT-X-TARGETDURATION:" +:+ pretty (target_duration segs)) lines /\
  (forall s, s ∈ segs -> shown_ms s <= target_duration segs * 1000).
Proof.
  intros segs lines. split_and!.
  - unfold lines, build_m3u8. fold segs. cbn [app read_playlist]. rewrite !bool_decide_eq_false_2 by discriminate.
    etransitivity; [apply (read_entries iso _ None segs ["#EXT-X-ENDLIST"%string])|]. apply app_nil_r.
  - apply shown_ids.
  - unfold lines, build_m3u8, breaks. rewrite !List.filter_app, !length_app. fold segs. cbn [List.filter].
    rewrite !bool_decide_eq_false_2 by discriminate. cbn [length]. rewrite Nat.add_0_r. apply (entries_breaks iso _ None).
  - apply sort_on_sorted.
  - intros s. unfold segs. rewrite elem_of_get_range. tauto.
  - right. right. right. by left.
  - intros s Hs. assert (Hc : forall ms, ms <= ceil_seconds ms * 1000) by (intros ms; unfold ceil_seconds; Z.to_euclidean_division_equations; lia).
    specialize (Hc (shown_ms s)). unfold target_duration. destruct segs as [|x l]; [by apply elem_of_nil in Hs|].
    apply elem_of_cons in Hs as [->|Hs]; [|pose proof (target_fold l (ceil_seconds (shown_ms x)) s Hs); lia].
    assert (Hm : forall l m, m <= foldl (fun m s => Z.max m (ceil_seconds (shown_ms s))) m l) by (clear; intros l; induction l as [|y l IH]; intros m; cbn; [lia|]; specialize (IH (Z.max m (ceil_seconds (shown_ms y)))); lia).
    specialize (Hm l (ceil_seconds (shown_ms x))). lia.
Qed.

(** ** The offload to encoder nodes *)

Lemma least_loaded_spec load l best n : least_loaded load best l = Some n ->
  (best = Some n \/ (n ∈ l /\ load n < Z.max 2 (n_capacity n * 2))) /\
  (forall b, best = Some b -> load n <= load b) /\ (forall x, x ∈ l -> load x < Z.max 2 (n_capacity x * 2) -> load n <= load x).
Proof.
  revert best. induction l as [|x l IH]; intros best H; cbn [least_loaded] in H.
  - subst best. split; [by left|]. split; [intros b [= ->]; lia|by intros ? ?%elem_of_nil].
  - destruct (Z.leb_spec (Z.max 2 (n_capacity x * 2)) (load x)).
    + destruct (IH _ H) as (A & B & C). split; [destruct A as [?|[? ?]]; [by left|right; split; [by right|done]]|]. split; [done|].
      intros y [->|Hy]%elem_of_cons Hl; [lia|by apply C].
    + destruct best as [b|]; [destruct (Z.ltb_spec (load x) (load b))|]; destruct (IH _ H) as (A & B & C).
      * split; [right; destruct A as [[= <-]|[? ?]]; [split; [by left|done]|split; [by right|done]]|]. specialize (B x eq_refl).
        split; [intros b' [= <-]; lia|]. intros y [->|Hy]%elem_of_cons Hl; [done|by apply C].
      * split; [destruct A as [?|[? ?]]; [by left|right; split; [by right|done]]|]. split; [done|]. specialize (B b eq_refl).
        intros y [->|Hy]%elem_of_cons Hl; [lia|by apply C].
      * split; [right; destruct A as [[= <-]|[? ?]]; [split; [by left|done]|split; [by right|done]]|]. specialize (B x eq_refl).
        split; [done|]. intros y [->|Hy]%elem_of_cons Hl; [done|by apply C].
Qed.

Lemma least_loaded_none load l : least_loaded load None l = None -> forall n, n ∈ l -> Z.max 2 (n_capacity n * 2) <= load n.
Proof.
  assert (Hs : forall b l, is_Some (least_loaded load (Some b) l)).
  { intros b l'. revert b. induction l' as [|x l' IH]; intros b; [done|]. cbn. destruct (_ <=? _); [done|]. by destruct (_ <? _). }
  induction l as [|x l IH]; intros H n; [by intros ?%elem_of_nil|]. cbn [least_loaded] in H.
  destruct (Z.leb_spec (Z.max 2 (n_capacity x * 2)) (load x)); [|destruct (Hs x l) as [y Hy]; congruence].
  intros [->|Hn]%elem_of_cons; [done|by apply IH].
Qed.

(** the number behind a key *)
Definition gauge (now : Z) (k : string) (r : redis) : Z :=
  match r_get now k r with Some (Some (RNum n)) => n | Some (Some (RText t)) => default 0 (py_int t) | _ => 0 end.
Lemma gauge_put now k k' n e r : r_up r = true -> live now (RNum n, e) = true -> gauge now k' (r_put k (RNum n, e) r) = if bool_decide (k' = k) then n else gauge now k' r.
Proof.
  intros Hu Hl. unfold gauge, r_get. cbn [r_up r_put]. rewrite Hu. case_bool_decide as Hk.
  - subst k'. by rewrite r_lookup_put_eq.
  - by rewrite r_lookup_put_ne.
Qed.

(** counting a request in and out again *)
Lemma gauge_restored key now r k : let '(counted, r1) := gauge_up key now r in
  gauge now k (if counted then match r_decr now key r1 with Some (_, r') => r' | None => r1 end else r1) = gauge now k r.
Proof.
  assert (Hlive : forall v, live now (v, Some (now + 120 * SEC)) = true) by (intros v; unfold live, SEC; cbn; apply Z.ltb_lt; lia).
  unfold gauge_up, r_incr. destruct (r_up r) eqn:Eu; [|done].
  assert (Hin : forall n e x, gauge now key r = x -> n = x + 1 -> live now (RNum n, e) = true ->
    let r0 := r_put key (RNum n, e) r in
    let '(counted, r1) := match r_expire now key 120 r0 with Some r2 => (true, r2) | None => (false, r0) end in
    gauge now k (if counted then match r_decr now key r1 with Some (_, r') => r' | None => r1 end else r1) = gauge now k r).
  { intros n e x Hx -> He r0. unfold r_expire. cbn [r_up r0 r_put]. rewrite Eu. unfold r0. rewrite r_lookup_put_eq by done.
    unfold r_decr. cbn [r_up r_put]. rewrite Eu, r_lookup_put_eq by done. rewrite !gauge_put by done. case_bool_decide; [subst; lia|done]. }
  destruct (r_lookup now key r) as [[[t|n] e]|] eqn:El; [done|..].
  - apply (Hin (n + 1) e n); [|done|].
    + unfold gauge, r_get. by rewrite Eu, El.
    + unfold r_lookup in El. destruct (r_store r !! key) as [v|]; [|done]. destruct (live now v) eqn:Ev; [|done]. injection El as ->. exact Ev.
  - apply (Hin 1 None 0); [|done|done]. unfold gauge, r_get. by rewrite Eu, El.
Qed.

(** nothing in Redis moved but the gauges of encoder nodes, which show what they showed *)
Definition gauges_kept (now : Z) (r r' : redis) : Prop :=
  r_up r' = r_up r /\ (forall k, (forall id, k <> inflight_key id) -> r_store r' !! k = r_store r !! k) /\
  forall id, gauge now (inflight_key id) r' = gauge now (inflight_key id) r.

Lemma gauge_up_elsewhere key now r : let '(counted, r1) := gauge_up key now r in
  let r' := if counted then match r_decr now key r1 with Some (_, r2) => r2 | None => r1 end else r1 in
  r_up r' = r_up r /\ forall k, k <> key -> r_store r' !! k = r_store r !! k.
Proof.
  destruct (r_up r) eqn:Eu; [|unfold gauge_up, r_incr; by rewrite Eu].
  assert (Hput : forall e r0, (r_up r0 = true /\ forall k, k <> key -> r_store r0 !! k = r_store r !! k) ->
    r_up (r_put key e r0) = true /\ forall k, k <> key -> r_store (r_put key e r0) !! k = r_store r !! k)
    by (intros e r0 [Hu Hk]; split; [done|]; intros k Hne; cbn; rewrite lookup_insert_ne by done; by apply Hk).
  unfold gauge_up. destruct (r_incr now key r) as [[n r1]|] eqn:Ei; [|done].
  assert (H1 : r_up r1 = true /\ forall k, k <> key -> r_store r1 !! k = r_store r !! k).
  { unfold r_incr in Ei. rewrite Eu in Ei. destruct (r_lookup _ _ _) as [[[] ?]|]; simplify_eq; by apply Hput. }
  destruct (r_expire now key 120 r1) as [r2|] eqn:Ee; [|done].
  assert (H2 : r_up r2 = true /\ forall k, k <> key -> r_store r2 !! k = r_store r !! k).
  { unfold r_expire in Ee. rewrite (proj1 H1) in Ee. destruct (r_lookup _ _ _) as [[? ?]|]; simplify_eq; [by apply Hput|done]. }
  unfold r_decr. rewrite (proj1 H2). destruct (r_lookup _ _ _) as [[[] ?]|]; try done; by apply Hput.
Qed.

(** whatever an offload meets, that is all it does to the world *)
Lemma offload_leaves endpoint size sent s : exists r, snd (transcode_segment endpoint size sent s) = set_tok (set_redis r (s_tok s)) s /\
  gauges_kept (s_now s) (w_redis (s_tok s)) r.
Proof.
  assert (Hs : exists r, s = set_tok (set_redis r (s_tok s)) s /\ gauges_kept (s_now s) (w_redis (s_tok s)) r) by (exists (w_redis (s_tok s)); split; [by destruct s as [[]]|by split_and!]).
  unfold transcode_segment. destruct (negb _); [done|]. destruct (pick_node _ _) as [n|]; [|done]. destruct size as [z|]; [|done]. destruct (_ || _); [done|].
  pose proof (fun k => gauge_restored (inflight_key (n_id n)) (s_now s) (w_redis (s_tok s)) k) as Hg. pose proof (gauge_up_elsewhere (inflight_key (n_id n)) (s_now s) (w_redis (s_tok s))) as He.
  destruct (gauge_up _ _ _) as [counted r1]. eexists. split; [reflexivity|]. destruct He as [Hu He]. split; [exact Hu|]. split; [|intros id; apply Hg].
  intros k Hk. apply He, Hk.
Qed.

(** A rendition is offloaded to a schedulable encoder node with an address that has the
    fewest in flight of those that may take one more, to none only when all are saturated;
    afterwards every gauge shows what it showed before, whatever the node answered and
    whether Redis works or not. *)
Theorem offload_balances endpoint size sent s :
  let nodes := List.filter (fun n => truthy_str (endpoint (n_id n))) (encode_schedulable (s_nodes s)) in
  let load n := inflight_of (n_id n) s in
  (forall n, pick_node endpoint s = Some n -> n ∈ nodes /\ load n < Z.max 2 (n_capacity n * 2) /\
     forall x, x ∈ nodes -> load x < Z.max 2 (n_capacity x * 2) -> load n <= load x) /\
  (pick_node endpoint s = None -> forall n, n ∈ nodes -> Z.max 2 (n_capacity n * 2) <= load n) /\
  (forall id, inflight_of id (snd (transcode_segment endpoint size sent s)) = inflight_of id s).
Proof.
  intros nodes load. split; [|split].
  - intros n Hn. apply least_loaded_spec in Hn as ([?|[Hin Hl]] & _ & Hx); done.
  - intros Hn n. by apply least_loaded_none.
  - intros id. unfold transcode_segment. destruct (negb _); [done|]. destruct (pick_node _ _) as [n|]; [|done]. destruct size as [z|]; [|done].
    destruct (_ || _); [done|]. pose proof (gauge_restored (inflight_key (n_id n)) (s_now s) (w_redis (s_tok s)) (inflight_key id)) as H.
    destruct (gauge_up _ _ _) as [counted r1]. exact H.
Qed.

(** ** Who gets recorded media *)

Section Access.
Context {J : JwtLib} (iso_utc : Z -> string) (mpegts : Segment -> bool) (mtime : Z * string -> option Z) (endpoint : Z -> option string).
Context (grab : Z * string -> Z -> option string).

(** the request's user may play back the camera with this id *)
Definition may_play (rq : Request) (camera_id : Z) (w : MediaWorld) : Prop :=
  exists tok u claims c, media_token rq = Some tok /\ signed_in tok u claims (me_tok w) /\
    c ∈ cw_rows (lv_cams (me_live w)) /\ cr_id c = camera_id /\ cr_deleted_at c = None /\
    has (Some (subject_of u (me_tok w))) "playback" "read" = true /\ has_camera_scope (Some (subject_of u (me_tok w))) (cr_uuid c) "view" = true.

Lemma media_auth_signed rq w u tok : media_auth rq w = Some (u, tok) -> media_token rq = Some tok /\ exists claims, signed_in tok u claims (me_tok w).
Proof.
  unfold media_auth. destruct (media_token rq) as [t|]; [|done]. case_bool_decide; [done|].
  destruct (verify_access t (me_tok w)) as [[e|[u0 claims]] w0] eqn:E; [done|]. cbn [fst]. apply verify_access_signed in E as [_ Hs].
  intros [= -> ->]. split; [done|]. by exists claims.
Qed.

Lemma media_camera_rights u uuid w c : media_camera u uuid w = Some c ->
  has (Some (subject_of u (me_tok w))) "playback" "read" = true /\ has_camera_scope (Some (subject_of u (me_tok w))) uuid "view" = true /\
  c ∈ cw_rows (lv_cams (me_live w)) /\ cr_uuid c = uuid /\ cr_deleted_at c = None.
Proof.
  unfold media_camera. destruct (has _ _ _) eqn:Hh; [|done]. destruct (has_camera_scope _ _ _) eqn:Hc; [|done]. cbn [negb].
  unfold get_by_uuid. destruct (List.find _ _) as [c0|] eqn:Ef; [|done]. cbn [fst]. intros [= ->].
  apply find_some in Ef as [Hin%list_elem_of_In [Hu%bool_decide_eq_true Hl%bool_decide_eq_true]%andb_prop]. done.
Qed.

(** the requests of the module *)
Inductive MediaReq :=
| RHls (camera_uuid : string) (from to : option string) (transcode : bool)
| RSegmentHls (segment_id : Z) (transcode : bool) (run : Render)
| RSegmentData (segment_id : Z)
| RFrame (camera_uuid : string) (ts : option string)
| RThumb (segment_id : Z).
Definition serve (rq : Request) (r : MediaReq) (w : MediaWorld) : MediaAnswer * MediaWorld :=
  match r with
  | RHls uuid from to h264 => (hls iso_utc rq uuid from to h264 w, w)
  | RSegmentHls id h264 run => segment_hls mpegts mtime endpoint rq id h264 run w
  | RSegmentData id => segment_data rq id w
  | RFrame uuid ts => (frame_at grab rq uuid ts w, w)
  | RThumb id => thumb grab rq id w
  end.

(** what is sent is the segment's own: its file, its rendition, or a picture cut from its file or kept for it *)
Definition of_segment (s : Segment) (x : Sent) (w : MediaWorld) : Prop :=
  match x with
  | SentFile f => segment_abs s (me_store w) = Some f
  | SentRendition key => exists h264, key = (sg_disk_id s, sg_camera_id s, sg_id s, h264)
  | SentPicture jpeg => cached_thumb (sg_id s) w = Some jpeg \/ exists f at_us, segment_abs s (me_store w) = Some f /\ grab f at_us = Some jpeg
  end.

Lemma with_segment_spec rq id w k a w' : with_segment rq id w k = (a, w') -> 
  (exists s, segment_row id (me_store w) = Some s /\ may_play rq (sg_camera_id s) w /\ k s = (a, w')) \/
  match a with MSent _ | MPlaylist _ => False | _ => w' = w end.
Proof.
  unfold with_segment. destruct (media_auth rq w) as [[u tok]|] eqn:Ea; [|intros [= <- <-]; by right].
  destruct (segment_row id _) as [s|]; [|intros [= <- <-]; by right].
  destruct (camera_get_by_id _ _) as [c|] eqn:Ec; [|intros [= <- <-]; by right].
  destruct (media_camera u (cr_uuid c) w) as [c'|] eqn:Em; [|intros [= <- <-]; by right]. intros Hk. left. exists s. split; [done|]. split; [|done].
  apply media_auth_signed in Ea as [Ht [claims Hs]]. apply media_camera_rights in Em as (Hp & Hv & _).
  unfold camera_get_by_id in Ec. apply find_some in Ec as [Hc%list_elem_of_In [Hid%Z.eqb_eq Hl%bool_decide_eq_true]%andb_prop]. by exists tok, u, claims, c.
Qed.

Lemma segment_row_in id t s : segment_row id t = Some s -> s ∈ t_segments t /\ sg_id s = id.
Proof. unfold segment_row. intros H. apply find_some in H as [Hin%list_elem_of_In He%Z.eqb_eq]. done. Qed.
Lemma get_at_in cam ts t s : get_at cam ts t = Some s -> s ∈ t_segments t /\ sg_camera_id s = cam /\ sg_start_ts s <= ts < sg_end_ts s.
Proof.
  unfold get_at. intros H. assert (Hin : s ∈ sort_on (fun s => - sg_start_ts s) (List.filter (fun s => (sg_camera_id s =? cam) && (sg_start_ts s <=? ts) && (ts <? sg_end_ts s)) (t_segments t)))
    by (destruct (sort_on _ _); [done|]; injection H as ->; by left).
  rewrite elem_of_sort_on, elem_of_filter_In, !andb_true_iff, Z.eqb_eq, Z.leb_le, Z.ltb_lt in Hin. tauto.
Qed.

Lemma ensure_own s src h264 run w x w' : segment_abs s (me_store w) = Some src -> ensure_hls_ts mpegts mtime endpoint s src h264 run w = (Some x, w') -> of_segment s x w.
Proof.
  intros Hs. unfold ensure_hls_ts. destruct (_ && _); [by intros [= <- _]|]. destruct (negb _); [done|]. destruct (negb _); [done|]. cbv zeta.
  destruct (match me_hls w !! _ with Some _ => _ | None => _ end); [intros [= <- _]; by exists h264|].
  destruct (if h264 then _ else _) as [sent w1]. destruct sent; [intros [= <- _]; by exists h264|].
  destruct (_ <? _); [intros [= <- _]; by exists h264|done].
Qed.

(** where no rendition comes of it, the world is as it was but for the gauges *)
Lemma ensure_none s src h264 run w w' : ensure_hls_ts mpegts mtime endpoint s src h264 run w = (None, w') ->
  w' = w \/ (h264 = true /\ exists rd, w' = set_me_sched (set_tok (set_redis rd (me_tok w)) (me_sched w)) w /\ gauges_kept (s_now (me_sched w)) (w_redis (me_tok w)) rd).
Proof.
  unfold ensure_hls_ts. destruct (_ && _); [done|]. destruct (negb _); [intros [= <-]; by left|]. destruct (negb _); [intros [= <-]; by left|]. cbv zeta.
  destruct (match me_hls w !! _ with Some _ => _ | None => _ end); [done|]. destruct h264.
  - pose proof (offload_leaves endpoint (rr_size run) (bool_decide (is_Some (rr_sent run))) (me_sched w)) as (rd & Hr & Hg).
    destruct (transcode_segment _ _ _ _) as [ok s1]. cbn [snd] in Hr. subst s1. destruct ok; [done|]. destruct (_ <? _); [done|]. intros [= <-]. right. eauto.
  - destruct (_ <? _); [done|]. intros [= <-]. by left.
Qed.

(** C30: Recorded media reaches entitled users only, and is what was asked for.  Whatever a
    media request gets — the file of a segment, a rendition, a picture — belongs to a
    segment of the index whose camera the request's signed-in active user may play back,
    the asked one; a playlist is that of a camera they may play back, with their own token
    in its addresses.  Every other answer leaves the whole world as it was, but for one: when
    a rendition they may play was tried in vain, the gauges of the encoder nodes in Redis,
    which still show what they showed. *)
Theorem recorded_media_needs_scope rq r w a w' : serve rq r w = (a, w') ->
  match a with
  | MSent x => exists s, s ∈ t_segments (me_store w) /\ may_play rq (sg_camera_id s) w /\ of_segment s x w /\
      match r with
      | RSegmentHls id _ _ | RSegmentData id | RThumb id => sg_id s = id
      | RFrame _ ts => exists t, parse_ms ts = Some t /\ sg_start_ts s <= t < sg_end_ts s
      | RHls _ _ _ _ => False
      end
  | MPlaylist lines => exists uuid from to h264 c a b tok, r = RHls uuid from to h264 /\ cr_uuid c = uuid /\ may_play rq (cr_id c) w /\ media_token rq = Some tok /\
      parse_ms from = Some a /\ parse_ms to = Some b /\ lines = build_m3u8 iso_utc (cr_id c) a b tok h264 (me_store w) /\ w' = w
  | _ => w' = w \/ exists id run s rd, r = RSegmentHls id true run /\ a = MNotFound "segment_unavailable" /\
      s ∈ t_segments (me_store w) /\ sg_id s = id /\ may_play rq (sg_camera_id s) w /\
      w' = set_me_sched (set_tok (set_redis rd (me_tok w)) (me_sched w)) w /\ gauges_kept (s_now (me_sched w)) (w_redis (me_tok w)) rd
  end.
Proof.
  destruct r as [uuid from to h264|id h264 run|id|uuid ts|id]; cbn [serve]; intros H.
  - injection H as <- <-. unfold hls. destruct (media_auth rq w) as [[u tok]|] eqn:Ea; [|by left]. destruct (media_camera u uuid w) as [c|] eqn:Em; [|by left].
    destruct (parse_ms from) as [a|] eqn:E1; [|by left]. destruct (parse_ms to) as [b|] eqn:E2; [|by left].
    apply media_auth_signed in Ea as [Ht [claims Hs]]. apply media_camera_rights in Em as (Hp & Hv & Hin & Hu & Hd).
    exists uuid, from, to, h264, c, a, b, tok. split_and!; try done. exists tok, u, claims, c. by rewrite Hu.
  - apply with_segment_spec in H as [(s & Hs & Hm & Hk)|Hn]; [|destruct a; (done || by left)].
    apply segment_row_in in Hs as [Hin Hid]. destruct (segment_abs s (me_store w)) as [src|] eqn:Esrc; [|injection Hk as <- <-; by left].
    destruct (ensure_hls_ts _ _ _ _ _ _ _ _) as [[x|] w1] eqn:E; injection Hk as <- <-; [exists s; split_and!; try done; by eapply ensure_own|].
    apply ensure_none in E as [->|(-> & rd & -> & Hg)]; [by left|]. right. exists id, run, s, rd. done.
  - apply with_segment_spec in H as [(s & Hs & Hm & Hk)|Hn]; [|destruct a; (done || by left)].
    apply segment_row_in in Hs as [Hin Hid]. destruct (segment_abs s (me_store w)) as [src|] eqn:Esrc; injection Hk as <- <-; [by exists s|by left].
  - injection H as <- <-. unfold frame_at. destruct (media_auth rq w) as [[u tok]|] eqn:Ea; [|by left]. destruct (media_camera u uuid w) as [c|] eqn:Em; [|by left].
    destruct (parse_ms ts) as [t|] eqn:Et; [|by left]. destruct (get_at _ _ _) as [s|] eqn:Eg; [|by left]. destruct (segment_abs s _) as [f|] eqn:Ef; [|by left].
    destruct (grab f _) as [jpeg|] eqn:Ej; [|by left]. apply get_at_in in Eg as (Hin & Hc & Ht). exists s. split; [done|]. split; [|split; [|by exists t]].
    + apply media_auth_signed in Ea as [Htk [claims Hs]]. apply media_camera_rights in Em as (Hp & Hv & Hcin & Hu & Hd). exists tok, u, claims, c. by rewrite Hu.
    + right. eauto.
  - apply with_segment_spec in H as [(s & Hs & Hm & Hk)|Hn]; [|destruct a; (done || by left)].
    apply segment_row_in in Hs as [Hin Hid]. destruct (cached_thumb id w) as [j|] eqn:Ec; [injection Hk as <- <-; exists s; split_and!; try done; left; by rewrite Hid|].
    destruct (segment_abs s (me_store w)) as [f|] eqn:Ef; [|injection Hk as <- <-; by left]. destruct (grab f 0) as [j|] eqn:Ej; injection Hk as <- <-; [|by left].
    exists s. split_and!; try done. right. eauto.
Qed.
End Access.

(** ** Concrete requests *)

#[local] Existing Instance toy_jwt.

Definition demo_segment (id start dur_ms : Z) (corrupt : bool) : Segment :=
  {| sg_id := id; sg_camera_id := 1; sg_disk_id := 7; sg_rel_path := "1/" +:+ pretty id +:+ ".ts"; sg_start_ts := start * SEC; sg_end_ts := start * SEC + dur_ms * 1000;
     sg_duration_ms := dur_ms; sg_size_bytes := 1000; sg_reason := "continuous"; sg_storage_tier := "record"; sg_stream_role := "main"; sg_corrupt := corrupt |}.
Definition demo_media (segs : list Segment) : MediaWorld :=
  {| me_live := demo_live; me_store := set_segments segs (set_files (list_to_set ((fun s => (sg_disk_id s, sg_rel_path s)) <$> segs)) demo_store); me_hls := ∅ |}.
Definition demo_footage : MediaWorld := demo_media [demo_segment 7 100 10000 false; demo_segment 8 110 9500 false; demo_segment 9 125 4001 false].
Definition demo_media_request : Request := demo_request "GET" "/api/v1/playback" (rq_authorization demo_call).
Definition demo_grab (f : Z * string) (at_us : Z) : option string := Some (String (Ascii.ascii_of_nat 255) (String (Ascii.ascii_of_nat 216) (snd f))).

Lemma recorded_media_needs_scope_witness :
  exists s, s ∈ t_segments (me_store demo_footage) /\ may_play demo_media_request (sg_camera_id s) demo_footage /\ sg_id s = 8 /\ segment_abs s (me_store demo_footage) = Some (7, "1/8.ts"%string).
Proof.
  destruct (serve pretty (fun _ => true) (fun _ => None) (fun _ => None) demo_grab demo_media_request (RSegmentData 8) demo_footage) as [a w'] eqn:E.
  pose proof (recorded_media_needs_scope pretty (fun _ => true) (fun _ => None) (fun _ => None) demo_grab demo_media_request (RSegmentData 8) demo_footage a w' E) as H.
  assert (Ha : a = MSent (SentFile (7, "1/8.ts"%string))) by (change a with (fst (a, w')); rewrite <- E; by vm_compute). subst a.
  destruct H as (s & Hs & Hm & Ho & Hid). exists s. exact (conj Hs (conj Hm (conj Hid Ho))).
Defined.

Example playlist_of_the_footage :
  build_m3u8 pretty 1 (100 * SEC) (200 * SEC) "tok" false (me_store demo_footage) =
  ["#EXTM3U"; "#EXT-X-VERSION:3"; "#EXT-X-PLAYLIST-TYPE:VOD"; "#EXT-X-TARGETDURATION:10"; "#EXT-X-MEDIA-SEQUENCE:0";
   "#EXT-X-PROGRAM-DATE-TIME:100000000"; "#EXTINF:10.000,"; "/api/v1/playback/segments/7/hls?access_token=tok";
   "#EXT-X-PROGRAM-DATE-TIME:110000000"; "#EXTINF:9.500,"; "/api/v1/playback/segments/8/hls?access_token=tok"; "#EXT-X-DISCONTINUITY";
   "#EXT-X-PROGRAM-DATE-TIME:125000000"; "#EXTINF:4.001,"; "/api/v1/playback/segments/9/hls?access_token=tok"; "#EXT-X-ENDLIST"]%string.
Proof. by vm_compute. Qed.

(** The cache of pictures is read with the client that decodes text: a JPEG, which starts
    with a byte that is in no UTF-8 text, is never found again. *)
Lemma jpeg_does_not_decode r : latin1_of_utf8 (String (Ascii.ascii_of_nat 255) r) = None.
Proof. by destruct r. Qed.
Example thumb_cache_never_hits :
  let w1 := snd (thumb demo_grab demo_media_request 8 demo_footage) in
  is_Some (r_lookup (s_now (me_sched w1)) (thumb_key 8) (w_redis (me_tok w1))) /\ cached_thumb 8 w1 = None.
Proof. split; [|by vm_compute]. apply (bool_decide_unpack _). by vm_compute. Qed.

(** The picture of an instant may be cut from a segment that is marked as corrupt, which
    playlists leave out. *)
Example frame_of_a_corrupt_segment :
  let w := demo_media [demo_segment 7 100 10000 false; demo_segment 8 105 5000 true] in
  frame_at demo_grab demo_media_request "1" (Some "106000"%string) w = MSent (SentPicture (default "" (demo_grab (7, "1/8.ts"%string) 0))) /\ uris (build_m3u8 pretty 1 (100 * SEC) (200 * SEC) "tok" false (me_store w)) = [7].
Proof. split; by vm_compute. Qed.
