(* ===== verification/Sharing.v ===== *)
(** * Share links

    src/server/service/share_link.py, controller/share_link.py, model/share_link.py.

    sha256 of tokens and of peppered passwords are parameters ([hash_token],
    [hash_password]); the n-th [secrets.token_urlsafe] is a parameter too.  The
    [share_links] feature flag is a parameter.  Cameras are a map from uuid and id.
    What the viewer gets is the status, the window and the segments. *)

From S2P Require Import Prelude PyStr Redis Permission Token Storage EventPipeline.
Local Open Scope Z_scope.

Record ShareLink := {
  sl_id : Z;
  sl_token_hash : string;
  sl_kind : string;
  sl_camera_id : Z;
  sl_target_ref : option Z;            (* the event's id *)
  sl_range_start : option Z;
  sl_range_end : option Z;
  sl_password_hash : option string;
  sl_max_views : option Z;
  sl_view_count : Z;
  sl_expires_at : option Z;
  sl_revoked_at : option Z;
  sl_created_by_id : option Z;
  sl_deleted_at : option Z
}.

Record ShareWorld := { sw_ew : EventWorld; sw_links : list ShareLink }.

Definition sw_now (w : ShareWorld) : Z := ew_now (sw_ew w).
Definition set_links (l : list ShareLink) (w : ShareWorld) : ShareWorld := {| sw_ew := sw_ew w; sw_links := l |}.
Definition set_sw_ew (e : EventWorld) (w : ShareWorld) : ShareWorld := {| sw_ew := e; sw_links := sw_links w |}.

(** ** Rows (model/share_link.py) *)

Definition get_by_hash (h : string) (w : ShareWorld) : option ShareLink :=
  List.find (fun l => bool_decide (sl_token_hash l = h) && bool_decide (sl_deleted_at l = None)) (sw_links w).

Definition link_get_by_id (id : Z) (w : ShareWorld) : option ShareLink :=
  List.find (fun l => (sl_id l =? id) && bool_decide (sl_deleted_at l = None)) (sw_links w).

Definition link_is_live (now : Z) (l : ShareLink) : bool :=
  bool_decide (sl_revoked_at l = None) &&
  negb match sl_expires_at l with Some e => e <=? now | None => false end &&
  negb match sl_max_views l with Some m => m <=? sl_view_count l | None => false end.

Definition status_reason (now : Z) (l : ShareLink) : option string :=
  if bool_decide (sl_revoked_at l <> None) then Some "revoked"%string
  else if match sl_expires_at l with Some e => e <=? now | None => false end then Some "expired"%string
  else if match sl_max_views l with Some m => m <=? sl_view_count l | None => false end then Some "exhausted"%string
  else None.

Definition add_view (l : ShareLink) : ShareLink :=
  {| sl_id := sl_id l; sl_token_hash := sl_token_hash l; sl_kind := sl_kind l; sl_camera_id := sl_camera_id l;
     sl_target_ref := sl_target_ref l; sl_range_start := sl_range_start l; sl_range_end := sl_range_end l;
     sl_password_hash := sl_password_hash l; sl_max_views := sl_max_views l; sl_view_count := sl_view_count l + 1;
     sl_expires_at := sl_expires_at l; sl_revoked_at := sl_revoked_at l; sl_created_by_id := sl_created_by_id l;
     sl_deleted_at := sl_deleted_at l |}.

(** the atomic UPDATE by id *)
Definition register_view (id : Z) (w : ShareWorld) : ShareWorld :=
  set_links ((fun l => if sl_id l =? id then add_view l else l) <$> sw_links w) w.

Definition revoke_row (now : Z) (l : ShareLink) : ShareLink :=
  {| sl_id := sl_id l; sl_token_hash := sl_token_hash l; sl_kind := sl_kind l; sl_camera_id := sl_camera_id l;
     sl_target_ref := sl_target_ref l; sl_range_start := sl_range_start l; sl_range_end := sl_range_end l;
     sl_password_hash := sl_password_hash l; sl_max_views := sl_max_views l; sl_view_count := sl_view_count l;
     sl_expires_at := sl_expires_at l; sl_revoked_at := Some now; sl_created_by_id := sl_created_by_id l;
     sl_deleted_at := sl_deleted_at l |}.

Definition put_link (l : ShareLink) (w : ShareWorld) : ShareWorld :=
  set_links ((fun x => if sl_id x =? sl_id l then l else x) <$> sw_links w) w.

Definition DEFAULT_EXPIRY_S : Z := 7 * 24 * 3600.
Definition MAX_EXPIRY_S : Z := 30 * 24 * 3600.
Definition PW_ATTEMPT_LIMIT : Z := 10.
Definition PW_WINDOW_S : Z := 300.

Section Share.
Context (hash_token hash_password : string -> string) (new_token : Z -> string).
Context (camera_of_uuid : string -> option Z) (uuid_of_camera : Z -> option string) (flag : bool).

(** ** Service (share_link.py) *)

Definition create_link (kind : string) (camera_id : Z) (target : option Z) (start end_ : Z) (password : option string)
    (max_views expires_in_s : option Z) (actor_id : Z) (w : ShareWorld) : ShareLink * string * ShareWorld :=
  let ttl := if truthy_Z expires_in_s then Z.min (default 0 expires_in_s) MAX_EXPIRY_S else DEFAULT_EXPIRY_S in
  let '(id, e1) := fresh_id (sw_ew w) in
  let token := new_token id in
  let l := {| sl_id := id; sl_token_hash := hash_token token; sl_kind := kind; sl_camera_id := camera_id;
              sl_target_ref := target; sl_range_start := Some start; sl_range_end := Some end_;
              sl_password_hash := if truthy_str password then hash_password <$> password else None;
              sl_max_views := if truthy_Z max_views then max_views else None; sl_view_count := 0;
              sl_expires_at := Some (sw_now w + ttl * SEC); sl_revoked_at := None; sl_created_by_id := Some actor_id;
              sl_deleted_at := None |} in
  (l, token, {| sw_ew := e1; sw_links := sw_links w ++ [l] |}).

Definition resolve_link (token : string) (w : ShareWorld) : option ShareLink :=
  if bool_decide (token = ""%string) then None else get_by_hash (hash_token token) w.

Definition verify_password (l : ShareLink) (password : option string) : bool :=
  match sl_password_hash l with
  | None => true
  | Some h => match password with
              | Some p => if bool_decide (p = ""%string) then false else bool_decide (hash_password p = h)
              | None => false
              end
  end.

Definition pw_key (token : string) (ip : option string) : string :=
  "axp:share_pw:" +:+ stake 16 (hash_token token) +:+ ":" +:+ or_str ip "-".

(** an unreachable Redis allows the attempt *)
Definition rate_limit_ok (token : string) (ip : option string) (w : ShareWorld) : bool * ShareWorld :=
  let t := ew_store (sw_ew w) in
  let key := pw_key token ip in
  match r_incr (t_now t) key (t_redis t) with
  | None => (true, w)
  | Some (n, r1) =>
      let r2 := if n =? 1 then r_expire (t_now t) key PW_WINDOW_S r1 else Some r1 in
      (match r2 with Some _ => n <=? PW_ATTEMPT_LIMIT | None => true end,
       set_sw_ew (set_store (set_t_redis (default r1 r2) t) (sw_ew w)) w)
  end.

Definition segments_for (l : ShareLink) (w : ShareWorld) : list Segment :=
  match sl_range_start l, sl_range_end l with
  | Some a, Some b => get_range (sl_camera_id l) a b (Some "main"%string) (ew_store (sw_ew w))
  | _, _ => []
  end.

Definition authorize_segment (l : ShareLink) (seg : option Segment) : bool :=
  match seg with
  | None => false
  | Some s =>
      (sg_camera_id s =? sl_camera_id l) &&
      match sl_range_start l, sl_range_end l with
      | Some a, Some b => (sg_start_ts s <=? b) && (a <=? sg_end_ts s)
      | _, _ => false
      end
  end.

(** ** Controller (controller/share_link.py) *)

Definition EVENT_PRE : Z := 15 * SEC.
Definition EVENT_POST : Z := 30 * SEC.
Definition SM := M ShareWorld exn.

Definition guard_flag : SM unit := if flag then ret tt else raise NoPermissionException.

(** who calls: id and permissions *)
Record Caller := { cl_id : Z; cl_subject : option subject }.

Definition scoped (u : Caller) (uuid : string) : bool := has_camera_scope (cl_subject u) uuid "view".

Definition share_create (u : Caller) (kind : option string) (event_id : option Z) (camera_uuid : option string)
    (range_start range_end : option Z) (password : option string) (max_views expires_in_s : option Z) : SM (ShareLink * string) :=
  guard_flag ;;;
  let kind := or_str kind "clip" in
  let finish camera_id target start end_ : SM (ShareLink * string) :=
    (fun w => let '(l, token, w') := create_link kind camera_id target start end_ password max_views expires_in_s (cl_id u) w in
              (inr (l, token), w')) in
  if bool_decide (kind = "event"%string) then
    let! ev := gets (fun w => match event_id with Some i => event_get_by_id i (sw_ew w) | None => None end) in
    match ev with
    | None => raise RowNotFoundException
    | Some e =>
        match uuid_of_camera (ev_camera_id e) with
        | None => raise RowNotFoundException
        | Some uuid =>
            if negb (scoped u uuid) then raise NoPermissionException
            else finish (ev_camera_id e) (Some (ev_id e)) (ev_start_ts e - EVENT_PRE)
                   (default (ev_start_ts e) (ev_end_ts e) + EVENT_POST)
        end
    end
  else if bool_decide (kind = "clip"%string) then
    if negb (truthy_str camera_uuid) then raise (InvalidParameterException "camera_uuid required") else
    let uuid := default ""%string camera_uuid in
    match camera_of_uuid uuid with
    | None => raise RowNotFoundException
    | Some cam =>
        if negb (scoped u uuid) then raise NoPermissionException else
        match range_start, range_end with
        | Some a, Some b =>
            if b <=? a then raise (InvalidParameterException "range")
            else if 6 * 3600 * SEC <? b - a then raise (InvalidParameterException "range too long")
            else finish cam None a b
        | _, _ => raise (InvalidParameterException "range")
        end
    end
  else raise (InvalidParameterException "kind").

Definition share_revoke (u : Caller) (id : Z) : SM unit :=
  guard_flag ;;;
  let! o := gets (link_get_by_id id) in
  match o with
  | None => raise RowNotFoundException
  | Some l =>
      if negb (bool_decide (sl_created_by_id l = Some (cl_id u))) && negb (is_superuser (cl_subject u))
      then raise NoPermissionException
      else modify (fun w => put_link (revoke_row (sw_now w) l) w)
  end.

Inductive view :=
| VStatus (reason : string)
| VPassword
| VShown (camera_id start_ end_ : option Z) (segments : list Segment).

Definition public_view (token : string) (password ip : option string) : SM view :=
  let! o := gets (resolve_link token) in
  match o with
  | None => raise RowNotFoundException
  | Some l =>
      let! now := gets sw_now in
      match status_reason now l with
      | Some r => ret (VStatus r)
      | None =>
          let show : SM view :=
            modify (register_view (sl_id l)) ;;;
            (if bool_decide (is_Some (uuid_of_camera (sl_camera_id l))) then ret tt else raise RowNotFoundException) ;;;
            gets (fun w => VShown (Some (sl_camera_id l)) (sl_range_start l) (sl_range_end l) (segments_for l w)) in
          if bool_decide (sl_password_hash l <> None) then
            let! ok := (fun w => let '(b, w') := rate_limit_ok token ip w in (inr b, w')) in
            if negb ok then raise NoPermissionException
            else if negb (verify_password l password) then ret VPassword else show
          else show
      end
  end.

Definition segment_get_by_id (id : Z) (w : ShareWorld) : option Segment :=
  List.find (fun s => sg_id s =? id) (t_segments (ew_store (sw_ew w))).

Definition public_segment_path (token : string) (segment_id : Z) : SM Segment :=
  let! o := gets (resolve_link token) in
  let! now := gets sw_now in
  match o with
  | None => raise NoPermissionException
  | Some l =>
      if negb (link_is_live now l) then raise NoPermissionException else
      let! seg := gets (segment_get_by_id segment_id) in
      match seg with
      | Some s => if authorize_segment l (Some s) then ret s else raise NoPermissionException
      | None => raise NoPermissionException
      end
  end.
End Share.

(** ** Histories *)

Inductive share_op :=
| OCreate (u : Caller) (kind : option string) (event_id : option Z) (camera_uuid : option string)
    (range_start range_end : option Z) (password : option string) (max_views expires_in_s : option Z)
| ORevoke (u : Caller) (id : Z)
| OView (token : string) (password ip : option string)
| OOther (f : Store -> Store).                  (* recording, retention, time *)

Section ShareHistories.
Context (hash_token hash_password : string -> string) (new_token : Z -> string).
Context (camera_of_uuid : string -> option Z) (uuid_of_camera : Z -> option string) (flag : bool).

Definition share_step (o : share_op) (w : ShareWorld) : ShareWorld :=
  match o with
  | OCreate u kind ev uuid a b pw mv ex =>
      snd (share_create hash_token hash_password new_token camera_of_uuid uuid_of_camera flag u kind ev uuid a b pw mv ex w)
  | ORevoke u id => snd (share_revoke flag u id w)
  | OView token pw ip => snd (public_view hash_token hash_password uuid_of_camera token pw ip w)
  | OOther f => set_sw_ew (set_store (f (ew_store (sw_ew w))) (sw_ew w)) w
  end.

Definition share_run (w : ShareWorld) (ops : list share_op) : ShareWorld := foldl (fun w o => share_step o w) w ops.

(** A viewing changes at most one counter. *)
Lemma public_view_links token pw ip w :
  sw_links (snd (public_view hash_token hash_password uuid_of_camera token pw ip w)) = sw_links w \/
  exists l, resolve_link hash_token token w = Some l /\ status_reason (sw_now w) l = None /\
    sw_links (snd (public_view hash_token hash_password uuid_of_camera token pw ip w)) =
    (fun x => if sl_id x =? sl_id l then add_view x else x) <$> sw_links w.
Proof.
  unfold public_view, bind, gets, ret, raise, modify. destruct (resolve_link _ _ w) as [l|] eqn:Er; [|by left].
  destruct (status_reason _ l) eqn:Es; [by left|].
  assert (Hrl : forall b w', rate_limit_ok hash_token token ip w = (b, w') -> sw_links w' = sw_links w).
  { intros b w'. unfold rate_limit_ok. destruct (r_incr _ _ _) as [[n r]|]; by intros [= _ <-]. }
  case_bool_decide.
  - destruct (rate_limit_ok hash_token token ip w) as [ok w1] eqn:Erl. specialize (Hrl _ _ eq_refl).
    destruct ok; cbn [negb snd]; [|by left]. destruct (negb _); [by left|]. right. exists l. split; [done|]. split; [done|].
    rewrite <- Hrl. by case_bool_decide.
  - right. exists l. split; [done|]. split; [done|]. by case_bool_decide.
Qed.

(** Every link comes from a creation by someone with view scope on its camera. *)
Definition from_creation (ops : list share_op) (l : ShareLink) : Prop :=
  exists u kind ev uuid a b pw mv ex camera_uuid,
    OCreate u kind ev uuid a b pw mv ex ∈ ops /\ sl_created_by_id l = Some (cl_id u) /\ scoped u camera_uuid = true /\
    (uuid_of_camera (sl_camera_id l) = Some camera_uuid \/ camera_of_uuid camera_uuid = Some (sl_camera_id l)).

(** fields no later operation changes *)
Definition same_link (l l' : ShareLink) : Prop :=
  sl_id l' = sl_id l /\ sl_camera_id l' = sl_camera_id l /\ sl_created_by_id l' = sl_created_by_id l /\
  sl_token_hash l' = sl_token_hash l /\ sl_max_views l' = sl_max_views l /\
  (sl_revoked_at l <> None -> sl_revoked_at l' <> None).

Lemma from_creation_same ops l l' : same_link l l' -> from_creation ops l -> from_creation ops l'.
Proof. unfold from_creation. intros (_ & -> & -> & _) H. exact H. Qed.

Lemma from_creation_more ops o l : from_creation ops l -> from_creation (ops ++ [o]) l.
Proof.
  intros (u & kind & ev & uuid & a & b & pw & mv & ex & cu & Hin & H). exists u, kind, ev, uuid, a, b, pw, mv, ex, cu.
  split; [apply elem_of_app; by left|done].
Qed.

(** One step: rows of before (same link), or a new row of that creation. *)
Lemma share_step_links o w l :
  l ∈ sw_links (share_step o w) -> (exists l0, l0 ∈ sw_links w /\ same_link l0 l) \/ (from_creation [o] l /\ sl_view_count l = 0).
Proof.
  assert (Hkeep : l ∈ sw_links w -> exists l0, l0 ∈ sw_links w /\ same_link l0 l) by (intros H; by exists l).
  destruct o as [u kind ev uuid a b pw mv ex|u id|token pw ip|f]; cbn [share_step].
  - unfold share_create, guard_flag, bind, gets, ret, raise. destruct flag; [|auto].
    assert (Hnew : forall cam tgt st en cu,
      l ∈ sw_links (snd (create_link hash_token hash_password new_token (or_str kind "clip") cam tgt st en pw mv ex (cl_id u) w)) ->
      scoped u cu = true -> uuid_of_camera cam = Some cu \/ camera_of_uuid cu = Some cam ->
      (exists l0, l0 ∈ sw_links w /\ same_link l0 l) \/
      (from_creation [OCreate u kind ev uuid a b pw mv ex] l /\ sl_view_count l = 0)).
    { intros cam tgt st en cu Hl Hsc Hcu. cbn in Hl. apply elem_of_app in Hl as [Hl|Hl]; [auto|].
      apply list_elem_of_singleton in Hl as ->. right. split; [|done].
      exists u, kind, ev, uuid, a, b, pw, mv, ex, cu. split; [by left|]. done. }
    case_bool_decide; [|case_bool_decide; [|auto]].
    + destruct (match ev with Some _ => _ | None => _ end) as [e|]; [|auto].
      destruct (uuid_of_camera (ev_camera_id e)) as [cu|] eqn:Ec; [|auto]. destruct (scoped u cu) eqn:Es; [|auto].
      cbn [negb]. intros Hl. apply (Hnew (ev_camera_id e) (Some (ev_id e)) (ev_start_ts e - EVENT_PRE)
        (default (ev_start_ts e) (ev_end_ts e) + EVENT_POST) cu); [exact Hl|exact Es|by left].
    + destruct (truthy_str uuid); [|auto]. cbn [negb]. destruct (camera_of_uuid _) as [cam|] eqn:Ec; [|auto].
      destruct (scoped u _) eqn:Es; [|auto]. cbn [negb]. destruct a as [a|], b as [b|]; auto.
      destruct (b <=? a); [auto|]. destruct (_ <? _); [auto|]. intros Hl.
      apply (Hnew cam None a b (default ""%string uuid)); [exact Hl|exact Es|by right].
  - unfold share_revoke, guard_flag, bind, gets, ret, raise, modify. destruct flag; [|auto].
    destruct (link_get_by_id id w) as [l0|] eqn:E; [|auto]. destruct (_ && _); [auto|]. cbn.
    intros (x & -> & Hx)%list_elem_of_fmap. left. cbn in *. destruct (Z.eqb_spec (sl_id x) (sl_id l0)); [|by exists x].
    apply find_some in E as [Hl0%list_elem_of_In _]. exists l0. split; [done|]. by repeat split.
  - intros Hl. destruct (public_view_links token pw ip w) as [E|(l0 & _ & _ & E)]; rewrite E in Hl; [auto|].
    apply list_elem_of_fmap in Hl as (x & -> & Hx). left. exists x. split; [done|]. destruct (_ =? _); by repeat split.
  - auto.
Qed.

Lemma share_run_created w ops l :
  sw_links w = [] -> l ∈ sw_links (share_run w ops) -> from_creation ops l.
Proof.
  intros Hnil. revert l. induction ops as [|o ops IH] using rev_ind; intros l.
  - cbn. rewrite Hnil. by intros ?%elem_of_nil.
  - unfold share_run. rewrite foldl_app. cbn [foldl]. intros [(l0 & Hl0 & Hs)|[Hc _]]%share_step_links.
    + apply from_creation_more. eapply from_creation_same; [done|]. by apply IH.
    + destruct Hc as (u & kind & ev & uuid & a & b & pw & mv & ex & cu & Hin & H).
      exists u, kind, ev, uuid, a, b, pw, mv, ex, cu. split; [apply elem_of_app; by right|done].
Qed.

End ShareHistories.

Lemma link_is_live_spec now l : link_is_live now l = true ->
  sl_revoked_at l = None /\ (forall e, sl_expires_at l = Some e -> now < e) /\ (forall m, sl_max_views l = Some m -> sl_view_count l < m).
Proof.
  unfold link_is_live. rewrite !andb_true_iff, !negb_true_iff, bool_decide_eq_true. intros [[H1 H2] H3]. split_and!; [done|intros e He|intros m Hm].
  - rewrite He in H2. lia.
  - rewrite Hm in H3. lia.
Qed.

Lemma segment_served hash_token token sid w s w' :
  public_segment_path hash_token token sid w = (inr s, w') ->
  exists l a b, resolve_link hash_token token w = Some l /\ link_is_live (sw_now w) l = true /\
    s ∈ t_segments (ew_store (sw_ew w)) /\ sg_id s = sid /\ sg_camera_id s = sl_camera_id l /\
    sl_range_start l = Some a /\ sl_range_end l = Some b /\ sg_start_ts s <= b /\ a <= sg_end_ts s.
Proof.
  unfold public_segment_path, bind, gets, ret, raise. destruct (resolve_link _ _ w) as [l|] eqn:El; [|done].
  destruct (link_is_live (sw_now w) l) eqn:Hlive; [|done]. cbn [negb].
  destruct (segment_get_by_id sid w) as [x|] eqn:Es; [|done]. destruct (authorize_segment l (Some x)) eqn:Ea; [|done].
  intros [= <- _]. apply find_some in Es as [Hx%list_elem_of_In Hid%Z.eqb_eq]. unfold authorize_segment in Ea.
  destruct (sl_range_start l) as [a|] eqn:Ha; [|by rewrite andb_false_r in Ea].
  destruct (sl_range_end l) as [b|] eqn:Hb; [|by rewrite andb_false_r in Ea].
  rewrite !andb_true_iff, Z.eqb_eq, !Z.leb_le in Ea. exists l, a, b. tauto.
Qed.

Lemma resolve_link_row hash_token token w l : resolve_link hash_token token w = Some l -> l ∈ sw_links w /\ sl_token_hash l = hash_token token.
Proof.
  unfold resolve_link. case_bool_decide; [done|]. intros Hf. apply find_some in Hf as [Hl%list_elem_of_In [Hh%bool_decide_eq_true _]%andb_true_iff]. done.
Qed.

(** C9: whatever a share token serves after any history of link creations, revocations,
    viewings and recorder activity is the segment asked for, of the camera of the link the token
    names and within that link's window; the link's creator had view scope on the camera when
    creating it, and the link itself is neither revoked, expired nor used up. *)
Theorem shared_footage_was_viewable hash_token hash_password new_token camera_of_uuid uuid_of_camera flag w ops token sid s w2 :
  sw_links w = [] ->
  let w1 := share_run hash_token hash_password new_token camera_of_uuid uuid_of_camera flag w ops in
  public_segment_path hash_token token sid w1 = (inr s, w2) ->
  exists l from to, resolve_link hash_token token w1 = Some l /\
    s ∈ t_segments (ew_store (sw_ew w1)) /\ sg_id s = sid /\ sg_camera_id s = sl_camera_id l /\
    sl_range_start l = Some from /\ sl_range_end l = Some to /\ sg_start_ts s <= to /\ from <= sg_end_ts s /\
    sl_revoked_at l = None /\ (forall e, sl_expires_at l = Some e -> sw_now w1 < e) /\ (forall m, sl_max_views l = Some m -> sl_view_count l < m) /\
    exists u kind ev uuid a b pw mv ex camera_uuid,
      OCreate u kind ev uuid a b pw mv ex ∈ ops /\ sl_created_by_id l = Some (cl_id u) /\ scoped u camera_uuid = true /\
      (uuid_of_camera (sl_camera_id l) = Some camera_uuid \/ camera_of_uuid camera_uuid = Some (sl_camera_id l)).
Proof.
  intros Hnil w1 Hserve. apply (segment_served hash_token) in Hserve as (l & from & to & Hl & Hlive%link_is_live_spec & Hs & Hid & Hcam & Hfrom & Hto & H1 & H2).
  pose proof (resolve_link_row _ _ _ _ Hl) as [Hin _]. exists l, from, to.
  destruct (share_run_created hash_token hash_password new_token camera_of_uuid uuid_of_camera flag w ops l Hnil Hin)
    as (u & kind & ev & uuid & a & b & pw & mv & ex & cu & Hop & Hby & Hsc & Hcu).
  destruct Hlive as (? & ? & ?). split_and!; try done. by exists u, kind, ev, uuid, a, b, pw, mv, ex, cu.
Qed.

(** ** View limits and revocation *)

Section ShareLimits.
Context (hash_token hash_password : string -> string) (new_token : Z -> string).
Context (camera_of_uuid : string -> option Z) (uuid_of_camera : Z -> option string) (flag : bool).
Notation step := (share_step hash_token hash_password new_token camera_of_uuid uuid_of_camera flag).
Notation run := (share_run hash_token hash_password new_token camera_of_uuid uuid_of_camera flag).

Definition within_limit (l : ShareLink) : Prop := forall m, sl_max_views l = Some m -> 0 < m -> sl_view_count l <= m.

(** ids are distinct and below the counter *)
Record links_ok (w : ShareWorld) : Prop := {
  lo_nodup : NoDup (sl_id <$> sw_links w);
  lo_fresh : forall l, l ∈ sw_links w -> sl_id l < ew_next_id (sw_ew w);
  lo_limit : forall l, l ∈ sw_links w -> within_limit l
}.

Lemma links_ok_map w w' f :
  sw_links w' = f <$> sw_links w -> ew_next_id (sw_ew w) <= ew_next_id (sw_ew w') ->
  (forall l, l ∈ sw_links w -> sl_id (f l) = sl_id l /\ within_limit (f l)) -> links_ok w -> links_ok w'.
Proof.
  intros E Hle Hf [Hn Hfr Hl]. split; rewrite E.
  - rewrite <- list_fmap_compose. rewrite (list_fmap_ext _ sl_id); [done|]. intros i x Hx.
    apply list_elem_of_lookup_2 in Hx. by apply Hf.
  - intros l (x & -> & Hx)%list_elem_of_fmap. rewrite (proj1 (Hf x Hx)). specialize (Hfr x Hx). lia.
  - intros l (x & -> & Hx)%list_elem_of_fmap. by apply Hf.
Qed.

Lemma resolve_row token w l : resolve_link hash_token token w = Some l -> l ∈ sw_links w.
Proof. unfold resolve_link. case_bool_decide as Ht; [done|]. intros H%find_some. by destruct H as [?%list_elem_of_In _]. Qed.

Lemma status_none_room now l m : status_reason now l = None -> sl_max_views l = Some m -> sl_view_count l < m.
Proof.
  unfold status_reason. intros H Hm. rewrite Hm in H. case_bool_decide as Hr; [done|].
  destruct (match sl_expires_at l with Some _ => _ | None => _ end); [done|]. destruct (Z.leb_spec m (sl_view_count l)); [done|lia].
Qed.

Lemma public_view_next token pw ip w :
  ew_next_id (sw_ew (snd (public_view hash_token hash_password uuid_of_camera token pw ip w))) = ew_next_id (sw_ew w).
Proof.
  unfold public_view, bind, gets, ret, raise, modify. destruct (resolve_link _ _ w) as [l|]; [|done].
  destruct (status_reason _ l); [done|].
  assert (Hrl : forall b w', rate_limit_ok hash_token token ip w = (b, w') -> ew_next_id (sw_ew w') = ew_next_id (sw_ew w)).
  { intros b w'. unfold rate_limit_ok. destruct (r_incr _ _ _) as [[n r]|]; by intros [= _ <-]. }
  case_bool_decide; [|by case_bool_decide].
  destruct (rate_limit_ok hash_token token ip w) as [ok w1]. specialize (Hrl _ _ eq_refl).
  destruct ok; cbn [negb snd]; [|done]. destruct (negb _); [done|]. by case_bool_decide.
Qed.

Lemma public_view_ok token pw ip w :
  links_ok w -> links_ok (snd (public_view hash_token hash_password uuid_of_camera token pw ip w)).
Proof.
  intros Hok. pose proof (public_view_next token pw ip w) as Hnx.
  destruct (public_view_links hash_token hash_password uuid_of_camera token pw ip w) as [E|(l & Hl & Hst & E)].
  - apply (links_ok_map w _ id); [by rewrite E, list_fmap_id|lia| |done]. intros l Hl. split; [done|]. by apply Hok.
  - apply (links_ok_map w _ (fun x => if sl_id x =? sl_id l then add_view x else x)); [done|lia| |done].
    intros x Hx. destruct (Z.eqb_spec (sl_id x) (sl_id l)) as [Ei|Ei]; [|split; [done|]; by apply Hok]. split; [done|].
    assert (x = l) as -> by (eapply (nodup_key_inj sl_id); [apply Hok|done|by eapply resolve_row|done]).
    intros m Hm Hpos. cbn in *. pose proof (status_none_room _ _ _ Hst Hm). lia.
Qed.

Lemma create_link_ok kind cam tgt a b pw mv ex by_ w :
  links_ok w -> links_ok (snd (create_link hash_token hash_password new_token kind cam tgt a b pw mv ex by_ w)).
Proof.
  intros [Hn Hf Hl]. split; cbn.
  - rewrite fmap_app. apply NoDup_app. split_and!; [done| |apply NoDup_singleton].
    intros i (x & Ex & Hx)%list_elem_of_fmap Hi%list_elem_of_singleton. cbn in Hi. specialize (Hf _ Hx). lia.
  - intros x [Hx|Hx]%elem_of_app; [specialize (Hf x Hx); lia|]. apply list_elem_of_singleton in Hx as ->. cbn. lia.
  - intros x [Hx|Hx]%elem_of_app; [by apply Hl|]. apply list_elem_of_singleton in Hx as ->. intros m _ Hm. cbn. lia.
Qed.
Lemma share_step_ok o w : links_ok w -> links_ok (step o w).
Proof.
  intros Hok. destruct o as [u kind ev uuid a b pw mv ex|u id|token pw ip|f]; cbn [share_step].
  - unfold share_create, guard_flag, bind, gets, ret, raise. destruct flag; [|done].
    assert (Hnew : forall cam tgt st en, links_ok (snd (create_link hash_token hash_password new_token (or_str kind "clip")
      cam tgt st en pw mv ex (cl_id u) w))) by (intros; by apply create_link_ok).
    case_bool_decide; [|case_bool_decide; [|done]].
    + destruct (match ev with Some _ => _ | None => _ end) as [e|]; [|done].
      destruct (uuid_of_camera (ev_camera_id e)); [|done]. destruct (scoped u _); [|done]. apply Hnew.
    + destruct (truthy_str uuid); [|done]. cbn [negb]. destruct (camera_of_uuid _) as [cam|]; [|done].
      destruct (scoped u _); [|done]. cbn [negb]. destruct a as [a|], b as [b|]; try done.
      destruct (b <=? a); [done|]. destruct (_ <? _); [done|]. apply Hnew.
  - unfold share_revoke, guard_flag, bind, gets, ret, raise, modify. destruct flag; [|done].
    destruct (link_get_by_id id w) as [l|] eqn:E; [|done]. destruct (_ && _); [done|]. cbn [snd].
    apply find_some in E as [Hl%list_elem_of_In _].
    apply (links_ok_map w _ (fun x => if sl_id x =? sl_id l then revoke_row (sw_now w) l else x)); [done|cbn; lia| |done].
    intros x Hx. destruct (Z.eqb_spec (sl_id x) (sl_id l)); [split; [done|]; by apply (lo_limit _ Hok l)|].
    split; [done|]. by apply Hok.
  - by apply public_view_ok.
  - apply (links_ok_map w _ id); [by rewrite list_fmap_id|done| |done]. intros l Hl. split; [done|]. by apply Hok.
Qed.

Lemma share_run_ok ops w : links_ok w -> links_ok (run w ops).
Proof. revert w. induction ops as [|o ops IH]; intros w Hok; [done|]. apply IH. by apply share_step_ok. Qed.

Lemma find_map_same {A} (f : A -> bool) (g : A -> A) l :
  (forall x, f (g x) = f x) -> List.find f (g <$> l) = g <$> List.find f l.
Proof. intros H. induction l as [|x l IH]; [done|]. cbn. rewrite H. by destruct (f x). Qed.

(** Showing a link: it had room, and its counter went up. *)
Lemma shown_spec token pw ip w l c a b segs w' :
  resolve_link hash_token token w = Some l ->
  public_view hash_token hash_password uuid_of_camera token pw ip w = (inr (VShown c a b segs), w') ->
  status_reason (sw_now w) l = None /\ sw_now w' = sw_now w /\ resolve_link hash_token token w' = Some (add_view l).
Proof.
  intros Hres. unfold public_view, bind, gets, ret, raise, modify. rewrite Hres.
  destruct (status_reason (sw_now w) l) eqn:Es; [done|].
  assert (Hrl : forall b w1, rate_limit_ok hash_token token ip w = (b, w1) -> sw_links w1 = sw_links w /\ sw_now w1 = sw_now w).
  { intros bb w1. unfold rate_limit_ok. destruct (r_incr _ _ _) as [[n r]|]; by intros [= _ <-]. }
  assert (Hshow : forall w1, sw_links w1 = sw_links w -> sw_now w1 = sw_now w ->
    sw_now (register_view (sl_id l) w1) = sw_now w /\
    resolve_link hash_token token (register_view (sl_id l) w1) = Some (add_view l)).
  { intros w1 E1 E2. split; [done|]. unfold resolve_link in *. case_bool_decide as Ht; [done|]. unfold get_by_hash in *.
    cbn [register_view sw_links set_links]. rewrite E1, find_map_same, Hres; [cbn; by rewrite Z.eqb_refl|].
    intros x. by destruct (_ =? _). }
  case_bool_decide as Hp.
  - destruct (rate_limit_ok hash_token token ip w) as [ok w1]. destruct (Hrl _ _ eq_refl) as [E1 E2].
    destruct ok; cbn [negb]; [|done]. destruct (negb _); [done|]. case_bool_decide; [|done]. intros [= _ _ _ _ <-].
    split; [done|]. by apply Hshow.
  - case_bool_decide; [|done]. intros [= _ _ _ _ <-]. split; [done|]. by apply Hshow.
Qed.
End ShareLimits.

(** After any history no link with a view limit has been shown more often than
    the limit, and a link is shown only while it is below it. *)
Theorem view_limit_holds hash_token hash_password new_token camera_of_uuid uuid_of_camera flag w ops :
  sw_links w = [] ->
  let w1 := share_run hash_token hash_password new_token camera_of_uuid uuid_of_camera flag w ops in
  (forall l m, l ∈ sw_links w1 -> sl_max_views l = Some m -> 0 < m -> sl_view_count l <= m) /\
  (forall token pw ip l m c a b segs w2, resolve_link hash_token token w1 = Some l -> sl_max_views l = Some m ->
     public_view hash_token hash_password uuid_of_camera token pw ip w1 = (inr (VShown c a b segs), w2) ->
     sl_view_count l < m).
Proof.
  intros Hnil w1. assert (Hok : links_ok w1).
  { apply share_run_ok. split; rewrite Hnil; [apply NoDup_nil_2|..]; intros l Hl; by apply elem_of_nil in Hl. }
  split.
  - intros l m Hl. by apply (lo_limit _ Hok l Hl).
  - intros token pw ip l m c a b segs w2 Hres Hm Hv.
    destruct (shown_spec hash_token hash_password uuid_of_camera token pw ip w1 l c a b segs w2 Hres Hv) as (Hs & _).
    by eapply status_none_room.
Qed.

(** The viewing that uses up a link's last view also closes the media to the
    viewer it was shown to: from then on every segment request is refused, so a
    link limited to one view never plays. *)
Theorem last_view_blocks_media hash_token hash_password uuid_of_camera token pw ip w l m c a b segs w' sid :
  resolve_link hash_token token w = Some l -> sl_max_views l = Some m -> sl_view_count l + 1 = m ->
  public_view hash_token hash_password uuid_of_camera token pw ip w = (inr (VShown c a b segs), w') ->
  public_segment_path hash_token token sid w' = (inl NoPermissionException, w').
Proof.
  intros Hres Hm Hlast Hv.
  destruct (shown_spec hash_token hash_password uuid_of_camera token pw ip w l c a b segs w' Hres Hv) as (_ & Hnow & Hres').
  unfold public_segment_path, bind, gets, raise. rewrite Hres'.
  assert (link_is_live (sw_now w') (add_view l) = false) as ->; [|done].
  unfold link_is_live. cbn [add_view sl_max_views sl_view_count]. rewrite Hm. rewrite Hlast, Z.leb_refl. by rewrite andb_false_r.
Qed.

(** ** Witnesses *)

Definition demo_hash (s : string) : string := "h" +:+ s.
Definition demo_token (n : Z) : string := "tok"%string.
Definition demo_superuser : Caller :=
  {| cl_id := 5; cl_subject := Some {| s_role := None; s_user := {[ "*"%string := PActions ["*"%string] ]} |} |}.
Definition demo_cam (u : string) : option Z := if bool_decide (u = "cam"%string) then Some 1 else None.
Definition demo_uuid (z : Z) : option string := if z =? 1 then Some "cam"%string else None.

Definition demo_share (max_views : option Z) (password : option string) : ShareWorld :=
  share_run demo_hash demo_hash demo_token demo_cam demo_uuid true {| sw_ew := demo_ew; sw_links := [] |}
    [OCreate demo_superuser None None (Some "cam"%string) (Some 0) (Some (200 * SEC)) password max_views None].

Lemma shared_footage_was_viewable_witness :
  exists s w2, public_segment_path demo_hash "tok" 32 (demo_share None None) = (inr s, w2) /\
    exists u camera_uuid, scoped u camera_uuid = true /\ (demo_uuid (sg_camera_id s) = Some camera_uuid \/ demo_cam camera_uuid = Some (sg_camera_id s)).
Proof.
  eexists _, _. split; [vm_compute; reflexivity|].
  edestruct (shared_footage_was_viewable demo_hash demo_hash demo_token demo_cam demo_uuid true {| sw_ew := demo_ew; sw_links := [] |}
    [OCreate demo_superuser None None (Some "cam"%string) (Some 0) (Some (200 * SEC)) None None None] "tok" 32)
    as (l & from & to & _ & _ & _ & Hcam & _ & _ & _ & _ & _ & _ & _ & u & kind & ev & uuid & a & b & pw & mv & ex & cu & _ & _ & Hsc & Hcu);
    [reflexivity|vm_compute; reflexivity|]. exists u, cu. rewrite Hcam. split; [exact Hsc|exact Hcu].
Defined.

Lemma view_limit_holds_witness :
  let w1 := share_run demo_hash demo_hash demo_token demo_cam demo_uuid true {| sw_ew := demo_ew; sw_links := [] |}
    [OCreate demo_superuser None None (Some "cam"%string) (Some 0) (Some (200 * SEC)) None (Some 1) None;
     OView "tok" None None; OView "tok" None None] in
  (sl_view_count <$> sw_links w1) = [1] /\
  forall l m, l ∈ sw_links w1 -> sl_max_views l = Some m -> 0 < m -> sl_view_count l <= m.
Proof.
  split; [vm_compute; reflexivity|].
  apply (view_limit_holds demo_hash demo_hash demo_token demo_cam demo_uuid true {| sw_ew := demo_ew; sw_links := [] |}). reflexivity.
Defined.

Lemma last_view_blocks_media_witness :
  exists w', snd (public_view demo_hash demo_hash demo_uuid "tok" None None (demo_share (Some 1) None)) = w' /\
    public_segment_path demo_hash "tok" 32 w' = (inl NoPermissionException, w').
Proof.
  eexists. split; [reflexivity|].
  eapply (last_view_blocks_media demo_hash demo_hash demo_uuid "tok" None None (demo_share (Some 1) None));
    [vm_compute; reflexivity|reflexivity|reflexivity|vm_compute; reflexivity].
Defined.

(** A password protects the listing of a link, not its media: with the token alone the
    viewer page asks for the password, yet the segments are served. *)
Lemma password_not_asked_for_segments :
  fst (public_view demo_hash demo_hash demo_uuid "tok" None None (demo_share None (Some "secret"%string))) = inr VPassword /\
  sg_id <$> match fst (public_segment_path demo_hash "tok" 32 (demo_share None (Some "secret"%string))) with
            | inr s => Some s | inl _ => None end = Some 32.
Proof. split; vm_compute; reflexivity. Qed.
