(* ===== verification/Review.v ===== *)
(** * Review of events and bookmarks

    src/server/controller/event.py, controller/bookmark.py, model/bookmark.py, the queries of
    model/event.py they make: looking events up, keeping and deleting them, injecting one, and
    marking points of a timeline, with what both do to the retention of recordings.

    The world is the event world with the bookmarks.  Cameras are a map from uuid and id (live
    cameras), the feature flag is a parameter; [None] as an error is an exception the views do
    not map.  Query arguments are taken after [safe_int]. *)

From S2P Require Import Prelude PyStr Redis Permission Token Storage EventPipeline Json Normalizer Sharing.
Local Open Scope Z_scope.
Local Open Scope list_scope.

Record Bookmark := {
  bm_id : Z;
  bm_camera_id : Z;
  bm_start_ts : Z;
  bm_end_ts : option Z;              (* None: a point *)
  bm_label : string;
  bm_color : string;
  bm_note : option string;
  bm_recording_id : option Z;
  bm_event_id : option Z;
  bm_lock_retention : bool;
  bm_deleted_at : option Z
}.
Record ReviewWorld := { vw_ew : EventWorld; vw_marks : list Bookmark }.
Definition RM (A : Type) : Type := M ReviewWorld (option exn) A.
Definition vw_now (w : ReviewWorld) : Z := ew_now (vw_ew w).
Definition set_vw_ew (e : EventWorld) (w : ReviewWorld) : ReviewWorld := {| vw_ew := e; vw_marks := vw_marks w |}.
Definition set_marks (l : list Bookmark) (w : ReviewWorld) : ReviewWorld := {| vw_ew := vw_ew w; vw_marks := l |}.

(** ** Queries *)

Definition state_code (s : EventState) : Z := match s with STATE_ACTIVE => 0 | STATE_ENDED => 1 | STATE_PULSE => 2 end.
Record EventQuery := {
  eq_camera_id : list string; eq_types : list string; eq_subtype : option string; eq_start : option string; eq_end : option string; eq_min_score : option Z;
  eq_has_recording : option bool; eq_state : option Z; eq_page : Z; eq_items : Z; eq_ascending : bool
}.
(** [_parse_ms] of a text *)
Definition text_ms (v : option string) : option Z := if truthy_str v then py_int (default ""%string v) ≫= from_ms else None.
(** [Event.get_list] *)
Definition event_selected (camera_ids : option (list Z)) (q : EventQuery) (e : Event) : bool :=
  bool_decide (ev_deleted_at e = None) &&
  match camera_ids with Some ((_ :: _) as l) => bool_decide (ev_camera_id e ∈ l) | _ => true end &&
  match eq_types q with [] => true | _ => bool_decide (ev_type e ∈ eq_types q) end &&
  (negb (truthy_str (eq_subtype q)) || bool_decide (ev_subtype e = eq_subtype q)) &&
  match text_ms (eq_start q) with Some t => t <=? ev_start_ts e | None => true end &&
  match text_ms (eq_end q) with Some t => ev_start_ts e <=? t | None => true end &&
  match eq_min_score q, ev_score e with Some m, Some s => m <=? s | Some _, None => false | None, _ => true end &&
  match eq_has_recording q with Some b => Bool.eqb (bool_decide (is_Some (ev_recording_id e))) b | None => true end &&
  match eq_state q with Some s => state_code (ev_state e) =? s | None => true end.
Definition event_list (camera_ids : option (list Z)) (q : EventQuery) (l : list Event) : Z * list Event :=
  let found := sort_on (fun e => if eq_ascending q then ev_start_ts e else - ev_start_ts e) (List.filter (event_selected camera_ids q) l) in
  let page := Z.to_nat (Z.max 1 (eq_page q)) in
  let items := Z.to_nat (Z.min 200 (Z.max 1 (eq_items q))) in
  (Z.of_nat (length found), take items (drop ((page - 1) * items) found)).
(** [Event.get_markers] *)
Definition get_markers (camera_id start end_ : Z) (types : list string) (w : EventWorld) : list Event :=
  sort_on ev_start_ts (List.filter (fun e => (ev_camera_id e =? camera_id) && bool_decide (ev_deleted_at e = None) && (start <=? ev_start_ts e) &&
    (ev_start_ts e <=? end_) && match types with [] => true | _ => bool_decide (ev_type e ∈ types) end) (ew_events w)).

Section Review.
Context (utc_offset : Z -> Z) (camera_of_uuid : string -> option Z) (uuid_of_camera : Z -> option string) (flag : bool).

(** [_allowed_camera_ids]: [Some None] all; [None] TypeError *)
Definition names_view (actions : option (list string)) : bool := match actions with Some l => bool_decide ("view"%string ∈ l) || bool_decide ("*"%string ∈ l) | None => false end.
Definition review_cameras (u : Caller) : option (option (gset Z)) :=
  if is_superuser (cl_subject u) then Some None else
  match cl_subject u with
  | None => Some (Some ∅)
  | Some s =>
      let scope := merged_scope s "camera_scope" in
      if names_view (scope_get scope "*") then Some None else
      let entries := List.filter (fun p => negb (bool_decide (fst p = "*"%string))) (map_to_list scope) in
      if existsb (fun p => bool_decide (snd p = None)) entries then None else
      Some (Some (list_to_set (omap (fun p => if names_view (snd p) then camera_of_uuid (fst p) else None) entries)))
  end.

Definition list_events (u : Caller) (q : EventQuery) : RM (Z * list Event) :=
  let requested := omap (fun c => if isdigit c then py_int c else None) (eq_camera_id q) in
  match review_cameras u with
  | None => raise None
  | Some None => gets (fun w => event_list (match requested with [] => None | _ => Some requested end) q (ew_events (vw_ew w)))
  | Some (Some allowed) =>
      let camera_ids := match requested with [] => elements allowed | _ => elements (list_to_set requested ∩ allowed) end in
      match camera_ids with
      | [] => ret (0, [])
      | _ => gets (fun w => event_list (Some camera_ids) q (ew_events (vw_ew w)))
      end
  end.

(** ** One event *)

(** [Camera.get_by_id], [Camera.get_by_uuid] and the scope *)
Definition in_scope (u : Caller) (camera_id : Z) : RM unit :=
  match uuid_of_camera camera_id with
  | None => raise (Some RowNotFoundException)
  | Some uuid => if scoped u uuid then ret tt else raise (Some NoPermissionException)
  end.
Definition scoped_camera (u : Caller) (uuid : string) : RM Z :=
  match camera_of_uuid uuid with
  | None => raise (Some RowNotFoundException)
  | Some cam => if scoped u uuid then ret cam else raise (Some NoPermissionException)
  end.

Definition scoped_event (u : Caller) (event_id : Z) : RM Event :=
  let! ev := gets (fun w => event_get_by_id event_id (vw_ew w)) in
  match ev with None => raise (Some RowNotFoundException) | Some e => in_scope u (ev_camera_id e) ;;; ret e end.

Definition recording_get (id : Z) (t : Store) : option Recording := List.find (fun r => (rc_id r =? id) && bool_decide (rc_deleted_at r = None)) (t_recordings t).
Definition with_class (c : string) (r : Recording) : Recording :=
  {| rc_id := rc_id r; rc_camera_id := rc_camera_id r; rc_reason := rc_reason r; rc_retention_class := c; rc_start_ts := rc_start_ts r;
     rc_end_ts := rc_end_ts r; rc_planned_end_ts := rc_planned_end_ts r; rc_deleted_at := rc_deleted_at r |}.
Definition save_recording (r : Recording) (w : ReviewWorld) : ReviewWorld :=
  let t := ew_store (vw_ew w) in set_vw_ew (set_store (set_recordings (put_recording r (t_recordings t)) t) (vw_ew w)) w.

Definition save_event (u : Caller) (event_id : Z) (retention_class : option string) : RM Event :=
  let! ev := scoped_event u event_id in
  modify (fun w => if truthy_Z (ev_recording_id ev) then
                     match recording_get (default 0 (ev_recording_id ev)) (ew_store (vw_ew w)) with
                     | Some r => save_recording (with_class (or_str retention_class "protected") r) w
                     | None => w
                     end
                   else w) ;;;
  ret ev.

Definition delete_event (u : Caller) (event_id : Z) : RM unit :=
  let! ev := scoped_event u event_id in
  modify (fun w => set_vw_ew (put_ev (soft_delete_event (vw_now w) ev) (vw_ew w)) w).

(** [timeline]: the markers *)
Definition event_timeline (u : Caller) (camera_uuid : string) (start end_ : Z) (types : list string) : RM (list Event) :=
  let! cam := scoped_camera u camera_uuid in
  gets (fun w => get_markers cam start end_ types (vw_ew w)).

Definition simulate (u : Caller) (camera_uuid : string) (raw : ManualEvent) : RM Event :=
  let! cam := scoped_camera u camera_uuid in
  if negb (truthy_str (me_type raw)) then raise (Some (InvalidParameterException "type required")) else
  let! ev := (fun w => let '(e, ew) := handle utc_offset cam (RawManual raw) (vw_ew w) in (inr e, set_vw_ew ew w)) in
  match ev with
  | None => raise (Some (InvalidParameterException "event ignored (unknown type)"))
  | Some e => gets (fun w => default e (event_get_by_id (ev_id e) (vw_ew w)))
  end.

(** ** Bookmarks *)

Definition DEFAULT_COLOR : string := "#3E6AE1".
(** [_parse_ms] of a field *)
Definition json_ms (v : json) : option Z := match v with JNull => None | JStr s => text_ms (Some s) | _ => to_int v ≫= from_ms end.
Definition bookmark_get (id : Z) (w : ReviewWorld) : option Bookmark := List.find (fun b => (bm_id b =? id) && bool_decide (bm_deleted_at b = None)) (vw_marks w).
Definition put_mark (b : Bookmark) (w : ReviewWorld) : ReviewWorld := set_marks ((fun x => if bm_id x =? bm_id b then b else x) <$> vw_marks w) w.
Definition guard_bookmarks : RM unit := if flag then ret tt else raise (Some NoPermissionException).

(** [_protect_recording]: a deleted one too *)
Definition protect_recording (recording_id : option Z) (w : ReviewWorld) : ReviewWorld :=
  if negb (truthy_Z recording_id) then w else
  match List.find (fun r => bool_decide (Some (rc_id r) = recording_id)) (t_recordings (ew_store (vw_ew w))) with
  | Some r => if bool_decide (rc_retention_class r = "protected"%string) then w else save_recording (with_class "protected" r) w
  | None => w
  end.

(** [_scoped_camera] *)
Definition mark_camera (u : Caller) (camera_uuid : option string) : RM Z :=
  if negb (truthy_str camera_uuid) then raise (Some (InvalidParameterException "camera_uuid required")) else scoped_camera u (default ""%string camera_uuid).

(** ordered by start; points and ranges that meet the window *)
Definition list_bookmarks (u : Caller) (camera_uuid : option string) (start end_ : json) : RM (list Bookmark) :=
  guard_bookmarks ;;;
  let! cam := mark_camera u camera_uuid in
  gets (fun w => sort_on bm_start_ts (List.filter (fun b => (bm_camera_id b =? cam) && bool_decide (bm_deleted_at b = None) &&
    match json_ms end_ with Some e => bm_start_ts b <=? e | None => true end &&
    match json_ms start with Some s => s <=? default (bm_start_ts b) (bm_end_ts b) | None => true end) (vw_marks w))).

Record MarkData := { md_camera_uuid : option string; md_start_ts : json; md_end_ts : json; md_label : option string; md_color : option string; md_note : option string;
  md_recording_id : json; md_event_id : json; md_lock_retention : bool }.
Definition create_bookmark (u : Caller) (d : MarkData) : RM Bookmark :=
  guard_bookmarks ;;;
  let! cam := mark_camera u (md_camera_uuid d) in
  match json_ms (md_start_ts d) with
  | None => raise (Some (InvalidParameterException "start_ts required"))
  | Some start =>
      if match json_ms (md_end_ts d) with Some e => e <? start | None => false end then raise (Some (InvalidParameterException "end_ts before start_ts")) else
      let label := strip (or_str (md_label d) "") in
      if bool_decide (label = EmptyString) then raise (Some (InvalidParameterException "label required")) else
      fun w =>
        let '(id, ew) := fresh_id (vw_ew w) in
        let b := {| bm_id := id; bm_camera_id := cam; bm_start_ts := start; bm_end_ts := json_ms (md_end_ts d); bm_label := label;
                    bm_color := or_str (md_color d) DEFAULT_COLOR; bm_note := md_note d; bm_recording_id := safe_int (md_recording_id d);
                    bm_event_id := safe_int (md_event_id d); bm_lock_retention := md_lock_retention d; bm_deleted_at := None |} in
        let w1 := {| vw_ew := ew; vw_marks := vw_marks w ++ [b] |} in
        (inr b, if md_lock_retention d then protect_recording (safe_int (md_recording_id d)) w1 else w1)
  end.

(** [_require] *)
Definition required_mark (u : Caller) (id : Z) : RM Bookmark :=
  let! b := gets (bookmark_get id) in
  match b with None => raise (Some RowNotFoundException) | Some b => in_scope u (bm_camera_id b) ;;; ret b end.

(** the fields given *)
Record MarkPatch := { mp_label : option string; mp_color : option string; mp_note : option (option string); mp_lock_retention : option bool; mp_end_ts : option json; mp_start_ts : option json }.
Definition patched (p : MarkPatch) (b : Bookmark) : Bookmark :=
  {| bm_id := bm_id b; bm_camera_id := bm_camera_id b;
     bm_start_ts := default (bm_start_ts b) (mp_start_ts p ≫= json_ms);
     bm_end_ts := match mp_end_ts p with Some v => json_ms v | None => bm_end_ts b end;
     bm_label := default (bm_label b) (mp_label p); bm_color := default (bm_color b) (mp_color p); bm_note := default (bm_note b) (mp_note p);
     bm_recording_id := bm_recording_id b; bm_event_id := bm_event_id b; bm_lock_retention := default (bm_lock_retention b) (mp_lock_retention p);
     bm_deleted_at := bm_deleted_at b |}.
Definition update_bookmark (u : Caller) (id : Z) (p : MarkPatch) : RM Bookmark :=
  guard_bookmarks ;;;
  let! b := required_mark u id in
  modify (put_mark (patched p b)) ;;;
  modify (fun w => if default false (mp_lock_retention p) then protect_recording (bm_recording_id b) w else w) ;;;
  ret (patched p b).
Definition mark_deleted (now : Z) (b : Bookmark) : Bookmark :=
  {| bm_id := bm_id b; bm_camera_id := bm_camera_id b; bm_start_ts := bm_start_ts b; bm_end_ts := bm_end_ts b; bm_label := bm_label b; bm_color := bm_color b;
     bm_note := bm_note b; bm_recording_id := bm_recording_id b; bm_event_id := bm_event_id b; bm_lock_retention := bm_lock_retention b; bm_deleted_at := Some now |}.
Definition delete_bookmark (u : Caller) (id : Z) : RM unit :=
  guard_bookmarks ;;;
  let! b := required_mark u id in
  modify (fun w => put_mark (mark_deleted (vw_now w) b) w).
End Review.

(** ** What is kept *)

Lemma recording_protects t r s : r ∈ t_recordings t -> rc_deleted_at r = None -> rc_retention_class r ∈ PROTECTED_CLASSES -> sg_camera_id s = rc_camera_id r ->
  sg_start_ts s < default (t_now t) (rc_end_ts r) -> rc_start_ts r < sg_end_ts s -> protected_seg t s.
Proof.
  intros Hr Hd Hp Hc H1 H2. unfold protected_seg, overlaps. apply existsb_exists. exists (rc_start_ts r, default (t_now t) (rc_end_ts r)).
  split; [|apply andb_true_iff; rewrite !Z.ltb_lt; lia]. apply list_elem_of_In. unfold get_protected_intervals. apply list_elem_of_fmap. exists r.
  split; [done|]. apply elem_of_filter_In. split; [done|]. by rewrite Hc, Z.eqb_refl, !bool_decide_eq_true_2.
Qed.

(** the footage of [r] survives the next retention run of [t], where no cap forces it out *)
Definition kept_by_retention (r : Recording) (t : Store) : Prop :=
  forall unlink_denied disk_usage s, s ∈ t_segments t -> sg_camera_id s = rc_camera_id r -> sg_start_ts s < default (t_now t) (rc_end_ts r) -> rc_start_ts r < sg_end_ts s ->
    NoDup (sg_id <$> t_segments t) -> NoDup (seg_file <$> t_segments t) -> ~ caps_enforced_for (sg_camera_id s) t ->
    s ∈ t_segments (snd (run_retention unlink_denied disk_usage t)).

Lemma protected_is_kept r t : r ∈ t_recordings t -> rc_deleted_at r = None -> rc_retention_class r ∈ PROTECTED_CLASSES -> kept_by_retention r t.
Proof. intros Hr Hd Hp unlink_denied disk_usage s Hs Hc H1 H2 Hn Hf Hcap. apply protected_survives; [done..| |done]. by eapply recording_protects. Qed.

Lemma put_recording_in r x l : x ∈ l -> rc_id x = rc_id r -> r ∈ put_recording r l.
Proof. intros Hx E. apply list_elem_of_fmap. exists x. by rewrite E, Z.eqb_refl. Qed.
Lemma recording_get_live r t : NoDup (rc_id <$> t_recordings t) -> r ∈ t_recordings t -> rc_deleted_at r = None -> recording_get (rc_id r) t = Some r.
Proof.
  intros Hn Hr Hd. unfold recording_get. destruct (List.find _ _) as [x|] eqn:E.
  - apply find_some in E as [Hx%list_elem_of_In [E%Z.eqb_eq _]%andb_true_iff]. f_equal. by apply (nodup_key_inj rc_id (t_recordings t)).
  - eapply find_none in E; [|by apply list_elem_of_In]. cbn in E. by rewrite Z.eqb_refl, bool_decide_eq_true_2 in E.
Qed.
Lemma save_recording_kept c r w : r ∈ t_recordings (ew_store (vw_ew w)) -> rc_deleted_at r = None -> c ∈ PROTECTED_CLASSES ->
  kept_by_retention r (ew_store (vw_ew (save_recording (with_class c r) w))).
Proof.
  intros Hr Hd Hc. assert (H : kept_by_retention (with_class c r) (ew_store (vw_ew (save_recording (with_class c r) w)))); [|exact H].
  apply protected_is_kept; [by eapply put_recording_in|done|done].
Qed.
Lemma protect_recording_kept r w : NoDup (rc_id <$> t_recordings (ew_store (vw_ew w))) -> r ∈ t_recordings (ew_store (vw_ew w)) -> rc_deleted_at r = None -> rc_id r <> 0 ->
  kept_by_retention r (ew_store (vw_ew (protect_recording (Some (rc_id r)) w))).
Proof.
  intros Hn Hr Hd H0. unfold protect_recording. cbn [truthy_Z]. destruct (Z.eqb_spec (rc_id r) 0); [done|]. cbn [negb].
  destruct (List.find _ _) as [x|] eqn:E.
  - apply find_some in E as [Hx%list_elem_of_In E%bool_decide_eq_true]. injection E as E. rewrite (nodup_key_inj rc_id _ x r Hn Hx Hr E).
    case_bool_decide as Hc; [apply protected_is_kept; [done..|rewrite Hc; decide_it]|]. apply save_recording_kept; [done..|decide_it].
  - eapply find_none in E; [|by apply list_elem_of_In]. by apply bool_decide_eq_false in E.
Qed.

Section ReviewTheory.
Context (utc_offset : Z -> Z) (camera_of_uuid : string -> option Z) (uuid_of_camera : Z -> option string) (flag : bool).

Definition may_view (u : Caller) (cam : Z) : Prop := exists uuid, (uuid_of_camera cam = Some uuid \/ camera_of_uuid uuid = Some cam) /\ scoped u uuid = true.

Lemma in_scope_run u cam w : (in_scope uuid_of_camera u cam w = (inr tt, w) /\ may_view u cam) \/ exists e, in_scope uuid_of_camera u cam w = (inl e, w).
Proof.
  unfold in_scope. destruct (uuid_of_camera cam) as [uuid|] eqn:E; [|right; by eexists]. destruct (scoped u uuid) eqn:Es; [left|right; by eexists].
  split; [done|]. exists uuid. by split; [left|].
Qed.
Lemma scoped_event_run u id w :
  (exists e, scoped_event uuid_of_camera u id w = (inr e, w) /\ event_get_by_id id (vw_ew w) = Some e /\ may_view u (ev_camera_id e)) \/
  exists x, scoped_event uuid_of_camera u id w = (inl x, w).
Proof.
  unfold scoped_event, bind, gets. destruct (event_get_by_id id _) as [e|]; [|right; by eexists].
  destruct (in_scope_run u (ev_camera_id e) w) as [[-> Hm]|(x & ->)]; [left; by exists e|right; by exists x].
Qed.
Lemma required_mark_run u id w :
  (exists b, required_mark uuid_of_camera u id w = (inr b, w) /\ bookmark_get id w = Some b /\ may_view u (bm_camera_id b)) \/
  exists x, required_mark uuid_of_camera u id w = (inl x, w).
Proof.
  unfold required_mark, bind, gets. destruct (bookmark_get id w) as [b|]; [|right; by eexists].
  destruct (in_scope_run u (bm_camera_id b) w) as [[-> Hm]|(x & ->)]; [left; by exists b|right; by exists x].
Qed.
Lemma mark_camera_run u uuid w :
  (exists cam, mark_camera camera_of_uuid u uuid w = (inr cam, w) /\ may_view u cam) \/ exists x, mark_camera camera_of_uuid u uuid w = (inl x, w).
Proof.
  unfold mark_camera. destruct (negb _); [right; by eexists|]. unfold scoped_camera. destruct (camera_of_uuid _) as [cam|] eqn:E; [|right; by eexists].
  destruct (scoped u _) eqn:Es; [left|right; by eexists]. exists cam. split; [done|]. exists (default ""%string uuid). by split; [right|].
Qed.

(** C25: Saving an event keeps its clip.  When the view saves an event for a caller, the
    caller may view its camera, and when the class asked for is the protected one, as it is
    by default, footage that overlaps the recording of the event survives the next retention
    run, unless the camera has an enforced byte cap. *)
Theorem saved_event_is_kept u id class w e w' r : save_event uuid_of_camera u id class w = (inr e, w') -> or_str class "protected" = "protected"%string ->
  NoDup (rc_id <$> t_recordings (ew_store (vw_ew w))) -> r ∈ t_recordings (ew_store (vw_ew w)) -> ev_recording_id e = Some (rc_id r) -> rc_id r <> 0 -> rc_deleted_at r = None ->
  may_view u (ev_camera_id e) /\ kept_by_retention r (ew_store (vw_ew w')).
Proof.
  intros H Hcl Hn Hr Hid H0 Hd. unfold save_event in H. destruct (scoped_event_run u id w) as [(e0 & Hs & _ & Hm)|(x & Hs)]; unfold bind at 1 in H; rewrite Hs in H; [|done].
  injection H as <- <-. split; [done|]. rewrite Hid. cbn [truthy_Z default from_option Datatypes.id]. destruct (Z.eqb_spec (rc_id r) 0); [done|]. cbn [negb].
  rewrite recording_get_live by done. rewrite Hcl. apply save_recording_kept; [done..|decide_it].
Qed.

(** A bookmark that locks retention keeps its recording: after it is made, or changed to
    lock, footage that overlaps the recording it names survives the next retention run. *)
Theorem locked_bookmark_is_kept u w b w' r : NoDup (rc_id <$> t_recordings (ew_store (vw_ew w))) -> r ∈ t_recordings (ew_store (vw_ew w)) ->
  rc_id r <> 0 -> rc_deleted_at r = None -> bm_recording_id b = Some (rc_id r) ->
  ((exists d, md_lock_retention d = true /\ create_bookmark camera_of_uuid flag u d w = (inr b, w')) \/
   (exists id p, mp_lock_retention p = Some true /\ update_bookmark uuid_of_camera flag u id p w = (inr b, w'))) ->
  may_view u (bm_camera_id b) /\ b ∈ vw_marks w' /\ kept_by_retention r (ew_store (vw_ew w')).
Proof.
  assert (Hmarks : forall rid w0, vw_marks (protect_recording rid w0) = vw_marks w0).
  { intros rid w0. unfold protect_recording. destruct (negb _); [done|]. destruct (List.find _ _); [|done]. by case_bool_decide. }
  intros Hn Hr H0 Hd Hid [(d & Hl & H)|(id & p & Hl & H)].
  - unfold create_bookmark, guard_bookmarks in H. destruct flag; [|done]. unfold bind at 1, ret in H.
    destruct (mark_camera_run u (md_camera_uuid d) w) as [(cam & Hs & Hm)|(x & Hs)]; unfold bind in H; rewrite Hs in H; [|done].
    destruct (json_ms (md_start_ts d)) as [start|]; [|done]. destruct (match json_ms (md_end_ts d) with Some e => e <? start | None => false end); [done|].
    case_bool_decide; [done|]. cbn [fresh_id] in H. rewrite Hl in H. injection H as <- <-. cbn [bm_recording_id bm_camera_id] in *. split; [done|].
    rewrite Hmarks, Hid. split; [apply elem_of_app; right; by left|]. by apply (protect_recording_kept r).
  - unfold update_bookmark, guard_bookmarks in H. destruct flag; [|done]. unfold bind at 1, ret at 1 in H.
    destruct (required_mark_run u id w) as [(b0 & Hs & Hb & Hm)|(x & Hs)]; unfold bind at 1 in H; rewrite Hs in H; [|done]. injection H as <- <-.
    split; [done|]. rewrite Hl. cbn [default from_option Datatypes.id]. rewrite Hmarks. cbn [patched bm_recording_id] in Hid. rewrite Hid. split; [|by apply (protect_recording_kept r)].
    apply list_elem_of_fmap. exists b0. cbn [patched bm_id]. rewrite Z.eqb_refl. split; [done|].
    unfold bookmark_get in Hb. by apply find_some in Hb as [?%list_elem_of_In _].
Qed.
End ReviewTheory.

(** ** Who may change what *)

Inductive ReviewOp :=
| VSave (event_id : Z) (retention_class : option string)
| VDelete (event_id : Z)
| VMark (d : MarkData)
| VEdit (id : Z) (p : MarkPatch)
| VUnmark (id : Z).

Section Scope.
Context (camera_of_uuid : string -> option Z) (uuid_of_camera : Z -> option string) (flag : bool).
Abbreviation may_view := (may_view camera_of_uuid uuid_of_camera).

Definition done_with {A} (m : RM A) : RM unit := m ;;; ret tt.
Definition review_act (u : Caller) (o : ReviewOp) : RM unit :=
  match o with
  | VSave event_id c => done_with (save_event uuid_of_camera u event_id c)
  | VDelete event_id => delete_event uuid_of_camera u event_id
  | VMark d => done_with (create_bookmark camera_of_uuid flag u d)
  | VEdit i p => done_with (update_bookmark uuid_of_camera flag u i p)
  | VUnmark i => delete_bookmark uuid_of_camera flag u i
  end.

(** only rows of [cam] are new or changed *)
Definition only_of (cam : Z) (w w' : ReviewWorld) : Prop :=
  (forall e, e ∈ ew_events (vw_ew w') -> e ∈ ew_events (vw_ew w) \/ ev_camera_id e = cam) /\
  (forall b, b ∈ vw_marks w' -> b ∈ vw_marks w \/ bm_camera_id b = cam) /\ t_segments (ew_store (vw_ew w')) = t_segments (ew_store (vw_ew w)).

Lemma only_of_trans cam w1 w2 w3 : only_of cam w1 w2 -> only_of cam w2 w3 -> only_of cam w1 w3.
Proof.
  intros (E1 & B1 & S1) (E2 & B2 & S2). split_and!; [intros e [He|He]%E2; [by apply E1|by right]|intros b [Hb|Hb]%B2; [by apply B1|by right]|congruence].
Qed.
Lemma only_of_refl cam w w' : ew_events (vw_ew w') = ew_events (vw_ew w) -> vw_marks w' = vw_marks w ->
  t_segments (ew_store (vw_ew w')) = t_segments (ew_store (vw_ew w)) -> only_of cam w w'.
Proof. intros E1 E2 E3. unfold only_of. rewrite E1, E2. split_and!; [intros e He; by left|intros b Hb; by left|done]. Qed.
Lemma protect_only rid w cam : only_of cam w (protect_recording rid w).
Proof. unfold protect_recording. destruct (negb _); [by apply only_of_refl|]. destruct (List.find _ _); [|by apply only_of_refl]. by case_bool_decide; apply only_of_refl. Qed.
Lemma put_mark_only b w : only_of (bm_camera_id b) w (put_mark b w).
Proof.
  split_and!; [intros e He; by left| |done]. intros x (y & -> & Hy)%list_elem_of_fmap. destruct (_ =? _); [by right|by left].
Qed.

(** Review stays in scope.  A refused request to keep or delete an event, or to make,
    change or remove a bookmark, changes nothing; an accepted one creates and changes events
    and bookmarks of one camera only, which the caller may view, and no segment. *)
Theorem review_stays_in_scope u o w res w' : review_act u o w = (res, w') ->
  match res with inl _ => w' = w | inr _ => exists cam, may_view u cam /\ only_of cam w w' end.
Proof.
  destruct o as [eid c|eid|d|i p|i]; cbn [review_act]; unfold done_with.
  - unfold save_event. destruct (scoped_event_run camera_of_uuid uuid_of_camera u eid w) as [(e & Hs & _ & Hm)|(x & Hs)]; unfold bind; rewrite Hs; [|by intros [= <- <-]].
    intros [= <- <-]. exists (ev_camera_id e). split; [done|]. destruct (truthy_Z _); [|by apply only_of_refl]. destruct (recording_get _ _); by apply only_of_refl.
  - unfold delete_event. destruct (scoped_event_run camera_of_uuid uuid_of_camera u eid w) as [(e & Hs & _ & Hm)|(x & Hs)]; unfold bind; rewrite Hs; [|by intros [= <- <-]].
    intros [= <- <-]. exists (ev_camera_id e). split; [done|]. split_and!; [|intros b Hb; by left|done].
    intros x [(-> & _)|[Hx _]]%elem_of_put_event; [by right|by left].
  - unfold create_bookmark, guard_bookmarks. destruct flag; [|by intros [= <- <-]]. unfold bind at 1 2, ret at 1.
    destruct (mark_camera_run camera_of_uuid uuid_of_camera u (md_camera_uuid d) w) as [(cam & Hs & Hm)|(x & Hs)]; unfold bind; rewrite Hs; [|by intros [= <- <-]].
    destruct (json_ms (md_start_ts d)) as [start|]; [|by intros [= <- <-]]. destruct (match json_ms (md_end_ts d) with Some e => e <? start | None => false end); [by intros [= <- <-]|].
    case_bool_decide; [by intros [= <- <-]|]. cbn [fresh_id]. intros [= <- <-]. exists cam. split; [done|].
    set (w1 := {| vw_ew := _; vw_marks := _ |}). assert (H1 : only_of cam w w1).
    { split_and!; [intros e He; by left| |done]. intros b [Hb| ->%list_elem_of_singleton]%elem_of_app; [by left|by right]. }
    destruct (md_lock_retention d); [|done]. eapply only_of_trans; [done|apply protect_only].
  - unfold update_bookmark, guard_bookmarks. destruct flag; [|by intros [= <- <-]]. unfold bind at 1 2, ret at 1.
    destruct (required_mark_run camera_of_uuid uuid_of_camera u i w) as [(b & Hs & _ & Hm)|(x & Hs)]; unfold bind; rewrite Hs; [|by intros [= <- <-]].
    intros [= <- <-]. exists (bm_camera_id b). split; [done|]. eapply only_of_trans; [apply (put_mark_only (patched p b))|].
    destruct (default false _); [apply protect_only|by apply only_of_refl].
  - unfold delete_bookmark, guard_bookmarks. destruct flag; [|by intros [= <- <-]]. unfold bind at 1, ret at 1.
    destruct (required_mark_run camera_of_uuid uuid_of_camera u i w) as [(b & Hs & _ & Hm)|(x & Hs)]; unfold bind; rewrite Hs; [|by intros [= <- <-]].
    intros [= <- <-]. exists (bm_camera_id b). split; [done|]. apply (put_mark_only (mark_deleted (vw_now w) b)).
Qed.

(** what a list of events shows to one who is no superuser and may not view every camera *)
Lemma elem_of_dropped {A} (x : A) k l : x ∈ drop k l -> x ∈ l.
Proof. intros H. rewrite <- (take_drop k l). apply elem_of_app. by right. Qed.
Lemma listed_events_in_scope u q w n l e s : cl_subject u = Some s -> is_superuser (cl_subject u) = false -> names_view (scope_get (merged_scope s "camera_scope") "*") = false ->
  list_events camera_of_uuid u q w = (inr (n, l), w) -> e ∈ l ->
  exists uuid actions, merged_scope s "camera_scope" !! uuid = Some actions /\ names_view actions = true /\ camera_of_uuid uuid = Some (ev_camera_id e) /\ ev_deleted_at e = None.
Proof.
  intros Hs Hsu Hstar H He. unfold list_events, review_cameras in H. rewrite Hsu, Hs, Hstar in H.
  destruct (existsb _ _); [done|]. set (allowed := list_to_set _) in H. set (ids := match _ with [] => elements allowed | _ => elements (_ ∩ allowed) end) in H.
  assert (Hids : forall c, c ∈ ids -> c ∈ allowed).
  { intros c Hc. unfold ids in Hc. dmatch_in Hc; [by apply elem_of_elements in Hc|]. apply elem_of_elements in Hc. set_solver. }
  clearbody ids. destruct ids as [|c0 ids]; [injection H as <- <-; by apply elem_of_nil in He|]. unfold gets in H. injection H as _ <-.
  apply elem_of_take in He as (i & He & _). apply list_elem_of_lookup_2, elem_of_dropped, elem_of_sort_on, elem_of_filter_In in He as [_ He]. unfold event_selected in He. rewrite !andb_true_iff in He.
  destruct He as ((((((((Hd & Hc) & _) & _) & _) & _) & _) & _) & _). apply bool_decide_eq_true in Hd, Hc. apply Hids in Hc.
  unfold allowed in Hc. apply elem_of_list_to_set, list_elem_of_omap in Hc as ([uuid actions] & Hin & Hv). cbn in Hv. destruct (names_view actions) eqn:Ev; [|done].
  apply elem_of_filter_In in Hin as [Hin _]. apply elem_of_map_to_list in Hin. by exists uuid, actions.
Qed.
End Scope.

(** ** Concrete requests *)

Definition reviewer (scope : gmap string (option (list string))) : Caller :=
  {| cl_id := 5; cl_subject := Some {| s_role := None; s_user := {[ "camera_scope"%string := PScope scope ]} |} |}.
Definition cam1_viewer : Caller := reviewer {[ "cam"%string := Some ["view"%string] ]}.
Definition demo_review : ReviewWorld := {| vw_ew := snd (process kst 1 (demo_event "pulse") "isapi" demo_ew); vw_marks := [] |}.
Definition demo_clip (class : string) : Recording := new_recording 101 1 "event" class (864000 * SEC - 5 * SEC) (Some (864000 * SEC + 10 * SEC)) None.
Definition demo_mark (recording : Z) : MarkData :=
  {| md_camera_uuid := Some "cam"%string; md_start_ts := JInt 864000000; md_end_ts := JNull; md_label := Some " Door "%string; md_color := None; md_note := None;
     md_recording_id := JInt recording; md_event_id := JNull; md_lock_retention := true |}.

Lemma saved_event_is_kept_witness :
  exists e w', save_event demo_uuid cam1_viewer 100 None demo_review = (inr e, w') /\ may_view demo_cam demo_uuid cam1_viewer (ev_camera_id e) /\
  kept_by_retention (demo_clip "event") (ew_store (vw_ew w')).
Proof.
  destruct (save_event demo_uuid cam1_viewer 100 None demo_review) as [[x|e] w'] eqn:E; [vm_compute in E; discriminate E|]. exists e, w'. split; [done|].
  assert (Hid : ev_recording_id e = Some 101) by (vm_compute in E; by injection E as <- _).
  apply (saved_event_is_kept demo_cam demo_uuid cam1_viewer 100 None demo_review e w' (demo_clip "event")); [exact E|reflexivity|decide_it|apply list_elem_of_In; vm_compute; tauto|exact Hid|discriminate|reflexivity].
Defined.

Lemma locked_bookmark_is_kept_witness :
  exists b w', create_bookmark demo_cam true cam1_viewer (demo_mark 101) demo_review = (inr b, w') /\ bm_label b = "Door"%string /\
  b ∈ vw_marks w' /\ kept_by_retention (demo_clip "event") (ew_store (vw_ew w')).
Proof.
  destruct (create_bookmark demo_cam true cam1_viewer (demo_mark 101) demo_review) as [[x|b] w'] eqn:E; [vm_compute in E; discriminate E|]. exists b, w'. split; [done|].
  assert (Hb : bm_recording_id b = Some 101 /\ bm_label b = "Door"%string) by (vm_compute in E; by injection E as <- _). destruct Hb as [Hid Hl]. split; [done|].
  apply (locked_bookmark_is_kept demo_cam demo_uuid true cam1_viewer demo_review b w' (demo_clip "event")); [decide_it|apply list_elem_of_In; vm_compute; tauto|discriminate|reflexivity|exact Hid|].
  left. exists (demo_mark 101). split; [reflexivity|exact E].
Defined.

Lemma review_stays_in_scope_witness :
  exists w', review_act demo_cam demo_uuid true cam1_viewer (VDelete 100) demo_review = (inr tt, w') /\ exists cam, may_view demo_cam demo_uuid cam1_viewer cam /\ only_of cam demo_review w'.
Proof.
  destruct (review_act demo_cam demo_uuid true cam1_viewer (VDelete 100) demo_review) as [[x|[]] w'] eqn:E; [vm_compute in E; discriminate E|]. exists w'. split; [done|].
  exact (review_stays_in_scope demo_cam demo_uuid true cam1_viewer (VDelete 100) demo_review (inr tt) w' E).
Defined.

(** a bookmark names any recording: one of a camera the caller may not view is locked as well *)
Example bookmark_locks_any_recording :
  let w := set_vw_ew (set_store (set_recordings [new_recording 7 2 "manual" "default" 0 None None] (ew_store demo_ew)) demo_ew) demo_review in
  scoped cam1_viewer "other" = false /\
  (rc_retention_class <$> t_recordings (ew_store (vw_ew (snd (create_bookmark demo_cam true cam1_viewer (demo_mark 7) w))))) = ["protected"%string].
Proof. split; by vm_compute. Qed.

(** saving takes any class: with "default" it gives the clip of an event up *)
Example saving_may_release :
  let clip w := rc_retention_class <$> recording_get 101 (ew_store (vw_ew w)) in
  clip demo_review = Some "event"%string /\ clip (snd (save_event demo_uuid cam1_viewer 100 (Some "default"%string) demo_review)) = Some "default"%string.
Proof. split; by vm_compute. Qed.

(** lists of events do not know that one camera may be taken out of a scope over all *)
Example excluded_camera_is_listed :
  let u := reviewer {[ "*"%string := Some ["view"%string]; "cam"%string := Some [] ]} in
  let q := {| eq_camera_id := []; eq_types := []; eq_subtype := None; eq_start := None; eq_end := None; eq_min_score := None; eq_has_recording := None;
              eq_state := None; eq_page := 1; eq_items := 20; eq_ascending := false |} in
  scoped u "cam" = false /\ match fst (list_events demo_cam u q demo_review) with inr (n, l) => (ev_camera_id <$> l) = [1] | inl _ => False end.
Proof. split; by vm_compute. Qed.

(** a change may put the end of a bookmark before its start, which [create] refuses *)
Example edited_bookmark_runs_backwards :
  let w1 := snd (create_bookmark demo_cam true cam1_viewer (demo_mark 101) demo_review) in
  let p := {| mp_label := None; mp_color := None; mp_note := None; mp_lock_retention := None; mp_end_ts := Some (JInt 5000); mp_start_ts := None |} in
  match vw_marks (snd (update_bookmark demo_uuid true cam1_viewer 103 p w1)) with [b] => bm_end_ts b = Some 5000000 /\ bm_start_ts b = 864000000000 | _ => False end.
Proof. by vm_compute. Qed.
