(* ===== verification/Schedules.v ===== *)
(** * Weekly schedules and event policies

    src/server/controller/schedule.py, controller/event_policy.py and the writes of
    model/event_policy.py.

    The world is the event world.  A rule of a request has its three numbers as [int()] reads
    them ([None]: missing or not an integer).  A policy is known by the position of its row:
    rows are never removed.  Names, time zones of rules and group ids are not kept. *)

From S2P Require Import Prelude PyStr Redis Permission Token Storage EventPipeline Sharing.
Local Open Scope Z_scope.
Local Open Scope list_scope.

Definition MODES : list string := ["continuous"; "event"; "motion_only"; "off"]%string.
Record RuleData := { rd_day_of_week : option Z; rd_start_min : option Z; rd_end_min : option Z; rd_mode : option string; rd_priority : Z }.
(** a row to write: day, start, end, mode, priority *)
Definition Rule : Type := Z * Z * Z * string * Z.

Definition W (A : Type) : Type := M EventWorld exn A.
(** one rule; a window over midnight becomes tonight's and tomorrow's *)
Definition split_rule (dow start end_ : Z) (mode : string) (prio : Z) : list Rule :=
  if start <? end_ then [(dow, start, end_, mode, prio)]
  else [(dow, start, 1440, mode, prio); ((dow + 1) mod 7, 0, end_, mode, prio)].
Definition clean_rule (r : RuleData) : string + list Rule :=
  match rd_day_of_week r, rd_start_min r, rd_end_min r with
  | Some dow, Some start, Some end_ =>
      if negb ((0 <=? dow) && (dow <=? 6)) then inl "day_of_week must be 0..6"%string else
      if negb ((0 <=? start) && (start <=? 1440) && (0 <=? end_) && (end_ <=? 1440) && negb (start =? end_)) then inl "require start_min/end_min in 0..1440 and start != end"%string else
      if negb (bool_decide (default ""%string (rd_mode r) ∈ MODES)) then inl "mode must be one of MODES"%string else
      inr (split_rule dow start end_ (default ""%string (rd_mode r)) (rd_priority r))
  | _, _, _ => inl "each rule needs integer day_of_week/start_min/end_min"%string
  end.
Fixpoint validate_rules (rules : list RuleData) : string + list Rule :=
  match rules with
  | [] => inr []
  | r :: l => match clean_rule r with
              | inl e => inl e
              | inr a => match validate_rules l with inl e => inl e | inr b => inr (a ++ b) end
              end
  end.

Section Controllers.
Context (camera_of_uuid : string -> option Z).

Definition camera_or_404 (uuid : string) : W Z := match camera_of_uuid uuid with Some c => ret c | None => raise RowNotFoundException end.
Definition valid_rules (rules : list RuleData) : W (list Rule) :=
  match validate_rules rules with inl e => raise (InvalidParameterException e) | inr l => ret l end.
Definition replace_schedule (uuid : string) (rules : list RuleData) : W unit :=
  let! cam := camera_or_404 uuid in let! clean := valid_rules rules in modify (replace_for_camera cam clean).
(** [apply_group]: cameras that are unknown or out of scope are skipped *)
Fixpoint apply_to (u : Caller) (clean : list Rule) (uuids : list string) (n : Z) (w : EventWorld) : Z * EventWorld :=
  match uuids with
  | [] => (n, w)
  | x :: l => match camera_of_uuid x with
              | Some cam => if scoped u x then apply_to u clean l (n + 1) (replace_for_camera cam clean w) else apply_to u clean l n w
              | None => apply_to u clean l n w
              end
  end.
Definition apply_group (u : Caller) (rules : list RuleData) (uuids : list string) : W Z :=
  let! clean := valid_rules rules in fun w => let '(n, w1) := apply_to u clean uuids 0 w in (inr n, w1).

(** ** Event policies *)

Definition ACTIONS : list string := ["record"; "discard"; "timelapse"; "notify_only"]%string.
Record PolicyData := {
  pd_camera_uuid : option string; pd_camera_id : option Z; pd_event_type : option string; pd_subtype : option string; pd_action : option string;
  pd_pre_buffer_s : option Z; pd_post_buffer_s : option Z; pd_cooldown_s : option Z; pd_min_score : option Z; pd_notify : option bool; pd_enabled : option bool
}.
(** [_apply]: what is given and not null *)
Definition apply_policy (d : PolicyData) (p : EventPolicy) : EventPolicy :=
  let keep {A} (new old : option A) : option A := match new with Some v => Some v | None => old end in
  {| ep_camera_id := keep (pd_camera_id d) (ep_camera_id p); ep_event_type := default (ep_event_type p) (pd_event_type d); ep_subtype := keep (pd_subtype d) (ep_subtype p);
     ep_action := default (ep_action p) (pd_action d); ep_pre_buffer_s := default (ep_pre_buffer_s p) (pd_pre_buffer_s d); ep_post_buffer_s := default (ep_post_buffer_s p) (pd_post_buffer_s d);
     ep_cooldown_s := default (ep_cooldown_s p) (pd_cooldown_s d); ep_min_score := keep (pd_min_score d) (ep_min_score p); ep_notify := default (ep_notify p) (pd_notify d);
     ep_enabled := default (ep_enabled p) (pd_enabled d); ep_deleted_at := ep_deleted_at p |}.
(** a new row with its column defaults *)
Definition blank_policy : EventPolicy :=
  {| ep_camera_id := None; ep_event_type := ""; ep_subtype := None; ep_action := ""; ep_pre_buffer_s := 5; ep_post_buffer_s := 10; ep_cooldown_s := 10; ep_min_score := None;
     ep_notify := true; ep_enabled := true; ep_deleted_at := None |}.
Definition with_camera_id (c : Z) (d : PolicyData) : PolicyData :=
  {| pd_camera_uuid := pd_camera_uuid d; pd_camera_id := Some c; pd_event_type := pd_event_type d; pd_subtype := pd_subtype d; pd_action := pd_action d; pd_pre_buffer_s := pd_pre_buffer_s d;
     pd_post_buffer_s := pd_post_buffer_s d; pd_cooldown_s := pd_cooldown_s d; pd_min_score := pd_min_score d; pd_notify := pd_notify d; pd_enabled := pd_enabled d |}.
Definition validate_policy (d : PolicyData) : W unit :=
  if negb (bool_decide (default ""%string (pd_action d) ∈ ACTIONS)) then raise (InvalidParameterException "action must be one of ACTIONS")
  else if negb (truthy_str (pd_event_type d)) then raise (InvalidParameterException "event_type required") else ret tt.
Definition set_ew_policies (l : list EventPolicy) (w : EventWorld) : EventWorld :=
  {| ew_store := ew_store w; ew_events := ew_events w; ew_policies := l; ew_schedules := ew_schedules w; ew_outbox := ew_outbox w; ew_next_id := ew_next_id w |}.
Definition create_policy (d : PolicyData) : W EventPolicy :=
  validate_policy d ;;;
  let! d := if truthy_str (pd_camera_uuid d) then let! c := camera_or_404 (default ""%string (pd_camera_uuid d)) in ret (with_camera_id c d) else ret d in
  let p := apply_policy d blank_policy in
  modify (fun w => set_ew_policies (ew_policies w ++ [p]) w) ;;; ret p.
Definition policy_at (id : nat) (w : EventWorld) : option EventPolicy :=
  match ew_policies w !! id with Some p => if bool_decide (ep_deleted_at p = None) then Some p else None | None => None end.
Definition put_policy_at (id : nat) (p : EventPolicy) (w : EventWorld) : EventWorld := set_ew_policies (<[id := p]> (ew_policies w)) w.
Definition update_event_policy (id : nat) (d : PolicyData) : W EventPolicy :=
  let! o := gets (policy_at id) in
  match o with
  | None => raise RowNotFoundException
  | Some p => (if truthy_str (pd_action d) then validate_policy d else ret tt) ;;; modify (put_policy_at id (apply_policy d p)) ;;; ret (apply_policy d p)
  end.
Definition delete_policy (id : nat) : W unit :=
  let! o := gets (policy_at id) in
  match o with
  | None => raise RowNotFoundException
  | Some p => modify (fun w => put_policy_at id {| ep_camera_id := ep_camera_id p; ep_event_type := ep_event_type p; ep_subtype := ep_subtype p; ep_action := ep_action p;
      ep_pre_buffer_s := ep_pre_buffer_s p; ep_post_buffer_s := ep_post_buffer_s p; ep_cooldown_s := ep_cooldown_s p; ep_min_score := ep_min_score p; ep_notify := ep_notify p;
      ep_enabled := ep_enabled p; ep_deleted_at := Some (ew_now w) |} w)
  end.
End Controllers.

(** [resolve_preview], of a camera at a time *)
Record Preview := { pv_action : string; pv_buffers : option (Z * Z); pv_schedule_mode : string; pv_source : option string }.
Definition resolve_preview (utc_offset : Z -> Z) (cam : Z) (event_type : string) (subtype : option string) (at_ts : option Z) (w : EventWorld) : Preview :=
  let ts := default (ew_now w) at_ts in
  let m := mode utc_offset cam ts w in
  match resolve cam event_type subtype w with
  | None => {| pv_action := "discard"; pv_buffers := None; pv_schedule_mode := m; pv_source := None |}
  | Some p => {| pv_action := combine (ep_action p) m event_type; pv_buffers := Some (ep_pre_buffer_s p, ep_post_buffer_s p); pv_schedule_mode := m;
                 pv_source := Some (if truthy_Z (ep_camera_id p) then "camera" else "global")%string |}
  end.

(** ** What a schedule means *)

(** the window of a rule, from its start on its day to its end, past midnight when it is over *)
Definition in_window (dow minute : Z) (r : RuleData) : bool :=
  match rd_day_of_week r, rd_start_min r, rd_end_min r with
  | Some d, Some a, Some b => if a <? b then (d =? dow) && (a <=? minute) && (minute <? b)
                              else (d =? dow) && (a <=? minute) || ((d + 1) mod 7 =? dow) && (minute <? b)
  | _, _, _ => false
  end.
Definition scheduled_mode (rules : list RuleData) (dow minute : Z) : string :=
  match max_on rd_priority (List.filter (in_window dow minute) rules) with None => "continuous"%string | Some r => default ""%string (rd_mode r) end.

Lemma max_on_fmap {A B} (f : A -> B) (key : A -> Z) (key' : B -> Z) l : (forall x, key' (f x) = key x) -> f <$> max_on key l = max_on key' (f <$> l).
Proof.
  intros H. destruct l as [|x l]; [done|]. cbn. f_equal. revert x. induction l as [|y l IH]; intros x; [done|]. cbn. rewrite IH. f_equal.
  unfold pick_max. rewrite !H. by destruct (_ <? _).
Qed.

Definition rule_pm (r : Rule) : Z * string := let '(_, _, _, m, p) := r in (p, m).
Definition data_pm (r : RuleData) : Z * string := (rd_priority r, default ""%string (rd_mode r)).
Definition applies (dow minute : Z) (r : Rule) : bool := let '(d, a, b, _, _) := r in (d =? dow) && ((a <=? minute) && (minute <? b)).

Lemma clean_applies dow minute r l :
  0 <= minute < 1440 -> clean_rule r = inr l -> rule_pm <$> List.filter (applies dow minute) l = if in_window dow minute r then [data_pm r] else [].
Proof.
  intros Hm H. unfold clean_rule in H. unfold in_window, data_pm. destruct (rd_day_of_week r) as [d|], (rd_start_min r) as [a|], (rd_end_min r) as [b|]; try done.
  destruct (_ && _) eqn:Ed in H; [|done]. apply andb_true_iff in Ed as [Hd0%Z.leb_le Hd6%Z.leb_le]. cbn [negb] in H.
  destruct (_ && _) eqn:Ew in H; [|done]. rewrite !andb_true_iff, negb_true_iff, !Z.leb_le, Z.eqb_neq in Ew. cbn [negb] in H.
  destruct (negb _); [done|]. injection H as <-. unfold split_rule. destruct (Z.ltb_spec a b); cbn [List.filter applies].
  - rewrite <- andb_assoc. by destruct (_ && _).
  - assert (Hlast : (minute <? 1440) = true) by lia. assert (Hfirst : (0 <=? minute) = true) by lia. rewrite Hlast, Hfirst, andb_true_r. cbn [andb].
    destruct (Z.eqb_spec d dow) as [->|Hne]; cbn [andb orb].
    + assert (((dow + 1) mod 7 =? dow) = false) as -> by (apply Z.eqb_neq; pose proof (Z.mod_pos_bound (dow + 1) 7); intros E; assert (dow = 6 \/ dow < 6) as [->|Hl] by lia; [done|]; rewrite Z.mod_small in E; lia).
      cbn [andb]. rewrite orb_false_r. by destruct (a <=? minute).
    + by destruct (_ && _).
Qed.

Lemma valid_applies dow minute rules l :
  0 <= minute < 1440 -> validate_rules rules = inr l ->
  rule_pm <$> List.filter (applies dow minute) l = data_pm <$> List.filter (in_window dow minute) rules.
Proof.
  intros Hm. revert l. induction rules as [|r rules IH]; intros l H; cbn in H; [by injection H as <-|].
  destruct (clean_rule r) as [|a] eqn:Ea; [done|]. destruct (validate_rules rules) as [|b]; [done|]. injection H as <-.
  rewrite List.filter_app, fmap_app, (clean_applies dow minute r a Hm Ea), (IH b eq_refl). cbn. by destruct (in_window dow minute r).
Qed.

Lemma minute_range local : 0 <= minute_of_day local < 1440.
Proof.
  unfold minute_of_day. pose proof (Z.mod_pos_bound local DAY ltac:(done)) as H. assert (0 < MINUTE) by done. assert (DAY = 1440 * MINUTE) as E by done.
  split; [apply Z.div_pos; lia|]. apply Z.div_lt_upper_bound; lia.
Qed.

(** The rows of a camera after its schedule was replaced, and those of the others. *)
Lemma replaced_rows cam clean w dow minute :
  rule_pm <$> List.filter (applies dow minute) clean =
  (fun s => (sc_priority s, sc_mode s)) <$> List.filter (fun r => (sc_start_min r <=? minute) && (minute <? sc_end_min r)) (get_for_camera_dow cam dow (replace_for_camera cam clean w)).
Proof.
  unfold get_for_camera_dow. cbn [replace_for_camera ew_schedules set_schedules]. rewrite !List.filter_app.
  assert (List.filter (fun s => (sc_camera_id s =? cam) && (sc_day_of_week s =? dow) && bool_decide (sc_deleted_at s = None) && sc_enabled s)
    ((fun s => if (sc_camera_id s =? cam) && bool_decide (sc_deleted_at s = None) then delete_schedule (ew_now w) s else s) <$> ew_schedules w) = []) as ->.
  { induction (ew_schedules w) as [|s l IH]; [done|]. cbn. destruct (sc_camera_id s =? cam) eqn:Ec; cbn; [|by rewrite Ec]. case_bool_decide as Hd; cbn; rewrite ?Ec; cbn.
    - by rewrite andb_false_r.
    - by rewrite bool_decide_eq_false_2, andb_false_r. }
  cbn [List.filter app]. induction clean as [|[[[[d a] b] m] p] l IH]; [done|]. cbn. rewrite Z.eqb_refl, !andb_true_r. cbn. destruct (d =? dow); cbn; [|exact IH].
  destruct ((a <=? minute) && (minute <? b)); cbn; [by rewrite <- IH|exact IH].
Qed.
Lemma other_rows cam clean w c dow : c <> cam -> get_for_camera_dow c dow (replace_for_camera cam clean w) = get_for_camera_dow c dow w.
Proof.
  intros Hc. unfold get_for_camera_dow. cbn [replace_for_camera ew_schedules set_schedules]. rewrite List.filter_app.
  assert (forall l, List.filter (fun s => (sc_camera_id s =? c) && (sc_day_of_week s =? dow) && bool_decide (sc_deleted_at s = None) && sc_enabled s)
    ((fun '(dow, from, to, m, prio) => {| sc_camera_id := cam; sc_day_of_week := dow; sc_start_min := from; sc_end_min := to; sc_mode := m; sc_priority := prio; sc_enabled := true; sc_deleted_at := None |}) <$> l) = []) as ->.
  { induction l as [|[[[[d a] b] m] p] l IH]; [done|]. cbn. assert ((cam =? c) = false) as -> by (apply Z.eqb_neq; congruence). exact IH. }
  rewrite app_nil_r. induction (ew_schedules w) as [|s l IH]; [done|]. cbn. destruct (sc_camera_id s =? cam) eqn:Ec; cbn; [|by rewrite IH].
  apply Z.eqb_eq in Ec. assert ((sc_camera_id s =? c) = false) as Es by (apply Z.eqb_neq; congruence). case_bool_decide; cbn; rewrite Es; exact IH.
Qed.

Lemma mode_replaced off cam rules clean w ts :
  validate_rules rules = inr clean ->
  mode off cam ts (replace_for_camera cam clean w) = scheduled_mode rules (weekday (ts + off ts)) (minute_of_day (ts + off ts)).
Proof.
  intros Hv. unfold mode, scheduled_mode. set (local := ts + off ts).
  pose proof (valid_applies (weekday local) (minute_of_day local) rules clean (minute_range local) Hv) as H.
  rewrite (replaced_rows cam clean w) in H. apply (f_equal (max_on fst)) in H.
  rewrite <- (max_on_fmap _ sc_priority), <- (max_on_fmap _ rd_priority) in H by done.
  destruct (max_on sc_priority _) as [s|], (max_on rd_priority _) as [r|]; cbn in H; try done. by injection H as _ ->.
Qed.

(** C8: The mode of a camera at an instant is, once its schedule was written, the mode of the rule of
    highest priority whose window holds the site's time, windows over midnight included, and
    continuous when there is none; other cameras are as before. *)
Theorem schedule_means_its_windows camera_of_uuid off uuid rules w u w' cam :
  replace_schedule camera_of_uuid uuid rules w = (inr u, w') -> camera_of_uuid uuid = Some cam ->
  (forall ts, mode off cam ts w' = scheduled_mode rules (weekday (ts + off ts)) (minute_of_day (ts + off ts))) /\
  (forall c ts, c <> cam -> mode off c ts w' = mode off c ts w).
Proof.
  intros H Hcam. unfold replace_schedule, camera_or_404 in H. rewrite Hcam in H. apply bind_inr in H as (c & w1 & [-> ->]%ret_inr & H).
  apply bind_inr in H as (clean & w1 & H1 & ->%modify_inr). unfold valid_rules in H1. destruct (validate_rules rules) as [|l] eqn:Ev; [discriminate H1|].
  apply ret_inr in H1 as [-> ->]. split; [intros ts; by apply mode_replaced|]. intros c0 ts Hc. unfold mode. by rewrite other_rows.
Qed.

(** A schedule applied to a group reaches exactly the cameras of the list that the caller may view. *)
Theorem group_schedule_stays_in_scope camera_of_uuid off u rules uuids w n w' :
  apply_group camera_of_uuid u rules uuids w = (inr n, w') ->
  forall c ts, mode off c ts w' = if existsb (fun x => bool_decide (camera_of_uuid x = Some c) && scoped u x) uuids
                                  then scheduled_mode rules (weekday (ts + off ts)) (minute_of_day (ts + off ts)) else mode off c ts w.
Proof.
  intros H c ts. unfold apply_group in H. apply bind_inr in H as (clean & w1 & H1 & H). unfold valid_rules in H1.
  destruct (validate_rules rules) as [|l] eqn:Ev; [discriminate H1|]. apply ret_inr in H1 as [-> ->].
  destruct (apply_to camera_of_uuid u l uuids 0 w) as [k w2] eqn:E. injection H as _ <-. revert E. generalize 0 as n0.
  assert (Hset : forall w, mode off c ts w = scheduled_mode rules (weekday (ts + off ts)) (minute_of_day (ts + off ts)) -> forall uuids n0 k w2,
    apply_to camera_of_uuid u l uuids n0 w = (k, w2) -> mode off c ts w2 = scheduled_mode rules (weekday (ts + off ts)) (minute_of_day (ts + off ts))).
  { clear w. intros w Hw us. revert w Hw. induction us as [|x us IH]; intros w Hw n0 k0 w0 E; cbn in E; [by injection E as _ <-|].
    destruct (camera_of_uuid x) as [cam|]; [|by eapply IH]. destruct (scoped u x); [|by eapply IH]. eapply IH; [|exact E].
    destruct (decide (cam = c)) as [->|Hc]; [by apply mode_replaced|]. rewrite <- Hw. unfold mode. by rewrite other_rows. }
  revert w k w2. induction uuids as [|x us IH]; intros w k w2 n0 E; cbn in E |- *; [by injection E as _ <-|].
  destruct (camera_of_uuid x) as [cam|]; [|by eapply IH]. destruct (scoped u x); [|rewrite andb_false_r; by eapply IH]. rewrite andb_true_r.
  destruct (bool_decide_reflect (Some cam = Some c)) as [Hc|Hc]; cbn [orb].
  - injection Hc as ->. eapply Hset; [|exact E]. by apply mode_replaced.
  - apply IH in E. rewrite E. destruct (existsb _ us); [done|]. unfold mode. rewrite other_rows by congruence. done.
Qed.

(** ** What a preview says *)

(** An event that is new, when its policy's score and cooldown let it pass, gets the action the
    preview shows for the moment. *)
Theorem preview_predicts off cam n source w p :
  resolve cam (n_type n) (n_subtype n) w = Some p -> n_state n = "start"%string -> n_vendor_event_id n = None ->
  get_active_by_dedup (dedup_key cam n) w = None -> within_cooldown (dedup_key cam n) w = false ->
  match ep_min_score p with Some m => m <= or_Z (n_score n) 0 | None => True end ->
  exists e, fst (process off cam n source w) = Some e /\ ev_policy_action e = Some (pv_action (resolve_preview off cam (n_type n) (n_subtype n) None w)).
Proof.
  intros Hp Hs Hv Ha Hc Hsc. unfold process. rewrite Hv, Hs, bool_decide_eq_true_2, Ha by done. cbn [create fresh_id].
  set (e := {| ev_id := _ |}). set (w1 := set_events _ _).
  assert (Hen : ep_enabled p = true).
  { assert (Hin : p ∈ get_candidates cam (n_type n) w).
    { revert Hp. unfold resolve. assert (Hl : forall l best k, (forall q, best = Some q -> q ∈ get_candidates cam (n_type n) w) -> l ⊆ get_candidates cam (n_type n) w ->
        forall q, resolve_loop cam (n_type n) (n_subtype n) l best k = Some q -> q ∈ get_candidates cam (n_type n) w).
      { induction l as [|x l IH]; intros best k Hb Hl q; cbn; [apply Hb|]. destruct (subtype_excludes _ _); [apply IH; [done|set_solver]|].
        destruct (_ <? _); apply IH; try done; [|set_solver..]. intros q' [= <-]. set_solver. }
      by apply Hl. }
    unfold get_candidates in Hin. apply list_elem_of_In, filter_In in Hin as [_ Hb]. rewrite !andb_true_iff in Hb. tauto. }
  unfold act. change (resolve cam (n_type n) (n_subtype n) w1) with (resolve cam (n_type n) (n_subtype n) w). rewrite Hp, Hen. cbn [negb].
  replace (match ep_min_score p with Some m => or_Z (n_score n) 0 <? m | None => false end) with false by (symmetry; destruct (ep_min_score p); [by apply Z.ltb_ge|done]).
  change (within_cooldown (dedup_key cam n) w1) with (within_cooldown (dedup_key cam n) w). rewrite Hc. cbn [ev_start_ts e].
  unfold resolve_preview. rewrite Hp. cbn [pv_action default]. change (mode off cam (ew_now w) w1) with (mode off cam (ew_now w) w).
  destruct (bool_decide (combine _ _ _ = "record"%string)); [destruct (materialize _ _ _ _) as [[r|] w2]|]; cbn [fst snd]; eexists; done.
Qed.

(** ** Witnesses *)

(** Monday 22:00 to 06:00 only motion, and off on Tuesdays from 05:00 to 05:30, at a higher priority. *)
Definition demo_rule (dow start end_ : Z) (mode : string) (prio : Z) : RuleData :=
  {| rd_day_of_week := Some dow; rd_start_min := Some start; rd_end_min := Some end_; rd_mode := Some mode; rd_priority := prio |}.
Definition demo_rules : list RuleData := [demo_rule 0 1320 360 "motion_only" 0; demo_rule 1 300 330 "off" 5].
Definition utc : Z -> Z := fun _ => 0.
(** Tuesday the 6th of January 1970 *)
Definition tuesday (minute : Z) : Z := 5 * DAY + minute * MINUTE.
Definition demo_scheduled : EventWorld := snd (replace_schedule demo_cam "cam" demo_rules demo_ew).

Lemma schedule_means_its_windows_witness :
  mode utc 1 (tuesday 120) demo_scheduled = "motion_only"%string /\ mode utc 1 (tuesday 310) demo_scheduled = "off"%string /\
  mode utc 1 (tuesday 400) demo_scheduled = "continuous"%string.
Proof.
  destruct (schedule_means_its_windows demo_cam utc "cam" demo_rules demo_ew tt demo_scheduled 1 ltac:(vm_compute; reflexivity) eq_refl) as [H _].
  rewrite !H. vm_compute. split_and!; reflexivity.
Defined.

Lemma group_schedule_stays_in_scope_witness :
  let u := {| cl_id := 9; cl_subject := None |} in
  forall ts, mode utc 1 ts (snd (apply_group demo_cam u demo_rules ["cam"; "other"]%string demo_ew)) = mode utc 1 ts demo_ew.
Proof.
  cbv zeta. intros ts. destruct (apply_group demo_cam {| cl_id := 9; cl_subject := None |} demo_rules ["cam"; "other"]%string demo_ew) as [[e|n] w'] eqn:E; [vm_compute in E; discriminate E|].
  cbn [snd]. rewrite (group_schedule_stays_in_scope _ utc _ _ _ _ _ _ E 1 ts). reflexivity.
Defined.

Definition demo_alarm : NormalizedEvent :=
  {| n_type := "motion"; n_state := "start"; n_subtype := None; n_score := None; n_channel := None; n_vendor_event_id := None; n_dedup_extra := None |}.
Lemma preview_predicts_witness :
  match fst (process utc 1 demo_alarm "isapi" demo_ew) with Some e => ev_policy_action e = Some "record"%string | None => False end.
Proof.
  destruct (preview_predicts utc 1 demo_alarm "isapi" demo_ew demo_event_policy ltac:(vm_compute; reflexivity) eq_refl eq_refl ltac:(vm_compute; reflexivity) ltac:(vm_compute; reflexivity) I) as (e & -> & H).
  rewrite H. vm_compute. reflexivity.
Defined.

(** ** What the controllers do not do *)

(** A window that ends at midnight leaves an empty rule on the next day; saving what the page
    then shows is refused. *)
Lemma midnight_end_cannot_be_saved_again :
  validate_rules [demo_rule 0 1320 0 "off" 0] = inr [(0, 1320, 1440, "off"%string, 0); (1, 0, 0, "off"%string, 0)] /\
  validate_rules [demo_rule 0 1320 1440 "off" 0; demo_rule 1 0 0 "off" 0] = inl "require start_min/end_min in 0..1440 and start != end"%string.
Proof. by vm_compute. Qed.

(** A change without an action is not checked: the type may be emptied, and the policy then meets
    no event; a change of the action alone is refused for want of the type. *)
Lemma policy_update_checks_by_action :
  let blank := {| pd_camera_uuid := None; pd_camera_id := None; pd_event_type := None; pd_subtype := None; pd_action := None; pd_pre_buffer_s := None; pd_post_buffer_s := None;
    pd_cooldown_s := None; pd_min_score := None; pd_notify := None; pd_enabled := None |} in
  let empty := {| pd_camera_uuid := None; pd_camera_id := None; pd_event_type := Some ""; pd_subtype := None; pd_action := None; pd_pre_buffer_s := None; pd_post_buffer_s := None;
    pd_cooldown_s := None; pd_min_score := None; pd_notify := None; pd_enabled := None |}%string in
  let act := {| pd_camera_uuid := None; pd_camera_id := None; pd_event_type := None; pd_subtype := None; pd_action := Some "discard"; pd_pre_buffer_s := None; pd_post_buffer_s := None;
    pd_cooldown_s := None; pd_min_score := None; pd_notify := None; pd_enabled := None |}%string in
  resolve 1 "motion" None (snd (update_event_policy 0 blank demo_ew)) = Some demo_event_policy /\
  resolve 1 "motion" None (snd (update_event_policy 0 empty demo_ew)) = None /\
  fst (update_event_policy 0 act demo_ew) = inl (InvalidParameterException "event_type required").
Proof. by vm_compute. Qed.
