(* ===== verification/Dashboards.v ===== *)
(** * Dashboards

    src/server/controller/dashboard.py, model/dashboard.py, model/dashboard_acl.py.

    A layout is the JSON of the request.  Parameters: which values name a camera, the n-th uuid
    drawn, the order of names.  Messages are kept without the value they quote; a TypeError or
    ValueError of the source is [ValueError]. *)

From Stdlib Require Import QArith.
From S2P Require Import Prelude PyStr Redis Permission Token Storage Sharing Json.
Local Open Scope Z_scope.
Local Open Scope list_scope.

Definition RATIO_MODES : list string := ["fit"; "stretch"; "crop"]%string.
Definition Verdict : Type := exn + unit.
Definition invalid (msg : string) : Verdict := inl (InvalidParameterException msg).
Definition passed : Verdict := inr tt.
Definition and_then (a : Verdict) (b : Verdict) : Verdict := match a with inl e => inl e | inr _ => b end.
Fixpoint check_all {A} (f : A -> Verdict) (l : list A) : Verdict := match l with [] => passed | x :: r => and_then (f x) (check_all f r) end.

(** ** Layouts *)

(** [isinstance(v, int)]; booleans are *)
Definition as_int (v : json) : option Z := match v with JInt z => Some z | JBool b => Some (Z.b2z b) | _ => None end.
Definition with_default (k : string) (d : json) (kvs : list (string * json)) : json := default d (assoc k kvs).
Definition one_of (l : list string) (v : json) : bool := match v with JStr s => bool_decide (s ∈ l) | _ => false end.

Section Layout.
Context (camera_known : json -> bool).

Definition in_grid (cols rows : Z) (x y w h : Z) : bool := negb ((x <? 0) || (y <? 0) || (w <? 1) || (h <? 1) || (cols <? x + w) || (rows <? y + h)).
(** one cell, after the ids [seen] *)
Definition check_cell (cols rows : Z) (seen : list json) (cell : json) : Verdict :=
  match cell with
  | JObj c =>
      let cid := jget "i" c in
      if negb (hashable cid) then inl (ValueError "unhashable") else
      if existsb (py_eq cid) seen then invalid "duplicate cell id" else
      match as_int (with_default "x" (JInt 0) c), as_int (with_default "y" (JInt 0) c), as_int (with_default "w" (JInt 1) c), as_int (with_default "h" (JInt 1) c) with
      | Some x, Some y, Some w, Some h =>
          if negb (in_grid cols rows x y w h) then invalid "cell out of grid bounds" else
          if match jget "ratio_mode" c with JNull => false | rm => negb (one_of RATIO_MODES rm) end then invalid "invalid ratio_mode" else
          if match jget "stream_role" c with JNull => false | sr => negb (one_of ["main"; "sub"]%string sr) end then invalid "invalid stream_role" else
          if truthy (jget "camera_uuid" c) && negb (camera_known (jget "camera_uuid" c)) then invalid "unknown camera in cell" else passed
      | _, _, _, _ => invalid "cell x/y/w/h must be integers"
      end
  | _ => invalid "each cell must be an object"
  end.
Fixpoint check_cells (cols rows : Z) (seen : list json) (cells : list json) : Verdict :=
  match cells with
  | [] => passed
  | c :: r => and_then (check_cell cols rows seen c) (check_cells cols rows (match c with JObj kvs => jget "i" kvs | _ => JNull end :: seen) r)
  end.
(** [_validate_page] *)
Definition check_page (page : list (string * json)) : Verdict :=
  match (if truthy (jget "grid" page) then jget "grid" page else JObj []) with
  | JObj g =>
      match to_int (with_default "cols" (JInt 12) g), to_int (with_default "rows" (JInt 8) g) with
      | Some cols, Some rows =>
          match with_default "cells" (JList []) page with
          | JList cells => check_cells cols rows [] cells
          | _ => invalid "layout.cells must be a list"
          end
      | _, _ => inl (ValueError "int()")
      end
  | _ => inl (ValueError "grid")
  end.
Definition check_sequence (seq : json) : Verdict :=
  match seq with
  | JNull => passed
  | JObj s => match jget "dwell_s" s with
              | JNull => passed
              | v => match to_int v with Some n => if n <? 2 then invalid "sequence.dwell_s must be >= 2" else passed | None => inl (ValueError "int()") end
              end
  | _ => invalid "layout.sequence must be an object"
  end.
Definition validate_layout (layout : json) : Verdict :=
  match layout with
  | JObj l =>
      match jget "pages" l with
      | JNull => check_page l
      | JList [] => invalid "layout.pages must be a non-empty list"
      | JList pages => and_then (check_all (fun p => match p with JObj page => check_page page | _ => invalid "each page must be an object" end) pages)
                         (check_sequence (jget "sequence" l))
      | _ => invalid "layout.pages must be a non-empty list"
      end
  | _ => invalid "layout must be an object"
  end.
End Layout.

(** ** Rows *)

Record Dashboard := {
  db_id : Z; db_uuid : string; db_name : string; db_description : option string; db_layout : json; db_owner_id : Z; db_is_shared : bool; db_ratio_mode : string;
  db_deleted : bool
}.
Record AclRow := { ac_dashboard_id : Z; ac_user_id : Z; ac_access : string }.
Record DashWorld := { dx_dashboards : list Dashboard; dx_acl : list AclRow; dx_next : Z; dx_draws : nat }.
Definition DM (A : Type) : Type := M DashWorld exn A.
Definition set_dashboards (l : list Dashboard) (w : DashWorld) : DashWorld := {| dx_dashboards := l; dx_acl := dx_acl w; dx_next := dx_next w; dx_draws := dx_draws w |}.
Definition set_acls (l : list AclRow) (w : DashWorld) : DashWorld := {| dx_dashboards := dx_dashboards w; dx_acl := l; dx_next := dx_next w; dx_draws := dx_draws w |}.

Definition dash_by_uuid (uuid : string) (w : DashWorld) : option Dashboard := List.find (fun d => bool_decide (db_uuid d = uuid) && negb (db_deleted d)) (dx_dashboards w).
Definition put_dashboard (d : Dashboard) (w : DashWorld) : DashWorld := set_dashboards ((fun x => if db_id x =? db_id d then d else x) <$> dx_dashboards w) w.
Definition is_acl (dash user : Z) (a : AclRow) : bool := (ac_dashboard_id a =? dash) && (ac_user_id a =? user).
Definition acl_access (dash user : Z) (w : DashWorld) : option string := ac_access <$> List.find (is_acl dash user) (dx_acl w).
Definition upsert_acl (dash user : Z) (access : string) (w : DashWorld) : DashWorld :=
  let row := {| ac_dashboard_id := dash; ac_user_id := user; ac_access := access |} in
  set_acls (if existsb (is_acl dash user) (dx_acl w) then (fun a => if is_acl dash user a then row else a) <$> dx_acl w else dx_acl w ++ [row]) w.
Definition remove_acl_row (dash user : Z) (w : DashWorld) : DashWorld := set_acls (List.filter (fun a => negb (is_acl dash user a)) (dx_acl w)) w.
Definition delete_for_dashboard (dash : Z) (w : DashWorld) : DashWorld := set_acls (List.filter (fun a => negb (ac_dashboard_id a =? dash)) (dx_acl w)) w.
(** [modify]: what is given *)
Record DashPatch := { dq_name : option string; dq_description : option string; dq_layout : option json; dq_ratio : option string; dq_shared : option bool }.
Definition modified (p : DashPatch) (d : Dashboard) : Dashboard :=
  {| db_id := db_id d; db_uuid := db_uuid d; db_name := default (db_name d) (dq_name p); db_description := match dq_description p with Some t => Some t | None => db_description d end;
     db_layout := default (db_layout d) (dq_layout p); db_owner_id := db_owner_id d; db_is_shared := default (db_is_shared d) (dq_shared p);
     db_ratio_mode := default (db_ratio_mode d) (dq_ratio p); db_deleted := db_deleted d |}.
Definition only_shared : DashPatch := {| dq_name := None; dq_description := None; dq_layout := None; dq_ratio := None; dq_shared := Some true |}.

(** ** The controller *)

Record NewDashboard := { nd_name : option string; nd_layout : json; nd_ratio : option string; nd_description : option string; nd_shared : bool }.
Definition first_layout : json := JObj [("version", JInt 1); ("grid", JObj [("cols", JInt 12); ("rows", JInt 8)]); ("cells", JList [])]%string.
Definition owner (u : Caller) (d : Dashboard) : bool := is_superuser (cl_subject u) || (db_owner_id d =? cl_id u).
(** [_access_level] *)
Definition access_level (u : Caller) (d : Dashboard) (w : DashWorld) : option string := if owner u d then Some "edit"%string else acl_access (db_id d) (cl_id u) w.

Section Controller.
Context (camera_known : json -> bool) (uuid_hex : nat -> string).

Definition checked (c : Verdict) : DM unit := match c with inl e => raise e | inr _ => ret tt end.
Definition dash_or_404 (uuid : string) : DM Dashboard := let! o := gets (dash_by_uuid uuid) in match o with Some d => ret d | None => raise RowNotFoundException end.
(** [_require], [_require_owner] *)
Definition require_access (u : Caller) (d : Dashboard) (need : string) : DM string :=
  let! level := gets (access_level u d) in
  match level with
  | None => raise NoPermissionException
  | Some l => if bool_decide (need = "edit"%string) && negb (bool_decide (l = "edit"%string)) then raise NoPermissionException else ret l
  end.
Definition require_owner (u : Caller) (d : Dashboard) : DM unit := if owner u d then ret tt else raise NoPermissionException.

Definition dash_list (u : Caller) (w : DashWorld) : list Dashboard :=
  List.filter (fun d => negb (db_deleted d) && (is_superuser (cl_subject u) || (db_owner_id d =? cl_id u) || existsb (is_acl (db_id d) (cl_id u)) (dx_acl w))) (dx_dashboards w).
Definition dash_get (u : Caller) (uuid : string) : DM (Dashboard * string) := let! d := dash_or_404 uuid in let! l := require_access u d "view" in ret (d, l).
Definition dash_create (u : Caller) (n : NewDashboard) : DM Dashboard :=
  let name := strip (or_str (nd_name n) "") in
  if bool_decide (name = EmptyString) then raise (InvalidParameterException "name required") else
  let layout := if truthy (nd_layout n) then nd_layout n else first_layout in
  checked (validate_layout camera_known layout) ;;;
  let ratio := or_str (nd_ratio n) "fit" in
  if negb (bool_decide (ratio ∈ RATIO_MODES)) then raise (InvalidParameterException "invalid default_ratio_mode") else
  fun w =>
    let d := {| db_id := dx_next w; db_uuid := uuid_hex (dx_draws w); db_name := name; db_description := nd_description n; db_layout := layout; db_owner_id := cl_id u;
                db_is_shared := nd_shared n; db_ratio_mode := ratio; db_deleted := false |} in
    (inr d, {| dx_dashboards := dx_dashboards w ++ [d]; dx_acl := dx_acl w; dx_next := dx_next w + 1; dx_draws := S (dx_draws w) |}).
Definition dash_update (u : Caller) (uuid : string) (p : DashPatch) : DM Dashboard :=
  let! d := dash_or_404 uuid in
  let! _ := require_access u d "edit" in
  match dq_layout p with Some l => checked (validate_layout camera_known l) | None => ret tt end ;;;
  match dq_ratio p with Some r => if bool_decide (r ∈ RATIO_MODES) then ret tt else raise (InvalidParameterException "invalid default_ratio_mode") | None => ret tt end ;;;
  modify (put_dashboard (modified p d)) ;;; ret (modified p d).
Definition dash_delete (u : Caller) (uuid : string) : DM unit :=
  let! d := dash_or_404 uuid in
  require_owner u d ;;;
  modify (fun w => put_dashboard {| db_id := db_id d; db_uuid := db_uuid d; db_name := db_name d; db_description := db_description d; db_layout := db_layout d; db_owner_id := db_owner_id d;
    db_is_shared := db_is_shared d; db_ratio_mode := db_ratio_mode d; db_deleted := true |} (delete_for_dashboard (db_id d) w)).
(** [set_acl]; the user id as [int()] reads it *)
Definition dash_set_acl (u : Caller) (uuid : string) (target : option json) (access : option string) : DM unit :=
  let! d := dash_or_404 uuid in
  require_owner u d ;;;
  let access := or_str access "view" in
  if negb (truthy (default JNull target)) then raise (InvalidParameterException "user_id required") else
  if negb (bool_decide (access ∈ ["view"; "edit"]%string)) then raise (InvalidParameterException "access must be view or edit") else
  match to_int (default JNull target) with
  | None => raise (ValueError "int()")
  | Some user => modify (upsert_acl (db_id d) user access) ;;; (if db_is_shared d then ret tt else modify (put_dashboard (modified only_shared d)))
  end.
Definition dash_remove_acl (u : Caller) (uuid : string) (target : Z) : DM unit :=
  let! d := dash_or_404 uuid in require_owner u d ;;; modify (remove_acl_row (db_id d) target).
End Controller.

(** ** Accepted layouts *)

Definition cell_ok (camera_known : json -> bool) (cols rows : Z) (cell : json) : Prop :=
  exists c x y w h, cell = JObj c /\
    as_int (with_default "x" (JInt 0) c) = Some x /\ as_int (with_default "y" (JInt 0) c) = Some y /\
    as_int (with_default "w" (JInt 1) c) = Some w /\ as_int (with_default "h" (JInt 1) c) = Some h /\
    0 <= x /\ 0 <= y /\ 1 <= w /\ 1 <= h /\ x + w <= cols /\ y + h <= rows /\
    (jget "ratio_mode" c = JNull \/ exists m, jget "ratio_mode" c = JStr m /\ m ∈ RATIO_MODES) /\
    (jget "stream_role" c = JNull \/ exists m, jget "stream_role" c = JStr m /\ m ∈ ["main"; "sub"]%string) /\
    (truthy (jget "camera_uuid" c) = true -> camera_known (jget "camera_uuid" c) = true).
Definition cell_id (cell : json) : json := match cell with JObj kvs => jget "i" kvs | _ => JNull end.
(** Every cell lies in the grid, and no two have equal ids. *)
Definition dash_page_ok (camera_known : json -> bool) (page : json) : Prop :=
  exists p g cols rows cells, page = JObj p /\ (if truthy (jget "grid" p) then jget "grid" p else JObj []) = JObj g /\
    to_int (with_default "cols" (JInt 12) g) = Some cols /\ to_int (with_default "rows" (JInt 8) g) = Some rows /\
    with_default "cells" (JList []) p = JList cells /\ Forall (cell_ok camera_known cols rows) cells /\ StronglySorted (fun a b => py_eq b a = false) (cell_id <$> cells).
Definition pages_of (layout : json) : list json := match layout with JObj l => match jget "pages" l with JList ps => ps | _ => [layout] end | _ => [] end.
Definition layout_ok (camera_known : json -> bool) (layout : json) : Prop := pages_of layout <> [] /\ Forall (dash_page_ok camera_known) (pages_of layout).

Section LayoutTheory.
Context (camera_known : json -> bool).

Lemma and_then_passed a b : and_then a b = passed -> a = passed /\ b = passed.
Proof. destruct a as [|[]]; [done|]. by intros H. Qed.
Lemma one_of_spec l v : one_of l v = true -> exists m, v = JStr m /\ m ∈ l.
Proof. destruct v; try done. cbn. intros H%bool_decide_eq_true. eauto. Qed.

Lemma check_cell_passed cols rows seen cell :
  check_cell camera_known cols rows seen cell = passed -> cell_ok camera_known cols rows cell /\ Forall (fun s => py_eq (cell_id cell) s = false) seen.
Proof.
  intros H. destruct cell as [| | | | | |c]; try done. unfold check_cell in H. cbv zeta in H. destruct (hashable _); [|done]. cbn [negb] in H.
  destruct (existsb _ seen) eqn:Es; [done|].
  destruct (as_int (with_default "x" (JInt 0) c)) as [x|] eqn:Ex, (as_int (with_default "y" (JInt 0) c)) as [y|] eqn:Ey, (as_int (with_default "w" (JInt 1) c)) as [w|] eqn:Ew, (as_int (with_default "h" (JInt 1) c)) as [h|] eqn:Eh; try done.
  destruct (in_grid cols rows x y w h) eqn:Eg; [|done]. unfold in_grid in Eg. rewrite negb_true_iff, !orb_false_iff, !Z.ltb_ge in Eg. cbn [negb] in H.
  destruct (match jget "ratio_mode" c with JNull => false | rm => negb (one_of RATIO_MODES rm) end) eqn:Er; [done|].
  destruct (match jget "stream_role" c with JNull => false | sr => negb (one_of ["main"; "sub"]%string sr) end) eqn:Esr; [done|].
  destruct (truthy (jget "camera_uuid" c) && _) eqn:Ec; [done|]. split.
  - exists c, x, y, w, h. split_and!; try done; try lia.
    + destruct (jget "ratio_mode" c); try done; [by left|right]. apply negb_false_iff, one_of_spec in Er as (m & E & Hm). eauto.
    + destruct (jget "stream_role" c); try done; [by left|right]. apply negb_false_iff, one_of_spec in Esr as (m & E & Hm). eauto.
    + intros Ht. rewrite Ht in Ec. by destruct (camera_known _).
  - apply Forall_forall. intros s Hs. apply not_true_iff_false. intros E. apply not_true_iff_false in Es. apply Es, existsb_exists. exists s. split; [by apply list_elem_of_In|done].
Qed.

Lemma check_cells_passed cols rows cells seen :
  check_cells camera_known cols rows seen cells = passed ->
  Forall (cell_ok camera_known cols rows) cells /\ StronglySorted (fun a b => py_eq b a = false) (cell_id <$> cells) /\
  Forall (fun c => Forall (fun s => py_eq c s = false) seen) (cell_id <$> cells).
Proof.
  revert seen. induction cells as [|c r IH]; intros seen H; cbn in *; [split_and!; constructor|].
  apply and_then_passed in H as [[Hc Hs]%check_cell_passed H]. apply IH in H as (H1 & H2 & H3). change (match c with JObj kvs => jget "i" kvs | _ => JNull end) with (cell_id c) in H3.
  split_and!; [by constructor|constructor; [done|]|constructor; [done|]].
  - eapply Forall_impl; [exact H3|]. intros x Hx. by apply Forall_cons_1 in Hx as [? _].
  - eapply Forall_impl; [exact H3|]. intros x Hx. by apply Forall_cons_1 in Hx as [_ ?].
Qed.

Lemma check_page_passed p : check_page camera_known p = passed -> dash_page_ok camera_known (JObj p).
Proof.
  intros H. unfold check_page in H. destruct (if truthy (jget "grid" p) then _ else _) as [| | | | | |g] eqn:Eg; try done.
  destruct (to_int (with_default "cols" (JInt 12) g)) as [cols|] eqn:Ec; [|done]. destruct (to_int (with_default "rows" (JInt 8) g)) as [rows|] eqn:Er; [|done].
  destruct (with_default "cells" (JList []) p) as [| | | | |cells|] eqn:Ecs; try done. apply check_cells_passed in H as (H1 & H2 & _).
  exists p, g, cols, rows, cells. by split_and!.
Qed.

Lemma validated_layout layout : validate_layout camera_known layout = passed -> layout_ok camera_known layout.
Proof.
  intros H. destruct layout as [| | | | | |l]; try done. unfold layout_ok. cbn in H |- *. destruct (jget "pages" l) as [| | | | |pages|]; try done.
  - split; [done|]. constructor; [by apply check_page_passed|constructor].
  - destruct pages as [|p0 ps]; [done|]. apply and_then_passed in H as [H _]. split; [done|]. revert H. generalize (p0 :: ps) as pages.
    induction pages as [|p r IH]; intros H; [constructor|]. cbn in H. apply and_then_passed in H as [Hp H]. constructor; [|by apply IH].
    destruct p; try done. by apply check_page_passed.
Qed.
End LayoutTheory.

(** ** Who may do what, in every history *)

Section Histories.
Context (camera_known : json -> bool) (uuid_hex : nat -> string).

Inductive DashOp :=
| DashCreate (u : Caller) (n : NewDashboard)
| DashUpdate (u : Caller) (uuid : string) (p : DashPatch)
| DashDelete (u : Caller) (uuid : string)
| DashSetAcl (u : Caller) (uuid : string) (target : option json) (access : option string)
| DashRemoveAcl (u : Caller) (uuid : string) (target : Z).
Definition dash_step (w : DashWorld) (op : DashOp) : DashWorld :=
  match op with
  | DashCreate u n => snd (dash_create camera_known uuid_hex u n w)
  | DashUpdate u uuid p => snd (dash_update camera_known u uuid p w)
  | DashDelete u uuid => snd (dash_delete u uuid w)
  | DashSetAcl u uuid t a => snd (dash_set_acl u uuid t a w)
  | DashRemoveAcl u uuid t => snd (dash_remove_acl u uuid t w)
  end.
Definition no_dashboards : DashWorld := {| dx_dashboards := []; dx_acl := []; dx_next := 1; dx_draws := 0 |}.

(** Same id, uuid and owner. *)
Definition same_dash (d d' : Dashboard) : Prop := db_id d' = db_id d /\ db_uuid d' = db_uuid d /\ db_owner_id d' = db_owner_id d.
(** The grant behind an ACL row. *)
Definition granted (ops : list DashOp) (w : DashWorld) (a : AclRow) : Prop :=
  exists g t acc d, DashSetAcl g (db_uuid d) (Some t) acc ∈ ops /\ to_int t = Some (ac_user_id a) /\ ac_access a = or_str acc "view" /\
    d ∈ dx_dashboards w /\ db_id d = ac_dashboard_id a /\ owner g d = true.
Record dash_inv (ops : list DashOp) (w : DashWorld) : Prop := {
  di_ids : NoDup (db_id <$> dx_dashboards w);
  di_fresh : forall d, d ∈ dx_dashboards w -> db_id d < dx_next w;
  di_layouts : forall d, d ∈ dx_dashboards w -> layout_ok camera_known (db_layout d) /\ db_ratio_mode d ∈ RATIO_MODES;
  di_acl : forall a, a ∈ dx_acl w -> granted ops w a
}.

Lemma granted_later ops ops' w w' a :
  (forall op, op ∈ ops -> op ∈ ops') -> (forall d, d ∈ dx_dashboards w -> exists d', d' ∈ dx_dashboards w' /\ same_dash d d') -> granted ops w a -> granted ops' w' a.
Proof.
  intros Ho Hd (g & t & acc & d & Hop & Ht & Ha & Hin & Hid & Hown). destruct (Hd d Hin) as (d' & Hin' & E1 & E2 & E3).
  exists g, t, acc, d'. split_and!; try done; [rewrite E2; by apply Ho|congruence|]. unfold owner in *. by rewrite E3.
Qed.

Lemma put_dashboard_rows d w d0 :
  d ∈ dx_dashboards w -> same_dash d d0 ->
  (forall x, x ∈ dx_dashboards w -> exists x', x' ∈ dx_dashboards (put_dashboard d0 w) /\ (NoDup (db_id <$> dx_dashboards w) -> same_dash x x')) /\
  (forall x, x ∈ dx_dashboards (put_dashboard d0 w) -> x = d0 \/ x ∈ dx_dashboards w) /\
  db_id <$> dx_dashboards (put_dashboard d0 w) = db_id <$> dx_dashboards w.
Proof.
  intros Hd (E1 & E2 & E3). cbn. split_and!.
  - intros x Hx. exists (if db_id x =? db_id d0 then d0 else x). split; [by apply (list_elem_of_fmap_2 (fun x => if db_id x =? db_id d0 then d0 else x))|].
    intros Hn. destruct (Z.eqb_spec (db_id x) (db_id d0)) as [E|]; [|done]. assert (x = d) as -> by (apply (nodup_key_inj db_id _ _ _ Hn Hx Hd); congruence). done.
  - intros x (y & -> & Hy)%list_elem_of_fmap. destruct (_ =? _); auto.
  - rewrite <- list_fmap_compose. apply list_fmap_ext. intros i x _. cbn. destruct (Z.eqb_spec (db_id x) (db_id d0)); congruence.
Qed.

(** A change of one dashboard and of the ACL keeps the invariant when the ACL's rows are old ones
    or granted. *)
Lemma dash_inv_put ops op w d d0 acl :
  dash_inv ops w -> d ∈ dx_dashboards w -> same_dash d d0 -> (layout_ok camera_known (db_layout d0) /\ db_ratio_mode d0 ∈ RATIO_MODES) ->
  (forall a, a ∈ acl -> a ∈ dx_acl w \/ granted (ops ++ [op]) w a) -> dash_inv (ops ++ [op]) (put_dashboard d0 (set_acls acl w)).
Proof.
  intros [H1 H2 H3 H4] Hd Hs Hok Hacl. destruct (put_dashboard_rows d (set_acls acl w) d0 Hd Hs) as (R1 & R2 & R3).
  split; [by rewrite R3|..].
  - intros x [->|Hx]%R2; [|by apply H2]. destruct Hs as (-> & _). by apply H2.
  - intros x [->|Hx]%R2; [done|by apply H3].
  - intros a Ha. change (a ∈ acl) in Ha. apply Hacl in Ha as [Ha|Ha].
    + apply (granted_later ops _ w); [intros; apply elem_of_app; by left| |by apply H4]. intros x Hx. destruct (R1 x Hx) as (x' & ? & Hsame). exists x'. split; [done|by apply Hsame].
    + apply (granted_later (ops ++ [op]) _ w); [done| |done]. intros x Hx. destruct (R1 x Hx) as (x' & ? & Hsame). exists x'. split; [done|by apply Hsame].
Qed.

Lemma dash_inv_same ops op w acl :
  dash_inv ops w -> (forall a, a ∈ acl -> a ∈ dx_acl w \/ granted (ops ++ [op]) w a) -> dash_inv (ops ++ [op]) (set_acls acl w).
Proof.
  intros [H1 H2 H3 H4] Hacl. split; try done. intros a Ha. change (a ∈ acl) in Ha. apply Hacl in Ha as [Ha|Ha];
    [apply (granted_later ops _ w); [intros; apply elem_of_app; by left| |by apply H4]|apply (granted_later (ops ++ [op]) _ w); [done| |done]];
    intros x Hx; by exists x.
Qed.
Lemma dash_inv_idle ops op w : dash_inv ops w -> dash_inv (ops ++ [op]) w.
Proof. intros H. destruct w as [ds acl n k]. apply (dash_inv_same ops op _ acl) in H; [exact H|auto]. Qed.

Lemma dash_by_uuid_row uuid w d : dash_by_uuid uuid w = Some d -> d ∈ dx_dashboards w /\ db_uuid d = uuid.
Proof. intros H. apply find_some in H as [H%list_elem_of_In [E%bool_decide_eq_true _]%andb_true_iff]. done. Qed.

Lemma dash_step_inv ops w op : dash_inv ops w -> dash_inv (ops ++ [op]) (dash_step w op).
Proof.
  intros H. destruct op as [u n|u uuid p|u uuid|u uuid t a|u uuid t]; cbn [dash_step].
  - unfold dash_create. case_bool_decide; [by apply dash_inv_idle|]. unfold bind, checked.
    destruct (validate_layout camera_known _) as [e|[]] eqn:Ev; [by apply dash_inv_idle|]. cbn [ret]. case_bool_decide as Hr; [|by apply dash_inv_idle]. cbn [negb snd].
    apply validated_layout in Ev. destruct H as [H1 H2 H3 H4]. split; cbn [dx_dashboards dx_acl dx_next].
    + rewrite fmap_app. apply NoDup_app. split_and!; [done| |apply NoDup_singleton]. intros i (x & -> & Hx)%list_elem_of_fmap Hi%list_elem_of_singleton. apply H2 in Hx. cbn in Hi. lia.
    + intros d [Hd| ->%list_elem_of_singleton]%elem_of_app; [apply H2 in Hd; lia|cbn; lia].
    + intros d [Hd| ->%list_elem_of_singleton]%elem_of_app; [by apply H3|by split].
    + intros a Ha. apply (granted_later ops _ w); [intros; apply elem_of_app; by left| |by apply H4]. intros x Hx. exists x. split; [cbn; apply elem_of_app; by left|done].
  - unfold dash_update, dash_or_404, bind, gets. destruct (dash_by_uuid uuid w) as [d|] eqn:Eu; [|by apply dash_inv_idle]. apply dash_by_uuid_row in Eu as [Hd _]. cbn [ret].
    unfold require_access, bind, gets. destruct (access_level u d w) as [l|]; [|by apply dash_inv_idle]. destruct (_ && _); [by apply dash_inv_idle|]. cbn [ret].
    pose proof (di_layouts _ _ H d Hd) as [Hl Hr].
    assert (Hgo : forall d0, same_dash d d0 -> layout_ok camera_known (db_layout d0) /\ db_ratio_mode d0 ∈ RATIO_MODES -> dash_inv (ops ++ [DashUpdate u uuid p]) (put_dashboard d0 w)).
    { intros d0 Hs Hok. destruct w as [ds acl nx k]. apply (dash_inv_put ops (DashUpdate u uuid p) _ d d0 acl H Hd Hs Hok). auto. }
    destruct (dq_layout p) as [lay|] eqn:El; [unfold checked; destruct (validate_layout camera_known lay) as [e|[]] eqn:Ev; [by apply dash_inv_idle|]; apply validated_layout in Ev|];
      cbn [ret]; (destruct (dq_ratio p) as [r|] eqn:Er; [case_bool_decide as Hrm; [|by apply dash_inv_idle]|]); cbn [ret modify snd]; apply Hgo; try done; cbn; rewrite ?El, ?Er; by split.
  - unfold dash_delete, dash_or_404, bind, gets. destruct (dash_by_uuid uuid w) as [d|] eqn:Eu; [|by apply dash_inv_idle]. apply dash_by_uuid_row in Eu as [Hd _]. cbn [ret].
    unfold require_owner. destruct (owner u d); [|by apply dash_inv_idle]. cbn [ret modify snd]. apply (dash_inv_put ops _ w d); [exact H|exact Hd|done|apply (di_layouts _ _ H d Hd)|].
    intros a Ha. left. by apply list_elem_of_In, filter_In in Ha as [?%list_elem_of_In _].
  - unfold dash_set_acl, dash_or_404, bind, gets. destruct (dash_by_uuid uuid w) as [d|] eqn:Eu; [|by apply dash_inv_idle]. apply dash_by_uuid_row in Eu as [Hd Huuid]. cbn [ret].
    unfold require_owner. destruct (owner u d) eqn:Eo; [|by apply dash_inv_idle]. cbn [ret]. destruct (truthy _) eqn:Et; [|by apply dash_inv_idle]. cbn [negb].
    case_bool_decide as Hacc; [|by apply dash_inv_idle]. cbn [negb]. destruct (to_int (default JNull t)) as [user|] eqn:Ei; [|by apply dash_inv_idle]. cbn [modify].
    destruct t as [t|]; [|discriminate Et]. cbn [default from_option id] in Ei.
    assert (Hnew : forall x, x ∈ dx_acl (upsert_acl (db_id d) user (or_str a "view") w) -> x ∈ dx_acl w \/ granted (ops ++ [DashSetAcl u uuid (Some t) a]) w x).
    { assert (Hg : granted (ops ++ [DashSetAcl u uuid (Some t) a]) w {| ac_dashboard_id := db_id d; ac_user_id := user; ac_access := or_str a "view" |}).
      { exists u, t, a, d. split_and!; try done. rewrite Huuid. apply elem_of_app. right. by apply list_elem_of_singleton. }
      intros x. cbn [upsert_acl dx_acl set_acls]. destruct (existsb _ _).
      - intros (y & -> & Hy)%list_elem_of_fmap. destruct (is_acl _ _ y); auto.
      - intros [?| ->%list_elem_of_singleton]%elem_of_app; auto. }
    destruct (db_is_shared d); cbn [ret snd].
    + by apply (dash_inv_same ops _ w).
    + apply (dash_inv_put ops _ w d); [exact H|exact Hd|done|apply (di_layouts _ _ H d Hd)|exact Hnew].
  - unfold dash_remove_acl, dash_or_404, bind, gets. destruct (dash_by_uuid uuid w) as [d|] eqn:Eu; [|by apply dash_inv_idle]. apply dash_by_uuid_row in Eu as [Hd _]. cbn [ret].
    unfold require_owner. destruct (owner u d); [|by apply dash_inv_idle]. cbn [ret modify snd]. apply (dash_inv_same ops _ w); [done|].
    intros a Ha. left. by apply list_elem_of_In, filter_In in Ha as [?%list_elem_of_In _].
Qed.

Lemma dash_run_inv ops : dash_inv ops (foldl dash_step no_dashboards ops).
Proof.
  induction ops as [|op ops IH] using rev_ind; [split; [constructor|by intros ? ?%elem_of_nil..]|]. rewrite foldl_app. by apply dash_step_inv.
Qed.

(** Every dashboard a history of requests leaves has its cells in the grid under different ids. *)
Theorem dashboards_well_formed ops d :
  d ∈ dx_dashboards (foldl dash_step no_dashboards ops) -> layout_ok camera_known (db_layout d) /\ db_ratio_mode d ∈ RATIO_MODES.
Proof. apply (di_layouts _ _ (dash_run_inv ops)). Qed.

(** Whoever has access to a dashboard owns it, is a superuser, or was given that access by
    somebody who owned it or was. *)
Theorem dashboard_access_was_granted ops u d level :
  d ∈ dx_dashboards (foldl dash_step no_dashboards ops) -> access_level u d (foldl dash_step no_dashboards ops) = Some level ->
  owner u d = true \/ exists g t acc, DashSetAcl g (db_uuid d) (Some t) acc ∈ ops /\ owner g d = true /\ to_int t = Some (cl_id u) /\ level = or_str acc "view".
Proof.
  intros Hd Ha. unfold access_level in Ha. destruct (owner u d); [by left|right]. unfold acl_access in Ha.
  destruct (List.find _ _) as [a|] eqn:Ef; [|done]. injection Ha as <-. apply find_some in Ef as [Hin%list_elem_of_In [Ed%Z.eqb_eq Eu%Z.eqb_eq]%andb_true_iff].
  pose proof (dash_run_inv ops) as H. destruct (di_acl _ _ H a Hin) as (g & t & acc & d' & Hop & Ht & Hacc & Hd' & Hid & Hown).
  assert (d' = d) as -> by (apply (nodup_key_inj db_id _ _ _ (di_ids _ _ H) Hd' Hd); congruence). exists g, t, acc. by rewrite <- Eu.
Qed.
End Histories.


(** ** Witnesses *)

Definition known_cam : json -> bool := one_of ["cam"]%string.
Definition demo_uuid (n : nat) : string := String (Ascii.ascii_of_nat (100 + n)) "".
Definition alice : Caller := {| cl_id := 7; cl_subject := None |}.
Definition bob : Caller := {| cl_id := 8; cl_subject := None |}.
Definition demo_cell (i : string) (x y w h : Z) : json :=
  JObj [("i", JStr i); ("x", JInt x); ("y", JInt y); ("w", JInt w); ("h", JInt h); ("camera_uuid", JStr "cam")]%string.
Definition demo_layout : json := JObj [("grid", JObj [("cols", JInt 4); ("rows", JInt 2)]); ("cells", JList [demo_cell "a" 0 0 2 2; demo_cell "b" 2 0 2 1])]%string.
Definition demo_new : NewDashboard := {| nd_name := Some "Gate"%string; nd_layout := demo_layout; nd_ratio := None; nd_description := None; nd_shared := false |}.
Definition demo_ops : list DashOp := [DashCreate alice demo_new; DashSetAcl alice "d" (Some (JStr "8")) (Some "edit")]%string.
Definition demo_boards : DashWorld := foldl (dash_step known_cam demo_uuid) no_dashboards demo_ops.
Definition demo_board : Dashboard :=
  {| db_id := 1; db_uuid := "d"; db_name := "Gate"; db_description := None; db_layout := demo_layout; db_owner_id := 7; db_is_shared := true; db_ratio_mode := "fit"; db_deleted := false |}.

Lemma demo_board_in : demo_board ∈ dx_dashboards demo_boards.
Proof. vm_compute. apply list_elem_of_here. Qed.

Lemma dashboards_well_formed_witness : layout_ok known_cam demo_layout /\ "fit"%string ∈ RATIO_MODES.
Proof. apply (dashboards_well_formed known_cam demo_uuid demo_ops demo_board demo_board_in). Defined.

Lemma dashboard_access_was_granted_witness :
  access_level bob demo_board demo_boards = Some "edit"%string /\
  exists g t acc, DashSetAcl g "d" (Some t) acc ∈ demo_ops /\ owner g demo_board = true /\ to_int t = Some 8 /\ or_str acc "view" = "edit"%string.
Proof.
  split; [vm_compute; reflexivity|].
  destruct (dashboard_access_was_granted known_cam demo_uuid demo_ops bob demo_board "edit" demo_board_in ltac:(vm_compute; reflexivity)) as [H|(g & t & acc & H1 & H2 & H3 & H4)];
    [vm_compute in H; discriminate H|]. exists g, t, acc. by split_and!.
Defined.

(** ** What the controller does not do *)

(** Marking a dashboard as not shared leaves the rows that share it. *)
Lemma unshared_dashboard_stays_shared :
  let p := {| dq_name := None; dq_description := None; dq_layout := None; dq_ratio := None; dq_shared := Some false |} in
  let w := dash_step known_cam demo_uuid demo_boards (DashUpdate alice "d" p) in
  (db_is_shared <$> dash_by_uuid "d" w) = Some false /\ access_level bob (modified p demo_board) w = Some "edit"%string.
Proof. by vm_compute. Qed.

(** A name that creation refuses is accepted by a change. *)
Lemma update_empties_the_name :
  let p := {| dq_name := Some ""%string; dq_description := None; dq_layout := None; dq_ratio := None; dq_shared := None |} in
  (db_name <$> dash_by_uuid "d" (dash_step known_cam demo_uuid demo_boards (DashUpdate bob "d" p))) = Some ""%string /\
  fst (dash_create known_cam demo_uuid alice {| nd_name := Some ""%string; nd_layout := demo_layout; nd_ratio := None; nd_description := None; nd_shared := false |} demo_boards) =
    inl (InvalidParameterException "name required").
Proof. by vm_compute. Qed.

(** A name of a cell that is a list or an object ends the request with a TypeError. *)
Lemma unhashable_cell_id_raises :
  validate_layout known_cam (JObj [("cells", JList [JObj [("i", JList [])]])]%string) = inl (ValueError "unhashable").
Proof. by vm_compute. Qed.
