(* ===== verification/ApiAccess.v ===== *)
(** * The external API

    src/server/service/api_token.py, model/api_token.py, controller/api_token.py,
    controller/external.py, model/webhook_endpoint.py, driver/webhook.py ([ssrf_check],
    [sign]'s caller [deliver]), [Event.get_list], and [api_token_required] of decorator.py.

    The token service's world with the tables of tokens, webhooks, events and cameras, and
    a log of what was posted.  Parameters: sha256 with the pepper, the n-th random token,
    [str()] of JSON values that are neither text nor integers, urllib's split of a URL
    and the resolver's answers, and the n-th POST's status.  Presentation ([to_dict]),
    names, headers and the HMAC signature are not kept. *)

From stdpp Require Import pretty.
From Stdlib Require Import Ascii.
From S2P Require Import Prelude PyStr Redis RateLimit Permission Token Sessions Accounts EventPipeline Json Scheduler Guards.
Local Open Scope Z_scope.
Local Open Scope list_scope.

Record ApiToken := {
  at_id : Z;
  at_uuid : string;
  at_token_hash : string;
  at_scopes : list (string * list string);
  at_camera_ids : json;
  at_expires_at : option Z;
  at_last_used_at : option Z;
  at_last_ip : option string;
  at_revoked_at : option Z;
  at_rate_limit_per_min : Z;
  at_created_by_id : option Z
}.

Record WebhookEndpoint := {
  wh_id : Z;
  wh_uuid : string;
  wh_url : string;
  wh_purpose : string;
  wh_event_types : json;                  (* subscription_filter['event_types'] *)
  wh_camera_ids : json;                   (* subscription_filter['camera_ids'] *)
  wh_api_token_id : option Z;
  wh_enabled : bool;
  wh_last_status : option Z;
  wh_consecutive_failures : Z;
  wh_deleted_at : option Z
}.

(** one POST that left the server *)
Record Post := { po_hook : Z; po_url : string; po_event : Event }.

Record ExtWorld := {
  xw_tok : World;
  xw_events : list Event;
  xw_cams : list Camera;
  xw_tokens : list ApiToken;
  xw_hooks : list WebhookEndpoint;
  xw_next : Z;                            (* the next primary key *)
  xw_draws : nat;                         (* secrets drawn so far *)
  xw_tries : nat;                         (* deliveries tried so far *)
  xw_posts : list Post
}.

Inductive ext_error := Exn (e : exn) | TypeError | Conversion.  (* Conversion: ValueError of int() or urllib *)
Definition X (A : Type) : Type := M ExtWorld ext_error A.

Definition xw_now (w : ExtWorld) : Z := w_now (xw_tok w).
Definition set_xtok (t : World) (w : ExtWorld) : ExtWorld :=
  {| xw_tok := t; xw_events := xw_events w; xw_cams := xw_cams w; xw_tokens := xw_tokens w; xw_hooks := xw_hooks w;
     xw_next := xw_next w; xw_draws := xw_draws w; xw_tries := xw_tries w; xw_posts := xw_posts w |}.
Definition set_tokens (l : list ApiToken) (w : ExtWorld) : ExtWorld :=
  {| xw_tok := xw_tok w; xw_events := xw_events w; xw_cams := xw_cams w; xw_tokens := l; xw_hooks := xw_hooks w;
     xw_next := xw_next w; xw_draws := xw_draws w; xw_tries := xw_tries w; xw_posts := xw_posts w |}.
Definition set_hooks (l : list WebhookEndpoint) (w : ExtWorld) : ExtWorld :=
  {| xw_tok := xw_tok w; xw_events := xw_events w; xw_cams := xw_cams w; xw_tokens := xw_tokens w; xw_hooks := l;
     xw_next := xw_next w; xw_draws := xw_draws w; xw_tries := xw_tries w; xw_posts := xw_posts w |}.

(** a call of the token service *)
Definition of_token {A} (m : T A) : X A :=
  fun w => match m (xw_tok w) with
           | (inl e, t) => (inl (Exn e), set_xtok t w)
           | (inr a, t) => (inr a, set_xtok t w)
           end.

(** ** Tokens *)

Definition is_valid (now : Z) (t : ApiToken) : bool :=
  if bool_decide (is_Some (at_revoked_at t)) then false
  else match at_expires_at t with Some e => negb (e <=? now) | None => true end.

Definition has_scope (t : ApiToken) (resource action : string) : bool :=
  let actions := default [] (assoc resource (at_scopes t)) in
  bool_decide (action ∈ actions) || bool_decide ("*"%string ∈ actions).

(** [allowed_camera_ids]: [None] TypeError, [Some None] every camera *)
Definition allowed_camera_ids (t : ApiToken) : option (option (gset Z)) :=
  if negb (truthy (at_camera_ids t)) then Some None else
  match iter (at_camera_ids t) with
  | None => None
  | Some l => Some (Some (list_to_set (omap to_int l)))
  end.

Definition at_touched (now : Z) (ip : option string) (t : ApiToken) : ApiToken :=
  {| at_id := at_id t; at_uuid := at_uuid t; at_token_hash := at_token_hash t; at_scopes := at_scopes t; at_camera_ids := at_camera_ids t;
     at_expires_at := at_expires_at t; at_last_used_at := Some now; at_last_ip := if truthy_str ip then ip else at_last_ip t;
     at_revoked_at := at_revoked_at t; at_rate_limit_per_min := at_rate_limit_per_min t; at_created_by_id := at_created_by_id t |}.
Definition at_revoke (now : Z) (t : ApiToken) : ApiToken :=
  {| at_id := at_id t; at_uuid := at_uuid t; at_token_hash := at_token_hash t; at_scopes := at_scopes t; at_camera_ids := at_camera_ids t;
     at_expires_at := at_expires_at t; at_last_used_at := at_last_used_at t; at_last_ip := at_last_ip t;
     at_revoked_at := Some now; at_rate_limit_per_min := at_rate_limit_per_min t; at_created_by_id := at_created_by_id t |}.

(** commit the row with this id *)
Definition put_token (t : ApiToken) (l : list ApiToken) : list ApiToken := (fun x => if at_id x =? at_id t then t else x) <$> l.

Definition rate_key (t : ApiToken) : string := "axp:apitok:" +:+ pretty (at_id t) +:+ ":rl".
Definition rate_limit (t : ApiToken) : Z := if at_rate_limit_per_min t =? 0 then 120 else at_rate_limit_per_min t.

(** [check_rate_limit] *)
Definition check_rate_limit (t : ApiToken) (w : ExtWorld) : bool * ExtWorld :=
  let now := xw_now w in
  match r_incr now (rate_key t) (w_redis (xw_tok w)) with
  | None => (true, w)
  | Some (n, r1) =>
      let put r := set_xtok (set_redis r (xw_tok w)) w in
      if n =? 1 then
        match r_expire now (rate_key t) 60 r1 with
        | None => (true, put r1)
        | Some r2 => (n <=? rate_limit t, put r2)
        end
      else (n <=? rate_limit t, put r1)
  end.

(** [spec.partition(':')] *)
Definition partition (spec : string) : string * string :=
  match split_once ":"%char spec with Some p => p | None => (spec, EmptyString) end.

Definition extract_api_key (rq : Request) : option string :=
  match bearer (rq_authorization rq) with Some t => Some t | None => rq_api_key rq end.

Section External.
Context {J : JwtLib} (hash_token : string -> string) (token_urlsafe : nat -> string) (py_str : json -> string).

(** [verify] *)
Definition verify (raw : option string) (w : ExtWorld) : option ApiToken :=
  if negb (truthy_str raw) then None else
  match List.find (fun t => bool_decide (at_token_hash t = hash_token (default ""%string raw))) (xw_tokens w) with
  | None => None
  | Some t => if is_valid (xw_now w) t then Some t else None
  end.

(** [api_token_required]: the handler runs with [g.api_token] *)
Definition api_token_required (rq : Request) (required_scopes : list string) (w : ExtWorld) : Response ApiToken * ExtWorld :=
  match verify (extract_api_key rq) w with
  | None => (NoPermission "invalid_api_token", w)
  | Some t =>
      let '(ok, w1) := check_rate_limit t w in
      if negb ok then (TooManyRequests "rate_limited", w1) else
      if negb (forallb (fun s => let '(r, a) := partition s in has_scope t r a) required_scopes)
      then (Forbidden "insufficient_scope", w1) else
      let t1 := at_touched (xw_now w1) (rq_remote_addr rq) t in
      (Passed t1, set_tokens (put_token t1 (xw_tokens w1)) w1)
  end.

(** ** Administration (controller/api_token.py) *)

(** the actions of one resource: a list of strings *)
Definition scope_actions (v : json) : option (list string) :=
  match v with
  | JList l => mapM (fun x => match x with JStr s => Some s | _ => None end) l
  | _ => None
  end.

Fixpoint checked_scopes (actor : subject) (kvs : list (string * json)) : X (list (string * list string)) :=
  match kvs with
  | [] => ret []
  | (resource, v) :: r =>
      match scope_actions v with
      | None => raise (Exn (InvalidParameterException "invalid scopes shape (resource -> [actions])"))
      | Some actions =>
          if negb (is_superuser (Some actor)) && negb (forallb (has (Some actor) resource) actions)
          then raise (Exn NoPermissionException) else
          let! rest := checked_scopes actor r in ret ((resource, actions) :: rest)
      end
  end.

Record TokenData := { td_name : option string; td_scopes : json; td_camera_ids : json; td_expires_at : json }.

Definition token_create (data : TokenData) (actor : User) : X (ApiToken * string) :=
  if negb (truthy_str (td_name data)) then raise (Exn (InvalidParameterException "name required")) else
  let! w := gets id in
  let! scopes := match td_scopes data with
                 | JObj ((_ :: _) as kvs) => checked_scopes (subject_of actor (xw_tok w)) kvs
                 | _ => raise (Exn (InvalidParameterException "scopes required"))
                 end in
  let! expires := (if negb (truthy (td_expires_at data)) then ret None else
                   match to_int (td_expires_at data) ≫= from_ms with Some t => ret (Some t) | None => raise Conversion end) in
  let raw := ("axp_" +:+ token_urlsafe (xw_draws w))%string in
  let! hex := of_token fresh_hex in
  let t := {| at_id := xw_next w; at_uuid := hex; at_token_hash := hash_token raw; at_scopes := scopes;
              at_camera_ids := td_camera_ids data; at_expires_at := expires; at_last_used_at := None; at_last_ip := None;
              at_revoked_at := None; at_rate_limit_per_min := 120; at_created_by_id := Some (u_id actor) |} in
  if existsb (fun x => bool_decide (at_token_hash x = at_token_hash t)) (xw_tokens w) then raise (Exn IntegrityError) else
  modify (fun w => {| xw_tok := xw_tok w; xw_events := xw_events w; xw_cams := xw_cams w; xw_tokens := xw_tokens w ++ [t];
    xw_hooks := xw_hooks w; xw_next := xw_next w + 1; xw_draws := S (xw_draws w); xw_tries := xw_tries w; xw_posts := xw_posts w |}) ;;;
  ret (t, raw).

Definition token_revoke (uuid : string) : X ApiToken :=
  let! w := gets id in
  match List.find (fun t => bool_decide (at_uuid t = uuid)) (xw_tokens w) with
  | None => raise (Exn RowNotFoundException)
  | Some t => modify (set_tokens (put_token (at_revoke (xw_now w) t) (xw_tokens w))) ;;; ret (at_revoke (xw_now w) t)
  end.
End External.

(** ** Events and state *)

(** [Event.get_list] with the filters the API passes; rows of one instant come in
    primary-key order *)
Definition event_matches (camera_ids : option (list Z)) (types : list string) (start end_ : option Z) (e : Event) : bool :=
  bool_decide (ev_deleted_at e = None) &&
  match camera_ids with Some ((_ :: _) as l) => bool_decide (ev_camera_id e ∈ l) | _ => true end &&
  match types with [] => true | _ => bool_decide (ev_type e ∈ types) end &&
  match start with Some t => t <=? ev_start_ts e | None => true end &&
  match end_ with Some t => ev_start_ts e <=? t | None => true end.

Definition event_get_list (camera_ids : option (list Z)) (types : list string) (start end_ : option Z) (page items_per_page : nat) (l : list Event)
    : Z * list Event :=
  let found := sort_on (fun e => - ev_start_ts e) (List.filter (event_matches camera_ids types start end_) l) in
  (Z.of_nat (length found), take items_per_page (drop ((page - 1) * items_per_page) found)).

(** [_scoped_camera_ids] *)
Definition scoped_camera_ids (allowed : option (gset Z)) (requested : list Z) : option (list Z) :=
  match allowed with
  | None => match requested with [] => None | _ => Some requested end
  | Some s => Some (match requested with [] => elements s | _ => elements (list_to_set requested ∩ s) end)
  end.

(** [_parse_ms] *)
Definition parse_ms (v : option string) : option Z := if truthy_str v then py_int (default ""%string v) ≫= from_ms else None.

(** a query; [ea_page] and [ea_items] after [safe_int] *)
Record EventArgs := { ea_camera_id : list string; ea_type : list string; ea_from : option string; ea_to : option string; ea_page : Z; ea_items : Z }.

Definition allowed_for (t : ApiToken) : X (option (gset Z)) :=
  match allowed_camera_ids t with Some a => ret a | None => raise TypeError end.

Definition ext_list_events (t : ApiToken) (a : EventArgs) : X (Z * list Event) :=
  let requested := omap (fun c => if isdigit c then py_int c else None) (ea_camera_id a) in
  let! allowed := allowed_for t in
  let camera_ids := scoped_camera_ids allowed requested in
  if bool_decide (allowed <> None) && match camera_ids with None | Some [] => true | _ => false end then ret (0, []) else
  gets (fun w => event_get_list camera_ids (ea_type a) (parse_ms (ea_from a)) (parse_ms (ea_to a))
    (Z.to_nat (Z.max 1 (ea_page a))) (Z.to_nat (Z.min 200 (Z.max 1 (ea_items a)))) (xw_events w)).

Definition ext_get_event (t : ApiToken) (event_id : Z) : X Event :=
  let! ev := gets (fun w => List.find (fun e => (ev_id e =? event_id) && bool_decide (ev_deleted_at e = None)) (xw_events w)) in
  match ev with
  | None => raise (Exn RowNotFoundException)
  | Some e =>
      let! allowed := allowed_for t in
      match allowed with
      | Some s => if bool_decide (ev_camera_id e ∈ s) then ret e else raise (Exn RowNotFoundException)
      | None => ret e
      end
  end.

(** the cameras of [state] *)
Definition ext_state (t : ApiToken) : X (list Camera) :=
  let! allowed := allowed_for t in
  gets (fun w => List.filter (fun c => bool_decide (cam_deleted_at c = None) && cam_is_enabled c &&
    match allowed with Some s => bool_decide (cam_id c ∈ s) | None => true end) (xw_cams w)).

(** ** Subscriptions *)

Definition PURPOSE_SUBSCRIPTION : string := "subscription".
Definition FAILURE_CIRCUIT_BREAK : Z := 10.

Fixpoint lstrip_dash (s : string) : string :=
  match s with String c r => if bool_decide (c = "-"%char) then lstrip_dash r else s | EmptyString => s end.

(** [int(c) for c in requested if str(c).lstrip('-').isdigit()] *)
Fixpoint int_ids (l : list json) : X (list Z) :=
  match l with
  | [] => ret []
  | c :: r =>
      match c with
      | JInt z => let! rest := int_ids r in ret (z :: rest)
      | JStr s => if isdigit (lstrip_dash s)
                  then match py_int s with
                       | Some z => let! rest := int_ids r in ret (z :: rest)
                       | None => raise Conversion
                       end
                  else int_ids r
      | _ => int_ids r                     (* no other value prints as digits *)
      end
  end.

(** the filter's camera ids, clamped to the token's *)
Definition clamp_ids (allowed : option (gset Z)) (requested : json) : X json :=
  match allowed with
  | None => ret requested
  | Some s =>
      let! req := (if truthy requested then
                     match iter requested with
                     | Some l => let! ids := int_ids l in ret (list_to_set ids : gset Z)
                     | None => raise TypeError
                     end
                   else ret ∅) in
      let scoped := elements (if bool_decide (req = ∅) then s else req ∩ s) in
      match scoped with
      | [] => raise (Exn (InvalidParameterException "camera_ids outside token scope"))
      | _ => ret (JList (JInt <$> sort_on id scoped))
      end
  end.

Record HookData := { hd_url : option string; hd_event_types : json; hd_camera_ids : json }.

Section Hooks.
Context {J : JwtLib}.

Definition create_subscription (t : ApiToken) (data : HookData) : X WebhookEndpoint :=
  if negb (truthy_str (hd_url data)) then raise (Exn (InvalidParameterException "url required")) else
  let! allowed := allowed_for t in
  let! ids := clamp_ids allowed (hd_camera_ids data) in
  let! hex := of_token fresh_hex in
  let! next := gets xw_next in
  let h := {| wh_id := next; wh_uuid := hex; wh_url := default ""%string (hd_url data); wh_purpose := PURPOSE_SUBSCRIPTION;
              wh_event_types := hd_event_types data; wh_camera_ids := ids; wh_api_token_id := Some (at_id t); wh_enabled := true;
              wh_last_status := None; wh_consecutive_failures := 0; wh_deleted_at := None |} in
  modify (fun w => {| xw_tok := xw_tok w; xw_events := xw_events w; xw_cams := xw_cams w; xw_tokens := xw_tokens w;
    xw_hooks := xw_hooks w ++ [h]; xw_next := xw_next w + 1; xw_draws := xw_draws w; xw_tries := xw_tries w; xw_posts := xw_posts w |}) ;;;
  ret h.
End Hooks.

(** commit the row with this id *)
Definition put_hook (h : WebhookEndpoint) (l : list WebhookEndpoint) : list WebhookEndpoint := (fun x => if wh_id x =? wh_id h then h else x) <$> l.

Definition wh_deleted (now : Z) (h : WebhookEndpoint) : WebhookEndpoint :=
  {| wh_id := wh_id h; wh_uuid := wh_uuid h; wh_url := wh_url h; wh_purpose := wh_purpose h; wh_event_types := wh_event_types h;
     wh_camera_ids := wh_camera_ids h; wh_api_token_id := wh_api_token_id h; wh_enabled := wh_enabled h;
     wh_last_status := wh_last_status h; wh_consecutive_failures := wh_consecutive_failures h; wh_deleted_at := Some now |}.

Definition delete_subscription (t : ApiToken) (hook_uuid : string) : X unit :=
  let! hook := gets (fun w => List.find (fun h => bool_decide (wh_uuid h = hook_uuid) && bool_decide (wh_deleted_at h = None)) (xw_hooks w)) in
  match hook with
  | None => raise (Exn RowNotFoundException)
  | Some h =>
      if bool_decide (wh_api_token_id h = Some (at_id t))
      then modify (fun w => set_hooks (put_hook (wh_deleted (xw_now w) h) (xw_hooks w)) w)
      else raise (Exn RowNotFoundException)
  end.

(** [record_result] *)
Definition record_result (status : option Z) (ok : bool) (h : WebhookEndpoint) : WebhookEndpoint :=
  let failures := if ok then 0 else wh_consecutive_failures h + 1 in
  {| wh_id := wh_id h; wh_uuid := wh_uuid h; wh_url := wh_url h; wh_purpose := wh_purpose h; wh_event_types := wh_event_types h;
     wh_camera_ids := wh_camera_ids h; wh_api_token_id := wh_api_token_id h;
     wh_enabled := if FAILURE_CIRCUIT_BREAK <=? failures then false else wh_enabled h;
     wh_last_status := status; wh_consecutive_failures := failures; wh_deleted_at := wh_deleted_at h |}.

(** ** Delivery (driver/webhook.py) *)

(** what ipaddress says of one resolved address *)
Record IpAddress := { ip_loopback : bool; ip_link_local : bool; ip_reserved : bool; ip_multicast : bool; ip_unspecified : bool; ip_private : bool }.

Section Deliver.
(** scheme and hostname of a URL ([None]: it raises); the resolver's n-th answer
    ([None]: OSError); the n-th POST's status ([None]: no answer) *)
Context (urlparse : string -> option (string * option string)) (getaddrinfo : nat -> string -> option (list IpAddress)).
Context (allow_private : bool) (answer : nat -> option Z) (py_str : json -> string).

Definition blocked (ip : IpAddress) : option string :=
  if ip_loopback ip || ip_link_local ip || ip_reserved ip || ip_multicast ip || ip_unspecified ip then Some "blocked_ip"%string
  else if ip_private ip && negb allow_private then Some "private_ip"%string
  else None.

(** [ssrf_check]: [None] may be called, [Some] the reason it may not; [inl] it raises *)
Definition ssrf_check (n : nat) (url : string) : unit + option string :=
  match urlparse url with
  | None => inl tt
  | Some (scheme, host) =>
      if negb (bool_decide (scheme = "http"%string) || bool_decide (scheme = "https"%string)) then inr (Some "bad_scheme"%string) else
      if negb (truthy_str host) then inr (Some "no_host"%string) else
      match getaddrinfo n (default ""%string host) with
      | None => inr (Some "dns_fail"%string)
      | Some infos => inr (head (omap blocked infos))
      end
  end.

Definition deliver (h : WebhookEndpoint) (e : Event) : X unit :=
  let! n := gets xw_tries in
  modify (fun w => {| xw_tok := xw_tok w; xw_events := xw_events w; xw_cams := xw_cams w; xw_tokens := xw_tokens w; xw_hooks := xw_hooks w;
    xw_next := xw_next w; xw_draws := xw_draws w; xw_tries := S (xw_tries w); xw_posts := xw_posts w |}) ;;;
  match ssrf_check n (wh_url h) with
  | inl _ => raise Conversion
  | inr (Some _) => modify (fun w => set_hooks (put_hook (record_result None false h) (xw_hooks w)) w)
  | inr None =>
      modify (fun w => {| xw_tok := xw_tok w; xw_events := xw_events w; xw_cams := xw_cams w; xw_tokens := xw_tokens w; xw_hooks := xw_hooks w;
        xw_next := xw_next w; xw_draws := xw_draws w; xw_tries := xw_tries w;
        xw_posts := xw_posts w ++ [{| po_hook := wh_id h; po_url := wh_url h; po_event := e |}] |}) ;;;
      match answer n with
      | Some code => modify (fun w => set_hooks (put_hook (record_result (Some code) (code <? 300) h) (xw_hooks w)) w)
      | None => modify (fun w => set_hooks (put_hook (record_result None false h) (xw_hooks w)) w)
      end
  end.

(** [str(x)] *)
Definition str_of (v : json) : string := match v with JStr s => s | JInt z => pretty z | _ => py_str v end.

(** is the event one of the hook's, and may its token still see the camera *)
Definition type_wanted (h : WebhookEndpoint) (e : Event) : X bool :=
  if negb (truthy (wh_event_types h)) then ret true else
  match py_in (JStr (ev_type e)) (wh_event_types h) with Some b => ret b | None => raise TypeError end.

Definition camera_wanted (h : WebhookEndpoint) (e : Event) : X bool :=
  if negb (truthy (wh_camera_ids h)) then ret true else
  match iter (wh_camera_ids h) with
  | Some l => ret (bool_decide (pretty (ev_camera_id e) ∈ str_of <$> l))
  | None => raise TypeError
  end.

Definition token_covers (h : WebhookEndpoint) (e : Event) : X bool :=
  match wh_api_token_id h with
  | None => ret true
  | Some k =>
      let! w := gets id in
      match List.find (fun t => at_id t =? k) (xw_tokens w) with
      | None => ret false
      | Some t =>
          if negb (is_valid (xw_now w) t) then ret false else
          let! allowed := allowed_for t in
          ret (match allowed with Some s => bool_decide (ev_camera_id e ∈ s) | None => true end)
      end
  end.

Definition deliver_one (e : Event) (h : WebhookEndpoint) : X unit :=
  let! t := type_wanted h e in
  if negb t then ret tt else
  let! c := camera_wanted h e in
  if negb c then ret tt else
  let! k := token_covers h e in
  if negb k then ret tt else deliver h e.

Definition active_subscriptions (w : ExtWorld) : list WebhookEndpoint :=
  List.filter (fun h => bool_decide (wh_deleted_at h = None) && wh_enabled h && bool_decide (wh_purpose h = PURPOSE_SUBSCRIPTION)) (xw_hooks w).

Definition deliver_subscriptions (e : Event) : X unit :=
  let! hooks := gets active_subscriptions in
  for_each hooks (deliver_one e).
End Deliver.

(** ** What a token is shown *)

Lemma allowed_for_run t a w : allowed_camera_ids t = Some a -> allowed_for t w = (inr a, w).
Proof. unfold allowed_for. by intros ->. Qed.

Lemma get_list_elem cams types st en page n l e : e ∈ snd (event_get_list cams types st en page n l) ->
  e ∈ l /\ event_matches cams types st en e = true.
Proof.
  unfold event_get_list. cbn [snd]. intros H. apply elem_of_take in H as (i & H & _). apply list_elem_of_lookup_2 in H.
  apply list_elem_of_lookup in H as [j H]. rewrite lookup_drop in H. apply list_elem_of_lookup_2, elem_of_sort_on, elem_of_filter_In in H. done.
Qed.

Lemma event_matches_camera c cs types st en e : event_matches (Some (c :: cs)) types st en e = true -> ev_deleted_at e = None /\ ev_camera_id e ∈ c :: cs.
Proof.
  unfold event_matches. intros H. do 3 apply andb_true_iff in H as [H _]. apply andb_true_iff in H as [H1 H2].
  by apply bool_decide_eq_true_1 in H1, H2.
Qed.

Lemma scoped_ids_in s requested l : scoped_camera_ids (Some s) requested = Some l -> forall c, c ∈ l -> c ∈ s.
Proof. unfold scoped_camera_ids. intros [= <-] c. destruct requested; set_solver. Qed.

Lemma clamp_ids_inside s requested w v w' : clamp_ids (Some s) requested w = (inr v, w') ->
  w' = w /\ exists ids, v = JList (JInt <$> ids) /\ ids <> [] /\ forall c, c ∈ ids -> c ∈ s.
Proof.
  unfold clamp_ids. intros H. apply bind_inr in H as (req & w1 & Hr & H).
  assert (w1 = w) as ->.
  { destruct (truthy requested); [|by injection Hr]. destruct (iter requested) as [l|]; [|done]. apply bind_inr in Hr as (ids & w2 & Hi & Hr).
    injection Hr as _ <-. revert ids Hi. induction l as [|c l IH]; intros ids Hi; cbn in Hi; [by injection Hi|].
    destruct c; eauto; [|destruct (isdigit _); [destruct (py_int _)|]; eauto; [|done]];
      apply bind_inr in Hi as (rest & w3 & Hi & Hj); injection Hj as _ <-; eauto. }
  destruct (elements _) as [|c cs] eqn:E; [done|]. injection H as <- <-. split; [done|]. eexists. split; [done|]. split.
  - intros Hn. assert (Hl : sort_on id (c :: cs) = []) by exact Hn. apply (f_equal length) in Hl. by rewrite sort_on_perm in Hl.
  - intros x Hx. change (x ∈ sort_on id (c :: cs)) in Hx. apply elem_of_sort_on in Hx. rewrite <- E in Hx. apply elem_of_elements in Hx. case_bool_decide; set_solver.
Qed.

(** C18: a token limited to some cameras is shown nothing of any other: not in a list of
    events whatever the query asks for, not as a single event, not in the state; and a
    subscription it makes, whatever cameras it asks for, is stored as its own with a
    non-empty list of camera ids, each of them the token's. *)
Theorem api_token_sees_only_its_cameras {J : JwtLib} t s w :
  allowed_camera_ids t = Some (Some s) ->
  (forall a n rows w', ext_list_events t a w = (inr (n, rows), w') -> forall e, e ∈ rows -> e ∈ xw_events w /\ ev_deleted_at e = None /\ ev_camera_id e ∈ s) /\
  (forall i e w', ext_get_event t i w = (inr e, w') -> e ∈ xw_events w /\ ev_id e = i /\ ev_deleted_at e = None /\ ev_camera_id e ∈ s) /\
  (forall cams w', ext_state t w = (inr cams, w') -> forall c, c ∈ cams -> c ∈ xw_cams w /\ cam_is_enabled c = true /\ cam_id c ∈ s) /\
  (forall data h w', create_subscription t data w = (inr h, w') -> xw_hooks w' = xw_hooks w ++ [h] /\ wh_api_token_id h = Some (at_id t) /\
    exists ids, wh_camera_ids h = JList (JInt <$> ids) /\ ids <> [] /\ forall c, c ∈ ids -> c ∈ s).
Proof.
  intros Ha. pose proof (allowed_for_run t (Some s) w Ha) as Hr. split_and!.
  - intros a n rows w'. unfold ext_list_events. rewrite (bind_run _ _ _ _ _ Hr). set (requested := omap _ _).
    destruct (scoped_camera_ids (Some s) requested) as [[|c cs]|] eqn:Es; [by rewrite bool_decide_eq_true_2 by done; intros [= <- <- <-] e He; apply elem_of_nil in He
                                                                         | |done].
    rewrite bool_decide_eq_true_2 by done. cbn [andb]. unfold gets. destruct (event_get_list _ _ _ _ _ _ _) as [m l] eqn:Eq. intros [= <- <- <-] e He.
    pose proof (scoped_ids_in s requested _ Es) as Hin. assert (He' : e ∈ snd (m, l)) by done. rewrite <- Eq in He'. apply get_list_elem in He' as [He1 He2]. apply event_matches_camera in He2 as [Hd Hc].
    split; [done|]. split; [done|]. by apply Hin.
  - intros i e w'. unfold ext_get_event. unfold bind at 1, gets at 1. destruct (List.find _ _) as [ev|] eqn:Ef; [|done].
    rewrite (bind_run _ _ _ _ _ Hr). case_bool_decide; [|done]. intros [= <- <-]. apply find_some in Ef as [H1 H2]. apply list_elem_of_In in H1.
    apply andb_true_iff in H2 as [H2 H3]. apply Z.eqb_eq in H2. apply bool_decide_eq_true_1 in H3. done.
  - intros cams w'. unfold ext_state. rewrite (bind_run _ _ _ _ _ Hr). unfold gets. intros [= <- <-] c Hc. apply elem_of_filter_In in Hc as [H1 H2].
    rewrite !andb_true_iff in H2. destruct H2 as [[_ H2] H3]. apply bool_decide_eq_true_1 in H3. done.
  - intros data h w'. unfold create_subscription. destruct (negb _); [done|]. rewrite (bind_run _ _ _ _ _ Hr). intros H.
    apply bind_inr in H as (v & w1 & Hc & H). apply clamp_ids_inside in Hc as [-> Hc].
    unfold bind, of_token, fresh_hex, gets, modify in H. cbn in H. injection H as <- <-. done.
Qed.

(** ** What a webhook is sent *)

Section DeliverFacts.
Context (urlparse : string -> option (string * option string)) (getaddrinfo : nat -> string -> option (list IpAddress)).
Context (allow_private : bool) (answer : nat -> option Z) (py_str : json -> string).
Notation deliver_one := (deliver_one urlparse getaddrinfo allow_private answer py_str).
Notation deliver := (deliver urlparse getaddrinfo allow_private answer).
Notation deliver_subscriptions := (deliver_subscriptions urlparse getaddrinfo allow_private answer py_str).

(** the URL was judged fit when it was called *)
Definition safe_target (url : string) : Prop := exists n scheme host infos,
  urlparse url = Some (scheme, Some host) /\ (scheme = "http" \/ scheme = "https")%string /\ getaddrinfo n host = Some infos /\
  forall ip, ip ∈ infos -> ip_loopback ip = false /\ ip_link_local ip = false /\ ip_reserved ip = false /\ ip_multicast ip = false /\
    ip_unspecified ip = false /\ (ip_private ip = true -> allow_private = true).

Lemma blocked_none ip : blocked allow_private ip = None -> ip_loopback ip = false /\ ip_link_local ip = false /\ ip_reserved ip = false /\
  ip_multicast ip = false /\ ip_unspecified ip = false /\ (ip_private ip = true -> allow_private = true).
Proof.
  unfold blocked. destruct (ip_loopback ip), (ip_link_local ip), (ip_reserved ip), (ip_multicast ip), (ip_unspecified ip); cbn; try done.
  destruct (ip_private ip), allow_private; cbn; naive_solver.
Qed.

Lemma ssrf_safe n url : ssrf_check urlparse getaddrinfo allow_private n url = inr None -> safe_target url.
Proof.
  unfold ssrf_check. destruct (urlparse url) as [[scheme host]|] eqn:Eu; [|done]. destruct (negb (_ || _)) eqn:Es; [done|].
  destruct host as [host|]; [|done]. destruct (negb (truthy_str _)); [done|]. cbn [default].
  destruct (getaddrinfo n _) as [infos|] eqn:Eg; [|done]. intros [= H]. exists n, scheme, host, infos. split; [done|]. split.
  { apply negb_false_iff, orb_true_iff in Es as [Es|Es]; apply bool_decide_eq_true_1 in Es; auto. }
  split; [done|]. intros ip Hip. apply blocked_none. destruct (blocked allow_private ip) as [m|] eqn:Eb; [|done].
  assert (Hm : m ∈ omap (blocked allow_private) infos) by (apply list_elem_of_omap; eauto).
  destruct (omap _ infos); [by apply elem_of_nil in Hm|done].
Qed.

(** rows of the hooks keep who they belong to; nothing else moves *)
Record only_posts (w w' : ExtWorld) : Prop := {
  op_tok : xw_tok w' = xw_tok w;
  op_tokens : xw_tokens w' = xw_tokens w;
  op_events : xw_events w' = xw_events w
}.

Lemma only_posts_refl w : only_posts w w.
Proof. by constructor. Qed.
Lemma only_posts_trans w1 w2 w3 : only_posts w1 w2 -> only_posts w2 w3 -> only_posts w1 w3.
Proof. intros [? ? ?] [? ? ?]. constructor; congruence. Qed.

Lemma deliver_spec h e w r w' : deliver h e w = (r, w') -> only_posts w w' /\
  (xw_posts w' = xw_posts w \/ xw_posts w' = xw_posts w ++ [{| po_hook := wh_id h; po_url := wh_url h; po_event := e |}] /\ safe_target (wh_url h)).
Proof.
  unfold ApiAccess.deliver, bind, gets, modify, raise. destruct (ssrf_check _ _ _ _ _) as [[]|[reason|]] eqn:Es.
  - intros [= _ <-]. split; [done|by left].
  - intros [= _ <-]. split; [done|by left].
  - apply ssrf_safe in Es. destruct (answer _); intros [= _ <-]; (split; [done|by right]).
Qed.

(** the token behind a hook, if any, still covers the event's camera *)
Definition covered (w : ExtWorld) (e : Event) (h : WebhookEndpoint) : Prop := forall k, wh_api_token_id h = Some k ->
  exists t a, t ∈ xw_tokens w /\ at_id t = k /\ is_valid (xw_now w) t = true /\ allowed_camera_ids t = Some a /\
    forall s, a = Some s -> ev_camera_id e ∈ s.

Lemma token_covers_spec h e w r w' : token_covers h e w = (r, w') -> w' = w /\ (r = inr true -> covered w e h).
Proof.
  unfold token_covers. destruct (wh_api_token_id h) as [k|] eqn:Ek; [|intros [= <- <-]; split; [done|]; intros _ k Hk; congruence].
  unfold bind at 1, gets. cbn [id]. destruct (List.find _ _) as [t|] eqn:Ef; [|by intros [= <- <-]].
  destruct (is_valid (xw_now w) t) eqn:Ev; cbn [negb]; [|by intros [= <- <-]]. unfold bind, allowed_for.
  destruct (allowed_camera_ids t) as [a|] eqn:Ea; [|by intros [= <- <-]]. intros [= <- <-]. split; [done|]. intros [= Hb] k' Hk'. simplify_eq.
  apply find_some in Ef as [Hin Hid]. apply list_elem_of_In in Hin. apply Z.eqb_eq in Hid. exists t, a. split_and!; try done.
  intros s ->. by apply bool_decide_eq_true_1 in Hb.
Qed.

(** the hook's filter admits the event: a filter that is empty admits all *)
Definition asked_for (e : Event) (h : WebhookEndpoint) : Prop :=
  (truthy (wh_event_types h) = true -> py_in (JStr (ev_type e)) (wh_event_types h) = Some true) /\
  (truthy (wh_camera_ids h) = true -> exists l v, iter (wh_camera_ids h) = Some l /\ v ∈ l /\ str_of py_str v = pretty (ev_camera_id e)).

Lemma type_wanted_spec h e w r w' : type_wanted h e w = (r, w') ->
  w' = w /\ (r = inr true -> truthy (wh_event_types h) = true -> py_in (JStr (ev_type e)) (wh_event_types h) = Some true).
Proof. unfold type_wanted. destruct (truthy _); [|by intros [= <- <-]]. destruct (py_in _ _) as [b|]; intros [= <- <-]; [|done]. split; [done|]. by intros [= ->]. Qed.
Lemma camera_wanted_spec h e w r w' : camera_wanted py_str h e w = (r, w') -> w' = w /\ (r = inr true -> truthy (wh_camera_ids h) = true ->
  exists l v, iter (wh_camera_ids h) = Some l /\ v ∈ l /\ str_of py_str v = pretty (ev_camera_id e)).
Proof.
  unfold camera_wanted. destruct (truthy _); [|by intros [= <- <-]]. destruct (iter _) as [l|]; intros [= <- <-]; [|done]. split; [done|].
  intros [= Hb] _. apply bool_decide_eq_true_1, list_elem_of_fmap_1 in Hb as (v & Hv & Hin). eauto.
Qed.

Definition posted (w : ExtWorld) (e : Event) (h : WebhookEndpoint) (p : Post) : Prop :=
  p = {| po_hook := wh_id h; po_url := wh_url h; po_event := e |} /\ asked_for e h /\ covered w e h /\ safe_target (wh_url h).

Lemma deliver_one_spec e h w r w' : deliver_one e h w = (r, w') -> only_posts w w' /\
  (xw_posts w' = xw_posts w \/ exists p, xw_posts w' = xw_posts w ++ [p] /\ posted w e h p).
Proof.
  assert (Hsame : forall w0 w1, w1 = w0 -> only_posts w0 w1 /\ (xw_posts w1 = xw_posts w0 \/ exists p, xw_posts w1 = xw_posts w0 ++ [p] /\ posted w0 e h p)).
  { intros w0 w1 ->. split; [apply only_posts_refl|by left]. }
  unfold ApiAccess.deliver_one, bind. destruct (type_wanted h e w) as [t w1] eqn:Et. apply type_wanted_spec in Et as [-> Ht].
  destruct t as [|t]; [intros [= _ <-]; by apply Hsame|]. destruct t; cbn [negb]; [|intros [= _ <-]; by apply Hsame].
  destruct (camera_wanted py_str h e w) as [c w1] eqn:Ec. apply camera_wanted_spec in Ec as [-> Hc].
  destruct c as [|c]; [intros [= _ <-]; by apply Hsame|]. destruct c; cbn [negb]; [|intros [= _ <-]; by apply Hsame].
  destruct (token_covers h e w) as [k w1] eqn:Ek. apply token_covers_spec in Ek as [-> Hk].
  destruct k as [|k]; [intros [= _ <-]; by apply Hsame|]. destruct k; cbn [negb]; [|intros [= _ <-]; by apply Hsame].
  intros Hd. apply deliver_spec in Hd as [Ho [Hp|[Hp Hs]]]; (split; [done|]); [by left|right]. eexists. split; [done|]. split; [done|]. split; [split; auto|]. split; [by apply Hk|done].
Qed.

Lemma deliver_all_spec e hooks w r w' : for_each hooks (deliver_one e) w = (r, w') ->
  exists ps, xw_posts w' = xw_posts w ++ ps /\ only_posts w w' /\ exists hs, sublist hs hooks /\ Forall2 (posted w e) hs ps.
Proof.
  revert w. induction hooks as [|h hooks IH]; intros w; cbn.
  { intros [= _ <-]. exists []. rewrite app_nil_r. split; [done|]. split; [apply only_posts_refl|]. exists []. split; [constructor|constructor]. }
  unfold bind. destruct (deliver_one e h w) as [r1 w1] eqn:E1. apply deliver_one_spec in E1 as [Ho Hp].
  assert (Hmono : forall h' p, posted w1 e h' p -> posted w e h' p).
  { intros h' p (-> & Ha & Hc & Hs). split; [done|]. split; [done|]. split; [|done]. intros k Hk. destruct (Hc k Hk) as (t & a & Ht). exists t, a.
    unfold xw_now in *. by rewrite (op_tok _ _ Ho), (op_tokens _ _ Ho) in Ht. }
  assert (Hcons : forall ps hs, sublist hs hooks -> Forall2 (posted w e) hs ps -> exists ps', xw_posts w1 ++ ps = xw_posts w ++ ps' /\
    exists hs', sublist hs' (h :: hooks) /\ Forall2 (posted w e) hs' ps').
  { intros ps hs Hs Hf. destruct Hp as [->|(p & -> & Hp)]; [exists ps; split; [done|]; exists hs; split; [by constructor|done]|].
    exists (p :: ps). rewrite <- app_assoc. split; [done|]. exists (h :: hs). split; [by constructor|by constructor]. }
  destruct r1 as [err|[]].
  - intros [= _ <-]. destruct (Hcons [] []) as (ps & E & H); [apply sublist_nil_l|constructor|]. rewrite app_nil_r in E. eauto.
  - intros H. apply IH in H as (ps & E & Ho2 & hs & Hs & Hf). rewrite E. destruct (Hcons ps hs Hs) as (ps' & E' & H'); [by eapply Forall2_impl|].
    exists ps'. split; [done|]. split; [by eapply only_posts_trans|done].
Qed.

(** C19: an event leaves the server only where it may.  Whatever a fan-out meets, and even
    when it fails half-way, each POST goes to a subscription that is active, at most once,
    and whose filters of event types and cameras, where it has them, name the event's; if it belongs to an API token, that token is valid now and now covers the event's
    camera; and the address resolved to no loopback, link-local, reserved, multicast or
    unspecified host, nor to a private one unless that is allowed. *)
Theorem events_leave_only_where_allowed e w r w' :
  deliver_subscriptions e w = (r, w') ->
  exists ps hs, xw_posts w' = xw_posts w ++ ps /\ sublist hs (active_subscriptions w) /\ Forall2 (posted w e) hs ps.
Proof.
  unfold ApiAccess.deliver_subscriptions, bind, gets. intros H. apply deliver_all_spec in H as (ps & E & _ & hs & Hs & Hf). eauto 6.
Qed.
End DeliverFacts.

(** ** Creating and revoking tokens *)

Section TokenFacts.
Context {J : JwtLib} (hash_token : string -> string) (token_urlsafe : nat -> string).
Notation token_create := (token_create hash_token token_urlsafe).
Notation verify := (verify hash_token).
Notation api_token_required := (api_token_required hash_token).

(** holding [*] on a resource is holding each of its actions *)
Lemma star_covers s resource a : has (Some s) resource "*" = true -> has (Some s) resource a = true.
Proof.
  intros H. destruct (is_superuser (Some s)) eqn:Es; [by apply superuser_has_all|].
  destruct (decide (resource = "*"%string)) as [->|Hne]; [|by apply grants_star_or].
  exfalso. apply has_sources in H as (src & Hin & k & l & Hk & Hl & Ho). assert (k = "*"%string) as -> by naive_solver.
  rewrite (proj2 (superuser_sources s)) in Es; [done|]. exists src, l. naive_solver.
Qed.

Lemma checked_scopes_sound actor kvs scopes w w' : checked_scopes actor kvs w = (inr scopes, w') ->
  w' = w /\ forall resource actions a, assoc resource scopes = Some actions -> a ∈ actions -> has (Some actor) resource a = true.
Proof.
  revert scopes. induction kvs as [|[r v] kvs IH]; intros scopes; cbn; [by intros [= <- <-]|].
  destruct (scope_actions v) as [actions|]; [|done]. destruct (negb _ && negb _) eqn:Eg; [done|]. unfold bind.
  destruct (checked_scopes actor kvs w) as [[e|rest] w1] eqn:Er; [done|]. intros [= <- <-]. destruct (IH rest eq_refl) as [-> Hrest]. split; [done|].
  intros resource acts a. cbn [assoc]. case_bool_decide as Ek; [|by apply Hrest]. subst r. intros [= <-] Ha.
  apply andb_false_iff in Eg as [Eg|Eg]; apply negb_false_iff in Eg; [by apply superuser_has_all|].
  rewrite forallb_forall in Eg. by apply Eg, list_elem_of_In.
Qed.

Record tokens_ok (w : ExtWorld) : Prop := {
  to_ids : NoDup (at_id <$> xw_tokens w);
  to_hashes : NoDup (at_token_hash <$> xw_tokens w);
  to_next : forall t, t ∈ xw_tokens w -> at_id t < xw_next w
}.

Lemma token_create_inr data actor w t raw w' : token_create data actor w = (inr (t, raw), w') ->
  (exists kvs, checked_scopes (subject_of actor (xw_tok w)) kvs w = (inr (at_scopes t), w)) /\
  at_token_hash t = hash_token raw /\ at_camera_ids t = td_camera_ids data /\ at_revoked_at t = None /\ at_id t = xw_next w /\
  at_token_hash t ∉ at_token_hash <$> xw_tokens w /\ xw_tokens w' = xw_tokens w ++ [t] /\ xw_next w' = xw_next w + 1 /\ xw_now w' = xw_now w.
Proof.
  unfold ApiAccess.token_create. destruct (negb _); [done|]. intros H. minv1 H.
  apply bind_inr in H as (scopes & w1 & Hs & H). destruct (td_scopes data) as [| | | | | |[|kv kvs]]; try done.
  pose proof (checked_scopes_sound _ _ _ _ _ Hs) as [-> _]. apply bind_inr in H as (expires & w2 & He & H).
  assert (w2 = w) as -> by (revert He; destruct (negb _); [by intros [= _ <-]|]; by destruct (_ ≫= _); intros [= _ <-]).
  apply bind_inr in H as (hex & w3 & Hh & H). unfold of_token, fresh_hex in Hh. injection Hh as <- <-.
  destruct (existsb _ _) eqn:Ex; [done|]. unfold bind, modify, ret in H. injection H as <- <- <-. cbn. split; [by exists (kv :: kvs)|].
  split_and!; try done. intros Hin. apply list_elem_of_fmap_1 in Hin as (x & Hx & Hin). apply not_true_iff_false in Ex. apply Ex, existsb_exists.
  exists x. split; [by apply list_elem_of_In|]. by apply bool_decide_eq_true_2.
Qed.

Lemma find_hash l t : NoDup (at_token_hash <$> l) -> t ∈ l -> List.find (fun x => bool_decide (at_token_hash x = at_token_hash t)) l = Some t.
Proof.
  induction l as [|x l IH]; intros Hn Hin; [by apply elem_of_nil in Hin|]. rewrite fmap_cons in Hn. apply NoDup_cons in Hn as [Hx Hn]. cbn.
  apply elem_of_cons in Hin as [->|Hin]; [by rewrite bool_decide_eq_true_2|]. case_bool_decide as E; [|by apply IH].
  destruct Hx. rewrite E. by apply list_elem_of_fmap_2.
Qed.

Lemma token_create_ok data actor w t raw w' : tokens_ok w -> token_create data actor w = (inr (t, raw), w') -> tokens_ok w'.
Proof.
  intros [O1 O2 O3] H. apply token_create_inr in H as (_ & _ & _ & _ & Hid & Hnew & Ht & Hx & _). constructor; rewrite ?Ht, ?fmap_app, ?Hx.
  - apply NoDup_app. split; [done|]. split; [|apply NoDup_singleton]. intros i Hi Hi'. apply list_elem_of_singleton in Hi'.
    apply list_elem_of_fmap_1 in Hi as (x & -> & Hi). apply O3 in Hi. lia.
  - apply NoDup_app. split; [done|]. split; [|apply NoDup_singleton]. intros i Hi Hi'. apply list_elem_of_singleton in Hi'. by subst i.
  - intros x Hin. apply elem_of_app in Hin as [Hin|Hin]; [apply O3 in Hin; lia|]. apply list_elem_of_singleton in Hin as ->. lia.
Qed.

(** nobody hands out an API token that may do more than they may: each action the new
    token's scopes admit is one its creator holds at that moment; the plaintext returned
    is accepted as that token until it expires. *)
Theorem api_token_delegates_no_more data actor w t raw w' :
  tokens_ok w -> token_create data actor w = (inr (t, raw), w') ->
  (forall resource action, has_scope t resource action = true -> has (Some (subject_of actor (xw_tok w))) resource action = true) /\
  (raw <> ""%string -> is_valid (xw_now w') t = true -> verify (Some raw) w' = Some t) /\ tokens_ok w'.
Proof.
  intros Ho H. pose proof (token_create_ok data actor w t raw w' Ho H) as Hok.
  apply token_create_inr in H as ((kvs & Hs) & Hh & _ & _ & _ & _ & Ht & _). apply checked_scopes_sound in Hs as [_ Hs].
  split; [|split; [|done]].
  - intros resource action Hsc. unfold has_scope in Hsc. destruct (assoc resource (at_scopes t)) as [actions|] eqn:Ea; [|by rewrite !bool_decide_eq_false_2 in Hsc by apply not_elem_of_nil].
    cbn [default] in Hsc. apply orb_true_iff in Hsc as [Hsc|Hsc]; apply bool_decide_eq_true_1 in Hsc; [by eapply Hs|]. apply star_covers. by eapply Hs.
  - intros Hr Hv. unfold ApiAccess.verify. unfold truthy_str. rewrite bool_decide_eq_false_2 by done. cbn [negb]. change (default ""%string (Some raw)) with raw. rewrite <- Hh.
    rewrite find_hash; [by rewrite Hv|apply Hok|rewrite Ht; set_solver].
Qed.

(** What other requests do to the table. *)
Inductive token_step : ExtWorld -> ExtWorld -> Prop :=
| ts_create data actor w t raw w' : token_create data actor w = (inr (t, raw), w') -> token_step w w'
| ts_revoke uuid w t w' : token_revoke uuid w = (inr t, w') -> token_step w w'
| ts_call rq scopes w r w' : api_token_required rq scopes w = (r, w') -> token_step w w'
| ts_other w w' : xw_tokens w' = xw_tokens w -> xw_next w <= xw_next w' -> xw_now w <= xw_now w' -> token_step w w'.

Lemma put_token_same t x l : NoDup (at_id <$> l) -> x ∈ l -> at_id t = at_id x -> at_token_hash t = at_token_hash x ->
  at_id <$> put_token t l = at_id <$> l /\ at_token_hash <$> put_token t l = at_token_hash <$> l /\ t ∈ put_token t l.
Proof.
  intros Hn Hin Hi Hh. unfold put_token. split_and!.
  - rewrite <- list_fmap_compose. apply list_fmap_ext. intros k y Hy. cbn. by destruct (Z.eqb_spec (at_id y) (at_id t)).
  - rewrite <- list_fmap_compose. apply list_fmap_ext. intros k y Hy. cbn. destruct (Z.eqb_spec (at_id y) (at_id t)) as [E|]; [|done].
    apply list_elem_of_lookup_2 in Hy. rewrite Hi in E. assert (y = x) as -> by (by eapply (nodup_key_inj at_id)). done.
  - apply list_elem_of_fmap. exists x. split; [|done]. by rewrite Hi, Z.eqb_refl.
Qed.

Lemma revoke_inr_row uuid w t w' : token_revoke uuid w = (inr t, w') ->
  exists x, x ∈ xw_tokens w /\ t = at_revoke (xw_now w) x /\ xw_tokens w' = put_token t (xw_tokens w) /\ xw_next w' = xw_next w /\ xw_now w' = xw_now w.
Proof.
  unfold token_revoke, bind, gets. cbn [id]. destruct (List.find _ _) as [x|] eqn:Ef; [|done]. intros [= <- <-].
  apply find_some in Ef as [Hin _]. exists x. by rewrite list_elem_of_In.
Qed.

Lemma verify_row raw w t : verify raw w = Some t ->
  exists s, raw = Some s /\ t ∈ xw_tokens w /\ at_token_hash t = hash_token s /\ is_valid (xw_now w) t = true.
Proof.
  unfold ApiAccess.verify. destruct raw as [s|]; [|done]. destruct (negb _); [done|]. change (default ""%string (Some s)) with s.
  destruct (List.find _ _) as [x|] eqn:Ef; [|done]. destruct (is_valid _ x) eqn:Ev; [|done]. intros [= <-].
  apply find_some in Ef as [Hin Hh]. apply bool_decide_eq_true_1 in Hh. exists s. by rewrite list_elem_of_In.
Qed.

Lemma check_rate_same t w : exists r, snd (check_rate_limit t w) = set_xtok (set_redis r (xw_tok w)) w.
Proof.
  unfold check_rate_limit. destruct (r_incr _ _ _) as [[n r1]|]; [|exists (w_redis (xw_tok w)); by destruct w as [[]]].
  destruct (n =? 1); [destruct (r_expire _ _ _ _)|]; cbn; eauto.
Qed.

(** a call leaves the table alone, or touches the row it admitted *)
Lemma call_rows rq scopes w r w' : api_token_required rq scopes w = (r, w') -> xw_next w' = xw_next w /\ xw_now w' = xw_now w /\
  (xw_tokens w' = xw_tokens w \/ exists t now ip, t ∈ xw_tokens w /\ xw_tokens w' = put_token (at_touched now ip t) (xw_tokens w)).
Proof.
  unfold ApiAccess.api_token_required. destruct (verify _ w) as [t|] eqn:Ev; [|intros [= _ <-]; by auto].
  destruct (check_rate_same t w) as [rd Hr]. destruct (check_rate_limit t w) as [ok w1]. cbn in Hr. subst w1.
  destruct (negb ok); [intros [= _ <-]; by auto|]. destruct (negb _); intros [= _ <-]; [by auto|]. split; [done|]. split; [done|]. right.
  apply verify_row in Ev as (s & _ & Hin & _). eauto 6.
Qed.

Lemma put_tokens_ok w w' t x : tokens_ok w -> x ∈ xw_tokens w -> at_id t = at_id x -> at_token_hash t = at_token_hash x ->
  xw_tokens w' = put_token t (xw_tokens w) -> xw_next w' = xw_next w -> tokens_ok w'.
Proof.
  intros [O1 O2 O3] Hin Hi Hh E En. destruct (put_token_same t x (xw_tokens w) O1 Hin Hi Hh) as (E1 & E2 & _).
  constructor; rewrite E, ?E1, ?E2, ?En; try done. intros y Hy. unfold put_token in Hy. apply list_elem_of_fmap_1 in Hy as (z & -> & Hz).
  destruct (_ =? _); [rewrite Hi|]; by apply O3.
Qed.

(** a revoked row stays revoked under its hash *)
Definition revoked_row (h : string) (w : ExtWorld) : Prop := exists x, x ∈ xw_tokens w /\ at_token_hash x = h /\ is_Some (at_revoked_at x).

Lemma put_revoked h w w' t x : tokens_ok w -> x ∈ xw_tokens w -> at_id t = at_id x -> at_token_hash t = at_token_hash x ->
  (is_Some (at_revoked_at x) -> is_Some (at_revoked_at t)) -> xw_tokens w' = put_token t (xw_tokens w) -> revoked_row h w -> revoked_row h w'.
Proof.
  intros [O1 O2 O3] Hin Hi Hh Hr E (y & Hy & Hyh & Hyr). unfold revoked_row. rewrite E. destruct (decide (at_id y = at_id t)) as [Ei|Ei].
  - assert (y = x) as -> by (apply (nodup_key_inj at_id (xw_tokens w)); [done..|congruence]). exists t. split; [|split; [congruence|by apply Hr]].
    by apply (put_token_same t x).
  - exists y. split; [|done]. apply list_elem_of_fmap. exists y. split; [|done]. by destruct (Z.eqb_spec (at_id y) (at_id t)).
Qed.

Lemma token_step_keeps h w w' : token_step w w' -> tokens_ok w -> tokens_ok w' /\ (revoked_row h w -> revoked_row h w').
Proof.
  intros H Hok. destruct H as [data actor w t raw w' H|uuid w t w' H|rq scopes w r w' H|w w' Ht Hx _].
  - split; [by apply (token_create_ok data actor w t raw)|]. apply token_create_inr in H as (_ & _ & _ & _ & _ & _ & Ht & _).
    intros (x & Hx & Hr). exists x. rewrite Ht. split; [by apply elem_of_app; left|done].
  - apply revoke_inr_row in H as (x & Hin & -> & Ht & Hx & _). split; [by apply (put_tokens_ok w w' (at_revoke (xw_now w) x) x)|].
    by apply (put_revoked h w w' (at_revoke (xw_now w) x) x).
  - apply call_rows in H as (Hx & _ & [Ht|(t & now & ip & Hin & Ht)]).
    + split; [|unfold revoked_row; by rewrite Ht]. destruct Hok as [O1 O2 O3]. constructor; by rewrite ?Ht, ?Hx.
    + split; [by apply (put_tokens_ok w w' (at_touched now ip t) t)|]. by apply (put_revoked h w w' (at_touched now ip t) t).
  - split; [|unfold revoked_row; by rewrite Ht]. destruct Hok as [O1 O2 O3]. constructor; rewrite ?Ht; try done. intros t Hin. specialize (O3 t Hin). lia.
Qed.

(** Revoking a token is final: whatever requests follow, the guard never admits its
    plaintext again. *)
Theorem revoked_api_token_is_dead uuid w t w1 w2 raw rq scopes :
  tokens_ok w -> token_revoke uuid w = (inr t, w1) -> rtc token_step w1 w2 ->
  hash_token raw = at_token_hash t -> extract_api_key rq = Some raw -> api_token_required rq scopes w2 = (NoPermission "invalid_api_token", w2).
Proof.
  intros Hok Hr Hs Hh Hk. assert (H1 : tokens_ok w1 /\ revoked_row (at_token_hash t) w1).
  { pose proof (ts_revoke uuid w t w1 Hr) as Hstep. split; [by eapply (token_step_keeps (at_token_hash t))|].
    apply revoke_inr_row in Hr as (x & Hin & -> & Ht & _). exists (at_revoke (xw_now w) x). rewrite Ht. split; [|split; [done|by eexists]].
    destruct Hok as [O1 _ _]. by apply (put_token_same _ x). }
  assert (H2 : tokens_ok w2 /\ revoked_row (at_token_hash t) w2).
  { clear Hr. induction Hs as [|w1 w' w2 Hstep _ IH]; [done|]. apply IH. destruct H1 as [Ho Hv].
    by destruct (token_step_keeps (at_token_hash t) _ _ Hstep Ho) as [? Hk']; auto. }
  destruct H2 as [[_ O2 _] (x & Hin & Hx & Hrev)]. unfold ApiAccess.api_token_required. destruct (verify (extract_api_key rq) w2) as [y|] eqn:Ev; [|done].
  apply verify_row in Ev as (s & Es & Hy & Hyh & Hv). rewrite Hk in Es. injection Es as <-.
  assert (y = x) as -> by (apply (nodup_key_inj at_token_hash (xw_tokens w2)); [done..|congruence]).
  unfold is_valid in Hv. by rewrite bool_decide_eq_true_2 in Hv.
Qed.
End TokenFacts.

(** ** The request rate *)

Lemma check_rate_window t w : check_rate_limit t w =
  let '(b, r) := fixed_window (xw_now w) (rate_key t) 60 (rate_limit t) (w_redis (xw_tok w)) in (b, set_xtok (set_redis r (xw_tok w)) w).
Proof.
  unfold check_rate_limit, fixed_window. destruct (r_incr _ _ _) as [[n r1]|]; [|by destruct w as [[]]].
  destruct (n =? 1); [|done]. by destruct (r_expire _ _ _ _).
Qed.

(** Checks of one token with their answers; between two of them the world may change in
    any way that keeps the token's counter. *)
Inductive limited (t : ApiToken) : ExtWorld -> list (Z * bool) -> Prop :=
| lim_end w : limited t w []
| lim_call w w0 b w1 l :
    r_up (w_redis (xw_tok w0)) = true -> r_store (w_redis (xw_tok w0)) !! rate_key t = r_store (w_redis (xw_tok w)) !! rate_key t ->
    xw_now w <= xw_now w0 -> check_rate_limit t w0 = (b, w1) -> limited t w1 l -> limited t w ((xw_now w0, b) :: l).

Lemma limited_calls t w l : limited t w l -> calls (rate_key t) 60 (rate_limit t) (w_redis (xw_tok w)) (xw_now w) l.
Proof.
  induction 1 as [w|w w0 b w1 l Hu Hk Hle Hc _ IH]; [constructor|]. rewrite check_rate_window in Hc.
  destruct (fixed_window _ _ _ _ _) as [b' r] eqn:Ew. injection Hc as <- <-. econstructor; [exact Hu|exact Hk|exact Hle|exact Ew|exact IH].
Qed.

(** while Redis answers, no minute lets more than twice its limit of a token's calls
    through, however they are spread and whatever else happens in between. *)
Theorem api_token_rate_bounded t w l a :
  0 <= at_rate_limit_per_min t -> r_store (w_redis (xw_tok w)) !! rate_key t = None -> limited t w l ->
  admitted a (a + 60 * SEC) l <= 2 * rate_limit t.
Proof.
  intros Hn Hk Hl. apply limited_calls in Hl. eapply window_bound; [|exact Hl|by constructor|lia]. unfold rate_limit. case_match; lia.
Qed.

(** ** Pages of events *)

Lemma take_pages {A} (l : list A) n k : concat ((fun p => take n (drop (p * n) l)) <$> seq 0 k) = take (k * n) l.
Proof.
  induction k as [|k IH]; [done|]. rewrite seq_S, fmap_app, concat_app, IH. cbn [fmap list_fmap concat]. rewrite app_nil_r.
  replace (S k * n)%nat with (k * n + n)%nat by lia. by rewrite take_take_drop.
Qed.

(** Pages 1 to [k] of a query show, newest first and without a gap or a repetition, the
    first [k * n] of the events it matches; the total counts them all. *)
Lemma event_pages_join cams types st en n k l :
  let found := sort_on (fun e => - ev_start_ts e) (List.filter (event_matches cams types st en) l) in
  concat ((fun p => snd (event_get_list cams types st en (S p) n l)) <$> seq 0 k) = take (k * n) found /\
  fst (event_get_list cams types st en 1 n l) = count_on (event_matches cams types st en) l.
Proof.
  cbv zeta. unfold event_get_list. cbn [fst snd]. split.
  - rewrite <- take_pages. f_equal. apply list_fmap_ext. intros i p _. by replace (S p - 1)%nat with p by lia.
  - rewrite (Permutation_length (sort_on_perm _ _)). induction l as [|e l IH]; [done|]. cbn [List.filter]. unfold count_on in *. cbn [sum_on foldr].
    destruct (event_matches _ _ _ _ e); cbn [length]; unfold sum_on in IH; lia.
Qed.

(** ** Witnesses *)

#[local] Existing Instance toy_jwt.

Definition demo_ev (i c : Z) : Event :=
  {| ev_id := i; ev_camera_id := c; ev_type := "motion"; ev_subtype := None; ev_state := STATE_PULSE; ev_start_ts := i * SEC; ev_end_ts := None;
     ev_duration_ms := None; ev_score := None; ev_source := "x"; ev_channel := None; ev_recording_id := None; ev_policy_action := None;
     ev_dedup_key := EmptyString; ev_vendor_event_id := None; ev_deleted_at := None |}.

(** may manage tokens and read events, and view one camera *)
Definition demo_manager_role : Role :=
  {| ro_id := 2; ro_name := "manager"; ro_is_system := false; ro_deleted_at := None;
     ro_permissions := {[ "api_tokens"%string := PActions ["manage"%string]; "events"%string := PActions ["read"%string];
                          "camera_scope"%string := PScope {[ "cam11"%string := Some ["view"%string] ]} ]} |}.
Definition demo_manager : User :=
  {| u_id := 8; u_uuid := "u8"; u_login_id := "bob"; u_password := "$argon2id$"; u_role_id := 2; u_permissions := ∅;
     u_is_active := true; u_failed_login_count := Some 0; u_locked_until := None;
     u_last_login_at := None; u_token_version := Some 0; u_deleted_at := None |}.
Definition demo_hash (s : string) : string := "h:" +:+ s.
Definition demo_secret (n : nat) : string := pretty n.
Definition no_str (_ : json) : string := EmptyString.

Definition demo_ext : ExtWorld :=
  {| xw_tok := set_roles {[ 2 := demo_manager_role ]} (set_users {[ 8 := demo_manager ]} demo_world);
     xw_events := [demo_ev 1 11; demo_ev 2 12; demo_ev 3 11]; xw_cams := [demo_cam 11; demo_cam 12];
     xw_tokens := []; xw_hooks := []; xw_next := 1; xw_draws := 0; xw_tries := 0; xw_posts := [] |}.
Definition demo_data (camera_ids : json) : TokenData :=
  {| td_name := Some "t"%string; td_scopes := JObj [("events"%string, JList [JStr "read"])]; td_camera_ids := camera_ids; td_expires_at := JNull |}.
Definition demo_created (camera_ids : json) : (ext_error + ApiToken * string) * ExtWorld :=
  token_create demo_hash demo_secret (demo_data camera_ids) demo_manager demo_ext.
Definition no_token : ApiToken := Build_ApiToken 0 EmptyString EmptyString [] JNull None None None None 0 None.
Definition demo_tok (camera_ids : json) : ApiToken := match fst (demo_created camera_ids) with inr (t, _) => t | inl _ => no_token end.
Definition demo_all : EventArgs := {| ea_camera_id := []; ea_type := []; ea_from := None; ea_to := None; ea_page := 1; ea_items := 50 |}.
Definition shown (r : (ext_error + Z * list Event) * ExtWorld) : list Z := match fst r with inr (_, l) => ev_id <$> l | inl _ => [] end.

(** The guard of [create] looks at the scopes alone: a manager who may view one camera
    hands out, and holds, a token that reads the events of all of them. *)
Example token_escapes_camera_scope :
  has_camera_scope (Some (subject_of demo_manager (xw_tok demo_ext))) "cam12" "view" = false /\
  allowed_camera_ids (demo_tok JNull) = Some None /\
  shown (ext_list_events (demo_tok JNull) demo_all (snd (demo_created JNull))) = [3; 2; 1].
Proof. split; [by vm_compute|]. split; by vm_compute. Qed.

Lemma api_token_delegates_no_more_witness :
  has (Some (subject_of demo_manager (xw_tok demo_ext))) "events" "read" = true /\
  ApiAccess.verify demo_hash (Some "axp_0"%string) (snd (demo_created JNull)) = Some (demo_tok JNull).
Proof.
  destruct (api_token_delegates_no_more demo_hash demo_secret (demo_data JNull) demo_manager demo_ext (demo_tok JNull) "axp_0" (snd (demo_created JNull)))
    as (H1 & H2 & _).
  - constructor; [constructor..|]. intros t Ht. by apply elem_of_nil in Ht.
  - vm_compute. reflexivity.
  - split; [apply H1; by vm_compute|]. apply H2; [done|by vm_compute].
Defined.

Definition demo_limited : ApiToken := demo_tok (JList [JStr "11"; JStr "x"]).

(** it asks to be told of its camera and of another *)
Definition demo_asked (ids : list json) : HookData :=
  {| hd_url := Some "https://example.org/x"%string; hd_event_types := JNull; hd_camera_ids := JList ids |}.
Definition demo_subscribed (ids : list json) : ExtWorld := snd (create_subscription demo_limited (demo_asked ids) demo_ext).
Definition demo_hook_of (ids : list json) : WebhookEndpoint :=
  default (Build_WebhookEndpoint 0 EmptyString EmptyString EmptyString JNull JNull None false None 0 None) (head (xw_hooks (demo_subscribed ids))).

Lemma api_token_sees_only_its_cameras_witness :
  shown (ext_list_events demo_limited demo_all demo_ext) = [3; 1] /\
  (forall e, e ∈ [demo_ev 3 11; demo_ev 1 11] -> e ∈ xw_events demo_ext /\ ev_deleted_at e = None /\ ev_camera_id e ∈ ({[ 11 ]} : gset Z)) /\
  (wh_camera_ids <$> xw_hooks (demo_subscribed [JStr "12"; JInt 11])) = [JList [JInt 11]] /\
  exists ids, JList [JInt 11] = JList (JInt <$> ids) /\ ids <> [] /\ forall c, c ∈ ids -> c ∈ ({[ 11 ]} : gset Z).
Proof.
  split; [by vm_compute|]. destruct (api_token_sees_only_its_cameras demo_limited {[ 11 ]} demo_ext) as (H & _ & _ & Hs); [by vm_compute|].
  split; [|split; [by vm_compute|apply (Hs (demo_asked [JStr "12"; JInt 11]) (demo_hook_of [JStr "12"; JInt 11]) (demo_subscribed [JStr "12"; JInt 11])); by vm_compute]].
  apply (H demo_all 2 [demo_ev 3 11; demo_ev 1 11] demo_ext). by vm_compute.
Defined.

Definition demo_call0 : Request :=
  {| rq_method := "GET"; rq_path := "/api/v1/ext/events"; rq_authorization := EmptyString; rq_access_token := None; rq_api_key := Some "axp_0"%string;
     rq_remote_addr := None; rq_user_agent := None |}.

Lemma revoked_api_token_is_dead_witness :
  let w1 := snd (demo_created JNull) in
  (exists t w, api_token_required demo_hash demo_call0 ["events:read"%string] w1 = (Passed t, w)) /\
  exists t w2, token_revoke (at_uuid (demo_tok JNull)) w1 = (inr t, w2) /\
    api_token_required demo_hash demo_call0 ["events:read"%string] w2 = (NoPermission "invalid_api_token", w2).
Proof.
  cbv zeta. split; [eexists _, _; vm_compute; reflexivity|]. exists (at_revoke (1000 * SEC) (demo_tok JNull)).
  exists (set_tokens (put_token (at_revoke (1000 * SEC) (demo_tok JNull)) [demo_tok JNull]) (snd (demo_created JNull))). split; [by vm_compute|].
  apply (revoked_api_token_is_dead demo_hash demo_secret (at_uuid (demo_tok JNull)) (snd (demo_created JNull)) (at_revoke (1000 * SEC) (demo_tok JNull))
    (set_tokens (put_token (at_revoke (1000 * SEC) (demo_tok JNull)) [demo_tok JNull]) (snd (demo_created JNull))) _ "axp_0").
  - constructor; [apply NoDup_singleton..|]. intros t Ht. apply list_elem_of_singleton in Ht as ->. by vm_compute.
  - by vm_compute.
  - apply rtc_refl.
  - by vm_compute.
  - done.
Defined.

(** two calls within a limit of one: the first passes, the second does not *)
Definition demo_rate : ApiToken := Build_ApiToken 5 EmptyString EmptyString [] JNull None None None None 1 None.

Lemma api_token_rate_bounded_witness :
  let w1 := snd (check_rate_limit demo_rate demo_ext) in
  fst (check_rate_limit demo_rate demo_ext) = true /\ fst (check_rate_limit demo_rate w1) = false /\
  admitted (1000 * SEC) (1000 * SEC + 60 * SEC) [(1000 * SEC, true); (1000 * SEC, false)] <= 2 * rate_limit demo_rate.
Proof.
  cbv zeta. split; [by vm_compute|]. split; [by vm_compute|].
  apply (api_token_rate_bounded demo_rate demo_ext); [done|by vm_compute|].
  apply (lim_call demo_rate demo_ext demo_ext true (snd (check_rate_limit demo_rate demo_ext))); [by vm_compute|done|lia|by vm_compute|].
  apply (lim_call demo_rate _ (snd (check_rate_limit demo_rate demo_ext)) false
    (snd (check_rate_limit demo_rate (snd (check_rate_limit demo_rate demo_ext))))); [by vm_compute|done|lia|by vm_compute|constructor].
Defined.

(** Two subscriptions of the limited token, the second malformed. *)
Definition demo_hook (types : json) (w : ExtWorld) : ExtWorld :=
  snd (create_subscription demo_limited {| hd_url := Some "https://example.org/x"%string; hd_event_types := types; hd_camera_ids := JNull |} w).
Definition demo_hooked : ExtWorld := demo_hook JNull (set_tokens [demo_limited] demo_ext).
Definition demo_poisoned : ExtWorld := demo_hook JNull (demo_hook (JInt 5) demo_hooked).
Definition public_ip : IpAddress := Build_IpAddress false false false false false false.
Definition demo_parse (_ : string) : option (string * option string) := Some ("https"%string, Some "example.org"%string).
Definition demo_resolve (_ : nat) (_ : string) : option (list IpAddress) := Some [public_ip].
Definition demo_deliver (e : Event) (w : ExtWorld) : (ext_error + unit) * ExtWorld :=
  deliver_subscriptions demo_parse demo_resolve false (fun _ => Some 200) no_str e w.

Lemma events_leave_only_where_allowed_witness :
  length (xw_posts (snd (demo_deliver (demo_ev 3 11) demo_hooked))) = 1%nat /\ xw_posts (snd (demo_deliver (demo_ev 2 12) demo_hooked)) = [] /\
  exists ps hs, xw_posts (snd (demo_deliver (demo_ev 3 11) demo_hooked)) = xw_posts demo_hooked ++ ps /\ sublist hs (active_subscriptions demo_hooked) /\
    Forall2 (posted demo_parse demo_resolve false no_str demo_hooked (demo_ev 3 11)) hs ps.
Proof.
  split; [by vm_compute|]. split; [by vm_compute|].
  apply (events_leave_only_where_allowed demo_parse demo_resolve false (fun _ => Some 200) no_str (demo_ev 3 11) demo_hooked
    (fst (demo_deliver (demo_ev 3 11) demo_hooked))). apply surjective_pairing.
Defined.

(** A subscription is stored with any JSON as its event types.  A number there makes the
    fan-out of every event raise: subscriptions before it are served, those after it
    are not, and the consumer runs the event again (Flow: five times). *)
Example malformed_subscription_stops_fan_out :
  fst (demo_deliver (demo_ev 3 11) demo_poisoned) = inl TypeError /\ length (active_subscriptions demo_poisoned) = 3%nat /\
  po_hook <$> xw_posts (snd (demo_deliver (demo_ev 3 11) demo_poisoned)) = [1].
Proof. split; [by vm_compute|]. split; by vm_compute. Qed.
