(* ===== verification/Export.v ===== *)
(** * Clip export

    src/server/controller/export.py, task/list/transcode.py, model/export_job.py and the
    export builders of service/ffmpeg.py.

    The world is the store with the table of jobs.  A media position is counted in
    microseconds along the concatenation of the segments that were found on disk, without
    rounding.  Parameters: cameras by uuid, the feature flag, Fernet, the n-th download
    token and task id, sizes of files, what [os] and ffmpeg do ([Run]), ['%.3f'], the
    hwaccel arguments and UTF-8.  User-given text is a list of code points where its
    characters matter.  Audit rows and the log are not kept. *)

From stdpp Require Import pretty.
From S2P Require Import Prelude PyStr Redis Permission Token Storage EventPipeline Sharing.
Local Open Scope Z_scope.
Local Open Scope list_scope.

Definition EX_QUEUED : string := "queued".
Definition EX_PROCESSING : string := "processing".
Definition EX_DONE : string := "done".
Definition EX_FAILED : string := "failed".
Definition EX_EXPIRED : string := "expired".
Definition MODE_COPY : string := "copy".
Definition MODE_TRANSCODE : string := "transcode".

Record ExportJob := {
  ej_id : Z;
  ej_camera_id : Z;
  ej_requested_by_id : Z;
  ej_start_ts : Z;
  ej_end_ts : Z;
  ej_mode : string;
  ej_container : string;
  ej_transcode_preset : option string;
  ej_watermark : bool;
  ej_watermark_text : option (list Z);
  ej_password_protected : bool;
  ej_enc_password : option string;
  ej_status : string;
  ej_progress : Z;
  ej_celery_task_id : option string;
  ej_output : option (Z * string);      (* output_disk_id, output_rel_path *)
  ej_output_size : option Z;
  ej_download_token : string;
  ej_error_message : option string;
  ej_expires_at : Z
}.

Record ExportWorld := { xp_store : Store; xp_jobs : list ExportJob; xp_next : Z; xp_draws : nat }.
Definition E (A : Type) : Type := M ExportWorld exn A.
Definition xp_now (w : ExportWorld) : Z := t_now (xp_store w).
Definition set_xp_store (t : Store) (w : ExportWorld) : ExportWorld :=
  {| xp_store := t; xp_jobs := xp_jobs w; xp_next := xp_next w; xp_draws := xp_draws w |}.
Definition set_jobs (l : list ExportJob) (w : ExportWorld) : ExportWorld :=
  {| xp_store := xp_store w; xp_jobs := l; xp_next := xp_next w; xp_draws := xp_draws w |}.

(** ** The row *)

Definition job_get_by_id (id : Z) (w : ExportWorld) : option ExportJob := List.find (fun j => ej_id j =? id) (xp_jobs w).
Definition job_get_by_token (token : string) (w : ExportWorld) : option ExportJob :=
  List.find (fun j => bool_decide (ej_download_token j = token)) (xp_jobs w).

(** [update]: each writes its own columns of the row as it is now *)
Definition job_update (id : Z) (f : ExportJob -> ExportJob) (w : ExportWorld) : ExportWorld :=
  set_jobs ((fun j => if ej_id j =? id then f j else j) <$> xp_jobs w) w.

Definition ej_set (status : string) (progress : Z) (output : option (Z * string)) (size : option Z) (error : option string) (j : ExportJob) : ExportJob :=
  {| ej_id := ej_id j; ej_camera_id := ej_camera_id j; ej_requested_by_id := ej_requested_by_id j; ej_start_ts := ej_start_ts j;
     ej_end_ts := ej_end_ts j; ej_mode := ej_mode j; ej_container := ej_container j; ej_transcode_preset := ej_transcode_preset j;
     ej_watermark := ej_watermark j; ej_watermark_text := ej_watermark_text j; ej_password_protected := ej_password_protected j;
     ej_enc_password := ej_enc_password j; ej_status := status; ej_progress := progress; ej_celery_task_id := ej_celery_task_id j;
     ej_output := output; ej_output_size := size; ej_download_token := ej_download_token j; ej_error_message := error;
     ej_expires_at := ej_expires_at j |}.
Definition ej_start (j : ExportJob) : ExportJob := ej_set EX_PROCESSING 0 (ej_output j) (ej_output_size j) (ej_error_message j) j.
Definition ej_fail (msg : string) (j : ExportJob) : ExportJob := ej_set EX_FAILED (ej_progress j) (ej_output j) (ej_output_size j) (Some msg) j.
Definition ej_done (out : Z * string) (size : Z) (j : ExportJob) : ExportJob := ej_set EX_DONE 100 (Some out) (Some size) (ej_error_message j) j.
Definition ej_expire (j : ExportJob) : ExportJob := ej_set EX_EXPIRED (ej_progress j) (ej_output j) (ej_output_size j) (ej_error_message j) j.
Definition ej_at (pct : Z) (j : ExportJob) : ExportJob := ej_set (ej_status j) pct (ej_output j) (ej_output_size j) (ej_error_message j) j.
Definition ej_task (task : string) (j : ExportJob) : ExportJob :=
  {| ej_id := ej_id j; ej_camera_id := ej_camera_id j; ej_requested_by_id := ej_requested_by_id j; ej_start_ts := ej_start_ts j;
     ej_end_ts := ej_end_ts j; ej_mode := ej_mode j; ej_container := ej_container j; ej_transcode_preset := ej_transcode_preset j;
     ej_watermark := ej_watermark j; ej_watermark_text := ej_watermark_text j; ej_password_protected := ej_password_protected j;
     ej_enc_password := ej_enc_password j; ej_status := ej_status j; ej_progress := ej_progress j; ej_celery_task_id := Some task;
     ej_output := ej_output j; ej_output_size := ej_output_size j; ej_download_token := ej_download_token j;
     ej_error_message := ej_error_message j; ej_expires_at := ej_expires_at j |}.

(** [get_expired] *)
Definition get_expired (w : ExportWorld) : list ExportJob :=
  limit 100 (List.filter (fun j => (ej_expires_at j <? xp_now w) && bool_decide (ej_status j ∈ [EX_DONE; EX_FAILED])) (xp_jobs w)).

Definition disk_known (t : Store) (id : Z) : bool := existsb (fun d => (dk_id d =? id) && bool_decide (dk_deleted_at d = None)) (t_disks t).

(** ** The cut (run_export_job) *)

(** [start_trim] and [end_trim] along the concatenation *)
Fixpoint trim (start end_ : Z) (segs : list Segment) (acc : Z) (start_trim : option Z) (end_trim : Z) : Z * Z :=
  match segs with
  | [] => (default 0 start_trim, end_trim)
  | s :: r =>
      let dur := Z.max 0 (sg_end_ts s - sg_start_ts s) in
      let start_trim' := match start_trim with
                         | None => if start <? sg_end_ts s then Some (acc + Z.max 0 (start - sg_start_ts s)) else None
                         | Some x => Some x
                         end in
      let end_trim' := if sg_start_ts s <? end_ then acc + Z.min dur (end_ - sg_start_ts s) else end_trim in
      trim start end_ r (acc + dur) start_trim' end_trim'
  end.
Definition cut (j : ExportJob) (included : list Segment) : Z * Z := trim (ej_start_ts j) (ej_end_ts j) included 0 None 0.

(** ** Command lines (service/ffmpeg.py) *)

(** [re.sub("[^A-Za-z0-9 _.,:\-가-힣]", '', text or '')[:100]] or the default *)
Definition watermark_char (c : Z) : bool :=
  ((65 <=? c) && (c <=? 90)) || ((97 <=? c) && (c <=? 122)) || ((48 <=? c) && (c <=? 57)) || bool_decide (c ∈ [32; 95; 46; 44; 58; 45]) ||
  ((44032 <=? c) && (c <=? 55203)).
Definition AEROX_PROTECT : list Z := [65; 101; 114; 111; 88; 32; 80; 114; 111; 116; 101; 99; 116].
Definition safe_watermark_text (text : option (list Z)) : list Z :=
  match take 100 (List.filter watermark_char (default [] text)) with [] => AEROX_PROTECT | l => l end.

Definition PRESET_HEIGHTS : list (string * Z) := [("h264_1080p", 1080); ("h264_720p", 720); ("h264_480p", 480)]%string.
Definition preset_height (preset : option string) : Z :=
  match List.find (fun p => bool_decide (fst p = or_str preset EmptyString)) PRESET_HEIGHTS with Some (_, h) => h | None => 1080 end.

(** [concat_entry]: one character of the path *)
Definition concat_char (c : Ascii.ascii) : string :=
  match Ascii.nat_of_ascii c with
  | 92%nat => "/"
  | 39%nat => String c (String (Ascii.ascii_of_nat 92) (String c (String c EmptyString)))
  | _ => String c EmptyString
  end.
Fixpoint concat_body (p : string) : string := match p with EmptyString => EmptyString | String c r => concat_char c +:+ concat_body r end.
Definition quote : string := String (Ascii.ascii_of_nat 39) EmptyString.
Definition newline : string := String (Ascii.ascii_of_nat 10) EmptyString.
Definition concat_entry (abs_path : string) : string := "file " +:+ quote +:+ concat_body abs_path +:+ quote +:+ newline.

Section Builders.
Context (ffmpeg_bin : string) (hwaccel_prefix : list string) (fmt3 : Z -> string) (utf8 : list Z -> string) (font : string).

Definition concat_input (list_file : string) (start_trim end_trim : Z) : list string :=
  ["-f"; "concat"; "-safe"; "0"; "-i"; list_file; "-ss"; fmt3 start_trim; "-to"; fmt3 end_trim]%string.

Definition build_concat_copy_cmd (list_file out_path : string) (start_trim end_trim : Z) : list string :=
  ([ffmpeg_bin; "-hide_banner"; "-loglevel"; "error"]%string ++ concat_input list_file start_trim end_trim ++
   ["-c"; "copy"; "-movflags"; "+faststart"; "-progress"; "pipe:1"; "-y"; out_path]%string).

Definition transcode_with (list_file out_path vf : string) (start_trim end_trim : Z) : list string :=
  ([ffmpeg_bin; "-hide_banner"; "-loglevel"; "error"]%string ++ hwaccel_prefix ++ concat_input list_file start_trim end_trim ++
   ["-c:v"; "libx264"; "-preset"; "veryfast"; "-crf"; "23"; "-pix_fmt"; "yuv420p"; "-vf"; vf;
    "-c:a"; "aac"; "-b:a"; "128k"; "-movflags"; "+faststart"; "-progress"; "pipe:1"; "-y"; out_path]%string).

Definition build_transcode_cmd (list_file out_path : string) (start_trim end_trim height : Z) : list string :=
  transcode_with list_file out_path ("scale=-2:" +:+ pretty height) start_trim end_trim.

Definition watermark_filter (height : Z) (text : option (list Z)) : string :=
  "scale=-2:" +:+ pretty height +:+ ",drawtext=fontfile=" +:+ font +:+ ":text=" +:+ quote +:+ utf8 (safe_watermark_text text) +:+ quote +:+
  ":fontcolor=white@0.92:fontsize=20:box=1:boxcolor=black@0.4:boxborderw=6:x=14:y=14:expansion=none".

Definition build_watermark_transcode_cmd (list_file out_path : string) (start_trim end_trim height : Z) (text : option (list Z)) : list string :=
  transcode_with list_file out_path (watermark_filter height text) start_trim end_trim.

Definition export_cmd (j : ExportJob) (list_file out_path : string) (start_trim end_trim : Z) : list string :=
  if bool_decide (ej_mode j = MODE_COPY) then build_concat_copy_cmd list_file out_path start_trim end_trim
  else if ej_watermark j
  then build_watermark_transcode_cmd list_file out_path start_trim end_trim (preset_height (ej_transcode_preset j)) (ej_watermark_text j)
  else build_transcode_cmd list_file out_path start_trim end_trim (preset_height (ej_transcode_preset j)).
End Builders.

(** ** Controller and task *)

Record ExportData := {
  ed_camera_uuid : option string;
  ed_start_ts : option Z;                (* after _parse_ms *)
  ed_end_ts : option Z;
  ed_mode : option string;
  ed_watermark : bool;
  ed_password : option string;
  ed_container : option string;
  ed_transcode_preset : option string;
  ed_watermark_text : option (list Z)
}.

(** What one run meets: errors of makedirs and of writing the list, of starting ffmpeg
    and of zipping; ffmpeg's progress lines; whether it ended well; sizes. *)
Record Run := {
  ru_prepare : option string;
  ru_spawn : option string;
  ru_out_times : list (option Z);
  ru_ok : bool;
  ru_partial : bool;                     (* a failed ffmpeg left an output *)
  ru_size : Z;
  ru_zip : option string;
  ru_zip_size : Z
}.

(** an export on its way: disk, list file, output and its end of the concatenation *)
Record Underway := { un_job : ExportJob; un_disk : Z; un_list : string; un_out : string; un_cmd : list string; un_total : Z }.

Section ExportOps.
Context (camera_of_uuid : string -> option Z) (flag : bool) (encrypt : string -> string) (new_token new_task : nat -> string).
Context (size_of : Z * string -> Z) (md5 : string -> Z).
Context (ffmpeg_bin : string) (hwaccel_prefix : list string) (fmt3 : Z -> string) (utf8 : list Z -> string) (font : string).
Context (mount : Z -> string).           (* disk.mount_path, with its separator *)

(** [ExportJob.create] with the arguments [create_job] gives it *)
Definition new_job (u : Caller) (data : ExportData) (cam a b : Z) (mode password : string) (w : ExportWorld) : ExportJob :=
  let secret := negb (bool_decide (password = EmptyString)) in
  {| ej_id := xp_next w; ej_camera_id := cam; ej_requested_by_id := cl_id u; ej_start_ts := a; ej_end_ts := b;
     ej_mode := if ed_watermark data then MODE_TRANSCODE else mode; ej_container := or_str (ed_container data) "mp4";
     ej_transcode_preset := ed_transcode_preset data; ej_watermark := ed_watermark data; ej_watermark_text := ed_watermark_text data;
     ej_password_protected := secret; ej_enc_password := if secret then Some (encrypt password) else None; ej_status := EX_QUEUED;
     ej_progress := 0; ej_celery_task_id := None; ej_output := None; ej_output_size := None; ej_download_token := new_token (xp_draws w);
     ej_error_message := None; ej_expires_at := xp_now w + 24 * 3600 * SEC |}.
Definition push_job (j : ExportJob) (w : ExportWorld) : ExportWorld :=
  {| xp_store := xp_store w; xp_jobs := xp_jobs w ++ [j]; xp_next := xp_next w + 1; xp_draws := S (xp_draws w) |}.

(** [create_job]; [broker] is whether the task could be queued *)
Definition export_create (u : Caller) (data : ExportData) (broker : bool) : E ExportJob :=
  if negb (truthy_str (ed_camera_uuid data)) then raise (InvalidParameterException "camera_uuid required") else
  let uuid := default ""%string (ed_camera_uuid data) in
  match camera_of_uuid uuid with
  | None => raise RowNotFoundException
  | Some cam =>
      if negb (scoped u uuid) then raise NoPermissionException else
      match ed_start_ts data, ed_end_ts data with
      | Some a, Some b =>
          if b <=? a then raise (InvalidParameterException "valid start_ts/end_ts (epoch ms) required") else
          if 6 * 3600 * SEC <? b - a then raise (InvalidParameterException "export window too large (max 6h)") else
          let mode := or_str (ed_mode data) MODE_COPY in
          if negb (bool_decide (mode ∈ [MODE_COPY; MODE_TRANSCODE])) then raise (InvalidParameterException "mode must be copy or transcode") else
          let password := strip (or_str (ed_password data) EmptyString) in
          let secret := negb (bool_decide (password = EmptyString)) in
          if (ed_watermark data || secret) && negb flag then raise (InvalidParameterException "feature_disabled") else
          let! w := gets id in
          let j := new_job u data cam a b mode password w in
          modify (push_job j) ;;;
          if negb broker then raise (ValueError "broker") else
          modify (job_update (ej_id j) (ej_task (new_task (xp_draws w)))) ;;;
          ret (ej_task (new_task (xp_draws w)) j)
      | _, _ => raise (InvalidParameterException "valid start_ts/end_ts (epoch ms) required")
      end
  end.

(** the segments whose files are there *)
Definition on_disk (t : Store) (s : Segment) : bool :=
  disk_known t (sg_disk_id s) && bool_decide ((sg_disk_id s, sg_rel_path s) ∈ t_files t) && (0 <? size_of (sg_disk_id s, sg_rel_path s)).

Definition out_dir_rel (job_id : Z) : string := "exports/" +:+ pretty job_id.
Definition abs_path (f : Z * string) : string := mount (fst f) +:+ snd f.

(** [run_export_job] up to the start of ffmpeg; [None]: the run is over *)
Definition export_begin (job_id : Z) (run : Run) (w : ExportWorld) : option Underway * ExportWorld :=
  match job_get_by_id job_id w with
  | None => (None, w)
  | Some j0 =>
      let w1 := job_update job_id ej_start w in
      let j := ej_start j0 in
      let fail msg w := (None, job_update job_id (ej_fail msg) w) in
      let t := xp_store w1 in
      let segments := get_range (ej_camera_id j) (ej_start_ts j) (ej_end_ts j) (Some "main"%string) t in
      if bool_decide (segments = []) then fail "no_segments"%string w1 else
      let '(picked, t1) := pick_write_disk md5 pretty (ej_camera_id j) None t in
      let w2 := set_xp_store t1 w1 in
      match (match picked with Some d => Some d | None => head (get_writable ["cache"; "record"]%string t1) end) with
      | None => fail "no_output_disk"%string w2
      | Some disk =>
          let out_rel := out_dir_rel job_id +:+ "/clip." +:+ ej_container j in
          let list_rel := out_dir_rel job_id +:+ "/list.txt" in
          match ru_prepare run with
          | Some msg => fail msg w2
          | None =>
              let w3 := set_xp_store (set_files (t_files t1 ∪ {[ (dk_id disk, list_rel) ]}) t1) w2 in
              let included := List.filter (on_disk t1) segments in
              if bool_decide (included = []) then fail "no_segments_on_disk"%string w3 else
              let '(start_trim, end_trim) := cut j included in
              match ru_spawn run with
              | Some msg => fail msg w3
              | None =>
                  (Some {| un_job := j; un_disk := dk_id disk; un_list := list_rel; un_out := out_rel;
                           un_cmd := export_cmd ffmpeg_bin hwaccel_prefix fmt3 utf8 font j (abs_path (dk_id disk, list_rel))
                                       (abs_path (dk_id disk, out_rel)) start_trim end_trim;
                           un_total := Z.max SEC (end_trim - start_trim) |}, w3)
              end
          end
      end
  end.

(** one progress line *)
Definition export_progress (un : Underway) (line : option Z) (st : Z * ExportWorld) : Z * ExportWorld :=
  match line with
  | None => st
  | Some t =>
      let pct := Z.min 99 (Z.quot (t * 100) (un_total un)) in
      if fst st + 5 <=? pct then (pct, job_update (ej_id (un_job un)) (ej_at pct) (snd st)) else st
  end.

(** the rest, once ffmpeg ended *)
Definition export_finish (un : Underway) (run : Run) (w : ExportWorld) : ExportWorld :=
  let id := ej_id (un_job un) in
  let t := xp_store w in
  let out := (un_disk un, un_out un) in
  if negb (ru_ok run) then
    job_update id (ej_fail "ffmpeg_failed") (if ru_partial run then set_xp_store (set_files (t_files t ∪ {[ out ]}) t) w else w) else
  let t1 := set_files ((t_files t ∪ {[ out ]}) ∖ {[ (un_disk un, un_list un) ]}) t in
  if ej_password_protected (un_job un) && truthy_str (ej_enc_password (un_job un)) then
    match ru_zip run with
    | Some msg => job_update id (ej_fail msg) (set_xp_store t1 w)
    | None =>
        let zip := (un_disk un, out_dir_rel id +:+ "/clip.zip") in
        job_update id (ej_done zip (ru_zip_size run)) (set_xp_store (set_files ((t_files t1 ∪ {[ zip ]}) ∖ {[ out ]}) t1) w)
    end
  else job_update id (ej_done out (ru_size run)) (set_xp_store t1 w).

Definition run_export_job (job_id : Z) (run : Run) (w : ExportWorld) : ExportWorld :=
  match export_begin job_id run w with
  | (None, w1) => w1
  | (Some un, w1) => export_finish un run (snd (foldl (fun st l => export_progress un l st) (0, w1) (ru_out_times run)))
  end.

(** ** After the run *)

Definition owned_job (u : Caller) (job_id : Z) : E ExportJob :=
  let! o := gets (job_get_by_id job_id) in
  match o with
  | None => raise RowNotFoundException
  | Some j => if negb (ej_requested_by_id j =? cl_id u) && negb (is_superuser (cl_subject u)) then raise NoPermissionException else ret j
  end.

Definition cleanup_output (unlink_denied : Z * string -> bool) (j : ExportJob) (w : ExportWorld) : ExportWorld :=
  match ej_output j with
  | Some f => if disk_known (xp_store w) (fst f) && negb (unlink_denied f)
              then set_xp_store (set_files (t_files (xp_store w) ∖ {[ f ]}) (xp_store w)) w else w
  | None => w
  end.

(** [cancel_job]; ending the task is up to the broker *)
Definition export_cancel (u : Caller) (unlink_denied : Z * string -> bool) (job_id : Z) : E unit :=
  let! j := owned_job u job_id in
  modify (fun w => job_update (ej_id j) (ej_fail "cancelled") (cleanup_output unlink_denied j w)).

Definition resolve_download (u : Caller) (token : string) : E (ExportJob * (Z * string)) :=
  let! o := gets (job_get_by_token token) in
  match o with
  | None => raise RowNotFoundException
  | Some j =>
      if negb (bool_decide (ej_status j = EX_DONE)) then raise RowNotFoundException else
      if negb (ej_requested_by_id j =? cl_id u) && negb (is_superuser (cl_subject u)) then raise NoPermissionException else
      let! t := gets xp_store in
      match ej_output j with
      | Some f => if disk_known t (fst f) && bool_decide (f ∈ t_files t) then ret (j, f) else raise RowNotFoundException
      | None => raise RowNotFoundException
      end
  end.

(** [expire_export_jobs] *)
Definition expire_export_jobs (unlink_denied : Z * string -> bool) (w : ExportWorld) : ExportWorld :=
  foldl (fun w j => job_update (ej_id j) ej_expire (cleanup_output unlink_denied j w)) w (get_expired w).
End ExportOps.

(** ** What is cut out *)

(** positions on the concatenation *)
Definition dur (s : Segment) : Z := sg_end_ts s - sg_start_ts s.
Definition media_length (segs : list Segment) : Z := sum_on dur segs.
Fixpoint wall (segs : list Segment) (m : Z) : option Z :=
  match segs with
  | [] => None
  | s :: r => if m <? dur s then Some (sg_start_ts s + m) else wall r (m - dur s)
  end.

(** segments of positive length, one after the other *)
Definition apart (segs : list Segment) : Prop :=
  Forall (fun s => sg_start_ts s < sg_end_ts s) segs /\ StronglySorted (fun s s' => sg_end_ts s <= sg_start_ts s') segs.

Lemma apart_cons s segs : apart (s :: segs) -> sg_start_ts s < sg_end_ts s /\ (forall s', s' ∈ segs -> sg_end_ts s <= sg_start_ts s') /\ apart segs.
Proof.
  intros [Hf Hs]. apply Forall_cons in Hf as [H1 Hf]. apply StronglySorted_inv in Hs as [Hs Hx]. rewrite Forall_forall in Hx. by split_and!.
Qed.

Lemma media_length_nonneg segs : apart segs -> 0 <= media_length segs.
Proof.
  induction segs as [|s segs IH]; intros H; [done|]. apply apart_cons in H as (H1 & _ & H). specialize (IH H).
  change (media_length (s :: segs)) with (dur s + media_length segs). unfold dur. lia.
Qed.

Lemma wall_in segs m : apart segs -> 0 <= m < media_length segs -> exists t s, wall segs m = Some t /\ s ∈ segs /\ sg_start_ts s <= t < sg_end_ts s.
Proof.
  revert m. induction segs as [|s segs IH]; intros m H Hm; [cbn in Hm; lia|]. apply apart_cons in H as (H1 & _ & H).
  change (media_length (s :: segs)) with (dur s + media_length segs) in Hm. cbn [wall]. destruct (Z.ltb_spec m (dur s)) as [Hl|Hl].
  - exists (sg_start_ts s + m), s. split; [done|]. split; [by left|]. unfold dur in Hl. lia.
  - destruct (IH (m - dur s) H ltac:(lia)) as (t & s' & Ht & Hs & Hb). exists t, s'. split; [done|]. split; [by right|done].
Qed.

Lemma wall_onto segs s x : apart segs -> s ∈ segs -> sg_start_ts s <= x < sg_end_ts s -> exists m, 0 <= m < media_length segs /\ wall segs m = Some x.
Proof.
  induction segs as [|a segs IH]; intros H Hin Hx; [by apply elem_of_nil in Hin|]. apply apart_cons in H as (H1 & H2 & H).
  change (media_length (a :: segs)) with (dur a + media_length segs). pose proof (media_length_nonneg segs H) as Hn. apply elem_of_cons in Hin as [->|Hin].
  - exists (x - sg_start_ts a). unfold dur. split; [lia|]. cbn [wall]. unfold dur. destruct (Z.ltb_spec (x - sg_start_ts a) (sg_end_ts a - sg_start_ts a)); [|lia].
    f_equal. lia.
  - destruct (IH H Hin Hx) as (m & Hm & Hw). exists (m + dur a). unfold dur in *. split; [lia|]. cbn [wall]. unfold dur.
    destruct (Z.ltb_spec (m + (sg_end_ts a - sg_start_ts a)) (sg_end_ts a - sg_start_ts a)); [lia|].
    by replace (m + (sg_end_ts a - sg_start_ts a) - (sg_end_ts a - sg_start_ts a)) with m by lia.
Qed.

(** the end of the cut *)
Lemma trim_end a b segs acc x et : apart segs -> (forall s, s ∈ segs -> sg_start_ts s < b) ->
  let '(x', et') := trim a b segs acc (Some x) et in
  x' = x /\ (segs = [] -> et' = et) /\
  (segs <> [] -> acc < et' <= acc + media_length segs /\ forall m t, 0 <= m < media_length segs -> wall segs m = Some t -> (acc + m < et' <-> t < b)).
Proof.
  revert acc et. induction segs as [|s segs IH]; intros acc et Ha Hb; [cbn; by split_and!|]. apply apart_cons in Ha as (H1 & H2 & Ha).
  assert (Hs : sg_start_ts s < b) by (apply Hb; by left). cbn [trim]. destruct (Z.ltb_spec (sg_start_ts s) b); [|lia].
  replace (Z.max 0 (sg_end_ts s - sg_start_ts s)) with (dur s) by (unfold dur; lia).
  specialize (IH (acc + dur s) (acc + Z.min (dur s) (b - sg_start_ts s)) Ha ltac:(intros s' Hs'; apply Hb; by right)).
  destruct (trim a b segs _ _ _) as [x' et']. destruct IH as (-> & Hnil & Hcons). split; [done|]. split; [done|]. intros _.
  change (media_length (s :: segs)) with (dur s + media_length segs). pose proof (media_length_nonneg segs Ha) as Hn. destruct segs as [|s2 segs].
  - rewrite (Hnil eq_refl). change (media_length []) with 0. unfold dur in *. split; [lia|]. intros m t Hm. cbn [wall]. unfold dur.
    destruct (Z.ltb_spec m (sg_end_ts s - sg_start_ts s)); [|done]. intros [= <-]. lia.
  - destruct (Hcons ltac:(done)) as [Hr Hw]. split; [unfold dur in *; lia|]. intros m t Hm. cbn [wall]. destruct (Z.ltb_spec m (dur s)) as [Hl|Hl].
    + intros [= <-]. assert (sg_end_ts s < b); [|unfold dur in *; lia]. specialize (H2 s2 ltac:(by left)). specialize (Hb s2 ltac:(by right; left)). lia.
    + intros Ht. specialize (Hw (m - dur s) t ltac:(lia) Ht). rewrite <- Hw. lia.
Qed.

(** The cut of segments that all meet the window. *)
Lemma trim_spec a b segs : apart segs -> segs <> [] -> (forall s, s ∈ segs -> sg_start_ts s < b /\ a < sg_end_ts s) -> a < b ->
  let '(st, en) := trim a b segs 0 None 0 in
  0 <= st < en /\ en <= media_length segs /\ forall m t, 0 <= m < media_length segs -> wall segs m = Some t -> (st <= m < en <-> a <= t < b).
Proof.
  destruct segs as [|s segs]; [done|]. intros Ha _ Hw Hab. pose proof Ha as Ha0. apply apart_cons in Ha as (H1 & H2 & Ha).
  destruct (Hw s ltac:(by left)) as [Hsb Hsa]. cbn [trim]. destruct (Z.ltb_spec a (sg_end_ts s)); [|lia]. destruct (Z.ltb_spec (sg_start_ts s) b); [|lia].
  replace (Z.max 0 (sg_end_ts s - sg_start_ts s)) with (dur s) by (unfold dur; lia). rewrite !Z.add_0_l.
  pose proof (trim_end a b segs (dur s) (Z.max 0 (a - sg_start_ts s)) (Z.min (dur s) (b - sg_start_ts s)) Ha
    ltac:(intros s' Hs'; apply Hw; by right)) as Ht.
  destruct (trim a b segs _ _ _) as [st en]. destruct Ht as (-> & Hnil & Hcons).
  change (media_length (s :: segs)) with (dur s + media_length segs). pose proof (media_length_nonneg segs Ha) as Hn.
  assert (Hen : Z.min (dur s) (b - sg_start_ts s) <= en /\ en <= dur s + media_length segs).
  { destruct segs as [|s2 segs]; [rewrite (Hnil eq_refl); lia|]. destruct (Hcons ltac:(done)) as [Hr _]. lia. }
  split; [unfold dur in *; lia|]. split; [lia|]. intros m t Hm. cbn [wall]. destruct (Z.ltb_spec m (dur s)) as [Hl|Hl].
  - intros [= <-]. destruct segs as [|s2 segs]; [rewrite (Hnil eq_refl); unfold dur in *; lia|]. destruct (Hcons ltac:(done)) as [Hr _].
    specialize (H2 s2 ltac:(by left)). destruct (Hw s2 ltac:(by right; left)) as [H3 _]. unfold dur in *. lia.
  - intros Ht. assert (Hm' : 0 <= m - dur s < media_length segs) by lia. destruct (wall_in segs (m - dur s) Ha Hm') as (t' & s' & Ht' & Hs' & Hb').
    assert (t' = t) as -> by congruence. specialize (H2 s' Hs'). destruct segs as [|s2 segs]; [by apply elem_of_nil in Hs'|].
    destruct (Hcons ltac:(done)) as [_ Hwl]. specialize (Hwl (m - dur s) t Hm' Ht). unfold dur in *. lia.
Qed.

Lemma wall_mono segs m m' t t' : apart segs -> 0 <= m < m' -> m' < media_length segs -> wall segs m = Some t -> wall segs m' = Some t' -> t < t'.
Proof.
  revert m m'. induction segs as [|s segs IH]; intros m m' H Hm Hm'; [cbn in Hm'; lia|]. apply apart_cons in H as (H1 & H2 & H).
  change (media_length (s :: segs)) with (dur s + media_length segs) in Hm'. cbn [wall].
  destruct (Z.ltb_spec m (dur s)) as [Hl|Hl], (Z.ltb_spec m' (dur s)) as [Hl'|Hl']; try lia.
  - intros [= <-] [= <-]. lia.
  - intros [= <-] Ht'. destruct (wall_in segs (m' - dur s) H ltac:(lia)) as (x & s' & Hx & Hs' & Hb). specialize (H2 s' Hs'). unfold dur in *.
    assert (x = t') by congruence. lia.
  - apply IH; [done|lia|lia].
Qed.

(** the camera's recordings in the index do not overlap *)
Definition one_recording (cam : Z) (t : Store) : Prop :=
  NoDup (t_segments t) /\
  (forall s, s ∈ t_segments t -> sg_camera_id s = cam -> sg_stream_role s = "main"%string -> sg_start_ts s < sg_end_ts s) /\
  (forall s s', s ∈ t_segments t -> s' ∈ t_segments t -> s <> s' -> sg_camera_id s = cam -> sg_camera_id s' = cam ->
     sg_stream_role s = "main"%string -> sg_stream_role s' = "main"%string -> sg_end_ts s <= sg_start_ts s' \/ sg_end_ts s' <= sg_start_ts s).

Lemma sorted_on_List_filter {A} (key : A -> Z) (f : A -> bool) l : sorted_on key l -> sorted_on key (List.filter f l).
Proof.
  unfold sorted_on. induction 1 as [|y l Hs IH Hall]; [constructor|]. cbn. destruct (f y); [|done]. constructor; [done|].
  rewrite Forall_forall in Hall |- *. intros z [Hz _]%elem_of_filter_In. by apply Hall.
Qed.

Lemma sorted_apart segs : sorted_on sg_start_ts segs -> NoDup segs -> (forall s, s ∈ segs -> sg_start_ts s < sg_end_ts s) ->
  (forall s s', s ∈ segs -> s' ∈ segs -> s <> s' -> sg_end_ts s <= sg_start_ts s' \/ sg_end_ts s' <= sg_start_ts s) -> apart segs.
Proof.
  intros Hs Hn Hp Hd. split; [by apply Forall_forall|]. unfold sorted_on in Hs. induction Hs as [|s segs Hs IH Hall]; [constructor|].
  apply NoDup_cons in Hn as [Hni Hn]. constructor.
  - apply IH; [done|intros x Hx; apply Hp; by right|intros x y Hx Hy; apply Hd; by right].
  - rewrite Forall_forall in Hall |- *. intros s' Hs'. specialize (Hall s' Hs'). pose proof (Hp s ltac:(by left)). pose proof (Hp s' ltac:(by right)).
    destruct (Hd s s' ltac:(by left) ltac:(by right) ltac:(by intros ->)); lia.
Qed.


Lemma get_range_apart cam a b t f : one_recording cam t -> apart (List.filter f (get_range cam a b (Some "main"%string) t)).
Proof.
  intros (Hn & Hp & Hd). apply sorted_apart.
  - apply sorted_on_List_filter, sort_on_sorted.
  - apply NoDup_ListNoDup, List.NoDup_filter, NoDup_ListNoDup. unfold get_range, by_start. rewrite sort_on_perm.
    by apply NoDup_ListNoDup, List.NoDup_filter, NoDup_ListNoDup.
  - intros s (Hs & _)%elem_of_filter_In. apply elem_of_get_range in Hs as (? & ? & ? & ? & ? & ?). by apply Hp.
  - intros s s' (Hs & _)%elem_of_filter_In (Hs' & _)%elem_of_filter_In Hne.
    apply elem_of_get_range in Hs as (? & ? & ? & ? & ? & ?), Hs' as (? & ? & ? & ? & ? & ?). by apply Hd.
Qed.

Section Cut.
Context (size_of : Z * string -> Z) (md5 : string -> Z) (ffmpeg_bin : string) (hw : list string).
Context (fmt3 : Z -> string) (utf8 : list Z -> string) (font : string) (mount : Z -> string).
Notation export_begin := (export_begin size_of md5 ffmpeg_bin hw fmt3 utf8 font mount).

(** the segments of a job that are on disk *)
Definition cut_from (j : ExportJob) (t : Store) : list Segment :=
  List.filter (on_disk size_of t) (get_range (ej_camera_id j) (ej_start_ts j) (ej_end_ts j) (Some "main"%string) t).

(** What is taken up is cut from the segments on disk. *)
Lemma export_begin_cmd id run w un w' :
  export_begin id run w = (Some un, w') ->
  exists j0, job_get_by_id id w = Some j0 /\ un_job un = ej_start j0 /\ un_out un = out_dir_rel id +:+ "/clip." +:+ ej_container j0 /\
    let j := ej_start j0 in
    let segs := cut_from j (xp_store w) in
    segs <> [] /\ un_total un = Z.max SEC ((cut j segs).2 - (cut j segs).1) /\
    un_cmd un = export_cmd ffmpeg_bin hw fmt3 utf8 font j (abs_path mount (un_disk un, un_list un)) (abs_path mount (un_disk un, un_out un))
                  (cut j segs).1 (cut j segs).2.
Proof.
  assert (Hpick : forall c t, snd (pick_write_disk md5 pretty c None t) = t) by (intros c t; unfold pick_write_disk; by destruct (write_pool t)).
  unfold Export.export_begin. destruct (job_get_by_id id w) as [j0|] eqn:Ej; [|done]. intros H. exists j0. split; [done|]. revert H.
  cbv zeta. change (xp_store (job_update id ej_start w)) with (xp_store w).
  case_bool_decide as Hr; [done|]. specialize (Hpick (ej_camera_id (ej_start j0)) (xp_store w)).
  destruct (pick_write_disk md5 pretty _ None _) as [picked t1]. cbn [snd] in Hpick. subst t1.
  destruct (match picked with Some d => _ | None => _ end) as [disk|]; [|done]. destruct (ru_prepare run); [done|].
  case_bool_decide as Hi; [done|]. destruct (cut _ _) as [st en] eqn:Ec. destruct (ru_spawn run); [done|].
  intros [= <- <-]. do 2 (split; [done|]). cbn [fst snd]. by split_and!.
Qed.

(** C20: An export taken up for a camera whose recordings do not overlap runs ffmpeg on the
    segments found on disk that meet the window, with a cut that lies within the
    concatenation, is not empty, plays in order, holds the positions recorded inside the
    window and no others, and misses no recorded instant of it. *)
Theorem export_cuts_exactly_the_window id run w un w' j :
  export_begin id run w = (Some un, w') -> job_get_by_id id w = Some j -> ej_start_ts j < ej_end_ts j -> one_recording (ej_camera_id j) (xp_store w) ->
  exists st en,
    let segs := cut_from j (xp_store w) in
    un_cmd un = export_cmd ffmpeg_bin hw fmt3 utf8 font (ej_start j) (abs_path mount (un_disk un, un_list un)) (abs_path mount (un_disk un, un_out un)) st en /\
    0 <= st < en /\ en <= media_length segs /\
    (forall m m' t t', st <= m < m' -> m' < en -> wall segs m = Some t -> wall segs m' = Some t' -> t < t') /\
    (forall m t, 0 <= m < media_length segs -> wall segs m = Some t -> (st <= m < en <-> ej_start_ts j <= t < ej_end_ts j)) /\
    (forall s t, s ∈ t_segments (xp_store w) -> sg_camera_id s = ej_camera_id j -> sg_stream_role s = "main"%string -> sg_corrupt s = false ->
       on_disk size_of (xp_store w) s = true -> sg_start_ts s <= t < sg_end_ts s -> ej_start_ts j <= t < ej_end_ts j ->
       exists m, st <= m < en /\ wall segs m = Some t).
Proof.
  intros H Hj Hab Hone. apply export_begin_cmd in H as (j' & Hj' & _ & _ & Hne & _ & Hcmd). assert (j' = j) as -> by congruence. cbn [ej_start ej_set ej_camera_id] in *.
  change (cut_from (ej_start j) (xp_store w)) with (cut_from j (xp_store w)) in *. change (cut (ej_start j)) with (cut j) in Hcmd.
  pose proof (get_range_apart (ej_camera_id j) (ej_start_ts j) (ej_end_ts j) (xp_store w) (on_disk size_of (xp_store w)) Hone) as Ha.
  change (apart (cut_from j (xp_store w))) in Ha. set (segs := cut_from j (xp_store w)) in *.
  assert (Hw : forall s, s ∈ segs -> sg_start_ts s < ej_end_ts j /\ ej_start_ts j < sg_end_ts s)
    by (intros s (Hs & _)%elem_of_filter_In; by apply elem_of_get_range in Hs as (? & ? & ? & ? & ? & ?)).
  pose proof (trim_spec (ej_start_ts j) (ej_end_ts j) segs Ha Hne Hw Hab) as Ht. fold (cut j segs) in Ht.
  destruct (cut j segs) as [st en]. destruct Ht as (Hst & Hen & Hm). exists st, en. cbv zeta. split_and!; [done|lia|lia|done| |done|].
  - intros m m' t t' H1 H2. apply wall_mono; [done|lia|lia].
  - intros s t H1 H2 H3 H4 H5 H6 H7. assert (Hin : s ∈ segs).
    { apply elem_of_filter_In. split; [|done]. apply elem_of_get_range. split_and!; [done..|lia|lia|done]. }
    destruct (wall_onto segs s t Ha Hin H6) as (m & Hr & Hwl). exists m. split; [|done]. by apply (Hm m t Hr Hwl).
Qed.
End Cut.

(** the name a download gets (view/api/export.py) *)
Definition download_name (j : ExportJob) : string := "axp_clip_" +:+ pretty (ej_id j) +:+ "." +:+ ej_container j.

(** ** Histories: requests, workers and the cleanup, interleaved; disks and the index
    change in between.  The list holds the runs of ffmpeg under way. *)
Section Histories.
Context (camera_of_uuid : string -> option Z) (flag : bool) (encrypt : string -> string) (new_token new_task : nat -> string).
Context (size_of : Z * string -> Z) (md5 : string -> Z) (ffmpeg_bin : string) (hw : list string).
Context (fmt3 : Z -> string) (utf8 : list Z -> string) (font : string) (mount : Z -> string).

Inductive XStep :=
| XCreate (u : Caller) (data : ExportData) (broker : bool)
| XBegin (id : Z) (run : Run)
| XLine (i : nat) (last : Z) (line : option Z)       (* the i-th run under way *)
| XFinish (i : nat) (run : Run)
| XCancel (u : Caller) (denied : Z * string -> bool) (id : Z)
| XExpire (denied : Z * string -> bool)
| XElse (t : Store).

Definition XState : Type := ExportWorld * list Underway.
Definition xstep (s : XState) (o : XStep) : XState :=
  let '(w, fl) := s in
  match o with
  | XCreate u data broker => (snd (export_create camera_of_uuid flag encrypt new_token new_task u data broker w), fl)
  | XBegin id run =>
      let '(un, w1) := export_begin size_of md5 ffmpeg_bin hw fmt3 utf8 font mount id run w in (w1, match un with Some un => un :: fl | None => fl end)
  | XLine i last line => match fl !! i with Some un => (snd (export_progress un line (last, w)), fl) | None => s end
  | XFinish i run => match fl !! i with Some un => (export_finish un run w, delete i fl) | None => s end
  | XCancel u denied id => (snd (export_cancel u denied id w), fl)
  | XExpire denied => (expire_export_jobs denied w, fl)
  | XElse t => (set_xp_store t w, fl)
  end.
Definition xrun (s : XState) (os : list XStep) : XState := foldl xstep s os.

(** the request in a row *)
Definition request_of (j : ExportJob) : ExportJob := ej_task "" (ej_set EX_QUEUED 0 None None None j).

(** [w'] has the rows of [w], with the same requests, and no new output. *)
Definition quiet (w w' : ExportWorld) : Prop :=
  xp_next w' = xp_next w /\ exists g, xp_jobs w' = g <$> xp_jobs w /\
    forall j, request_of (g j) = request_of j /\ (ej_status (g j) = EX_DONE -> ej_status j = EX_DONE /\ ej_output (g j) = ej_output j).

Lemma quiet_refl w : quiet w w.
Proof. split; [done|]. exists id. by rewrite list_fmap_id. Qed.

Lemma quiet_trans w1 w2 w3 : quiet w1 w2 -> quiet w2 w3 -> quiet w1 w3.
Proof.
  intros [H1 (g1 & Hg1 & Hp1)] [H2 (g2 & Hg2 & Hp2)]. split; [congruence|]. exists (g2 ∘ g1). split; [by rewrite Hg2, Hg1, list_fmap_compose|].
  intros j. destruct (Hp1 j) as [Ha Hb], (Hp2 (g1 j)) as [Hc Hd]. split; [cbn; congruence|]. intros Hs. destruct (Hd Hs) as [Hs1 Ho]. destruct (Hb Hs1). cbn. split; congruence.
Qed.

Lemma quiet_update id f w : (forall j, request_of (f j) = request_of j) ->
  (forall j, ej_status (f j) = EX_DONE -> ej_status j = EX_DONE /\ ej_output (f j) = ej_output j) -> quiet w (job_update id f w).
Proof. intros Hr Hs. split; [done|]. eexists. split; [reflexivity|]. intros j. cbn. destruct (ej_id j =? id); [by split; [apply Hr|apply Hs]|done]. Qed.

Lemma quiet_store t w : quiet w (set_xp_store t w).
Proof. split; [done|]. exists id. by rewrite list_fmap_id. Qed.

Lemma quiet_fail id msg w : quiet w (job_update id (ej_fail msg) w).
Proof. by apply quiet_update. Qed.

Lemma quiet_cleanup denied j w : quiet w (cleanup_output denied j w).
Proof. unfold cleanup_output. destruct (ej_output j) as [f|]; [|apply quiet_refl]. destruct (disk_known _ _ && _); [apply quiet_store|apply quiet_refl]. Qed.

Lemma quiet_expire denied w : quiet w (expire_export_jobs denied w).
Proof.
  unfold expire_export_jobs. generalize (get_expired w). intros l. revert w. induction l as [|j l IH]; intros w; [apply quiet_refl|]. cbn.
  eapply quiet_trans; [|apply IH]. eapply quiet_trans; [apply quiet_cleanup|]. by apply quiet_update.
Qed.

Lemma quiet_cancel u denied id w : quiet w (snd (export_cancel u denied id w)).
Proof.
  unfold export_cancel, owned_job, bind, gets, raise, ret, modify. destruct (job_get_by_id id w); [|apply quiet_refl]. destruct (_ && _); [apply quiet_refl|]. cbn.
  eapply quiet_trans; [apply quiet_cleanup|apply quiet_fail].
Qed.

Lemma quiet_progress un line last w : quiet w (snd (export_progress un line (last, w))).
Proof. unfold export_progress. destruct line as [t|]; [|apply quiet_refl]. cbn. destruct (_ <=? _); [by apply quiet_update|apply quiet_refl]. Qed.

Lemma quiet_begin id run w : quiet w (snd (export_begin size_of md5 ffmpeg_bin hw fmt3 utf8 font mount id run w)).
Proof.
  assert (Hs : quiet w (job_update id ej_start w)) by (by apply quiet_update).
  assert (Hf : forall msg w', quiet w w' -> quiet w (job_update id (ej_fail msg) w')) by (intros msg w' H; eapply quiet_trans; [exact H|apply quiet_fail]).
  assert (Ht : forall t w', quiet w w' -> quiet w (set_xp_store t w')) by (intros t w' H; eapply quiet_trans; [exact H|apply quiet_store]).
  unfold export_begin. destruct (job_get_by_id id w) as [j0|]; [|apply quiet_refl]. cbv zeta.
  case_bool_decide; [by apply Hf|]. destruct (pick_write_disk _ _ _ _ _) as [picked t1].
  destruct (match picked with Some d => _ | None => _ end) as [disk|]; [|by apply Hf, Ht]. destruct (ru_prepare run); [by apply Hf, Ht|].
  case_bool_decide; [by apply Hf, Ht, Ht|]. destruct (cut _ _) as [st en]. destruct (ru_spawn run); [by apply Hf, Ht, Ht|]. cbn. by apply Ht, Ht.
Qed.

(** [j] is what the request [data] of [u] asked for. *)
Definition asked_by (u : Caller) (data : ExportData) (j : ExportJob) : Prop :=
  let password := strip (or_str (ed_password data) EmptyString) in
  (exists uuid, ed_camera_uuid data = Some uuid /\ camera_of_uuid uuid = Some (ej_camera_id j) /\ scoped u uuid = true) /\
  ej_requested_by_id j = cl_id u /\ ed_start_ts data = Some (ej_start_ts j) /\ ed_end_ts data = Some (ej_end_ts j) /\
  ej_start_ts j < ej_end_ts j <= ej_start_ts j + 6 * 3600 * SEC /\
  ej_watermark j = ed_watermark data /\ (ej_watermark j = true -> ej_mode j = MODE_TRANSCODE) /\ ej_watermark_text j = ed_watermark_text data /\
  (ej_mode j = MODE_COPY \/ ej_mode j = MODE_TRANSCODE) /\
  (if bool_decide (password = EmptyString) then ej_password_protected j = false
   else ej_password_protected j = true /\ ej_enc_password j = Some (encrypt password)).

Lemma asked_by_request u data j j' : request_of j = request_of j' -> asked_by u data j -> asked_by u data j'.
Proof.
  intros H. assert (E : forall A (f : ExportJob -> A), f (request_of j) = f (request_of j')) by (intros A f; by rewrite H).
  pose proof (E _ ej_camera_id) as H1. pose proof (E _ ej_requested_by_id) as H2. pose proof (E _ ej_start_ts) as H3. pose proof (E _ ej_end_ts) as H4.
  pose proof (E _ ej_watermark) as H5. pose proof (E _ ej_mode) as H6. pose proof (E _ ej_watermark_text) as H7.
  pose proof (E _ ej_password_protected) as H8. pose proof (E _ ej_enc_password) as H9. clear E H. cbn in *. unfold asked_by. by rewrite H1, H2, H3, H4, H5, H6, H7, H8, H9.
Qed.

Definition created (os : list XStep) (j : ExportJob) : Prop := exists u data broker, XCreate u data broker ∈ os /\ asked_by u data j.

(** a run under way, and where its output ends up *)
Definition taken_up (un : Underway) : Prop :=
  un_out un = out_dir_rel (ej_id (un_job un)) +:+ "/clip." +:+ ej_container (un_job un) /\
  exists st en, un_cmd un = export_cmd ffmpeg_bin hw fmt3 utf8 font (un_job un) (abs_path mount (un_disk un, un_list un))
                              (abs_path mount (un_disk un, un_out un)) st en.
Definition output_rel (un : Underway) : string :=
  if ej_password_protected (un_job un) && truthy_str (ej_enc_password (un_job un)) then out_dir_rel (ej_id (un_job un)) +:+ "/clip.zip" else un_out un.
Definition made (os : list XStep) (j : ExportJob) : Prop := exists un i run,
  XFinish i run ∈ os /\ ru_ok run = true /\ request_of (un_job un) = request_of j /\ taken_up un /\ ej_output j = Some (un_disk un, output_rel un).

Definition history_ok (os : list XStep) (s : XState) : Prop :=
  NoDup (ej_id <$> xp_jobs (fst s)) /\
  (forall j, j ∈ xp_jobs (fst s) -> ej_id j < xp_next (fst s) /\ created os j /\ (ej_status j = EX_DONE -> made os j)) /\
  (forall un, un ∈ snd s -> taken_up un /\ exists j, j ∈ xp_jobs (fst s) /\ request_of j = request_of (un_job un)).

Lemma history_later os o s : history_ok os s -> history_ok (os ++ [o]) s.
Proof.
  intros (H1 & H2 & H3). split; [done|]. split; [|done]. intros j Hj. destruct (H2 j Hj) as (Ha & (u & d & b & Hc & Hd) & Hm). split; [done|].
  split; [exists u, d, b; by rewrite elem_of_app; eauto|]. intros Hs. destruct (Hm Hs) as (un & i & run & Hin & Hr). exists un, i, run. by rewrite elem_of_app; eauto.
Qed.

Lemma history_quiet os w w' fl fl' : quiet w w' -> (forall un, un ∈ fl' -> un ∈ fl \/ taken_up un /\ exists j, j ∈ xp_jobs w' /\ request_of j = request_of (un_job un)) ->
  history_ok os (w, fl) -> history_ok os (w', fl').
Proof.
  intros [Hn (g & Hg & Hp)] Hfl (H1 & H2 & H3). cbn [fst snd] in *. unfold history_ok. cbn [fst snd]. rewrite Hn, Hg in *. split_and!.
  - replace (ej_id <$> (g <$> xp_jobs w)) with (ej_id <$> xp_jobs w); [done|]. rewrite <- list_fmap_compose. apply list_fmap_ext. intros _ j _.
    destruct (Hp j) as [Hr _]. symmetry. exact (f_equal ej_id Hr).
  - intros j' (j & -> & Hj)%list_elem_of_fmap. destruct (Hp j) as [Hr Hs], (H2 j Hj) as (Hid & (u & d & b & Hc & Ha) & Hm). split_and!.
    + by replace (ej_id (g j)) with (ej_id j) by (symmetry; exact (f_equal ej_id Hr)).
    + exists u, d, b. split; [done|]. by eapply asked_by_request.
    + intros Hd. destruct (Hs Hd) as [Hd' Ho]. destruct (Hm Hd') as (un & i & run & Hi & Hok & Hq & Ht & Hout). exists un, i, run. split_and!; congruence.
  - intros un Hun. destruct (Hfl un Hun) as [Hin|?]; [|done]. destruct (H3 un Hin) as (Ht & j & Hj & Hr). split; [done|]. exists (g j). split; [by apply list_elem_of_fmap_2|].
    destruct (Hp j). congruence.
Qed.

Notation export_create := (export_create camera_of_uuid flag encrypt new_token new_task).
Notation export_begin := (export_begin size_of md5 ffmpeg_bin hw fmt3 utf8 font mount).

(** A request is refused without a trace, or leaves one queued row. *)
Lemma export_create_row u data broker w :
  snd (export_create u data broker w) = w \/
  exists j, quiet (push_job j w) (snd (export_create u data broker w)) /\ asked_by u data j /\ ej_id j = xp_next w /\ ej_status j = EX_QUEUED.
Proof.
  unfold Export.export_create. destruct (truthy_str (ed_camera_uuid data)) eqn:Et; [|by left]. cbn [negb].
  destruct (ed_camera_uuid data) as [uuid|] eqn:Eu; [|done]. cbn [default from_option id].
  destruct (camera_of_uuid uuid) as [cam|] eqn:Ecam; [|by left]. destruct (scoped u uuid) eqn:Es; [|by left]. cbn [negb].
  destruct (ed_start_ts data) as [a|] eqn:Ea; [|by left]. destruct (ed_end_ts data) as [b|] eqn:Eb; [|by left].
  destruct (Z.leb_spec b a) as [|Hab]; [by left|]. destruct (Z.ltb_spec (6 * 3600 * SEC) (b - a)) as [|Hmax]; [by left|]. cbv zeta.
  destruct (bool_decide (or_str (ed_mode data) MODE_COPY ∈ [MODE_COPY; MODE_TRANSCODE])) eqn:Em; [|by left]. cbn [negb].
  destruct ((ed_watermark data || _) && negb flag); [by left|]. right.
  apply bool_decide_eq_true in Em. unfold bind, gets, modify, raise, ret. cbn beta iota.
  exists (new_job encrypt new_token u data cam a b (or_str (ed_mode data) MODE_COPY) (strip (or_str (ed_password data) EmptyString)) w).
  split_and!; [|unfold asked_by; cbn|done|done].
  - destruct broker; cbn [negb]; [|apply quiet_refl]. by apply quiet_update.
  - split_and!; [by exists uuid|done|done|done|lia|lia|done|by intros ->|done| |].
    + destruct (ed_watermark data); [by right|]. apply elem_of_cons in Em as [->|Em]; [by left|]. apply list_elem_of_singleton in Em. by right.
    + by case_bool_decide.
Qed.

Lemma history_push os u data broker w fl j : XCreate u data broker ∈ os -> asked_by u data j -> ej_id j = xp_next w -> ej_status j = EX_QUEUED ->
  history_ok os (w, fl) -> history_ok os (push_job j w, fl).
Proof.
  intros Hin Ha Hid Hst (H1 & H2 & H3). unfold history_ok. cbn [fst snd push_job xp_jobs xp_next] in *. split_and!.
  - rewrite fmap_app. apply NoDup_app. split; [done|]. split; [|apply NoDup_singleton]. intros x (j' & -> & Hj')%list_elem_of_fmap Hx.
    apply list_elem_of_singleton in Hx. destruct (H2 j' Hj'). lia.
  - intros j' [Hj'|Hj'%list_elem_of_singleton]%elem_of_app; [destruct (H2 j' Hj') as (? & ? & ?); split_and!; [lia|done|done]|]. subst j'.
    split; [lia|]. split; [by exists u, data, broker|]. by rewrite Hst.
  - intros un Hun. destruct (H3 un Hun) as (Ht & j' & Hj' & Hr). split; [done|]. exists j'. rewrite elem_of_app. eauto.
Qed.

(** The end of a run marks the row of its own request. *)
Lemma history_finish os i run w fl un : XFinish i run ∈ os -> un ∈ fl -> history_ok os (w, fl) -> history_ok os (export_finish un run w, fl).
Proof.
  intros Hin Hun Hok. unfold export_finish.
  assert (Hq : forall msg w1, quiet w w1 -> history_ok os (job_update (ej_id (un_job un)) (ej_fail msg) w1, fl)).
  { intros msg w1 H. eapply history_quiet; [|by left|exact Hok]. eapply quiet_trans; [exact H|apply quiet_fail]. }
  assert (Hd : forall t size, ru_ok run = true -> history_ok os (job_update (ej_id (un_job un)) (ej_done (un_disk un, output_rel un) size) (set_xp_store t w), fl)).
  { intros t size Hrun. destruct Hok as (H1 & H2 & H3). destruct (H3 un Hun) as (Ht & j0 & Hj0 & Hr0). unfold history_ok. cbn [fst snd] in *. split_and!.
    - change (xp_jobs (job_update ?i ?f ?w)) with ((fun j => if ej_id j =? i then f j else j) <$> xp_jobs w). rewrite <- list_fmap_compose.
      erewrite list_fmap_ext; [exact H1|]. intros _ j _. cbn. by destruct (_ =? _).
    - intros j' (j & -> & Hj)%list_elem_of_fmap. destruct (H2 j Hj) as (Hid & Hc & Hm). destruct (Z.eqb_spec (ej_id j) (ej_id (un_job un))) as [He|]; [|done].
      split; [exact Hid|]. split; [destruct Hc as (u & d & b & ? & ?); exists u, d, b; split; [done|]; by eapply asked_by_request; [|done]|]. intros _.
      exists un, i, run. split_and!; [done|done| |done|done]. change (request_of (un_job un) = request_of j). rewrite <- Hr0. f_equal.
      apply (nodup_key_inj ej_id (xp_jobs w)); [done..|]. rewrite He. exact (f_equal ej_id Hr0).
    - intros un' Hun'. destruct (H3 un' Hun') as (Ht' & j & Hj & Hr). split; [done|]. eexists. split; [by apply list_elem_of_fmap_2|]. by destruct (_ =? _). }
  destruct (ru_ok run) eqn:Erun; cbn [negb]; [|apply Hq; destruct (ru_partial run); [apply quiet_store|apply quiet_refl]].
  unfold output_rel in Hd. destruct (_ && _); [|by apply Hd]. destruct (ru_zip run); [apply Hq, quiet_store|by apply Hd].
Qed.

Lemma xstep_ok os o s : history_ok os s -> history_ok (os ++ [o]) (xstep s o).
Proof.
  intros Hok%(history_later _ o). assert (Hin : o ∈ os ++ [o]) by (rewrite elem_of_app, list_elem_of_singleton; by right).
  destruct s as [w fl], o as [u data broker|id run|i last line|i run|u denied id|denied|t]; cbn [xstep].
  - destruct (export_create_row u data broker w) as [->|(j & Hq & Ha & Hid & Hst)]; [done|].
    eapply history_quiet; [exact Hq|by left|]. by eapply history_push.
  - pose proof (quiet_begin id run w) as Hq. destruct (export_begin id run w) as [[un|] w1] eqn:Eb; cbn [snd] in Hq; [|by eapply history_quiet; [|by left|]].
    eapply history_quiet; [exact Hq| |exact Hok]. intros un' [->|Hun']%elem_of_cons; [right|by left].
    apply export_begin_cmd in Eb as (j0 & Hj0 & Hjob & Hout & _ & _ & Hcmd). apply List.find_some in Hj0 as [Hj0 Hid%Z.eqb_eq]. split.
    + split; [by rewrite Hout, Hjob; cbn; rewrite Hid|]. rewrite Hjob. eauto.
    + destruct Hq as [_ (g & Hg & Hp)]. rewrite Hg, Hjob. exists (g j0). split; [by apply list_elem_of_fmap_2, list_elem_of_In|]. destruct (Hp j0) as [Hr _]. exact Hr.
  - destruct (fl !! i) as [un|]; [|done]. eapply history_quiet; [apply quiet_progress|by left|done].
  - destruct (fl !! i) as [un|] eqn:Ei; [|done]. apply list_elem_of_lookup_2 in Ei. pose proof (history_finish _ i run w fl un Hin Ei Hok) as (H1 & H2 & H3).
    split_and!; [done|done|]. intros un' Hun'. apply H3. by eapply list_elem_of_delete_inv.
  - eapply history_quiet; [apply quiet_cancel|by left|done].
  - eapply history_quiet; [apply quiet_expire|by left|done].
  - eapply history_quiet; [apply quiet_store|by left|done].
Qed.

Lemma xrun_ok os w : xp_jobs w = [] -> history_ok os (xrun (w, []) os).
Proof.
  intros Hw. unfold xrun. induction os as [|o os IH] using rev_ind; [|rewrite foldl_app; by apply xstep_ok].
  unfold history_ok. cbn. rewrite Hw. split_and!; [constructor| |]; by intros ? ?%elem_of_nil.
Qed.

(** A clip is handed out only to the user who asked for it or to a superuser: the
    request is in the history, was made within the requester's camera scope, for at most
    six hours; the file was made by a run of ffmpeg for that camera and window, re-encoded
    with the watermark when one was asked for, and is the encrypted archive when a
    password was given. *)
Theorem export_reaches_its_requester w os token u j f w' :
  (forall p, encrypt p <> EmptyString) -> xp_jobs w = [] ->
  resolve_download u token (fst (xrun (w, []) os)) = (inr (j, f), w') ->
  exists c data broker un st en,
    XCreate c data broker ∈ os /\ asked_by c data j /\ (cl_id u = cl_id c \/ is_superuser (cl_subject u) = true) /\
    request_of (un_job un) = request_of j /\
    un_cmd un = export_cmd ffmpeg_bin hw fmt3 utf8 font (un_job un) (abs_path mount (un_disk un, un_list un)) (abs_path mount (un_disk un, un_out un)) st en /\
    (ed_watermark data = true -> un_cmd un = build_watermark_transcode_cmd ffmpeg_bin hw fmt3 utf8 font (abs_path mount (un_disk un, un_list un))
       (abs_path mount (un_disk un, un_out un)) st en (preset_height (ej_transcode_preset j)) (ed_watermark_text data)) /\
    f = (un_disk un, if bool_decide (strip (or_str (ed_password data) EmptyString) = EmptyString) then un_out un
                     else out_dir_rel (ej_id j) +:+ "/clip.zip").
Proof.
  intros Henc Hw Hd. pose proof (xrun_ok os w Hw) as (_ & H2 & _). destruct (xrun (w, []) os) as [w1 fl]. cbn [fst] in *.
  unfold resolve_download, bind, gets, raise, ret in Hd. destruct (job_get_by_token token w1) as [j1|] eqn:Ej; [|done].
  destruct (bool_decide (ej_status j1 = EX_DONE)) eqn:Es; [|done]. apply bool_decide_eq_true in Es. cbn [negb] in Hd.
  destruct (negb (ej_requested_by_id j1 =? cl_id u) && negb (is_superuser (cl_subject u))) eqn:Eu; [done|]. destruct (ej_output j1) as [f1|] eqn:Eo; [|done].
  destruct (disk_known _ _ && _); [|done]. injection Hd as -> -> ->. apply List.find_some in Ej as [Hj _]. apply list_elem_of_In in Hj.
  destruct (H2 j Hj) as (_ & (c & data & b & Hin & Ha) & Hm). destruct (Hm Es) as (un & i & run & _ & _ & Hr & (Hout & st & en & Hcmd) & Hf).
  exists c, data, b, un, st, en. pose proof Ha as (_ & Hby & _ & _ & _ & Hwm & Hwt & Htxt & _ & Hpw).
  assert (E : forall A (g : ExportJob -> A), g (request_of (un_job un)) = g (request_of j)) by (intros A g; by rewrite Hr).
  pose proof (E _ ej_mode) as E1. pose proof (E _ ej_watermark) as E2. pose proof (E _ ej_transcode_preset) as E3. pose proof (E _ ej_watermark_text) as E4.
  pose proof (E _ ej_password_protected) as E5. pose proof (E _ ej_enc_password) as E6. pose proof (E _ ej_id) as E7. clear E. cbn in E1, E2, E3, E4, E5, E6, E7.
  split_and!; [done|done| |done|exact Hcmd| |].
  - apply andb_false_iff in Eu as [Eu|Eu]; apply negb_false_iff in Eu; [|by right]. left. apply Z.eqb_eq in Eu. congruence.
  - intros Hd. rewrite Hcmd. unfold export_cmd. rewrite E1, E2, E3, E4, Hwm, Hd, Htxt, Hwt by congruence. reflexivity.
  - rewrite Eo in Hf. injection Hf as ->. f_equal. unfold output_rel. rewrite E5, E6, E7. case_bool_decide; [by rewrite Hpw|]. destruct Hpw as [-> ->].
    cbn. unfold truthy_str. case_bool_decide; [|done]. by destruct (Henc (strip (or_str (ed_password data) EmptyString))).
Qed.
End Histories.

(** ** Witnesses *)

(** a camera with ten seconds of footage at 0 and at 100 s *)
Definition demo_export_world : ExportWorld := {| xp_store := demo_store; xp_jobs := []; xp_next := 1; xp_draws := 0 |}.
Definition demo_ask (watermark : bool) (password : option string) : ExportData :=
  {| ed_camera_uuid := Some "cam"%string; ed_start_ts := Some (5 * SEC); ed_end_ts := Some (105 * SEC); ed_mode := Some "copy"%string;
     ed_watermark := watermark; ed_password := password; ed_container := None; ed_transcode_preset := None; ed_watermark_text := Some [79; 39; 75] |}.
Definition demo_run_ok : Run :=
  {| ru_prepare := None; ru_spawn := None; ru_out_times := []; ru_ok := true; ru_partial := false; ru_size := 42; ru_zip := None; ru_zip_size := 43 |}.
Definition demo_encrypt (p : string) : string := "gAAAA" +:+ p.
Definition demo_fmt (z : Z) : string := pretty z.
Definition demo_utf8 (l : list Z) : string := "text".
Definition demo_mount (d : Z) : string := "/mnt/" +:+ pretty d +:+ "/".
Definition demo_export_token (n : nat) : string := "tok".
Definition demo_step : XState -> XStep -> XState :=
  xstep demo_cam true demo_encrypt demo_export_token demo_export_token (fun _ => 1) demo_md5 "ffmpeg" [] demo_fmt demo_utf8 "font" demo_mount.
Definition demo_xrun : list XStep -> XState :=
  xrun demo_cam true demo_encrypt demo_export_token demo_export_token (fun _ => 1) demo_md5 "ffmpeg" [] demo_fmt demo_utf8 "font" demo_mount (demo_export_world, []).

Definition demo_asked (watermark : bool) (password : option string) : ExportWorld :=
  fst (demo_xrun [XCreate demo_superuser (demo_ask watermark password) true]).
Definition demo_taken (w : ExportWorld) : option Underway * ExportWorld :=
  export_begin (fun _ => 1) demo_md5 "ffmpeg" [] demo_fmt demo_utf8 "font" demo_mount 1 demo_run_ok w.

Lemma demo_one_recording : one_recording 1 demo_store.
Proof.
  assert (H : forall s, s ∈ t_segments demo_store -> sg_camera_id s = 1 -> s = demo_seg 31 1 0 \/ s = demo_seg 32 1 (100 * SEC)).
  { intros s Hs Hc. unfold demo_store in Hs. cbn [t_segments] in Hs. rewrite !elem_of_cons in Hs.
    destruct Hs as [->|[->|[->|[->|[->|Hs%elem_of_nil]]]]]; [by left|by right| | | |done]; discriminate Hc. }
  split; [apply (bool_decide_unpack _); by vm_compute|]. split.
  - intros s Hs Hc _. destruct (H s Hs Hc) as [->| ->]; reflexivity.
  - intros s s' Hs Hs' Hne Hc Hc' _ _. destruct (H s Hs Hc) as [->| ->], (H s' Hs' Hc') as [->| ->]; [done| | |done]; [left|right]; vm_compute; discriminate.
Qed.

Lemma export_cuts_exactly_the_window_witness :
  exists un w' st en, demo_taken (demo_asked false None) = (Some un, w') /\ 0 <= st < en /\
    un_cmd un = build_concat_copy_cmd "ffmpeg" demo_fmt (abs_path demo_mount (un_disk un, un_list un)) (abs_path demo_mount (un_disk un, un_out un)) st en.
Proof.
  eexists _, _.
  edestruct (export_cuts_exactly_the_window (fun _ => 1) demo_md5 "ffmpeg" [] demo_fmt demo_utf8 "font" demo_mount 1 demo_run_ok (demo_asked false None))
    as (st & en & Hcmd & Hst & _); [vm_compute; reflexivity|vm_compute; reflexivity|vm_compute; reflexivity|exact demo_one_recording|].
  exists st, en. split; [vm_compute; reflexivity|]. split; [exact Hst|exact Hcmd].
Defined.

Definition demo_exported (password : option string) : list XStep :=
  [XCreate demo_superuser (demo_ask true password) true; XBegin 1 demo_run_ok; XFinish 0 demo_run_ok].

Lemma export_reaches_its_requester_witness :
  exists j f w', resolve_download demo_superuser "tok" (fst (demo_xrun (demo_exported (Some "pw"%string)))) = (inr (j, f), w') /\
    snd f = "exports/1/clip.zip"%string /\
    exists un st en, un_cmd un = build_watermark_transcode_cmd "ffmpeg" [] demo_fmt demo_utf8 "font" (abs_path demo_mount (un_disk un, un_list un))
      (abs_path demo_mount (un_disk un, un_out un)) st en 1080 (Some [79; 39; 75]).
Proof.
  eexists _, _, _. split; [vm_compute; reflexivity|]. split; [reflexivity|].
  edestruct (export_reaches_its_requester demo_cam true demo_encrypt demo_export_token demo_export_token (fun _ => 1) demo_md5 "ffmpeg" [] demo_fmt
    demo_utf8 "font" demo_mount demo_export_world (demo_exported (Some "pw"%string)) "tok" demo_superuser)
    as (c & data & b & un & st & en & Hin & Hask & _ & Hreq & _ & Hcmd & Hf); [done|reflexivity|vm_compute; reflexivity|].
  unfold demo_exported in Hin. rewrite !elem_of_cons in Hin. destruct Hin as [Hin|[Hin|[Hin|Hin%elem_of_nil]]]; [injection Hin as -> -> ->|discriminate Hin..|destruct Hin].
  exists un, st, en. exact (Hcmd eq_refl).
Defined.

(** The cut spans a gap: from 5 s into the first file to 5 s into the second. *)
Example export_across_a_gap :
  cut {| ej_id := 1; ej_camera_id := 1; ej_requested_by_id := 5; ej_start_ts := 5 * SEC; ej_end_ts := 105 * SEC; ej_mode := "copy"; ej_container := "mp4";
         ej_transcode_preset := None; ej_watermark := false; ej_watermark_text := None; ej_password_protected := false; ej_enc_password := None;
         ej_status := EX_QUEUED; ej_progress := 0; ej_celery_task_id := None; ej_output := None; ej_output_size := None; ej_download_token := "";
         ej_error_message := None; ej_expires_at := 0 |} [demo_seg 31 1 0; demo_seg 32 1 (100 * SEC)] = (5 * SEC, 15 * SEC).
Proof. reflexivity. Qed.

(** ** What goes wrong *)

(** A run does not look at its row again: a job cancelled while ffmpeg was at work (and
    whose worker was not stopped) is done afterwards, and its clip can be downloaded. *)
Example cancelled_export_still_finishes :
  let w := fst (demo_xrun [XCreate demo_superuser (demo_ask false None) true; XBegin 1 demo_run_ok; XCancel demo_superuser (fun _ => false) 1; XFinish 0 demo_run_ok]) in
  ej_status <$> xp_jobs w = [EX_DONE] /\ is_Some (match fst (resolve_download demo_superuser "tok" w) with inr r => Some r | inl _ => None end).
Proof. vm_compute. split; [reflexivity|eexists; reflexivity]. Qed.

Definition demo_zip_fails : Run :=
  {| ru_prepare := None; ru_spawn := None; ru_out_times := []; ru_ok := true; ru_partial := false; ru_size := 42; ru_zip := Some "zip"%string; ru_zip_size := 0 |}.
Definition demo_later (days : Z) (w : ExportWorld) : XStep :=
  let t := xp_store w in
  XElse {| t_now := t_now t + days * 86400 * SEC; t_redis := t_redis t; t_cameras := t_cameras t; t_segments := t_segments t; t_recordings := t_recordings t;
           t_policies := t_policies t; t_disks := t_disks t; t_files := t_files t; t_reconciled := t_reconciled t |}.

(** The cleanup knows only the output of finished jobs: when making the archive fails, the
    clip of an export with a password stays on the disk unencrypted, and the expiry of
    the job does not remove it. *)
Example failed_archive_leaves_the_clip :
  let s := demo_xrun [XCreate demo_superuser (demo_ask false (Some "pw"%string)) true; XBegin 1 demo_run_ok; XFinish 0 demo_zip_fails] in
  let s' := demo_step (demo_step s (demo_later 2 (fst s))) (XExpire (fun _ => false)) in
  ej_status <$> xp_jobs (fst s') = [EX_EXPIRED] /\ ej_password_protected <$> xp_jobs (fst s') = [true] /\
  existsb (fun d => bool_decide ((d, "exports/1/clip.mp4"%string) ∈ t_files (xp_store (fst s')))) [7; 8] = true.
Proof. vm_compute. by split_and!. Qed.

(** The archive of an export with a password is downloaded under the name of a video. *)
Example protected_export_named_as_video :
  match fst (resolve_download demo_superuser "tok" (fst (demo_xrun (demo_exported (Some "pw"%string))))) with
  | inr (j, f) => (snd f, download_name j) = ("exports/1/clip.zip", "axp_clip_1.mp4")%string
  | inl _ => False
  end.
Proof. vm_compute. reflexivity. Qed.

(** What a user writes on the picture cannot leave its quotes. *)
Lemma safe_watermark_text_safe text c : c ∈ safe_watermark_text text -> c <> 39 /\ c <> 92 /\ c <> 37 /\ c <> 59.
Proof.
  assert (H : forall c, watermark_char c = true -> c <> 39 /\ c <> 92 /\ c <> 37 /\ c <> 59).
  { intros c0 Hc. split_and!; intros ->; discriminate Hc. }
  unfold safe_watermark_text. destruct (take 100 _) eqn:E; intros Hc; [|rewrite <- E in Hc; apply H; by apply elem_of_take in Hc as (i & Hi%list_elem_of_lookup_2 & _); apply elem_of_filter_In in Hi as [_ ?]].
  apply H. unfold AEROX_PROTECT in Hc. revert c Hc. apply (Forall_forall (fun c => watermark_char c = true)). repeat (constructor; [reflexivity|]). constructor.
Qed.
