(* ===== verification/Jobs.v ===== *)
(** * Timelapse and archive jobs

    src/server/controller/timelapse.py, task/list/timelapse.py, model/timelapse_job.py;
    controller/archive.py, service/archiver.py, model/archive_job.py, model/archive_target.py,
    driver/archive.py.

    The world is the store with the jobs, the archive targets, the task queue of the timelapses
    (due time and job) and what archives hold.  Parameters: cameras by uuid and id, the feature
    flag, encryption, segment.container, what one run meets of the system and of ffmpeg, what
    uploads do.  Media positions are microseconds without rounding; numbers of a request come
    after [safe_int]; listings, the task ids and the columns event_ids, source_type, expires_at
    are not kept. *)

From stdpp Require Import pretty.
From Stdlib Require Import Ascii.
From S2P Require Import Prelude PyStr Redis Permission Token Storage Sharing Export.
Local Open Scope Z_scope.
Local Open Scope list_scope.

Record TimelapseJob := {
  tj_id : Z; tj_camera_id : Z; tj_range_start : Z; tj_range_end : Z; tj_speed_factor : Z; tj_fps : Z (* params.get('fps', 30) *);
  tj_status : string; tj_progress : Z; tj_output : option (Z * string); tj_size : option Z; tj_error : option string
}.
Record ArchiveTarget := { tg_id : Z; tg_name : string; tg_type : string; tg_config : string; tg_secrets : option string; tg_enabled : bool; tg_deleted_at : option Z }.
Record ArchivedItem := { ai_segment_id : Z; ai_remote : string; ai_bytes : Z; ai_start_ts : Z }.
Record ArchiveJob := {
  aj_id : Z; aj_target_id : Z; aj_source_ref : string; aj_status : string; aj_progress : Z; aj_bytes_total : Z; aj_bytes_done : Z;
  aj_manifest : option (list ArchivedItem); aj_error : option string
}.
Record JobWorld := {
  jb_store : Store; jb_timelapses : list TimelapseJob; jb_queue : list (Z * Z); jb_targets : list ArchiveTarget; jb_archives : list ArchiveJob;
  jb_stored : gmap (Z * string) Z (* per target and remote name: the segment it holds *); jb_next : Z
}.
Definition J (A : Type) : Type := M JobWorld exn A.
Definition jb_now (w : JobWorld) : Z := t_now (jb_store w).
Definition set_jb_store (t : Store) (w : JobWorld) : JobWorld :=
  {| jb_store := t; jb_timelapses := jb_timelapses w; jb_queue := jb_queue w; jb_targets := jb_targets w; jb_archives := jb_archives w; jb_stored := jb_stored w; jb_next := jb_next w |}.
Definition set_timelapses (l : list TimelapseJob) (w : JobWorld) : JobWorld :=
  {| jb_store := jb_store w; jb_timelapses := l; jb_queue := jb_queue w; jb_targets := jb_targets w; jb_archives := jb_archives w; jb_stored := jb_stored w; jb_next := jb_next w |}.
Definition set_queue (l : list (Z * Z)) (w : JobWorld) : JobWorld :=
  {| jb_store := jb_store w; jb_timelapses := jb_timelapses w; jb_queue := l; jb_targets := jb_targets w; jb_archives := jb_archives w; jb_stored := jb_stored w; jb_next := jb_next w |}.
Definition set_targets (l : list ArchiveTarget) (w : JobWorld) : JobWorld :=
  {| jb_store := jb_store w; jb_timelapses := jb_timelapses w; jb_queue := jb_queue w; jb_targets := l; jb_archives := jb_archives w; jb_stored := jb_stored w; jb_next := jb_next w |}.
Definition set_archives (l : list ArchiveJob) (w : JobWorld) : JobWorld :=
  {| jb_store := jb_store w; jb_timelapses := jb_timelapses w; jb_queue := jb_queue w; jb_targets := jb_targets w; jb_archives := l; jb_stored := jb_stored w; jb_next := jb_next w |}.
Definition put_stored (k : Z * string) (seg : Z) (w : JobWorld) : JobWorld :=
  {| jb_store := jb_store w; jb_timelapses := jb_timelapses w; jb_queue := jb_queue w; jb_targets := jb_targets w; jb_archives := jb_archives w; jb_stored := <[k := seg]> (jb_stored w); jb_next := jb_next w |}.
Definition bump_id (w : JobWorld) : JobWorld :=
  {| jb_store := jb_store w; jb_timelapses := jb_timelapses w; jb_queue := jb_queue w; jb_targets := jb_targets w; jb_archives := jb_archives w; jb_stored := jb_stored w; jb_next := jb_next w + 1 |}.

(** ** Timelapses *)

Definition tl_get (id : Z) (w : JobWorld) : option TimelapseJob := List.find (fun j => tj_id j =? id) (jb_timelapses w).
Definition tl_update (id : Z) (f : TimelapseJob -> TimelapseJob) (w : JobWorld) : JobWorld :=
  set_timelapses ((fun j => if tj_id j =? id then f j else j) <$> jb_timelapses w) w.
Definition tl_set (status : string) (progress : Z) (output : option (Z * string)) (size : option Z) (error : option string) (j : TimelapseJob) : TimelapseJob :=
  {| tj_id := tj_id j; tj_camera_id := tj_camera_id j; tj_range_start := tj_range_start j; tj_range_end := tj_range_end j; tj_speed_factor := tj_speed_factor j;
     tj_fps := tj_fps j; tj_status := status; tj_progress := progress; tj_output := output; tj_size := size; tj_error := error |}.
Definition tl_status (status : string) (j : TimelapseJob) : TimelapseJob := tl_set status (tj_progress j) (tj_output j) (tj_size j) (tj_error j) j.
Definition tl_at (status : string) (pct : Z) (j : TimelapseJob) : TimelapseJob := tl_set status pct (tj_output j) (tj_size j) (tj_error j) j.
Definition tl_fail (msg : string) (j : TimelapseJob) : TimelapseJob := tl_set "failed" (tj_progress j) (tj_output j) (tj_size j) (Some msg) j.
Definition tl_done (out : Z * string) (size : Z) (j : TimelapseJob) : TimelapseJob := tl_set "done" 100 (Some out) (Some size) (tj_error j) j.

Record TimelapseData := { td_camera_uuid : string; td_start : option Z; td_end : option Z; td_speed : Z; td_fps : option Z }.

(** What one run meets: an error of makedirs or of writing the list, or of starting ffmpeg; its
    progress lines; whether it ended well with an output, and its size. *)
Record TlRun := { lr_prepare : option string; lr_spawn : option string; lr_out_times : list (option Z); lr_ok : bool; lr_size : Z }.
Record TlUnderway := { lu_job : TimelapseJob; lu_disk : Z; lu_entries : list string; lu_cmd : list string }.

Section Timelapse.
Context (camera_of_uuid : string -> option Z) (uuid_of_camera : Z -> option string).
Context (md5 : string -> Z) (ffmpeg_bin : string) (hwaccel_prefix : list string) (mount : Z -> string).

(** [create]; [broker]: the task could be queued *)
Definition tl_create (u : Caller) (d : TimelapseData) (broker : bool) : J TimelapseJob :=
  match camera_of_uuid (td_camera_uuid d) with
  | None => raise RowNotFoundException
  | Some cam =>
      if negb (scoped u (td_camera_uuid d)) then raise NoPermissionException else
      match td_start d, td_end d with
      | Some a, Some b =>
          if b <=? a then raise (InvalidParameterException "valid range_start/range_end (epoch ms) required") else
          if (td_speed d <? 1) || (3600 <? td_speed d) then raise (InvalidParameterException "speed_factor out of range") else
          let! id := gets jb_next in
          let j := {| tj_id := id; tj_camera_id := cam; tj_range_start := a; tj_range_end := b; tj_speed_factor := td_speed d; tj_fps := default 30 (td_fps d);
                      tj_status := "queued"; tj_progress := 0; tj_output := None; tj_size := None; tj_error := None |} in
          modify (fun w => bump_id (set_timelapses (jb_timelapses w ++ [j]) w)) ;;;
          if negb broker then raise (ValueError "broker") else
          modify (fun w => set_queue (jb_queue w ++ [(jb_now w, id)]) w) ;;;
          ret j
      | _, _ => raise (InvalidParameterException "valid range_start/range_end (epoch ms) required")
      end
  end.

(** [_owned] *)
Definition tl_owned (u : Caller) (id : Z) : J TimelapseJob :=
  let! o := gets (tl_get id) in
  match o with
  | None => raise RowNotFoundException
  | Some j => match uuid_of_camera (tj_camera_id j) with
              | None => raise RowNotFoundException             (* Camera.get_by_id *)
              | Some uuid => if negb (scoped u uuid) then raise NoPermissionException else ret j
              end
  end.
(** [cancel]; a task that runs is asked to stop, which it may or may not hear *)
Definition tl_cancel (u : Caller) (id : Z) : J unit := let! _ := tl_owned u id in modify (tl_update id (tl_status "canceled")).
Definition tl_download (u : Caller) (id : Z) : J (Z * string) :=
  let! j := tl_owned u id in
  match tj_output j with
  | Some out =>
      if negb (bool_decide (tj_status j = "done"%string)) then raise RowNotFoundException else
      let! there := gets (fun w => disk_known (jb_store w) (fst out) && bool_decide (out ∈ t_files (jb_store w))) in
      if there : bool then ret out else raise RowNotFoundException
  | None => raise RowNotFoundException
  end.

(** [build_timelapse_cmd] *)
Definition build_timelapse_cmd (list_file out_path : string) (speed fps : Z) : list string :=
  ([ffmpeg_bin; "-hide_banner"; "-loglevel"; "error"]%string ++ hwaccel_prefix ++
   ["-f"; "concat"; "-safe"; "0"; "-i"; list_file; "-an"; "-vf"; "setpts=PTS/" +:+ pretty (Z.max 1 speed) +:+ ",fps=" +:+ pretty fps;
    "-c:v"; "libx264"; "-preset"; "veryfast"; "-crf"; "23"; "-pix_fmt"; "yuv420p"; "-progress"; "pipe:1"; "-y"; out_path]%string).

Definition tl_dir (id : Z) : string := "timelapse/" +:+ pretty id.
Definition countdown (remaining : Z) : Z := Z.min (Z.max (5 * SEC) remaining) (3600 * SEC).
(** the lines of list.txt *)
Definition tl_entries (t : Store) (segs : list Segment) : list string :=
  omap (fun s => if disk_known t (sg_disk_id s) && bool_decide ((sg_disk_id s, sg_rel_path s) ∈ t_files t)
                 then Some (concat_entry (abs_path mount (sg_disk_id s, sg_rel_path s))) else None) segs.

(** [run_timelapse] up to the start of ffmpeg; [None]: the run is over *)
Definition tl_begin (id : Z) (run : TlRun) (w : JobWorld) : option TlUnderway * JobWorld :=
  match tl_get id w with
  | None => (None, w)
  | Some j0 =>
      if bool_decide (tj_status j0 = "canceled"%string) then (None, w) else
      if jb_now w <? tj_range_end j0 then
        (None, tl_update id (tl_at "queued" 0) (set_queue (jb_queue w ++ [(jb_now w + countdown (tj_range_end j0 - jb_now w), id)]) w)) else
      let w1 := tl_update id (tl_at "running" 0) w in
      let j := tl_at "running" 0 j0 in
      let fail msg w := (None, tl_update id (tl_fail msg) w) in
      let t := jb_store w1 in
      let segments := get_range (tj_camera_id j) (tj_range_start j) (tj_range_end j) (Some "main"%string) t in
      if bool_decide (segments = []) then fail "no_segments"%string w1 else
      let '(picked, t1) := pick_write_disk md5 pretty (tj_camera_id j) None t in
      let w2 := set_jb_store t1 w1 in
      match (match picked with Some d => Some d | None => head (get_writable ["cache"; "record"]%string t1) end) with
      | None => fail "no_output_disk"%string w2
      | Some disk =>
          match lr_prepare run with
          | Some msg => fail msg w2
          | None =>
              let w3 := set_jb_store (set_files (t_files t1 ∪ {[ (dk_id disk, tl_dir id +:+ "/list.txt") ]}) t1) w2 in
              match lr_spawn run with
              | Some msg => fail msg w3
              | None =>
                  (Some {| lu_job := j; lu_disk := dk_id disk; lu_entries := tl_entries t1 segments;
                           lu_cmd := build_timelapse_cmd (abs_path mount (dk_id disk, tl_dir id +:+ "/list.txt"))
                                       (abs_path mount (dk_id disk, tl_dir id +:+ "/timelapse.mp4")) (tj_speed_factor j) (tj_fps j) |}, w3)
              end
          end
      end
  end.

Definition tl_progress (un : TlUnderway) (line : option Z) (st : Z * JobWorld) : Z * JobWorld :=
  match line with
  | None => st
  | Some t =>
      let source := Z.max SEC (tj_range_end (lu_job un) - tj_range_start (lu_job un)) in
      let pct := Z.min 99 (Z.quot (t * tj_speed_factor (lu_job un) * 100) source) in
      if fst st + 5 <=? pct then (pct, tl_update (tj_id (lu_job un)) (fun j => tl_at (tj_status j) pct j) (snd st)) else st
  end.

Definition tl_finish (un : TlUnderway) (run : TlRun) (w : JobWorld) : JobWorld :=
  let id := tj_id (lu_job un) in
  let t := jb_store w in
  let out := (lu_disk un, tl_dir id +:+ "/timelapse.mp4") in
  if negb (lr_ok run) then tl_update id (tl_fail "ffmpeg_failed") w else
  tl_update id (tl_done out (lr_size run)) (set_jb_store (set_files ((t_files t ∪ {[ out ]}) ∖ {[ (lu_disk un, tl_dir id +:+ "/list.txt") ]}) t) w).

Definition run_timelapse (id : Z) (run : TlRun) (w : JobWorld) : JobWorld :=
  match tl_begin id run w with
  | (None, w1) => w1
  | (Some un, w1) => tl_finish un run (snd (foldl (fun st l => tl_progress un l st) (0, w1) (lr_out_times run)))
  end.
End Timelapse.

(** ** Archives *)

Definition TYPES : list string := ["s3"; "smb"; "local"]%string.
Definition target_get (id : Z) (w : JobWorld) : option ArchiveTarget := List.find (fun t => (tg_id t =? id) && bool_decide (tg_deleted_at t = None)) (jb_targets w).
Definition target_update (id : Z) (f : ArchiveTarget -> ArchiveTarget) (w : JobWorld) : JobWorld :=
  set_targets ((fun t => if tg_id t =? id then f t else t) <$> jb_targets w) w.
Definition ar_get (id : Z) (w : JobWorld) : option ArchiveJob := List.find (fun j => aj_id j =? id) (jb_archives w).
Definition ar_update (id : Z) (f : ArchiveJob -> ArchiveJob) (w : JobWorld) : JobWorld := set_archives ((fun j => if aj_id j =? id then f j else j) <$> jb_archives w) w.
Definition aj_set (status : string) (progress total bytes : Z) (manifest : option (list ArchivedItem)) (error : option string) (j : ArchiveJob) : ArchiveJob :=
  {| aj_id := aj_id j; aj_target_id := aj_target_id j; aj_source_ref := aj_source_ref j; aj_status := status; aj_progress := progress; aj_bytes_total := total;
     aj_bytes_done := bytes; aj_manifest := manifest; aj_error := error |}.
Definition aj_fail (msg : string) (j : ArchiveJob) : ArchiveJob := aj_set "failed" (aj_progress j) (aj_bytes_total j) (aj_bytes_done j) (aj_manifest j) (Some msg) j.
Definition aj_run (j : ArchiveJob) : ArchiveJob := aj_set "running" 0 (aj_bytes_total j) (aj_bytes_done j) (aj_manifest j) (aj_error j) j.
Definition aj_step (pct bytes : Z) (j : ArchiveJob) : ArchiveJob := aj_set (aj_status j) pct (aj_bytes_total j) bytes (aj_manifest j) (aj_error j) j.
Definition aj_done (items : list ArchivedItem) (bytes : Z) (j : ArchiveJob) : ArchiveJob := aj_set "done" 100 bytes (aj_bytes_done j) (Some items) (aj_error j) j.

Record TargetData := { gd_name : option string; gd_type : option string; gd_config : option string; gd_secrets : option string; gd_enabled : option bool }.

(** '%05d' of a natural number *)
Fixpoint zeros (n : nat) : string := match n with O => EmptyString | S n => String "0"%char (zeros n) end.
Definition pad5 (i : Z) : string := zeros (5 - String.length (pretty i)) +:+ pretty i.
Definition remote_name (recording_id : Z) (i : Z) (mpegts : bool) : string :=
  "recording_" +:+ pretty recording_id +:+ "/seg_" +:+ pad5 i +:+ "." +:+ (if mpegts then "ts" else "mp4").

Section Archives.
Context (flag : bool) (encrypt : string -> string) (mpegts : Z -> bool).
(** an upload by a driver: an error or the bytes sent *)
Context (send : ArchiveTarget -> Z * string -> string -> string + Z).

Definition guard_archiving : J unit := if flag then ret tt else raise NoPermissionException.
(** [set_secrets] *)
Definition secrets_of (s : option string) (old : option string) : option string := if truthy_str s then Some (encrypt (default ""%string s)) else old.
Definition create_target (d : TargetData) : J ArchiveTarget :=
  guard_archiving ;;;
  if negb (truthy_str (gd_name d)) || negb (bool_decide (default ""%string (gd_type d) ∈ TYPES)) then raise (InvalidParameterException "name and valid type (s3/smb/local) required") else
  let! id := gets jb_next in
  let t := {| tg_id := id; tg_name := default ""%string (gd_name d); tg_type := default ""%string (gd_type d); tg_config := or_str (gd_config d) EmptyString;
              tg_secrets := secrets_of (gd_secrets d) None; tg_enabled := default true (gd_enabled d); tg_deleted_at := None |} in
  modify (fun w => bump_id (set_targets (jb_targets w ++ [t]) w)) ;;; ret t.
Definition target_with (d : TargetData) (t : ArchiveTarget) : ArchiveTarget :=
  {| tg_id := tg_id t; tg_name := default (tg_name t) (gd_name d); tg_type := default (tg_type t) (gd_type d); tg_config := default (tg_config t) (gd_config d);
     tg_secrets := secrets_of (gd_secrets d) (tg_secrets t); tg_enabled := default (tg_enabled t) (gd_enabled d); tg_deleted_at := tg_deleted_at t |}.
Definition update_target (id : Z) (d : TargetData) : J ArchiveTarget :=
  guard_archiving ;;;
  let! o := gets (target_get id) in
  match o with None => raise RowNotFoundException | Some t => modify (target_update id (target_with d)) ;;; ret (target_with d t) end.
Definition delete_target (id : Z) : J unit :=
  guard_archiving ;;;
  let! o := gets (target_get id) in
  match o with
  | None => raise RowNotFoundException
  | Some _ => modify (fun w => target_update id (fun t => {| tg_id := tg_id t; tg_name := tg_name t; tg_type := tg_type t; tg_config := tg_config t; tg_secrets := tg_secrets t;
                tg_enabled := tg_enabled t; tg_deleted_at := Some (jb_now w) |}) w)
  end.
Definition ar_create (target_id : option Z) (source_ref : option string) (broker : bool) : J Z :=
  guard_archiving ;;;
  if negb (truthy_Z target_id) || negb (truthy_str source_ref) then raise (InvalidParameterException "target_id and source_ref required") else
  let! o := gets (target_get (default 0 target_id)) in
  match o with
  | Some t =>
      if negb (tg_enabled t) then raise (InvalidParameterException "target not found or disabled") else
      let! id := gets jb_next in
      modify (fun w => bump_id (set_archives (jb_archives w ++ [{| aj_id := id; aj_target_id := tg_id t; aj_source_ref := default ""%string source_ref; aj_status := "queued"; aj_progress := 0;
        aj_bytes_total := 0; aj_bytes_done := 0; aj_manifest := None; aj_error := None |}]) w)) ;;;
      if negb broker then raise (ValueError "broker") else ret id
  | None => raise (InvalidParameterException "target not found or disabled")
  end.

(** [driver.archive.upload]: a name that is there is overwritten *)
Definition upload (t : ArchiveTarget) (src : Z * string) (seg : Z) (remote : string) (w : JobWorld) : (string + Z) * JobWorld :=
  if negb (bool_decide (tg_type t ∈ TYPES)) then (inl ("unknown archive target type: " +:+ tg_type t), w) else
  match send t src remote with inl e => (inl e, w) | inr n => (inr n, put_stored (tg_id t, remote) seg w) end.

Definition there (t : Store) (s : Segment) : bool := disk_known t (sg_disk_id s) && bool_decide ((sg_disk_id s, sg_rel_path s) ∈ t_files t).
(** the loop over the segments from the [i]-th of [n] on *)
Fixpoint archive_segments (job recording n : Z) (t : ArchiveTarget) (i : Z) (segs : list Segment) (items : list ArchivedItem) (bytes : Z) (w : JobWorld)
    : (string + list ArchivedItem * Z) * JobWorld :=
  match segs with
  | [] => (inr (items, bytes), w)
  | s :: r =>
      if negb (there (jb_store w) s) then archive_segments job recording n t (i + 1) r items bytes w else
      let remote := remote_name recording i (mpegts (sg_id s)) in
      match upload t (sg_disk_id s, sg_rel_path s) (sg_id s) remote w with
      | (inl e, w1) => (inl e, w1)
      | (inr k, w1) =>
          archive_segments job recording n t (i + 1) r (items ++ [{| ai_segment_id := sg_id s; ai_remote := remote; ai_bytes := k; ai_start_ts := sg_start_ts s |}])
            (bytes + k) (ar_update job (aj_step (Z.min 99 (Z.quot ((i + 1) * 100) n)) (bytes + k)) w1)
      end
  end.
Definition archive_window (rec : Recording) (t : Store) : list Segment :=
  get_range (rc_camera_id rec) (rc_start_ts rec) (default (rc_start_ts rec) (rc_end_ts rec)) (Some "main"%string) t.
(** [archiver.run] *)
Definition archive_run (id : Z) : J unit := fun w =>
  match ar_get id w with
  | None => (inr tt, w)
  | Some j =>
      let fail msg w := (inr tt, ar_update id (aj_fail msg) w) in
      match target_get (aj_target_id j) w with
      | None => fail "target_unavailable"%string w
      | Some t =>
          if negb (tg_enabled t) then fail "target_unavailable"%string w else
          match py_int (aj_source_ref j) with
          | None => (inl (ValueError "invalid literal for int()"), w)
          | Some ref =>
              match List.find (fun r => rc_id r =? ref) (t_recordings (jb_store w)) with
              | None => fail "recording_not_found"%string w
              | Some rec =>
                  let segs := archive_window rec (jb_store w) in
                  if bool_decide (segs = []) then fail "no_segments"%string w else
                  match archive_segments id (rc_id rec) (Z.of_nat (length segs)) t 0 segs [] 0 (ar_update id aj_run w) with
                  | (inl e, w1) => fail e w1
                  | (inr (items, bytes), w1) => (inr tt, ar_update id (aj_done items bytes) w1)
                  end
              end
          end
      end
  end.
End Archives.

(** ** Names of archived files *)

Lemma digits_zeros n s : digits 0 true (zeros n +:+ s) = digits 0 true s.
Proof. induction n as [|n IH]; [done|]. cbn [zeros]. change (String "0"%char (zeros n) +:+ s) with (String "0"%char (zeros n +:+ s)). cbn [digits]. exact IH. Qed.
Lemma digits_pretty (i : Z) : 0 <= i -> digits 0 true (pretty i) = Some i.
Proof.
  intros Hi. destruct i as [|p|p]; [done| |lia]. change (pretty (Z.pos p)) with (pretty_N_go (N.pos p) ""). by rewrite digits_pretty_go.
Qed.
Lemma pad5_value (i : Z) : 0 <= i -> digits 0 true (pad5 i) = Some i.
Proof. intros Hi. unfold pad5. by rewrite digits_zeros, digits_pretty. Qed.
Lemma pad5_no_dot (i : Z) : all_chars (fun c => negb (bool_decide (c = "."%char))) (pad5 i) = true.
Proof.
  unfold pad5. rewrite all_chars_app. apply andb_true_iff. split; [by induction (5 - _)%nat|].
  eapply all_chars_impl; [|apply pretty_Z_chars]. intros c Hc. case_bool_decide; [subst; by vm_compute in Hc|done].
Qed.
Lemma remote_name_inj rec i j a b : 0 <= i -> 0 <= j -> remote_name rec i a = remote_name rec j b -> i = j.
Proof.
  intros Hi Hj H. unfold remote_name in H. apply (inj (String.append "recording_")), (inj (String.append (pretty rec))), (inj (String.append "/seg_")) in H.
  assert (Hd : forall i x, split_once "." (pad5 i +:+ "." +:+ x) = Some (pad5 i, x)) by (intros k x; apply split_once_at, pad5_no_dot).
  pose proof (Hd i (if a then "ts" else "mp4")%string) as E. rewrite H, Hd in E. injection E as E _.
  pose proof (pad5_value i Hi) as Hv. rewrite <- E, pad5_value in Hv by done. by injection Hv.
Qed.

(** ** What an archive holds *)

Section ArchiveTheory.
Context (mpegts : Z -> bool) (send : ArchiveTarget -> Z * string -> string -> string + Z).
Notation archive_segments := (archive_segments mpegts send).
Notation archive_run := (archive_run mpegts send).

(** The files of a window that are there, each under the name of its place in the window. *)
Fixpoint expected (rec i : Z) (segs : list Segment) (t : Store) : list (Z * string) :=
  match segs with
  | [] => []
  | s :: r => if there t s then (sg_id s, remote_name rec i (mpegts (sg_id s))) :: expected rec (i + 1) r t else expected rec (i + 1) r t
  end.
Definition item_of (it : ArchivedItem) : Z * string := (ai_segment_id it, ai_remote it).

Lemma expected_names rec i segs t p : p ∈ expected rec i segs t -> exists k b, i <= k /\ snd p = remote_name rec k b.
Proof.
  revert i. induction segs as [|s r IH]; intros i; cbn; [by intros ?%elem_of_nil|].
  destruct (there t s); [|intros (k & b & ? & ?)%IH; exists k, b; split; [lia|done]].
  intros [->|Hp]%elem_of_cons; [by exists i, (mpegts (sg_id s))|]. apply IH in Hp as (k & b & ? & ?). exists k, b. split; [lia|done].
Qed.

Lemma archive_segments_ends job rec n t i segs items bytes w items' bytes' w' :
  0 <= i -> archive_segments job rec n t i segs items bytes w = (inr (items', bytes'), w') ->
  jb_store w' = jb_store w /\
  exists more, items' = items ++ more /\ item_of <$> more = expected rec i segs (jb_store w) /\ bytes' = bytes + sum_on ai_bytes more /\
    (forall it, it ∈ more -> jb_stored w' !! (tg_id t, ai_remote it) = Some (ai_segment_id it)) /\
    (forall k, k ∉ (fun it => (tg_id t, ai_remote it)) <$> more -> jb_stored w' !! k = jb_stored w !! k).
Proof.
  revert i items bytes w. induction segs as [|s r IH]; intros i items bytes w Hi H; cbn in H.
  { injection H as <- <- <-. split; [done|]. exists []. rewrite app_nil_r. unfold sum_on. cbn. split_and!; try done; [lia|by intros ? ?%elem_of_nil]. }
  cbn [expected]. destruct (there (jb_store w) s) eqn:Et; cbn [negb] in H; [|apply IH in H; [exact H|lia]].
  unfold upload in H. destruct (negb _); [done|]. destruct (send t _ _) as [e|k]; [done|].
  apply IH in H; [|lia]. destruct H as (Hs & more & -> & He & -> & Hst & Hrest). split; [exact Hs|].
  set (it := {| ai_segment_id := sg_id s; ai_remote := remote_name rec i (mpegts (sg_id s)); ai_bytes := k; ai_start_ts := sg_start_ts s |}) in *.
  assert (Hnew : (tg_id t, ai_remote it) ∉ (fun it => (tg_id t, ai_remote it)) <$> more).
  { intros (it' & E & Hin)%list_elem_of_fmap. assert (item_of it' ∈ expected rec (i + 1) r (jb_store w)) as (k' & b & Hk & Hn)%expected_names.
    { change (jb_store w) with (jb_store (ar_update job (aj_step (Z.min 99 (Z.quot ((i + 1) * 100) n)) (bytes + k)) (put_stored (tg_id t, remote_name rec i (mpegts (sg_id s))) (sg_id s) w))).
      rewrite <- He. by apply list_elem_of_fmap_2. }
    injection E as E. cbn in Hn. rewrite <- E in Hn. apply remote_name_inj in Hn; lia. }
  exists (it :: more). split_and!; [by rewrite <- app_assoc|cbn; f_equal; exact He|rewrite sum_on_cons; cbn [ai_bytes it]; lia| |].
  - intros it' [->|Hin]%elem_of_cons; [|by apply Hst]. rewrite Hrest by done. cbn. apply lookup_insert_eq.
  - intros k' Hk'. rewrite Hrest by (cbn in Hk'; set_solver). cbn. apply lookup_insert_ne. cbn in Hk'. intros <-. apply Hk'. by left.
Qed.

Lemma ar_get_update id f w : (forall j, aj_id (f j) = aj_id j) -> ar_get id (ar_update id f w) = f <$> ar_get id w.
Proof.
  intros Hf. unfold ar_get, ar_update. cbn [jb_archives set_archives]. induction (jb_archives w) as [|j l IH]; [done|]. cbn.
  destruct (aj_id j =? id) eqn:E; [by rewrite Hf, E|]. by rewrite E.
Qed.
Lemma archive_segments_row job rec n t i segs items bytes w r w' :
  archive_segments job rec n t i segs items bytes w = (r, w') ->
  jb_targets w' = jb_targets w /\ (forall j, ar_get job w = Some j -> exists pct b, ar_get job w' = Some (aj_step pct b j)).
Proof.
  assert (Hid : forall j, exists pct b, j = aj_step pct b j) by (intros []; eexists _, _; reflexivity).
  revert i items bytes w. induction segs as [|s l IH]; intros i items bytes w H; cbn in H.
  { injection H as _ <-. split; [done|]. intros j Hj. destruct (Hid j) as (p & b & E). exists p, b. congruence. }
  destruct (negb _); [by eapply IH|]. unfold upload in H.
  destruct (negb _); [injection H as _ <-|destruct (send t _ _) as [e|k]; [injection H as _ <-|]].
  1,2: split; [done|]; intros j Hj; destruct (Hid j) as (p & b & E); exists p, b; congruence.
  apply IH in H as [Ht H]. split; [exact Ht|]. intros j Hj. apply (H (aj_step (Z.min 99 (Z.quot ((i + 1) * 100) n)) (bytes + k) j)).
  rewrite ar_get_update by done. change (ar_get job (put_stored _ _ w)) with (ar_get job w). by rewrite Hj.
Qed.

(** Every run ends its job, with an error or a manifest; only a reference that is no number
    raises, and leaves the job as it was. *)
Theorem archive_run_ends id w r w' j :
  archive_run id w = (r, w') -> ar_get id w = Some j ->
  (r = inr tt /\ exists j', ar_get id w' = Some j' /\ aj_status j' ∈ ["done"; "failed"]%string) \/
  (py_int (aj_source_ref j) = None /\ w' = w /\ exists msg, r = inl (ValueError msg)).
Proof.
  intros H Hj. unfold archive_run in H. rewrite Hj in H.
  assert (Hfail : forall msg w0 j0, ar_get id w0 = Some j0 -> exists j', ar_get id (ar_update id (aj_fail msg) w0) = Some j' /\ aj_status j' ∈ ["done"; "failed"]%string).
  { intros msg w0 j0 E. rewrite ar_get_update by done. rewrite E. eexists. split; [done|]. set_solver. }
  destruct (target_get _ w) as [t|]; [|left; injection H as <- <-; eauto]. destruct (negb _); [left; injection H as <- <-; eauto|].
  destruct (py_int (aj_source_ref j)) as [ref|]; [|right; injection H as <- <-; eauto].
  destruct (List.find _ _) as [rec|]; [|left; injection H as <- <-; eauto]. case_bool_decide; [left; injection H as <- <-; eauto|]. left.
  destruct (archive_segments _ _ _ _ _ _ _ _ _) as [[e|[items bytes]] w1] eqn:E; apply archive_segments_row in E as [_ E];
    destruct (E (aj_run j)) as (pct & b & Hj1); try (by rewrite ar_get_update, Hj by done); injection H as <- <-; (split; [done|]); [by eapply Hfail|].
  rewrite ar_get_update by done. rewrite Hj1. eexists. split; [done|]. set_solver.
Qed.

(** C21: The manifest of a job that is done lists, in the order of time, the files that were there of the
    recording's window (the sound main segments of its camera that meet it), each under its own name, and at the end of the run the target holds
    each of these files under that name. *)
Theorem done_archive_lists_its_files id w r w' j j' :
  archive_run id w = (r, w') -> ar_get id w = Some j -> aj_status j <> "done"%string -> ar_get id w' = Some j' -> aj_status j' = "done"%string ->
  exists rec t items, target_get (aj_target_id j) w = Some t /\ py_int (aj_source_ref j) = Some (rc_id rec) /\ rec ∈ t_recordings (jb_store w) /\
    aj_manifest j' = Some items /\ aj_bytes_total j' = sum_on ai_bytes items /\
    item_of <$> items = expected (rc_id rec) 0 (archive_window rec (jb_store w)) (jb_store w) /\
    StronglySorted (fun s s' => sg_start_ts s <= sg_start_ts s') (archive_window rec (jb_store w)) /\
    (forall s, s ∈ archive_window rec (jb_store w) <-> s ∈ t_segments (jb_store w) /\ sg_camera_id s = rc_camera_id rec /\
       sg_corrupt s = false /\ sg_stream_role s = "main"%string /\
       sg_start_ts s < default (rc_start_ts rec) (rc_end_ts rec) /\ rc_start_ts rec < sg_end_ts s) /\
    forall it, it ∈ items -> jb_stored w' !! (tg_id t, ai_remote it) = Some (ai_segment_id it).
Proof.
  intros H Hj Hnd Hj' Hd. unfold archive_run in H. rewrite Hj in H.
  assert (Hfail : forall msg w0 j0, ar_get id w0 = Some j0 -> ar_get id (ar_update id (aj_fail msg) w0) = Some j' -> False).
  { intros msg w0 j0 E0 E. rewrite ar_get_update, E0 in E by done. injection E as <-. discriminate Hd. }
  destruct (target_get _ w) as [t|]; [|injection H as _ <-; by destruct (Hfail _ _ _ Hj Hj')]. destruct (negb _); [injection H as _ <-; by destruct (Hfail _ _ _ Hj Hj')|].
  destruct (py_int (aj_source_ref j)) as [ref|]; [|injection H as _ <-; congruence].
  destruct (List.find _ _) as [rec|] eqn:Er; [|injection H as _ <-; by destruct (Hfail _ _ _ Hj Hj')].
  apply find_some in Er as [Hrec%list_elem_of_In <-%Z.eqb_eq]. case_bool_decide; [injection H as _ <-; by destruct (Hfail _ _ _ Hj Hj')|].
  destruct (archive_segments _ _ _ _ _ _ _ _ _) as [[e|[items bytes]] w1] eqn:E; pose proof (archive_segments_row _ _ _ _ _ _ _ _ _ _ _ E) as [_ Erow];
    destruct (Erow (aj_run j)) as (pct & b & Hj1); try (by rewrite ar_get_update, Hj by done); injection H as _ <-; [by destruct (Hfail _ _ _ Hj1 Hj')|].
  rewrite ar_get_update, Hj1 in Hj' by done. injection Hj' as <-.
  apply archive_segments_ends in E as (_ & more & Hi & He & Hb & Hst & _); [|lia]. cbn in Hi. subst more.
  exists rec, t, items. split_and!; try done; [apply sort_on_sorted|].
  intros s. unfold archive_window. rewrite elem_of_get_range. naive_solver.
Qed.
End ArchiveTheory.

(** ** What a timelapse shows, and when *)

Section TimelapseTheory.
Context (md5 : string -> Z) (ffmpeg_bin : string) (hwaccel_prefix : list string) (mount : Z -> string).
Notation tl_begin := (tl_begin md5 ffmpeg_bin hwaccel_prefix mount).

Lemma tl_get_update id f w : (forall j, tj_id (f j) = tj_id j) -> tl_get id (tl_update id f w) = f <$> tl_get id w.
Proof.
  intros Hf. unfold tl_get, tl_update. cbn [jb_timelapses set_timelapses]. induction (jb_timelapses w) as [|j l IH]; [done|]. cbn.
  destruct (tj_id j =? id) eqn:E; [by rewrite Hf, E|]. by rewrite E.
Qed.

(** Without a policy a choice of disk changes nothing. *)
Lemma pick_without_policy cam t : snd (pick_write_disk md5 pretty cam None t) = t.
Proof. unfold pick_write_disk. by destruct (write_pool t). Qed.

(** ffmpeg is started only once the whole range is past, on the files of the camera's segments
    that meet the range and are there, in the order of time, at the speed that was asked for. *)
Theorem timelapse_shows_its_range id run w un w' :
  tl_begin id run w = (Some un, w') ->
  exists j, tl_get id w = Some j /\ tj_status j <> "canceled"%string /\ tj_range_end j <= jb_now w /\
    lu_entries un = tl_entries mount (jb_store w) (get_range (tj_camera_id j) (tj_range_start j) (tj_range_end j) (Some "main"%string) (jb_store w)) /\
    StronglySorted (fun s s' => sg_start_ts s <= sg_start_ts s') (get_range (tj_camera_id j) (tj_range_start j) (tj_range_end j) (Some "main"%string) (jb_store w)) /\
    (forall s, s ∈ get_range (tj_camera_id j) (tj_range_start j) (tj_range_end j) (Some "main"%string) (jb_store w) ->
       s ∈ t_segments (jb_store w) /\ sg_camera_id s = tj_camera_id j /\ sg_stream_role s = "main"%string /\
       sg_start_ts s < tj_range_end j /\ tj_range_start j < sg_end_ts s) /\
    (exists src out, lu_cmd un = build_timelapse_cmd ffmpeg_bin hwaccel_prefix src out (tj_speed_factor j) (tj_fps j)) /\
    tl_get id w' = Some (tl_at "running" 0 j).
Proof.
  intros H. unfold Jobs.tl_begin in H. destruct (tl_get id w) as [j|] eqn:Ej; [|done]. destruct (bool_decide_reflect (tj_status j = "canceled"%string)) as [|Hc]; [done|].
  destruct (Z.ltb_spec (jb_now w) (tj_range_end j)) as [|Hend]; [done|].
  cbn [tj_camera_id tj_range_start tj_range_end tl_at tl_set jb_store tl_update set_timelapses] in H.
  destruct (bool_decide (get_range _ _ _ _ _ = [])); [done|]. pose proof (pick_without_policy (tj_camera_id j) (jb_store w)) as Hp.
  destruct (pick_write_disk _ _ _ _ _) as [picked t1]. cbn in Hp. subst t1.
  destruct (match picked with Some d => Some d | None => _ end) as [disk|]; [|done]. destruct (lr_prepare run); [done|]. destruct (lr_spawn run); [done|].
  injection H as <- <-. exists j. split_and!; try done; [apply sort_on_sorted| |by eexists _, _|].
  - intros s Hs. apply elem_of_get_range in Hs. naive_solver.
  - change (tl_get id (tl_update id (tl_at "running" 0) w) = Some (tl_at "running" 0 j)). rewrite tl_get_update by done. by rewrite Ej.
Qed.

(** Whoever downloads a timelapse may view its camera; so may whoever cancels one. *)
Theorem timelapse_needs_scope (uuid_of_camera : Z -> option string) u id w :
  (forall out w', tl_download uuid_of_camera u id w = (inr out, w') -> w' = w /\
     exists j uuid, tl_get id w = Some j /\ uuid_of_camera (tj_camera_id j) = Some uuid /\ scoped u uuid = true /\ tj_output j = Some out /\ tj_status j = "done"%string /\ out ∈ t_files (jb_store w)) /\
  (forall w', tl_cancel uuid_of_camera u id w = (inr tt, w') ->
     exists j uuid, tl_get id w = Some j /\ uuid_of_camera (tj_camera_id j) = Some uuid /\ scoped u uuid = true /\ w' = tl_update id (tl_status "canceled") w).
Proof.
  assert (Ho : forall j w', tl_owned uuid_of_camera u id w = (inr j, w') -> w' = w /\ tl_get id w = Some j /\ exists uuid, uuid_of_camera (tj_camera_id j) = Some uuid /\ scoped u uuid = true).
  { intros j w' H. unfold tl_owned in H. apply bind_inr in H as (o & w1 & [-> ->]%gets_inr & H). destruct (tl_get id w) as [j0|]; [|discriminate H].
    destruct (uuid_of_camera _) as [uuid|] eqn:Eu; [|discriminate H]. destruct (scoped u uuid) eqn:Es; [|discriminate H].
    apply ret_inr in H as [-> ->]. split_and!; try done. exists uuid. split; [congruence|done]. }
  split.
  - intros out w' H. unfold tl_download in H. apply bind_inr in H as (j & w1 & (-> & Hj & uuid & Hu & Hs)%Ho & H).
    destruct (tj_output j) as [o|] eqn:Eo; [|discriminate H]. destruct (bool_decide_reflect (tj_status j = "done"%string)); [|discriminate H]. cbn [negb] in H.
    apply bind_inr in H as (b & w2 & [-> ->]%gets_inr & H). destruct (disk_known _ _ && _) eqn:Eb; [|discriminate H]. apply ret_inr in H as [-> ->].
    apply andb_true_iff in Eb as [_ Eb%bool_decide_eq_true]. split; [done|]. by exists j, uuid.
  - intros w' H. unfold tl_cancel in H. apply bind_inr in H as (j & w1 & (-> & Hj & uuid & Hu & Hs)%Ho & H). apply modify_inr in H as ->. by exists j, uuid.
Qed.

(** A run before the end puts the task back into the queue; the worker takes it up when it is due. *)
Definition due_again (w : JobWorld) : option Z := fst <$> last (jb_queue w).
Definition at_clock (now : Z) (w : JobWorld) : JobWorld :=
  let t := jb_store w in
  set_jb_store {| t_now := now; t_redis := t_redis t; t_cameras := t_cameras t; t_segments := t_segments t; t_recordings := t_recordings t; t_policies := t_policies t;
                  t_disks := t_disks t; t_files := t_files t; t_reconciled := t_reconciled t |} w.
Fixpoint attempts (n : nat) (id : Z) (run : TlRun) (w : JobWorld) : option TlUnderway * JobWorld :=
  match n, tl_begin id run w with
  | S n, (None, w1) => match tl_get id w1, due_again w1 with
                       | Some j, Some due => if bool_decide (tj_status j = "queued"%string) then attempts n id run (at_clock due w1) else (None, w1)
                       | _, _ => (None, w1)
                       end
  | _, r => r
  end.

Lemma tl_begin_runs id run w j :
  tl_get id w = Some j -> tj_status j <> "canceled"%string -> tj_range_end j <= jb_now w ->
  jb_now (snd (tl_begin id run w)) = jb_now w /\
  exists j', tl_get id (snd (tl_begin id run w)) = Some j' /\ tj_status j' = match fst (tl_begin id run w) with Some _ => "running"%string | None => "failed"%string end.
Proof.
  intros Hj Hc He. unfold Jobs.tl_begin. rewrite Hj, bool_decide_eq_false_2 by done. destruct (Z.ltb_spec (jb_now w) (tj_range_end j)); [lia|].
  cbn [tj_camera_id tj_range_start tj_range_end tl_at tl_set jb_store tl_update set_timelapses].
  assert (Hrun : tl_get id (tl_update id (tl_at "running" 0) w) = Some (tl_at "running" 0 j)) by (rewrite tl_get_update by done; by rewrite Hj).
  assert (Hfail : forall msg w1, tl_get id w1 = Some (tl_at "running" 0 j) -> exists j', tl_get id (tl_update id (tl_fail msg) w1) = Some j' /\ tj_status j' = "failed"%string).
  { intros msg w1 E. rewrite tl_get_update by done. rewrite E. by eexists. }
  destruct (bool_decide (get_range _ _ _ _ _ = [])); [split; [done|by apply Hfail]|].
  pose proof (pick_without_policy (tj_camera_id j) (jb_store w)) as Hp. destruct (pick_write_disk _ _ _ _ _) as [picked t1]. cbn in Hp. subst t1.
  destruct (match picked with Some d => Some d | None => _ end) as [disk|]; [|split; [done|by apply Hfail]].
  destruct (lr_prepare run); [split; [done|by apply Hfail]|]. destruct (lr_spawn run); [split; [done|by apply Hfail]|].
  split; [done|]. by exists (tl_at "running" 0 j).
Qed.

Lemma tl_begin_defers id run w j :
  tl_get id w = Some j -> tj_status j <> "canceled"%string -> jb_now w < tj_range_end j ->
  exists w1, tl_begin id run w = (None, w1) /\ tl_get id w1 = Some (tl_at "queued" 0 j) /\ due_again w1 = Some (jb_now w + countdown (tj_range_end j - jb_now w)).
Proof.
  intros Hj Hc He. unfold Jobs.tl_begin. rewrite Hj, bool_decide_eq_false_2 by done. destruct (Z.ltb_spec (jb_now w) (tj_range_end j)); [|lia].
  eexists. split; [done|]. split; [rewrite tl_get_update by done; change (tl_get id (set_queue _ w)) with (tl_get id w); by rewrite Hj|].
  unfold due_again. cbn. by rewrite last_snoc.
Qed.

(** A timelapse of a range that is not past is put off by an hour at most and taken up again
    until the range is past; then it is made, or fails with an error. *)
Theorem deferred_timelapse_runs n id run w j :
  tl_get id w = Some j -> tj_status j <> "canceled"%string -> tj_range_end j - jb_now w <= Z.of_nat n * (3600 * SEC) ->
  tj_range_end j <= jb_now (snd (attempts n id run w)) /\
  exists j', tl_get id (snd (attempts n id run w)) = Some j' /\
    tj_status j' = match fst (attempts n id run w) with Some _ => "running"%string | None => "failed"%string end.
Proof.
  revert w j. induction n as [|n IH]; intros w j Hj Hc Hn.
  { cbn [attempts]. destruct (tl_begin_runs id run w j Hj Hc ltac:(lia)) as [Hnow Hres]. rewrite Hnow. split; [lia|done]. }
  cbn [attempts]. destruct (Z.le_gt_cases (tj_range_end j) (jb_now w)) as [He|He].
  - destruct (tl_begin_runs id run w j Hj Hc He) as [Hnow (j' & Hj' & Hs)]. destruct (tl_begin id run w) as [[un|] w1]; cbn [fst snd] in *; [rewrite Hnow; eauto|].
    rewrite Hj'. replace (bool_decide (tj_status j' = "queued"%string)) with false by (by rewrite Hs). destruct (due_again w1); cbn [fst snd]; rewrite Hnow; eauto.
  - destruct (tl_begin_defers id run w j Hj Hc He) as (w1 & -> & Hj1 & Hd). rewrite Hj1, Hd, bool_decide_eq_true_2 by done.
    apply (IH (at_clock _ w1) (tl_at "queued" 0 j)); [exact Hj1|done|]. cbn [tl_at tl_set tj_range_end].
    change (jb_now (at_clock (jb_now w + countdown (tj_range_end j - jb_now w)) w1)) with (jb_now w + countdown (tj_range_end j - jb_now w)).
    unfold countdown. assert (0 < SEC) by done. nia.
Qed.
End TimelapseTheory.

(** ** Witnesses *)

(** Camera 1 has two segments, both on disk, and a recording over both. *)
Definition demo_jobs : JobWorld :=
  {| jb_store := set_recordings (t_recordings demo_store ++ [new_recording 60 1 "manual" "protected" 0 (Some (110 * SEC)) None; new_recording 61 1 "manual" "protected" (101 * SEC) None None]) demo_store;
     jb_timelapses := []; jb_queue := []; jb_targets := [{| tg_id := 5; tg_name := "nas"; tg_type := "local"; tg_config := ""; tg_secrets := None; tg_enabled := true; tg_deleted_at := None |}];
     jb_archives := []; jb_stored := ∅; jb_next := 100 |}.
Definition demo_send (t : ArchiveTarget) (src : Z * string) (remote : string) : string + Z := inr 60.
Definition demo_archived (ref : string) (w : JobWorld) : JobWorld := snd (archive_run (fun _ => true) demo_send (jb_next w) (snd (ar_create true (Some 5) (Some ref) true w))).

Lemma archive_run_ends_witness : exists j', ar_get 100 (demo_archived "60" demo_jobs) = Some j' /\ aj_status j' ∈ ["done"; "failed"]%string.
Proof.
  destruct (archive_run (fun _ => true) demo_send 100 (snd (ar_create true (Some 5) (Some "60"%string) true demo_jobs))) as [r w'] eqn:E.
  destruct (ar_get 100 (snd (ar_create true (Some 5) (Some "60"%string) true demo_jobs))) as [j|] eqn:Ej; [|vm_compute in Ej; discriminate Ej].
  assert (w' = demo_archived "60" demo_jobs) as <- by (change (demo_archived "60" demo_jobs) with (snd (archive_run (fun _ => true) demo_send 100 (snd (ar_create true (Some 5) (Some "60"%string) true demo_jobs)))); by rewrite E).
  destruct (archive_run_ends _ _ _ _ _ _ _ E Ej) as [[_ H]|[Hp _]]; [exact H|]. vm_compute in Ej. injection Ej as <-. discriminate Hp.
Defined.

Lemma done_archive_lists_its_files_witness :
  jb_stored (demo_archived "60" demo_jobs) !! (5, "recording_60/seg_00000.ts"%string) = Some 31 /\
  jb_stored (demo_archived "60" demo_jobs) !! (5, "recording_60/seg_00001.ts"%string) = Some 32.
Proof.
  set (w0 := snd (ar_create true (Some 5) (Some "60"%string) true demo_jobs)).
  destruct (ar_get 100 w0) as [j|] eqn:Ej; [|vm_compute in Ej; discriminate Ej].
  destruct (ar_get 100 (demo_archived "60" demo_jobs)) as [j'|] eqn:Ej'; [|vm_compute in Ej'; discriminate Ej'].
  assert (Hs : aj_status j <> "done"%string) by (vm_compute in Ej; injection Ej as <-; discriminate).
  assert (Hs' : aj_status j' = "done"%string) by (vm_compute in Ej'; by injection Ej' as <-).
  destruct (done_archive_lists_its_files (fun _ => true) demo_send 100 w0 (inr tt) (demo_archived "60" demo_jobs) j j' ltac:(vm_compute; reflexivity) Ej Hs Ej' Hs') as (rec & t & items & _).
  split; vm_compute; reflexivity.
Defined.

Definition demo_timelapse (a b : Z) : JobWorld :=
  snd (tl_create demo_cam demo_superuser {| td_camera_uuid := "cam"; td_start := Some a; td_end := Some b; td_speed := 60; td_fps := None |} true demo_jobs).
Definition demo_tl_run : TlRun := {| lr_prepare := None; lr_spawn := None; lr_out_times := [Some SEC]; lr_ok := true; lr_size := 7 |}.
Definition demo_begin (w : JobWorld) : option TlUnderway * JobWorld := tl_begin demo_md5 "ffmpeg" [] demo_mount 100 demo_tl_run w.

Lemma timelapse_shows_its_range_witness :
  match fst (demo_begin (demo_timelapse 0 (200 * SEC))) with Some un => length (lu_entries un) = 2%nat | None => False end.
Proof.
  destruct (demo_begin (demo_timelapse 0 (200 * SEC))) as [[un|] w'] eqn:E; [|vm_compute in E; discriminate E].
  destruct (timelapse_shows_its_range demo_md5 "ffmpeg" [] demo_mount 100 demo_tl_run _ un w' E) as (j & Hj & _ & _ & He & _).
  cbn [fst]. rewrite He. vm_compute in Hj. injection Hj as <-. vm_compute. reflexivity.
Defined.

(** A range that ends two hours from now: three attempts. *)
Lemma deferred_timelapse_runs_witness :
  let now := 10 * 86400 * SEC in
  let '(r, w') := attempts demo_md5 "ffmpeg" [] demo_mount 2 100 demo_tl_run (demo_timelapse 0 (now + 7200 * SEC)) in
  now + 7200 * SEC <= jb_now w' /\ is_Some r.
Proof.
  cbv zeta. set (now := 10 * 86400 * SEC). destruct (tl_get 100 (demo_timelapse 0 (now + 7200 * SEC))) as [j|] eqn:Ej; [|vm_compute in Ej; discriminate Ej].
  assert (Hj : tj_status j <> "canceled"%string /\ tj_range_end j = now + 7200 * SEC) by (vm_compute in Ej; injection Ej as <-; split; [discriminate|reflexivity]).
  pose proof (deferred_timelapse_runs demo_md5 "ffmpeg" [] demo_mount 2 100 demo_tl_run (demo_timelapse 0 (now + 7200 * SEC)) j Ej (proj1 Hj)) as [H1 _];
    [rewrite (proj2 Hj); vm_compute; discriminate|].
  rewrite (proj2 Hj) in H1. destruct (attempts _ _ _ _ _ _ _ _) as [r w'] eqn:E. split; [exact H1|].
  vm_compute in E. injection E as <- _. by eexists.
Defined.

(** ** What the jobs do not do *)

(** Names count the segments that are left: after retention took the first one, archiving the
    recording again writes the second over the archived first, whose manifest still names it. *)
Lemma archive_again_overwrites :
  let w1 := demo_archived "60" demo_jobs in
  let w2 := set_jb_store (delete_segment (fun _ => false) (demo_seg 31 1 0) (jb_store w1)) w1 in
  jb_stored w1 !! (5, "recording_60/seg_00000.ts"%string) = Some 31 /\
  jb_stored (demo_archived "60" w2) !! (5, "recording_60/seg_00000.ts"%string) = Some 32.
Proof. by vm_compute. Qed.

(** A recording that still runs is archived at its first instant only. *)
Lemma running_recording_archives_an_instant :
  (sg_id <$> archive_window (new_recording 61 1 "manual" "protected" (101 * SEC) None None) (jb_store demo_jobs)) = [32] /\
  archive_window (new_recording 61 1 "manual" "protected" (100 * SEC) None None) (jb_store demo_jobs) = [].
Proof. by vm_compute. Qed.

(** A job whose reference is no number stays queued for good. *)
Lemma bad_reference_stays_queued :
  (aj_status <$> ar_get 100 (demo_archived "sixty" demo_jobs)) = Some "queued"%string.
Proof. by vm_compute. Qed.

(** An edit may give a target any type; its jobs fail. *)
Lemma target_type_checked_once :
  let d := {| gd_name := None; gd_type := Some "ftp"; gd_config := None; gd_secrets := None; gd_enabled := None |}%string in
  let w := snd (update_target true (fun s => s) 5 d demo_jobs) in
  (tg_type <$> target_get 5 w) = Some "ftp"%string /\ (aj_status <$> ar_get 100 (demo_archived "60" w)) = Some "failed"%string.
Proof. by vm_compute. Qed.

(** A timelapse leaves the sub stream of its camera out. *)
Example timelapse_shows_the_main_stream :
  let sub := {| sg_id := 36; sg_camera_id := 1; sg_disk_id := 7; sg_rel_path := sg_rel_path (demo_seg 31 1 0); sg_start_ts := 0; sg_end_ts := 10 * SEC; sg_duration_ms := 10000;
     sg_size_bytes := 60; sg_reason := "continuous"; sg_storage_tier := "record"; sg_stream_role := "sub"; sg_corrupt := false |} in
  let w := demo_timelapse 0 (90 * SEC) in
  let w := set_jb_store (set_segments (sub :: t_segments (jb_store w)) (jb_store w)) w in
  match fst (demo_begin w) with Some un => length (lu_entries un) = 1%nat | None => False end.
Proof. by vm_compute. Qed.

(** A timelapse cancelled while ffmpeg runs and does not hear it is done all the same. *)
Lemma cancelled_timelapse_still_finishes :
  match demo_begin (demo_timelapse 0 (200 * SEC)) with
  | (Some un, w) =>
      let w1 := snd (tl_cancel demo_uuid demo_superuser 100 w) in
      (tj_status <$> tl_get 100 w1) = Some "canceled"%string /\ (tj_status <$> tl_get 100 (tl_finish un demo_tl_run w1)) = Some "done"%string
  | (None, _) => False
  end.
Proof. by vm_compute. Qed.
