(* ===== verification/Edge.v ===== *)
(** * Filling gaps from a camera's own storage

    src/server/service/edge_recording.py, model/edge_import_job.py,
    controller/edge_recording.py, task/list/edge_import.py.

    The world is the store with the table of import jobs.  Parameters: the camera rows the
    scan reads, what the device finds and downloads, makedirs, the broker.  The loop over
    the merged intervals is that of the playback planner. *)

From stdpp Require Import pretty.
From S2P Require Import Prelude PyStr Redis Permission Token Storage EventPipeline Indexer Playback Sharing Export.
Local Open Scope Z_scope.
Local Open Scope list_scope.

Definition EDGE_QUEUED : string := "queued".
Definition EDGE_RUNNING : string := "running".
Definition EDGE_DONE : string := "done".
Definition EDGE_FAILED : string := "failed".
Definition MIN_GAP_SECONDS : Z := 2.
Definition AUTO_WINDOW_HOURS : Z := 6.
Definition MAX_RANGE_HOURS : Z := 24.

Record EdgeJob := {
  eg_id : Z;
  eg_camera_id : Z;
  eg_range_start : Z;
  eg_range_end : Z;
  eg_status : string;
  eg_progress : Z;
  eg_clips_found : Z;
  eg_clips_imported : Z;
  eg_bytes_done : Z;
  eg_manifest : option (list (Z * Z * Z * string));
  eg_error_message : option string
}.

Record EdgeWorld := { dg_store : Store; dg_jobs : list EdgeJob; dg_next : Z }.
Definition dg_now (w : EdgeWorld) : Z := t_now (dg_store w).
Definition set_dg_store (t : Store) (w : EdgeWorld) : EdgeWorld := {| dg_store := t; dg_jobs := dg_jobs w; dg_next := dg_next w |}.

(** ** The row *)

Definition new_edge_job (id camera_id start end_ : Z) : EdgeJob :=
  {| eg_id := id; eg_camera_id := camera_id; eg_range_start := start; eg_range_end := end_; eg_status := EDGE_QUEUED; eg_progress := 0;
     eg_clips_found := 0; eg_clips_imported := 0; eg_bytes_done := 0; eg_manifest := None; eg_error_message := None |}.
Definition edge_job_create (camera_id start end_ : Z) (w : EdgeWorld) : EdgeJob * EdgeWorld :=
  let j := new_edge_job (dg_next w) camera_id start end_ in
  (j, {| dg_store := dg_store w; dg_jobs := dg_jobs w ++ [j]; dg_next := dg_next w + 1 |}).
Definition edge_job_get (id : Z) (w : EdgeWorld) : option EdgeJob := List.find (fun j => eg_id j =? id) (dg_jobs w).
Definition edge_update (id : Z) (f : EdgeJob -> EdgeJob) (w : EdgeWorld) : EdgeWorld :=
  {| dg_store := dg_store w; dg_jobs := (fun j => if eg_id j =? id then f j else j) <$> dg_jobs w; dg_next := dg_next w |}.

Definition eg_set (status : string) (progress found imported bytes : Z) (manifest : option (list (Z * Z * Z * string))) (error : option string) (j : EdgeJob) : EdgeJob :=
  {| eg_id := eg_id j; eg_camera_id := eg_camera_id j; eg_range_start := eg_range_start j; eg_range_end := eg_range_end j; eg_status := status;
     eg_progress := progress; eg_clips_found := found; eg_clips_imported := imported; eg_bytes_done := bytes; eg_manifest := manifest; eg_error_message := error |}.
Definition eg_run (j : EdgeJob) : EdgeJob :=
  eg_set EDGE_RUNNING 0 (eg_clips_found j) (eg_clips_imported j) (eg_bytes_done j) (eg_manifest j) (eg_error_message j) j.
Definition eg_fail (msg : string) (j : EdgeJob) : EdgeJob :=
  eg_set EDGE_FAILED (eg_progress j) (eg_clips_found j) (eg_clips_imported j) (eg_bytes_done j) (eg_manifest j) (Some msg) j.
Definition eg_no_gaps (j : EdgeJob) : EdgeJob := eg_set EDGE_DONE 100 0 0 (eg_bytes_done j) (Some []) None j.
Definition eg_found (n : Z) (j : EdgeJob) : EdgeJob :=
  eg_set (eg_status j) (eg_progress j) n (eg_clips_imported j) (eg_bytes_done j) (eg_manifest j) (eg_error_message j) j.
Definition eg_nothing (j : EdgeJob) : EdgeJob := eg_set EDGE_DONE 100 (eg_clips_found j) 0 (eg_bytes_done j) (Some []) (eg_error_message j) j.
Definition eg_step (progress imported bytes : Z) (j : EdgeJob) : EdgeJob :=
  eg_set (eg_status j) progress (eg_clips_found j) imported bytes (eg_manifest j) (eg_error_message j) j.
Definition eg_finish (imported bytes : Z) (manifest : list (Z * Z * Z * string)) (j : EdgeJob) : EdgeJob :=
  eg_set EDGE_DONE 100 (eg_clips_found j) imported bytes (Some manifest) None j.

(** ** Gaps *)

(** [sorted] on pairs *)
Definition pair_le (p q : Z * Z) : bool := (fst p <? fst q) || ((fst p =? fst q) && (snd p <=? snd q)).
Fixpoint insert_pair (p : Z * Z) (l : list (Z * Z)) : list (Z * Z) :=
  match l with [] => [p] | q :: r => if pair_le p q then p :: q :: r else q :: insert_pair p r end.
Definition sort_pairs (l : list (Z * Z)) : list (Z * Z) := foldr insert_pair [] l.

(** [_merge]; [cur] is [merged[-1]] *)
Fixpoint merge_from (cur : Z * Z) (l : list (Z * Z)) : list (Z * Z) :=
  match l with
  | [] => [cur]
  | (s, e) :: r => if s <=? snd cur then merge_from (fst cur, Z.max (snd cur) e) r else cur :: merge_from (s, e) r
  end.
Definition merge_intervals (l : list (Z * Z)) : list (Z * Z) := match sort_pairs l with [] => [] | p :: r => merge_from p r end.

Definition covered_in (camera_id start end_ : Z) (t : Store) : list (Z * Z) :=
  (fun s => (Z.max (sg_start_ts s) start, Z.min (sg_end_ts s) end_)) <$> get_range camera_id start end_ (Some "main"%string) t.
Definition holes (camera_id start end_ : Z) (t : Store) : list (Z * Z) := find_gaps (merge_intervals (covered_in camera_id start end_ t)) start end_.
Definition long_enough (g : Z * Z) : bool := MIN_GAP_SECONDS * SEC <=? snd g - fst g.
Definition compute_gaps (camera_id start end_ : Z) (t : Store) : list (Z * Z) :=
  if end_ <=? start then [] else List.filter long_enough (holes camera_id start end_ t).

(** ** The import *)

Record Clip := { cp_start : Z; cp_end : Z; cp_uri : string }.
Definition clip_overlaps (c : Clip) (g : Z * Z) : bool := (cp_start c <? snd g) && (fst g <? cp_end c).

Definition edge_rel_path (camera_id : Z) (c : Clip) : string := pretty camera_id +:+ "/edge/edge-" +:+ pretty (cp_start c / 1000) +:+ ".mp4".
Definition edge_segment (id camera_id disk_id size : Z) (c : Clip) : Segment :=
  {| sg_id := id; sg_camera_id := camera_id; sg_disk_id := disk_id; sg_rel_path := edge_rel_path camera_id c; sg_start_ts := cp_start c;
     sg_end_ts := cp_end c; sg_duration_ms := (cp_end c - cp_start c) / 1000; sg_size_bytes := size; sg_reason := "edge";
     sg_storage_tier := "record"; sg_stream_role := "main"; sg_corrupt := false |}.

(** what a run meets: whether the camera is still there, what the device answers *)
Record EdgeRun := {
  er_camera : bool;
  er_search : string + list Clip;           (* inl: it raised *)
  er_mkdir : bool;                          (* false: OSError *)
  er_download : Clip -> option Z            (* None: it raised *)
}.

Record Imported := { im_manifest : list (Z * Z * Z * string); im_bytes : Z; im_count : Z }.

Section Importing.
Context (md5 : string -> Z).

(** one clip: index, what was imported so far, the world *)
Definition import_one (job_id camera_id disk_id : Z) (total : Z) (download : Clip -> option Z) (acc : Z * (Imported * EdgeWorld)) (c : Clip)
    : Z * (Imported * EdgeWorld) :=
  let '(idx, (im, w)) := acc in
  let path := edge_rel_path camera_id c in
  if exists_rel_path camera_id path (dg_store w) then (idx + 1, (im, w)) else
  match download c with
  | None => (idx + 1, (im, w))
  | Some size =>
      let t := dg_store w in
      let t1 := set_files (t_files t ∪ {[ (disk_id, path) ]}) (set_segments (t_segments t ++ [edge_segment (dg_next w) camera_id disk_id size c]) t) in
      let im1 := {| im_manifest := im_manifest im ++ [(cp_start c / 1000, cp_end c / 1000, size, path)]; im_bytes := im_bytes im + size; im_count := im_count im + 1 |} in
      (idx + 1, (im1, edge_update job_id (eg_step (idx * 100 / total) (im_count im1) (im_bytes im1))
                        {| dg_store := t1; dg_jobs := dg_jobs w; dg_next := dg_next w + 1 |}))
  end.

Definition first_start (l : list Clip) : Z := foldr (fun c m => Z.min (cp_start c) m) (match l with c :: _ => cp_start c | [] => 0 end) l.
Definition last_end (l : list Clip) : Z := foldr (fun c m => Z.max (cp_end c) m) (match l with c :: _ => cp_end c | [] => 0 end) l.

(** [run_import]; the flag: it raised *)
Definition run_import (job_id : Z) (run : EdgeRun) (w : EdgeWorld) : bool * EdgeWorld :=
  match edge_job_get job_id w with
  | None => (false, w)
  | Some j =>
      let cam := eg_camera_id j in
      if negb (er_camera run) then (false, edge_update job_id (eg_fail "camera_not_found") w) else
      let w1 := edge_update job_id eg_run w in
      let gaps := compute_gaps cam (eg_range_start j) (eg_range_end j) (dg_store w1) in
      if bool_decide (gaps = []) then (false, edge_update job_id eg_no_gaps w1) else
      match er_search run with
      | inl msg => (false, edge_update job_id (eg_fail ("search_failed: " +:+ msg)) w1)
      | inr clips =>
          let to_import := List.filter (fun c => existsb (clip_overlaps c) gaps) clips in
          let w2 := edge_update job_id (eg_found (Z.of_nat (length clips))) w1 in
          match to_import with
          | [] => (false, edge_update job_id eg_nothing w2)
          | _ =>
              let '(picked, t1) := pick_write_disk md5 pretty cam None (dg_store w2) in
              let w3 := set_dg_store t1 w2 in
              match picked with
              | None => (false, edge_update job_id (eg_fail "no_writable_disk") w3)
              | Some disk =>
                  if negb (er_mkdir run) then (true, w3) else
                  let '(_, (im, w4)) := foldl (import_one job_id cam (dk_id disk) (Z.of_nat (length to_import)) (er_download run))
                                              (0, ({| im_manifest := []; im_bytes := 0; im_count := 0 |}, w3)) to_import in
                  let w5 := if 0 <? im_count im
                            then {| dg_store := set_recordings (t_recordings (dg_store w4) ++
                                                  [new_recording (dg_next w4) cam "edge" "default" (first_start to_import) (Some (last_end to_import)) None]) (dg_store w4);
                                    dg_jobs := dg_jobs w4; dg_next := dg_next w4 + 1 |}
                            else w4 in
                  (false, edge_update job_id (eg_finish (im_count im) (im_bytes im) (im_manifest im)) w5)
              end
          end
      end
  end.
End Importing.

(** ** The scan and the request *)

Record EdgeCamera := { ec_id : Z; ec_uuid : string; ec_is_enabled : bool; ec_edge_recording : bool; ec_edge_auto_import : bool }.

Definition has_active_job (camera_id : Z) (w : EdgeWorld) : bool :=
  existsb (fun j => (eg_camera_id j =? camera_id) && bool_decide (eg_status j ∈ [EDGE_QUEUED; EDGE_RUNNING])) (dg_jobs w).

(** [auto_import_due]: the jobs queued, [None] once queueing raised; [broker n] is whether
    the n-th task could be queued *)
Fixpoint auto_import (broker : nat -> bool) (start now : Z) (cams : list EdgeCamera) (w : EdgeWorld) : option nat * EdgeWorld :=
  match cams with
  | [] => (Some 0%nat, w)
  | c :: r =>
      if has_active_job (ec_id c) w || bool_decide (compute_gaps (ec_id c) start now (dg_store w) = []) then auto_import broker start now r w
      else
        let '(j, w1) := edge_job_create (ec_id c) start now w in
        if negb (broker (length (dg_jobs w))) then (None, w1)
        else let '(n, w2) := auto_import broker start now r w1 in (S <$> n, w2)
  end.
Definition auto_import_due (broker : nat -> bool) (cams : list EdgeCamera) (w : EdgeWorld) : option nat * EdgeWorld :=
  auto_import broker (dg_now w - AUTO_WINDOW_HOURS * 3600 * SEC) (dg_now w)
    (List.filter (fun c => ec_is_enabled c && ec_edge_recording c && ec_edge_auto_import c) cams) w.

(** [create_import]; a broker that is down is not an error *)
Definition create_import (flag : bool) (cams : list EdgeCamera) (u : Caller) (camera_uuid : string) (start end_ : option Z) (w : EdgeWorld)
    : (exn + EdgeJob) * EdgeWorld :=
  if negb flag then (inl NoPermissionException, w) else
  match List.find (fun c => bool_decide (ec_uuid c = camera_uuid)) cams with
  | None => (inl RowNotFoundException, w)
  | Some c =>
      if negb (scoped u camera_uuid) then (inl NoPermissionException, w) else
      if negb (ec_edge_recording c) then (inl (InvalidParameterException "edge_recording not enabled for this camera"), w) else
      match start, end_ with
      | Some a, Some b =>
          if b <=? a then (inl (InvalidParameterException "range_end must be after range_start"), w) else
          if MAX_RANGE_HOURS * 3600 * SEC <? b - a then (inl (InvalidParameterException "range too large (max 24h)"), w) else
          let '(j, w1) := edge_job_create (ec_id c) a b w in (inr j, w1)
      | _, _ => (inl (InvalidParameterException "range_start and range_end (epoch ms) required"), w)
      end
  end.

(** ** What the gaps are *)

Definition inside (x : Z) (r : Z * Z) : Prop := fst r <= x < snd r.

Lemma insert_pair_perm p l : insert_pair p l ≡ₚ p :: l.
Proof. induction l as [|q l IH]; [done|]. cbn. destruct (pair_le p q); [done|]. rewrite IH. constructor. Qed.

Lemma sort_pairs_perm l : sort_pairs l ≡ₚ l.
Proof. induction l as [|p l IH]; [done|]. cbn. by rewrite insert_pair_perm, IH. Qed.

Lemma insert_pair_in_order p l : in_order l -> in_order (insert_pair p l).
Proof.
  unfold in_order. induction 1 as [|q r Hs IH Hall]; [repeat constructor|]. cbn. destruct (pair_le p q) eqn:E; unfold pair_le in E.
  - assert (fst p <= fst q) by (apply orb_prop in E as [E%Z.ltb_lt|[E%Z.eqb_eq _]%andb_prop]; lia).
    constructor; [by constructor|]. constructor; [done|]. eapply Forall_impl; [exact Hall|]. cbn. intros; lia.
  - apply orb_false_iff in E as [E%Z.ltb_ge _]. constructor; [done|]. rewrite insert_pair_perm. by constructor.
Qed.

Lemma sort_pairs_in_order l : in_order (sort_pairs l).
Proof. induction l as [|p l IH]; [constructor|]. by apply insert_pair_in_order. Qed.

(** What merging keeps: every interval lies in a merged one, every instant of a merged one
    in an interval, and the ends are ends of intervals. *)
Lemma merge_from_spec cur l : (forall p, p ∈ l -> fst cur <= fst p) -> in_order l ->
  in_order (merge_from cur l) /\ (forall r, r ∈ merge_from cur l -> fst cur <= fst r) /\
  (forall p, p ∈ cur :: l -> exists r, r ∈ merge_from cur l /\ range_in p r) /\
  (forall r, r ∈ merge_from cur l -> (forall x, inside x r -> exists p, p ∈ cur :: l /\ inside x p) /\
     (exists p, p ∈ cur :: l /\ fst p = fst r) /\ (exists p, p ∈ cur :: l /\ snd p = snd r)).
Proof.
  unfold in_order. revert cur. induction l as [|[s e] l IH]; intros cur Hlo Ho.
  - cbn. split; [repeat constructor|]. split; [by intros r ->%list_elem_of_singleton|]. split.
    + intros p ->%list_elem_of_singleton. exists cur. split; [by left|]. split; lia.
    + intros r ->%list_elem_of_singleton. split; [intros x Hx; exists cur; split; [by left|done]|]. split; exists cur; (split; [by left|done]).
  - apply StronglySorted_inv in Ho as [Ho Hall]. rewrite Forall_forall in Hall. pose proof (Hlo (s, e) ltac:(by left)) as Hs. cbn [fst] in Hs. cbn [merge_from].
    destruct (Z.leb_spec s (snd cur)) as [Hle|Hgt].
    + destruct (IH (fst cur, Z.max (snd cur) e)) as (H1 & H2 & H3 & H4); [intros p Hp; apply Hlo; by right|done|].
      split; [done|]. split; [done|]. split.
      * destruct (H3 (fst cur, Z.max (snd cur) e)) as (r & Hr & Ha & Hb); [by left|]. cbn in Ha, Hb.
        intros p [->|[->|Hp]%elem_of_cons]%elem_of_cons; [exists r; split; [done|]; split; lia|exists r; split; [done|]; split; cbn; lia|apply H3; by right].
      * intros r Hr. destruct (H4 r Hr) as (Hx & (p1 & Hp1 & E1) & (p2 & Hp2 & E2)). split_and!.
        -- intros x Hin. destruct (Hx x Hin) as (p & [->|Hp]%elem_of_cons & Hpx); [|exists p; split; [by do 2 right|done]].
           unfold inside in Hpx. cbn in Hpx. destruct (Z.lt_ge_cases x (snd cur)); [exists cur; split; [by left|]; unfold inside; lia|].
           exists (s, e). split; [right; by left|]. unfold inside. cbn. lia.
        -- apply elem_of_cons in Hp1 as [->|Hp1]; [exists cur; split; [by left|done]|exists p1; split; [by do 2 right|done]].
        -- apply elem_of_cons in Hp2 as [->|Hp2]; [cbn in E2|exists p2; split; [by do 2 right|done]].
           destruct (Z.le_gt_cases (snd cur) e); [exists (s, e); split; [right; by left|cbn; lia]|exists cur; split; [by left|lia]].
    + destruct (IH (s, e)) as (H1 & H2 & H3 & H4); [intros p Hp; apply (Hall p Hp)|done|]. split_and!.
      * constructor; [done|]. apply Forall_forall. intros r Hr. specialize (H2 r Hr). cbn in H2. lia.
      * intros r [->|Hr]%elem_of_cons; [lia|]. specialize (H2 r Hr). cbn in H2. lia.
      * intros p [->|Hp]%elem_of_cons; [exists cur; split; [by left|split; lia]|]. destruct (H3 p Hp) as (r & Hr & ?). exists r. split; [by right|done].
      * intros r [->|Hr]%elem_of_cons; [split; [intros x Hx; exists cur; split; [by left|done]|]; split; exists cur; (split; [by left|done])|].
        destruct (H4 r Hr) as (Hx & (p1 & Hp1 & E1) & (p2 & Hp2 & E2)). split; [intros x Hin; destruct (Hx x Hin) as (p & Hp & ?); exists p; split; [by right|done]|].
        split; [exists p1|exists p2]; (split; [by right|done]).
Qed.

Lemma merge_spec l : in_order (merge_intervals l) /\ (forall p, p ∈ l -> exists r, r ∈ merge_intervals l /\ range_in p r) /\
  (forall r, r ∈ merge_intervals l -> (forall x, inside x r -> exists p, p ∈ l /\ inside x p) /\ (exists p, p ∈ l /\ fst p = fst r) /\ (exists p, p ∈ l /\ snd p = snd r)).
Proof.
  unfold merge_intervals. pose proof (sort_pairs_perm l) as Hp. pose proof (sort_pairs_in_order l) as Ho. destruct (sort_pairs l) as [|p r].
  - apply Permutation_nil in Hp as ->. split; [constructor|]. split; by intros ? ?%elem_of_nil.
  - apply StronglySorted_inv in Ho as [Ho Hall]. rewrite Forall_forall in Hall. destruct (merge_from_spec p r Hall Ho) as (H1 & _ & H3 & H4).
    split; [done|]. split; [intros q Hq; apply H3; by rewrite Hp|]. intros m Hm. destruct (H4 m Hm) as (Hx & (p1 & Hp1 & E1) & (p2 & Hp2 & E2)).
    rewrite Hp in Hp1, Hp2. split; [intros x Hin; destruct (Hx x Hin) as (q & Hq & ?); exists q; by rewrite <- Hp|]. split; [by exists p1|by exists p2].
Qed.

Lemma find_gaps_ends ranges cursor end_ g : g ∈ find_gaps ranges cursor end_ ->
  (fst g = cursor \/ exists r, r ∈ ranges /\ snd r = fst g) /\ (snd g = end_ \/ exists r, r ∈ ranges /\ fst r = snd g).
Proof.
  revert cursor. induction ranges as [|[a b] ranges IH]; intros cursor; cbn [find_gaps].
  - destruct (_ <? _); [|by intros ?%elem_of_nil]. intros ->%list_elem_of_singleton. by split; left.
  - intros [Hg|Hg]%elem_of_app.
    + destruct (_ <? _); [|by apply elem_of_nil in Hg]. apply list_elem_of_singleton in Hg as ->. split; [by left|]. right. exists (a, b). split; [by left|done].
    + destruct (IH _ Hg) as [H1 H2]. split.
      * destruct H1 as [H1|(r & Hr & H1)]; [|right; exists r; split; [by right|done]]. destruct (Z.max_spec cursor b) as [[_ E]|[_ E]]; rewrite E in H1; [|by left].
        right. exists (a, b). split; [by left|done].
      * destruct H2 as [H2|(r & Hr & H2)]; [by left|right; exists r; split; [by right|done]].
Qed.

Section Gaps.
Context (cam start end_ : Z) (t : Store).
Notation segs := (get_range cam start end_ (Some "main"%string) t).

Lemma covered_bounds p : p ∈ covered_in cam start end_ t -> exists s, s ∈ segs /\ p = (Z.max (sg_start_ts s) start, Z.min (sg_end_ts s) end_) /\
  sg_start_ts s < end_ /\ start < sg_end_ts s.
Proof.
  intros (s & -> & Hs)%list_elem_of_fmap. exists s. apply elem_of_get_range in Hs as Hr. destruct Hr as (_ & _ & _ & H1 & H2 & _). done.
Qed.

(** a hole meets no segment and ends where segments or the range do *)
Lemma hole_spec g : start < end_ -> g ∈ holes cam start end_ t ->
  start <= fst g < snd g /\ snd g <= end_ /\ (forall s, s ∈ segs -> sg_end_ts s <= fst g \/ snd g <= sg_start_ts s) /\
  (fst g = start \/ exists s, s ∈ segs /\ sg_end_ts s = fst g) /\ (snd g = end_ \/ exists s, s ∈ segs /\ sg_start_ts s = snd g).
Proof.
  intros Hlt Hg. unfold holes in Hg. destruct (merge_spec (covered_in cam start end_ t)) as (Ho & Hin & Hr).
  destruct (find_gaps_spec _ _ _ _ Ho Hg) as [H1 H2]. apply find_gaps_ends in Hg as [E1 E2].
  assert (Hend : snd g <= end_ /\ (snd g = end_ \/ exists s, s ∈ segs /\ sg_start_ts s = snd g)).
  { destruct E2 as [->|(r & Hm & E2)]; [split; [lia|by left]|]. destruct (Hr r Hm) as (_ & (p & Hp & Ep) & _). apply covered_bounds in Hp as (s & Hs & -> & Ha & Hb).
    cbn in Ep. split; [lia|]. right. exists s. split; [done|lia]. }
  destruct Hend as [Hend Hend']. split; [done|]. split; [done|]. split.
  - intros s Hs. apply elem_of_get_range in Hs as Hs'. destruct Hs' as (_ & _ & _ & Ha & Hb & _).
    destruct (Hin (Z.max (sg_start_ts s) start, Z.min (sg_end_ts s) end_)) as (r & Hm & [Hl Hu]); [apply list_elem_of_fmap; by exists s|]. cbn in Hl, Hu.
    destruct (H2 r Hm); [left|right]; lia.
  - split; [|done]. destruct E1 as [->|(r & Hm & E1)]; [by left|]. destruct (Hr r Hm) as (_ & _ & (p & Hp & Ep)). apply covered_bounds in Hp as (s & Hs & -> & Ha & Hb).
    cbn in Ep. right. exists s. split; [done|lia].
Qed.

Lemma hole_or_covered x : start <= x < end_ -> (exists g, g ∈ holes cam start end_ t /\ inside x g) \/ exists s, s ∈ segs /\ sg_start_ts s <= x < sg_end_ts s.
Proof.
  intros Hx. destruct (existsb (fun g => (fst g <=? x) && (x <? snd g)) (holes cam start end_ t)) eqn:E.
  - left. apply existsb_exists in E as (g & Hg%list_elem_of_In & [H1%Z.leb_le H2%Z.ltb_lt]%andb_prop). exists g. split; [done|]. split; lia.
  - right. destruct (merge_spec (covered_in cam start end_ t)) as (_ & _ & Hr).
    destruct (find_gaps_complete (merge_intervals (covered_in cam start end_ t)) start end_ x Hx) as (r & Hm & Hin).
    { intros g Hg [H1 H2]. assert (existsb (fun g => (fst g <=? x) && (x <? snd g)) (holes cam start end_ t) = true); [|congruence].
      apply existsb_exists. exists g. split; [by apply list_elem_of_In|]. by rewrite (proj2 (Z.leb_le _ _) H1), (proj2 (Z.ltb_lt _ _) H2). }
    destruct (Hr r Hm) as (Hc & _). destruct (Hc x Hin) as (p & Hp & Hpx). apply covered_bounds in Hp as (s & Hs & -> & _). unfold inside in Hpx. cbn in Hpx. exists s. split; [done|lia].
Qed.

(** an instant without footage lies in a stretch without footage, a gap when it is long enough *)
Lemma missing_instant x : start < end_ -> start <= x < end_ -> (forall s, s ∈ segs -> ~ sg_start_ts s <= x < sg_end_ts s) ->
  exists a b, a <= x < b /\ (a = start \/ exists s, s ∈ segs /\ sg_end_ts s = a) /\ (b = end_ \/ exists s, s ∈ segs /\ sg_start_ts s = b) /\
    (forall s, s ∈ segs -> sg_end_ts s <= a \/ b <= sg_start_ts s) /\ (a + MIN_GAP_SECONDS * SEC <= b -> (a, b) ∈ compute_gaps cam start end_ t).
Proof.
  intros Hlt Hx Hno. unfold compute_gaps. destruct (Z.leb_spec end_ start); [lia|].
  destruct (hole_or_covered x Hx) as [([a b] & Hg & Hin)|(s & Hs & Hin)]; [|by destruct (Hno s Hs)].
  destruct (hole_spec (a, b) Hlt Hg) as (H1 & H2 & H3 & H4 & H5). exists a, b. split; [done|]. split; [done|]. split; [done|]. split; [done|].
  intros Hl. apply elem_of_filter_In. split; [done|]. unfold long_enough. apply Z.leb_le. cbn. lia.
Qed.

(** a gap is in the range, long enough, and meets no segment *)
Lemma gap_meets_nothing g : start < end_ -> g ∈ compute_gaps cam start end_ t -> start <= fst g /\ snd g <= end_ /\ fst g + MIN_GAP_SECONDS * SEC <= snd g /\
  forall s, s ∈ segs -> sg_end_ts s <= fst g \/ snd g <= sg_start_ts s.
Proof.
  intros Hlt. unfold compute_gaps. destruct (Z.leb_spec end_ start); [lia|].
  intros [Hg Hl]%elem_of_filter_In. destruct (hole_spec g Hlt Hg) as (H1 & H2 & H3 & _). unfold long_enough in Hl. apply Z.leb_le in Hl.
  split; [lia|]. split; [lia|]. split; [lia|done].
Qed.

(** The gaps of a range are its missing footage: each lies in the range, lasts at least
    two seconds and meets no segment; and an instant of the range that no segment covers
    lies in a stretch without footage, from the end of a segment (or of the range) to the
    start of one, which is a gap unless it is shorter than that. *)
Theorem gaps_are_the_missing_footage : start < end_ ->
  (forall g, g ∈ compute_gaps cam start end_ t -> start <= fst g /\ snd g <= end_ /\ fst g + MIN_GAP_SECONDS * SEC <= snd g /\
     forall s, s ∈ segs -> sg_end_ts s <= fst g \/ snd g <= sg_start_ts s) /\
  (forall x, start <= x < end_ -> (forall s, s ∈ segs -> ~ sg_start_ts s <= x < sg_end_ts s) ->
     exists a b, a <= x < b /\ (a = start \/ exists s, s ∈ segs /\ sg_end_ts s = a) /\ (b = end_ \/ exists s, s ∈ segs /\ sg_start_ts s = b) /\
       (forall s, s ∈ segs -> sg_end_ts s <= a \/ b <= sg_start_ts s) /\ (a + MIN_GAP_SECONDS * SEC <= b -> (a, b) ∈ compute_gaps cam start end_ t)).
Proof.
  intros Hlt. split; intros; [by apply gap_meets_nothing|by apply missing_instant].
Qed.
End Gaps.

(** ** What an import leaves *)

Section ImportTheory.
Context (md5 : string -> Z).
Notation run_import := (run_import md5).

(** the footage of [c] is in the index *)
Definition indexed (cam : Z) (c : Clip) (t : Store) : Prop :=
  exists s, s ∈ t_segments t /\ sg_camera_id s = cam /\ sg_corrupt s = false /\ sg_stream_role s = "main"%string /\ sg_start_ts s = cp_start c /\ sg_end_ts s = cp_end c.

Lemma import_fold job_id cam disk total download l acc :
  (forall c, c ∈ l -> is_Some (download c)) -> NoDup (edge_rel_path cam <$> l) ->
  (forall c, c ∈ l -> exists_rel_path cam (edge_rel_path cam c) (dg_store (snd (snd acc))) = false) ->
  let w' := snd (snd (foldl (import_one job_id cam disk total download) acc l)) in
  (forall s, s ∈ t_segments (dg_store (snd (snd acc))) -> s ∈ t_segments (dg_store w')) /\ (forall c, c ∈ l -> indexed cam c (dg_store w')).
Proof.
  revert acc. induction l as [|c l IH]; intros [idx [im w]] Hdl Hn Hex; [split; [done|by intros ? ?%elem_of_nil]|].
  cbn [fmap list_fmap] in Hn. apply NoDup_cons in Hn as [Hni Hn]. cbn [foldl]. destruct (Hdl c ltac:(by left)) as [size Hsize].
  pose proof (Hex c ltac:(by left)) as Hc. cbn [snd] in Hc. 
  set (acc1 := import_one job_id cam disk total download (idx, (im, w)) c). set (t1 := dg_store (snd (snd acc1))).
  assert (Ht1 : t_segments t1 = t_segments (dg_store w) ++ [edge_segment (dg_next w) cam disk size c])
    by (unfold t1, acc1, import_one; by rewrite Hc, Hsize).
  destruct (IH acc1) as [H1 H2]; [intros x Hx; apply Hdl; by right|done| |].
  - intros x Hx. fold t1. unfold exists_rel_path. rewrite Ht1, existsb_app. specialize (Hex x ltac:(by right)). unfold exists_rel_path in Hex. cbn [snd] in Hex. rewrite Hex.
    cbn. rewrite orb_false_r, Z.eqb_refl. cbn. apply bool_decide_eq_false. intros He. apply Hni. apply list_elem_of_fmap. by exists x.
  - split; [intros s Hs; apply H1; fold t1; rewrite Ht1; apply elem_of_app; by left|]. intros x [->|Hx]%elem_of_cons; [|by apply H2].
    exists (edge_segment (dg_next w) cam disk size c). split; [|done]. apply H1. fold t1. rewrite Ht1. apply elem_of_app. right. by left.
Qed.

Lemma edge_done id f w j : (forall j, eg_status (f j) = EDGE_DONE) -> (forall j, eg_id (f j) = eg_id j) -> j ∈ dg_jobs (edge_update id f w) -> eg_id j = id -> eg_status j = EDGE_DONE.
Proof.
  intros Hs Hi (j0 & -> & Hj)%list_elem_of_fmap. destruct (Z.eqb_spec (eg_id j0) id); [intros _; apply Hs|done].
Qed.

(** no new gap where the old ones were covered *)
Lemma closed_gaps cam start end_ t t' clips : start < end_ ->
  (forall s, s ∈ t_segments t -> sg_start_ts s <= sg_end_ts s) -> (forall s, s ∈ t_segments t -> s ∈ t_segments t') ->
  (forall c, c ∈ List.filter (fun c => existsb (clip_overlaps c) (compute_gaps cam start end_ t)) clips -> indexed cam c t') ->
  (forall g x, g ∈ compute_gaps cam start end_ t -> inside x g -> exists c, c ∈ clips /\ cp_start c <= x < cp_end c) ->
  compute_gaps cam start end_ t' = [].
Proof.
  intros Hlt Hpos Hkeep Hnew Hcov. destruct (compute_gaps cam start end_ t') as [|g l] eqn:E; [done|exfalso]. assert (Hg : g ∈ compute_gaps cam start end_ t') by (rewrite E; by left).
  destruct (gap_meets_nothing cam start end_ t' g Hlt Hg) as (Ha & Hb & Hl & Hno). clear E.
  assert (Hmin : 0 < MIN_GAP_SECONDS * SEC) by reflexivity.
  assert (Hseg : forall s, s ∈ get_range cam start end_ (Some "main"%string) t -> s ∈ get_range cam start end_ (Some "main"%string) t').
  { intros s Hs. apply elem_of_get_range in Hs as (? & ? & ? & ? & ? & ?). apply elem_of_get_range. split_and!; auto. }
  destruct (missing_instant cam start end_ t (fst g) Hlt ltac:(lia)) as (a & b & Hx & _ & Hend & _ & Hgap).
  { intros s Hs Hin. destruct (Hno s (Hseg s Hs)); lia. }
  destruct (Z.le_gt_cases (a + MIN_GAP_SECONDS * SEC) b) as [Hlong|Hshort].
  - specialize (Hgap Hlong). destruct (Hcov (a, b) (fst g) Hgap Hx) as (c & Hc & Hcx). cbn [fst snd] in Hx. destruct (Hnew c) as (s & Hs & Hcam & Hcor & Hrole & Hss & Hse).
    + apply elem_of_filter_In. split; [done|]. apply existsb_exists. exists (a, b). split; [by apply list_elem_of_In|]. unfold clip_overlaps. cbn.
      rewrite (proj2 (Z.ltb_lt _ _)), (proj2 (Z.ltb_lt _ _)) by lia. done.
    + destruct (Hno s) as [H|H]; [apply elem_of_get_range; split_and!; auto; lia|lia|lia].
  - destruct Hend as [->|(s & Hs & Hss)]; [lia|]. destruct (Hno s (Hseg s Hs)) as [H|H]; [|lia]. apply elem_of_get_range in Hs as (Hs & _). specialize (Hpos s Hs). lia.
Qed.

(** C27: When the clips a device holds cover the gaps of a job's range, all can be downloaded
    and none is indexed yet under the path it gets (which its start names, so that no two
    start at once), and there is a disk to write to, the import leaves no gap in the range
    and the job is done. *)
Theorem import_closes_the_gaps id run w j clips :
  edge_job_get id w = Some j -> eg_range_start j < eg_range_end j -> er_camera run = true -> er_search run = inr clips -> er_mkdir run = true ->
  fst (pick_write_disk md5 pretty (eg_camera_id j) None (dg_store w)) <> None ->
  (forall s, s ∈ t_segments (dg_store w) -> sg_start_ts s <= sg_end_ts s) ->
  (forall c, c ∈ clips -> is_Some (er_download run c) /\ exists_rel_path (eg_camera_id j) (edge_rel_path (eg_camera_id j) c) (dg_store w) = false) ->
  NoDup (edge_rel_path (eg_camera_id j) <$> clips) ->
  (forall g x, g ∈ compute_gaps (eg_camera_id j) (eg_range_start j) (eg_range_end j) (dg_store w) -> inside x g ->
     exists c, c ∈ clips /\ cp_start c <= x < cp_end c) ->
  let '(raised, w') := run_import id run w in
  raised = false /\ compute_gaps (eg_camera_id j) (eg_range_start j) (eg_range_end j) (dg_store w') = [] /\
  forall j', j' ∈ dg_jobs w' -> eg_id j' = id -> eg_status j' = EDGE_DONE.
Proof.
  intros Hj Hlt Hcam Hsearch Hmk Hdisk Hpos Hclips Hn Hcov. unfold Edge.run_import. rewrite Hj, Hcam, Hsearch, Hmk. cbn [negb]. cbv zeta.
  change (dg_store (edge_update id eg_run w)) with (dg_store w). set (cam := eg_camera_id j) in *. set (a := eg_range_start j) in *. set (b := eg_range_end j) in *.
  case_bool_decide as Hgaps; [split; [done|]; split; [exact Hgaps|]; intros j'; by apply edge_done|].
  set (to_import := List.filter (fun c => existsb (clip_overlaps c) (compute_gaps cam a b (dg_store w))) clips).
  assert (Hclosed : forall t', (forall s, s ∈ t_segments (dg_store w) -> s ∈ t_segments t') -> (forall c, c ∈ to_import -> indexed cam c t') -> compute_gaps cam a b t' = [])
    by (intros t' H1 H2; by apply (closed_gaps cam a b (dg_store w) t' clips)).
  destruct to_import as [|c0 l] eqn:Eimp.
  { split; [done|]. split; [|intros j'; by apply edge_done]. apply Hclosed; [done|]. by intros ? ?%elem_of_nil. }
  change (dg_store (edge_update id (eg_found (Z.of_nat (length clips))) (edge_update id eg_run w))) with (dg_store w).
  assert (Hstore : snd (pick_write_disk md5 pretty cam None (dg_store w)) = dg_store w) by (unfold pick_write_disk; by destruct (write_pool (dg_store w))).
  destruct (pick_write_disk md5 pretty cam None (dg_store w)) as [[disk|] t1]; [|done]. cbn [snd] in Hstore. subst t1. rewrite <- Eimp.
  set (w3 := set_dg_store _ _). set (acc0 := (0, _)).
  destruct (import_fold id cam (dk_id disk) (Z.of_nat (length to_import)) (er_download run) to_import acc0) as [H1 H2].
  - intros c [Hc _]%elem_of_filter_In. by apply Hclips.
  - by apply filter_nodup.
  - intros c [Hc _]%elem_of_filter_In. by apply Hclips.
  - destruct (foldl _ _ _) as [idx [im w4]]. cbn [snd] in H1, H2. split; [done|]. split; [|intros j'; by apply edge_done].
    rewrite Eimp in H2. destruct (0 <? im_count im); by apply Hclosed.
Qed.
End ImportTheory.

(** ** Witnesses and examples *)

Definition demo_clip : Clip := {| cp_start := 8 * SEC; cp_end := 62 * SEC; cp_uri := "rtsp://cam/1" |}.
Definition demo_edge_run (mkdir : bool) : EdgeRun :=
  {| er_camera := true; er_search := inr [demo_clip]; er_mkdir := mkdir; er_download := fun _ => Some 1000 |}.
(** one queued import of the first minute of camera 1, which has footage for ten seconds *)
Definition demo_edge : EdgeWorld := {| dg_store := demo_store; dg_jobs := [new_edge_job 1 1 0 (60 * SEC)]; dg_next := 100 |}.

Lemma gaps_are_the_missing_footage_witness :
  compute_gaps 1 0 (60 * SEC) demo_store = [(10 * SEC, 60 * SEC)] /\
  exists a b, a <= 30 * SEC < b /\ (a + MIN_GAP_SECONDS * SEC <= b -> (a, b) ∈ compute_gaps 1 0 (60 * SEC) demo_store).
Proof.
  split; [vm_compute; reflexivity|].
  destruct (proj2 (gaps_are_the_missing_footage 1 0 (60 * SEC) demo_store ltac:(reflexivity)) (30 * SEC)) as (a & b & Hx & _ & _ & _ & Hg).
  - split; [discriminate|reflexivity].
  - intros s Hs [H1 H2]. vm_compute in Hs. apply list_elem_of_singleton in Hs as ->. vm_compute in H2. discriminate H2.
  - exists a, b. split; [exact Hx|exact Hg].
Defined.

Lemma import_closes_the_gaps_witness :
  compute_gaps 1 0 (60 * SEC) (dg_store (snd (run_import demo_md5 1 (demo_edge_run true) demo_edge))) = [].
Proof.
  pose proof (import_closes_the_gaps demo_md5 1 (demo_edge_run true) demo_edge (new_edge_job 1 1 0 (60 * SEC)) [demo_clip]) as H.
  destruct (run_import demo_md5 1 (demo_edge_run true) demo_edge) as [raised w'].
  destruct H as (_ & H & _); [reflexivity|reflexivity|reflexivity|reflexivity|reflexivity|vm_compute; discriminate| | | | |exact H].
  - apply Forall_forall. vm_compute. repeat (constructor; [discriminate|]). constructor.
  - intros c ->%list_elem_of_singleton. split; [eexists; reflexivity|vm_compute; reflexivity].
  - apply NoDup_singleton.
  - intros g x Hg Hx. vm_compute in Hg. apply list_elem_of_singleton in Hg as ->. exists demo_clip. split; [by left|]. unfold inside in Hx. cbn [fst snd] in Hx.
    unfold demo_clip, SEC. cbn [cp_start cp_end]. lia.
Defined.

(** A clip is indexed whole, also where footage was recorded: an export of the first
    twenty seconds then holds twenty-two, and plays the two that overlap twice. *)
Example imported_clip_plays_twice :
  let t := dg_store (snd (run_import demo_md5 1 (demo_edge_run true) demo_edge)) in
  let segs := get_range 1 0 (20 * SEC) (Some "main"%string) t in
  trim 0 (20 * SEC) segs 0 None 0 = (0, 22 * SEC) /\ wall segs (9 * SEC) = Some (9 * SEC) /\ wall segs (11 * SEC) = Some (9 * SEC).
Proof. vm_compute. by split_and!. Qed.

Definition demo_auto : EdgeCamera := {| ec_id := 1; ec_uuid := "cam"; ec_is_enabled := true; ec_edge_recording := true; ec_edge_auto_import := true |}.
Definition demo_auto_2 : EdgeCamera := {| ec_id := 2; ec_uuid := "cam2"; ec_is_enabled := true; ec_edge_recording := true; ec_edge_auto_import := true |}.

(** A run that raises outside its handlers leaves the job running, and a camera with a
    running job is never scanned again. *)
Example failed_makedirs_ends_auto_import :
  let '(raised, w) := run_import demo_md5 1 (demo_edge_run false) demo_edge in
  raised = true /\ eg_status <$> dg_jobs w = [EDGE_RUNNING] /\ fst (auto_import_due (fun _ => true) [demo_auto] w) = Some 0%nat /\
  compute_gaps 1 (dg_now w - AUTO_WINDOW_HOURS * 3600 * SEC) (dg_now w) (dg_store w) <> [].
Proof. vm_compute. by split_and!. Qed.

(** While the broker is down the first camera's job stays queued for ever and the scan
    reaches no camera after it. *)
Example broker_fault_ends_the_scan :
  let w0 := {| dg_store := demo_store; dg_jobs := []; dg_next := 1 |} in
  let '(n, w) := auto_import_due (fun _ => false) [demo_auto; demo_auto_2] w0 in
  n = None /\ (fun j => (eg_camera_id j, eg_status j)) <$> dg_jobs w = [(1, EDGE_QUEUED)] /\
  (fun j => eg_camera_id j) <$> dg_jobs (snd (auto_import_due (fun _ => true) [demo_auto; demo_auto_2] w)) = [1; 2].
Proof. vm_compute. by split_and!. Qed.
