(* ===== verification/Plates.v ===== *)
(** * Licence plates

    src/server/service/plate_normalize.py, service/lpr_ingest.py, model/plate_list.py,
    model/plate_read.py, controller/lpr.py (the watchlist).

    A batch of a detector node runs in the world of the detections (registry, event
    pipeline) with the watchlist and the reads.  Text is ASCII or the bytes of UTF-8;
    [float] of a text is a parameter (an infinity as text is left out).  The box of a
    plate, the vehicle's label and the track are not kept. *)

From Stdlib Require Import QArith.
From S2P Require Import Prelude PyStr Redis Permission Token Storage EventPipeline Json Scheduler Vision Detections.
Local Open Scope Z_scope.
Local Open Scope list_scope.

(** ** Normalization *)

Definition upper_char (c : Ascii.ascii) : Ascii.ascii :=
  let n := Ascii.nat_of_ascii c in if ((97 <=? n) && (n <=? 122))%nat then Ascii.ascii_of_nat (n - 32) else c.
Definition plate_char (c : Ascii.ascii) : bool :=
  let n := Ascii.nat_of_ascii c in ((65 <=? n) && (n <=? 90))%nat || ((48 <=? n) && (n <=? 57))%nat.
Fixpoint normalize (s : string) : string :=
  match s with EmptyString => EmptyString | String c r => if plate_char (upper_char c) then String (upper_char c) (normalize r) else normalize r end.

(** [_CONFUSABLES] *)
Definition fold_char (c : Ascii.ascii) : Ascii.ascii :=
  match Ascii.nat_of_ascii c with
  | 79 | 81 | 68 => Ascii.ascii_of_nat 48     (* O Q D *)
  | 73 | 76 => Ascii.ascii_of_nat 49          (* I L *)
  | 90 => Ascii.ascii_of_nat 50               (* Z *)
  | 83 => Ascii.ascii_of_nat 53               (* S *)
  | 66 => Ascii.ascii_of_nat 56               (* B *)
  | _ => c
  end%nat.
Fixpoint fold_text (s : string) : string := match s with EmptyString => EmptyString | String c r => String (fold_char c) (fold_text r) end.
Definition match_key (s : string) : string := fold_text (normalize s).

(** ** The watchlist *)

Definition KIND_ALLOW : string := "allow".
Definition KIND_DENY : string := "deny".

Record PlateEntry := {
  pe_id : Z;
  pe_plate_text : string;
  pe_plate_key : string;
  pe_kind : string;
  pe_label : option string;
  pe_enabled : bool;
  pe_deleted_at : option Z
}.

Record PlateRead := {
  pr_id : Z;
  pr_camera_id : Z;
  pr_ts : Z;
  pr_plate_text : string;
  pr_plate_key : string;
  pr_confidence : Z;
  pr_list : option (Z * string);       (* list_id, list_kind *)
  pr_node_id : Z
}.

Record PlateWorld := { lw_det : DetWorld; lw_entries : list PlateEntry; lw_reads : list PlateRead; lw_next : Z }.
Definition LM (A : Type) : Type := M PlateWorld exn A.
Definition lw_now (w : PlateWorld) : Z := dw_now (lw_det w).
Definition set_entries (l : list PlateEntry) (next : Z) (w : PlateWorld) : PlateWorld :=
  {| lw_det := lw_det w; lw_entries := l; lw_reads := lw_reads w; lw_next := next |}.
Definition set_lw_det (d : DetWorld) (w : PlateWorld) : PlateWorld :=
  {| lw_det := d; lw_entries := lw_entries w; lw_reads := lw_reads w; lw_next := lw_next w |}.

Definition entry_live (e : PlateEntry) : bool := bool_decide (pe_deleted_at e = None).
Definition entry_get (id : Z) (w : PlateWorld) : option PlateEntry := List.find (fun e => (pe_id e =? id) && entry_live e) (lw_entries w).

(** [PlateListEntry.match] *)
Definition plate_match (key : string) (w : PlateWorld) : option PlateEntry :=
  if bool_decide (key = EmptyString) then None else
  let rows := List.filter (fun e => bool_decide (pe_plate_key e = key) && pe_enabled e && entry_live e) (lw_entries w) in
  match rows with
  | [] => None
  | r :: _ => match List.find (fun e => bool_decide (pe_kind e = KIND_DENY)) rows with Some e => Some e | None => Some r end
  end.

(** writing a row under the constraint on (plate_key, kind), which counts deleted rows too *)
Definition entry_save (e : PlateEntry) : LM unit := fun w =>
  if existsb (fun x => bool_decide (pe_plate_key x = pe_plate_key e) && bool_decide (pe_kind x = pe_kind e) && negb (pe_id x =? pe_id e)) (lw_entries w)
  then (inl IntegrityError, w)
  else (inr tt, set_entries ((fun x => if pe_id x =? pe_id e then e else x) <$> lw_entries w) (lw_next w) w).
Definition entry_insert (e : PlateEntry) : LM unit := fun w =>
  if existsb (fun x => bool_decide (pe_plate_key x = pe_plate_key e) && bool_decide (pe_kind x = pe_kind e)) (lw_entries w)
  then (inl IntegrityError, w) else (inr tt, set_entries (lw_entries w ++ [e]) (lw_next w + 1) w).

Definition create_entry (flag : bool) (plate_text kind label : option string) : LM PlateEntry :=
  if negb flag then raise NoPermissionException else
  let text := strip (or_str plate_text "") in
  let key := match_key text in
  if bool_decide (key = EmptyString) then raise (InvalidParameterException "plate_text required") else
  let kind := or_str kind KIND_DENY in
  if negb (bool_decide (kind ∈ [KIND_ALLOW; KIND_DENY])) then raise (InvalidParameterException "kind must be allow or deny") else
  let! old := gets (plate_match key) in
  match old with
  | Some _ => raise (InvalidParameterException "plate already in watchlist")
  | None =>
      let! w := gets id in
      let e := {| pe_id := lw_next w; pe_plate_text := stake 24 text; pe_plate_key := key; pe_kind := kind; pe_label := label; pe_enabled := true; pe_deleted_at := None |} in
      entry_insert e ;;; ret e
  end.

(** [update_entry]: any kind *)
Definition update_entry (flag : bool) (id : Z) (kind label : option string) (enabled : option bool) : LM PlateEntry :=
  if negb flag then raise NoPermissionException else
  let! o := gets (entry_get id) in
  match o with
  | None => raise RowNotFoundException
  | Some e =>
      let e' := {| pe_id := pe_id e; pe_plate_text := pe_plate_text e; pe_plate_key := pe_plate_key e; pe_kind := default (pe_kind e) kind;
                   pe_label := match label with Some l => Some l | None => pe_label e end; pe_enabled := default (pe_enabled e) enabled; pe_deleted_at := pe_deleted_at e |} in
      entry_save e' ;;; ret e'
  end.

Definition delete_entry (flag : bool) (id : Z) : LM unit :=
  if negb flag then raise NoPermissionException else
  let! o := gets (entry_get id) in
  match o with
  | None => raise RowNotFoundException
  | Some e =>
      let! w := gets (fun w => w) in
      entry_save {| pe_id := pe_id e; pe_plate_text := pe_plate_text e; pe_plate_key := pe_plate_key e; pe_kind := pe_kind e; pe_label := pe_label e;
                    pe_enabled := pe_enabled e; pe_deleted_at := Some (lw_now w) |}
  end.

(** ** Ingest *)

Definition LPR_MAX_BATCH : nat := 200.
Definition MIN_CONFIDENCE : Z := 50.

Section Ingest.
Context (py_float : string -> option Q) (py_str : json -> string) (utc_offset : Z -> Z).

(** [int(float(v))] *)
Definition int_float (v : json) : py_error + option Z :=
  match to_float py_float v with
  | FloatOk q => inr (Some (Z.quot (Qnum q) (Zpos (Qden q))))
  | FloatBad => inr None
  | FloatOverflow => inl OverflowError
  end.
Definition confidence_of (rep : list (string * json)) : json := match assoc "confidence" rep with Some v => v | None => JInt 0 end.

Definition plate_validate (rep : list (string * json)) (node_id : Z) (w : DetWorld) : py_error + option reject_reason :=
  let cam_j := jget "camera_id" rep in
  if negb (truthy cam_j) then inr (Some "missing_camera"%string) else
  match to_int cam_j with
  | None => inr (Some "bad_camera_id"%string)
  | Some cam =>
      match s_rows (dw_sched w) !! cam with
      | None => inr (Some "not_assigned"%string)
      | Some a =>
          if negb (a_node_id a =? node_id) then inr (Some "not_assigned"%string) else
          let text := jget "plate_text" rep in
          if negb (truthy text) then inr (Some "empty_plate"%string) else
          match text with
          | JStr s =>
              if bool_decide (normalize s = EmptyString) then inr (Some "empty_plate"%string) else
              match int_float (confidence_of rep) with
              | inl e => inl e
              | inr None => inr (Some "bad_confidence"%string)
              | inr (Some conf) => if conf <? MIN_CONFIDENCE then inr (Some "low_confidence"%string) else inr None
              end
          | _ => inl AttributeError                        (* no [upper] *)
          end
      end
  end.

Definition plate_ts (v : json) (now : Z) : Z := match v with JNull => now | _ => match to_int v with Some ms => default now (from_ms ms) | None => now end end.

(** the row, before its id and its match *)
Definition plate_row (rep : list (string * json)) (node_id : Z) (now : Z) : PlateRead :=
  let raw := match jget "plate_text" rep with JStr s => stake 24 (strip s) | v => stake 24 (strip (py_str v)) end in
  {| pr_id := 0; pr_camera_id := default 0 (to_int (jget "camera_id" rep)); pr_ts := plate_ts (jget "ts" rep) now; pr_plate_text := raw;
     pr_plate_key := normalize raw;
     pr_confidence := match int_float (confidence_of rep) with inr (Some c) => Z.max 0 (Z.min 100 c) | _ => 0 end;
     pr_list := None; pr_node_id := node_id |}.
Definition with_list (e : PlateEntry) (r : PlateRead) : PlateRead :=
  {| pr_id := pr_id r; pr_camera_id := pr_camera_id r; pr_ts := pr_ts r; pr_plate_text := pr_plate_text r; pr_plate_key := pr_plate_key r;
     pr_confidence := pr_confidence r; pr_list := Some (pe_id e, pe_kind e); pr_node_id := pr_node_id r |}.
Definition with_read_id (id : Z) (r : PlateRead) : PlateRead :=
  {| pr_id := id; pr_camera_id := pr_camera_id r; pr_ts := pr_ts r; pr_plate_text := pr_plate_text r; pr_plate_key := pr_plate_key r;
     pr_confidence := pr_confidence r; pr_list := pr_list r; pr_node_id := pr_node_id r |}.

Definition lpr_on (camera_id : Z) (w : DetWorld) : bool := camera_live camera_id w && bool_decide ("lpr"%string ∈ dw_features w camera_id).
Definition entry_for (r : PlateRead) (w : PlateWorld) : option PlateEntry :=
  if lpr_on (pr_camera_id r) (lw_det w) then plate_match (match_key (pr_plate_text r)) w else None.

(** the loop over the batch: rows with the entry they matched *)
Fixpoint plate_collect (idx : Z) (batch : list json) (node_id : Z) (w : PlateWorld) : py_error + (list (PlateRead * option PlateEntry) * list (Z * reject_reason)) :=
  match batch with
  | [] => inr ([], [])
  | JObj rep :: r =>
      match plate_validate rep node_id (lw_det w) with
      | inl e => inl e
      | inr (Some reason) => match plate_collect (idx + 1) r node_id w with inl e => inl e | inr (rows, rej) => inr (rows, (idx, reason) :: rej) end
      | inr None =>
          let row := plate_row rep node_id (lw_now w) in
          let entry := entry_for row w in
          let row' := match entry with Some e => with_list e row | None => row end in
          match plate_collect (idx + 1) r node_id w with inl e => inl e | inr (rows, rej) => inr ((row', entry) :: rows, rej) end
      end
  | _ :: _ => inl AttributeError
  end.

Definition is_deny (p : PlateRead * option PlateEntry) : bool := match snd p with Some e => bool_decide (pe_kind e = KIND_DENY) | None => false end.

(** [_raise_event], and the loop with its count *)
Definition raise_event (p : PlateRead * option PlateEntry) : DetWorld -> option (option Event * DetWorld) :=
  ingest_object utc_offset (pr_camera_id (fst p)) "lpr" (pe_kind <$> snd p) (pr_confidence (fst p)) "lpr" (Some (pr_plate_key (fst p))).

Record PlateResult := { pl_accepted : Z; pl_rejected : list (Z * reject_reason); pl_matched : Z }.

Fixpoint number_reads (id : Z) (l : list PlateRead) : list PlateRead := match l with [] => [] | r :: rest => with_read_id id r :: number_reads (id + 1) rest end.

Definition plate_ingest (node_id : Z) (batch : list json) (w : PlateWorld) : (py_error + PlateResult) * PlateWorld :=
  match plate_collect 0 (take LPR_MAX_BATCH batch) node_id w with
  | inl e => (inl e, w)
  | inr (rows, rejected) =>
      let reads := number_reads (lw_next w) (fst <$> rows) in
      let '(raised, d) := foldl (raise_one raise_event) (0, lw_det w) (List.filter is_deny rows) in
      (inr {| pl_accepted := Z.of_nat (length rows); pl_rejected := rejected; pl_matched := raised |},
       {| lw_det := d; lw_entries := lw_entries w; lw_reads := lw_reads w ++ reads; lw_next := lw_next w + Z.of_nat (length rows) |})
  end.
End Ingest.

(** ** Laws of the keys *)

Lemma fold_char_idem c : fold_char (fold_char c) = fold_char c.
Proof. destruct c as [[] [] [] [] [] [] [] []]; reflexivity. Qed.
Lemma plate_char_fold c : plate_char c = true -> plate_char (upper_char (fold_char c)) = true /\ upper_char (fold_char c) = fold_char c.
Proof. destruct c as [[] [] [] [] [] [] [] []]; vm_compute; intuition discriminate. Qed.

(** folding twice changes nothing: a stored key is its own key *)
Lemma match_key_idem s : match_key (match_key s) = match_key s.
Proof.
  unfold match_key. induction s as [|c s IH]; [done|]. cbn [normalize]. destruct (plate_char (upper_char c)) eqn:E; [|done].
  destruct (plate_char_fold _ E) as [E1 E2]. cbn [fold_text normalize]. rewrite E1, E2. cbn [fold_text]. by rewrite fold_char_idem, IH.
Qed.
Lemma normalize_idem s : normalize (normalize s) = normalize s.
Proof.
  induction s as [|c s IH]; [done|]. cbn [normalize]. destruct (plate_char (upper_char c)) eqn:E; [|done].
  cbn [normalize]. assert (upper_char (upper_char c) = upper_char c) as -> by (destruct c as [[] [] [] [] [] [] [] []]; reflexivity).
  by rewrite E, IH.
Qed.

(** ** The watchlist *)

(** the entries a key hits *)
Definition hits (key : string) (e : PlateEntry) : Prop := pe_plate_key e = key /\ pe_enabled e = true /\ pe_deleted_at e = None.

Lemma hits_filter key e l :
  In e (List.filter (fun e => bool_decide (pe_plate_key e = key) && pe_enabled e && entry_live e) l) <-> e ∈ l /\ hits key e.
Proof.
  unfold hits, entry_live. rewrite filter_In, list_elem_of_In, !andb_true_iff, !bool_decide_eq_true. tauto.
Qed.

(** a match is an entry the key hits; a denied one whenever there is one *)
Lemma plate_match_some key w e : plate_match key w = Some e ->
  e ∈ lw_entries w /\ hits key e /\ key <> EmptyString /\ (pe_kind e = KIND_DENY <-> exists d, d ∈ lw_entries w /\ hits key d /\ pe_kind d = KIND_DENY).
Proof.
  unfold plate_match. case_bool_decide as Hk; [done|]. pose proof (fun x => hits_filter key x (lw_entries w)) as Hf.
  destruct (List.filter _ _) as [|r l]; [done|]. destruct (List.find _ _) eqn:Ef.
  - intros [= ->]. apply find_some in Ef as [Hin Hd]. rewrite bool_decide_eq_true in Hd. apply Hf in Hin as [Hin Hh]. naive_solver.
  - intros [= ->]. destruct (proj1 (Hf e) (or_introl eq_refl)) as [Hin Hh]. split_and!; try done. split; [naive_solver|].
    intros (d & Hd & Hhd & Hkd). pose proof (find_none _ _ Ef d (proj2 (Hf d) (conj Hd Hhd))) as Hn. cbn in Hn.
    rewrite bool_decide_eq_false in Hn. done.
Qed.
Lemma plate_match_none key w : plate_match key w = None -> key <> EmptyString -> forall e, e ∈ lw_entries w -> hits key e -> False.
Proof.
  unfold plate_match. case_bool_decide as Hk; [done|]. pose proof (fun x => hits_filter key x (lw_entries w)) as Hf.
  destruct (List.filter _ _) as [|r l]; [|by destruct (List.find _ _)]. intros _ _ e Hin Hh. exact (proj2 (Hf e) (conj Hin Hh)).
Qed.

(** ** What a batch leaves *)

Section Batch.
Context (py_float : string -> option Q) (py_str : json -> string) (utc_offset : Z -> Z).

(** a stored read: seen by the node of the camera, sure enough, marked with what the watchlist says *)
Record read_ok (node_id : Z) (w : PlateWorld) (r : PlateRead) : Prop := {
  ro_assigned : exists a, s_rows (dw_sched (lw_det w)) !! pr_camera_id r = Some a /\ a_node_id a = node_id;
  ro_confidence : MIN_CONFIDENCE <= pr_confidence r <= 100;
  ro_key : pr_plate_key r = normalize (pr_plate_text r);
  ro_node : pr_node_id r = node_id;
  ro_list : match pr_list r with
            | Some (i, k) => lpr_on (pr_camera_id r) (lw_det w) = true /\
                exists e, e ∈ lw_entries w /\ hits (match_key (pr_plate_text r)) e /\ pe_id e = i /\ pe_kind e = k /\
                  (k = KIND_DENY <-> exists d, d ∈ lw_entries w /\ hits (match_key (pr_plate_text r)) d /\ pe_kind d = KIND_DENY)
            | None => lpr_on (pr_camera_id r) (lw_det w) = true -> match_key (pr_plate_text r) <> EmptyString ->
                forall e, e ∈ lw_entries w -> hits (match_key (pr_plate_text r)) e -> False
            end
}.

Definition denied (r : PlateRead) : bool := bool_decide (snd <$> pr_list r = Some KIND_DENY).

(** the alert of a stored read *)
Definition alert_of (r : PlateRead) (d : DetWorld) : option (option Event * DetWorld) :=
  ingest_object utc_offset (pr_camera_id r) "lpr" (Some KIND_DENY) (pr_confidence r) "lpr" (Some (pr_plate_key r)) d.
Lemma validated rep node_id w : plate_validate py_float rep node_id (lw_det w) = inr None ->
  exists a conf, s_rows (dw_sched (lw_det w)) !! pr_camera_id (plate_row py_float py_str rep node_id (lw_now w)) = Some a /\ a_node_id a = node_id /\
  int_float py_float (confidence_of rep) = inr (Some conf) /\ MIN_CONFIDENCE <= conf.
Proof.
  unfold plate_validate. intros H. destruct (truthy (jget "camera_id" rep)); [|done]. cbn [negb] in H.
  cbn [plate_row pr_camera_id]. destruct (to_int _) as [cam|]; [|done]. cbn [default from_option id]. destruct (s_rows _ !! cam) as [a|]; [|done].
  destruct (a_node_id a =? node_id) eqn:En; [|done]. apply Z.eqb_eq in En. cbn [negb] in H. destruct (truthy _); [|done]. cbn [negb] in H.
  destruct (jget "plate_text" rep); try done. case_bool_decide; [done|]. destruct (int_float _ _) as [|[conf|]]; [done| |done].
  destruct (conf <? MIN_CONFIDENCE) eqn:Ec; [done|]. apply Z.ltb_ge in Ec. by exists a, conf.
Qed.

Lemma row_ok rep node_id w : plate_validate py_float rep node_id (lw_det w) = inr None ->
  let row := plate_row py_float py_str rep node_id (lw_now w) in let entry := entry_for row w in
  read_ok node_id w (match entry with Some e => with_list e row | None => row end).
Proof.
  intros Hv row entry. destruct (validated _ _ _ Hv) as (a & conf & Ha & Hn & Hc & Hge). unfold MIN_CONFIDENCE in Hge.
  assert (Hconf : MIN_CONFIDENCE <= pr_confidence row <= 100) by (unfold row, MIN_CONFIDENCE; cbn; rewrite Hc; lia).
  assert (Hf : pr_list row = None /\ pr_plate_key row = normalize (pr_plate_text row) /\ pr_node_id row = node_id) by done.
  fold row in Ha. clearbody row. destruct Hf as (Hl & Hkey & Hnode).
  destruct entry as [e|] eqn:Ee; unfold entry, entry_for in Ee; destruct (lpr_on _ _) eqn:El; try done; split; cbn; try done; try (by exists a).
  - split; [done|]. apply plate_match_some in Ee as (? & ? & _ & ?). by exists e.
  - rewrite Hl. intros _ Hk e. by apply plate_match_none.
  - rewrite Hl. by rewrite El.
Qed.

(** the fields of a read that its id does not touch *)
Lemma number_reads_Forall P id l : (forall i r, P r -> P (with_read_id i r)) -> Forall P l -> Forall P (number_reads id l).
Proof. intros HP H. revert id. induction H as [|r l Hr Hl IH]; intros id; constructor; auto. Qed.
Lemma length_number_reads id l : length (number_reads id l) = length l.
Proof. revert id. induction l; intros id; cbn; auto. Qed.
Lemma read_ok_id node_id w i r : read_ok node_id w r -> read_ok node_id w (with_read_id i r).
Proof. intros []. by split. Qed.

Definition tagged (p : PlateRead * option PlateEntry) : Prop := pr_list (fst p) = (fun e => (pe_id e, pe_kind e)) <$> snd p.

Lemma collected idx batch node_id w rows rej : plate_collect py_float py_str idx batch node_id w = inr (rows, rej) ->
  Forall (fun p => read_ok node_id w (fst p) /\ tagged p) rows /\ (length rows + length rej = length batch)%nat.
Proof.
  revert idx rows rej. induction batch as [|j batch IH]; intros idx rows rej H; [by injection H as <- <-|].
  cbn [plate_collect] in H. destruct j as [| | | | | |rep]; try done. destruct (plate_validate _ _ _ _) as [|[reason|]] eqn:Ev; [done| |];
    destruct (plate_collect _ _ _ _ _ _) as [|[rows1 rej1]] eqn:Er; try done; injection H as <- <-; destruct (IH _ _ _ Er) as [Hf Hlen].
  - split; [done|]. cbn. lia.
  - split; [|cbn; lia]. constructor; [|done]. split; [by apply row_ok|]. unfold tagged. cbn [fst snd]. by destruct (entry_for _ _).
Qed.

Lemma denied_tagged p : tagged p -> denied (fst p) = is_deny p.
Proof.
  unfold tagged, denied, is_deny. intros ->. destruct (snd p); [|done]. cbn.
  apply bool_decide_ext. split; [by intros [=]|by intros ->].
Qed.

Lemma denied_reads id rows : Forall tagged rows ->
  Forall2 (fun p r => raise_event utc_offset p = alert_of r) (List.filter is_deny rows) (List.filter denied (number_reads id (fst <$> rows))).
Proof.
  intros H. revert id. induction H as [|p rows Hp Hr IH]; intros id; [constructor|]. cbn [fmap list_fmap number_reads List.filter].
  assert (denied (with_read_id id (fst p)) = is_deny p) as -> by (rewrite <- denied_tagged by done; done).
  destruct (is_deny p) eqn:E; [|apply IH]. constructor; [|apply IH]. unfold is_deny in E. unfold raise_event, alert_of.
  destruct (snd p); [|done]. rewrite bool_decide_eq_true in E. cbn. by rewrite E.
Qed.

(** C28: What a node's batch of plate reads leaves ([lpr_ingest.ingest_batch]).  A batch that
    is answered stores one read per accepted report, and accepted and rejected reports
    together are the first 200 of the batch.  Each stored read is of a camera assigned to
    the node, 50 to 100 sure, and carries the enabled live watchlist entry that its folded
    text hits — a denied one whenever there is one — or none exactly when none is hit or
    the camera has plates off.  Alerts are asked of the event pipeline for the stored
    denied reads, in order, and for nothing else, and the answer counts the events that
    came of them.  A batch that ends in an exception stores nothing. *)
Theorem denied_plates_alert node_id batch w res w' : plate_ingest py_float py_str utc_offset node_id batch w = (res, w') ->
  match res with
  | inl _ => w' = w
  | inr res =>
      exists reads, lw_reads w' = lw_reads w ++ reads /\ Forall (read_ok node_id w) reads /\
      pl_accepted res = Z.of_nat (length reads) /\ (length reads + length (pl_rejected res) = Nat.min LPR_MAX_BATCH (length batch))%nat /\
      lw_entries w' = lw_entries w /\ raised alert_of (List.filter denied reads) (pl_matched res) (lw_det w) (lw_det w')
  end.
Proof.
  unfold plate_ingest. destruct (plate_collect _ _ _ _ _ _) as [|[rows rejected]] eqn:E; [by intros [= <- <-]|].
  destruct (collected _ _ _ _ _ _ E) as [Hok Hlen]. rewrite length_take in Hlen. apply Forall_and in Hok as [Hok Ht].
  destruct (foldl _ _ _) as [raised0 d] eqn:Ef. intros [= <- <-]. exists (number_reads (lw_next w) (fst <$> rows)).
  cbn [lw_reads lw_entries lw_det pl_accepted pl_rejected pl_matched]. rewrite length_number_reads, length_fmap. split_and!; try done.
  - apply number_reads_Forall; [intros; by apply read_ok_id|by apply Forall_fmap].
  - eapply raised_Forall2; [by apply denied_reads|]. rewrite <- (Z.sub_0_r raised0). by apply raised_fold.
Qed.
End Batch.

(** ** A concrete batch *)

Definition plate_det : DetWorld :=
  {| dw_ew := demo_ew; dw_sched := demo_sched; dw_dets := []; dw_zones := []; dw_triggers := []; dw_lines := []; dw_stats := []; dw_flags := fun _ => true;
     dw_features := fun _ => ["lpr"%string]; dw_min_confidence := None |}.
Definition deny_entry : PlateEntry :=
  {| pe_id := 5; pe_plate_text := "BORN 1"; pe_plate_key := "80RN1"; pe_kind := KIND_DENY; pe_label := None; pe_enabled := true; pe_deleted_at := None |}.
Definition plate_world (l : list PlateEntry) : PlateWorld := {| lw_det := plate_det; lw_entries := l; lw_reads := []; lw_next := 20 |}.
Definition report (camera : Z) (plate : string) (conf : Z) : json :=
  JObj [("camera_id", JInt camera); ("plate_text", JStr plate); ("confidence", JInt conf)].

(** the plate of camera 11 was read with an O for the 0 and in lower case; camera 12 is another node's *)
Lemma denied_plates_alert_witness :
  exists res w', plate_ingest no_float py_none kst 1 [report 11 "born-i" 90; report 12 "BORN1" 90; report 11 "AA 77" 60; report 11 "BORN1" 30] (plate_world [deny_entry]) = (inr res, w') /\
  pl_rejected res = [(1, "not_assigned"%string); (3, "low_confidence"%string)] /\ (pr_list <$> lw_reads w') = [Some (5, KIND_DENY); None] /\
  exists reads, lw_reads w' = [] ++ reads /\ pl_accepted res = Z.of_nat (length reads) /\ raised (alert_of kst) (List.filter denied reads) 1 plate_det (lw_det w').
Proof.
  destruct (plate_ingest no_float py_none kst 1 [report 11 "born-i" 90; report 12 "BORN1" 90; report 11 "AA 77" 60; report 11 "BORN1" 30] (plate_world [deny_entry])) as [r w'] eqn:E.
  pose proof (denied_plates_alert _ _ _ _ _ _ _ _ E) as H. 
  assert (Er : r = inr {| pl_accepted := 2; pl_rejected := [(1, "not_assigned"%string); (3, "low_confidence"%string)]; pl_matched := 1 |})
    by (change r with (fst (r, w')); rewrite <- E; by vm_compute).
  assert (Ew : pr_list <$> lw_reads w' = [Some (5, KIND_DENY); None]) by (change w' with (snd (r, w')); rewrite <- E; by vm_compute).
  clear E. subst r. destruct H as (reads & Hr & _ & Ha & _ & _ & Hal). eexists _, w'. split; [done|]. split; [done|]. split; [exact Ew|].
  exists reads. split_and!; done.
Defined.

(** [create_entry] matches against live and enabled entries, the constraint counts the rest:
    a plate that was taken off the watchlist cannot be put on again *)
Example removed_plate_cannot_return :
  let w := plate_world [deny_entry] in
  let w1 := snd (delete_entry true 5 w) in
  plate_match "80RN1" w1 = None /\ fst (create_entry true (Some "BORN 1"%string) None None w1) = inl IntegrityError.
Proof. split; by vm_compute. Qed.

(** [update_entry] checks nothing: an entry of no known kind never alerts *)
Example entry_of_any_kind :
  let w1 := snd (update_entry true 5 (Some "Deny"%string) None None (plate_world [deny_entry])) in
  (match fst (plate_ingest no_float py_none kst 1 [report 11 "BORN1" 90] w1) with inr res => (pl_accepted res, pl_matched res) | inl _ => (0, 0) end) = (1, 0).
Proof. by vm_compute. Qed.

(** the checks of a report guard the conversions of the camera and of the confidence "so that one
    bad row does not abort the batch"; a plate that is not text still does *)
Example one_row_aborts_the_batch :
  fst (plate_ingest no_float py_none kst 1 [report 11 "BORN1" 90; JObj [("camera_id", JInt 11); ("plate_text", JInt 1234); ("confidence", JInt 90)]] (plate_world [deny_entry]))
  = inl AttributeError.
Proof. by vm_compute. Qed.

(** characters outside A-Z and 0-9 are dropped: plates that differ in their letter alone (ga and gu, in Hangul) have one key *)
Definition hangul_plate (b2 b3 : nat) : string :=
  ("12" ++ String (Ascii.ascii_of_nat 234) (String (Ascii.ascii_of_nat b2) (String (Ascii.ascii_of_nat b3) "3456")))%string.
Example other_scripts_collide : match_key (hangul_plate 176 128) = "123456"%string /\ match_key (hangul_plate 181 172) = "123456"%string.
Proof. split; reflexivity. Qed.
